(* ===== verification/_CoqProject ===== *)
-Q . S2P
Prelude.v
Lists.v
Bits.v
Buddy.v
Page.v
PageCache.v
HeapCache.v
ExObj.v
Mmu.v
Sv39.v
Vmspace.v
Hub.v
HubCalls.v
HubServe.v
ThreadId.v
Timer.v
Calendar.v
Sched.v
SchedInv.v
SchedKeeps.v
SchedOps.v
Tokens.v
Sync.v
IoQueue.v
VfsPath.v
Vfs.v
VfsOps.v
VfsRefs.v
VfsCalls.v
VfsMount.v
CString.v
Printf.v
Driver.v
Cpio.v
Block.v
Env.v
Elf.v
ElfFiles.v
Devices.v
UserStack.v
Objects.v
ObjectCalls.v
Process.v
ProcessExit.v
Snapshot.v
Irq.v
Sleep.v
Syscall.v
Riscv.v
X86.v
Pc32.v
