(* ===== verification/Prelude.v ===== *)
(** * nxos: a verification development (root file)

    nxos is a small kernel in C for x86 and riscv64: page and heap allocators,
    address spaces, a multi-core scheduler with semaphores and mutexes, timers,
    drivers, a virtual file system with an archive file system, processes with a
    program loader, and calls between processes.  This library models its parts
    as executable definitions that follow the C code function by function, and
    proves what makes each part correct.  A definition has the name of the
    function, macro or structure it translates; [X_loop] is the loop of [X] with
    its fuel, and a name without a counterpart is a piece of a function.

    ** The configuration

    The 64-bit build ([CONFIG_NX_CPU_64BITS], [int] 32 and pointers 64 bits, pages
    of 4096 bytes, [KVADDR_OFFSET] 0, [NX_ASSERT] active, 16 priorities, 256
    threads, 100 ticks in a second) of the riscv64 port, where a choice matters.
    Words are [Z] with the wrap-around written out ([u8] ... [u64], [i32], [i64],
    [not64]).

    ** The parts

    Ground: Lists.v ([include/base/list.h]: pointer operations on a memory of
    nodes, proved to implement the operations on sequences, so that the other
    files use sequences); Bits.v ([include/base/bitops.h], [include/base/math.h],
    [mm/buddy_common.h]); CString.v ([utils/memory.c], [utils/string.c],
    [utils/ctype.c] on a memory of bytes); Printf.v ([utils/sprintf.c]).

    Memory: Buddy.v ([mm/buddy.c]), Page.v ([mm/page.c], an array of buddy
    systems), PageCache.v ([mm/page_cache.c], spans over a zone), HeapCache.v
    ([mm/heap_cache.c], objects over spans).  Each is proved against the one
    below through an abstract specification: a zone is a set of disjoint live
    blocks, the span cache and the heap sets of live spans and objects, and every
    call of the code is a call of the abstract allocator.

    Address spaces: Mmu.v (the table of operations of [include/base/mmu.h] as the
    class [MmuOps] with its laws [MmuLaws]), Sv39.v ([arch/riscv64/port/mmu.c],
    proved to implement a finite map and to keep the laws, over Page.v),
    Vmspace.v ([mm/vmspace.c], proved against the laws).

    Scheduling: ThreadId.v ([sched/thread_id.c]), Sched.v ([sched/smp.c],
    [sched/thread.c], [sched/sched.c], [sched/semaphore.c], the handlers of
    [time/clock.c], [sched/idle.c] and [sched/deamon.c]; counters wrap as
    [NX_AtomicInc] does), SchedInv.v (the invariant), SchedKeeps.v (what no entry
    into the scheduler changes), SchedOps.v (the reachable states, creation,
    destruction and the daemon included, and what scheduling, signalling and waiting
    do), Tokens.v (what a semaphore promises, class [TokenOps], kept by
    the scheduler's semaphores), Sync.v ([sched/spin.c], [sched/mutex.c]),
    Timer.v ([time/timer.c]), Calendar.v ([time/time.c]).

    Devices and files: IoQueue.v ([io/ioqueue.c], over [TokenOps]), Driver.v
    ([io/driver.c]), Block.v ([io/block.c], [drivers/block/romdisk.c],
    [fs/devfs/devfs.c], over Driver.v), Cpio.v ([fs/cpio/cpio.c], over the class
    [BlockDev] that Block.v fulfils), VfsPath.v, Vfs.v, VfsOps.v ([fs/vfs.c]: path
    names, nodes and mounts, the calls), VfsRefs.v, VfsCalls.v, VfsMount.v (who
    holds which node, through any sequence of calls).

    Processes: ExObj.v ([kernel/exobj.c], the objects of a process), Hub.v,
    HubCalls.v, HubServe.v ([ipc/hub/hub.c], calls between processes over
    semaphores and address spaces), Env.v ([process/env.c]), Elf.v (the loader of
    [process/process.c], over the interfaces of files, page tables and memory),
    ElfFiles.v (the virtual file system over an archive fulfils the loader's
    interface), UserStack.v (the stack and thread-local area of a process),
    Objects.v and ObjectCalls.v (the system calls on semaphores, mutexes, devices and
    threads, and that they keep the objects of a process typed), Process.v and
    ProcessExit.v (the life of a process in [process/process.c]: launch, exit, wait),
    Snapshot.v ([process/snapshot.c]), Syscall.v (the other calls of
    [process/syscall.c] and the table of all).

    Time and interrupts: Irq.v ([io/irq.c], [io/delay_irq.c], [time/clock.c]:
    interrupts, the work they put off, the tick), Sleep.v ([NX_ThreadSleep], where the
    scheduler meets the timers, in two steps between which another core ticks), Riscv.v (the rest of the riscv64 port: the interrupt
    controller, traps and the dispatch of system calls, frames, the zones of memory).

    The x86 port: X86.v ([arch/x86]: descriptors of segments and gates, the interrupt
    controller, the dispatch of interrupts and system calls, contexts and the entry to
    programs) and Pc32.v ([platform/i386] and [arch/x86/kernel/memory.c]: the real-time
    clock and its driver, the serial line, the boot loader's tags, the zones of memory),
    both on 32-bit words and over the class [IoBus] of ports.

    Small drivers: Devices.v ([drivers/null], [zero], [meminfo], [cpuinfo], [dummy],
    [console], over Driver.v).

    ** The conventions

    State is passed and returned.  [None] stands for what never returns or has no
    meaning in C: a failed assertion, a null or wild access, a lock taken twice by
    its owner, a loop that never ends.  So a theorem that a call gives [Some]
    also says that it returns and asserts nothing.  Code between taking and
    releasing a lock is one step (with interrupts disabled where the code does
    so); where the code interleaves, the parts between locks and semaphores are
    steps of a transition relation (IoQueue.v, HubCalls.v, Sync.v, SchedOps.v).
    Intrusive lists are the sequences of the objects linked on them.
    [NX_MemAlloc] is an argument: the address it gives or failure, for every call,
    so that the theorems cover each failing allocation.  Function pointers
    (handlers, operations of drivers and file systems) are parameters that act on
    a world [W] of their own.  The hardware (page table walks, clocks, context
    switches) is what the code assumes of it, as a class or an argument.

    Loops that are not structural take fuel.  The fuel is a bound the code gives:
    the order of the largest block, the pages of a range, the number of nodes of a
    list, the size of the memory ([S (size m)] turns would leave it), the length
    of a text, the bytes of a device; the theorems show that the loops return
    with it, so it is never the reason for [None] within their hypotheses.

    ** The theorems

    A doc comment with a claim id (C1, C2, ...) marks the main theorem of a part;
    its witness, of the same name with [_witness], applies it to concrete values.
    The doc comment names the conditions under which it holds; where the code does
    something else without them, an [Example] shows it.
    - Refinement: list operations (C1), the buddy system as a zone of disjoint
      blocks (C2), zones (C5), spans (C23), heap objects (C24), page tables as a
      finite map (C29).
    - Invariants and safety under interleaving: the scheduler (C13, C14), mutexes
      (C17), queues (C21), references to nodes (C25), calls through hubs (C30), the
      objects of a process (C36), delayed works (C39); progress: calls are served
      (C31), searches in an archive return, on any contents return or fault (C33),
      sleepers wake (C40).
    - Functional behaviour on every branch, errors included: freeing pages (C4),
      address spaces (C6-C8), thread identifiers (C9), timers and dates (C10-C12),
      semaphores (C15, C16), memory and strings (C18, C19), the registry of drivers
      (C22), paths (C28), the loader and the stack of a process (C34, C35), the exit
      of a process (C37), snapshots (C38).
    - Round trips: allocate and free (C3), numbers printed and read (C20), mount and
      unmount (C26), acquire and release (C27), archive lookup and read (C32).
    Theorems without an id state more of the same kind: bit scans (Bits.v), tables of
    objects (ExObj.v), open and close (Driver.v), copies between spaces (Vmspace.v),
    exit of threads (SchedOps.v), the thread-local area (UserStack.v), the command line
    (Env.v), traps, masks and zones (Riscv.v, X86.v, Pc32.v), the tags of the boot loader
    and the clock of the PC (Pc32.v), the dispatch of calls (Syscall.v).
    The [Example]s evaluate the code where it does something else than it means
    to.

    ** What is not modelled

    The page tables of the x86 port (two levels, with the operations of Sv39.v), firmware
    calls, assembly (saving registers, entering traps) and the boards other than qemu and
    the PC: what the hardware does is a parameter.  Above the ports the build is the
    64-bit one.
    The start of the kernel and its output ([init], [log.c], [debug.c]); the tests; the
    build tool [scripts/xbuild/fixdep.c].  Of the modelled files: the dump of a trap
    frame, the switch of page tables and thread-local storage with a thread
    ([SchedSwithProcess]), the creation of the system threads, booting other cores
    ([NX_SMP_Main]), and the system calls that only pass their arguments on to functions
    modelled here (files, hubs, time).
    Delayed works are those of one core: works raised on other cores and the nested
    check an interrupt makes while a handler runs are left out (Irq.v).  The models of
    the scheduler leave out freeing a thread that was terminated while it waited, and
    destroying a semaphore with waiters: both leave dangling nodes
    ([terminated_waiter_dangles], [destroyed_with_waiter]). *)
From Stdlib Require Export ZArith Lia.
From stdpp Require Export base numbers option gmap list.
#[global] Open Scope Z_scope.

(** ** Machine words (LP64: [NX_Size], [NX_Addr] and [NX_UArch] are 64 bits,
    [NX_U32] and [int] 32 bits) *)
Declare Scope nx_scope.
Delimit Scope nx_scope with nx.

Definition u8 (x : Z) : Z := x mod 2 ^ 8.
Definition u16 (x : Z) : Z := x mod 2 ^ 16.
Definition u32 (x : Z) : Z := x mod 2 ^ 32.
Definition u64 (x : Z) : Z := x mod 2 ^ 64.
Definition i8 (x : Z) : Z := (x + 2 ^ 7) mod 2 ^ 8 - 2 ^ 7.
Definition i32 (x : Z) : Z := (x + 2 ^ 31) mod 2 ^ 32 - 2 ^ 31.
Definition i64 (x : Z) : Z := (x + 2 ^ 63) mod 2 ^ 64 - 2 ^ 63.

(** [~x] on a 64-bit and on a 32-bit word. *)
Definition not64 (x : Z) : Z := 2 ^ 64 - 1 - x.
Definition not32 (x : Z) : Z := 2 ^ 32 - 1 - x.

(** C's truth values. *)
Definition b2z (b : bool) : Z := if b then 1 else 0.
Definition nz (x : Z) : bool := negb (x =? 0).

Notation "x &&& y" := (Z.land x y) (at level 40, left associativity) : nx_scope.
Notation "x ||| y" := (Z.lor x y) (at level 50, left associativity) : nx_scope.
Notation "x << n" := (Z.shiftl x n) (at level 45, left associativity) : nx_scope.
Notation "x >> n" := (Z.shiftr x n) (at level 45, left associativity) : nx_scope.

(** ** [include/base/error.h] *)
Inductive NX_Error : Type :=
  | NX_EOK
  | NX_ERROR
  | NX_EPERM
  | NX_EINVAL
  | NX_ETIMEOUT
  | NX_EFAULT
  | NX_ENORES
  | NX_EAGAIN
  | NX_EINTR
  | NX_ENOMEM
  | NX_ENOFUNC
  | NX_ENOSRCH
  | NX_EIO
  | NX_EBUSY.

#[export] Instance NX_Error_eq_dec : EqDecision NX_Error.
Proof. solve_decision. Defined.

Definition is_ok (e : NX_Error) : bool := bool_decide (e = NX_EOK).

(** ** Assertions and partial operations

    [NX_ASSERT] (include/base/debug.h) halts the machine when it fails, and so
    does an access through a null or out-of-range pointer in this model: both
    are [None].  [assert b;; k] continues with [k] when [b] holds (the notations are
    stdpp's: [x ← m; k] and [m;; k]). *)
Definition assert (b : bool) : option unit := if b then Some tt else None.

#[global] Open Scope nx_scope.

(** ** Automation *)
#[export] Set Warnings "-clear-no-such-hyp".

Create HintDb nx discriminated.

(** Linear arithmetic after expanding quotients and remainders. *)
Ltac zlia := Z.to_euclidean_division_equations; lia.

(** Case analysis on the head conditional or match of an equation in
    [option], discharging the impossible branches. *)
Ltac inv_opt :=
  repeat match goal with
  | H : Some _ = Some _ |- _ => injection H as H; subst
  | H : None = Some _ |- _ => discriminate H
  | H : Some _ = None |- _ => discriminate H
  | H : mbind _ ?m = Some _ |- _ =>
      let E := fresh "E" in destruct m as [?|] eqn:E; cbn [mbind option_bind] in H; [|discriminate H]
  | H : assert ?b = Some _ |- _ =>
      let E := fresh "A" in destruct b eqn:E; simpl in H; [|discriminate H]; clear H
  | H : (let (_, _) := ?p in _) = _ |- _ => destruct p
  | H : (_, _) = (_, _) |- _ => injection H as H; subst
  end.

(** Turn boolean comparisons in hypotheses into propositions for [lia]. *)
Ltac bool2prop :=
  repeat match goal with
  | H : (_ && _)%bool = true |- _ => apply andb_true_iff in H; destruct H
  | H : (_ || _)%bool = false |- _ => apply orb_false_iff in H; destruct H
  | H : (_ && _)%bool = false |- _ => apply andb_false_iff in H
  | H : (_ || _)%bool = true |- _ => apply orb_true_iff in H
  | H : negb _ = true |- _ => apply negb_true_iff in H
  | H : negb _ = false |- _ => apply negb_false_iff in H
  | H : (_ =? _) = true |- _ => apply Z.eqb_eq in H
  | H : (_ =? _) = false |- _ => apply Z.eqb_neq in H
  | H : (_ <? _) = true |- _ => apply Z.ltb_lt in H
  | H : (_ <? _) = false |- _ => apply Z.ltb_ge in H
  | H : (_ <=? _) = true |- _ => apply Z.leb_le in H
  | H : (_ <=? _) = false |- _ => apply Z.leb_gt in H
  | H : bool_decide _ = true |- _ => apply bool_decide_eq_true in H
  | H : bool_decide _ = false |- _ => apply bool_decide_eq_false in H
  end.

(** ** Word lemmas *)
Lemma u32_small x : 0 <= x < 2 ^ 32 -> u32 x = x.
Proof. apply Z.mod_small. Qed.

Lemma u64_small x : 0 <= x < 2 ^ 64 -> u64 x = x.
Proof. apply Z.mod_small. Qed.

Lemma u32_range x : 0 <= u32 x < 2 ^ 32.
Proof. apply Z.mod_pos_bound. lia. Qed.

Lemma u64_range x : 0 <= u64 x < 2 ^ 64.
Proof. apply Z.mod_pos_bound. lia. Qed.

Lemma i32_small x : - 2 ^ 31 <= x < 2 ^ 31 -> i32 x = x.
Proof. intros. unfold i32. rewrite Z.mod_small; lia. Qed.

Lemma i64_small x : - 2 ^ 63 <= x < 2 ^ 63 -> i64 x = x.
Proof. intros. unfold i64. rewrite Z.mod_small; lia. Qed.

Lemma u64_u64 x : u64 (u64 x) = u64 x.
Proof. apply u64_small, u64_range. Qed.

Lemma u64_sub_self x y : u64 (u64 (x - y) + y) = u64 x.
Proof. unfold u64. rewrite Zplus_mod_idemp_l. f_equal. lia. Qed.

#[export] Hint Resolve u32_range u64_range : nx.

Lemma Some_bind {A B} (x : A) (f : A -> option B) : Some x ≫= f = f x.
Proof. done. Qed.

Lemma assert_true {A} (k : option A) : (assert true;; k) = k.
Proof. done. Qed.

Lemma assert_Some b u : assert b = Some u <-> b = true.
Proof. destruct b, u; simpl; split; congruence. Qed.

(** ** Lists of identifiers

    An intrusive [NX_List] is represented in the components by the sequence of
    the objects linked on it; [Lists.v] proves that the pointer operations
    implement these sequence operations. *)
Definition list_del {A} `{EqDecision A} (x : A) (l : list A) : list A :=
  filter (fun y => y <> x) l.

Section list_del.
Context {A : Type} `{EqDecision A}.
Implicit Types (x y : A) (l k : list A).

Lemma elem_of_list_del x y l : y ∈ list_del x l <-> y <> x /\ y ∈ l.
Proof. unfold list_del. by rewrite list_elem_of_filter. Qed.

Lemma list_del_notin x l : x ∉ l -> list_del x l = l.
Proof.
  induction l as [|y l IH]; intros Hx; [done|]. unfold list_del in *.
  apply not_elem_of_cons in Hx as [Hxy Hx].
  rewrite filter_cons_True by (intros ->; done). by rewrite IH.
Qed.

Lemma list_del_app x l k : list_del x (l ++ k) = list_del x l ++ list_del x k.
Proof. unfold list_del. by rewrite filter_app. Qed.

Lemma list_del_cons_eq x l : list_del x (x :: l) = list_del x l.
Proof. unfold list_del. rewrite filter_cons_False; [done|]. auto. Qed.

Lemma list_del_middle x l k :
  NoDup (l ++ x :: k) -> list_del x (l ++ x :: k) = l ++ k.
Proof.
  intros (? & Hl & [Hx _]%NoDup_cons)%NoDup_app.
  assert (x ∉ l) by (intros Hi; apply (Hl x Hi); left).
  by rewrite list_del_app, list_del_cons_eq, !list_del_notin.
Qed.

Lemma NoDup_list_del x l : NoDup l -> NoDup (list_del x l).
Proof. apply NoDup_filter. Qed.

Lemma list_del_perm x l : NoDup l -> x ∈ l -> l ≡ₚ x :: list_del x l.
Proof.
  intros Hnd (l1 & l2 & ->)%list_elem_of_split.
  rewrite list_del_middle by done. by rewrite <- Permutation_middle.
Qed.

Lemma length_list_del x l :
  NoDup l -> x ∈ l -> length l = S (length (list_del x l)).
Proof. intros Hn Hx. by rewrite (list_del_perm x l) at 1. Qed.
End list_del.

#[export] Hint Resolve NoDup_list_del : nx.

(** What a traversal that stops at the first hit finds. *)
Lemma list_find_result {A} (P : A -> Prop) `{forall x, Decision (P x)} (l : list A) :
  match list_find P l with
  | Some (i, x) => x ∈ l /\ P x
  | None => forall x, x ∈ l -> ~ P x
  end.
Proof.
  destruct (list_find P l) as [[i x]|] eqn:E.
  - apply list_find_Some in E as (Hi & HP & _). split; [by apply list_elem_of_lookup_2 with i|done].
  - apply list_find_None in E. by rewrite Forall_forall in E.
Qed.

(** ** Arrays *)

(** Indexing a C array with an [int]. *)
Definition zlookup {A} (l : list A) (i : Z) : option A :=
  if 0 <=? i then l !! Z.to_nat i else None.
Definition zinsert {A} (l : list A) (i : Z) (x : A) : list A := <[Z.to_nat i := x]> l.

Lemma zlookup_zinsert {A} (l : list A) i j x :
  0 <= i < Z.of_nat (length l) -> 0 <= j ->
  zlookup (zinsert l i x) j = if decide (j = i) then Some x else zlookup l j.
Proof.
  intros Hi Hj. unfold zlookup, zinsert. rewrite (proj2 (Z.leb_le 0 j)) by done.
  case_decide; subst.
  - apply list_lookup_insert_eq. lia.
  - apply list_lookup_insert_ne. lia.
Qed.

Lemma length_zinsert {A} (l : list A) i x : length (zinsert l i x) = length l.
Proof. apply length_insert. Qed.

Lemma zlookup_Some {A} (l : list A) i x :
  zlookup l i = Some x <-> 0 <= i /\ l !! Z.to_nat i = Some x.
Proof.
  unfold zlookup. destruct (Z.leb_spec 0 i); [tauto|].
  split; [done|]. intros []. lia.
Qed.
