(* ===== verification/Lists.v ===== *)
(** The intrusive circular doubly-linked list of [include/base/list.h].

    The memory holding the list nodes is a map from addresses to nodes; an
    access to an address that holds no node is a fault ([None]).  The
    operations are the pointer assignments of the header.  [is_list h head xs]
    says that the nodes [xs] are linked, in this order, on the list head
    [head]; the theorems show that every operation implements its counterpart
    on sequences and leaves every other list alone.  [IntrusiveList] is the
    interface that the clients of lists rely on. *)
From S2P Require Import Prelude.

Record NX_List := mkList { prev : Z; next : Z }.

#[export] Instance NX_List_eq_dec : EqDecision NX_List.
Proof. solve_decision. Defined.

Definition NX_NULL : Z := 0.

(** [p->next], [p->prev], [p->next = v] and [p->prev = v]. *)
Definition get_next (h : gmap Z NX_List) (p : Z) : option Z := next <$> h !! p.
Definition get_prev (h : gmap Z NX_List) (p : Z) : option Z := prev <$> h !! p.

Definition set_next (h : gmap Z NX_List) (p v : Z) : option (gmap Z NX_List) :=
  n ← h !! p; Some (<[p := mkList (prev n) v]> h).
Definition set_prev (h : gmap Z NX_List) (p v : Z) : option (gmap Z NX_List) :=
  n ← h !! p; Some (<[p := mkList v (next n)]> h).

Definition NX_ListInit (h : gmap Z NX_List) (list : Z) : option (gmap Z NX_List) :=
  h ← set_next h list list;
  set_prev h list list.

Definition __ListAdd (h : gmap Z NX_List) (list prev next : Z) : option (gmap Z NX_List) :=
  h ← set_prev h next list;
  h ← set_next h list next;
  h ← set_prev h list prev;
  set_next h prev list.

Definition NX_ListAdd (h : gmap Z NX_List) (list head : Z) : option (gmap Z NX_List) :=
  nx ← get_next h head;
  __ListAdd h list head nx.

Definition NX_ListAddBefore (h : gmap Z NX_List) (list node : Z) : option (gmap Z NX_List) :=
  pv ← get_prev h node;
  h ← set_next h pv list;
  pv ← get_prev h node;
  h ← set_prev h list pv;
  h ← set_next h list node;
  set_prev h node list.

Definition NX_ListAddAfter (h : gmap Z NX_List) (list node : Z) : option (gmap Z NX_List) :=
  nx ← get_next h node;
  h ← set_prev h nx list;
  h ← set_prev h list node;
  nx ← get_next h node;
  h ← set_next h list nx;
  set_next h node list.

Definition NX_ListAddTail (h : gmap Z NX_List) (list head : Z) : option (gmap Z NX_List) :=
  pv ← get_prev h head;
  __ListAdd h list pv head.

Definition __ListDel (h : gmap Z NX_List) (prev next : Z) : option (gmap Z NX_List) :=
  h ← set_prev h next prev;
  set_next h prev next.

Definition __ListDelNode (h : gmap Z NX_List) (node : Z) : option (gmap Z NX_List) :=
  pv ← get_prev h node;
  nx ← get_next h node;
  __ListDel h pv nx.

Definition NX_ListDel (h : gmap Z NX_List) (node : Z) : option (gmap Z NX_List) :=
  h ← __ListDelNode h node;
  h ← set_prev h node NX_NULL;
  set_next h node NX_NULL.

Definition NX_ListDelInit (h : gmap Z NX_List) (node : Z) : option (gmap Z NX_List) :=
  h ← __ListDelNode h node;
  NX_ListInit h node.

Definition NX_ListReplace (h : gmap Z NX_List) (old list : Z) : option (gmap Z NX_List) :=
  nx ← get_next h old;
  h ← set_next h list nx;
  nx ← get_next h list;
  h ← set_prev h nx list;
  pv ← get_prev h old;
  h ← set_prev h list pv;
  pv ← get_prev h list;
  set_next h pv list.

Definition NX_ListReplaceInit (h : gmap Z NX_List) (old list : Z) : option (gmap Z NX_List) :=
  h ← NX_ListReplace h old list;
  NX_ListInit h old.

Definition NX_ListMove (h : gmap Z NX_List) (node head : Z) : option (gmap Z NX_List) :=
  h ← __ListDelNode h node;
  NX_ListAdd h node head.

Definition NX_ListMoveTail (h : gmap Z NX_List) (node head : Z) : option (gmap Z NX_List) :=
  h ← __ListDelNode h node;
  NX_ListAddTail h node head.

Definition NX_ListIsFirst (h : gmap Z NX_List) (node head : Z) : option bool :=
  pv ← get_prev h node; Some (pv =? head).

Definition NX_ListIsLast (h : gmap Z NX_List) (node head : Z) : option bool :=
  nx ← get_next h node; Some (nx =? head).

Definition NX_ListEmpty (h : gmap Z NX_List) (head : Z) : option bool :=
  nx ← get_next h head; Some (nx =? head).

Definition NX_ListEmptyCareful (h : gmap Z NX_List) (head : Z) : option bool :=
  nx ← get_next h head;
  pv ← get_prev h head;
  Some ((nx =? head) && (nx =? pv)).

Definition NX_ListFirstEntryOrNULL (h : gmap Z NX_List) (head : Z) : option Z :=
  pos ← get_next h head;
  Some (if pos =? head then NX_NULL else pos).

Definition NX_ListLastEntryOrNULL (h : gmap Z NX_List) (head : Z) : option Z :=
  pos ← get_prev h head;
  Some (if pos =? head then NX_NULL else pos).

(** The [NX_ListForEach] loops: [fuel] bounds the number of nodes visited. *)
Fixpoint ListLength_loop (fuel : nat) (h : gmap Z NX_List) (pos head n : Z) : option Z :=
  match fuel with
  | O => None
  | S fuel =>
      if pos =? head then Some n
      else nx ← get_next h pos; ListLength_loop fuel h nx head (i32 (n + 1))
  end.

Definition NX_ListLength (fuel : nat) (h : gmap Z NX_List) (head : Z) : option Z :=
  pos ← get_next h head; ListLength_loop fuel h pos head 0.

Fixpoint ListFind_loop (fuel : nat) (h : gmap Z NX_List) (node list head : Z) : option bool :=
  match fuel with
  | O => None
  | S fuel =>
      if node =? head then Some false
      else if node =? list then Some true
      else nx ← get_next h node; ListFind_loop fuel h nx list head
  end.

Definition NX_ListFind (fuel : nat) (h : gmap Z NX_List) (list head : Z) : option bool :=
  node ← get_next h head; ListFind_loop fuel h node list head.

(** ** Representation *)

(** [a] and [b] are neighbours. *)
Definition edge (h : gmap Z NX_List) (a b : Z) : Prop :=
  get_next h a = Some b /\ get_prev h b = Some a.

Fixpoint chain (h : gmap Z NX_List) (l : list Z) : Prop :=
  match l with
  | a :: (b :: _) as l' => edge h a b /\ chain h l'
  | _ => True
  end.

(** The nodes [xs], all distinct, form with [head] a cycle. *)
Definition is_list (h : gmap Z NX_List) (head : Z) (xs : list Z) : Prop :=
  NoDup (head :: xs) /\ chain h (head :: xs ++ [head]).

(** [h'] differs from [h] at most on the nodes [ps]. *)
Definition frame (h h' : gmap Z NX_List) (ps : list Z) : Prop :=
  forall p, p ∉ ps -> h' !! p = h !! p.

(** ** Reading and writing nodes *)
Section memory.
Implicit Types (h : gmap Z NX_List) (p q v a b x : Z) (l : list Z).

Definition allocated h p : Prop := is_Some (h !! p).

Lemma get_next_alloc h p v : get_next h p = Some v -> allocated h p.
Proof. unfold get_next, allocated. destruct (h !! p); [eauto|done]. Qed.

Lemma get_prev_alloc h p v : get_prev h p = Some v -> allocated h p.
Proof. unfold get_prev, allocated. destruct (h !! p); [eauto|done]. Qed.

Lemma set_next_spec h p v :
  allocated h p ->
  exists h', set_next h p v = Some h' /\
    (forall q, get_next h' q = if decide (q = p) then Some v else get_next h q) /\
    (forall q, get_prev h' q = get_prev h q) /\
    (forall q, allocated h q -> allocated h' q) /\ frame h h' [p].
Proof.
  intros [n Hn]. unfold set_next, get_next, get_prev, allocated, frame. rewrite Hn.
  eexists; split; [reflexivity|]. repeat split; intros q; rewrite lookup_insert;
    repeat case_decide; simplify_eq; eauto; try done; try (by rewrite Hn); set_solver +.
Qed.

Lemma set_prev_spec h p v :
  allocated h p ->
  exists h', set_prev h p v = Some h' /\
    (forall q, get_prev h' q = if decide (q = p) then Some v else get_prev h q) /\
    (forall q, get_next h' q = get_next h q) /\
    (forall q, allocated h q -> allocated h' q) /\ frame h h' [p].
Proof.
  intros [n Hn]. unfold set_prev, get_next, get_prev, allocated, frame. rewrite Hn.
  eexists; split; [reflexivity|]. repeat split; intros q; rewrite lookup_insert;
    repeat case_decide; simplify_eq; eauto; try done; try (by rewrite Hn); set_solver +.
Qed.

Lemma frame_refl h ps : frame h h ps.
Proof. done. Qed.

Lemma frame_trans h1 h2 h3 ps qs :
  frame h1 h2 ps -> frame h2 h3 qs -> frame h1 h3 (ps ++ qs).
Proof.
  intros H1 H2 p Hp. rewrite not_elem_of_app in Hp. destruct Hp.
  by rewrite H2, H1.
Qed.

Lemma frame_mono h h' ps qs : frame h h' ps -> ps ⊆ qs -> frame h h' qs.
Proof. intros Hf Hs p Hp. apply Hf. set_solver. Qed.

(** *** Chains *)
Lemma chain_app l1 a l2 h :
  chain h (l1 ++ a :: l2) <-> chain h (l1 ++ [a]) /\ chain h (a :: l2).
Proof.
  induction l1 as [|x l1 IH]; [simpl; tauto|].
  destruct l1 as [|y l1]; simpl in *; tauto.
Qed.

Lemma chain_snoc2 l a b h : chain h (l ++ [a; b]) <-> chain h (l ++ [a]) /\ edge h a b.
Proof. rewrite (chain_app l a [b]). simpl. tauto. Qed.

Lemma chain_ext h h' l :
  (forall p, p ∈ removelast l -> get_next h' p = get_next h p) ->
  (forall p, p ∈ tail l -> get_prev h' p = get_prev h p) ->
  chain h l -> chain h' l.
Proof.
  induction l as [|a [|b l] IH]; intros Hn Hp; [done..|].
  intros [[H1 H2] H3]. split; [split|].
  - rewrite Hn; [done|]. simpl. left.
  - rewrite Hp; [done|]. simpl. left.
  - apply IH; [..|done].
    + intros p Hin. apply Hn. simpl in *. by right.
    + intros p Hin. apply Hp. simpl in *. by right.
Qed.

Lemma is_list_frame h h' ps head xs :
  is_list h head xs -> frame h h' ps -> (forall p, p ∈ head :: xs -> p ∉ ps) ->
  is_list h' head xs.
Proof.
  intros [Hnd Hc] Hf Hd. split; [done|].
  assert (Hsame : forall p, p ∈ head :: xs -> h' !! p = h !! p) by eauto.
  revert Hc. apply chain_ext; intros p Hp; unfold get_next, get_prev; rewrite Hsame;
    try done.
  - rewrite app_comm_cons, removelast_last in Hp. done.
  - simpl in Hp. set_solver.
Qed.
End memory.

(** The two halves of a cycle cut after [l1]: [a] ends the first half and [b]
    starts the second. *)
Lemma half_left (head : Z) (l1 : list Z) : exists m a, head :: l1 = m ++ [a].
Proof.
  destruct (exists_last (l := head :: l1)) as (m & a & ->); [done|]. eauto.
Qed.

Lemma half_right (head : Z) (l2 : list Z) : exists b m, l2 ++ [head] = b :: m.
Proof. destruct l2; simpl; eauto. Qed.

(** Where the two ends of the cut can occur. *)
Lemma halves_disjoint (head : Z) (l1 l2 m1 m2 : list Z) (a b : Z) :
  NoDup (head :: l1 ++ l2) -> head :: l1 = m1 ++ [a] -> l2 ++ [head] = b :: m2 ->
  (b ∉ m2 /\ b ∉ l1) /\ (a ∉ m1 /\ a ∉ l2).
Proof.
  intros Hnd E1 E2.
  rewrite app_comm_cons, NoDup_app in Hnd. destruct Hnd as (Hn1 & H2 & Hn2).
  assert (Hh : head ∉ l2) by (apply H2; left).
  assert (Hnd2 : NoDup (b :: m2)).
  { rewrite <- E2. apply NoDup_app; repeat split; [done|set_solver +Hh|apply NoDup_singleton]. }
  split; split.
  - by apply NoDup_cons in Hnd2 as [? _].
  - assert (b ∈ l2 ++ [head]) as [Hb|Hb]%elem_of_app by (rewrite E2; left).
    + intros Hb'. apply (H2 b); [by right|done].
    + apply list_elem_of_singleton in Hb as ->. by apply NoDup_cons in Hn1 as [? _].
  - rewrite E1, NoDup_app in Hn1. destruct Hn1 as (_ & H1 & _).
    intros Ha. apply (H1 a Ha). left.
  - apply H2. rewrite E1. set_solver +.
Qed.

Lemma outside_ends (head : Z) (l1 l2 m1 m2 : list Z) (a b x : Z) :
  x ∉ head :: l1 ++ l2 -> head :: l1 = m1 ++ [a] -> l2 ++ [head] = b :: m2 ->
  x <> a /\ x <> b.
Proof.
  intros Hx E1 E2. split; intros ->; apply Hx.
  - assert (a ∈ head :: l1) as Ha by (rewrite E1; set_solver +).
    revert Ha. clear. set_solver.
  - assert (b ∈ l2 ++ [head]) as Hb by (rewrite E2; left).
    revert Hb. clear. set_solver.
Qed.

(** Memories that differ only in the outgoing link of [a], the incoming link
    of [b] and the node [x] have the same half cycles. *)
Lemma relink_halves h h' head l1 l2 m1 a b m2 x :
  NoDup (head :: l1 ++ l2) -> x ∉ head :: l1 ++ l2 ->
  head :: l1 = m1 ++ [a] -> l2 ++ [head] = b :: m2 ->
  (forall p, p <> a -> p <> x -> get_next h' p = get_next h p) ->
  (forall p, p <> b -> p <> x -> get_prev h' p = get_prev h p) ->
  chain h (m1 ++ [a]) -> chain h (b :: m2) ->
  chain h' (m1 ++ [a]) /\ chain h' (b :: m2).
Proof.
  intros Hnd Hx E1 E2 Hn Hp.
  destruct (halves_disjoint head l1 l2 m1 m2 a b Hnd E1 E2) as ((Hb1 & Hb2) & Ha1 & Ha2).
  assert (Hin1 : forall p, p ∈ head :: l1 -> p <> x).
  { intros p Hin ->. apply Hx. revert Hin. clear. set_solver. }
  assert (Hin2 : forall p, p ∈ l2 ++ [head] -> p <> x).
  { intros p Hin ->. apply Hx. revert Hin. clear. set_solver. }
  intros Hc1 Hc2. split; [revert Hc1|revert Hc2]; apply chain_ext; intros p Hpin.
  - rewrite removelast_last in Hpin. apply Hn; [intros ->; done|].
    apply Hin1. rewrite E1. set_solver +Hpin.
  - rewrite <- E1 in Hpin. simpl in Hpin. apply Hp; [intros ->; done|]. apply Hin1. by right.
  - rewrite <- E2, removelast_last in Hpin. apply Hn; [intros ->; done|].
    apply Hin2. set_solver +Hpin.
  - simpl in Hpin. apply Hp; [intros ->; done|]. apply Hin2. rewrite E2. by right.
Qed.

(** Cutting a list after [l1]: its two halves and the edge between them. *)
Lemma is_list_cut h head l1 l2 :
  is_list h head (l1 ++ l2) ->
  exists m1 a b m2, head :: l1 = m1 ++ [a] /\ l2 ++ [head] = b :: m2 /\
    NoDup (head :: l1 ++ l2) /\ edge h a b /\ chain h (m1 ++ [a]) /\ chain h (b :: m2).
Proof.
  intros [Hnd Hc]. destruct (half_left head l1) as (m1 & a & E1).
  destruct (half_right head l2) as (b & m2 & E2). exists m1, a, b, m2.
  rewrite <- app_assoc, E2, app_comm_cons, E1, <- app_assoc in Hc. simpl in Hc.
  apply chain_app in Hc as [Hc1 Hc2]. simpl in Hc2. tauto.
Qed.

(** Any relinking of [x] between the ends of the cut inserts [x]. *)
Lemma is_list_insert h h' head l1 l2 m1 a b m2 x :
  NoDup (head :: l1 ++ l2) -> x ∉ head :: l1 ++ l2 ->
  head :: l1 = m1 ++ [a] -> l2 ++ [head] = b :: m2 ->
  chain h (m1 ++ [a]) -> chain h (b :: m2) ->
  (forall p, get_next h' p =
     if decide (p = a) then Some x else if decide (p = x) then Some b else get_next h p) ->
  (forall p, get_prev h' p =
     if decide (p = b) then Some x else if decide (p = x) then Some a else get_prev h p) ->
  is_list h' head (l1 ++ x :: l2).
Proof.
  intros Hnd Hx E1 E2 Hc1 Hc2 Hn Hp.
  destruct (outside_ends head l1 l2 m1 m2 a b x Hx E1 E2) as [Hxa Hxb].
  destruct (relink_halves h h' head l1 l2 m1 a b m2 x) as [H1 H2]; try done.
  { intros p ??. rewrite Hn. by rewrite !decide_False. }
  { intros p ??. rewrite Hp. by rewrite !decide_False. }
  split.
  - rewrite app_comm_cons, <- Permutation_middle. by apply NoDup_cons.
  - rewrite <- app_assoc, app_comm_cons, E1, <- app_assoc. simpl. apply chain_app.
    split; [done|]. rewrite E2.
    split; [|split]; [split|split|done]; rewrite ?Hn, ?Hp; repeat case_decide; congruence.
Qed.

(** Linking the ends of the cut around a single node removes that node. *)
Lemma is_list_unlink h h' head l1 l2 m1 a b m2 x :
  NoDup (head :: l1 ++ l2) -> x ∉ head :: l1 ++ l2 ->
  head :: l1 = m1 ++ [a] -> l2 ++ [head] = b :: m2 ->
  chain h (m1 ++ [a]) -> chain h (b :: m2) ->
  (forall p, p <> x -> get_next h' p = if decide (p = a) then Some b else get_next h p) ->
  (forall p, p <> x -> get_prev h' p = if decide (p = b) then Some a else get_prev h p) ->
  is_list h' head (l1 ++ l2).
Proof.
  intros Hnd Hx E1 E2 Hc1 Hc2 Hn Hp.
  destruct (outside_ends head l1 l2 m1 m2 a b x Hx E1 E2) as [Hxa Hxb].
  destruct (relink_halves h h' head l1 l2 m1 a b m2 x) as [H1 H2]; try done.
  { intros p ??. rewrite Hn by done. by rewrite decide_False. }
  { intros p ??. rewrite Hp by done. by rewrite decide_False. }
  split; [done|]. rewrite <- app_assoc, E2, app_comm_cons, E1, <- app_assoc. simpl.
  apply chain_app. split; [done|]. split; [|done].
  split; [rewrite Hn|rewrite Hp]; try done; by rewrite decide_True.
Qed.

(** Close [links_between h h4 x a b] from the specifications of the
    assignments leading from [h] to [h4]. *)
Ltac solve_links :=
  split; [|split; [|split]];
  [ intros p;
    repeat match goal with H : forall q, get_next ?h q = _ |- context [get_next ?h p] =>
      rewrite H end; repeat case_decide; congruence
  | intros p;
    repeat match goal with H : forall q, get_prev ?h q = _ |- context [get_prev ?h p] =>
      rewrite H end; repeat case_decide; congruence
  | eapply frame_mono;
    [ repeat (eapply frame_trans; [eassumption|]); apply frame_refl with (ps := [])
    | clear; set_solver ]
  | auto 10 ].

(** ** The operations implement the operations on sequences *)
Section operations.
Implicit Types (h : gmap Z NX_List) (p x head node : Z) (xs l : list Z).

(** What an operation guarantees besides its effect on the list it works
    on: only the nodes [ps] change and nothing is freed. *)
Definition changes h h' ps : Prop :=
  frame h h' ps /\ (forall p, allocated h p -> allocated h' p).

(** The four assignments of [__ListAdd] and the six of [NX_ListAddBefore]
    and [NX_ListAddAfter] have this effect. *)
Definition links_between h h' x a b : Prop :=
  (forall p, get_next h' p =
     if decide (p = a) then Some x else if decide (p = x) then Some b else get_next h p) /\
  (forall p, get_prev h' p =
     if decide (p = b) then Some x else if decide (p = x) then Some a else get_prev h p) /\
  changes h h' [x; a; b].

Lemma changes_app h1 h2 h3 ps qs rs :
  changes h1 h2 ps -> changes h2 h3 qs -> ps ++ qs ⊆ rs -> changes h1 h3 rs.
Proof.
  intros [F1 A1] [F2 A2] Hs. split; [|by auto].
  eapply frame_mono; [|exact Hs]. by eapply frame_trans.
Qed.

Lemma changes_mono h h' ps qs : changes h h' ps -> ps ⊆ qs -> changes h h' qs.
Proof. intros [F A] Hs. split; [|done]. by eapply frame_mono. Qed.

Lemma __ListAdd_spec h x a b :
  allocated h x -> allocated h a -> allocated h b -> x <> a -> x <> b ->
  exists h', __ListAdd h x a b = Some h' /\ links_between h h' x a b.
Proof.
  intros Hx Ha Hb Hxa Hxb. unfold __ListAdd.
  destruct (set_prev_spec h b x Hb) as (h1 & -> & P1 & N1 & A1 & F1).
  destruct (set_next_spec h1 x b (A1 _ Hx)) as (h2 & E2 & N2 & P2 & A2 & F2).
  destruct (set_prev_spec h2 x a (A2 _ (A1 _ Hx))) as (h3 & E3 & P3 & N3 & A3 & F3).
  destruct (set_next_spec h3 a x (A3 _ (A2 _ (A1 _ Ha)))) as (h4 & E4 & N4 & P4 & A4 & F4).
  simpl. rewrite E2. simpl. rewrite E3. simpl. exists h4. split; [done|].
  solve_links.
Qed.

Lemma edge_ends h a b : edge h a b -> allocated h a /\ allocated h b.
Proof. intros [?%get_next_alloc ?%get_prev_alloc]. done. Qed.

(** Inserting [x] into the cut after [l1] inserts it into the sequence. *)
Lemma links_between_insert h head l1 l2 m1 a b m2 x :
  is_list h head (l1 ++ l2) -> x ∉ head :: l1 ++ l2 ->
  head :: l1 = m1 ++ [a] -> l2 ++ [head] = b :: m2 ->
  forall h', links_between h h' x a b ->
  is_list h' head (l1 ++ x :: l2) /\ changes h h' (x :: head :: l1 ++ l2).
Proof.
  intros Hl Hx E1 E2 h' (Hn & Hp & Hch).
  destruct (is_list_cut h head l1 l2 Hl) as (m1' & a' & b' & m2' & E1' & E2' & Hnd & _ & Hc1 & Hc2).
  rewrite E1 in E1'. apply app_inj_tail in E1' as [<- <-].
  rewrite E2 in E2'. injection E2' as <- <-.
  split; [by eapply is_list_insert|].
  eapply changes_mono; [exact Hch|].
  assert (a ∈ head :: l1) as Ha by (rewrite E1; set_solver +).
  assert (b ∈ l2 ++ [head]) as Hb by (rewrite E2; left).
  revert Ha Hb. clear. set_solver.
Qed.

Lemma cut_edge h head l1 l2 m1 a b m2 :
  is_list h head (l1 ++ l2) -> head :: l1 = m1 ++ [a] -> l2 ++ [head] = b :: m2 ->
  edge h a b.
Proof.
  intros Hl E1 E2.
  destruct (is_list_cut h head l1 l2 Hl) as (m1' & a' & b' & m2' & E1' & E2' & _ & He & _).
  rewrite E1 in E1'. apply app_inj_tail in E1' as [<- <-].
  rewrite E2 in E2'. by injection E2' as <- <-.
Qed.

Lemma insert_at h head l1 l2 m1 a b m2 x :
  is_list h head (l1 ++ l2) -> x ∉ head :: l1 ++ l2 -> allocated h x ->
  head :: l1 = m1 ++ [a] -> l2 ++ [head] = b :: m2 ->
  exists h', __ListAdd h x a b = Some h' /\ is_list h' head (l1 ++ x :: l2) /\
    changes h h' (x :: head :: l1 ++ l2).
Proof.
  intros Hl Hx Hax E1 E2.
  destruct (edge_ends h a b) as [Ha Hb]; [by eapply cut_edge|].
  destruct (outside_ends head l1 l2 m1 m2 a b x Hx E1 E2) as [Hxa Hxb].
  destruct (__ListAdd_spec h x a b) as (h' & E & Hlk); [done..|].
  exists h'. split; [done|]. by eapply links_between_insert.
Qed.

Lemma NX_ListAdd_spec h head xs x :
  is_list h head xs -> x ∉ head :: xs -> allocated h x ->
  exists h', NX_ListAdd h x head = Some h' /\ is_list h' head (x :: xs) /\
    changes h h' (x :: head :: xs).
Proof.
  intros Hl Hx Ha. destruct (half_right head xs) as (b & m2 & E2).
  unfold NX_ListAdd. destruct (cut_edge h head [] xs [] head b m2 Hl eq_refl E2) as [-> _].
  by apply (insert_at h head [] xs [] head b m2 x).
Qed.

Lemma NX_ListAddTail_spec h head xs x :
  is_list h head xs -> x ∉ head :: xs -> allocated h x ->
  exists h', NX_ListAddTail h x head = Some h' /\ is_list h' head (xs ++ [x]) /\
    changes h h' (x :: head :: xs).
Proof.
  intros Hl Hx Ha. destruct (half_left head xs) as (m1 & a & E1).
  rewrite <- (app_nil_r xs) in Hl, Hx.
  unfold NX_ListAddTail.
  destruct (cut_edge h head xs [] m1 a head [] Hl E1 eq_refl) as [_ ->].
  destruct (insert_at h head xs [] m1 a head [] x) as (h' & H1 & H2 & H3); [done..|].
  exists h'. rewrite app_nil_r in H3. done.
Qed.

Lemma NX_ListAddBefore_spec h head l1 l2 x node :
  is_list h head (l1 ++ l2) -> hd head l2 = node -> x ∉ head :: l1 ++ l2 -> allocated h x ->
  exists h', NX_ListAddBefore h x node = Some h' /\ is_list h' head (l1 ++ x :: l2) /\
    changes h h' (x :: head :: l1 ++ l2).
Proof.
  intros Hl Hnode Hx Hax.
  destruct (half_left head l1) as (m1 & a & E1).
  destruct (half_right head l2) as (b & m2 & E2).
  assert (b = node) as -> by (destruct l2; simpl in *; congruence).
  pose proof (cut_edge h head l1 l2 m1 a node m2 Hl E1 E2) as He.
  destruct (edge_ends h a node He) as [Ha Hb]. destruct He as [_ He].
  destruct (outside_ends head l1 l2 m1 m2 a node x Hx E1 E2) as [Hxa Hxb].
  unfold NX_ListAddBefore. rewrite He. simpl.
  destruct (set_next_spec h a x Ha) as (h1 & -> & N1 & P1 & A1 & F1). simpl.
  rewrite P1, He. simpl.
  destruct (set_prev_spec h1 x a (A1 _ Hax)) as (h2 & -> & P2 & N2 & A2 & F2). simpl.
  destruct (set_next_spec h2 x node (A2 _ (A1 _ Hax))) as (h3 & -> & N3 & P3 & A3 & F3). simpl.
  destruct (set_prev_spec h3 node x (A3 _ (A2 _ (A1 _ Hb)))) as (h4 & -> & P4 & N4 & A4 & F4).
  exists h4. split; [done|]. eapply links_between_insert; try done.
  solve_links.
Qed.

Lemma NX_ListAddAfter_spec h head l1 l2 x node :
  is_list h head (l1 ++ l2) -> last (head :: l1) = Some node -> x ∉ head :: l1 ++ l2 ->
  allocated h x ->
  exists h', NX_ListAddAfter h x node = Some h' /\ is_list h' head (l1 ++ x :: l2) /\
    changes h h' (x :: head :: l1 ++ l2).
Proof.
  intros Hl Hnode Hx Hax.
  destruct (half_left head l1) as (m1 & a & E1).
  destruct (half_right head l2) as (b & m2 & E2).
  rewrite E1, last_snoc in Hnode. injection Hnode as ->.
  pose proof (cut_edge h head l1 l2 m1 node b m2 Hl E1 E2) as He.
  destruct (edge_ends h node b He) as [Ha Hb]. destruct He as [He _].
  destruct (outside_ends head l1 l2 m1 m2 node b x Hx E1 E2) as [Hxa Hxb].
  unfold NX_ListAddAfter. rewrite He. simpl.
  destruct (set_prev_spec h b x Hb) as (h1 & -> & P1 & N1 & A1 & F1). simpl.
  destruct (set_prev_spec h1 x node (A1 _ Hax)) as (h2 & -> & P2 & N2 & A2 & F2). simpl.
  rewrite N2, N1, He. simpl.
  destruct (set_next_spec h2 x b (A2 _ (A1 _ Hax))) as (h3 & -> & N3 & P3 & A3 & F3). simpl.
  destruct (set_next_spec h3 node x (A3 _ (A2 _ (A1 _ Ha)))) as (h4 & -> & N4 & P4 & A4 & F4).
  exists h4. split; [done|]. eapply links_between_insert; try done.
  solve_links.
Qed.

(** The neighbourhood of a node on a list. *)
Lemma is_list_around h head l1 x l2 :
  is_list h head (l1 ++ x :: l2) ->
  exists m1 a b m2, head :: l1 = m1 ++ [a] /\ l2 ++ [head] = b :: m2 /\
    NoDup (head :: l1 ++ l2) /\ x ∉ head :: l1 ++ l2 /\
    edge h a x /\ edge h x b /\ chain h (m1 ++ [a]) /\ chain h (b :: m2).
Proof.
  intros Hl. destruct (is_list_cut h head l1 (x :: l2) Hl)
    as (m1 & a & b & m2 & E1 & E2 & Hnd & He & Hc1 & Hc2).
  simpl in E2. injection E2 as <- <-.
  destruct (half_right head l2) as (b & m2 & E2). rewrite E2 in Hc2.
  destruct Hc2 as [He2 Hc2].
  rewrite app_comm_cons, <- Permutation_middle, NoDup_cons in Hnd. destruct Hnd as [Hx Hnd].
  exists m1, a, b, m2. done.
Qed.

Lemma __ListDelNode_spec h head l1 x l2 :
  is_list h head (l1 ++ x :: l2) ->
  exists h', __ListDelNode h x = Some h' /\ is_list h' head (l1 ++ l2) /\
    x ∉ head :: l1 ++ l2 /\ changes h h' (head :: l1 ++ l2).
Proof.
  intros Hl. destruct (is_list_around h head l1 x l2 Hl)
    as (m1 & a & b & m2 & E1 & E2 & Hnd & Hx & He1 & He2 & Hc1 & Hc2).
  destruct (edge_ends h a x He1) as [Ha Hax]. destruct (edge_ends h x b He2) as [_ Hb].
  unfold __ListDelNode, __ListDel. destruct He1 as [_ ->], He2 as [-> _]. simpl.
  destruct (set_prev_spec h b a Hb) as (h1 & -> & P1 & N1 & A1 & F1). simpl.
  destruct (set_next_spec h1 a b (A1 _ Ha)) as (h2 & -> & N2 & P2 & A2 & F2).
  exists h2. split; [done|]. split; [|split; [done|split]].
  - eapply (is_list_unlink h h2 head l1 l2 m1 a b m2 x); try done; intros p Hp.
    + by rewrite N2, N1.
    + by rewrite P2, P1.
  - eapply frame_mono; [by eapply frame_trans|].
    assert (a ∈ head :: l1) as Hina by (rewrite E1; set_solver +).
    assert (b ∈ l2 ++ [head]) as Hinb by (rewrite E2; left).
    revert Hina Hinb. clear. set_solver.
  - auto.
Qed.

Lemma is_list_changes h h' ps head xs :
  is_list h head xs -> changes h h' ps -> (forall p, p ∈ head :: xs -> p ∉ ps) ->
  is_list h' head xs.
Proof. intros Hl [Hf _]. by eapply is_list_frame. Qed.

Lemma NX_ListDel_spec h head l1 x l2 :
  is_list h head (l1 ++ x :: l2) -> allocated h x ->
  exists h', NX_ListDel h x = Some h' /\ is_list h' head (l1 ++ l2) /\
    h' !! x = Some (mkList NX_NULL NX_NULL) /\ changes h h' (x :: head :: l1 ++ l2).
Proof.
  intros Hl Hax. destruct (__ListDelNode_spec h head l1 x l2 Hl) as (h1 & E & Hl1 & Hx & C1).
  unfold NX_ListDel. rewrite E. simpl.
  pose proof (proj2 C1 _ Hax) as [n1 Hn1].
  unfold set_prev, set_next. rewrite Hn1. simpl. rewrite lookup_insert_eq. simpl.
  rewrite insert_insert_eq. eexists. split; [reflexivity|].
  assert (C2 : changes h1 (<[x:={| prev := NX_NULL; next := NX_NULL |}]> h1) [x]).
  { split; [intros p Hp; rewrite lookup_insert_ne; set_solver +Hp|].
    intros p Hp. unfold allocated. rewrite lookup_insert. case_decide; eauto. }
  split; [|split].
  - eapply is_list_changes; [exact Hl1|exact C2|]. intros p Hp1 Hp2. set_solver +Hp1 Hp2 Hx.
  - by rewrite lookup_insert_eq.
  - eapply changes_app; [exact C1|exact C2|]. clear. set_solver.
Qed.

Lemma NX_ListInit_spec h x :
  allocated h x ->
  exists h', NX_ListInit h x = Some h' /\ is_list h' x [] /\ changes h h' [x].
Proof.
  intros Hx. unfold NX_ListInit.
  destruct (set_next_spec h x x Hx) as (h1 & -> & N1 & P1 & A1 & F1). simpl.
  destruct (set_prev_spec h1 x x (A1 _ Hx)) as (h2 & -> & P2 & N2 & A2 & F2).
  exists h2. split; [done|]. split; [split|split].
  - apply NoDup_singleton.
  - split; [split|done]; [rewrite N2, N1|rewrite P2]; by rewrite decide_True.
  - eapply frame_mono; [by eapply frame_trans|]. clear. set_solver.
  - auto.
Qed.

Lemma NX_ListDelInit_spec h head l1 x l2 :
  is_list h head (l1 ++ x :: l2) -> allocated h x ->
  exists h', NX_ListDelInit h x = Some h' /\ is_list h' head (l1 ++ l2) /\
    is_list h' x [] /\ changes h h' (x :: head :: l1 ++ l2).
Proof.
  intros Hl Hax. destruct (__ListDelNode_spec h head l1 x l2 Hl) as (h1 & E & Hl1 & Hx & C1).
  unfold NX_ListDelInit. rewrite E. simpl.
  destruct (NX_ListInit_spec h1 x (proj2 C1 _ Hax)) as (h2 & -> & Hl2 & C2).
  exists h2. split; [done|]. split; [|split; [done|]].
  - eapply is_list_changes; [exact Hl1|exact C2|]. intros p Hp1 Hp2. set_solver +Hp1 Hp2 Hx.
  - eapply changes_app; [exact C1|exact C2|]. clear. set_solver.
Qed.

Lemma NX_ListReplace_spec h head l1 x l2 y :
  is_list h head (l1 ++ x :: l2) -> y ∉ head :: l1 ++ x :: l2 -> allocated h y ->
  exists h', NX_ListReplace h x y = Some h' /\ is_list h' head (l1 ++ y :: l2) /\
    changes h h' (y :: head :: l1 ++ l2).
Proof.
  intros Hl Hy Hay. destruct (is_list_around h head l1 x l2 Hl)
    as (m1 & a & b & m2 & E1 & E2 & Hnd & Hx & He1 & He2 & Hc1 & Hc2).
  destruct (edge_ends h a x He1) as [Ha _]. destruct (edge_ends h x b He2) as [_ Hb].
  assert (Hy' : y ∉ head :: l1 ++ l2) by (revert Hy; clear; set_solver).
  assert (Hyx : y <> x) by (intros ->; apply Hy; clear; set_solver).
  destruct (outside_ends head l1 l2 m1 m2 a b y Hy' E1 E2) as [Hya Hyb].
  destruct (outside_ends head l1 l2 m1 m2 a b x Hx E1 E2) as [Hxa Hxb].
  unfold NX_ListReplace. destruct He1 as [Na Px], He2 as [Nx Pb].
  rewrite Nx. simpl.
  destruct (set_next_spec h y b Hay) as (h1 & -> & N1 & P1 & A1 & F1). simpl.
  rewrite N1, decide_True by done. simpl.
  destruct (set_prev_spec h1 b y (A1 _ Hb)) as (h2 & -> & P2 & N2 & A2 & F2). simpl.
  rewrite P2, decide_False, P1, Px by done. simpl.
  destruct (set_prev_spec h2 y a (A2 _ (A1 _ Hay))) as (h3 & -> & P3 & N3 & A3 & F3). simpl.
  rewrite P3, decide_True by done. simpl.
  destruct (set_next_spec h3 a y (A3 _ (A2 _ (A1 _ Ha)))) as (h4 & -> & N4 & P4 & A4 & F4).
  assert (links_between h h4 y a b) as (Hn & Hp & C) by solve_links.
  exists h4. split; [done|]. split; [by eapply (is_list_insert h)|].
  eapply changes_mono; [exact C|].
  assert (a ∈ head :: l1) as Hina by (rewrite E1; set_solver +).
  assert (b ∈ l2 ++ [head]) as Hinb by (rewrite E2; left).
  revert Hina Hinb. clear. set_solver.
Qed.

(** *** Queries and traversals *)
Lemma is_list_ends h head xs :
  is_list h head xs ->
  get_next h head = Some (hd head xs) /\ get_prev h head = Some (List.last xs head).
Proof.
  intros Hl. destruct (half_right head xs) as (b & m2 & E2).
  destruct (half_left head xs) as (m1 & a & E1). split.
  - destruct (cut_edge h head [] xs [] head b m2 Hl eq_refl E2) as [-> _].
    by destruct xs; simpl in *; congruence.
  - rewrite <- (app_nil_r xs) in Hl.
    destruct (cut_edge h head xs [] m1 a head [] Hl E1 eq_refl) as [_ ->].
    f_equal. destruct xs as [|x xs _] using rev_ind.
    + destruct m1 as [|? [|]]; simpl in *; congruence.
    + rewrite app_comm_cons in E1. apply app_inj_tail in E1 as [_ ->].
      by rewrite List.last_last.
Qed.

Lemma NX_ListEmpty_spec h head xs :
  is_list h head xs -> NX_ListEmpty h head = Some (bool_decide (xs = [])).
Proof.
  intros Hl. unfold NX_ListEmpty. destruct (is_list_ends h head xs Hl) as [-> _]. simpl.
  destruct Hl as [[Hh _]%NoDup_cons _].
  destruct xs as [|x xs]; simpl; f_equal; [lia|].
  apply Z.eqb_neq. intros ->. set_solver +Hh.
Qed.

Lemma NX_ListFirstEntryOrNULL_spec h head xs :
  is_list h head xs -> NX_ListFirstEntryOrNULL h head = Some (hd NX_NULL xs).
Proof.
  intros Hl. unfold NX_ListFirstEntryOrNULL.
  destruct (is_list_ends h head xs Hl) as [-> _]. simpl.
  destruct Hl as [[Hh _]%NoDup_cons _].
  destruct xs as [|x xs]; simpl; [by rewrite Z.eqb_refl|].
  destruct (Z.eqb_spec x head) as [->|]; [set_solver +Hh|done].
Qed.

(** A traversal from the start of [l2] reaches the head in [length l2 + 1]
    steps. *)
Lemma ListFind_loop_spec h head x l2 :
  forall l1 fuel, is_list h head (l1 ++ l2) -> (length l2 < fuel)%nat ->
  ListFind_loop fuel h (hd head l2) x head = Some (bool_decide (x ∈ l2)).
Proof.
  induction l2 as [|y l2 IH]; intros l1 fuel Hl Hf; (destruct fuel as [|fuel]; simpl in Hf; [lia|]).
  - cbn. by rewrite Z.eqb_refl.
  - cbn [ListFind_loop hd]. assert (y <> head) as Hyh.
    { destruct Hl as [[Hh _]%NoDup_cons _]. intros ->. apply Hh. set_solver +. }
    rewrite (proj2 (Z.eqb_neq y head) Hyh).
    destruct (Z.eqb_spec y x) as [->|Hyx].
    { rewrite bool_decide_eq_true_2 by left. done. }
    destruct (is_list_around h head l1 y l2 Hl)
      as (m1 & a & b & m2 & E1 & E2 & _ & _ & _ & [-> _] & _ & _). cbn [mbind option_bind].
    assert (b = hd head l2) as -> by (destruct l2; simpl in *; congruence).
    rewrite cons_middle, app_assoc in Hl. rewrite (IH (l1 ++ [y]) fuel Hl) by lia.
    f_equal. apply bool_decide_ext. set_solver +Hyx.
Qed.

Lemma NX_ListFind_spec h head xs x fuel :
  is_list h head xs -> (length xs < fuel)%nat ->
  NX_ListFind fuel h x head = Some (bool_decide (x ∈ xs)).
Proof.
  intros Hl Hf. unfold NX_ListFind.
  destruct (is_list_ends h head xs Hl) as [-> _]. simpl.
  by apply (ListFind_loop_spec h head x xs [] fuel).
Qed.

Lemma ListLength_loop_spec h head l2 :
  forall l1 fuel n, is_list h head (l1 ++ l2) -> (length l2 < fuel)%nat ->
  0 <= n -> n + Z.of_nat (length l2) < 2 ^ 31 ->
  ListLength_loop fuel h (hd head l2) head n = Some (n + Z.of_nat (length l2)).
Proof.
  induction l2 as [|y l2 IH]; intros l1 fuel n Hl Hf Hn Hb;
    (destruct fuel as [|fuel]; simpl in Hf; [lia|]).
  - simpl. rewrite Z.eqb_refl. f_equal. lia.
  - simpl. assert (y <> head) as Hyh.
    { destruct Hl as [[Hh _]%NoDup_cons _]. intros ->. apply Hh. set_solver +. }
    rewrite (proj2 (Z.eqb_neq y head) Hyh).
    destruct (is_list_around h head l1 y l2 Hl)
      as (m1 & a & b & m2 & E1 & E2 & _ & _ & _ & [-> _] & _ & _). simpl.
    assert (b = hd head l2) as -> by (destruct l2; simpl in *; congruence).
    rewrite cons_middle, app_assoc in Hl. simpl in Hb.
    rewrite i32_small by lia. rewrite (IH (l1 ++ [y]) fuel) by (done || lia).
    f_equal. lia.
Qed.

Lemma NX_ListLength_spec h head xs fuel :
  is_list h head xs -> (length xs < fuel)%nat -> Z.of_nat (length xs) < 2 ^ 31 ->
  NX_ListLength fuel h head = Some (Z.of_nat (length xs)).
Proof.
  intros Hl Hf Hb. unfold NX_ListLength.
  destruct (is_list_ends h head xs Hl) as [-> _]. simpl.
  by rewrite (ListLength_loop_spec h head xs [] fuel 0).
Qed.
End operations.

(** ** A system of lists

    The abstract state is a finite map from list heads to the sequences linked
    on them; [astep] is the specification of the operations on it. *)
Inductive list_op :=
  | OpInit (head : Z)
  | OpAdd (x head : Z)
  | OpAddTail (x head : Z)
  | OpAddBefore (x node : Z)
  | OpAddAfter (x node : Z)
  | OpDel (x : Z)
  | OpDelInit (x : Z)
  | OpMove (x head : Z)
  | OpMoveTail (x head : Z)
  | OpReplace (old x : Z).

(** The code of an operation. *)
Definition run_op (o : list_op) (h : gmap Z NX_List) : option (gmap Z NX_List) :=
  match o with
  | OpInit head => NX_ListInit h head
  | OpAdd x head => NX_ListAdd h x head
  | OpAddTail x head => NX_ListAddTail h x head
  | OpAddBefore x node => NX_ListAddBefore h x node
  | OpAddAfter x node => NX_ListAddAfter h x node
  | OpDel x => NX_ListDel h x
  | OpDelInit x => NX_ListDelInit h x
  | OpMove x head => NX_ListMove h x head
  | OpMoveTail x head => NX_ListMoveTail h x head
  | OpReplace old x => NX_ListReplace h old x
  end.

(** [x] is neither a head nor linked anywhere. *)
Definition fresh (m : gmap Z (list Z)) (x : Z) : Prop :=
  forall head xs, m !! head = Some xs -> x ∉ head :: xs.

Inductive astep (m : gmap Z (list Z)) : list_op -> gmap Z (list Z) -> Prop :=
  | A_init head : fresh m head -> astep m (OpInit head) (<[head := []]> m)
  | A_add x head xs :
      m !! head = Some xs -> fresh m x -> astep m (OpAdd x head) (<[head := x :: xs]> m)
  | A_add_tail x head xs :
      m !! head = Some xs -> fresh m x -> astep m (OpAddTail x head) (<[head := xs ++ [x]]> m)
  | A_add_before x node head l1 l2 :
      m !! head = Some (l1 ++ l2) -> hd head l2 = node -> fresh m x ->
      astep m (OpAddBefore x node) (<[head := l1 ++ x :: l2]> m)
  | A_add_after x node head l1 l2 :
      m !! head = Some (l1 ++ l2) -> last (head :: l1) = Some node -> fresh m x ->
      astep m (OpAddAfter x node) (<[head := l1 ++ x :: l2]> m)
  | A_del x head l1 l2 :
      m !! head = Some (l1 ++ x :: l2) -> astep m (OpDel x) (<[head := l1 ++ l2]> m)
  | A_del_init x head l1 l2 :
      m !! head = Some (l1 ++ x :: l2) ->
      astep m (OpDelInit x) (<[x := []]> (<[head := l1 ++ l2]> m))
  | A_move x from l1 l2 head ys :
      m !! from = Some (l1 ++ x :: l2) -> <[from := l1 ++ l2]> m !! head = Some ys ->
      astep m (OpMove x head) (<[head := x :: ys]> (<[from := l1 ++ l2]> m))
  | A_move_tail x from l1 l2 head ys :
      m !! from = Some (l1 ++ x :: l2) -> <[from := l1 ++ l2]> m !! head = Some ys ->
      astep m (OpMoveTail x head) (<[head := ys ++ [x]]> (<[from := l1 ++ l2]> m))
  | A_replace old x head l1 l2 :
      m !! head = Some (l1 ++ old :: l2) -> fresh m x ->
      astep m (OpReplace old x) (<[head := l1 ++ x :: l2]> m).

Definition op_nodes (o : list_op) : list Z :=
  match o with
  | OpInit x | OpDel x | OpDelInit x => [x]
  | OpAdd x y | OpAddTail x y | OpAddBefore x y | OpAddAfter x y
  | OpMove x y | OpMoveTail x y | OpReplace x y => [x; y]
  end.

(** The memory implements the abstract lists; distinct lists are disjoint. *)
Definition lists_rep (h : gmap Z NX_List) (m : gmap Z (list Z)) : Prop :=
  (forall head xs, m !! head = Some xs -> is_list h head xs) /\
  (forall a b xs ys, a <> b -> m !! a = Some xs -> m !! b = Some ys ->
     (a :: xs) ## (b :: ys)).

Section system.
Implicit Types (h : gmap Z NX_List) (m : gmap Z (list Z)) (x head : Z) (xs ys : list Z).

(** Changing the list on [head] within its own nodes and one fresh node. *)
Lemma lists_rep_update h h' m head xs ys x :
  lists_rep h m -> m !! head = Some xs -> fresh m x \/ x ∈ xs ->
  is_list h' head ys -> changes h h' (x :: head :: xs) -> ys ⊆ x :: xs ->
  lists_rep h' (<[head := ys]> m).
Proof.
  intros [Hr Hd] Hm Hx Hl C Hys.
  assert (Hother : forall b zs, head <> b -> m !! b = Some zs ->
            (x :: head :: xs) ## (b :: zs)).
  { intros b zs Hne Hb p [->|Hp]%elem_of_cons Hpb.
    - destruct Hx as [Hx|Hx]; [by apply (Hx b zs Hb)|].
      apply (Hd head b xs zs Hne Hm Hb x); [by right|done].
    - by apply (Hd head b xs zs Hne Hm Hb p). }
  assert (Hsub : (head :: ys) ⊆ x :: head :: xs) by set_solver +Hys.
  split.
  - intros b zs Hb. rewrite lookup_insert in Hb. case_decide; simplify_eq; [done|].
    eapply is_list_changes; [by apply Hr|exact C|].
    intros p Hp1 Hp2. by apply (Hother b zs H Hb p).
  - intros a b us vs Hne Ha Hb p Hp1 Hp2.
    destruct (decide (head = a)) as [->|Hna]; [|destruct (decide (head = b)) as [->|Hnb]];
      simplify_map_eq.
    + by apply (Hother b vs Hne Hb p); [apply Hsub|].
    + by apply (Hother a us Hna Ha p); [apply Hsub|].
    + by apply (Hd a b us vs Hne Ha Hb p).
Qed.

Lemma fresh_notin m x head xs : fresh m x -> m !! head = Some xs -> x ∉ head :: xs.
Proof. intros Hf. apply Hf. Qed.

(** A node taken off its list is fresh. *)
Lemma fresh_after_del h m head l1 x l2 :
  lists_rep h m -> m !! head = Some (l1 ++ x :: l2) -> fresh (<[head := l1 ++ l2]> m) x.
Proof.
  intros [Hr Hd] Hm b zs Hb. rewrite lookup_insert in Hb. case_decide; simplify_eq.
  - destruct (is_list_around h b l1 x l2 (Hr _ _ Hm)) as (?&?&?&?&_&_&_&?&_). done.
  - intros Hx. apply (Hd head b _ _ H Hm Hb x); [|done]. set_solver +.
Qed.

Lemma lists_rep_fresh_head h h' m x :
  lists_rep h m -> fresh m x -> is_list h' x [] -> changes h h' [x] ->
  lists_rep h' (<[x := []]> m).
Proof.
  intros [Hr Hd] Hf Hl C. split.
  - intros b zs Hb. rewrite lookup_insert in Hb. case_decide; simplify_eq; [done|].
    eapply is_list_changes; [by apply Hr|exact C|].
    intros p Hp1 ->%list_elem_of_singleton. by apply (Hf b zs).
  - intros a b us vs Hne Ha Hb p Hp1 Hp2.
    destruct (decide (x = a)) as [->|Hna]; [|destruct (decide (x = b)) as [->|Hnb]];
      simplify_map_eq.
    + apply list_elem_of_singleton in Hp1 as ->. by apply (Hf b vs Hb).
    + apply list_elem_of_singleton in Hp2 as ->. by apply (Hf a us Ha).
    + by apply (Hd a b us vs Hne Ha Hb p).
Qed.

Lemma unlink_rep h m head l1 x l2 :
  lists_rep h m -> m !! head = Some (l1 ++ x :: l2) ->
  exists h', __ListDelNode h x = Some h' /\ lists_rep h' (<[head := l1 ++ l2]> m) /\
    (forall p, allocated h p -> allocated h' p).
Proof.
  intros HR Hm. pose proof (proj1 HR _ _ Hm) as Hl.
  destruct (__ListDelNode_spec h head l1 x l2 Hl) as (h' & E & Hl' & Hx & C).
  exists h'. split; [done|]. split; [|apply C].
  eapply (lists_rep_update h h' m head _ _ x HR Hm); [|done| |].
  - right. set_solver +.
  - eapply changes_mono; [exact C|]. set_solver +.
  - set_solver +.
Qed.

Ltac close_update C HR Hm x :=
  eexists; split; [reflexivity|]; split; [|by intros; apply C; auto];
  eapply (lists_rep_update _ _ _ _ _ _ x HR Hm);
  [ first [by left|right; set_solver +] | eassumption
  | (eapply changes_mono; [exact C|]); set_solver + | set_solver + ].

(** One step of the code implements one step of the specification. *)
Lemma run_op_refines h m o m' :
  lists_rep h m -> (forall p, p ∈ op_nodes o -> allocated h p) -> astep m o m' ->
  exists h', run_op o h = Some h' /\ lists_rep h' m' /\
    (forall p, allocated h p -> allocated h' p).
Proof.
  intros HR Hal Hs. pose proof HR as [Hr _].
  destruct Hs as [x Hf|x head xs Hm Hf|x head xs Hm Hf|x node head l1 l2 Hm Hn Hf
    |x node head l1 l2 Hm Hn Hf|x head l1 l2 Hm|x head l1 l2 Hm|x from l1 l2 head ys Hm Hm2
    |x from l1 l2 head ys Hm Hm2|old x head l1 l2 Hm Hf]; simpl in *;
    assert (Hax : allocated h x) by (apply Hal; set_solver +).
  - destruct (NX_ListInit_spec h x Hax) as (h' & -> & Hl & C).
    exists h'. split; [done|]. split; [|apply C]. by eapply lists_rep_fresh_head.
  - destruct (NX_ListAdd_spec h head xs x) as (h' & -> & Hl & C); [by auto|by eapply fresh_notin|done|].
    close_update C HR Hm x.
  - destruct (NX_ListAddTail_spec h head xs x) as (h' & -> & Hl & C); [by auto|by eapply fresh_notin|done|].
    close_update C HR Hm x.
  - destruct (NX_ListAddBefore_spec h head l1 l2 x node) as (h' & -> & Hl & C);
      [by auto|done|by eapply fresh_notin|done|].
    close_update C HR Hm x.
  - destruct (NX_ListAddAfter_spec h head l1 l2 x node) as (h' & -> & Hl & C);
      [by auto|done|by eapply fresh_notin|done|].
    close_update C HR Hm x.
  - destruct (NX_ListDel_spec h head l1 x l2) as (h' & -> & Hl & _ & C); [by auto|done|].
    close_update C HR Hm x.
  - destruct (unlink_rep h m head l1 x l2 HR Hm) as (h1 & E & HR1 & A1).
    unfold NX_ListDelInit. rewrite E. simpl.
    destruct (NX_ListInit_spec h1 x (A1 _ Hax)) as (h' & -> & Hl & C).
    exists h'. split; [done|]. split; [|by intros; apply C; auto].
    eapply lists_rep_fresh_head; [exact HR1| |done|done]. by eapply fresh_after_del.
  - destruct (unlink_rep h m from l1 x l2 HR Hm) as (h1 & E & HR1 & A1).
    pose proof (fresh_after_del h m from l1 x l2 HR Hm) as Hf.
    unfold NX_ListMove. rewrite E. simpl.
    destruct (NX_ListAdd_spec h1 head ys x) as (h' & -> & Hl & C);
      [by apply HR1|by eapply fresh_notin|by auto|].
    close_update C HR1 Hm2 x.
  - destruct (unlink_rep h m from l1 x l2 HR Hm) as (h1 & E & HR1 & A1).
    pose proof (fresh_after_del h m from l1 x l2 HR Hm) as Hf.
    unfold NX_ListMoveTail. rewrite E. simpl.
    destruct (NX_ListAddTail_spec h1 head ys x) as (h' & -> & Hl & C);
      [by apply HR1|by eapply fresh_notin|by auto|].
    close_update C HR1 Hm2 x.
  - destruct (NX_ListReplace_spec h head l1 old l2 x) as (h' & -> & Hl & C);
      [by auto|by eapply fresh_notin|by apply Hal; set_solver +|].
    close_update C HR Hm x.
Qed.
End system.

(** ** The interface that list clients are verified against *)
Class IntrusiveList (H : Type) := {
  il_rep : H -> gmap Z (list Z) -> Prop;
  il_valid : H -> Z -> Prop;
  il_run : list_op -> H -> option H;
  il_first : H -> Z -> option Z;
  il_find : nat -> H -> Z -> Z -> option bool;
  il_run_refines h m o m' :
    il_rep h m -> (forall p, p ∈ op_nodes o -> il_valid h p) -> astep m o m' ->
    exists h', il_run o h = Some h' /\ il_rep h' m' /\ (forall p, il_valid h p -> il_valid h' p);
  il_first_spec h m head xs :
    il_rep h m -> m !! head = Some xs -> il_first h head = Some (hd NX_NULL xs);
  il_find_spec h m head xs x fuel :
    il_rep h m -> m !! head = Some xs -> (length xs < fuel)%nat ->
    il_find fuel h x head = Some (bool_decide (x ∈ xs))
}.

#[export] Instance heap_list : IntrusiveList (gmap Z NX_List).
Proof.
  refine {| il_rep := lists_rep; il_valid := allocated; il_run := run_op;
            il_first := NX_ListFirstEntryOrNULL; il_find := NX_ListFind |}.
  - exact run_op_refines.
  - intros h m head xs [Hr _] Hm. by apply NX_ListFirstEntryOrNULL_spec, Hr.
  - intros h m head xs x fuel [Hr _] Hm Hf. by apply NX_ListFind_spec; [apply Hr|].
Defined.

(** ** Properties *)

(** Runs of the code and of the specification over a sequence of operations. *)
Fixpoint run_ops (ops : list list_op) (h : gmap Z NX_List) : option (gmap Z NX_List) :=
  match ops with
  | [] => Some h
  | o :: ops => h ← run_op o h; run_ops ops h
  end.

Inductive asteps : gmap Z (list Z) -> list list_op -> gmap Z (list Z) -> Prop :=
  | AS_nil m : asteps m [] m
  | AS_cons m1 o m2 ops m3 : astep m1 o m2 -> asteps m2 ops m3 -> asteps m1 (o :: ops) m3.

(** C1: any sequence of list operations that the specification on sequences
    allows runs without faulting on the linked memory, and the memory then
    implements the resulting sequences, on every list of the system. *)
Theorem list_ops_refine_sequences h m ops m' :
  lists_rep h m ->
  (forall o p, o ∈ ops -> p ∈ op_nodes o -> allocated h p) ->
  asteps m ops m' ->
  exists h', run_ops ops h = Some h' /\ lists_rep h' m'.
Proof.
  intros HR Ha Hs. revert h HR Ha. induction Hs as [m|m1 o m2 ops m3 Hs _ IH]; intros h HR Ha.
  - by exists h.
  - destruct (run_op_refines h m1 o m2 HR) as (h1 & E & HR1 & A1);
      [intros p Hp; apply (Ha o); [left|done]|done|].
    simpl. rewrite E. apply (IH h1 HR1).
    intros o' p Ho Hp. apply A1, (Ha o'); [by right|done].
Qed.

(** Four unlinked nodes: a head at 16 and three elements. *)
Definition sample_heap : gmap Z NX_List :=
  list_to_map ((fun p => (p, mkList 0 0)) <$> [16; 32; 48; 64]).

Definition sample_ops : list list_op :=
  [OpInit 16; OpAdd 32 16; OpAddTail 48 16; OpAddBefore 64 48; OpDel 32; OpMove 48 16].

Lemma list_ops_refine_sequences_witness :
  exists h', run_ops sample_ops sample_heap = Some h' /\ lists_rep h' {[16 := [48; 64]]}.
Proof.
  apply (list_ops_refine_sequences sample_heap ∅ sample_ops).
  - split; intros *; by rewrite lookup_empty.
  - intros o p Ho Hp. unfold sample_ops in Ho.
    assert (p = 16 \/ p = 32 \/ p = 48 \/ p = 64) as Hcases.
    { repeat (apply elem_of_cons in Ho as [->|Ho]; [simpl in Hp; set_solver +Hp|]).
      by apply not_elem_of_nil in Ho. }
    unfold allocated. destruct Hcases as [->|[->|[->| ->]]]; eexists; reflexivity.
  - assert (Hfr : forall (m : gmap Z (list Z)) x xs, m = {[16 := xs]} -> x ∉ 16 :: xs -> fresh m x).
    { intros m x xs -> Hx head ys Hm. apply lookup_singleton_Some in Hm as [<- <-]. done. }
    eapply AS_cons; [apply A_init; intros ??; by rewrite lookup_empty|].
    rewrite insert_empty.
    eapply AS_cons; [eapply A_add; [reflexivity|eapply Hfr; [done|set_solver +]]|].
    rewrite insert_singleton_eq.
    eapply AS_cons; [eapply A_add_tail; [reflexivity|eapply Hfr; [done|set_solver +]]|].
    rewrite insert_singleton_eq.
    eapply AS_cons; [eapply (A_add_before _ 64 48 16 [32] [48]);
      [reflexivity|done|eapply Hfr; [done|set_solver +]]|].
    rewrite insert_singleton_eq.
    eapply AS_cons; [eapply (A_del _ 32 16 [] [64; 48]); reflexivity|].
    rewrite insert_singleton_eq.
    eapply AS_cons; [eapply (A_move _ 48 16 [64] [] 16 [64]); reflexivity|].
    rewrite !insert_singleton_eq. apply AS_nil.
Defined.

(** The traversals agree with the sequence: [NX_ListFind] is membership,
    [NX_ListLength] the length, [NX_ListEmpty] and the first and last entry
    queries what they say, whenever the fuel exceeds the length. *)
Theorem list_queries_correct h head xs x fuel :
  is_list h head xs -> (length xs < fuel)%nat -> Z.of_nat (length xs) < 2 ^ 31 ->
  NX_ListFind fuel h x head = Some (bool_decide (x ∈ xs)) /\
  NX_ListLength fuel h head = Some (Z.of_nat (length xs)) /\
  NX_ListEmpty h head = Some (bool_decide (xs = [])) /\
  NX_ListFirstEntryOrNULL h head = Some (hd NX_NULL xs).
Proof.
  intros Hl Hf Hb. split; [by apply NX_ListFind_spec|]. split; [by apply NX_ListLength_spec|].
  split; [by apply NX_ListEmpty_spec|by apply NX_ListFirstEntryOrNULL_spec].
Qed.

Definition sample_linked : gmap Z NX_List :=
  <[16 := mkList 48 32]> (<[32 := mkList 16 48]> (<[48 := mkList 32 16]> ∅)).

Lemma list_queries_correct_witness :
  is_list sample_linked 16 [32; 48] /\
  NX_ListFind 3 sample_linked 48 16 = Some true /\
  NX_ListLength 3 sample_linked 16 = Some 2.
Proof.
  assert (Hl : is_list sample_linked 16 [32; 48]).
  { split; [by apply (bool_decide_unpack _)|]. repeat split. }
  destruct (list_queries_correct sample_linked 16 [32; 48] 48 3 Hl) as (H1 & H2 & _);
    [simpl; lia..|].
  split; [exact Hl|]. by split.
Defined.
