(* ===== verification/Buddy.v ===== *)
(** The buddy page allocator: [mm/buddy.c] and [include/base/buddy.h].

    A page descriptor is named by its index in [system->map], so pointer
    arithmetic on descriptors is arithmetic on page frame numbers.  The lists
    [pageBuddy[order]] are the sequences of the descriptors linked on them. *)
From S2P Require Import Prelude Bits.

Definition NX_MAX_PAGE_ORDER : Z := 20.
Definition NX_PAGE_INVALID_ORDER : Z := -1.
Definition NX_PAGE_FLAG_IS_FREE : Z := 1.

(** [sizeof] of the two structures on a 64-bit machine. *)
Definition sizeof_NX_Page : Z := 40.
Definition sizeof_NX_BuddySystem : Z := 536.

Record NX_Page := mkPage {
  flags : Z;
  order : Z;
  sizeClass : Z;
  reference : Z
}.

Record NX_BuddySystem := mkBuddy {
  pageBuddy : list (list Z);
  count : list Z;
  bitmap : Z;
  pageStart : Z;
  maxPFN : Z;
  usedPage : Z;
  pmap : gmap Z NX_Page
}.

(** Assignments to fields. *)
Definition set_flags (f : Z) (pg : NX_Page) : NX_Page :=
  mkPage f (order pg) (sizeClass pg) (reference pg).
Definition set_order (o : Z) (pg : NX_Page) : NX_Page :=
  mkPage (flags pg) o (sizeClass pg) (reference pg).
Definition set_reference (r : Z) (pg : NX_Page) : NX_Page :=
  mkPage (flags pg) (order pg) (sizeClass pg) r.

Definition with_map (s : NX_BuddySystem) (m : gmap Z NX_Page) : NX_BuddySystem :=
  mkBuddy (pageBuddy s) (count s) (bitmap s) (pageStart s) (maxPFN s) (usedPage s) m.
Definition with_used (s : NX_BuddySystem) (u : Z) : NX_BuddySystem :=
  mkBuddy (pageBuddy s) (count s) (bitmap s) (pageStart s) (maxPFN s) u (pmap s).
Definition with_lists (s : NX_BuddySystem) (pb : list (list Z)) (c : list Z) (b : Z) :=
  mkBuddy pb c b (pageStart s) (maxPFN s) (usedPage s) (pmap s).

Definition upd_page (s : NX_BuddySystem) (page : Z) (f : NX_Page -> NX_Page) :
    option NX_BuddySystem :=
  pg ← pmap s !! page; Some (with_map s (<[page := f pg]> (pmap s))).

Definition BuddyAddPage (s : NX_BuddySystem) (page : Z) : option NX_BuddySystem :=
  pg ← pmap s !! page;
  let order := order pg in
  s ← upd_page s page (set_flags (Z.lor (flags pg) NX_PAGE_FLAG_IS_FREE));
  lst ← zlookup (pageBuddy s) order;
  bit ← shl64 1 order;
  c ← zlookup (count s) order;
  Some (with_lists s (zinsert (pageBuddy s) order (lst ++ [page]))
          (zinsert (count s) order (u64 (c + 1))) (Z.lor (bitmap s) bit)).

(** [NX_ListDel] dereferences the neighbours of the page: a page that is not
    linked on the list of its order is a fault. *)
Definition BuddyDelPage (s : NX_BuddySystem) (page : Z) : option NX_BuddySystem :=
  pg ← pmap s !! page;
  let order := order pg in
  lst ← zlookup (pageBuddy s) order;
  assert (bool_decide (page ∈ lst));;
  let lst := list_del page lst in
  s ← upd_page s page (set_flags (Z.land (flags pg) (not32 NX_PAGE_FLAG_IS_FREE)));
  bit ← shl64 1 order;
  c ← zlookup (count s) order;
  Some (with_lists s (zinsert (pageBuddy s) order lst)
          (zinsert (count s) order (u64 (c - 1)))
          (if bool_decide (lst = []) then Z.land (bitmap s) (not64 bit) else bitmap s)).

Definition PageToPtr (s : NX_BuddySystem) (page : Z) : Z :=
  u64 (pageStart s + page * NX_PAGE_SIZE).

Definition NX_PageFromPtr (s : NX_BuddySystem) (ptr : Z) : option Z :=
  assert (ptr mod NX_PAGE_SIZE =? 0);;
  Some (Z.quot (ptr - pageStart s) NX_PAGE_SIZE).

Definition PageToPFN (s : NX_BuddySystem) (page : Z) : Z := page.
Definition PageFromPFN (s : NX_BuddySystem) (pfn : Z) : Z := pfn.
Definition IsValidPFN (s : NX_BuddySystem) (pfn : Z) : bool := pfn <=? maxPFN s.
Definition DoPageFree (pg : NX_Page) : bool := nz (Z.land (flags pg) NX_PAGE_FLAG_IS_FREE).

(** The descriptors [raw] are whatever the memory holds. *)
Definition BuddyCreateFromMemory (raw : gmap Z NX_Page) : NX_BuddySystem :=
  mkBuddy (replicate 21 []) (replicate 21 0) 0 0 0 0 raw.

(** [for (i = 0, count = page_count; count; i += 1UL << order, count -= 1UL << order)] *)
Fixpoint BuddyCreate_loop (fuel : nat) (s : NX_BuddySystem) (i count : Z) : option NX_BuddySystem :=
  match fuel with
  | O => None
  | S fuel =>
      if count =? 0 then Some s
      else
        let order := BuddyFlsSizet count in
        assert (0 <=? order);;
        let order := if order >? NX_MAX_PAGE_ORDER then NX_MAX_PAGE_ORDER else order in
        s ← upd_page s i (set_order order);
        s ← BuddyAddPage s i;
        step ← shl64 1 order;
        BuddyCreate_loop fuel s (u64 (i + step)) (u64 (count - step))
  end.

(** Each turn takes the largest power of two left, at most [2^20] pages. *)
Definition create_fuel (page_count : Z) : nat := Z.to_nat (page_count / 2 ^ 20) + 22.

Definition NX_BuddyCreate (raw : Z -> NX_Page) (mem size : Z) : option NX_BuddySystem :=
  assert (nz mem && nz size);;
  let oldSize := size in
  let mem := u64 (mem + sizeof_NX_BuddySystem) in
  let size := u64 (size - sizeof_NX_BuddySystem) in
  let page_count := size >> NX_PAGE_SHIFT in
  map_size ← BuddyAlignUp (u64 (page_count * sizeof_NX_Page)) NX_PAGE_SIZE;
  let mem := u64 (mem + map_size) in
  let size := u64 (size - map_size) in
  aligned ← BuddyAlignPtr mem NX_PAGE_SIZE;
  let mem_diff := u64 (aligned - mem) in
  let mem := u64 (mem + mem_diff) in
  let size := u64 (size - mem_diff) in
  let page_count := size >> NX_PAGE_SHIFT in
  assert (Z.land mem NX_PAGE_MASK =? 0);;
  let map := list_to_map
    ((fun i => (i, set_order NX_PAGE_INVALID_ORDER (raw i))) <$> seqZ 0 page_count) in
  let s := BuddyCreateFromMemory map in
  let s := mkBuddy (pageBuddy s) (count s) (bitmap s) mem (u64 (page_count - 1))
             (u64 (oldSize - size) >> NX_PAGE_SHIFT) map in
  BuddyCreate_loop (create_fuel page_count) s 0 page_count.

(** [None] inside the result is the null pointer. *)
Definition BuddyLocateFree (s : NX_BuddySystem) (order : Z) : option (option Z) :=
  assert (0 <=? order);;
  lst ← zlookup (pageBuddy s) order;
  c ← zlookup (count s) order;
  assert (eqb (bool_decide (lst = [])) (c =? 0));;
  if bool_decide (lst = []) then
    let bitmap := Z.land (bitmap s) (u64 ((2 ^ 64 - 1) << order)) in
    if bitmap =? 0 then Some None
    else
      let order := BuddyFfsSizet bitmap in
      assert (0 <=? order);;
      lst ← zlookup (pageBuddy s) order;
      p ← last lst; Some (Some p)
  else
    p ← last lst; Some (Some p).

Fixpoint PageSplit_loop (fuel : nat) (s : NX_BuddySystem) (page i order : Z) : option NX_BuddySystem :=
  match fuel with
  | O => None
  | S fuel =>
      if i >? order then
        let new := i - 1 in
        half ← shl64 1 new;
        let buddy := page + half in
        s ← upd_page s buddy (set_order new);
        s ← BuddyAddPage s buddy;
        PageSplit_loop fuel s page (i - 1) order
      else Some s
  end.

Definition PageSplit (s : NX_BuddySystem) (page ord : Z) : option NX_BuddySystem :=
  assert (0 <=? ord);;
  pg ← pmap s !! page;
  s ← PageSplit_loop 64 s page (order pg) ord;
  upd_page s page (set_order ord).

(** The loop of [PageMerge]: the final descriptor and order.  The order grows
    at each turn, so 22 turns are enough. *)
Fixpoint PageMerge_loop (fuel : nat) (s : NX_BuddySystem) (page pfn ord : Z) :
    option (NX_BuddySystem * Z * Z) :=
  match fuel with
  | O => None
  | S fuel =>
      if ord <=? NX_MAX_PAGE_ORDER then
        bit ← shl64 1 ord;
        let buddyPFN := Z.lxor pfn bit in
        let buddy := page + (buddyPFN - pfn) in
        if negb (IsValidPFN s buddyPFN) then Some (s, page, ord)
        else
          bpg ← pmap s !! buddy;
          if negb (order bpg =? ord) then Some (s, page, ord)
          else if negb (DoPageFree bpg) then Some (s, page, ord)
          else
            s ← BuddyDelPage s buddy;
            let privatePFN := Z.lor buddyPFN pfn in
            let private := page + (privatePFN - pfn) in
            s ← upd_page s private (set_order NX_PAGE_INVALID_ORDER);
            let combinedPFN := Z.land buddyPFN pfn in
            PageMerge_loop fuel s (page + (combinedPFN - pfn)) combinedPFN (ord + 1)
      else Some (s, page, ord)
  end.

(** Keep conversion from unrolling the loops. *)
#[global] Strategy 1000 [PageMerge_loop PageSplit_loop BuddyCreate_loop].

Definition PageMerge (s : NX_BuddySystem) (page : Z) : option (NX_BuddySystem * Z) :=
  pg ← pmap s !! page;
  r ← PageMerge_loop 22 s page (PageToPFN s page) (order pg);
  let '(s, page, order) := r in
  s ← upd_page s page (set_order order);
  Some (s, page).

Definition PagePrepareUsed (s : NX_BuddySystem) (page ord : Z) : option (NX_BuddySystem * Z) :=
  assert (0 <=? ord);;
  s ← BuddyDelPage s page;
  pg ← pmap s !! page;
  s ← (if order pg >? ord then PageSplit s page ord else Some s);
  s ← upd_page s page (set_reference 1);
  pow ← NX_PowInt 2 ord;
  let s := with_used s (u64 (usedPage s + pow)) in
  Some (s, PageToPtr s page).

Definition NX_BuddyAllocPage (s : NX_BuddySystem) (count : Z) : option (NX_BuddySystem * Z) :=
  assert (nz count);;
  if count =? 0 then Some (s, 0)
  else
    bit ← shl64 1 (BuddyFlsSizet count);
    let order := BuddyFlsSizet (u64 (count + (bit - 1))) in
    page ← BuddyLocateFree s order;
    match page with
    | None => Some (s, 0)
    | Some page => PagePrepareUsed s page order
    end.

Definition NX_BuddyIncreasePage (s : NX_BuddySystem) (ptr : Z) : option (NX_BuddySystem * NX_Error) :=
  assert (nz ptr);;
  if nz ptr then
    if (ptr <? pageStart s) || (ptr >=? u64 (pageStart s + u64 (u64 (maxPFN s + 1) * NX_PAGE_SIZE)))
    then Some (s, NX_EINVAL)
    else
      page ← NX_PageFromPtr s ptr;
      pg ← pmap s !! page;
      s ← upd_page s page (set_reference (i64 (reference pg + 1)));
      Some (s, NX_EOK)
  else Some (s, NX_EINVAL).

Definition NX_PAGE_INVALID_ADDR (s : NX_BuddySystem) (ptr : Z) : bool :=
  (ptr <? pageStart s) || (ptr >? u64 (pageStart s + u64 (maxPFN s << NX_PAGE_SHIFT))).

Definition NX_BuddyFreePage (s : NX_BuddySystem) (ptr : Z) : option (NX_BuddySystem * NX_Error) :=
  assert (nz ptr);;
  if nz ptr then
    if NX_PAGE_INVALID_ADDR s ptr then Some (s, NX_EINVAL)
    else
      page ← NX_PageFromPtr s ptr;
      pg ← pmap s !! page;
      if DoPageFree pg then Some (s, NX_EFAULT)
      else
        assert (reference pg >? 0);;
        s ← upd_page s page (set_reference (i64 (reference pg - 1)));
        if i64 (reference pg - 1) >? 0 then Some (s, NX_EAGAIN)
        else
          pow ← NX_PowInt 2 (order pg);
          let s := with_used s (u64 (usedPage s - pow)) in
          '(s, page) ← PageMerge s page;
          s ← BuddyAddPage s page;
          Some (s, NX_EOK)
  else Some (s, NX_EINVAL).



(** ** Buddies *)

Lemma pow2_pos o : 0 <= o -> 0 < 2 ^ o.
Proof. intros. by apply Z.pow_pos_nonneg. Qed.

Lemma land_multiple o j : 0 <= o -> Z.land (2 ^ (o + 1) * j) (2 ^ o) = 0.
Proof.
  intros Ho. apply Z.bits_inj'. intros n Hn. rewrite Z.land_spec, Z.bits_0.
  destruct (Z.eqb_spec n o) as [->|Hne].
  - rewrite Z.mul_comm, Z.mul_pow2_bits by lia. by rewrite Z.testbit_neg_r by lia.
  - rewrite Z.pow2_bits_false by lia. by rewrite andb_false_r.
Qed.

(** The upper half [p + 2^o] of an aligned pair and its lower half. *)
Lemma buddy_pair o q :
  0 <= o -> (2 ^ (o + 1) | q) ->
  Z.lxor q (2 ^ o) = q + 2 ^ o /\ Z.lxor (q + 2 ^ o) (2 ^ o) = q /\
  Z.lor (q + 2 ^ o) q = q + 2 ^ o /\ Z.land (q + 2 ^ o) q = q.
Proof.
  intros Ho [j ->]. rewrite (Z.mul_comm j).
  assert (Hx := Z.add_nocarry_lxor _ _ (land_multiple o j Ho)). rewrite Hx.
  assert (Hbits : forall n, Z.testbit (2 ^ (o + 1) * j) n && Z.testbit (2 ^ o) n = false).
  { intros n. by rewrite <- Z.land_spec, (land_multiple o j Ho), Z.bits_0. }
  split; [done|]. split; [|split]; apply Z.bits_inj'; intros n _; specialize (Hbits n);
    rewrite ?Z.lor_spec, ?Z.land_spec, ?Z.lxor_spec;
    destruct (Z.testbit (2 ^ (o + 1) * j) n), (Z.testbit (2 ^ o) n); done.
Qed.

Lemma pow2_succ o : 0 <= o -> 2 ^ (o + 1) = 2 * 2 ^ o.
Proof. intros. rewrite Z.pow_add_r by lia. lia. Qed.

(** An aligned block is the lower or the upper half of its pair. *)
Lemma buddy_cases o p :
  0 <= o -> (2 ^ o | p) ->
  ((2 ^ (o + 1) | p) /\ Z.lxor p (2 ^ o) = p + 2 ^ o) \/
  (exists q, p = q + 2 ^ o /\ (2 ^ (o + 1) | q) /\ Z.lxor p (2 ^ o) = q).
Proof.
  intros Ho [k ->]. pose proof (pow2_succ o Ho) as Hp.
  destruct (Z.even k) eqn:He.
  - apply Z.even_spec in He as [j ->]. left.
    assert ((2 ^ (o + 1) | 2 * j * 2 ^ o)) as Hd by (exists j; lia).
    split; [done|]. by apply buddy_pair.
  - assert (Z.odd k = true) as Hodd by (rewrite <- Z.negb_even, He; done).
    apply Z.odd_spec in Hodd as [j ->]. right. exists (j * 2 ^ (o + 1)).
    assert ((2 ^ (o + 1) | j * 2 ^ (o + 1))) as Hd by (exists j; lia).
    replace ((2 * j + 1) * 2 ^ o) with (j * 2 ^ (o + 1) + 2 ^ o) by lia.
    split; [done|]. split; [done|]. by apply buddy_pair.
Qed.

Lemma lxor_involutive p b : Z.lxor (Z.lxor p b) b = p.
Proof. by rewrite Z.lxor_assoc, Z.lxor_nilpotent, Z.lxor_0_r. Qed.

(** ** Block structure

    The pages with an order are the heads of blocks.  [geom m n lo hi]: the
    blocks of the descriptors [m], leaving out the pages in [[lo, hi)], are
    aligned, disjoint and cover the [n] pages outside that hole. *)
Definition inh (lo hi p : Z) : Prop := lo <= p < hi.

Definition hd (m : gmap Z NX_Page) (p o : Z) : Prop :=
  exists pg, m !! p = Some pg /\ order pg = o /\ 0 <= o.

Record geom (m : gmap Z NX_Page) (n lo hi : Z) : Prop := {
  g_hole : 0 <= lo <= hi /\ hi <= n;
  g_dom : forall p, is_Some (m !! p) <-> 0 <= p < n;
  g_order : forall p pg, m !! p = Some pg -> order pg = -1 \/ 0 <= order pg <= 20;
  g_block : forall p o, hd m p o -> ~ inh lo hi p ->
    (2 ^ o | p) /\ p + 2 ^ o <= n /\ (p + 2 ^ o <= lo \/ hi <= p);
  g_disj : forall p q o r, hd m p o -> hd m q r -> ~ inh lo hi p -> ~ inh lo hi q ->
    p < q -> p + 2 ^ o <= q;
  g_cover : forall q, 0 <= q < n ->
    inh lo hi q \/ exists p o, hd m p o /\ ~ inh lo hi p /\ p <= q < p + 2 ^ o;
  g_in : forall p pg, lo < p < hi -> m !! p = Some pg -> order pg = -1
}.

(** [m'] has the orders of [m] except that [p] has order [o]. *)
Definition reorder (m m' : gmap Z NX_Page) (p o : Z) : Prop :=
  forall q, order <$> m' !! q = if decide (q = p) then Some o else order <$> m !! q.

Definition same_orders (m m' : gmap Z NX_Page) : Prop :=
  forall q, order <$> m' !! q = order <$> m !! q.

Section geometry.
Implicit Types (m : gmap Z NX_Page) (p q o n lo hi : Z).

Lemma hd_order m p o : hd m p o <-> order <$> m !! p = Some o /\ 0 <= o.
Proof.
  unfold hd. rewrite fmap_Some. split.
  - intros (pg & ? & ? & ?). eauto.
  - intros [(pg & ? & ->) ?]. eauto.
Qed.

Lemma hd_reorder m m' p o q r :
  reorder m m' p o -> hd m' q r <-> (q = p /\ r = o /\ 0 <= o) \/ (q <> p /\ hd m q r).
Proof.
  intros Hr. rewrite !hd_order, Hr. case_decide; subst; [|tauto].
  split; [intros [[= ->] ?]; auto|intros [(_ & -> & ?)|[]]; done].
Qed.

Lemma geom_same_orders m m' n lo hi : same_orders m m' -> geom m n lo hi -> geom m' n lo hi.
Proof.
  intros He [].
  assert (Hhd : forall p o, hd m' p o <-> hd m p o) by (intros; by rewrite !hd_order, He).
  assert (Hsome : forall p, is_Some (m' !! p) <-> is_Some (m !! p)).
  { intros p. rewrite <- !(fmap_is_Some order). by rewrite He. }
  assert (Hpg : forall p pg, m' !! p = Some pg -> exists pg', m !! p = Some pg' /\ order pg' = order pg).
  { intros p pg Hp. specialize (He p). rewrite Hp in He. simpl in He. symmetry in He.
    apply fmap_Some in He as (pg' & ? & ?). eauto. }
  split; [done|..].
  - intros p. by rewrite Hsome.
  - intros p pg Hp. destruct (Hpg p pg Hp) as (pg' & Hp' & <-). eauto.
  - intros p o. rewrite Hhd. eauto.
  - intros p q o r. rewrite !Hhd. eauto.
  - intros q Hq. destruct (g_cover0 q Hq) as [?|(p & o & ? & ?)]; [by left|right].
    exists p, o. by rewrite Hhd.
  - intros p pg Hin Hp. destruct (Hpg p pg Hp) as (pg' & Hp' & <-). eauto.
Qed.

Lemma not_hd_inside m n lo hi p o : geom m n lo hi -> lo < p < hi -> ~ hd m p o.
Proof. intros G Hp (pg & Hpg & <- & H0). rewrite (g_in _ _ _ _ G p pg Hp Hpg) in H0. lia. Qed.

Lemma reorder_dom m m' p o q :
  reorder m m' p o -> is_Some (m !! p) -> is_Some (m' !! q) <-> is_Some (m !! q).
Proof.
  intros Hr Hp. rewrite <- !(fmap_is_Some order), Hr. case_decide; [|done]. subst.
  rewrite fmap_is_Some. split; eauto.
Qed.

Lemma reorder_lookup m m' p o q pg :
  reorder m m' p o -> m' !! q = Some pg ->
  (q = p /\ order pg = o) \/ (q <> p /\ exists pg', m !! q = Some pg' /\ order pg' = order pg).
Proof.
  intros Hr Hq. specialize (Hr q). rewrite Hq in Hr. simpl in Hr.
  case_decide; [left; split; congruence|right]. split; [done|].
  symmetry in Hr. apply fmap_Some in Hr as (pg' & ? & ?). eauto.
Qed.

(** Giving a block at the start or at the end of the hole back. *)
Lemma geom_add m m' n lo hi p o lo' hi' :
  geom m n lo hi -> reorder m m' p o -> 0 <= o <= 20 -> (2 ^ o | p) ->
  (p = lo /\ lo' = lo + 2 ^ o /\ hi' = hi /\ lo + 2 ^ o <= hi) \/
  (p + 2 ^ o = hi /\ lo' = lo /\ hi' = p /\ lo < p) ->
  geom m' n lo' hi'.
Proof.
  intros G Hr Ho Hd Hpos. pose proof (pow2_pos o ltac:(lia)) as H2.
  destruct (g_hole _ _ _ _ G) as [Hh0 Hh1].
  assert (Hpn : is_Some (m !! p)) by (apply (g_dom _ _ _ _ G); lia).
  (* an exposed head other than [p] was outside the old hole *)
  assert (Hout : forall q r, hd m' q r -> ~ inh lo' hi' q -> q <> p -> hd m q r /\ ~ inh lo hi q).
  { intros q r Hq Hn Hqp. rewrite (hd_reorder m m' p o) in Hq by done.
    destruct Hq as [(-> & _)|[_ Hq]]; [done|]. split; [done|]. intros Hin.
    apply (not_hd_inside m n lo hi q r G); [|done]. unfold inh in *. lia. }
  split.
  - lia.
  - intros q. rewrite (reorder_dom m m' p o) by done. apply (g_dom _ _ _ _ G).
  - intros q pg Hq. destruct (reorder_lookup m m' p o q pg Hr Hq) as [[_ ->]|(_ & pg' & ? & <-)];
      [by right|by eapply (g_order _ _ _ _ G)].
  - intros q r Hq Hn. destruct (decide (q = p)) as [->|Hqp].
    + rewrite (hd_reorder m m' p o) in Hq by done. destruct Hq as [(_ & -> & _)|[]]; [|done].
      split; [done|]. unfold inh in *. lia.
    + destruct (Hout q r Hq Hn Hqp) as [Hq' Hn'].
      destruct (g_block _ _ _ _ G q r Hq' Hn') as (? & ? & ?). split; [done|]. lia.
  - intros a b r t Ha Hb Hna Hnb Hab.
    destruct (decide (a = p)) as [->|Hap]; [|destruct (decide (b = p)) as [->|Hbp]].
    + rewrite (hd_reorder m m' p o) in Ha by done. destruct Ha as [(_ & -> & _)|[]]; [|done].
      destruct (Hout b t Hb Hnb ltac:(lia)) as [Hb' Hn'].
      destruct (g_block _ _ _ _ G b t Hb' Hn') as (_ & _ & ?). unfold inh in *.
      pose proof (pow2_pos t). destruct Hb' as (? & _ & _ & ?). lia.
    + destruct (Hout a r Ha Hna Hap) as [Ha' Hn'].
      destruct (g_block _ _ _ _ G a r Ha' Hn') as (_ & _ & ?). unfold inh in *. lia.
    + destruct (Hout a r Ha Hna Hap), (Hout b t Hb Hnb Hbp). by eapply (g_disj _ _ _ _ G).
  - intros q Hq. destruct (g_cover _ _ _ _ G q Hq) as [Hin|(a & r & Ha & Hna & Hin)].
    + destruct (decide (inh lo' hi' q)); [by left|right]. exists p, o.
      rewrite (hd_reorder m m' p o) by done. unfold inh in *. split; [left|]; lia.
    + right. exists a, r. assert (a <> p) by (unfold inh in *; lia).
      rewrite (hd_reorder m m' p o) by done. split; [by right|]. unfold inh in *. lia.
  - intros q pg Hq Hpg.
    destruct (reorder_lookup m m' p o q pg Hr Hpg) as [[-> _]|(_ & pg' & Hpg' & <-)]; [lia|].
    apply (g_in _ _ _ _ G q pg' ltac:(lia) Hpg').
Qed.

Lemma geom_close m n h : geom m n h h -> geom m n 0 0.
Proof.
  intros G. pose proof G as []. split; try done.
  - lia.
  - intros p o Hp _. assert (0 <= p < n) by (apply g_dom0; destruct Hp as (? & ? & _); eauto).
    destruct (g_block0 p o Hp) as (? & ? & _); [unfold inh; lia|]. split; [done|]. lia.
  - intros p q o r Hp Hq _ _. apply (g_disj0 p q o r); unfold inh; (done || lia).
  - intros q Hq. right. destruct (g_cover0 q Hq) as [?|(p & o & ? & ? & ?)]; [unfold inh in *; lia|].
    exists p, o. split; [done|]. unfold inh. lia.
  - intros. lia.
Qed.

Lemma hd_fun m p o r : hd m p o -> hd m p r -> o = r.
Proof. intros (? & ? & ? & _) (? & ? & ? & _). congruence. Qed.

Lemma geom_open m n p o : geom m n 0 0 -> hd m p o -> geom m n p (p + 2 ^ o).
Proof.
  intros G Hp. assert (Hn0 : forall q, ~ inh 0 0 q) by (unfold inh; lia).
  assert (H0 : 0 <= o) by (destruct Hp as (? & _ & _ & ?); done).
  pose proof (pow2_pos o H0) as H2.
  assert (Hpn : 0 <= p < n) by (apply (g_dom _ _ _ _ G); destruct Hp as (? & ? & _); eauto).
  destruct (g_block _ _ _ _ G p o Hp (Hn0 p)) as (_ & Hpn2 & _).
  assert (Hsep : forall q r, hd m q r -> q <> p -> q + 2 ^ r <= p \/ p + 2 ^ o <= q).
  { intros q r Hq Hne. destruct (Z.lt_total q p) as [H|[H|H]]; [left|done|right];
      by eapply (g_disj _ _ _ _ G). }
  split.
  - lia.
  - apply (g_dom _ _ _ _ G).
  - apply (g_order _ _ _ _ G).
  - intros q r Hq Hnin. destruct (g_block _ _ _ _ G q r Hq (Hn0 q)) as (? & ? & _).
    assert (q <> p) by (unfold inh in Hnin; lia). split; [done|]. auto.
  - intros a b r t Ha Hb _ _. apply (g_disj _ _ _ _ G a b r t); auto.
  - intros q Hq. destruct (g_cover _ _ _ _ G q Hq) as [Hin|(a & r & Ha & _ & Hin)];
      [by apply Hn0 in Hin|].
    destruct (decide (a = p)) as [->|Hne].
    + left. assert (r = o) as -> by (by eapply hd_fun). unfold inh. lia.
    + right. exists a, r. split; [done|]. destruct (Hsep a r Ha Hne); unfold inh; lia.
  - intros q pg Hq Hpg. destruct (g_order _ _ _ _ G q pg Hpg) as [|Hge]; [done|].
    assert (hd m q (order pg)) as Hqh by (exists pg; split_and!; (done || lia)).
    pose proof (pow2_pos (order pg)). destruct (Hsep q (order pg) Hqh); lia.
Qed.

(** Absorbing into the hole the block [b] just below or just above it. *)
Lemma geom_grow m m' n lo hi b o priv lo' hi' :
  geom m n lo hi -> lo < hi -> hd m b o -> ~ inh lo hi b -> reorder m m' priv (-1) ->
  (b + 2 ^ o = lo /\ lo' = b /\ hi' = hi /\ priv = lo) \/
  (b = hi /\ lo' = lo /\ hi' = hi + 2 ^ o /\ priv = b) ->
  geom m' n lo' hi'.
Proof.
  intros G Hlt Hb Hnb Hr Hpos.
  assert (H0 : 0 <= o) by (destruct Hb as (? & _ & _ & ?); done).
  pose proof (pow2_pos o H0) as H2. destruct (g_hole _ _ _ _ G) as [Hh0 Hh1].
  destruct (g_block _ _ _ _ G b o Hb Hnb) as (_ & Hbn & _).
  assert (Hb0 : 0 <= b < n) by (apply (g_dom _ _ _ _ G); destruct Hb as (? & ? & _); eauto).
  assert (Hpn : is_Some (m !! priv)) by (apply (g_dom _ _ _ _ G); lia).
  assert (Hsep : forall q r, hd m q r -> ~ inh lo hi q -> q <> b -> q + 2 ^ r <= b \/ b + 2 ^ o <= q).
  { intros q r Hq Hnq Hne. destruct (Z.lt_total q b) as [H|[H|H]]; [left|done|right];
      by eapply (g_disj _ _ _ _ G). }
  assert (Hin : forall q, inh lo' hi' q <-> inh lo hi q \/ b <= q < b + 2 ^ o) by (unfold inh; lia).
  assert (Hout : forall q r, hd m' q r -> ~ inh lo' hi' q -> hd m q r /\ ~ inh lo hi q /\ q <> b).
  { intros q r Hq Hn. rewrite Hin in Hn. rewrite (hd_reorder m m' priv (-1)) in Hq by done.
    destruct Hq as [(_ & ? & ?)|[_ Hq]]; [lia|]. split_and!; [done|tauto|]. intros ->. apply Hn. lia. }
  split.
  - lia.
  - intros q. rewrite (reorder_dom m m' priv (-1)) by done. apply (g_dom _ _ _ _ G).
  - intros q pg Hq. destruct (reorder_lookup _ _ _ _ _ _ Hr Hq) as [[_ ->]|(_ & pg' & ? & <-)];
      [by left|by eapply (g_order _ _ _ _ G)].
  - intros q r Hq Hn. destruct (Hout q r Hq Hn) as (Hq' & Hn' & Hne).
    destruct (g_block _ _ _ _ G q r Hq' Hn') as (? & ? & ?).
    assert (0 < 2 ^ r) by (apply pow2_pos; destruct Hq' as (? & _ & _ & ?); done).
    destruct (Hsep q r Hq' Hn' Hne); (split; [done|]); lia.
  - intros a c r t Ha Hc Hna Hnc. destruct (Hout a r Ha Hna) as (? & ? & _), (Hout c t Hc Hnc) as (? & ? & _).
    by apply (g_disj _ _ _ _ G a c r t).
  - intros q Hq. destruct (decide (inh lo' hi' q)) as [|Hn]; [by left|right].
    rewrite Hin in Hn. destruct (g_cover _ _ _ _ G q Hq) as [|(a & r & Ha & Hna & Hqa)]; [tauto|].
    assert (a <> b) as Hab. { intros ->. rewrite (hd_fun m b r o Ha Hb) in Hqa. tauto. }
    exists a, r. rewrite (hd_reorder m m' priv (-1)), Hin by done.
    destruct (Hsep a r Ha Hna Hab); unfold inh in *; (split; [right|]; (split; [lia|done] || lia)).
  - intros q pg Hq Hpg. destruct (reorder_lookup _ _ _ _ _ _ Hr Hpg) as [[_ ->]|(Hne & pg' & Hpg' & <-)];
      [done|].
    destruct (g_order _ _ _ _ G q pg' Hpg') as [|Hge]; [done|].
    destruct (decide (inh lo hi q)) as [Hi|Hi].
    + apply (g_in _ _ _ _ G q pg'); [|done]. unfold inh in Hi. lia.
    + assert (hd m q (order pg')) as Hqh by (exists pg'; split_and!; (done || lia)).
      assert (q <> b) as Hqb by (unfold inh in *; lia).
      pose proof (pow2_pos (order pg')). destruct (Hsep q (order pg') Hqh Hi Hqb); unfold inh in *; lia.
Qed.
End geometry.

(** ** The free lists

    [lists_for s n P]: list [o] holds the pages [p] with [P p o], each once,
    and the counters and the bitmap agree with the lists. *)
Record free_list (s : NX_BuddySystem) (n : Z) (P : Z -> Z -> Prop) (o : Z) (lst : list Z) : Prop := {
  fl_list : zlookup (pageBuddy s) o = Some lst;
  fl_count : zlookup (count s) o = Some (Z.of_nat (length lst));
  fl_nodup : NoDup lst;
  fl_bit : Z.testbit (bitmap s) o = negb (bool_decide (lst = []));
  fl_elem : forall p, p ∈ lst <-> P p o;
  fl_bound : forall p, p ∈ lst -> 0 <= p < n
}.

Record lists_for (s : NX_BuddySystem) (n : Z) (P : Z -> Z -> Prop) : Prop := {
  lf_len : length (pageBuddy s) = 21%nat;
  lf_clen : length (count s) = 21%nat;
  lf_bitmap : 0 <= bitmap s < 2 ^ 21;
  lf_lists : forall o, 0 <= o <= 20 -> exists lst, free_list s n P o lst
}.

Section freelists.
Implicit Types (s : NX_BuddySystem) (P Q : Z -> Z -> Prop) (n o p : Z).

(** Entries are distinct page frames, so a list is no longer than the zone. *)
Lemma bounded_length (lst : list Z) n :
  0 <= n -> NoDup lst -> (forall p, p ∈ lst -> 0 <= p < n) -> Z.of_nat (length lst) <= n.
Proof.
  intros Hn Hnd Hb.
  assert (length lst <= length (seqZ 0 n))%nat; [|rewrite length_seqZ in *; lia].
  apply submseteq_length, NoDup_submseteq; [done|].
  intros p Hp. apply elem_of_seqZ. specialize (Hb p Hp). lia.
Qed.

Lemma lists_for_ext s n P Q :
  (forall p o, 0 <= o <= 20 -> P p o <-> Q p o) -> lists_for s n P -> lists_for s n Q.
Proof.
  intros He []. split; try done. intros o Ho.
  destruct (lf_lists0 o Ho) as (lst & []). exists lst. split; try done.
  intros p. rewrite fl_elem0. by apply He.
Qed.

(** Only the lists matter. *)
Lemma lists_for_same s s' n P :
  pageBuddy s' = pageBuddy s -> count s' = count s -> bitmap s' = bitmap s ->
  lists_for s n P -> lists_for s' n P.
Proof.
  intros H1 H2 H3 []. split; rewrite ?H1, ?H2, ?H3; try done.
  intros o Ho. destruct (lf_lists0 o Ho) as (lst & []). exists lst.
  split; rewrite ?H1, ?H2, ?H3; done.
Qed.

Lemma upd_page_eq s p f pg :
  pmap s !! p = Some pg -> upd_page s p f = Some (with_map s (<[p := f pg]> (pmap s))).
Proof. intros Hp. unfold upd_page. by rewrite Hp. Qed.

Lemma testbit_lor_pow2 b o j :
  0 <= o -> 0 <= j -> Z.testbit (Z.lor b (2 ^ o)) j = (Z.testbit b j || (j =? o)).
Proof. intros. rewrite Z.lor_spec, Z.pow2_bits_eqb by lia. by rewrite (Z.eqb_sym o). Qed.

Lemma testbit_clear_pow2 b o j :
  0 <= b < 2 ^ 64 -> 0 <= o < 64 -> 0 <= j ->
  Z.testbit (Z.land b (not64 (2 ^ o))) j = (Z.testbit b j && negb (j =? o)).
Proof.
  intros Hb Ho Hj. unfold not64.
  assert (0 < 2 ^ o < 2 ^ 64) by (split; [apply pow2_pos; lia|apply Z.pow_lt_mono_r; lia]).
  replace (2 ^ 64 - 1 - 2 ^ o) with (Z.ones 64 - 2 ^ o) by (rewrite Z.ones_equiv; lia).
  rewrite Z.sub_nocarry_ldiff.
  2:{ apply Z.bits_inj'. intros k Hk. rewrite Z.ldiff_spec, Z.pow2_bits_eqb, Z.bits_0 by lia.
      destruct (Z.eqb_spec o k) as [->|]; [|done]. by rewrite Z.ones_spec_low by lia. }
  rewrite Z.land_spec, Z.ldiff_spec, Z.pow2_bits_eqb, (Z.eqb_sym o) by lia.
  destruct (Z.ltb_spec j 64).
  - by rewrite Z.ones_spec_low by lia.
  - replace (Z.testbit b j) with false; [done|]. symmetry.
    destruct (Z.eqb_spec b 0) as [->|]; [apply Z.bits_0|].
    apply Z.bits_above_log2; [lia|].
    apply Z.lt_le_trans with 64; [apply Z.log2_lt_pow2; lia|done].
Qed.

Lemma bits_below b w :
  0 <= w -> 0 <= b -> (forall j, w <= j -> Z.testbit b j = false) -> b < 2 ^ w.
Proof.
  intros Hw Hb Hj. destruct (Z.eqb_spec b 0) as [->|]; [by apply pow2_pos|].
  apply Z.log2_lt_pow2; [lia|].
  destruct (Z.ltb_spec (Z.log2 b) w); [done|].
  specialize (Hj (Z.log2 b) ltac:(done)). rewrite Z.bit_log2 in Hj by lia. done.
Qed.

Lemma testbit_high b w j : 0 <= b < 2 ^ w -> 0 <= w <= j -> Z.testbit b j = false.
Proof.
  intros Hb Hj. rewrite <- (Z.mod_small b (2 ^ w)) by done. by apply Z.mod_pow2_bits_high.
Qed.

(** What a list operation leaves alone. *)
Definition same_static s s' : Prop :=
  pageStart s' = pageStart s /\ maxPFN s' = maxPFN s /\ usedPage s' = usedPage s.

(** Replacing list [o], with its counter and its bit, keeps [lists_for]. *)
Lemma lists_for_update s m n P Q o lst bm :
  0 <= o <= 20 -> lists_for s n P -> 0 <= bm < 2 ^ 21 ->
  (forall j, 0 <= j <= 20 -> Z.testbit bm j =
     if decide (j = o) then negb (bool_decide (lst = [])) else Z.testbit (bitmap s) j) ->
  NoDup lst -> (forall p, p ∈ lst -> 0 <= p < n) -> (forall p, p ∈ lst <-> Q p o) ->
  (forall p r, r <> o -> P p r <-> Q p r) ->
  lists_for (with_lists (with_map s m) (zinsert (pageBuddy s) o lst)
    (zinsert (count s) o (Z.of_nat (length lst))) bm) n Q.
Proof.
  intros Ho [] Hb Hbit Hnd Hbd Hin Hsame.
  split; cbn [with_lists with_map pageBuddy count bitmap];
    rewrite ?length_zinsert; try done.
  intros j Hj. destruct (lf_lists0 j Hj) as (lj & []).
  exists (if decide (j = o) then lst else lj).
  split; cbn [with_lists with_map pageBuddy count bitmap];
    rewrite ?zlookup_zinsert, ?Hbit by lia; case_decide; subst; try done.
  intros p. rewrite <- Hsame by done. apply fl_elem0.
Qed.

Lemma BuddyAddPage_spec s n P p pg o :
  0 <= n < 2 ^ 63 -> lists_for s n P -> pmap s !! p = Some pg -> order pg = o -> 0 <= o <= 20 ->
  0 <= p < n -> ~ P p o ->
  exists s', BuddyAddPage s p = Some s' /\
    pmap s' = <[p := set_flags (Z.lor (flags pg) 1) pg]> (pmap s) /\
    same_static s s' /\ lists_for s' n (fun q r => P q r \/ (q = p /\ r = o)).
Proof.
  intros Hn Hl Hp Hord Ho Hpn HP. pose proof Hl as []. destruct (lf_lists0 o Ho) as (lst & F).
  pose proof F as []. unfold BuddyAddPage. rewrite Hp. cbn [mbind option_bind].
  rewrite (upd_page_eq s p _ pg Hp), Hord. cbn [mbind option_bind with_map pageBuddy count bitmap].
  rewrite fl_list0, shl64_1, fl_count0 by lia. cbn [mbind option_bind].
  assert (Hlen : Z.of_nat (length lst) <= n) by (apply bounded_length; (done || lia)).
  rewrite u64_small by lia.
  replace (Z.of_nat (length lst) + 1) with (Z.of_nat (length (lst ++ [p]))) by (rewrite length_app; simpl; lia).
  eexists. split; [reflexivity|]. split; [done|]. split; [done|].
  apply (lists_for_update s _ n P); [done..| | | | | |].
  - split; [apply Z.lor_nonneg; split; [lia|by apply Z.pow_nonneg]|].
    apply bits_below; [lia|apply Z.lor_nonneg; split; [lia|by apply Z.pow_nonneg]|].
    intros j Hj. rewrite testbit_lor_pow2, (testbit_high _ 21), (proj2 (Z.eqb_neq j o)) by lia. done.
  - intros j Hj. rewrite testbit_lor_pow2 by lia. case_decide as He.
    + rewrite He, Z.eqb_refl, orb_true_r. by destruct lst.
    + by rewrite (proj2 (Z.eqb_neq j o)), orb_false_r.
  - apply NoDup_app. split; [done|]. split; [|apply NoDup_singleton].
    intros x Hx ->%list_elem_of_singleton. by apply HP, fl_elem0.
  - intros x [Hx| ->%list_elem_of_singleton]%elem_of_app; auto.
  - intros x. rewrite elem_of_app, list_elem_of_singleton, fl_elem0. tauto.
  - intros x r Hr. tauto.
Qed.

Lemma BuddyDelPage_spec s n P p pg o :
  0 <= n < 2 ^ 63 -> lists_for s n P -> pmap s !! p = Some pg -> order pg = o -> 0 <= o <= 20 ->
  P p o ->
  exists s', BuddyDelPage s p = Some s' /\
    pmap s' = <[p := set_flags (Z.land (flags pg) (not32 1)) pg]> (pmap s) /\
    same_static s s' /\ lists_for s' n (fun q r => P q r /\ ~ (q = p /\ r = o)).
Proof.
  intros Hn Hl Hp Hord Ho HP. pose proof Hl as []. destruct (lf_lists0 o Ho) as (lst & F).
  pose proof F as []. unfold BuddyDelPage. rewrite Hp. cbn [mbind option_bind].
  rewrite Hord, fl_list0. cbn [mbind option_bind].
  assert (Hin : p ∈ lst) by (by apply fl_elem0).
  rewrite (bool_decide_eq_true_2 (p ∈ lst)) by done. cbn [assert mbind option_bind].
  rewrite (upd_page_eq s p _ pg Hp). cbn [mbind option_bind with_map pageBuddy count bitmap].
  rewrite shl64_1, fl_count0 by lia. cbn [mbind option_bind].
  assert (Hlen : Z.of_nat (length lst) <= n) by (apply bounded_length; (done || lia)).
  pose proof (length_list_del p lst fl_nodup0 Hin) as Hlen2.
  rewrite u64_small by lia.
  replace (Z.of_nat (length lst) - 1) with (Z.of_nat (length (list_del p lst))) by lia.
  eexists. split; [reflexivity|]. split; [done|]. split; [done|].
  assert (H2 : 2 ^ 21 < 2 ^ 64) by lia.
  apply (lists_for_update s _ n P); [done..| | | | | |].
  - destruct (bool_decide (list_del p lst = [])); [|exact lf_bitmap0].
    assert (0 <= Z.land (bitmap s) (not64 (2 ^ o))) by (apply Z.land_nonneg; lia).
    split; [done|]. apply bits_below; [lia|done|]. intros j Hj.
    rewrite testbit_clear_pow2, (testbit_high _ 21) by lia. done.
  - intros j Hj. destruct (decide (list_del p lst = [])) as [Hnil|Hnil];
      [rewrite !(bool_decide_eq_true_2 _ Hnil)|rewrite !(bool_decide_eq_false_2 _ Hnil)].
    + rewrite testbit_clear_pow2 by lia. case_decide as He.
      * by rewrite He, Z.eqb_refl, andb_false_r.
      * by rewrite (proj2 (Z.eqb_neq j o)), andb_true_r.
    + case_decide as He; [|done]. rewrite He, fl_bit0. by destruct lst; [apply elem_of_nil in Hin|].
  - by apply NoDup_list_del.
  - intros x Hx. apply elem_of_list_del in Hx as [_ Hx]. auto.
  - intros x. rewrite elem_of_list_del, fl_elem0. intuition congruence.
  - intros x r Hr. tauto.
Qed.

(** ** Locating a free block *)

Lemma bitmap_shift b o j :
  0 <= o < 64 -> 0 <= j < 64 ->
  Z.testbit (Z.land b (u64 ((2 ^ 64 - 1) << o))) j = Z.testbit b j && (o <=? j).
Proof.
  intros Ho Hj. rewrite Z.land_spec. unfold u64. rewrite Z.mod_pow2_bits_low by lia.
  rewrite Z.shiftl_spec by lia. replace (2 ^ 64 - 1) with (Z.ones 64) by (rewrite Z.ones_equiv; lia).
  destruct (Z.leb_spec o j).
  - by rewrite (Z.ones_spec_low 64 (j - o)) by lia.
  - by rewrite (Z.testbit_neg_r _ (j - o)) by lia.
Qed.

(** [BuddyLocateFree] finds a block of the smallest sufficient order that has one. *)
Lemma BuddyLocateFree_spec s n P o :
  lists_for s n P -> 0 <= o <= 20 ->
  exists r, BuddyLocateFree s o = Some r /\
    match r with
    | Some p => exists k, o <= k <= 20 /\ P p k /\ forall q j, o <= j < k -> ~ P q j
    | None => forall q j, o <= j <= 20 -> ~ P q j
    end.
Proof.
  intros Hl Ho. pose proof Hl as []. destruct (lf_lists0 o Ho) as (lst & []).
  assert (Hlast : forall (l : list Z), l <> [] -> exists p, last l = Some p /\ p ∈ l).
  { intros l Hne. destruct (last l) as [p|] eqn:E; [|by apply last_None in E].
    exists p. split; [done|]. by apply last_Some_elem_of. }
  unfold BuddyLocateFree. rewrite (proj2 (Z.leb_le 0 o)), fl_list0, fl_count0 by lia.
  cbn [assert mbind option_bind].
  assert (eqb (bool_decide (lst = [])) (Z.of_nat (length lst) =? 0) = true) as ->
    by (case_bool_decide; destruct lst; done).
  cbn [assert mbind option_bind]. case_bool_decide as Hnil.
  2:{ destruct (Hlast lst Hnil) as (p & -> & Hp). eexists. split; [reflexivity|].
      exists o. split; [lia|]. split; [by apply fl_elem0|]. intros; lia. }
  set (bm := Z.land _ _).
  assert (Hbit : forall j, 0 <= j <= 20 -> Z.testbit bm j = true <-> o <= j /\ exists q, P q j).
  { intros j Hj. unfold bm. rewrite bitmap_shift by lia.
    destruct (lf_lists0 j Hj) as (lj & []). rewrite fl_bit1, andb_true_iff, Z.leb_le.
    rewrite negb_true_iff, bool_decide_eq_false. split.
    - intros [H1 H2]. split; [done|]. destruct (Hlast lj H1) as (q & _ & Hq). exists q. by apply fl_elem1.
    - intros [H1 [q Hq%fl_elem1]]. split; [|done]. intros ->. by apply elem_of_nil in Hq. }
  assert (Hrange : 0 <= bm < 2 ^ 21).
  { assert (0 <= bm) by (apply Z.land_nonneg; lia). split; [done|].
    apply bits_below; [lia|done|]. intros j Hj. unfold bm.
    by rewrite Z.land_spec, (testbit_high _ 21) by lia. }
  destruct (Z.eqb_spec bm 0) as [H0|H0].
  { eexists. split; [reflexivity|]. intros q j Hj Hq.
    assert (Z.testbit bm j = true) as Ht by (apply Hbit; [lia|split; [lia|by exists q]]).
    rewrite H0, Z.bits_0 in Ht. done. }
  destruct (BuddyFfsSizet_lowest bm ltac:(lia)) as (Hk0 & Hk & Hlow).
  set (k := BuddyFfsSizet bm) in *. rewrite (proj2 (Z.leb_le 0 k)) by lia.
  cbn [assert mbind option_bind].
  assert (Hk20 : k <= 20).
  { destruct (Z.leb_spec k 20); [done|]. by rewrite (testbit_high bm 21) in Hk by lia. }
  apply Hbit in Hk as [Hok [q Hq]]; [|lia].
  destruct (lf_lists0 k ltac:(lia)) as (lk & []). rewrite fl_list1. cbn [mbind option_bind].
  destruct (Hlast lk) as (p & -> & Hp); [intros ->; by apply fl_elem1, elem_of_nil in Hq|].
  eexists. split; [reflexivity|]. exists k. split; [lia|]. split; [by apply fl_elem1|].
  intros x j Hj Hx. assert (Z.testbit bm j = true) as Ht by (apply Hbit; [lia|split; [lia|by exists x]]).
  rewrite Hlow in Ht by lia. done.
Qed.
End freelists.

(** ** Well-formed zones

    Blocks are free or allocated; [lo, hi) is the part of the zone an
    operation is working on, empty between operations. *)
Definition fhd (m : gmap Z NX_Page) (p o : Z) : Prop :=
  exists pg, m !! p = Some pg /\ order pg = o /\ 0 <= o /\ DoPageFree pg = true.

Definition ahd (m : gmap Z NX_Page) (p o r : Z) : Prop :=
  exists pg, m !! p = Some pg /\ order pg = o /\ 0 <= o /\ DoPageFree pg = false /\ reference pg = r.

Record wfh (s : NX_BuddySystem) (n lo hi : Z) : Prop := {
  wh_n : 0 < n < 2 ^ 51;
  wh_max : maxPFN s = n - 1;
  wh_start : pageStart s mod NX_PAGE_SIZE = 0 /\ 0 < pageStart s /\
    pageStart s + n * NX_PAGE_SIZE < 2 ^ 64;
  wh_geom : geom (pmap s) n lo hi;
  wh_lists : lists_for s n (fun p o => ~ inh lo hi p /\ fhd (pmap s) p o);
  wh_coal : forall p o, o < 20 -> ~ inh lo hi p -> fhd (pmap s) p o ->
    ~ inh lo hi (Z.lxor p (2 ^ o)) -> fhd (pmap s) (Z.lxor p (2 ^ o)) o -> False;
  wh_ref : forall p o r, ~ inh lo hi p -> ahd (pmap s) p o r -> 1 <= r < 2 ^ 63
}.

(** The block [p, o] lies at the start or at the end of the hole. *)
Definition carve (lo hi p o lo' hi' : Z) : Prop :=
  (p = lo /\ lo' = lo + 2 ^ o /\ hi' = hi /\ lo + 2 ^ o <= hi) \/
  (p + 2 ^ o = hi /\ lo' = lo /\ hi' = p /\ lo < p).

Definition static_eq (s s' : NX_BuddySystem) : Prop :=
  pageStart s' = pageStart s /\ maxPFN s' = maxPFN s.

Section zone.
Implicit Types (s : NX_BuddySystem) (m : gmap Z NX_Page) (n lo hi p q o r t : Z).

Lemma fhd_hd m p o : fhd m p o -> hd m p o.
Proof. intros (pg & ? & ? & ? & _). by exists pg. Qed.

Lemma ahd_hd m p o r : ahd m p o r -> hd m p o.
Proof. intros (pg & ? & ? & ? & _). by exists pg. Qed.

Lemma hd_cases m p o : hd m p o -> fhd m p o \/ exists r, ahd m p o r.
Proof.
  intros (pg & ? & ? & ?). destruct (DoPageFree pg) eqn:E.
  - left. by exists pg.
  - right. exists (reference pg), pg. done.
Qed.

Lemma fhd_not_ahd m p o o' r : fhd m p o -> ahd m p o' r -> False.
Proof. intros (pg & ? & ? & ? & ?) (pg' & ? & ? & ? & ? & ?). congruence. Qed.

Lemma fhd_lookup m m' p o : m' !! p = m !! p -> fhd m' p o <-> fhd m p o.
Proof. unfold fhd. by intros ->. Qed.

Lemma ahd_lookup m m' p o r : m' !! p = m !! p -> ahd m' p o r <-> ahd m p o r.
Proof. unfold ahd. by intros ->. Qed.

Lemma hd_dom m n lo hi p o : geom m n lo hi -> hd m p o -> 0 <= p < n.
Proof. intros G (pg & Hp & _). apply (g_dom _ _ _ _ G). by exists pg. Qed.

Lemma hd_le20 m n lo hi p o : geom m n lo hi -> hd m p o -> 0 <= o <= 20.
Proof. intros G (pg & Hp & <- & ?). destruct (g_order _ _ _ _ G p pg Hp); lia. Qed.

Lemma set_order_reorder m p o pg :
  m !! p = Some pg -> reorder m (<[p := set_order o pg]> m) p o.
Proof.
  intros Hp q. case_decide; subst.
  - by rewrite lookup_insert_eq.
  - by rewrite lookup_insert_ne.
Qed.

Lemma insert_same_orders m p pg pg' :
  m !! p = Some pg -> order pg' = order pg -> same_orders m (<[p := pg']> m).
Proof.
  intros Hp Ho q. destruct (decide (q = p)) as [->|].
  - rewrite lookup_insert_eq, Hp. simpl. by rewrite Ho.
  - by rewrite lookup_insert_ne.
Qed.

Lemma reorder_same_orders m m' m'' p o :
  reorder m m' p o -> same_orders m' m'' -> reorder m m'' p o.
Proof. intros Hr Hs q. by rewrite Hs, Hr. Qed.

(** Giving back [p]: the other heads keep their side of the hole. *)
Lemma carve_exposed m n lo hi p o lo' hi' q r :
  geom m n lo hi -> 0 <= o -> carve lo hi p o lo' hi' -> hd m q r -> q <> p ->
  inh lo' hi' q <-> inh lo hi q.
Proof.
  intros G Ho Hc Hq Hne. pose proof (pow2_pos o Ho).
  assert (~ lo < q < hi) by (intros ?; by eapply not_hd_inside).
  unfold inh, carve in *. lia.
Qed.

(** Absorbing block [b]: the other heads keep theirs. *)
Lemma absorb_exposed m n lo hi b o lo' hi' q r :
  geom m n lo hi -> hd m b o -> ~ inh lo hi b ->
  (forall x, inh lo' hi' x <-> inh lo hi x \/ b <= x < b + 2 ^ o) ->
  hd m q r -> ~ inh lo' hi' q <-> ~ inh lo hi q /\ q <> b.
Proof.
  intros G Hb Hnb Hin Hq. rewrite Hin.
  assert (0 <= o) by (destruct Hb as (? & _ & _ & ?); done).
  pose proof (pow2_pos o). split.
  - intros Hn. split; [tauto|]. intros ->. lia.
  - intros [Hnq Hne] [|Hx]; [done|].
    pose proof (g_disj _ _ _ _ G b q o r Hb Hq Hnb Hnq). lia.
Qed.

(** A block joins the zone, free or allocated. *)
Lemma wfh_insert s s' n lo hi p o lo' hi' (new : Z -> Z -> Prop) :
  wfh s n lo hi -> carve lo hi p o lo' hi' -> 0 <= o -> static_eq s s' ->
  geom (pmap s') n lo' hi' -> (forall q, q <> p -> pmap s' !! q = pmap s !! q) ->
  (forall r, fhd (pmap s') p r <-> new p r) -> (forall q r, new q r -> q = p /\ r = o) ->
  lists_for s' n (fun q r => (~ inh lo hi q /\ fhd (pmap s) q r) \/ new q r) ->
  (new p o -> o < 20 -> ~ inh lo hi (Z.lxor p (2 ^ o)) -> fhd (pmap s) (Z.lxor p (2 ^ o)) o -> False) ->
  (forall r t, ahd (pmap s') p r t -> 1 <= t < 2 ^ 63) ->
  wfh s' n lo' hi' /\
  forall q r t, ~ inh lo' hi' q /\ ahd (pmap s') q r t <->
    (~ inh lo hi q /\ q <> p /\ ahd (pmap s) q r t) \/ (q = p /\ ahd (pmap s') p r t).
Proof.
  intros W Hc Ho [Hst Hmx] G' Hsame Hnew Hnewp Hl Hco Hrf. pose proof W as [].
  pose proof (pow2_pos o Ho) as H2.
  assert (Hp : ~ inh lo' hi' p) by (unfold inh, carve in *; lia).
  assert (Hin : inh lo hi p) by (unfold inh, carve in *; lia).
  assert (HF : forall q r, ~ inh lo' hi' q /\ fhd (pmap s') q r <->
      (~ inh lo hi q /\ fhd (pmap s) q r) \/ new q r).
  { intros q r. destruct (decide (q = p)) as [->|Hne].
    - rewrite Hnew. tauto.
    - rewrite (fhd_lookup _ _ q r (Hsame q Hne)). split.
      + intros [Hn Hq]. left. split; [|done].
        by rewrite <- (carve_exposed _ n lo hi p o lo' hi' q r) by eauto using fhd_hd.
      + intros [[Hn Hq]|[? _]%Hnewp]; [|done]. split; [|done].
        by rewrite (carve_exposed _ n lo hi p o lo' hi' q r) by eauto using fhd_hd. }
  assert (HA : forall q r t, q <> p -> ~ inh lo' hi' q /\ ahd (pmap s') q r t <->
      ~ inh lo hi q /\ ahd (pmap s) q r t).
  { intros q r t Hne. rewrite (ahd_lookup _ _ q r t (Hsame q Hne)). split; intros [Hn Hq]; (split; [|done]).
    - by rewrite <- (carve_exposed _ n lo hi p o lo' hi' q r) by eauto using ahd_hd.
    - by rewrite (carve_exposed _ n lo hi p o lo' hi' q r) by eauto using ahd_hd. }
  split; [split|]; rewrite ?Hst, ?Hmx; try done.
  - eapply lists_for_ext; [|exact Hl]. intros q r _. by rewrite HF.
  - intros q r Hr Hq Hf Hq' Hf'.
    destruct (proj1 (HF q r) (conj Hq Hf)) as [[Hnq Hfq]|Hnq];
      destruct (proj1 (HF _ r) (conj Hq' Hf')) as [[Hnq' Hfq']|Hnq'].
    + eauto.
    + destruct (Hnewp _ _ Hnq') as [He ->]. apply Hco; [by rewrite He in Hnq'|done| |];
        rewrite <- He, lxor_involutive; done.
    + destruct (Hnewp _ _ Hnq) as [-> ->]. eauto.
    + destruct (Hnewp _ _ Hnq) as [-> ->], (Hnewp _ _ Hnq') as [He _].
      assert (Z.lxor p (Z.lxor p (2 ^ o)) = 0) as H0 by (rewrite He; apply Z.lxor_nilpotent).
      rewrite <- Z.lxor_assoc, Z.lxor_nilpotent, Z.lxor_0_l in H0. lia.
  - intros q r t Hn Ha. destruct (decide (q = p)) as [->|Hne]; [eauto|].
    destruct (proj1 (HA q r t Hne) (conj Hn Ha)). eauto.
  - intros q r t. destruct (decide (q = p)) as [->|Hne]; [tauto|]. rewrite HA by done. tauto.
Qed.

(** A block leaves the zone: its pages join the hole. *)
Lemma wfh_remove s s' n lo hi b o lo' hi' :
  wfh s n lo hi -> hd (pmap s) b o -> ~ inh lo hi b -> static_eq s s' ->
  (forall x, inh lo' hi' x <-> inh lo hi x \/ b <= x < b + 2 ^ o) ->
  geom (pmap s') n lo' hi' -> (forall q, ~ inh lo' hi' q -> pmap s' !! q = pmap s !! q) ->
  lists_for s' n (fun q r => (~ inh lo hi q /\ fhd (pmap s) q r) /\ ~ (q = b /\ r = o)) ->
  wfh s' n lo' hi' /\
  forall q r t, ~ inh lo' hi' q /\ ahd (pmap s') q r t <->
    ~ inh lo hi q /\ q <> b /\ ahd (pmap s) q r t.
Proof.
  intros W Hb Hnb [Hst Hmx] Hin G' Hsame Hl. pose proof W as [].
  assert (HF : forall q r, ~ inh lo' hi' q /\ fhd (pmap s') q r <->
      ~ inh lo hi q /\ q <> b /\ fhd (pmap s) q r).
  { intros q r. split.
    - intros [Hn Hq]. rewrite (fhd_lookup _ _ q r (Hsame q Hn)) in Hq.
      rewrite (absorb_exposed (pmap s) n lo hi b o lo' hi' q r) in Hn by eauto using fhd_hd. tauto.
    - intros (Hn & Hne & Hq). assert (~ inh lo' hi' q) as Hn'.
      { rewrite (absorb_exposed (pmap s) n lo hi b o lo' hi' q r) by eauto using fhd_hd. done. }
      by rewrite (fhd_lookup _ _ q r (Hsame q Hn')). }
  assert (HA : forall q r t, ~ inh lo' hi' q /\ ahd (pmap s') q r t <->
      ~ inh lo hi q /\ q <> b /\ ahd (pmap s) q r t).
  { intros q r t. split.
    - intros [Hn Hq]. rewrite (ahd_lookup _ _ q r t (Hsame q Hn)) in Hq.
      rewrite (absorb_exposed (pmap s) n lo hi b o lo' hi' q r) in Hn by eauto using ahd_hd. tauto.
    - intros (Hn & Hne & Hq). assert (~ inh lo' hi' q) as Hn'.
      { rewrite (absorb_exposed (pmap s) n lo hi b o lo' hi' q r) by eauto using ahd_hd. done. }
      by rewrite (ahd_lookup _ _ q r t (Hsame q Hn')). }
  split; [split|done]; rewrite ?Hst, ?Hmx; try done.
  - eapply lists_for_ext; [|exact Hl]. intros q r _. simpl. rewrite HF.
    split.
    + intros [[Hn Hf] Hx]. split; [done|]. split; [|done]. intros ->. apply Hx.
      split; [done|]. eapply hd_fun; [by apply fhd_hd|done].
    + intros (? & Hne & ?). split; [done|]. by intros [? _].
  - intros q r Hr Hq Hf Hq' Hf'.
    destruct (proj1 (HF q r) (conj Hq Hf)) as (? & _ & ?).
    destruct (proj1 (HF _ r) (conj Hq' Hf')) as (? & _ & ?). eauto.
  - intros q r t Hn Ha. destruct (proj1 (HA q r t) (conj Hn Ha)) as (? & _ & ?). eauto.
Qed.
End zone.

(** The allocated blocks: page, order, reference count. *)
Definition allocs (s : NX_BuddySystem) (lo hi q r t : Z) : Prop :=
  ~ inh lo hi q /\ ahd (pmap s) q r t.

Section steps.
Implicit Types (s : NX_BuddySystem) (m : gmap Z NX_Page) (n lo hi p q o r t : Z).

Lemma DoPageFree_odd pg : DoPageFree pg = Z.odd (flags pg).
Proof.
  unfold DoPageFree, nz. change NX_PAGE_FLAG_IS_FREE with (Z.ones 1).
  rewrite Z.land_ones by lia. change (2 ^ 1) with 2. rewrite Zmod_odd. by destruct (Z.odd _).
Qed.

Lemma DoPageFree_add pg : DoPageFree (set_flags (Z.lor (flags pg) 1) pg) = true.
Proof. rewrite DoPageFree_odd. cbn [set_flags flags]. by rewrite <- Z.bit0_odd, Z.lor_spec, orb_true_r. Qed.

Lemma DoPageFree_del pg : DoPageFree (set_flags (Z.land (flags pg) (not32 1)) pg) = false.
Proof. rewrite DoPageFree_odd. cbn [set_flags flags]. by rewrite <- Z.bit0_odd, Z.land_spec, andb_false_r. Qed.

Lemma page_at s n lo hi p : wfh s n lo hi -> 0 <= p < n -> exists pg, pmap s !! p = Some pg.
Proof. intros W Hp. by apply (g_dom _ _ _ _ (wh_geom _ _ _ _ W)). Qed.

Lemma carve_dom m n lo hi p o lo' hi' :
  geom m n lo hi -> 0 <= o -> carve lo hi p o lo' hi' -> 0 <= p < n /\ inh lo hi p.
Proof.
  intros G Ho Hc. pose proof (pow2_pos o Ho). destruct (g_hole _ _ _ _ G).
  unfold carve, inh in *. lia.
Qed.

(** The part of the state that one turn of an operation may not change. *)
Definition frame s s' (but : Z -> Prop) : Prop :=
  static_eq s s' /\ usedPage s' = usedPage s /\
  forall q, ~ but q -> pmap s' !! q = pmap s !! q.

Lemma page_frame_trans s1 s2 s3 (A B C : Z -> Prop) :
  frame s1 s2 A -> frame s2 s3 B -> (forall q, A q \/ B q -> C q) -> frame s1 s3 C.
Proof.
  intros ([] & ? & HA) ([] & ? & HB) Hs. split; [split; congruence|].
  split; [congruence|]. intros q Hq. rewrite HB, HA by naive_solver. done.
Qed.

(** Linking a page of the hole as a free block, as [PageSplit],
    [NX_BuddyCreate] and [NX_BuddyFreePage] do. *)
Lemma add_block s n lo hi p o lo' hi' :
  wfh s n lo hi -> 0 <= o <= 20 -> (2 ^ o | p) -> carve lo hi p o lo' hi' ->
  (o < 20 -> ~ inh lo hi (Z.lxor p (2 ^ o)) -> fhd (pmap s) (Z.lxor p (2 ^ o)) o -> False) ->
  exists s', (s1 ← upd_page s p (set_order o); BuddyAddPage s1 p) = Some s' /\
    wfh s' n lo' hi' /\ frame s s' (fun q => q = p) /\ fhd (pmap s') p o /\
    forall q r t, allocs s' lo' hi' q r t <-> allocs s lo hi q r t.
Proof.
  intros W Ho Hd Hc Hco. pose proof W as [].
  destruct (carve_dom _ n lo hi p o lo' hi' wh_geom0 (proj1 Ho) Hc) as [Hpn Hph].
  destruct (page_at s n lo hi p W Hpn) as [pg Hpg].
  set (s1 := with_map s (<[p := set_order o pg]> (pmap s))).
  assert (Hl1 : lists_for s1 n (fun p o => ~ inh lo hi p /\ fhd (pmap s) p o))
    by (eapply (lists_for_same s); done).
  destruct (BuddyAddPage_spec s1 n _ p (set_order o pg) o ltac:(lia) Hl1) as (s' & Hrun & Hm & (Hs1 & Hs2 & Hs3) & Hl);
    [by apply lookup_insert_eq|done..|tauto|].
  cbn [s1 with_map pmap] in Hm. rewrite insert_insert_eq in Hm.
  set (pg' := set_flags _ _) in Hm.
  assert (Hp' : pmap s' !! p = Some pg') by (rewrite Hm; apply lookup_insert_eq).
  assert (Hfree : DoPageFree pg' = true) by apply DoPageFree_add.
  assert (Hne : forall q, q <> p -> pmap s' !! q = pmap s !! q) by (intros; rewrite Hm; by apply lookup_insert_ne).
  assert (Hf : forall r, fhd (pmap s') p r <-> r = o).
  { intros r. split; [intros (? & ? & <- & _); by simplify_eq|]. intros ->. exists pg'.
    split_and!; [done..|lia|done]. }
  destruct (wfh_insert s s' n lo hi p o lo' hi' (fun q r => q = p /\ r = o) W Hc) as [W' HA].
  - lia.
  - done.
  - eapply geom_add; [exact wh_geom0| |exact Ho|exact Hd|exact Hc].
    rewrite Hm. eapply reorder_same_orders; [by eapply set_order_reorder|].
    intros q. destruct (decide (q = p)) as [->|]; [by rewrite !lookup_insert_eq|by rewrite !lookup_insert_ne].
  - done.
  - intros r. rewrite Hf. tauto.
  - done.
  - done.
  - intros _. exact Hco.
  - intros r t Ha. exfalso. by eapply fhd_not_ahd; [apply (Hf o)|exact Ha].
  - exists s'. split; [|split; [done|split; [|split]]].
    + rewrite (upd_page_eq s p _ pg Hpg). exact Hrun.
    + split; [done|]. split; [done|]. auto.
    + by apply Hf.
    + intros q r t. unfold allocs. rewrite HA. split.
      * intros [(? & ? & ?)|[_ Ha]]; [done|]. exfalso. by eapply fhd_not_ahd; [apply (Hf o)|exact Ha].
      * intros [Hn Ha]. left. split; [done|]. split; [|done]. by intros ->.
Qed.

(** An empty hole is no hole. *)
Lemma wfh_close s n h :
  wfh s n h h -> wfh s n 0 0 /\ forall q r t, allocs s 0 0 q r t <-> allocs s h h q r t.
Proof.
  assert (Hx : forall q, ~ inh h h q /\ ~ inh 0 0 q) by (unfold inh; lia).
  intros []. split.
  - split; try done.
    + by eapply geom_close.
    + eapply lists_for_ext; [|done]. intros q r _. simpl. pose proof (Hx q). tauto.
    + intros q r Hr _ Hf _ Hf'. eapply (wh_coal0 q r Hr); try done; apply Hx.
    + intros q r t _ Hq. eapply wh_ref0; [apply Hx|done].
  - intros q r t. pose proof (Hx q). unfold allocs. tauto.
Qed.

(** Inside the hole only orders matter. *)
Lemma hole_update s n lo hi p pg pg' u :
  wfh s n lo hi -> inh lo hi p -> pmap s !! p = Some pg -> order pg' = order pg ->
  let s' := with_used (with_map s (<[p := pg']> (pmap s))) u in
  wfh s' n lo hi /\ forall q r t, allocs s' lo hi q r t <-> allocs s lo hi q r t.
Proof.
  intros W Hin Hpg Ho s'. pose proof W as [].
  assert (Hne : forall q, ~ inh lo hi q -> pmap s' !! q = pmap s !! q).
  { intros q Hq. apply lookup_insert_ne. by intros <-. }
  assert (HF : forall q r, ~ inh lo hi q -> fhd (pmap s') q r <-> fhd (pmap s) q r).
  { intros q r Hq. by apply fhd_lookup, Hne. }
  assert (HA : forall q r t, ~ inh lo hi q -> ahd (pmap s') q r t <-> ahd (pmap s) q r t).
  { intros q r t Hq. by apply ahd_lookup, Hne. }
  split.
  - split; try done.
    + eapply geom_same_orders; [|done]. by eapply insert_same_orders.
    + eapply lists_for_ext; [|eapply (lists_for_same s); [..|exact wh_lists0]; done].
      intros q r _. simpl. split; intros [? ?]; (split; [done|]); by apply HF.
    + intros q r Hr Hq Hf Hq' Hf'. rewrite HF in Hf, Hf' by done. eauto.
    + intros q r t Hq Ha. rewrite HA in Ha by done. eauto.
  - intros q r t. unfold allocs. split; intros [? ?]; (split; [done|]); by apply HA.
Qed.

(** Closing the hole with an allocated block. *)
Lemma close_alloc s n p o pg pg' u :
  wfh s n p (p + 2 ^ o) -> 0 <= o <= 20 -> (2 ^ o | p) -> pmap s !! p = Some pg ->
  DoPageFree pg' = false -> order pg' = o -> 1 <= reference pg' < 2 ^ 63 ->
  let s' := with_used (with_map s (<[p := pg']> (pmap s))) u in
  wfh s' n 0 0 /\
  forall q r t, allocs s' 0 0 q r t <->
    (q = p /\ r = o /\ t = reference pg') \/ allocs s p (p + 2 ^ o) q r t.
Proof.
  intros W Ho Hd Hpg Hfr Hor Hrf s'. pose proof W as [].
  assert (Hc : carve p (p + 2 ^ o) p o (p + 2 ^ o) (p + 2 ^ o)) by (left; lia).
  assert (Hp' : pmap s' !! p = Some pg') by apply lookup_insert_eq.
  assert (Hne : forall q, q <> p -> pmap s' !! q = pmap s !! q) by (intros; by apply lookup_insert_ne).
  assert (Ha : forall r t, ahd (pmap s') p r t <-> r = o /\ t = reference pg').
  { intros r t. split; [intros (? & ? & <- & _ & _ & <-); by simplify_eq|]. intros [-> ->].
    exists pg'. split_and!; [done..|lia|done|done]. }
  destruct (wfh_insert s s' n p (p + 2 ^ o) p o _ _ (fun _ _ => False) W Hc) as [W' HA];
    [lia|done|..]; try done.
  - eapply geom_add; [exact wh_geom0| |exact Ho|exact Hd|exact Hc].
    intros q. cbn [s' with_used with_map pmap]. case_decide as He.
    + by rewrite He, lookup_insert_eq, <- Hor.
    + by rewrite lookup_insert_ne.
  - intros r. split; [|done]. intros (x & Hx & _ & _ & Hy). congruence.
  - eapply lists_for_ext; [|eapply (lists_for_same s); [..|exact wh_lists0]; done].
    intros; simpl; tauto.
  - intros r t [_ ->]%Ha. done.
  - destruct (wfh_close _ _ _ W') as [W'' HA']. split; [done|].
    intros q r t. etransitivity; [apply HA'|]. unfold allocs. rewrite HA, Ha. split.
    * intros [(? & ? & ?)|(-> & -> & ->)]; tauto.
    * intros [(-> & -> & ->)|(Hn & Hq)]; [by right|left]. split; [done|]. split; [|done].
      intros ->. apply Hn. unfold inh. pose proof (pow2_pos o). lia.
Qed.

Lemma hd_block s n lo hi p o :
  wfh s n lo hi -> hd (pmap s) p o -> ~ inh lo hi p ->
  0 <= o <= 20 /\ 0 < 2 ^ o /\ 0 <= p < n /\ (2 ^ o | p) /\ p + 2 ^ o <= n /\ (p + 2 ^ o <= lo \/ hi <= p).
Proof.
  intros W Hp Hn. pose proof (wh_geom _ _ _ _ W) as G.
  destruct (g_block _ _ _ _ G p o Hp Hn) as (? & ? & ?).
  pose proof (hd_le20 _ _ _ _ _ _ G Hp). pose proof (pow2_pos o). pose proof (hd_dom _ _ _ _ _ _ G Hp).
  split_and!; (done || lia).
Qed.

Lemma not_inh00 q : ~ inh 0 0 q.
Proof. unfold inh. lia. Qed.

Lemma open_lists s n p o :
  lists_for s n (fun q r => (~ inh 0 0 q /\ fhd (pmap s) q r)) ->
  (fhd (pmap s) p o -> False) ->
  lists_for s n (fun q r => (~ inh 0 0 q /\ fhd (pmap s) q r) /\ ~ (q = p /\ r = o)).
Proof.
  intros Hl Hf. eapply lists_for_ext; [|exact Hl]. intros q r _. simpl.
  split; [|tauto]. intros [? ?]. split; [done|]. intros [-> ->]. done.
Qed.

(** Taking an allocated block back into the hole. *)
Lemma open_alloc s n p o r :
  wfh s n 0 0 -> ahd (pmap s) p o r ->
  wfh s n p (p + 2 ^ o) /\
  forall q r' t, allocs s p (p + 2 ^ o) q r' t <-> q <> p /\ allocs s 0 0 q r' t.
Proof.
  intros W Ha. pose proof (ahd_hd _ _ _ _ Ha) as Hh. pose proof W as [].
  destruct (wfh_remove s s n 0 0 p o p (p + 2 ^ o) W Hh (not_inh00 p)) as [W' HA]; try done.
  - unfold inh. lia.
  - by apply geom_open.
  - apply open_lists; [done|]. intros Hf. by eapply fhd_not_ahd.
  - split; [done|]. intros q r' t. unfold allocs. rewrite HA. tauto.
Qed.

(** Unlinking a free block and taking it into the hole. *)
Lemma open_free s n p o :
  wfh s n 0 0 -> fhd (pmap s) p o ->
  exists s' pg, BuddyDelPage s p = Some s' /\ wfh s' n p (p + 2 ^ o) /\
    frame s s' (fun q => q = p) /\ pmap s' !! p = Some pg /\ order pg = o /\ DoPageFree pg = false /\
    forall q r t, allocs s' p (p + 2 ^ o) q r t <-> allocs s 0 0 q r t.
Proof.
  intros W Hf. pose proof (fhd_hd _ _ _ Hf) as Hh. pose proof W as [].
  destruct (hd_block s n 0 0 p o W Hh (not_inh00 p)) as (Ho & H2 & Hpn & _).
  pose proof Hf as (pg & Hpg & Hor & _ & _).
  destruct (BuddyDelPage_spec s n _ p pg o ltac:(lia) wh_lists0 Hpg Hor Ho (conj (not_inh00 p) Hf))
    as (s' & Hrun & Hm & (Hs1 & Hs2 & Hs3) & Hl).
  assert (Hne : forall q, q <> p -> pmap s' !! q = pmap s !! q) by (intros; rewrite Hm; by apply lookup_insert_ne).
  destruct (wfh_remove s s' n 0 0 p o p (p + 2 ^ o) W Hh (not_inh00 p)) as [W' HA]; try done.
  - unfold inh. lia.
  - eapply geom_same_orders; [|by apply geom_open]. rewrite Hm. by eapply insert_same_orders.
  - intros q Hq. apply Hne. intros ->. apply Hq. unfold inh. lia.
  - exists s'. eexists. split; [done|]. split; [done|]. split; [split_and!; [done..|auto]|].
    split; [rewrite Hm; apply lookup_insert_eq|]. split; [exact Hor|]. split; [apply DoPageFree_del|].
    intros q r t. unfold allocs. rewrite HA. pose proof (not_inh00 q).
    split; [tauto|]. intros [_ Hq]. split; [done|]. split; [|done]. intros ->. by eapply fhd_not_ahd.
Qed.

(** One turn of [PageMerge]: the free buddy [b] joins the hole. *)
Lemma merge_step s n lo o b :
  let priv := Z.lor b lo in
  let lo' := Z.land b lo in
  wfh s n lo (lo + 2 ^ o) -> 0 <= o < 20 -> (2 ^ o | lo) -> b = Z.lxor lo (2 ^ o) ->
  fhd (pmap s) b o ->
  exists s', (s1 ← BuddyDelPage s b; upd_page s1 priv (set_order (-1))) = Some s' /\
    wfh s' n lo' (lo' + 2 ^ (o + 1)) /\ (2 ^ (o + 1) | lo') /\
    static_eq s s' /\ usedPage s' = usedPage s /\
    forall q r t, allocs s' lo' (lo' + 2 ^ (o + 1)) q r t <-> allocs s lo (lo + 2 ^ o) q r t.
Proof.
  intros priv lo' W Ho Hd Hb Hf. pose proof (fhd_hd _ _ _ Hf) as Hh. pose proof W as [].
  pose proof (pow2_pos o ltac:(lia)) as H2. pose proof (pow2_succ o ltac:(lia)) as H2'.
  assert (Hpos : (b = lo + 2 ^ o /\ priv = b /\ lo' = lo /\ (2 ^ (o + 1) | lo')) \/
                 (lo = b + 2 ^ o /\ priv = lo /\ lo' = b /\ (2 ^ (o + 1) | lo'))).
  { destruct (buddy_cases o lo ltac:(lia) Hd) as [[Hd' Hx]|(q & -> & Hd' & Hx)]; rewrite Hx in Hb; subst b.
    - left. destruct (buddy_pair o lo ltac:(lia) Hd') as (_ & _ & Hor & Hand).
      subst priv lo'. by rewrite Hor, Hand.
    - right. destruct (buddy_pair o q ltac:(lia) Hd') as (_ & _ & Hor & Hand).
      subst priv lo'. by rewrite (Z.lor_comm q), (Z.land_comm q), Hor, Hand. }
  assert (Hnb : ~ inh lo (lo + 2 ^ o) b) by (unfold inh; lia).
  destruct (hd_block s n _ _ b o W Hh Hnb) as (_ & _ & Hbn & _ & Hbn2 & _).
  assert (Hin : forall x, inh lo' (lo' + 2 ^ (o + 1)) x <-> inh lo (lo + 2 ^ o) x \/ b <= x < b + 2 ^ o)
    by (unfold inh; lia).
  pose proof Hf as (pg & Hpg & Hor & _ & _).
  destruct (BuddyDelPage_spec s n _ b pg o ltac:(lia) wh_lists0 Hpg Hor ltac:(lia) (conj Hnb Hf))
    as (s1 & Hrun & Hm & (Hs1 & Hs2 & Hs3) & Hl).
  assert (Hso : same_orders (pmap s) (pmap s1)) by (rewrite Hm; by eapply insert_same_orders).
  destruct (g_hole _ _ _ _ wh_geom0) as [Hh0 Hh1].
  assert (exists pv, pmap s1 !! priv = Some pv) as [pv Hpv].
  { rewrite Hm. destruct (decide (priv = b)) as [->|]; [rewrite lookup_insert_eq; eauto|].
    rewrite lookup_insert_ne by done. apply (page_at s n lo (lo + 2 ^ o) priv W). lia. }
  set (s' := with_map s1 (<[priv := set_order (-1) pv]> (pmap s1))).
  assert (Hpin : inh lo' (lo' + 2 ^ (o + 1)) priv) by (unfold inh; lia).
  assert (Hbin : inh lo' (lo' + 2 ^ (o + 1)) b) by (unfold inh; lia).
  destruct (wfh_remove s s' n lo (lo + 2 ^ o) b o lo' (lo' + 2 ^ (o + 1)) W Hh Hnb) as [W' HA]; try done.
  - eapply (geom_grow (pmap s) _ n lo (lo + 2 ^ o) b o priv); [done|lia|done..| |lia].
    intros q. cbn [s' with_map pmap]. rewrite (set_order_reorder _ _ (-1) _ Hpv q).
    case_decide; [done|]. apply Hso.
  - intros q Hq. cbn [s' with_map pmap]. rewrite lookup_insert_ne by (intros <-; done).
    rewrite Hm. apply lookup_insert_ne. by intros <-.
  - by apply (lists_for_same s1).
  - exists s'. rewrite Hrun. cbn [mbind option_bind]. rewrite (upd_page_eq _ _ _ _ Hpv).
    split; [done|]. split; [done|]. split; [destruct Hpos as [(_ & _ & _ & ?)|(_ & _ & _ & ?)]; done|].
    split; [done|]. split; [done|]. intros q r t. unfold allocs. rewrite HA.
    split; [tauto|]. intros [? Hq]. split; [done|]. split; [|done]. intros ->. by eapply fhd_not_ahd.
Qed.
End steps.

(** ** The loops *)
Section loops.
Implicit Types (s : NX_BuddySystem) (n p q o r t page ord : Z).

Lemma PageMerge_loop_S fuel s page pfn ord :
  PageMerge_loop (S fuel) s page pfn ord =
    if ord <=? NX_MAX_PAGE_ORDER then
      bit ← shl64 1 ord;
      let buddyPFN := Z.lxor pfn bit in
      let buddy := page + (buddyPFN - pfn) in
      if negb (IsValidPFN s buddyPFN) then Some (s, page, ord)
      else
        bpg ← pmap s !! buddy;
        if negb (order bpg =? ord) then Some (s, page, ord)
        else if negb (DoPageFree bpg) then Some (s, page, ord)
        else
          s ← BuddyDelPage s buddy;
          let privatePFN := Z.lor buddyPFN pfn in
          let private := page + (privatePFN - pfn) in
          s ← upd_page s private (set_order NX_PAGE_INVALID_ORDER);
          let combinedPFN := Z.land buddyPFN pfn in
          PageMerge_loop fuel s (page + (combinedPFN - pfn)) combinedPFN (ord + 1)
    else Some (s, page, ord).
Proof. done. Qed.

(** What merging promises: the same allocations, and a maximal free block. *)
Definition merged s n page ord s' page' ord' : Prop :=
  wfh s' n page' (page' + 2 ^ ord') /\ (2 ^ ord' | page') /\ 0 <= ord' <= 20 /\
  (ord' < 20 -> fhd (pmap s') (Z.lxor page' (2 ^ ord')) ord' -> False) /\
  static_eq s s' /\ usedPage s' = usedPage s /\
  forall q r t, allocs s' page' (page' + 2 ^ ord') q r t <-> allocs s page (page + 2 ^ ord) q r t.

Lemma PageMerge_loop_spec n fuel :
  n < 2 ^ 21 -> forall s page ord,
  wfh s n page (page + 2 ^ ord) -> 0 <= ord <= 20 -> (2 ^ ord | page) ->
  21 - ord <= Z.of_nat fuel ->
  exists s' page' ord', PageMerge_loop fuel s page page ord = Some (s', page', ord') /\
    merged s n page ord s' page' ord'.
Proof.
  intros Hn. induction fuel as [|fuel IH]; intros s page ord W Ho Hd Hfuel; [lia|].
  pose proof (wh_geom _ _ _ _ W) as G. pose proof (pow2_pos ord ltac:(lia)) as H2.
  destruct (g_hole _ _ _ _ G) as [Hh0 Hh1].
  rewrite PageMerge_loop_S. unfold NX_MAX_PAGE_ORDER. rewrite (proj2 (Z.leb_le ord 20)), shl64_1 by lia.
  cbn [mbind option_bind]. set (b := Z.lxor page (2 ^ ord)).
  replace (page + (b - page)) with b by lia.
  assert (Hpos : b = page + 2 ^ ord \/ page = b + 2 ^ ord).
  { destruct (buddy_cases ord page ltac:(lia) Hd) as [[_ Hx]|(q & -> & _ & Hx)]; subst b; lia. }
  assert (Hb0 : 0 <= b) by (apply Z.lxor_nonneg; lia).
  assert (Hnb : ~ inh page (page + 2 ^ ord) b) by (unfold inh; lia).
  assert (Hend : (fhd (pmap s) b ord -> False) -> merged s n page ord s page ord).
  { intros Hf. split_and!; (done || lia || auto). }
  unfold IsValidPFN. rewrite (wh_max _ _ _ _ W). destruct (Z.leb_spec b (n - 1)) as [Hbn|Hbn]; cbn [negb].
  2:{ exists s, page, ord. split; [done|]. apply Hend. intros Hf%fhd_hd.
      pose proof (hd_dom _ _ _ _ _ _ G Hf). lia. }
  destruct (page_at s n _ _ b W) as [bpg Hbpg]; [lia|]. rewrite Hbpg. cbn [mbind option_bind].
  destruct (Z.eqb_spec (order bpg) ord) as [Hob|Hob]; cbn [negb].
  2:{ exists s, page, ord. split; [done|]. apply Hend. intros (? & ? & ? & _). congruence. }
  destruct (DoPageFree bpg) eqn:Hfb; cbn [negb].
  2:{ exists s, page, ord. split; [done|]. apply Hend. intros (? & ? & ? & _ & ?). congruence. }
  assert (Hf : fhd (pmap s) b ord) by (exists bpg; split_and!; (done || lia)).
  destruct (hd_block s n _ _ b ord W (fhd_hd _ _ _ Hf) Hnb) as (_ & _ & _ & _ & Hbe & _).
  destruct (Z.eq_dec ord 20) as [->|Hne]; [lia|].
  destruct (merge_step s n page ord b W ltac:(lia) Hd eq_refl Hf)
    as (s' & Hrun & W' & Hd' & Hst & Hus & HA).
  destruct (BuddyDelPage s b) as [s1|]; [|done]. cbn [mbind option_bind] in *.
  replace (page + (Z.lor b page - page)) with (Z.lor b page) by lia.
  replace (page + (Z.land b page - page)) with (Z.land b page) by lia.
  unfold NX_PAGE_INVALID_ORDER. rewrite Hrun. cbn [mbind option_bind].
  destruct (IH s' (Z.land b page) (ord + 1) W' ltac:(lia) Hd' ltac:(lia))
    as (s2 & p2 & o2 & Hrun2 & W2 & Hd2 & Ho2 & Hc2 & [] & Hus2 & HA2).
  exists s2, p2, o2. split; [done|]. destruct Hst. split_and!; try done; try lia; try congruence.
  - split; congruence.
  - intros q r t. by rewrite HA2, HA.
Qed.

Lemma PageSplit_loop_S fuel s page i ord :
  PageSplit_loop (S fuel) s page i ord =
    if i >? ord then
      half ← shl64 1 (i - 1);
      let buddy := page + half in
      s ← upd_page s buddy (set_order (i - 1));
      s ← BuddyAddPage s buddy;
      PageSplit_loop fuel s page (i - 1) ord
    else Some s.
Proof. done. Qed.

Lemma PageSplit_loop_spec n page ord fuel :
  0 <= ord -> forall s i,
  wfh s n page (page + 2 ^ i) -> ord <= i <= 20 -> (2 ^ i | page) -> i - ord < Z.of_nat fuel ->
  exists s', PageSplit_loop fuel s page i ord = Some s' /\ wfh s' n page (page + 2 ^ ord) /\
    frame s s' (fun q => q <> page) /\
    forall q r t, allocs s' page (page + 2 ^ ord) q r t <-> allocs s page (page + 2 ^ i) q r t.
Proof.
  intros Ho. induction fuel as [|fuel IH]; intros s i W Hi Hd Hfuel; [lia|].
  rewrite PageSplit_loop_S. destruct (Z.gtb_spec i ord) as [Hgt|Hle].
  2:{ assert (i = ord) as -> by lia. exists s. split_and!; done. }
  rewrite shl64_1 by lia. cbn [mbind option_bind].
  pose proof (pow2_pos (i - 1) ltac:(lia)) as H2.
  assert (H2' : 2 ^ i = 2 * 2 ^ (i - 1)) by (rewrite <- pow2_succ by lia; f_equal; lia).
  assert (Hdl : (2 ^ (i - 1) | page)) by (etransitivity; [|exact Hd]; exists 2; lia).
  destruct (buddy_pair (i - 1) page ltac:(lia)) as (_ & Hx & _);
    [by replace (i - 1 + 1) with i by lia|].
  destruct (add_block s n page (page + 2 ^ i) (page + 2 ^ (i - 1)) (i - 1) page (page + 2 ^ (i - 1)) W)
    as (s1 & Hrun & W1 & Hfr & _ & HA); [lia| | | |].
  - apply Z.divide_add_r; [done|by exists 1; lia].
  - right. lia.
  - intros _ Hn. rewrite Hx in Hn. destruct Hn. unfold inh. lia.
  - destruct (upd_page s _ _) as [s0|]; [|done]. cbn [mbind option_bind] in *.
    rewrite Hrun. cbn [mbind option_bind].
    destruct (IH s1 (i - 1) W1 ltac:(lia) Hdl ltac:(lia)) as (s2 & Hrun2 & W2 & Hfr2 & HA2).
    exists s2. split; [done|]. split; [done|]. split.
    + eapply page_frame_trans; [exact Hfr|exact Hfr2|]. intros q [->|?]; [lia|done].
    + intros q r t. by rewrite HA2, HA.
Qed.
End loops.

(** ** Allocation and release *)

(** No allocated block meets the [2^k] pages from [p]. *)
Definition all_free (s : NX_BuddySystem) (p k : Z) : Prop :=
  forall q o t, allocs s 0 0 q o t -> q + 2 ^ o <= p \/ p + 2 ^ k <= q.

Section operations.
Implicit Types (s : NX_BuddySystem) (n p q o r t page ord : Z).

(** Two multiples of a common granule do not interleave. *)
Lemma aligned_inside a q p e :
  0 < a -> (a | q) -> (a | p) -> (a | e) -> q <= p < q + e -> p + a <= q + e.
Proof. intros Ha [x ->] [y ->] [z ->] H. assert (y < x + z) by nia. nia. Qed.

Lemma pow2_divide a b : 0 <= a <= b -> (2 ^ a | 2 ^ b).
Proof. intros. exists (2 ^ (b - a)). rewrite <- Z.pow_add_r by lia. f_equal. lia. Qed.

(** Coalescing is complete: an aligned range without allocated page lies
    within one free block. *)
Lemma all_free_block s n (k : nat) :
  wfh s n 0 0 -> Z.of_nat k <= 20 -> forall p, (2 ^ Z.of_nat k | p) -> 0 <= p -> p + 2 ^ Z.of_nat k <= n ->
  all_free s p (Z.of_nat k) ->
  exists q j, Z.of_nat k <= j <= 20 /\ fhd (pmap s) q j /\ q <= p /\ p + 2 ^ Z.of_nat k <= q + 2 ^ j.
Proof.
  intros W. pose proof (wh_geom _ _ _ _ W) as G. induction k as [|k IH]; intros Hk p Hd H0 Hn Hfree.
  - change (2 ^ Z.of_nat 0) with 1 in *.
    destruct (g_cover _ _ _ _ G p ltac:(lia)) as [[]|(q & j & Hq & _ & Hin)]; [lia|].
    exists q, j. destruct (hd_cases _ _ _ Hq) as [Hf|[r Ha]].
    + pose proof (hd_le20 _ _ _ _ _ _ G Hq). split_and!; (done || lia).
    + destruct (Hfree q j r (conj (not_inh00 q) Ha)) as [|H]; [lia|]. simpl in H. lia.
  - rewrite Nat2Z.inj_succ in *. unfold Z.succ in *. set (K := Z.of_nat k) in *.
    pose proof (pow2_succ K ltac:(lia)) as Hp. pose proof (pow2_pos K ltac:(lia)) as H2.
    assert (Hdk : (2 ^ K | p)) by (etransitivity; [|exact Hd]; exists 2; lia).
    (* a free block that holds one half and is larger holds both *)
    assert (Hbig : forall q j x, K < j -> fhd (pmap s) q j -> x = p \/ x = p + 2 ^ K -> q <= x ->
        x + 2 ^ K <= q + 2 ^ j -> q <= p /\ p + 2 ^ (K + 1) <= q + 2 ^ j).
    { intros q j x Hj Hq Hx Hle Hge.
      destruct (hd_block s n 0 0 q j W (fhd_hd _ _ _ Hq) (not_inh00 q)) as (? & ? & ? & Hdq & _).
      assert (Hdj : (2 ^ (K + 1) | 2 ^ j)) by (apply pow2_divide; lia).
      assert (Hdq' : (2 ^ (K + 1) | q)) by (etransitivity; done).
      assert (q <= p).
      { destruct Hx as [->| ->]; [done|]. destruct Hdq' as [y ->], Hd as [z ->]. assert (y < z + 1) by (apply (Zmult_lt_reg_r _ _ (2 ^ (K + 1))); lia). nia. }
      split; [done|]. apply aligned_inside; (done || lia). }
    destruct (IH ltac:(lia) p Hdk H0 ltac:(lia)) as (q & j & Hj & Hq & Hle & Hge).
    { intros a o t Ha. destruct (Hfree a o t Ha); [by left|right; lia]. }
    destruct (Z.eq_dec j K) as [->|Hne].
    2:{ exists q, j. split; [lia|]. split; [done|]. apply (Hbig q j p); (done || lia || by left). }
    assert (q = p) as -> by lia.
    destruct (IH ltac:(lia) (p + 2 ^ K)) as (q' & j' & Hj' & Hq' & Hle' & Hge').
    { apply Z.divide_add_r; [done|by exists 1; lia]. }
    { lia. }
    { lia. }
    { intros a o t Ha. destruct (Hfree a o t Ha) as [|]; [left; lia|right; lia]. }
    destruct (Z.eq_dec j' K) as [->|Hne].
    2:{ exists q', j'. split; [lia|]. split; [done|]. apply (Hbig q' j' (p + 2 ^ K)); (done || lia || by right). }
    assert (q' = p + 2 ^ K) as -> by lia. exfalso.
    destruct (buddy_pair K p ltac:(lia) Hd) as (Hx & _).
    eapply (wh_coal _ _ _ _ W p K); [lia|apply not_inh00|done|apply not_inh00|]. by rewrite Hx.
Qed.

Lemma PagePrepareUsed_spec s n page k ord :
  wfh s n 0 0 -> fhd (pmap s) page k -> 0 <= ord <= k ->
  exists s', PagePrepareUsed s page ord = Some (s', PageToPtr s page) /\
    wfh s' n 0 0 /\ static_eq s s' /\ usedPage s' = u64 (usedPage s + 2 ^ ord) /\
    forall q r t, allocs s' 0 0 q r t <-> (q = page /\ r = ord /\ t = 1) \/ allocs s 0 0 q r t.
Proof.
  intros W Hf Hord. pose proof (wh_geom _ _ _ _ W) as G.
  destruct (hd_block s n 0 0 page k W (fhd_hd _ _ _ Hf) (not_inh00 page)) as (Hk & _ & Hpn & Hd & _).
  assert (Hdo : (2 ^ ord | page)) by (etransitivity; [apply pow2_divide|exact Hd]; lia).
  destruct (open_free s n page k W Hf) as (s1 & pg & Hrun1 & W1 & ([] & Hu1 & _) & Hpg & Hok & Hfr & HA1).
  unfold PagePrepareUsed. rewrite (proj2 (Z.leb_le 0 ord)), Hrun1 by lia. cbn [assert mbind option_bind].
  rewrite Hpg. cbn [mbind option_bind].
  assert (exists s2 pg2, (if order pg >? ord then PageSplit s1 page ord else Some s1) = Some s2 /\
      pmap s2 !! page = Some pg2 /\ order pg2 = ord /\ DoPageFree pg2 = false /\
      exists m0 pg0, pmap s2 = <[page := pg2]> m0 /\ m0 !! page = Some pg0 /\
      wfh (with_map s2 m0) n page (page + 2 ^ ord) /\ static_eq s1 s2 /\ usedPage s2 = usedPage s1 /\
      forall q r t, allocs (with_map s2 m0) page (page + 2 ^ ord) q r t <-> allocs s1 page (page + 2 ^ k) q r t) as
      (s2 & pg2 & Hrun2 & Hpg2 & Ho2 & Hf2 & m0 & pg0 & Hm2 & Hm0 & W2 & [] & Hu2 & HA2).
  { rewrite Hok. destruct (Z.gtb_spec k ord) as [Hgt|Hle].
    - unfold PageSplit. rewrite (proj2 (Z.leb_le 0 ord)), Hpg by lia. cbn [assert mbind option_bind].
      rewrite Hok. destruct (PageSplit_loop_spec n page ord 64 ltac:(lia) s1 k W1 ltac:(lia) Hd ltac:(lia))
        as (s2 & Hrun2 & W2 & ([] & Hu2 & Hsame) & HA2).
      assert (Hpg2 : pmap s2 !! page = Some pg) by (rewrite Hsame; [done|auto]).
      rewrite Hrun2. cbn [mbind option_bind]. rewrite (upd_page_eq _ _ _ _ Hpg2).
      eexists _, (set_order ord pg). split; [reflexivity|]. split; [apply lookup_insert_eq|].
      split; [done|]. split; [done|]. exists (pmap s2), pg. destruct s2. done.
    - assert (k = ord) as -> by lia. exists s1, pg. split; [done|]. split; [done|]. split; [done|].
      split; [done|]. exists (pmap s1), pg. rewrite insert_id by done. destruct s1. done. }
  rewrite Hrun2. cbn [mbind option_bind]. rewrite (upd_page_eq _ _ _ _ Hpg2), NX_PowInt_pow2 by lia.
  cbn [mbind option_bind]. rewrite Hm2, insert_insert_eq.
  destruct (close_alloc (with_map s2 m0) n page ord pg0 (set_reference 1 pg2) (u64 (usedPage s2 + 2 ^ ord)) W2)
    as [W3 HA3]; [lia|done..|].
  exists (with_used (with_map s2 (<[page := set_reference 1 pg2]> m0)) (u64 (usedPage s2 + 2 ^ ord))).
  split; [unfold PageToPtr; simpl; congruence|].
  split; [exact W3|]. split; [split; simpl; congruence|]. split; [simpl; congruence|].
  intros q r t. etransitivity; [apply HA3|]. cbn [set_reference reference]. rewrite HA2, HA1. done.
Qed.

(** The address of a page. *)
Lemma PageToPtr_small s n p :
  wfh s n 0 0 -> 0 <= p < n -> PageToPtr s p = pageStart s + p * NX_PAGE_SIZE.
Proof.
  intros W Hp. destruct (wh_start _ _ _ _ W) as (_ & ? & ?). unfold PageToPtr, NX_PAGE_SIZE in *.
  apply u64_small. lia.
Qed.

Lemma NX_PageFromPtr_spec s n p :
  wfh s n 0 0 -> 0 <= p -> NX_PageFromPtr s (pageStart s + p * NX_PAGE_SIZE) = Some p.
Proof.
  intros W Hp. destruct (wh_start _ _ _ _ W) as (Hm & ? & ?). unfold NX_PageFromPtr, NX_PAGE_SIZE in *.
  rewrite Z.mod_add, Hm by lia. cbn [Z.eqb assert mbind option_bind].
  replace (pageStart s + p * 4096 - pageStart s) with (p * 4096) by lia.
  by rewrite Z.quot_mul by lia.
Qed.

(** What [NX_BuddyAllocPage] promises. *)
Lemma NX_BuddyAllocPage_spec s n c :
  wfh s n 0 0 -> 1 <= c <= 2 ^ 20 ->
  exists s' a, NX_BuddyAllocPage s c = Some (s', a) /\ wfh s' n 0 0 /\ static_eq s s' /\
    let k := Z.log2_up c in
    ((exists p, a = pageStart s + p * NX_PAGE_SIZE /\ 0 <= p /\ p + 2 ^ k <= n /\ (2 ^ k | p) /\
       all_free s p k /\ usedPage s' = u64 (usedPage s + 2 ^ k) /\
       forall q r t, allocs s' 0 0 q r t <-> (q = p /\ r = k /\ t = 1) \/ allocs s 0 0 q r t) \/
     (a = 0 /\ s' = s /\ forall p, 0 <= p -> p + 2 ^ k <= n -> (2 ^ k | p) -> ~ all_free s p k)).
Proof.
  intros W Hc. pose proof (wh_geom _ _ _ _ W) as G. cbv zeta.
  assert (Hk : 0 <= Z.log2_up c <= 20).
  { split; [apply Z.log2_up_nonneg|]. change 20 with (Z.log2_up (2 ^ 20)). apply Z.log2_up_le_mono. lia. }
  assert (Hl : 0 <= Z.log2 c <= 20).
  { split; [apply Z.log2_nonneg|]. change 20 with (Z.log2 (2 ^ 20)). apply Z.log2_le_mono. lia. }
  unfold NX_BuddyAllocPage, nz. rewrite (proj2 (Z.eqb_neq c 0)) by lia. cbn [negb assert mbind option_bind].
  rewrite BuddyFlsSizet_log2, shl64_1 by lia. cbn [mbind option_bind].
  rewrite u64_small.
  2:{ pose proof (pow2_pos (Z.log2 c)). assert (2 ^ Z.log2 c <= 2 ^ 20) by (apply Z.pow_le_mono_r; lia). lia. }
  rewrite <- (BuddyFlsSizet_log2 c) by lia. rewrite order_round_up by lia.
  set (k := Z.log2_up c) in *.
  destruct (BuddyLocateFree_spec s n _ k (wh_lists _ _ _ _ W) Hk) as (r & -> & Hr).
  cbn [mbind option_bind]. destruct r as [p|].
  - destruct Hr as (j & Hj & [_ Hf] & _).
    destruct (PagePrepareUsed_spec s n p j k W Hf ltac:(lia)) as (s' & Hrun & W' & Hst & Hu & HA).
    destruct (hd_block s n 0 0 p j W (fhd_hd _ _ _ Hf) (not_inh00 p)) as (_ & _ & Hpn & Hd & Hpe & _).
    assert (2 ^ k <= 2 ^ j) by (apply Z.pow_le_mono_r; lia).
    exists s', (PageToPtr s p). split; [done|]. split; [done|]. split; [done|]. left. exists p.
    rewrite (PageToPtr_small s n) by done. split_and!; try done; try lia.
    + etransitivity; [apply pow2_divide|exact Hd]. lia.
    + intros q o t [_ Ha]. pose proof (ahd_hd _ _ _ _ Ha) as Hq. pose proof (fhd_hd _ _ _ Hf) as Hp.
      destruct (Z.lt_total q p) as [H1|[->|H1]]; [left|exfalso; by eapply fhd_not_ahd|right].
      * by apply (g_disj _ _ _ _ G q p o j Hq Hp (not_inh00 _) (not_inh00 _)).
      * pose proof (g_disj _ _ _ _ G p q j o Hp Hq (not_inh00 _) (not_inh00 _) H1). lia.
  - exists s, 0. split; [done|]. split; [done|]. split; [done|]. right. split; [done|]. split; [done|].
    intros p H0 Hpn Hd Hfree.
    destruct (all_free_block s n (Z.to_nat k) W) with (p := p) as (q & j & Hj & Hq & _);
      rewrite ?Z2Nat.id in * by lia; try done; try lia.
    apply (Hr q j); [lia|]. split; [apply not_inh00|done].
Qed.

(** Changing the count of an allocated block. *)
Lemma set_reference_spec s n p o t t' u :
  wfh s n 0 0 -> ahd (pmap s) p o t -> 1 <= t' < 2 ^ 63 ->
  exists s1, upd_page s p (set_reference t') = Some s1 /\ let s' := with_used s1 u in
    wfh s' n 0 0 /\ static_eq s s' /\
    forall q r x, allocs s' 0 0 q r x <-> (q = p /\ r = o /\ x = t') \/ (q <> p /\ allocs s 0 0 q r x).
Proof.
  intros W Ha Ht. destruct (open_alloc s n p o t W Ha) as [W1 HA1].
  destruct (hd_block s n 0 0 p o W (ahd_hd _ _ _ _ Ha) (not_inh00 p)) as (Ho & _ & _ & Hd & _).
  destruct Ha as (pg & Hpg & Hor & _ & Hfr & _).
  rewrite (upd_page_eq _ _ _ _ Hpg). eexists. split; [reflexivity|]. cbv zeta.
  destruct (close_alloc s n p o pg (set_reference t' pg) u W1) as [W2 HA2]; try done.
  split; [exact W2|]. split; [done|]. intros q r x. etransitivity; [apply HA2|].
  rewrite HA1. done.
Qed.

Lemma PageMerge_run s page pg s2 p2 o2 :
  pmap s !! page = Some pg -> PageMerge_loop 22 s page page (order pg) = Some (s2, p2, o2) ->
  PageMerge s page = (s1 ← upd_page s2 p2 (set_order o2); Some (s1, p2)).
Proof. intros H1 H2. unfold PageMerge. rewrite H1, Some_bind. unfold PageToPFN. rewrite H2, Some_bind. reflexivity. Qed.

(** Merging a block that nobody references back into the free lists. *)
Lemma release_spec s n p o pg t u :
  wfh s n 0 0 -> n < 2 ^ 21 -> ahd (pmap s) p o t -> pmap s !! p = Some pg ->
  exists s', ('(s1, page) ← PageMerge (with_used (with_map s (<[p := set_reference 0 pg]> (pmap s))) u) p;
      BuddyAddPage s1 page) = Some s' /\
    wfh s' n 0 0 /\ static_eq s s' /\ usedPage s' = u /\
    forall q r x, allocs s' 0 0 q r x <-> q <> p /\ allocs s 0 0 q r x.
Proof.
  intros W Hn Ha Hpg.
  destruct (hd_block s n 0 0 p o W (ahd_hd _ _ _ _ Ha) (not_inh00 p)) as (Ho & H2 & Hpn & Hd & Hpe & _).
  destruct (open_alloc s n p o t W Ha) as [W1 HA1].
  assert (Hor : order pg = o) by (destruct Ha as (? & ? & ? & _); congruence).
  destruct (hole_update s n p (p + 2 ^ o) p pg (set_reference 0 pg) u W1) as [W1' HA1'];
    [unfold inh; lia|done|done|].
  set (s1 := with_used _ _) in *.
  assert (Hpg1 : pmap s1 !! p = Some (set_reference 0 pg)) by apply lookup_insert_eq.
  assert (Hs1 : pageStart s1 = pageStart s /\ maxPFN s1 = maxPFN s /\ usedPage s1 = u) by done.
  clearbody s1. destruct Hs1 as (Hp1 & Hx1 & Hu1).
  destruct (PageMerge_loop_spec n 22 Hn s1 p o W1' Ho Hd ltac:(lia))
    as (s2 & p2 & o2 & Hrun2 & W2 & Hd2 & Ho2 & Hc2 & [Hp2 Hx2] & Hu2 & HA2).
  rewrite <- Hor in Hrun2. rewrite (PageMerge_run _ _ _ _ _ _ Hpg1 Hrun2).
  destruct (add_block s2 n p2 (p2 + 2 ^ o2) p2 o2 (p2 + 2 ^ o2) (p2 + 2 ^ o2) W2 Ho2 Hd2)
    as (s3 & Hrun3 & W3 & ([Hp3 Hx3] & Hu3 & _) & _ & HA3); [left; lia|intros; by apply Hc2|].
  destruct (upd_page s2 p2 _) as [s2'|]; [|done]. cbn [mbind option_bind] in *.
  destruct (wfh_close _ _ _ W3) as [W4 HA4].
  exists s3. split; [exact Hrun3|]. split; [done|]. split; [split; congruence|]. split; [congruence|].
  intros q r x. by rewrite HA4, HA3, HA2, HA1', HA1.
Qed.

(** What [NX_BuddyFreePage] promises on an allocated block. *)
Lemma NX_BuddyFreePage_spec s n p o t :
  wfh s n 0 0 -> n < 2 ^ 21 -> allocs s 0 0 p o t ->
  exists s' e, NX_BuddyFreePage s (pageStart s + p * NX_PAGE_SIZE) = Some (s', e) /\
    wfh s' n 0 0 /\ static_eq s s' /\
    ((1 < t /\ e = NX_EAGAIN /\ usedPage s' = usedPage s /\
      forall q r x, allocs s' 0 0 q r x <-> (q = p /\ r = o /\ x = t - 1) \/ (q <> p /\ allocs s 0 0 q r x)) \/
     (t = 1 /\ e = NX_EOK /\ usedPage s' = u64 (usedPage s - 2 ^ o) /\
      forall q r x, allocs s' 0 0 q r x <-> q <> p /\ allocs s 0 0 q r x)).
Proof.
  intros W Hn [_ Ha]. pose proof (wh_ref _ _ _ _ W p o t (not_inh00 p) Ha) as Ht.
  destruct (hd_block s n 0 0 p o W (ahd_hd _ _ _ _ Ha) (not_inh00 p)) as (Ho & H2 & Hpn & Hd & Hpe & _).
  destruct (wh_start _ _ _ _ W) as (Hm & Hs0 & Hs1). unfold NX_PAGE_SIZE in *.
  unfold NX_BuddyFreePage, nz. rewrite (proj2 (Z.eqb_neq _ 0)) by lia. cbn [negb assert mbind option_bind].
  unfold NX_PAGE_INVALID_ADDR, NX_PAGE_SHIFT. rewrite (wh_max _ _ _ _ W), Z.shiftl_mul_pow2 by lia.
  change (2 ^ 12) with 4096. rewrite (u64_small ((n - 1) * 4096)), u64_small by lia.
  rewrite (proj2 (Z.ltb_ge _ _)) by lia.
  assert ((pageStart s + p * 4096 >? pageStart s + (n - 1) * 4096) = false) as ->
    by (rewrite Z.gtb_ltb; apply Z.ltb_ge; lia).
  cbn [orb]. pose proof (NX_PageFromPtr_spec s n p W ltac:(lia)) as Hptr. unfold NX_PAGE_SIZE in Hptr at 1.
  rewrite Hptr. cbn [mbind option_bind].
  pose proof Ha as (pg & Hpg & Hor & _ & Hfr & Hrf). rewrite Hpg. cbn [mbind option_bind].
  rewrite Hfr, Hrf. assert ((t >? 0) = true) as -> by (rewrite Z.gtb_ltb; apply Z.ltb_lt; lia).
  cbn [assert mbind option_bind]. rewrite i64_small by lia.
  destruct (Z.gtb_spec (t - 1) 0) as [Hgt|Hle].
  - destruct (set_reference_spec s n p o t (t - 1) (usedPage s) W Ha ltac:(lia)) as (s1 & Hrun & W1 & Hst & HA).
    rewrite Hrun. cbn [mbind option_bind]. exists s1, NX_EAGAIN. split; [done|].
    assert (with_used s1 (usedPage s) = s1) as He.
    { rewrite (upd_page_eq _ _ _ _ Hpg) in Hrun. injection Hrun as <-. done. }
    rewrite He in *. split; [done|]. split; [done|]. left. split; [lia|]. split; [done|].
    split; [|exact HA]. rewrite (upd_page_eq _ _ _ _ Hpg) in Hrun. by injection Hrun as <-.
  - assert (t = 1) as -> by lia. rewrite (upd_page_eq _ _ _ _ Hpg). cbn [mbind option_bind].
    rewrite NX_PowInt_pow2 by lia. cbn [mbind option_bind].
    destruct (release_spec s n p o pg 1 (u64 (usedPage s - 2 ^ o)) W Hn Ha Hpg)
      as (s3 & Hrun & W3 & Hst & Hu & HA).
    change (1 - 1) with 0. cbn [with_map usedPage]. rewrite Hor.
    destruct (PageMerge _ p) as [[s2 p2]|]; [|done]. cbn [mbind option_bind] in *.
    rewrite Hrun. cbn [mbind option_bind]. exists s3, NX_EOK. split; [done|]. split; [done|].
    split; [done|]. right. done.
Qed.
End operations.

(** ** Creation *)
Section creation.
Implicit Types (s : NX_BuddySystem) (n p q o r t i c : Z).

Lemma BuddyCreate_loop_S fuel s i c :
  BuddyCreate_loop (S fuel) s i c =
    if c =? 0 then Some s
    else
      let order := BuddyFlsSizet c in
      assert (0 <=? order);;
      let order := if order >? NX_MAX_PAGE_ORDER then NX_MAX_PAGE_ORDER else order in
      s ← upd_page s i (set_order order);
      s ← BuddyAddPage s i;
      step ← shl64 1 order;
      BuddyCreate_loop fuel s (u64 (i + step)) (u64 (c - step)).
Proof. done. Qed.

(** The turns that [c] pages take. *)
Definition create_turns (c : Z) : Z :=
  if c =? 0 then 1 else if c <? 2 ^ 20 then Z.log2 c + 2 else c / 2 ^ 20 + 22.

Lemma create_turns_pos c : 0 <= c -> 1 <= create_turns c.
Proof.
  intros. unfold create_turns. pose proof (Z.log2_nonneg c).
  destruct (Z.eqb_spec c 0); [lia|]. destruct (Z.ltb_spec c (2 ^ 20)); zlia.
Qed.

Lemma create_turns_step c :
  0 < c -> let o := Z.min (Z.log2 c) 20 in
  2 ^ o <= c /\ (o < 20 -> c - 2 ^ o < 2 ^ o) /\ create_turns (c - 2 ^ o) <= create_turns c - 1.
Proof.
  intros Hc o. destruct (Z.log2_spec c Hc) as [Hlo Hhi]. pose proof (Z.log2_nonneg c) as Hl0.
  rewrite Z.pow_succ_r in Hhi by lia.
  destruct (Z.leb_spec 20 (Z.log2 c)) as [Hge|Hlt].
  - assert (o = 20) as -> by lia.
    assert (2 ^ 20 <= 2 ^ Z.log2 c) by (apply Z.pow_le_mono_r; lia).
    split; [lia|]. split; [lia|]. unfold create_turns.
    rewrite (proj2 (Z.eqb_neq c 0)), (proj2 (Z.ltb_ge c (2 ^ 20))) by lia.
    destruct (Z.eqb_spec (c - 2 ^ 20) 0); [zlia|].
    destruct (Z.ltb_spec (c - 2 ^ 20) (2 ^ 20)) as [Hs|]; [|zlia].
    assert (Z.log2 (c - 2 ^ 20) < 20) by (apply Z.log2_lt_pow2; lia). zlia.
  - assert (o = Z.log2 c) as -> by lia. split; [done|]. split; [lia|].
    assert (c < 2 ^ 20) by (apply Z.log2_lt_pow2; lia). unfold create_turns.
    rewrite (proj2 (Z.eqb_neq c 0)), (proj2 (Z.ltb_lt c (2 ^ 20))) by lia.
    destruct (Z.eqb_spec (c - 2 ^ Z.log2 c) 0); [lia|].
    rewrite (proj2 (Z.ltb_lt _ (2 ^ 20))) by lia.
    assert (Z.log2 (c - 2 ^ Z.log2 c) < Z.log2 c) by (apply Z.log2_lt_pow2; lia). lia.
Qed.

Lemma BuddyCreate_loop_spec n fuel :
  forall s i, 0 <= i <= n -> wfh s n i n -> create_turns (n - i) <= Z.of_nat fuel ->
  (forall o, 0 <= o <= 20 -> 2 ^ o <= n - i -> (2 ^ o | i)) ->
  (forall p o, ~ inh i n p -> fhd (pmap s) p o -> o < 20 -> n - i < 2 ^ o) ->
  exists s', BuddyCreate_loop fuel s i (n - i) = Some s' /\ wfh s' n 0 0 /\
    static_eq s s' /\ usedPage s' = usedPage s /\
    forall q r t, allocs s' 0 0 q r t <-> allocs s i n q r t.
Proof.
  induction fuel as [|fuel IH]; intros s i Hi W Hfuel Hal Hex;
    [pose proof (create_turns_pos (n - i)); lia|].
  rewrite BuddyCreate_loop_S. destruct (Z.eqb_spec (n - i) 0) as [H0|H0].
  { assert (i = n) as -> by lia. destruct (wfh_close _ _ _ W). exists s. split_and!; done. }
  pose proof (wh_n _ _ _ _ W). destruct (create_turns_step (n - i) ltac:(lia)) as (Hle & Hlt & Hturn).
  pose proof (Z.log2_nonneg (n - i)). rewrite BuddyFlsSizet_log2 by lia. cbv zeta.
  rewrite (proj2 (Z.leb_le 0 (Z.log2 (n - i)))) by lia. unfold assert. rewrite Some_bind.
  unfold NX_MAX_PAGE_ORDER.
  assert ((if Z.log2 (n - i) >? 20 then 20 else Z.log2 (n - i)) = Z.min (Z.log2 (n - i)) 20) as ->
    by (destruct (Z.gtb_spec (Z.log2 (n - i)) 20); lia).
  set (o := Z.min (Z.log2 (n - i)) 20) in *. pose proof (pow2_pos o ltac:(lia)) as H2.
  destruct (add_block s n i n i o (i + 2 ^ o) n W ltac:(lia)) as (s1 & Hrun & W1 & ([Hs1 Hs2] & Hu & Hsame) & Hnew & HA).
  - apply Hal; lia.
  - left. lia.
  - intros Ho Hn Hf. specialize (Hex _ _ Hn Hf Ho). lia.
  - destruct (upd_page s i _) as [s0|]; [|done]. rewrite Some_bind in *. rewrite Hrun, !Some_bind.
    rewrite shl64_1, Some_bind by lia. rewrite !u64_small by lia.
    replace (n - i - 2 ^ o) with (n - (i + 2 ^ o)) in * by lia.
    destruct (IH s1 (i + 2 ^ o)) as (s2 & Hrun2 & W2 & [] & Hu2 & HA2); [lia|done|lia|..].
    + intros r Hr Hle'. apply Z.divide_add_r; [apply Hal; lia|]. apply pow2_divide.
      split; [lia|]. destruct (Z.leb_spec r o); [done|].
      assert (2 ^ o <= 2 ^ r) by (apply Z.pow_le_mono_r; lia). lia.
    + intros p r Hp Hf Hr. destruct (decide (p = i)) as [->|Hne].
      * rewrite (hd_fun _ _ _ _ (fhd_hd _ _ _ Hf) (fhd_hd _ _ _ Hnew)) in *. lia.
      * rewrite (fhd_lookup (pmap s)) in Hf by auto.
        assert (n - i < 2 ^ r); [|lia]. apply (Hex p r); [|done|done].
        rewrite <- (carve_exposed (pmap s) n i n i o (i + 2 ^ o) n p r); [done|apply W|lia|left; lia|by apply fhd_hd|done].
    + exists s2. split; [done|]. split; [done|]. split; [split; congruence|]. split; [congruence|].
      intros q r t. by rewrite HA2, HA.
Qed.

Lemma fresh_map (f : Z -> NX_Page) n p :
  (list_to_map ((fun i => (i, f i)) <$> seqZ 0 n) : gmap Z NX_Page) !! p =
    if decide (0 <= p < n) then Some (f p) else None.
Proof.
  case_decide as Hp.
  - apply elem_of_list_to_map_1.
    + rewrite <- list_fmap_compose, (list_fmap_ext _ id), list_fmap_id by done. apply NoDup_seqZ.
    + apply list_elem_of_fmap. exists p. split; [done|]. by apply elem_of_seqZ.
  - apply not_elem_of_list_to_map_1. rewrite <- list_fmap_compose.
    intros (x & -> & Hx)%list_elem_of_fmap. apply elem_of_seqZ in Hx. simpl in Hp. lia.
Qed.

(** Before the blocks are laid out the whole zone is the hole. *)
Lemma fresh_wfh raw n start u :
  0 < n < 2 ^ 51 -> start mod NX_PAGE_SIZE = 0 /\ 0 < start /\ start + n * NX_PAGE_SIZE < 2 ^ 64 ->
  let m := list_to_map ((fun i => (i, set_order NX_PAGE_INVALID_ORDER (raw i))) <$> seqZ 0 n) in
  let s := mkBuddy (replicate 21 []) (replicate 21 0) 0 start (n - 1) u m in
  wfh s n 0 n /\ forall p o, ~ hd (pmap s) p o.
Proof.
  intros Hn Hst m s.
  assert (Hhd : forall p o, ~ hd (pmap s) p o).
  { intros p o (pg & Hp & Hor & Ho). unfold s, m in Hp. cbn [pmap] in Hp.
    rewrite (fresh_map (fun i => set_order NX_PAGE_INVALID_ORDER (raw i))) in Hp.
    case_decide; [|done]. injection Hp as <-. cbn in Hor. unfold NX_PAGE_INVALID_ORDER in Hor. lia. }
  assert (Hm : forall p pg, pmap s !! p = Some pg -> order pg = -1).
  { intros p pg Hp. unfold s, m in Hp. cbn [pmap] in Hp.
    rewrite (fresh_map (fun i => set_order NX_PAGE_INVALID_ORDER (raw i))) in Hp.
    case_decide; [|done]. by injection Hp as <-. }
  split; [|exact Hhd]. split; try done.
  - split.
    + lia.
    + intros p. unfold s, m. cbn [pmap].
      rewrite (fresh_map (fun i => set_order NX_PAGE_INVALID_ORDER (raw i))).
      case_decide; split; try done; intros [? ?]; done.
    + intros p pg Hp. left. eauto.
    + intros p o Hp. by apply Hhd in Hp.
    + intros p q o r Hp. by apply Hhd in Hp.
    + intros q Hq. left. unfold inh. lia.
    + intros p pg _ Hp. eauto.
  - split; try done. intros o Ho. exists [].
    assert (Hz : forall A (x : A), zlookup (replicate 21 x) o = Some x).
    { intros A x. unfold zlookup. rewrite (proj2 (Z.leb_le 0 o)) by lia.
      apply lookup_replicate_2. lia. }
    split; cbn [s pageBuddy count bitmap].
    + apply Hz.
    + apply Hz.
    + apply NoDup_nil_2.
    + by rewrite Z.bits_0.
    + intros p. split; [by intros ?%elem_of_nil|]. intros [_ Hf%fhd_hd]. by apply Hhd in Hf.
    + by intros p ?%elem_of_nil.
  - intros p o _ _ Hf%fhd_hd. by apply Hhd in Hf.
  - intros p o r _ Ha%ahd_hd. by apply Hhd in Ha.
Qed.

Lemma align_up_below x a y : 0 < a -> (a | y) -> x <= y -> align_up x a <= y.
Proof.
  intros Ha [k ->] Hx. unfold align_up.
  assert ((x + a - 1) / a < k + 1); [|nia]. apply Z.div_lt_upper_bound; lia.
Qed.

(** [NX_BuddyCreate] lays the manager and the descriptors at the start of the
    memory and the pages after them, up to the end. *)
Lemma NX_BuddyCreate_spec raw mem size :
  0 < mem -> 536 <= size -> mem + size < 2 ^ 63 ->
  536 + align_up ((size - 536) / 4096 * 40) 4096 + 8192 <= size ->
  exists s n, NX_BuddyCreate raw mem size = Some s /\ wfh s n 0 0 /\
    (forall q r t, ~ allocs s 0 0 q r t) /\
    mem + 536 + 40 * n <= pageStart s /\
    mem + size - 4096 < pageStart s + n * NX_PAGE_SIZE <= mem + size.
Proof.
  intros Hm Hs Hb Hroom. unfold NX_BuddyCreate, nz.
  rewrite (proj2 (Z.eqb_neq mem 0)), (proj2 (Z.eqb_neq size 0)) by lia.
  cbn [negb andb]. rewrite assert_true.
  unfold sizeof_NX_BuddySystem, sizeof_NX_Page, NX_PAGE_SHIFT, NX_PAGE_SIZE.
  rewrite (u64_small (mem + 536)), (u64_small (size - 536)), Z.shiftr_div_pow2 by lia.
  change (2 ^ 12) with 4096. set (pc := (size - 536) / 4096) in *.
  assert (Hpc : 0 <= pc /\ pc * 4096 <= size - 536) by (unfold pc; zlia).
  rewrite (u64_small (pc * 40)) by lia.
  assert (BuddyAlignUp (pc * 40) 4096 = Some (align_up (pc * 40) 4096)) as ->
    by (apply (BuddyAlignUp_spec _ 12); lia).
  rewrite Some_bind.
  destruct (align_up_spec (pc * 40) 4096) as [Hms1 Hms2]; [lia|].
  set (ms := align_up (pc * 40) 4096) in *.
  rewrite (u64_small (mem + 536 + ms)), (u64_small (size - 536 - ms)) by lia.
  unfold BuddyAlignPtr, nz. rewrite (proj2 (Z.eqb_neq (mem + 536 + ms) 0)) by lia.
  cbn [negb andb]. rewrite assert_true.
  change (Z.land 4096 (u64 (4096 - 1)) =? 0) with true. rewrite assert_true.
  destruct (align_up_spec (mem + 536 + ms) 4096) as [Hal1 Hal2]; [lia|].
  assert (Z.land (u64 (mem + 536 + ms + u64 (4096 - 1))) (not64 (u64 (4096 - 1))) =
    align_up (mem + 536 + ms) 4096) as ->.
  { etransitivity; [|apply (NX_ALIGN_UP_spec (mem + 536 + ms) 12); lia]. reflexivity. }
  set (al := align_up (mem + 536 + ms) 4096) in *. rewrite Some_bind.
  rewrite (u64_small (al - _)), (u64_small (mem + 536 + ms + _)), (u64_small (size - 536 - ms - _)) by lia.
  replace (mem + 536 + ms + (al - (mem + 536 + ms))) with al by lia.
  set (sz := size - 536 - ms - (al - (mem + 536 + ms))) in *.
  assert (Hal0 : al mod 4096 = 0) by (apply Z.mod_divide; [lia|done]).
  assert ((Z.land al NX_PAGE_MASK =? 0) = true) as ->.
  { apply Z.eqb_eq. change NX_PAGE_MASK with (Z.ones 12). by rewrite Z.land_ones by lia. }
  rewrite assert_true, Z.shiftr_div_pow2 by lia. change (2 ^ 12) with 4096.
  set (n := sz / 4096). assert (Hn : 0 < n /\ n * 4096 <= sz < (n + 1) * 4096) by (unfold n; zlia).
  rewrite (u64_small (n - 1)) by lia.
  destruct (fresh_wfh raw n al (u64 (size - sz) >> 12)) as [W Hhd]; [lia|unfold NX_PAGE_SIZE; lia|].
  cbv zeta in W, Hhd. cbn [BuddyCreateFromMemory pageBuddy count bitmap].
  set (s0 := mkBuddy _ _ _ _ _ _ _) in *.
  destruct (BuddyCreate_loop_spec n (create_fuel n) s0 0) as (s & Hrun & W' & [Hst _] & _ & HA).
  - lia.
  - done.
  - rewrite Z.sub_0_r. unfold create_turns, create_fuel. rewrite Nat2Z.inj_add, Z2Nat.id by zlia.
    rewrite (proj2 (Z.eqb_neq n 0)) by lia. destruct (Z.ltb_spec n (2 ^ 20)); [|lia].
    assert (Z.log2 n < 20) by (apply Z.log2_lt_pow2; lia). zlia.
  - intros o _ _. apply Z.divide_0_r.
  - intros p o _ Hf%fhd_hd. by apply Hhd in Hf.
  - rewrite Z.sub_0_r in Hrun. exists s, n. split; [exact Hrun|]. split; [done|].
    assert (n <= pc) by (unfold n, pc; apply Z.div_le_mono; lia).
    split; [|rewrite Hst; cbn [s0 pageStart]; unfold NX_PAGE_SIZE; lia].
    intros q r t Hq. apply HA in Hq as [_ Ha%ahd_hd]. by apply Hhd in Ha.
Qed.
End creation.

(** ** The remaining branches *)
Section branches.
Implicit Types (s : NX_BuddySystem) (n p q o r t : Z).

Lemma NX_BuddyIncreasePage_spec s n p o t :
  wfh s n 0 0 -> allocs s 0 0 p o t -> t + 1 < 2 ^ 63 ->
  exists s', NX_BuddyIncreasePage s (pageStart s + p * NX_PAGE_SIZE) = Some (s', NX_EOK) /\
    wfh s' n 0 0 /\ static_eq s s' /\ usedPage s' = usedPage s /\
    forall q r x, allocs s' 0 0 q r x <-> (q = p /\ r = o /\ x = t + 1) \/ (q <> p /\ allocs s 0 0 q r x).
Proof.
  intros W [_ Ha] Ht. pose proof (wh_ref _ _ _ _ W p o t (not_inh00 p) Ha) as Ht1.
  destruct (hd_block s n 0 0 p o W (ahd_hd _ _ _ _ Ha) (not_inh00 p)) as (Ho & H2 & Hpn & _).
  destruct (wh_start _ _ _ _ W) as (Hm & Hs0 & Hs1). pose proof (wh_n _ _ _ _ W).
  pose proof (NX_PageFromPtr_spec s n p W ltac:(lia)) as Hptr. unfold NX_PAGE_SIZE in *.
  unfold NX_BuddyIncreasePage, nz. rewrite (proj2 (Z.eqb_neq _ 0)) by lia. cbn [negb].
  rewrite assert_true, (wh_max _ _ _ _ W). replace (n - 1 + 1) with n by lia. unfold NX_PAGE_SIZE.
  rewrite (u64_small n), (u64_small (n * 4096)), u64_small by lia.
  rewrite (proj2 (Z.ltb_ge _ _)) by lia.
  assert ((pageStart s + p * 4096 >=? pageStart s + n * 4096) = false) as ->
    by (rewrite Z.geb_leb; apply Z.leb_gt; lia).
  cbn [orb]. rewrite Hptr, Some_bind. pose proof Ha as (pg & Hpg & Hor & _ & Hfr & Hrf).
  rewrite Hpg, Some_bind, Hrf, i64_small by lia.
  destruct (set_reference_spec s n p o t (t + 1) (usedPage s) W Ha ltac:(lia)) as (s1 & Hrun & W1 & Hst & HA).
  pose proof Hrun as Hrun'. rewrite (upd_page_eq _ _ _ _ Hpg) in Hrun'. injection Hrun' as Hs1'.
  assert (with_used s1 (usedPage s) = s1) as He by (by rewrite <- Hs1').
  rewrite He in *. rewrite Hrun, Some_bind. exists s1. split_and!; try done. by rewrite <- Hs1'.
Qed.

(** Addresses outside the zone are refused and change nothing. *)
Lemma bad_address s n ptr :
  wfh s n 0 0 -> 0 < ptr ->
  (ptr < pageStart s \/ pageStart s + (n - 1) * NX_PAGE_SIZE < ptr ->
    NX_BuddyFreePage s ptr = Some (s, NX_EINVAL)) /\
  (ptr < pageStart s \/ pageStart s + n * NX_PAGE_SIZE <= ptr ->
    NX_BuddyIncreasePage s ptr = Some (s, NX_EINVAL)).
Proof.
  intros W Hp. destruct (wh_start _ _ _ _ W) as (Hm & Hs0 & Hs1). pose proof (wh_n _ _ _ _ W).
  unfold NX_PAGE_SIZE in *. split; intros Hb.
  - unfold NX_BuddyFreePage, nz. rewrite (proj2 (Z.eqb_neq _ 0)) by lia. cbn [negb]. rewrite assert_true.
    unfold NX_PAGE_INVALID_ADDR, NX_PAGE_SHIFT. rewrite (wh_max _ _ _ _ W), Z.shiftl_mul_pow2 by lia.
    change (2 ^ 12) with 4096. rewrite (u64_small ((n - 1) * 4096)), u64_small by lia.
    destruct (Z.ltb_spec ptr (pageStart s)); [done|]. cbn [orb]. rewrite Z.gtb_ltb.
    by rewrite (proj2 (Z.ltb_lt _ _)) by lia.
  - unfold NX_BuddyIncreasePage, nz. rewrite (proj2 (Z.eqb_neq _ 0)) by lia. cbn [negb]. rewrite assert_true.
    rewrite (wh_max _ _ _ _ W). replace (n - 1 + 1) with n by lia. unfold NX_PAGE_SIZE.
    rewrite (u64_small n), (u64_small (n * 4096)), u64_small by lia.
    destruct (Z.ltb_spec ptr (pageStart s)); [done|]. cbn [orb]. rewrite Z.geb_leb.
    by rewrite (proj2 (Z.leb_le _ _)) by lia.
Qed.

(** The free blocks are a function of the allocated ones. *)
Lemma free_blocks_unique s s' n p k :
  wfh s n 0 0 -> wfh s' n 0 0 -> (forall q r t, allocs s 0 0 q r t <-> allocs s' 0 0 q r t) ->
  fhd (pmap s) p k -> fhd (pmap s') p k.
Proof.
  intros W W' HA Hf.
  (* a free block of one state lies in a free block of the other *)
  assert (Hin : forall s1 s2, wfh s1 n 0 0 -> wfh s2 n 0 0 ->
      (forall q r t, allocs s2 0 0 q r t -> allocs s1 0 0 q r t) ->
      forall a i, fhd (pmap s1) a i -> exists b j, i <= j /\ fhd (pmap s2) b j /\ b <= a /\ a + 2 ^ i <= b + 2 ^ j).
  { intros s1 s2 W1 W2 HA' a i Ha. pose proof (wh_geom _ _ _ _ W1) as G1.
    destruct (hd_block s1 n 0 0 a i W1 (fhd_hd _ _ _ Ha) (not_inh00 a)) as (Hi & _ & Han & Hd & Hae & _).
    destruct (all_free_block s2 n (Z.to_nat i) W2) with (p := a) as (b & j & Hj & Hb & ? & ?);
      rewrite ?Z2Nat.id in * by lia; try done; try lia; [|exists b, j; split_and!; (done || lia)].
    intros q o t [_ Hq]%HA'. pose proof (ahd_hd _ _ _ _ Hq) as Hq'. pose proof (fhd_hd _ _ _ Ha) as Ha'.
    destruct (Z.lt_total q a) as [H1|[->|H1]]; [left|exfalso; by eapply fhd_not_ahd|right].
    - by apply (g_disj _ _ _ _ G1 q a o i Hq' Ha' (not_inh00 _) (not_inh00 _)).
    - by apply (g_disj _ _ _ _ G1 a q i o Ha' Hq' (not_inh00 _) (not_inh00 _)). }
  destruct (Hin s s' W W' (fun q r t => proj2 (HA q r t)) p k Hf) as (b & j & Hkj & Hb & Hle & Hge).
  destruct (Hin s' s W' W (fun q r t => proj1 (HA q r t)) b j Hb) as (c & i & Hji & Hc & Hle' & Hge').
  pose proof (wh_geom _ _ _ _ W) as G.
  destruct (hd_block s n 0 0 p k W (fhd_hd _ _ _ Hf) (not_inh00 p)) as (_ & ? & _).
  destruct (hd_block s n 0 0 c i W (fhd_hd _ _ _ Hc) (not_inh00 c)) as (_ & ? & _).
  assert (c = p) as ->.
  { destruct (Z.lt_total c p) as [H1|[H1|H1]]; [|done|lia].
    pose proof (g_disj _ _ _ _ G c p i k (fhd_hd _ _ _ Hc) (fhd_hd _ _ _ Hf) (not_inh00 _) (not_inh00 _) H1). lia. }
  assert (i = k) as -> by (eapply hd_fun; by apply fhd_hd).
  assert (j = k) as -> by lia. by assert (b = p) as -> by lia.
Qed.
End branches.

(** ** The zone: an abstract allocator

    Its state is the map of the allocated blocks (page, order, reference
    count) and the counter of used pages. *)
Inductive bop :=
  | Alloc (count : Z)
  | Free (ptr : Z)
  | Increase (ptr : Z).

Inductive bresult :=
  | Ptr (a : Z)
  | Err (e : NX_Error).

Definition zone : Type := gmap Z (Z * Z) * Z.

Definition buddy_op (s : NX_BuddySystem) (op : bop) : option (NX_BuddySystem * bresult) :=
  match op with
  | Alloc c => '(s, a) ← NX_BuddyAllocPage s c; Some (s, Ptr a)
  | Free ptr => '(s, e) ← NX_BuddyFreePage s ptr; Some (s, Err e)
  | Increase ptr => '(s, e) ← NX_BuddyIncreasePage s ptr; Some (s, Err e)
  end.

Definition zone_free (A : gmap Z (Z * Z)) (p k : Z) : Prop :=
  forall q o t, A !! q = Some (o, t) -> q + 2 ^ o <= p \/ p + 2 ^ k <= q.

Definition fits (n p k : Z) : Prop := 0 <= p /\ p + 2 ^ k <= n /\ (2 ^ k | p).

Inductive zstep (n st : Z) : zone -> bop -> bresult -> zone -> Prop :=
  | z_alloc A u c p : let k := Z.log2_up c in
      fits n p k -> zone_free A p k ->
      zstep n st (A, u) (Alloc c) (Ptr (st + p * NX_PAGE_SIZE)) (<[p := (k, 1)]> A, u64 (u + 2 ^ k))
  | z_full A u c :
      (forall p, fits n p (Z.log2_up c) -> ~ zone_free A p (Z.log2_up c)) ->
      zstep n st (A, u) (Alloc c) (Ptr 0) (A, u)
  | z_free A u p o :
      A !! p = Some (o, 1) ->
      zstep n st (A, u) (Free (st + p * NX_PAGE_SIZE)) (Err NX_EOK) (delete p A, u64 (u - 2 ^ o))
  | z_shared A u p o t :
      A !! p = Some (o, t) -> 1 < t ->
      zstep n st (A, u) (Free (st + p * NX_PAGE_SIZE)) (Err NX_EAGAIN) (<[p := (o, t - 1)]> A, u)
  | z_free_bad A u ptr :
      ptr < st \/ st + (n - 1) * NX_PAGE_SIZE < ptr -> zstep n st (A, u) (Free ptr) (Err NX_EINVAL) (A, u)
  | z_increase A u p o t :
      A !! p = Some (o, t) ->
      zstep n st (A, u) (Increase (st + p * NX_PAGE_SIZE)) (Err NX_EOK) (<[p := (o, t + 1)]> A, u)
  | z_increase_bad A u ptr :
      ptr < st \/ st + n * NX_PAGE_SIZE <= ptr -> zstep n st (A, u) (Increase ptr) (Err NX_EINVAL) (A, u).

(** What a client may ask for: up to [2^20] pages, and the addresses of live
    blocks or addresses outside the zone. *)
Definition allowed (n st : Z) (A : gmap Z (Z * Z)) (op : bop) : Prop :=
  match op with
  | Alloc c => 1 <= c <= 2 ^ 20
  | Free ptr => 0 < ptr /\ (ptr < st \/ st + (n - 1) * NX_PAGE_SIZE < ptr \/
      exists p o t, ptr = st + p * NX_PAGE_SIZE /\ A !! p = Some (o, t))
  | Increase ptr => 0 < ptr /\ (ptr < st \/ st + n * NX_PAGE_SIZE <= ptr \/
      exists p o t, ptr = st + p * NX_PAGE_SIZE /\ A !! p = Some (o, t) /\ t + 1 < 2 ^ 63)
  end.

Definition represents (s : NX_BuddySystem) (n st : Z) (z : zone) : Prop :=
  wfh s n 0 0 /\ n < 2 ^ 21 /\ pageStart s = st /\ usedPage s = z.2 /\
  forall p o t, z.1 !! p = Some (o, t) <-> allocs s 0 0 p o t.

Lemma represents_insert s s' n st A u u' p o t :
  represents s n st (A, u) -> wfh s' n 0 0 -> static_eq s s' -> usedPage s' = u' ->
  (forall q r x, allocs s' 0 0 q r x <-> (q = p /\ r = o /\ x = t) \/ (q <> p /\ allocs s 0 0 q r x)) ->
  represents s' n st (<[p := (o, t)]> A, u').
Proof.
  intros (W & Hn & Hst & Hu & HA) W' [Hp _] Hu' HA'. split; [done|]. split; [done|].
  split; [congruence|]. split; [done|]. intros q r x. rewrite HA'. cbn [fst] in *.
  destruct (decide (q = p)) as [->|Hne].
  - rewrite lookup_insert_eq. split; [intros [= <- <-]; auto|]. by intros [(_ & -> & ->)|[]].
  - rewrite lookup_insert_ne by done. rewrite HA. tauto.
Qed.

(** One operation of the code is one step of the zone. *)
Lemma buddy_op_simulates s n st z op :
  represents s n st z -> allowed n st z.1 op ->
  exists s' r z', buddy_op s op = Some (s', r) /\ zstep n st z op r z' /\ represents s' n st z'.
Proof.
  destruct z as [A u]. intros R Hop. pose proof R as (W & Hn & Hst & Hu & HA). cbn [fst snd] in *.
  assert (Hbad : forall ptr, 0 < ptr -> (ptr < st \/ st + (n - 1) * NX_PAGE_SIZE < ptr ->
      NX_BuddyFreePage s ptr = Some (s, NX_EINVAL)) /\ (ptr < st \/ st + n * NX_PAGE_SIZE <= ptr ->
      NX_BuddyIncreasePage s ptr = Some (s, NX_EINVAL))) by (rewrite <- Hst; eauto using bad_address).
  destruct op as [c|ptr|ptr]; cbn [buddy_op allowed] in *.
  - destruct (NX_BuddyAllocPage_spec s n c W Hop) as (s' & a & -> & W' & Hs & [H|H]); rewrite Some_bind.
    + destruct H as (p & -> & H0 & Hpn & Hd & Hfree & Hu' & HA'). set (k := Z.log2_up c) in *.
      pose proof (pow2_pos k (Z.log2_up_nonneg c)) as H2.
      assert (Hnp : forall o t, ~ allocs s 0 0 p o t).
      { intros o t Hq. pose proof (Hfree p o t Hq) as Hx. destruct Hq as [_ Hq%ahd_hd].
        destruct (hd_block s n 0 0 p o W Hq (not_inh00 p)) as (_ & ? & _). lia. }
      eexists s', _, (<[p := (k, 1)]> A, u64 (u + 2 ^ k)). split; [reflexivity|]. rewrite Hst. split.
      * constructor; [done|]. intros q o t Hq%HA. eauto.
      * eapply represents_insert; [done..|by rewrite Hu', Hu|].
        intros q r x. rewrite HA'. split; intros [?|Hq]; auto; [right|tauto].
        split; [|done]. intros ->. by eapply Hnp.
    + destruct H as (-> & -> & Hfull). eexists s, _, (A, u). split; [reflexivity|]. split; [|done].
      constructor. intros p (H0 & Hpn & Hd) Hf. eapply (Hfull p); [done..|].
      intros q o t Hq%HA. eauto.
  - destruct Hop as [Hp [Hb|[Hb|(p & o & t & -> & Hl)]]].
    1,2: rewrite (proj1 (Hbad ptr Hp)) by auto; rewrite Some_bind; eexists s, _, (A, u);
      split; [reflexivity|]; split; [constructor; auto|done].
    pose proof Hl as Hl'. apply HA in Hl'. rewrite <- Hst.
    destruct (NX_BuddyFreePage_spec s n p o t W Hn Hl') as (s' & e & -> & W' & Hs & [H|H]); rewrite Some_bind.
    + destruct H as (Ht & -> & Hu' & HA'). eexists s', _, (<[p := (o, t - 1)]> A, u).
      split; [reflexivity|]. rewrite Hst. split; [by constructor|].
      eapply represents_insert; [done..|by rewrite Hu'|done].
    + destruct H as (-> & -> & Hu' & HA'). eexists s', _, (delete p A, u64 (u - 2 ^ o)).
      split; [reflexivity|]. rewrite Hst. split; [by constructor|].
      destruct Hs as [Hs _]. split; [done|]. split; [done|]. split; [congruence|].
      split; [cbn [snd]; congruence|]. intros q r x. cbn [fst]. rewrite lookup_delete_Some, HA', HA.
      naive_solver.
  - destruct Hop as [Hp [Hb|[Hb|(p & o & t & -> & Hl & Ht)]]].
    1,2: rewrite (proj2 (Hbad ptr Hp)) by auto; rewrite Some_bind; eexists s, _, (A, u);
      split; [reflexivity|]; split; [constructor; auto|done].
    pose proof Hl as Hl'. apply HA in Hl'. rewrite <- Hst.
    destruct (NX_BuddyIncreasePage_spec s n p o t W Hl' Ht) as (s' & -> & W' & Hs & Hu' & HA').
    rewrite Some_bind. eexists s', _, (<[p := (o, t + 1)]> A, u). split; [reflexivity|]. rewrite Hst.
    split; [by constructor|]. eapply represents_insert; [done..|by rewrite Hu'|done].
Qed.

(** A client picks its next request from the history of requests and answers. *)
Definition history : Type := list (bop * bresult).

Fixpoint client_run (k : nat) (client : history -> bop) (h : history) (s : NX_BuddySystem) :
    option (NX_BuddySystem * history) :=
  match k with
  | O => Some (s, h)
  | S k => '(s, r) ← buddy_op s (client h); client_run k client ((client h, r) :: h) s
  end.

Inductive zruns (n st : Z) (z : zone) : history -> zone -> Prop :=
  | zr_nil : zruns n st z [] z
  | zr_cons h z1 op r z2 : zruns n st z h z1 -> zstep n st z1 op r z2 -> zruns n st z ((op, r) :: h) z2.

Lemma client_run_simulates n st z0 client k :
  (forall h z, zruns n st z0 h z -> allowed n st z.1 (client h)) ->
  forall h s z, zruns n st z0 h z -> represents s n st z ->
  exists s' h' z', client_run k client h s = Some (s', h') /\ length h' = (k + length h)%nat /\
    zruns n st z0 h' z' /\ represents s' n st z'.
Proof.
  intros Hc. induction k as [|k IH]; intros h s z Hz R; cbn [client_run].
  - exists s, h, z. done.
  - destruct (buddy_op_simulates s n st z (client h) R (Hc h z Hz)) as (s1 & r & z1 & -> & Hs & R1).
    rewrite Some_bind. destruct (IH ((client h, r) :: h) s1 z1) as (s' & h' & z' & ? & Hl & ? & ?);
      [by econstructor|done|]. exists s', h', z'. split; [done|]. split; [simpl in Hl; lia|done].
Qed.

(** The blocks of the zone: aligned, inside, pairwise disjoint, with a live count. *)
Definition zone_ok (n : Z) (A : gmap Z (Z * Z)) : Prop :=
  (forall p o t, A !! p = Some (o, t) -> 0 <= o <= 20 /\ fits n p o /\ 1 <= t) /\
  (forall p q o r t x, A !! p = Some (o, t) -> A !! q = Some (r, x) -> p < q -> p + 2 ^ o <= q).

Lemma represents_zone_ok s n st z : represents s n st z -> zone_ok n z.1.
Proof.
  intros (W & _ & _ & _ & HA). pose proof (wh_geom _ _ _ _ W) as G. split.
  - intros p o t Hp. apply HA in Hp as [_ Ha].
    destruct (hd_block s n 0 0 p o W (ahd_hd _ _ _ _ Ha) (not_inh00 p)) as (? & ? & ? & ? & ? & _).
    pose proof (wh_ref _ _ _ _ W p o t (not_inh00 p) Ha). split; [done|]. split; [|lia].
    split; [lia|done].
  - intros p q o r t x [_ Hp%ahd_hd]%HA [_ Hq%ahd_hd]%HA Hpq.
    by apply (g_disj _ _ _ _ G p q o r Hp Hq (not_inh00 _) (not_inh00 _)).
Qed.

(** Enough memory for the manager, the descriptors and a page, below 8 GB. *)
Definition good_memory (mem size : Z) : Prop :=
  0 < mem /\ mem + size < 2 ^ 63 /\ 536 <= size < 2 ^ 33 /\
  536 + align_up ((size - 536) / 4096 * 40) 4096 + 8192 <= size.

(** C2: the allocator refines the zone.  On memory of good size
    [NX_BuddyCreate] returns a manager with no block allocated; then, whatever
    requests a client makes (each one chosen from the answers so far and
    allowed by the specification), every call returns, and calls and answers
    are a run of the abstract zone: an allocation returns an aligned run of
    [2^log2_up(count)] pages that meets no live block, or null only when there
    is no such run; a release drops a reference or gives the block back. *)
Theorem buddy_refines_zone raw mem size :
  good_memory mem size ->
  exists s n, NX_BuddyCreate raw mem size = Some s /\
    mem + 536 + 40 * n <= pageStart s /\
    mem + size - 4096 < pageStart s + n * NX_PAGE_SIZE <= mem + size /\
    forall client, let z0 := (∅, usedPage s) in
      (forall h z, zruns n (pageStart s) z0 h z -> allowed n (pageStart s) z.1 (client h)) ->
      forall k, exists s' h z, client_run k client [] s = Some (s', h) /\ length h = k /\
        zruns n (pageStart s) z0 h z /\ zone_ok n z.1 /\ usedPage s' = z.2.
Proof.
  intros (Hm & Hb & Hs & Hroom).
  destruct (NX_BuddyCreate_spec raw mem size) as (s & n & Hrun & W & Hnone & Hlo & Hhi); [lia..|].
  exists s, n. split; [done|]. split; [done|]. split; [done|]. intros client z0 Hc k.
  assert (R : represents s n (pageStart s) z0).
  { split; [done|]. split; [unfold NX_PAGE_SIZE in *; lia|]. split; [done|]. split; [done|].
    intros p o t. cbn [z0 fst]. rewrite lookup_empty. split; [done|]. intros Ha. by apply Hnone in Ha. }
  destruct (client_run_simulates n (pageStart s) z0 client k Hc [] s z0) as (s' & h & z & ? & Hl & ? & R');
    [constructor|done|]. exists s', h, z. split; [done|]. split; [simpl in Hl; lia|].
  split; [done|]. split; [by eapply represents_zone_ok|]. by destruct R' as (_ & _ & _ & ? & _).
Qed.

Lemma buddy_refines_zone_witness :
  let raw := fun _ => mkPage 7 7 7 7 in
  exists s n, NX_BuddyCreate raw 0x100000 0x40000 = Some s /\
    exists s' h z, client_run 3 (fun _ => Alloc 5) [] s = Some (s', h) /\ length h = 3%nat /\
      zruns n (pageStart s) (∅, usedPage s) h z /\ zone_ok n z.1 /\ usedPage s' = z.2.
Proof.
  destruct (buddy_refines_zone (fun _ => mkPage 7 7 7 7) 0x100000 0x40000) as (s & n & Hs & _ & _ & H).
  - unfold good_memory. vm_compute. repeat split; intros; discriminate.
  - exists s, n. split; [done|]. apply (H (fun _ => Alloc 5)). intros. simpl. lia.
Defined.

(** C3: allocating and releasing a block leaves the allocator as it was: the
    block is given back in full, merging undoes every split, and each free
    list holds the same blocks as before (perhaps in another order). *)
Theorem alloc_then_free_restores s n c s1 a :
  wfh s n 0 0 -> n < 2 ^ 21 -> 1 <= c <= 2 ^ 20 ->
  NX_BuddyAllocPage s c = Some (s1, a) -> a <> 0 ->
  exists s2, NX_BuddyFreePage s1 a = Some (s2, NX_EOK) /\
    u64 (usedPage s2) = u64 (usedPage s) /\
    forall o, 0 <= o <= NX_MAX_PAGE_ORDER -> exists l l',
      zlookup (pageBuddy s) o = Some l /\ zlookup (pageBuddy s2) o = Some l' /\ l ≡ₚ l'.
Proof.
  intros W Hn Hc Hrun Ha.
  destruct (NX_BuddyAllocPage_spec s n c W Hc) as (s1' & a' & Hrun' & W1 & [Hs1 _] & [H|(-> & _)]);
    rewrite Hrun in Hrun'; [injection Hrun' as <- <-|congruence].
  destruct H as (p & -> & H0 & Hpn & Hd & Hfree & Hu1 & HA1). set (k := Z.log2_up c) in *.
  pose proof (pow2_pos k (Z.log2_up_nonneg c)) as H2.
  assert (Hp1 : allocs s1 0 0 p k 1) by (apply HA1; auto).
  rewrite <- Hs1.
  destruct (NX_BuddyFreePage_spec s1 n p k 1 W1 Hn Hp1) as (s2 & e & Hrun2 & W2 & _ & [(? & _)|H]); [lia|].
  destruct H as (_ & -> & Hu2 & HA2). exists s2. split; [done|]. split.
  { rewrite Hu2, Hu1. unfold u64. rewrite Z.mod_mod, Zminus_mod_idemp_l by lia. f_equal. lia. }
  assert (HA : forall q r t, allocs s 0 0 q r t <-> allocs s2 0 0 q r t).
  { intros q r t. rewrite HA2, HA1. split; [|tauto]. intros Hq. split; [|by right]. intros ->.
    pose proof (Hfree p r t Hq). destruct Hq as [_ Hq%ahd_hd].
    destruct (hd_block s n 0 0 p r W Hq (not_inh00 p)) as (_ & ? & _). lia. }
  intros o Ho. destruct (lf_lists _ _ _ (wh_lists _ _ _ _ W) o Ho) as (l & []).
  destruct (lf_lists _ _ _ (wh_lists _ _ _ _ W2) o Ho) as (l' & []).
  exists l, l'. split; [done|]. split; [done|]. apply NoDup_Permutation; [done..|].
  intros q. rewrite fl_elem0, fl_elem1. pose proof (not_inh00 q).
  split; intros [_ Hq]; (split; [done|]).
  - by apply (free_blocks_unique s s2 n q o).
  - apply (free_blocks_unique s2 s n q o); done.
Qed.

Lemma alloc_then_free_restores_witness :
  exists s n s1 a s2, wfh s n 0 0 /\ NX_BuddyAllocPage s 5 = Some (s1, a) /\
    NX_BuddyFreePage s1 a = Some (s2, NX_EOK) /\ u64 (usedPage s2) = u64 (usedPage s).
Proof.
  destruct (NX_BuddyCreate_spec (fun _ => mkPage 7 7 7 7) 0x100000 0x40000)
    as (s & n & Hs & W & Hnone & Hlo & Hhi); [lia|lia|lia|vm_compute; discriminate|].
  unfold NX_PAGE_SIZE in *. pose proof (wh_start _ _ _ _ W) as (_ & Hst & _).
  destruct (NX_BuddyAllocPage_spec s n 5 W ltac:(lia)) as (s1 & a & Hrun & _ & _ & [H|H]).
  - destruct H as (p & -> & H0 & _).
    destruct (alloc_then_free_restores s n 5 s1 _ W ltac:(lia) ltac:(lia) Hrun) as (s2 & ? & ? & _).
    + unfold NX_PAGE_SIZE. lia.
    + exists s, n, s1, (pageStart s + p * NX_PAGE_SIZE), s2.
      split; [exact W|]. split; [exact Hrun|]. split; assumption.
  - destruct H as (_ & _ & Hfull). exfalso. apply (Hfull 0).
    + lia.
    + change (Z.log2_up 5) with 3. vm_compute in Hs. injection Hs as <-. cbn in Hhi. lia.
    + apply Z.divide_0_r.
    + intros q o t Hq. exact (False_ind _ (Hnone q o t Hq)).
Defined.

(** C4: the release paths that refuse.  An address outside the zone is
    [NX_EINVAL]; the first page of a free block (a second release of a block
    that has not been merged since) is [NX_EFAULT]; neither changes the zone. *)
Theorem free_refused s n :
  wfh s n 0 0 ->
  (forall ptr, 0 < ptr -> ptr < pageStart s \/ pageStart s + (n - 1) * NX_PAGE_SIZE < ptr ->
     NX_BuddyFreePage s ptr = Some (s, NX_EINVAL)) /\
  (forall p o, fhd (pmap s) p o ->
     NX_BuddyFreePage s (pageStart s + p * NX_PAGE_SIZE) = Some (s, NX_EFAULT)).
Proof.
  intros W. split; [intros ptr Hp; by apply (bad_address s n ptr W Hp)|].
  intros p o Hf. destruct (hd_block s n 0 0 p o W (fhd_hd _ _ _ Hf) (not_inh00 p)) as (Ho & H2 & Hpn & _).
  destruct (wh_start _ _ _ _ W) as (Hm & Hs0 & Hs1). pose proof (wh_n _ _ _ _ W).
  pose proof (NX_PageFromPtr_spec s n p W ltac:(lia)) as Hptr. unfold NX_PAGE_SIZE in *.
  unfold NX_BuddyFreePage, nz. rewrite (proj2 (Z.eqb_neq _ 0)) by lia. cbn [negb]. rewrite assert_true.
  unfold NX_PAGE_INVALID_ADDR, NX_PAGE_SHIFT. rewrite (wh_max _ _ _ _ W), Z.shiftl_mul_pow2 by lia.
  change (2 ^ 12) with 4096. rewrite (u64_small ((n - 1) * 4096)), u64_small by lia.
  rewrite (proj2 (Z.ltb_ge _ _)) by lia.
  assert ((pageStart s + p * 4096 >? pageStart s + (n - 1) * 4096) = false) as ->
    by (rewrite Z.gtb_ltb; apply Z.ltb_ge; lia).
  cbn [orb]. rewrite Hptr, Some_bind. destruct Hf as (pg & -> & _ & _ & Hfr). rewrite Some_bind.
  by rewrite Hfr.
Qed.

Lemma free_refused_witness :
  exists s, NX_BuddyFreePage s 0x1000 = Some (s, NX_EINVAL).
Proof.
  destruct (NX_BuddyCreate_spec (fun _ => mkPage 7 7 7 7) 0x100000 0x40000)
    as (s & n & Hs & W & Hnone & Hlo & Hhi); [lia|lia|lia|vm_compute; discriminate|].
  pose proof (wh_n _ _ _ _ W). exists s. apply (proj1 (free_refused s n W)); [lia|left; lia].
Defined.

(** Two free blocks of the largest order are merged into one of order 21,
    which indexes [pageBuddy] out of range: the loop of [PageMerge] runs while
    [order <= NX_MAX_PAGE_ORDER]. *)
Example PageMerge_past_max_order :
  let block o f := mkPage f o 0 (1 - f) in
  let s := mkBuddy (replicate 20 [] ++ [[2 ^ 20]]) (replicate 20 0 ++ [1]) (2 ^ 20) 0x100000
    (2 ^ 21 - 1) (2 ^ 20) (list_to_map [(0, block 20 0); (2 ^ 20, block 20 1)]) in
  NX_BuddyFreePage s 0x100000 = None /\ (order <$> (PageMerge s 0 ≫= fun r => pmap r.1 !! r.2)) = Some 21.
Proof. vm_compute. done. Qed.
