(* ===== verification/Page.v ===== *)
(** The page zones: [mm/page.c] and [include/base/page.h].

    [buddySystemArray] has one allocator per zone.  Each function takes the
    lock of its zone, so that an operation is one atomic step on the array. *)
From S2P Require Import Prelude Bits Buddy.

Definition NX_PAGE_ZONE_NORMAL : Z := 0.
Definition NX_PAGE_ZONE_USER : Z := 1.
Definition NX_PAGE_ZONE_NR : Z := 2.

(** [buddySystemArray]; [None] is the null pointer before [NX_PageInitZone]. *)
Definition zones : Type := list (option NX_BuddySystem).

Definition zone_valid (zone : Z) : bool := (zone >=? NX_PAGE_ZONE_NORMAL) && (zone <? NX_PAGE_ZONE_NR).

Definition get_zone (zs : zones) (zone : Z) : option NX_BuddySystem :=
  z ← zlookup zs zone; z.

Definition NX_PageInitZone (raw : Z -> NX_Page) (zs : zones) (zone mem size : Z) : option zones :=
  assert (zone_valid zone && (size >? 0));;
  s ← NX_BuddyCreate raw mem size;
  Some (zinsert zs zone (Some s)).

Definition NX_PageAllocInZone (zs : zones) (zone count : Z) : option (zones * Z) :=
  assert (zone_valid zone && (count >? 0));;
  s ← get_zone zs zone;
  '(s, addr) ← NX_BuddyAllocPage s count;
  Some (zinsert zs zone (Some s), addr).

Definition NX_PageFreeInZone (zs : zones) (zone ptr : Z) : option (zones * NX_Error) :=
  assert (zone_valid zone && nz ptr);;
  s ← get_zone zs zone;
  '(s, err) ← NX_BuddyFreePage s ptr;
  Some (zinsert zs zone (Some s), err).

Definition NX_PageIncreaseInZone (zs : zones) (zone ptr : Z) : option (zones * NX_Error) :=
  assert (zone_valid zone && nz ptr);;
  s ← get_zone zs zone;
  '(s, err) ← NX_BuddyIncreasePage s ptr;
  Some (zinsert zs zone (Some s), err).

Definition NX_PageZoneGetBase (zs : zones) (zone : Z) : option Z :=
  assert (zone_valid zone);;
  s ← get_zone zs zone; Some (pageStart s).

Definition NX_PageZoneGetPages (zs : zones) (zone : Z) : option Z :=
  assert (zone_valid zone);;
  s ← get_zone zs zone; Some (u64 (maxPFN s + 1)).

(** The pointer to the allocator is the allocator itself. *)
Definition NX_PageZoneGetBuddySystem (zs : zones) (zone : Z) : option (option NX_BuddySystem) :=
  assert (zone_valid zone);;
  zlookup zs zone.

Definition NX_PageGetTotal (zs : zones) : option Z :=
  s ← get_zone zs NX_PAGE_ZONE_NORMAL; Some (u64 (maxPFN s + 1)).

Definition NX_PageGetUsed (zs : zones) : option Z :=
  s ← get_zone zs NX_PAGE_ZONE_NORMAL; Some (usedPage s).

(** An operation on a zone, named as on one allocator. *)
Definition page_op (zs : zones) (zone : Z) (op : bop) : option (zones * bresult) :=
  match op with
  | Alloc c => '(zs, a) ← NX_PageAllocInZone zs zone c; Some (zs, Ptr a)
  | Free ptr => '(zs, e) ← NX_PageFreeInZone zs zone ptr; Some (zs, Err e)
  | Increase ptr => '(zs, e) ← NX_PageIncreaseInZone zs zone ptr; Some (zs, Err e)
  end.

Lemma page_op_buddy zs zone op s n st z :
  zone_valid zone = true -> get_zone zs zone = Some s -> allowed n st z.1 op ->
  represents s n st z ->
  page_op zs zone op = ('(s, r) ← buddy_op s op; Some (zinsert zs zone (Some s), r)).
Proof.
  intros Hv Hs Hop R. destruct op as [c|ptr|ptr]; cbn [page_op buddy_op allowed] in *.
  - unfold NX_PageAllocInZone. rewrite Hv, Hs, Z.gtb_ltb, (proj2 (Z.ltb_lt 0 c)) by lia.
    cbn [andb]. rewrite assert_true, Some_bind. by destruct (NX_BuddyAllocPage s c) as [[]|].
  - destruct Hop as [Hp _]. unfold NX_PageFreeInZone, nz.
    rewrite Hv, Hs, (proj2 (Z.eqb_neq ptr 0)) by lia.
    cbn [andb negb]. rewrite assert_true, Some_bind. by destruct (NX_BuddyFreePage s ptr) as [[]|].
  - destruct Hop as [Hp _]. unfold NX_PageIncreaseInZone, nz.
    rewrite Hv, Hs, (proj2 (Z.eqb_neq ptr 0)) by lia.
    cbn [andb negb]. rewrite assert_true, Some_bind. by destruct (NX_BuddyIncreasePage s ptr) as [[]|].
Qed.

Lemma normal_op zs s n st z op :
  length zs = 2%nat -> get_zone zs NX_PAGE_ZONE_NORMAL = Some s -> represents s n st z -> allowed n st z.1 op ->
  exists zs' r z' s', page_op zs NX_PAGE_ZONE_NORMAL op = Some (zs', r) /\ zstep n st z op r z' /\
    length zs' = 2%nat /\ get_zone zs' NX_PAGE_ZONE_NORMAL = Some s' /\ represents s' n st z'.
Proof.
  intros Hl Hs R Hop. rewrite (page_op_buddy zs _ op s n st z) by done.
  destruct (buddy_op_simulates s n st z op R Hop) as (s' & r & z' & -> & Hstep & R').
  exists (zinsert zs 0 (Some s')), r, z', s'. split; [done|]. split; [done|].
  split; [by rewrite length_zinsert|]. split; [|done]. unfold get_zone.
  unfold NX_PAGE_ZONE_NORMAL. rewrite zlookup_zinsert by lia. done.
Qed.

Lemma zone_bounds s n st z :
  represents s n st z -> 0 < n < 2 ^ 21 /\ 0 < st /\ st + n * NX_PAGE_SIZE < 2 ^ 64 /\ st mod NX_PAGE_SIZE = 0.
Proof.
  intros (W & Hn & <- & _). pose proof (wh_n _ _ _ _ W). pose proof (wh_start _ _ _ _ W) as (? & ? & ?).
  split; [lia|done].
Qed.

(** ** The normal zone as its clients see it: the blocks given out. *)
Definition normal_zone (zs : zones) (n st : Z) (A : gmap Z (Z * Z)) : Prop :=
  length zs = 2%nat /\ exists s u, get_zone zs NX_PAGE_ZONE_NORMAL = Some s /\ represents s n st (A, u).

Section normal_zone.
Implicit Types (zs : zones) (n st p o t : Z) (A : gmap Z (Z * Z)).

Lemma normal_zone_bounds zs n st A :
  normal_zone zs n st A -> 0 < n < 2 ^ 21 /\ 0 < st /\ st + n * NX_PAGE_SIZE < 2 ^ 64 /\ st mod NX_PAGE_SIZE = 0.
Proof. intros (_ & s & u & _ & R). by eapply zone_bounds. Qed.

Lemma normal_zone_block zs n st A p o t :
  normal_zone zs n st A -> A !! p = Some (o, t) -> 0 <= p /\ 0 <= o /\ p + 2 ^ o <= n /\ 1 <= t < 2 ^ 63.
Proof.
  intros (_ & s & u & _ & (W & _ & _ & _ & HA)) Hp. apply HA in Hp as [Hin Ha].
  destruct (hd_block s n 0 0 p o W (ahd_hd _ _ _ _ Ha) (not_inh00 p)) as (? & _ & ? & _ & ? & _).
  pose proof (wh_ref _ _ _ _ W p o t (not_inh00 p) Ha). destruct Ha as (pg & _ & _ & ? & _). lia.
Qed.

Lemma normal_step zs n st A op :
  normal_zone zs n st A -> allowed n st A op ->
  exists zs' r z', page_op zs NX_PAGE_ZONE_NORMAL op = Some (zs', r) /\ (exists u, zstep n st (A, u) op r z') /\
    normal_zone zs' n st z'.1.
Proof.
  intros (Hl & s & u & Hs & R) Hop. destruct (normal_op zs s n st (A, u) op Hl Hs R Hop)
    as (zs' & r & [A' u'] & s' & Hrun & Hstep & Hl' & Hs' & R').
  exists zs', r, (A', u'). split; [done|]. split; [by exists u|]. split; [done|]. by exists s', u'.
Qed.

Lemma page_alloc_one zs n st A :
  normal_zone zs n st A ->
  exists zs' a, NX_PageAllocInZone zs NX_PAGE_ZONE_NORMAL 1 = Some (zs', a) /\
    ((a = 0 /\ normal_zone zs' n st A) \/
     exists p, a = st + p * NX_PAGE_SIZE /\ 0 <= p < n /\ zone_free A p 0 /\ normal_zone zs' n st (<[p := (0, 1)]> A)).
Proof.
  intros Z0. destruct (normal_step zs n st A (Alloc 1) Z0) as (zs' & r & z' & Hrun & (u & Hstep) & Z'); [cbn; lia|].
  cbn [page_op] in Hrun. destruct (NX_PageAllocInZone _ _ _) as [[zs1 a]|]; [|done]. injection Hrun as <- <-.
  exists zs1, a. split; [done|]. inversion Hstep; subst; cbn [fst] in Z'; [right|by left].
  exists p. unfold k in *. change (Z.log2_up 1) with 0 in *. match goal with F : fits _ _ _ |- _ => destruct F as (? & ? & _) end.
  split_and!; (done || lia).
Qed.

Lemma page_free_at zs n st A p o t :
  normal_zone zs n st A -> A !! p = Some (o, t) ->
  exists zs' e, NX_PageFreeInZone zs NX_PAGE_ZONE_NORMAL (st + p * NX_PAGE_SIZE) = Some (zs', e) /\
    ((t = 1 /\ e = NX_EOK /\ normal_zone zs' n st (delete p A)) \/
     (1 < t /\ e = NX_EAGAIN /\ normal_zone zs' n st (<[p := (o, t - 1)]> A))).
Proof.
  intros Z0 Hp. pose proof (normal_zone_bounds _ _ _ _ Z0) as (Hn & Hst & _).
  destruct (normal_zone_block _ _ _ _ _ _ _ Z0 Hp) as (Hp0 & Ho & Hpn & Ht). pose proof (pow2_pos o Ho).
  destruct (normal_step zs n st A (Free (st + p * NX_PAGE_SIZE)) Z0) as (zs' & r & z' & Hrun & (u & Hstep) & Z').
  { cbn. unfold NX_PAGE_SIZE. split; [lia|]. right. right. eauto. }
  cbn [page_op] in Hrun. destruct (NX_PageFreeInZone _ _ _) as [[zs1 e]|]; [|done]. injection Hrun as <- <-.
  exists zs1, e. split; [done|]. inversion Hstep; subst; cbn [fst] in Z'; unfold NX_PAGE_SIZE in *.
  - assert (p0 = p) as -> by lia. simplify_eq. by left.
  - assert (p0 = p) as -> by lia. simplify_eq. by right.
  - lia.
Qed.

Lemma page_free_outside zs n st A ptr :
  normal_zone zs n st A -> 0 < ptr -> ptr < st \/ st + n * NX_PAGE_SIZE <= ptr ->
  exists zs', NX_PageFreeInZone zs NX_PAGE_ZONE_NORMAL ptr = Some (zs', NX_EINVAL) /\ normal_zone zs' n st A.
Proof.
  intros Z0 Hp Hout. destruct (normal_step zs n st A (Free ptr) Z0) as (zs' & r & z' & Hrun & (u & Hstep) & Z').
  { cbn. unfold NX_PAGE_SIZE in *. split; [done|]. destruct Hout; [by left|right; left; lia]. }
  cbn [page_op] in Hrun. destruct (NX_PageFreeInZone _ _ _) as [[zs1 e]|]; [|done]. injection Hrun as <- <-.
  exists zs1. inversion Hstep; subst; cbn [fst] in Z'; [exfalso..|done];
  match goal with H : A !! ?q = Some _ |- _ => destruct (normal_zone_block _ _ _ _ _ _ _ Z0 H) as (? & Hq & ? & _);
    pose proof (pow2_pos _ Hq) end; unfold NX_PAGE_SIZE in *; lia.
Qed.

Lemma page_increase_at zs n st A p o t :
  normal_zone zs n st A -> A !! p = Some (o, t) -> t + 1 < 2 ^ 63 ->
  exists zs', NX_PageIncreaseInZone zs NX_PAGE_ZONE_NORMAL (st + p * NX_PAGE_SIZE) = Some (zs', NX_EOK) /\
    normal_zone zs' n st (<[p := (o, t + 1)]> A).
Proof.
  intros Z0 Hp Ht. pose proof (normal_zone_bounds _ _ _ _ Z0) as (Hn & Hst & _).
  destruct (normal_zone_block _ _ _ _ _ _ _ Z0 Hp) as (Hp0 & Ho & Hpn & _). pose proof (pow2_pos o Ho).
  destruct (normal_step zs n st A (Increase (st + p * NX_PAGE_SIZE)) Z0) as (zs' & r & z' & Hrun & (u & Hstep) & Z').
  { cbn. unfold NX_PAGE_SIZE. split; [lia|]. right. right. exists p, o, t. done. }
  cbn [page_op] in Hrun. destruct (NX_PageIncreaseInZone _ _ _) as [[zs1 e]|]; [|done]. injection Hrun as <- <-.
  exists zs1. inversion Hstep; subst; cbn [fst] in Z'; unfold NX_PAGE_SIZE in *.
  - assert (p0 = p) as -> by lia. simplify_eq. done.
  - lia.
Qed.

Lemma page_increase_outside zs n st A ptr :
  normal_zone zs n st A -> 0 < ptr -> ptr < st \/ st + n * NX_PAGE_SIZE <= ptr ->
  exists zs', NX_PageIncreaseInZone zs NX_PAGE_ZONE_NORMAL ptr = Some (zs', NX_EINVAL) /\ normal_zone zs' n st A.
Proof.
  intros Z0 Hp Hout. destruct (normal_step zs n st A (Increase ptr) Z0) as (zs' & r & z' & Hrun & (u & Hstep) & Z').
  { cbn. split; [done|]. destruct Hout; [by left|by right; left]. }
  cbn [page_op] in Hrun. destruct (NX_PageIncreaseInZone _ _ _) as [[zs1 e]|]; [|done]. injection Hrun as <- <-.
  exists zs1. inversion Hstep; subst; cbn [fst] in Z'; [exfalso|done].
  match goal with H : A !! ?q = Some _ |- _ => destruct (normal_zone_block _ _ _ _ _ _ _ Z0 H) as (? & Hq & ? & _);
    pose proof (pow2_pos _ Hq) end. unfold NX_PAGE_SIZE in *. lia.
Qed.
End normal_zone.

(** C5: the zones are independent.  An allowed operation on one zone returns,
    is a step of the abstract zone it names and leaves the others as they
    were; the queries report the size and the use of the zone. *)
Theorem page_op_simulates zs zone op s n st z :
  length zs = 2%nat -> zone_valid zone = true -> get_zone zs zone = Some s ->
  represents s n st z -> allowed n st z.1 op ->
  exists zs' r z' s', page_op zs zone op = Some (zs', r) /\ zstep n st z op r z' /\
    get_zone zs' zone = Some s' /\ represents s' n st z' /\
    (forall o, o <> zone -> get_zone zs' o = get_zone zs o) /\
    NX_PageZoneGetBase zs' zone = Some st /\ NX_PageZoneGetPages zs' zone = Some n /\
    (zone = NX_PAGE_ZONE_NORMAL -> NX_PageGetTotal zs' = Some n /\ NX_PageGetUsed zs' = Some z'.2).
Proof.
  intros Hlen Hv Hs R Hop. rewrite (page_op_buddy zs zone op s n st z) by done.
  destruct (buddy_op_simulates s n st z op R Hop) as (s' & r & z' & -> & Hstep & R').
  rewrite Some_bind. exists (zinsert zs zone (Some s')), r, z', s'.
  pose proof Hv as Hv'. unfold zone_valid, NX_PAGE_ZONE_NORMAL, NX_PAGE_ZONE_NR in Hv'.
  apply andb_true_iff in Hv' as [Hz0%Z.geb_le Hz2%Z.ltb_lt].
  assert (Hget : forall o, 0 <= o -> get_zone (zinsert zs zone (Some s')) o =
      if decide (o = zone) then Some s' else get_zone zs o).
  { intros o Ho. unfold get_zone. rewrite zlookup_zinsert by lia. by case_decide. }
  assert (Hzone : get_zone (zinsert zs zone (Some s')) zone = Some s').
  { rewrite Hget by lia. by rewrite decide_True. }
  pose proof R' as (W & _ & Hst & Hu & _). pose proof (wh_n _ _ _ _ W). pose proof (wh_max _ _ _ _ W) as Hm.
  assert (Hpages : u64 (maxPFN s' + 1) = n) by (rewrite Hm, u64_small; lia).
  split; [done|]. split; [done|]. split; [done|]. split; [done|].
  split.
  { intros o Ho. destruct (Z.leb_spec 0 o) as [H0|H0].
    - rewrite Hget by done. by rewrite decide_False.
    - unfold get_zone, zlookup. by rewrite (proj2 (Z.leb_gt 0 o)). }
  unfold NX_PageZoneGetBase, NX_PageZoneGetPages, NX_PageGetTotal, NX_PageGetUsed.
  rewrite Hv, Hzone, assert_true. rewrite !Some_bind, Hst, Hpages. split; [done|]. split; [done|].
  intros <-. rewrite Hzone, !Some_bind, Hpages, Hu. done.
Qed.

Lemma page_op_simulates_witness :
  exists s zs n, NX_PageInitZone (fun _ => mkPage 7 7 7 7) [None; None] 0 0x100000 0x40000 = Some zs /\
    get_zone zs 0 = Some s /\
    exists zs' r, page_op zs 0 (Alloc 3) = Some (zs', r) /\ get_zone zs' 1 = None /\
      NX_PageZoneGetPages zs' 0 = Some n.
Proof.
  destruct (NX_BuddyCreate_spec (fun _ => mkPage 7 7 7 7) 0x100000 0x40000)
    as (s & n & Hs & W & Hnone & Hlo & Hhi); [lia|lia|lia|vm_compute; discriminate|].
  unfold NX_PAGE_SIZE in *. pose proof (wh_start _ _ _ _ W) as (_ & Hst & _).
  destruct (page_op_simulates [Some s; None] 0 (Alloc 3) s n (pageStart s) (∅, usedPage s))
    as (zs' & r & z' & s' & Hrun & _ & _ & _ & Ho & _ & Hp & _).
  - reflexivity.
  - reflexivity.
  - reflexivity.
  - split; [exact W|]. split; [lia|]. split; [reflexivity|]. split; [reflexivity|].
    intros p o t. cbn [fst]. rewrite lookup_empty. split; [discriminate|].
    intros Ha. exact (False_ind _ (Hnone _ _ _ Ha)).
  - cbn. lia.
  - exists s, [Some s; None], n. split; [unfold NX_PageInitZone; rewrite Hs; reflexivity|].
    split; [reflexivity|]. exists zs', r. split; [exact Hrun|]. split; [|exact Hp].
    rewrite (Ho 1) by lia. reflexivity.
Defined.
