(* ===== verification/PageCache.v ===== *)
(** The span cache on top of the page zones: [mm/page_cache.c].

    A span is a run of pages taken from the normal zone.  Each page of a span
    carries a mark (page count of the span, index of the page in it), so that
    any page of a span leads to the span and to its length.  Released spans
    wait on a free list per page count (below 128) or on one list of large
    spans, and go back to the zone once their list is at its threshold.

    The mutex of the cache makes every exported function one atomic step.  A
    span is named by its address; the field [pageCount] of the [NX_PageSpan]
    written into the first page of a cached span is the map [pageCount]. *)
From S2P Require Import Prelude Bits Buddy Page.

Definition SMALL_SPAN_PAGES_MAX : Z := 128.
Definition NX_PAGE_CACHE_MAX_PAGES : Z := 2048.
Definition LARGE_SPAN_FREE_THRESHOLD_MAX : Z := 32.
Definition SMALL_SPAN_FREE_THRESHOLD_MAX : Z := 64.
Definition ONE_PAGE_SPAN_FREE_THRESHOLD_MAX : Z := 1024.
Definition sizeof_SpanMark : Z := 4.
Definition KVADDR_OFFSET : Z := 0.

Record SpanMark := mkMark { count : Z; idx : Z }.

(** [pageCacheObject], [spanMarkMap], [spanBaseAddr], and the state of the
    zones and of the cached spans that the functions reach. *)
Record PageCache := mkCache {
  spanFreeList : list (list Z);
  largeSpanFreeList : list Z;
  spanFreeCount : list Z;
  largeSpanFreeCount : Z;
  spanMarkMap : gmap Z SpanMark;
  spanBaseAddr : Z;
  pageCount : gmap Z Z;
  zones_of : zones }.

Definition with_lists (c : PageCache) (fl : list (list Z)) (lg : list Z) (fc : list Z) (lc : Z) :=
  mkCache fl lg fc lc (spanMarkMap c) (spanBaseAddr c) (pageCount c) (zones_of c).
Definition with_marks (c : PageCache) (m : gmap Z SpanMark) :=
  mkCache (spanFreeList c) (largeSpanFreeList c) (spanFreeCount c) (largeSpanFreeCount c)
    m (spanBaseAddr c) (pageCount c) (zones_of c).
Definition with_pageCount (c : PageCache) (p : gmap Z Z) :=
  mkCache (spanFreeList c) (largeSpanFreeList c) (spanFreeCount c) (largeSpanFreeCount c)
    (spanMarkMap c) (spanBaseAddr c) p (zones_of c).
Definition with_zones (c : PageCache) (zs : zones) :=
  mkCache (spanFreeList c) (largeSpanFreeList c) (spanFreeCount c) (largeSpanFreeCount c)
    (spanMarkMap c) (spanBaseAddr c) (pageCount c) zs.

(** What the pointers [listHead] and [freeCount] designate. *)
Inductive head := Small (count : Z) | Large.

#[export] Instance head_eq_dec : EqDecision head.
Proof. solve_decision. Defined.

Definition select (count : Z) : head :=
  if count >=? SMALL_SPAN_PAGES_MAX then Large else Small count.

Definition get_list (c : PageCache) (h : head) : option (list Z) :=
  match h with Small k => zlookup (spanFreeList c) k | Large => Some (largeSpanFreeList c) end.
Definition get_count (c : PageCache) (h : head) : option Z :=
  match h with Small k => zlookup (spanFreeCount c) k | Large => Some (largeSpanFreeCount c) end.

(** Write a list and its counter. *)
Definition put (c : PageCache) (h : head) (l : list Z) (n : Z) : PageCache :=
  match h with
  | Small k => with_lists c (zinsert (spanFreeList c) k l) (largeSpanFreeList c)
      (zinsert (spanFreeCount c) k n) (largeSpanFreeCount c)
  | Large => with_lists c (spanFreeList c) l (spanFreeCount c) n
  end.

Definition NX_Phy2Virt (addr : Z) : Z := u64 (addr + KVADDR_OFFSET).
Definition NX_Virt2Phy (addr : Z) : Z := u64 (addr - KVADDR_OFFSET).

Definition PageAllocVirtual (c : PageCache) (count : Z) : option (PageCache * Z) :=
  '(zs, ptr) ← NX_PageAllocInZone (zones_of c) NX_PAGE_ZONE_NORMAL count;
  let c := with_zones c zs in
  if ptr =? 0 then Some (c, 0) else Some (c, NX_Phy2Virt ptr).

Definition PageFreeVirtual (c : PageCache) (ptr : Z) : option PageCache :=
  if ptr =? 0 then Some c
  else
    '(zs, _) ← NX_PageFreeInZone (zones_of c) NX_PAGE_ZONE_NORMAL (NX_Virt2Phy ptr);
    Some (with_zones c zs).

(** The index of a page in the mark map: [dis >> NX_PAGE_SHIFT]. *)
Definition page_idx (c : PageCache) (page : Z) : Z :=
  u64 (page - spanBaseAddr c) >> NX_PAGE_SHIFT.

(** The [i]-th turn writes the mark [idx + i]; [todo] turns are left. *)
Fixpoint MarkSpan_loop (todo : nat) (m : gmap Z SpanMark) (mark i count : Z) :
    option (gmap Z SpanMark) :=
  match todo with
  | O => Some m
  | S todo =>
      _ ← m !! mark;
      MarkSpan_loop todo (<[mark := mkMark (u16 count) (u16 i)]> m) (mark + 1) (i + 1) count
  end.

Definition MarkSpan (c : PageCache) (span count : Z) : option PageCache :=
  m ← MarkSpan_loop (Z.to_nat count) (spanMarkMap c) (page_idx c span) 0 count;
  Some (with_marks c m).

Fixpoint ClearSpan_loop (todo : nat) (m : gmap Z SpanMark) (mark : Z) : option (gmap Z SpanMark) :=
  match todo with
  | O => Some m
  | S todo => _ ← m !! mark; ClearSpan_loop todo (<[mark := mkMark 0 0]> m) (mark + 1)
  end.

Definition ClearSpan (c : PageCache) (span count : Z) : option PageCache :=
  m ← ClearSpan_loop (Z.to_nat count) (spanMarkMap c) (page_idx c span);
  Some (with_marks c m).

Definition NX_PageToSpan (c : PageCache) (page : Z) : option Z :=
  assert (nz page);;
  if page <? spanBaseAddr c then Some 0
  else
    mark ← spanMarkMap c !! page_idx c page;
    Some (u64 (page - idx mark * NX_PAGE_SIZE)).

Definition NX_SpanToCount (c : PageCache) (span : Z) : option Z :=
  assert (nz span);;
  if span <? spanBaseAddr c then Some 0
  else
    mark ← spanMarkMap c !! page_idx c span;
    Some (count mark).

(** The traversal of the list of large spans. *)
Fixpoint best_fit (c : PageCache) (l : list Z) (best : option Z) : option (option Z) :=
  match l with
  | [] => Some best
  | span :: l =>
      let best := match best with None => span | Some b => b end in
      if bool_decide (span <> best) then
        n ← pageCount c !! span;
        b ← pageCount c !! best;
        best_fit c l (Some (if n <? b then span else best))
      else best_fit c l (Some best)
  end.

Definition __PageCacheAlloc (c : PageCache) (count : Z) : option (PageCache * Z) :=
  let h := select count in
  l ← get_list c h;
  n ← get_count c h;
  match l with
  | [] =>
      '(c, span) ← PageAllocVirtual c count;
      if span =? 0 then Some (c, 0)
      else c ← MarkSpan c span count; Some (c, span)
  | first :: _ =>
      best ← (match h with Large => best_fit c l None | Small _ => Some (Some first) end);
      span ← best;
      Some (put c h (list_del span l) (i64 (n - 1)), span)
  end.

Definition NX_PageCacheAlloc (c : PageCache) (count : Z) : option (PageCache * Z) :=
  if count =? 0 then Some (c, 0)
  else if count >? NX_PAGE_CACHE_MAX_PAGES then Some (c, 0)
  else __PageCacheAlloc c count.

Definition maxThresold (count : Z) : Z :=
  if count >=? SMALL_SPAN_PAGES_MAX then LARGE_SPAN_FREE_THRESHOLD_MAX
  else if count =? 1 then ONE_PAGE_SPAN_FREE_THRESHOLD_MAX
  else SMALL_SPAN_FREE_THRESHOLD_MAX.

Definition __PageCacheFree (c : PageCache) (page : Z) : option (PageCache * NX_Error) :=
  span ← NX_PageToSpan c page;
  if span =? 0 then Some (c, NX_EINVAL)
  else
    count ← NX_SpanToCount c span;
    if count =? 0 then Some (c, NX_EFAULT)
    else
      let h := select count in
      l ← get_list c h;
      n ← get_count c h;
      if u64 n >=? maxThresold count then
        c ← ClearSpan c span count;
        c ← PageFreeVirtual c span;
        Some (c, NX_EOK)
      else
        let c := with_pageCount c (<[span := count]> (pageCount c)) in
        Some (put c h (span :: l) (i64 (n + 1)), NX_EOK).

Definition NX_PageCacheFree (c : PageCache) (page : Z) : option (PageCache * NX_Error) :=
  if page =? 0 then Some (c, NX_EINVAL) else __PageCacheFree c page.

(** The marks of a freshly zeroed array. *)
Definition zero_marks (n : Z) : gmap Z SpanMark :=
  list_to_map ((fun i => (Z.of_nat i, mkMark 0 0)) <$> seq 0 (Z.to_nat n)).

(** The global object before initialisation holds the zones only. *)
Definition NX_PageCacheInit (zs : zones) : option PageCache :=
  base ← NX_PageZoneGetBase zs NX_PAGE_ZONE_NORMAL;
  pages ← NX_PageZoneGetPages zs NX_PAGE_ZONE_NORMAL;
  let spanMarkPages := NX_DIV_ROUND_UP (u64 (pages * sizeof_SpanMark)) NX_PAGE_SIZE in
  let c := mkCache (replicate (Z.to_nat SMALL_SPAN_PAGES_MAX) []) []
    (replicate (Z.to_nat SMALL_SPAN_PAGES_MAX) 0) 0 ∅ base ∅ zs in
  '(c, map) ← PageAllocVirtual c spanMarkPages;
  assert (nz map);;
  Some (with_marks c (zero_marks (spanMarkPages * NX_PAGE_SIZE / sizeof_SpanMark))).

(** ** The abstract cache

    The spans by first page: page count, and whether a client holds the span.
    [z] is the abstract state of the normal zone (Buddy.v). *)
Abbreviation spans := (gmap Z (Z * bool)).

Definition covers (S : spans) (q p k : Z) (live : bool) : Prop :=
  S !! p = Some (k, live) /\ p <= q < p + k.

Definition marked (S : spans) (m : gmap Z SpanMark) (q : Z) : Prop :=
  (exists p k b, covers S q p k b /\ m !! q = Some (mkMark k (q - p))) \/
  ((forall p k b, ~ covers S q p k b) /\ m !! q = Some (mkMark 0 0)).

Definition valid_head (h : head) : Prop := match h with Small k => 0 <= k < 128 | Large => True end.
Definition limit (h : head) : Z := match h with Small 1 => 1024 | Small _ => 64 | Large => 32 end.

Definition span_addr (st p : Z) : Z := st + p * NX_PAGE_SIZE.

(** A free list: its counter, its threshold, and its members. *)
Definition waiting (c : PageCache) (st : Z) (S : spans) (h : head) : Prop :=
  exists l, get_list c h = Some l /\ get_count c h = Some (Z.of_nat (length l)) /\
    Z.of_nat (length l) <= limit h /\ NoDup l /\
    forall a, a ∈ l <-> exists p k, a = span_addr st p /\ S !! p = Some (k, false) /\ select k = h.

Record cache_ok (c : PageCache) (n st : Z) (z : zone) (S : spans) : Prop := {
  ok_zone : exists s, length (zones_of c) = 2%nat /\ get_zone (zones_of c) NX_PAGE_ZONE_NORMAL = Some s /\
    represents s n st z;
  ok_base : spanBaseAddr c = st;
  ok_lens : length (spanFreeList c) = 128%nat /\ length (spanFreeCount c) = 128%nat;
  ok_span p k b : S !! p = Some (k, b) -> 1 <= k <= NX_PAGE_CACHE_MAX_PAGES /\ z.1 !! p = Some (Z.log2_up k, 1);
  ok_mark q : 0 <= q < n -> marked S (spanMarkMap c) q;
  ok_wait h : valid_head h -> waiting c st S h;
  ok_pages p k : S !! p = Some (k, false) -> pageCount c !! span_addr st p = Some k
}.

(** ** Marks *)
Lemma MarkSpan_loop_spec todo : forall m mark i k,
  (forall q, mark <= q < mark + Z.of_nat todo -> is_Some (m !! q)) ->
  0 <= i -> i + Z.of_nat todo <= 2 ^ 16 -> 0 <= k < 2 ^ 16 ->
  exists m', MarkSpan_loop todo m mark i k = Some m' /\ forall q,
    m' !! q = if decide (mark <= q < mark + Z.of_nat todo) then Some (mkMark k (i + (q - mark))) else m !! q.
Proof.
  induction todo as [|todo IH]; intros m mark i k Hm Hi Ht Hk; cbn [MarkSpan_loop].
  - exists m. split; [done|]. intros q. rewrite decide_False by lia. done.
  - destruct (Hm mark ltac:(lia)) as [x ->]. rewrite Some_bind.
    destruct (IH (<[mark := mkMark (u16 k) (u16 i)]> m) (mark + 1) (i + 1) k) as (m' & -> & Hq);
      [|lia..|].
    { intros q Hq. rewrite lookup_insert_ne by lia. apply Hm. lia. }
    exists m'. split; [done|]. intros q. rewrite Hq. unfold u16.
    rewrite !Z.mod_small by lia. repeat case_decide; try lia.
    + do 2 f_equal. lia.
    + assert (q = mark) as -> by lia. rewrite lookup_insert_eq. do 2 f_equal. lia.
    + by rewrite lookup_insert_ne by lia.
Qed.

Lemma ClearSpan_loop_spec todo : forall m mark,
  (forall q, mark <= q < mark + Z.of_nat todo -> is_Some (m !! q)) ->
  exists m', ClearSpan_loop todo m mark = Some m' /\ forall q,
    m' !! q = if decide (mark <= q < mark + Z.of_nat todo) then Some (mkMark 0 0) else m !! q.
Proof.
  induction todo as [|todo IH]; intros m mark Hm; cbn [ClearSpan_loop].
  - exists m. split; [done|]. intros q. rewrite decide_False by lia. done.
  - destruct (Hm mark ltac:(lia)) as [x ->]. rewrite Some_bind.
    destruct (IH (<[mark := mkMark 0 0]> m) (mark + 1)) as (m' & -> & Hq).
    { intros q Hq. rewrite lookup_insert_ne by lia. apply Hm. lia. }
    exists m'. split; [done|]. intros q. rewrite Hq. repeat case_decide; try lia; try done.
    + assert (q = mark) as -> by lia. by rewrite lookup_insert_eq.
    + by rewrite lookup_insert_ne by lia.
Qed.

Lemma marked_is_Some S m q : marked S m q -> is_Some (m !! q).
Proof. intros [(p & k & b & _ & ->)|[_ ->]]; eauto. Qed.

(** ** The geometry of the spans *)
Section spans.
Context (c : PageCache) (n st : Z) (z : zone) (S : spans).
Hypothesis OK : cache_ok c n st z S.

Lemma ok_bounds : 0 < n < 2 ^ 21 /\ 0 < st /\ st + n * NX_PAGE_SIZE < 2 ^ 64 /\ st mod NX_PAGE_SIZE = 0.
Proof using OK. destruct (ok_zone _ _ _ _ _ OK) as (s & _ & _ & R). by eapply zone_bounds. Qed.

Lemma ok_zone_ok : zone_ok n z.1.
Proof using OK. destruct (ok_zone _ _ _ _ _ OK) as (s & _ & _ & R). by eapply represents_zone_ok. Qed.

Lemma span_le_block k : 1 <= k -> k <= 2 ^ Z.log2_up k.
Proof using. intros Hk. destruct (decide (k = 1)) as [->|]; [done|]. apply Z.log2_up_spec. lia. Qed.

Lemma span_inside p k b : S !! p = Some (k, b) -> 0 <= p /\ p + k <= n /\ 1 <= k <= 2048.
Proof using OK.
  intros Hp. destruct (ok_span _ _ _ _ _ OK p k b Hp) as [Hk Ha]. unfold NX_PAGE_CACHE_MAX_PAGES in *.
  destruct ok_zone_ok as [Hz _]. destruct (Hz _ _ _ Ha) as (_ & (? & ? & _) & _).
  pose proof (span_le_block k). lia.
Qed.

(** A block of the zone that is not the span's own keeps clear of it. *)
Lemma span_clear p k b q o t :
  S !! p = Some (k, b) -> z.1 !! q = Some (o, t) -> q <> p -> q + 2 ^ o <= p \/ p + k <= q.
Proof using OK.
  intros Hp Hq Hne. destruct (ok_span _ _ _ _ _ OK p k b Hp) as [Hk Ha].
  destruct ok_zone_ok as [_ Hz]. pose proof (span_le_block k).
  destruct (Z.lt_total p q) as [Hlt|[|Hlt]]; [|lia|].
  - pose proof (Hz _ _ _ _ _ _ Ha Hq Hlt). lia.
  - pose proof (Hz _ _ _ _ _ _ Hq Ha Hlt). lia.
Qed.

Lemma covers_unique q p k b p' k' b' :
  covers S q p k b -> covers S q p' k' b' -> p = p' /\ k = k' /\ b = b'.
Proof using OK.
  intros [Hp Hq] [Hp' Hq']. destruct (decide (p = p')) as [<-|Hne].
  - rewrite Hp in Hp'. by injection Hp' as <- <-.
  - destruct (ok_span _ _ _ _ _ OK p' k' b' Hp') as [Hk Ha]. pose proof (span_le_block k').
    destruct (span_clear p k b _ _ _ Hp Ha); [done|lia..].
Qed.

Lemma ok_lookup_mark q p k b :
  covers S q p k b -> spanMarkMap c !! q = Some (mkMark k (q - p)).
Proof using OK.
  intros Hc. pose proof (span_inside p k b (proj1 Hc)). destruct Hc as [Hp Hq].
  destruct (ok_mark _ _ _ _ _ OK q ltac:(lia)) as [(p' & k' & b' & Hc' & ->)|[Hno _]].
  - by destruct (covers_unique q p k b p' k' b') as (-> & -> & ->).
  - by destruct (Hno p k b).
Qed.

Lemma page_idx_addr q : 0 <= q < n -> page_idx c (span_addr st q) = q.
Proof using OK.
  intros Hq. pose proof ok_bounds as (Hn & Hst & Hend & _).
  unfold page_idx, span_addr. rewrite (ok_base _ _ _ _ _ OK).
  rewrite Z.shiftr_div_pow2 by done. unfold NX_PAGE_SHIFT, NX_PAGE_SIZE in *.
  rewrite u64_small by lia. replace (st + q * 4096 - st) with (q * 2 ^ 12) by lia. by apply Z.div_mul.
Qed.

Lemma addr_nonzero q : 0 <= q < n -> nz (span_addr st q) = true /\ (span_addr st q <? spanBaseAddr c) = false /\
  0 <= span_addr st q < 2 ^ 64.
Proof using OK.
  intros Hq. pose proof ok_bounds as (Hn & Hst & Hend & _). rewrite (ok_base _ _ _ _ _ OK).
  unfold span_addr, nz, NX_PAGE_SIZE in *. split; [by rewrite (proj2 (Z.eqb_neq _ _)) by lia|].
  rewrite Z.ltb_ge. lia.
Qed.

Lemma NX_PageToSpan_spec q p k b :
  covers S q p k b -> NX_PageToSpan c (span_addr st q) = Some (span_addr st p).
Proof using OK.
  intros Hc. pose proof (ok_lookup_mark _ _ _ _ Hc) as Hm.
  pose proof (span_inside p k b (proj1 Hc)). destruct Hc as [Hp Hq].
  destruct (addr_nonzero q ltac:(lia)) as (Hz & Hlt & Hr). unfold NX_PageToSpan.
  rewrite Hz, Hlt, assert_true, page_idx_addr, Hm, Some_bind by lia. cbn [idx].
  pose proof ok_bounds as (Hn & Hst & Hend & _). unfold span_addr in *. f_equal.
  replace (st + q * NX_PAGE_SIZE - (q - p) * NX_PAGE_SIZE) with (st + p * NX_PAGE_SIZE) by lia.
  apply u64_small. unfold NX_PAGE_SIZE in *. lia.
Qed.

Lemma NX_SpanToCount_spec p k b :
  S !! p = Some (k, b) -> NX_SpanToCount c (span_addr st p) = Some k.
Proof using OK.
  intros Hp. pose proof (span_inside p k b Hp).
  pose proof (ok_lookup_mark p p k b ltac:(split; [done|lia])) as Hm.
  destruct (addr_nonzero p ltac:(lia)) as (Hz & Hlt & Hr). unfold NX_SpanToCount.
  by rewrite Hz, Hlt, assert_true, page_idx_addr, Hm by lia.
Qed.
End spans.

(** ** The steps of the abstract cache *)
Inductive cop :=
  | SpanAlloc (count : Z)
  | SpanFree (page : Z).

Definition cache_op (c : PageCache) (op : cop) : option (PageCache * bresult) :=
  match op with
  | SpanAlloc k => '(c, a) ← NX_PageCacheAlloc c k; Some (c, Ptr a)
  | SpanFree page => '(c, e) ← NX_PageCacheFree c page; Some (c, Err e)
  end.

(** The spans that wait on the list of [h]. *)
Definition is_waiting (h : head) (e : Z * (Z * bool)) : Prop := e.2.2 = false /\ select e.2.1 = h.

#[export] Instance is_waiting_dec h e : Decision (is_waiting h e).
Proof. unfold is_waiting. apply _. Defined.

Definition waiting_of (S : spans) (h : head) : list (Z * (Z * bool)) := filter (is_waiting h) (map_to_list S).

Inductive cstep (n st : Z) : zone * spans -> cop -> bresult -> zone * spans -> Prop :=
  | c_refused z S k : k = 0 \/ NX_PAGE_CACHE_MAX_PAGES < k ->
      cstep n st (z, S) (SpanAlloc k) (Ptr 0) (z, S)
  | c_full z S k : 1 <= k <= NX_PAGE_CACHE_MAX_PAGES -> waiting_of S (select k) = [] ->
      zstep n st z (Alloc k) (Ptr 0) z -> cstep n st (z, S) (SpanAlloc k) (Ptr 0) (z, S)
  | c_fresh z z' S k p : 1 <= k <= NX_PAGE_CACHE_MAX_PAGES -> waiting_of S (select k) = [] -> S !! p = None ->
      zstep n st z (Alloc k) (Ptr (span_addr st p)) z' ->
      cstep n st (z, S) (SpanAlloc k) (Ptr (span_addr st p)) (z', <[p := (k, true)]> S)
  | c_reuse z S k p j : 1 <= k <= NX_PAGE_CACHE_MAX_PAGES -> (p, (j, false)) ∈ waiting_of S (select k) ->
      (forall q i, (q, (i, false)) ∈ waiting_of S (select k) -> j <= i) ->
      cstep n st (z, S) (SpanAlloc k) (Ptr (span_addr st p)) (z, <[p := (j, true)]> S)
  | c_below z S page : 0 <= page < st -> cstep n st (z, S) (SpanFree page) (Err NX_EINVAL) (z, S)
  | c_unmarked z S q : 0 <= q < n -> (forall p k b, ~ covers S q p k b) ->
      cstep n st (z, S) (SpanFree (span_addr st q)) (Err NX_EFAULT) (z, S)
  | c_keep z S q p k : covers S q p k true -> Z.of_nat (length (waiting_of S (select k))) < limit (select k) ->
      cstep n st (z, S) (SpanFree (span_addr st q)) (Err NX_EOK) (z, <[p := (k, false)]> S)
  | c_return z z' S q p k : covers S q p k true ->
      Z.of_nat (length (waiting_of S (select k))) = limit (select k) ->
      zstep n st z (Free (span_addr st p)) (Err NX_EOK) z' ->
      cstep n st (z, S) (SpanFree (span_addr st q)) (Err NX_EOK) (z', delete p S).

(** What a client may pass: any count, and for release null, an address below
    the zone, or a page of the zone that no waiting span covers. *)
Definition client_op (n st : Z) (S : spans) (op : cop) : Prop :=
  match op with
  | SpanAlloc k => 0 <= k
  | SpanFree page => 0 <= page < st \/ exists q, page = span_addr st q /\ 0 <= q < n /\
      forall p k, ~ covers S q p k false
  end.

(** ** Lists and counters *)
Lemma select_valid k : 1 <= k -> valid_head (select k).
Proof.
  intros Hk. unfold select, SMALL_SPAN_PAGES_MAX. rewrite Z.geb_leb.
  destruct (Z.leb_spec 128 k); cbn; [done|lia].
Qed.

Lemma maxThresold_limit k : 1 <= k -> maxThresold k = limit (select k).
Proof.
  intros Hk. unfold maxThresold, select, SMALL_SPAN_PAGES_MAX. rewrite Z.geb_leb.
  destruct (Z.leb_spec 128 k); [done|]. destruct (Z.eqb_spec k 1) as [->|]; [done|].
  cbn. destruct k as [|[]|]; try done; lia.
Qed.

Lemma limit_bounds h : 32 <= limit h <= 1024.
Proof. destruct h as [[|[]|]|]; cbn; lia. Qed.

Lemma get_list_put c h l k h' :
  length (spanFreeList c) = 128%nat -> length (spanFreeCount c) = 128%nat -> valid_head h -> valid_head h' ->
  get_list (put c h l k) h' = (if decide (h' = h) then Some l else get_list c h') /\
  get_count (put c h l k) h' = (if decide (h' = h) then Some k else get_count c h').
Proof.
  intros Hl Hc Hv Hv'. destruct h as [i|], h' as [j|]; cbn in *.
  - rewrite !zlookup_zinsert by lia. repeat case_decide; try done; congruence.
  - by rewrite decide_False.
  - by rewrite decide_False.
  - by rewrite !decide_True.
Qed.

Lemma elem_of_waiting_of S h p k b :
  (p, (k, b)) ∈ waiting_of S h <-> S !! p = Some (k, b) /\ b = false /\ select k = h.
Proof.
  unfold waiting_of. rewrite list_elem_of_filter, elem_of_map_to_list.
  unfold is_waiting. cbn. tauto.
Qed.

Lemma span_addr_inj st p q : span_addr st p = span_addr st q -> p = q.
Proof. unfold span_addr, NX_PAGE_SIZE. lia. Qed.

Lemma waiting_perm S st h l :
  NoDup l ->
  (forall a, a ∈ l <-> exists p k, a = span_addr st p /\ S !! p = Some (k, false) /\ select k = h) ->
  l ≡ₚ (fun e => span_addr st e.1) <$> waiting_of S h.
Proof.
  intros Hn Hl. apply NoDup_Permutation; [done| |].
  - apply NoDup_fmap_2_strong.
    + intros [p [k b]] [q [k' b']] [Hp _]%elem_of_waiting_of [Hq _]%elem_of_waiting_of E.
      apply span_addr_inj in E. cbn in E. subst q. congruence.
    + apply NoDup_filter, NoDup_map_to_list.
  - intros a. rewrite Hl, list_elem_of_fmap. split.
    + intros (p & k & -> & Hp & Hs). exists (p, (k, false)). split; [done|]. by apply elem_of_waiting_of.
    + intros ([p [k b]] & -> & (Hp & -> & Hs)%elem_of_waiting_of). by exists p, k.
Qed.

Lemma waiting_length S st h l :
  NoDup l ->
  (forall a, a ∈ l <-> exists p k, a = span_addr st p /\ S !! p = Some (k, false) /\ select k = h) ->
  length l = length (waiting_of S h).
Proof. intros Hn Hl. rewrite (waiting_perm S st h l) by done. by rewrite length_fmap. Qed.

(** The list of [h] after the update, and the other lists, when [p] is the only
    span that changes. *)
Lemma waiting_other c c' st S S' p h :
  (forall q, q <> p -> S' !! q = S !! q) ->
  get_list c' h = get_list c h -> get_count c' h = get_count c h ->
  (forall k, S !! p = Some (k, false) -> select k <> h) ->
  (forall k, S' !! p = Some (k, false) -> select k <> h) ->
  waiting c st S h -> waiting c' st S' h.
Proof.
  intros Hq Hl Hc Hp Hp' (l & E & En & Hlim & Hn & Ha). exists l. rewrite Hl, Hc.
  split; [done|]. split; [done|]. split; [done|]. split; [done|].
  intros a. rewrite Ha. split; intros (q & k & -> & Hqs & Hs); exists q, k;
    (split; [done|]); (split; [|done]).
  - destruct (decide (q = p)) as [->|]; [by destruct (Hp k Hqs)|by rewrite Hq].
  - destruct (decide (q = p)) as [->|]; [by destruct (Hp' k Hqs)|by rewrite <- Hq].
Qed.

Lemma marked_flip S m q p k b b' :
  S !! p = Some (k, b) -> marked S m q -> marked (<[p := (k, b')]> S) m q.
Proof.
  intros Hp [(p0 & k0 & b0 & [Hp0 Hr] & Hm)|[Hno Hm]].
  - left. destruct (decide (p0 = p)) as [->|].
    + rewrite Hp in Hp0. injection Hp0 as <- <-. exists p, k, b'. split; [|done].
      split; [by rewrite lookup_insert_eq|done].
    + exists p0, k0, b0. split; [|done]. split; [by rewrite lookup_insert_ne|done].
  - right. split; [|done]. intros p0 k0 b0 [Hp0 Hr]. destruct (decide (p0 = p)) as [->|].
    + rewrite lookup_insert_eq in Hp0. injection Hp0 as <- <-. by apply (Hno p k b).
    + rewrite lookup_insert_ne in Hp0 by done. by apply (Hno p0 k0 b0).
Qed.

(** ** Allocation *)
Section operations.
Context (c : PageCache) (n st : Z) (z : zone) (S : spans).
Hypothesis OK : cache_ok c n st z S.

(** The invariant after a fresh span has been marked. *)
Lemma ok_fresh zs' z' m' k p :
  1 <= k <= NX_PAGE_CACHE_MAX_PAGES -> S !! p = None -> 0 <= p ->
  (exists s, length zs' = 2%nat /\ get_zone zs' NX_PAGE_ZONE_NORMAL = Some s /\ represents s n st z') ->
  z'.1 = <[p := (Z.log2_up k, 1)]> z.1 ->
  (forall q, m' !! q = if decide (p <= q < p + Z.of_nat (Z.to_nat k)) then Some (mkMark k (0 + (q - p)))
    else spanMarkMap c !! q) ->
  cache_ok (with_marks (with_zones c zs') m') n st z' (<[p := (k, true)]> S).
Proof using OK.
  intros Hk HSp Hp0 Hz Hz' Hm'. constructor; [done|apply OK|apply OK| | | |].
  - intros q j b. destruct (decide (q = p)) as [->|Hne].
    + rewrite lookup_insert_eq. intros [= <- <-]. rewrite Hz', lookup_insert_eq. done.
    + rewrite lookup_insert_ne by done. intros Hq. rewrite Hz', lookup_insert_ne by done.
      by apply (ok_span _ _ _ _ _ OK q j b).
  - intros q Hq. cbn. destruct (decide (p <= q < p + k)).
    { left. exists p, k, true. split; [by split; [rewrite lookup_insert_eq|]|].
      rewrite Hm', decide_True by lia. done. }
    destruct (ok_mark _ _ _ _ _ OK q Hq) as [(q0 & j & b & [Hq0 Hr] & Hmq)|[Hno Hmq]].
    + left. exists q0, j, b. rewrite Hm', decide_False by lia. split; [|done].
      split; [|done]. rewrite lookup_insert_ne; [done|]. congruence.
    + right. rewrite Hm', decide_False by lia. split; [|done]. intros q0 j b [Hq0 Hr].
      destruct (decide (q0 = p)) as [->|].
      * rewrite lookup_insert_eq in Hq0. injection Hq0 as <- <-. lia.
      * rewrite lookup_insert_ne in Hq0 by done. by apply (Hno q0 j b).
  - intros h Hh. eapply (waiting_other c _ st S _ p); [|done|done| | |by apply (ok_wait _ _ _ _ _ OK)].
    + intros q Hq. by rewrite lookup_insert_ne.
    + intros j Hj. congruence.
    + intros j. by rewrite lookup_insert_eq.
  - intros q j. destruct (decide (q = p)) as [->|]; [by rewrite lookup_insert_eq|].
    rewrite lookup_insert_ne by done. apply (ok_pages _ _ _ _ _ OK).
Qed.

(** A block the zone hands out starts at no span. *)
Lemma fresh_block_no_span p k : 0 < 2 ^ k -> zone_free z.1 p k -> S !! p = None.
Proof using OK.
  intros Hkp Hfree. destruct (S !! p) as [[k' b']|] eqn:E; [|done].
  destruct (ok_span _ _ _ _ _ OK p k' b' E) as [Hk' Ha].
  pose proof (Hfree p _ _ Ha). pose proof (span_le_block k' ltac:(lia)). lia.
Qed.

End operations.

Lemma zone_alloc c n st z S k :
  cache_ok c n st z S -> 1 <= k <= NX_PAGE_CACHE_MAX_PAGES ->
  exists zs' a, NX_PageAllocInZone (zones_of c) NX_PAGE_ZONE_NORMAL k = Some (zs', a) /\
       ((a = 0 /\ zstep n st z (Alloc k) (Ptr 0) z /\ cache_ok (with_zones c zs') n st z S) \/
     exists p z' m, a = span_addr st p /\ 0 <= p < n /\ S !! p = None /\ zstep n st z (Alloc k) (Ptr a) z' /\
       MarkSpan (with_zones c zs') a k = Some (with_marks (with_zones c zs') m) /\
       cache_ok (with_marks (with_zones c zs') m) n st z' (<[p := (k, true)]> S)).
Proof.
  intros OK Hk. pose proof Hk as Hk0. unfold NX_PAGE_CACHE_MAX_PAGES in Hk.
  destruct (ok_zone _ _ _ _ _ OK) as (s & Hlen & Hs & R).
  destruct (normal_op _ s n st z (Alloc k) Hlen Hs R) as (zs' & r & z' & s' & Hop & Hstep & Hlen' & Hs' & R').
  { cbn. lia. }
  cbn [page_op] in Hop. destruct (NX_PageAllocInZone _ _ _) as [[zs1 a]|]; [|done].
  rewrite Some_bind in Hop. injection Hop as <- <-. exists zs1, a. split; [done|].
  assert (HzE : exists s, length zs1 = 2%nat /\ get_zone zs1 NX_PAGE_ZONE_NORMAL = Some s /\ represents s n st z')
    by eauto.
  inversion Hstep as [A u c0 p o Hf Hfree Hz Hc Ha Hz'|A u c0 Hno| | | | |]; subst.
  - right. assert (Hkp : 0 < 2 ^ o) by (apply Z.pow_pos_nonneg; [lia|apply Z.log2_up_nonneg]).
    pose proof (span_le_block k ltac:(lia)) as Hko. fold o in Hko.
    destruct Hf as (Hp0 & Hpn & Hpd).
    pose proof (fresh_block_no_span _ _ _ _ _ OK p o Hkp Hfree) as HSp.
    pose proof (ok_bounds _ _ _ _ _ OK) as (Hn & Hst & Hend & _).
    destruct (MarkSpan_loop_spec (Z.to_nat k) (spanMarkMap c) p 0 k) as (m' & Hm & Hm'); [|lia..|].
    { intros q Hq. eapply marked_is_Some, (ok_mark _ _ _ _ _ OK). lia. }
    exists p, (<[p := (o, 1)]> A, u64 (u + 2 ^ o)), m'.
    split; [done|]. split; [lia|]. split; [done|]. split; [done|]. split.
    + unfold MarkSpan. change (page_idx (with_zones c zs1)) with (page_idx c).
      fold (span_addr st p). rewrite (page_idx_addr _ _ _ _ _ OK) by lia.
      change (spanMarkMap (with_zones c zs1)) with (spanMarkMap c). by rewrite Hm.
    + eapply ok_fresh; done.
  - left. split; [done|]. split; [done|]. constructor; try apply OK. done.
Qed.

(** A span changes hands: its list becomes [l], every other list stays. *)
Lemma ok_flip c n st z S pc p k b0 b l :
  cache_ok c n st z S -> S !! p = Some (k, b0) ->
  Z.of_nat (length l) <= limit (select k) -> NoDup l ->
  (forall a, a ∈ l <-> exists q j, a = span_addr st q /\ <[p := (k, b)]> S !! q = Some (j, false) /\
     select j = select k) ->
  (forall q j, <[p := (k, b)]> S !! q = Some (j, false) -> pc !! span_addr st q = Some j) ->
  cache_ok (put (with_pageCount c pc) (select k) l (Z.of_nat (length l))) n st z (<[p := (k, b)]> S).
Proof.
  intros OK Hp Hlim Hn Hl Hpc. pose proof (ok_lens _ _ _ _ _ OK) as [Hl1 Hl2].
  destruct (ok_span _ _ _ _ _ OK p k b0 Hp) as [Hk Ha].
  pose proof (select_valid k ltac:(lia)) as Hsel.
  assert (Hget := fun h => get_list_put (with_pageCount c pc) (select k) l (Z.of_nat (length l)) h Hl1 Hl2 Hsel).
  set (c' := put _ _ _ _) in *.
  assert (Hfields : zones_of c' = zones_of c /\ spanBaseAddr c' = spanBaseAddr c /\
      spanMarkMap c' = spanMarkMap c /\ pageCount c' = pc /\
      length (spanFreeList c') = 128%nat /\ length (spanFreeCount c') = 128%nat).
  { subst c'. destruct (select k); cbn; rewrite ?length_zinsert; done. }
  destruct Hfields as (Ez & Eb & Em & Ep & El & Ec).
  constructor; rewrite ?Ez, ?Eb, ?Em, ?Ep; try done; try apply OK.
  - intros q j b1. destruct (decide (q = p)) as [->|].
    + rewrite lookup_insert_eq. intros [= <- <-]. done.
    + rewrite lookup_insert_ne by done. apply OK.
  - intros q Hq. eapply marked_flip; [done|]. by apply OK.
  - intros h Hh. destruct (Hget h Hh) as [E1 E2]. destruct (decide (h = select k)) as [->|Hne].
    + exists l. by rewrite E1, E2.
    + eapply (waiting_other c _ st S _ p); [|done|done| | |by apply OK].
      * intros q Hq. by rewrite lookup_insert_ne.
      * intros j Hj. rewrite Hp in Hj. injection Hj as <- _. congruence.
      * intros j. rewrite lookup_insert_eq. intros [= <- _]. congruence.
Qed.

Lemma best_fit_spec c l : forall b nb,
  pageCount c !! b = Some nb -> (forall a, a ∈ l -> is_Some (pageCount c !! a)) ->
  exists b' nb', best_fit c l (Some b) = Some (Some b') /\ b' ∈ b :: l /\ pageCount c !! b' = Some nb' /\
    nb' <= nb /\ forall a m, a ∈ l -> pageCount c !! a = Some m -> nb' <= m.
Proof.
  induction l as [|x l IH]; intros b nb Hb Hl; cbn [best_fit].
  - exists b, nb. split; [done|]. split; [left|]. split; [done|]. split; [lia|]. intros a m Ha. by apply elem_of_nil in Ha.
  - destruct (Hl x ltac:(left)) as [nx Hx].
    assert (Hl' : forall a, a ∈ l -> is_Some (pageCount c !! a)) by (intros a Ha; apply Hl; by right).
    case_bool_decide as Hxb; [rewrite Hx, Hb, !Some_bind; destruct (Z.ltb_spec nx nb)|].
    + destruct (IH x nx Hx Hl') as (b' & nb' & -> & Hin & Hb' & Hle & Hmin).
      exists b', nb'. split; [done|]. split; [by right|]. split; [done|]. split; [lia|].
      intros a m [->|Ha]%elem_of_cons Hm; [assert (m = nx) by congruence; lia|eauto].
    + destruct (IH b nb Hb Hl') as (b' & nb' & -> & Hin & Hb' & Hle & Hmin).
      exists b', nb'. split; [done|]. split; [apply elem_of_cons in Hin as [->|]; [left|by do 2 right]|].
      split; [done|]. split; [lia|].
      intros a m [->|Ha]%elem_of_cons Hm; [assert (m = nx) by congruence; lia|eauto].
    + subst x. destruct (IH b nb Hb Hl') as (b' & nb' & -> & Hin & Hb' & Hle & Hmin).
      exists b', nb'. split; [done|]. split; [apply elem_of_cons in Hin as [->|]; [left|by do 2 right]|].
      split; [done|]. split; [lia|].
      intros a m [->|Ha]%elem_of_cons Hm; [assert (m = nb) by congruence; lia|eauto].
Qed.

(** The span an allocation takes from a non-empty list. *)
Lemma chosen_span c n st z S k first l :
  cache_ok c n st z S -> 1 <= k -> get_list c (select k) = Some (first :: l) ->
  exists p j, (match select k with Large => best_fit c (first :: l) None | Small _ => Some (Some first) end)
      = Some (Some (span_addr st p)) /\
    (p, (j, false)) ∈ waiting_of S (select k) /\
    forall q i, (q, (i, false)) ∈ waiting_of S (select k) -> j <= i.
Proof.
  intros OK Hk Hl. destruct (ok_wait _ _ _ _ _ OK (select k) (select_valid k Hk)) as (l' & E & _ & _ & _ & Ha).
  rewrite Hl in E. injection E as <-.
  assert (Hpc : forall a, a ∈ first :: l -> exists p j, a = span_addr st p /\ S !! p = Some (j, false) /\
      select j = select k /\ pageCount c !! a = Some j).
  { intros a (p & j & -> & Hp & Hs)%Ha. exists p, j. by rewrite (ok_pages _ _ _ _ _ OK p j Hp). }
  destruct (Hpc first ltac:(left)) as (p & j & Hfirst & Hp & Hs & Hpcf).
  destruct (select k) as [i|] eqn:Hsel.
  - exists p, j. rewrite Hfirst. split; [done|]. split; [by apply elem_of_waiting_of|].
    intros q i' (_ & _ & Hq)%elem_of_waiting_of. unfold select in Hs, Hq.
    destruct (j >=? _); [done|]. destruct (i' >=? _); [done|]. injection Hs as ->. injection Hq as ->. lia.
  - change (best_fit c (first :: l) None) with
      (if bool_decide (first <> first) then
        n ← pageCount c !! first; b ← pageCount c !! first; best_fit c l (Some (if n <? b then first else first))
       else best_fit c l (Some first)).
    rewrite bool_decide_false by auto.
    destruct (best_fit_spec c l first j Hpcf) as (b' & nb' & -> & Hin & Hb' & Hle & Hmin).
    { intros a Hal. destruct (Hpc a ltac:(by right)) as (? & ? & _ & _ & _ & ->). eauto. }
    destruct (Hpc b' Hin) as (p' & j' & -> & Hp' & Hs' & Hpc'). exists p', j'.
    split; [done|]. split; [by apply elem_of_waiting_of|].
    intros q i (Hq & _ & Hsi)%elem_of_waiting_of.
    assert (j' = nb') as -> by congruence.
    pose proof (ok_pages _ _ _ _ _ OK q i Hq) as Hpq.
    assert (Hqa : span_addr st q ∈ first :: l) by (apply Ha; eauto).
    apply elem_of_cons in Hqa as [Heq|Hqa]; [|eauto].
    rewrite <- Heq in Hpcf. assert (i = j) by congruence. lia.
Qed.

(** A waiting span leaves its list. *)
Lemma ok_take c n st z S p j l :
  cache_ok c n st z S -> S !! p = Some (j, false) -> get_list c (select j) = Some l ->
  cache_ok (put c (select j) (list_del (span_addr st p) l) (i64 (Z.of_nat (length l) - 1))) n st z
    (<[p := (j, true)]> S).
Proof.
  intros OK Hp El. destruct (ok_span _ _ _ _ _ OK p j false Hp) as [Hj _].
  destruct (ok_wait _ _ _ _ _ OK (select j) (select_valid j ltac:(lia))) as (l0 & El0 & En & Hlim & Hnd & Ha).
  rewrite El in El0. injection El0 as <-.
  assert (Hpl : span_addr st p ∈ l) by (apply Ha; eauto).
  pose proof (length_list_del _ _ Hnd Hpl) as Hl'. pose proof (limit_bounds (select j)).
  set (l' := list_del (span_addr st p) l) in *.
  rewrite i64_small by lia. replace (Z.of_nat (length l) - 1) with (Z.of_nat (length l')) by lia.
  assert (Ep : forall h x y, put c h x y = put (with_pageCount c (pageCount c)) h x y) by (by destruct c).
  rewrite Ep. apply (ok_flip c n st z S (pageCount c) p j false true l' OK Hp); [lia|by apply NoDup_list_del|..].
  - intros a. unfold l'. rewrite elem_of_list_del, Ha. split.
    + intros (Hne & q & i & -> & Hq & Hsi). exists q, i. split; [done|]. split; [|done].
      rewrite lookup_insert_ne; [done|]. by intros ->.
    + intros (q & i & -> & Hq & Hsi). destruct (decide (q = p)) as [->|Hne].
      { by rewrite lookup_insert_eq in Hq. }
      rewrite lookup_insert_ne in Hq by done. split; [|eauto]. intros E. by apply span_addr_inj in E.
  - intros q i. destruct (decide (q = p)) as [->|]; [by rewrite lookup_insert_eq|].
    rewrite lookup_insert_ne by done. apply OK.
Qed.

(** A span held by a client joins its list. *)
Lemma ok_give c n st z S p j l :
  cache_ok c n st z S -> S !! p = Some (j, true) -> get_list c (select j) = Some l ->
  Z.of_nat (length l) < limit (select j) ->
  cache_ok (put (with_pageCount c (<[span_addr st p := j]> (pageCount c))) (select j)
    (span_addr st p :: l) (i64 (Z.of_nat (length l) + 1))) n st z (<[p := (j, false)]> S).
Proof.
  intros OK Hp El Hlt. destruct (ok_span _ _ _ _ _ OK p j true Hp) as [Hj _].
  destruct (ok_wait _ _ _ _ _ OK (select j) (select_valid j ltac:(lia))) as (l0 & El0 & En & Hlim & Hnd & Ha).
  rewrite El in El0. injection El0 as <-. pose proof (limit_bounds (select j)).
  rewrite i64_small by lia.
  replace (Z.of_nat (length l) + 1) with (Z.of_nat (length (span_addr st p :: l))) by (cbn [length]; lia).
  apply (ok_flip c n st z S _ p j true false _ OK Hp); [cbn [length]; lia|..].
  - apply NoDup_cons. split; [|done]. intros (q & i & E & Hq & _)%Ha.
    apply span_addr_inj in E as <-. congruence.
  - intros a. rewrite elem_of_cons, Ha. split.
    + intros [->|(q & i & -> & Hq & Hsi)].
      * exists p, j. by rewrite lookup_insert_eq.
      * exists q, i. split; [done|]. split; [|done]. rewrite lookup_insert_ne; [done|]. congruence.
    + intros (q & i & -> & Hq & Hsi). destruct (decide (q = p)) as [->|Hne]; [by left|right].
      rewrite lookup_insert_ne in Hq by done. eauto.
  - intros q i. destruct (decide (q = p)) as [->|Hne].
    + rewrite lookup_insert_eq. intros [= <-]. by rewrite lookup_insert_eq.
    + rewrite lookup_insert_ne by done. intros Hq.
      rewrite lookup_insert_ne; [by apply OK|]. by intros E%span_addr_inj.
Qed.

(** Allocation of a span: from its list when one waits, else from the zone. *)
Lemma PageCacheAlloc_step c n st z S k :
  cache_ok c n st z S -> 0 <= k ->
  exists c' a z' S', NX_PageCacheAlloc c k = Some (c', a) /\
    cstep n st (z, S) (SpanAlloc k) (Ptr a) (z', S') /\ cache_ok c' n st z' S'.
Proof.
  intros OK Hk. unfold NX_PageCacheAlloc, NX_PAGE_CACHE_MAX_PAGES. rewrite Z.gtb_ltb.
  destruct (Z.eqb_spec k 0) as [->|Hk0].
  { exists c, 0, z, S. split; [done|]. split; [constructor; by left|done]. }
  destruct (Z.ltb_spec 2048 k).
  { exists c, 0, z, S. split; [done|]. split; [constructor; by right|done]. }
  assert (Hk1 : 1 <= k <= NX_PAGE_CACHE_MAX_PAGES) by (unfold NX_PAGE_CACHE_MAX_PAGES; lia).
  destruct (ok_wait _ _ _ _ _ OK (select k) (select_valid k ltac:(lia))) as (l & El & En & Hlim & Hnd & Ha).
  pose proof (waiting_length S st _ l Hnd Ha) as Hlen.
  unfold __PageCacheAlloc. rewrite El, En, !Some_bind. destruct l as [|first l].
  - assert (Hw : waiting_of S (select k) = []) by (apply nil_length_inv; cbn in Hlen; lia).
    unfold PageAllocVirtual. destruct (zone_alloc c n st z S k OK Hk1) as (zs' & a & -> & [H1|H1]);
      rewrite Some_bind.
    + destruct H1 as (-> & Hz & OK'). exists (with_zones c zs'), 0, z, S.
      split; [done|]. split; [by constructor|done].
    + destruct H1 as (p & z' & m & -> & Hp & HSp & Hz & Hm & OK').
      destruct (addr_nonzero _ _ _ _ _ OK p Hp) as (Hnz & _ & Hr). unfold nz in Hnz. apply negb_true_iff in Hnz.
      assert (Hv : NX_Phy2Virt (span_addr st p) = span_addr st p).
      { unfold NX_Phy2Virt, KVADDR_OFFSET. rewrite Z.add_0_r. by apply u64_small. }
      exists (with_marks (with_zones c zs') m), (span_addr st p), z', (<[p := (k, true)]> S).
      rewrite Hnz, Some_bind, Hv, Hnz, Hm, Some_bind. split; [done|]. split; [by constructor|done].
  - destruct (chosen_span c n st z S k first l OK ltac:(lia) El) as (p & j & -> & Hin & Hmin).
    rewrite !Some_bind. pose proof Hin as (Hp & _ & Hs)%elem_of_waiting_of.
    exists (put c (select k) (list_del (span_addr st p) (first :: l)) (i64 (Z.of_nat (length (first :: l)) - 1))),
      (span_addr st p), z, (<[p := (j, true)]> S).
    split; [done|]. split; [by apply (c_reuse n st z S k p j)|].
    rewrite <- Hs. apply ok_take; [done..|]. by rewrite Hs.
Qed.

(** A span goes back to the zone. *)
Lemma ok_return zs' c n st z z' S p j m' :
  cache_ok c n st z S -> S !! p = Some (j, true) ->
  (exists s, length zs' = 2%nat /\ get_zone zs' NX_PAGE_ZONE_NORMAL = Some s /\ represents s n st z') ->
  z'.1 = delete p z.1 ->
  (forall q, m' !! q = if decide (p <= q < p + Z.of_nat (Z.to_nat j)) then Some (mkMark 0 0)
    else spanMarkMap c !! q) ->
  cache_ok (with_zones (with_marks c m') zs') n st z' (delete p S).
Proof.
  intros OK Hp Hz Hz' Hm'. destruct (ok_span _ _ _ _ _ OK p j true Hp) as [Hj _].
  constructor; [done|apply OK|apply OK| | | |].
  - intros q i b (Hne & Hq)%lookup_delete_Some. rewrite Hz', lookup_delete_ne by done. by apply OK in Hq.
  - intros q Hq. cbn. destruct (decide (p <= q < p + j)).
    + right. rewrite Hm', decide_True by lia. split; [|done].
      intros q0 i b [(Hne & Hq0)%lookup_delete_Some Hr].
      destruct (covers_unique c n st z S OK q p j true q0 i b); [done..|]. done.
    + destruct (ok_mark _ _ _ _ _ OK q Hq) as [(q0 & i & b & [Hq0 Hr] & Hmq)|[Hno Hmq]].
      * left. exists q0, i, b. rewrite Hm', decide_False by lia. split; [|done].
        split; [|done]. rewrite lookup_delete_ne; [done|]. intros <-. rewrite Hp in Hq0.
        injection Hq0 as <- <-. lia.
      * right. rewrite Hm', decide_False by lia. split; [|done].
        intros q0 i b [(Hne & Hq0)%lookup_delete_Some Hr]. by apply (Hno q0 i b).
  - intros h Hh. eapply (waiting_other c _ st S _ p); [|done|done| | |by apply OK].
    + intros q Hq. by rewrite lookup_delete_ne.
    + intros i Hi. congruence.
    + intros i Hi. by rewrite lookup_delete_eq in Hi.
  - intros q i (Hne & Hq)%lookup_delete_Some. by apply OK.
Qed.

Lemma zone_release c n st z S p j :
  cache_ok c n st z S -> S !! p = Some (j, true) ->
  exists m zs' z', ClearSpan c (span_addr st p) j = Some (with_marks c m) /\
    PageFreeVirtual (with_marks c m) (span_addr st p) = Some (with_zones (with_marks c m) zs') /\
    zstep n st z (Free (span_addr st p)) (Err NX_EOK) z' /\
    cache_ok (with_zones (with_marks c m) zs') n st z' (delete p S).
Proof.
  intros OK Hp. pose proof (span_inside c n st z S OK p j true Hp) as (Hp0 & Hpn & Hj).
  destruct (ok_span _ _ _ _ _ OK p j true Hp) as [_ Ha].
  destruct (addr_nonzero _ _ _ _ _ OK p ltac:(lia)) as (Hnz & _ & Hr).
  destruct (ClearSpan_loop_spec (Z.to_nat j) (spanMarkMap c) p) as (m & Hm & Hm').
  { intros q Hq. eapply marked_is_Some, (ok_mark _ _ _ _ _ OK). lia. }
  destruct (ok_zone _ _ _ _ _ OK) as (s & Hlen & Hs & R).
  destruct (normal_op _ s n st z (Free (span_addr st p)) Hlen Hs R) as (zs' & r & z' & s' & Hop & Hstep & Hz').
  { split; [unfold nz in Hnz; bool2prop; lia|]. right. right. exists p, (Z.log2_up j), 1. done. }
  cbn [page_op] in Hop. destruct (NX_PageFreeInZone _ _ _) as [[zs1 e]|] eqn:E; [|done].
  rewrite Some_bind in Hop. injection Hop as <- <-. exists m, zs1, z'.
  assert (Hfree : z'.1 = delete p z.1 /\ e = NX_EOK).
  { pose proof (ok_bounds _ _ _ _ _ OK) as (_ & Hst & _).
    inversion Hstep as [| |A u q o Hq Hz Hop0 He Hz1|A u q o t Hq Ht Hz Hop0 He Hz1|A u ptr Hptr| |]; subst;
      [by assert (q = p) as -> by (by apply (span_addr_inj st))| |].
    - assert (q = p) as -> by (by apply (span_addr_inj st)). cbn in Ha. rewrite Hq in Ha.
      injection Ha as -> ->. lia.
    - unfold span_addr, NX_PAGE_SIZE in Hptr. lia. }
  destruct Hfree as [Hz1 ->]. split; [|split; [|split; [done|]]].
  - unfold ClearSpan. by rewrite (page_idx_addr _ _ _ _ _ OK), Hm by lia.
  - unfold PageFreeVirtual. unfold nz in Hnz. rewrite (proj1 (negb_true_iff _) Hnz).
    unfold NX_Virt2Phy, KVADDR_OFFSET. rewrite Z.sub_0_r, u64_small by done.
    change (zones_of (with_marks c m)) with (zones_of c). by rewrite E.
  - eapply ok_return; [done..| |done|exact Hm']. eauto.
Qed.

Lemma PageCacheFree_live c n st z S q p j :
  cache_ok c n st z S -> covers S q p j true ->
  exists c' z' S', NX_PageCacheFree c (span_addr st q) = Some (c', NX_EOK) /\
    cstep n st (z, S) (SpanFree (span_addr st q)) (Err NX_EOK) (z', S') /\ cache_ok c' n st z' S'.
Proof.
  intros OK Hc. pose proof Hc as [Hp Hq].
  pose proof (span_inside c n st z S OK p j true Hp) as (Hp0 & Hpn & Hj).
  destruct (addr_nonzero _ _ _ _ _ OK q ltac:(lia)) as (Hnz & _ & _).
  destruct (addr_nonzero _ _ _ _ _ OK p ltac:(lia)) as (Hnzp & _ & _).
  unfold nz in Hnz, Hnzp. apply negb_true_iff in Hnz, Hnzp.
  unfold NX_PageCacheFree, __PageCacheFree. rewrite Hnz, (NX_PageToSpan_spec c n st z S OK q p j true Hc).
  rewrite Some_bind, Hnzp, (NX_SpanToCount_spec c n st z S OK p j true Hp), Some_bind.
  rewrite (proj2 (Z.eqb_neq j 0)) by lia.
  destruct (ok_wait _ _ _ _ _ OK (select j) (select_valid j ltac:(lia))) as (l & El & En & Hlim & Hnd & Ha).
  rewrite El, En, !Some_bind, maxThresold_limit by lia. pose proof (limit_bounds (select j)).
  rewrite u64_small, Z.geb_leb by lia. pose proof (waiting_length S st _ l Hnd Ha) as Hlen.
  destruct (Z.leb_spec (limit (select j)) (Z.of_nat (length l))).
  - destruct (zone_release c n st z S p j OK Hp) as (m & zs' & z' & -> & Hfree & Hstep & OK').
    rewrite Some_bind, Hfree, Some_bind. eexists _, z', (delete p S). split; [done|]. split; [|done].
    econstructor; [done| |done]. lia.
  - eexists _, z, (<[p := (j, false)]> S). split; [done|]. split; [econstructor; [done|lia]|].
    by apply ok_give.
Qed.

(** Release of anything a client may pass. *)
Lemma PageCacheFree_step c n st z S page :
  cache_ok c n st z S -> client_op n st S (SpanFree page) ->
  exists c' e z' S', NX_PageCacheFree c page = Some (c', e) /\
    cstep n st (z, S) (SpanFree page) (Err e) (z', S') /\ cache_ok c' n st z' S'.
Proof.
  intros OK [Hlow|(q & -> & Hq & Hno)].
  - exists c, NX_EINVAL, z, S. split; [|by split; [constructor|]].
    unfold NX_PageCacheFree. destruct (Z.eqb_spec page 0) as [|Hne]; [done|].
    unfold __PageCacheFree, NX_PageToSpan, nz. rewrite (proj2 (Z.eqb_neq _ _)) by done.
    by rewrite (ok_base _ _ _ _ _ OK), (proj2 (Z.ltb_lt page st)) by lia.
  - destruct (ok_mark _ _ _ _ _ OK q Hq) as [(p & k & b & Hc & _)|[Hun Hm]].
    { destruct b; [|by destruct (Hno p k)].
      destruct (PageCacheFree_live c n st z S q p k OK Hc) as (c' & z' & S' & ?). eauto. }
    exists c, NX_EFAULT, z, S. split; [|by split; [constructor|]].
    destruct (addr_nonzero _ _ _ _ _ OK q Hq) as (Hnz & Hlt & Hr).
    assert (Hs : NX_PageToSpan c (span_addr st q) = Some (span_addr st q)).
    { unfold NX_PageToSpan. rewrite Hnz, Hlt, assert_true, (page_idx_addr _ _ _ _ _ OK), Hm, Some_bind by done.
      cbn [idx]. rewrite Z.mul_0_l, Z.sub_0_r. f_equal. by apply u64_small. }
    assert (Hk : NX_SpanToCount c (span_addr st q) = Some 0).
    { unfold NX_SpanToCount. by rewrite Hnz, Hlt, assert_true, (page_idx_addr _ _ _ _ _ OK), Hm by done. }
    unfold NX_PageCacheFree, __PageCacheFree. unfold nz in Hnz. apply negb_true_iff in Hnz.
    by rewrite Hnz, Hs, Some_bind, Hnz, Hk.
Qed.

(** What clients see of the cache: the spans they hold lie in the zone, do not
    meet, and each of their pages leads to the span and its page count. *)
Definition held_spans_ok (c : PageCache) (n st : Z) (S : spans) : Prop :=
  (forall q p k, covers S q p k true -> 0 <= p /\ p + k <= n /\
     NX_PageToSpan c (span_addr st q) = Some (span_addr st p) /\
     NX_SpanToCount c (span_addr st p) = Some k) /\
  (forall p k q i, S !! p = Some (k, true) -> S !! q = Some (i, true) -> p < q -> p + k <= q).

Lemma cache_held c n st z S : cache_ok c n st z S -> held_spans_ok c n st S.
Proof.
  intros OK. split.
  - intros q p k Hc. pose proof (span_inside c n st z S OK p k true (proj1 Hc)) as (? & ? & ?).
    split; [done|]. split; [done|]. split; [by eapply NX_PageToSpan_spec|].
    eapply NX_SpanToCount_spec; [done|exact (proj1 Hc)].
  - intros p k q i Hp Hq Hlt. destruct (Z.le_gt_cases (p + k) q) as [|Hgt]; [done|].
    pose proof (span_inside c n st z S OK q i true Hq) as (_ & _ & ?).
    destruct (covers_unique c n st z S OK q p k true q i true) as [-> _]; [by split; [|lia]..|lia].
Qed.

(** ** Initialisation *)
Lemma lookup_zero_marks n q : 0 <= q < n -> zero_marks n !! q = Some (mkMark 0 0).
Proof.
  intros Hq. unfold zero_marks. apply elem_of_list_to_map_1.
  - rewrite <- list_fmap_compose. cbn. apply NoDup_fmap_2; [|apply NoDup_seq].
    intros x y Hxy. cbn in Hxy. lia.
  - apply list_elem_of_fmap. exists (Z.to_nat q). rewrite Z2Nat.id by lia. split; [done|].
    apply elem_of_seq. lia.
Qed.

Lemma zlookup_replicate {A} (x : A) i : 0 <= i < 128 -> zlookup (replicate 128 x) i = Some x.
Proof.
  intros Hi. unfold zlookup. rewrite (proj2 (Z.leb_le 0 i)) by lia.
  apply lookup_replicate_2. lia.
Qed.

Lemma NX_PageCacheInit_spec zs s n st z :
  length zs = 2%nat -> get_zone zs NX_PAGE_ZONE_NORMAL = Some s -> represents s n st z ->
  (NX_PageCacheInit zs = None /\ zstep n st z (Alloc (NX_DIV_ROUND_UP (n * 4) NX_PAGE_SIZE)) (Ptr 0) z) \/
  exists c a z', NX_PageCacheInit zs = Some c /\
    zstep n st z (Alloc (NX_DIV_ROUND_UP (n * 4) NX_PAGE_SIZE)) (Ptr a) z' /\ cache_ok c n st z' ∅.
Proof.
  intros Hlen Hs R. pose proof (zone_bounds s n st z R) as (Hn & Hst & Hend & _).
  set (k := NX_DIV_ROUND_UP (n * 4) NX_PAGE_SIZE).
  assert (Hk : 1 <= k <= 2 ^ 20 /\ n <= k * NX_PAGE_SIZE / 4).
  { subst k. unfold NX_DIV_ROUND_UP, NX_PAGE_SIZE in *. rewrite u64_small by lia. zlia. }
  destruct (normal_op zs s n st z (Alloc k) Hlen Hs R) as (zs' & r & z' & s' & Hop & Hstep & Hlen' & Hs' & R').
  { cbn. lia. }
  cbn [page_op] in Hop. destruct (NX_PageAllocInZone _ _ _) as [[zs1 a]|] eqn:E; [|done].
  rewrite Some_bind in Hop. injection Hop as <- <-.
  pose proof R as (W & _ & Hps & _). pose proof (wh_max _ _ _ _ W) as Hmax.
  assert (Hrun : NX_PageCacheInit zs = (assert (nz (if a =? 0 then 0 else NX_Phy2Virt a));;
    Some (mkCache (replicate 128 []) [] (replicate 128 0) 0 (zero_marks (k * NX_PAGE_SIZE / 4)) st ∅ zs1))).
  { unfold NX_PageCacheInit, NX_PageZoneGetBase, NX_PageZoneGetPages.
    change (zone_valid NX_PAGE_ZONE_NORMAL) with true. rewrite Hs, assert_true, !Some_bind, assert_true, Some_bind.
    rewrite Hps, Hmax, (u64_small (n - 1 + 1)), Some_bind by lia. replace (n - 1 + 1) with n by lia.
    unfold sizeof_SpanMark. rewrite (u64_small (n * 4)) by lia. fold k.
    unfold PageAllocVirtual. cbn [zones_of]. rewrite E, Some_bind.
    destruct (a =? 0); done. }
  rewrite Hrun. clear Hrun.
  inversion Hstep as [A u c0 p o Hf Hfree Hz Hc Ha Hz'|A u c0 Hno| | | | |]; subst.
  - right. assert (Hp : 0 <= p < n).
    { destruct Hf as (? & ? & _). assert (0 < 2 ^ o) by (apply Z.pow_pos_nonneg; [lia|apply Z.log2_up_nonneg]). lia. }
    unfold NX_PAGE_SIZE in Hend.
    eexists _, _, _. split; [|split; [exact Hstep|]].
    { rewrite (proj2 (Z.eqb_neq _ 0)) by (unfold NX_PAGE_SIZE; lia). unfold NX_Phy2Virt, KVADDR_OFFSET, nz.
      rewrite Z.add_0_r, u64_small, (proj2 (Z.eqb_neq _ 0)) by (unfold NX_PAGE_SIZE; lia). done. }
    constructor; try done; [by eauto| |].
    + intros q Hq. right. split; [|by apply lookup_zero_marks; lia].
      intros p0 k0 b0 [H0 _]. by rewrite lookup_empty in H0.
    + intros h Hh. exists []. split; [|split; [|split; [|split; [constructor|]]]].
      * destruct h as [i|]; [|done]. apply zlookup_replicate, Hh.
      * destruct h as [i|]; [|done]. apply zlookup_replicate, Hh.
      * pose proof (limit_bounds h). cbn. lia.
      * intros x. split; [intros Hx; by apply elem_of_nil in Hx|]. intros (q & j & _ & Hq & _). by rewrite lookup_empty in Hq.
  - by left.
Qed.

(** C23: the span cache refines its specification.  Whatever is asked of it,
    the call returns and is a step of the abstract cache: an allocation takes a
    waiting span of the right list (the shortest one of the large list), or a
    fresh run of the zone when none waits, and gives null only for a count of
    zero or beyond 2048 or when the zone has no such run; releasing any page of
    a held span puts the span on its list, or gives it back to the zone when
    the list is at its threshold; null, addresses below the zone and unmarked
    pages are refused.  The held spans stay inside the zone and disjoint, and
    each of their pages leads to the span and to its page count. *)
Theorem page_cache_refines c n st z S op :
  cache_ok c n st z S -> client_op n st S op ->
  exists c' r z' S', cache_op c op = Some (c', r) /\ cstep n st (z, S) op r (z', S') /\
    cache_ok c' n st z' S' /\ held_spans_ok c' n st S'.
Proof.
  intros OK Hop. destruct op as [k|page]; cbn [cache_op].
  - destruct (PageCacheAlloc_step c n st z S k OK Hop) as (c' & a & z' & S' & -> & Hs & OK').
    exists c', (Ptr a), z', S'. eauto using cache_held.
  - destruct (PageCacheFree_step c n st z S page OK Hop) as (c' & e & z' & S' & -> & Hs & OK').
    exists c', (Err e), z', S'. eauto using cache_held.
Qed.

(** ** A cache on a small zone *)
Definition demo_zones (size : Z) : option zones :=
  NX_PageInitZone (fun _ => mkPage 7 7 7 7) [None; None] 0 0x100000 size.

Definition demo (size : Z) : option PageCache := zs ← demo_zones size; NX_PageCacheInit zs.

Lemma small_cache_ok size c : good_memory 0x100000 size -> demo size = Some c -> exists n st z, cache_ok c n st z ∅.
Proof.
  intros (_ & _ & Hsize & Hroom) Hd. unfold demo, demo_zones, NX_PageInitZone in Hd.
  destruct (NX_BuddyCreate_spec (fun _ => mkPage 7 7 7 7) 0x100000 size)
    as (s & n & Hs & W & Hnone & Hlo & Hhi); [lia..|].
  rewrite (proj2 (Z.gtb_lt size 0)), Hs in Hd by lia. unfold NX_PAGE_SIZE in *.
  change (zone_valid 0) with true in Hd. cbn [andb] in Hd. rewrite assert_true in Hd. rewrite Some_bind in Hd.
  rewrite Some_bind in Hd.
  destruct (NX_PageCacheInit_spec (zinsert [None; None] 0 (Some s)) s n (pageStart s) (∅, usedPage s))
    as [[Hn _]|(c' & a & z' & Hc & _ & OK)]; [done|done| |congruence|].
  - split; [done|]. split; [lia|]. split; [done|]. split; [done|].
    intros p o t. cbn [fst]. rewrite lookup_empty. split; [discriminate|].
    intros Ha. by destruct (Hnone _ _ _ Ha).
  - exists n, (pageStart s), z'. congruence.
Qed.

(** A request for 2000 pages, more than this zone has, is answered with the
    waiting span of 130 pages: the traversal never compares with [count]. *)
Lemma large_request_short_span :
  (c ← demo 0x200000; '(c, a) ← NX_PageCacheAlloc c 130; '(c, e) ← NX_PageCacheFree c a;
   '(c, b) ← NX_PageCacheAlloc c 2000; k ← NX_SpanToCount c b; Some (a, e, b, k)) =
  Some (1073152, NX_EOK, 1073152, 130).
Proof. vm_compute. reflexivity. Qed.

Lemma page_cache_refines_witness :
  exists c c' n st S', demo 0x40000 = Some c /\ cache_op c (SpanAlloc 3) = Some (c', Ptr 1286144) /\
    held_spans_ok c' n st S'.
Proof.
  assert (Hd : (c ← demo 0x40000; '(_, r) ← cache_op c (SpanAlloc 3); Some r) = Some (Ptr 1286144))
    by (vm_compute; reflexivity).
  destruct (demo 0x40000) as [c|] eqn:E; [|discriminate Hd].
  destruct (small_cache_ok 0x40000 c) as (n & st & z & OK); [vm_compute; repeat split; discriminate|exact E|].
  destruct (page_cache_refines c n st z ∅ (SpanAlloc 3) OK) as (c' & r & z' & S' & Hrun & _ & _ & Hh);
    [cbn; lia|].
  rewrite Some_bind in Hd. rewrite Hrun in Hd. rewrite Some_bind in Hd. injection Hd as ->.
  exists c, c', n, st, S'. split; [reflexivity|]. split; [exact Hrun|exact Hh].
Defined.
