(* ===== verification/HeapCache.v ===== *)
(** The kernel heap: [mm/heap_cache.c].

    Sizes up to 256 KB are rounded up to one of 96 size classes; a class keeps
    a list of spans, each with a header ([NX_HeapSmallCacheSystem]) and its free
    objects.  Sizes up to 1 MB take whole spans from one list, larger ones come
    straight from the span cache.  The size class of a span is kept in the
    descriptor of its first page.

    The mutex of a cache makes a call one atomic step.  A header is named by
    the address of its span ([systems]); [spanNode->pageCount] is the field
    of the span cache's [NX_PageSpan], which the header starts with. *)
From S2P Require Import Prelude Bits Buddy Page PageCache.

Definition MIN_SIZE_CLASS_VALUE : Z := 16.
Definition MAX_SIZE_CLASS_NR : Z := 96.
Definition MAX_SMALL_OBJECT_SIZE : Z := 256 * 1024.
Definition MAX_SMALL_SPAN_THRESOLD : Z := 8.
Definition MAX_MIDDLE_OBJECT_SIZE : Z := 1024 * 1024.
Definition MAX_MIDDLE_OBJECT_THRESOLD : Z := 32.

(** Two list heads, a page count and two counters of 8 bytes. *)
Definition sizeof_NX_HeapSmallCacheSystem : Z := 56.

Record NX_HeapCache := mkHeapCache {
  objectFreeList : list Z;
  classSize : Z;
  objectFreeCount : Z }.

Record NX_HeapSizeClass := mkSizeClass { size : Z; cache : NX_HeapCache }.

Record NX_HeapSmallCacheSystem := mkSystem {
  sys_objectFreeList : list Z;
  sys_objectFreeCount : Z;
  maxObjects : Z }.

Record Heap := mkHeap {
  cacheSizeAarray : list NX_HeapSizeClass;
  middleSizeCache : NX_HeapCache;
  systems : gmap Z NX_HeapSmallCacheSystem;
  page_cache : PageCache }.

(** A pointer to a cache: an element of the array or [&middleSizeCache]. *)
Inductive cache_ptr := Class (index : Z) | Middle.

Definition get_cache (h : Heap) (c : cache_ptr) : option NX_HeapCache :=
  match c with
  | Class i => e ← zlookup (cacheSizeAarray h) i; Some (cache e)
  | Middle => Some (middleSizeCache h)
  end.

Definition set_cache (h : Heap) (c : cache_ptr) (v : NX_HeapCache) : option Heap :=
  match c with
  | Class i =>
      e ← zlookup (cacheSizeAarray h) i;
      Some (mkHeap (zinsert (cacheSizeAarray h) i (mkSizeClass (size e) v)) (middleSizeCache h) (systems h) (page_cache h))
  | Middle => Some (mkHeap (cacheSizeAarray h) v (systems h) (page_cache h))
  end.

Definition with_system (h : Heap) (span : Z) (s : NX_HeapSmallCacheSystem) : Heap :=
  mkHeap (cacheSizeAarray h) (middleSizeCache h) (<[span := s]> (systems h)) (page_cache h).
Definition with_page_cache (h : Heap) (c : PageCache) : Heap :=
  mkHeap (cacheSizeAarray h) (middleSizeCache h) (systems h) c.

(** ** Size classes *)
Fixpoint AlignDownToPow2_loop (fuel : nat) (n size : Z) : option Z :=
  match fuel with
  | O => None
  | S fuel =>
      p ← NX_PowInt 2 n;
      if u64 p >? size then AlignDownToPow2_loop fuel (u64 (n - 1)) size
      else p ← NX_PowInt 2 n; Some (u64 p)
  end.

(** From 19 down to 0; a size of 0 would wrap [n] around. *)
Definition AlignDownToPow2 (size : Z) : option Z := AlignDownToPow2_loop 20 19 size.

Definition SizeToPageCount (size : Z) : Z :=
  if (size >? 0) && (size <=? 1024) then 1
  else if (size >? 1024) && (size <=? 8192) then 4
  else if (size >? 8192) && (size <=? 36864) then 18
  else if (size >? 36864) && (size <=? 104096) then 52
  else if (size >? 104096) && (size <=? 262144) then 256
  else NX_DIV_ROUND_UP size NX_PAGE_SIZE.

Definition HeapCacheInitOne (classSize : Z) : NX_HeapCache := mkHeapCache [] classSize 0.

Definition set_size (a : list NX_HeapSizeClass) (n v : Z) : option (list NX_HeapSizeClass) :=
  e ← zlookup a n; Some (zinsert a n (mkSizeClass v (cache e))).

(** [for (i = 32; i <= 128; i += 16)] *)
Fixpoint SizeClassInit_step16 (fuel : nat) (a : list NX_HeapSizeClass) (n i : Z) :
    option (list NX_HeapSizeClass * Z) :=
  match fuel with
  | O => None
  | S fuel =>
      if i <=? 128 then a ← set_size a n i; SizeClassInit_step16 fuel a (n + 1) (i + 16)
      else Some (a, n)
  end.

(** [for (i = 128 + 128 / 8; i <= MAX_SMALL_OBJECT_SIZE; )] *)
Fixpoint SizeClassInit_eighths (fuel : nat) (a : list NX_HeapSizeClass) (n i : Z) :
    option (list NX_HeapSizeClass * Z) :=
  match fuel with
  | O => None
  | S fuel =>
      if i <=? MAX_SMALL_OBJECT_SIZE then
        a ← set_size a n i;
        d ← AlignDownToPow2 (i / 8);
        SizeClassInit_eighths fuel a (n + 1) (i32 (i + d))
      else Some (a, n)
  end.

Definition HeapSizeClassInit (c : PageCache) : option Heap :=
  let a := replicate (Z.to_nat MAX_SIZE_CLASS_NR) (mkSizeClass 0 (mkHeapCache [] 0 0)) in
  a ← set_size a 0 MIN_SIZE_CLASS_VALUE;
  '(a, n) ← SizeClassInit_step16 8 a 1 32;
  '(a, n) ← SizeClassInit_eighths 97 a n (128 + 128 / 8);
  let a := (fun e => mkSizeClass (size e) (HeapCacheInitOne (size e))) <$> a in
  Some (mkHeap a (HeapCacheInitOne 0) ∅ c).

Definition NX_HeapCacheInit (c : PageCache) : option Heap := HeapSizeClassInit c.

Fixpoint SizeToCache_loop (l : list NX_HeapSizeClass) (index sz : Z) : option cache_ptr :=
  match l with
  | [] => None
  | e :: l => if size e >=? sz then Some (Class index) else SizeToCache_loop l (index + 1) sz
  end.

(** [None] inside the result is the null pointer. *)
Definition SizeToCache (h : Heap) (size : Z) : option (option cache_ptr) :=
  assert (size <=? MAX_SMALL_OBJECT_SIZE);;
  Some (SizeToCache_loop (cacheSizeAarray h) 0 size).

(** ** Spans and their objects *)
Fixpoint GetFreeSmallCacheSystem (h : Heap) (l : list Z) : option (option Z) :=
  match l with
  | [] => Some None
  | span :: l =>
      s ← systems h !! span;
      match sys_objectFreeList s with
      | [] => GetFreeSmallCacheSystem h l
      | _ => Some (Some span)
      end
  end.

Definition GetFreeSmallCacheObject (h : Heap) (system : Z) : option (Heap * Z) :=
  s ← systems h !! system;
  match sys_objectFreeList s with
  | [] => Some (h, 0)
  | object :: l =>
      Some (with_system h system (mkSystem l (u64 (sys_objectFreeCount s - 1)) (maxObjects s)), object)
  end.

Definition set_sizeClass (v : Z) (pg : NX_Page) : NX_Page := mkPage (flags pg) (order pg) v (reference pg).

Definition PageNodeMarkSize (h : Heap) (span size : Z) : option Heap :=
  let c := page_cache h in
  z ← NX_PageZoneGetBuddySystem (zones_of c) NX_PAGE_ZONE_NORMAL;
  s ← z;
  page ← NX_PageFromPtr s span;
  s ← upd_page s page (set_sizeClass size);
  Some (with_page_cache h (with_zones c (zinsert (zones_of c) NX_PAGE_ZONE_NORMAL (Some s)))).

(** [NX_PageFromPtr] and the field [sizeClass]. *)
Definition page_size_class (h : Heap) (span : Z) : option Z :=
  z ← NX_PageZoneGetBuddySystem (zones_of (page_cache h)) NX_PAGE_ZONE_NORMAL;
  s ← z;
  page ← NX_PageFromPtr s span;
  pg ← pmap s !! page;
  Some (sizeClass pg).

Definition PutFreeSmallCacheObject (h : Heap) (c : cache_ptr) (system ptr : Z) : option (Heap * NX_Error) :=
  s ← systems h !! system;
  v ← get_cache h c;
  if (u64 (sys_objectFreeCount s + 1) >=? maxObjects s) && (u64 (objectFreeCount v + 1) >=? MAX_SMALL_SPAN_THRESOLD)
  then
    h ← set_cache h c (mkHeapCache (list_del system (objectFreeList v)) (classSize v) (u64 (objectFreeCount v - 1)));
    h ← PageNodeMarkSize h system 0;
    '(pc, err) ← NX_PageCacheFree (page_cache h) system;
    Some (with_page_cache h pc, err)
  else
    Some (with_system h system (mkSystem (sys_objectFreeList s ++ [ptr]) (u64 (sys_objectFreeCount s + 1)) (maxObjects s)),
      NX_EOK).

(** [todo] objects are left; each goes to the tail of the free list. *)
Fixpoint BuildSmallCacheSystem_loop (todo : nat) (s : NX_HeapSmallCacheSystem) (start size : Z) :
    NX_HeapSmallCacheSystem :=
  match todo with
  | O => s
  | S todo =>
      BuildSmallCacheSystem_loop todo
        (mkSystem (sys_objectFreeList s ++ [start]) (u64 (sys_objectFreeCount s + 1)) (maxObjects s))
        (u64 (start + size)) size
  end.

Definition BuildSmallCacheSystem (h : Heap) (span objectCount size : Z) : option Heap :=
  let used := NX_DIV_ROUND_UP sizeof_NX_HeapSmallCacheSystem size in
  let objectCount := u64 (objectCount - used) in
  let s := BuildSmallCacheSystem_loop (Z.to_nat objectCount) (mkSystem [] 0 objectCount)
    (u64 (span + u64 (used * size))) size in
  assert (sys_objectFreeCount s >=? 1);;
  assert (sys_objectFreeCount s =? objectCount);;
  Some (with_system h span s).

Definition AllocSpan (h : Heap) (c : cache_ptr) (pageCount objectCount size : Z) : option (Heap * NX_Error) :=
  '(pc, span) ← NX_PageCacheAlloc (page_cache h) pageCount;
  let h := with_page_cache h pc in
  if span =? 0 then Some (h, NX_ENOMEM)
  else
    let h := with_page_cache h (with_pageCount pc (<[span := pageCount]> (PageCache.pageCount pc))) in
    v ← get_cache h c;
    h ← set_cache h c (mkHeapCache (span :: objectFreeList v) (classSize v) (u64 (objectFreeCount v + 1)));
    h ← (match c with Middle => Some h | Class _ => BuildSmallCacheSystem h span objectCount size end);
    h ← PageNodeMarkSize h span size;
    Some (h, NX_EOK).

(** The [do ... while (system == NX_NULL)] loop. *)
Fixpoint AllocSmallObject (fuel : nat) (h : Heap) (c : cache_ptr) (pageCount objectCount size : Z) :
    option (Heap * Z) :=
  match fuel with
  | O => None
  | S fuel =>
      v ← get_cache h c;
      system ← GetFreeSmallCacheSystem h (objectFreeList v);
      match system with
      | Some system => GetFreeSmallCacheObject h system
      | None =>
          '(h, err) ← AllocSpan h c pageCount objectCount size;
          if is_ok err then
            v ← get_cache h c;
            assert (objectFreeCount v >? 0);;
            assert (negb (bool_decide (objectFreeList v = [])));;
            AllocSmallObject fuel h c pageCount objectCount size
          else Some (h, 0)
      end
  end.

(** A span that has just been built has a free object: two turns. *)
Definition ALLOC_FUEL : nat := 2.

(** From taking the lock of the cache to releasing it. *)
Definition HeapAlloc_locked (h : Heap) (c : cache_ptr) (pageCount objectCount size : Z) : option (Heap * Z) :=
  v ← get_cache h c;
  '(h, err) ← (match objectFreeList v with
              | [] => AllocSpan h c pageCount objectCount size
              | _ => Some (h, NX_EOK)
              end);
  if is_ok err then
    v ← get_cache h c;
    assert (objectFreeCount v >? 0);;
    match objectFreeList v with
    | [] => None
    | span :: l =>
        match c with
        | Middle =>
            h ← set_cache h c (mkHeapCache (list_del span (span :: l)) (classSize v) (u64 (objectFreeCount v - 1)));
            Some (h, span)
        | Class _ => AllocSmallObject ALLOC_FUEL h c pageCount objectCount size
        end
    end
  else Some (h, 0).

Definition NX_HeapAlloc (h : Heap) (size : Z) : option (Heap * Z) :=
  if size =? 0 then Some (h, 0)
  else
    let size := NX_ALIGN_UP size MIN_SIZE_CLASS_VALUE in
    let pageCount := SizeToPageCount size in
    if size >? MAX_SMALL_OBJECT_SIZE then
      if size >? MAX_MIDDLE_OBJECT_SIZE then
        '(pc, span) ← NX_PageCacheAlloc (page_cache h) (NX_DIV_ROUND_UP size NX_PAGE_SIZE);
        let h := with_page_cache h pc in
        if span =? 0 then Some (h, 0)
        else h ← PageNodeMarkSize h span size; Some (h, span)
      else
        let size := MAX_MIDDLE_OBJECT_SIZE in
        HeapAlloc_locked h Middle pageCount (NX_DIV_ROUND_DOWN (u64 (pageCount * NX_PAGE_SIZE)) size) size
    else
      c ← SizeToCache h size;
      c ← c;
      v ← get_cache h c;
      let size := classSize v in
      assert (nz size);;
      HeapAlloc_locked h c pageCount (NX_DIV_ROUND_DOWN (u64 (pageCount * NX_PAGE_SIZE)) size) size.

Definition NX_HeapGetObjectSize (h : Heap) (object : Z) : option Z :=
  if object =? 0 then Some 0
  else
    span ← NX_PageToSpan (page_cache h) (NX_PAGE_ALIGNDOWN object);
    if span =? 0 then Some 0 else page_size_class h span.

Definition FreeSmallObject (h : Heap) (span object : Z) : option (Heap * NX_Error) :=
  sizeClass ← page_size_class h span;
  c ← SizeToCache h sizeClass;
  c ← c;
  PutFreeSmallCacheObject h c span object.

Definition NX_HeapFree (h : Heap) (object : Z) : option (Heap * NX_Error) :=
  if object =? 0 then Some (h, NX_EINVAL)
  else
    span ← NX_PageToSpan (page_cache h) (NX_PAGE_ALIGNDOWN object);
    if span =? 0 then Some (h, NX_EINVAL)
    else
      sizeClass ← NX_HeapGetObjectSize h object;
      if sizeClass =? 0 then Some (h, NX_EFAULT)
      else if sizeClass >? MAX_SMALL_OBJECT_SIZE then
        if sizeClass >? MAX_MIDDLE_OBJECT_SIZE then
          '(pc, err) ← NX_PageCacheFree (page_cache h) span;
          Some (with_page_cache h pc, err)
        else
          let v := middleSizeCache h in
          if u64 (objectFreeCount v + 1) >=? MAX_MIDDLE_OBJECT_THRESOLD then
            h ← PageNodeMarkSize h span 0;
            '(pc, err) ← NX_PageCacheFree (page_cache h) span;
            Some (with_page_cache h pc, err)
          else
            h ← set_cache h Middle (mkHeapCache (span :: objectFreeList v) (classSize v) (u64 (objectFreeCount v + 1)));
            Some (h, NX_EOK)
      else FreeSmallObject h span object.

Definition __HeapFreeSatety (h : Heap) (object : Z) : option (Heap * Z * NX_Error) :=
  '(h, err) ← NX_HeapFree h object;
  Some (h, if is_ok err then 0 else object, err).

(** ** The size classes *)
Definition class_sizes : list Z :=
  16 :: ((fun i => 16 * i) <$> seqZ 2 7) ++
  mjoin ((fun o => (fun i => 2 ^ o + i * 2 ^ (o - 3)) <$> seqZ 1 8) <$> seqZ 7 11).

Definition fresh_class (sz : Z) : NX_HeapSizeClass := mkSizeClass sz (HeapCacheInitOne sz).

(** The array after initialisation: 16 bytes, steps of 16 up to 128, then eight
    classes per power of two up to 256 KB. *)
Lemma NX_HeapCacheInit_classes c :
  NX_HeapCacheInit c = Some (mkHeap (fresh_class <$> class_sizes) (HeapCacheInitOne 0) ∅ c).
Proof. unfold NX_HeapCacheInit, HeapSizeClassInit. vm_compute. reflexivity. Qed.

Fixpoint class_index (l : list Z) (index size : Z) : option Z :=
  match l with
  | [] => None
  | sz :: l => if sz >=? size then Some index else class_index l (index + 1) size
  end.

Lemma SizeToCache_loop_index l : forall i s,
  SizeToCache_loop l i s = Class <$> class_index (size <$> l) i s.
Proof. induction l as [|e l IH]; intros i s; cbn; [done|]. by destruct (_ >=? s). Qed.

(** Pages a header and [m] objects of a class take. *)
Definition header_objects (sz : Z) : Z := NX_DIV_ROUND_UP sizeof_NX_HeapSmallCacheSystem sz.

Definition request_fits (s : Z) : bool :=
  let k := SizeToPageCount s in
  match class_index class_sizes 0 s with
  | Some i =>
      match zlookup class_sizes i with
      | Some sz => (s <=? sz) && (sz <=? MAX_SMALL_OBJECT_SIZE) && (1 <=? k) && (k <=? 52) &&
          (header_objects sz + 1 <=? k * NX_PAGE_SIZE / sz)
      | None => false
      end
  | None => false
  end.

(** Every request up to 104096 bytes has a class that is large enough, and its
    spans (at most 52 pages) hold a header and at least one object. *)
Lemma requests_fit s : 1 <= s <= 104096 -> (16 | s) -> request_fits s = true.
Proof.
  intros Hs [j ->].
  assert (Hall : forallb (fun j => request_fits (j * 16)) (seqZ 1 6506) = true) by (vm_compute; reflexivity).
  rewrite forallb_forall in Hall. apply Hall, list_elem_of_In, elem_of_seqZ. lia.
Qed.

Definition class_known (i sz : Z) : bool :=
  match class_index class_sizes 0 sz with Some j => i =? j | None => false end &&
  (16 <=? sz) && (sz <=? MAX_SMALL_OBJECT_SIZE) && (sz mod 16 =? 0) && (1 <=? header_objects sz) &&
  (56 <=? header_objects sz * sz) && (header_objects sz <=? 4).

Lemma classes_known i sz : zlookup class_sizes i = Some sz -> class_known i sz = true.
Proof.
  intros Hi. assert (Hall : forallb (fun i => match zlookup class_sizes i with
    | Some sz => class_known i sz | None => false end) (seqZ 0 96) = true) by (vm_compute; reflexivity).
  rewrite forallb_forall in Hall. specialize (Hall i). rewrite Hi in Hall. apply Hall.
  apply list_elem_of_In, elem_of_seqZ. apply zlookup_Some in Hi as [H0 Hi].
  apply lookup_lt_Some in Hi. change (length class_sizes) with 96%nat in Hi. lia.
Qed.

Lemma class_facts i sz : zlookup class_sizes i = Some sz ->
  class_index class_sizes 0 sz = Some i /\ 16 <= sz <= MAX_SMALL_OBJECT_SIZE /\ (16 | sz) /\
  1 <= header_objects sz <= 4 /\ 56 <= header_objects sz * sz.
Proof.
  intros Hi. pose proof (classes_known i sz Hi) as H. unfold class_known in H.
  destruct (class_index _ _ _) as [j|]; [|done]. bool2prop. subst j.
  split; [done|]. split; [lia|]. split; [by apply Z.mod_divide|]. lia.
Qed.

(** ** Size classes of pages *)

(** No operation of the allocator touches [sizeClass]. *)
Definition same_class (s s' : NX_BuddySystem) : Prop :=
  forall q, sizeClass <$> pmap s' !! q = sizeClass <$> pmap s !! q.

Lemma same_class_refl s : same_class s s.
Proof. done. Qed.

Lemma same_class_trans s1 s2 s3 : same_class s1 s2 -> same_class s2 s3 -> same_class s1 s3.
Proof. intros H1 H2 q. by rewrite H2. Qed.

Create HintDb classes discriminated.
#[local] Hint Resolve same_class_refl : classes.

Lemma upd_page_class s p f s' :
  upd_page s p f = Some s' -> (forall pg, sizeClass (f pg) = sizeClass pg) -> same_class s s'.
Proof.
  unfold upd_page. intros H Hf. inv_opt. intros q. cbn. destruct (decide (q = p)) as [->|].
  - rewrite lookup_insert_eq, E. cbn. by rewrite Hf.
  - by rewrite lookup_insert_ne.
Qed.

Ltac class_step :=
  match goal with
  | H : upd_page ?s _ _ = Some ?s' |- same_class _ ?t =>
      assert (same_class s s') by (eapply upd_page_class; [exact H|intros []; reflexivity]); clear H
  end.

Lemma BuddyAddPage_class s p s' : BuddyAddPage s p = Some s' -> same_class s s'.
Proof. unfold BuddyAddPage. intros H. inv_opt. class_step. done. Qed.

Lemma BuddyDelPage_class s p s' : BuddyDelPage s p = Some s' -> same_class s s'.
Proof.
  unfold BuddyDelPage. intros H. repeat (inv_opt; try case_match); subst; try done; class_step; done.
Qed.

Lemma PageSplit_loop_class fuel : forall s page i o s',
  PageSplit_loop fuel s page i o = Some s' -> same_class s s'.
Proof.
  induction fuel as [|fuel IH]; intros s page i o s' H; [done|]. rewrite PageSplit_loop_S in H.
  destruct (i >? o); [|inv_opt; done]. inv_opt.
  match goal with H : BuddyAddPage _ _ = _ |- _ => apply BuddyAddPage_class in H end.
  apply IH in H. class_step. eauto using same_class_trans.
Qed.

Lemma PageMerge_loop_class fuel : forall s page pfn o s' p' o',
  PageMerge_loop fuel s page pfn o = Some (s', p', o') -> same_class s s'.
Proof.
  induction fuel as [|fuel IH]; intros s page pfn o s' p' o' H; [done|]. rewrite PageMerge_loop_S in H.
  repeat (inv_opt; case_match); inv_opt; try done.
  match goal with H : BuddyDelPage _ _ = _ |- _ => apply BuddyDelPage_class in H end.
  apply IH in H. class_step. eauto using same_class_trans.
Qed.

Lemma PagePrepareUsed_class s p o s' a : PagePrepareUsed s p o = Some (s', a) -> same_class s s'.
Proof.
  unfold PagePrepareUsed, PageSplit. intros H. inv_opt.
  match goal with H : BuddyDelPage _ _ = _ |- _ => apply BuddyDelPage_class in H end.
  match goal with H : upd_page _ _ (set_reference _) = _ |- _ =>
    apply upd_page_class in H; [|by intros []] end.
  case_match; inv_opt; [|eauto using same_class_trans].
  match goal with H : PageSplit_loop _ _ _ _ _ = _ |- _ => apply PageSplit_loop_class in H end.
  match goal with H : upd_page _ _ (set_order _) = _ |- _ => apply upd_page_class in H; [|by intros []] end.
  eauto using same_class_trans.
Qed.

Lemma NX_BuddyAllocPage_class s c s' a : NX_BuddyAllocPage s c = Some (s', a) -> same_class s s'.
Proof.
  unfold NX_BuddyAllocPage. intros H. inv_opt. case_match; inv_opt; [done|].
  case_match; inv_opt; [|done]. by eapply PagePrepareUsed_class.
Qed.

Lemma PageMerge_class s p s' q : PageMerge s p = Some (s', q) -> same_class s s'.
Proof.
  unfold PageMerge. destruct (pmap s !! p) as [pg|]; [rewrite Some_bind|done].
  destruct (PageMerge_loop _ _ _ _ _) as [[[s1 p1] o1]|] eqn:E; [rewrite Some_bind|done].
  apply PageMerge_loop_class in E. intros H.
  destruct (upd_page s1 p1 _) as [s2|] eqn:E2; [rewrite Some_bind in H|done]. injection H as <- <-.
  apply upd_page_class in E2; [|by intros []]. eauto using same_class_trans.
Qed.

Lemma NX_BuddyFreePage_class s p s' e : NX_BuddyFreePage s p = Some (s', e) -> same_class s s'.
Proof.
  unfold NX_BuddyFreePage. destruct (nz p); [|done]. rewrite assert_true.
  destruct (NX_PAGE_INVALID_ADDR s p); [by intros [= <- <-]|].
  destruct (NX_PageFromPtr s p) as [page|]; [rewrite Some_bind|done].
  destruct (pmap s !! page) as [pg|]; [rewrite Some_bind|done].
  destruct (DoPageFree pg); [by intros [= <- <-]|].
  destruct (reference pg >? 0); [rewrite assert_true|done].
  destruct (upd_page s page _) as [s1|] eqn:E1; [rewrite Some_bind|done].
  apply upd_page_class in E1; [|by intros []].
  destruct (_ >? 0); [by intros [= <- <-]|].
  destruct (NX_PowInt 2 (order pg)) as [pow|]; [rewrite Some_bind|done]. cbv zeta.
  destruct (PageMerge _ page) as [[s2 q]|] eqn:E2; [rewrite Some_bind|done]. apply PageMerge_class in E2.
  destruct (BuddyAddPage s2 q) as [s3|] eqn:E3; [rewrite Some_bind|done]. apply BuddyAddPage_class in E3.
  intros [= <- <-]. eapply same_class_trans; [exact E1|]. eauto using same_class_trans.
Qed.

Definition class_of (c : PageCache) (q : Z) : option Z :=
  s ← get_zone (zones_of c) NX_PAGE_ZONE_NORMAL; sizeClass <$> pmap s !! q.

#[local] Arguments class_of : simpl never.

Definition same_classes (c c' : PageCache) : Prop := forall q, class_of c' q = class_of c q.

Lemma zone_update_class zs s s' q :
  get_zone zs NX_PAGE_ZONE_NORMAL = Some s -> same_class s s' ->
  (s0 ← get_zone (zinsert zs NX_PAGE_ZONE_NORMAL (Some s')) NX_PAGE_ZONE_NORMAL; sizeClass <$> pmap s0 !! q) =
  sizeClass <$> pmap s !! q.
Proof.
  intros Hs Hsc. assert (Hl : 0 <= NX_PAGE_ZONE_NORMAL < Z.of_nat (length zs)).
  { unfold get_zone in Hs. destruct (zlookup zs _) as [x|] eqn:E; [|done].
    apply zlookup_Some in E as [_ E]. apply lookup_lt_Some in E. unfold NX_PAGE_ZONE_NORMAL in *. lia. }
  unfold get_zone. rewrite zlookup_zinsert, decide_True, !Some_bind by lia || done. apply Hsc.
Qed.

Lemma PageAllocVirtual_class c k c' a : PageAllocVirtual c k = Some (c', a) -> same_classes c c'.
Proof.
  unfold PageAllocVirtual, NX_PageAllocInZone. intros H q. unfold class_of.
  destruct (zone_valid _ && _); [rewrite assert_true in H|done].
  destruct (get_zone (zones_of c) _) as [s|] eqn:Es; [rewrite Some_bind in H|done].
  destruct (NX_BuddyAllocPage s k) as [[s' x]|] eqn:E; [|done]. rewrite !Some_bind in H.
  rewrite Some_bind. apply NX_BuddyAllocPage_class in E.
  rewrite <- (zone_update_class _ _ _ q Es E).
  destruct (x =? 0); injection H as <- _; done.
Qed.

Lemma PageFreeVirtual_class c p c' : PageFreeVirtual c p = Some c' -> same_classes c c'.
Proof.
  unfold PageFreeVirtual, NX_PageFreeInZone. intros H q. unfold class_of.
  destruct (p =? 0); [by injection H as <-|].
  destruct (zone_valid _ && _); [rewrite assert_true in H|done].
  destruct (get_zone (zones_of c) _) as [s|] eqn:Es; [rewrite Some_bind in H|done].
  destruct (NX_BuddyFreePage s _) as [[s' x]|] eqn:E; [|done]. rewrite !Some_bind in H.
  rewrite Some_bind. apply NX_BuddyFreePage_class in E.
  rewrite <- (zone_update_class _ _ _ q Es E). by injection H as <-.
Qed.

Lemma put_zones c h l k : zones_of (put c h l k) = zones_of c.
Proof. by destruct h. Qed.

Lemma NX_PageCacheAlloc_class c k c' a : NX_PageCacheAlloc c k = Some (c', a) -> same_classes c c'.
Proof.
  unfold NX_PageCacheAlloc, __PageCacheAlloc. intros H.
  destruct (k =? 0); [by injection H as <- _|]. destruct (k >? _); [by injection H as <- _|].
  destruct (get_list c _) as [l|]; [rewrite Some_bind in H|done].
  destruct (get_count c _) as [m|]; [rewrite Some_bind in H|done]. destruct l as [|first l].
  - destruct (PageAllocVirtual c k) as [[c1 span]|] eqn:E; [rewrite Some_bind in H|done].
    apply PageAllocVirtual_class in E. destruct (span =? 0); [by injection H as <- _|].
    unfold MarkSpan in H. destruct (MarkSpan_loop _ _ _ _ _); [|done]. rewrite !Some_bind in H.
    injection H as <- _. exact E.
  - match type of H with mbind _ ?m = _ => destruct m as [[b|]|] eqn:Eb end; rewrite ?Some_bind in H; try done.
    injection H as <- _. intros q. unfold class_of. by rewrite put_zones.
Qed.

Lemma NX_PageCacheFree_class c p c' e : NX_PageCacheFree c p = Some (c', e) -> same_classes c c'.
Proof.
  unfold NX_PageCacheFree, __PageCacheFree. intros H.
  destruct (p =? 0); [by injection H as <- _|].
  destruct (NX_PageToSpan c p) as [span|]; [rewrite Some_bind in H|done].
  destruct (span =? 0); [by injection H as <- _|].
  destruct (NX_SpanToCount c span) as [k|]; [rewrite Some_bind in H|done].
  destruct (k =? 0); [by injection H as <- _|]. cbv zeta in H.
  destruct (get_list c _) as [l|]; [rewrite Some_bind in H|done].
  destruct (get_count c _) as [m|]; [rewrite Some_bind in H|done].
  destruct (u64 m >=? _).
  - unfold ClearSpan in H. destruct (ClearSpan_loop _ _ _); [|done]. rewrite !Some_bind in H.
    destruct (PageFreeVirtual _ span) as [c1|] eqn:E; [rewrite Some_bind in H|done].
    apply PageFreeVirtual_class in E. injection H as <- _. exact E.
  - injection H as <- _. intros q. unfold class_of. by rewrite put_zones.
Qed.

Lemma set_sizeClass_represents s n st z p o t v :
  represents s n st z -> z.1 !! p = Some (o, t) ->
  exists s', upd_page s p (set_sizeClass v) = Some s' /\ represents s' n st z /\
    forall q, sizeClass <$> pmap s' !! q = if decide (q = p) then Some v else sizeClass <$> pmap s !! q.
Proof.
  intros (W & Hn & Hst & Hu & HA) Hp. pose proof (proj1 (HA p o t) Hp) as [_ Ha].
  destruct (hd_block s n 0 0 p o W (ahd_hd _ _ _ _ Ha) (not_inh00 p)) as (Ho & _ & _ & Hd & _).
  pose proof (wh_ref _ _ _ _ W p o t (not_inh00 p) Ha) as Hr.
  destruct (open_alloc s n p o t W Ha) as [W1 HA1]. destruct Ha as (pg & Hpg & Hor & _ & Hfr & Hrf).
  rewrite (upd_page_eq _ _ _ _ Hpg). eexists. split; [reflexivity|].
  destruct (close_alloc s n p o pg (set_sizeClass v pg) (usedPage s) W1) as [W2 HA2]; try done.
  { by rewrite <- Hrf in Hr. }
  split.
  - split; [by destruct s|]. split; [done|]. split; [done|]. split; [done|].
    intros q r x. rewrite HA. change (allocs (with_map _ _) 0 0 q r x) with
      (allocs (with_used (with_map s (<[p := set_sizeClass v pg]> (pmap s))) (usedPage s)) 0 0 q r x).
    rewrite HA2, HA1. cbn [reference set_sizeClass]. rewrite Hrf.
    destruct (decide (q = p)) as [->|]; [|naive_solver].
    rewrite <- HA, Hp. naive_solver.
  - intros q. cbn. case_decide; subst; [by rewrite lookup_insert_eq|by rewrite lookup_insert_ne].
Qed.

Section marking.
Context (c : PageCache) (n st : Z) (z : zone) (S : spans).
Hypothesis OK : cache_ok c n st z S.

Lemma zone_mark p k b v :
  S !! p = Some (k, b) ->
  exists s s', get_zone (zones_of c) NX_PAGE_ZONE_NORMAL = Some s /\
    NX_PageFromPtr s (span_addr st p) = Some p /\ upd_page s p (set_sizeClass v) = Some s' /\
    let c' := with_zones c (zinsert (zones_of c) NX_PAGE_ZONE_NORMAL (Some s')) in
    cache_ok c' n st z S /\ forall q, class_of c' q = if decide (q = p) then Some v else class_of c q.
Proof using OK.
  intros Hp. destruct (ok_zone _ _ _ _ _ OK) as (s & Hlen & Hs & R).
  destruct (ok_span _ _ _ _ _ OK p k b Hp) as [_ Ha].
  destruct (set_sizeClass_represents s n st z p _ _ v R Ha) as (s' & Hupd & R' & Hc).
  assert (Hs' : get_zone (zinsert (zones_of c) NX_PAGE_ZONE_NORMAL (Some s')) NX_PAGE_ZONE_NORMAL = Some s').
  { unfold get_zone, NX_PAGE_ZONE_NORMAL. by rewrite zlookup_zinsert by lia. }
  exists s, s'. split; [done|]. split.
  { pose proof (span_inside c n _ z S OK p k b Hp) as [Hp0 _].
    pose proof R as (W & _ & <- & _). by eapply NX_PageFromPtr_spec. }
  split; [done|]. split.
  - constructor; try apply OK. exists s'. cbn. rewrite length_zinsert. done.
  - intros q. unfold class_of. cbn [zones_of with_zones]. rewrite Hs', Hs, !Some_bind. apply Hc.
Qed.

Lemma class_of_page p : 0 <= p < n ->
  exists s, get_zone (zones_of c) NX_PAGE_ZONE_NORMAL = Some s /\
    NX_PageFromPtr s (span_addr st p) = Some p /\ class_of c p = sizeClass <$> pmap s !! p.
Proof using OK.
  intros Hp. destruct (ok_zone _ _ _ _ _ OK) as (s & Hlen & Hs & R). exists s. split; [done|].
  split; [|by unfold class_of; rewrite Hs].
  pose proof R as (W & _ & <- & _). eapply NX_PageFromPtr_spec; [done|lia].
Qed.

Lemma ok_pageCount p k v :
  S !! p = Some (k, true) -> cache_ok (with_pageCount c (<[span_addr st p := v]> (pageCount c))) n st z S.
Proof using OK.
  intros Hp. constructor; try apply OK. intros q j Hq. cbn. rewrite lookup_insert_ne; [by apply OK|].
  intros E%span_addr_inj. congruence.
Qed.
End marking.

Lemma zone_of_get zs zone s : get_zone zs zone = Some s -> zlookup zs zone = Some (Some s).
Proof. unfold get_zone. destruct (zlookup zs zone) as [[]|]; cbn; congruence. Qed.

Lemma PageNodeMarkSize_spec h n st z S p k b v :
  cache_ok (page_cache h) n st z S -> S !! p = Some (k, b) ->
  exists c', PageNodeMarkSize h (span_addr st p) v = Some (with_page_cache h c') /\
    cache_ok c' n st z S /\
    forall q, class_of c' q = if decide (q = p) then Some v else class_of (page_cache h) q.
Proof.
  intros OK Hp. destruct (zone_mark _ n st z S OK p k b v Hp) as (s & s' & Hs & Hptr & Hupd & OK' & Hc).
  eexists. split; [|split; [exact OK'|exact Hc]]. unfold PageNodeMarkSize, NX_PageZoneGetBuddySystem.
  change (zone_valid NX_PAGE_ZONE_NORMAL) with true. rewrite assert_true, (zone_of_get _ _ _ Hs).
  rewrite !Some_bind, Hptr, Some_bind, Hupd. done.
Qed.

Lemma page_size_class_spec h n st z S p :
  cache_ok (page_cache h) n st z S -> 0 <= p < n ->
  page_size_class h (span_addr st p) = class_of (page_cache h) p.
Proof.
  intros OK Hp. destruct (class_of_page _ n st z S OK p Hp) as (s & Hs & Hptr & ->).
  unfold page_size_class, NX_PageZoneGetBuddySystem.
  change (zone_valid NX_PAGE_ZONE_NORMAL) with true. rewrite assert_true, (zone_of_get _ _ _ Hs).
  rewrite !Some_bind, Hptr, Some_bind. by destruct (pmap s !! p).
Qed.

(** A span of fewer than 128 pages has exactly the pages asked for. *)
Lemma small_span_alloc c n st z S k :
  cache_ok c n st z S -> 1 <= k < 128 ->
  exists c' a, NX_PageCacheAlloc c k = Some (c', a) /\ same_classes c c' /\
    ((a = 0 /\ cstep n st (z, S) (SpanAlloc k) (Ptr 0) (z, S) /\ cache_ok c' n st z S) \/
     exists p z', a = span_addr st p /\ (forall j, S !! p <> Some (j, true)) /\
       cache_ok c' n st z' (<[p := (k, true)]> S)).
Proof.
  intros OK Hk. destruct (PageCacheAlloc_step c n st z S k OK ltac:(lia)) as (c' & a & z' & S' & Hrun & Hstep & OK').
  exists c', a. split; [done|]. split; [by eapply NX_PageCacheAlloc_class|].
  inversion Hstep; subst.
  - left. done.
  - left. done.
  - right. eexists _, _. split; [reflexivity|]. split; [|exact OK']. congruence.
  - right. match goal with H : (?p, (?j, false)) ∈ _ |- _ =>
      apply elem_of_waiting_of in H as (Hp & _ & Hs); assert (j = k) as -> end.
    { unfold select, SMALL_SPAN_PAGES_MAX in Hs. rewrite (Z.geb_leb k), (proj2 (Z.leb_gt 128 k)) in Hs by lia.
      destruct (j >=? 128); congruence. }
    eexists _, _. split; [reflexivity|]. split; [|exact OK']. congruence.
Qed.

Lemma held_span_free c n st z S p k :
  cache_ok c n st z S -> S !! p = Some (k, true) ->
  exists c' z' S', NX_PageCacheFree c (span_addr st p) = Some (c', NX_EOK) /\ same_classes c c' /\
    cache_ok c' n st z' S' /\ forall q, q <> p -> S' !! q = S !! q.
Proof.
  intros OK Hp. pose proof (span_inside c n st z S OK p k true Hp) as (_ & _ & Hk).
  assert (Hc : covers S p p k true) by (split; [done|lia]).
  destruct (PageCacheFree_live c n st z S p p k OK Hc) as (c' & z' & S' & Hrun & Hstep & OK').
  exists c', z', S'. split; [done|]. split; [by eapply NX_PageCacheFree_class|]. split; [done|].
  intros q Hq. inversion Hstep as [| | | | | |z0 S0 q0 p0 k0 Hc0|z0 z1 S0 q0 p0 k0 Hc0]; subst;
    match goal with H : span_addr _ _ = span_addr _ _ |- _ => apply span_addr_inj in H; subst q0 end;
    destruct (covers_unique c n st _ S OK p p0 k0 true p k true Hc0 Hc) as (-> & _).
  - by rewrite lookup_insert_ne.
  - by rewrite lookup_delete_ne.
Qed.

(** ** The invariant

    [O] maps the live objects of the size classes to their class size. *)
Definition slot (a sz j : Z) : Z := a + (header_objects sz + j) * sz.
Definition slots (a sz m : Z) : list Z := slot a sz <$> seqZ 0 m.

(** A span of a class: its header counts its free list, which holds the slots
    that are not live. *)
Definition heap_span (h : Heap) (st : Z) (S : spans) (O : gmap Z Z) (sz a : Z) : Prop :=
  exists p k s, a = span_addr st p /\ S !! p = Some (k, true) /\ systems h !! a = Some s /\
    class_of (page_cache h) p = Some sz /\ 1 <= maxObjects s /\
    (header_objects sz + maxObjects s) * sz <= k * NX_PAGE_SIZE /\
    NoDup (sys_objectFreeList s) /\ sys_objectFreeCount s = Z.of_nat (length (sys_objectFreeList s)) /\
    forall x, x ∈ sys_objectFreeList s <-> x ∈ slots a sz (maxObjects s) /\ O !! x = None.

Definition in_span (h : Heap) (sz a x : Z) : Prop :=
  exists s, systems h !! a = Some s /\ x ∈ slots a sz (maxObjects s).

Record heap_ok (h : Heap) (n st : Z) (z : zone) (S : spans) (O : gmap Z Z) : Prop := {
  hk_cache : cache_ok (page_cache h) n st z S;
  hk_sizes : size <$> cacheSizeAarray h = class_sizes;
  hk_class i e : zlookup (cacheSizeAarray h) i = Some e ->
    classSize (cache e) = size e /\ NoDup (objectFreeList (cache e)) /\
    objectFreeCount (cache e) = Z.of_nat (length (objectFreeList (cache e))) /\
    forall a, a ∈ objectFreeList (cache e) -> heap_span h st S O (size e) a;
  hk_live x sz : O !! x = Some sz -> exists i e a, zlookup (cacheSizeAarray h) i = Some e /\ size e = sz /\
    a ∈ objectFreeList (cache e) /\ in_span h sz a x
}.

Lemma elem_of_slots a sz m x : x ∈ slots a sz m <-> exists j, 0 <= j < m /\ x = slot a sz j.
Proof.
  unfold slots. rewrite list_elem_of_fmap. split.
  - intros (j & -> & Hj%elem_of_seqZ). exists j. split; [lia|done].
  - intros (j & Hj & ->). exists j. split; [done|]. apply elem_of_seqZ. lia.
Qed.

Lemma NoDup_slots a sz m : 0 < sz -> NoDup (slots a sz m).
Proof.
  intros Hsz. apply NoDup_fmap_2; [|apply NoDup_seqZ]. intros i j E. unfold slot in E. nia.
Qed.

Lemma length_slots a sz m : length (slots a sz m) = Z.to_nat m.
Proof. unfold slots. by rewrite length_fmap, length_seqZ. Qed.

Section invariant.
Context (h : Heap) (n st : Z) (z : zone) (S : spans) (O : gmap Z Z).
Hypothesis OK : heap_ok h n st z S O.

Lemma class_size i e : zlookup (cacheSizeAarray h) i = Some e -> zlookup class_sizes i = Some (size e).
Proof using OK.
  intros [Hi He]%zlookup_Some. rewrite <- (hk_sizes _ _ _ _ _ _ OK). apply zlookup_Some. split; [done|].
  by rewrite list_lookup_fmap, He.
Qed.

Lemma class_size_facts i e : zlookup (cacheSizeAarray h) i = Some e ->
  16 <= size e <= MAX_SMALL_OBJECT_SIZE /\ (16 | size e) /\ 1 <= header_objects (size e) <= 4 /\
  56 <= header_objects (size e) * size e.
Proof using OK. intros Hi%class_size. by destruct (class_facts _ _ Hi) as (_ & ?). Qed.

(** Two classes of the same size are the same class. *)
Lemma class_same_size i e j e' :
  zlookup (cacheSizeAarray h) i = Some e -> zlookup (cacheSizeAarray h) j = Some e' -> size e = size e' -> i = j /\ e = e'.
Proof using OK.
  intros Hi Hj E. destruct (class_facts _ _ (class_size _ _ Hi)) as [H1 _].
  destruct (class_facts _ _ (class_size _ _ Hj)) as [H2 _]. rewrite E, H2 in H1. injection H1 as ->.
  split; [done|]. congruence.
Qed.

(** The slots of a span lie in its pages, behind the header. *)
Lemma slot_in_span sz a x s p k :
  16 <= sz -> 56 <= header_objects sz * sz -> a = span_addr st p -> (header_objects sz + maxObjects s) * sz <= k * NX_PAGE_SIZE ->
  x ∈ slots a sz (maxObjects s) -> a + 56 <= x /\ x + sz <= a + k * NX_PAGE_SIZE.
Proof using.
  intros Hsz Hh -> Hroom (j & Hj & ->)%elem_of_slots. unfold slot. nia.
Qed.

Lemma page_of_address p k x b :
  S !! p = Some (k, b) -> span_addr st p <= x < span_addr st p + k * NX_PAGE_SIZE ->
  covers S ((x - st) / NX_PAGE_SIZE) p k b.
Proof using.
  intros Hp Hx. split; [done|]. unfold span_addr, NX_PAGE_SIZE in *. zlia.
Qed.

Lemma span_of_address p k b p' k' b' x :
  S !! p = Some (k, b) -> S !! p' = Some (k', b') ->
  span_addr st p <= x < span_addr st p + k * NX_PAGE_SIZE ->
  span_addr st p' <= x < span_addr st p' + k' * NX_PAGE_SIZE -> p = p'.
Proof using OK.
  intros Hp Hp' Hx Hx'. pose proof (page_of_address p k x b Hp Hx) as Hc.
  pose proof (page_of_address p' k' x b' Hp' Hx') as Hc'.
  by destruct (covers_unique _ _ _ _ _ (hk_cache _ _ _ _ _ _ OK) _ _ _ _ _ _ _ Hc Hc').
Qed.

(** An address is a slot of one span only. *)
Lemma slot_unique i e a j e' a' x :
  zlookup (cacheSizeAarray h) i = Some e -> a ∈ objectFreeList (cache e) -> in_span h (size e) a x ->
  zlookup (cacheSizeAarray h) j = Some e' -> a' ∈ objectFreeList (cache e') -> in_span h (size e') a' x ->
  a = a' /\ i = j /\ e = e'.
Proof using OK.
  intros Hi Ha (s & Hs & Hx) Hj Ha' (s' & Hs' & Hx').
  destruct (hk_class _ _ _ _ _ _ OK i e Hi) as (_ & _ & _ & Hsp).
  destruct (hk_class _ _ _ _ _ _ OK j e' Hj) as (_ & _ & _ & Hsp').
  destruct (Hsp a Ha) as (p & k & s1 & -> & Hp & Hs1 & Hc & Hm & Hroom & _).
  destruct (Hsp' a' Ha') as (p' & k' & s2 & -> & Hp' & Hs2 & Hc' & Hm' & Hroom' & _).
  assert (s1 = s) as -> by congruence. assert (s2 = s') as -> by congruence.
  destruct (class_size_facts i e Hi) as (Hsz & _ & _ & Hh). destruct (class_size_facts j e' Hj) as (Hsz' & _ & _ & Hh').
  destruct (slot_in_span (size e) _ x s p k (proj1 Hsz) Hh eq_refl Hroom Hx).
  destruct (slot_in_span (size e') _ x s' p' k' (proj1 Hsz') Hh' eq_refl Hroom' Hx').
  assert (p = p') as -> by (apply (span_of_address p k true p' k' true x); [exact Hp|exact Hp'|lia..]).
  split; [done|]. apply (class_same_size i e j e' Hi Hj). congruence.
Qed.

(** A span is on the list of one class only. *)
Lemma span_class i e j e' a :
  zlookup (cacheSizeAarray h) i = Some e -> a ∈ objectFreeList (cache e) ->
  zlookup (cacheSizeAarray h) j = Some e' -> a ∈ objectFreeList (cache e') -> i = j /\ e = e'.
Proof using OK.
  intros Hi Ha Hj Ha'. destruct (hk_class _ _ _ _ _ _ OK i e Hi) as (_ & _ & _ & Hsp).
  destruct (hk_class _ _ _ _ _ _ OK j e' Hj) as (_ & _ & _ & Hsp').
  destruct (Hsp a Ha) as (p & k & s & -> & _ & _ & Hc & _).
  destruct (Hsp' _ Ha') as (q & k' & s' & E & _ & _ & Hc' & _). apply span_addr_inj in E as <-.
  apply (class_same_size i e j e' Hi Hj). congruence.
Qed.

(** The number of spans of a class. *)
Lemma class_list_length i e : zlookup (cacheSizeAarray h) i = Some e ->
  Z.of_nat (length (objectFreeList (cache e))) <= n.
Proof using OK.
  intros Hi. destruct (hk_class _ _ _ _ _ _ OK i e Hi) as (_ & Hnd & _ & Hsp).
  pose proof (ok_bounds _ _ _ _ _ (hk_cache _ _ _ _ _ _ OK)) as (Hn & _).
  rewrite <- (length_fmap (fun a => (a - st) / NX_PAGE_SIZE)). apply bounded_length; [lia| |].
  - apply NoDup_fmap_2_strong; [|done]. intros a b Ha Hb E.
    destruct (Hsp a Ha) as (p & k & s & -> & _). destruct (Hsp b Hb) as (q & k' & s' & -> & _).
    unfold span_addr, NX_PAGE_SIZE in *. f_equal. replace (st + p * 4096 - st) with (p * 4096) in E by lia.
    replace (st + q * 4096 - st) with (q * 4096) in E by lia. rewrite !Z.div_mul in E by lia. by rewrite E.
  - intros q (a & -> & Ha)%list_elem_of_fmap. destruct (Hsp a Ha) as (p & k & s & -> & Hp & _).
    pose proof (span_inside _ _ _ _ _ (hk_cache _ _ _ _ _ _ OK) p k true Hp).
    unfold span_addr, NX_PAGE_SIZE. replace (st + p * 4096 - st) with (p * 4096) by lia.
    rewrite Z.div_mul by lia. lia.
Qed.
End invariant.

(** ** Changes of one span *)

Definition same_but (O O' : gmap Z Z) (xs : list Z) : Prop := forall x, x ∉ xs -> O' !! x = O !! x.

(** A span whose free list follows the new set of live objects. *)
Lemma heap_ok_system h n st z S O O' i e a s s' :
  heap_ok h n st z S O -> zlookup (cacheSizeAarray h) i = Some e -> a ∈ objectFreeList (cache e) ->
  systems h !! a = Some s -> maxObjects s' = maxObjects s ->
  NoDup (sys_objectFreeList s') -> sys_objectFreeCount s' = Z.of_nat (length (sys_objectFreeList s')) ->
  (forall x, x ∈ sys_objectFreeList s' <-> x ∈ slots a (size e) (maxObjects s) /\ O' !! x = None) ->
  same_but O O' (slots a (size e) (maxObjects s)) ->
  (forall x sz, x ∈ slots a (size e) (maxObjects s) -> O' !! x = Some sz -> sz = size e) ->
  heap_ok (with_system h a s') n st z S O'.
Proof.
  intros OK Hi Ha Hs Hm Hnd Hcnt Hfree Hsame Hsz. constructor; cbn; try apply OK.
  - intros j e' Hj. destruct (hk_class _ _ _ _ _ _ OK j e' Hj) as (Hcs & Hn & Hc & Hsp).
    split; [done|]. split; [done|]. split; [done|]. intros a' Ha'.
    destruct (Hsp a' Ha') as (p & k & s1 & -> & Hp & Hs1 & Hcl & Hm1 & Hroom & Hnd1 & Hcnt1 & Hfree1).
    destruct (decide (span_addr st p = a)) as [<-|Hne].
    + assert (s1 = s) as -> by congruence. assert (size e' = size e) as Hse.
      { destruct (hk_class _ _ _ _ _ _ OK i e Hi) as (_ & _ & _ & Hspe).
        destruct (Hspe _ Ha) as (p1 & ? & ? & E & _ & _ & Hcl1 & _). apply span_addr_inj in E as <-. congruence. }
      exists p, k, s'. rewrite Hm, Hse. cbn. rewrite lookup_insert_eq. rewrite Hse in Hcl, Hroom. done.
    + exists p, k, s1. cbn. rewrite lookup_insert_ne by done. split_and!; try done. intros x. rewrite Hfree1.
      apply and_iff_from_l || idtac. split; intros [Hx HO]; (split; [done|]);
        [rewrite Hsame; [done|]|rewrite <- Hsame; [done|]];
        intros Hx2; apply Hne; eapply (slot_unique h n st z S O OK j e' _ i e a x); try done;
        eexists; done.
  - intros x sz Hx. destruct (decide (x ∈ slots a (size e) (maxObjects s))) as [Hin|Hnin].
    + exists i, e, a. rewrite (Hsz x sz Hin Hx). split_and!; try done. exists s'. cbn.
      rewrite lookup_insert_eq, Hm. done.
    + rewrite Hsame in Hx by done. destruct (hk_live _ _ _ _ _ _ OK x sz Hx) as (j & e' & a' & Hj & He & Ha' & s1 & Hs1 & Hx1).
      exists j, e', a'. split_and!; try done. exists (if decide (a' = a) then s' else s1). cbn.
      destruct (decide (a' = a)) as [->|Hne].
      * rewrite lookup_insert_eq, Hm. split; [done|]. congruence.
      * by rewrite lookup_insert_ne.
Qed.

(** The array after the entry of one class has changed. *)
Lemma class_update l i e v :
  zlookup l i = Some e -> size <$> zinsert l i (mkSizeClass (size e) v) = size <$> l /\
  forall j e', zlookup (zinsert l i (mkSizeClass (size e) v)) j = Some e' ->
    (j = i /\ e' = mkSizeClass (size e) v) \/ (j <> i /\ zlookup l j = Some e').
Proof.
  intros Hi. apply zlookup_Some in Hi as [H0 Hi]. pose proof (lookup_lt_Some _ _ _ Hi). split.
  - unfold zinsert. rewrite list_fmap_insert. apply list_insert_id. by rewrite list_lookup_fmap, Hi.
  - intros j e' Hj. pose proof (proj1 (zlookup_Some _ _ _) Hj) as [Hj0 _].
    rewrite zlookup_zinsert in Hj by lia. case_decide; [left|right; done]. split; [done|congruence].
Qed.

(** A new span in front of the list of its class. *)
Definition pushed (e : NX_HeapSizeClass) (a : Z) : NX_HeapSizeClass :=
  mkSizeClass (size e) (mkHeapCache (a :: objectFreeList (cache e)) (classSize (cache e))
    (u64 (objectFreeCount (cache e) + 1))).

Definition push_span (h : Heap) (i : Z) (e : NX_HeapSizeClass) (a : Z) (s : NX_HeapSmallCacheSystem) (c' : PageCache) : Heap :=
  mkHeap (zinsert (cacheSizeAarray h) i (pushed e a)) (middleSizeCache h) (<[a := s]> (systems h)) c'.

Section push.
Context (h : Heap) (n st : Z) (z : zone) (S : spans) (O : gmap Z Z).
Context (z' : zone) (c' : PageCache) (i : Z) (e : NX_HeapSizeClass) (p k : Z) (s : NX_HeapSmallCacheSystem).
Hypotheses (OK : heap_ok h n st z S O) (Hi : zlookup (cacheSizeAarray h) i = Some e).
Hypotheses (Hc : cache_ok c' n st z' (<[p := (k, true)]> S)) (Hp : forall j, S !! p <> Some (j, true)).
Hypothesis Hcl : forall q, class_of c' q = if decide (q = p) then Some (size e) else class_of (page_cache h) q.
Hypotheses (Hm : 1 <= maxObjects s) (Hroom : (header_objects (size e) + maxObjects s) * size e <= k * NX_PAGE_SIZE).
Hypothesis Hfree : sys_objectFreeList s = slots (span_addr st p) (size e) (maxObjects s).
Hypothesis Hcnt : sys_objectFreeCount s = maxObjects s.
Let h' : Heap := push_span h i e (span_addr st p) s c'.
Let S' : spans := <[p := (k, true)]> S.

Lemma push_old j e' a :
  zlookup (cacheSizeAarray h) j = Some e' -> a ∈ objectFreeList (cache e') ->
  a <> span_addr st p /\ heap_span h' st S' O (size e') a.
Proof using OK Hp Hcl.
  intros Hj Ha. destruct (hk_class _ _ _ _ _ _ OK j e' Hj) as (_ & _ & _ & Hsp).
  destruct (Hsp a Ha) as (q & k' & s1 & -> & Hq & Hs1 & Hcl1 & Hrest).
  assert (q <> p) by (intros ->; by destruct (Hp k')).
  assert (span_addr st q <> span_addr st p) by (by intros E%span_addr_inj).
  split; [done|]. exists q, k', s1. subst h' S'. cbn. rewrite !lookup_insert_ne, Hcl, decide_False by done. done.
Qed.

Lemma push_not_live x : x ∈ slots (span_addr st p) (size e) (maxObjects s) -> O !! x = None.
Proof using OK Hi Hc Hp Hcl Hm Hroom Hfree Hcnt.
  intros Hx. destruct (O !! x) as [sz|] eqn:Hx0; [|done]. exfalso.
  destruct (hk_live _ _ _ _ _ _ OK x sz Hx0) as (j & e' & a & Hj & <- & Ha & s1 & Hs1 & Hx1).
  destruct (push_old j e' a Hj Ha) as [Hne (q & k' & s2 & -> & Hq & Hs2 & _ & Hm2 & Hroom2 & _)].
  subst h' S'. cbn in Hs2. rewrite lookup_insert_ne in Hs2 by done. assert (s2 = s1) as -> by congruence.
  destruct (class_size_facts h n st z S O OK j e' Hj) as (Hsz' & _ & _ & Hh').
  destruct (class_size_facts h n st z S O OK i e Hi) as (Hsz & _ & _ & Hh).
  destruct (slot_in_span st (size e') _ x s1 q k' (proj1 Hsz') Hh' eq_refl Hroom2 Hx1).
  destruct (slot_in_span st (size e) _ x s p k (proj1 Hsz) Hh eq_refl Hroom Hx).
  assert (Hpk : <[p := (k, true)]> S !! p = Some (k, true)) by apply lookup_insert_eq.
  pose proof (page_of_address st _ p k x true Hpk ltac:(lia)) as C1.
  pose proof (page_of_address st _ q k' x true Hq ltac:(lia)) as C2.
  by destruct (covers_unique _ _ _ _ _ Hc _ _ _ _ _ _ _ C1 C2) as [-> _].
Qed.

Lemma push_new : heap_span h' st S' O (size e) (span_addr st p).
Proof using OK Hi Hc Hp Hcl Hm Hroom Hfree Hcnt.
  destruct (class_size_facts h n st z S O OK i e Hi) as (Hsz & _).
  pose proof push_not_live as Hnl.
  exists p, k, s. subst h' S'. cbn. rewrite !lookup_insert_eq, Hcl, decide_True by done.
  split_and!; try done; [rewrite Hfree; apply NoDup_slots; lia|rewrite Hcnt, Hfree, length_slots; lia|].
  intros x. rewrite Hfree. split; [|tauto]. intros Hx. split; [done|]. by apply Hnl.
Qed.

Lemma heap_ok_push : heap_ok h' n st z' S' O.
Proof using OK Hi Hc Hp Hcl Hm Hroom Hfree Hcnt.
  destruct (class_update _ i e (cache (pushed e (span_addr st p))) Hi) as [Hmap Hlook].
  constructor; [done|by rewrite <- (hk_sizes _ _ _ _ _ _ OK), <- Hmap| |].
  - intros j e' [[-> ->]|[Hne Hj]]%Hlook; cbn.
    + destruct (hk_class _ _ _ _ _ _ OK i e Hi) as (Hcs & Hn & Hc0 & _).
      pose proof (class_list_length h n st z S O OK i e Hi). pose proof (ok_bounds _ _ _ _ _ Hc) as (Hnb & _).
      split; [done|]. split; [apply NoDup_cons; split; [|done]; intros Hin; by destruct (push_old i e _ Hi Hin)|].
      split; [rewrite Hc0, u64_small by lia; lia|].
      intros a [->|Ha]%elem_of_cons; [exact push_new|by apply push_old with i].
    + destruct (hk_class _ _ _ _ _ _ OK j e' Hj) as (? & ? & ? & _). split_and!; try done.
      intros a Ha. by apply push_old with j.
  - intros x sz Hx. destruct (hk_live _ _ _ _ _ _ OK x sz Hx) as (j & e' & a & Hj & He & Ha & s1 & Hs1 & Hx1).
    destruct (push_old j e' a Hj Ha) as [Hne _].
    pose proof (proj1 (zlookup_Some _ _ _) Hi) as [H0 Hl%lookup_lt_Some].
    pose proof (proj1 (zlookup_Some _ _ _) Hj) as [Hj0 _].
    exists j, (if decide (j = i) then pushed e (span_addr st p) else e'), a. subst h'. cbn.
    rewrite zlookup_zinsert by lia.
    assert (in_span (push_span h i e (span_addr st p) s c') sz a x) by (exists s1; cbn; by rewrite lookup_insert_ne).
    destruct (decide (j = i)) as [->|Hji]; [|done].
    assert (e' = e) as -> by congruence. split_and!; try done. by right.
Qed.
End push.

(** ** Building a span *)
Lemma BuildSmallCacheSystem_loop_spec todo : forall s start sz,
  0 <= sys_objectFreeCount s -> sys_objectFreeCount s + Z.of_nat todo < 2 ^ 64 ->
  0 < sz -> 0 <= start -> start + Z.of_nat todo * sz < 2 ^ 64 ->
  BuildSmallCacheSystem_loop todo s start sz =
    mkSystem (sys_objectFreeList s ++ ((fun j => start + j * sz) <$> seqZ 0 (Z.of_nat todo)))
      (sys_objectFreeCount s + Z.of_nat todo) (maxObjects s).
Proof.
  induction todo as [|todo IH]; intros s start sz Hc0 Hc Hsz Hst He; cbn [BuildSmallCacheSystem_loop].
  - cbn. rewrite app_nil_r, Z.add_0_r. by destruct s.
  - rewrite (u64_small (start + sz)) by nia. rewrite IH; cbn [sys_objectFreeCount sys_objectFreeList maxObjects];
      rewrite ?u64_small by lia; try lia.
    f_equal; [|lia]. rewrite <- app_assoc. f_equal. rewrite (seqZ_cons 0 (Z.of_nat (Datatypes.S todo))) by lia.
    rewrite fmap_cons. cbn [app]. rewrite Z.mul_0_l, Z.add_0_r. f_equal.
    replace (Z.pred (Z.of_nat (Datatypes.S todo))) with (Z.of_nat todo) by lia.
    rewrite <- Z.add_1_l, <- (fmap_add_seqZ 1 0), <- list_fmap_compose. apply list_fmap_ext. intros _ j _. cbn. lia.
Qed.

Lemma BuildSmallCacheSystem_spec h n span k sz :
  0 < span -> span + k * NX_PAGE_SIZE < 2 ^ 64 -> 1 <= k -> n = k * NX_PAGE_SIZE / sz -> 16 <= sz ->
  1 <= header_objects sz <= 4 -> header_objects sz + 1 <= n ->
  exists s, BuildSmallCacheSystem h span n sz = Some (with_system h span s) /\
    maxObjects s = n - header_objects sz /\ sys_objectFreeCount s = maxObjects s /\
    sys_objectFreeList s = slots span sz (maxObjects s).
Proof.
  intros Hspan Hend Hk Hn Hsz Hh Hfit. unfold NX_PAGE_SIZE in *.
  assert (Hns : n * sz <= k * 4096) by (rewrite Hn; pose proof (Z.mul_div_le (k * 4096) sz ltac:(lia)); lia).
  unfold BuildSmallCacheSystem. fold (header_objects sz).
  assert (n < 2 ^ 60) by nia.
  rewrite (u64_small (n - header_objects sz)) by lia. rewrite (u64_small (header_objects sz * sz)) by nia.
  rewrite (u64_small (span + _)) by nia.
  rewrite BuildSmallCacheSystem_loop_spec; cbn [sys_objectFreeCount sys_objectFreeList maxObjects app]; try lia; [|nia..].
  eexists. rewrite !Z2Nat.id by lia. rewrite Z.geb_leb, (proj2 (Z.leb_le _ _)) by lia.
  rewrite assert_true, (proj2 (Z.eqb_eq _ _)), assert_true by lia. split; [reflexivity|]. cbn.
  split; [done|]. split; [done|]. unfold slots. apply list_fmap_ext. intros _ j _. unfold slot. lia.
Qed.

(** ** Allocation *)

(** The cache refuses a span of at most 52 pages. *)
Definition no_span (n st : Z) (z : zone) (S : spans) : Prop :=
  exists k, 1 <= k <= 52 /\ cstep n st (z, S) (SpanAlloc k) (Ptr 0) (z, S).

Lemma heap_ok_page_cache h n st z S O z' c' :
  heap_ok h n st z S O -> cache_ok c' n st z' S -> (forall q, class_of c' q = class_of (page_cache h) q) ->
  heap_ok (with_page_cache h c') n st z' S O.
Proof.
  intros OK Hc Hcl. constructor; [done|apply OK| |apply OK].
  intros i e Hi. destruct (hk_class _ _ _ _ _ _ OK i e Hi) as (? & ? & ? & Hsp).
  split_and!; try done. intros a Ha. destruct (Hsp a Ha) as (p & k & s & Hrest). exists p, k, s.
  cbn [page_cache with_page_cache]. rewrite Hcl. done.
Qed.

Lemma AllocSpan_spec h n st z S O i e k :
  heap_ok h n st z S O -> zlookup (cacheSizeAarray h) i = Some e -> 1 <= k <= 52 ->
  header_objects (size e) + 1 <= k * NX_PAGE_SIZE / size e ->
  exists h' err z' S', AllocSpan h (Class i) k (k * NX_PAGE_SIZE / size e) (size e) = Some (h', err) /\
    heap_ok h' n st z' S' O /\
    ((err = NX_ENOMEM /\ no_span n st z S) \/
     (err = NX_EOK /\ exists a s, zlookup (cacheSizeAarray h') i = Some (pushed e a) /\
        systems h' !! a = Some s /\ sys_objectFreeList s <> [])).
Proof.
  intros OK Hi Hk Hfit. destruct (class_size_facts h n st z S O OK i e Hi) as (Hsz & _ & Hh & _).
  destruct (small_span_alloc _ n st z S k (hk_cache _ _ _ _ _ _ OK) ltac:(lia)) as (c' & a & Hrun & Hcl & [H|H]);
    unfold AllocSpan; rewrite Hrun, Some_bind.
  - destruct H as (-> & Hstep & Hc'). eexists _, _, z, S. split; [reflexivity|].
    split; [by eapply heap_ok_page_cache|]. left. split; [done|]. by exists k.
  - destruct H as (p & z' & -> & Hp & Hc').
    assert (HSp : <[p := (k, true)]> S !! p = Some (k, true)) by apply lookup_insert_eq.
    pose proof (span_inside _ _ _ _ _ Hc' p k true HSp) as (Hp0 & Hpn & _).
    pose proof (ok_bounds _ _ _ _ _ Hc') as (Hn & Hst & Hend & _).
    destruct (addr_nonzero _ _ _ _ _ Hc' p ltac:(lia)) as (Hnz & _ & Hr). unfold nz in Hnz. apply negb_true_iff in Hnz.
    rewrite Hnz. pose proof (ok_pageCount _ _ _ _ _ Hc' p k k HSp) as Hc2.
    set (c2 := with_pageCount c' _) in *. cbv zeta. change (get_cache _ (Class i)) with (x ← zlookup (cacheSizeAarray h) i; Some (cache x)).
    rewrite Hi, !Some_bind. change (set_cache _ (Class i) ?v) with
      (x ← zlookup (cacheSizeAarray h) i;
       Some (mkHeap (zinsert (cacheSizeAarray h) i (mkSizeClass (size x) v)) (middleSizeCache h) (systems h) c2)).
    rewrite Hi, !Some_bind.
    destruct (BuildSmallCacheSystem_spec (mkHeap (zinsert (cacheSizeAarray h) i (pushed e (span_addr st p)))
        (middleSizeCache h) (systems h) c2) (k * NX_PAGE_SIZE / size e) (span_addr st p) k (size e))
      as (s & Hbuild & Hm & Hcnt & Hfree); [unfold span_addr, NX_PAGE_SIZE in *; lia..|done|lia|done|done|].
    unfold pushed in Hbuild. rewrite Hbuild, Some_bind.
    destruct (PageNodeMarkSize_spec (with_system (mkHeap (zinsert (cacheSizeAarray h) i (pushed e (span_addr st p)))
        (middleSizeCache h) (systems h) c2) (span_addr st p) s) n st z' _ p k true (size e) Hc2 HSp)
      as (c3 & Hmark & Hc3 & Hcl3).
    unfold pushed in Hmark. rewrite Hmark, Some_bind.
    exists (push_span h i e (span_addr st p) s c3), NX_EOK, z', (<[p := (k, true)]> S).
    split; [reflexivity|]. pose proof (Z.mul_div_le (k * NX_PAGE_SIZE) (size e) ltac:(lia)). split.
    + eapply heap_ok_push; try done; [|lia|rewrite Hm; nia]. intros q. rewrite Hcl3. case_decide; [done|]. apply Hcl.
    + right. split; [done|]. exists (span_addr st p), s. cbn. rewrite lookup_insert_eq.
      pose proof (proj1 (zlookup_Some _ _ _) Hi) as [H0 Hl%lookup_lt_Some].
      rewrite zlookup_zinsert, decide_True by lia || done. split_and!; try done.
      rewrite Hfree. intros E%(f_equal length). rewrite length_slots in E. cbn in E. lia.
Qed.

Lemma GetFreeSmallCacheSystem_spec h st S O sz l :
  (forall a, a ∈ l -> heap_span h st S O sz a) ->
  exists r, GetFreeSmallCacheSystem h l = Some r /\
    forall a, r = Some a -> a ∈ l /\ exists s x free, systems h !! a = Some s /\ sys_objectFreeList s = x :: free.
Proof.
  induction l as [|a l IH]; intros Hl; cbn [GetFreeSmallCacheSystem]; [by exists None|].
  destruct (Hl a ltac:(left)) as (p & k & s & -> & _ & Hs & _). rewrite Hs, Some_bind.
  destruct (sys_objectFreeList s) as [|x free] eqn:E.
  - destruct IH as (r & -> & Hr); [intros b Hb; apply Hl; by right|]. exists r. split; [done|].
    intros b Hb. destruct (Hr b Hb) as [? ?]. split; [by right|done].
  - eexists. split; [done|]. intros b [= <-]. split; [left|]. eauto.
Qed.

(** Taking the first free object of a span. *)
Lemma take_object h n st z S O i e a s x free :
  heap_ok h n st z S O -> zlookup (cacheSizeAarray h) i = Some e -> a ∈ objectFreeList (cache e) ->
  systems h !! a = Some s -> sys_objectFreeList s = x :: free ->
  exists h', GetFreeSmallCacheObject h a = Some (h', x) /\ O !! x = None /\
    heap_ok h' n st z S (<[x := size e]> O).
Proof.
  intros OK Hi Ha Hs Hfree. unfold GetFreeSmallCacheObject. rewrite Hs, Some_bind, Hfree.
  destruct (hk_class _ _ _ _ _ _ OK i e Hi) as (_ & _ & _ & Hsp).
  destruct (Hsp a Ha) as (p & k & s1 & Hap & Hp & Hs1 & _ & Hm & Hroom & Hnd & Hcnt & Hin).
  assert (s1 = s) as -> by congruence. rewrite Hfree in Hnd, Hcnt, Hin. apply NoDup_cons in Hnd as [Hx Hnd].
  destruct (proj1 (Hin x) ltac:(left)) as [Hxs HxO].
  destruct (class_size_facts h n st z S O OK i e Hi) as (Hsz & _ & Hh & _).
  pose proof (ok_bounds _ _ _ _ _ (hk_cache _ _ _ _ _ _ OK)) as (Hn & Hst & Hend & _).
  pose proof (span_inside _ _ _ _ _ (hk_cache _ _ _ _ _ _ OK) p k true Hp) as (_ & _ & Hk).
  assert (Hlen : (length (x :: free) <= length (slots a (size e) (maxObjects s)))%nat).
  { apply submseteq_length, NoDup_submseteq; [by apply NoDup_cons|]. intros y Hy. by apply Hin. }
  rewrite length_slots in Hlen. cbn [length] in *. unfold NX_PAGE_SIZE in *.
  eexists. split; [reflexivity|]. split; [done|].
  eapply heap_ok_system; [done..| | | | | |]; cbn.
  - done.
  - done.
  - rewrite Hcnt, u64_small; nia.
  - intros y. specialize (Hin y). rewrite elem_of_cons in Hin. split.
    + intros Hy. destruct (proj1 Hin ltac:(by right)) as [Hys HyO]. split; [done|].
      rewrite lookup_insert_ne; [done|]. by intros ->.
    + intros [Hys HyO]. destruct (decide (y = x)) as [->|Hne]; [by rewrite lookup_insert_eq in HyO|].
      rewrite lookup_insert_ne in HyO by done. destruct (proj2 Hin) as [|]; done.
  - intros y Hy. rewrite lookup_insert_ne; [done|]. by intros <-.
  - intros y sz Hys. destruct (decide (y = x)) as [->|Hne]; [rewrite lookup_insert_eq; congruence|].
    rewrite lookup_insert_ne by done. intros HyO.
    destruct (hk_live _ _ _ _ _ _ OK y sz HyO) as (j & e' & a' & Hj & He & Ha' & Hin').
    destruct (slot_unique h n st z S O OK i e a j e' a' y) as (_ & _ & <-); try done; [by exists s|by rewrite He].
Qed.

Lemma get_class h i e : zlookup (cacheSizeAarray h) i = Some e -> get_cache h (Class i) = Some (cache e).
Proof. intros Hi. unfold get_cache. by rewrite Hi. Qed.

(** A span that has just been built has a free object. *)
Lemma AllocSmallObject_new fuel h n st z S O i e a s k m :
  heap_ok h n st z S O -> zlookup (cacheSizeAarray h) i = Some (pushed e a) -> systems h !! a = Some s ->
  sys_objectFreeList s <> [] ->
  exists h' x, AllocSmallObject (Datatypes.S fuel) h (Class i) k m (size e) = Some (h', x) /\ O !! x = None /\
    heap_ok h' n st z S (<[x := size e]> O).
Proof.
  intros OK Hi Hs Hfree. destruct (sys_objectFreeList s) as [|x free] eqn:Ef; [done|].
  destruct (take_object h n st z S O i _ a s x free OK Hi ltac:(left) Hs Ef) as (h2 & Hrun & HO & OK2).
  cbn [AllocSmallObject]. rewrite (get_class _ _ _ Hi), Some_bind.
  cbn [cache pushed objectFreeList GetFreeSmallCacheSystem]. rewrite Hs, !Some_bind, Ef, Some_bind.
  exists h2, x. auto.
Qed.

Lemma class_not_empty h n st z S O i e :
  heap_ok h n st z S O -> zlookup (cacheSizeAarray h) i = Some e -> objectFreeList (cache e) <> [] ->
  (objectFreeCount (cache e) >? 0) = true.
Proof.
  intros OK Hi Hne. destruct (hk_class _ _ _ _ _ _ OK i _ Hi) as (_ & _ & -> & _).
  destruct (objectFreeList (cache e)); [done|]. cbn [length]. rewrite Z.gtb_ltb. apply Z.ltb_lt. lia.
Qed.

(** What a locked allocation in class [i] promises: null when the span cache
    refuses, else a new object of the class. *)
Definition allocates (n st : Z) (z : zone) (S : spans) (O : gmap Z Z) (sz : Z) (r : option (Heap * Z)) : Prop :=
  exists h' x z' S', r = Some (h', x) /\
    ((x = 0 /\ heap_ok h' n st z' S' O /\ no_span n st z S) \/
     (O !! x = None /\ heap_ok h' n st z' S' (<[x := sz]> O))).

Lemma AllocSmallObject_S fuel h c k m sz :
  AllocSmallObject (Datatypes.S fuel) h c k m sz =
    (v ← get_cache h c;
     system ← GetFreeSmallCacheSystem h (objectFreeList v);
     match system with
     | Some system => GetFreeSmallCacheObject h system
     | None =>
         '(h, err) ← AllocSpan h c k m sz;
         if is_ok err then
           v ← get_cache h c;
           assert (objectFreeCount v >? 0);;
           assert (negb (bool_decide (objectFreeList v = [])));;
           AllocSmallObject fuel h c k m sz
         else Some (h, 0)
     end).
Proof. done. Qed.

Lemma AllocSmallObject_spec h n st z S O i e k :
  heap_ok h n st z S O -> zlookup (cacheSizeAarray h) i = Some e -> 1 <= k <= 52 ->
  header_objects (size e) + 1 <= k * NX_PAGE_SIZE / size e ->
  allocates n st z S O (size e)
    (AllocSmallObject ALLOC_FUEL h (Class i) k (k * NX_PAGE_SIZE / size e) (size e)).
Proof.
  intros OK Hi Hk Hfit. unfold ALLOC_FUEL. rewrite AllocSmallObject_S.
  rewrite (get_class _ _ _ Hi), Some_bind. destruct (hk_class _ _ _ _ _ _ OK i e Hi) as (_ & _ & _ & Hsp).
  destruct (GetFreeSmallCacheSystem_spec h st S O _ _ Hsp) as (r & -> & Hr). rewrite Some_bind.
  destruct r as [a|].
  { destruct (Hr a eq_refl) as (Ha & s & x & free & Hs & Hfree).
    destruct (take_object h n st z S O i e a s x free) as (h' & Hrun & HO & OK'); try done.
    exists h', x, z, S. split; [exact Hrun|]. by right. }
  destruct (AllocSpan_spec h n st z S O i e k OK Hi Hk Hfit) as (h' & err & z' & S' & -> & OK' & [H|H]);
    rewrite Some_bind.
  { destruct H as [-> Hno]. exists h', 0, z', S'. split; [done|]. by left. }
  destruct H as (-> & a & s & Hi' & Hs & Hfree). change (is_ok NX_EOK) with true. cbv iota.
  rewrite (get_class _ _ _ Hi'), Some_bind, (class_not_empty h' n st z' S' O i _ OK' Hi') by done.
  rewrite assert_true, bool_decide_false by done. cbn [negb]. rewrite assert_true.
  destruct (AllocSmallObject_new 0 h' n st z' S' O i e a s k (k * NX_PAGE_SIZE / size e) OK' Hi' Hs Hfree)
    as (h2 & x & Hrun & HO & OK2). exists h2, x, z', S'. split; [exact Hrun|]. by right.
Qed.

Lemma HeapAlloc_locked_spec h n st z S O i e k :
  heap_ok h n st z S O -> zlookup (cacheSizeAarray h) i = Some e -> 1 <= k <= 52 ->
  header_objects (size e) + 1 <= k * NX_PAGE_SIZE / size e ->
  allocates n st z S O (size e) (HeapAlloc_locked h (Class i) k (k * NX_PAGE_SIZE / size e) (size e)).
Proof.
  intros OK Hi Hk Hfit. unfold HeapAlloc_locked. rewrite (get_class _ _ _ Hi), Some_bind.
  destruct (objectFreeList (cache e)) as [|a l] eqn:El.
  - destruct (AllocSpan_spec h n st z S O i e k OK Hi Hk Hfit) as (h' & err & z' & S' & -> & OK' & [H|H]);
      rewrite Some_bind.
    { destruct H as [-> Hno]. exists h', 0, z', S'. split; [done|]. by left. }
    destruct H as (-> & a & s & Hi' & Hs & Hfree). change (is_ok NX_EOK) with true. cbv iota.
    rewrite (get_class _ _ _ Hi'), Some_bind, (class_not_empty h' n st z' S' O i _ OK' Hi') by done.
    rewrite assert_true. cbn [cache pushed objectFreeList].
    destruct (AllocSmallObject_new 1 h' n st z' S' O i e a s k (k * NX_PAGE_SIZE / size e) OK' Hi' Hs Hfree)
      as (h2 & x & Hrun & HO & OK2). exists h2, x, z', S'. split; [exact Hrun|]. by right.
  - rewrite Some_bind. change (is_ok NX_EOK) with true. cbv iota.
    rewrite (get_class _ _ _ Hi), Some_bind, (class_not_empty h n st z S O i _ OK Hi), assert_true, El
      by (by rewrite El).
    by apply AllocSmallObject_spec.
Qed.

Lemma SizeToCache_spec h n st z S O s :
  heap_ok h n st z S O -> s <= MAX_SMALL_OBJECT_SIZE ->
  SizeToCache h s = Some (Class <$> class_index class_sizes 0 s).
Proof.
  intros OK Hs. unfold SizeToCache. rewrite (proj2 (Z.leb_le _ _)) by done.
  by rewrite assert_true, SizeToCache_loop_index, (hk_sizes _ _ _ _ _ _ OK).
Qed.

Lemma class_of_size h n st z S O i sz :
  heap_ok h n st z S O -> zlookup class_sizes i = Some sz ->
  exists e, zlookup (cacheSizeAarray h) i = Some e /\ size e = sz.
Proof.
  intros OK [H0 Hi]%zlookup_Some. rewrite <- (hk_sizes _ _ _ _ _ _ OK), list_lookup_fmap in Hi.
  destruct (cacheSizeAarray h !! Z.to_nat i) as [e|] eqn:E; [|done]. injection Hi as <-.
  exists e. by rewrite zlookup_Some.
Qed.

(** Small requests. *)
Lemma NX_HeapAlloc_spec h n st z S O r :
  heap_ok h n st z S O -> 1 <= r <= 104096 ->
  exists sz, r <= sz /\ allocates n st z S O sz (NX_HeapAlloc h r).
Proof.
  intros OK Hr. unfold NX_HeapAlloc. rewrite (proj2 (Z.eqb_neq r 0)) by lia. cbv zeta.
  set (s := NX_ALIGN_UP r MIN_SIZE_CLASS_VALUE).
  assert (Hs : r <= s <= 104096 /\ (16 | s)).
  { subst s. change MIN_SIZE_CLASS_VALUE with (2 ^ 4). rewrite NX_ALIGN_UP_spec by lia.
    destruct (align_up_spec r (2 ^ 4)) as [Hb [j Hj]]; [lia..|]. change (2 ^ 4) with 16 in *.
    rewrite Hj in *. split; [lia|by exists j]. }
  destruct Hs as [Hs Hd]. pose proof (requests_fit s ltac:(lia) Hd) as Hfit. unfold request_fits in Hfit.
  destruct (class_index class_sizes 0 s) as [i|] eqn:Ei; [|done].
  destruct (zlookup class_sizes i) as [sz|] eqn:Esz; [|done]. bool2prop.
  destruct (class_of_size h n st z S O i sz OK Esz) as (e & He & <-).
  rewrite Z.gtb_ltb, (proj2 (Z.ltb_ge _ s)) by (unfold MAX_SMALL_OBJECT_SIZE; lia).
  rewrite (SizeToCache_spec h n st z S O s OK) by (unfold MAX_SMALL_OBJECT_SIZE; lia).
  rewrite Ei, Some_bind. cbn [fmap option_fmap option_map]. rewrite Some_bind, (get_class _ _ _ He), Some_bind.
  destruct (hk_class _ _ _ _ _ _ OK i e He) as (-> & _).
  destruct (class_size_facts h n st z S O OK i e He) as (Hsz & _ & _ & _).
  unfold nz. rewrite (proj2 (Z.eqb_neq _ 0)) by lia. cbn [negb]. rewrite assert_true.
  rewrite u64_small by (unfold NX_PAGE_SIZE; lia).
  exists (size e). split; [lia|]. by apply HeapAlloc_locked_spec.
Qed.

(** ** Release *)
Section release.
Context (h : Heap) (n st : Z) (z : zone) (S : spans) (O : gmap Z Z).
Context (i : Z) (e : NX_HeapSizeClass) (p k : Z) (s : NX_HeapSmallCacheSystem) (x : Z).
Let a : Z := span_addr st p.
Hypotheses (OK : heap_ok h n st z S O) (Hi : zlookup (cacheSizeAarray h) i = Some e).
Hypotheses (Ha : a ∈ objectFreeList (cache e)) (Hp : S !! p = Some (k, true)) (Hs : systems h !! a = Some s).
Hypotheses (Hx : x ∈ slots a (size e) (maxObjects s)) (HxO : O !! x = Some (size e)).

Lemma header_facts :
  1 <= maxObjects s < 2 ^ 63 /\ NoDup (sys_objectFreeList s) /\ x ∉ sys_objectFreeList s /\
  sys_objectFreeCount s = Z.of_nat (length (sys_objectFreeList s)) /\ sys_objectFreeCount s + 1 <= maxObjects s /\
  forall y, y ∈ sys_objectFreeList s <-> y ∈ slots a (size e) (maxObjects s) /\ O !! y = None.
Proof using OK Hi Ha Hp Hs Hx HxO.
  destruct (hk_class _ _ _ _ _ _ OK i e Hi) as (_ & _ & _ & Hsp).
  destruct (Hsp a Ha) as (p1 & k1 & s1 & E & Hp1 & Hs1 & _ & Hm & Hroom & Hnd & Hcnt & Hin).
  apply span_addr_inj in E as <-. assert (k1 = k) as -> by congruence. assert (s1 = s) as -> by congruence.
  destruct (class_size_facts h n st z S O OK i e Hi) as (Hsz & _ & Hh & _).
  pose proof (span_inside _ _ _ _ _ (hk_cache _ _ _ _ _ _ OK) p k true Hp) as (_ & _ & Hk).
  assert (Hxf : x ∉ sys_objectFreeList s) by (intros [_ ?]%Hin; congruence).
  assert (Hlen : (length (x :: sys_objectFreeList s) <= length (slots a (size e) (maxObjects s)))%nat).
  { apply submseteq_length, NoDup_submseteq; [by apply NoDup_cons|].
    intros y [->|Hy]%elem_of_cons; [done|]. by apply Hin. }
  rewrite length_slots in Hlen. cbn [length] in Hlen. unfold NX_PAGE_SIZE in *.
  split; [nia|]. split; [done|]. split; [done|]. split; [done|]. split; [lia|done].
Qed.

Lemma put_back :
  heap_ok (with_system h a (mkSystem (sys_objectFreeList s ++ [x]) (u64 (sys_objectFreeCount s + 1)) (maxObjects s)))
    n st z S (delete x O).
Proof using OK Hi Ha Hp Hs Hx HxO.
  destruct header_facts as (Hm & Hnd & Hxf & Hcnt & Hle & Hin).
  eapply heap_ok_system; [done..| | | | | |]; cbn.
  - done.
  - apply NoDup_app. split; [done|]. split; [|apply NoDup_singleton].
    intros y Hy ->%list_elem_of_singleton. done.
  - rewrite length_app, u64_small by lia. cbn. lia.
  - intros y. rewrite elem_of_app, list_elem_of_singleton, Hin. destruct (decide (y = x)) as [->|Hne].
    + rewrite lookup_delete_eq. split; [done|by right].
    + rewrite lookup_delete_ne by done. split; [intros [?| ->]; [done|done]|by left].
  - intros y Hy. rewrite lookup_delete_ne; [done|]. by intros <-.
  - intros y sz Hys (Hne & HyO)%lookup_delete_Some.
    destruct (hk_live _ _ _ _ _ _ OK y sz HyO) as (j & e' & a' & Hj & He & Ha' & Hin').
    destruct (slot_unique h n st z S O OK i e a j e' a' y) as (_ & _ & <-); try done; [by exists s|by rewrite He].
Qed.

(** When every other object of the span is free, no other slot is live. *)
Lemma last_object y :
  maxObjects s <= sys_objectFreeCount s + 1 -> y ∈ slots a (size e) (maxObjects s) -> y <> x -> O !! y = None.
Proof using OK Hi Ha Hp Hs Hx HxO.
  intros Hfull Hy Hne. destruct header_facts as (Hm & Hnd & Hxf & Hcnt & Hle & Hin).
  assert (Hperm : (x :: sys_objectFreeList s) ≡ₚ slots a (size e) (maxObjects s)).
  { apply submseteq_length_Permutation.
    - apply NoDup_submseteq; [by apply NoDup_cons|]. intros y' [->|Hy']%elem_of_cons; [done|]. by apply Hin.
    - rewrite length_slots. cbn [length]. lia. }
  rewrite <- Hperm in Hy. apply elem_of_cons in Hy as [|Hy]; [done|]. by apply Hin.
Qed.

(** The span leaves its class and goes back to the span cache. *)
Lemma drop_span z' c' S' :
  cache_ok c' n st z' S' -> (forall q, q <> p -> S' !! q = S !! q) ->
  (forall q, q <> p -> class_of c' q = class_of (page_cache h) q) ->
  maxObjects s <= sys_objectFreeCount s + 1 ->
  heap_ok (mkHeap (zinsert (cacheSizeAarray h) i (mkSizeClass (size e)
      (mkHeapCache (list_del a (objectFreeList (cache e))) (classSize (cache e)) (u64 (objectFreeCount (cache e) - 1)))))
    (middleSizeCache h) (systems h) c') n st z' S' (delete x O).
Proof using OK Hi Ha Hp Hs Hx HxO.
  intros Hc HS Hcl Hfull.
  destruct (class_update _ i e (mkHeapCache (list_del a (objectFreeList (cache e))) (classSize (cache e))
    (u64 (objectFreeCount (cache e) - 1))) Hi) as [Hmap Hlook].
  set (h' := mkHeap _ _ _ _).
  assert (Hold : forall j e' b, zlookup (cacheSizeAarray h) j = Some e' -> b ∈ objectFreeList (cache e') -> b <> a ->
      heap_span h' st S' (delete x O) (size e') b).
  { intros j e' b Hj Hb Hne. destruct (hk_class _ _ _ _ _ _ OK j e' Hj) as (_ & _ & _ & Hsp).
    destruct (Hsp b Hb) as (q & k' & s1 & -> & Hq & Hs1 & Hcl1 & Hm1 & Hr1 & Hnd1 & Hcnt1 & Hin1).
    assert (q <> p) by (intros ->; done). exists q, k', s1. subst h'. cbn. rewrite HS, Hcl by done.
    split_and!; try done. intros y. rewrite Hin1. destruct (decide (y = x)) as [->|]; [|by rewrite lookup_delete_ne].
    rewrite lookup_delete_eq. split; intros [Hy _]; exfalso; apply Hne;
      apply (slot_unique h n st z S O OK j e' _ i e a x); (done || by eexists). }
  constructor; [done|by rewrite <- (hk_sizes _ _ _ _ _ _ OK), <- Hmap| |].
  - intros j e' [[-> ->]|[Hne Hj]]%Hlook; cbn.
    + destruct (hk_class _ _ _ _ _ _ OK i e Hi) as (Hcs & Hn & Hc0 & _).
      pose proof (class_list_length h n st z S O OK i e Hi). pose proof (ok_bounds _ _ _ _ _ Hc) as (Hnb & _).
      pose proof (length_list_del a _ Hn Ha).
      split; [done|]. split; [by apply NoDup_list_del|]. split; [rewrite Hc0, u64_small by lia; lia|].
      intros b [Hb Hbl]%elem_of_list_del. by apply Hold with i.
    + destruct (hk_class _ _ _ _ _ _ OK j e' Hj) as (? & ? & ? & _). split_and!; try done.
      intros b Hb. apply Hold with j; [done..|]. intros ->. apply Hne.
      by destruct (span_class h n st z S O OK j e' i e a Hj Hb Hi Ha).
  - intros y sz (Hne & Hy)%lookup_delete_Some.
    destruct (hk_live _ _ _ _ _ _ OK y sz Hy) as (j & e' & b & Hj & He & Hb & s1 & Hs1 & Hy1).
    assert (Hba : b <> a).
    { intros ->. assert (s1 = s) as -> by congruence. subst sz.
      destruct (span_class h n st z S O OK j e' i e a Hj Hb Hi Ha) as [_ ->].
      by rewrite (last_object y) in Hy. }
    pose proof (proj1 (zlookup_Some _ _ _) Hi) as [H0 Hl%lookup_lt_Some].
    pose proof (proj1 (zlookup_Some _ _ _) Hj) as [Hj0 _].
    exists j, (if decide (j = i) then mkSizeClass (size e) (mkHeapCache (list_del a (objectFreeList (cache e)))
      (classSize (cache e)) (u64 (objectFreeCount (cache e) - 1))) else e'), b. subst h'. cbn.
    rewrite zlookup_zinsert by lia.
    destruct (decide (j = i)) as [->|Hji].
    + assert (e' = e) as -> by congruence. split_and!; try done; [by apply elem_of_list_del|]. by exists s1.
    + split_and!; try done. by exists s1.
Qed.
End release.

Lemma PutFreeSmallCacheObject_spec h n st z S O i e p k s x :
  heap_ok h n st z S O -> zlookup (cacheSizeAarray h) i = Some e -> span_addr st p ∈ objectFreeList (cache e) ->
  S !! p = Some (k, true) -> systems h !! span_addr st p = Some s ->
  x ∈ slots (span_addr st p) (size e) (maxObjects s) -> O !! x = Some (size e) ->
  exists h' z' S', PutFreeSmallCacheObject h (Class i) (span_addr st p) x = Some (h', NX_EOK) /\
    heap_ok h' n st z' S' (delete x O).
Proof.
  intros OK Hi Ha Hp Hs Hx HxO.
  destruct (header_facts h n st z S O i e p k s x) as (Hm & _ & _ & Hcnt & Hle & _); try done.
  unfold PutFreeSmallCacheObject. rewrite Hs, Some_bind, (get_class _ _ _ Hi), Some_bind.
  destruct ((u64 (sys_objectFreeCount s + 1) >=? maxObjects s) && _) eqn:Eb.
  - apply andb_true_iff in Eb as [Hfull%Z.geb_le _]. rewrite u64_small in Hfull by lia.
    unfold set_cache. rewrite Hi, !Some_bind. set (h1 := mkHeap _ _ _ _).
    pose proof (hk_cache _ _ _ _ _ _ OK) as Hc.
    destruct (PageNodeMarkSize_spec h1 n st z S p k true 0 Hc Hp) as (c1 & -> & Hc1 & Hcl1). rewrite Some_bind.
    destruct (held_span_free c1 n st z S p k Hc1 Hp) as (c2 & z' & S' & Hfree & Hcl2 & Hc2 & HS).
    change (page_cache (with_page_cache h1 c1)) with c1. rewrite Hfree, Some_bind.
    exists (with_page_cache (with_page_cache h1 c1) c2), z', S'. split; [reflexivity|].
    apply (drop_span h n st z S O i e p k s x OK Hi Ha Hp Hs Hx HxO z' c2 S'); try done.
    intros q Hq. rewrite Hcl2, Hcl1, decide_False by done. done.
  - eexists _, z, S. split; [reflexivity|]. by apply (put_back h n st z S O i e p k s x).
Qed.

(** The page of an object. *)
Lemma page_of_object st x : 0 < st -> st mod NX_PAGE_SIZE = 0 -> st <= x < 2 ^ 64 ->
  NX_PAGE_ALIGNDOWN x = span_addr st ((x - st) / NX_PAGE_SIZE).
Proof.
  intros Hst Hm Hx. rewrite NX_PAGE_ALIGNDOWN_spec by lia. unfold span_addr, NX_PAGE_SIZE in *. zlia.
Qed.

(** Where a live object lies, and what the heap finds of it. *)
Lemma live_object h n st z S O x sz :
  heap_ok h n st z S O -> O !! x = Some sz ->
  exists i e p k s, zlookup (cacheSizeAarray h) i = Some e /\ size e = sz /\
    span_addr st p ∈ objectFreeList (cache e) /\ S !! p = Some (k, true) /\
    systems h !! span_addr st p = Some s /\ x ∈ slots (span_addr st p) sz (maxObjects s) /\
    span_addr st p + 56 <= x /\ x + sz <= span_addr st p + k * NX_PAGE_SIZE /\
    NX_PageToSpan (page_cache h) (NX_PAGE_ALIGNDOWN x) = Some (span_addr st p) /\
    page_size_class h (span_addr st p) = Some sz /\ 0 < span_addr st p.
Proof.
  intros OK HxO. destruct (hk_live _ _ _ _ _ _ OK x sz HxO) as (i & e & a & Hi & <- & Ha & s & Hs & Hx).
  destruct (hk_class _ _ _ _ _ _ OK i e Hi) as (_ & _ & _ & Hsp).
  destruct (Hsp a Ha) as (p & k & s1 & -> & Hp & Hs1 & Hcl & Hm & Hroom & _).
  assert (s1 = s) as -> by congruence. pose proof (hk_cache _ _ _ _ _ _ OK) as Hc.
  destruct (class_size_facts h n st z S O OK i e Hi) as (Hsz & _ & _ & Hh).
  destruct (slot_in_span st (size e) _ x s p k (proj1 Hsz) Hh eq_refl Hroom Hx) as [Hlo Hhi].
  pose proof (span_inside _ _ _ _ _ Hc p k true Hp) as (Hp0 & Hpn & Hk).
  pose proof (ok_bounds _ _ _ _ _ Hc) as (Hn & Hst & Hend & Hmod).
  assert (Hpos : st <= span_addr st p) by (unfold span_addr, NX_PAGE_SIZE; lia).
  assert (Hx64 : st <= x < 2 ^ 64) by (unfold span_addr, NX_PAGE_SIZE in *; lia).
  exists i, e, p, k, s. split_and!; try done; [| |lia].
  - rewrite (page_of_object st x) by done. eapply NX_PageToSpan_spec; [exact Hc|].
    apply (page_of_address st S p k x true Hp). lia.
  - rewrite (page_size_class_spec h n st z S p Hc) by lia. done.
Qed.

Lemma NX_HeapFree_live h n st z S O x sz :
  heap_ok h n st z S O -> O !! x = Some sz ->
  NX_HeapGetObjectSize h x = Some sz /\
  exists h' z' S', NX_HeapFree h x = Some (h', NX_EOK) /\ heap_ok h' n st z' S' (delete x O).
Proof.
  intros OK HxO.
  destruct (live_object h n st z S O x sz OK HxO)
    as (i & e & p & k & s & Hi & <- & Ha & Hp & Hs & Hx & Hlo & Hhi & Hspan & Hcl & Hpos).
  destruct (class_size_facts h n st z S O OK i e Hi) as (Hsz & _ & _ & _).
  assert (Hsize : NX_HeapGetObjectSize h x = Some (size e)).
  { unfold NX_HeapGetObjectSize. rewrite (proj2 (Z.eqb_neq x 0)) by lia.
    by rewrite Hspan, Some_bind, (proj2 (Z.eqb_neq _ 0)) by lia. }
  split; [done|]. unfold NX_HeapFree. rewrite (proj2 (Z.eqb_neq x 0)) by lia.
  rewrite Hspan, Some_bind, (proj2 (Z.eqb_neq (span_addr st p) 0)) by lia.
  rewrite Hsize, Some_bind, (proj2 (Z.eqb_neq (size e) 0)) by lia.
  rewrite Z.gtb_ltb, (proj2 (Z.ltb_ge _ (size e))) by lia.
  unfold FreeSmallObject. rewrite Hcl, Some_bind, (SizeToCache_spec h n st z S O _ OK) by lia.
  destruct (class_facts i (size e) (class_size h n st z S O OK i e Hi)) as [-> _].
  rewrite Some_bind. cbn [fmap option_fmap option_map]. rewrite Some_bind.
  by eapply PutFreeSmallCacheObject_spec.
Qed.

(** ** The abstract heap *)
Inductive hop :=
  | HAlloc (size : Z)
  | HFree (object : Z).

Definition heap_op (h : Heap) (op : hop) : option (Heap * bresult) :=
  match op with
  | HAlloc r => '(h, a) ← NX_HeapAlloc h r; Some (h, Ptr a)
  | HFree x => '(h, e) ← NX_HeapFree h x; Some (h, Err e)
  end.

(** Requests of the size classes whose spans have fewer than 128 pages; live
    objects, null and addresses below the zone. *)
Definition heap_client (st : Z) (O : gmap Z Z) (op : hop) : Prop :=
  match op with
  | HAlloc r => 0 <= r <= 104096
  | HFree x => x = 0 \/ NX_PAGE_SIZE <= x < st \/ is_Some (O !! x)
  end.

Inductive hstep (n st : Z) (z : zone) (S : spans) (O : gmap Z Z) : hop -> bresult -> gmap Z Z -> Prop :=
  | h_zero : hstep n st z S O (HAlloc 0) (Ptr 0) O
  | h_full r : no_span n st z S -> hstep n st z S O (HAlloc r) (Ptr 0) O
  | h_alloc r x sz : r <= sz -> O !! x = None -> hstep n st z S O (HAlloc r) (Ptr x) (<[x := sz]> O)
  | h_free x sz : O !! x = Some sz -> hstep n st z S O (HFree x) (Err NX_EOK) (delete x O)
  | h_free_bad x : x = 0 \/ NX_PAGE_SIZE <= x < st -> hstep n st z S O (HFree x) (Err NX_EINVAL) O.

(** The live objects: inside the zone, aligned, disjoint, of known size. *)
Definition live_objects_ok (h : Heap) (n st : Z) (O : gmap Z Z) : Prop :=
  (forall x sz, O !! x = Some sz -> st < x /\ x + sz <= st + n * NX_PAGE_SIZE /\ (16 | x) /\
     NX_HeapGetObjectSize h x = Some sz) /\
  (forall x y sz sz', O !! x = Some sz -> O !! y = Some sz' -> x < y -> x + sz <= y).

Lemma heap_live h n st z S O : heap_ok h n st z S O -> live_objects_ok h n st O.
Proof.
  intros OK. pose proof (hk_cache _ _ _ _ _ _ OK) as Hc. pose proof (ok_bounds _ _ _ _ _ Hc) as (Hn & Hst & Hend & Hm).
  split.
  - intros x sz HxO. destruct (live_object h n st z S O x sz OK HxO)
      as (i & e & p & k & s & Hi & <- & Ha & Hp & Hs & Hx & Hlo & Hhi & _).
    pose proof (span_inside _ _ _ _ _ Hc p k true Hp) as (Hp0 & Hpn & Hk).
    destruct (class_size_facts h n st z S O OK i e Hi) as (_ & [j Hj] & _ & _).
    unfold span_addr, NX_PAGE_SIZE in *. split; [lia|]. split; [lia|]. split; [|by eapply NX_HeapFree_live].
    apply elem_of_slots in Hx as (u & _ & ->). unfold slot. rewrite Hj.
    exists (st / 4096 * 256 + p * 256 + (header_objects (j * 16) + u) * j).
    pose proof (Z.div_mod st 4096). lia.
  - intros x y sz sz' HxO HyO Hlt.
    destruct (live_object h n st z S O x sz OK HxO)
      as (i & e & p & k & s & Hi & He & Ha & Hp & Hs & Hx & Hlo & Hhi & _).
    destruct (live_object h n st z S O y sz' OK HyO)
      as (j & e' & p' & k' & s' & Hj & He' & Ha' & Hp' & Hs' & Hy & Hlo' & Hhi' & _).
    destruct (class_size_facts h n st z S O OK i e Hi) as (Hsz & _).
    destruct (class_size_facts h n st z S O OK j e' Hj) as (Hsz' & _).
    destruct (decide (p = p')) as [<-|Hne].
    + destruct (span_class h n st z S O OK i e j e' (span_addr st p) Hi Ha Hj Ha') as [_ <-].
      apply elem_of_slots in Hx as (u & _ & ->), Hy as (v & _ & ->). unfold slot in *. subst sz sz'.
      assert (u < v) by nia. nia.
    + destruct (cache_held _ _ _ _ _ Hc) as [_ Hdisj].
      destruct (Z.lt_total p p') as [Hl|[->|Hl]]; [|done|].
      * pose proof (Hdisj p k p' k' Hp Hp' Hl). unfold span_addr, NX_PAGE_SIZE in *. lia.
      * pose proof (Hdisj p' k' p k Hp' Hp Hl). unfold span_addr, NX_PAGE_SIZE in *. lia.
Qed.

Lemma NX_HeapCacheInit_ok c n st z :
  cache_ok c n st z ∅ -> exists h, NX_HeapCacheInit c = Some h /\ heap_ok h n st z ∅ ∅.
Proof.
  intros Hc. rewrite NX_HeapCacheInit_classes. eexists. split; [reflexivity|].
  constructor; [done|cbn [cacheSizeAarray]|cbn [cacheSizeAarray]|].
  - rewrite <- list_fmap_compose. apply list_fmap_id.
  - intros i e [H0 He]%zlookup_Some. apply list_lookup_fmap_Some in He as (sz & -> & _). cbn.
    split_and!; try done; [constructor|]. intros a Ha. by apply elem_of_nil in Ha.
  - intros x sz Hx. by rewrite lookup_empty in Hx.
Qed.

(** C24: the heap refines its specification for requests up to 104096 bytes and
    releases of a live object, of null, or of an address from the first page
    boundary up to the zone.  Every such call returns: an allocation gives an
    object that was not live, of a class size that is large enough, or null when
    the span cache refuses a span (or the size is 0); releasing a live object
    succeeds and makes exactly that object free; null and addresses below the
    zone are [NX_EINVAL].  The live objects are aligned to 16 bytes, inside the
    zone, pairwise disjoint, and [NX_HeapGetObjectSize] gives their class size.
    Releasing an address of page 0 other than null fails the assertion of
    [NX_PageToSpan] (page_cache.c:135). *)
Theorem heap_refines h n st z S O : heap_ok h n st z S O ->
  (forall op, heap_client st O op ->
    exists h' r z' S' O', heap_op h op = Some (h', r) /\ hstep n st z S O op r O' /\
      heap_ok h' n st z' S' O' /\ live_objects_ok h' n st O') /\
  (forall x, 0 < x < NX_PAGE_SIZE -> heap_op h (HFree x) = None).
Proof.
  intros OK. split.
  2: { intros x Hx. cbn [heap_op]. unfold NX_HeapFree. rewrite (proj2 (Z.eqb_neq x 0)) by lia.
    assert (NX_PAGE_ALIGNDOWN x = 0) as -> by (rewrite NX_PAGE_ALIGNDOWN_spec by (unfold NX_PAGE_SIZE in *; lia); unfold NX_PAGE_SIZE in *; zlia).
    done. }
  intros op Hop. destruct op as [r|x]; cbn [heap_op heap_client] in *.
  - destruct (decide (r = 0)) as [->|Hr].
    { exists h, (Ptr 0), z, S, O. split; [done|]. split; [constructor|]. split; [done|]. by eapply heap_live. }
    destruct (NX_HeapAlloc_spec h n st z S O r OK ltac:(lia)) as (sz & Hsz & h' & x & z' & S' & -> & [H|H]);
      rewrite Some_bind.
    + destruct H as (-> & OK' & Hno). exists h', (Ptr 0), z', S', O. split; [done|]. split; [by constructor|].
      split; [done|]. by eapply heap_live.
    + destruct H as (HO & OK'). exists h', (Ptr x), z', S', (<[x := sz]> O). split; [done|]. split; [by constructor|].
      split; [done|]. by eapply heap_live.
  - destruct Hop as [->|[Hx|[sz Hx]]].
    + exists h, (Err NX_EINVAL), z, S, O. split; [done|]. split; [constructor; by left|].
      split; [done|]. by eapply heap_live.
    + exists h, (Err NX_EINVAL), z, S, O. pose proof (hk_cache _ _ _ _ _ _ OK) as Hc.
      pose proof (ok_bounds _ _ _ _ _ Hc) as (Hn & Hst & Hend & Hm).
      assert (Hpage : NX_PAGE_SIZE <= NX_PAGE_ALIGNDOWN x <= x).
      { rewrite NX_PAGE_ALIGNDOWN_spec by (unfold NX_PAGE_SIZE in *; lia). unfold NX_PAGE_SIZE in *. zlia. }
      split; [|split; [constructor; right; lia|split; [done|by eapply heap_live]]].
      unfold NX_HeapFree. rewrite (proj2 (Z.eqb_neq x 0)) by (unfold NX_PAGE_SIZE in *; lia).
      unfold NX_PageToSpan, nz. rewrite (proj2 (Z.eqb_neq _ 0)) by (unfold NX_PAGE_SIZE in *; lia).
      cbn [negb]. rewrite assert_true, (ok_base _ _ _ _ _ Hc), (proj2 (Z.ltb_lt _ st)) by lia. done.
    + destruct (NX_HeapFree_live h n st z S O x sz OK Hx) as (_ & h' & z' & S' & -> & OK'). rewrite Some_bind.
      exists h', (Err NX_EOK), z', S', (delete x O). split; [done|]. split; [by econstructor|].
      split; [done|]. by eapply heap_live.
Qed.

(** ** Examples on a small zone *)
Definition demo_heap (size : Z) : option Heap := c ← demo size; NX_HeapCacheInit c.

(** A size close to [2^64] is rounded up to 0 and gets an object of the class
    of 16 bytes. *)
Lemma huge_request_small_object :
  (h ← demo_heap 0x40000; '(h, _) ← NX_HeapAlloc h 16; '(h, a) ← NX_HeapAlloc h (2 ^ 64 - 1);
   s ← NX_HeapGetObjectSize h a; Some (a, s)) = Some (1306704, 16).
Proof. vm_compute. reflexivity. Qed.

(** Middle sizes share one list whatever their page count: 900 KB are served
    with the 75 pages (300 KB) released before. *)
Lemma middle_span_too_short :
  (h ← demo_heap 0x400000; '(h, a) ← NX_HeapAlloc h (300 * 1024); '(h, e) ← NX_HeapFree h a;
   '(h, b) ← NX_HeapAlloc h (900 * 1024); k ← NX_SpanToCount (page_cache h) b; Some (a, e, b, k)) =
  Some (4239360, NX_EOK, 4239360, 75).
Proof. vm_compute. reflexivity. Qed.

(** The comment above the size classes says 128 pages for sizes up to 256 KB. *)
Lemma largest_class_pages : SizeToPageCount 262144 = 256.
Proof. reflexivity. Qed.

Lemma heap_refines_witness :
  exists h h' n st O', demo_heap 0x40000 = Some h /\ heap_op h (HAlloc 100) = Some (h', Ptr 1306736) /\
    live_objects_ok h' n st O'.
Proof.
  assert (Hd : (h ← demo_heap 0x40000; '(_, r) ← heap_op h (HAlloc 100); Some r) = Some (Ptr 1306736))
    by (vm_compute; reflexivity).
  unfold demo_heap in *. destruct (demo 0x40000) as [c|] eqn:E; [|discriminate Hd].
  destruct (small_cache_ok 0x40000 c) as (n & st & z & Hc); [vm_compute; repeat split; discriminate|exact E|].
  destruct (NX_HeapCacheInit_ok c n st z Hc) as (h & Hh & OK). rewrite Some_bind in Hd |- *. rewrite Hh in Hd |- *.
  rewrite Some_bind in Hd.
  destruct (proj1 (heap_refines h n st z ∅ ∅ OK) (HAlloc 100)) as (h' & r & z' & S' & O' & Hrun & _ & _ & Hl).
  { cbn. lia. }
  rewrite Hrun in Hd. rewrite Some_bind in Hd. injection Hd as ->.
  exists h, h', n, st, O'. split; [reflexivity|]. split; [exact Hrun|exact Hl].
Defined.
