(* ===== verification/ExObj.v ===== *)
(** The tables of exposed objects: [kernel/exobj.c] and [include/base/exobj.h].

    A table maps small integers (solts) to kernel objects of a process.  An
    object is its address (0 is [NX_NULL]); a close handler is code of another
    component, called through [close_call], which may change the world [W]
    outside the table and returns an error code. *)
From S2P Require Import Prelude.

Definition NX_EXOBJ_MAX_NR : Z := 128.
Definition NX_SOLT_INVALID_VALUE : Z := -1.

Inductive NX_ExposedObjectType :=
  | NX_EXOBJ_NONE
  | NX_EXOBJ_PORCESS
  | NX_EXOBJ_THREAD
  | NX_EXOBJ_SNAPSHOT
  | NX_EXOBJ_MUTEX
  | NX_EXOBJ_SEMAPHORE
  | NX_EXOBJ_DEVICE.

#[export] Instance NX_ExposedObjectType_eq_dec : EqDecision NX_ExposedObjectType.
Proof. solve_decision. Defined.

Record NX_ExposedObject := mkExObj {
  object : Z;
  type : NX_ExposedObjectType;
  close : Z
}.

Record NX_ExposedObjectTable := mkTable {
  objectCount : Z;
  objects : option (list NX_ExposedObject)
}.

Definition no_object : NX_ExposedObject := mkExObj 0 NX_EXOBJ_NONE 0.

(** The three assignments that set a solt. *)
Definition set_solt (table : NX_ExposedObjectTable) (solt : Z) (e : NX_ExposedObject) :
    option NX_ExposedObjectTable :=
  objs ← objects table;
  _ ← zlookup objs solt;
  Some (mkTable (objectCount table) (Some (zinsert objs solt e))).

Fixpoint TableInit_loop (fuel : nat) (table : NX_ExposedObjectTable) (i : Z) : option NX_ExposedObjectTable :=
  match fuel with
  | O => None
  | S fuel =>
      if i <? objectCount table then
        table ← set_solt table i no_object; TableInit_loop fuel table (i + 1)
      else Some table
  end.

(** [raw] is the memory that [NX_MemAlloc] returns, [None] when it fails. *)
Definition NX_ExposedObjectTableInit (raw : option (list NX_ExposedObject)) (table : NX_ExposedObjectTable)
    (count : Z) : option (NX_ExposedObjectTable * NX_Error) :=
  if negb (nz count) || (count >? NX_EXOBJ_MAX_NR) then Some (table, NX_EINVAL)
  else
    match raw with
    | None => Some (mkTable count None, NX_ENOMEM)
    | Some objs =>
        table ← TableInit_loop (S (Z.to_nat count)) (mkTable count (Some objs)) 0;
        Some (table, NX_EOK)
    end.

Fixpoint ExposedObjectAlloc_loop (fuel : nat) (table : NX_ExposedObjectTable) (i : Z) : option Z :=
  match fuel with
  | O => None
  | S fuel =>
      if i <? objectCount table then
        objs ← objects table;
        e ← zlookup objs i;
        if object e =? 0 then Some i else ExposedObjectAlloc_loop fuel table (i + 1)
      else Some (-1)
  end.

Definition NX_ExposedObjectAlloc (table : NX_ExposedObjectTable) : option Z :=
  ExposedObjectAlloc_loop (S (Z.to_nat (objectCount table))) table 0.

(** [solt < table->objectCount] compares as unsigned words.  The result is
    the solt pointed to, [None] for the null pointer. *)
Definition NX_ExposedObjectGet (table : NX_ExposedObjectTable) (solt : Z) : option Z :=
  if u64 solt <? objectCount table then Some solt else None.

Fixpoint ExposedObjectLocate_loop (fuel : nat) (table : NX_ExposedObjectTable) (obj : Z)
    (ty : NX_ExposedObjectType) (solt : Z) : option Z :=
  match fuel with
  | O => None
  | S fuel =>
      if solt <? objectCount table then
        objs ← objects table;
        e ← zlookup objs solt;
        if (object e =? obj) && bool_decide (type e = ty) then Some solt
        else ExposedObjectLocate_loop fuel table obj ty (solt + 1)
      else Some NX_SOLT_INVALID_VALUE
  end.

Definition NX_ExposedObjectLocate (table : NX_ExposedObjectTable) (obj : Z) (ty : NX_ExposedObjectType) :
    option Z :=
  if negb (nz obj) then Some NX_SOLT_INVALID_VALUE
  else ExposedObjectLocate_loop (S (Z.to_nat (objectCount table))) table obj ty 0.

(** The last component is [*outSolt], [None] when it is not written. *)
Definition NX_ExposedObjectInstall (table : NX_ExposedObjectTable) (obj : Z) (ty : NX_ExposedObjectType)
    (handler : Z) : option (NX_ExposedObjectTable * NX_Error * option Z) :=
  match objects table with
  | None => Some (table, NX_EFAULT, None)
  | Some _ =>
      solt ← NX_ExposedObjectAlloc table;
      if solt <? 0 then Some (table, NX_ENORES, None)
      else
        table ← set_solt table solt (mkExObj obj ty handler);
        Some (table, NX_EOK, Some solt)
  end.

Section handlers.
Context {W : Type} (close_call : Z -> Z -> NX_ExposedObjectType -> W -> W * NX_Error).

(** [objects->object], [objects->close] and [objects->type] are those of
    [objects[0]], whatever [solt] is. *)
Definition NX_ExposedObjectUninstalll (w : W) (table : NX_ExposedObjectTable) (solt : Z) :
    option (W * NX_ExposedObjectTable * NX_Error) :=
  match objects table with
  | None => Some (w, table, NX_EFAULT)
  | Some objs =>
      if u64 solt >=? objectCount table then Some (w, table, NX_EINVAL)
      else
        e ← zlookup objs 0;
        if object e =? 0 then Some (w, table, NX_EFAULT)
        else
          let '(w, err) := if nz (close e) then close_call (close e) (object e) (type e) w else (w, NX_EOK) in
          if negb (is_ok err) then Some (w, table, err)
          else
            table ← set_solt table solt no_object;
            Some (w, table, NX_EOK)
  end.

Fixpoint TableExit_loop (fuel : nat) (w : W) (table : NX_ExposedObjectTable) (solt : Z) :
    option (W * NX_ExposedObjectTable) :=
  match fuel with
  | O => None
  | S fuel =>
      if solt <? objectCount table then
        '(w, table, _) ← NX_ExposedObjectUninstalll w table solt;
        TableExit_loop fuel w table (solt + 1)
      else Some (w, table)
  end.

(** The objects are freed; [table->objects] keeps the dangling pointer. *)
Definition NX_ExposedObjectTableExit (w : W) (table : NX_ExposedObjectTable) :
    option (W * NX_ExposedObjectTable * NX_Error) :=
  '(w, table) ← TableExit_loop (S (Z.to_nat (objectCount table))) w table 0;
  Some (w, table, NX_EOK).

Definition NX_ExposedObjectCopy (dst src : NX_ExposedObjectTable) (solt : Z) :
    option (NX_ExposedObjectTable * NX_Error * option Z) :=
  match NX_ExposedObjectGet src solt with
  | None => Some (dst, NX_EFAULT, None)
  | Some p =>
      objs ← objects src;
      e ← zlookup objs p;
      NX_ExposedObjectInstall dst (object e) (type e) (close e)
  end.
End handlers.

(** ** Well-formed tables *)
Definition table_ok (t : NX_ExposedObjectTable) (objs : list NX_ExposedObject) : Prop :=
  objects t = Some objs /\ Z.of_nat (length objs) = objectCount t /\ 0 < objectCount t <= NX_EXOBJ_MAX_NR.

Section tables.
Implicit Types (t : NX_ExposedObjectTable) (objs : list NX_ExposedObject).

Lemma table_lookup t objs i :
  table_ok t objs -> 0 <= i < objectCount t -> exists e, zlookup objs i = Some e.
Proof.
  intros (_ & Hl & _) Hi. destruct (lookup_lt_is_Some_2 objs (Z.to_nat i)) as [e He]; [lia|].
  exists e. apply zlookup_Some. by split; [lia|].
Qed.

Lemma set_solt_spec t objs i e :
  table_ok t objs -> 0 <= i < objectCount t ->
  set_solt t i e = Some (mkTable (objectCount t) (Some (zinsert objs i e))) /\
  table_ok (mkTable (objectCount t) (Some (zinsert objs i e))) (zinsert objs i e).
Proof.
  intros Ht Hi. destruct (table_lookup t objs i Ht Hi) as [e0 He].
  destruct Ht as (Ho & Hl & Hc). unfold set_solt. rewrite Ho, Some_bind, He, Some_bind.
  split; [done|]. split; [done|]. split; [|done]. cbn [objectCount]. by rewrite length_zinsert.
Qed.

(** The first index from [i] whose object satisfies [P], or [objectCount]. *)
Lemma TableInit_loop_spec fuel : forall t objs i,
  table_ok t objs -> 0 <= i <= objectCount t -> objectCount t - i < Z.of_nat fuel ->
  exists t' objs', TableInit_loop fuel t i = Some t' /\ table_ok t' objs' /\ objectCount t' = objectCount t /\
    forall j, 0 <= j < objectCount t ->
      zlookup objs' j = if decide (i <= j) then Some no_object else zlookup objs j.
Proof.
  induction fuel as [|fuel IH]; intros t objs i Ht Hi Hf; [lia|]. cbn [TableInit_loop].
  destruct (Z.ltb_spec i (objectCount t)) as [Hlt|Hge].
  - destruct (set_solt_spec t objs i no_object Ht) as [-> Ht']; [lia|]. rewrite Some_bind.
    destruct (IH _ _ (i + 1) Ht') as (t' & objs' & Hrun & Hok & Hc & Hlk); cbn [objectCount] in *; [lia|lia|].
    exists t', objs'. split; [done|]. split; [done|]. split; [done|].
    intros j Hj. rewrite Hlk by done. destruct Ht as (_ & Hl & _).
    rewrite zlookup_zinsert by lia. repeat case_decide; (done || lia).
  - exists t, objs. split; [done|]. split; [done|]. split; [done|].
    intros j Hj. rewrite decide_False by lia. done.
Qed.

(** Scanning for the first free solt. *)
Definition first_free objs (n i r : Z) : Prop :=
  (r = -1 /\ forall j e, i <= j < n -> zlookup objs j = Some e -> object e <> 0) \/
  (i <= r < n /\ (exists e, zlookup objs r = Some e /\ object e = 0) /\
    forall j e, i <= j < r -> zlookup objs j = Some e -> object e <> 0).

Lemma ExposedObjectAlloc_spec t objs :
  table_ok t objs ->
  exists r, NX_ExposedObjectAlloc t = Some r /\ first_free objs (objectCount t) 0 r.
Proof.
  intros Ht. pose proof Ht as (Ho & Hl & Hc). unfold NX_ExposedObjectAlloc.
  cut (forall fuel i, 0 <= i <= objectCount t -> objectCount t - i < Z.of_nat fuel ->
    exists r, ExposedObjectAlloc_loop fuel t i = Some r /\ first_free objs (objectCount t) i r).
  { intros H. apply H; lia. }
  induction fuel as [|fuel IH]; intros i Hi Hf; [lia|]. cbn [ExposedObjectAlloc_loop].
  destruct (Z.ltb_spec i (objectCount t)) as [Hlt|Hge].
  - rewrite Ho, Some_bind. destruct (table_lookup t objs i Ht) as [e He]; [lia|]. rewrite He, Some_bind.
    destruct (Z.eqb_spec (object e) 0) as [H0|H0].
    + exists i. split; [done|]. right. split; [lia|]. split; [eauto|]. intros; lia.
    + destruct (IH (i + 1)) as (r & -> & Hr); [lia..|]. exists r. split; [done|].
      assert (Hi' : forall j e, j = i -> zlookup objs j = Some e -> object e <> 0) by (intros ? ? -> ?; congruence).
      destruct Hr as [[-> Hr]|(Hr & Hex & Hlo)].
      * left. split; [done|]. intros j x Hj. destruct (Z.eq_dec j i); [by apply Hi'|apply Hr; lia].
      * right. split; [lia|]. split; [done|]. intros j x Hj.
        destruct (Z.eq_dec j i); [by apply Hi'|apply Hlo; lia].
  - exists (-1). split; [done|]. left. split; [done|]. intros; lia.
Qed.

Definition first_match objs (n i : Z) (obj : Z) (ty : NX_ExposedObjectType) (r : Z) : Prop :=
  let hit e := object e = obj /\ type e = ty in
  (r = -1 /\ forall j e, i <= j < n -> zlookup objs j = Some e -> ~ hit e) \/
  (i <= r < n /\ (exists e, zlookup objs r = Some e /\ hit e) /\
    forall j e, i <= j < r -> zlookup objs j = Some e -> ~ hit e).

Lemma ExposedObjectLocate_spec t objs obj ty :
  table_ok t objs -> obj <> 0 ->
  exists r, NX_ExposedObjectLocate t obj ty = Some r /\ first_match objs (objectCount t) 0 obj ty r.
Proof.
  intros Ht Hobj. pose proof Ht as (Ho & Hl & Hc). unfold NX_ExposedObjectLocate, nz.
  rewrite (proj2 (Z.eqb_neq obj 0)) by done. cbn [negb].
  cut (forall fuel i, 0 <= i <= objectCount t -> objectCount t - i < Z.of_nat fuel ->
    exists r, ExposedObjectLocate_loop fuel t obj ty i = Some r /\ first_match objs (objectCount t) i obj ty r).
  { intros H. apply H; lia. }
  induction fuel as [|fuel IH]; intros i Hi Hf; [lia|]. cbn [ExposedObjectLocate_loop].
  destruct (Z.ltb_spec i (objectCount t)) as [Hlt|Hge].
  - rewrite Ho, Some_bind. destruct (table_lookup t objs i Ht) as [e He]; [lia|]. rewrite He, Some_bind.
    destruct ((object e =? obj) && bool_decide (type e = ty)) eqn:E.
    + apply andb_true_iff in E as [E1%Z.eqb_eq E2%bool_decide_eq_true].
      exists i. split; [done|]. right. split; [lia|]. split; [eauto|]. intros; lia.
    + assert (~ (object e = obj /\ type e = ty)) as Hn.
      { intros [H1 H2]. rewrite H1, Z.eqb_refl, bool_decide_eq_true_2 in E by done. done. }
      destruct (IH (i + 1)) as (r & -> & Hr); [lia..|]. exists r. split; [done|].
      assert (Hi' : forall j x, j = i -> zlookup objs j = Some x -> ~ (object x = obj /\ type x = ty))
        by (intros ? ? -> ?; congruence).
      destruct Hr as [[-> Hr]|(Hr & Hex & Hlo)].
      * left. split; [done|]. intros j x Hj. destruct (Z.eq_dec j i); [by apply Hi'|apply Hr; lia].
      * right. split; [lia|]. split; [done|]. intros j x Hj.
        destruct (Z.eq_dec j i); [by apply Hi'|apply Hlo; lia].
  - exists (-1). split; [done|]. left. split; [done|]. intros; lia.
Qed.
End tables.

(** ** Installing *)
Section installing.
Implicit Types (t : NX_ExposedObjectTable) (objs : list NX_ExposedObject).

(** [Install] puts the object in the first free solt. *)
Lemma Install_spec t objs obj ty h :
  table_ok t objs ->
  (first_free objs (objectCount t) 0 (-1) /\ NX_ExposedObjectInstall t obj ty h = Some (t, NX_ENORES, None)) \/
  exists solt t', first_free objs (objectCount t) 0 solt /\ 0 <= solt < objectCount t /\
    NX_ExposedObjectInstall t obj ty h = Some (t', NX_EOK, Some solt) /\
    objectCount t' = objectCount t /\ table_ok t' (zinsert objs solt (mkExObj obj ty h)).
Proof.
  intros Ht. pose proof Ht as (Ho & Hl & Hc). unfold NX_ExposedObjectInstall. rewrite Ho.
  destruct (ExposedObjectAlloc_spec t objs Ht) as (r & -> & Hr). rewrite Some_bind.
  pose proof Hr as [[-> _]|(Hb & _)]; [by left|]. right. exists r.
  rewrite (proj2 (Z.ltb_ge r 0)) by lia.
  destruct (set_solt_spec t objs r (mkExObj obj ty h) Ht Hb) as [-> Hok]. rewrite Some_bind.
  eexists. split; [done|]. split; [done|]. split; [reflexivity|]. by split.
Qed.

(** Installing a list of objects, in order; the solts they got. *)
Fixpoint install_all (t : NX_ExposedObjectTable) (l : list NX_ExposedObject) :
    option (NX_ExposedObjectTable * list Z) :=
  match l with
  | [] => Some (t, [])
  | e :: l =>
      r ← NX_ExposedObjectInstall t (object e) (type e) (close e);
      match r with
      | (t, _, Some solt) => '(t, solts) ← install_all t l; Some (t, solt :: solts)
      | (t, _, None) => Some (t, [])
      end
  end.

(** The first [k] solts are taken and the others free. *)
Definition filled t objs (k : Z) : Prop :=
  table_ok t objs /\ 0 <= k <= objectCount t /\
  forall j e, zlookup objs j = Some e -> object e = 0 <-> k <= j.

Lemma filled_first_free t objs k :
  filled t objs k -> k < objectCount t -> forall r, first_free objs (objectCount t) 0 r -> r = k.
Proof.
  intros (Ht & Hk & Hf) Hlt r Hr. destruct (table_lookup t objs k Ht) as [e He]; [lia|].
  assert (object e = 0) as H0 by (apply (Hf k); [done|lia]).
  destruct Hr as [[_ Hall]|(Hr & (x & Hx & Hx0) & Hlo)].
  - exfalso. by apply (Hall k e ltac:(lia) He).
  - apply (Hf r) in Hx0; [|done]. destruct (Z.eq_dec r k) as [|Hne]; [done|].
    exfalso. by apply (Hlo k e ltac:(lia) He).
Qed.

Lemma install_filled t objs k e :
  filled t objs k -> k < objectCount t -> object e <> 0 ->
  exists t', NX_ExposedObjectInstall t (object e) (type e) (close e) = Some (t', NX_EOK, Some k) /\
    objectCount t' = objectCount t /\ filled t' (zinsert objs k e) (k + 1).
Proof.
  intros F Hlt He. pose proof F as (Ht & Hk & Hf).
  destruct (Install_spec t objs (object e) (type e) (close e) Ht) as [[Hr _]|(r & t' & Hr & Hb & Hrun & Hc & Hok)].
  - apply (filled_first_free t objs k F Hlt) in Hr. lia.
  - apply (filled_first_free t objs k F Hlt) in Hr as ->. exists t'. split; [done|]. split; [done|].
    destruct e as [o ty h]. cbn [object type close] in *. split; [done|]. split; [lia|].
    intros j x Hx. pose proof Hx as [Hj _]%zlookup_Some. destruct Ht as (_ & Hl & _).
    rewrite zlookup_zinsert in Hx by lia. case_decide; [simplify_eq/=; lia|].
    rewrite (Hf j x Hx). lia.
Qed.

Lemma install_all_filled l : forall t objs k,
  filled t objs k -> k + Z.of_nat (length l) <= objectCount t -> Forall (fun e => object e <> 0) l ->
  exists t' objs', install_all t l = Some (t', seqZ k (Z.of_nat (length l))) /\
    objectCount t' = objectCount t /\ filled t' objs' (k + Z.of_nat (length l)) /\
    forall j, zlookup objs' j = if decide (k <= j < k + Z.of_nat (length l))
      then zlookup l (j - k) else zlookup objs j.
Proof.
  induction l as [|e l IH]; intros t objs k F Hl Hnz; cbn [install_all length] in *.
  - exists t, objs. split; [done|]. split; [done|]. split; [by rewrite Z.add_0_r|].
    intros j. by case_decide; [lia|].
  - inversion Hnz as [|? ? He Hnz']; subst.
    destruct (install_filled t objs k e F) as (t1 & -> & Hc1 & F1); [lia|done|]. rewrite Some_bind.
    destruct (IH t1 _ (k + 1) F1) as (t2 & objs2 & -> & Hc2 & F2 & Hlk); [lia|done|]. rewrite Some_bind.
    exists t2, objs2. split.
    { rewrite (seqZ_cons k) by lia. do 3 f_equal. f_equal; lia. }
    split; [congruence|]. split; [by replace (k + Z.of_nat (S (length l))) with (k + 1 + Z.of_nat (length l)) by lia|].
    intros j. rewrite Hlk. destruct F as ((_ & Hlen & _) & Hk & _).
    destruct (Z.eq_dec j k) as [->|Hjk].
    + rewrite zlookup_zinsert by lia. repeat case_decide; try lia. by rewrite Z.sub_diag.
    + destruct (Z.leb_spec 0 j) as [Hj|Hj].
      2:{ repeat case_decide; try lia. unfold zlookup. by rewrite (proj2 (Z.leb_gt 0 j)). }
      rewrite zlookup_zinsert by lia. repeat case_decide; try lia; [|done]. unfold zlookup.
      rewrite (proj2 (Z.leb_le 0 (j - (k + 1)))), (proj2 (Z.leb_le 0 (j - k))) by lia.
      by replace (Z.to_nat (j - k)) with (S (Z.to_nat (j - (k + 1)))) by lia.
Qed.

(** A fresh table of [count] solts.  Installing objects gives them the
    solts 0, 1, 2, ... in order and each solt then holds its object, type and
    close handler; an object is located again at its solt; once [count]
    objects are in, [Install] answers [NX_ENORES] and changes nothing. *)
Theorem table_fills_in_order raw t0 count l :
  0 < count <= NX_EXOBJ_MAX_NR -> Z.of_nat (length raw) = count ->
  Z.of_nat (length l) <= count -> Forall (fun e => object e <> 0) l -> NoDup (object <$> l) ->
  exists t t', NX_ExposedObjectTableInit (Some raw) t0 count = Some (t, NX_EOK) /\
    install_all t l = Some (t', seqZ 0 (Z.of_nat (length l))) /\
    (forall i e, zlookup l i = Some e ->
      NX_ExposedObjectGet t' i = Some i /\ (objects t' ≫= fun objs => zlookup objs i) = Some e /\
      NX_ExposedObjectLocate t' (object e) (type e) = Some i) /\
    (Z.of_nat (length l) = count -> forall e,
      NX_ExposedObjectInstall t' (object e) (type e) (close e) = Some (t', NX_ENORES, None)).
Proof.
  intros Hc Hraw Hlen Hnz Hnd. unfold NX_ExposedObjectTableInit, nz.
  rewrite (proj2 (Z.eqb_neq count 0)) by lia. cbn [negb orb].
  rewrite Z.gtb_ltb, (proj2 (Z.ltb_ge NX_EXOBJ_MAX_NR count)) by lia.
  assert (Ht0 : table_ok (mkTable count (Some raw)) raw) by (split; [done|]; split; [done|exact Hc]).
  destruct (TableInit_loop_spec (S (Z.to_nat count)) _ _ 0 Ht0) as (t & objs & -> & Hok & Hcnt & Hlk);
    cbn [objectCount] in *; [lia|lia|]. rewrite Some_bind.
  assert (F : filled t objs 0).
  { split; [done|]. split; [lia|]. intros j e He. pose proof He as [Hj Hx]%zlookup_Some.
    destruct Hok as (_ & Hl & _). apply lookup_lt_Some in Hx.
    rewrite Hlk, decide_True in He by lia. simplify_eq/=. lia. }
  destruct (install_all_filled l t objs 0 F) as (t' & objs' & Hrun & Hcnt' & F' & Hlk'); [lia|done|].
  exists t, t'. split; [done|]. split; [done|]. split.
  - intros i e He. pose proof He as [Hi Hx]%zlookup_Some. apply lookup_lt_Some in Hx.
    assert (Hei : zlookup objs' i = Some e) by (rewrite Hlk', decide_True, Z.sub_0_r by lia; done).
    destruct F' as (Hok' & Hk' & Hf'). unfold NX_ExposedObjectGet, NX_EXOBJ_MAX_NR in *.
    rewrite u64_small, (proj2 (Z.ltb_lt _ _)) by lia. split; [done|].
    split; [by rewrite (proj1 Hok'), Some_bind|].
    assert (He0 : object e <> 0) by (rewrite Forall_lookup in Hnz; apply zlookup_Some in He as []; eauto).
    destruct (ExposedObjectLocate_spec t' objs' (object e) (type e) Hok' He0) as (r & -> & Hr).
    f_equal. destruct Hr as [[-> Hall]|(Hr & (x & Hx1 & Hx2 & Hx3) & Hlo)].
    + exfalso. by apply (Hall i e ltac:(lia) Hei).
    + destruct (Z.leb_spec (Z.of_nat (length l)) r) as [Hge|Hlt].
      { exfalso. apply He0. rewrite <- Hx2. apply (Hf' r x Hx1). lia. }
      rewrite Hlk', decide_True, Z.sub_0_r in Hx1 by lia.
      apply zlookup_Some in Hx1 as [Hr0 Hx1], He as [Hi0 He].
      assert (Z.to_nat r = Z.to_nat i) as Heq; [|lia].
      eapply (NoDup_lookup (object <$> l)); [done| |]; rewrite list_lookup_fmap; [by rewrite Hx1; simpl; rewrite Hx2|by rewrite He].
  - intros Hfull e. destruct F' as (Hok' & Hk' & Hf').
    destruct (Install_spec t' objs' (object e) (type e) (close e) Hok') as [[_ ->]|(r & t2 & Hr & Hb & _)]; [done|].
    exfalso. destruct Hr as [[-> _]|(_ & (x & Hx & Hx0) & _)]; [lia|]. apply (Hf' r x Hx) in Hx0. lia.
Qed.

Lemma table_fills_in_order_witness :
  let l := [mkExObj 0x100 NX_EXOBJ_THREAD 0; mkExObj 0x200 NX_EXOBJ_MUTEX 0] in
  exists t t', NX_ExposedObjectTableInit (Some (replicate 2 (mkExObj 9 NX_EXOBJ_NONE 9))) (mkTable 0 None) 2
      = Some (t, NX_EOK) /\
    install_all t l = Some (t', [0; 1]) /\
    NX_ExposedObjectLocate t' 0x200 NX_EXOBJ_MUTEX = Some 1 /\
    NX_ExposedObjectInstall t' 0x300 NX_EXOBJ_MUTEX 0 = Some (t', NX_ENORES, None).
Proof.
  intros l. destruct (table_fills_in_order (replicate 2 (mkExObj 9 NX_EXOBJ_NONE 9)) (mkTable 0 None) 2 l)
    as (t & t' & H1 & H2 & H3 & H4).
  - unfold NX_EXOBJ_MAX_NR. lia.
  - reflexivity.
  - simpl. lia.
  - repeat constructor; discriminate.
  - exact (bool_decide_unpack (NoDup [0x100; 0x200]) I).
  - exists t, t'. split; [exact H1|]. split; [exact H2|].
    split; [exact (proj2 (proj2 (H3 1 (mkExObj 0x200 NX_EXOBJ_MUTEX 0) eq_refl)))|].
    exact (H4 eq_refl (mkExObj 0x300 NX_EXOBJ_MUTEX 0)).
Defined.
End installing.

(** ** Uninstalling *)
Section uninstalling.
Context {W : Type} (close_call : Z -> Z -> NX_ExposedObjectType -> W -> W * NX_Error).
Implicit Types (t : NX_ExposedObjectTable) (objs : list NX_ExposedObject) (w : W).

(** What the close handler of an object does. *)
Definition closing (e : NX_ExposedObject) (w : W) : W * NX_Error :=
  if nz (close e) then close_call (close e) (object e) (type e) w else (w, NX_EOK).

Lemma Uninstall_spec t objs w solt e0 :
  table_ok t objs -> 0 <= solt < objectCount t -> zlookup objs 0 = Some e0 ->
  NX_ExposedObjectUninstalll close_call w t solt =
    if object e0 =? 0 then Some (w, t, NX_EFAULT)
    else let (w', err) := closing e0 w in
      if is_ok err then Some (w', mkTable (objectCount t) (Some (zinsert objs solt no_object)), NX_EOK)
      else Some (w', t, err).
Proof.
  intros Ht Hs He. pose proof Ht as (Ho & Hl & Hc). unfold NX_EXOBJ_MAX_NR in Hc.
  unfold NX_ExposedObjectUninstalll. rewrite Ho, u64_small, Z.geb_leb, (proj2 (Z.leb_gt _ _)), He, Some_bind by lia.
  destruct (object e0 =? 0); [done|]. fold (closing e0 w). destruct (closing e0 w) as [w' err].
  destruct (is_ok err); [|done]. cbn [negb].
  by destruct (set_solt_spec t objs solt no_object Ht Hs) as [-> _].
Qed.

(** With nothing in solt 0 the loop of [TableExit] closes nothing. *)
Lemma TableExit_loop_empty0 fuel : forall t objs w i e0,
  table_ok t objs -> zlookup objs 0 = Some e0 -> object e0 = 0 ->
  0 <= i <= objectCount t -> objectCount t - i < Z.of_nat fuel ->
  TableExit_loop close_call fuel w t i = Some (w, t).
Proof.
  induction fuel as [|fuel IH]; intros t objs w i e0 Ht He H0 Hi Hf; [lia|]. cbn [TableExit_loop].
  destruct (Z.ltb_spec i (objectCount t)); [|done].
  rewrite (Uninstall_spec t objs w i e0 Ht) by (done || lia). rewrite H0. cbn [Z.eqb]. rewrite Some_bind.
  apply (IH t objs w (i + 1) e0); (done || lia).
Qed.

(** what releasing does.  [Uninstall] of a solt calls the close handler of
    the object in solt 0, whatever the solt, and clears the solt asked for;
    so [TableExit] on a table whose solt 0 closes without error calls that
    one handler and leaves every other object installed and unclosed, and on
    a table with solt 0 free it closes nothing. *)
Theorem release_closes_solt_zero t objs w e0 :
  table_ok t objs -> zlookup objs 0 = Some e0 ->
  (forall solt, 0 <= solt < objectCount t -> object e0 <> 0 -> (closing e0 w).2 = NX_EOK ->
    NX_ExposedObjectUninstalll close_call w t solt =
      Some ((closing e0 w).1, mkTable (objectCount t) (Some (zinsert objs solt no_object)), NX_EOK)) /\
  (object e0 = 0 -> NX_ExposedObjectTableExit close_call w t = Some (w, t, NX_EOK)) /\
  (object e0 <> 0 -> (closing e0 w).2 = NX_EOK ->
    NX_ExposedObjectTableExit close_call w t =
      Some ((closing e0 w).1, mkTable (objectCount t) (Some (zinsert objs 0 no_object)), NX_EOK)).
Proof.
  intros Ht He. pose proof Ht as (_ & Hl & Hc).
  assert (Hone : forall solt, 0 <= solt < objectCount t -> object e0 <> 0 -> (closing e0 w).2 = NX_EOK ->
    NX_ExposedObjectUninstalll close_call w t solt =
      Some ((closing e0 w).1, mkTable (objectCount t) (Some (zinsert objs solt no_object)), NX_EOK)).
  { intros solt Hs Hne Hok. rewrite (Uninstall_spec t objs w solt e0) by done.
    rewrite (proj2 (Z.eqb_neq _ _)) by done. destruct (closing e0 w) as [w' err]. cbn in *. by subst. }
  split; [done|]. unfold NX_ExposedObjectTableExit. split.
  - intros H0. rewrite (TableExit_loop_empty0 _ t objs w 0 e0) by (done || lia). done.
  - intros Hne Hok. cbn [TableExit_loop]. rewrite (proj2 (Z.ltb_lt 0 (objectCount t))), Hone by (done || lia).
    rewrite Some_bind. cbv beta iota. change (0 + 1) with 1.
    destruct (set_solt_spec t objs 0 no_object Ht) as [_ Ht']; [lia|].
    assert (zlookup (zinsert objs 0 no_object) 0 = Some no_object) as H0
      by (by rewrite zlookup_zinsert, decide_True by lia).
    pose proof (TableExit_loop_empty0 (Z.to_nat (objectCount t)) _ _ (closing e0 w).1 1 no_object Ht' H0 eq_refl) as ->;
      cbn [objectCount]; [done|lia|lia].
Qed.
End uninstalling.

Lemma release_closes_solt_zero_witness :
  let call h o ty (w : list Z) := (w ++ [o], NX_EOK) in
  let t := mkTable 3 (Some [mkExObj 0x100 NX_EXOBJ_THREAD 1; mkExObj 0x200 NX_EXOBJ_MUTEX 1;
    mkExObj 0x300 NX_EXOBJ_DEVICE 1]) in
  NX_ExposedObjectUninstalll call [] t 2 = Some ([0x100], mkTable 3 (Some [mkExObj 0x100 NX_EXOBJ_THREAD 1;
    mkExObj 0x200 NX_EXOBJ_MUTEX 1; no_object]), NX_EOK) /\
  NX_ExposedObjectTableExit call [] t = Some ([0x100], mkTable 3 (Some [no_object;
    mkExObj 0x200 NX_EXOBJ_MUTEX 1; mkExObj 0x300 NX_EXOBJ_DEVICE 1]), NX_EOK).
Proof.
  intros call t.
  destruct (release_closes_solt_zero call t [mkExObj 0x100 NX_EXOBJ_THREAD 1; mkExObj 0x200 NX_EXOBJ_MUTEX 1;
    mkExObj 0x300 NX_EXOBJ_DEVICE 1] [] (mkExObj 0x100 NX_EXOBJ_THREAD 1)) as (H1 & _ & H2).
  - split; [reflexivity|]. split; [reflexivity|]. unfold NX_EXOBJ_MAX_NR. cbn. lia.
  - reflexivity.
  - split; [apply (H1 2); [cbn; lia|discriminate|reflexivity]|apply H2; [discriminate|reflexivity]].
Defined.
