(* ===== verification/Mmu.v ===== *)
(** The interface of the memory management unit: [include/base/mmu.h].

    [NX_MmuOps] is a table of function pointers that each architecture fills
    in; [MmuOps] is that table over the state [M] of the page tables and of the
    physical pages behind them, with the two services of other components the
    address spaces call along with it.  [MmuLaws] is what the address spaces
    rely on.  A result [None] is a panic.  [flat] is the simplest machine that
    keeps the laws, one table from page numbers to frames; the page tables of
    the riscv64 port (Sv39.v) keep them too. *)
From S2P Require Import Prelude Bits.

Class MmuOps (M : Type) := {
  mapPage : M -> Z -> Z -> Z -> option (M * Z);              (* virAddr, size, attr *)
  mapPageWithPhy : M -> Z -> Z -> Z -> Z -> option (M * Z);  (* virAddr, phyAddr, size, attr *)
  unmapPage : M -> Z -> Z -> option (M * NX_Error);
  vir2Phy : M -> Z -> option Z;
  pageIncrease : M -> Z -> option (M * NX_Error);            (* NX_PageIncrease *)
  freePageTable : M -> option (M * NX_Error);                (* NX_ProcessFreePageTable *)
  translate : M -> Z -> option (Z * Z)                       (* page number: frame, attributes *)
}.

(** Page [pg] lies in the [size] bytes from [addr]. *)
Definition in_pages (addr size pg : Z) : Prop :=
  addr / NX_PAGE_SIZE <= pg < (addr + size) / NX_PAGE_SIZE.

#[export] Instance in_pages_dec a z pg : Decision (in_pages a z pg).
Proof. unfold in_pages. solve_decision. Defined.

Definition page_range (addr size : Z) : Prop :=
  0 < addr /\ 0 < size /\ addr + size < 2 ^ 64 /\
  addr mod NX_PAGE_SIZE = 0 /\ size mod NX_PAGE_SIZE = 0.

(** The bytes from [addr] lie in the part of the virtual addresses a machine
    serves. *)
Definition vir_range (lo hi addr size : Z) : Prop := page_range addr size /\ lo <= addr /\ addr + size <= hi.

(** The outcome of mapping: refused, or the whole range and nothing else. *)
Definition mapped {M} `{MmuOps M} (m m' : M) (addr size attr r : Z) (frame : Z -> Z -> Prop) : Prop :=
  (r = 0 /\ forall pg, translate m' pg = translate m pg) \/
  (r = addr /\ (forall pg, in_pages addr size pg -> exists f, translate m' pg = Some (f, attr) /\ frame pg f) /\
   forall pg, ~ in_pages addr size pg -> translate m' pg = translate m pg).

Class MmuLaws (M : Type) `{MmuOps M} := {
  mmu_ok : M -> Prop;                                        (* its invariant *)
  vir_lo : Z;
  vir_hi : Z;
  attr_ok : Z -> Prop;
  phys_ok : M -> Z -> Z -> Prop;                             (* frames that may be shared *)
  attr_ok_nonzero : forall attr, attr_ok attr -> attr <> 0;
  mapPage_law : forall (m : M) addr size attr,
    mmu_ok m -> vir_range vir_lo vir_hi addr size -> attr_ok attr ->
    (forall pg, in_pages addr size pg -> translate m pg = None) ->
    exists m' r, mapPage m addr size attr = Some (m', r) /\ mmu_ok m' /\
      mapped m m' addr size attr r (fun _ _ => True);
  mapPageWithPhy_law : forall (m : M) addr phy size attr,
    mmu_ok m -> vir_range vir_lo vir_hi addr size -> attr_ok attr -> phys_ok m phy size ->
    (forall pg, in_pages addr size pg -> translate m pg = None) ->
    exists m0 e m' r, pageIncrease m (Z.land phy (not64 NX_PAGE_MASK)) = Some (m0, e) /\
      mapPageWithPhy m0 addr phy size attr = Some (m', r) /\ mmu_ok m' /\
      mapped m m' addr size attr r (fun pg f => f = phy / NX_PAGE_SIZE + (pg - addr / NX_PAGE_SIZE));
  unmapPage_law : forall (m : M) addr size,
    mmu_ok m -> vir_range vir_lo vir_hi addr size ->
    (forall pg, in_pages addr size pg -> is_Some (translate m pg)) ->
    exists m', unmapPage m addr size = Some (m', NX_EOK) /\ mmu_ok m' /\
      (forall pg, in_pages addr size pg -> translate m' pg = None) /\
      forall pg, ~ in_pages addr size pg -> translate m' pg = translate m pg;
  vir2Phy_law : forall (m : M) addr f attr,
    mmu_ok m -> 0 <= addr -> translate m (addr / NX_PAGE_SIZE) = Some (f, attr) ->
    vir2Phy m addr = Some (f * NX_PAGE_SIZE + addr mod NX_PAGE_SIZE)
}.

(** ** A flat page table *)
Record flat := mkFlat { ptes : gmap Z (Z * Z); frames : list Z }.

Definition range_pages (addr size : Z) : list Z := seqZ (addr / NX_PAGE_SIZE) (size / NX_PAGE_SIZE).

Definition flat_map (m : flat) (addr size attr : Z) (fs : list Z) (rest : list Z) : flat * Z :=
  let pages := range_pages addr size in
  if bool_decide (Forall (fun pg => ptes m !! pg = None) pages) && (length pages =? length fs)%nat then
    (mkFlat (list_to_map (zip pages ((fun f => (f, attr)) <$> fs)) ∪ ptes m) rest, addr)
  else (m, 0).

#[export] Instance flat_ops : MmuOps flat := {|
  mapPage m addr size attr :=
    let n := length (range_pages addr size) in
    Some (flat_map m addr size attr (take n (frames m)) (drop n (frames m)));
  mapPageWithPhy m addr phy size attr :=
    Some (flat_map m addr size attr (seqZ (phy / NX_PAGE_SIZE) (size / NX_PAGE_SIZE)) (frames m));
  unmapPage m addr size :=
    let pages := range_pages addr size in
    if bool_decide (Forall (fun pg => is_Some (ptes m !! pg)) pages) then
      Some (mkFlat (foldr delete (ptes m) pages) (omap (fun pg => fst <$> ptes m !! pg) pages ++ frames m), NX_EOK)
    else None;
  vir2Phy m addr :=
    '(f, _) ← ptes m !! (addr / NX_PAGE_SIZE); Some (f * NX_PAGE_SIZE + addr mod NX_PAGE_SIZE);
  pageIncrease m _ := Some (m, NX_EOK);
  freePageTable m := Some (m, NX_EOK);
  translate m pg := ptes m !! pg
|}.

Lemma elem_of_range_pages addr size pg :
  page_range addr size -> pg ∈ range_pages addr size <-> in_pages addr size pg.
Proof.
  unfold page_range, in_pages, range_pages, NX_PAGE_SIZE. intros (? & ? & _ & Ha & Hs).
  rewrite elem_of_seqZ.
  assert ((addr + size) / 4096 = addr / 4096 + size / 4096) as ->; [|done]. zlia.
Qed.

Lemma length_range_pages addr size : 0 <= size -> Z.of_nat (length (range_pages addr size)) = size / NX_PAGE_SIZE.
Proof. intros. unfold range_pages, NX_PAGE_SIZE. rewrite length_seqZ. zlia. Qed.

Lemma flat_map_spec m addr size attr fs rest :
  page_range addr size -> length (range_pages addr size) = length fs ->
  (forall pg, in_pages addr size pg -> ptes m !! pg = None) ->
  exists m', flat_map m addr size attr fs rest = (m', addr) /\
    (forall pg, in_pages addr size pg ->
       exists f, fs !! Z.to_nat (pg - addr / NX_PAGE_SIZE) = Some f /\ ptes m' !! pg = Some (f, attr)) /\
    forall pg, ~ in_pages addr size pg -> ptes m' !! pg = ptes m !! pg.
Proof.
  intros Hr Hlen Hnone. unfold flat_map. rewrite bool_decide_eq_true_2, Hlen, Nat.eqb_refl.
  2:{ apply Forall_forall. intros pg Hpg. apply Hnone. by apply elem_of_range_pages. }
  cbn [andb]. eexists. split; [reflexivity|]. cbn [ptes].
  set (vs := (fun f => (f, attr)) <$> fs).
  assert (Hkeys : (zip (range_pages addr size) vs).*1 = range_pages addr size).
  { apply fst_zip. unfold vs. rewrite length_fmap. lia. }
  split.
  - intros pg Hpg. pose proof Hpg as Hin. apply elem_of_range_pages in Hin; [|done].
    apply list_elem_of_lookup in Hin as [i Hi].
    destruct (lookup_lt_is_Some_2 fs i) as [f Hf].
    { apply lookup_lt_Some in Hi. by rewrite Hlen in Hi. }
    assert (pg = addr / NX_PAGE_SIZE + Z.of_nat i) as ->
      by (unfold range_pages in Hi; apply lookup_seqZ in Hi; lia).
    exists f. replace (Z.to_nat _) with i by lia. split; [done|].
    rewrite lookup_union_l'. 2:{ eexists. apply elem_of_list_to_map_1; [by rewrite Hkeys; apply NoDup_seqZ|].
      apply list_elem_of_lookup. exists i. apply lookup_zip_Some. split; [done|].
      unfold vs. rewrite list_lookup_fmap, Hf. reflexivity. }
    apply elem_of_list_to_map_1; [by rewrite Hkeys; apply NoDup_seqZ|].
    apply list_elem_of_lookup. exists i. apply lookup_zip_Some. split; [done|].
    unfold vs. by rewrite list_lookup_fmap, Hf.
  - intros pg Hpg. rewrite lookup_union_r; [done|]. apply not_elem_of_list_to_map_1.
    rewrite Hkeys. by rewrite elem_of_range_pages.
Qed.

Lemma lookup_foldr_delete (m : gmap Z (Z * Z)) l pg :
  foldr delete m l !! pg = if decide (pg ∈ l) then None else m !! pg.
Proof.
  induction l as [|x l IH]; cbn [foldr].
  { case_decide as H; [by apply elem_of_nil in H|done]. }
  destruct (decide (pg = x)) as [->|Hne].
  - rewrite lookup_delete_eq, decide_True; [done|left].
  - rewrite lookup_delete_ne, IH by done. repeat case_decide; set_solver.
Qed.

#[export] Instance flat_laws : MmuLaws flat.
Proof.
  refine (Build_MmuLaws flat _ (fun _ => True) 0 (2 ^ 64) (fun a => a <> 0) (fun _ _ _ => True) _ _ _ _ _).
  - done.
  - intros m addr size attr _ [Hr _] _ Hnone. cbn [mapPage flat_ops translate] in *.
    set (n := length (range_pages addr size)).
    destruct (decide (length (take n (frames m)) = n)) as [Hn|Hn].
    + destruct (flat_map_spec m addr size attr (take n (frames m)) (drop n (frames m)) Hr) as (m' & -> & H1 & H2);
        [done|done|]. exists m', addr. split; [done|]. split; [done|]. right. split; [done|]. split; [|done].
      intros pg Hpg. destruct (H1 pg Hpg) as (f & _ & Hp). exists f. by split.
    + exists m, 0. unfold flat_map. fold n. rewrite (proj2 (Nat.eqb_neq n _)) by done. rewrite andb_false_r.
      split; [done|]. split; [done|]. by left.
  - intros m addr phy size attr _ [Hr _] _ _ Hnone. cbn [mapPageWithPhy pageIncrease flat_ops translate] in *.
    destruct (flat_map_spec m addr size attr (seqZ (phy / NX_PAGE_SIZE) (size / NX_PAGE_SIZE)) (frames m) Hr)
      as (m' & E & H1 & H2); [by unfold range_pages; rewrite !length_seqZ|done|].
    exists m, NX_EOK, m', addr. rewrite E. split; [done|]. split; [done|]. split; [done|].
    right. split; [done|]. split; [|done].
    intros pg Hpg. destruct (H1 pg Hpg) as (f & Hf & Hp). apply lookup_seqZ in Hf. exists f.
    unfold in_pages in Hpg. split; [exact Hp|lia].
  - intros m addr size _ [Hr _] Hall. cbn [unmapPage flat_ops translate] in *.
    rewrite bool_decide_eq_true_2.
    2:{ apply Forall_forall. intros pg Hpg. apply Hall. by apply elem_of_range_pages. }
    eexists. split; [reflexivity|]. split; [done|]. cbn [ptes]. split; intros pg Hpg; rewrite lookup_foldr_delete;
      case_decide as H; rewrite elem_of_range_pages in H by done; done.
  - intros m addr f attr _ _ Hf. cbn [vir2Phy flat_ops translate] in *. by rewrite Hf.
Defined.

(** ** Fresh frames

    What those who only map pages with [mapPage] rely on: no frame is mapped
    twice, and none is frame 0. *)
Definition distinct_frames {M} `{MmuOps M} (m : M) : Prop :=
  forall pg pg' f a a', translate m pg = Some (f, a) -> translate m pg' = Some (f, a') -> pg = pg'.

Class MmuFresh (M : Type) `{MmuLaws M} := {
  mmu_fresh : M -> Prop;
  fresh_distinct : forall (m : M), mmu_ok m -> mmu_fresh m -> distinct_frames m;
  fresh_positive : forall (m : M) pg f a, mmu_ok m -> mmu_fresh m -> translate m pg = Some (f, a) -> 0 < f;
  mapPage_fresh : forall (m m' : M) addr size attr r,
    mmu_ok m -> mmu_fresh m -> vir_range vir_lo vir_hi addr size -> attr_ok attr ->
    (forall pg, in_pages addr size pg -> translate m pg = None) ->
    mapPage m addr size attr = Some (m', r) -> mmu_fresh m'
}.

(** Mapped frames are positive, distinct, and none of the free ones. *)
Definition flat_fresh (m : flat) : Prop :=
  NoDup (frames m) /\ Forall (Z.lt 0) (frames m) /\ distinct_frames m /\
  forall pg f a, ptes m !! pg = Some (f, a) -> 0 < f /\ f ∉ frames m.

Lemma flat_map_fresh m n addr size attr m' r :
  page_range addr size -> n = length (range_pages addr size) ->
  (forall pg, in_pages addr size pg -> ptes m !! pg = None) ->
  flat_fresh m -> flat_map m addr size attr (take n (frames m)) (drop n (frames m)) = (m', r) -> flat_fresh m'.
Proof.
  intros Hr -> Hnone (Hnd & Hpos & Hdist & Hused) Hmap.
  set (n := length _) in *.
  destruct (decide (length (take n (frames m)) = n)) as [Hn|Hn].
  2:{ unfold flat_map in Hmap. fold n in Hmap. rewrite (proj2 (Nat.eqb_neq n _)), andb_false_r in Hmap by done.
      injection Hmap as <- <-. done. }
  destruct (flat_map_spec m addr size attr (take n (frames m)) (drop n (frames m)) Hr) as (m1 & E & H1 & H2); [done|done|].
  assert (frames m' = drop n (frames m)) as Hfr.
  { unfold flat_map in Hmap. destruct (_ && _)%bool eqn:Eb; injection Hmap as <- <-; [done|].
    unfold flat_map in E. rewrite Eb in E. exfalso. injection E as _ E. destruct Hr. lia. }
  assert (m' = m1) as -> by congruence. clear E Hmap.
  rewrite <- (take_drop n (frames m)) in Hnd, Hpos. apply NoDup_app in Hnd as (Hnd1 & Hnd2 & Hnd3).
  apply Forall_app in Hpos as [Hpos1 Hpos2]. rewrite Forall_forall in Hpos1.
  assert (forall pg f a, ptes m1 !! pg = Some (f, a) ->
    (in_pages addr size pg /\ take n (frames m) !! Z.to_nat (pg - addr / NX_PAGE_SIZE) = Some f) \/
    (~ in_pages addr size pg /\ ptes m !! pg = Some (f, a))) as Hcase.
  { intros pg f a Hf. destruct (decide (in_pages addr size pg)) as [Hi|Hi]; [left|right].
    - destruct (H1 pg Hi) as (g & Hg & Hg'). split; [done|]. congruence.
    - split; [done|]. by rewrite <- H2. }
  assert (forall pg f a, ptes m1 !! pg = Some (f, a) -> in_pages addr size pg -> f ∈ take n (frames m)) as Hin.
  { intros pg f a [[_ Hf]|[Hf _]]%Hcase Hi; [|done]. by apply list_elem_of_lookup_2 in Hf. }
  assert (forall f, f ∈ take n (frames m) -> f ∈ frames m) as Hsub.
  { intros f Hf. rewrite <- (take_drop n (frames m)), elem_of_app. by left. }
  unfold flat_fresh. rewrite Hfr. split; [done|]. split; [done|]. split.
  - intros pg pg' f a a' Hf Hf'. cbn [translate flat_ops] in *.
    destruct (Hcase pg f a Hf) as [[Hi Hk]|[Hi Hk]], (Hcase pg' f a' Hf') as [[Hi' Hk']|[Hi' Hk']].
    + pose proof (NoDup_lookup _ _ _ _ Hnd1 Hk Hk'). unfold in_pages in *. lia.
    + destruct (Hused pg' f a' Hk') as [_ []]. eauto.
    + destruct (Hused pg f a Hk) as [_ []]. eauto.
    + by eapply Hdist.
  - intros pg f a Hf. destruct (Hcase pg f a Hf) as [[Hi Hk]|[Hi Hk]].
    + apply Hin in Hf; [|done]. split; [by apply Hpos1|]. intros Hd. by apply (Hnd2 f).
    + destruct (Hused pg f a Hk) as [? Hno]. split; [done|]. intros Hd. apply Hno.
      rewrite <- (take_drop n (frames m)), elem_of_app. by right.
Qed.

#[export] Instance flat_mmu_fresh : MmuFresh flat.
Proof.
  refine (Build_MmuFresh flat _ _ flat_fresh _ _ _).
  - by intros m _ (_ & _ & ? & _).
  - intros m pg f a _ (_ & _ & _ & Hf) Ht. by destruct (Hf pg f a Ht).
  - intros m m' addr size attr r _ Hfresh [Hr _] _ Hnone Hmap. cbn [mapPage flat_ops translate] in *.
    injection Hmap as Hmap. by eapply flat_map_fresh.
Defined.
