(* ===== verification/Sv39.v ===== *)
(** The page tables of the riscv64 port: [arch/riscv64/port/mmu.c], with
    [mm/mmu.c] and the operations on page tables of [arch/riscv64/port/process.c].

    Three levels of tables of 512 entries of 8 bytes.  The state holds the page
    zones, the physical memory the tables lie in, by address of an entry, and
    the descriptor of one address space.  Kernel addresses are physical
    addresses ([KVADDR_OFFSET] is 0), and [NX_PAGE_ATTR_EXT] is 0 as on the
    qemu platform.  The operations run with interrupts off.

    [sv39_ok] is the invariant: the entries are a tree of tables over the pages
    of the user space, every table but the root is a page of the zone whose
    reference count is one more than its number of entries, and a frame in the
    zone has at least as many references as entries.  [sv39_laws] shows that the
    port keeps the laws the address spaces rely on. *)
From S2P Require Import Prelude Bits Buddy Page Mmu.
#[local] Coercion Z.of_nat : nat >-> Z.

(** ** [arch/mmu.h], [arch/process.h] and the macros of [mmu.c] *)
Definition PTE_V : Z := 0x1.
Definition PTE_R : Z := 0x2.
Definition PTE_W : Z := 0x4.
Definition PTE_X : Z := 0x8.
Definition PTE_U : Z := 0x10.
Definition PTE_G : Z := 0x20.
Definition NX_PAGE_ATTR_EXT : Z := 0.
Definition NX_PAGE_ATTR_RWX : Z := Z.lor (Z.lor PTE_X PTE_W) PTE_R.
Definition NX_PAGE_ATTR_USER : Z := Z.lor (Z.lor (Z.lor PTE_V NX_PAGE_ATTR_RWX) PTE_U) PTE_G.
Definition NX_USER_SPACE_VADDR : Z := 0x100000000.
Definition NX_USER_SPACE_TOP : Z := 0x400000000.

Definition PAGE_IS_LEAF (pte : Z) : bool := nz (Z.land pte NX_PAGE_ATTR_RWX).
Definition PTE_USED (pte : Z) : bool := nz (Z.land pte PTE_V).
Definition GET_PF_ID (addr : Z) : Z := addr >> NX_PAGE_SHIFT.
Definition VPN_MASK : Z := 0x1FF.
Definition VPN_SHIFT (level : Z) : Z := NX_PAGE_SHIFT + 9 * level.
Definition GET_LEVEL_OFF (level va : Z) : Z := Z.land (va >> VPN_SHIFT level) VPN_MASK.
Definition PTE2PADDR (pte : Z) : Z := Z.land (pte >> 10) 0xFFFFFFF << NX_PAGE_SHIFT.
Definition PADDR2PTE (pa : Z) : Z := (pa >> 12) << 10.
Definition NX_PAGE_ADDR_MASK : Z := not64 NX_PAGE_MASK.

(** ** [mm/mmu.c] *)
Record NX_Mmu := mkMmu { table : Z; virStart : Z; virEnd : Z; earlyEnd : Z }.

Definition NX_MmuInit (pageTable virStart size earlyEnd : Z) : NX_Mmu :=
  mkMmu pageTable (Z.land virStart NX_PAGE_ADDR_MASK) (u64 (virStart + NX_PAGE_ALIGNUP size))
    (Z.land earlyEnd NX_PAGE_ADDR_MASK).

(** ** The register of the page table *)
Definition MMU_MODE_MASK : Z := 0xF << 60.
Definition MAKE_SATP_MODE : Z := 8 << 60.
Definition MAKE_SATP_ADDR (pageTable : Z) : Z := pageTable >> NX_PAGE_SHIFT.
Definition GET_ADDR_FROM_SATP (satp : Z) : Z := u64 (satp << NX_PAGE_SHIFT).

Definition NX_HalSetPageTable (satp addr : Z) : Z := Z.lor (Z.land satp MMU_MODE_MASK) (MAKE_SATP_ADDR addr).
Definition NX_HalGetPageTable (satp : Z) : Z := GET_ADDR_FROM_SATP satp.
Definition NX_HalEnable (satp : Z) : Z := Z.lor satp MAKE_SATP_MODE.
Definition NX_HalProcessSwitchPageTable (satp pageTableVir : Z) : Z :=
  if negb (pageTableVir =? NX_HalGetPageTable satp) then NX_HalSetPageTable satp pageTableVir else satp.

(** ** The state and its parts *)
Record sv39 := mkSv39 { zs : zones; mem : Z -> Z; mmu : NX_Mmu }.

Definition load (s : sv39) (pte : Z) : Z := mem s pte.
Definition store (s : sv39) (pte x : Z) : sv39 :=
  mkSv39 (zs s) (fun a => if a =? pte then x else mem s a) (mmu s).
Definition MemZero (s : sv39) (a size : Z) : sv39 :=
  mkSv39 (zs s) (fun b => if (a <=? b) && (b <? a + size) then 0 else mem s b) (mmu s).
Definition with_zs (s : sv39) (z : zones) : sv39 := mkSv39 z (mem s) (mmu s).

Definition NX_PageAlloc (s : sv39) : option (sv39 * Z) :=
  '(z, a) ← NX_PageAllocInZone (zs s) NX_PAGE_ZONE_NORMAL 1; Some (with_zs s z, a).
Definition NX_PageFree (s : sv39) (ptr : Z) : option (sv39 * NX_Error) :=
  '(z, e) ← NX_PageFreeInZone (zs s) NX_PAGE_ZONE_NORMAL ptr; Some (with_zs s z, e).
Definition NX_PageIncrease (s : sv39) (ptr : Z) : option (sv39 * NX_Error) :=
  '(z, e) ← NX_PageIncreaseInZone (zs s) NX_PAGE_ZONE_NORMAL ptr; Some (with_zs s z, e).

(** The table an entry lies in. *)
Definition levelPageTable (pte : Z) : Z := Z.land pte NX_PAGE_ADDR_MASK.

(** ** Walking *)

(** The loop of [PageWalk] with [level] levels to go; the answer is the address
    of the entry of the page, 0 for the null pointer. *)
Fixpoint PageWalk_loop (level : nat) (s : sv39) (pageTable virAddr : Z) (allocPage : bool) : option (sv39 * Z) :=
  let pte := pageTable + 8 * GET_LEVEL_OFF (Z.of_nat level) virAddr in
  match level with
  | O => Some (s, pte)
  | S level =>
      if PTE_USED (load s pte) then
        let pageTable := PTE2PADDR (load s pte) in
        assert (nz pageTable);; PageWalk_loop level s pageTable virAddr allocPage
      else if negb allocPage then Some (s, 0)
      else
        '(s, pageTable) ← NX_PageAlloc s;
        if pageTable =? 0 then Some (s, 0)
        else
          let s := MemZero s pageTable NX_PAGE_SIZE in
          '(s, _) ← NX_PageIncrease s (levelPageTable pte);
          let s := store s pte (Z.lor (Z.lor (PADDR2PTE pageTable) PTE_V) NX_PAGE_ATTR_EXT) in
          PageWalk_loop level s pageTable virAddr allocPage
  end.

Definition PageWalk (s : sv39) (pageTable virAddr : Z) (allocPage : bool) : option (sv39 * Z) :=
  assert (nz pageTable);; PageWalk_loop 2 s pageTable virAddr allocPage.

(** The entries of the three levels, from the root down; [NX_EFAULT] is [None]. *)
Fixpoint PageWalkPTE_loop (level : nat) (s : sv39) (pageTable virAddr : Z) : option (list Z) :=
  let pte := pageTable + 8 * GET_LEVEL_OFF (Z.of_nat level) virAddr in
  match level with
  | O => Some [pte]
  | S level =>
      if PTE_USED (load s pte) then
        l ← PageWalkPTE_loop level s (PTE2PADDR (load s pte)) virAddr; Some (pte :: l)
      else None
  end.
Definition PageWalkPTE (s : sv39) (pageTable virAddr : Z) : option (list Z) := PageWalkPTE_loop 2 s pageTable virAddr.

Definition IsVirAddrMapped (s : sv39) (virAddr : Z) : option bool :=
  '(_, pte) ← PageWalk s (table (mmu s)) virAddr false;
  Some (if pte =? 0 then false else PTE_USED (load s pte)).

(** ** One page *)
Definition MapOnePage (s : sv39) (virAddr phyAddr attr : Z) : option (sv39 * NX_Error) :=
  used ← IsVirAddrMapped s virAddr;
  if (used : bool) then Some (s, NX_EINVAL)
  else
    '(s, pte) ← PageWalk s (table (mmu s)) virAddr true;
    if pte =? 0 then Some (s, NX_EFAULT)
    else
      assert (negb (PTE_USED (load s pte)));;
      '(s, _) ← NX_PageIncrease s (levelPageTable pte);
      Some (store s pte (Z.lor (Z.lor (PADDR2PTE phyAddr) attr) NX_PAGE_ATTR_EXT), NX_EOK).

(** Dropping the reference of an entry that was cleared, and the tables it was
    the last reference to. *)
Definition drop_table (s : sv39) (pte : Z) : option (sv39 * bool) :=
  '(s, err) ← NX_PageFree s (levelPageTable pte); Some (s, is_ok err).
Definition clear_pde (s : sv39) (pte child : Z) : option sv39 :=
  assert (PTE_USED (load s pte));; assert (negb (PAGE_IS_LEAF (load s pte)));;
  assert (levelPageTable child =? PTE2PADDR (load s pte));; Some (store s pte 0).

Definition UnmapOnePage (s : sv39) (virAddr : Z) : option (sv39 * NX_Error) :=
  l ← PageWalkPTE s (table (mmu s)) virAddr;
  match l with
  | [pte2; pte1; pte0] =>
      assert (nz pte0);; assert (PTE_USED (load s pte0));; assert (PAGE_IS_LEAF (load s pte0));;
      let phyPage := PTE2PADDR (load s pte0) in
      assert (nz phyPage);;
      '(s, _) ← NX_PageFree s phyPage;
      let s := store s pte0 0 in
      '(s, gone) ← drop_table s pte0;
      if negb gone then Some (s, NX_EOK)
      else
        s ← clear_pde s pte1 pte0;
        '(s, gone) ← drop_table s pte1;
        if negb gone then Some (s, NX_EOK) else s ← clear_pde s pte2 pte1; Some (s, NX_EOK)
  | _ => None
  end.

(** ** Ranges of pages *)
Fixpoint UnmapPage (pages : nat) (s : sv39) (virAddr : Z) : option (sv39 * NX_Error) :=
  match pages with
  | O => Some (s, NX_EOK)
  | S pages => '(s, _) ← UnmapOnePage s virAddr; UnmapPage pages s (u64 (virAddr + NX_PAGE_SIZE))
  end.

(** The loops answer whether all pages were mapped; [mappedPages] counts. *)
Fixpoint MapPageWithPhy_loop (pages : nat) (s : sv39) (addrStart virAddr phyAddr attr : Z) (mappedPages : nat) :
    option (sv39 * Z) :=
  match pages with
  | O => Some (s, addrStart)
  | S pages =>
      '(s, err) ← MapOnePage s virAddr phyAddr attr;
      if negb (is_ok err) then '(s, _) ← UnmapPage mappedPages s addrStart; Some (s, 0)
      else MapPageWithPhy_loop pages s addrStart (u64 (virAddr + NX_PAGE_SIZE)) (u64 (phyAddr + NX_PAGE_SIZE)) attr (S mappedPages)
  end.

Definition page_count (virAddr size : Z) : Z := GET_PF_ID (u64 (virAddr + size - 1)) - GET_PF_ID virAddr + 1.

Definition MapPageWithPhy (s : sv39) (virAddr phyAddr size attr : Z) : option (sv39 * Z) :=
  MapPageWithPhy_loop (Z.to_nat (page_count virAddr size)) s virAddr virAddr phyAddr attr 0.

Fixpoint MapPage_loop (pages : nat) (s : sv39) (addrStart virAddr attr : Z) (mappedPages : nat) : option (sv39 * Z) :=
  match pages with
  | O => Some (s, addrStart)
  | S pages =>
      '(s, phyAddr) ← NX_PageAlloc s;
      if phyAddr =? 0 then '(s, _) ← UnmapPage mappedPages s addrStart; Some (s, 0)
      else
        '(s, err) ← MapOnePage s virAddr phyAddr attr;
        if negb (is_ok err) then
          '(s, _) ← NX_PageFree s phyAddr; '(s, _) ← UnmapPage mappedPages s addrStart; Some (s, 0)
        else MapPage_loop pages s addrStart (u64 (virAddr + NX_PAGE_SIZE)) attr (S mappedPages)
  end.

Definition MapPage (s : sv39) (virAddr size attr : Z) : option (sv39 * Z) :=
  MapPage_loop (Z.to_nat (page_count virAddr size)) s virAddr virAddr attr 0.

(** ** The operations of the port *)
Definition NX_HalMapPage (s : sv39) (virAddr size attr : Z) : option (sv39 * Z) :=
  if negb (nz attr) then Some (s, 0)
  else MapPage s (Z.land virAddr NX_PAGE_ADDR_MASK) (NX_PAGE_ALIGNUP size) attr.

Definition NX_HalMapPageWithPhy (s : sv39) (virAddr phyAddr size attr : Z) : option (sv39 * Z) :=
  if negb (nz attr) then Some (s, 0)
  else MapPageWithPhy s (Z.land virAddr NX_PAGE_ADDR_MASK) (Z.land phyAddr NX_PAGE_ADDR_MASK) (NX_PAGE_ALIGNUP size) attr.

Definition NX_HalUnmapPage (s : sv39) (virAddr size : Z) : option (sv39 * NX_Error) :=
  let virAddr := Z.land virAddr NX_PAGE_ADDR_MASK in
  UnmapPage (Z.to_nat (u64 (page_count virAddr (NX_PAGE_ALIGNUP size)))) s virAddr.

Definition NX_HalVir2Phy (s : sv39) (virAddr : Z) : option Z :=
  '(_, pte) ← PageWalk s (table (mmu s)) virAddr false;
  assert (nz pte);; assert (PTE_USED (load s pte));;
  Some (PTE2PADDR (load s pte) + virAddr mod NX_PAGE_SIZE).

(** What an entry says about a page of the user space: its frame and its
    attributes. *)
Definition user_page (pg : Z) : bool := (NX_USER_SPACE_VADDR / NX_PAGE_SIZE <=? pg) && (pg <? NX_USER_SPACE_TOP / NX_PAGE_SIZE).

Definition lookup_page (s : sv39) (pg : Z) : option (Z * Z) :=
  assert (user_page pg);;
  '(_, pte) ← PageWalk s (table (mmu s)) (pg * NX_PAGE_SIZE) false;
  assert (nz pte);; assert (PTE_USED (load s pte));;
  Some (PTE2PADDR (load s pte) / NX_PAGE_SIZE, Z.land (load s pte) 0x3FF).

(** ** Entries and indices *)
Definition entry_of (f at_ : Z) : Z := f * 1024 + at_.

Lemma entry_lor f at_ : 0 <= at_ < 1024 -> Z.lor (f << 10) at_ = entry_of f at_.
Proof.
  intros Ha. assert (Hl : Z.land (f << 10) at_ = 0).
  { rewrite <- (Z.mod_small at_ (2 ^ 10)) by lia. rewrite <- Z.land_ones, (Z.land_comm at_), Z.land_assoc, Z.land_ones by lia.
    rewrite Z.shiftl_mul_pow2, Z.mod_mul by lia. done. }
  rewrite <- Z.add_nocarry_lor, Z.shiftl_mul_pow2 by (done || lia). done.
Qed.

Lemma make_entry pa at_ :
  0 <= pa -> 0 <= at_ < 1024 -> Z.lor (Z.lor (PADDR2PTE pa) at_) NX_PAGE_ATTR_EXT = entry_of (pa / NX_PAGE_SIZE) at_.
Proof.
  intros Hp Ha. unfold PADDR2PTE, NX_PAGE_ATTR_EXT. rewrite Z.lor_0_r, entry_lor by done.
  by rewrite Z.shiftr_div_pow2.
Qed.

Lemma entry_low f at_ c : 0 <= at_ < 1024 -> 0 <= c < 1024 -> Z.land (entry_of f at_) c = Z.land at_ c.
Proof.
  intros Ha Hc. rewrite <- (Z.mod_small c (2 ^ 10)) by lia.
  rewrite <- (Z.land_ones c) by lia. rewrite (Z.land_comm c), !Z.land_assoc, !Z.land_ones by lia.
  f_equal. unfold entry_of. rewrite Z.add_comm. change 1024 with (2 ^ 10). by rewrite Z.mod_add.
Qed.

Lemma PTE_USED_entry f at_ : 0 <= at_ < 1024 -> PTE_USED (entry_of f at_) = PTE_USED at_.
Proof. intros. unfold PTE_USED, PTE_V. by rewrite entry_low by lia. Qed.

Lemma PAGE_IS_LEAF_entry f at_ : 0 <= at_ < 1024 -> PAGE_IS_LEAF (entry_of f at_) = PAGE_IS_LEAF at_.
Proof. intros. unfold PAGE_IS_LEAF. change NX_PAGE_ATTR_RWX with 14. by rewrite entry_low by lia. Qed.

Lemma entry_attr f at_ : 0 <= at_ < 1024 -> Z.land (entry_of f at_) 0x3FF = at_.
Proof.
  intros. rewrite entry_low by lia. change 0x3FF with (Z.ones 10). rewrite Z.land_ones by lia.
  apply Z.mod_small. lia.
Qed.

Lemma PTE2PADDR_entry f at_ : 0 <= f < 2 ^ 28 -> 0 <= at_ < 1024 -> PTE2PADDR (entry_of f at_) = f * NX_PAGE_SIZE.
Proof.
  intros Hf Ha. unfold PTE2PADDR, entry_of, NX_PAGE_SHIFT. change 0xFFFFFFF with (Z.ones 28).
  rewrite Z.land_ones, Z.shiftr_div_pow2, Z.shiftl_mul_pow2 by lia. change (2 ^ 10) with 1024.
  rewrite Z.div_add_l, (Z.div_small at_), Z.add_0_r, Z.mod_small by lia. done.
Qed.

(** The number of the table or page over [pg] whose entry is on level [l]. *)
Definition upper (l : nat) (pg : Z) : Z := pg / 2 ^ (9 * l).

Lemma upper_S l pg : upper (S l) pg = upper l pg / 512.
Proof.
  unfold upper. replace (9 * Z.of_nat (S l)) with (9 * l + 9) by lia.
  rewrite Z.pow_add_r, <- Z.div_div by lia. done.
Qed.

Lemma upper_0 pg : upper 0 pg = pg.
Proof. apply Z.div_1_r. Qed.

Lemma GET_LEVEL_OFF_spec (l : nat) pg r :
  0 <= r < NX_PAGE_SIZE -> GET_LEVEL_OFF l (pg * NX_PAGE_SIZE + r) = upper l pg mod 512.
Proof.
  intros Hr. unfold GET_LEVEL_OFF, VPN_SHIFT, NX_PAGE_SHIFT, upper. change VPN_MASK with (Z.ones 9).
  rewrite Z.land_ones, Z.shiftr_div_pow2, Z.pow_add_r, <- Z.div_div by lia.
  change (2 ^ 12) with NX_PAGE_SIZE. rewrite Z.div_add_l, (Z.div_small r) by (done || lia). by rewrite Z.add_0_r.
Qed.

Lemma GET_LEVEL_OFF_page (l : nat) pg : GET_LEVEL_OFF l (pg * NX_PAGE_SIZE) = upper l pg mod 512.
Proof. rewrite <- (Z.add_0_r (pg * NX_PAGE_SIZE)). by apply GET_LEVEL_OFF_spec. Qed.

Lemma split_index x : x / 512 * 512 + x mod 512 = x /\ 0 <= x mod 512 < 512.
Proof. zlia. Qed.

Lemma levelPageTable_spec a k :
  0 <= a < 2 ^ 63 -> a mod NX_PAGE_SIZE = 0 -> 0 <= k < 512 -> levelPageTable (a + 8 * k) = a.
Proof.
  intros Ha Hm Hk. unfold levelPageTable, NX_PAGE_ADDR_MASK.
  change (NX_PAGE_ALIGNDOWN (a + 8 * k) = a). rewrite NX_PAGE_ALIGNDOWN_spec by lia.
  unfold NX_PAGE_SIZE in *. zlia.
Qed.

(** Entries of different tables, or different entries, do not overlap. *)
Lemma entries_apart a k a' k' :
  a mod NX_PAGE_SIZE = 0 -> a' mod NX_PAGE_SIZE = 0 -> 0 <= k < 512 -> 0 <= k' < 512 ->
  a + 8 * k = a' + 8 * k' -> a = a' /\ k = k'.
Proof. unfold NX_PAGE_SIZE. intros. zlia. Qed.

(** ** Counting *)
Definition count_in (P : Z -> Prop) `{forall x, Decision (P x)} (j : Z) : Z := length (filter P (seqZ (j * 512) 512)).

Lemma count_in_bounds P `{forall x, Decision (P x)} j : 0 <= count_in P j <= 512.
Proof.
  unfold count_in. pose proof (length_filter P (seqZ (j * 512) 512)) as Hl. rewrite length_seqZ in Hl. lia.
Qed.

Lemma filter_one_more (P Q : Z -> Prop) `{forall x, Decision (P x)} `{forall x, Decision (Q x)} x (l : list Z) :
  NoDup l -> (forall y, y <> x -> P y <-> Q y) -> ~ P x -> Q x ->
  length (filter Q l) = (length (filter P l) + if decide (x ∈ l) then 1 else 0)%nat.
Proof.
  intros Hl Hs Hp Hq. induction Hl as [|y l Hy Hl IH]; [cbn; case_decide as E; [by apply elem_of_nil in E|done]|].
  destruct (decide (y = x)) as [->|Hne].
  - rewrite (filter_cons_True Q), (filter_cons_False P) by done. cbn [length]. rewrite IH.
    rewrite decide_False, decide_True by (done || by left). lia.
  - rewrite !filter_cons. assert (Hi : x ∈ y :: l <-> x ∈ l).
    { rewrite elem_of_cons. split; [intros [E|]; [by destruct Hne|done]|by right]. }
    destruct (Hs y Hne). repeat case_decide; cbn [length]; rewrite ?IH; repeat case_decide; try tauto; lia.
Qed.

Lemma count_in_more (P Q : Z -> Prop) `{forall x, Decision (P x)} `{forall x, Decision (Q x)} x j :
  (forall y, y <> x -> P y <-> Q y) -> ~ P x -> Q x ->
  count_in Q j = count_in P j + (if decide (j = x / 512) then 1 else 0).
Proof.
  intros Hs Hp Hq. unfold count_in. rewrite (filter_one_more P Q x) by (done || apply NoDup_seqZ).
  assert (x ∈ seqZ (j * 512) 512 <-> j = x / 512) as Hi by (rewrite elem_of_seqZ; split; intros; zlia).
  repeat case_decide; tauto || lia.
Qed.

Lemma filter_agree (P Q : Z -> Prop) `{forall x, Decision (P x)} `{forall x, Decision (Q x)} (l : list Z) :
  (forall y, y ∈ l -> P y <-> Q y) -> filter P l = filter Q l.
Proof.
  induction l as [|y l IH]; intros Hs; [done|]. rewrite !filter_cons, IH by (intros; apply Hs; by right).
  destruct (Hs y); [left|]. repeat case_decide; tauto.
Qed.

Lemma count_in_ext (P Q : Z -> Prop) `{forall x, Decision (P x)} `{forall x, Decision (Q x)} j :
  (forall y, y / 512 = j -> P y <-> Q y) -> count_in P j = count_in Q j.
Proof.
  intros Hs. unfold count_in. do 2 f_equal. apply filter_agree. intros y Hy%elem_of_seqZ. apply Hs. clear - Hy. zlia.
Qed.

(** ** The invariant

    The ghost state: the blocks [A] of the page zone, the tables [T] by level and
    number ([(2, 0)] is the root) and the mapped pages [L] with frame and
    attributes. *)
Definition attr_valid (at_ : Z) : Prop := 0 <= at_ < 1024 /\ PTE_USED at_ = true /\ PAGE_IS_LEAF at_ = true.

Abbreviation tables := (gmap (nat * Z) Z).
Abbreviation pages := (gmap Z (Z * Z)).

(** Number [x] on level [l] lies over pages of the user space. *)
Definition user_idx (l : nat) (x : Z) : Prop := 2 ^ (20 - 9 * l) <= x < 2 ^ (22 - 9 * l).

(** The entry of number [x] in the table of level [l] over it. *)
Definition entry (T : tables) (L : pages) (l : nat) (x : Z) : Z :=
  match l with
  | O => match L !! x with Some (f, at_) => entry_of f at_ | None => 0 end
  | S l => match T !! (l, x) with Some a => entry_of (a / NX_PAGE_SIZE) PTE_V | None => 0 end
  end.
Definition present (T : tables) (L : pages) (l : nat) (x : Z) : Prop :=
  match l with O => is_Some (L !! x) | S l => is_Some (T !! (l, x)) end.
#[export] Instance present_dec T L l x : Decision (present T L l x).
Proof. destruct l; cbn; apply _. Defined.
Definition used (T : tables) (L : pages) (l : nat) (j : Z) : Z := count_in (present T L l) j.

(** How often a frame is mapped. *)
Definition mappings (L : pages) (f : Z) : Z := size (filter (fun x : Z * (Z * Z) => x.2.1 = f) L).

Definition tabled (T : tables) (a : Z) : Prop := exists x, T !! x = Some a.

(** The references of the table [a] of level [l] with [u] entries.  The root may
    lie outside the zone. *)
Definition ref_ok (n st : Z) (A : gmap Z (Z * Z)) (l : nat) (a u : Z) : Prop :=
  match l with
  | 2%nat => a < st \/ st + n * NX_PAGE_SIZE <= a \/
      exists p o t, a = st + p * NX_PAGE_SIZE /\ A !! p = Some (o, t) /\ t <= 2 ^ 61 + u
  | _ => exists p, a = st + p * NX_PAGE_SIZE /\ A !! p = Some (0, 1 + u)
  end.

Record sv39_ok (n st : Z) (s : sv39) (A : gmap Z (Z * Z)) (T : tables) (L : pages) : Prop := {
  ok_zone : normal_zone (zs s) n st A;
  ok_top : st + n * NX_PAGE_SIZE <= 2 ^ 40;
  ok_table : T !! (2%nat, 0) = Some (table (mmu s));
  ok_key l j a : T !! (l, j) = Some a -> (l <= 2)%nat /\ (l = 2%nat -> j = 0) /\
    ((l < 2)%nat -> is_Some (T !! (S l, j / 512)) /\ user_idx (S l) j) /\
    0 < a < 2 ^ 63 /\ a mod NX_PAGE_SIZE = 0;
  ok_inj x y a : T !! x = Some a -> T !! y = Some a -> x = y;
  ok_entry l j a k : T !! (l, j) = Some a -> 0 <= k < 512 -> user_idx l (j * 512 + k) ->
    mem s (a + 8 * k) = entry T L l (j * 512 + k);
  ok_page pg f at_ : L !! pg = Some (f, at_) ->
    is_Some (T !! (0%nat, pg / 512)) /\ user_idx 0 pg /\ 0 < f < 2 ^ 28 /\ attr_valid at_;
  ok_refs l j a : T !! (l, j) = Some a -> ref_ok n st A l a (used T L l j);
  ok_frames p : 0 <= p < n -> 0 < mappings L (st / NX_PAGE_SIZE + p) ->
    exists o t, A !! p = Some (o, t) /\ mappings L (st / NX_PAGE_SIZE + p) <= t /\ ~ tabled T (st + p * NX_PAGE_SIZE)
}.

(** Blocks that are no tables, with their references. *)
Definition owned (st : Z) (A : gmap Z (Z * Z)) (T : tables) (q o t : Z) : Prop :=
  A !! q = Some (o, t) /\ ~ tabled T (st + q * NX_PAGE_SIZE).

Definition kept (st : Z) (A : gmap Z (Z * Z)) (T : tables) (A' : gmap Z (Z * Z)) (T' : tables) : Prop :=
  forall q o t, owned st A T q o t <-> owned st A' T' q o t.

Lemma blocks_kept_refl st A T : kept st A T A T.
Proof. done. Qed.

Lemma blocks_kept_trans st A T A1 T1 A2 T2 : kept st A T A1 T1 -> kept st A1 T1 A2 T2 -> kept st A T A2 T2.
Proof. intros H1 H2 q o t. by rewrite (H1 q o t). Qed.

(** The references to blocks that no entry of the tables accounts for: those of
    the other holders of a frame. *)
Definition holds (st : Z) (A : gmap Z (Z * Z)) (T : tables) (L : pages) (q o k : Z) : Prop :=
  0 < k /\ owned st A T q o (k + mappings L (st / NX_PAGE_SIZE + q)).

Definition same_holders (st : Z) (A : gmap Z (Z * Z)) (T : tables) (L : pages) (A' : gmap Z (Z * Z)) (T' : tables) (L' : pages) : Prop :=
  forall q o k, holds st A T L q o k <-> holds st A' T' L' q o k.

Lemma same_holders_trans st A T L A1 T1 L1 A2 T2 L2 :
  same_holders st A T L A1 T1 L1 -> same_holders st A1 T1 L1 A2 T2 L2 -> same_holders st A T L A2 T2 L2.
Proof. intros H1 H2 q o k. by rewrite (H1 q o k). Qed.

Lemma kept_holders st A T A' T' L : kept st A T A' T' -> same_holders st A T L A' T' L.
Proof. intros H q o k. unfold holds. by rewrite (H q o _). Qed.

Lemma user_idx_S l x : (l <= 1)%nat -> user_idx l x -> user_idx (S l) (x / 512).
Proof.
  unfold user_idx. intros Hl Hx. destruct l as [|[|l]]; [| |lia]; cbn in Hx |- *; zlia.
Qed.

Lemma user_idx_up l pg : (l <= 2)%nat -> user_idx 0 pg -> user_idx l (upper l pg).
Proof.
  intros Hl Hp. induction l as [|l IH]; [by rewrite upper_0|]. rewrite upper_S. apply user_idx_S; [lia|]. apply IH. lia.
Qed.

Lemma user_top pg : user_idx 0 pg -> upper 2 pg / 512 = 0.
Proof. intros H%(user_idx_up 2); [|lia]. unfold user_idx in H. cbn in H. zlia. Qed.

Lemma user_page_spec pg : user_page pg = true <-> user_idx 0 pg.
Proof.
  unfold user_page, user_idx. rewrite andb_true_iff, Z.leb_le, Z.ltb_lt. reflexivity.
Qed.

(** *** Counts and references *)
Lemma used_bounds T L l j : 0 <= used T L l j <= 512.
Proof. apply count_in_bounds. Qed.

Lemma used_add_table T L l x a l' j :
  T !! (l, x) = None -> used (<[(l, x) := a]> T) L l' j =
    used T L l' j + if decide (l' = S l /\ j = x / 512) then 1 else 0.
Proof.
  intros Hx. unfold used. destruct l' as [|l'].
  { rewrite decide_False by (intros [? _]; lia). rewrite Z.add_0_r. by apply count_in_ext. }
  destruct (decide (l' = l)) as [->|Hne].
  - rewrite (count_in_more (present T L (S l)) (present (<[(l, x) := a]> T) L (S l)) x).
    + repeat case_decide; try lia; exfalso; naive_solver.
    + intros y Hy. cbn. rewrite lookup_insert_ne; [done|congruence].
    + cbn. rewrite Hx. by intros [].
    + cbn. by rewrite lookup_insert_eq.
  - rewrite decide_False by (intros [[= ?] _]; congruence). rewrite Z.add_0_r. apply count_in_ext.
    intros y _. cbn. rewrite lookup_insert_ne; [done|congruence].
Qed.

Lemma used_add_page T L pg v l j :
  L !! pg = None -> used T (<[pg := v]> L) l j = used T L l j + if decide (l = 0%nat /\ j = pg / 512) then 1 else 0.
Proof.
  intros Hx. unfold used. destruct l as [|l].
  - rewrite (count_in_more (present T L 0) (present T (<[pg := v]> L) 0) pg).
    + repeat case_decide; try lia; exfalso; naive_solver.
    + intros y Hy. cbn. by rewrite lookup_insert_ne.
    + cbn. rewrite Hx. by intros [].
    + cbn. by rewrite lookup_insert_eq.
  - rewrite decide_False by (intros [? _]; lia). rewrite Z.add_0_r. by apply count_in_ext.
Qed.

Lemma mappings_add L pg f at_ f' :
  L !! pg = None -> mappings (<[pg := (f, at_)]> L) f' = mappings L f' + if decide (f = f') then 1 else 0.
Proof.
  intros Hn. unfold mappings. case_decide as E.
  - rewrite map_filter_insert_True by done. rewrite map_size_insert_None; [lia|].
    apply map_lookup_filter_None. by left.
  - rewrite map_filter_insert_False by done. rewrite delete_id by done. lia.
Qed.

Lemma mappings_pos L pg f at_ : L !! pg = Some (f, at_) -> 0 < mappings L f.
Proof.
  intros Hp. unfold mappings. assert (size (filter (fun x : Z * (Z * Z) => x.2.1 = f) L) <> 0%nat); [|lia].
  apply map_size_ne_0_lookup. exists pg, (f, at_). by apply map_lookup_filter_Some.
Qed.

Lemma ref_up zs n st A l a u :
  normal_zone zs n st A -> ref_ok n st A l a u -> 0 <= u <= 512 -> 0 < a ->
  exists zs' e A', NX_PageIncreaseInZone zs NX_PAGE_ZONE_NORMAL a = Some (zs', e) /\ normal_zone zs' n st A' /\
    ref_ok n st A' l a (u + 1) /\ forall q, st + q * NX_PAGE_SIZE <> a -> A' !! q = A !! q.
Proof.
  intros Z0 R Hu Ha.
  assert (Hin : forall p o t, a = st + p * NX_PAGE_SIZE -> A !! p = Some (o, t) -> t <= 2 ^ 61 + u ->
      exists zs', NX_PageIncreaseInZone zs NX_PAGE_ZONE_NORMAL a = Some (zs', NX_EOK) /\
        normal_zone zs' n st (<[p := (o, t + 1)]> A) /\ forall q, st + q * NX_PAGE_SIZE <> a -> <[p := (o, t + 1)]> A !! q = A !! q).
  { intros p o t -> Hp Ht. destruct (page_increase_at zs n st A p o t Z0 Hp) as (zs' & ? & ?); [lia|].
    exists zs'. split; [done|]. split; [done|]. intros q Hq. rewrite lookup_insert_ne; [done|congruence]. }
  assert (Hout : a < st \/ st + n * NX_PAGE_SIZE <= a -> exists zs',
      NX_PageIncreaseInZone zs NX_PAGE_ZONE_NORMAL a = Some (zs', NX_EINVAL) /\ normal_zone zs' n st A).
  { by apply page_increase_outside. }
  destruct l as [|[|[|l]]]; cbn [ref_ok] in R |- *.
  3: destruct R as [R|[R|(p & o & t & Ep & Hp & Ht)]].
  3,4: destruct Hout as (zs' & ? & ?); [lia|]; exists zs', NX_EINVAL, A; split_and!; auto.
  3: destruct (Hin p o t Ep Hp Ht) as (zs' & ? & ? & ?); exists zs', NX_EOK, (<[p := (o, t + 1)]> A); split_and!; auto;
     right; right; exists p, o, (t + 1); rewrite lookup_insert_eq; split_and!; [done|done|lia].
  all: destruct R as (p & Ep & Hp); destruct (Hin p 0 (1 + u) Ep Hp ltac:(lia)) as (zs' & ? & ? & ?);
    exists zs', NX_EOK, (<[p := (0, 1 + u + 1)]> A); split_and!; auto;
    exists p; rewrite lookup_insert_eq; split; [done|]; do 2 f_equal; lia.
Qed.

(** The last entry of a table does not take its own reference. *)
Lemma ref_down zs n st A l a u :
  normal_zone zs n st A -> (l < 2)%nat -> ref_ok n st A l a u -> 1 <= u ->
  exists zs' A', NX_PageFreeInZone zs NX_PAGE_ZONE_NORMAL a = Some (zs', NX_EAGAIN) /\ normal_zone zs' n st A' /\
    ref_ok n st A' l a (u - 1) /\ forall q, st + q * NX_PAGE_SIZE <> a -> A' !! q = A !! q.
Proof.
  intros Z0 Hl R Hu. assert (R' : exists p, a = st + p * NX_PAGE_SIZE /\ A !! p = Some (0, 1 + u)).
  { destruct l as [|[|l]]; [done|done|lia]. }
  destruct R' as (p & -> & Hp). destruct (page_free_at zs n st A p 0 (1 + u) Z0 Hp) as (zs' & e & Hrun & [(? & _)|(_ & -> & Z')]); [lia|].
  exists zs', (<[p := (0, 1 + u - 1)]> A). split; [done|]. split; [done|]. split.
  - assert (exists q, st + p * NX_PAGE_SIZE = st + q * NX_PAGE_SIZE /\ <[p := (0, 1 + u - 1)]> A !! q = Some (0, 1 + (u - 1))).
    { exists p. rewrite lookup_insert_eq. split; [done|]. do 2 f_equal. lia. }
    destruct l as [|[|l]]; [done|done|lia].
  - intros q Hq. rewrite lookup_insert_ne; [done|congruence].
Qed.

Lemma ref_ok_frame n st A A' l a u :
  (forall q, st + q * NX_PAGE_SIZE = a -> is_Some (A !! q) -> A' !! q = A !! q) -> ref_ok n st A l a u -> ref_ok n st A' l a u.
Proof.
  intros Hs R. destruct l as [|[|[|l]]]; cbn [ref_ok] in *.
  3: destruct R as [R|[R|(p & o & t & -> & Hp & Ht)]]; auto; right; right; exists p, o, t;
     rewrite Hs by (done || by rewrite Hp); done.
  all: destruct R as (p & -> & Hp); exists p; rewrite Hs by (done || by rewrite Hp); done.
Qed.

Section invariant.
Context (n st : Z).
Implicit Types (s : sv39) (A : gmap Z (Z * Z)) (T : tables) (L : pages) (l : nat).

Lemma zone_page s A T L p :
  sv39_ok n st s A T L -> 0 <= p < n ->
  (st + p * NX_PAGE_SIZE) / NX_PAGE_SIZE = st / NX_PAGE_SIZE + p /\ (st + p * NX_PAGE_SIZE) mod NX_PAGE_SIZE = 0 /\
  0 < st + p * NX_PAGE_SIZE < 2 ^ 63 /\ 0 < st / NX_PAGE_SIZE + p < 2 ^ 28.
Proof.
  intros OK Hp. destruct (normal_zone_bounds _ _ _ _ (ok_zone _ _ _ _ _ _ OK)) as (? & ? & ? & ?).
  pose proof (ok_top _ _ _ _ _ _ OK). unfold NX_PAGE_SIZE in *. split_and!; zlia.
Qed.

(** A block just given out is no table and has no entry. *)
Lemma fresh_page s A T L p :
  sv39_ok n st s A T L -> 0 <= p < n -> zone_free A p 0 ->
  A !! p = None /\ ~ tabled T (st + p * NX_PAGE_SIZE) /\ mappings L (st / NX_PAGE_SIZE + p) = 0.
Proof.
  intros OK Hp Hf. assert (Hn : A !! p = None).
  { destruct (A !! p) as [[o t]|] eqn:E; [|done].
    destruct (normal_zone_block _ _ _ _ _ _ _ (ok_zone _ _ _ _ _ _ OK) E) as (_ & Ho & _). pose proof (pow2_pos o Ho).
    destruct (Hf p o t E); lia. }
  split; [done|]. split.
  - intros ([l j] & Hj). pose proof (ok_refs _ _ _ _ _ _ OK l j _ Hj) as R. unfold NX_PAGE_SIZE in *.
    assert (Hx : forall q v, st + p * 4096 = st + q * 4096 -> A !! q = Some v -> False).
    { intros q v E Hq. assert (q = p) as -> by lia. congruence. }
    destruct l as [|[|[|l]]]; cbn [ref_ok] in R; unfold NX_PAGE_SIZE in R; [naive_solver..| |naive_solver].
    destruct R as [R|[R|(q & o & t & E & Hq & _)]]; [lia|lia|eauto].
  - destruct (Z.eq_dec (mappings L (st / NX_PAGE_SIZE + p)) 0) as [|Hne]; [done|].
    destruct (ok_frames _ _ _ _ _ _ OK p Hp) as (o & t & E & _); [unfold mappings in *; lia|congruence].
Qed.

(** Nothing hangs below a table that is not there. *)
Lemma no_orphans s A T L l x k :
  sv39_ok n st s A T L -> (l <= 1)%nat -> T !! (l, x) = None -> 0 <= k < 512 -> ~ present T L l (x * 512 + k).
Proof.
  intros OK Hl Hx Hk Hpr. assert (Hd : (x * 512 + k) / 512 = x) by zlia.
  destruct l as [|[|l]]; [| |lia]; destruct Hpr as [v Hv].
  - destruct v. destruct (ok_page _ _ _ _ _ _ OK _ _ _ Hv) as ([w Hw] & _). rewrite Hd in Hw. congruence.
  - destruct (ok_key _ _ _ _ _ _ OK _ _ _ Hv) as (_ & _ & H & _). destruct H as ([w Hw] & _); [lia|].
    rewrite Hd in Hw. congruence.
Qed.

Lemma not_present T L l x : ~ present T L l x -> entry T L l x = 0.
Proof.
  intros H. destruct l; cbn in *.
  - destruct (L !! x) as [[]|]; [|done]. by destruct H.
  - destruct (T !! _); [|done]. by destruct H.
Qed.

Lemma used_none T L l x : (forall k, 0 <= k < 512 -> ~ present T L l (x * 512 + k)) -> used T L l x = 0.
Proof.
  intros H. unfold used, count_in.
  destruct (filter _ _) as [|y l'] eqn:E; [done|]. exfalso.
  assert (Hy : y ∈ filter (present T L l) (seqZ (x * 512) 512)) by (rewrite E; left).
  apply list_elem_of_filter in Hy as [Hp Hy%elem_of_seqZ]. apply (H (y - x * 512)); [lia|].
  by replace (x * 512 + (y - x * 512)) with y by lia.
Qed.

(** *** Hanging a fresh page into the tree as table [(l, x)] *)
Section add_table.
Context s A T L l (x b p : Z) (A' : gmap Z (Z * Z)) (zs' : zones).
Context (OK : sv39_ok n st s A T L) (Hl : (l <= 1)%nat) (Hx : user_idx (S l) x).
Context (Hb : T !! (S l, x / 512) = Some b) (Hnone : T !! (l, x) = None) (Hp : 0 <= p < n) (Hfree : zone_free A p 0).
Let a := st + p * NX_PAGE_SIZE.
Context (Z' : normal_zone zs' n st A') (Rb : ref_ok n st A' (S l) b (used T L (S l) (x / 512) + 1)).
Context (Hp' : A' !! p = Some (0, 1)) (Hs : forall q, q <> p -> st + q * NX_PAGE_SIZE <> b -> A' !! q = A !! q).
Let s' := store (MemZero (with_zs s zs') a NX_PAGE_SIZE) (b + 8 * (x mod 512)) (entry_of (a / NX_PAGE_SIZE) PTE_V).
Let T' := <[(l, x) := a]> T.

Lemma add_neq y c : T !! y = Some c -> c <> a.
Proof using All. intros Hy ->. destruct (fresh_page s A T L p OK Hp Hfree) as (_ & Ht & _). apply Ht. by exists y. Qed.

Lemma add_address : a / NX_PAGE_SIZE = st / NX_PAGE_SIZE + p /\ a mod NX_PAGE_SIZE = 0 /\ 0 < a < 2 ^ 63.
Proof using All. destruct (zone_page s A T L p OK Hp) as (? & ? & ? & _). done. Qed.

Lemma add_blocks q : is_Some (A !! q) -> st + q * NX_PAGE_SIZE <> b -> A' !! q = A !! q.
Proof using All.
  intros [v Hq] Hqb. apply Hs; [|done]. intros ->.
  destruct (fresh_page s A T L p OK Hp Hfree) as (? & _). congruence.
Qed.

Lemma add_key l' j c : T' !! (l', j) = Some c -> (l' <= 2)%nat /\ (l' = 2%nat -> j = 0) /\
  ((l' < 2)%nat -> is_Some (T' !! (S l', j / 512)) /\ user_idx (S l') j) /\ 0 < c < 2 ^ 63 /\ c mod NX_PAGE_SIZE = 0.
Proof using All.
  unfold T'. destruct add_address as (_ & Hmod & Ha). intros Hc. destruct (decide ((l', j) = (l, x))) as [[= -> ->]|Hne].
  - rewrite lookup_insert_eq in Hc. injection Hc as <-. split; [lia|]. split; [lia|]. split; [|split; [lia|done]].
    intros _. split; [|done]. rewrite lookup_insert_ne; [by rewrite Hb|congruence].
  - rewrite lookup_insert_ne in Hc by done. destruct (ok_key _ _ _ _ _ _ OK _ _ _ Hc) as (H1 & H2 & H3 & H4).
    split_and!; try done; try apply H4. intros Hl'. destruct (H3 Hl') as [[v Hv] ?]. split; [|done].
    destruct (decide ((S l', j / 512) = (l, x))) as [->|]; [rewrite lookup_insert_eq; eauto|rewrite lookup_insert_ne; eauto].
Qed.

Lemma add_inj y z c : T' !! y = Some c -> T' !! z = Some c -> y = z.
Proof using All.
  unfold T'. rewrite !lookup_insert_Some. intros [[<- <-]|[Hy H1]] [[<- E]|[Hz H2]]; try done.
  - by destruct (add_neq _ _ H2).
  - subst c. by destruct (add_neq _ _ H1).
  - by apply (ok_inj _ _ _ _ _ _ OK y z c).
Qed.

(** The new table is empty. *)
Lemma add_entry_new k : 0 <= k < 512 -> mem s' (a + 8 * k) = entry T' L l (x * 512 + k).
Proof using All.
  intros Hk. destruct add_address as (_ & Hmod & Ha). destruct (ok_key _ _ _ _ _ _ OK _ _ _ Hb) as (_ & _ & _ & _ & Hbm).
  assert (a + 8 * k <> b + 8 * (x mod 512)).
  { intros E. destruct (entries_apart a k b (x mod 512)); try done; [zlia|]. by apply (add_neq _ _ Hb). }
  unfold s'. cbn [store MemZero with_zs mem]. rewrite (proj2 (Z.eqb_neq _ _)) by done.
  rewrite (proj2 (Z.leb_le _ _)), (proj2 (Z.ltb_lt _ _)) by (unfold NX_PAGE_SIZE; lia). cbn [andb].
  assert (entry T' L l (x * 512 + k) = entry T L l (x * 512 + k)) as ->.
  { unfold T'. destruct l; [done|]. cbn. rewrite lookup_insert_ne; [done|intros [=]; lia]. }
  symmetry. apply not_present. by apply (no_orphans s A).
Qed.

(** The others have the new entry. *)
Lemma add_entry_old l' j c k :
  T !! (l', j) = Some c -> 0 <= k < 512 -> user_idx l' (j * 512 + k) -> mem s' (c + 8 * k) = entry T' L l' (j * 512 + k).
Proof using All.
  intros Hc Hk Hu. destruct add_address as (_ & Hmod & Ha). destruct (ok_key _ _ _ _ _ _ OK _ _ _ Hc) as (_ & _ & _ & _ & Hcm).
  destruct (ok_key _ _ _ _ _ _ OK _ _ _ Hb) as (_ & _ & _ & _ & Hbm). unfold s', T'. cbn [store MemZero with_zs mem].
  destruct (Z.eqb_spec (c + 8 * k) (b + 8 * (x mod 512))) as [E|E].
  - destruct (entries_apart c k b (x mod 512)) as [-> ->]; try done; [zlia|].
    assert ((l', j) = (S l, x / 512)) as [= -> ->] by (by apply (ok_inj _ _ _ _ _ _ OK _ _ b)).
    destruct (split_index x) as [-> _]. cbn. by rewrite lookup_insert_eq.
  - destruct ((a <=? c + 8 * k) && (c + 8 * k <? a + NX_PAGE_SIZE)) eqn:Ez.
    { exfalso. apply andb_true_iff in Ez as [E1%Z.leb_le E2%Z.ltb_lt].
      pose proof (add_neq _ _ Hc). unfold NX_PAGE_SIZE in *. zlia. }
    rewrite (ok_entry _ _ _ _ _ _ OK l' j c k) by done. destruct l' as [|l']; [done|]. cbn.
    rewrite lookup_insert_ne; [done|]. intros [= <- E']. apply E.
    assert (j = x / 512 /\ k = x mod 512) as [-> ->] by (rewrite E'; clear - Hk; zlia).
    assert (c = b) as -> by congruence. done.
Qed.

Lemma add_refs l' j c : T' !! (l', j) = Some c -> ref_ok n st A' l' c (used T' L l' j).
Proof using All.
  unfold T'. intros Hc. rewrite used_add_table by done. destruct (decide ((l', j) = (l, x))) as [[= -> ->]|Hne].
  - rewrite lookup_insert_eq in Hc. injection Hc as <-. rewrite decide_False by (intros [? _]; lia).
    rewrite used_none by (intros k Hk; by apply (no_orphans s A)).
    assert (exists q, a = st + q * NX_PAGE_SIZE /\ A' !! q = Some (0, 1)) by (by exists p).
    destruct l as [|[|l0]]; [done|done|lia].
  - rewrite lookup_insert_ne in Hc by done. case_decide as E.
    + destruct E as [-> ->]. assert (c = b) as -> by congruence. done.
    + rewrite Z.add_0_r. apply (ref_ok_frame n st A); [|by apply (ok_refs _ _ _ _ _ _ OK)].
      intros q Hq Hq'. apply add_blocks; [done|]. rewrite Hq. intros ->. apply E.
      assert ((l', j) = (S l, x / 512)) as [= -> ->] by (by apply (ok_inj _ _ _ _ _ _ OK _ _ b)). done.
Qed.

Lemma add_kept : kept st A T A' T'.
Proof using All.
  destruct (fresh_page s A T L p OK Hp Hfree) as (Hpn & _).
  assert (Hpa : forall q, st + q * NX_PAGE_SIZE = a -> q = p) by (intros q E; unfold a, NX_PAGE_SIZE in E; lia).
  assert (Hta : tabled T' a) by (exists (l, x); unfold T'; by rewrite lookup_insert_eq).
  assert (Ht : forall c, c <> a -> tabled T' c <-> tabled T c).
  { intros c Hc. unfold T'. split.
    - intros [y [[<- E]|[_ Hy]]%lookup_insert_Some]; [congruence|by exists y].
    - intros [y Hy]. exists y. rewrite lookup_insert_ne; [done|]. intros <-. congruence. }
  assert (Htb : tabled T b) by (by exists (S l, x / 512)).
  intros q o t. unfold owned. destruct (decide (q = p)) as [->|Hqp].
  { split; [rewrite Hpn; by intros []|intros [_ []]]. exact Hta. }
  rewrite Ht by (intros E; apply Hqp; by apply Hpa). split; intros [Hq Hn]; (split; [|done]).
  - rewrite Hs; [done|done|]. intros E. apply Hn. by rewrite E.
  - rewrite <- Hs; [done|done|]. intros E. apply Hn. by rewrite E.
Qed.

Lemma ok_add_table : sv39_ok n st s' A' T' L.
Proof using All.
  split; cbn [zs mmu s' store MemZero with_zs]; try done.
  - apply (ok_top _ _ _ _ _ _ OK).
  - unfold T'. rewrite lookup_insert_ne; [apply (ok_table _ _ _ _ _ _ OK)|]. intros [= -> _]. lia.
  - apply add_key.
  - apply add_inj.
  - intros l' j c k Hc Hk Hu. unfold T' in Hc. apply lookup_insert_Some in Hc as [[[= <- <-] <-]|[_ Hc]].
    + by apply add_entry_new.
    + by apply add_entry_old.
  - intros pg f at_ Hpg. destruct (ok_page _ _ _ _ _ _ OK pg f at_ Hpg) as ([v Hv] & ?). split; [|done].
    unfold T'. rewrite lookup_insert_ne; [by rewrite Hv|congruence].
  - apply add_refs.
  - intros q Hq Hm. destruct (ok_frames _ _ _ _ _ _ OK q Hq Hm) as (o & t & Hqa & Ht & Hnt).
    destruct (proj1 (add_kept q o t) (conj Hqa Hnt)). by exists o, t.
Qed.
End add_table.

(** *** Changing the entry of a page *)
Lemma store_page s A T L L' pg b zs' :
  sv39_ok n st s A T L -> T !! (0%nat, pg / 512) = Some b -> (forall y, y <> pg -> L' !! y = L !! y) ->
  forall l j c k, T !! (l, j) = Some c -> 0 <= k < 512 -> user_idx l (j * 512 + k) ->
    mem (store (with_zs s zs') (b + 8 * (pg mod 512)) (entry T L' 0 pg)) (c + 8 * k) = entry T L' l (j * 512 + k).
Proof.
  intros OK Hb Hs l j c k Hc Hk Hu. cbn [store with_zs mem].
  destruct (ok_key _ _ _ _ _ _ OK _ _ _ Hc) as (_ & _ & _ & _ & Hcm).
  destruct (ok_key _ _ _ _ _ _ OK _ _ _ Hb) as (_ & _ & _ & _ & Hbm). destruct (split_index pg) as [Hpg Hm].
  destruct (Z.eqb_spec (c + 8 * k) (b + 8 * (pg mod 512))) as [E|E].
  - destruct (entries_apart c k b (pg mod 512)) as [-> ->]; try done.
    assert ((l, j) = (0%nat, pg / 512)) as [= -> ->] by (by apply (ok_inj _ _ _ _ _ _ OK _ _ b)). by rewrite Hpg.
  - rewrite (ok_entry _ _ _ _ _ _ OK l j c k) by done. destruct l; [|done]. cbn. rewrite Hs; [done|].
    intros E'. apply E. assert (j = pg / 512 /\ k = pg mod 512) as [-> ->] by (rewrite <- E'; clear - Hk; zlia).
    assert (c = b) as -> by congruence. done.
Qed.

Lemma ok_set_page s A A' T L L' pg b zs' :
  sv39_ok n st s A T L -> T !! (0%nat, pg / 512) = Some b -> (forall y, y <> pg -> L' !! y = L !! y) ->
  normal_zone zs' n st A' -> ref_ok n st A' 0 b (used T L' 0 (pg / 512)) ->
  (forall q, tabled T (st + q * NX_PAGE_SIZE) -> st + q * NX_PAGE_SIZE <> b -> A' !! q = A !! q) ->
  (forall f at_, L' !! pg = Some (f, at_) -> user_idx 0 pg /\ 0 < f < 2 ^ 28 /\ attr_valid at_) ->
  (forall p, 0 <= p < n -> 0 < mappings L' (st / NX_PAGE_SIZE + p) -> exists o t,
     A' !! p = Some (o, t) /\ mappings L' (st / NX_PAGE_SIZE + p) <= t /\ ~ tabled T (st + p * NX_PAGE_SIZE)) ->
  sv39_ok n st (store (with_zs s zs') (b + 8 * (pg mod 512)) (entry T L' 0 pg)) A' T L'.
Proof.
  intros OK Hb Hs Z' Rb Ht Hpg Hfr. pose proof (store_page s A T L L' pg b zs' OK Hb Hs) as Hentry.
  split; cbn [zs mmu store with_zs]; try done; try apply OK.
  - intros y f at_ Hy. destruct (decide (y = pg)) as [->|Hne]; [split; [by rewrite Hb|by eapply Hpg]|].
    rewrite Hs in Hy by done. by apply (ok_page _ _ _ _ _ _ OK).
  - intros l j c Hc. destruct (decide ((l, j) = (0%nat, pg / 512))) as [[= -> ->]|Hne]; [by simplify_eq|].
    assert (used T L' l j = used T L l j) as ->.
    { apply count_in_ext. intros y Hy. destruct l as [|l]; [|done]. cbn. rewrite Hs; [done|]. intros ->. by subst j. }
    apply (ref_ok_frame n st A); [|by apply (ok_refs _ _ _ _ _ _ OK)]. intros q Hq _. apply Ht.
    + rewrite Hq. by exists (l, j).
    + rewrite Hq. intros ->. apply Hne. by apply (ok_inj _ _ _ _ _ _ OK _ _ b).
Qed.

Lemma ok_add_page s A T L pg b f at_ A' zs' :
  sv39_ok n st s A T L -> user_idx 0 pg -> T !! (0%nat, pg / 512) = Some b -> L !! pg = None ->
  0 < f < 2 ^ 28 -> attr_valid at_ ->
  (forall p, 0 <= p < n -> f = st / NX_PAGE_SIZE + p -> exists o t,
     A !! p = Some (o, t) /\ mappings L f + 1 <= t /\ ~ tabled T (st + p * NX_PAGE_SIZE)) ->
  normal_zone zs' n st A' -> ref_ok n st A' 0 b (used T L 0 (pg / 512) + 1) ->
  (forall q, st + q * NX_PAGE_SIZE <> b -> A' !! q = A !! q) ->
  sv39_ok n st (store (with_zs s zs') (b + 8 * (pg mod 512)) (entry_of f at_)) A' T (<[pg := (f, at_)]> L) /\
  kept st A T A' T.
Proof.
  intros OK Hu Hb Hn Hf Ha Hfr Z' Rb Hs.
  assert (Hk : kept st A T A' T).
  { intros q o t. unfold owned. split; intros [Hq Hnt]; (split; [|done]); rewrite <- Hq; [|symmetry];
      (apply Hs; intros E; apply Hnt; rewrite E; by exists (0%nat, pg / 512)). }
  split; [|done]. assert (entry_of f at_ = entry T (<[pg := (f, at_)]> L) 0 pg) as -> by (cbn; by rewrite lookup_insert_eq).
  apply (ok_set_page s A A' T L); try done.
  - intros y Hy. by rewrite lookup_insert_ne.
  - rewrite used_add_page, decide_True by done. done.
  - intros q _ Hq. by apply Hs.
  - intros f2 at2 E. rewrite lookup_insert_eq in E. by injection E as <- <-.
  - intros p Hp. rewrite mappings_add by done. intros Hm. case_decide as E.
    + destruct (Hfr p Hp E) as (o & t & Hpa & Ht & Hnt). rewrite <- E. exists o, t. destruct (proj1 (Hk p o t) (conj Hpa Hnt)). done.
    + rewrite Z.add_0_r in Hm |- *. destruct (ok_frames _ _ _ _ _ _ OK p Hp Hm) as (o & t & Hpa & Ht & Hnt).
      exists o, t. destruct (proj1 (Hk p o t) (conj Hpa Hnt)). done.
Qed.

Lemma ok_del_page s A T L pg b f at_ A' zs' :
  sv39_ok n st s A T L -> T !! (0%nat, pg / 512) = Some b -> L !! pg = Some (f, at_) ->
  normal_zone zs' n st A' -> ref_ok n st A' 0 b (used T L 0 (pg / 512) - 1) ->
  (forall q o t, A !! q = Some (o, t) -> st + q * NX_PAGE_SIZE <> b ->
     if decide (f = st / NX_PAGE_SIZE + q) then A' !! q = (if decide (t = 1) then None else Some (o, t - 1))
     else A' !! q = Some (o, t)) ->
  (forall q, st + q * NX_PAGE_SIZE <> b -> A !! q = None -> A' !! q = None) ->
  sv39_ok n st (store (with_zs s zs') (b + 8 * (pg mod 512)) 0) A' T (delete pg L) /\ same_holders st A T L A' T (delete pg L).
Proof.
  intros OK Hb Hpg Z' Rb Hs Hsn. destruct (ok_page _ _ _ _ _ _ OK pg f at_ Hpg) as (_ & Hu & Hf & Ha).
  assert (0 = entry T (delete pg L) 0 pg) as -> by (cbn; by rewrite lookup_delete_eq).
  assert (Hmap : forall f', mappings L f' = mappings (delete pg L) f' + if decide (f = f') then 1 else 0).
  { intros f'. rewrite <- (insert_delete_id L pg (f, at_)) at 1 by done. apply mappings_add. apply lookup_delete_eq. }
  assert (Hused : used T L 0 (pg / 512) = used T (delete pg L) 0 (pg / 512) + 1).
  { rewrite <- (insert_delete_id L pg (f, at_)) at 1 by done. rewrite used_add_page by apply lookup_delete_eq.
    by rewrite decide_True. }
  assert (Htb : tabled T b) by (by exists (0%nat, pg / 512)). split.
  2:{ intros q o k. unfold holds, owned. rewrite (Hmap (st / NX_PAGE_SIZE + q)).
      assert (0 <= mappings (delete pg L) (st / NX_PAGE_SIZE + q)) by (unfold mappings; lia).
      split; intros (Hk & Hq & Hnt); (split; [done|]; split; [|done]);
        (assert (Hqb : st + q * NX_PAGE_SIZE <> b) by (intros E; apply Hnt; by rewrite E)).
      - specialize (Hs q o _ Hq Hqb). repeat case_decide; [lia|rewrite Hs; do 2 f_equal; lia|rewrite Hs; do 2 f_equal; lia].
      - destruct (A !! q) as [[o' t']|] eqn:E; [|rewrite Hsn in Hq by done; done]. specialize (Hs q o' t' E Hqb).
        repeat case_decide; rewrite Hs in Hq; simplify_eq; do 2 f_equal; lia. }
  apply (ok_set_page s A A' T L); try done.
  - intros y Hy. by rewrite lookup_delete_ne.
  - by replace (used T (delete pg L) 0 (pg / 512)) with (used T L 0 (pg / 512) - 1) by lia.
  - intros q Hq Hqb. destruct (A !! q) as [[o t]|] eqn:E; [|by apply Hsn]. specialize (Hs q o t E Hqb).
    rewrite decide_False in Hs; [done|]. intros ->. pose proof (mappings_pos L pg _ at_ Hpg) as Hm.
    destruct (normal_zone_block _ _ _ _ _ _ _ (ok_zone _ _ _ _ _ _ OK) E) as (? & Ho & ? & _). pose proof (pow2_pos o Ho).
    destruct (ok_frames _ _ _ _ _ _ OK q ltac:(lia) Hm) as (? & ? & _ & _ & Hnt). done.
  - intros f2 at2 E. by rewrite lookup_delete_eq in E.
  - intros p Hp Hm. specialize (Hmap (st / NX_PAGE_SIZE + p)).
    destruct (ok_frames _ _ _ _ _ _ OK p Hp) as (o & t & Hpa & Ht & Hnt); [repeat case_decide; lia|].
    assert (Hpb : st + p * NX_PAGE_SIZE <> b). { intros E. apply Hnt. rewrite E. by exists (0%nat, pg / 512). }
    specialize (Hs p o t Hpa Hpb). case_decide as E.
    + rewrite decide_False in Hs by lia. exists o, (t - 1). split; [done|]. split; [lia|done].
    + exists o, t. split; [done|]. split; [lia|done].
Qed.

(** *** Walking *)
Lemma table_address s A T L l j a :
  sv39_ok n st s A T L -> (l < 2)%nat -> T !! (l, j) = Some a -> 0 < a / NX_PAGE_SIZE < 2 ^ 28 /\ a / NX_PAGE_SIZE * NX_PAGE_SIZE = a.
Proof.
  intros OK Hl Ha. pose proof (ok_refs _ _ _ _ _ _ OK l j a Ha) as R.
  assert (exists p v, a = st + p * NX_PAGE_SIZE /\ A !! p = Some v) as (p & [o t] & -> & Hp).
  { destruct l as [|[|l]]; [| |lia]; destruct R as (p & -> & Hp); eauto. }
  destruct (normal_zone_block _ _ _ _ _ _ _ (ok_zone _ _ _ _ _ _ OK) Hp) as (? & Ho & ? & _). pose proof (pow2_pos o Ho).
  destruct (zone_page s A T L p OK) as (-> & Hm & _ & ?); [lia|]. split; [done|].
  destruct (normal_zone_bounds _ _ _ _ (ok_zone _ _ _ _ _ _ OK)) as (_ & _ & _ & Hst). unfold NX_PAGE_SIZE in *. zlia.
Qed.

Lemma load_entry s A T L l pg a :
  sv39_ok n st s A T L -> (l <= 2)%nat -> user_idx 0 pg -> T !! (l, upper (S l) pg) = Some a ->
  load s (a + 8 * (upper l pg mod 512)) = entry T L l (upper l pg).
Proof.
  intros OK Hl Hu Ha. destruct (split_index (upper l pg)) as [E Hm]. rewrite upper_S in Ha.
  unfold load. rewrite (ok_entry _ _ _ _ _ _ OK l _ a _ Ha Hm); rewrite E; [done|]. by apply user_idx_up.
Qed.

Lemma ancestors s A T L l pg :
  sv39_ok n st s A T L -> (l <= 1)%nat -> T !! (l, upper (S l) pg) = None -> T !! (0%nat, pg / 512) = None.
Proof.
  intros OK Hl Hn. rewrite !upper_S in Hn. destruct l as [|[|l]]; [by rewrite upper_0 in Hn| |lia].
  rewrite upper_S, upper_0 in Hn. destruct (T !! (0%nat, pg / 512)) as [b|] eqn:E; [|done].
  destruct (ok_key _ _ _ _ _ _ OK _ _ _ E) as (_ & _ & H & _). destruct H as ([v Hv] & _); [lia|]. congruence.
Qed.

Definition entry_address T (pg : Z) : Z :=
  match T !! (0%nat, pg / 512) with Some b => b + 8 * (pg mod 512) | None => 0 end.

(** The entry that leads to a lower table. *)
Lemma pde_child s A T L l j a :
  sv39_ok n st s A T L -> (l < 2)%nat -> T !! (l, j) = Some a ->
  PTE_USED (entry T L (S l) j) = true /\ PAGE_IS_LEAF (entry T L (S l) j) = false /\ PTE2PADDR (entry T L (S l) j) = a /\ a <> 0.
Proof.
  intros OK Hl Ha. destruct (table_address s A T L l j a OK Hl Ha) as [Hb E]. cbn [entry]. rewrite Ha.
  assert (0 <= PTE_V < 1024) by (unfold PTE_V; lia).
  rewrite PTE_USED_entry, PAGE_IS_LEAF_entry, PTE2PADDR_entry, E by lia. split_and!; [done..|]. unfold NX_PAGE_SIZE in *. lia.
Qed.

Lemma walk_loop_false s A T L pg r : forall l a,
  sv39_ok n st s A T L -> user_idx 0 pg -> 0 <= r < NX_PAGE_SIZE -> (l <= 2)%nat -> T !! (l, upper (S l) pg) = Some a ->
  PageWalk_loop l s a (pg * NX_PAGE_SIZE + r) false = Some (s, entry_address T pg).
Proof.
  induction l as [|l IH]; intros a OK Hu Hr Hl Ha; cbn [PageWalk_loop]; rewrite GET_LEVEL_OFF_spec by done.
  - rewrite upper_0. rewrite upper_S, upper_0 in Ha. unfold entry_address. by rewrite Ha.
  - rewrite (load_entry s A T L) by done. destruct (T !! (l, upper (S l) pg)) as [a'|] eqn:E.
    + destruct (pde_child s A T L l _ a' OK ltac:(lia) E) as (-> & _ & -> & Hne). unfold nz.
      rewrite (proj2 (Z.eqb_neq a' 0)) by done. cbn [negb]. rewrite assert_true. apply IH; (done || lia).
    + assert (entry T L (S l) (upper (S l) pg) = 0) as -> by (cbn; by rewrite E). cbn [negb].
      change (PTE_USED 0) with false. cbv iota. unfold entry_address. by rewrite (ancestors s A T L l) by (done || lia).
Qed.

Lemma PageWalk_false s A T L pg r :
  sv39_ok n st s A T L -> user_idx 0 pg -> 0 <= r < NX_PAGE_SIZE ->
  PageWalk s (table (mmu s)) (pg * NX_PAGE_SIZE + r) false = Some (s, entry_address T pg).
Proof.
  intros OK Hu Hr. pose proof (ok_table _ _ _ _ _ _ OK) as Ht. destruct (ok_key _ _ _ _ _ _ OK _ _ _ Ht) as (_ & _ & _ & ? & _).
  unfold PageWalk, nz. rewrite (proj2 (Z.eqb_neq (table (mmu s)) 0)) by lia. cbn [negb]. rewrite assert_true.
  apply (walk_loop_false s A T L); try done. by rewrite upper_S, user_top.
Qed.

(** One missing table is added, or memory has run out. *)
Lemma walk_add s A T L l pg a :
  sv39_ok n st s A T L -> user_idx 0 pg -> (l <= 1)%nat -> T !! (S l, upper (S (S l)) pg) = Some a ->
  T !! (l, upper (S l) pg) = None ->
  exists s1 c, NX_PageAlloc s = Some (s1, c) /\ mmu s1 = mmu s /\
    ((c = 0 /\ sv39_ok n st s1 A T L) \/
     (c <> 0 /\ exists zs2 e A', let s2 := MemZero s1 c NX_PAGE_SIZE in
        NX_PageIncrease s2 a = Some (with_zs s2 zs2, e) /\
        let s3 := store (with_zs s2 zs2) (a + 8 * (upper (S l) pg mod 512)) (entry_of (c / NX_PAGE_SIZE) PTE_V) in
        sv39_ok n st s3 A' (<[(l, upper (S l) pg) := c]> T) L /\ kept st A T A' (<[(l, upper (S l) pg) := c]> T))).
Proof.
  intros OK Hu Hl Ha Hn. set (x := upper (S l) pg) in *. rewrite upper_S in Ha. fold x in Ha.
  destruct (page_alloc_one _ _ _ _ (ok_zone _ _ _ _ _ _ OK)) as (zs1 & c & Hrun & Hc).
  unfold NX_PageAlloc. rewrite Hrun, Some_bind. exists (with_zs s zs1), c. split; [done|]. split; [done|].
  destruct Hc as [[-> Z1]|(p & Ec & Hp & Hfree & Z1)]; [left; split; [done|]; by destruct OK; split|right].
  destruct (zone_page s A T L p OK Hp) as (_ & _ & ? & _). rewrite <- Ec in *. split; [lia|].
  destruct (fresh_page s A T L p OK Hp Hfree) as (Hpn & Htab & _). rewrite <- Ec in *.
  destruct (ok_key _ _ _ _ _ _ OK _ _ _ Ha) as (_ & _ & _ & Ha0 & _).
  assert (R : ref_ok n st (<[p := (0, 1)]> A) (S l) a (used T L (S l) (x / 512))).
  { apply (ref_ok_frame n st A); [|by apply (ok_refs _ _ _ _ _ _ OK)]. intros q Hq [v Hv].
    rewrite lookup_insert_ne; [done|]. intros ->. congruence. }
  destruct (ref_up zs1 n st _ (S l) a _ Z1 R) as (zs2 & e & A' & Hrun2 & Z2 & R2 & Hs2); [apply used_bounds|lia|].
  exists zs2, e, A'. unfold NX_PageIncrease. cbn [MemZero with_zs zs]. rewrite Hrun2, Some_bind. split; [done|].
  assert (Hca : st + p * NX_PAGE_SIZE <> a). { intros E. apply Htab. rewrite Ec, E. by exists (S l, x / 512). }
  assert (Hp' : A' !! p = Some (0, 1)) by (rewrite Hs2 by done; apply lookup_insert_eq).
  assert (Hs' : forall q, q <> p -> st + q * NX_PAGE_SIZE <> a -> A' !! q = A !! q).
  { intros q Hq Hqa. rewrite Hs2 by done. by rewrite lookup_insert_ne. }
  assert (Hx : user_idx (S l) x) by (apply user_idx_up; [lia|done]).
  pose proof (ok_add_table s A T L l x a p A' zs2 OK Hl Hx Ha Hn Hp Hfree Z2 R2 Hp' Hs') as HA.
  pose proof (add_kept s A T L l x a p A' zs2 OK Hl Hx Ha Hn Hp Hfree Z2 R2 Hp' Hs') as HK. rewrite <- Ec in HA, HK. done.
Qed.

Lemma walk_loop_true pg : user_idx 0 pg -> forall l s A T L a,
  sv39_ok n st s A T L -> (l <= 2)%nat -> T !! (l, upper (S l) pg) = Some a ->
  exists s' pte A' T', PageWalk_loop l s a (pg * NX_PAGE_SIZE) true = Some (s', pte) /\ mmu s' = mmu s /\
    sv39_ok n st s' A' T' L /\ kept st A T A' T' /\
    (pte = 0 \/ exists b, T' !! (0%nat, pg / 512) = Some b /\ pte = b + 8 * (pg mod 512)).
Proof.
  intros Hu. induction l as [|l IH]; intros s A T L a OK Hl Ha; cbn [PageWalk_loop]; rewrite GET_LEVEL_OFF_page.
  - exists s, (a + 8 * (upper 0 pg mod 512)), A, T. rewrite upper_0. rewrite upper_S, upper_0 in Ha.
    split_and!; try done. right. eauto.
  - rewrite (load_entry s A T L) by done. destruct (T !! (l, upper (S l) pg)) as [a'|] eqn:E.
    + destruct (pde_child s A T L l _ a' OK ltac:(lia) E) as (-> & _ & -> & Hne). unfold nz.
      rewrite (proj2 (Z.eqb_neq a' 0)) by done. cbn [negb]. rewrite assert_true. apply (IH s A T L); (done || lia).
    + assert (entry T L (S l) (upper (S l) pg) = 0) as -> by (cbn; by rewrite E). cbn [negb].
      change (PTE_USED 0) with false. cbv iota. destruct (ok_key _ _ _ _ _ _ OK _ _ _ Ha) as (_ & _ & _ & Ha0 & Ham).
      rewrite (levelPageTable_spec a) by (done || lia || apply split_index).
      destruct (walk_add s A T L l pg a OK Hu ltac:(lia) Ha E) as (s1 & c & -> & Hmmu & Hc). rewrite Some_bind.
      destruct Hc as [[-> OK1]|(Hc & zs2 & e & A' & Hrun & OK2 & HK)].
      { exists s1, 0, A, T. split_and!; try done. by left. }
      rewrite (proj2 (Z.eqb_neq c 0)) by done. cbv zeta in Hrun. rewrite Hrun, Some_bind.
      assert (Hc0 : 0 <= c). { destruct (ok_key _ _ _ _ _ _ OK2 l (upper (S l) pg) c (lookup_insert_eq _ _ _)) as (_ & _ & _ & ? & _). lia. }
      rewrite make_entry by (done || (unfold PTE_V; lia)).
      destruct (IH _ A' _ L c OK2 ltac:(lia) (lookup_insert_eq _ _ _)) as (s' & pte & A2 & T2 & Hrun2 & Hmmu2 & OK3 & HK2 & Hpte).
      exists s', pte, A2, T2. split; [exact Hrun2|]. split; [by rewrite Hmmu2|]. split; [done|]. split; [|done].
      by eapply blocks_kept_trans.
Qed.

Lemma PageWalk_true s A T L pg :
  sv39_ok n st s A T L -> user_idx 0 pg ->
  exists s' pte A' T', PageWalk s (table (mmu s)) (pg * NX_PAGE_SIZE) true = Some (s', pte) /\ mmu s' = mmu s /\
    sv39_ok n st s' A' T' L /\ kept st A T A' T' /\
    (pte = 0 \/ exists b, T' !! (0%nat, pg / 512) = Some b /\ pte = b + 8 * (pg mod 512)).
Proof.
  intros OK Hu. pose proof (ok_table _ _ _ _ _ _ OK) as Ht. destruct (ok_key _ _ _ _ _ _ OK _ _ _ Ht) as (_ & _ & _ & ? & _).
  unfold PageWalk, nz. rewrite (proj2 (Z.eqb_neq (table (mmu s)) 0)) by lia. cbn [negb]. rewrite assert_true.
  apply walk_loop_true; try done. by rewrite upper_S, user_top.
Qed.

(** *** One page *)
Lemma page_entry s A T L pg b :
  sv39_ok n st s A T L -> user_idx 0 pg -> T !! (0%nat, pg / 512) = Some b ->
  load s (b + 8 * (pg mod 512)) = entry T L 0 pg /\ b + 8 * (pg mod 512) <> 0 /\ levelPageTable (b + 8 * (pg mod 512)) = b.
Proof.
  intros OK Hu Hb. destruct (ok_key _ _ _ _ _ _ OK _ _ _ Hb) as (_ & _ & _ & ? & ?). destruct (split_index pg) as [_ Hm].
  split; [|split; [lia|apply levelPageTable_spec; (done || lia)]].
  rewrite <- (upper_0 pg). apply (load_entry s A T L 0 pg b); try done; try lia.
Qed.

Lemma page_used T L s A pg :
  sv39_ok n st s A T L -> PTE_USED (entry T L 0 pg) = bool_decide (is_Some (L !! pg)).
Proof.
  intros OK. cbn. destruct (L !! pg) as [[f at_]|] eqn:E; [|done].
  destruct (ok_page _ _ _ _ _ _ OK pg f at_ E) as (_ & _ & _ & Ha & Hv & _). rewrite PTE_USED_entry, Hv by lia. done.
Qed.

Lemma IsVirAddrMapped_spec s A T L pg :
  sv39_ok n st s A T L -> user_idx 0 pg -> IsVirAddrMapped s (pg * NX_PAGE_SIZE) = Some (bool_decide (is_Some (L !! pg))).
Proof.
  intros OK Hu. unfold IsVirAddrMapped. rewrite <- (Z.add_0_r (pg * NX_PAGE_SIZE)), (PageWalk_false s A T L) by done.
  rewrite Some_bind. unfold entry_address. destruct (T !! (0%nat, pg / 512)) as [b|] eqn:E.
  - destruct (page_entry s A T L pg b OK Hu E) as (-> & Hne & _). rewrite (proj2 (Z.eqb_neq _ 0)) by done.
    by rewrite (page_used T L s A).
  - cbn [Z.eqb]. destruct (L !! pg) as [[f at_]|] eqn:E2; [|done].
    destruct (ok_page _ _ _ _ _ _ OK pg f at_ E2) as ([v Hv] & _). congruence.
Qed.

(** Frame [f] can take one more entry. *)
Definition frame_free A T L (f : Z) : Prop :=
  0 < f < 2 ^ 28 /\ forall p, 0 <= p < n -> f = st / NX_PAGE_SIZE + p -> exists o t,
    A !! p = Some (o, t) /\ mappings L f + 1 <= t /\ ~ tabled T (st + p * NX_PAGE_SIZE).

Lemma frame_free_kept A T L f A' T' : frame_free A T L f -> kept st A T A' T' -> frame_free A' T' L f.
Proof.
  intros [Hf H] HK. split; [done|]. intros p Hp E. destruct (H p Hp E) as (o & t & Ha & Ht & Hn).
  destruct (proj1 (HK p o t) (conj Ha Hn)). eauto.
Qed.

Lemma MapOnePage_spec s A T L pg f at_ :
  sv39_ok n st s A T L -> user_idx 0 pg -> L !! pg = None -> attr_valid at_ -> frame_free A T L f ->
  exists s' e A' T', MapOnePage s (pg * NX_PAGE_SIZE) (f * NX_PAGE_SIZE) at_ = Some (s', e) /\ mmu s' = mmu s /\
    kept st A T A' T' /\
    ((e = NX_EOK /\ sv39_ok n st s' A' T' (<[pg := (f, at_)]> L)) \/ (e = NX_EFAULT /\ sv39_ok n st s' A' T' L)).
Proof.
  intros OK Hu Hn Ha Hf. unfold MapOnePage. rewrite (IsVirAddrMapped_spec s A T L), Hn, Some_bind by done.
  rewrite bool_decide_eq_false_2 by (by intros []).
  destruct (PageWalk_true s A T L pg OK Hu) as (s1 & pte & A1 & T1 & -> & Hmmu & OK1 & HK & Hpte). rewrite Some_bind.
  destruct Hpte as [->|(b & Hb & ->)]; [exists s1, NX_EFAULT, A1, T1; split_and!; auto|].
  destruct (page_entry s1 A1 T1 L pg b OK1 Hu Hb) as (Hload & Hne & ->). rewrite (proj2 (Z.eqb_neq _ 0)) by done.
  rewrite Hload, (page_used T1 L s1 A1), Hn, bool_decide_eq_false_2 by (done || by intros []). cbn [negb]. rewrite assert_true.
  destruct (ref_up (zs s1) n st A1 0 b (used T1 L 0 (pg / 512))) as (zs2 & e & A2 & Hrun & Z2 & R2 & Hs2).
  { apply OK1. } { by apply (ok_refs _ _ _ _ _ _ OK1). } { apply used_bounds. } { apply (ok_key _ _ _ _ _ _ OK1 _ _ _ Hb). }
  unfold NX_PageIncrease. rewrite Hrun, !Some_bind.
  destruct (frame_free_kept A T L f A1 T1 Hf HK) as [Hf1 Hf2]. destruct Ha as (Ha1 & Ha2).
  rewrite make_entry by (unfold NX_PAGE_SIZE; lia). rewrite Z.div_mul by done.
  destruct (ok_add_page s1 A1 T1 L pg b f at_ A2 zs2) as [OK2 HK2]; try done.
  eexists _, NX_EOK, A2, T1. split; [reflexivity|]. split; [done|]. split; [by eapply blocks_kept_trans|]. by left.
Qed.

Lemma PageWalkPTE_spec s A T L pg b : forall l a,
  sv39_ok n st s A T L -> user_idx 0 pg -> T !! (0%nat, pg / 512) = Some b -> (l <= 2)%nat -> T !! (l, upper (S l) pg) = Some a ->
  exists pre, length pre = l /\ PageWalkPTE_loop l s a (pg * NX_PAGE_SIZE) = Some (pre ++ [b + 8 * (pg mod 512)]).
Proof.
  induction l as [|l IH]; intros a OK Hu Hb Hl Ha; cbn [PageWalkPTE_loop]; rewrite GET_LEVEL_OFF_page.
  - exists []. rewrite upper_0. rewrite upper_S, upper_0 in Ha. simplify_eq. done.
  - rewrite (load_entry s A T L) by done. destruct (T !! (l, upper (S l) pg)) as [a'|] eqn:E.
    + destruct (pde_child s A T L l _ a' OK ltac:(lia) E) as (-> & _ & -> & _).
      destruct (IH a' OK Hu Hb ltac:(lia) eq_refl) as (pre & Hlen & ->). rewrite Some_bind.
      eexists (_ :: pre). split; [cbn; by rewrite Hlen|done].
    + rewrite (ancestors s A T L l) in Hb by (done || lia). done.
Qed.

(** Giving up a reference of the frame of a page. *)
Lemma free_frame s A T L pg f at_ :
  sv39_ok n st s A T L -> L !! pg = Some (f, at_) ->
  exists zs1 e A1, NX_PageFreeInZone (zs s) NX_PAGE_ZONE_NORMAL (f * NX_PAGE_SIZE) = Some (zs1, e) /\ normal_zone zs1 n st A1 /\
    (forall q o t, A !! q = Some (o, t) ->
       if decide (f = st / NX_PAGE_SIZE + q) then A1 !! q = (if decide (t = 1) then None else Some (o, t - 1))
       else A1 !! q = Some (o, t)) /\
    (forall q, A !! q = None -> A1 !! q = None).
Proof.
  intros OK Hpg. destruct (ok_page _ _ _ _ _ _ OK pg f at_ Hpg) as (_ & _ & Hf & _).
  pose proof (ok_zone _ _ _ _ _ _ OK) as Z0. destruct (normal_zone_bounds _ _ _ _ Z0) as (Hn & Hst & _ & Hal).
  assert (Hq : forall q v, A !! q = Some v -> 0 <= q < n).
  { intros q [o t] Hq. destruct (normal_zone_block _ _ _ _ _ _ _ Z0 Hq) as (? & Ho & ? & _). pose proof (pow2_pos o Ho). lia. }
  assert (Hcase : (exists p, 0 <= p < n /\ f = st / NX_PAGE_SIZE + p) \/
      (f * NX_PAGE_SIZE < st \/ st + n * NX_PAGE_SIZE <= f * NX_PAGE_SIZE) /\ forall q v, A !! q = Some v -> f <> st / NX_PAGE_SIZE + q).
  { destruct (decide (st / NX_PAGE_SIZE <= f < st / NX_PAGE_SIZE + n)) as [H|H].
    - left. exists (f - st / NX_PAGE_SIZE). lia.
    - right. split; [unfold NX_PAGE_SIZE in *; zlia|]. intros q v Hv ->. specialize (Hq q v Hv). lia. }
  destruct Hcase as [(p & Hp & ->)|[Hout Hno]].
  - pose proof (mappings_pos _ _ _ _ Hpg) as Hm. destruct (ok_frames _ _ _ _ _ _ OK p Hp Hm) as (o & t & Hpa & Ht & _).
    assert ((st / NX_PAGE_SIZE + p) * NX_PAGE_SIZE = st + p * NX_PAGE_SIZE) as -> by (unfold NX_PAGE_SIZE in *; zlia).
    destruct (page_free_at _ _ _ _ p o t Z0 Hpa) as (zs1 & e & Hrun & Hcase).
    exists zs1, e, (if decide (t = 1) then delete p A else <[p := (o, t - 1)]> A). split; [done|].
    destruct Hcase as [(-> & -> & Z1)|(Hlt & -> & Z1)]; [rewrite decide_True by done|rewrite decide_False by lia];
      (split; [done|]; split).
    + intros q o' t' Hqa. case_decide as E.
      * assert (q = p) as -> by lia. simplify_eq. rewrite decide_True by done. apply lookup_delete_eq.
      * rewrite lookup_delete_ne; [done|]. intros ->. by apply E.
    + intros q Hqa. by apply lookup_delete_None; right.
    + intros q o' t' Hqa. case_decide as E.
      * assert (q = p) as -> by lia. simplify_eq. rewrite decide_False by lia. apply lookup_insert_eq.
      * rewrite lookup_insert_ne; [done|]. intros ->. by apply E.
    + intros q Hqa. rewrite lookup_insert_ne; [done|]. intros ->. congruence.
  - destruct (page_free_outside _ _ _ _ (f * NX_PAGE_SIZE) Z0) as (zs1 & Hrun & Z1); [unfold NX_PAGE_SIZE; lia|done|].
    exists zs1, NX_EINVAL, A. split_and!; try done. intros q o t Hqa. rewrite decide_False by eauto. done.
Qed.

Lemma UnmapOnePage_spec s A T L pg f at_ :
  sv39_ok n st s A T L -> L !! pg = Some (f, at_) ->
  exists s' A', UnmapOnePage s (pg * NX_PAGE_SIZE) = Some (s', NX_EOK) /\ mmu s' = mmu s /\ sv39_ok n st s' A' T (delete pg L) /\
    same_holders st A T L A' T (delete pg L).
Proof.
  intros OK Hpg. destruct (ok_page _ _ _ _ _ _ OK pg f at_ Hpg) as ([b Hb] & Hu & Hf & Ha1 & Ha2 & Ha3).
  unfold UnmapOnePage, PageWalkPTE.
  destruct (PageWalkPTE_spec s A T L pg b 2 (table (mmu s)) OK Hu Hb) as (pre & Hlen & ->);
    [lia|rewrite upper_S, user_top by done; apply OK|]. rewrite Some_bind.
  destruct pre as [|pte2 [|pte1 [|]]]; try done. cbn [app].
  destruct (page_entry s A T L pg b OK Hu Hb) as (-> & Hne & Hlev).
  assert (entry T L 0 pg = entry_of f at_) as -> by (cbn; by rewrite Hpg).
  rewrite PTE_USED_entry, PAGE_IS_LEAF_entry, PTE2PADDR_entry, Ha2, Ha3 by lia. unfold nz.
  rewrite (proj2 (Z.eqb_neq _ 0) Hne), (proj2 (Z.eqb_neq (f * NX_PAGE_SIZE) 0)) by (unfold NX_PAGE_SIZE; lia).
  cbn [negb]. rewrite !assert_true. unfold drop_table, NX_PageFree. rewrite Hlev.
  destruct (free_frame s A T L pg f at_ OK Hpg) as (zs1 & e & A1 & -> & Z1 & Hs1 & Hn1). rewrite !Some_bind.
  cbn [store with_zs zs]. pose proof (ok_refs _ _ _ _ _ _ OK _ _ _ Hb) as R.
  assert (R1 : ref_ok n st A1 0 b (used T L 0 (pg / 512))).
  { apply (ref_ok_frame n st A); [|done]. intros q Hq [[o t] Hqa]. specialize (Hs1 q o t Hqa).
    rewrite decide_False in Hs1; [by rewrite Hqa|]. intros ->.
    destruct (normal_zone_block _ _ _ _ _ _ _ (ok_zone _ _ _ _ _ _ OK) Hqa) as (? & Ho & ? & _). pose proof (pow2_pos o Ho).
    destruct (ok_frames _ _ _ _ _ _ OK q ltac:(lia) (mappings_pos _ _ _ _ Hpg)) as (? & ? & _ & _ & Hnt). apply Hnt. rewrite Hq.
    by exists (0%nat, pg / 512). }
  assert (Hused : 1 <= used T L 0 (pg / 512)).
  { pose proof (used_add_page T (delete pg L) pg (f, at_) 0 (pg / 512) (lookup_delete_eq _ _)) as Hu1.
    rewrite insert_delete_id, decide_True in Hu1 by done. pose proof (used_bounds T (delete pg L) 0 (pg / 512)). lia. }
  destruct (ref_down zs1 n st A1 0 b _ Z1 ltac:(lia) R1 Hused) as (zs2 & A2 & -> & Z2 & R2 & Hs2). rewrite !Some_bind.
  change (is_ok NX_EAGAIN) with false. cbn [negb]. eexists _, A2. split; [reflexivity|]. split; [done|].
  apply (ok_del_page s A T L pg b f at_ A2 zs2); try done.
  - intros q o t Hqa Hqb. rewrite Hs2 by done. by apply Hs1.
  - intros q Hqb Hqa. rewrite Hs2 by done. by apply Hn1.
Qed.

(** *** Ranges of pages *)
Lemma next_page v : 0 <= v < 2 ^ 51 -> u64 (v * NX_PAGE_SIZE + NX_PAGE_SIZE) = (v + 1) * NX_PAGE_SIZE.
Proof. intros. unfold NX_PAGE_SIZE. rewrite u64_small; lia. Qed.

Lemma user_small pg : user_idx 0 pg -> 0 <= pg < 2 ^ 28.
Proof. unfold user_idx. cbn. lia. Qed.

Lemma UnmapPage_spec (k : nat) : forall s A T L v,
  sv39_ok n st s A T L -> (forall y, v <= y < v + k -> is_Some (L !! y)) ->
  exists s' A' L', UnmapPage k s (v * NX_PAGE_SIZE) = Some (s', NX_EOK) /\ mmu s' = mmu s /\ sv39_ok n st s' A' T L' /\
    same_holders st A T L A' T L' /\ forall y, L' !! y = if decide (v <= y < v + k) then None else L !! y.
Proof.
  induction k as [|k IH]; intros s A T L v OK Hall; cbn [UnmapPage].
  - exists s, A, L. split_and!; try done. intros y. by rewrite decide_False by lia.
  - destruct (Hall v ltac:(lia)) as [[f at_] Hv]. destruct (ok_page _ _ _ _ _ _ OK v f at_ Hv) as (_ & Hu%user_small & _).
    destruct (UnmapOnePage_spec s A T L v f at_ OK Hv) as (s1 & A1 & -> & Hm1 & OK1 & HH1). rewrite Some_bind, next_page by lia.
    destruct (IH s1 A1 T (delete v L) (v + 1) OK1) as (s2 & A2 & L2 & -> & Hm2 & OK2 & HH2 & HL2).
    { intros y Hy. rewrite lookup_delete_ne by lia. apply Hall. lia. }
    exists s2, A2, L2. split; [done|]. split; [by rewrite Hm2|]. split; [done|].
    split; [by eapply same_holders_trans|]. intros y. rewrite HL2.
    destruct (decide (y = v)) as [->|Hne]; [rewrite lookup_delete_eq|rewrite lookup_delete_ne by done];
      repeat case_decide; (done || lia).
Qed.

Definition frames_free A T L (f m : Z) : Prop :=
  (m = 1 /\ frame_free A T L f) \/
  forall i, 0 <= i < m -> 0 < f + i < 2 ^ 28 /\ forall p, 0 <= p < n -> f + i <> st / NX_PAGE_SIZE + p.

(** The outcome of mapping [m] pages from [v], with [k] pages in front of them
    that go when a page cannot be mapped. *)
Definition range_outcome s s' L (v : Z) (k m : nat) (at_ r : Z) (frame : Z -> Z -> Prop)
    (R : gmap Z (Z * Z) -> tables -> pages -> Prop) : Prop :=
  mmu s' = mmu s /\ exists A' T' L', sv39_ok n st s' A' T' L' /\ R A' T' L' /\
    ((r = 0 /\ forall y, L' !! y = if decide (v - k <= y < v) then None else L !! y) \/
     (r = (v - k) * NX_PAGE_SIZE /\ (forall y, v <= y < v + m -> exists f, L' !! y = Some (f, at_) /\ frame y f) /\
      forall y, ~ v <= y < v + m -> L' !! y = L !! y)).

(** No frame twice. *)
Definition distinct (L : pages) : Prop :=
  forall pg pg' f a a', L !! pg = Some (f, a) -> L !! pg' = Some (f, a') -> pg = pg'.

Lemma distinct_sub L L' : (forall pg v, L' !! pg = Some v -> L !! pg = Some v) -> distinct L -> distinct L'.
Proof. intros Hs Hd pg pg' f a a' ?%Hs ?%Hs. by eapply Hd. Qed.

Lemma distinct_add L pg f a : mappings L f = 0 -> distinct L -> distinct (<[pg := (f, a)]> L).
Proof.
  intros Hf Hd x y g b b' Hx Hy.
  assert (forall z c, L !! z = Some (f, c) -> False) as Hno by (intros z c Hz%mappings_pos; lia).
  apply lookup_insert_Some in Hx as [[<- E]|[? Hx]]; [injection E as <- <-|];
    apply lookup_insert_Some in Hy as [[<- E']|[? Hy]]; [done|by destruct (Hno y b')| |by eapply Hd].
  injection E' as <- <-. by destruct (Hno x b).
Qed.

(** What mapping fresh pages keeps. *)
Definition grown A T L A' T' L' : Prop := same_holders st A T L A' T' L' /\ (distinct L -> distinct L').

(** Undoing the pages in front. *)
Lemma undo_pages (k : nat) s A T L v :
  sv39_ok n st s A T L -> (forall y, v - k <= y < v -> is_Some (L !! y)) -> forall m at_ frame,
  exists s', UnmapPage k s ((v - k) * NX_PAGE_SIZE) = Some (s', NX_EOK) /\ 
    range_outcome s s' L v k m at_ 0 frame (grown A T L).
Proof.
  intros OK Hall m at_ frame. destruct (UnmapPage_spec k s A T L (v - k) OK) as (s2 & A2 & L2 & Hrun & Hm2 & OK2 & HH & HL2).
  { intros y Hy. apply Hall. lia. }
  exists s2. split; [done|]. split; [done|]. exists A2, T, L2. split; [done|]. split.
  { split; [done|]. apply distinct_sub. intros pg w. rewrite HL2. by case_decide. }
  left. split; [done|]. intros y. rewrite HL2.
  by replace (v - k + k) with v by lia.
Qed.

Lemma range_step s s1 s' L v (k m : nat) at_ r f (frame : Z -> Z -> Prop) R :
  mmu s1 = mmu s -> L !! v = None -> frame v f ->
  range_outcome s1 s' (<[v := (f, at_)]> L) (v + 1) (S k) m at_ r frame R ->
  range_outcome s s' L v k (S m) at_ r frame R.
Proof.
  intros Hmmu Hv Hf (Hm & A' & T' & L' & OK & HR & Hcase). split; [congruence|]. exists A', T', L'. split; [done|]. split; [done|].
  destruct Hcase as [[-> Hno]|(-> & Hin & Hout)]; [left|right].
  - split; [done|]. intros y. rewrite Hno. destruct (decide (y = v)) as [->|Hne].
    + rewrite decide_True, decide_False by lia. done.
    + rewrite lookup_insert_ne by done. repeat case_decide; (done || lia).
  - split; [lia|]. split.
    + intros y Hy. destruct (decide (y = v)) as [->|Hne]; [|apply Hin; lia].
      exists f. rewrite Hout by lia. split; [apply lookup_insert_eq|done].
    + intros y Hy. rewrite Hout by lia. rewrite lookup_insert_ne; [done|lia].
Qed.

Lemma MapPageWithPhy_loop_spec at_ (m : nat) : attr_valid at_ -> forall (k : nat) s A T L v f,
  sv39_ok n st s A T L -> (forall y, v <= y < v + m -> L !! y = None /\ user_idx 0 y) ->
  (forall y, v - k <= y < v -> is_Some (L !! y)) -> frames_free A T L f m ->
  exists s' r, MapPageWithPhy_loop m s ((v - k) * NX_PAGE_SIZE) (v * NX_PAGE_SIZE) (f * NX_PAGE_SIZE) at_ k = Some (s', r) /\
    range_outcome s s' L v k m at_ r (fun y g => g = f + (y - v)) (fun _ _ _ => True).
Proof.
  intros Ha. induction m as [|m IH]; intros k s A T L v f OK Hfree Hbefore Hfr; cbn [MapPageWithPhy_loop].
  - exists s, ((v - k) * NX_PAGE_SIZE). split; [done|]. split; [done|]. exists A, T, L. split; [done|]. split; [done|]. right.
    split; [done|]. split; [intros; lia|done].
  - destruct (Hfree v ltac:(lia)) as [Hv Hu]. pose proof (user_small _ Hu).
    assert (Hf : frame_free A T L f /\ 0 < f < 2 ^ 28).
    { destruct Hfr as [[_ [? ?]]|Hfr]; [done|]. destruct (Hfr 0 ltac:(lia)) as [? Hno]. rewrite Z.add_0_r in *.
      split; [|done]. split; [done|]. intros p Hp E. by destruct (Hno p Hp). }
    destruct Hf as [Hf Hfb].
    destruct (MapOnePage_spec s A T L v f at_ OK Hu Hv Ha Hf) as (s1 & e & A1 & T1 & -> & Hm1 & HK & Hcase). rewrite Some_bind.
    destruct Hcase as [[-> OK1]|[-> OK1]].
    + change (negb (is_ok NX_EOK)) with false. cbv iota. rewrite !next_page by lia.
      destruct (IH (S k) s1 A1 T1 (<[v := (f, at_)]> L) (v + 1) (f + 1) OK1) as (s2 & r & Hrun & Hout).
      * intros y Hy. rewrite lookup_insert_ne by lia. apply Hfree. lia.
      * intros y Hy. destruct (decide (y = v)) as [->|Hne]; [rewrite lookup_insert_eq; eauto|].
        rewrite lookup_insert_ne by done. apply Hbefore. lia.
      * right. intros i Hi. destruct Hfr as [[? _]|Hfr]; [lia|]. replace (f + 1 + i) with (f + (1 + i)) by lia. apply Hfr. lia.
      * replace (v + 1 - S k) with (v - k) in Hrun by lia. exists s2, r. split; [done|].
        apply (range_step s s1 s2 L v k m at_ r f); [done|done|lia|].
        destruct Hout as (? & A' & T' & L' & OK' & _ & Hcase). split; [done|]. exists A', T', L'. split; [done|]. split; [done|].
        destruct Hcase as [?|(? & Hin & ?)]; [by left|right]. split; [done|]. split; [|done].
        intros y Hy. destruct (Hin y Hy) as (g & ? & ->). exists (f + 1 + (y - (v + 1))). split; [done|lia].
    + change (negb (is_ok NX_EFAULT)) with true. cbv iota.
      destruct (undo_pages k s1 A1 T1 L v OK1 Hbefore (S m) at_ (fun y g => g = f + (y - v))) as (s2 & -> & Hout).
      rewrite Some_bind. exists s2, 0. split; [done|]. destruct Hout as (? & A' & T' & L' & OK' & _ & Hcase).
      split; [congruence|]. by exists A', T', L'.
Qed.

(** Giving out and taking back pages without entries, and taking references. *)
Lemma ok_zone_change s A A' T L zs' :
  sv39_ok n st s A T L -> normal_zone zs' n st A' ->
  (forall q v, A !! q = Some v -> tabled T (st + q * NX_PAGE_SIZE) -> A' !! q = Some v) ->
  (forall q o t, A !! q = Some (o, t) -> 0 < mappings L (st / NX_PAGE_SIZE + q) -> exists t', A' !! q = Some (o, t') /\ t <= t') ->
  sv39_ok n st (with_zs s zs') A' T L.
Proof.
  intros OK Z' Ht Hm. split; cbn [zs mem mmu with_zs]; try done; try apply OK.
  - intros l j a Ha. apply (ref_ok_frame n st A); [|by apply (ok_refs _ _ _ _ _ _ OK)].
    intros q Hq [v Hv]. rewrite Hv. apply Ht; [done|]. rewrite Hq. by exists (l, j).
  - intros p Hp Hpm. destruct (ok_frames _ _ _ _ _ _ OK p Hp Hpm) as (o & t & Hpa & Hle & Hn).
    destruct (Hm p o t Hpa Hpm) as (t' & ? & ?). exists o, t'. split; [done|]. split; [lia|done].
Qed.

Lemma range_weaken s s' L (v : Z) (k m : nat) (at_ r : Z) (frame : Z -> Z -> Prop) (R R' : gmap Z (Z * Z) -> tables -> pages -> Prop) :
  range_outcome s s' L v k m at_ r frame R -> (forall A T L, R A T L -> R' A T L) -> range_outcome s s' L v k m at_ r frame R'.
Proof. intros (Hm & A' & T' & L' & OK & HR & Hcase) H. split; [done|]. exists A', T', L'. auto. Qed.

Lemma range_mmu s1 s s' L (v : Z) (k m : nat) (at_ r : Z) (frame : Z -> Z -> Prop) R :
  mmu s1 = mmu s -> range_outcome s1 s' L v k m at_ r frame R -> range_outcome s s' L v k m at_ r frame R.
Proof. intros E [Hm H]. split; [congruence|done]. Qed.

(** The one reference of a fresh page is that of the entry it is mapped by; given
    back unmapped, it is gone. *)
Lemma mapped_holders A T L p pg at_ A1 T1 :
  A !! p = None -> mappings L (st / NX_PAGE_SIZE + p) = 0 -> L !! pg = None ->
  kept st (<[p := (0, 1)]> A) T A1 T1 -> same_holders st A T L A1 T1 (<[pg := (st / NX_PAGE_SIZE + p, at_)]> L).
Proof.
  intros Hp Hm Hn HK q o k. unfold holds. rewrite <- (HK q o _), mappings_add by done. unfold owned.
  destruct (decide (q = p)) as [->|Hne].
  - rewrite lookup_insert_eq, Hp, Hm, decide_True by done. split; [by intros (_ & ? & _)|].
    intros (Hk & [= _ ?] & _). lia.
  - rewrite lookup_insert_ne, decide_False by (done || lia). by rewrite Z.add_0_r.
Qed.

Lemma returned_holders A T L p A1 T1 :
  A !! p = None -> kept st (<[p := (0, 1)]> A) T A1 T1 -> ~ tabled T (st + p * NX_PAGE_SIZE) ->
  same_holders st A T L (delete p A1) T1 L.
Proof.
  intros Hp HK Ht q o k. unfold holds. specialize (HK q o (k + mappings L (st / NX_PAGE_SIZE + q))). unfold owned in *.
  destruct (decide (q = p)) as [->|Hne].
  - rewrite lookup_delete_eq, Hp. split; by intros (_ & ? & _).
  - rewrite lookup_insert_ne in HK by done. rewrite lookup_delete_ne by done. by rewrite HK.
Qed.

Lemma MapPage_loop_spec at_ (m : nat) : attr_valid at_ -> forall (k : nat) s A T L v,
  sv39_ok n st s A T L -> (forall y, v <= y < v + m -> L !! y = None /\ user_idx 0 y) ->
  (forall y, v - k <= y < v -> is_Some (L !! y)) ->
  exists s' r, MapPage_loop m s ((v - k) * NX_PAGE_SIZE) (v * NX_PAGE_SIZE) at_ k = Some (s', r) /\
    range_outcome s s' L v k m at_ r (fun _ _ => True) (grown A T L).
Proof.
  intros Ha. induction m as [|m IH]; intros k s A T L v OK Hfree Hbefore; cbn [MapPage_loop].
  - exists s, ((v - k) * NX_PAGE_SIZE). split; [done|]. split; [done|]. exists A, T, L. split; [done|]. split; [done|]. right.
    split; [done|]. split; [intros; lia|done].
  - destruct (Hfree v ltac:(lia)) as [Hv Hu]. pose proof (user_small _ Hu).
    destruct (page_alloc_one _ _ _ _ (ok_zone _ _ _ _ _ _ OK)) as (zs1 & c & Hrun & Hc).
    unfold NX_PageAlloc. rewrite Hrun, !Some_bind. destruct Hc as [[-> Z1]|(p & -> & Hp & Hfp & Z1)].
    { change (0 =? 0) with true. cbv iota. assert (OK1 : sv39_ok n st (with_zs s zs1) A T L) by (apply (ok_zone_change s A); eauto with lia).
      destruct (undo_pages k _ A T L v OK1 Hbefore (S m) at_ (fun _ _ => True)) as (s2 & -> & Hout).
      rewrite Some_bind. by exists s2, 0. }
    destruct (zone_page s A T L p OK Hp) as (Hdiv & Hmod & Hpos & Hf28).
    destruct (fresh_page s A T L p OK Hp Hfp) as (Hpn & Htab & Hmap). rewrite (proj2 (Z.eqb_neq _ 0)) by lia.
    assert (OK1 : sv39_ok n st (with_zs s zs1) (<[p := (0, 1)]> A) T L).
    { assert (forall q w, A !! q = Some w -> <[p := (0, 1)]> A !! q = Some w).
      { intros q w Hq. rewrite lookup_insert_ne; [done|]. intros ->. congruence. }
      apply (ok_zone_change s A); eauto with lia. }
    assert (Hf : frame_free (<[p := (0, 1)]> A) T L (st / NX_PAGE_SIZE + p)).
    { split; [done|]. intros q Hq E. assert (q = p) as -> by lia. exists 0, 1. rewrite lookup_insert_eq, Hmap.
      split; [done|]. split; [lia|done]. }
    assert (Hpage : st + p * NX_PAGE_SIZE = (st / NX_PAGE_SIZE + p) * NX_PAGE_SIZE) by (unfold NX_PAGE_SIZE in *; clear - Hmod; zlia).
    destruct (MapOnePage_spec _ _ T L v _ at_ OK1 Hu Hv Ha Hf) as (s1 & e & A1 & T1 & Hone & Hm1 & HK & Hcase).
    rewrite <- Hpage in Hone. rewrite Hone. cbn [mmu with_zs] in Hm1. rewrite Some_bind. destruct Hcase as [[-> OK2]|[-> OK2]].
    + change (negb (is_ok NX_EOK)) with false. cbv iota. rewrite next_page by lia.
      destruct (IH (S k) s1 A1 T1 (<[v := (st / NX_PAGE_SIZE + p, at_)]> L) (v + 1) OK2) as (s2 & r & Hrun2 & Hout).
      * intros y Hy. rewrite lookup_insert_ne by lia. apply Hfree. lia.
      * intros y Hy. destruct (decide (y = v)) as [->|Hne]; [rewrite lookup_insert_eq; eauto|].
        rewrite lookup_insert_ne by done. apply Hbefore. lia.
      * replace (v + 1 - S k) with (v - k) in Hrun2 by lia. exists s2, r. split; [done|].
        apply (range_step s s1 s2 L v k m at_ r (st / NX_PAGE_SIZE + p)); try done.
        apply (range_weaken _ _ _ _ _ _ _ _ _ _ _ Hout). intros A' T' L' [HR HD]. split.
        -- eapply same_holders_trans; [|exact HR]. by apply (mapped_holders A T L p v at_ A1 T1).
        -- intros ?. by apply HD, distinct_add.
    + change (negb (is_ok NX_EFAULT)) with true. cbv iota.
      destruct (proj1 (HK p 0 1) (conj (lookup_insert_eq _ _ _) Htab)) as [Hp1 Htab1].
      destruct (page_free_at _ _ _ _ p 0 1 (ok_zone _ _ _ _ _ _ OK2) Hp1) as (zs3 & e3 & Hrun3 & [(_ & -> & Z3)|(? & _)]); [|lia].
      unfold NX_PageFree. rewrite Hrun3, !Some_bind.
      assert (OK3 : sv39_ok n st (with_zs s1 zs3) (delete p A1) T1 L).
      { apply (ok_zone_change s1 A1); [done..| |].
        - intros q w Hq Hor. rewrite lookup_delete_ne; [done|]. by intros ->.
        - intros q o t Hq Hor. exists t. rewrite lookup_delete_ne; [done|]. intros ->. lia. }
      destruct (undo_pages k _ _ T1 L v OK3 Hbefore (S m) at_ (fun _ _ => True)) as (s2 & -> & Hout).
      rewrite Some_bind. exists s2, 0. split; [done|].
      apply (range_mmu s1); [done|]. apply (range_weaken _ _ _ _ _ _ _ _ _ _ _ Hout). intros A' T' L' [HR HD]. split; [|done].
      eapply same_holders_trans; [|exact HR]. by apply (returned_holders A T L p A1 T1).
Qed.

End invariant.

(** ** The operations *)
Lemma user_range addr size :
  vir_range NX_USER_SPACE_VADDR NX_USER_SPACE_TOP addr size ->
  exists v (m : nat), addr = v * NX_PAGE_SIZE /\ size = m * NX_PAGE_SIZE /\ page_count addr size = m /\
    Z.land addr NX_PAGE_ADDR_MASK = addr /\ NX_PAGE_ALIGNUP size = size /\
    (forall y, v <= y < v + m -> user_idx 0 y) /\ forall y, in_pages addr size y <-> v <= y < v + m.
Proof.
  intros ((Ha & Hs & _ & Hma & Hms) & Hlo & Hhi). unfold NX_USER_SPACE_VADDR, NX_USER_SPACE_TOP in *.
  exists (addr / NX_PAGE_SIZE), (Z.to_nat (size / NX_PAGE_SIZE)).
  rewrite Z2Nat.id by (unfold NX_PAGE_SIZE; zlia).
  split; [unfold NX_PAGE_SIZE in *; zlia|]. split; [unfold NX_PAGE_SIZE in *; zlia|]. split.
  { unfold page_count, GET_PF_ID, NX_PAGE_SHIFT. rewrite !Z.shiftr_div_pow2 by lia. change (2 ^ 12) with NX_PAGE_SIZE.
    rewrite u64_small by lia. unfold NX_PAGE_SIZE in *. zlia. }
  split. { change (NX_PAGE_ALIGNDOWN addr = addr). rewrite NX_PAGE_ALIGNDOWN_spec by lia. unfold NX_PAGE_SIZE in *. zlia. }
  split. { rewrite NX_PAGE_ALIGNUP_spec by lia. unfold align_up, NX_PAGE_SIZE in *. zlia. }
  split; intros y; unfold in_pages, user_idx, NX_PAGE_SIZE in *; cbn; zlia.
Qed.

Lemma user_page_idx pg : user_page pg = false -> ~ user_idx 0 pg.
Proof. intros H H'%user_page_spec. congruence. Qed.

Section operations.
Context (n st : Z).
Implicit Types (s : sv39) (A : gmap Z (Z * Z)) (T : tables) (L : pages).

Lemma lookup_page_spec s A T L pg : sv39_ok n st s A T L -> lookup_page s pg = L !! pg.
Proof.
  intros OK. unfold lookup_page. destruct (user_page pg) eqn:E.
  - rewrite assert_true. apply user_page_spec in E. rewrite <- (Z.add_0_r (pg * NX_PAGE_SIZE)), (PageWalk_false n st s A T L) by done.
    rewrite Some_bind. unfold entry_address. destruct (T !! (0%nat, pg / 512)) as [b|] eqn:Eb.
    + destruct (page_entry n st s A T L pg b OK E Eb) as (-> & Hne & _). unfold nz at 1.
      rewrite (proj2 (Z.eqb_neq _ 0)) by done. cbn [negb]. rewrite assert_true. cbn [entry].
      destruct (L !! pg) as [[f at_]|] eqn:El; [|done]. destruct (ok_page _ _ _ _ _ _ OK pg f at_ El) as (_ & _ & Hf & Ha & Hv & _).
      rewrite PTE_USED_entry, Hv, PTE2PADDR_entry, entry_attr by lia. cbn. by rewrite Z.div_mul.
    + cbn. destruct (L !! pg) as [[f at_]|] eqn:El; [|done]. destruct (ok_page _ _ _ _ _ _ OK pg f at_ El) as ([v Hv] & _). congruence.
  - destruct (L !! pg) as [[f at_]|] eqn:El; [|done]. exfalso. apply (user_page_idx pg E), (ok_page _ _ _ _ _ _ OK pg f at_ El).
Qed.

Definition map_result s s' L (addr size at_ r : Z) (frame : Z -> Z -> Prop)
    (R : gmap Z (Z * Z) -> tables -> pages -> Prop) : Prop :=
  mmu s' = mmu s /\ exists A' T' L', sv39_ok n st s' A' T' L' /\ R A' T' L' /\
    ((r = 0 /\ forall pg, L' !! pg = L !! pg) \/
     (r = addr /\ (forall pg, in_pages addr size pg -> exists f, L' !! pg = Some (f, at_) /\ frame pg f) /\
      forall pg, ~ in_pages addr size pg -> L' !! pg = L !! pg)).

Lemma range_result s s' L (v : Z) (m : nat) (addr size at_ r : Z) (frame : Z -> Z -> Prop) R :
  addr = v * NX_PAGE_SIZE -> (forall y, in_pages addr size y <-> v <= y < v + m) ->
  range_outcome n st s s' L v 0 m at_ r frame R -> map_result s s' L addr size at_ r frame R.
Proof.
  intros -> Hin (Hm & A' & T' & L' & OK & HR & Hcase). split; [done|]. exists A', T', L'. split; [done|]. split; [done|].
  destruct Hcase as [[-> H]|(-> & H1 & H2)]; [left|right].
  - split; [done|]. intros pg. rewrite H, decide_False by lia. done.
  - split; [lia|]. split; intros pg Hpg; [apply H1; by apply Hin|apply H2; by rewrite <- Hin].
Qed.

Lemma NX_HalMapPage_spec s A T L addr size at_ :
  sv39_ok n st s A T L -> vir_range NX_USER_SPACE_VADDR NX_USER_SPACE_TOP addr size -> attr_valid at_ ->
  (forall pg, in_pages addr size pg -> L !! pg = None) ->
  exists s' r, NX_HalMapPage s addr size at_ = Some (s', r) /\ 
    map_result s s' L addr size at_ r (fun _ _ => True) (grown st A T L).
Proof.
  intros OK Hr Ha Hfree. destruct (user_range addr size Hr) as (v & m & Ev & _ & Hc & Hmask & Hup & Hu & Hin).
  unfold NX_HalMapPage, nz. rewrite (proj2 (Z.eqb_neq at_ 0)) by (intros ->; destruct Ha as (_ & Ha & _); discriminate).
  cbn [negb]. rewrite Hmask, Hup. unfold MapPage. rewrite Hc, Nat2Z.id.
  destruct (MapPage_loop_spec n st at_ m Ha 0 s A T L v OK) as (s' & r & Hrun & Hout).
  - intros y Hy. split; [apply Hfree; by apply Hin|by apply Hu].
  - intros y Hy. lia.
  - exists s', r. rewrite Z.sub_0_r, <- Ev in Hrun. split; [done|]. by apply (range_result s s' L v m).
Qed.

Lemma NX_HalMapPageWithPhy_spec s A T L addr phy size at_ :
  sv39_ok n st s A T L -> vir_range NX_USER_SPACE_VADDR NX_USER_SPACE_TOP addr size -> attr_valid at_ ->
  0 <= phy -> phy + size <= 2 ^ 40 -> frames_free n st A T L (phy / NX_PAGE_SIZE) (size / NX_PAGE_SIZE) ->
  (forall pg, in_pages addr size pg -> L !! pg = None) ->
  exists s' r, NX_HalMapPageWithPhy s addr phy size at_ = Some (s', r) /\
    map_result s s' L addr size at_ r (fun pg f => f = phy / NX_PAGE_SIZE + (pg - addr / NX_PAGE_SIZE)) (fun _ _ _ => True).
Proof.
  intros OK Hr Ha Hp0 Hp1 Hfr Hfree. destruct (user_range addr size Hr) as (v & m & Ev & Es & Hc & Hmask & Hup & Hu & Hin).
  unfold NX_HalMapPageWithPhy, nz. rewrite (proj2 (Z.eqb_neq at_ 0)) by (intros ->; destruct Ha as (_ & Ha & _); discriminate).
  cbn [negb]. rewrite Hmask, Hup. unfold MapPageWithPhy. rewrite Hc, Nat2Z.id.
  assert (Z.land phy NX_PAGE_ADDR_MASK = phy / NX_PAGE_SIZE * NX_PAGE_SIZE) as ->.
  { destruct Hr as ((? & ? & _) & _). apply NX_PAGE_ALIGNDOWN_spec. lia. }
  destruct (MapPageWithPhy_loop_spec n st at_ m Ha 0 s A T L v (phy / NX_PAGE_SIZE) OK) as (s' & r & Hrun & Hout).
  - intros y Hy. split; [apply Hfree; by apply Hin|by apply Hu].
  - intros y Hy. lia.
  - rewrite Es, Z.div_mul in Hfr by done. done.
  - exists s', r. rewrite Z.sub_0_r, <- Ev in Hrun. split; [done|]. apply (range_result s s' L v m); [done|done|].
    rewrite Ev, Z.div_mul by done. done.
Qed.

Lemma NX_HalUnmapPage_spec s A T L addr size :
  sv39_ok n st s A T L -> vir_range NX_USER_SPACE_VADDR NX_USER_SPACE_TOP addr size ->
  (forall pg, in_pages addr size pg -> is_Some (L !! pg)) ->
  exists s' A' L', NX_HalUnmapPage s addr size = Some (s', NX_EOK) /\ mmu s' = mmu s /\ sv39_ok n st s' A' T L' /\
    same_holders st A T L A' T L' /\ forall pg, L' !! pg = if decide (in_pages addr size pg) then None else L !! pg.
Proof.
  intros OK Hr Hall. destruct (user_range addr size Hr) as (v & m & Ev & Es & Hc & Hmask & Hup & Hu & Hin).
  unfold NX_HalUnmapPage. rewrite Hmask, Hup, Hc, u64_small, Nat2Z.id.
  2:{ destruct Hr as ((? & ? & ? & _) & _). unfold NX_PAGE_SIZE in *. lia. }
  destruct (UnmapPage_spec n st m s A T L v OK) as (s' & A' & L' & Hrun & Hm & OK' & HH & HL').
  - intros y Hy. apply Hall. by apply Hin.
  - exists s', A', L'. rewrite <- Ev in Hrun. split_and!; try done. intros pg. rewrite HL'. specialize (Hin pg).
    repeat case_decide; tauto.
Qed.

Lemma NX_HalVir2Phy_spec s A T L addr f at_ :
  sv39_ok n st s A T L -> 0 <= addr -> L !! (addr / NX_PAGE_SIZE) = Some (f, at_) ->
  NX_HalVir2Phy s addr = Some (f * NX_PAGE_SIZE + addr mod NX_PAGE_SIZE).
Proof.
  intros OK H0 Hl. destruct (ok_page _ _ _ _ _ _ OK _ f at_ Hl) as ([b Hb] & Hu & Hf & Ha & Hv & _).
  unfold NX_HalVir2Phy. set (pg := addr / NX_PAGE_SIZE) in *.
  assert (addr = pg * NX_PAGE_SIZE + addr mod NX_PAGE_SIZE /\ 0 <= addr mod NX_PAGE_SIZE < NX_PAGE_SIZE) as [E Hm]
    by (unfold pg, NX_PAGE_SIZE; zlia).
  rewrite E at 1. rewrite (PageWalk_false n st s A T L), Some_bind by done. unfold entry_address. rewrite Hb.
  destruct (page_entry n st s A T L pg b OK Hu Hb) as (-> & Hne & _). unfold nz. rewrite (proj2 (Z.eqb_neq _ 0)) by done.
  cbn [negb]. rewrite assert_true. cbn [entry]. rewrite Hl, PTE_USED_entry, Hv, PTE2PADDR_entry by lia. done.
Qed.
End operations.

(** ** The laws of the interface

    A frame may be shared when it lies outside the zone, as those of devices, or
    is one page that the zone has given out, not as a table. *)
Definition sharable (s : sv39) (phy size : Z) : Prop :=
  0 <= phy /\ phy + size <= 2 ^ 40 /\ 0 < phy / NX_PAGE_SIZE /\ exists n st A T L, sv39_ok n st s A T L /\
    ((forall i p, 0 <= i < size / NX_PAGE_SIZE -> 0 <= p < n -> phy / NX_PAGE_SIZE + i <> st / NX_PAGE_SIZE + p) \/
     (size = NX_PAGE_SIZE /\ exists p o t, 0 <= p < n /\ phy / NX_PAGE_SIZE = st / NX_PAGE_SIZE + p /\
        A !! p = Some (o, t) /\ t < 2 ^ 62 /\ ~ tabled T (st + p * NX_PAGE_SIZE))).

Definition sv39_inv (s : sv39) : Prop := exists n st A T L, sv39_ok n st s A T L.

(** Taking the reference of the new entry. *)
Lemma share_frame s phy size :
  0 < size -> size mod NX_PAGE_SIZE = 0 -> sharable s phy size ->
  exists n st A T L s0 e A0, sv39_ok n st s A T L /\
    NX_PageIncrease s (Z.land phy NX_PAGE_ADDR_MASK) = Some (s0, e) /\ sv39_ok n st s0 A0 T L /\ mmu s0 = mmu s /\
    frames_free n st A0 T L (phy / NX_PAGE_SIZE) (size / NX_PAGE_SIZE).
Proof.
  intros Hsz Hsm (H0 & H1 & Hf & n & st & A & T & L & OK & Hcase). exists n, st, A, T, L.
  assert (Z.land phy NX_PAGE_ADDR_MASK = phy / NX_PAGE_SIZE * NX_PAGE_SIZE) as -> by (apply NX_PAGE_ALIGNDOWN_spec; lia).
  pose proof (ok_zone _ _ _ _ _ _ OK) as Z0. destruct (normal_zone_bounds _ _ _ _ Z0) as (? & ? & ? & Hal).
  unfold NX_PageIncrease. destruct Hcase as [Hout|(-> & p & o & t & Hp & E & Hpa & Ht & Hnt)].
  - assert (phy / NX_PAGE_SIZE * NX_PAGE_SIZE < st \/ st + n * NX_PAGE_SIZE <= phy / NX_PAGE_SIZE * NX_PAGE_SIZE).
    { assert (phy / NX_PAGE_SIZE < st / NX_PAGE_SIZE \/ st / NX_PAGE_SIZE + n <= phy / NX_PAGE_SIZE); [|unfold NX_PAGE_SIZE in *; zlia].
      destruct (decide (st / NX_PAGE_SIZE <= phy / NX_PAGE_SIZE < st / NX_PAGE_SIZE + n)); [|lia].
      destruct (Hout 0 (phy / NX_PAGE_SIZE - st / NX_PAGE_SIZE)); [|lia|lia]. unfold NX_PAGE_SIZE in *; zlia. }
    destruct (page_increase_outside _ _ _ _ (phy / NX_PAGE_SIZE * NX_PAGE_SIZE) Z0) as (zs1 & -> & Z1);
      [unfold NX_PAGE_SIZE in *; lia|done|].
    rewrite Some_bind. exists (with_zs s zs1), NX_EINVAL, A. split; [done|]. split; [done|].
    split; [apply (ok_zone_change n st s A); eauto with lia|]. split; [done|]. right.
    intros i Hi. split; [|auto]. unfold NX_PAGE_SIZE in *. zlia.
  - assert (phy / NX_PAGE_SIZE * NX_PAGE_SIZE = st + p * NX_PAGE_SIZE) as -> by (unfold NX_PAGE_SIZE in *; clear - E Hal; zlia).
    destruct (page_increase_at _ _ _ _ p o t Z0 Hpa) as (zs1 & -> & Z1); [lia|].
    rewrite Some_bind. exists (with_zs s zs1), NX_EOK, (<[p := (o, t + 1)]> A). split; [done|]. split; [done|]. split; [|split; [done|]].
    + apply (ok_zone_change n st s A); [done..| |].
      * intros q v Hq Hqt. rewrite lookup_insert_ne; [done|]. by intros ->.
      * intros q o' t' Hq _. destruct (decide (q = p)) as [->|Hne]; [|exists t'; rewrite lookup_insert_ne; [split; [done|lia]|congruence]].
        simplify_eq. exists (t + 1). rewrite lookup_insert_eq. split; [done|lia].
    + left. split; [done|]. split; [unfold NX_PAGE_SIZE in *; zlia|]. intros q Hq Eq. assert (q = p) as -> by lia.
      exists o, (t + 1). rewrite lookup_insert_eq. split; [done|]. split; [|done].
      destruct (Z.le_gt_cases (mappings L (phy / NX_PAGE_SIZE)) 0) as [Hz|Hz].
      * destruct (normal_zone_block _ _ _ _ _ _ _ Z0 Hpa). lia.
      * rewrite E in Hz |- *. destruct (ok_frames _ _ _ _ _ _ OK p Hp Hz) as (o' & t' & Hpa' & ? & _). simplify_eq. lia.
Qed.

Section laws.
(** [NX_MemFree] of the heap on the page of the root table. *)
Context (NX_MemFree : sv39 -> Z -> option sv39).

Definition NX_HalProcessFreePageTable (s : sv39) : option (sv39 * NX_Error) :=
  if table (mmu s) =? 0 then Some (s, NX_EFAULT) else s ← NX_MemFree s (table (mmu s)); Some (s, NX_EOK).

#[export] Instance sv39_ops : MmuOps sv39 := {|
  mapPage := NX_HalMapPage;
  mapPageWithPhy := NX_HalMapPageWithPhy;
  unmapPage := NX_HalUnmapPage;
  vir2Phy := NX_HalVir2Phy;
  pageIncrease := NX_PageIncrease;
  freePageTable := NX_HalProcessFreePageTable;
  translate := lookup_page
|}.

Lemma map_result_mapped n st s s' A T L addr size at_ r frame R :
  sv39_ok n st s A T L -> map_result n st s s' L addr size at_ r frame R ->
  sv39_inv s' /\ mapped s s' addr size at_ r frame.
Proof.
  intros OK (_ & A' & T' & L' & OK' & _ & Hcase). split; [by exists n, st, A', T', L'|].
  unfold mapped. cbn [translate sv39_ops].
  assert (E : forall pg, lookup_page s pg = L !! pg) by (intros; by apply (lookup_page_spec n st s A T)).
  assert (E' : forall pg, lookup_page s' pg = L' !! pg) by (intros; by apply (lookup_page_spec n st s' A' T')).
  destruct Hcase as [[-> H]|(-> & H1 & H2)]; [left|right].
  - split; [done|]. intros pg. by rewrite E, E'.
  - split; [done|]. split; intros pg Hpg; rewrite E'; [by apply H1|]. rewrite E. by apply H2.
Qed.

#[export] Instance sv39_laws : MmuLaws sv39.
Proof.
  refine (Build_MmuLaws sv39 _ sv39_inv NX_USER_SPACE_VADDR NX_USER_SPACE_TOP attr_valid sharable _ _ _ _ _).
  - intros at_ (_ & Ha & _) ->. discriminate.
  - intros s addr size at_ (n & st & A & T & L & OK) Hr Ha Hfree. cbn [translate mapPage sv39_ops] in *.
    destruct (NX_HalMapPage_spec n st s A T L addr size at_ OK Hr Ha) as (s' & r & Hrun & Hres).
    + intros pg Hpg. rewrite <- (lookup_page_spec n st s A T L pg OK). auto.
    + exists s', r. split; [done|]. by eapply map_result_mapped.
  - intros s addr phy size at_ _ Hr Ha Hsh Hfree. cbn [translate mapPageWithPhy pageIncrease sv39_ops] in *.
    pose proof Hr as ((_ & Hs0 & _ & _ & Hsm) & _). pose proof Hsh as (Hp0 & Hp1 & _).
    destruct (share_frame s phy size Hs0 Hsm Hsh) as (n & st & A & T & L & s0 & e & A0 & OK & Hinc & OK0 & _ & Hfr).
    destruct (NX_HalMapPageWithPhy_spec n st s0 A0 T L addr phy size at_ OK0 Hr Ha Hp0 Hp1 Hfr) as (s' & r & Hrun & Hres).
    + intros pg Hpg. rewrite <- (lookup_page_spec n st s A T L pg OK). auto.
    + exists s0, e, s', r. split; [done|]. split; [done|].
      destruct (map_result_mapped n st s0 s' A0 T L addr size at_ r _ _ OK0 Hres) as [Hinv Hm]. split; [done|].
      unfold mapped in *. cbn [translate sv39_ops] in *.
      assert (E : forall pg, lookup_page s0 pg = lookup_page s pg).
      { intros. by rewrite (lookup_page_spec n st s A T L), (lookup_page_spec n st s0 A0 T L). }
      destruct Hm as [[-> Hm]|(-> & Hm1 & Hm2)]; [left|right]; (split; [done|]).
      * intros pg. by rewrite Hm.
      * split; [done|]. intros pg Hpg. by rewrite Hm2.
  - intros s addr size (n & st & A & T & L & OK) Hr Hall. cbn [translate unmapPage sv39_ops] in *.
    assert (E : forall pg, lookup_page s pg = L !! pg) by (intros; by apply (lookup_page_spec n st s A T)).
    destruct (NX_HalUnmapPage_spec n st s A T L addr size OK Hr) as (s' & A' & L' & -> & _ & OK' & _ & HL').
    { intros pg Hpg. rewrite <- E. auto. }
    exists s'. split; [done|]. split; [by exists n, st, A', T, L'|].
    split; intros pg Hpg; rewrite (lookup_page_spec n st s' A' T L'), HL' by done;
      [by rewrite decide_True|by rewrite decide_False, E].
  - intros s addr f at_ (n & st & A & T & L & OK) H0 Hl. cbn [translate vir2Phy sv39_ops] in *.
    rewrite (lookup_page_spec n st s A T L) in Hl by done. by apply (NX_HalVir2Phy_spec n st s A T L addr f at_).
Defined.
(** A page given out is mapped by one entry only. *)
Lemma distinct_lookup n st s A T L : sv39_ok n st s A T L -> distinct_frames s <-> distinct L.
Proof.
  intros OK. unfold distinct_frames, distinct. cbn [translate sv39_ops].
  split; intros Hd pg pg' f a a' Hf Hf'; apply (Hd pg pg' f a a'); by rewrite ?(lookup_page_spec n st s A T L) in * by done.
Qed.

#[export] Instance sv39_fresh : MmuFresh sv39.
Proof.
  refine (Build_MmuFresh sv39 _ _ distinct_frames _ _ _).
  - done.
  - intros s pg f a (n & st & A & T & L & OK) _ Hf. cbn [translate sv39_ops] in Hf.
    rewrite (lookup_page_spec n st s A T L) in Hf by done. by apply (ok_page _ _ _ _ _ _ OK) in Hf as (_ & _ & [? _] & _).
  - intros s s' addr size at_ r (n & st & A & T & L & OK) Hd Hr Ha Hfree Hmap. cbn [translate mapPage sv39_ops] in *.
    destruct (NX_HalMapPage_spec n st s A T L addr size at_ OK Hr Ha) as (s1 & r1 & Hrun & _ & A' & T' & L' & OK' & [_ HD] & _).
    + intros pg Hpg. rewrite <- (lookup_page_spec n st s A T L pg OK). auto.
    + assert (s1 = s') as -> by congruence. apply (distinct_lookup n st s' A' T' L' OK'), HD.
      by apply (distinct_lookup n st s A T L OK).
Defined.
End laws.

(** ** The first state: a root table without entries in the user space *)
Lemma sv39_start n st s A :
  normal_zone (zs s) n st A -> st + n * NX_PAGE_SIZE <= 2 ^ 40 ->
  0 < table (mmu s) < 2 ^ 63 -> table (mmu s) mod NX_PAGE_SIZE = 0 ->
  (table (mmu s) < st \/ st + n * NX_PAGE_SIZE <= table (mmu s) \/
   exists p o t, table (mmu s) = st + p * NX_PAGE_SIZE /\ A !! p = Some (o, t) /\ t <= 2 ^ 61) ->
  (forall k, 4 <= k < 16 -> mem s (table (mmu s) + 8 * k) = 0) ->
  sv39_ok n st s A {[ (2%nat, 0) := table (mmu s) ]} ∅.
Proof.
  intros Z0 Htop Ht Htm Hroot Hmem.
  assert (Hone : forall x a, ({[ (2%nat, 0) := table (mmu s) ]} : tables) !! x = Some a -> x = (2%nat, 0) /\ a = table (mmu s)).
  { intros x a Hx. by apply lookup_singleton_Some in Hx as [<- <-]. }
  split; try done.
  - intros l j a H. apply Hone in H as ([= -> ->] & ->). split_and!; try done; lia.
  - intros x y a H1 H2. apply Hone in H1 as (-> & _). by apply Hone in H2 as (-> & _).
  - intros l j a k H Hk Hu. apply Hone in H as ([= -> ->] & ->). cbn in Hu. unfold user_idx in Hu. cbn in Hu.
    rewrite Hmem by lia. cbn [entry]. destruct (_ !! _) eqn:E; [|done]. apply Hone in E as ([=] & _).
  - intros l j a H. apply Hone in H as ([= -> ->] & ->). cbn [ref_ok].
    pose proof (used_bounds {[(2%nat, 0) := table (mmu s)]} ∅ 2 0).
    destruct Hroot as [?|[?|(p & o & t & ? & ? & ?)]]; [by left|by right; left|]. right. right. exists p, o, t. split_and!; (done || lia).
Qed.

(** ** The register *)
Lemma satp_roundtrip satp addr :
  0 <= satp < 2 ^ 64 -> 0 <= addr < 2 ^ 56 -> addr mod NX_PAGE_SIZE = 0 ->
  NX_HalGetPageTable (NX_HalSetPageTable satp addr) = addr /\
  NX_HalGetPageTable (NX_HalEnable (NX_HalSetPageTable satp addr)) = addr.
Proof.
  intros Hs Ha Hm. unfold NX_HalGetPageTable, GET_ADDR_FROM_SATP, NX_HalSetPageTable, NX_HalEnable, MAKE_SATP_ADDR, NX_PAGE_SHIFT, u64.
  assert (Hbits : forall c, Z.land c (2 ^ 60 - 1) = 0 ->
      (Z.lor c (addr >> 12) << 12) mod 2 ^ 64 = addr).
  { intros c Hc. rewrite Z.shiftl_lor, <- Z.land_ones, Z.land_lor_distr_l, !Z.land_ones by lia.
    assert ((c << 12) mod 2 ^ 64 = 0) as ->.
    { rewrite <- Z.land_ones by lia. change (Z.ones 64) with (Z.lor (Z.ones 52 << 12) (Z.ones 12)).
      rewrite Z.land_lor_distr_r, <- Z.shiftl_land. assert (Z.land c (Z.ones 52) = 0) as ->.
      { change (Z.ones 52) with (Z.land (2 ^ 60 - 1) (Z.ones 52)). by rewrite Z.land_assoc, Hc. }
      rewrite Z.shiftl_0_l, Z.lor_0_l, Z.land_ones, Z.shiftl_mul_pow2, Z.mod_mul by lia. done. }
    rewrite Z.lor_0_l, Z.shiftl_mul_pow2, Z.shiftr_div_pow2 by lia. change (2 ^ 12) with NX_PAGE_SIZE.
    rewrite Z.mod_small; unfold NX_PAGE_SIZE in *; zlia. }
  split; [apply Hbits|rewrite <- Z.lor_assoc, (Z.lor_comm (addr >> 12)), Z.lor_assoc; apply Hbits].
  - by rewrite <- Z.land_assoc, Z.land_0_r.
  - by rewrite Z.land_lor_distr_l, <- Z.land_assoc, Z.land_0_r.
Qed.

(** ** Properties *)

(** C29: The page tables implement a finite map from the pages of the user space
    to frames and attributes.  On pages without an entry mapping either enters
    all of them with their attributes, fresh frames or the frames asked for, or
    answers null and has undone everything; unmapping pages with entries removes
    exactly those; a virtual address translates by the entry of its page.  Every
    call returns, no assertion fails, and the tables stay well-formed.  No frame
    is leaked or freed under another holder: mapping fresh pages and unmapping
    leave all references the tables do not account for as they were. *)
Theorem sv39_refines_map n st s A T L addr size at_ :
  sv39_ok n st s A T L -> vir_range NX_USER_SPACE_VADDR NX_USER_SPACE_TOP addr size -> attr_valid at_ ->
  ((forall pg, in_pages addr size pg -> L !! pg = None) ->
     exists s' r, NX_HalMapPage s addr size at_ = Some (s', r) /\
       map_result n st s s' L addr size at_ r (fun _ _ => True) (same_holders st A T L)) /\
  (forall phy, (forall pg, in_pages addr size pg -> L !! pg = None) -> 0 <= phy -> phy + size <= 2 ^ 40 ->
     frames_free n st A T L (phy / NX_PAGE_SIZE) (size / NX_PAGE_SIZE) ->
     exists s' r, NX_HalMapPageWithPhy s addr phy size at_ = Some (s', r) /\
       map_result n st s s' L addr size at_ r
         (fun pg f => f = phy / NX_PAGE_SIZE + (pg - addr / NX_PAGE_SIZE)) (fun _ _ _ => True)) /\
  ((forall pg, in_pages addr size pg -> is_Some (L !! pg)) ->
     exists s' A' L', NX_HalUnmapPage s addr size = Some (s', NX_EOK) /\ mmu s' = mmu s /\ sv39_ok n st s' A' T L' /\
       same_holders st A T L A' T L' /\
       forall pg, L' !! pg = if decide (in_pages addr size pg) then None else L !! pg) /\
  (forall a f b, 0 <= a -> L !! (a / NX_PAGE_SIZE) = Some (f, b) ->
     NX_HalVir2Phy s a = Some (f * NX_PAGE_SIZE + a mod NX_PAGE_SIZE)) /\
  forall pg, lookup_page s pg = L !! pg.
Proof.
  intros OK Hr Ha. split_and!.
  - intros Hfree. destruct (NX_HalMapPage_spec n st s A T L addr size at_) as (s' & r & Hrun & Hm & A' & T' & L' & OK' & [HR _] & Hcase);
      try done. exists s', r. split; [done|]. split; [done|]. by exists A', T', L'.
  - intros phy Hfree H0 H1 Hfr. by apply (NX_HalMapPageWithPhy_spec n st s A T L).
  - intros Hall. by apply (NX_HalUnmapPage_spec n st s A T L).
  - intros a f b H0 Hl. by apply (NX_HalVir2Phy_spec n st s A T L a f b).
  - intros pg. by apply (lookup_page_spec n st s A T L).
Qed.

(** *** On a concrete machine: 64 pages of memory, the root table below them *)
Definition demo_zones : zones :=
  match NX_BuddyCreate (fun _ => mkPage 0 0 0 0) 0x100000 0x40000 with Some b => [Some b; None] | None => [] end.
Definition demo : sv39 :=
  mkSv39 demo_zones (fun _ => 0) (NX_MmuInit 0x80000 NX_USER_SPACE_VADDR (NX_USER_SPACE_TOP - NX_USER_SPACE_VADDR) 0).

Lemma sv39_demo_ok : exists n st, sv39_ok n st demo ∅ {[ (2%nat, 0) := 0x80000 ]} ∅.
Proof.
  destruct (NX_BuddyCreate_spec (fun _ => mkPage 0 0 0 0) 0x100000 0x40000)
    as (s & n & Hs & W & Hnone & Hlo & Hhi); [lia|lia|lia|vm_compute; discriminate|].
  exists n, (pageStart s). assert (Hz : demo_zones = [Some s; None]) by (unfold demo_zones; by rewrite Hs).
  pose proof (wh_start _ _ _ _ W) as (Hal & Hst & _). unfold NX_PAGE_SIZE in *.
  apply (sv39_start n (pageStart s) demo ∅); cbn [demo zs mmu mem NX_MmuInit table].
  - rewrite Hz. split; [reflexivity|]. exists s, (usedPage s). split; [reflexivity|]. split; [exact W|]. split; [lia|].
    split; [reflexivity|]. split; [reflexivity|]. intros p o t. cbn [fst]. rewrite lookup_empty. split; [discriminate|].
    intros Ha. exact (False_ind _ (Hnone _ _ _ Ha)).
  - unfold NX_PAGE_SIZE. lia.
  - lia.
  - reflexivity.
  - left. lia.
  - reflexivity.
Qed.

Lemma sv39_refines_map_witness :
  exists s' r, NX_HalMapPage demo NX_USER_SPACE_VADDR 0x2000 NX_PAGE_ATTR_USER = Some (s', r) /\
    (r = 0 \/ exists f, lookup_page s' 0x100001 = Some (f, NX_PAGE_ATTR_USER)).
Proof.
  destruct sv39_demo_ok as (n & st & OK).
  destruct (sv39_refines_map n st demo ∅ {[ (2%nat, 0) := 0x80000 ]} ∅ NX_USER_SPACE_VADDR 0x2000 NX_PAGE_ATTR_USER) as (H & _).
  - exact OK.
  - unfold vir_range, page_range, NX_USER_SPACE_VADDR, NX_USER_SPACE_TOP, NX_PAGE_SIZE. split_and!; (lia || reflexivity).
  - unfold attr_valid. split; [vm_compute; split; [discriminate|reflexivity]|split; reflexivity].
  - destruct H as (s' & r & Hrun & _ & A' & T' & L' & OK' & _ & Hcase).
    + intros pg _. apply lookup_empty.
    + exists s', r. split; [exact Hrun|]. destruct Hcase as [[-> _]|(_ & Hin & _)]; [left; reflexivity|right].
      destruct (Hin 0x100001) as (f & Hf & _); [split; vm_compute; congruence|].
      exists f. rewrite (lookup_page_spec n st s' A' T' L' _ OK'). exact Hf.
Defined.

(** *** Where the code falls short *)
Definition used_pages (s : sv39) : option Z := NX_PageGetUsed (zs s).

(** A table is freed when its count reaches 0, but the count starts at 1 for the
    table itself: the tables of unmapped pages stay for ever. *)
Example tables_stay :
  ('(s, _) ← NX_HalMapPage demo NX_USER_SPACE_VADDR 0x1000 NX_PAGE_ATTR_USER;
   '(s, _) ← NX_HalUnmapPage s NX_USER_SPACE_VADDR 0x1000;
   u ← used_pages s; u0 ← used_pages demo; Some (u - u0, lookup_page s 0x100000)) = Some (2, None).
Proof. vm_compute. reflexivity. Qed.

(** Addresses 2^39 bytes apart share their entries, and no operation refuses an
    address outside the 39 bits. *)
Example addresses_wrap :
  ('(s, _) ← NX_HalMapPage demo NX_USER_SPACE_VADDR 0x1000 NX_PAGE_ATTR_USER;
   Some (bool_decide (NX_HalVir2Phy s NX_USER_SPACE_VADDR = NX_HalVir2Phy s (NX_USER_SPACE_VADDR + 2 ^ 39)))) = Some true.
Proof. vm_compute. reflexivity. Qed.

(** The four pages of one block shared page by page: unmapping drops the
    references of pages that have none, which fails an assertion. *)
Example block_cannot_be_shared :
  ('(z, a) ← NX_PageAllocInZone (zs demo) NX_PAGE_ZONE_NORMAL 4;
   '(s, _) ← NX_PageIncrease (with_zs demo z) a;
   '(s, _) ← NX_HalMapPageWithPhy s NX_USER_SPACE_VADDR a 0x4000 NX_PAGE_ATTR_USER;
   Some (bool_decide (NX_HalUnmapPage s NX_USER_SPACE_VADDR 0x4000 = None))) = Some true.
Proof. vm_compute. reflexivity. Qed.
