(* ===== verification/Vmspace.v ===== *)
(** Address spaces: [mm/vmspace.c] and [include/base/vmspace.h].

    The nodes of a space are the sequence linked on [spaceNodeList]; a node is
    known by its address [nid].  [NX_MemAlloc] is an argument of the
    operations that create nodes: the address it returns, or [None].  Every
    function takes the lock of the space around its accesses, so that a
    traversal is one step.  A result [None] is a failed assertion. *)
From Stdlib Require Import Sorted.
From S2P Require Import Prelude Bits Mmu.

Definition NX_VMSPACE_DELAY_MAP : Z := 1.
Definition VMNODE_REMOVE_WITH_DESTORY : Z := 1.

Record NX_Vmnode := mkNode {
  nid : Z;
  start : Z;
  endd : Z;
  attr : Z;
  flags : Z;
  space : bool  (* points to the space it is in, or null *)
}.

Record NX_Vmspace (M : Type) := mkSpace {
  mmu : M;
  table : Z;    (* [mmu.table] *)
  spaceNodeList : list NX_Vmnode;
  spaceBase : Z;
  spaceTop : Z;
  imageStart : Z;
  imageEnd : Z;
  heapStart : Z;
  heapEnd : Z;
  heapCurrent : Z;
  mapStart : Z;
  mapEnd : Z;
  stackStart : Z;
  stackEnd : Z;
  stackBottom : Z
}.
Arguments mkSpace {M}.
Arguments mmu {M}.
Arguments table {M}.
Arguments spaceNodeList {M}.
Arguments spaceBase {M}.
Arguments spaceTop {M}.
Arguments imageStart {M}.
Arguments imageEnd {M}.
Arguments heapStart {M}.
Arguments heapEnd {M}.
Arguments heapCurrent {M}.
Arguments mapStart {M}.
Arguments mapEnd {M}.
Arguments stackStart {M}.
Arguments stackEnd {M}.
Arguments stackBottom {M}.

Section operations.
Context {M : Type} `{MmuOps M}.
Implicit Types (sp : NX_Vmspace M) (node : NX_Vmnode).

Definition with_nodes sp (l : list NX_Vmnode) : NX_Vmspace M :=
  mkSpace (mmu sp) (table sp) l (spaceBase sp) (spaceTop sp) (imageStart sp) (imageEnd sp) (heapStart sp)
    (heapEnd sp) (heapCurrent sp) (mapStart sp) (mapEnd sp) (stackStart sp) (stackEnd sp) (stackBottom sp).
Definition with_mmu sp (m : M) : NX_Vmspace M :=
  mkSpace m (table sp) (spaceNodeList sp) (spaceBase sp) (spaceTop sp) (imageStart sp) (imageEnd sp) (heapStart sp)
    (heapEnd sp) (heapCurrent sp) (mapStart sp) (mapEnd sp) (stackStart sp) (stackEnd sp) (stackBottom sp).
Definition with_heap sp (ie hs hc : Z) : NX_Vmspace M :=
  mkSpace (mmu sp) (table sp) (spaceNodeList sp) (spaceBase sp) (spaceTop sp) (imageStart sp) ie hs
    (heapEnd sp) hc (mapStart sp) (mapEnd sp) (stackStart sp) (stackEnd sp) (stackBottom sp).

Definition NX_VmspaceInit (m0 : M) (spaceBase spaceTop imageStart imageEnd heapStart heapEnd mapStart mapEnd
    stackStart stackEnd : Z) : option (NX_Vmspace M * NX_Error) :=
  assert (Z.land heapStart NX_PAGE_MASK =? 0);;
  Some (mkSpace m0 0 [] spaceBase spaceTop imageStart imageEnd heapStart heapEnd heapStart mapStart mapEnd
    stackStart stackEnd stackEnd, NX_EOK).

Definition VmnodeCreate (mem : option Z) (addr size attr flags : Z) : option NX_Vmnode :=
  id ← mem; Some (mkNode id addr (u64 (addr + size)) attr flags false).

(** The loop that looks for [prevNode]. *)
Fixpoint InsertLinearOrder_loop (l : list NX_Vmnode) node (prevNode : option NX_Vmnode) : option NX_Vmnode :=
  match l with
  | [] => prevNode
  | tmpNode :: l =>
      let prevNode :=
        if endd tmpNode <=? start node then
          match prevNode with
          | None => Some tmpNode
          | Some p => if endd tmpNode >? endd p then Some tmpNode else prevNode
          end
        else prevNode in
      InsertLinearOrder_loop l node prevNode
  end.

(** [NX_ListAddAfter] the node named [prev]. *)
Fixpoint add_after (prev : Z) node (l : list NX_Vmnode) : list NX_Vmnode :=
  match l with
  | [] => []
  | x :: l => if nid x =? prev then x :: node :: l else x :: add_after prev node l
  end.

Definition VmspaceInsertLinearOrder sp node : NX_Vmspace M :=
  let l := spaceNodeList sp in
  if bool_decide (length l = 0%nat) then with_nodes sp (node :: l)
  else
    match InsertLinearOrder_loop l node None with
    | None => with_nodes sp (node :: l)
    | Some prevNode => with_nodes sp (add_after (nid prevNode) node l)
    end.

Definition set_space (b : bool) node : NX_Vmnode :=
  mkNode (nid node) (start node) (endd node) (attr node) (flags node) b.

(** Assigning through a node pointer. *)
Definition set_start (s : Z) node : NX_Vmnode := mkNode (nid node) s (endd node) (attr node) (flags node) (space node).
Definition set_end (e : Z) node : NX_Vmnode := mkNode (nid node) (start node) e (attr node) (flags node) (space node).
Definition upd_node (id : Z) (f : NX_Vmnode -> NX_Vmnode) sp : NX_Vmspace M :=
  with_nodes sp ((fun x => if nid x =? id then f x else x) <$> spaceNodeList sp).
Definition get_node sp (id : Z) : option NX_Vmnode :=
  list_find (fun x => nid x = id) (spaceNodeList sp) ≫= fun p => Some p.2.

Definition VmspaceInsertNodeLocked sp node : NX_Vmspace M * NX_Error :=
  (VmspaceInsertLinearOrder sp (set_space true node), NX_EOK).

Definition VmspaceInsertNode sp node : NX_Vmspace M * NX_Error := VmspaceInsertNodeLocked sp node.

Definition VmspaceRemoveNodeLocked sp node : NX_Vmspace M * NX_Error :=
  if negb (space node) then (sp, NX_EFAULT)
  else (with_nodes sp (filter (fun x => nid x <> nid node) (spaceNodeList sp)), NX_EOK).

Definition VmspaceRemoveNode sp node : NX_Vmspace M * NX_Error := VmspaceRemoveNodeLocked sp node.

Definition same_kind (a b : NX_Vmnode) : bool := (attr a =? attr b) && (flags a =? flags b).

(** The two traversals stop at the first node that is absorbed. *)
Definition MergePrev sp node : option (NX_Vmspace M) :=
  match list_find (fun p => endd p = start node /\ same_kind p node = true) (spaceNodeList sp) with
  | Some (_, prevNode) =>
      let sp := upd_node (nid node) (set_start (start prevNode)) sp in
      let '(sp, err) := VmspaceRemoveNodeLocked sp prevNode in
      assert (is_ok err);; Some sp
  | None => Some sp
  end.

Definition MergeNext sp node : option (NX_Vmspace M) :=
  match list_find (fun p => start p = endd node /\ same_kind p node = true) (spaceNodeList sp) with
  | Some (_, nextNode) =>
      let sp := upd_node (nid node) (set_end (endd nextNode)) sp in
      let '(sp, err) := VmspaceRemoveNodeLocked sp nextNode in
      assert (is_ok err);; Some sp
  | None => Some sp
  end.

Definition VmspaceMergeNode sp (id : Z) : option (NX_Vmspace M * NX_Error) :=
  node ← get_node sp id;
  sp ← MergePrev sp node;
  node ← get_node sp id;
  sp ← MergeNext sp node;
  Some (sp, NX_EOK).

(** [mem1] and [mem2] are what [NX_MemAlloc] gives for the previous and for
    the next node; the branches after a failed insertion are dead, insertion
    never fails on a non-null node. *)
Definition VmspaceSplitNode (mem1 mem2 : option Z) sp (id addr size : Z) : option (NX_Vmspace M * NX_Error) :=
  let start_ := addr in
  let end_ := u64 (addr + size) in
  node ← get_node sp id;
  if (start node =? start_) && (endd node =? end_) then Some (sp, NX_EOK)
  else
    let prevStart := start node in
    let prevEnd := start_ in
    let nextStart := end_ in
    let nextEnd := endd node in
    let prev := if negb (prevStart =? prevEnd)
      then VmnodeCreate mem1 prevStart (u64 (prevEnd - prevStart)) (attr node) (flags node) else None in
    if negb (prevStart =? prevEnd) && bool_decide (prev = None) then Some (sp, NX_ENOMEM)
    else
      let next := if negb (nextStart =? nextEnd)
        then VmnodeCreate mem2 nextStart (u64 (nextEnd - nextStart)) (attr node) (flags node) else None in
      if negb (nextStart =? nextEnd) && bool_decide (next = None) then Some (sp, NX_ENOMEM)
      else
        let sp := match prev with
                  | Some p => (VmspaceInsertNodeLocked (upd_node id (set_start prevEnd) sp) p).1
                  | None => sp
                  end in
        let sp := match next with
                  | Some n => (VmspaceInsertNodeLocked (upd_node id (set_end nextStart) sp) n).1
                  | None => sp
                  end in
        Some (sp, NX_EOK).

Definition VmspaceFindNode sp (addr size : Z) : option NX_Vmnode :=
  snd <$> list_find (fun node => start node <= addr /\ u64 (addr + size) <= endd node) (spaceNodeList sp).

Definition VmspaceCheckAddrCollisions sp (addr size : Z) : bool :=
  let start_ := addr in
  let end_ := u64 (start_ + size) in
  existsb (fun node =>
    ((start_ >=? start node) && (start_ <? endd node)) || ((end_ >? start node) && (end_ <=? endd node)))
    (spaceNodeList sp).

(** The traversal of [GetAddrFromMapArea]: [inl] is an early return. *)
Fixpoint GetAddr_loop sp (size : Z) (l : list NX_Vmnode) (freeAddr : Z) : option Z :=
  match l with
  | [] => Some freeAddr
  | node :: l =>
      if (start node >=? mapStart sp) && (endd node <=? mapEnd sp) then
        if u64 (freeAddr + size) >? mapEnd sp then None
        else if u64 (freeAddr + size) <=? start node then Some freeAddr
        else GetAddr_loop sp size l (endd node)
      else GetAddr_loop sp size l freeAddr
  end.

(** [None] inside is [NX_ENOMEM]. *)
Definition GetAddrFromMapArea sp (size : Z) : option (option Z) :=
  assert (nz size);;
  Some (GetAddr_loop sp size (spaceNodeList sp) (mapStart sp)).

(** The last component is the address written to [outAddr]. *)
Definition __VmspaceMap (mem : option Z) sp (vaddr paddr size attr flags : Z) :
    option (NX_Vmspace M * NX_Error * Z) :=
  if negb (nz size) || negb (nz attr) then Some (sp, NX_EINVAL, 0)
  else if nz vaddr && ((vaddr <? spaceBase sp) || (vaddr >? u64 (spaceTop sp - size))) then Some (sp, NX_EINVAL, 0)
  else
    found ← (if nz vaddr then Some (Some vaddr) else GetAddrFromMapArea sp size);
    match found with
    | None => Some (sp, NX_ENOMEM, 0)
    | Some vaddr =>
        let vaddr := NX_PAGE_ALIGNDOWN vaddr in
        let size := NX_PAGE_ALIGNUP size in
        if VmspaceCheckAddrCollisions sp vaddr size then Some (sp, NX_EINVAL, 0)
        else
          match VmnodeCreate mem vaddr size attr flags with
          | None => Some (sp, NX_ENOMEM, 0)
          | Some node =>
              let '(sp, _) := VmspaceInsertNode sp node in
              '(sp, mapAddr) ←
                (if nz (Z.land flags NX_VMSPACE_DELAY_MAP) then Some (sp, vaddr)
                 else if nz paddr then
                   '(m, _) ← pageIncrease (mmu sp) (Z.land paddr (not64 NX_PAGE_MASK));
                   '(m, a) ← mapPageWithPhy m vaddr paddr size attr; Some (with_mmu sp m, a)
                 else '(m, a) ← mapPage (mmu sp) vaddr size attr; Some (with_mmu sp m, a));
              if negb (nz mapAddr) then
                let '(sp, err) := VmspaceRemoveNode sp (set_space true node) in
                assert (is_ok err);; Some (sp, NX_ENOMEM, 0)
              else
                '(sp, err) ← VmspaceMergeNode sp (nid node);
                assert (is_ok err);; Some (sp, NX_EOK, mapAddr)
          end
    end.

Definition NX_VmspaceMap (mem : option Z) sp (addr size attr flags : Z) := __VmspaceMap mem sp addr 0 size attr flags.

Definition NX_VmspaceMapWithPhy (mem : option Z) sp (vaddr paddr size attr flags : Z) :=
  __VmspaceMap mem sp vaddr paddr size attr flags.

Definition NX_VmspaceUnmap (mem1 mem2 : option Z) sp (addr size : Z) : option (NX_Vmspace M * NX_Error) :=
  if negb (nz addr) || negb (nz size) then Some (sp, NX_EINVAL)
  else if nz (Z.land addr NX_PAGE_MASK) || (addr <? spaceBase sp) || (addr >=? spaceTop sp) ||
      (u64 (addr + size) >? spaceTop sp) then Some (sp, NX_EINVAL)
  else
    let size := NX_PAGE_ALIGNUP size in
    match VmspaceFindNode sp addr size with
    | None => Some (sp, NX_EFAULT)
    | Some node =>
        let id := nid node in
        '(sp, err) ← VmspaceSplitNode mem1 mem2 sp id addr size;
        if negb (is_ok err) then Some (sp, NX_ENOMEM)
        else
          node ← get_node sp id;
          let '(sp, err) := VmspaceRemoveNode sp node in
          if negb (is_ok err) then
            '(sp, err) ← VmspaceMergeNode sp id; assert (is_ok err);; Some (sp, NX_EFAULT)
          else
            '(m, err) ← unmapPage (mmu sp) addr size;
            let sp := with_mmu sp m in
            if negb (is_ok err) then
              let '(sp, err) := VmspaceInsertNode sp node in
              assert (is_ok err);;
              '(sp, err) ← VmspaceMergeNode sp id; assert (is_ok err);; Some (sp, NX_EFAULT)
            else Some (sp, NX_EOK)
    end.

Fixpoint VmspaceExit_loop sp (l : list NX_Vmnode) : option (NX_Vmspace M) :=
  match l with
  | [] => Some sp
  | node :: l =>
      '(m, err) ← unmapPage (mmu sp) (start node) (u64 (endd node - start node));
      assert (is_ok err);;
      let '(sp, err) := VmspaceRemoveNodeLocked (with_mmu sp m) node in
      assert (is_ok err);;
      VmspaceExit_loop sp l
  end.

Definition NX_VmspaceExit sp : option (NX_Vmspace M * NX_Error) :=
  sp ← VmspaceExit_loop sp (spaceNodeList sp);
  '(m, err) ← freePageTable (mmu sp);
  assert (is_ok err);;
  Some (with_mmu sp m, NX_EOK).

Definition NX_VmspaceVirToPhy sp (virAddr : Z) : option Z :=
  if negb (nz (table sp)) then Some 0
  else if (virAddr <? spaceBase sp) || (virAddr >=? spaceTop sp) then Some 0
  else vir2Phy (mmu sp) virAddr.

Definition NX_VmspaceResizeImage sp (newImageSize : Z) : NX_Vmspace M :=
  let imageEnd := NX_PAGE_ALIGNUP (u64 (imageStart sp + newImageSize)) in
  let hs := if u64 (imageEnd + NX_PAGE_SIZE) <? heapStart sp then u64 (imageEnd + NX_PAGE_SIZE) else heapStart sp in
  with_heap sp imageEnd hs hs.

(** The result is the heap address or 0, with the error written to [outErr]
    ([NX_PAGE_ATTR_USER] is the architecture's). *)
Definition NX_VmspaceUpdateHeap (NX_PAGE_ATTR_USER : Z) (mem1 mem2 : option Z) sp (virAddr : Z) :
    option (NX_Vmspace M * Z * NX_Error) :=
  let updateHeap sp a := Some (with_heap sp (imageEnd sp) (heapStart sp) a, a, NX_EOK) in
  let failed sp (err : NX_Error) := Some (sp, 0, err) in
  if negb (nz (table sp)) then failed sp NX_EFAULT
  else if virAddr =? 0 then updateHeap sp (heapCurrent sp)
  else if virAddr <? heapStart sp then failed sp NX_EINVAL
  else if virAddr >=? heapEnd sp then failed sp NX_ENOMEM
  else
    let newHeap := NX_PAGE_ALIGNUP virAddr in
    let oldHeap := NX_PAGE_ALIGNUP (heapCurrent sp) in
    if newHeap =? oldHeap then updateHeap sp virAddr
    else if newHeap >? oldHeap then
      '(sp, err, mapped) ← NX_VmspaceMap mem1 sp oldHeap (newHeap - oldHeap) NX_PAGE_ATTR_USER 0;
      if negb (is_ok err) then failed sp err
      else if negb (mapped =? oldHeap) then failed sp err
      else updateHeap sp virAddr
    else
      '(sp, err) ← NX_VmspaceUnmap mem1 mem2 sp newHeap (oldHeap - newHeap);
      if negb (is_ok err) then failed sp err
      else updateHeap sp virAddr.

(** ** Copying data

    The memory of the kernel, by address ([NX_Phy2Virt] is the identity on
    the ports without a kernel offset); [NX_MemCopy] copies forward. *)
Definition memory : Type := Z -> Z.

Definition NX_Phy2Virt (addr : Z) : Z := addr.

Fixpoint mem_copy (n : nat) (mem : memory) (dst src : Z) : memory :=
  match n with
  | O => mem
  | S n => mem_copy n (fun a => if a =? dst then mem src else mem a) (dst + 1) (src + 1)
  end.

Inductive direction := VMSPACE_COPY_IN | VMSPACE_COPY_OUT.

(** The copy of one chunk, by direction. *)
Definition copy_chunk (d : direction) (mem : memory) (vaddr buf chunk : Z) : memory :=
  match d with
  | VMSPACE_COPY_IN => mem_copy (Z.to_nat chunk) mem vaddr buf
  | VMSPACE_COPY_OUT => mem_copy (Z.to_nat chunk) mem buf vaddr
  end.

Fixpoint CopyData_loop (fuel : nat) sp (mem : memory) (baseAddr buf size : Z) (d : direction) :
    option (memory * NX_Error) :=
  match fuel with
  | O => None
  | S fuel =>
      if size >? 0 then
        paddr ← NX_VmspaceVirToPhy sp baseAddr;
        if paddr =? 0 then Some (mem, NX_EFAULT)
        else
          let vaddr := NX_Phy2Virt paddr in
          let chunk := if size <? NX_PAGE_SIZE then size else NX_PAGE_SIZE in
          let mem := copy_chunk d mem vaddr buf chunk in
          CopyData_loop fuel sp mem (baseAddr + chunk) (buf + chunk) (size - chunk) d
      else Some (mem, NX_EOK)
  end.

(** Each turn but the last copies a page. *)
Definition NX_VmspaceCopyData sp (mem : memory) (spaceAddr buf size : Z) (d : direction) :
    option (memory * NX_Error) :=
  assert (nz spaceAddr && nz buf && nz size);;
  CopyData_loop (Z.to_nat (size / NX_PAGE_SIZE) + 2) sp mem spaceAddr buf size d.

Definition NX_VmspaceRead sp (mem : memory) (spaceAddr buf size : Z) : option (memory * NX_Error) :=
  if negb (nz spaceAddr) || negb (nz buf) || negb (nz size) then Some (mem, NX_EINVAL)
  else NX_VmspaceCopyData sp mem spaceAddr buf size VMSPACE_COPY_OUT.

Definition NX_VmspaceWrite sp (mem : memory) (spaceAddr buf size : Z) : option (memory * NX_Error) :=
  if negb (nz spaceAddr) || negb (nz buf) || negb (nz size) then Some (mem, NX_EINVAL)
  else NX_VmspaceCopyData sp mem spaceAddr buf size VMSPACE_COPY_IN.
End operations.

(** ** Node lists

    The nodes are non-empty, page aligned, inside the space, in increasing
    order and disjoint. *)
Definition before (a b : NX_Vmnode) : Prop := endd a <= start b.

Definition node_ok (base top : Z) (x : NX_Vmnode) : Prop :=
  base <= start x < endd x /\ endd x <= top /\ start x mod NX_PAGE_SIZE = 0 /\ endd x mod NX_PAGE_SIZE = 0 /\
  space x = true.

Record nodes_ok (base top : Z) (l : list NX_Vmnode) : Prop := {
  no_ids : NoDup (nid <$> l);
  no_each : Forall (node_ok base top) l;
  no_sorted : StronglySorted before l
}.

(** Address [a] is mapped with attributes and flags [k]. *)
Definition covers (l : list NX_Vmnode) (a : Z) (k : Z * Z) : Prop :=
  exists x, x ∈ l /\ start x <= a < endd x /\ k = (attr x, flags x).

Section nodelists.
Implicit Types (l : list NX_Vmnode) (x y node p : NX_Vmnode).

Lemma sorted_app l k :
  StronglySorted before (l ++ k) <->
    StronglySorted before l /\ StronglySorted before k /\ forall x y, x ∈ l -> y ∈ k -> before x y.
Proof.
  induction l as [|a l IH]; simpl.
  - split; [intros; split_and!; [constructor|done|by intros ? ? ?%elem_of_nil]|naive_solver].
  - split.
    + intros Hs. inversion Hs as [|? ? Hs' Hf]; subst. apply IH in Hs' as (? & ? & Hlk).
      rewrite Forall_app in Hf. destruct Hf as [Hl Hk]. split; [by constructor|]. split; [done|].
      intros x y [->|Hx]%elem_of_cons Hy; [|by apply Hlk]. rewrite Forall_forall in Hk. by apply Hk.
    + intros (Hl & Hk & Hlk). inversion Hl as [|? ? Hl' Hf]; subst. constructor.
      * apply IH. split_and!; [done..|]. intros x y Hx. apply Hlk. by right.
      * rewrite Forall_app. split; [done|]. apply Forall_forall. intros y Hy. apply Hlk; [left|done].
Qed.

Lemma sorted_insert l k x :
  StronglySorted before (l ++ x :: k) <->
    StronglySorted before (l ++ k) /\ (forall y, y ∈ l -> before y x) /\ (forall y, y ∈ k -> before x y).
Proof.
  rewrite !sorted_app. split.
  - intros (Hl & Hxk & Hlk). inversion Hxk as [|? ? Hk Hf]; subst. rewrite Forall_forall in Hf.
    split_and!; try done.
    + intros a b Ha Hb. apply Hlk; [done|by right].
    + intros a Ha. apply Hlk; [done|left].
  - intros ((Hl & Hk & Hlk) & Hlx & Hxk). split_and!; [done| |].
    + constructor; [done|]. by apply Forall_forall.
    + intros a b Ha [->|Hb]%elem_of_cons; auto.
Qed.

Lemma covers_app l k a v : covers (l ++ k) a v <-> covers l a v \/ covers k a v.
Proof. unfold covers. setoid_rewrite elem_of_app. naive_solver. Qed.

Lemma covers_cons x l a v :
  covers (x :: l) a v <-> (start x <= a < endd x /\ v = (attr x, flags x)) \/ covers l a v.
Proof. unfold covers. setoid_rewrite elem_of_cons. naive_solver. Qed.

(** Replacing and removing through the address of a node. *)
Lemma upd_middle l k x (f : NX_Vmnode -> NX_Vmnode) :
  NoDup (nid <$> l ++ x :: k) ->
  (fun y => if nid y =? nid x then f y else y) <$> (l ++ x :: k) = l ++ f x :: k.
Proof.
  rewrite fmap_app, fmap_cons. intros (_ & Hl & Hk)%NoDup_app.
  apply NoDup_cons in Hk as [Hk _].
  assert (Hsame : forall l', nid x ∉ nid <$> l' ->
    (fun y => if nid y =? nid x then f y else y) <$> l' = l').
  { intros l' Hn. rewrite <- (list_fmap_id l') at 2. apply list_fmap_ext. intros i y Hy. simpl.
    rewrite (proj2 (Z.eqb_neq _ _)); [done|]. intros He. apply Hn. rewrite <- He.
    apply list_elem_of_fmap_2. by apply list_elem_of_lookup_2 with i. }
  rewrite fmap_app, fmap_cons, Z.eqb_refl, !Hsame; [done|done|].
  intros Hi. apply (Hl _ Hi). left.
Qed.

Lemma filter_middle l k x :
  NoDup (nid <$> l ++ x :: k) -> filter (fun y => nid y <> nid x) (l ++ x :: k) = l ++ k.
Proof.
  rewrite fmap_app, fmap_cons. intros (_ & Hl & Hk)%NoDup_app. apply NoDup_cons in Hk as [Hk _].
  assert (Hsame : forall l', nid x ∉ nid <$> l' -> filter (fun y => nid y <> nid x) l' = l').
  { induction l' as [|y l' IH]; [done|]. rewrite fmap_cons. intros [Hne Hn]%not_elem_of_cons.
    rewrite filter_cons_True by auto. by rewrite IH. }
  rewrite filter_app, filter_cons_False, !Hsame; [done|done| |auto].
  intros Hi. apply (Hl _ Hi). left.
Qed.

Lemma find_id_middle l k x :
  NoDup (nid <$> l ++ x :: k) ->
  (list_find (fun y => nid y = nid x) (l ++ x :: k) ≫= fun q : nat * NX_Vmnode => Some q.2) = Some x.
Proof.
  rewrite fmap_app, fmap_cons. intros (_ & Hl & _)%NoDup_app.
  rewrite list_find_app_r. 2:{ apply list_find_None, Forall_forall. intros y Hy He.
    apply (Hl (nid y)); [by apply list_elem_of_fmap_2|rewrite He; left]. }
  cbn [list_find]. rewrite decide_True by done. done.
Qed.

Lemma add_after_middle l k x node :
  NoDup (nid <$> l ++ x :: k) -> add_after (nid x) node (l ++ x :: k) = l ++ x :: node :: k.
Proof.
  induction l as [|y l IH]; cbn [app add_after fmap list_fmap]; intros Hnd.
  - by rewrite Z.eqb_refl.
  - apply NoDup_cons in Hnd as [Hy Hnd].
    rewrite (proj2 (Z.eqb_neq _ _)), IH; [done..|]. intros He. apply Hy. rewrite He, fmap_app. set_solver.
Qed.

(** ** Insertion in order *)

Lemma InsertLinearOrder_loop_skip l node prev :
  Forall (fun x => start node < endd x) l -> InsertLinearOrder_loop l node prev = prev.
Proof.
  induction 1 as [|x l Hx _ IH]; [done|]. cbn [InsertLinearOrder_loop].
  by rewrite (proj2 (Z.leb_gt _ _)) by done.
Qed.

Lemma InsertLinearOrder_loop_last l k x node prev base top :
  Forall (node_ok base top) (l ++ [x]) -> StronglySorted before (l ++ [x]) ->
  endd x <= start node -> Forall (fun y => start node < endd y) k ->
  (forall p, prev = Some p -> Forall (before p) (l ++ [x])) ->
  InsertLinearOrder_loop ((l ++ [x]) ++ k) node prev = Some x.
Proof.
  intros Hok Hs Hx Hk. revert prev Hok Hs. induction l as [|y l IH]; intros prev Hok Hs Hp.
  - cbn [app InsertLinearOrder_loop]. rewrite (proj2 (Z.leb_le _ _)) by done.
    assert (start x < endd x) by (inversion Hok as [|? ? [? _]]; subst; lia).
    destruct prev as [p|]; [|by apply InsertLinearOrder_loop_skip].
    specialize (Hp p eq_refl). inversion Hp; subst. unfold before in *.
    rewrite Z.gtb_ltb, (proj2 (Z.ltb_lt _ _)) by lia. by apply InsertLinearOrder_loop_skip.
  - cbn [app InsertLinearOrder_loop] in *.
    inversion Hs as [|? ? Hs' Hf]; subst. inversion Hok as [|? ? [Hy _] Hok']; subst.
    assert (before y x) as Hyx by (rewrite Forall_forall in Hf; apply Hf; set_solver +).
    assert (start x < endd x) by (rewrite Forall_app in Hok'; destruct Hok' as [_ Hok'];
      inversion Hok' as [|? ? [? _]]; subst; lia).
    unfold before in Hyx. rewrite (proj2 (Z.leb_le _ _)) by lia.
    assert (match prev with Some p => if endd y >? endd p then Some y else prev | None => Some y end = Some y) as ->.
    { destruct prev as [p|]; [|done]. specialize (Hp p eq_refl). inversion Hp as [|? ? Hpy]; subst.
      unfold before in Hpy. by rewrite Z.gtb_ltb, (proj2 (Z.ltb_lt _ _)) by lia. }
    apply IH; [done..|]. intros p [= <-]. done.
Qed.

(** Where a node disjoint from all the others belongs. *)
Lemma split_for l node base top :
  Forall (node_ok base top) l -> StronglySorted before l -> start node < endd node ->
  (forall x, x ∈ l -> before x node \/ before node x) ->
  exists l1 l2, l = l1 ++ l2 /\ (forall x, x ∈ l1 -> before x node) /\ (forall x, x ∈ l2 -> before node x).
Proof.
  intros Hok Hs Hn. induction l as [|x l IH]; intros Hd.
  - exists [], []. split; [done|]. split; by intros ? ?%elem_of_nil.
  - inversion Hs as [|? ? Hs' Hf]; subst. inversion Hok as [|? ? [Hx _] Hok']; subst.
    destruct (Hd x) as [Hb|Ha]; [left| |].
    + destruct IH as (l1 & l2 & -> & H1 & H2); [done|done|intros; apply Hd; by right|].
      exists (x :: l1), l2. split; [done|]. split; [|done]. intros y [->|Hy]%elem_of_cons; auto.
    + exists [], (x :: l). split; [done|]. split; [by intros ? ?%elem_of_nil|].
      intros y [->|Hy]%elem_of_cons; [done|]. rewrite Forall_forall in Hf. specialize (Hf y Hy).
      unfold before in *. lia.
Qed.
End nodelists.

(** ** Spaces *)
Section spaces.
Context {M : Type} `{MmuLaws M}.
Implicit Types (sp : NX_Vmspace M) (l : list NX_Vmnode) (node p x y : NX_Vmnode).

Lemma nodes_ok_lt base top l x : nodes_ok base top l -> x ∈ l -> node_ok base top x.
Proof. intros [] Hx. rewrite Forall_forall in no_each0. auto. Qed.

Lemma nodes_ok_unique base top l x y a :
  nodes_ok base top l -> x ∈ l -> y ∈ l -> start x <= a < endd x -> start y <= a < endd y -> x = y.
Proof.
  intros Hok Hx Hy Hax Hay. apply list_elem_of_split in Hx as (l1 & l2 & ->).
  pose proof (no_sorted _ _ _ Hok) as Hs. apply sorted_insert in Hs as (_ & H1 & H2).
  apply elem_of_app in Hy as [Hy|[->|Hy]%elem_of_cons]; [|done|].
  - specialize (H1 y Hy). unfold before in H1. lia.
  - specialize (H2 y Hy). unfold before in H2. lia.
Qed.

(** Inserting a node that meets no other. *)
Lemma insert_spec base top sp node :
  nodes_ok base top (spaceNodeList sp) -> node_ok base top (set_space true node) ->
  nid node ∉ nid <$> spaceNodeList sp ->
  (forall x, x ∈ spaceNodeList sp -> before x node \/ before node x) ->
  exists l1 l2, spaceNodeList sp = l1 ++ l2 /\
    VmspaceInsertNode sp node = (with_nodes sp (l1 ++ set_space true node :: l2), NX_EOK) /\
    nodes_ok base top (l1 ++ set_space true node :: l2).
Proof.
  intros Hok Hn Hid Hd. destruct Hok as [Hnd Hall Hs]. set (node' := set_space true node) in *.
  assert (start node < endd node) as Hlt by (destruct Hn as [? _]; cbn in *; lia).
  destruct (split_for _ node base top Hall Hs Hlt Hd) as (l1 & l2 & Hl & H1 & H2). rewrite Hl in *.
  exists l1, l2. split; [done|]. split.
  2:{ split.
      - rewrite fmap_app, fmap_cons, NoDup_app in *. destruct Hnd as (? & Hx & ?).
        rewrite not_elem_of_app in Hid. destruct Hid. split_and!; [done| |by constructor].
        intros i Hi [->|?]%elem_of_cons; [done|]. by eapply Hx.
      - rewrite Forall_app in *. destruct Hall. split; [done|by constructor].
      - apply sorted_insert. done. }
  unfold VmspaceInsertNode, VmspaceInsertNodeLocked, VmspaceInsertLinearOrder. rewrite Hl. fold node'.
  assert (Hafter : Forall (fun y => start node' < endd y) l2).
  { apply Forall_forall. intros y Hy. specialize (H2 y Hy). rewrite Forall_app in Hall. destruct Hall as [_ Hall].
    rewrite Forall_forall in Hall. destruct (Hall y Hy) as [? _]. unfold before in H2. cbn. lia. }
  destruct (decide (l1 ++ l2 = [])) as [Hnil|Hnil].
  { rewrite Hnil. apply app_nil in Hnil as [-> ->]. done. }
  rewrite bool_decide_eq_false_2 by (by intros ?%nil_length_inv).
  destruct l1 as [|x l1 _] using rev_ind.
  - cbn [app]. by rewrite InsertLinearOrder_loop_skip.
  - rewrite (InsertLinearOrder_loop_last l1 l2 x node' None base top); [|..].
    + rewrite <- app_assoc in *. cbn [app] in *. rewrite add_after_middle by done.
      by rewrite <- app_assoc.
    + by apply Forall_app in Hall as [? _].
    + by apply sorted_app in Hs as [? _].
    + apply (H1 x). set_solver +.
    + done.
    + done.
Qed.

(** Two nodes that touch are neighbours. *)
Lemma adjacent base top l p node :
  nodes_ok base top l -> p ∈ l -> node ∈ l -> endd p = start node ->
  exists l1 l2, l = l1 ++ p :: node :: l2.
Proof.
  intros Hok Hp Hn He.
  destruct (nodes_ok_lt base top l p Hok Hp) as [Hp1 _], (nodes_ok_lt base top l node Hok Hn) as [Hn1 _].
  pose proof Hok as [_ Hall Hs].
  apply list_elem_of_split in Hp as (a & b & ->). pose proof Hs as Hs'.
  apply sorted_insert in Hs' as (Hab & H1 & H2).
  apply elem_of_app in Hn as [Hn|[->|Hn]%elem_of_cons].
  - specialize (H1 node Hn). unfold before in H1. lia.
  - lia.
  - apply list_elem_of_split in Hn as (b1 & b2 & ->). exists a, b2.
    destruct b1 as [|y b1]; [done|]. exfalso.
    assert (Hy : y ∈ a ++ p :: (y :: b1) ++ node :: b2) by set_solver +.
    destruct (nodes_ok_lt base top _ y Hok Hy) as [Hy1 _].
    assert (before p y) as Hpy by (apply H2; set_solver +).
    assert (before y node) as Hyn.
    { apply sorted_app in Hs as (_ & Hs & _). cbn [app] in Hs.
      inversion Hs as [|? ? Hs2 _]; subst. inversion Hs2 as [|? ? _ Hf]; subst.
      rewrite Forall_forall in Hf. apply Hf. set_solver +. }
    unfold before in *. lia.
Qed.

Lemma same_kind_eq x y : same_kind x y = true -> attr x = attr y /\ flags x = flags y.
Proof. unfold same_kind. intros [H1%Z.eqb_eq H2%Z.eqb_eq]%andb_true_iff. done. Qed.

(** Two touching neighbours of the same kind become one. *)
Lemma fuse base top l1 l2 p node z :
  nodes_ok base top (l1 ++ p :: node :: l2) -> endd p = start node -> same_kind p node = true ->
  attr z = attr p -> flags z = flags p -> start z = start p -> endd z = endd node -> space z = true ->
  nid z = nid p \/ nid z = nid node ->
  nodes_ok base top (l1 ++ z :: l2) /\
  forall a k, covers (l1 ++ z :: l2) a k <-> covers (l1 ++ p :: node :: l2) a k.
Proof.
  intros [Hnd Hall Hs] He [Ha Hf]%same_kind_eq Hza Hzf Hzs Hze Hzp Hid.
  rewrite !Forall_app, !Forall_cons in Hall. destruct Hall as (Hl1 & (Hp & _ & Hp1 & Hp2 & _) & (Hn & Hn1 & Hn2 & Hn3 & _) & Hl2).
  apply sorted_insert in Hs as (Hs & H1 & H2). apply sorted_insert in Hs as (Hs & H3 & H4).
  split; [split|].
  - rewrite fmap_app, !fmap_cons, NoDup_app in *. destruct Hnd as (? & Hx & Hy).
    apply NoDup_cons in Hy as [Hpn Hy]. apply NoDup_cons in Hy as [Hnn Hy].
    apply not_elem_of_cons in Hpn as [_ Hpn]. split_and!; [done| |].
    + intros i Hi [->|Hi2]%elem_of_cons; apply (Hx _ Hi).
      * destruct Hid as [->| ->]; set_solver +.
      * set_solver +Hi2.
    + constructor; [destruct Hid as [->| ->]; done|done].
  - rewrite Forall_app, Forall_cons. split; [done|]. split; [|done].
    unfold node_ok. rewrite Hzs, Hze. split_and!; (done || lia).
  - apply sorted_insert. split; [done|]. split.
    + intros y Hy. unfold before. rewrite Hzs. by apply H1.
    + intros y Hy. unfold before. rewrite Hze. by apply H4.
  - intros a k. rewrite !covers_app, !covers_cons, Hza, Hzf, Hzs, Hze, <- Ha, <- Hf.
    assert (start p <= a < endd node <-> start p <= a < endd p \/ start node <= a < endd node) as -> by lia.
    tauto.
Qed.

Lemma in_split_node l node : node ∈ l -> exists l1 l2, l = l1 ++ node :: l2.
Proof. apply list_elem_of_split. Qed.

Lemma get_node_in base top sp node :
  nodes_ok base top (spaceNodeList sp) -> node ∈ spaceNodeList sp -> get_node sp (nid node) = Some node.
Proof.
  intros [Hnd _ _] (l1 & l2 & Hl)%in_split_node. unfold get_node. rewrite Hl in *. by apply find_id_middle.
Qed.

Lemma remove_spec base top sp l1 l2 node :
  nodes_ok base top (spaceNodeList sp) -> spaceNodeList sp = l1 ++ node :: l2 ->
  VmspaceRemoveNode sp node = (with_nodes sp (l1 ++ l2), NX_EOK) /\ nodes_ok base top (l1 ++ l2).
Proof.
  intros [Hnd Hall Hs] Hl. unfold VmspaceRemoveNode, VmspaceRemoveNodeLocked. rewrite Hl in *.
  rewrite filter_middle by done. rewrite Forall_app, Forall_cons in Hall.
  destruct Hall as (? & (_ & _ & _ & _ & ->) & ?). split; [done|]. split.
  - rewrite !fmap_app, fmap_cons in *. rewrite <- Permutation_middle in Hnd. by apply NoDup_cons in Hnd as [_ ?].
  - by apply Forall_app.
  - by apply sorted_insert in Hs as [? _].
Qed.

Lemma node_space base top l x : nodes_ok base top l -> x ∈ l -> space x = true.
Proof. intros Hok Hx. by destruct (nodes_ok_lt base top l x Hok Hx) as (_ & _ & _ & _ & ?). Qed.

(** The first traversal: the node absorbs the one before it, if it can. *)
Lemma MergePrev_spec base top sp node :
  nodes_ok base top (spaceNodeList sp) -> node ∈ spaceNodeList sp ->
  exists l' node', nid node' = nid node /\ MergePrev sp node = Some (with_nodes sp l') /\
    nodes_ok base top l' /\ node' ∈ l' /\ forall a k, covers l' a k <-> covers (spaceNodeList sp) a k.
Proof.
  intros Hok Hin. unfold MergePrev.
  pose proof (list_find_result (fun p => endd p = start node /\ same_kind p node = true) (spaceNodeList sp)) as Hf.
  destruct (list_find _ _) as [[i p]|].
  - destruct Hf as [Hp [He Hk]]. destruct (adjacent base top _ p node Hok Hp Hin He) as (a & b & Hl).
    destruct (same_kind_eq p node Hk) as [Ha Hfl]. set (z := set_start (start p) node).
    destruct (fuse base top a b p node z) as [Hokz Hcz];
      [by rewrite <- Hl|done|done|by symmetry|by symmetry|done|done|by apply (node_space base top _ node Hok)|by right|].
    exists (a ++ z :: b), z. split; [done|]. split; [|split; [done|split; [set_solver +|by rewrite Hl]]].
    cbv zeta. unfold upd_node. rewrite Hl. pose proof (no_ids _ _ _ Hok) as Hnd. rewrite Hl in Hnd.
    assert (Hsp : a ++ p :: node :: b = (a ++ [p]) ++ node :: b) by (by rewrite <- app_assoc).
    rewrite Hsp in Hnd |- *. rewrite upd_middle by done. fold z. unfold VmspaceRemoveNodeLocked.
    rewrite (node_space base top _ p Hok Hp). cbn [negb with_nodes spaceNodeList].
    rewrite <- app_assoc. cbn [app]. rewrite filter_middle; [done|].
    rewrite <- app_assoc in Hnd. by rewrite !fmap_app, !fmap_cons in *.
  - exists (spaceNodeList sp), node. split_and!; try done. by destruct sp.
Qed.

Lemma MergeNext_spec base top sp node :
  nodes_ok base top (spaceNodeList sp) -> node ∈ spaceNodeList sp ->
  exists l', MergeNext sp node = Some (with_nodes sp l') /\
    nodes_ok base top l' /\ forall a k, covers l' a k <-> covers (spaceNodeList sp) a k.
Proof.
  intros Hok Hin. unfold MergeNext.
  pose proof (list_find_result (fun p => start p = endd node /\ same_kind p node = true) (spaceNodeList sp)) as Hf.
  destruct (list_find _ _) as [[i n]|].
  - destruct Hf as [Hn [He Hk]]. destruct (adjacent base top _ node n Hok Hin Hn ltac:(done)) as (a & b & Hl).
    assert (Hk' : same_kind node n = true).
    { unfold same_kind in *. by rewrite (Z.eqb_sym (attr node)), (Z.eqb_sym (flags node)). }
    set (z := set_end (endd n) node).
    destruct (fuse base top a b node n z) as [Hokz Hcz];
      [by rewrite <- Hl|done|done|done|done|done|done|by apply (node_space base top _ node Hok)|by left|].
    exists (a ++ z :: b). split; [|split; [done|by rewrite Hl]].
    cbv zeta. unfold upd_node. rewrite Hl. pose proof (no_ids _ _ _ Hok) as Hnd. rewrite Hl in Hnd.
    rewrite upd_middle by done. fold z. unfold VmspaceRemoveNodeLocked.
    rewrite (node_space base top _ n Hok Hn). cbn [negb with_nodes spaceNodeList].
    assert (Hsp : a ++ z :: n :: b = (a ++ [z]) ++ n :: b) by (by rewrite <- app_assoc).
    rewrite Hsp, filter_middle; [by rewrite <- !app_assoc|].
    rewrite <- app_assoc. cbn [app]. by rewrite !fmap_app, !fmap_cons in *.
  - exists (spaceNodeList sp). split_and!; try done. by destruct sp.
Qed.

(** [VmspaceMergeNode] keeps what is covered. *)
Lemma merge_spec base top sp node :
  nodes_ok base top (spaceNodeList sp) -> node ∈ spaceNodeList sp ->
  exists l', VmspaceMergeNode sp (nid node) = Some (with_nodes sp l', NX_EOK) /\ nodes_ok base top l' /\
    forall a k, covers l' a k <-> covers (spaceNodeList sp) a k.
Proof.
  intros Hok Hin. unfold VmspaceMergeNode. rewrite (get_node_in base top) by done. rewrite Some_bind.
  destruct (MergePrev_spec base top sp node Hok Hin) as (l1 & node1 & Hid1 & -> & Hok1 & Hin1 & Hc1).
  rewrite Some_bind, <- Hid1, (get_node_in base top (with_nodes sp l1)), Some_bind by done.
  destruct (MergeNext_spec base top (with_nodes sp l1) node1 Hok1 Hin1) as (l2 & -> & Hok2 & Hc2).
  exists l2. split; [done|]. split; [done|]. intros a k. by rewrite Hc2, <- Hc1.
Qed.

(** Cutting [y] off one end of [x], which becomes [x']. *)
Definition cut_off x x' y : Prop :=
  nid x' = nid x /\ attr x' = attr x /\ flags x' = flags x /\ space x' = true /\
  attr y = attr x /\ flags y = flags x /\
  start x' < endd x' /\ start y < endd y /\
  ((start y = start x /\ endd y = start x' /\ endd x' = endd x /\ start x' mod NX_PAGE_SIZE = 0) \/
   (start x' = start x /\ endd x' = start y /\ endd y = endd x /\ start y mod NX_PAGE_SIZE = 0)).

Lemma cut_insert base top sp l1 l2 x x' y :
  nodes_ok base top (l1 ++ x :: l2) -> spaceNodeList sp = l1 ++ x' :: l2 -> cut_off x x' y ->
  nid y ∉ nid <$> l1 ++ x :: l2 ->
  exists l', VmspaceInsertNodeLocked sp y = (with_nodes sp l', NX_EOK) /\ nodes_ok base top l' /\ x' ∈ l' /\
    (forall i, i ∈ nid <$> l' <-> i = nid y \/ i ∈ nid <$> l1 ++ x :: l2) /\
    forall a k, covers l' a k <-> covers (l1 ++ x :: l2) a k.
Proof.
  intros [Hnd Hall Hs] Hsp (Hid & Ha & Hf & Hx' & Hya & Hyf & Hlt1 & Hlt2 & Hcut) Hfresh.
  rewrite Forall_app, Forall_cons in Hall. destruct Hall as (Hall1 & (Hx1 & Hx2 & Hx3 & Hx4 & _) & Hall2).
  apply sorted_insert in Hs as (Hs & H1 & H2).
  assert (Hids : nid <$> l1 ++ x' :: l2 = nid <$> l1 ++ x :: l2) by (by rewrite !fmap_app, !fmap_cons, Hid).
  assert (Hok' : nodes_ok base top (spaceNodeList sp)).
  { rewrite Hsp. split; [by rewrite Hids| |].
    - rewrite Forall_app, Forall_cons. split_and!; [done| |done].
      destruct Hcut as [(? & ? & ? & ?)|(? & ? & ? & ?)]; unfold node_ok; split_and!; try done; try lia; congruence.
    - apply sorted_insert. split; [done|].
      split; intros z Hz; [specialize (H1 z Hz)|specialize (H2 z Hz)]; unfold before in *; lia. }
  destruct (insert_spec base top sp y Hok') as (k1 & k2 & Hk & Hrun & Hok2).
  - unfold node_ok, set_space. cbn. destruct Hcut as [(? & ? & ? & ?)|(? & ? & ? & ?)]; split_and!; try done; try lia; congruence.
  - by rewrite Hsp, Hids.
  - rewrite Hsp. intros z [Hz|[->|Hz]%elem_of_cons]%elem_of_app;
      [specialize (H1 z Hz)| |specialize (H2 z Hz)]; unfold before in *; lia.
  - exists (k1 ++ set_space true y :: k2). split; [exact Hrun|]. split; [done|].
    assert (Hperm : k1 ++ set_space true y :: k2 ≡ₚ set_space true y :: spaceNodeList sp)
      by (rewrite Hk; by rewrite Permutation_middle).
    split; [rewrite Hperm, Hsp; set_solver +|]. split.
    + intros i. rewrite Hperm, Hsp, fmap_cons, elem_of_cons, Hids. done.
    + intros a k. rewrite covers_app, covers_cons. cbn.
      assert (covers k1 a k \/ covers k2 a k <-> covers (l1 ++ x' :: l2) a k) as Hkk by (by rewrite <- covers_app, <- Hk, Hsp).
      rewrite !covers_app, !covers_cons, Ha, Hf in Hkk. rewrite !covers_app, !covers_cons, Hya, Hyf.
      assert (start x <= a < endd x <-> start x' <= a < endd x' \/ start y <= a < endd y) as -> by lia.
      tauto.
Qed.

(** [VmspaceSplitNode] isolates [[addr, addr + size)] in the node. *)
Lemma split_spec base top sp node addr size i1 i2 :
  nodes_ok base top (spaceNodeList sp) -> node ∈ spaceNodeList sp -> 0 <= base -> top < 2 ^ 64 ->
  start node <= addr -> 0 < size -> addr + size <= endd node ->
  addr mod NX_PAGE_SIZE = 0 -> size mod NX_PAGE_SIZE = 0 ->
  i1 ∉ nid <$> spaceNodeList sp -> i2 ∉ nid <$> spaceNodeList sp -> i1 <> i2 ->
  exists l' mid, VmspaceSplitNode (Some i1) (Some i2) sp (nid node) addr size = Some (with_nodes sp l', NX_EOK) /\
    nodes_ok base top l' /\ mid ∈ l' /\ nid mid = nid node /\ start mid = addr /\ endd mid = addr + size /\
    attr mid = attr node /\ flags mid = flags node /\
    forall a k, covers l' a k <-> covers (spaceNodeList sp) a k.
Proof.
  intros Hok Hin Hb0 Ht Hs1 Hsz Hs2 Hal1 Hal2 Hf1 Hf2 Hne.
  destruct (nodes_ok_lt base top _ node Hok Hin) as (Hr1 & Hr2 & Hr3 & Hr4 & Hr5).
  assert (Hale : (addr + size) mod NX_PAGE_SIZE = 0) by (unfold NX_PAGE_SIZE in *; zlia).
  unfold VmspaceSplitNode. rewrite (get_node_in base top) by done. rewrite Some_bind, (u64_small (addr + size)) by lia.
  destruct (Z.eqb_spec (start node) addr) as [He1|He1]; destruct (Z.eqb_spec (endd node) (addr + size)) as [He2|He2];
    cbn [andb negb].
  - exists (spaceNodeList sp), node. split_and!; try done. by destruct sp.
  - rewrite (proj2 (Z.eqb_neq (addr + size) _)) by lia. cbn [negb andb VmnodeCreate mbind option_bind].
    pose proof Hin as (l1 & l2 & Hl)%in_split_node. pose proof (no_ids _ _ _ Hok) as Hnd. rewrite Hl in *.
    set (y := mkNode i2 (addr + size) _ _ _ false).
    assert (Hy : endd y = endd node) by (cbn; rewrite (u64_small (endd node - _)), u64_small; lia).
    unfold upd_node. rewrite Hl, upd_middle by done. set (x' := set_end _ node).
    destruct (cut_insert base top (with_nodes sp (l1 ++ x' :: l2)) l1 l2 node x' y Hok) as (l' & Hrun & ? & ? & _ & ?);
      [done| |done|].
    { unfold cut_off. rewrite Hy. cbn. split_and!; (done || lia || (right; lia)). }
    rewrite bool_decide_eq_false_2 by done. rewrite Hrun. exists l', x'. split_and!; done.
  - rewrite He2, Z.eqb_refl. cbn [negb andb VmnodeCreate mbind option_bind].
    pose proof Hin as (l1 & l2 & Hl)%in_split_node. pose proof (no_ids _ _ _ Hok) as Hnd. rewrite Hl in *.
    set (y := mkNode i1 (start node) _ _ _ false).
    assert (Hy : endd y = addr) by (cbn; rewrite (u64_small (addr - _)), u64_small; lia).
    unfold upd_node. rewrite Hl, upd_middle by done. set (x' := set_start _ node).
    destruct (cut_insert base top (with_nodes sp (l1 ++ x' :: l2)) l1 l2 node x' y Hok) as (l' & Hrun & ? & ? & _ & ?);
      [done| |done|].
    { unfold cut_off. rewrite Hy. cbn. split_and!; (done || lia || (left; lia)). }
    rewrite bool_decide_eq_false_2 by done. cbn [andb]. rewrite Hrun. exists l', x'. cbn. split_and!; (done || lia).
  - rewrite (proj2 (Z.eqb_neq (addr + size) _)) by lia.
    cbn [negb andb VmnodeCreate mbind option_bind].
    pose proof Hin as (l1 & l2 & Hl)%in_split_node. pose proof (no_ids _ _ _ Hok) as Hnd. rewrite Hl in *.
    set (y := mkNode i1 (start node) _ _ _ false).
    set (z := mkNode i2 (addr + size) _ _ _ false).
    assert (Hy : endd y = addr) by (cbn; rewrite (u64_small (addr - _)), u64_small; lia).
    assert (Hz : endd z = endd node) by (cbn; rewrite (u64_small (endd node - _)), u64_small; lia).
    unfold upd_node at 2. rewrite Hl, upd_middle by done. set (x' := set_start _ node).
    destruct (cut_insert base top (with_nodes sp (l1 ++ x' :: l2)) l1 l2 node x' y Hok)
      as (l' & Hrun & Hok' & Hx' & Hids & Hc); [done| |done|].
    { unfold cut_off. rewrite Hy. cbn. split_and!; (done || lia || (left; lia)). }
    rewrite !bool_decide_eq_false_2 by done. rewrite Hrun. cbn [fst].
    pose proof Hx' as (k1 & k2 & Hk)%in_split_node. pose proof (no_ids _ _ _ Hok') as Hnd'. rewrite Hk in *.
    unfold upd_node. cbn [with_nodes spaceNodeList]. change (nid node) with (nid x'). rewrite upd_middle by done.
    set (x'' := set_end _ x').
    destruct (cut_insert base top (with_nodes sp (k1 ++ x'' :: k2)) k1 k2 x' x'' z Hok') as (l'' & Hrun2 & ? & ? & _ & Hc2);
      [done| | |].
    { unfold cut_off. rewrite Hz. cbn. split_and!; (done || lia || (right; lia)). }
    { rewrite Hids. by intros [He|]. }
    match type of Hrun2 with ?a = _ => match goal with |- context [VmspaceInsertNodeLocked ?b z] => change (VmspaceInsertNodeLocked b z) with a end end.
    rewrite Hrun2. exists l'', x''. split_and!; try done.
    intros a k. by rewrite Hc2, Hc.
Qed.
End spaces.

(** ** Mapping and unmapping *)

(** A consistent space: the page tables hold the pages of the nodes that are
    not mapped on demand, and no page outside the nodes. *)
Record vm_ok {M} `{MmuLaws M} (sp : NX_Vmspace M) : Prop := {
  vm_mmu : mmu_ok (mmu sp) /\ vir_lo <= spaceBase sp /\ spaceTop sp <= vir_hi;
  vm_bounds : 0 < spaceBase sp <= spaceTop sp /\ spaceTop sp < 2 ^ 62;
  vm_aligned : spaceBase sp mod NX_PAGE_SIZE = 0 /\ spaceTop sp mod NX_PAGE_SIZE = 0 /\
    mapStart sp mod NX_PAGE_SIZE = 0 /\ spaceBase sp <= mapStart sp <= mapEnd sp /\ mapEnd sp <= spaceTop sp;
  vm_nodes : nodes_ok (spaceBase sp) (spaceTop sp) (spaceNodeList sp);
  vm_mapped : forall pg at_ fl, covers (spaceNodeList sp) (pg * NX_PAGE_SIZE) (at_, fl) ->
    Z.land fl NX_VMSPACE_DELAY_MAP = 0 -> exists f, translate (mmu sp) pg = Some (f, at_);
  vm_only : forall pg, is_Some (translate (mmu sp) pg) ->
    exists k, covers (spaceNodeList sp) (pg * NX_PAGE_SIZE) k
}.

(** What [__VmspaceMap] and [NX_VmspaceUnmap] leave alone. *)
Definition same_layout {M} (sp sp' : NX_Vmspace M) : Prop :=
  sp' = with_nodes (with_mmu sp (mmu sp')) (spaceNodeList sp').

Section mapping.
Context {M : Type} `{MmuLaws M}.
Implicit Types (sp : NX_Vmspace M) (l : list NX_Vmnode) (node p x y : NX_Vmnode).

(** A page of an aligned range is the page of its first byte. *)
Lemma in_pages_bytes addr size pg :
  page_range addr size -> in_pages addr size pg <-> addr <= pg * NX_PAGE_SIZE < addr + size.
Proof. unfold page_range, in_pages, NX_PAGE_SIZE. intros (? & ? & _ & ? & ?). zlia. Qed.

Lemma covers_fun base top l a k k' : nodes_ok base top l -> covers l a k -> covers l a k' -> k = k'.
Proof.
  intros Hok (x & Hx & Hxa & ->) (y & Hy & Hya & ->).
  by rewrite (nodes_ok_unique base top l x y a Hok Hx Hy Hxa Hya).
Qed.

(** The range meets a node exactly when the test says so, unless it encloses
    a node strictly. *)
Lemma VmspaceCheckAddrCollisions_spec sp addr size base top :
  nodes_ok base top (spaceNodeList sp) -> 0 < addr -> 0 < size -> addr + size < 2 ^ 64 ->
  ~ (exists x, x ∈ spaceNodeList sp /\ addr < start x /\ endd x < addr + size) ->
  if VmspaceCheckAddrCollisions sp addr size
  then exists x, x ∈ spaceNodeList sp /\ start x < addr + size /\ addr < endd x
  else forall x, x ∈ spaceNodeList sp -> endd x <= addr \/ addr + size <= start x.
Proof.
  intros Hok Ha Hs Hb Henc. unfold VmspaceCheckAddrCollisions. rewrite u64_small by lia.
  destruct (existsb _ _) eqn:E.
  - apply existsb_exists in E as (x & Hx%list_elem_of_In & Hc). exists x. split; [done|].
    destruct (nodes_ok_lt base top _ x Hok Hx) as (? & _).
    apply orb_true_iff in Hc as [[E1%Z.geb_le E2%Z.ltb_lt]%andb_true_iff|[E1 E2%Z.leb_le]%andb_true_iff]; [lia|].
    rewrite Z.gtb_ltb in E1. apply Z.ltb_lt in E1. lia.
  - intros x Hx. destruct (nodes_ok_lt base top _ x Hok Hx) as (? & _).
    assert (((addr >=? start x) && (addr <? endd x) || (addr + size >? start x) && (addr + size <=? endd x))%bool = false) as Hc.
    { apply not_true_is_false. intros Hc. apply not_true_iff_false in E. apply E. apply existsb_exists.
      exists x. split; [by apply list_elem_of_In|done]. }
    rewrite Z.geb_leb, Z.gtb_ltb in Hc. apply orb_false_iff in Hc as [E1 E2].
    apply andb_false_iff in E1. apply andb_false_iff in E2. rewrite !Z.leb_gt, !Z.ltb_ge in *.
    destruct (Z.le_gt_cases (endd x) addr) as [|E3]; [by left|].
    destruct (Z.le_gt_cases (addr + size) (start x)) as [|E4]; [by right|]. exfalso. apply Henc.
    exists x. split; [done|]. lia.
Qed.

Lemma align_range v s base top :
  0 < base -> base mod NX_PAGE_SIZE = 0 -> top mod NX_PAGE_SIZE = 0 -> top < 2 ^ 62 ->
  base <= v -> 0 < s -> v + s <= top ->
  let a := NX_PAGE_ALIGNDOWN v in let z := NX_PAGE_ALIGNUP s in
  page_range a z /\ base <= a <= v /\ v < a + 4096 /\ s <= z < s + 4096 /\ a + z <= top /\
  (v mod NX_PAGE_SIZE = 0 -> a = v) /\ (s mod NX_PAGE_SIZE = 0 -> z = s).
Proof.
  intros ? ? ? ? ? ? ? a z.
  assert (a = v / NX_PAGE_SIZE * NX_PAGE_SIZE) as Ea by (apply NX_PAGE_ALIGNDOWN_spec; lia).
  assert (z = align_up s NX_PAGE_SIZE) as Ez by (apply NX_PAGE_ALIGNUP_spec; lia).
  clearbody a z. unfold page_range, align_up, NX_PAGE_SIZE in *. subst a z. split_and!; zlia.
Qed.

(** Recording a mapped range keeps a space consistent. *)
Lemma vm_ok_mapped sp l m a z at_ fl :
  vm_ok sp -> mmu_ok m -> nodes_ok (spaceBase sp) (spaceTop sp) l -> page_range a z ->
  (forall b k, covers l b k <-> (a <= b < a + z /\ k = (at_, fl)) \/ covers (spaceNodeList sp) b k) ->
  (Z.land fl NX_VMSPACE_DELAY_MAP = 0 -> forall pg, in_pages a z pg -> exists f, translate m pg = Some (f, at_)) ->
  (forall pg, ~ in_pages a z pg -> translate m pg = translate (mmu sp) pg) ->
  (forall b k, covers (spaceNodeList sp) b k -> ~ a <= b < a + z) ->
  vm_ok (with_nodes (with_mmu sp m) l).
Proof.
  intros [] Hm Hok Hr Hc Hin Hout Hfree. split; cbn [with_nodes with_mmu spaceNodeList mmu] in *; try done.
  - split; [done|apply vm_mmu0].
  - intros pg at2 fl2 [[Hb [= -> ->]]|Hold]%Hc Hfl.
    + apply Hin; [done|]. by apply in_pages_bytes.
    + destruct (vm_mapped0 pg at2 fl2 Hold Hfl) as [f Hf]. exists f.
      rewrite Hout; [done|]. rewrite in_pages_bytes by done. eauto.
  - intros pg Hpg. destruct (decide (in_pages a z pg)) as [Hi|Hi].
    + exists (at_, fl). apply Hc. left. split; [|done]. by apply in_pages_bytes.
    + rewrite Hout in Hpg by done. destruct (vm_only0 pg Hpg) as [k Hk]. exists k. apply Hc. by right.
Qed.

(** Both ways of entering a range in the page tables. *)
Lemma enter_range sp v z paddr at_ :
  mmu_ok (mmu sp) -> vir_range vir_lo vir_hi v z -> attr_ok at_ -> (paddr <> 0 -> phys_ok (mmu sp) paddr z) ->
  (forall pg, in_pages v z pg -> translate (mmu sp) pg = None) ->
  exists m r,
    (if nz paddr then
       '(m, _) ← pageIncrease (mmu sp) (Z.land paddr (not64 NX_PAGE_MASK));
       '(m, a) ← mapPageWithPhy m v paddr z at_; Some (with_mmu sp m, a)
     else '(m, a) ← mapPage (mmu sp) v z at_; Some (with_mmu sp m, a)) = Some (with_mmu sp m, r) /\ mmu_ok m /\
    mapped (mmu sp) m v z at_ r (fun _ _ => True).
Proof.
  intros Hm Hr Ha Hp Hnone. unfold nz. destruct (Z.eqb_spec paddr 0) as [->|Hne]; cbn [negb].
  - destruct (mapPage_law (mmu sp) v z at_ Hm Hr Ha Hnone) as (m & r & -> & Hcase). eauto.
  - destruct (mapPageWithPhy_law (mmu sp) v paddr z at_ Hm Hr Ha (Hp Hne) Hnone) as (m0 & e & m & r & -> & E & Hm' & Hcase).
    rewrite Some_bind, E. exists m, r. split; [done|]. split; [done|].
    destruct Hcase as [?|(-> & Hin & Hs)]; [by left|right]. split; [done|]. split; [|done].
    intros pg Hpg. destruct (Hin pg Hpg) as (f & ? & _). eauto.
Qed.

(** The outcome of recording [[v, v + z)]. *)
Definition map_outcome sp sp' (err : NX_Error) (out v z at_ fl : Z) : Prop :=
  vm_ok sp' /\ same_layout sp sp' /\
  ((err = NX_EOK /\ out = v /\ (forall b k, covers (spaceNodeList sp) b k -> ~ v <= b < v + z) /\
    forall b k, covers (spaceNodeList sp') b k <->
      (v <= b < v + z /\ k = (at_, fl)) \/ covers (spaceNodeList sp) b k) \/
   (err = NX_EINVAL /\ out = 0 /\ sp' = sp /\ exists b k, v <= b < v + z /\ covers (spaceNodeList sp) b k) \/
   (err = NX_ENOMEM /\ out = 0 /\ forall b k, covers (spaceNodeList sp') b k <-> covers (spaceNodeList sp) b k)).

Lemma same_layout_refl sp : same_layout sp sp.
Proof. by destruct sp. Qed.

(** The part of [__VmspaceMap] after the address has been chosen. *)
Definition map_at (mem : option Z) sp (vaddr paddr size attr flags : Z) : option (NX_Vmspace M * NX_Error * Z) :=
  let vaddr := NX_PAGE_ALIGNDOWN vaddr in
  let size := NX_PAGE_ALIGNUP size in
  if VmspaceCheckAddrCollisions sp vaddr size then Some (sp, NX_EINVAL, 0)
  else
    match VmnodeCreate mem vaddr size attr flags with
    | None => Some (sp, NX_ENOMEM, 0)
    | Some node =>
        let '(sp, _) := VmspaceInsertNode sp node in
        '(sp, mapAddr) ←
          (if nz (Z.land flags NX_VMSPACE_DELAY_MAP) then Some (sp, vaddr)
           else if nz paddr then
             '(m, _) ← pageIncrease (mmu sp) (Z.land paddr (not64 NX_PAGE_MASK));
             '(m, a) ← mapPageWithPhy m vaddr paddr size attr; Some (with_mmu sp m, a)
           else '(m, a) ← mapPage (mmu sp) vaddr size attr; Some (with_mmu sp m, a));
        if negb (nz mapAddr) then
          let '(sp, err) := VmspaceRemoveNode sp (set_space true node) in
          assert (is_ok err);; Some (sp, NX_ENOMEM, 0)
        else
          '(sp, err) ← VmspaceMergeNode sp (nid node);
          assert (is_ok err);; Some (sp, NX_EOK, mapAddr)
    end.

(** What the allocator answers for a node, if anything, is no node of the space. *)
Definition fresh_node sp (mem : option Z) : Prop := forall id, mem = Some id -> id ∉ nid <$> spaceNodeList sp.

Lemma map_at_spec sp mem a paddr size at_ fl :
  let v := NX_PAGE_ALIGNDOWN a in let z := NX_PAGE_ALIGNUP size in
  vm_ok sp -> fresh_node sp mem -> attr_ok at_ -> (paddr <> 0 -> phys_ok (mmu sp) paddr z) ->
  spaceBase sp <= a -> 0 < size -> a + size <= spaceTop sp ->
  ~ (exists x, x ∈ spaceNodeList sp /\ v < start x /\ endd x < v + z) ->
  exists sp' err out, map_at mem sp a paddr size at_ fl = Some (sp', err, out) /\
    map_outcome sp sp' err out v z at_ fl.
Proof.
  intros v z Hvm Hfresh Hat Hph Ha Hs Htop Henc. pose proof Hvm as [(Hm & Hlo & Hhi) (Hb0 & Hb1) (Hal1 & Hal2 & _) Hok Hmap Honly].
  destruct (align_range a size (spaceBase sp) (spaceTop sp)) as (Hr & Hv1 & _ & Hz & Hvz & _); try (done || lia).
  fold v z in Hr, Hv1, Hz, Hvz. pose proof Hr as (Hv0 & Hz0 & Hb & Hvm0 & Hzm0).
  pose proof (VmspaceCheckAddrCollisions_spec sp v z _ _ Hok Hv0 Hz0 Hb Henc) as Hcol.
  unfold map_at. fold v z. destruct (VmspaceCheckAddrCollisions sp v z).
  { exists sp, NX_EINVAL, 0. split; [done|]. split; [done|]. split; [apply same_layout_refl|]. right. left.
    split; [done|]. split; [done|]. split; [done|]. destruct Hcol as (x & Hx & Hx1 & Hx2).
    destruct (nodes_ok_lt _ _ _ x Hok Hx) as (? & _). exists (Z.max v (start x)), (attr x, flags x).
    split; [lia|]. exists x. split; [done|]. split; [lia|done]. }
  destruct mem as [id|].
  2: { exists sp, NX_ENOMEM, 0. split; [done|]. split; [done|]. split; [apply same_layout_refl|]. right. by right. }
  pose proof (Hfresh id eq_refl) as Hid. cbn [VmnodeCreate mbind option_bind]. rewrite u64_small by lia.
  set (node := mkNode id v (v + z) at_ fl false).
  assert (Hnok : node_ok (spaceBase sp) (spaceTop sp) (set_space true node)).
  { unfold node_ok. cbn. unfold NX_PAGE_SIZE in *. split_and!; (done || zlia). }
  destruct (insert_spec _ _ sp node Hok Hnok) as (l1 & l2 & Hl & Hins & Hok1); [done|..].
  { intros x Hx. specialize (Hcol x Hx). unfold before. cbn. lia. }
  rewrite Hins. cbv beta iota. set (l := l1 ++ set_space true node :: l2) in *.
  assert (Hfree : forall b k, covers (spaceNodeList sp) b k -> ~ v <= b < v + z).
  { intros b k (x & Hx & Hxb & _). specialize (Hcol x Hx). lia. }
  assert (Hcov : forall b k, covers l b k <-> (v <= b < v + z /\ k = (at_, fl)) \/ covers (spaceNodeList sp) b k).
  { intros b k. unfold l. rewrite Hl, !covers_app, covers_cons. cbn. tauto. }
  assert (Hnone : forall pg, in_pages v z pg -> translate (mmu sp) pg = None).
  { intros pg Hpg. destruct (translate (mmu sp) pg) eqn:E; [|done].
    destruct (Honly pg ltac:(by rewrite E)) as [k Hk]. apply in_pages_bytes in Hpg; [|done].
    by apply Hfree in Hk. }
  assert (Hin : set_space true node ∈ l) by (unfold l; set_solver +).
  (* once entered, the node is merged with its neighbours *)
  assert (Hdone : forall m, mmu_ok m -> (Z.land fl NX_VMSPACE_DELAY_MAP = 0 -> forall pg, in_pages v z pg -> exists f, translate m pg = Some (f, at_)) ->
      (forall pg, ~ in_pages v z pg -> translate m pg = translate (mmu sp) pg) ->
      exists sp' err out, ('(sp, err) ← VmspaceMergeNode (with_mmu (with_nodes sp l) m) (nid node);
        assert (is_ok err);; Some (sp, NX_EOK, v)) = Some (sp', err, out) /\ map_outcome sp sp' err out v z at_ fl).
  { intros m Hm' Hm1 Hm2.
    destruct (merge_spec _ _ (with_mmu (with_nodes sp l) m) (set_space true node) Hok1 Hin) as (l' & Hrun & Hok' & Hc').
    change (nid (set_space true node)) with (nid node) in Hrun. rewrite Hrun, Some_bind.
    cbn [with_mmu with_nodes spaceNodeList] in Hc', Hok'.
    eexists _, NX_EOK, v. split; [reflexivity|]. split; [|split; [by destruct sp|]].
    - apply (vm_ok_mapped sp l' m v z at_ fl); try done. intros b k. by rewrite Hc', Hcov.
    - left. split; [done|]. split; [done|]. split; [done|]. intros b k. cbn. by rewrite Hc', Hcov. }
  destruct (nz (Z.land fl NX_VMSPACE_DELAY_MAP)) eqn:Edelay.
  { rewrite Some_bind. unfold nz at 1. rewrite (proj2 (Z.eqb_neq v 0)) by lia. cbn [negb].
    assert (with_nodes sp l = with_mmu (with_nodes sp l) (mmu sp)) as -> by (by destruct sp).
    apply Hdone; [done| |done]. intros H0'. unfold nz in Edelay. rewrite H0' in Edelay. done. }
  destruct (enter_range (with_nodes sp l) v z paddr at_ Hm) as (m & r & -> & Hm' & Hcase); [split; [done|lia]|done..|].
  rewrite Some_bind. destruct Hcase as [[-> Hsame]|(-> & Hm1 & Hm2)].
  - cbn [nz Z.eqb negb].
    destruct (remove_spec _ _ (with_mmu (with_nodes sp l) m) l1 l2 (set_space true node) Hok1 eq_refl) as [Hrem Hok2].
    unfold VmspaceRemoveNode in Hrem |- *. rewrite Hrem. change (is_ok NX_EOK) with true. rewrite assert_true.
    eexists _, NX_ENOMEM, 0. split; [reflexivity|]. cbn [with_mmu with_nodes spaceNodeList mmu] in *. rewrite <- Hl in *.
    split; [|split; [by destruct sp|]].
    + split; cbn [with_nodes with_mmu spaceNodeList mmu]; try done; [by apply (vm_aligned sp)|..].
      * intros pg at2 fl2 Hc Hf. rewrite Hsame. eauto.
      * intros pg Hpg. rewrite Hsame in Hpg. auto.
    + right. right. done.
  - unfold nz at 1. rewrite (proj2 (Z.eqb_neq v 0)) by lia. cbn [negb].
    apply Hdone; [done| |done]. intros _ pg Hpg. destruct (Hm1 pg Hpg) as (f & ? & _). eauto.
Qed.

(** Node lists are changed without the page tables. *)
Lemma merge_mmu sp sp' id err : VmspaceMergeNode sp id = Some (sp', err) -> mmu sp' = mmu sp.
Proof.
  assert (forall sp node sp', MergePrev sp node = Some sp' -> mmu sp' = mmu sp) as Hprev.
  { intros sp0 node sp1. unfold MergePrev, VmspaceRemoveNodeLocked. destruct (list_find _ _) as [[? p]|]; [|intros [= <-]; done].
    destruct (space p); cbn; [intros [= <-]|]; done. }
  assert (forall sp node sp', MergeNext sp node = Some sp' -> mmu sp' = mmu sp) as Hnext.
  { intros sp0 node sp1. unfold MergeNext, VmspaceRemoveNodeLocked. destruct (list_find _ _) as [[? p]|]; [|intros [= <-]; done].
    destruct (space p); cbn; [intros [= <-]|]; done. }
  unfold VmspaceMergeNode. intros Hrun. inv_opt. erewrite Hnext by eassumption. by eapply Hprev.
Qed.

Lemma insert_mmu sp node : mmu (VmspaceInsertNode sp node).1 = mmu sp.
Proof.
  unfold VmspaceInsertNode, VmspaceInsertNodeLocked, VmspaceInsertLinearOrder. cbn.
  case_bool_decide; [done|]. by destruct (InsertLinearOrder_loop _ _ _).
Qed.

(** The page tables after mapping fresh pages. *)
Lemma map_at_mmu mem sp a size at_ sp' err out :
  map_at mem sp a 0 size at_ 0 = Some (sp', err, out) ->
  mmu sp' = mmu sp \/ exists r, mapPage (mmu sp) (NX_PAGE_ALIGNDOWN a) (NX_PAGE_ALIGNUP size) at_ = Some (mmu sp', r).
Proof.
  unfold map_at. change (nz (Z.land 0 NX_VMSPACE_DELAY_MAP)) with false. change (nz 0) with false. cbv iota zeta.
  destruct (VmspaceCheckAddrCollisions _ _ _); [intros [= <- _ _]; by left|].
  destruct (VmnodeCreate _ _ _ _ _) as [node|]; [|intros [= <- _ _]; by left].
  pose proof (insert_mmu sp node) as Hins. destruct (VmspaceInsertNode sp node) as [sp1 e1]. cbn [fst] in Hins.
  rewrite Hins. destruct (mapPage (mmu sp) _ _ _) as [[m r]|]; [|done]. rewrite !Some_bind. intros Hrun. right. exists r. do 2 f_equal.
  destruct (negb (nz r)).
  - destruct (VmspaceRemoveNode _ _) as [sp2 e2] eqn:Erem. inv_opt. unfold VmspaceRemoveNode, VmspaceRemoveNodeLocked in Erem.
    by destruct (negb _); injection Erem as <- _.
  - destruct (VmspaceMergeNode _ _) as [[sp2 e2]|] eqn:Em; [|done]. apply merge_mmu in Em. cbn in Hrun. inv_opt. by rewrite Em.
Qed.

(** ** The map area *)
Definition in_area sp x : Prop := mapStart sp <= start x /\ endd x <= mapEnd sp.

(** A node of the map area meets the [size] bytes from [a]. *)
Definition hit sp (size a : Z) : Prop :=
  exists x, x ∈ spaceNodeList sp /\ in_area sp x /\ start x < a + size /\ a < endd x.

Lemma GetAddr_loop_spec sp size pre : forall l fa,
  vm_ok sp -> 0 < size < 2 ^ 62 -> spaceNodeList sp = pre ++ l -> mapStart sp <= fa <= mapEnd sp ->
  (forall x, x ∈ pre -> in_area sp x -> endd x <= fa) -> (forall x, x ∈ l -> in_area sp x -> fa <= start x) ->
  (forall a, mapStart sp <= a < fa -> hit sp size a) ->
  match GetAddr_loop sp size l fa with
  | Some a => mapStart sp <= a <= mapEnd sp /\ ~ hit sp size a /\
      (forall b, mapStart sp <= b < a -> hit sp size b) /\
      (a + size <= mapEnd sp \/ forall x, x ∈ spaceNodeList sp -> in_area sp x -> endd x <= a)
  | None => forall a, mapStart sp <= a -> a + size <= mapEnd sp -> hit sp size a
  end.
Proof.
  intros l. revert pre. induction l as [|x l IH]; intros pre fa Hvm Hs Hl Hfa Hpre Hpost Hhit; cbn [GetAddr_loop].
  - rewrite app_nil_r in Hl. split; [done|]. split; [|split; [done|right; by rewrite Hl]].
    intros (y & Hy & Hay & _ & Hlt). rewrite Hl in Hy. specialize (Hpre y Hy Hay). lia.
  - pose proof Hvm as [_ (Hb0 & Hb1) (_ & _ & _ & Hms & Hme) Hok _ _].
    assert (Hx : x ∈ spaceNodeList sp) by (rewrite Hl; set_solver +).
    destruct (nodes_ok_lt _ _ _ x Hok Hx) as (Hx1 & Hx2 & _).
    pose proof (no_sorted _ _ _ Hok) as Hsort. rewrite Hl in Hsort. apply sorted_insert in Hsort as (_ & Hbef & Haft).
    assert (Hl' : spaceNodeList sp = (pre ++ [x]) ++ l) by (by rewrite <- app_assoc).
    destruct ((start x >=? mapStart sp) && (endd x <=? mapEnd sp)) eqn:Earea.
    + apply andb_true_iff in Earea as [Ea1 Ea2%Z.leb_le]. rewrite Z.geb_leb in Ea1. apply Z.leb_le in Ea1.
      assert (Hax : in_area sp x) by done. pose proof (Hpost x (list_elem_of_here _ _) Hax) as Hfx.
      rewrite u64_small, Z.gtb_ltb by lia. destruct (Z.ltb_spec (mapEnd sp) (fa + size)) as [Hover|Hfit].
      { intros a Ha1 Ha2. destruct (Z.lt_ge_cases a fa) as [|]; [apply Hhit; lia|lia]. }
      destruct (Z.leb_spec (fa + size) (start x)) as [Hgap|Hsmall].
      * split; [done|]. split; [|split; [done|by left]].
        intros (y & Hy & Hay & Hlt1 & Hlt2). rewrite Hl in Hy.
        apply elem_of_app in Hy as [Hy|[->|Hy]%elem_of_cons]; [specialize (Hpre y Hy Hay); lia|lia|].
        specialize (Haft y Hy). unfold before in Haft. lia.
      * refine (IH (pre ++ [x]) (endd x) Hvm Hs Hl' _ _ _ _).
        -- lia.
        -- intros y [Hy| ->%list_elem_of_singleton]%elem_of_app Hay; [|lia].
           specialize (Hbef y Hy). unfold before in Hbef. lia.
        -- intros y Hy _. by apply Haft.
        -- intros a Ha. destruct (Z.lt_ge_cases a fa) as [|]; [apply Hhit; lia|].
           exists x. split; [done|]. split; [done|]. lia.
    + assert (Hnax : ~ in_area sp x).
      { intros [Ea1 Ea2]. rewrite Z.geb_leb, (proj2 (Z.leb_le _ _)), (proj2 (Z.leb_le _ _)) in Earea by lia. done. }
      refine (IH (pre ++ [x]) fa Hvm Hs Hl' Hfa _ _ Hhit).
      -- intros y [Hy| ->%list_elem_of_singleton]%elem_of_app Hay; [by apply Hpre|done].
      -- intros y Hy. apply Hpost. by right.
Qed.

Lemma GetAddr_lower sp size a :
  vm_ok sp -> 0 < size < 2 ^ 62 -> GetAddr_loop sp size (spaceNodeList sp) (mapStart sp) = Some a -> mapStart sp <= a.
Proof.
  intros Hvm Hs Ha. pose proof (GetAddr_loop_spec sp size [] (spaceNodeList sp) (mapStart sp) Hvm Hs eq_refl) as Hspec.
  rewrite Ha in Hspec. pose proof (vm_aligned sp Hvm) as (_ & _ & _ & ? & _).
  apply Hspec; [lia|by intros ? ?%elem_of_nil|by intros x _ []|intros; lia].
Qed.

(** The address [__VmspaceMap] works on. *)
Definition chosen sp (vaddr size : Z) : option Z :=
  if nz vaddr then Some vaddr else GetAddr_loop sp size (spaceNodeList sp) (mapStart sp).

Lemma VmspaceMap_at mem sp vaddr paddr size at_ fl a :
  vm_ok sp -> 0 <= vaddr -> 0 < size <= spaceTop sp -> at_ <> 0 -> chosen sp vaddr size = Some a -> a + size <= spaceTop sp ->
  (vaddr <> 0 -> spaceBase sp <= vaddr) ->
  __VmspaceMap mem sp vaddr paddr size at_ fl = map_at mem sp a paddr size at_ fl /\ spaceBase sp <= a.
Proof.
  intros Hvm Hv Hs Hat Hc Htop Hbase. pose proof (vm_bounds sp Hvm) as (? & ?).
  pose proof (vm_aligned sp Hvm) as (_ & _ & _ & ? & _).
  unfold __VmspaceMap, nz at 1 2. rewrite (proj2 (Z.eqb_neq size 0)), (proj2 (Z.eqb_neq at_ 0)) by lia.
  cbn [negb orb]. unfold chosen in Hc. unfold nz in *. destruct (Z.eqb_spec vaddr 0) as [->|Hne]; cbn [negb andb] in *.
  - assert (mapStart sp <= a) by (apply (GetAddr_lower sp size); (done || lia)).
    unfold GetAddrFromMapArea, nz. rewrite (proj2 (Z.eqb_neq size 0)) by lia. cbn [negb].
    rewrite assert_true, Some_bind, Hc. split; [done|lia].
  - injection Hc as ->. specialize (Hbase Hne). rewrite (proj2 (Z.ltb_ge a _)) by lia.
    rewrite u64_small, Z.gtb_ltb, (proj2 (Z.ltb_ge _ a)) by lia. cbn [orb]. by rewrite Some_bind.
Qed.

Lemma VmspaceFindNode_spec sp addr size :
  addr + size < 2 ^ 64 -> 0 <= addr + size ->
  match VmspaceFindNode sp addr size with
  | Some x => x ∈ spaceNodeList sp /\ start x <= addr /\ addr + size <= endd x
  | None => forall x, x ∈ spaceNodeList sp -> start x <= addr -> addr + size <= endd x -> False
  end.
Proof.
  intros Hb H0'. unfold VmspaceFindNode. rewrite u64_small by lia.
  pose proof (list_find_result (fun x => start x <= addr /\ addr + size <= endd x) (spaceNodeList sp)) as Hf.
  destruct (list_find _ _) as [[i x]|]; cbn; [done|]. intros x Hx Hx1 Hx2. by apply (Hf x Hx).
Qed.

(** Removing a node and its pages. *)
Lemma vm_ok_unmapped sp l1 l2 mid m a z :
  vm_ok sp -> mmu_ok m -> spaceNodeList sp = l1 ++ mid :: l2 -> start mid = a -> endd mid = a + z -> page_range a z ->
  (forall pg, in_pages a z pg -> translate m pg = None) ->
  (forall pg, ~ in_pages a z pg -> translate m pg = translate (mmu sp) pg) ->
  vm_ok (with_mmu (with_nodes sp (l1 ++ l2)) m) /\
  forall b k, covers (l1 ++ l2) b k <-> covers (spaceNodeList sp) b k /\ ~ a <= b < a + z.
Proof.
  intros Hvm Hm Hl Ha Hz Hr Hin Hout. pose proof Hvm as [(_ & Hw) Hb Hal Hok Hmap Honly].
  destruct (remove_spec _ _ sp l1 l2 mid Hok Hl) as [_ Hok'].
  assert (Hc : forall b k, covers (l1 ++ l2) b k <-> covers (spaceNodeList sp) b k /\ ~ a <= b < a + z).
  { intros b k. rewrite <- Hz, <- Ha. split.
    - intros (x & Hx & Hxb & ->). assert (Hx' : x ∈ spaceNodeList sp) by (rewrite Hl; set_solver +Hx).
      split; [by exists x|]. intros Hmb.
      assert (x = mid) as ->.
      { apply (nodes_ok_unique _ _ _ x mid b Hok Hx'); [rewrite Hl; set_solver +|done|lia]. }
      pose proof (no_ids _ _ _ Hok) as Hnd. rewrite Hl, fmap_app, fmap_cons, <- Permutation_middle in Hnd.
      apply NoDup_cons in Hnd as [Hnd _]. apply Hnd. rewrite <- fmap_app. by apply list_elem_of_fmap_2.
    - intros [(x & Hx & Hxb & ->) Hn]. exists x. split; [|done]. rewrite Hl in Hx.
      apply elem_of_app in Hx as [Hx|[->|Hx]%elem_of_cons]; [set_solver +Hx|lia|set_solver +Hx]. }
  split; [|done]. split; cbn [with_mmu with_nodes spaceNodeList mmu]; try done.
  - intros pg at_ fl [Hcv Hn]%Hc Hf. rewrite Hout; [eauto|]. by rewrite in_pages_bytes.
  - intros pg Hpg. destruct (decide (in_pages a z pg)) as [Hi|Hi]; [rewrite Hin in Hpg by done; by destruct Hpg|].
    rewrite Hout in Hpg by done. destruct (Honly pg Hpg) as [k Hk]. exists k. apply Hc. split; [done|].
    by rewrite <- in_pages_bytes.
Qed.

Lemma unmap_spec sp addr size i1 i2 :
  let z := NX_PAGE_ALIGNUP size in
  vm_ok sp -> i1 ∉ nid <$> spaceNodeList sp -> i2 ∉ nid <$> spaceNodeList sp -> i1 <> i2 ->
  addr mod NX_PAGE_SIZE = 0 -> spaceBase sp <= addr -> 0 < size -> addr + size <= spaceTop sp ->
  ((exists x, x ∈ spaceNodeList sp /\ start x <= addr /\ addr + z <= endd x) ->
   (forall pg, in_pages addr z pg -> is_Some (translate (mmu sp) pg)) ->
   exists sp', NX_VmspaceUnmap (Some i1) (Some i2) sp addr size = Some (sp', NX_EOK) /\
     vm_ok sp' /\ same_layout sp sp' /\
     forall b k, covers (spaceNodeList sp') b k <-> covers (spaceNodeList sp) b k /\ ~ addr <= b < addr + z) /\
  (~ (exists x, x ∈ spaceNodeList sp /\ start x <= addr /\ addr + z <= endd x) ->
   NX_VmspaceUnmap (Some i1) (Some i2) sp addr size = Some (sp, NX_EFAULT)).
Proof.
  intros z Hvm Hf1 Hf2 Hne Hal Hbase Hs Htop. pose proof Hvm as [(Hm & Hlo & Hhi) (Hb0 & Hb1) (Hal1 & Hal2 & _) Hok Hmap Honly].
  destruct (align_range addr size (spaceBase sp) (spaceTop sp)) as (Hr & _ & _ & Hz & Hvz & Hsame & _); try (done || lia).
  specialize (Hsame Hal). rewrite Hsame in *. fold z in Hr, Hz, Hvz.
  unfold NX_VmspaceUnmap, nz. rewrite (proj2 (Z.eqb_neq addr 0)), (proj2 (Z.eqb_neq size 0)) by lia.
  rewrite page_mask_aligned, Hal by lia. cbn [negb orb Z.eqb].
  rewrite u64_small, Z.gtb_ltb, Z.geb_leb by lia.
  rewrite (proj2 (Z.ltb_ge addr _)), (proj2 (Z.leb_gt _ addr)), (proj2 (Z.ltb_ge _ (addr + size))) by lia. cbn [orb].
  fold z. pose proof (VmspaceFindNode_spec sp addr z ltac:(lia) ltac:(lia)) as Hfind. split.
  - intros (x & Hx & Hx1 & Hx2) Hpages.
    destruct (VmspaceFindNode sp addr z) as [node|]; [|by exfalso; apply (Hfind x)].
    destruct Hfind as (Hin & Hn1 & Hn2). pose proof Hr as (_ & Hz0 & _ & _ & Hzm).
    destruct (split_spec _ _ sp node addr z i1 i2 Hok Hin) as
      (l' & mid & Hsplit & Hok' & Hmid & Hid & Hms & Hme & _ & _ & Hc); try (done || lia).
    rewrite Hsplit, Some_bind. change (negb (is_ok NX_EOK)) with false. cbv iota.
    rewrite <- Hid, (get_node_in _ _ (with_nodes sp l') mid Hok'), Some_bind by done.
    pose proof Hmid as (l1 & l2 & Hl)%in_split_node.
    destruct (remove_spec _ _ (with_nodes sp l') l1 l2 mid Hok' Hl) as [-> _].
    change (negb (is_ok NX_EOK)) with false. cbv iota. cbn [with_nodes mmu].
    destruct (unmapPage_law (mmu sp) addr z Hm) as (m & -> & Hm' & Hm1 & Hm2); [split; [done|lia]|done|]. rewrite Some_bind.
    change (negb (is_ok NX_EOK)) with false. cbv iota.
    assert (Hvm' : vm_ok (with_nodes sp l')).
    { split; cbn [with_nodes spaceNodeList mmu]; try done; [by apply (vm_aligned sp)|..].
      - intros pg at_ fl Hcv. rewrite Hc in Hcv. eauto.
      - intros pg Hpg. destruct (Honly pg Hpg) as [k Hk]. exists k. by rewrite Hc. }
    destruct (vm_ok_unmapped (with_nodes sp l') l1 l2 mid m addr z Hvm' Hm' Hl Hms Hme Hr Hm1 Hm2) as [Hvm2 Hc2].
    eexists. split; [reflexivity|]. split; [exact Hvm2|]. split; [by destruct sp|].
    intros b k. rewrite <- Hc. apply Hc2.
  - intros Hnot. destruct (VmspaceFindNode sp addr z) as [node|]; [|done]. exfalso. apply Hnot. eauto.
Qed.
End mapping.

(** ** Properties *)

(** C6: mapping.  In a consistent space a request for [size] bytes at a
    given address inside the space, or at an address of the map area, returns
    (no assertion fails), keeps the space consistent (nodes aligned, disjoint,
    in order, agreeing with the page tables) and either records exactly the
    whole pages asked for, with their attributes, where nothing was mapped,
    whatever the merging with the neighbours; or fails with [NX_EINVAL] because
    some page is taken, or with [NX_ENOMEM] (no memory for the node, or for the
    pages), leaving every mapping as it was.
    The request must not enclose a whole node strictly, with room on both sides:
    the code does not see such a node (vmspace.c:387) and records overlapping
    ones ([enclosing_map_overlaps]). *)
Theorem vmspace_map_correct {M} `{MmuLaws M} (sp : NX_Vmspace M) mem vaddr paddr size at_ fl a :
  let v := NX_PAGE_ALIGNDOWN a in let z := NX_PAGE_ALIGNUP size in
  vm_ok sp -> fresh_node sp mem -> 0 <= vaddr -> 0 < size <= spaceTop sp ->
  attr_ok at_ -> (paddr <> 0 -> phys_ok (mmu sp) paddr z) ->
  chosen sp vaddr size = Some a -> a + size <= spaceTop sp -> (vaddr <> 0 -> spaceBase sp <= vaddr) ->
  ~ (exists x, x ∈ spaceNodeList sp /\ v < start x /\ endd x < v + z) ->
  exists sp' err out, __VmspaceMap mem sp vaddr paddr size at_ fl = Some (sp', err, out) /\
    map_outcome sp sp' err out v z at_ fl.
Proof.
  intros v z Hvm Hid Hv Hs Hat Hph Hc Htop Hbase Henc.
  destruct (VmspaceMap_at mem sp vaddr paddr size at_ fl a) as [-> Ha]; try done; [by apply attr_ok_nonzero|].
  by apply map_at_spec; try lia.
Qed.

(** The map area is searched first fit.  [GetAddrFromMapArea] returns the
    lowest address of the area from which [size] bytes meet no node, and
    [NX_ENOMEM] only when no such bytes fit in the area.  The end of the area
    bounds the answer only when a node of the area lies above it. *)
Theorem map_area_first_fit {M} `{MmuLaws M} (sp : NX_Vmspace M) size :
  vm_ok sp -> 0 < size < 2 ^ 62 ->
  exists r, GetAddrFromMapArea sp size = Some r /\
    match r with
    | Some a => mapStart sp <= a <= mapEnd sp /\ ~ hit sp size a /\
        (forall b, mapStart sp <= b < a -> hit sp size b) /\
        (a + size <= mapEnd sp \/ forall x, x ∈ spaceNodeList sp -> in_area sp x -> endd x <= a)
    | None => forall a, mapStart sp <= a -> a + size <= mapEnd sp -> hit sp size a
    end.
Proof.
  intros Hvm Hs. unfold GetAddrFromMapArea, nz. rewrite (proj2 (Z.eqb_neq size 0)) by lia. cbn [negb].
  rewrite assert_true. eexists. split; [reflexivity|]. pose proof (vm_aligned sp Hvm) as (_ & _ & _ & ? & _).
  refine (GetAddr_loop_spec sp size [] _ _ Hvm Hs eq_refl _ _ _ _);
    [lia|by intros ? ?%elem_of_nil|by intros x _ []|intros; lia].
Qed.

(** C7: unmapping.  Releasing whole pages inside one node, present in the page
    tables, succeeds and removes exactly those pages, keeping what is left of
    the node on both sides; a range that no single node holds is [NX_EFAULT]
    and changes nothing.  The space stays consistent. *)
Theorem vmspace_unmap_correct {M} `{MmuLaws M} (sp : NX_Vmspace M) addr size i1 i2 :
  let z := NX_PAGE_ALIGNUP size in
  vm_ok sp -> i1 ∉ nid <$> spaceNodeList sp -> i2 ∉ nid <$> spaceNodeList sp -> i1 <> i2 ->
  addr mod NX_PAGE_SIZE = 0 -> spaceBase sp <= addr -> 0 < size -> addr + size <= spaceTop sp ->
  ((exists x, x ∈ spaceNodeList sp /\ start x <= addr /\ addr + z <= endd x) ->
   (forall pg, in_pages addr z pg -> is_Some (translate (mmu sp) pg)) ->
   exists sp', NX_VmspaceUnmap (Some i1) (Some i2) sp addr size = Some (sp', NX_EOK) /\
     vm_ok sp' /\ same_layout sp sp' /\
     forall b k, covers (spaceNodeList sp') b k <-> covers (spaceNodeList sp) b k /\ ~ addr <= b < addr + z) /\
  (~ (exists x, x ∈ spaceNodeList sp /\ start x <= addr /\ addr + z <= endd x) ->
   NX_VmspaceUnmap (Some i1) (Some i2) sp addr size = Some (sp, NX_EFAULT)).
Proof. intros z Hvm Hf1 Hf2 Hne Hal Hbase Hs Htop. by apply unmap_spec. Qed.

(** ** The heap *)

(** Two identifiers for the nodes, those of the allocator where it gives one. *)
Lemma two_fresh (l : list Z) mem1 mem2 : (forall i, mem1 = Some i -> i ∉ l) -> (forall i, mem2 = Some i -> i ∉ l) ->
  (forall i, mem1 = Some i -> mem2 <> Some i) ->
  exists i1 i2, (forall i, mem1 = Some i -> i = i1) /\ (forall i, mem2 = Some i -> i = i2) /\ i1 ∉ l /\ i2 ∉ l /\ i1 <> i2.
Proof.
  intros H1 H2 Hne. exists (default (fresh (l ++ option_list mem2)) mem1). set (i1 := default _ mem1).
  assert (Hi1 : i1 ∉ l /\ mem2 <> Some i1).
  { subst i1. destruct mem1 as [j|]; cbn; [split; [by apply H1|by apply Hne]|].
    pose proof (infinite_is_fresh (l ++ option_list mem2)) as Hf. rewrite elem_of_app in Hf. split; [tauto|]. intros E. apply Hf. right. destruct mem2 as [j|]; [|done]. injection E as E. change (option_list (Some j)) with [j]. rewrite <- E. left. }
  exists (default (fresh (i1 :: l)) mem2). split; [by intros i ->|]. split; [by intros i ->|]. split; [apply Hi1|].
  pose proof (infinite_is_fresh (i1 :: l)) as Hf. apply not_elem_of_cons in Hf as [Hf1 Hf2].
  destruct mem2 as [j|]; cbn; split; [by apply H2|intros E; by destruct Hi1 as [_ []]; f_equal|done|by apply not_eq_sym].
Qed.

Lemma find_holder (l : list NX_Vmnode) lo hi : (exists x, x ∈ l /\ start x <= lo /\ hi <= endd x) \/ ~ (exists x, x ∈ l /\ start x <= lo /\ hi <= endd x).
Proof.
  destruct (decide (Exists (fun x => start x <= lo /\ hi <= endd x) l)) as [H|H]; [left|right].
  - by apply Exists_exists in H.
  - intros Hx. apply H. by apply Exists_exists.
Qed.

Section heap.
Context {M : Type} `{MmuLaws M}.
Implicit Types (sp : NX_Vmspace M).

Lemma vm_ok_with_heap sp ie hs hc : vm_ok sp -> vm_ok (with_heap sp ie hs hc).
Proof. by intros []. Qed.

(** The pages from [lo] to [hi] are mapped for the heap, or nothing is. *)
Lemma heap_maps sp attr_user i1 lo hi : vm_ok sp -> attr_ok attr_user -> fresh_node sp i1 ->
  lo mod NX_PAGE_SIZE = 0 -> hi mod NX_PAGE_SIZE = 0 -> spaceBase sp <= lo < hi -> hi <= spaceTop sp ->
  (forall x, x ∈ spaceNodeList sp -> ~ (lo < start x /\ endd x < hi)) ->
  exists sp' err out, NX_VmspaceMap i1 sp lo (hi - lo) attr_user 0 = Some (sp', err, out) /\
    vm_ok sp' /\ heapCurrent sp' = heapCurrent sp /\
    ((err = NX_EOK /\ out = lo /\
      forall b k, covers (spaceNodeList sp') b k <-> (lo <= b < hi /\ k = (attr_user, 0)) \/ covers (spaceNodeList sp) b k) \/
     (err <> NX_EOK /\ forall b k, covers (spaceNodeList sp') b k <-> covers (spaceNodeList sp) b k)).
Proof.
  intros Hvm Hattr Hf1 Hlo Hhi [Hbase Hlt] Htop Henc. pose proof Hvm as [_ (Hb0 & Hb1) (Hal1 & Hal2 & _) _ _ _].
  assert (Hmul : (hi - lo) mod NX_PAGE_SIZE = 0) by (unfold NX_PAGE_SIZE in *; zlia).
  unfold NX_VmspaceMap. destruct (VmspaceMap_at i1 sp lo 0 (hi - lo) attr_user 0 lo) as [-> _]; try (done || lia).
  { by apply attr_ok_nonzero. }
  { unfold chosen, nz. by rewrite (proj2 (Z.eqb_neq lo 0)) by lia. }
  destruct (align_range lo (hi - lo) (spaceBase sp) (spaceTop sp)) as (Hr & _ & _ & _ & _ & Hdown & Hup); try (done || lia).
  specialize (Hdown Hlo). specialize (Hup Hmul).
  destruct (map_at_spec sp i1 lo 0 (hi - lo) attr_user 0 Hvm Hf1 Hattr) as (sp' & err & out & -> & Hvm' & Hlay & Hcase); try (done || lia).
  { rewrite Hdown, Hup. intros (x & Hx & ? & ?). apply (Henc x Hx). lia. }
  rewrite Hdown, Hup in Hcase. exists sp', err, out. split; [done|]. split; [done|]. split; [by rewrite Hlay|].
  destruct Hcase as [(-> & -> & _ & Hc)|[(-> & -> & -> & _)|(-> & -> & Hc)]]; [left|by right|by right].
  split; [done|]. split; [done|]. intros b k. rewrite Hc. by replace (lo + (hi - lo)) with hi by lia.
Qed.

(** Unmapping without memory for the nodes is unmapping with it, or is refused. *)
Lemma split_any mem1 mem2 sp id addr size i1 i2 : (forall i, mem1 = Some i -> i = i1) -> (forall i, mem2 = Some i -> i = i2) ->
  VmspaceSplitNode mem1 mem2 sp id addr size = VmspaceSplitNode (Some i1) (Some i2) sp id addr size \/
  VmspaceSplitNode mem1 mem2 sp id addr size = Some (sp, NX_ENOMEM) \/ VmspaceSplitNode mem1 mem2 sp id addr size = None.
Proof.
  intros H1 H2. unfold VmspaceSplitNode. destruct (get_node sp id) as [node|]; [rewrite !Some_bind|by (right; right)].
  destruct (_ && _); [by left|].
  destruct mem1 as [j1|]; [rewrite (H1 j1 eq_refl)|]; (destruct mem2 as [j2|]; [rewrite (H2 j2 eq_refl)|]); [by left|..];
    destruct (start node =? addr), (u64 (addr + size) =? endd node); cbn; auto.
Qed.

Lemma unmap_any mem1 mem2 sp addr size i1 i2 : (forall i, mem1 = Some i -> i = i1) -> (forall i, mem2 = Some i -> i = i2) ->
  is_Some (NX_VmspaceUnmap (Some i1) (Some i2) sp addr size) ->
  NX_VmspaceUnmap mem1 mem2 sp addr size = NX_VmspaceUnmap (Some i1) (Some i2) sp addr size \/
  NX_VmspaceUnmap mem1 mem2 sp addr size = Some (sp, NX_ENOMEM).
Proof.
  intros H1 H2. unfold NX_VmspaceUnmap. destruct (_ || _); [by left|]. destruct (_ || _); [by left|].
  destruct (VmspaceFindNode _ _ _) as [node|]; [|by left].
  destruct (split_any mem1 mem2 sp (nid node) addr (NX_PAGE_ALIGNUP size) i1 i2 H1 H2) as [->|[->|E]]; [by left|by right|].
  unfold VmspaceSplitNode in E |- *. destruct (get_node sp (nid node)); [|by intros [? ?]]. rewrite Some_bind in E.
  repeat (destruct (_ && _) in E; try done).
Qed.

(** The pages from [lo] to [hi] of the heap are unmapped, or nothing is. *)
Lemma heap_unmaps sp mem1 mem2 lo hi : vm_ok sp -> fresh_node sp mem1 -> fresh_node sp mem2 -> (forall i, mem1 = Some i -> mem2 <> Some i) ->
  lo mod NX_PAGE_SIZE = 0 -> hi mod NX_PAGE_SIZE = 0 -> spaceBase sp <= lo < hi -> hi <= spaceTop sp ->
  ((exists x, x ∈ spaceNodeList sp /\ start x <= lo /\ hi <= endd x) ->
    forall pg, lo <= pg * NX_PAGE_SIZE < hi -> is_Some (translate (mmu sp) pg)) ->
  exists sp' err, NX_VmspaceUnmap mem1 mem2 sp lo (hi - lo) = Some (sp', err) /\ vm_ok sp' /\ heapCurrent sp' = heapCurrent sp /\
    ((err = NX_EOK /\ forall b k, covers (spaceNodeList sp') b k <-> covers (spaceNodeList sp) b k /\ ~ lo <= b < hi) \/
     (err <> NX_EOK /\ sp' = sp)).
Proof.
  intros Hvm Hf1 Hf2 Hne Hlo Hhi [Hbase Hlt] Htop Hpages. pose proof Hvm as [_ (Hb0 & Hb1) (Hal1 & Hal2 & _) _ _ _].
  assert (Hmul : (hi - lo) mod NX_PAGE_SIZE = 0) by (unfold NX_PAGE_SIZE in *; zlia).
  destruct (align_range lo (hi - lo) (spaceBase sp) (spaceTop sp)) as (Hr & _ & _ & _ & _ & Hdown & Hup); try (done || lia).
  specialize (Hdown Hlo). specialize (Hup Hmul). rewrite Hdown, Hup in Hr.
  destruct (two_fresh (nid <$> spaceNodeList sp) mem1 mem2 Hf1 Hf2 Hne) as (i1 & i2 & E1 & E2 & Hi1 & Hi2 & Hi).
  destruct (unmap_spec sp lo (hi - lo) i1 i2 Hvm Hi1 Hi2 Hi Hlo) as [Hun Hno]; try lia.
  rewrite Hup in Hun, Hno. replace (lo + (hi - lo)) with hi in Hun, Hno by lia.
  assert (Hcase : exists sp' err, NX_VmspaceUnmap (Some i1) (Some i2) sp lo (hi - lo) = Some (sp', err) /\ vm_ok sp' /\ heapCurrent sp' = heapCurrent sp /\
    ((err = NX_EOK /\ forall b k, covers (spaceNodeList sp') b k <-> covers (spaceNodeList sp) b k /\ ~ lo <= b < hi) \/ (err <> NX_EOK /\ sp' = sp))).
  { destruct (find_holder (spaceNodeList sp) lo hi) as [Hx|Hx].
    - destruct (Hun Hx) as (sp' & Hrun & Hvm' & Hlay & Hc); [intros pg Hpg%in_pages_bytes; [|done]; apply (Hpages Hx); lia|].
      exists sp', NX_EOK. split; [done|]. split; [done|]. split; [by rewrite Hlay|]. by left.
    - exists sp, NX_EFAULT. split; [by apply Hno|]. split; [done|]. split; [done|]. by right. }
  destruct Hcase as (sp' & err & Hrun & Hrest).
  destruct (unmap_any mem1 mem2 sp lo (hi - lo) i1 i2 E1 E2) as [->| ->]; [rewrite Hrun; by eexists|by exists sp', err|].
  exists sp, NX_ENOMEM. split; [done|]. split; [done|]. split; [done|]. by right.
Qed.

(** What a change of the heap from [oldHeap] to [newHeap] does. *)
Definition heap_outcome sp sp' (virAddr res : Z) (err : NX_Error) (now : Z -> Z * Z -> Prop) : Prop :=
  vm_ok sp' /\
  ((err = NX_EOK /\ res = virAddr /\ heapCurrent sp' = virAddr /\
    forall b k, covers (spaceNodeList sp') b k <-> now b k) \/
   (err <> NX_EOK /\ res = 0 /\ heapCurrent sp' = heapCurrent sp /\
    forall b k, covers (spaceNodeList sp') b k <-> covers (spaceNodeList sp) b k)).
End heap.

(** C8: the heap.  [NX_VmspaceUpdateHeap] of 0 answers the current end; below
    the heap it is [NX_EINVAL], past its limit [NX_ENOMEM], within the last
    page only the end moves; a higher end maps exactly the new whole pages
    with the user attributes, a lower one unmaps exactly the pages given up;
    or the call fails without moving the end or changing a mapping, as it does
    when a page to map is taken, when the pages to give up do not lie in one
    node, and when there is no memory for pages or nodes.
    Two conditions: no node lies strictly between the old and the new end, with
    room on both sides (mapping would not see it, vmspace.c:387, and record
    overlapping nodes, see C6), and pages that are given up are not waiting for
    a delayed mapping. *)
Theorem update_heap_correct {M} `{MmuLaws M} (sp : NX_Vmspace M) attr_user mem1 mem2 virAddr :
  let newHeap := align_up virAddr NX_PAGE_SIZE in
  let oldHeap := align_up (heapCurrent sp) NX_PAGE_SIZE in
  vm_ok sp -> table sp <> 0 -> attr_ok attr_user ->
  fresh_node sp mem1 -> fresh_node sp mem2 -> (forall i, mem1 = Some i -> mem2 <> Some i) ->
  spaceBase sp <= heapStart sp <= heapCurrent sp -> heapEnd sp <= spaceTop sp ->
  heapCurrent sp < heapEnd sp -> 0 <= virAddr ->
  (forall x, x ∈ spaceNodeList sp -> ~ (oldHeap < start x /\ endd x < newHeap)) ->
  (virAddr <> 0 -> newHeap < oldHeap ->
    (exists x, x ∈ spaceNodeList sp /\ start x <= newHeap /\ oldHeap <= endd x) ->
    forall pg, newHeap <= pg * NX_PAGE_SIZE < oldHeap -> is_Some (translate (mmu sp) pg)) ->
  let update a := NX_VmspaceUpdateHeap attr_user mem1 mem2 sp a in
  update 0 = Some (sp, heapCurrent sp, NX_EOK) /\
  (0 < virAddr < heapStart sp -> update virAddr = Some (sp, 0, NX_EINVAL)) /\
  (heapEnd sp <= virAddr -> update virAddr = Some (sp, 0, NX_ENOMEM)) /\
  (heapStart sp <= virAddr < heapEnd sp -> exists sp' res err,
    update virAddr = Some (sp', res, err) /\
    heap_outcome sp sp' virAddr res err (fun b k =>
      (oldHeap <= b < newHeap /\ k = (attr_user, 0)) \/
      (covers (spaceNodeList sp) b k /\ ~ newHeap <= b < oldHeap))).
Proof.
  intros newHeap oldHeap Hvm Htab Hattr Hf1 Hf2 Hne Hh1 Hh2 Hh3 Hv Henc Hshrink update.
  pose proof Hvm as [_ (Hb0 & Hb1) (Hal1 & Hal2 & _) Hok _ _].
  unfold update, NX_VmspaceUpdateHeap, nz. rewrite (proj2 (Z.eqb_neq (table sp) 0)) by done. cbn [negb Z.eqb].
  split; [by destruct sp|].
  destruct (Z.eqb_spec virAddr 0) as [->|Hv0].
  { split_and!; intros; lia. }
  split; [intros; by rewrite (proj2 (Z.ltb_lt _ _)) by lia|].
  split; [intros; rewrite (proj2 (Z.ltb_ge _ _)), Z.geb_leb, (proj2 (Z.leb_le _ _)) by lia; done|].
  intros Hrange. rewrite (proj2 (Z.ltb_ge _ _)), Z.geb_leb, (proj2 (Z.leb_gt _ _)) by lia.
  rewrite !NX_PAGE_ALIGNUP_spec by lia. fold newHeap oldHeap.
  destruct (align_up_spec virAddr NX_PAGE_SIZE) as [Hnew Hnew0]; [done|]. fold newHeap in Hnew, Hnew0.
  destruct (align_up_spec (heapCurrent sp) NX_PAGE_SIZE) as [Hold Hold0]; [done|]. fold oldHeap in Hold, Hold0.
  apply Z.mod_divide in Hnew0, Hold0; [|done..].
  assert (Hbounds : newHeap <= spaceTop sp /\ oldHeap <= spaceTop sp) by (unfold NX_PAGE_SIZE in *; zlia).
  destruct (Z.eqb_spec newHeap oldHeap) as [He|He].
  { eexists _, virAddr, NX_EOK. split; [reflexivity|]. split; [by apply vm_ok_with_heap|]. left.
    split; [done|]. split; [done|]. split; [done|]. intros b k. cbn.
    split; [intros; right; split; [done|lia]|]. intros [[? _]|[? _]]; [lia|done]. }
  destruct (Z.gtb_spec newHeap oldHeap) as [Hgt|Hle].
  - destruct (heap_maps sp attr_user mem1 oldHeap newHeap) as (sp' & err & out & -> & Hvm' & Hcur & Hcase); try (done || lia).
    rewrite Some_bind. destruct Hcase as [(-> & -> & Hc)|(Herr & Hc)].
    + change (negb (is_ok NX_EOK)) with false. rewrite Z.eqb_refl. cbn [negb].
      eexists _, virAddr, NX_EOK. split; [reflexivity|]. split; [by apply vm_ok_with_heap|]. left.
      split; [done|]. split; [done|]. split; [done|]. intros b k. cbn. rewrite Hc.
      split; (intros [?|?]; [by left|right]); [split; [done|lia]|tauto].
    + unfold is_ok. rewrite bool_decide_eq_false_2 by done. cbn [negb]. exists sp', 0, err. split; [done|]. split; [done|]. by right.
  - destruct (heap_unmaps sp mem1 mem2 newHeap oldHeap) as (sp' & err & -> & Hvm' & Hcur & Hcase); try (done || lia).
    { by apply Hshrink; [|lia]. }
    rewrite Some_bind. destruct Hcase as [[-> Hc]|[Herr ->]].
    + change (negb (is_ok NX_EOK)) with false. cbv iota.
      eexists _, virAddr, NX_EOK. split; [reflexivity|]. split; [by apply vm_ok_with_heap|]. left.
      split; [done|]. split; [done|]. split; [done|]. intros b k. cbn. rewrite Hc.
      split; [intros ?; by right|]. intros [[? _]|?]; [lia|done].
    + unfold is_ok. rewrite bool_decide_eq_false_2 by done. cbn [negb]. exists sp, 0, err. split; [done|]. split; [done|]. by right.
Qed.

(** ** Copying *)
Section copying.
Context {M : Type} `{MmuLaws M}.
Implicit Types (sp : NX_Vmspace M) (mem : memory).

Lemma mem_copy_spec n : forall mem dst src a,
  (forall i j, 0 <= i < Z.of_nat n -> 0 <= j < Z.of_nat n -> dst + i <> src + j) ->
  mem_copy n mem dst src a = if decide (dst <= a < dst + Z.of_nat n) then mem (src + (a - dst)) else mem a.
Proof.
  induction n as [|n IH]; intros mem dst src a Hd; cbn [mem_copy].
  - case_decide; [lia|done].
  - rewrite IH. 2:{ intros i j Hi Hj He. apply (Hd (i + 1) (j + 1)); lia. }
    assert (Hs : src + (a - dst) = src + 1 + (a - (dst + 1))) by lia.
    destruct (decide (a = dst)) as [->|Hne].
    + rewrite decide_False, decide_True, Z.eqb_refl by lia. f_equal. lia.
    + repeat case_decide; try lia.
      * rewrite (proj2 (Z.eqb_neq _ _)); [by rewrite Hs|].
        intros He. apply (Hd 0 (a - dst)); lia.
      * by rewrite (proj2 (Z.eqb_neq _ _)).
Qed.

(** The physical address of [a] when page [pg] is in frame [pf pg]. *)
Definition phys (pf : Z -> Z) (a : Z) : Z := pf (a / NX_PAGE_SIZE) * NX_PAGE_SIZE + a mod NX_PAGE_SIZE.

Definition resident sp (pf : Z -> Z) (base size : Z) : Prop :=
  table sp <> 0 /\ mmu_ok (mmu sp) /\ 0 < spaceBase sp <= base /\ base + size <= spaceTop sp /\
  forall a, base <= a < base + size ->
    (exists at_, translate (mmu sp) (a / NX_PAGE_SIZE) = Some (pf (a / NX_PAGE_SIZE), at_)) /\ 0 < pf (a / NX_PAGE_SIZE).

(** One chunk lies in one frame. *)
Lemma phys_chunk pf base i :
  base mod NX_PAGE_SIZE = 0 -> 0 <= i < NX_PAGE_SIZE -> phys pf (base + i) = phys pf base + i.
Proof.
  unfold phys, NX_PAGE_SIZE. intros Hb Hi.
  assert ((base + i) / 4096 = base / 4096) as -> by zlia. zlia.
Qed.

(** [from i] and [to i]: where byte [i] is read and written. *)
Definition copied mem mem' (from to : Z -> Z) (size : Z) : Prop :=
  (forall i, 0 <= i < size -> mem' (to i) = mem (from i)) /\
  forall a, (forall i, 0 <= i < size -> a <> to i) -> mem' a = mem a.

Definition src_of (d : direction) pf base buf (i : Z) : Z :=
  match d with VMSPACE_COPY_IN => buf + i | VMSPACE_COPY_OUT => phys pf (base + i) end.
Definition dst_of (d : direction) pf base buf (i : Z) : Z :=
  match d with VMSPACE_COPY_IN => phys pf (base + i) | VMSPACE_COPY_OUT => buf + i end.

Lemma copy_chunk_spec d mem pf base buf chunk :
  base mod NX_PAGE_SIZE = 0 -> 0 < chunk <= NX_PAGE_SIZE ->
  (forall i j, 0 <= i < chunk -> 0 <= j < chunk -> buf + i <> phys pf (base + j)) ->
  copied mem (copy_chunk d mem (phys pf base) buf chunk) (src_of d pf base buf) (dst_of d pf base buf) chunk.
Proof.
  intros Hb Hc Hd. unfold copy_chunk.
  assert (Hd' : forall i j, 0 <= i < Z.of_nat (Z.to_nat chunk) -> 0 <= j < Z.of_nat (Z.to_nat chunk) ->
      buf + i <> phys pf base + j).
  { intros i j Hi Hj. rewrite <- phys_chunk by (done || lia). apply Hd; lia. }
  destruct d; unfold copied, src_of, dst_of; split.
  - intros i Hi. rewrite phys_chunk, mem_copy_spec by (intros; try done; try lia; by apply not_eq_sym, Hd').
    rewrite decide_True by lia. f_equal. lia.
  - intros a Ha. rewrite mem_copy_spec by (intros; by apply not_eq_sym, Hd'). rewrite decide_False; [done|].
    intros Hr. apply (Ha (a - phys pf base)); [lia|]. rewrite phys_chunk by (done || lia). lia.
  - intros i Hi. rewrite phys_chunk, mem_copy_spec by (intros; try done; try lia; by apply Hd').
    rewrite decide_True by lia. f_equal. lia.
  - intros a Ha. rewrite mem_copy_spec by (intros; by apply Hd'). rewrite decide_False; [done|].
    intros Hr. apply (Ha (a - buf)); lia.
Qed.

Lemma copied_app d mem mem1 mem2 pf base buf c size :
  0 <= c -> 0 <= size ->
  (forall i j, 0 <= i < c + size -> 0 <= j < c + size -> buf + i <> phys pf (base + j)) ->
  (forall i j, 0 <= i < c -> c <= j < c + size -> phys pf (base + i) <> phys pf (base + j)) ->
  copied mem mem1 (src_of d pf base buf) (dst_of d pf base buf) c ->
  copied mem1 mem2 (src_of d pf (base + c) (buf + c)) (dst_of d pf (base + c) (buf + c)) size ->
  copied mem mem2 (src_of d pf base buf) (dst_of d pf base buf) (c + size).
Proof.
  intros Hc Hs Hd Hinj [H1 K1] [H2 K2].
  assert (Hsrc : forall i, src_of d pf (base + c) (buf + c) i = src_of d pf base buf (c + i))
    by (intros; destruct d; cbn; rewrite <- ?Z.add_assoc; done).
  assert (Hdst : forall i, dst_of d pf (base + c) (buf + c) i = dst_of d pf base buf (c + i))
    by (intros; destruct d; cbn; rewrite <- ?Z.add_assoc; done).
  assert (Hfresh : forall i j, 0 <= i < c + size -> 0 <= j < c + size -> src_of d pf base buf i <> dst_of d pf base buf j).
  { intros i j Hi Hj. destruct d; cbn; [by apply Hd|]. by apply not_eq_sym, Hd. }
  split.
  - intros i Hi. destruct (Z.lt_ge_cases i c) as [Hlt|Hge].
    + rewrite K2; [apply H1; lia|]. intros j Hj. rewrite Hdst.
      destruct d; cbn; [apply Hinj; lia|lia].
    + replace i with (c + (i - c)) by lia. rewrite <- Hdst, H2, Hsrc by lia. apply K1.
      intros j Hj. apply Hfresh; lia.
  - intros a Ha. rewrite K2, K1; [done| |].
    + intros i Hi. apply Ha. lia.
    + intros i Hi. rewrite Hdst. apply Ha. lia.
Qed.

Lemma CopyData_loop_spec sp pf d fuel : forall mem base buf size,
  resident sp pf base size -> 0 <= size -> (0 < size -> base mod NX_PAGE_SIZE = 0) ->
  (if decide (size = 0) then 1 else size / NX_PAGE_SIZE + 2) <= Z.of_nat fuel ->
  (forall i j, 0 <= i < size -> 0 <= j < size -> buf + i <> phys pf (base + j)) ->
  (forall i j, 0 <= i < size -> 0 <= j < size -> phys pf (base + i) = phys pf (base + j) -> i = j) ->
  exists mem', CopyData_loop fuel sp mem base buf size d = Some (mem', NX_EOK) /\
    copied mem mem' (src_of d pf base buf) (dst_of d pf base buf) size.
Proof.
  induction fuel as [|fuel IH]; intros mem base buf size Hres Hs Hal Hf Hd Hinj.
  { exfalso. case_decide; [lia|]. unfold NX_PAGE_SIZE in Hf. zlia. }
  cbn [CopyData_loop]. destruct (Z.gtb_spec size 0) as [Hpos|Hz].
  2:{ exists mem. split; [done|]. split; [intros; lia|done]. }
  rewrite decide_False in Hf by lia. specialize (Hal Hpos).
  pose proof Hres as (Htab & Hm & (Hb0 & Hb1) & Htop & Hpg).
  destruct (Hpg base) as [[at_ Htr] Hpf]; [lia|].
  unfold NX_VmspaceVirToPhy, nz. rewrite (proj2 (Z.eqb_neq (table sp) 0)) by done. cbn [negb].
  rewrite (proj2 (Z.ltb_ge base _)), Z.geb_leb, (proj2 (Z.leb_gt _ base)) by lia. cbn [orb].
  rewrite (vir2Phy_law (mmu sp) base _ at_) by (done || lia). rewrite Some_bind.
  change (pf (base / NX_PAGE_SIZE) * NX_PAGE_SIZE + base mod NX_PAGE_SIZE) with (phys pf base).
  assert (0 < phys pf base) by (unfold phys, NX_PAGE_SIZE in *; zlia).
  rewrite (proj2 (Z.eqb_neq _ 0)) by lia. unfold NX_Phy2Virt.
  set (chunk := if size <? NX_PAGE_SIZE then size else NX_PAGE_SIZE).
  assert (Hchunk : 0 < chunk <= NX_PAGE_SIZE /\ chunk <= size /\ (chunk = size \/ chunk = NX_PAGE_SIZE)).
  { unfold chunk, NX_PAGE_SIZE. destruct (Z.ltb_spec size 4096); lia. }
  destruct Hchunk as (Hc1 & Hc2 & Hc3).
  pose proof (copy_chunk_spec d mem pf base buf chunk Hal Hc1) as Hcopy. set (mem1 := copy_chunk _ _ _ _ _) in *.
  destruct (IH mem1 (base + chunk) (buf + chunk) (size - chunk)) as (mem2 & Hrun & Hcopy2).
  - split; [done|]. split; [done|]. split; [lia|]. split; [lia|]. intros a Ha. apply Hpg. lia.
  - lia.
  - intros Hrem. destruct Hc3 as [|Hc3]; [lia|]. rewrite Hc3. unfold NX_PAGE_SIZE in *. zlia.
  - case_decide; unfold NX_PAGE_SIZE in *; zlia.
  - intros i j Hi Hj. rewrite <- !Z.add_assoc. apply Hd; lia.
  - intros i j Hi Hj. rewrite <- !Z.add_assoc. intros He. apply Hinj in He; lia.
  - exists mem2. split; [exact Hrun|]. replace size with (chunk + (size - chunk)) by lia.
    apply (copied_app d mem mem1 mem2 pf base buf chunk (size - chunk)); try lia.
    + intros i j Hi Hj. apply Hd; lia.
    + intros i j Hi Hj He. apply Hinj in He; lia.
    + apply Hcopy. intros i j Hi Hj. apply Hd; lia.
    + done.
Qed.
End copying.

(** Reading and writing a space.  From a page-aligned address whose pages
    are resident in distinct frames, [NX_VmspaceRead] fills the buffer with
    the bytes of the space and [NX_VmspaceWrite] stores the buffer there, page
    by page, and both change no other byte of memory. *)
Theorem vmspace_copy_correct {M} `{MmuLaws M} (sp : NX_Vmspace M) pf (mem : memory) base buf size :
  resident sp pf base size -> base mod NX_PAGE_SIZE = 0 -> 0 < size -> buf <> 0 ->
  (forall i j, 0 <= i < size -> 0 <= j < size -> buf + i <> phys pf (base + j)) ->
  (forall i j, 0 <= i < size -> 0 <= j < size -> phys pf (base + i) = phys pf (base + j) -> i = j) ->
  (exists mem', NX_VmspaceRead sp mem base buf size = Some (mem', NX_EOK) /\
    copied mem mem' (fun i => phys pf (base + i)) (fun i => buf + i) size) /\
  (exists mem', NX_VmspaceWrite sp mem base buf size = Some (mem', NX_EOK) /\
    copied mem mem' (fun i => buf + i) (fun i => phys pf (base + i)) size).
Proof.
  intros Hres Hal Hs Hbuf Hd Hinj. pose proof Hres as (_ & _ & (? & ?) & _).
  unfold NX_VmspaceRead, NX_VmspaceWrite, NX_VmspaceCopyData, nz.
  rewrite (proj2 (Z.eqb_neq base 0)), (proj2 (Z.eqb_neq buf 0)), (proj2 (Z.eqb_neq size 0)) by lia.
  cbn [negb orb andb]. rewrite !assert_true.
  split; [destruct (CopyData_loop_spec sp pf VMSPACE_COPY_OUT (Z.to_nat (size / NX_PAGE_SIZE) + 2) mem base buf size)
      as (mem' & ? & ?)|destruct (CopyData_loop_spec sp pf VMSPACE_COPY_IN (Z.to_nat (size / NX_PAGE_SIZE) + 2) mem base buf size)
      as (mem' & ? & ?)]; try done; try lia; try (by exists mem').
  all: rewrite decide_False by lia; unfold NX_PAGE_SIZE; zlia.
Qed.

(** ** Mapping fresh pages for the user *)
Section user.
Context {M : Type} `{MmuFresh M}.
Context (attr_user : Z) (node_alloc : list NX_Vmnode -> option Z).
Context (Hattr : attr_ok attr_user) (Halloc : forall l id, node_alloc l = Some id -> id ∉ nid <$> l).
Implicit Types (sp : NX_Vmspace M).

(** A space in which every mapped page has a frame of its own. *)
Definition space_ok sp : Prop := vm_ok sp /\ mmu_fresh (mmu sp).

(** Nothing is mapped in the [z] bytes from [v]. *)
Definition free_range sp (v z : Z) : Prop := forall b k, covers (spaceNodeList sp) b k -> ~ v <= b < v + z.

Lemma free_nodes sp v z : vm_ok sp -> 0 < z -> free_range sp v z ->
  forall x, x ∈ spaceNodeList sp -> endd x <= v \/ v + z <= start x.
Proof.
  intros Hvm Hz Hun x Hx. destruct (nodes_ok_lt _ _ _ x (vm_nodes sp Hvm) Hx) as (? & _).
  destruct (decide (endd x <= v)); [by left|]. destruct (decide (v + z <= start x)); [by right|]. exfalso.
  apply (Hun (Z.max v (start x)) (attr x, flags x)); [exists x; split; [done|]; split; [lia|done]|]. lia.
Qed.

Lemma map_user sp v z :
  space_ok sp -> 0 < z -> v mod NX_PAGE_SIZE = 0 -> spaceBase sp <= v -> v + z <= spaceTop sp ->
  free_range sp v (NX_PAGE_ALIGNUP z) ->
  exists sp' err out, NX_VmspaceMap (node_alloc (spaceNodeList sp)) sp v z attr_user 0 = Some (sp', err, out) /\
    space_ok sp' /\ same_layout sp sp' /\
    ((err = NX_EOK /\ out = v /\ forall b k, covers (spaceNodeList sp') b k <->
        (v <= b < v + NX_PAGE_ALIGNUP z /\ k = (attr_user, 0)) \/ covers (spaceNodeList sp) b k) \/
     (is_ok err = false /\ out = 0 /\ forall b k, covers (spaceNodeList sp') b k <-> covers (spaceNodeList sp) b k)).
Proof.
  intros [Hvm Hfr] Hz Hpg Hlo Hhi Hun. pose proof Hvm as [(Hm & Hlo' & Hhi') (Hb0 & Hb1) (Hal1 & Hal2 & _) Hok _ Honly].
  destruct (align_range v z (spaceBase sp) (spaceTop sp)) as (Hr & Hv1 & _ & Hz1 & Hvz & Hv & _); try (done || lia).
  specialize (Hv Hpg). rewrite Hv in *.
  unfold NX_VmspaceMap. destruct (VmspaceMap_at (node_alloc (spaceNodeList sp)) sp v 0 z attr_user 0 v) as [-> _];
    try done; try lia; [by apply attr_ok_nonzero|unfold chosen, nz; by rewrite (proj2 (Z.eqb_neq v 0)) by lia|].
  pose proof (free_nodes sp v (NX_PAGE_ALIGNUP z) Hvm ltac:(lia) Hun) as Hfree.
  assert (Hrange : vir_range vir_lo vir_hi v (NX_PAGE_ALIGNUP z)) by (split; [done|lia]).
  assert (Hnone : forall pg, in_pages v (NX_PAGE_ALIGNUP z) pg -> translate (mmu sp) pg = None).
  { intros pg Hpgs. destruct (translate (mmu sp) pg) eqn:E; [|done]. apply in_pages_bytes in Hpgs; [|done].
    destruct (Honly pg ltac:(by rewrite E)) as [k Hk]. by destruct (Hun _ _ Hk). }
  assert (Hfresh : forall sp' err out, map_at (node_alloc (spaceNodeList sp)) sp v 0 z attr_user 0 = Some (sp', err, out) -> mmu_fresh (mmu sp')).
  { intros sp' err out [->|[r Hmap]]%map_at_mmu; [done|]. rewrite Hv in Hmap. by eapply (mapPage_fresh (mmu sp)). }
  destruct (node_alloc (spaceNodeList sp)) as [id|] eqn:Ealloc.
  - destruct (map_at_spec sp (Some id) v 0 z attr_user 0) as (sp' & err & out & Hrun & Hvm' & Hlay & Hcase); try (done || lia).
    { intros i [= <-]. by apply Halloc. }
    { rewrite Hv. intros (x & Hx & Hx1 & Hx2). destruct (nodes_ok_lt _ _ _ x Hok Hx) as (? & _). specialize (Hfree x Hx). lia. }
    exists sp', err, out. split; [done|]. split; [split; [done|by eapply Hfresh]|]. split; [done|]. rewrite Hv in Hcase.
    destruct Hcase as [(-> & -> & _ & Hcov)|[(-> & -> & _ & b & k & Hb & Hbk)|(-> & -> & Hcov)]]; [by left|by destruct (Hun b k Hbk)|by right].
  - unfold map_at in Hfresh |- *. rewrite Hv in *. cbv zeta in *. cbn [VmnodeCreate mbind option_bind] in *.
    exists sp. destruct (VmspaceCheckAddrCollisions _ _ _); eexists _, 0; (split; [reflexivity|]);
      (split; [done|]); (split; [apply same_layout_refl|]); by right.
Qed.
End user.

(** ** Instances on a concrete space *)

(** The layout of the x86 port, three pages mapped at the start of the map area. *)
Definition example_node : NX_Vmnode := mkNode 1 0xA0000000 0xA0003000 7 0 true.
Definition example_flat : flat :=
  mkFlat (list_to_map [(0xA0000, (50, 7)); (0xA0001, (51, 7)); (0xA0002, (52, 7))]) (seqZ 100 20).
Definition example_space : NX_Vmspace flat :=
  mkSpace example_flat 0x1000 [example_node] 0x40000000 0xFFFFF000 0x40000000 0x80000000 0x80000000 0xA0000000
    0x80000000 0xA0000000 0xC0000000 0xC0000000 0xFFFFF000 0xFFFFF000.

Lemma example_pages pg :
  0xA0000000 <= pg * NX_PAGE_SIZE < 0xA0003000 -> pg = 0xA0000 \/ pg = 0xA0001 \/ pg = 0xA0002.
Proof. unfold NX_PAGE_SIZE. lia. Qed.

Lemma example_translate pg :
  is_Some (translate example_flat pg) -> 0xA0000000 <= pg * NX_PAGE_SIZE < 0xA0003000.
Proof.
  intros [f Hf]. cbn [translate flat_ops ptes example_flat] in Hf. unfold NX_PAGE_SIZE.
  apply elem_of_list_to_map_2 in Hf.
  repeat (apply elem_of_cons in Hf as [[= -> ->]|Hf]; [lia|]). by apply elem_of_nil in Hf.
Qed.

Lemma example_vm_ok : vm_ok example_space.
Proof.
  split.
  - cbn. lia.
  - cbn. lia.
  - cbn. split_and!; (reflexivity || lia).
  - split.
    + cbn. constructor; [apply not_elem_of_nil|constructor].
    + constructor; [|constructor]. unfold node_ok. cbn. split_and!; (reflexivity || lia).
    + constructor; constructor.
  - intros pg at_ fl (x & [->|Hx%elem_of_nil]%elem_of_cons & Hb & [= -> ->]) _; [|done].
    cbn in Hb. destruct (example_pages pg Hb) as [->|[->| ->]]; eexists; reflexivity.
  - intros pg Hpg%example_translate. exists (7, 0), example_node.
    split; [left|]. split; [exact Hpg|reflexivity].
Qed.

Lemma example_ids i : i <> 1 -> i ∉ nid <$> spaceNodeList example_space.
Proof. cbn. intros Hi [|?%elem_of_nil]%elem_of_cons; done. Qed.

Lemma vmspace_map_correct_witness :
  exists sp' err out, __VmspaceMap (Some 2) example_space 0 0 0x1234 7 0 = Some (sp', err, out) /\
    map_outcome example_space sp' err out 0xA0003000 0x2000 7 0.
Proof.
  apply (vmspace_map_correct example_space (Some 2) 0 0 0x1234 7 0 0xA0003000).
  - exact example_vm_ok.
  - intros i [= <-]. by apply example_ids.
  - lia.
  - cbn. lia.
  - discriminate.
  - intros []; reflexivity.
  - reflexivity.
  - cbn. lia.
  - lia.
  - intros (x & [->|Hx%elem_of_nil]%elem_of_cons & H1 & _); [|done]. vm_compute in H1. discriminate.
Defined.

Lemma map_area_first_fit_witness :
  exists a, GetAddrFromMapArea example_space 0x2000 = Some (Some a) /\ a = 0xA0003000 /\ ~ hit example_space 0x2000 a.
Proof.
  destruct (map_area_first_fit example_space 0x2000 example_vm_ok ltac:(lia)) as (r & Hr & Hspec).
  assert (r = Some 0xA0003000) as -> by (vm_compute in Hr; congruence).
  exists 0xA0003000. split; [exact Hr|]. split; [reflexivity|]. apply Hspec.
Defined.

Lemma vmspace_unmap_correct_witness :
  exists sp', NX_VmspaceUnmap (Some 2) (Some 3) example_space 0xA0001000 0x800 = Some (sp', NX_EOK) /\
    forall b k, covers (spaceNodeList sp') b k <->
      covers (spaceNodeList example_space) b k /\ ~ 0xA0001000 <= b < 0xA0002000.
Proof.
  destruct (vmspace_unmap_correct example_space 0xA0001000 0x800 2 3) as [H _].
  - exact example_vm_ok.
  - by apply example_ids.
  - by apply example_ids.
  - lia.
  - reflexivity.
  - cbn. lia.
  - lia.
  - cbn. lia.
  - destruct H as (sp' & Hrun & _ & _ & Hc).
    + exists example_node. split; [left|]. vm_compute. split; discriminate.
    + intros pg [H1 H2]. change (0xA0001000 / NX_PAGE_SIZE) with 0xA0001 in H1.
      change ((0xA0001000 + NX_PAGE_ALIGNUP 0x800) / NX_PAGE_SIZE) with 0xA0002 in H2.
      assert (pg = 0xA0001) as -> by lia. eexists. reflexivity.
    + exists sp'. split; [exact Hrun|]. exact Hc.
Defined.

Lemma update_heap_correct_witness :
  exists sp' res err, NX_VmspaceUpdateHeap 7 (Some 2) (Some 3) example_space 0x80001234 = Some (sp', res, err) /\
    vm_ok sp'.
Proof.
  destruct (update_heap_correct example_space 7 (Some 2) (Some 3) 0x80001234) as (_ & _ & _ & H); try (cbn; lia).
  - exact example_vm_ok.
  - intros i [= <-]. by apply example_ids.
  - intros i [= <-]. by apply example_ids.
  - intros i [= <-]. discriminate.
  - intros x [->|Hx%elem_of_nil]%elem_of_cons [_ H2]; [|done]. vm_compute in H2. discriminate.
  - intros _ H2. vm_compute in H2. discriminate.
  - destruct H as (sp' & res & err & Hrun & Hvm & _); [cbn; lia|]. exists sp', res, err. split; [exact Hrun|exact Hvm].
Defined.

Lemma vmspace_copy_correct_witness :
  exists mem', NX_VmspaceRead example_space (fun a => a mod 251) 0xA0001000 0x7000000 0x1800 = Some (mem', NX_EOK) /\
    mem' 0x7001004 = (52 * 4096 + 4) mod 251.
Proof.
  set (pf := fun pg => if pg =? 0xA0000 then 50 else if pg =? 0xA0001 then 51 else 52).
  assert (Hphys : forall i, 0 <= i < 0x1800 -> phys pf (0xA0001000 + i) = 51 * 4096 + i).
  { intros i Hi. unfold phys, NX_PAGE_SIZE. pose proof (Z.div_mod (0xA0001000 + i) 4096 ltac:(lia)).
    pose proof (Z.mod_pos_bound (0xA0001000 + i) 4096 ltac:(lia)).
    assert (Hq : (0xA0001000 + i) / 4096 = 0xA0001 \/ (0xA0001000 + i) / 4096 = 0xA0002) by lia.
    destruct Hq as [Hq|Hq]; rewrite Hq in *; cbn [pf Z.eqb Pos.eqb]; lia. }
  destruct (vmspace_copy_correct example_space pf (fun a => a mod 251) 0xA0001000 0x7000000 0x1800) as [[mem' [Hrun Hc]] _].
  - split; [discriminate|]. split; [exact I|]. split; [cbn; lia|]. split; [cbn; lia|]. intros a Ha.
    assert (a / NX_PAGE_SIZE = 0xA0001 \/ a / NX_PAGE_SIZE = 0xA0002) as [-> | ->] by (unfold NX_PAGE_SIZE; zlia);
      (split; [eexists; reflexivity|reflexivity]).
  - reflexivity.
  - lia.
  - lia.
  - intros i j Hi Hj. rewrite Hphys by done. lia.
  - intros i j Hi Hj. rewrite !Hphys by done. lia.
  - exists mem'. split; [exact Hrun|]. destruct Hc as [Hc _].
    replace 0x7001004 with (0x7000000 + 0x1004) by lia. rewrite Hc, Hphys by lia. reflexivity.
Defined.

(** ** Where the code falls short *)

(** A request that strictly encloses a node passes the collision test: mapped
    on demand, it leaves overlapping nodes. *)
Example enclosing_map_overlaps :
  VmspaceCheckAddrCollisions example_space 0x9FFFF000 0x5000 = false /\
  exists sp', __VmspaceMap (Some 2) example_space 0x9FFFF000 0 0x5000 7 1 = Some (sp', NX_EOK, 0x9FFFF000) /\
    covers (spaceNodeList sp') 0xA0001000 (7, 0) /\ covers (spaceNodeList sp') 0xA0001000 (7, 1).
Proof.
  split; [reflexivity|]. eexists. split; [vm_compute; reflexivity|]. split.
  - exists example_node. split; [right; left|]. split; [|reflexivity]. vm_compute. split; [discriminate|reflexivity].
  - eexists. split; [left|]. split; [|reflexivity]. vm_compute. split; [discriminate|reflexivity].
Qed.

(** The end of the map area is not tested after its last node: a request as
    large as the whole area is granted over the stack. *)
Example map_area_has_no_end :
  GetAddrFromMapArea example_space 0x20000000 = Some (Some 0xA0003000) /\
  mapEnd example_space < 0xA0003000 + 0x20000000.
Proof. vm_compute. done. Qed.

(** Off a page boundary a chunk runs over the end of its frame: the byte read
    for the next page comes from the next frame of physical memory. *)
Example copy_crosses_frames :
  let sp := with_mmu example_space (mkFlat (list_to_map [(0xA0000, (50, 7)); (0xA0001, (90, 7))]) []) in
  exists mem', NX_VmspaceRead sp (fun a => a) 0xA0000FFF 0x7000000 2 = Some (mem', NX_EOK) /\
    mem' 0x7000001 = 51 * 4096 /\ vir2Phy (mmu sp) 0xA0001000 = Some (90 * 4096).
Proof. eexists. split; [reflexivity|]. vm_compute. done. Qed.
