(* ===== verification/Hub.v ===== *)
(** Calls between processes: [ipc/hub/hub.c] and [include/base/hub.h].

    A server thread owns a hub; a client that calls it picks a channel of the hub,
    writes its parameters there and waits on the channel's semaphore; the server
    polls for an active channel and returns a value through it.  The functions of
    the server run as one step each, a call of a client is the sequence of its
    steps between the locks and the semaphore, so that any number of clients
    interleave.  A semaphore is its value: waiting takes a token or does not go on
    (Tokens.v).  The memory a client passes is mapped into the address space of
    the server page by page (Vmspace.v). *)
From S2P Require Import Prelude Bits Mmu Vmspace.
#[local] Coercion Z.of_nat : nat >-> Z.

(** ** [include/base/hub.h] *)
Definition NX_HUB_IDLE_TIME : Z := 10.
Definition NX_HUB_NAME_LEN : Z := 32.
Definition NX_HUB_PARAM_NR : Z := 8.
Definition NX_HUB_CLIENTS_MAX : Z := 2 ^ 64 - 1.
Definition NX_HUB_MDL_LEN_MAX : Z := 32 * 2 ^ 20.

Record NX_HubParam := mkParam { api : Z; args : list Z }.

Inductive NX_HubChannelState := NX_HUB_CHANNEL_IDLE | NX_HUB_CHANNEL_READY | NX_HUB_CHANNEL_ACTIVE | NX_HUB_CHANNEL_HANDLED.

#[export] Instance NX_HubChannelState_eq_dec : EqDecision NX_HubChannelState.
Proof. solve_decision. Defined.

(** [vmspace] names the process whose space it is. *)
Record NX_HubMdl := mkMdl { startAddr : Z; mappedAddr : Z; byteOffset : Z; byteCount : Z; vmspace : Z }.

Record NX_HubChannel := mkChannel {
  mdlListHead : list NX_HubMdl;
  state : NX_HubChannelState;
  sourceThread : Z;
  targetThread : Z;
  retVal : Z;
  retErr : NX_Error;
  hub : Z;
  syncSem : Z;
  param : NX_HubParam
}.

Record NX_Hub := mkHub { channelListHead : list Z; name : list Z; maxClient : Z; totalChannels : Z; idleTime : Z }.

(** The part of a thread the hubs use. *)
Record Resource := mkRes { rhub : Z; activeChannel : Z; process : Z }.

Definition set_list l (h : NX_Hub) : NX_Hub := mkHub l (name h) (maxClient h) (totalChannels h) (idleTime h).
Definition set_total n (h : NX_Hub) : NX_Hub := mkHub (channelListHead h) (name h) (maxClient h) n (idleTime h).
Definition set_idle i (h : NX_Hub) : NX_Hub := mkHub (channelListHead h) (name h) (maxClient h) (totalChannels h) i.

Definition set_state x (c : NX_HubChannel) : NX_HubChannel :=
  mkChannel (mdlListHead c) x (sourceThread c) (targetThread c) (retVal c) (retErr c) (hub c) (syncSem c) (param c).
Definition set_threads a b (c : NX_HubChannel) : NX_HubChannel :=
  mkChannel (mdlListHead c) (state c) a b (retVal c) (retErr c) (hub c) (syncSem c) (param c).
Definition set_ret v e (c : NX_HubChannel) : NX_HubChannel :=
  mkChannel (mdlListHead c) (state c) (sourceThread c) (targetThread c) v e (hub c) (syncSem c) (param c).
Definition set_sem v (c : NX_HubChannel) : NX_HubChannel :=
  mkChannel (mdlListHead c) (state c) (sourceThread c) (targetThread c) (retVal c) (retErr c) (hub c) v (param c).
Definition set_param p (c : NX_HubChannel) : NX_HubChannel :=
  mkChannel (mdlListHead c) (state c) (sourceThread c) (targetThread c) (retVal c) (retErr c) (hub c) (syncSem c) p.
Definition set_mdls l (c : NX_HubChannel) : NX_HubChannel :=
  mkChannel l (state c) (sourceThread c) (targetThread c) (retVal c) (retErr c) (hub c) (syncSem c) (param c).

Section hub.
Context {M : Type} `{MmuOps M} (NX_PAGE_ATTR_USER : Z).

(** [hubSystemListHead] with the objects behind the pointers; [heap] holds the
    answers of the allocator, [clock] the milliseconds since the start. *)
Record Hubs := mkHubs {
  hubSystemListHead : list Z;
  hubs : gmap Z NX_Hub;
  channels : gmap Z NX_HubChannel;
  threads : gmap Z Resource;
  spaces : gmap Z (NX_Vmspace M);
  heap : list Z;
  clock : Z
}.
Implicit Types s : Hubs.

Definition with_hubs s l h : Hubs := mkHubs l h (channels s) (threads s) (spaces s) (heap s) (clock s).
Definition with_channels s c : Hubs := mkHubs (hubSystemListHead s) (hubs s) c (threads s) (spaces s) (heap s) (clock s).
Definition with_threads s t : Hubs := mkHubs (hubSystemListHead s) (hubs s) (channels s) t (spaces s) (heap s) (clock s).
Definition with_spaces s sp : Hubs := mkHubs (hubSystemListHead s) (hubs s) (channels s) (threads s) sp (heap s) (clock s).
Definition with_heap s l : Hubs := mkHubs (hubSystemListHead s) (hubs s) (channels s) (threads s) (spaces s) l (clock s).

Definition upd_hub s (h : Z) (f : NX_Hub -> NX_Hub) : option Hubs :=
  x ← hubs s !! h; Some (with_hubs s (hubSystemListHead s) (<[h := f x]> (hubs s))).
Definition upd_channel s (c : Z) (f : NX_HubChannel -> NX_HubChannel) : option Hubs :=
  x ← channels s !! c; Some (with_channels s (<[c := f x]> (channels s))).
Definition upd_thread s (t : Z) (f : Resource -> Resource) : option Hubs :=
  x ← threads s !! t; Some (with_threads s (<[t := f x]> (threads s))).

Definition NX_MemAlloc s : Hubs * Z :=
  match heap s with [] => (s, 0) | a :: l => (with_heap s l, a) end.

(** ** Channels

    The fields [HubChannelInit] leaves as they are in the allocated memory are
    written before they are read; here they start as 0. *)
Definition HubChannelInit (h : Z) : NX_HubChannel :=
  mkChannel [] NX_HUB_CHANNEL_IDLE 0 0 0 NX_EOK h 0 (mkParam 0 (replicate 8 0)).

Definition CreateChannel s (h : Z) : Hubs * Z :=
  let '(s, c) := NX_MemAlloc s in
  if c =? 0 then (s, 0) else (with_channels s (<[c := HubChannelInit h]> (channels s)), c).

Definition DestroyChannel s (c : Z) : option (Hubs * NX_Error) :=
  x ← channels s !! c;
  if hub x =? 0 then Some (s, NX_EFAULT) else Some (with_channels s (delete c (channels s)), NX_EOK).

Definition HubAddChannel s (h c : Z) : option Hubs :=
  s ← upd_hub s h (fun x => set_total (i64 (totalChannels x + 1)) (set_list (c :: channelListHead x) x));
  upd_channel s c (set_state NX_HUB_CHANNEL_IDLE).

Definition HubDelChannelLocked s (h c : Z) : option Hubs :=
  upd_hub s h (fun x => set_total (i64 (totalChannels x - 1)) (set_list (list_del c (channelListHead x)) x)).

(** The first channel of the list in a state; [None] for the null pointer. *)
Definition find_state s (h : Z) (st : NX_HubChannelState) : option (option Z) :=
  x ← hubs s !! h;
  l ← mapM (fun c => y ← channels s !! c; Some (c, state y)) (channelListHead x);
  Some ((fun r => r.2.1) <$> list_find (fun y : Z * NX_HubChannelState => y.2 = st) l).

Definition HubPickChannel s (h : Z) : option (Hubs * Z) :=
  r ← find_state s h NX_HUB_CHANNEL_IDLE;
  match r with
  | Some c => s ← upd_channel s c (set_state NX_HUB_CHANNEL_READY); Some (s, c)
  | None => Some (s, 0)
  end.

Definition PutFreeChannel s (c : Z) : option Hubs := upd_channel s c (fun x => set_threads 0 0 (set_state NX_HUB_CHANNEL_IDLE x)).

(** ** Registering *)

(** [NX_StrCopy] writes the name and its end into 32 bytes. *)
Definition HubInit (nm : list Z) (maxClient : Z) : option NX_Hub :=
  assert (length nm <? NX_HUB_NAME_LEN);; Some (mkHub [] nm maxClient 0 0).

Definition CreateHub s (nm : list Z) (maxClient : Z) : option (Hubs * Z) :=
  let '(s, h) := NX_MemAlloc s in
  if h =? 0 then Some (s, 0)
  else x ← HubInit nm maxClient; Some (with_hubs s (hubSystemListHead s) (<[h := x]> (hubs s)), h).

(** [NX_StrCmpN] over 32 characters. *)
Fixpoint SearchHub_loop s (l : list Z) (nm : list Z) : option Z :=
  match l with
  | [] => Some 0
  | h :: l => x ← hubs s !! h; if bool_decide (take 32 (name x) = take 32 nm) then Some h else SearchHub_loop s l nm
  end.
Definition SearchHub s (nm : list Z) : option Z := SearchHub_loop s (hubSystemListHead s) nm.

(** [self] is the calling thread; the second component is what [outHub] receives. *)
Definition NX_HubRegister s (self : Z) (nm : option (list Z)) (maxClient : Z) : option (Hubs * Z * NX_Error) :=
  match nm with
  | None => Some (s, 0, NX_EINVAL)
  | Some nm =>
      let maxClient := if maxClient =? 0 then NX_HUB_CLIENTS_MAX else maxClient in
      h ← SearchHub s nm;
      if nz h then Some (s, 0, NX_EBUSY)
      else
        '(s, h) ← CreateHub s nm maxClient;
        if h =? 0 then Some (s, 0, NX_ENOMEM)
        else
          let s := with_hubs s (h :: hubSystemListHead s) (hubs s) in
          s ← upd_thread s self (fun r => mkRes h (activeChannel r) (process r));
          Some (s, h, NX_EOK)
  end.

Definition NX_HubUnregister s (self : Z) (nm : option (list Z)) : option (Hubs * NX_Error) :=
  match nm with
  | None => Some (s, NX_EINVAL)
  | Some nm =>
      h ← SearchHub s nm;
      if h =? 0 then Some (s, NX_ENOSRCH)
      else
        r ← threads s !! self;
        if negb (rhub r =? h) then Some (s, NX_ENORES)
        else
          x ← hubs s !! h;
          if totalChannels x >? 0 then Some (s, NX_EBUSY)
          else
            s ← upd_thread s self (fun r => mkRes 0 (activeChannel r) (process r));
            Some (with_hubs s (list_del h (hubSystemListHead s)) (delete h (hubs s)), NX_EOK)
  end.

(** ** A call, step by step *)
Inductive phase :=
  | Picking                     (* [GetFreeChannel]: [HubPickChannel] *)
  | Adding                      (* its test of [totalChannels] and [CreateChannel] *)
  | Linking (c : Z)             (* [HubAddChannel] *)
  | Repicking                   (* the second [HubPickChannel] *)
  | Sourcing (c : Z)            (* [channel->sourceThread = source] *)
  | Copying (c : Z)             (* [HubMigrateToServer]: the parameters *)
  | Activating (c : Z)          (* the state *)
  | Waiting (c : Z)             (* the semaphore *)
  | Reading (c : Z)             (* the results *)
  | Putting (c v : Z) (e : NX_Error)   (* [PutFreeChannel] *)
  | Done (v : option Z) (e : NX_Error).

(** [GetFreeChannel]; a second pick without a channel writes through null. *)
Definition GetFreeChannel s (self h : Z) (ph : phase) : option (Hubs * phase) :=
  match ph with
  | Picking => '(s, c) ← HubPickChannel s h; Some (s, if c =? 0 then Adding else Sourcing c)
  | Adding =>
      x ← hubs s !! h;
      if u64 (totalChannels x) <? maxClient x then
        let '(s, c) := CreateChannel s h in Some (s, if c =? 0 then Done None NX_EAGAIN else Linking c)
      else Some (s, Done None NX_EAGAIN)
  | Linking c => s ← HubAddChannel s h c; Some (s, Repicking)
  | Repicking => '(s, c) ← HubPickChannel s h; assert (nz c);; Some (s, Sourcing c)
  | Sourcing c => x ← channels s !! c; s ← upd_channel s c (set_threads self (targetThread x)); Some (s, Copying c)
  | _ => None
  end.

Definition HubMigrateToServer s (p : NX_HubParam) (ph : phase) : option (Hubs * phase) :=
  match ph with
  | Copying c => s ← upd_channel s c (set_param p); Some (s, Activating c)
  | Activating c => s ← upd_channel s c (set_state NX_HUB_CHANNEL_ACTIVE); Some (s, Waiting c)
  | Waiting c =>
      x ← channels s !! c;
      if syncSem x >? 0 then s ← upd_channel s c (set_sem (syncSem x - 1)); Some (s, Reading c) else Some (s, ph)
  | _ => None
  end.

(** [NX_HubCallParam]: its start, and the next step of a call with parameters
    [p] to hub [h]. *)
Definition start_call (h : Z) (p : option NX_HubParam) : phase + NX_Error :=
  match p with Some _ => if h =? 0 then inr NX_EINVAL else inl Picking | None => inr NX_EINVAL end.

Definition NX_HubCallParam s (self h : Z) (p : NX_HubParam) (ph : phase) : option (Hubs * phase) :=
  match ph with
  | Picking | Adding | Linking _ | Repicking | Sourcing _ => GetFreeChannel s self h ph
  | Copying _ | Activating _ | Waiting _ => HubMigrateToServer s p ph
  | Reading c => x ← channels s !! c; Some (s, Putting c (retVal x) (retErr x))
  | Putting c v e => s ← PutFreeChannel s c; Some (s, Done (Some v) e)
  | Done _ _ => Some (s, ph)
  end.

Definition NX_HubCallParamName s (nm : list Z) (p : option NX_HubParam) : option (Z * (phase + NX_Error)) :=
  h ← SearchHub s nm;
  if h =? 0 then Some (0, inr NX_ENOSRCH) else Some (h, start_call h p).

(** ** Memory of the client in the space of the server *)
Definition CreateMdl s (c addr len space : Z) : option (Hubs * option NX_HubMdl) :=
  let '(s, a) := NX_MemAlloc s in
  if a =? 0 then Some (s, None)
  else
    let start := Z.land addr (not64 NX_PAGE_MASK) in
    let mdl := mkMdl start 0 (addr - start) (if len >? NX_HUB_MDL_LEN_MAX then NX_HUB_MDL_LEN_MAX else len) space in
    s ← upd_channel s c (fun x => set_mdls (mdl :: mdlListHead x) x);
    Some (s, Some mdl).

Definition mdl_pages (mdl : NX_HubMdl) : Z := NX_DIV_ROUND_UP (byteOffset mdl + byteCount mdl) NX_PAGE_SIZE.

(** Every page of the buffer is in the source space. *)
Fixpoint Map_check (source : NX_Vmspace M) (pages : nat) (virAddr : Z) : option bool :=
  match pages with
  | O => Some true
  | S pages =>
      phyAddr ← NX_VmspaceVirToPhy source virAddr;
      if phyAddr =? 0 then Some false else Map_check source pages (virAddr + NX_PAGE_SIZE)
  end.

(** The node of each mapping comes from the heap; unmapping may split one. *)
Definition unmap s (p addr size : Z) : option (Hubs * NX_Error) :=
  sp ← spaces s !! p;
  let '(s, a) := NX_MemAlloc s in
  let '(s, b) := NX_MemAlloc s in
  '(sp, err) ← NX_VmspaceUnmap (if a =? 0 then None else Some a) (if b =? 0 then None else Some b) sp addr size;
  Some (with_spaces s (<[p := sp]> (spaces s)), err).

(** [mapped] is [mdl->mappedAddr] so far, the answer its last value or null. *)
Fixpoint Map_loop s (source target : Z) (startAddr : Z) (pages : nat) (virAddr mapped pageCountMapped : Z) : option (Hubs * Z) :=
  match pages with
  | O => assert (nz mapped);; Some (s, mapped)
  | S pages =>
      sp ← spaces s !! source;
      phyAddr ← NX_VmspaceVirToPhy sp virAddr;
      assert (nz phyAddr);;
      tp ← spaces s !! target;
      let '(s, a) := NX_MemAlloc s in
      '(tp, err, mapAddr) ← NX_VmspaceMapWithPhy (if a =? 0 then None else Some a) tp 0 phyAddr NX_PAGE_SIZE NX_PAGE_ATTR_USER 0;
      let s := with_spaces s (<[target := tp]> (spaces s)) in
      if negb (is_ok err) then
        s ← (if pageCountMapped >? 0 then '(s, _) ← unmap s target startAddr (pageCountMapped * NX_PAGE_SIZE); Some s else Some s);
        Some (s, 0)
      else
        Map_loop s source target startAddr pages (virAddr + NX_PAGE_SIZE) (if mapped =? 0 then mapAddr else mapped) (pageCountMapped + 1)
  end.

Definition MapMdl s (mdl : NX_HubMdl) (source target : Z) : option (Hubs * Z) :=
  sp ← spaces s !! source;
  ok ← Map_check sp (Z.to_nat (mdl_pages mdl)) (startAddr mdl);
  if negb ok then Some (s, 0)
  else Map_loop s source target (startAddr mdl) (Z.to_nat (mdl_pages mdl)) (startAddr mdl) 0 0.

Fixpoint Unmap_loop s (p : Z) (pages : nat) (virAddr : Z) : option Hubs :=
  match pages with
  | O => Some s
  | S pages => '(s, _) ← unmap s p virAddr NX_PAGE_SIZE; Unmap_loop s p pages (virAddr + NX_PAGE_SIZE)
  end.
Definition UnmapMdl s (mdl : NX_HubMdl) : option Hubs := Unmap_loop s (vmspace mdl) (Z.to_nat (mdl_pages mdl)) (mappedAddr mdl).

(** The description that was added last is the head of the list. *)
Definition NX_HubMapAddr s (c source target addr size : Z) : option (Hubs * Z) :=
  rt ← threads s !! target;
  rs ← threads s !! source;
  if (process rt =? 0) || (process rs =? 0) then Some (s, 0)
  else
    x ← channels s !! c;
    if length (mdlListHead x) >=? NX_HUB_PARAM_NR then Some (s, 0)
    else
      '(s, mdl) ← CreateMdl s c addr size (process rt);
      match mdl with
      | None => Some (s, 0)
      | Some mdl =>
          '(s, mapped) ← MapMdl s mdl (process rs) (process rt);
          if mapped =? 0 then s ← upd_channel s c (fun x => set_mdls (tail (mdlListHead x)) x); Some (s, 0)
          else
            s ← upd_channel s c (fun x => set_mdls
              (mkMdl (startAddr mdl) mapped (byteOffset mdl) (byteCount mdl) (vmspace mdl) :: tail (mdlListHead x)) x);
            Some (s, mapped + byteOffset mdl)
      end.

Definition ChannelMatchParam (arg : Z) (x : NX_HubChannel) : bool := existsb (Z.eqb arg) (args (param x)).

Fixpoint NX_HubReleaseMdl s (l : list NX_HubMdl) : option Hubs :=
  match l with [] => Some s | mdl :: l => s ← UnmapMdl s mdl; NX_HubReleaseMdl s l end.

(** ** The server *)
Definition NX_HubReturn s (self v : Z) (e : NX_Error) : option (Hubs * NX_Error) :=
  r ← threads s !! self;
  if rhub r =? 0 then Some (s, NX_EFAULT)
  else if activeChannel r =? 0 then Some (s, NX_EAGAIN)
  else
    let c := activeChannel r in
    x ← channels s !! c;
    if negb (targetThread x =? self) then Some (s, NX_EFAULT)
    else
      s ← upd_thread s self (fun r => mkRes (rhub r) 0 (process r));
      s ← NX_HubReleaseMdl s (mdlListHead x);
      s ← upd_channel s c (set_mdls []);
      s ← upd_channel s c (set_ret v e);
      s ← upd_channel s c (fun x => set_sem (syncSem x + 1) x);
      Some (s, NX_EOK).

Fixpoint Release_loop s (h : Z) (l : list Z) : option Hubs :=
  match l with
  | [] => Some s
  | c :: l => s ← HubDelChannelLocked s h c; '(s, _) ← DestroyChannel s c; Release_loop s h l
  end.

Definition HubCheckChannelRelease s (h : Z) : option Hubs :=
  x ← hubs s !! h;
  if totalChannels x >? 0 then
    let idle := if idleTime x =? 0 then clock s else idleTime x in
    s ← upd_hub s h (set_idle idle);
    if u64 (clock s - idle) >? NX_HUB_IDLE_TIME * 1000 then
      s ← Release_loop s h (channelListHead x);
      upd_hub s h (set_idle 0)
    else Some s
  else Some s.

Definition NX_HubPoll s (self : Z) : option (Hubs * option NX_HubParam * NX_Error) :=
  r ← threads s !! self;
  if rhub r =? 0 then Some (s, None, NX_ENORES)
  else
    let h := rhub r in
    found ← find_state s h NX_HUB_CHANNEL_ACTIVE;
    match found with
    | Some c =>
        s ← upd_channel s c (set_state NX_HUB_CHANNEL_HANDLED);
        s ← upd_hub s h (set_idle 0);
        x ← channels s !! c;
        s ← upd_channel s c (set_threads (sourceThread x) self);
        s ← upd_thread s self (fun r => mkRes (rhub r) c (process r));
        Some (s, Some (param x), NX_EOK)
    | None => s ← HubCheckChannelRelease s h; Some (s, None, NX_EAGAIN)
    end.

Definition NX_HubTranslate s (self addr size : Z) : option (Hubs * Z) :=
  r ← threads s !! self;
  if (addr =? 0) || (size =? 0) || (rhub r =? 0) || (activeChannel r =? 0) then Some (s, 0)
  else
    let c := activeChannel r in
    x ← channels s !! c;
    if negb (targetThread x =? self) then Some (s, 0)
    else if sourceThread x =? 0 then Some (s, 0)
    else if negb (ChannelMatchParam addr x) then Some (s, 0)
    else NX_HubMapAddr s c (sourceThread x) self addr size.
End hub.
