(* ===== verification/HubCalls.v ===== *)
(** Calls through a hub as a system of interleaved steps: clients that are each
    somewhere inside [NX_HubCallParam], servers that poll, translate and return,
    the clock and the allocator.  Every call has an identifier, and two logs
    record what was handed to a server and what a server returned for it.  The
    invariant gives the property of the protocol: a call returns what the server
    returned for that very call, and it is handed out at most once, with its own
    parameters. *)
From stdpp Require Import functions.
From S2P Require Import Prelude Mmu Vmspace Hub.
#[local] Coercion Z.of_nat : nat >-> Z.

Section calls.
Context {M : Type} `{MmuOps M} (NX_PAGE_ATTR_USER : Z).
Implicit Types (s : Hubs (M := M)) (x : NX_HubChannel) (i : nat) (c : Z).

(** ** The system *)
Record Call := mkCall { caller : Z; callee : Z; request : NX_HubParam; at_phase : phase }.

(** [holder c] is the call that picked channel [c] last; [polled] and [answered]
    are the logs of [NX_HubPoll] and [NX_HubReturn]. *)
Record Conf := mkConf {
  sys : Hubs (M := M);
  calls : gmap nat Call;
  holder : Z -> nat;
  polled : list (nat * (Z * NX_HubParam));
  answered : list (nat * (Z * Z * NX_Error))
}.
Implicit Types K : Conf.

Definition with_sys K s : Conf := mkConf s (calls K) (holder K) (polled K) (answered K).

(** The channel a call has in hand. *)
Definition holds (ph : phase) : option Z :=
  match ph with
  | Linking c | Sourcing c | Copying c | Activating c | Waiting c | Reading c | Putting c _ _ => Some c
  | _ => None
  end.

Inductive event :=
  | Call_ (i : nat) (t h : Z) (p : option NX_HubParam)
  | CallName (i : nat) (t : Z) (nm : list Z) (p : option NX_HubParam)
  | Advance (i : nat)
  | Poll (self : Z)
  | Return (self v : Z) (e : NX_Error)
  | Translate (self addr size : Z)
  | Register (self : Z) (nm : option (list Z)) (maxClient : Z)
  | Unregister (self : Z) (nm : option (list Z))
  | Memory (l : list Z)       (* the next answers of the allocator *)
  | Tick (ms : Z).

Definition enter K i t h (p : option NX_HubParam) (r : phase + NX_Error) : option Conf :=
  match r, p with
  | inl ph, Some p => Some (mkConf (sys K) (<[i := mkCall t h p ph]> (calls K)) (holder K) (polled K) (answered K))
  | _, _ => Some K
  end.

Definition at_ (k : Call) (ph : phase) : Call := mkCall (caller k) (callee k) (request k) ph.
Definition advance K i (k : Call) s (ph : phase) : Conf :=
  mkConf s (<[i := at_ k ph]> (calls K)) (match holds ph with Some c => <[c := i]> (holder K) | None => holder K end)
         (polled K) (answered K).

Definition log_poll K s self (p : option NX_HubParam) : Conf :=
  match p, threads s !! self with
  | Some p, Some r => mkConf s (calls K) (holder K) ((holder K (activeChannel r), (self, p)) :: polled K) (answered K)
  | _, _ => with_sys K s
  end.

Definition log_return K s self (v : Z) (e err : NX_Error) : Conf :=
  match err, threads (sys K) !! self with
  | NX_EOK, Some r => mkConf s (calls K) (holder K) (polled K) ((holder K (activeChannel r), (self, v, e)) :: answered K)
  | _, _ => with_sys K s
  end.

Definition step K (ev : event) : option Conf :=
  match ev with
  | Call_ i t h p => assert (bool_decide (calls K !! i = None));; enter K i t h p (start_call h p)
  | CallName i t nm p =>
      assert (bool_decide (calls K !! i = None));;
      '(h, r) ← NX_HubCallParamName (sys K) nm p; enter K i t h p r
  | Advance i =>
      k ← calls K !! i;
      '(s, ph) ← NX_HubCallParam (sys K) (caller k) (callee k) (request k) (at_phase k);
      Some (advance K i k s ph)
  | Poll self => '(s, p, _) ← NX_HubPoll (sys K) self; Some (log_poll K s self p)
  | Return self v e => '(s, err) ← NX_HubReturn (sys K) self v e; Some (log_return K s self v e err)
  | Translate self addr size => '(s, _) ← NX_HubTranslate NX_PAGE_ATTR_USER (sys K) self addr size; Some (with_sys K s)
  | Register self nm m => '(s, _, _) ← NX_HubRegister (sys K) self nm m; Some (with_sys K s)
  | Unregister self nm => '(s, _) ← NX_HubUnregister (sys K) self nm; Some (with_sys K s)
  | Memory l => Some (with_sys K (with_heap (sys K) l))
  | Tick ms =>
      let s := sys K in
      Some (with_sys K (mkHubs (hubSystemListHead s) (hubs s) (channels s) (threads s) (spaces s) (heap s) ms))
  end.

(** The allocator never answers with memory in use. *)
Definition fresh s : Prop :=
  (forall a l k, heap s = l ++ a :: k -> a <> 0 -> a ∉ k) /\ (forall a, a ∈ heap s -> a <> 0 -> channels s !! a = None).

(** The channels of a hub are given back while no call uses one of them. *)
Definition calm s (self : Z) : Prop :=
  forall r h x, threads s !! self = Some r -> hubs s !! rhub r = Some h ->
  u64 (clock s - (if idleTime h =? 0 then clock s else idleTime h)) > NX_HUB_IDLE_TIME * 1000 ->
  forall c, c ∈ channelListHead h -> channels s !! c = Some x -> state x = NX_HUB_CHANNEL_IDLE.

Definition allowed K (ev : event) : Prop :=
  match ev with
  | Memory l => fresh (with_heap (sys K) l)
  | Poll self => calm (sys K) self
  | _ => True
  end.

Inductive reachable (K0 : Conf) : Conf -> Prop :=
  | reach_start : reachable K0 K0
  | reach_step K ev K' : reachable K0 K -> allowed K ev -> step K ev = Some K' -> reachable K0 K'.

(** No hub, no channel, no call yet. *)
Definition start_conf K : Prop :=
  channels (sys K) = ∅ /\ hubs (sys K) = ∅ /\ calls K = ∅ /\ polled K = [] /\ answered K = [] /\
  (forall t r, threads (sys K) !! t = Some r -> activeChannel r = 0) /\ fresh (sys K).

(** ** The invariant

    The descriptions of mapped memory a channel carries play no part. *)
Definition view s : gmap Z NX_HubChannel := set_mdls [] <$> channels s.
Definition chan K c (P : NX_HubChannel -> Prop) : Prop := exists x, view (sys K) !! c = Some x /\ P x.
Definition unlisted s c : Prop := forall h y, hubs s !! h = Some y -> c ∉ channelListHead y.

Definition new K i : Prop := i ∉ (polled K).*1.
Definition handed K i (k : Call) : Prop := exists self, (i, (self, request k)) ∈ polled K.
Definition reply K i v e : Prop := exists self, (i, (self, v, e)) ∈ answered K.

(** What is true of a call at each of its steps. *)
Definition call_ok K i (k : Call) : Prop :=
  match at_phase k with
  | Picking | Adding | Repicking => new K i
  | Linking c => new K i /\ chan K c (fun x => state x = NX_HUB_CHANNEL_IDLE /\ syncSem x = 0 /\ hub x = callee k) /\ unlisted (sys K) c
  | Sourcing c | Copying c => new K i /\ chan K c (fun x => state x = NX_HUB_CHANNEL_READY /\ syncSem x = 0)
  | Activating c => new K i /\ chan K c (fun x => state x = NX_HUB_CHANNEL_READY /\ syncSem x = 0 /\ param x = request k)
  | Waiting c =>
      chan K c (fun x => param x = request k /\
        ((state x = NX_HUB_CHANNEL_ACTIVE /\ syncSem x = 0 /\ new K i) \/
         (state x = NX_HUB_CHANNEL_HANDLED /\ handed K i k /\
          ((syncSem x = 0 /\ i ∉ (answered K).*1) \/ (syncSem x = 1 /\ reply K i (retVal x) (retErr x))))))
  | Reading c => chan K c (fun x => state x = NX_HUB_CHANNEL_HANDLED /\ syncSem x = 0 /\ reply K i (retVal x) (retErr x))
  | Putting c v e => chan K c (fun x => state x = NX_HUB_CHANNEL_HANDLED /\ syncSem x = 0) /\ reply K i v e
  | Done (Some v) e => reply K i v e
  | Done None e => new K i /\ e = NX_EAGAIN
  end.

(** [self] has the request of channel [c] in hand. *)
Definition serving K self c : Prop :=
  chan K c (fun x => state x = NX_HUB_CHANNEL_HANDLED /\ targetThread x = self /\ syncSem x = 0) /\
  (holder K c ∉ (answered K).*1) /\ exists p, (holder K c, (self, p)) ∈ polled K.

Definition hubs_ok s : Prop :=
  forall h y, hubs s !! h = Some y ->
    NoDup (channelListHead y) /\ forall c, c ∈ channelListHead y -> exists x, view s !! c = Some x /\ hub x = h.

Record inv K : Prop := {
  inv_fresh : fresh (sys K);
  inv_null : view (sys K) !! 0 = None;
  inv_hubs : hubs_ok (sys K);
  inv_calls : forall i k, calls K !! i = Some k -> call_ok K i k;
  inv_holder : forall i k c, calls K !! i = Some k -> holds (at_phase k) = Some c -> holder K c = i;
  inv_owned : forall c x, view (sys K) !! c = Some x ->
    (state x = NX_HUB_CHANNEL_IDLE /\ syncSem x = 0) \/ exists i k, calls K !! i = Some k /\ holds (at_phase k) = Some c;
  inv_servers : forall self r, threads (sys K) !! self = Some r -> activeChannel r <> 0 -> serving K self (activeChannel r);
  inv_polled : NoDup (polled K).*1 /\
    forall i self p, (i, (self, p)) ∈ polled K -> exists k, calls K !! i = Some k /\ request k = p;
  inv_answered : NoDup (answered K).*1 /\
    forall i self v e, (i, (self, v, e)) ∈ answered K -> exists p, (i, (self, p)) ∈ polled K
}.

Lemma start_inv K : start_conf K -> inv K.
Proof.
  intros (Hc & Hh & Hk & Hp & Ha & Ht & Hf).
  split; rewrite ?Hk, ?Hp, ?Ha; unfold view, hubs_ok; rewrite ?Hc, ?Hh; try done.
  - intros self r Hr Hn. by apply Ht in Hr.
  - split; [constructor|]. intros i self p Hi. by apply elem_of_nil in Hi.
  - split; [constructor|]. intros i self v e Hi. by apply elem_of_nil in Hi.
Qed.

(** *** What the invariant gives at a channel *)
Ltac split_hyps :=
  repeat match goal with
  | H : exists _, _ |- _ => destruct H
  | H : _ /\ _ |- _ => destruct H
  | H : _ \/ _ |- _ => destruct H
  | H : Some _ = Some _ |- _ => injection H as H; subst
  | H : state ?x = _ |- context [state ?x] => rewrite H
  | H : ?a = ?b, H' : ?a = ?c |- _ => rewrite H in H'; first [discriminate H' | injection H' as ->]
  end.

Lemma call_held K i k c x :
  inv K -> calls K !! i = Some k -> holds (at_phase k) = Some c -> view (sys K) !! c = Some x ->
  match state x with
  | NX_HUB_CHANNEL_IDLE => at_phase k = Linking c
  | NX_HUB_CHANNEL_READY => at_phase k = Sourcing c \/ at_phase k = Copying c \/ at_phase k = Activating c
  | NX_HUB_CHANNEL_ACTIVE => at_phase k = Waiting c
  | NX_HUB_CHANNEL_HANDLED => at_phase k = Waiting c \/ (exists v e, reply K i v e)
  end.
Proof.
  intros HI Hk Hh Hx. pose proof (inv_calls _ HI _ _ Hk) as Hok. unfold call_ok, chan in Hok.
  destruct (at_phase k) as [| |c'| |c'|c'|c'|c'|c'|c' v e|o e]; simpl in Hh; try discriminate; injection Hh as ->.
  all: rewrite Hx in Hok; split_hyps; eauto 6.
Qed.

(** A channel in the hands of a server belongs to a call that waits. *)
Lemma serving_waits K self c :
  inv K -> serving K self c -> exists k, calls K !! holder K c = Some k /\ at_phase k = Waiting c.
Proof.
  intros HI ((x & Hx & Hs & _ & _) & Hna & _).
  destruct (inv_owned _ HI _ _ Hx) as [[]|(i & k & Hk & Hh)]; [congruence|].
  pose proof (inv_holder _ HI _ _ _ Hk Hh) as Hi. subst i. exists k. split; [done|].
  pose proof (call_held _ _ _ _ _ HI Hk Hh Hx) as Hp. rewrite Hs in Hp. destruct Hp as [|(v & e & self' & Hr)]; [done|].
  destruct Hna. by apply (list_elem_of_fmap_2 fst) in Hr.
Qed.

(** *** Stability under the steps of others *)
Record logs_for K K' i : Prop := {
  logs_new : new K i -> new K' i;
  logs_unanswered : i ∉ (answered K).*1 -> i ∉ (answered K').*1;
  logs_polled : polled K ⊆ polled K';
  logs_answered : answered K ⊆ answered K'
}.

Lemma logs_same K s m f i : logs_for K (mkConf s m f (polled K) (answered K)) i.
Proof. by split. Qed.

Lemma call_ok_stable K K' i k :
  call_ok K i k -> logs_for K K' i ->
  (forall c, holds (at_phase k) = Some c -> view (sys K') !! c = view (sys K) !! c) ->
  (forall c, at_phase k = Linking c -> unlisted (sys K) c -> unlisted (sys K') c) ->
  call_ok K' i k.
Proof.
  intros Hok [Hn Hu Hp Ha] Hv Hl. unfold call_ok, chan, handed, reply in *.
  destruct (at_phase k) as [| |c| |c|c|c|c|c|c v e|[v|] e]; simpl in *; rewrite ?(Hv _ eq_refl); split_hyps; eauto 10.
  all: eexists; split; [done|]; split; [done|]; right; eauto 10.
Qed.

Lemma serving_stable K K' self c :
  serving K self c -> logs_for K K' (holder K c) -> view (sys K') !! c = view (sys K) !! c -> holder K' c = holder K c ->
  serving K' self c.
Proof.
  intros (Hc & Hna & p & Hp) [_ Hu Hl _] Hv Hh. unfold serving, chan. rewrite Hv, Hh. split; [done|]. split; eauto.
Qed.

(** ** Steps of a client *)

(** One channel changes, nothing else. *)
Record chan_step s s' c x x' : Prop := {
  cs_old : view s !! c = Some x;
  cs_new : view s' = <[c := x']> (view s);
  cs_hub : hub x' = hub x;
  cs_hubs : hubs s' = hubs s;
  cs_threads : threads s' = threads s;
  cs_heap : heap s' = heap s
}.

Lemma view_lookup s c x : channels s !! c = Some x -> view s !! c = Some (set_mdls [] x).
Proof. intros Hx. unfold view. by rewrite lookup_fmap, Hx. Qed.

Lemma view_None s c : view s !! c = None <-> channels s !! c = None.
Proof. unfold view. rewrite lookup_fmap. destruct (channels s !! c); simpl; split; congruence. Qed.

Lemma upd_channel_step s s' c f :
  upd_channel s c f = Some s' ->
  (forall x, set_mdls [] (f x) = f (set_mdls [] x)) -> (forall x, hub (f x) = hub x) ->
  exists x, chan_step s s' c x (f x).
Proof.
  intros H1 Hf Hh. unfold upd_channel in H1. inv_opt. exists (set_mdls [] n). split; try done.
  - by apply view_lookup.
  - unfold view. simpl. by rewrite fmap_insert, Hf.
Qed.

Lemma chan_step_self s c x : view s !! c = Some x -> chan_step s s c x x.
Proof. intros Hx. split; try done. by rewrite insert_id. Qed.

Lemma fresh_view s s' : fresh s -> heap s' = heap s -> (forall a, view s !! a = None -> view s' !! a = None) -> fresh s'.
Proof.
  intros [Hd Hn] He Hv. split; rewrite He; [done|]. intros a Ha Hz. apply view_None, Hv, view_None. eauto.
Qed.

Lemma chan_step_fresh s s' c x x' : chan_step s s' c x x' -> fresh s -> fresh s'.
Proof.
  intros [Hx Hv _ _ _ He] Hf. apply (fresh_view s); [done..|]. intros a Ha. rewrite Hv.
  rewrite lookup_insert_ne; [done|]. intros ->. congruence.
Qed.

Lemma chan_step_hubs s s' c x x' : chan_step s s' c x x' -> hubs_ok s -> hubs_ok s'.
Proof.
  intros [Hx Hv Hh Hs _ _] Hok h y Hy. rewrite Hs in Hy. destruct (Hok _ _ Hy) as [Hnd Hl]. split; [done|].
  intros d Hd. destruct (Hl _ Hd) as (z & Hz & Hzh). rewrite Hv. destruct (decide (d = c)) as [->|Hne].
  - rewrite lookup_insert_eq. exists x'. split; [done|]. congruence.
  - rewrite lookup_insert_ne by done. eauto.
Qed.

(** One call takes a step that touches at most one channel, which nobody else
    has in hand. *)
Section client.
Context (K : Conf) (s' : Hubs (M := M)) (i : nat) (k : Call) (c : Z) (x' : NX_HubChannel) (ph' : phase).
Context (HI : inv K) (Hk : calls K !! i = Some k) (Hc0 : c <> 0).
Context (Hv : view s' = <[c := x']> (view (sys K))) (Hhubs : hubs_ok s') (Hfresh : fresh s').
Context (Hth : threads s' = threads (sys K)).
Context (Hlist : forall d, d <> c -> unlisted (sys K) d -> unlisted s' d).
Context (Hmine : forall j kj, calls K !! j = Some kj -> holds (at_phase kj) = Some c -> j = i).
Context (Honly : forall d, holds (at_phase k) = Some d -> d = c).
Context (Hserv : forall self, serving K self c -> state x' = NX_HUB_CHANNEL_HANDLED /\ targetThread x' = self /\ syncSem x' = 0).
Context (Hok : call_ok (advance K i k s' ph') i (at_ k ph')).
Context (Hnext : holds ph' = Some c \/ (holds ph' = None /\ state x' = NX_HUB_CHANNEL_IDLE /\ syncSem x' = 0)).
Local Abbreviation K' := (advance K i k s' ph').

Lemma client_view d : d <> c -> view (sys K') !! d = view (sys K) !! d.
Proof. intros. simpl. rewrite Hv. by rewrite lookup_insert_ne. Qed.

Lemma client_holder d : d <> c -> holder K' d = holder K d.
Proof.
  intros Hd. simpl. destruct Hnext as [->|[-> _]]; [|done]. by rewrite fn_lookup_insert_ne.
Qed.

Lemma client_calls j kj : calls K' !! j = Some kj -> call_ok K' j kj.
Proof.
  simpl. intros [[<- <-]|[Hne Hj]]%lookup_insert_Some; [done|].
  pose proof (inv_calls _ HI _ _ Hj) as Hj'. apply (call_ok_stable K); [done|apply logs_same| |].
  - intros d Hd. apply client_view. intros ->. by apply Hne, eq_sym, (Hmine _ _ Hj).
  - intros d Hd. apply Hlist. intros ->. apply Hne, eq_sym, (Hmine _ _ Hj). by rewrite Hd.
Qed.

Lemma client_holders j kj d : calls K' !! j = Some kj -> holds (at_phase kj) = Some d -> holder K' d = j.
Proof.
  simpl. intros [[<- <-]|[Hne Hj]]%lookup_insert_Some; simpl; intros Hd.
  - rewrite Hd. by rewrite fn_lookup_insert.
  - assert (d <> c) as Hdc by (intros ->; by apply Hne, eq_sym, (Hmine _ _ Hj)).
    rewrite <- (inv_holder _ HI _ _ _ Hj Hd). by apply client_holder.
Qed.

Lemma client_owned d x : view (sys K') !! d = Some x ->
  (state x = NX_HUB_CHANNEL_IDLE /\ syncSem x = 0) \/ exists j kj, calls K' !! j = Some kj /\ holds (at_phase kj) = Some d.
Proof.
  simpl. rewrite Hv. intros [[<- <-]|[Hne Hx]]%lookup_insert_Some.
  - destruct Hnext as [Hh|[_ ?]]; [|by left]. right. exists i, (at_ k ph'). by rewrite lookup_insert_eq.
  - destruct (inv_owned _ HI _ _ Hx) as [?|(j & kj & Hj & Hh)]; [by left|]. right.
    destruct (decide (i = j)) as [<-|Hij]; [rewrite Hk in Hj; injection Hj as ->; by apply Honly in Hh|].
    exists j, kj. by rewrite lookup_insert_ne.
Qed.

Lemma client_servers self r : threads (sys K') !! self = Some r -> activeChannel r <> 0 -> serving K' self (activeChannel r).
Proof.
  simpl. rewrite Hth. intros Hr Hz. pose proof (inv_servers _ HI _ _ Hr Hz) as Hs.
  destruct (decide (activeChannel r = c)) as [E|E].
  - rewrite E in *. destruct (Hserv _ Hs) as (? & ? & ?).
    destruct (serving_waits _ _ _ HI Hs) as (kc & Hkc & Hw).
    assert (holder K c = i) as Hi by (apply (Hmine _ _ Hkc); by rewrite Hw).
    destruct Hs as (_ & Hna & Hp). assert (holder K' c = i) as Hi'.
    { simpl. destruct Hnext as [->|[-> _]]; [by rewrite fn_lookup_insert|done]. }
    split; [|rewrite Hi', <- Hi; done]. exists x'. simpl. by rewrite Hv, lookup_insert_eq.
  - apply (serving_stable K); [done|apply logs_same|by apply client_view|by apply client_holder].
Qed.

Lemma inv_client : inv K'.
Proof.
  split; [done| |done|apply client_calls|apply client_holders|apply client_owned|apply client_servers| |].
  - rewrite client_view by done. apply HI.
  - split; [apply HI|]. simpl. intros j self p Hj. destruct (proj2 (inv_polled _ HI) _ _ _ Hj) as (kj & Hkj & Hp).
    destruct (decide (i = j)) as [<-|Hij].
    + rewrite lookup_insert_eq. rewrite Hk in Hkj. injection Hkj as <-. eauto.
    + rewrite lookup_insert_ne by done. eauto.
  - apply HI.
Qed.
End client.

(** No channel is touched. *)
Lemma inv_phase K s' i k ph' :
  inv K -> calls K !! i = Some k -> view s' = view (sys K) -> hubs s' = hubs (sys K) -> threads s' = threads (sys K) ->
  fresh s' -> holds (at_phase k) = None -> holds ph' = None -> call_ok (advance K i k s' ph') i (at_ k ph') ->
  inv (advance K i k s' ph').
Proof.
  intros HI Hk Hv Hh Ht Hf Hn Hn' Hok. unfold advance in *. rewrite Hn' in *. split; simpl; rewrite ?Hv, ?Ht; try done.
  - apply HI.
  - intros h y. rewrite Hh, Hv. apply (inv_hubs _ HI).
  - intros j kj [[<- <-]|[Hne Hj]]%lookup_insert_Some; [done|].
    apply (call_ok_stable K); [by apply (inv_calls _ HI)|apply logs_same| |].
    + intros d _. simpl. by rewrite Hv.
    + intros d _. unfold unlisted. simpl. by rewrite Hh.
  - intros j kj d [[<- <-]|[Hne Hj]]%lookup_insert_Some; simpl; [congruence|]. by apply (inv_holder _ HI).
  - intros d x Hx. destruct (inv_owned _ HI _ _ Hx) as [?|(j & kj & Hj & Hd)]; [by left|]. right. exists j, kj.
    rewrite lookup_insert_ne; [done|]. congruence.
  - intros self r Hr Hz. apply (serving_stable K); [by apply (inv_servers _ HI)|apply logs_same| |done]. simpl. by rewrite Hv.
  - split; [apply HI|]. intros j self p Hj. destruct (proj2 (inv_polled _ HI) _ _ _ Hj) as (kj & Hkj & Hp).
    destruct (decide (i = j)) as [<-|Hij].
    + rewrite lookup_insert_eq. rewrite Hk in Hkj. injection Hkj as <-. eauto.
    + rewrite lookup_insert_ne by done. eauto.
  - apply HI.
Qed.

(** *** Finding a channel *)
Lemma find_state_Some s h st r :
  find_state s h st = Some r ->
  exists y, hubs s !! h = Some y /\
  match r with
  | Some c => c ∈ channelListHead y /\ exists x, view s !! c = Some x /\ state x = st
  | None => forall c x, c ∈ channelListHead y -> view s !! c = Some x -> state x <> st
  end.
Proof.
  unfold find_state. intros Hf. inv_opt. exists n. split; [done|]. subst.
  apply mapM_Some in E0. pose proof (list_find_result (fun y : Z * NX_HubChannelState => y.2 = st) l) as Hl.
  destruct (list_find _ l) as [[j [c stc]]|]; simpl in *.
  - destruct Hl as [Hin <-]. apply list_elem_of_lookup in Hin as [m Hm].
    destruct (Forall2_lookup_r _ _ _ _ _ E0 Hm) as (d & Hd & He). inv_opt.
    split; [by apply list_elem_of_lookup_2 with m|]. eexists. split; [by apply view_lookup|done].
  - intros c x Hc Hx Hst. apply list_elem_of_lookup in Hc as [m Hm].
    destruct (Forall2_lookup_l _ _ _ _ _ E0 Hm) as ([d std] & Hd & He). inv_opt.
    unfold view in Hx. rewrite lookup_fmap, E1 in Hx. injection Hx as <-.
    apply (Hl (d, state n0)); [by apply list_elem_of_lookup_2 with m|done].
Qed.

Lemma hub_pick_spec s s' h c :
  view s !! 0 = None -> HubPickChannel s h = Some (s', c) ->
  exists y, hubs s !! h = Some y /\
  ((c = 0 /\ s' = s) \/
   (c <> 0 /\ c ∈ channelListHead y /\ exists x, chan_step s s' c x (set_state NX_HUB_CHANNEL_READY x) /\ state x = NX_HUB_CHANNEL_IDLE)).
Proof.
  intros H0 Hp. unfold HubPickChannel in Hp. inv_opt. apply find_state_Some in E as (y & Hy & Hr). exists y. split; [done|].
  destruct o as [d|]; inv_opt; [|by left]. right. destruct Hr as (Hd & x & Hx & Hst).
  split; [intros ->; congruence|]. split; [done|].
  destruct (upd_channel_step _ _ _ _ E) as (x' & Hcs); [done..|]. exists x'. split; [done|].
  pose proof (cs_old _ _ _ _ _ Hcs). congruence.
Qed.

Lemma view_nonzero K c x : inv K -> view (sys K) !! c = Some x -> c <> 0.
Proof. intros HI Hx ->. pose proof (inv_null _ HI). congruence. Qed.

(** The call has the channel in hand. *)
Lemma inv_hand K s' i k c x x' ph' :
  inv K -> calls K !! i = Some k -> holds (at_phase k) = Some c -> chan_step (sys K) s' c x x' ->
  (forall self, serving K self c -> state x' = NX_HUB_CHANNEL_HANDLED /\ targetThread x' = self /\ syncSem x' = 0) ->
  call_ok (advance K i k s' ph') i (at_ k ph') ->
  (holds ph' = Some c \/ (holds ph' = None /\ state x' = NX_HUB_CHANNEL_IDLE /\ syncSem x' = 0)) ->
  inv (advance K i k s' ph').
Proof.
  intros HI Hk Hh Hcs Hs Hok Hn. pose proof (inv_holder _ HI _ _ _ Hk Hh) as Hi.
  apply (inv_client K s' i k c x'); try done.
  - eapply view_nonzero, Hcs. done.
  - apply Hcs.
  - eapply chan_step_hubs; [done|apply HI].
  - eapply chan_step_fresh; [done|apply HI].
  - apply Hcs.
  - intros d _. unfold unlisted. by rewrite (cs_hubs _ _ _ _ _ Hcs).
  - intros j kj Hj Hhj. rewrite <- Hi. symmetry. by apply (inv_holder _ HI _ _ _ Hj).
  - congruence.
Qed.

(** A server has only channels in hand whose call waits. *)
Lemma not_served K i k c self :
  inv K -> calls K !! i = Some k -> holds (at_phase k) = Some c -> at_phase k <> Waiting c -> ~ serving K self c.
Proof.
  intros HI Hk Hh Hw Hs. destruct (serving_waits _ _ _ HI Hs) as (k' & Hk' & Hw').
  rewrite (inv_holder _ HI _ _ _ Hk Hh) in Hk'. congruence.
Qed.

Lemma listed_unheld K h y c x j kj :
  inv K -> hubs (sys K) !! h = Some y -> c ∈ channelListHead y -> view (sys K) !! c = Some x -> state x = NX_HUB_CHANNEL_IDLE ->
  calls K !! j = Some kj -> holds (at_phase kj) <> Some c.
Proof.
  intros HI Hy Hc Hx Hst Hj Hh. pose proof (call_held _ _ _ _ _ HI Hj Hh Hx) as Hl. rewrite Hst in Hl.
  pose proof (inv_calls _ HI _ _ Hj) as Hok. unfold call_ok in Hok. rewrite Hl in Hok. destruct Hok as (_ & _ & Hu). by apply (Hu h y).
Qed.

Lemma inv_take K s' i k h c :
  inv K -> calls K !! i = Some k -> holds (at_phase k) = None -> new K i ->
  HubPickChannel (sys K) h = Some (s', c) -> c <> 0 -> inv (advance K i k s' (Sourcing c)).
Proof.
  intros HI Hk Hh Hn Hp Hz. apply hub_pick_spec in Hp as (y & Hy & [[]|(_ & Hc & x & Hcs & Hst)]); [done| |apply HI].
  pose proof (cs_old _ _ _ _ _ Hcs) as Hx.
  assert (syncSem x = 0) as Hsem.
  { destruct (inv_owned _ HI _ _ Hx) as [[]|(j & kj & Hj & Hhj)]; [done|]. by destruct (listed_unheld _ _ _ _ _ _ _ HI Hy Hc Hx Hst Hj). }
  apply (inv_client K s' i k c (set_state NX_HUB_CHANNEL_READY x)); try done.
  - apply Hcs.
  - eapply chan_step_hubs; [done|apply HI].
  - eapply chan_step_fresh; [done|apply HI].
  - apply Hcs.
  - intros d _. unfold unlisted. by rewrite (cs_hubs _ _ _ _ _ Hcs).
  - intros j kj Hj Hhj. by destruct (listed_unheld _ _ _ _ _ _ _ HI Hy Hc Hx Hst Hj).
  - congruence.
  - intros self ((x1 & Hx1 & Hs1 & _) & _). congruence.
  - split; [done|]. exists (set_state NX_HUB_CHANNEL_READY x). simpl. by rewrite (cs_new _ _ _ _ _ Hcs), lookup_insert_eq.
  - by left.
Qed.

(** *** Making a channel *)
Lemma alloc_spec s s' a :
  fresh s -> NX_MemAlloc s = (s', a) ->
  fresh s' /\ view s' = view s /\ hubs s' = hubs s /\ threads s' = threads s /\
  (a <> 0 -> view s !! a = None /\ a ∉ heap s').
Proof.
  intros Hfr Ha. unfold NX_MemAlloc in Ha. destruct (heap s) as [|b l] eqn:E; injection Ha as <- <-; [by auto|].
  destruct Hfr as [Hd Hf]. rewrite E in Hd, Hf.
  - split; [split|]; simpl.
    + intros x p q ->. apply (Hd x (b :: p) q). done.
    + intros x Hx. apply Hf. by right.
    + split; [done|]. split; [done|]. split; [done|]. intros Hz.
      split; [apply view_None, Hf; [by left|done]|]. apply (Hd b [] l); done.
Qed.

Lemma channel_create_spec s s' h c :
  fresh s -> CreateChannel s h = (s', c) -> c <> 0 ->
  fresh s' /\ view s !! c = None /\ view s' = <[c := HubChannelInit h]> (view s) /\ hubs s' = hubs s /\ threads s' = threads s.
Proof.
  intros Hf Hc Hz. unfold CreateChannel in Hc. destruct (NX_MemAlloc s) as [s1 a] eqn:E.
  destruct (alloc_spec _ _ _ Hf E) as (Hf1 & Hv & Hh & Ht & Ha).
  destruct (Z.eqb_spec a 0); injection Hc as <- <-; [done|]. destruct (Ha Hz) as [Hn Hni].
  split; [split|]; simpl.
  - apply Hf1.
  - intros b Hb Hb0. rewrite lookup_insert_ne by (intros ->; done). by apply Hf1.
  - split; [done|]. split; [|done]. unfold view at 1. simpl. rewrite fmap_insert. fold (view s1). by rewrite Hv.
Qed.

Lemma held_view K i k c : inv K -> calls K !! i = Some k -> holds (at_phase k) = Some c -> exists x, view (sys K) !! c = Some x.
Proof.
  intros HI Hk Hh. pose proof (inv_calls _ HI _ _ Hk) as Hok. unfold call_ok, chan in Hok.
  destruct (at_phase k); simpl in Hh; try discriminate; injection Hh as ->; split_hyps; eauto.
Qed.

Lemma inv_create K s' i k c :
  inv K -> calls K !! i = Some k -> holds (at_phase k) = None -> new K i ->
  CreateChannel (sys K) (callee k) = (s', c) -> c <> 0 -> inv (advance K i k s' (Linking c)).
Proof.
  intros HI Hk Hh Hn Hc Hz. destruct (channel_create_spec _ _ _ _ (inv_fresh _ HI) Hc Hz) as (Hf & Hno & Hv & Hhub & Ht).
  assert (unlisted (sys K) c) as Hun.
  { intros g y Hy Hl. destruct (proj2 (inv_hubs _ HI _ _ Hy) _ Hl) as (x & Hx & _). congruence. }
  apply (inv_client K s' i k c (HubChannelInit (callee k))); try done.
  - intros g y. rewrite Hhub. intros Hy. destruct (inv_hubs _ HI _ _ Hy) as [Hnd Hl]. split; [done|]. intros d Hd.
    rewrite Hv, lookup_insert_ne by (intros ->; by apply (Hun _ _ Hy)). by apply Hl.
  - intros d _. unfold unlisted. by rewrite Hhub.
  - intros j kj Hj Hhj. destruct (held_view _ _ _ _ HI Hj Hhj) as [x Hx]. congruence.
  - congruence.
  - intros self ((x & Hx & _) & _). congruence.
  - split; [done|]. split.
    + eexists. simpl. by rewrite Hv, lookup_insert_eq.
    + intros g y. simpl. rewrite Hhub. apply Hun.
  - by left.
Qed.

Lemma inv_link K s' i k c :
  inv K -> calls K !! i = Some k -> at_phase k = Linking c ->
  HubAddChannel (sys K) (callee k) c = Some s' -> inv (advance K i k s' Repicking).
Proof.
  intros HI Hk Hp Ha. pose proof (inv_calls _ HI _ _ Hk) as Hok. unfold call_ok in Hok. rewrite Hp in Hok.
  destruct Hok as (Hn & (x & Hx & Hst & Hsem & Hxh) & Hun). set (h := callee k) in *.
  unfold HubAddChannel in Ha. destruct (upd_hub (sys K) h _) as [s1|] eqn:E; [|done]. cbn [mbind option_bind] in Ha.
  unfold upd_hub in E. destruct (hubs (sys K) !! h) as [y|] eqn:Hy; [|done]. injection E as E.
  assert (view s1 = view (sys K)) as Hv1 by by rewrite <- E.
  destruct (upd_channel_step _ _ _ _ Ha) as (x1 & Hcs); [done..|].
  pose proof (cs_old _ _ _ _ _ Hcs) as Ho. rewrite Hv1, Hx in Ho. injection Ho as <-.
  assert (hubs s' = <[h := set_total (i64 (totalChannels y + 1)) (set_list (c :: channelListHead y) y)]> (hubs (sys K))) as Hh'.
  { rewrite (cs_hubs _ _ _ _ _ Hcs). by rewrite <- E. }
  assert (forall d, d <> c -> view s' !! d = view (sys K) !! d) as Hvd.
  { intros d Hd. rewrite (cs_new _ _ _ _ _ Hcs), lookup_insert_ne by done. by rewrite Hv1. }
  apply (inv_client K s' i k c (set_state NX_HUB_CHANNEL_IDLE x)); try done.
  - by eapply view_nonzero.
  - by rewrite (cs_new _ _ _ _ _ Hcs), Hv1.
  - intros g z. rewrite Hh'. intros [[<- <-]|[Hne Hz]]%lookup_insert_Some; simpl.
    + destruct (inv_hubs _ HI _ _ Hy) as [Hnd Hl]. split; [apply NoDup_cons; split; [by apply (Hun h)|done]|].
      intros d Hd. destruct (decide (d = c)) as [->|Hdc].
      * rewrite (cs_new _ _ _ _ _ Hcs), lookup_insert_eq. by eexists.
      * apply elem_of_cons in Hd as [->|Hd]; [done|]. rewrite Hvd by done. by apply Hl.
    + destruct (inv_hubs _ HI _ _ Hz) as [Hnd Hl]. split; [done|]. intros d Hd.
      rewrite Hvd by (intros ->; by apply (Hun _ _ Hz)). by apply Hl.
  - eapply chan_step_fresh; [exact Hcs|]. apply (fresh_view (sys K)); [apply HI|by rewrite <- E|by rewrite Hv1].
  - rewrite (cs_threads _ _ _ _ _ Hcs). by rewrite <- E.
  - intros d Hd Hu g z. rewrite Hh'. intros [[<- <-]|[Hne Hz]]%lookup_insert_Some; simpl; [|by apply (Hu g)].
    intros [->|Hin]%elem_of_cons; [done|]. by apply (Hu h y).
  - intros j kj Hj Hhj. rewrite <- (inv_holder _ HI _ _ _ Hj Hhj). apply (inv_holder _ HI _ _ _ Hk). by rewrite Hp.
  - rewrite Hp. simpl. congruence.
  - intros self Hs. exfalso. apply (not_served K i k c self); rewrite ?Hp; done.
  - by right.
Qed.

(** *** Every step of a call *)
Lemma call_phase K i k : inv K -> calls K !! i = Some k -> call_ok K i (at_ k (at_phase k)).
Proof. intros HI Hk. by destruct k; apply (inv_calls _ HI) in Hk. Qed.

Lemma inv_pick_again K s' i k h c ph :
  inv K -> calls K !! i = Some k -> holds (at_phase k) = None -> new K i ->
  HubPickChannel (sys K) h = Some (s', c) -> ph = (if c =? 0 then Adding else Sourcing c) -> inv (advance K i k s' ph).
Proof.
  intros HI Hk Hh Hn Hp ->. destruct (Z.eqb_spec c 0) as [->|Hz]; [|by eapply inv_take].
  apply hub_pick_spec in Hp as (y & Hy & [[_ ->]|[]]); [|done|apply HI].
  apply inv_phase; try done. apply HI.
Qed.

Lemma inv_get_free K s' i k ph :
  inv K -> calls K !! i = Some k -> GetFreeChannel (sys K) (caller k) (callee k) (at_phase k) = Some (s', ph) ->
  inv (advance K i k s' ph).
Proof.
  intros HI Hk Hg. pose proof (inv_calls _ HI _ _ Hk) as Hok. unfold call_ok in Hok. unfold GetFreeChannel in Hg.
  destruct (at_phase k) as [| |c| |c|c|c|c|c|c v e|v e] eqn:Hp; simpl in Hg; try done.
  - inv_opt. eapply inv_pick_again; rewrite ?Hp; done.
  - destruct (hubs (sys K) !! callee k) as [y|] eqn:Hy; [|done]. simpl in Hg.
    assert (forall s0, fresh s0 -> view s0 = view (sys K) -> hubs s0 = hubs (sys K) -> threads s0 = threads (sys K) ->
      inv (advance K i k s0 (Done None NX_EAGAIN))) as Hfail by (intros; apply inv_phase; rewrite ?Hp; done).
    destruct (u64 _ <? _); [|injection Hg as <- <-; apply Hfail; try done; apply HI].
    destruct (CreateChannel _ _) as [s1 c] eqn:Ec. destruct (Z.eqb_spec c 0) as [->|Hz].
    + injection Hg as <- <-. unfold CreateChannel in Ec. destruct (NX_MemAlloc _) as [s2 a] eqn:Ea.
      destruct (alloc_spec _ _ _ (inv_fresh _ HI) Ea) as (Hf & Hv & Hh & Ht & _).
      destruct (Z.eqb_spec a 0); injection Ec as Ec; subst; [by apply Hfail|done].
    + injection Hg as <- <-. eapply inv_create; rewrite ?Hp; done.
  - inv_opt. by eapply inv_link.
  - inv_opt. destruct (Z.eqb_spec z 0) as [->|Hz]; [done|]. eapply inv_take; rewrite ?Hp; done.
  - inv_opt. destruct (upd_channel_step _ _ _ _ E0) as (x & Hcs); [done..|].
    destruct Hok as (Hn & x0 & Hx0 & Hst & Hsem). pose proof (cs_old _ _ _ _ _ Hcs) as Ho. rewrite Hx0 in Ho. injection Ho as <-.
    eapply inv_hand; rewrite ?Hp; try done; [|split; [done|]|by left].
    + intros self Hs. exfalso. apply (not_served K i k c self); rewrite ?Hp; done.
    + eexists. simpl. rewrite (cs_new _ _ _ _ _ Hcs), lookup_insert_eq. by split.
Qed.

(** What [HubMigrateToServer] does to the channel, whatever the step. *)
Lemma migrate_spec s s' p ph ph' c :
  holds ph = Some c -> HubMigrateToServer s p ph = Some (s', ph') -> view s !! c <> None ->
  exists x, match ph with
  | Copying _ => ph' = Activating c /\ chan_step s s' c x (set_param p x)
  | Activating _ => ph' = Waiting c /\ chan_step s s' c x (set_state NX_HUB_CHANNEL_ACTIVE x)
  | Waiting _ =>
      (syncSem x > 0 /\ ph' = Reading c /\ chan_step s s' c x (set_sem (syncSem x - 1) x)) \/
      (syncSem x <= 0 /\ ph' = ph /\ s' = s /\ view s !! c = Some x)
  | _ => False
  end.
Proof.
  intros Hh Hm Hv. destruct ph as [| |d| |d|d|d|d|d|d v e|v e]; simpl in Hh, Hm; try done; injection Hh as ->.
  - inv_opt. destruct (upd_channel_step _ _ _ _ E) as (x & Hcs); [done..|]. by exists x.
  - inv_opt. destruct (upd_channel_step _ _ _ _ E) as (x & Hcs); [done..|]. by exists x.
  - destruct (channels s !! c) as [x|] eqn:Hx; [|done]. simpl in Hm. exists (set_mdls [] x).
    rewrite Z.gtb_ltb in Hm. destruct (Z.ltb_spec 0 (syncSem x)).
    + left. inv_opt. destruct (upd_channel_step _ _ _ _ E) as (y & Hcs); [done..|].
      pose proof (cs_old _ _ _ _ _ Hcs) as Ho. rewrite (view_lookup _ _ _ Hx) in Ho. injection Ho as <-. simpl. split; [lia|done].
    + right. inv_opt. simpl. split; [lia|]. by rewrite (view_lookup _ _ _ Hx).
Qed.

Lemma inv_migrate K s' i k ph :
  inv K -> calls K !! i = Some k -> HubMigrateToServer (sys K) (request k) (at_phase k) = Some (s', ph) -> inv (advance K i k s' ph).
Proof.
  intros HI Hk Hm. pose proof (inv_calls _ HI _ _ Hk) as Hok.
  assert (exists c, holds (at_phase k) = Some c) as [c Hh] by (destruct (at_phase k); simpl in Hm |- *; eauto; done).
  destruct (held_view _ _ _ _ HI Hk Hh) as [x0 Hx0].
  destruct (migrate_spec _ _ _ _ _ c Hh Hm) as [x Hx]; [congruence|].
  assert (forall s1 x', chan_step (sys K) s1 c x x' -> x = x0) as Ho by (intros s1 x' Hcs; pose proof (cs_old _ _ _ _ _ Hcs); congruence).
  unfold call_ok in Hok. destruct (at_phase k) as [| |d| |d|d|d|d|d|d v e|v e] eqn:Hp; try done; simpl in Hh; injection Hh as ->.
  - destruct Hx as [-> Hcs]. pose proof (Ho _ _ Hcs) as ->. eapply inv_hand; rewrite ?Hp; try done; [| |by left].
    + intros self Hs. exfalso. apply (not_served K i k c self); rewrite ?Hp; done.
    + destruct Hok as (Hn & y & Hy & Hst & Hsem). rewrite Hx0 in Hy. injection Hy as <-. split; [done|].
      eexists. simpl. by rewrite (cs_new _ _ _ _ _ Hcs), lookup_insert_eq.
  - destruct Hx as [-> Hcs]. pose proof (Ho _ _ Hcs) as ->. eapply inv_hand; rewrite ?Hp; try done; [| |by left].
    + intros self Hs. exfalso. apply (not_served K i k c self); rewrite ?Hp; done.
    + destruct Hok as (Hn & y & Hy & Hst & Hsem & Hpa). rewrite Hx0 in Hy. injection Hy as <-.
      eexists. simpl. rewrite (cs_new _ _ _ _ _ Hcs), lookup_insert_eq. split; [done|]. split; [done|]. by left.
  - destruct Hok as (y & Hy & Hpa & Hcase). rewrite Hx0 in Hy. injection Hy as <-.
    destruct Hx as [(Hsem & -> & Hcs)|(Hsem & -> & -> & Hx)].
    + pose proof (Ho _ _ Hcs) as ->. destruct Hcase as [(_ & Hs0 & _)|(Hst & Hha & [[Hs0 _]|[Hs1 Hr]])]; [lia..|].
      eapply inv_hand; rewrite ?Hp; try done; [| |by left].
      * intros self ((y & Hy & _ & _ & Hys) & _). rewrite Hx0 in Hy. injection Hy as <-. lia.
      * eexists. simpl. rewrite (cs_new _ _ _ _ _ Hcs), lookup_insert_eq. split; [done|]. simpl. rewrite Hs1. by split.
    + rewrite Hx in Hx0. injection Hx0 as <-. eapply inv_hand; rewrite ?Hp; [done..|by apply chan_step_self| | |by left].
      * intros self ((y & Hy & ? & ? & ?) & _). rewrite Hx in Hy. by injection Hy as <-.
      * exists x. done.
Qed.

Lemma inv_advance K s' i k ph :
  inv K -> calls K !! i = Some k ->
  NX_HubCallParam (sys K) (caller k) (callee k) (request k) (at_phase k) = Some (s', ph) -> inv (advance K i k s' ph).
Proof.
  intros HI Hk Hs. pose proof (inv_calls _ HI _ _ Hk) as Hok. unfold NX_HubCallParam in Hs.
  assert (forall c, holds (at_phase k) = Some c -> at_phase k <> Waiting c -> forall self, ~ serving K self c) as Hns
    by (intros; eapply not_served; done).
  destruct (at_phase k) as [| |c| |c|c|c|c|c|c v e|v e] eqn:Hp.
  1-5: apply inv_get_free; rewrite ?Hp; done.
  1-3: apply inv_migrate; rewrite ?Hp; done.
  - unfold call_ok in Hok. rewrite Hp in Hok. destruct Hok as (x & Hx & Hst & Hsem & Hr).
    destruct (channels (sys K) !! c) as [y|] eqn:Hy; [|done]. simpl in Hs. injection Hs as <- <-.
    pose proof (view_lookup _ _ _ Hy) as Hx'. rewrite Hx in Hx'. injection Hx' as ->.
    eapply (inv_hand K); rewrite ?Hp; [done..|by apply chan_step_self| | |by left].
    + intros self Hse. by destruct (Hns c eq_refl ltac:(done) self).
    + split; [|done]. eexists. done.
  - unfold call_ok in Hok. rewrite Hp in Hok. destruct Hok as ((x & Hx & Hst & Hsem) & Hr). inv_opt.
    destruct (upd_channel_step _ _ _ _ E) as (x1 & Hcs); [done..|].
    pose proof (cs_old _ _ _ _ _ Hcs) as Ho. rewrite Hx in Ho. injection Ho as <-.
    eapply inv_hand; rewrite ?Hp; [done..| |done|by right].
    + intros self Hse. by destruct (Hns c eq_refl ltac:(done) self).
  - injection Hs as <- <-. apply inv_phase; rewrite ?Hp; try done; [apply HI|].
    pose proof (call_phase K i k HI Hk) as Hc. by rewrite Hp in Hc.
Qed.

(** ** Steps that leave the calls alone *)
Section env.
Context (K : Conf) (s' : Hubs (M := M)).
Context (HI : inv K) (Hfresh : fresh s') (Hhubs : hubs_ok s').
Context (Hlist : forall d, unlisted (sys K) d -> unlisted s' d).
Context (Hth : forall self r', threads s' !! self = Some r' -> activeChannel r' <> 0 ->
  exists r, threads (sys K) !! self = Some r /\ activeChannel r = activeChannel r').
Context (Hheld : forall i k c, calls K !! i = Some k -> holds (at_phase k) = Some c -> view s' !! c = view (sys K) !! c).
Context (Hsub : view s' ⊆ view (sys K)).

Lemma inv_env : inv (with_sys K s').
Proof.
  split; try done; try apply HI.
  - simpl. destruct (view s' !! 0) as [x|] eqn:Hx; [|done]. eapply lookup_weaken in Hx; [|exact Hsub].
    pose proof (inv_null _ HI). congruence.
  - intros i k Hk. apply (call_ok_stable K); [by apply (inv_calls _ HI)|apply logs_same| |].
    + intros c Hc. by apply (Hheld i k).
    + intros c _. apply Hlist.
  - intros c x Hx. simpl in Hx. eapply lookup_weaken in Hx; [|exact Hsub]. by apply (inv_owned _ HI).
  - intros self r' Hr Hz. destruct (Hth _ _ Hr Hz) as (r & Hr0 & He). rewrite <- He in *.
    pose proof (inv_servers _ HI _ _ Hr0 Hz) as Hs. apply (serving_stable K); [done|apply logs_same| |done].
    destruct (serving_waits _ _ _ HI Hs) as (k & Hk & Hw). simpl. eapply Hheld; [exact Hk|]. by rewrite Hw.
Qed.
End env.

(** The memory of the calls changes, nothing the invariant speaks of. *)
Definition frame s s' : Prop :=
  view s' = view s /\ hubs s' = hubs s /\ threads s' = threads s /\ (fresh s -> fresh s').

#[local] Instance frame_preorder : PreOrder frame.
Proof.
  split; [done|]. intros a b c (H1 & H2 & H3 & H4) (H5 & H6 & H7 & H8). split; [congruence|]. split; [congruence|]. split; [congruence|]. auto.
Qed.

Lemma inv_frame K s' : inv K -> frame (sys K) s' -> inv (with_sys K s').
Proof.
  intros HI (Hv & Hh & Ht & Hf). apply inv_env; [done|apply Hf, HI| | | | |by rewrite Hv].
  - intros h y. rewrite Hh, Hv. apply (inv_hubs _ HI).
  - intros d. unfold unlisted. by rewrite Hh.
  - intros self r'. rewrite Ht. eauto.
  - intros. by rewrite Hv.
Qed.

Lemma alloc_frame s s' a : NX_MemAlloc s = (s', a) -> frame s s'.
Proof.
  intros Ha. assert (fresh s -> fresh s') as Hf by (intros Hf; by apply (alloc_spec _ _ _ Hf Ha)).
  unfold NX_MemAlloc in Ha. destruct (heap s); injection Ha as <- <-; done.
Qed.

Lemma spaces_frame s sp : frame s (with_spaces s sp).
Proof. split; [done|]. split; [done|]. split; [done|]. intros Hf. by apply (fresh_view s). Qed.

Lemma mdls_frame s s' c f :
  upd_channel s c f = Some s' -> (forall x, set_mdls [] (f x) = set_mdls [] x) -> frame s s'.
Proof.
  intros Hu Hf. unfold upd_channel in Hu. inv_opt.
  assert (view (with_channels s (<[c := f n]> (channels s))) = view s) as Hv.
  { unfold view. simpl. rewrite fmap_insert, Hf. apply insert_id. by rewrite lookup_fmap, E. }
  split; [done|]. split; [done|]. split; [done|]. intros Hfr. apply (fresh_view s); [done..|]. by rewrite Hv.
Qed.

Lemma unmap_frame s s' p a n e : unmap s p a n = Some (s', e) -> frame s s'.
Proof.
  unfold unmap. intros Hu. destruct (spaces s !! p); [|done]. simpl in Hu.
  destruct (NX_MemAlloc s) as [s1 a1] eqn:E1. destruct (NX_MemAlloc s1) as [s2 a2] eqn:E2. inv_opt.
  etrans; [by eapply alloc_frame|]. etrans; [by eapply alloc_frame|]. apply spaces_frame.
Qed.

Lemma Unmap_loop_frame n s s' p a : Unmap_loop s p n a = Some s' -> frame s s'.
Proof.
  revert s a. induction n as [|n IH]; intros s a Hu; simpl in Hu; inv_opt; [done|].
  etrans; [by eapply unmap_frame|by eapply IH].
Qed.

Lemma ReleaseMdl_frame l s s' : NX_HubReleaseMdl s l = Some s' -> frame s s'.
Proof.
  revert s. induction l as [|m l IH]; intros s Hu; simpl in Hu; inv_opt; [done|].
  etrans; [by eapply Unmap_loop_frame|by apply IH].
Qed.

Lemma Map_loop_frame n s s' a b st v m k r :
  Map_loop NX_PAGE_ATTR_USER s a b st n v m k = Some (s', r) -> frame s s'.
Proof.
  revert s v m k. induction n as [|n IH]; intros s v m k Hu; simpl in Hu; [by inv_opt|].
  destruct (spaces s !! a) as [sp|]; [|done]. simpl in Hu. destruct (NX_VmspaceVirToPhy sp v) as [phy|]; [|done]. simpl in Hu.
  destruct (nz phy); [|done]. simpl in Hu. destruct (spaces s !! b) as [tp|]; [|done]. simpl in Hu.
  destruct (NX_MemAlloc s) as [s1 a1] eqn:E1.
  destruct (NX_VmspaceMapWithPhy _ _ _ _ _ _ _) as [[[tp1 err] addr]|]; [|done]. simpl in Hu.
  etrans; [by eapply alloc_frame|]. etrans; [apply (spaces_frame s1 (<[b := tp1]> (spaces s1)))|].
  destruct (negb (is_ok err)); [|by eapply IH].
  destruct (k >? 0); inv_opt; [|done]. by eapply unmap_frame.
Qed.

Lemma MapAddr_frame s s' c a b addr n r : NX_HubMapAddr NX_PAGE_ATTR_USER s c a b addr n = Some (s', r) -> frame s s'.
Proof.
  unfold NX_HubMapAddr. intros Hu. destruct (threads s !! b) as [rb|]; [|done]. destruct (threads s !! a) as [ra|]; [|done].
  simpl in Hu. destruct (_ || _); [by inv_opt|]. destruct (channels s !! c) as [x|]; [|done]. simpl in Hu.
  destruct (_ >=? _); [by inv_opt|]. destruct (CreateMdl s c addr n (process rb)) as [[s1 o]|] eqn:Ec; [|done]. simpl in Hu.
  etrans.
  { unfold CreateMdl in Ec. destruct (NX_MemAlloc s) as [s2 a2] eqn:E2. apply alloc_frame in E2. etrans; [exact E2|].
    destruct (a2 =? 0); inv_opt; [done|]. by eapply mdls_frame. }
  destruct o as [mdl|]; [|by inv_opt]. destruct (MapMdl _ _ _ _ _) as [[s2 m]|] eqn:Em; [|done]. simpl in Hu.
  etrans.
  { unfold MapMdl in Em. inv_opt. destruct (negb b0); [by inv_opt|]. by eapply Map_loop_frame. }
  destruct (m =? 0); inv_opt; by eapply mdls_frame.
Qed.

Lemma translate_frame s s' self a n r : NX_HubTranslate NX_PAGE_ATTR_USER s self a n = Some (s', r) -> frame s s'.
Proof.
  unfold NX_HubTranslate. intros Hu. destruct (threads s !! self) as [rs|]; [|done]. simpl in Hu.
  destruct (_ || _); [by inv_opt|]. destruct (channels s !! activeChannel rs) as [x|]; [|done]. simpl in Hu.
  destruct (negb _); [by inv_opt|]. destruct (sourceThread x =? 0); [by inv_opt|]. destruct (negb _); [by inv_opt|]. by eapply MapAddr_frame.
Qed.


(** *** Registering

    The thread changes hubs, its channel in hand stays. *)
Definition same_active s s' : Prop :=
  forall t r', threads s' !! t = Some r' -> exists r, threads s !! t = Some r /\ activeChannel r = activeChannel r'.

Lemma upd_thread_spec s s' t f :
  upd_thread s t f = Some s' ->
  view s' = view s /\ hubs s' = hubs s /\ heap s' = heap s /\
  exists r, threads s !! t = Some r /\ threads s' = <[t := f r]> (threads s).
Proof. intros Hu. unfold upd_thread in Hu. inv_opt. eauto 10. Qed.

Lemma same_active_insert s s' t r r' :
  threads s !! t = Some r -> threads s' = <[t := r']> (threads s) -> activeChannel r' = activeChannel r -> same_active s s'.
Proof.
  intros Hr Ht Ha u r1. rewrite Ht. intros [[<- <-]|[_ Hu]]%lookup_insert_Some; eauto.
Qed.

Lemma inv_hub_change K s' :
  inv K -> fresh s' -> view s' = view (sys K) -> same_active (sys K) s' ->
  (forall g y, hubs s' !! g = Some y -> channelListHead y = [] \/ hubs (sys K) !! g = Some y) ->
  inv (with_sys K s').
Proof.
  intros HI Hf Hv Ha Hh. apply inv_env; [done..| | | | |by rewrite Hv].
  - intros g y Hy. rewrite Hv. destruct (Hh _ _ Hy) as [->|Ho]; [|by apply (inv_hubs _ HI)].
    split; [constructor|]. intros c Hc. by apply elem_of_nil in Hc.
  - intros d Hd g y Hy. destruct (Hh _ _ Hy) as [->|Ho]; [apply not_elem_of_nil|by apply (Hd g)].
  - intros t r' Hr _. by apply Ha.
  - intros. by rewrite Hv.
Qed.

Lemma inv_register K s' self nm m h e :
  inv K -> NX_HubRegister (sys K) self nm m = Some (s', h, e) -> inv (with_sys K s').
Proof.
  intros HI Hr. unfold NX_HubRegister in Hr. destruct nm as [nm|]; [|inv_opt; by apply inv_frame].
  destruct (SearchHub (sys K) nm) as [g|]; [|done]. simpl in Hr. destruct (nz g); [inv_opt; by apply inv_frame|].
  destruct (CreateHub (sys K) nm _) as [[s1 h1]|] eqn:Ec; [|done]. simpl in Hr. unfold CreateHub in Ec.
  destruct (NX_MemAlloc (sys K)) as [s0 a] eqn:Ea. apply alloc_frame in Ea.
  destruct (Z.eqb_spec a 0) as [->|Hz].
  { injection Ec as <- <-. injection Hr as <- _ _. by apply inv_frame. }
  destruct (HubInit nm _) as [y|] eqn:Ei; [|done]. simpl in Ec. injection Ec as <- <-.
  destruct (Z.eqb_spec a 0) as [?|_]; [done|]. inv_opt.
  apply upd_thread_spec in E as (Hv & Hh & He & r & Hr & Ht). destruct Ea as (Hv0 & Hh0 & Ht0 & Hf0).
  apply (inv_hub_change K s' HI).
  - apply (fresh_view s0); [apply Hf0, HI|by rewrite He|by rewrite Hv].
  - by rewrite Hv, <- Hv0.
  - simpl in Hr, Ht. rewrite Ht0 in Hr, Ht. by eapply same_active_insert.
  - intros g' y'. rewrite Hh. simpl. rewrite Hh0. intros [[<- <-]|[_ Hy]]%lookup_insert_Some; [left|by right].
    unfold HubInit in Ei. by inv_opt.
Qed.

Lemma inv_unregister K s' self nm e :
  inv K -> NX_HubUnregister (sys K) self nm = Some (s', e) -> inv (with_sys K s').
Proof.
  intros HI Hr. unfold NX_HubUnregister in Hr. destruct nm as [nm|]; [|inv_opt; by apply inv_frame].
  destruct (SearchHub (sys K) nm) as [g|]; [|done]. simpl in Hr. destruct (g =? 0); [inv_opt; by apply inv_frame|].
  destruct (threads (sys K) !! self) as [rs|] eqn:Ers; [|done]. simpl in Hr.
  destruct (negb _); [inv_opt; by apply inv_frame|]. destruct (hubs (sys K) !! g) as [y|] eqn:Ey; [|done]. simpl in Hr.
  destruct (_ >? _); [inv_opt; by apply inv_frame|].
  destruct (upd_thread (sys K) self _) as [s1|] eqn:E; [|done]. simpl in Hr. injection Hr as <- _.
  apply upd_thread_spec in E as (Hv & Hh & He & r & Hr & Ht).
  apply (inv_hub_change K _ HI); [|done| |].
  - apply (fresh_view (sys K)); [apply HI|by rewrite <- He|]. intros a Ha. unfold view. simpl. fold (view s1). by rewrite Hv.
  - by eapply same_active_insert.
  - intros g' y'. simpl. rewrite Hh. intros [_ Hy]%lookup_delete_Some. by right.
Qed.

(** ** The server *)
Lemma upd_hub_spec s s' h f :
  upd_hub s h f = Some s' ->
  exists y, hubs s !! h = Some y /\ hubs s' = <[h := f y]> (hubs s) /\
  view s' = view s /\ threads s' = threads s /\ heap s' = heap s /\ channels s' = channels s.
Proof. unfold upd_hub. intros Hu. inv_opt. eauto 10. Qed.

Lemma upd_channel_view s s' c f :
  upd_channel s c f = Some s' -> (forall x, set_mdls [] (f x) = f (set_mdls [] x)) ->
  exists x, view s !! c = Some x /\ view s' = <[c := f x]> (view s) /\
  hubs s' = hubs s /\ threads s' = threads s /\ heap s' = heap s.
Proof.
  intros Hu Hf. unfold upd_channel in Hu. inv_opt. exists (set_mdls [] n). split; [by apply view_lookup|]. split; [|done].
  unfold view. simpl. by rewrite fmap_insert, Hf.
Qed.

Lemma poll_spec s s' self p e :
  NX_HubPoll s self = Some (s', p, e) -> exists r, threads s !! self = Some r /\
  ((s' = s /\ p = None) \/
   (p = None /\ HubCheckChannelRelease s (rhub r) = Some s') \/
   (exists y c x, hubs s !! rhub r = Some y /\ c ∈ channelListHead y /\ view s !! c = Some x /\ state x = NX_HUB_CHANNEL_ACTIVE /\
      p = Some (param x) /\ view s' = <[c := set_threads (sourceThread x) self (set_state NX_HUB_CHANNEL_HANDLED x)]> (view s) /\
      hubs s' = <[rhub r := set_idle 0 y]> (hubs s) /\ threads s' = <[self := mkRes (rhub r) c (process r)]> (threads s) /\
      heap s' = heap s)).
Proof.
  unfold NX_HubPoll. intros Hp. destruct (threads s !! self) as [r|] eqn:Hr; [|done]. simpl in Hp. exists r. split; [done|].
  destruct (rhub r =? 0); [injection Hp as <- <- _; by left|]. right. destruct (find_state s (rhub r) NX_HUB_CHANNEL_ACTIVE) as [o|] eqn:Hf; [|done].
  simpl in Hp. apply find_state_Some in Hf as (y & Hy & Ho). destruct o as [c|]; [right|inv_opt; by left].
  destruct Ho as (Hc & x & Hx & Hst). exists y, c, x. inv_opt.
  apply upd_channel_view in E as (x1 & Hx1 & Hv1 & Hh1 & Ht1 & He1); [|done]. rewrite Hx in Hx1. injection Hx1 as <-.
  apply upd_hub_spec in E0 as (y1 & Hy1 & Hh2 & Hv2 & Ht2 & He2 & Hc2). rewrite Hh1, Hy in Hy1. injection Hy1 as <-.
  assert (set_mdls [] n = set_state NX_HUB_CHANNEL_HANDLED x) as Hn.
  { apply view_lookup in E1. rewrite Hv2, Hv1, lookup_insert_eq in E1. congruence. }
  apply upd_channel_view in E2 as (x2 & Hx2 & Hv3 & Hh3 & Ht3 & He3); [|done].
  rewrite Hv2, Hv1, lookup_insert_eq in Hx2. injection Hx2 as <-.
  apply upd_thread_spec in E3 as (Hv4 & Hh4 & He4 & r1 & Hr1 & Ht4). rewrite Ht3, Ht2, Ht1, Hr in Hr1. injection Hr1 as <-.
  assert (param n = param x /\ sourceThread n = sourceThread x) as [-> Hs]
    by (change (param (set_mdls [] n) = param x /\ sourceThread (set_mdls [] n) = sourceThread x); by rewrite Hn).
  rewrite Hv4, Hv3, Hv2, Hv1, insert_insert_eq, Hh4, Hh3, Hh2, Hh1, Ht4, Ht3, Ht2, Ht1, He4, He3, He2, He1, Hs. done.
Qed.

Lemma return_spec s s' self v e err :
  NX_HubReturn s self v e = Some (s', err) -> exists r, threads s !! self = Some r /\
  ((err <> NX_EOK /\ s' = s) \/
   (err = NX_EOK /\ activeChannel r <> 0 /\ exists x, view s !! activeChannel r = Some x /\
      view s' = <[activeChannel r := set_sem (syncSem x + 1) (set_ret v e x)]> (view s) /\ hubs s' = hubs s /\
      threads s' = <[self := mkRes (rhub r) 0 (process r)]> (threads s) /\ (fresh s -> fresh s'))).
Proof.
  unfold NX_HubReturn. intros Hp. destruct (threads s !! self) as [r|] eqn:Hr; [|done]. simpl in Hp. exists r. split; [done|].
  destruct (rhub r =? 0); [injection Hp as <- <-; by left|]. destruct (Z.eqb_spec (activeChannel r) 0) as [|Hz]; [injection Hp as <- <-; by left|].
  destruct (channels s !! activeChannel r) as [x|] eqn:Hx; [|done]. simpl in Hp.
  destruct (negb _); [injection Hp as <- <-; by left|]. right. inv_opt.
  apply upd_thread_spec in E as (Hv1 & Hh1 & He1 & r1 & Hr1 & Ht1). rewrite Hr in Hr1. injection Hr1 as <-.
  apply ReleaseMdl_frame in E0 as (Hv2 & Hh2 & Ht2 & Hf2). apply mdls_frame in E1 as (Hv3 & Hh3 & Ht3 & Hf3); [|done].
  apply upd_channel_view in E2 as (x4 & Hx4 & Hv4 & Hh4 & Ht4 & He4); [|done].
  apply upd_channel_view in E3 as (x5 & Hx5 & Hv5 & Hh5 & Ht5 & He5); [|done].
  rewrite Hv3, Hv2, Hv1 in Hx4, Hv4. rewrite Hv4, lookup_insert_eq in Hx5. injection Hx5 as <-.
  split; [done|]. split; [done|]. exists x4. split; [done|]. split; [by rewrite Hv5, Hv4, insert_insert_eq|].
  split; [congruence|]. split; [congruence|]. intros Hf.
  assert (fresh h1) as Hf1 by (apply Hf3, Hf2, (fresh_view s); [done..|by rewrite Hv1]).
  apply (fresh_view h1); [done|congruence|]. intros a. rewrite Hv5, Hv4, Hv3, Hv2, Hv1, insert_insert_eq. intros Ha.
  rewrite lookup_insert_ne; [done|]. congruence.
Qed.


Lemma unanswered K i : inv K -> new K i -> i ∉ (answered K).*1.
Proof.
  intros HI Hn ([j [[t v] e]] & Hi & Hin)%list_elem_of_fmap. simpl in Hi. subst j.
  destruct (proj2 (inv_answered _ HI) _ _ _ _ Hin) as [p Hp]. apply Hn. by apply (list_elem_of_fmap_2 fst) in Hp.
Qed.

(** *** A request is handed out *)
Section hand_out.
Context (K : Conf) (s' : Hubs (M := M)) (self : Z) (r : Resource) (y : NX_Hub) (c : Z) (x : NX_HubChannel).
Context (HI : inv K) (Hr : threads (sys K) !! self = Some r) (Hy : hubs (sys K) !! rhub r = Some y).
Context (Hx : view (sys K) !! c = Some x) (Hst : state x = NX_HUB_CHANNEL_ACTIVE).
Local Abbreviation x' := (set_threads (sourceThread x) self (set_state NX_HUB_CHANNEL_HANDLED x)).
Context (Hv : view s' = <[c := x']> (view (sys K))) (Hh : hubs s' = <[rhub r := set_idle 0 y]> (hubs (sys K))).
Context (Ht : threads s' = <[self := mkRes (rhub r) c (process r)]> (threads (sys K))) (He : heap s' = heap (sys K)).
Local Abbreviation j := (holder K c).
Local Abbreviation K' := (mkConf s' (calls K) (holder K) ((j, (self, param x)) :: polled K) (answered K)).

Lemma hand_out_owner : exists k, calls K !! j = Some k /\ at_phase k = Waiting c /\ param x = request k /\ syncSem x = 0 /\ new K j.
Proof.
  destruct (inv_owned _ HI _ _ Hx) as [[]|(i & k & Hk & Hhk)]; [congruence|]. pose proof (inv_holder _ HI _ _ _ Hk Hhk) as <-.
  pose proof (call_held _ _ _ _ _ HI Hk Hhk Hx) as Hp. rewrite Hst in Hp.
  pose proof (inv_calls _ HI _ _ Hk) as Hok. unfold call_ok in Hok. rewrite Hp in Hok.
  destruct Hok as (x0 & Hx0 & Hpa & Hcase). rewrite Hx in Hx0. injection Hx0 as <-.
  destruct Hcase as [(_ & Hsem & Hnew)|(? & _)]; [|congruence]. by exists k.
Qed.

Lemma hand_out_logs i : i <> j -> logs_for K K' i.
Proof.
  intros Hi. split; simpl; try done; [|intros a Ha; by right]. unfold new. simpl. intros Hn. by rewrite not_elem_of_cons.
Qed.

Lemma hand_out_view d : d <> c -> view (sys K') !! d = view (sys K) !! d.
Proof. intros. simpl. rewrite Hv. by rewrite lookup_insert_ne. Qed.

Lemma hand_out_calls i k : calls K' !! i = Some k -> call_ok K' i k.
Proof.
  intros Hk. destruct hand_out_owner as (kj & Hkj & Hw & Hpa & Hsem & Hn). destruct (decide (i = j)) as [->|Hij].
  - simpl in Hk. rewrite Hkj in Hk. injection Hk as <-. unfold call_ok. rewrite Hw. exists x'. simpl. rewrite Hv, lookup_insert_eq.
    split; [done|]. split; [done|]. right. split; [done|]. split; [|left; split; [done|exact (unanswered K j HI Hn)]].
    exists self. rewrite Hpa. by left.
  - apply (call_ok_stable K); [by apply (inv_calls _ HI)|by apply hand_out_logs| |].
    + intros d Hd. apply hand_out_view. intros ->. apply Hij. symmetry. by apply (inv_holder _ HI i k).
    + intros d _ Hu h z. simpl. rewrite Hh. intros [[<- <-]|[_ Hz]]%lookup_insert_Some; [by apply (Hu (rhub r) y)|by apply (Hu h)].
Qed.

Lemma hand_out_servers t rt : threads (sys K') !! t = Some rt -> activeChannel rt <> 0 -> serving K' t (activeChannel rt).
Proof.
  simpl. rewrite Ht. intros [[<- <-]|[Hne Hrt]]%lookup_insert_Some Hz; simpl in *.
  - destruct hand_out_owner as (kj & Hkj & Hw & Hpa & Hsem & Hn). split; [|split; [exact (unanswered K j HI Hn)|]].
    + exists x'. simpl. by rewrite Hv, lookup_insert_eq.
    + exists (param x). by left.
  - pose proof (inv_servers _ HI _ _ Hrt Hz) as Hs.
    assert (activeChannel rt <> c) as Hd by (intros E; rewrite E in Hs; destruct Hs as ((x1 & Hx1 & ? & _) & _); congruence).
    assert (holder K (activeChannel rt) <> j) as Hdj.
    { intros E. destruct (serving_waits _ _ _ HI Hs) as (k1 & Hk1 & Hw1). destruct hand_out_owner as (k2 & Hk2 & Hw2 & _). congruence. }
    apply (serving_stable K); [done|by apply hand_out_logs|by apply hand_out_view|done].
Qed.

Lemma inv_hand_out : inv K'.
Proof.
  destruct hand_out_owner as (kj & Hkj & Hw & Hpa & Hsem & Hn).
  split; try apply hand_out_calls; try apply hand_out_servers.
  - apply (fresh_view (sys K)); [apply HI|done|]. intros a Ha. simpl. rewrite Hv, lookup_insert_ne; [done|]. congruence.
  - rewrite hand_out_view; [apply HI|]. intros <-. pose proof (inv_null _ HI). congruence.
  - intros h z. simpl. rewrite Hh, Hv. intros Hz.
    assert (exists z0, hubs (sys K) !! h = Some z0 /\ channelListHead z0 = channelListHead z) as (z0 & Hz0 & <-).
    { apply lookup_insert_Some in Hz as [[<- <-]|[_ Hz]]; eauto. }
    destruct (inv_hubs _ HI _ _ Hz0) as [Hnd Hl]. split; [done|]. intros d Hd. destruct (Hl _ Hd) as (x1 & Hx1 & Hxh).
    destruct (decide (d = c)) as [->|Hdc]; [rewrite lookup_insert_eq|rewrite lookup_insert_ne by done; eauto].
    eexists. split; [done|]. simpl. congruence.
  - apply (inv_holder _ HI).
  - intros d x1. simpl. rewrite Hv. intros [[<- <-]|[_ Hx1]]%lookup_insert_Some; [right; exists j, kj; by rewrite Hw|by apply (inv_owned _ HI)].
  - simpl. split; [apply NoDup_cons; split; [done|apply HI]|]. intros i t p [E|Hi]%elem_of_cons; [|by apply (inv_polled _ HI) in Hi].
    injection E as -> -> ->. eauto.
  - split; [apply HI|]. intros i t v e Hi. destruct (proj2 (inv_answered _ HI) _ _ _ _ Hi) as [p Hp]. exists p. by right.
Qed.
End hand_out.

(** *** A request is answered *)
Section answer.
Context (K : Conf) (s' : Hubs (M := M)) (self v : Z) (e : NX_Error) (r : Resource) (x : NX_HubChannel).
Local Abbreviation c := (activeChannel r).
Local Abbreviation x' := (set_sem (syncSem x + 1) (set_ret v e x)).
Context (HI : inv K) (Hr : threads (sys K) !! self = Some r) (Hz : c <> 0) (Hx : view (sys K) !! c = Some x).
Context (Hv : view s' = <[c := x']> (view (sys K))) (Hh : hubs s' = hubs (sys K)).
Context (Ht : threads s' = <[self := mkRes (rhub r) 0 (process r)]> (threads (sys K))) (Hf : fresh s').
Local Abbreviation j := (holder K c).
Local Abbreviation K' := (mkConf s' (calls K) (holder K) (polled K) ((j, (self, v, e)) :: answered K)).

Lemma answer_owner : exists k, calls K !! j = Some k /\ at_phase k = Waiting c /\ param x = request k /\ handed K j k /\
  state x = NX_HUB_CHANNEL_HANDLED /\ targetThread x = self /\ syncSem x = 0 /\ j ∉ (answered K).*1 /\ exists p, (j, (self, p)) ∈ polled K.
Proof.
  pose proof (inv_servers _ HI _ _ Hr Hz) as Hs. destruct (serving_waits _ _ _ HI Hs) as (k & Hk & Hw). exists k.
  destruct Hs as ((x1 & Hx1 & Hst & Htt & Hsem) & Hna & Hp). rewrite Hx in Hx1. injection Hx1 as <-.
  pose proof (inv_calls _ HI _ _ Hk) as Hok. unfold call_ok in Hok. rewrite Hw in Hok.
  destruct Hok as (x0 & Hx0 & Hpa & Hcase). rewrite Hx in Hx0. injection Hx0 as <-.
  destruct Hcase as [(? & _)|(_ & Hha & _)]; [congruence|]. by eauto 12.
Qed.

Lemma answer_logs i : i <> j -> logs_for K K' i.
Proof. intros Hi. split; simpl; try done; [intros Hn; by rewrite not_elem_of_cons|intros a Ha; by right]. Qed.

Lemma answer_view d : d <> c -> view (sys K') !! d = view (sys K) !! d.
Proof. intros. simpl. rewrite Hv. by rewrite lookup_insert_ne. Qed.

Lemma answer_calls i k : calls K' !! i = Some k -> call_ok K' i k.
Proof.
  intros Hk. destruct answer_owner as (kj & Hkj & Hw & Hpa & Hha & Hst & _ & Hsem & Hna & _). destruct (decide (i = j)) as [->|Hij].
  - simpl in Hk. rewrite Hkj in Hk. injection Hk as <-. unfold call_ok. rewrite Hw. exists x'. simpl. rewrite Hv, lookup_insert_eq.
    split; [done|]. split; [done|]. right. split; [done|]. split; [done|]. right. split; [simpl; lia|]. exists self. by left.
  - apply (call_ok_stable K); [by apply (inv_calls _ HI)|by apply answer_logs| |].
    + intros d Hd. apply answer_view. intros ->. apply Hij. symmetry. by apply (inv_holder _ HI i k).
    + intros d _. unfold unlisted. simpl. by rewrite Hh.
Qed.

Lemma answer_servers t rt : threads (sys K') !! t = Some rt -> activeChannel rt <> 0 -> serving K' t (activeChannel rt).
Proof.
  simpl. rewrite Ht. intros [[<- <-]|[Hne Hrt]]%lookup_insert_Some Hz'; simpl in *; [done|].
  pose proof (inv_servers _ HI _ _ Hrt Hz') as Hs. destruct answer_owner as (k2 & Hk2 & Hw2 & _ & _ & _ & Htt & _).
  assert (activeChannel rt <> c) as Hd by (intros E; rewrite E in Hs; destruct Hs as ((x1 & Hx1 & _ & ? & _) & _); congruence).
  assert (holder K (activeChannel rt) <> j) as Hdj.
  { intros E. destruct (serving_waits _ _ _ HI Hs) as (k1 & Hk1 & Hw1). congruence. }
  apply (serving_stable K); [done|by apply answer_logs|by apply answer_view|done].
Qed.

Lemma inv_answer : inv K'.
Proof.
  destruct answer_owner as (kj & Hkj & Hw & Hpa & Hha & Hst & Htt & Hsem & Hna & Hp).
  split; try apply answer_calls; try apply answer_servers; try done; try apply HI.
  - rewrite answer_view; [apply HI|done].
  - intros h z. simpl. rewrite Hh, Hv. intros Hz0.
    destruct (inv_hubs _ HI _ _ Hz0) as [Hnd Hl]. split; [done|]. intros d Hd. destruct (Hl _ Hd) as (x1 & Hx1 & Hxh).
    destruct (decide (d = c)) as [->|Hdc]; [rewrite lookup_insert_eq|rewrite lookup_insert_ne by done; eauto].
    eexists. split; [done|]. simpl. congruence.
  - intros d x1. simpl. rewrite Hv. intros [[<- <-]|[_ Hx1]]%lookup_insert_Some; [right; exists j, kj; by rewrite Hw|by apply (inv_owned _ HI)].
  - simpl. split; [apply NoDup_cons; split; [done|apply HI]|]. intros i t w f [E|Hi]%elem_of_cons; [|by apply (inv_answered _ HI) in Hi].
    injection E as -> -> -> ->. done.
Qed.
End answer.

(** *** Giving the channels back *)
Record freed (l : list Z) (h : Z) s s' : Prop := {
  freed_view : forall c, c ∉ l -> view s' !! c = view s !! c;
  freed_sub : view s' ⊆ view s;
  freed_others : forall g, g <> h -> hubs s' !! g = hubs s !! g;
  freed_list : forall y', hubs s' !! h = Some y' -> exists y, hubs s !! h = Some y /\
    (NoDup (channelListHead y) -> NoDup (channelListHead y')) /\
    forall d, d ∈ channelListHead y' -> d ∈ channelListHead y /\ d ∉ l;
  freed_threads : threads s' = threads s;
  freed_heap : heap s' = heap s
}.

Lemma del_channel_freed s s1 s2 h c e :
  HubDelChannelLocked s h c = Some s1 -> DestroyChannel s1 c = Some (s2, e) -> freed [c] h s s2.
Proof.
  intros Hd Hx. apply upd_hub_spec in Hd as (y & Hy & Hh & Hv & Ht & He & Hc).
  assert (hubs s2 = hubs s1 /\ threads s2 = threads s1 /\ heap s2 = heap s1 /\
          (view s2 = view s1 \/ view s2 = delete c (view s1))) as (Hh2 & Ht2 & He2 & Hv2).
  { unfold DestroyChannel in Hx. destruct (channels s1 !! c); [|done]. simpl in Hx.
    destruct (hub n =? 0); injection Hx as <- <-; [by auto|]. do 3 (split; [done|]). right. unfold view. simpl. by rewrite fmap_delete. }
  rewrite Hv in Hv2. split; rewrite ?Hh2, ?Ht2, ?He2; try done.
  - intros d Hd. destruct Hv2 as [->| ->]; [done|]. rewrite lookup_delete_ne; [done|]. intros ->. apply Hd. by left.
  - destruct Hv2 as [->| ->]; [done|]. apply delete_subseteq.
  - intros g Hg. rewrite Hh. by rewrite lookup_insert_ne.
  - intros y'. rewrite Hh, lookup_insert_eq. intros [= <-]. exists y. split; [done|]. simpl. split; [apply NoDup_list_del|].
    intros d [Hdc Hin]%elem_of_list_del. split; [done|]. by rewrite list_elem_of_singleton.
Qed.

Lemma Release_loop_freed l h s s' : Release_loop s h l = Some s' -> freed l h s s'.
Proof.
  revert s. induction l as [|c l IH]; intros s Hr; simpl in Hr.
  - injection Hr as <-. split; try done. intros y' Hy. exists y'. split; [done|]. split; [done|].
    intros d Hd. split; [done|]. apply not_elem_of_nil.
  - inv_opt. pose proof (del_channel_freed _ _ _ _ _ _ E E0) as [V1 S1 O1 L1 T1 H1]. apply IH in Hr as [V2 S2 O2 L2 T2 H2]. split.
    + intros d [Hd Hl]%not_elem_of_cons. rewrite V2 by done. apply V1. by rewrite list_elem_of_singleton.
    + by etrans.
    + intros g Hg. rewrite O2 by done. by apply O1.
    + intros y' Hy'. destruct (L2 _ Hy') as (y1 & Hy1 & N2 & Hl2). destruct (L1 _ Hy1) as (y & Hy & N1 & Hl1).
      exists y. split; [done|]. split; [by auto|]. intros d Hd. apply Hl2 in Hd as [Hd Hn]. apply Hl1 in Hd as [Hd Hn'].
      split; [done|]. rewrite not_elem_of_cons. rewrite list_elem_of_singleton in Hn'. by split.
    + congruence.
    + congruence.
Qed.

Lemma inv_freed K s' h y :
  inv K -> hubs (sys K) !! h = Some y ->
  (forall c x, c ∈ channelListHead y -> view (sys K) !! c = Some x -> state x = NX_HUB_CHANNEL_IDLE) ->
  freed (channelListHead y) h (sys K) s' -> inv (with_sys K s').
Proof.
  intros HI Hy Hidle [V S O L T Hp].
  assert (forall g z, hubs s' !! g = Some z -> NoDup (channelListHead z) /\
    (forall d, d ∈ channelListHead z -> d ∉ channelListHead y) /\
    exists z0, hubs (sys K) !! g = Some z0 /\ forall d, d ∈ channelListHead z -> d ∈ channelListHead z0) as Hz.
  { intros g z Hz. destruct (decide (g = h)) as [->|Hne].
    - destruct (L _ Hz) as (y0 & Hy0 & Hn & Hl). rewrite Hy in Hy0. injection Hy0 as <-.
      split; [by apply Hn, (inv_hubs _ HI _ _ Hy)|]. split; [intros d Hd; by apply Hl|]. exists y. split; [done|]. intros d Hd. by apply Hl.
    - rewrite O in Hz by done. split; [by apply (inv_hubs _ HI _ _ Hz)|]. split; [|by exists z]. intros d Hd Hdy.
      destruct (proj2 (inv_hubs _ HI _ _ Hz) _ Hd) as (x1 & Hx1 & Hh1). destruct (proj2 (inv_hubs _ HI _ _ Hy) _ Hdy) as (x2 & Hx2 & Hh2).
      congruence. }
  apply inv_env; try done.
  - apply (fresh_view (sys K)); [apply HI|done|]. intros a Ha. by eapply lookup_weaken_None.
  - intros g z Hg. destruct (Hz _ _ Hg) as (Hnd & Hout & z0 & Hz0 & Hin). split; [done|]. intros d Hd.
    rewrite V by by apply Hout. by apply (inv_hubs _ HI _ _ Hz0), Hin.
  - intros d Hu g z Hg Hd. destruct (Hz _ _ Hg) as (_ & _ & z0 & Hz0 & Hin). by apply (Hu g z0), Hin.
  - intros t r'. rewrite T. eauto.
  - intros i k c Hk Hc. apply V. intros Hin. destruct (held_view _ _ _ _ HI Hk Hc) as [x Hx].
    apply (listed_unheld K h y c x i k HI); eauto.
Qed.


Lemma inv_idle K s' h y t :
  inv K -> hubs (sys K) !! h = Some y -> hubs s' = <[h := set_idle t y]> (hubs (sys K)) -> view s' = view (sys K) ->
  threads s' = threads (sys K) -> heap s' = heap (sys K) -> inv (with_sys K s').
Proof.
  intros HI Hy Hh Hv Ht He.
  assert (forall g z, hubs s' !! g = Some z -> exists z0, hubs (sys K) !! g = Some z0 /\ channelListHead z = channelListHead z0) as Hz.
  { intros g z. rewrite Hh. intros [[<- <-]|[_ Hz]]%lookup_insert_Some; eauto. }
  apply inv_env; [done| | | | | |by rewrite Hv].
  - apply (fresh_view (sys K)); [apply HI|done|by rewrite Hv].
  - intros g z Hg. destruct (Hz _ _ Hg) as (z0 & Hz0 & ->). rewrite Hv. by apply (inv_hubs _ HI).
  - intros d Hu g z Hg. destruct (Hz _ _ Hg) as (z0 & Hz0 & ->). by apply (Hu g).
  - intros u r'. rewrite Ht. eauto.
  - intros. by rewrite Hv.
Qed.

Lemma inv_check_release K s' self r :
  inv K -> threads (sys K) !! self = Some r -> calm (sys K) self ->
  HubCheckChannelRelease (sys K) (rhub r) = Some s' -> inv (with_sys K s').
Proof.
  intros HI Hr Hcalm Hs. unfold HubCheckChannelRelease in Hs.
  destruct (hubs (sys K) !! rhub r) as [y|] eqn:Hy; [|done]. simpl in Hs.
  destruct (_ >? 0); [|injection Hs as <-; by apply inv_frame].
  set (idle := if idleTime y =? 0 then clock (sys K) else idleTime y) in *.
  destruct (upd_hub (sys K) (rhub r) (set_idle idle)) as [s1|] eqn:E1; [|done]. simpl in Hs.
  assert (clock s1 = clock (sys K)) as Hck by (unfold upd_hub in E1; by inv_opt).
  apply upd_hub_spec in E1 as (y1 & Hy1 & Hh1 & Hv1 & Ht1 & He1 & Hc1). rewrite Hy in Hy1. injection Hy1 as <-.
  pose proof (inv_idle K s1 _ _ _ HI Hy Hh1 Hv1 Ht1 He1) as HI1.
  destruct (_ >? _) eqn:Ec in Hs; [|by injection Hs as <-].
  destruct (Release_loop s1 (rhub r) (channelListHead y)) as [s2|] eqn:E2; [|done]. simpl in Hs.
  apply Release_loop_freed in E2.
  assert (inv (with_sys K s2)) as HI2.
  { apply (inv_freed (with_sys K s1) s2 (rhub r) (set_idle idle y)); [done|simpl; by rewrite Hh1, lookup_insert_eq| |done].
    simpl. intros c x Hc. rewrite Hv1. unfold view. rewrite lookup_fmap. intros (x0 & Hx0 & ->)%fmap_Some. simpl.
    rewrite Hck, Z.gtb_ltb in Ec. apply Z.ltb_lt in Ec. apply (Hcalm r y x0 Hr Hy (Z.lt_gt _ _ Ec) c Hc Hx0). }
  apply upd_hub_spec in Hs as (y3 & Hy3 & Hh3 & Hv3 & Ht3 & He3 & _).
  by apply (inv_idle (with_sys K s2) s' (rhub r) y3 0 HI2).
Qed.

(** ** Every step keeps the invariant *)
Lemma inv_enter K i t h p r :
  inv K -> calls K !! i = None -> (r = inl Picking \/ exists e, r = inr e) -> forall K', enter K i t h p r = Some K' -> inv K'.
Proof.
  intros HI Hn Hr K' He. destruct Hr as [->|[e ->]]; simpl in He; [|by injection He as <-].
  destruct p as [p|]; [|by injection He as <-]. injection He as <-.
  assert (new K i) as Hnew.
  { intros ([j [t' q]] & Hj & Hin)%list_elem_of_fmap. simpl in Hj. subst j. apply (inv_polled _ HI) in Hin as (k & Hk & _). congruence. }
  split; simpl; try apply HI.
  - intros j k [[<- <-]|[_ Hj]]%lookup_insert_Some; [done|].
    apply (call_ok_stable K); [by apply (inv_calls _ HI)|apply logs_same|done|done].
  - intros j k c [[<- <-]|[_ Hj]]%lookup_insert_Some; [done|]. by apply (inv_holder _ HI).
  - intros c x Hx. destruct (inv_owned _ HI _ _ Hx) as [?|(j & k & Hj & Hd)]; [by left|]. right. exists j, k.
    rewrite lookup_insert_ne; [done|]. congruence.
  - split; [apply HI|]. intros j u q Hin. apply (inv_polled _ HI) in Hin as (k & Hk & Hq). exists k.
    rewrite lookup_insert_ne; [done|]. congruence.
Qed.

Lemma start_call_shape h p : start_call h p = inl Picking \/ exists e, start_call h p = inr e.
Proof. unfold start_call. destruct p; [destruct (h =? 0)|]; eauto. Qed.

Lemma inv_step K ev K' : inv K -> allowed K ev -> step K ev = Some K' -> inv K'.
Proof.
  intros HI Ha Hs. destruct ev as [i t h p|i t nm p|i|self|self v e|self a n|self nm m|self nm|l|ms]; simpl in Hs, Ha.
  - case_bool_decide; [|done]. by eapply inv_enter, Hs; [..|apply start_call_shape].
  - case_bool_decide; [|done]. cbn [assert mbind option_bind] in Hs.
    destruct (NX_HubCallParamName (sys K) nm p) as [[h ph]|] eqn:E; [|done]. eapply inv_enter, Hs; [done..|]. unfold NX_HubCallParamName in E.
    destruct (SearchHub (sys K) nm); [|done]. simpl in E. destruct (_ =? 0); inv_opt; [by eauto|apply start_call_shape].
  - inv_opt. by apply inv_advance.
  - destruct (NX_HubPoll (sys K) self) as [[[s p] e]|] eqn:E; [|done]. simpl in Hs. injection Hs as <-.
    apply poll_spec in E as (r & Hr & [[-> ->]|[[-> Hc]|(y & c & x & Hy & Hc & Hx & Hst & -> & Hv & Hh & Ht & He)]]); simpl.
    + by apply inv_frame.
    + by eapply inv_check_release.
    + rewrite Ht, lookup_insert_eq. simpl. by eapply (inv_hand_out K s self r y c x).
  - destruct (NX_HubReturn (sys K) self v e) as [[s err]|] eqn:E; [|done]. simpl in Hs. injection Hs as <-.
    apply return_spec in E as (r & Hr & [[Hne ->]|(-> & Hz & x & Hx & Hv & Hh & Ht & Hf)]); unfold log_return; rewrite Hr.
    + by destruct err; try by apply inv_frame.
    + eapply inv_answer; try done. apply Hf, HI.
  - inv_opt. apply inv_frame; [done|]. by eapply translate_frame.
  - inv_opt. by eapply inv_register.
  - inv_opt. by eapply inv_unregister.
  - injection Hs as <-. apply inv_env; try done; [apply HI|eauto].
  - injection Hs as <-. apply inv_frame; [done|]. split; [done|]. split; [done|]. split; [done|]. intros Hf. by apply (fresh_view (sys K)).
Qed.

Lemma reachable_inv K0 K : start_conf K0 -> reachable K0 K -> inv K.
Proof. intros H0 HR. induction HR as [|K ev K' HR IH Ha Hs]; [by apply start_inv|by eapply inv_step]. Qed.

(** C30: A call through a hub returns the value and the error the server gave to
    [NX_HubReturn] for that very call, after the server polled the call's own
    parameters; a call is handed out at most once and answered at most once, only
    calls are handed out, and a call refused for want of a channel was not.  It
    holds in any interleaving of calls, polls, returns, translations and
    registrations in which the allocator gives memory not in use ([fresh]) and no
    server polls an idle hub, more than [NX_HUB_IDLE_TIME] after the last
    request, while a call uses one of its channels ([calm]): that poll gives the
    channel back under the call, which then goes on in freed memory
    ([busy_channel_freed]). *)
Theorem hub_calls_answered K0 K :
  start_conf K0 -> reachable K0 K ->
  (forall i k v e, calls K !! i = Some k -> at_phase k = Done (Some v) e ->
    exists self, (i, (self, v, e)) ∈ answered K /\ (i, (self, request k)) ∈ polled K) /\
  (forall i k e, calls K !! i = Some k -> at_phase k = Done None e -> e = NX_EAGAIN /\ i ∉ (polled K).*1) /\
  (forall i self p, (i, (self, p)) ∈ polled K -> exists k, calls K !! i = Some k /\ request k = p) /\
  NoDup (polled K).*1 /\ NoDup (answered K).*1.
Proof.
  intros H0 HR. pose proof (reachable_inv _ _ H0 HR) as HI.
  split; [|split; [|split; [apply HI|split; apply HI]]].
  - intros i k v e Hk Hp. pose proof (inv_calls _ HI _ _ Hk) as Hok. unfold call_ok in Hok. rewrite Hp in Hok.
    destruct Hok as [self Ha]. exists self. split; [done|]. destruct (proj2 (inv_answered _ HI) _ _ _ _ Ha) as [p Hin].
    destruct (proj2 (inv_polled _ HI) _ _ _ Hin) as (k' & Hk' & <-). congruence.
  - intros i k e Hk Hp. pose proof (inv_calls _ HI _ _ Hk) as Hok. unfold call_ok in Hok. rewrite Hp in Hok. by destruct Hok.
Qed.

(** ** Runs

    A run without answers of the allocator and without a release of channels. *)
Definition quiet s self : bool :=
  match threads s !! self with
  | Some r => match hubs s !! rhub r with
              | Some h => u64 (clock s - (if idleTime h =? 0 then clock s else idleTime h)) <=? NX_HUB_IDLE_TIME * 1000
              | None => true
              end
  | None => true
  end.

Definition plain K (ev : event) : bool :=
  match ev with Memory _ => false | Poll self => quiet (sys K) self | _ => true end.

Fixpoint run K (evs : list event) : option Conf :=
  match evs with
  | [] => Some K
  | ev :: evs => assert (plain K ev);; K' ← step K ev; run K' evs
  end.

Lemma plain_allowed K ev : plain K ev = true -> allowed K ev.
Proof.
  destruct ev; simpl; try done. unfold quiet, calm. intros Hq r h x Hr Hh Hu. rewrite Hr, Hh in Hq. apply Z.leb_le in Hq. lia.
Qed.

Lemma reachable_run K0 K evs K' : reachable K0 K -> run K evs = Some K' -> reachable K0 K'.
Proof.
  revert K. induction evs as [|ev evs IH]; intros K HR Hr; simpl in Hr; [by injection Hr as <-|].
  destruct (plain K ev) eqn:Hp; [|done]. simpl in Hr. destruct (step K ev) as [K1|] eqn:Hs; [|done].
  apply (IH K1); [|done]. eapply reach_step; [done|by apply plain_allowed|done].
Qed.

Lemma run_app K evs evs' : run K (evs ++ evs') = (K' ← run K evs; run K' evs').
Proof.
  revert K. induction evs as [|ev evs IH]; intros K; simpl; [done|].
  destruct (plain K ev); [|done]. simpl. destruct (step K ev); [|done]. simpl. apply IH.
Qed.
End calls.

(** ** Examples: thread 7 serves the hub at address 100, threads 8 and 9 call. *)
Definition example_sys (l : list Z) : Hubs (M := flat) :=
  mkHubs [] ∅ ∅ (<[7 := mkRes 0 0 0]> (<[8 := mkRes 0 0 0]> (<[9 := mkRes 0 0 0]> ∅))) ∅ l 0.
Definition example_conf (l : list Z) : Conf (M := flat) := mkConf (example_sys l) ∅ (fun _ => O) [] [].
Definition example_request (n : Z) : NX_HubParam := mkParam n (replicate 8 0).
Definition example_name : list Z := [104; 117; 98].
Definition advances (n i : nat) : list event := replicate n (Advance i).
Definition example_run : list event :=
  [Register 7 (Some example_name) 0; Call_ 0 9 100 (Some (example_request 5))] ++ advances 7 0 ++
  [Poll 7; Return 7 42 NX_EINVAL] ++ advances 3 0.

Lemma example_start l : NoDup l -> start_conf (example_conf l).
Proof.
  intros Hl. repeat split; simpl; try done.
  - intros t r. rewrite !lookup_insert_Some, lookup_empty. naive_solver.
  - intros a p q -> _ Hq. apply NoDup_app in Hl as (_ & _ & [Hn _]%NoDup_cons). done.
Qed.

Lemma hub_calls_answered_witness :
  exists K k, run 0 (example_conf [100; 200]) example_run = Some K /\ calls K !! O = Some k /\
  exists self, (O, (self, 42, NX_EINVAL)) ∈ answered K /\ (O, (self, request k)) ∈ polled K.
Proof.
  assert ((K ← run 0 (example_conf [100; 200]) example_run; calls K !! O) =
          Some (mkCall 9 100 (example_request 5) (Done (Some 42) NX_EINVAL))) as Ek by (vm_compute; reflexivity).
  destruct (run 0 (example_conf [100; 200]) example_run) as [K|] eqn:E; [|discriminate Ek].
  exists K. eexists. split; [reflexivity|]. split; [exact Ek|].
  refine (proj1 (hub_calls_answered 0 (example_conf [100; 200]) K _ _) O _ 42 NX_EINVAL Ek eq_refl).
  - apply example_start. apply NoDup_cons. split; [|apply NoDup_singleton]. intros ?%list_elem_of_singleton. discriminate.
  - eapply reachable_run; [apply reach_start|exact E].
Defined.

(** *** What the code does not guard against *)

(** Polling again before returning gives up the request in hand: its call waits
    for ever. *)
Example polled_twice :
  (K ← run 0 (example_conf [100; 200; 300])
         ([Register 7 (Some example_name) 0; Call_ 0 9 100 (Some (example_request 5))] ++ advances 7 0 ++
          [Call_ 1 8 100 (Some (example_request 6))] ++ advances 7 1 ++
          [Poll 7; Poll 7; Return 7 42 NX_EOK; Return 7 43 NX_EOK; Poll 7; Return 7 44 NX_EOK]);
   Some ((polled K).*1, (answered K).*1)) = Some ([O; 1%nat], [O]).
Proof. vm_compute. reflexivity. Qed.

(** Two calls that find no channel may both pass the test of the number of
    channels: the hub has more channels than clients allowed. *)
Example more_channels_than_clients :
  (K ← run 0 (example_conf [100; 200; 300])
         ([Register 7 (Some example_name) 1; Call_ 0 9 100 (Some (example_request 5)); Advance 0;
           Call_ 1 8 100 (Some (example_request 6)); Advance 1; Advance 0; Advance 1; Advance 0; Advance 1]);
   y ← hubs (sys K) !! 100; Some (maxClient y, totalChannels y)) = Some (1, 2).
Proof. vm_compute. reflexivity. Qed.

(** The channel a call made may be taken by another call before its second look:
    it then writes through a null pointer. *)
Example second_look_fails :
  run 0 (example_conf [100; 200])
    ([Register 7 (Some example_name) 1; Call_ 0 9 100 (Some (example_request 5)); Advance 0; Advance 0; Advance 0;
      Call_ 1 8 100 (Some (example_request 6)); Advance 1; Advance 0]) = None.
Proof. vm_compute. reflexivity. Qed.

(** Ten seconds after the last request the server's poll gives back every channel,
    also the one a call has just picked: the call goes on in freed memory. *)
Example busy_channel_freed :
  (K ← run 0 (example_conf [100; 200])
         (example_run ++ [Tick 5; Poll 7; Tick 10006; Call_ 1 8 100 (Some (example_request 6)); Advance 1]);
   K ← step 0 K (Poll 7);
   Some (channels (sys K), at_phase <$> calls K !! 1%nat, step 0 K (Advance 1))) = Some (∅, Some (Sourcing 200), None).
Proof. vm_compute. reflexivity. Qed.
