(* ===== verification/HubServe.v ===== *)
(** The progress of calls through a hub: a server that polls and returns serves
    the waiting requests in the order of its list of channels, and a call that
    was answered finishes in three steps. *)
From S2P Require Import Prelude Mmu Vmspace Hub HubCalls.
#[local] Coercion Z.of_nat : nat >-> Z.

Section serve.
Context {M : Type} `{MmuOps M} (NX_PAGE_ATTR_USER : Z).
Implicit Types (s : Hubs (M := M)) (x : NX_HubChannel) (i : nat) (c : Z) (K : Conf (M := M)).

(** The channels of a hub in a state, in the order of its list. *)
Definition in_state s (st : NX_HubChannelState) c : Prop := state <$> channels s !! c = Some st.
#[local] Instance in_state_dec s st c : Decision (in_state s st c).
Proof. unfold in_state. apply _. Defined.

Definition waiting s (h : Z) : list Z :=
  match hubs s !! h with Some y => filter (in_state s NX_HUB_CHANNEL_ACTIVE) (channelListHead y) | None => [] end.

Lemma find_state_filter s h st y :
  hubs s !! h = Some y -> (forall c, c ∈ channelListHead y -> is_Some (channels s !! c)) ->
  find_state s h st = Some (head (filter (in_state s st) (channelListHead y))).
Proof.
  intros Hy Hl. unfold find_state. rewrite Hy. simpl.
  induction (channelListHead y) as [|c l IH]; [done|]. simpl.
  destruct (Hl c) as [x Hx]; [by left|]. rewrite Hx. simpl.
  assert (forall d, d ∈ l -> is_Some (channels s !! d)) as Hl' by (intros d Hd; apply Hl; by right).
  specialize (IH Hl'). destruct (mapM _ l) as [k|] eqn:Ek; [|done]. simpl in IH |- *. injection IH as IH.
  rewrite filter_cons. destruct (decide (state x = st)) as [Hs|Hs].
  - rewrite decide_True; [done|]. unfold in_state. by rewrite Hx, <- Hs.
  - rewrite decide_False; [|unfold in_state; rewrite Hx; simpl; congruence].
    rewrite <- IH. destruct (list_find _ k) as [[n z]|]; done.
Qed.

(** ** One round of the server *)
Lemma upd_channel_eq s c f x :
  channels s !! c = Some x -> upd_channel s c f = Some (with_channels s (<[c := f x]> (channels s))).
Proof. intros Hx. unfold upd_channel. by rewrite Hx. Qed.

Lemma upd_hub_eq s h f y :
  hubs s !! h = Some y -> upd_hub s h f = Some (with_hubs s (hubSystemListHead s) (<[h := f y]> (hubs s))).
Proof. intros Hy. unfold upd_hub. by rewrite Hy. Qed.

Lemma upd_thread_eq s t f r :
  threads s !! t = Some r -> upd_thread s t f = Some (with_threads s (<[t := f r]> (threads s))).
Proof. intros Hr. unfold upd_thread. by rewrite Hr. Qed.

Lemma poll_head s self r y c x :
  threads s !! self = Some r -> rhub r <> 0 -> hubs s !! rhub r = Some y ->
  (forall d, d ∈ channelListHead y -> is_Some (channels s !! d)) ->
  head (waiting s (rhub r)) = Some c -> channels s !! c = Some x ->
  NX_HubPoll s self = Some (mkHubs (hubSystemListHead s) (<[rhub r := set_idle 0 y]> (hubs s))
    (<[c := set_threads (sourceThread x) self (set_state NX_HUB_CHANNEL_HANDLED x)]> (channels s))
    (<[self := mkRes (rhub r) c (process r)]> (threads s)) (spaces s) (heap s) (clock s), Some (param x), NX_EOK).
Proof.
  intros Hr Hz Hy Hl Hc Hx. unfold waiting in Hc. rewrite Hy in Hc. unfold NX_HubPoll. rewrite Hr. simpl.
  rewrite (proj2 (Z.eqb_neq _ _) Hz). rewrite (find_state_filter _ _ _ y) by done. simpl. rewrite Hc.
  rewrite (upd_channel_eq _ _ _ x) by done. simpl. rewrite (upd_hub_eq _ _ _ y) by done. simpl.
  rewrite lookup_insert_eq. simpl. erewrite upd_channel_eq by apply lookup_insert_eq. simpl.
  rewrite (upd_thread_eq _ _ _ r) by done. simpl. by rewrite insert_insert_eq.
Qed.

Lemma return_clean s self r x v e :
  threads s !! self = Some r -> rhub r <> 0 -> activeChannel r <> 0 -> channels s !! activeChannel r = Some x ->
  targetThread x = self -> mdlListHead x = [] ->
  NX_HubReturn s self v e = Some (mkHubs (hubSystemListHead s) (hubs s)
    (<[activeChannel r := set_sem (syncSem x + 1) (set_ret v e (set_mdls [] x))]> (channels s))
    (<[self := mkRes (rhub r) 0 (process r)]> (threads s)) (spaces s) (heap s) (clock s), NX_EOK).
Proof.
  intros Hr Hz Ha Hx Ht Hm. unfold NX_HubReturn. rewrite Hr. simpl.
  rewrite (proj2 (Z.eqb_neq _ _) Hz), (proj2 (Z.eqb_neq _ _) Ha), Hx. simpl.
  rewrite Ht, Z.eqb_refl. simpl. rewrite (upd_thread_eq _ _ _ r) by done. simpl. rewrite Hm. simpl.
  rewrite (upd_channel_eq _ _ _ x) by done. simpl. erewrite upd_channel_eq by apply lookup_insert_eq. simpl.
  erewrite upd_channel_eq by apply lookup_insert_eq. simpl. by rewrite !insert_insert_eq.
Qed.

(** The server can serve [ws], the waiting channels of its hub. *)
Record ready K self (h : Z) (l ws : list Z) : Prop := {
  ready_thread : exists r, threads (sys K) !! self = Some r /\ rhub r = h;
  ready_hub : exists y, hubs (sys K) !! h = Some y /\ channelListHead y = l;
  ready_null : h <> 0 /\ (0 ∉ ws);
  ready_nodup : NoDup l;
  ready_listed : forall d, d ∈ l -> is_Some (channels (sys K) !! d);
  ready_waiting : waiting (sys K) h = ws;
  ready_mdls : forall d x, d ∈ ws -> channels (sys K) !! d = Some x -> mdlListHead x = []
}.

Fixpoint steps K (evs : list event) : option (Conf (M := M)) :=
  match evs with [] => Some K | ev :: evs => K' ← step NX_PAGE_ATTR_USER K ev; steps K' evs end.

Lemma steps_app K evs evs' : steps K (evs ++ evs') = (K' ← steps K evs; steps K' evs').
Proof.
  revert K. induction evs as [|ev evs IH]; intros K; simpl; [done|]. destruct (step _ _ _); [|done]. simpl. apply IH.
Qed.

Definition round self (r : Z * NX_Error) : list event := [Poll self; Return self r.1 r.2].

Lemma filter_ext_in (P Q : Z -> Prop) `{forall c, Decision (P c)} `{forall c, Decision (Q c)} (l : list Z) :
  (forall d, d ∈ l -> P d <-> Q d) -> filter P l = filter Q l.
Proof.
  induction l as [|a l IH]; intros Hd; [done|]. rewrite !filter_cons, IH by (intros d Hin; apply Hd; by right).
  pose proof (Hd a ltac:(by left)) as Ha. destruct (decide (P a)), (decide (Q a)); done || tauto.
Qed.

Lemma filter_change (P Q : Z -> Prop) `{forall c, Decision (P c)} `{forall c, Decision (Q c)} l c ws :
  NoDup l -> filter P l = c :: ws -> ~ Q c -> (forall d, d <> c -> P d <-> Q d) -> filter Q l = ws.
Proof.
  intros Hnd Hf Hc Hd. induction l as [|a l IH]; [done|]. rewrite filter_cons in Hf |- *. apply NoDup_cons in Hnd as [Ha Hnd].
  destruct (decide (P a)) as [HP|HP].
  - injection Hf as -> <-. rewrite decide_False by done. apply filter_ext_in.
    intros d Hin. symmetry. apply Hd. by intros ->.
  - rewrite decide_False; [by apply IH|]. intros HQ. destruct (decide (a = c)) as [->|Hne]; [done|]. by apply HP, Hd.
Qed.

Lemma round_serves K self h l c ws v e :
  ready K self h l (c :: ws) ->
  exists K' x x', steps K (round self (v, e)) = Some K' /\ ready K' self h l ws /\
    calls K' = calls K /\ holder K' = holder K /\ answered K' = (holder K c, (self, v, e)) :: answered K /\
    (forall d, d <> c -> channels (sys K') !! d = channels (sys K) !! d) /\
    channels (sys K) !! c = Some x /\ channels (sys K') !! c = Some x' /\
    syncSem x' = syncSem x + 1 /\ retVal x' = v /\ retErr x' = e.
Proof.
  intros [(r & Hr & Hrh) (y & Hy & Hl) [Hh Hz] Hnd Hls Hw Hm]. subst h l. apply not_elem_of_cons in Hz as [Hc0 Hz].
  pose proof Hw as Hw'. unfold waiting in Hw'. rewrite Hy in Hw'.
  assert (c ∈ filter (in_state (sys K) NX_HUB_CHANNEL_ACTIVE) (channelListHead y)) as [Hst Hc]%list_elem_of_filter
    by (rewrite Hw'; by left).
  destruct (Hls _ Hc) as [x Hx].
  pose proof (poll_head (sys K) self r y c x Hr Hh Hy Hls ltac:(by rewrite Hw) Hx) as Hp.
  set (s1 := mkHubs _ _ _ _ _ _ _) in Hp.
  set (x1 := set_threads (sourceThread x) self (set_state NX_HUB_CHANNEL_HANDLED x)) in *.
  assert (threads s1 !! self = Some (mkRes (rhub r) c (process r))) as Hr1 by apply lookup_insert_eq.
  assert (channels s1 !! c = Some x1) as Hx1 by apply lookup_insert_eq.
  pose proof (return_clean s1 self _ x1 v e Hr1 Hh (not_eq_sym Hc0) Hx1 eq_refl (Hm c x ltac:(by left) Hx)) as Hret.
  set (s2 := mkHubs _ _ _ _ _ _ _) in Hret.
  eexists (mkConf s2 (calls K) (holder K) ((holder K c, (self, param x)) :: polled K) ((holder K c, (self, v, e)) :: answered K)), x, _.
  assert (forall d, d <> c -> channels s2 !! d = channels (sys K) !! d) as Hd.
  { intros d Hd. simpl. by rewrite !lookup_insert_ne. }
  assert (channels s2 !! c = Some (set_sem (syncSem x1 + 1) (set_ret v e (set_mdls [] x1)))) as Hc2 by apply lookup_insert_eq.
  split; [|split; [|done]].
  - cbn [steps round fst snd step]. rewrite Hp. cbn [mbind option_bind]. unfold log_poll at 1. rewrite Hr1.
    cbn [mbind option_bind sys]. unfold log_poll. rewrite Hr1. cbn [sys]. rewrite Hret. cbn [mbind option_bind].
    unfold log_return. cbn [sys]. by rewrite Hr1.
  - split; simpl.
    + eexists. split; [apply lookup_insert_eq|done].
    + eexists. split; [apply lookup_insert_eq|done].
    + done.
    + done.
    + intros d Hin. destruct (decide (d = c)) as [->|Hne]; [eauto|]. rewrite Hd by done. by apply Hls.
    + unfold waiting. simpl. rewrite lookup_insert_eq. simpl. eapply filter_change; [done|exact Hw'| |].
      * unfold in_state. rewrite Hc2. simpl. congruence.
      * intros d Hne. unfold in_state. by rewrite Hd.
    + intros d z Hin. assert (d <> c) as Hne.
      { intros ->. assert (NoDup (c :: ws)) as [Hn _]%NoDup_cons by (rewrite <- Hw'; by apply NoDup_filter). done. }
      change (channels s2 !! d = Some z -> mdlListHead z = []). rewrite Hd by done. apply Hm. by right.
Qed.

(** ** Rounds until a request is served *)
Lemma rounds_serve self h l rs : forall K ws n c v e,
  ready K self h l ws -> ws !! n = Some c -> length rs = n ->
  exists K' x x', steps K (mjoin (round self <$> rs) ++ round self (v, e)) = Some K' /\ calls K' = calls K /\
    (holder K c, (self, v, e)) ∈ answered K' /\
    channels (sys K) !! c = Some x /\ channels (sys K') !! c = Some x' /\ syncSem x' = syncSem x + 1 /\ retVal x' = v /\ retErr x' = e.
Proof.
  induction rs as [|[v0 e0] rs IH]; intros K ws n c v e HR Hn Hlen; subst n; (destruct ws as [|d ws]; [done|]).
  - injection Hn as ->. destruct (round_serves K self h l c ws v e HR) as (K1 & x & x' & Hs & _ & Hk & _ & Ha & _ & Hx & Hx' & Hrest).
    exists K1, x, x'. do 2 (split; [done|]). split; [rewrite Ha; by left|done].
  - simpl in Hn. destruct (round_serves K self h l d ws v0 e0 HR) as (K1 & y & y' & Hs & HR1 & Hk & Hh & _ & Hd & _).
    destruct (IH K1 ws (length rs) c v e HR1 Hn eq_refl) as (K2 & x & x' & Hs2 & Hk2 & Ha2 & Hx & Hx' & Hrest).
    assert (c <> d) as Hne.
    { intros ->. pose proof (ready_nodup _ _ _ _ _ HR) as Hl. pose proof (ready_waiting _ _ _ _ _ HR) as Hw.
      destruct (ready_hub _ _ _ _ _ HR) as (z & Hz & Hzl). unfold waiting in Hw. rewrite Hz, Hzl in Hw.
      assert (NoDup (d :: ws)) as [Hnin _]%NoDup_cons by (rewrite <- Hw; by apply NoDup_filter).
      by apply Hnin, list_elem_of_lookup_2 with (length rs). }
    exists K2, x, x'. split; [|split; [congruence|]].
    + rewrite fmap_cons. cbn [mjoin list_join]. rewrite <- app_assoc, steps_app, Hs. exact Hs2.
    + rewrite <- Hh, <- (Hd c) by done. done.
Qed.

(** The call's own steps after the answer. *)
Lemma answered_finishes K i k c x :
  calls K !! i = Some k -> at_phase k = Waiting c -> channels (sys K) !! c = Some x -> syncSem x > 0 ->
  exists K', steps K [Advance i; Advance i; Advance i] = Some K' /\ 
    calls K' !! i = Some (at_ k (Done (Some (retVal x)) (retErr x))) /\ answered K' = answered K.
Proof.
  intros Hk Hp Hx Hs. cbn [steps step]. rewrite Hk. cbn [mbind option_bind]. unfold NX_HubCallParam, HubMigrateToServer. rewrite Hp, Hx.
  cbn [mbind option_bind]. rewrite Z.gtb_ltb, (proj2 (Z.ltb_lt 0 (syncSem x))) by lia.
  rewrite (upd_channel_eq _ _ _ x) by done. cbn [mbind option_bind advance calls sys holds]. rewrite lookup_insert_eq.
  cbn [mbind option_bind at_ at_phase caller callee request with_channels channels]. rewrite lookup_insert_eq.
  cbn [mbind option_bind advance calls sys holds]. rewrite lookup_insert_eq.
  cbn [mbind option_bind at_ at_phase caller callee request with_channels channels set_sem retVal retErr]. unfold PutFreeChannel.
  erewrite upd_channel_eq by apply lookup_insert_eq. cbn [mbind option_bind].
  eexists. split; [done|]. split; [|done]. unfold advance. cbn [calls]. by rewrite lookup_insert_eq.
Qed.

(** C31: A waiting call is served: when [n] requests are ahead of it in the list of
    the hub and the server polls and returns [n + 1] times, no step fails, and the
    call then finishes in three steps of its own, with the last of the values and
    errors the server returned. *)
Theorem hub_call_served K0 K self r i k c n rs v e :
  start_conf K0 -> reachable NX_PAGE_ATTR_USER K0 K ->
  threads (sys K) !! self = Some r -> rhub r <> 0 ->
  calls K !! i = Some k -> at_phase k = Waiting c -> waiting (sys K) (rhub r) !! n = Some c ->
  (forall d x, d ∈ waiting (sys K) (rhub r) -> channels (sys K) !! d = Some x -> mdlListHead x = []) ->
  length rs = n ->
  exists K', steps K (mjoin (round self <$> rs) ++ round self (v, e) ++ [Advance i; Advance i; Advance i]) = Some K' /\
    calls K' !! i = Some (at_ k (Done (Some v) e)) /\ (i, (self, v, e)) ∈ answered K'.
Proof.
  intros H0 HR Hr Hh Hk Hp Hn Hm Hlen. pose proof (reachable_inv _ _ _ H0 HR) as HI.
  assert (exists y, hubs (sys K) !! rhub r = Some y) as [y Hy].
  { unfold waiting in Hn. destruct (hubs (sys K) !! rhub r); [eauto|done]. }
  assert (forall d, d ∈ channelListHead y -> is_Some (channels (sys K) !! d)) as Hls.
  { intros d Hd. destruct (proj2 (inv_hubs _ HI _ _ Hy) _ Hd) as (x & Hx & _).
    destruct (channels (sys K) !! d) eqn:E; [eauto|]. apply view_None in E. congruence. }
  assert (ready K self (rhub r) (channelListHead y) (waiting (sys K) (rhub r))) as HRd.
  { split; [by eauto|by eauto| |by apply (inv_hubs _ HI _ _ Hy)|done|done|done]. split; [done|].
    unfold waiting. rewrite Hy. intros [_ H0l]%list_elem_of_filter. destruct (proj2 (inv_hubs _ HI _ _ Hy) _ H0l) as (x & Hx & _).
    pose proof (inv_null _ HI). congruence. }
  destruct (rounds_serve self _ _ rs K _ n c v e HRd Hn Hlen) as (K1 & x & x' & Hs & Hk1 & Ha & Hx & Hx' & Hsem & <- & <-).
  rewrite (inv_holder _ HI i k c) in Ha by (rewrite ?Hp; done).
  assert (syncSem x >= 0) as Hpos.
  { pose proof (inv_calls _ HI _ _ Hk) as Hok. unfold call_ok in Hok. rewrite Hp in Hok. destruct Hok as (z & Hz & _ & Hc).
    rewrite (view_lookup _ _ _ Hx) in Hz. injection Hz as <-. simpl in Hc. destruct Hc as [(_ & ? & _)|(_ & _ & [[? _]|[? _]])]; lia. }
  destruct (answered_finishes K1 i k c x') as (K2 & Hs2 & Hk2 & Ha2); [by rewrite Hk1|done..|lia|].
  exists K2. rewrite app_assoc, steps_app, Hs. split; [exact Hs2|]. split; [done|by rewrite Ha2].
Qed.
End serve.

(** Two calls wait for the server, thread 7. *)
Definition two_wait : Conf (M := flat) := Eval vm_compute in
  default (example_conf [])
    (run 0 (example_conf [100; 200; 300])
       ([Register 7 (Some example_name) 0; Call_ 0 9 100 (Some (example_request 5))] ++ advances 7 0 ++
        [Call_ 1 8 100 (Some (example_request 6))] ++ advances 7 1)).

Lemma hub_call_served_witness :
  exists K', steps 0 two_wait (mjoin (round 7 <$> [(41, NX_EOK)]) ++ round 7 (42, NX_EIO) ++ [Advance 0; Advance 0; Advance 0]) = Some K' /\
    calls K' !! O = Some (mkCall 9 100 (example_request 5) (Done (Some 42) NX_EIO)) /\ (O, (7, 42, NX_EIO)) ∈ answered K'.
Proof.
  refine (hub_call_served 0 (example_conf [100; 200; 300]) two_wait 7 (mkRes 100 0 0) O
            (mkCall 9 100 (example_request 5) (Waiting 200)) 200 1 [(41, NX_EOK)] 42 NX_EIO _ _ _ _ _ _ _ _ _).
  - apply example_start. repeat (apply NoDup_cons; split; [rewrite ?elem_of_cons, ?elem_of_nil; lia|]). constructor.
  - eapply reachable_run; [apply reach_start|].
    instantiate (1 := [Register 7 (Some example_name) 0; Call_ 0 9 100 (Some (example_request 5))] ++ advances 7 0 ++
        [Call_ 1 8 100 (Some (example_request 6))] ++ advances 7 1). vm_compute. reflexivity.
  - reflexivity.
  - discriminate.
  - reflexivity.
  - reflexivity.
  - reflexivity.
  - assert (waiting (sys two_wait) 100 = [300; 200]) as Hw by (vm_compute; reflexivity).
    intros d x. change (rhub (mkRes 100 0 0)) with 100. rewrite Hw, !elem_of_cons, elem_of_nil.
    intros [->|[->|[]]] Hx; vm_compute in Hx; injection Hx as <-; reflexivity.
  - reflexivity.
Defined.
