(* ===== verification/ThreadId.v ===== *)
(** Thread identifiers: [sched/thread_id.c].

    A bitmap of 32-bit words with a cursor; the functions run under [idLock],
    so each is one step. *)
From S2P Require Import Prelude Bits.

Definition NX_MAX_THREAD_NR : Z := 256.

Record NX_ThreadID := mkThreadID {
  maps : list Z;
  nextID : Z
}.

(** [1 << odd] as the bits of a 32-bit word. *)
Definition bit32 (odd : Z) : Z := u32 (1 << odd).

Fixpoint ThreadIdAlloc_loop (fuel : nat) (s : NX_ThreadID) (next : Z) : option (NX_ThreadID * Z) :=
  match fuel with
  | O => None
  | S fuel =>
      let idx := next / 32 in
      let odd := next mod 32 in
      w ← zlookup (maps s) idx;
      if Z.land w (bit32 odd) =? 0 then
        Some (mkThreadID (zinsert (maps s) idx (Z.lor w (bit32 odd))) ((next + 1) mod NX_MAX_THREAD_NR), next)
      else
        let next := (next + 1) mod NX_MAX_THREAD_NR in
        if negb (next =? nextID s) then ThreadIdAlloc_loop fuel s next else Some (s, next)
  end.

(** The cursor goes round at most once. *)
Definition NX_ThreadIdAlloc (s : NX_ThreadID) : option (NX_ThreadID * Z) :=
  '(s, next) ← ThreadIdAlloc_loop (Z.to_nat NX_MAX_THREAD_NR) s (nextID s);
  Some (s, if negb (next =? nextID s) then next else -1).

Definition NX_ThreadIdFree (s : NX_ThreadID) (id : Z) : option NX_ThreadID :=
  if (id <? 0) || (id >=? NX_MAX_THREAD_NR) then Some s
  else
    let idx := id / 32 in
    let odd := id mod 32 in
    w ← zlookup (maps s) idx;
    assert (nz (Z.land w (bit32 odd)));;
    Some (mkThreadID (zinsert (maps s) idx (Z.land w (not32 (bit32 odd)))) (nextID s)).

(** [NX_MemZero] of [NX_MAX_THREAD_NR / 8] bytes. *)
Definition NX_ThreadsInitID : NX_ThreadID := mkThreadID (replicate (Z.to_nat (NX_MAX_THREAD_NR / 32)) 0) 0.

(** ** The set of identifiers in use *)
Definition used (s : NX_ThreadID) (id : Z) : Prop :=
  0 <= id < NX_MAX_THREAD_NR /\ exists w, zlookup (maps s) (id / 32) = Some w /\ Z.testbit w (id mod 32) = true.

#[export] Instance used_dec s id : Decision (used s id).
Proof.
  unfold used. destruct (zlookup (maps s) (id / 32)) as [w|] eqn:E.
  - destruct (decide (0 <= id < NX_MAX_THREAD_NR)) as [H|H], (Z.testbit w (id mod 32)) eqn:Ew.
    + left. eauto.
    + right. intros (_ & w' & ? & ?). congruence.
    + right. tauto.
    + right. tauto.
  - right. intros (_ & w & ? & _). congruence.
Defined.

Definition ids_ok (s : NX_ThreadID) : Prop :=
  length (maps s) = 8%nat /\ 0 <= nextID s < NX_MAX_THREAD_NR /\ Forall (fun w => 0 <= w < 2 ^ 32) (maps s).

Section ids.
Implicit Types (s : NX_ThreadID) (id w odd : Z).

Lemma bit32_pow2 odd : 0 <= odd < 32 -> bit32 odd = 2 ^ odd.
Proof.
  intros. unfold bit32. rewrite Z.shiftl_1_l, u32_small; [done|].
  split; [by apply Z.pow_nonneg|apply Z.pow_lt_mono_r; lia].
Qed.

Lemma land_bit w odd : 0 <= odd -> (Z.land w (2 ^ odd) =? 0) = negb (Z.testbit w odd).
Proof.
  intros Ho. destruct (Z.testbit w odd) eqn:E; cbn [negb].
  - apply Z.eqb_neq. intros H0. assert (Z.testbit (Z.land w (2 ^ odd)) odd = true) as H1
      by (rewrite Z.land_spec, E, Z.pow2_bits_true by done; done).
    by rewrite H0, Z.bits_0 in H1.
  - apply Z.eqb_eq, Z.bits_inj'. intros n Hn. rewrite Z.land_spec, Z.bits_0, Z.pow2_bits_eqb by done.
    destruct (Z.eqb_spec odd n) as [<-|]; [by rewrite E|by rewrite andb_false_r].
Qed.

Lemma word_at s id : ids_ok s -> 0 <= id < NX_MAX_THREAD_NR ->
  exists w, zlookup (maps s) (id / 32) = Some w /\ 0 <= w < 2 ^ 32.
Proof.
  unfold NX_MAX_THREAD_NR. intros (Hl & _ & Hw) Hid.
  assert (Hi : (Z.to_nat (id / 32) < length (maps s))%nat) by (rewrite Hl; zlia).
  destruct (lookup_lt_is_Some_2 (maps s) _ Hi) as [w Hw'].
  exists w. split; [apply zlookup_Some; split; [zlia|done]|].
  rewrite Forall_lookup in Hw. eauto.
Qed.

Lemma used_bit s id w :
  0 <= id < NX_MAX_THREAD_NR -> zlookup (maps s) (id / 32) = Some w -> used s id <-> Z.testbit w (id mod 32) = true.
Proof. intros Hid Hw. unfold used. split; [intros (_ & ? & ? & ?); congruence|eauto]. Qed.

(** Writing one word changes one identifier. *)
Lemma used_write s id w w' n b :
  ids_ok s -> 0 <= id < NX_MAX_THREAD_NR -> zlookup (maps s) (id / 32) = Some w -> 0 <= w' < 2 ^ 32 ->
  (forall j, 0 <= j < 32 -> Z.testbit w' j = if j =? id mod 32 then b else Z.testbit w j) ->
  0 <= n < NX_MAX_THREAD_NR ->
  let s' := mkThreadID (zinsert (maps s) (id / 32) w') n in
  ids_ok s' /\ forall j, used s' j <-> (if decide (j = id) then b = true else used s j).
Proof.
  intros Hok Hid Hw Hw' Hbits Hn s'. unfold NX_MAX_THREAD_NR in *. pose proof Hok as (Hl & Hc & Hall).
  assert (Hidx : 0 <= id / 32 < Z.of_nat (length (maps s))) by (rewrite Hl; zlia).
  split.
  { split; [by rewrite <- Hl; apply length_zinsert|]. split; [exact Hn|].
    unfold s', zinsert. cbn [maps]. by apply Forall_insert. }
  intros j. destruct (decide (0 <= j < 256)) as [Hj|Hj].
  2:{ rewrite decide_False by lia. unfold used, NX_MAX_THREAD_NR. tauto. }
  destruct (word_at s j Hok Hj) as (wj & Hwj & _).
  assert (Hlk : zlookup (maps s') (j / 32) = Some (if decide (j / 32 = id / 32) then w' else wj)).
  { cbn [s' maps]. rewrite zlookup_zinsert by zlia. by case_decide. }
  rewrite (used_bit s' j _ Hj Hlk).
  destruct (decide (j / 32 = id / 32)) as [He|He].
  - assert (wj = w) as -> by congruence. rewrite Hbits by zlia.
    destruct (Z.eqb_spec (j mod 32) (id mod 32)) as [Hm|Hm].
    + rewrite decide_True by zlia. done.
    + rewrite decide_False by (intros ->; done). by rewrite (used_bit s j w Hj Hwj).
  - rewrite decide_False by (intros ->; done). by rewrite (used_bit s j wj Hj Hwj).
Qed.

(** The [k] identifiers from [a], going round. *)
Definition around (a k id : Z) : Prop := exists i, 0 <= i < k /\ id = (a + i) mod NX_MAX_THREAD_NR.

Lemma ThreadIdAlloc_loop_spec s fuel : forall k,
  ids_ok s -> 0 <= k < NX_MAX_THREAD_NR -> NX_MAX_THREAD_NR - k <= Z.of_nat fuel ->
  (forall id, around (nextID s) k id -> used s id) ->
  (exists d s', k <= d < NX_MAX_THREAD_NR /\ let id := (nextID s + d) mod NX_MAX_THREAD_NR in
    ThreadIdAlloc_loop fuel s ((nextID s + k) mod NX_MAX_THREAD_NR) = Some (s', id) /\
    ~ used s id /\ (forall j, around (nextID s) d j -> used s j) /\ ids_ok s' /\
    nextID s' = (id + 1) mod NX_MAX_THREAD_NR /\ forall j, used s' j <-> used s j \/ j = id) \/
  (ThreadIdAlloc_loop fuel s ((nextID s + k) mod NX_MAX_THREAD_NR) = Some (s, nextID s) /\
    forall id, 0 <= id < NX_MAX_THREAD_NR -> used s id).
Proof.
  induction fuel as [|fuel IH]; intros k Hok Hk Hf Hused; [unfold NX_MAX_THREAD_NR in *; lia|].
  set (id := (nextID s + k) mod NX_MAX_THREAD_NR).
  assert (Hid : 0 <= id < NX_MAX_THREAD_NR) by (apply Z.mod_pos_bound; done).
  destruct (word_at s id Hok Hid) as (w & Hw & Hwr). cbn [ThreadIdAlloc_loop]. fold id. rewrite Hw, Some_bind.
  assert (Hodd : 0 <= id mod 32 < 32) by (apply Z.mod_pos_bound; lia).
  rewrite bit32_pow2, land_bit by lia. destruct (Z.testbit w (id mod 32)) eqn:Eb; cbn [negb].
  - assert (Hthis : used s id) by (by rewrite (used_bit s id w)).
    assert (Hstep : (id + 1) mod NX_MAX_THREAD_NR = (nextID s + (k + 1)) mod NX_MAX_THREAD_NR).
    { unfold id. rewrite Zplus_mod_idemp_l. f_equal. lia. }
    assert (Hused' : forall j, around (nextID s) (k + 1) j -> used s j).
    { intros j (i & Hi & ->). destruct (Z.eq_dec i k) as [->|]; [done|]. apply Hused. exists i. split; [lia|done]. }
    rewrite Hstep. pose proof Hok as (_ & Hn & _).
    destruct (Z.eq_dec k (NX_MAX_THREAD_NR - 1)) as [->|Hlast].
    + right. replace (nextID s + (NX_MAX_THREAD_NR - 1 + 1)) with (nextID s + 1 * NX_MAX_THREAD_NR) by lia.
      rewrite Z.mod_add, Z.mod_small, Z.eqb_refl by (done || lia). split; [done|].
      intros j Hj. apply Hused'. exists ((j - nextID s) mod NX_MAX_THREAD_NR). unfold NX_MAX_THREAD_NR in *. zlia.
    + rewrite (proj2 (Z.eqb_neq _ (nextID s))).
      2:{ unfold NX_MAX_THREAD_NR in *. zlia. }
      cbn [negb]. destruct (IH (k + 1) Hok) as [(d & s' & Hd & Hspec)|Hspec]; try done; [lia|lia|left|by right].
      exists d, s'. split; [lia|done].
  - left. exists k.
    destruct (used_write s id w (Z.lor w (2 ^ (id mod 32))) ((id + 1) mod NX_MAX_THREAD_NR) true Hok Hid Hw) as [Hok' Hu].
    + split; [apply Z.lor_nonneg; split; [lia|by apply Z.pow_nonneg]|].
      assert (2 ^ (id mod 32) < 2 ^ 32) by (apply Z.pow_lt_mono_r; lia).
      assert (0 < 2 ^ (id mod 32)) by (apply Z.pow_pos_nonneg; lia).
      destruct (Z.eqb_spec w 0) as [->|]; [by rewrite Z.lor_0_l|].
      apply Z.log2_lt_cancel. rewrite Z.log2_lor by lia.
      rewrite (Z.log2_pow2 32), (Z.log2_pow2 (id mod 32)) by lia.
      assert (Z.log2 w < 32) by (apply Z.log2_lt_pow2; lia). lia.
    + intros j Hj. rewrite Z.lor_spec, Z.pow2_bits_eqb, (Z.eqb_sym j) by lia.
      destruct (Z.eqb_spec (id mod 32) j); [by rewrite orb_true_r|by rewrite orb_false_r].
    + apply Z.mod_pos_bound. done.
    + eexists. split; [lia|]. cbv zeta. fold id. split; [reflexivity|].
      split; [rewrite (used_bit s id w) by done; by rewrite Eb|]. split; [exact Hused|].
      split; [exact Hok'|]. split; [done|]. intros j. rewrite Hu. case_decide; [|tauto]. tauto.
Qed.
End ids.

Lemma NX_ThreadIdFree_spec s id :
  ids_ok s -> used s id ->
  exists s', NX_ThreadIdFree s id = Some s' /\ ids_ok s' /\ nextID s' = nextID s /\
    forall j, used s' j <-> used s j /\ j <> id.
Proof.
  intros Hok Hu. pose proof Hu as (Hid & w & Hw & Hb). unfold NX_ThreadIdFree.
  rewrite (proj2 (Z.ltb_ge id 0)), Z.geb_leb, (proj2 (Z.leb_gt _ id)), Hw, Some_bind by lia. cbn [orb].
  assert (Hodd : 0 <= id mod 32 < 32) by (apply Z.mod_pos_bound; lia).
  rewrite bit32_pow2 by done. unfold nz. rewrite land_bit, Hb by lia. cbn [negb]. rewrite assert_true.
  destruct (word_at s id Hok Hid) as (w0 & Hw0 & Hwr). assert (w0 = w) as -> by congruence.
  destruct (used_write s id w (Z.land w (not32 (2 ^ (id mod 32)))) (nextID s) false Hok Hid Hw) as [Hok' Hu'].
  - assert (0 <= Z.land w (not32 (2 ^ (id mod 32)))).
    { apply Z.land_nonneg. lia. }
    split; [done|]. destruct (Z.eqb_spec (Z.land w (not32 (2 ^ (id mod 32)))) 0) as [->|]; [lia|].
    apply Z.log2_lt_cancel. rewrite (Z.log2_pow2 32) by lia. apply Z.log2_lt_pow2; [lia|].
    apply Z.le_lt_trans with w; [|lia]. apply Z.ldiff_le; [lia|].
    apply Z.bits_inj'. intros k Hk. rewrite Z.ldiff_spec, Z.land_spec, Z.bits_0. destruct (Z.testbit w k), (Z.testbit _ k); done.
  - intros j Hj. rewrite Z.land_spec. unfold not32.
    replace (2 ^ 32 - 1 - 2 ^ (id mod 32)) with (Z.ones 32 - 2 ^ (id mod 32)) by (rewrite Z.ones_equiv; lia).
    rewrite Z.sub_nocarry_ldiff.
    2:{ apply Z.bits_inj'. intros k Hk. rewrite Z.ldiff_spec, Z.pow2_bits_eqb, Z.bits_0 by lia.
        destruct (Z.eqb_spec (id mod 32) k) as [<-|]; [|done]. by rewrite Z.ones_spec_low by lia. }
    rewrite Z.ldiff_spec, Z.ones_spec_low, Z.pow2_bits_eqb, (Z.eqb_sym j) by lia.
    destruct (id mod 32 =? j); cbn; [by rewrite andb_false_r|by rewrite andb_true_r].
  - by destruct Hok as (_ & ? & _).
  - eexists. split; [reflexivity|]. split; [exact Hok'|]. split; [done|].
    intros j. rewrite Hu'. case_decide; [split; [done|by intros []]|tauto].
Qed.

Lemma NX_ThreadIdAlloc_spec s : ids_ok s ->
  (exists d s', 0 <= d < NX_MAX_THREAD_NR /\ let i := (nextID s + d) mod NX_MAX_THREAD_NR in
    NX_ThreadIdAlloc s = Some (s', i) /\ ~ used s i /\ (forall j, around (nextID s) d j -> used s j) /\
    ids_ok s' /\ nextID s' = (i + 1) mod NX_MAX_THREAD_NR /\ forall j, used s' j <-> used s j \/ j = i) \/
  (NX_ThreadIdAlloc s = Some (s, -1) /\ forall j, 0 <= j < NX_MAX_THREAD_NR -> used s j).
Proof.
  intros Hok. pose proof Hok as (_ & Hn & _). unfold NX_ThreadIdAlloc.
  destruct (ThreadIdAlloc_loop_spec s (Z.to_nat NX_MAX_THREAD_NR) 0 Hok) as [(d & s' & Hd & Hrun & Hfree & Hd' & Hok' & Hn' & Hu)|[Hrun Hall]];
    try done; [by intros j (i & ? & _); lia|left|right]; rewrite Z.add_0_r, Z.mod_small in Hrun by done.
  - exists d, s'. split; [done|]. cbv zeta. rewrite Hrun, Some_bind. split; [|done].
    rewrite Hn'. set (i := (nextID s + d) mod NX_MAX_THREAD_NR) in *.
    assert (0 <= i < NX_MAX_THREAD_NR) by (apply Z.mod_pos_bound; done).
    rewrite (proj2 (Z.eqb_neq i _)); [done|]. unfold NX_MAX_THREAD_NR in *. zlia.
  - rewrite Hrun, Some_bind, Z.eqb_refl. done.
Qed.

(** C9: the life of thread identifiers.  Initially none is in use.  [Alloc]
    always returns: a free identifier, the first one from the cursor going
    round (so a freed one is reused as late as possible), which it marks as
    used, or -1 exactly when all [NX_MAX_THREAD_NR] are in use.  [Free] of one
    in use releases it and no other; an identifier outside the range is
    ignored. *)
Theorem thread_ids_correct s id :
  (ids_ok NX_ThreadsInitID /\ forall j, ~ used NX_ThreadsInitID j) /\
  (ids_ok s ->
    (exists d s', 0 <= d < NX_MAX_THREAD_NR /\ let i := (nextID s + d) mod NX_MAX_THREAD_NR in
      NX_ThreadIdAlloc s = Some (s', i) /\ ~ used s i /\ (forall j, around (nextID s) d j -> used s j) /\
      ids_ok s' /\ nextID s' = (i + 1) mod NX_MAX_THREAD_NR /\ forall j, used s' j <-> used s j \/ j = i) \/
    (NX_ThreadIdAlloc s = Some (s, -1) /\ forall j, 0 <= j < NX_MAX_THREAD_NR -> used s j)) /\
  (ids_ok s -> used s id -> exists s', NX_ThreadIdFree s id = Some s' /\ ids_ok s' /\
    forall j, used s' j <-> used s j /\ j <> id) /\
  (~ 0 <= id < NX_MAX_THREAD_NR -> NX_ThreadIdFree s id = Some s).
Proof.
  split_and!.
  - split; [done|]. split; [done|]. unfold NX_ThreadsInitID. cbn [maps]. by apply Forall_replicate.
  - intros j (Hj & w & Hw & Hb). unfold NX_ThreadsInitID in Hw. cbn [maps] in Hw.
    apply zlookup_Some in Hw as [_ Hw]. apply lookup_replicate in Hw as [-> _]. by rewrite Z.bits_0 in Hb.
  - apply NX_ThreadIdAlloc_spec.
  - intros Hok Hu. destruct (NX_ThreadIdFree_spec s id Hok Hu) as (s' & ? & ? & _ & ?). eauto.
  - intros Hid. unfold NX_ThreadIdFree.
    assert (((id <? 0) || (id >=? NX_MAX_THREAD_NR))%bool = true) as ->; [|done].
    apply orb_true_iff. rewrite Z.ltb_lt, Z.geb_leb, Z.leb_le. lia.
Qed.

Lemma thread_ids_correct_witness :
  exists s1 s2 s3, NX_ThreadIdAlloc NX_ThreadsInitID = Some (s1, 0) /\ NX_ThreadIdAlloc s1 = Some (s2, 1) /\
    NX_ThreadIdFree s2 0 = Some s3 /\ NX_ThreadIdAlloc s3 = Some (mkThreadID [6; 0; 0; 0; 0; 0; 0; 0] 3, 2) /\
    ~ used s3 0.
Proof.
  set (s2 := mkThreadID [3; 0; 0; 0; 0; 0; 0; 0] 2).
  destruct (thread_ids_correct s2 0) as (_ & _ & H & _).
  destruct H as (s3 & H1 & _ & H2).
  - split; [reflexivity|]. split; [cbn; unfold NX_MAX_THREAD_NR; lia|]. cbn [maps s2].
    repeat (apply Forall_cons; split; [lia|]). by apply Forall_nil.
  - split; [vm_compute; split; congruence|]. eexists. split; reflexivity.
  - assert (Hs3 : NX_ThreadIdFree s2 0 = Some (mkThreadID [2; 0; 0; 0; 0; 0; 0; 0] 2)) by reflexivity.
    rewrite Hs3 in H1. injection H1 as <-.
    exists (mkThreadID [1; 0; 0; 0; 0; 0; 0; 0] 1), s2, (mkThreadID [2; 0; 0; 0; 0; 0; 0; 0] 2).
    split; [vm_compute; reflexivity|]. split; [vm_compute; reflexivity|].
    split; [exact Hs3|]. split; [vm_compute; reflexivity|].
    intros Hu. apply H2 in Hu as [_ Hu]. apply Hu. reflexivity.
Defined.
