(* ===== verification/Timer.v ===== *)
(** Timers: [time/timer.c] and [include/base/timer.h].

    The timers are a store by address and the list [timerListHead] of the
    addresses of the waiting ones.  [timersLock] is held around every change
    and, in [NX_TimerGo], around the handlers; a handler that takes it again
    would never return, so handlers act on a world [W] of their own, through
    [call].  [headTimeout] is what reading [timeout] through the list head
    itself gives (a traversal that ends leaves its variable there). *)
From Stdlib Require Import Sorted.
From S2P Require Import Prelude.

Definition NX_TICKS_PER_SECOND : Z := 100.
Definition NX_MILLISECOND_TO_TICKS (msec : Z) : Z := msec / (1000 / NX_TICKS_PER_SECOND).
Definition NX_TICKS_TO_MILLISECOND (ticks : Z) : Z := ticks * (1000 / NX_TICKS_PER_SECOND).
Definition NX_MAX_TIMER_TIMEOUT : Z := 24 * 24 * 60 * 60 * 1000.
Definition NX_IDLE_TIMER_TIMEOUT_TICKS : Z := NX_MAX_TIMER_TIMEOUT / (1000 / NX_TICKS_PER_SECOND).

Definition NX_TIMER_ONESHOT : Z := 1.
Definition NX_TIMER_PERIOD : Z := 2.
Definition NX_TIMER_DYNAMIC : Z := 8.

Inductive NX_TimerState :=
  | NX_TIMER_INITED
  | NX_TIMER_WAITING
  | NX_TIMER_PROCESSING
  | NX_TIMER_STOPPED.

#[export] Instance NX_TimerState_eq_dec : EqDecision NX_TimerState.
Proof. solve_decision. Defined.

Record NX_Timer := mkTimer {
  state : NX_TimerState;
  timeout : Z;
  timeTicks : Z;
  flags : Z;
  handler : Z;
  arg : Z
}.

Record Timers := mkTimers {
  timers : gmap Z NX_Timer;
  timerListHead : list Z;
  timerTicks : Z;
  nextTimeoutTicks : Z
}.

(** The static [idleTimer] and its handler. *)
Definition idleTimer : Z := 1.
Definition idleTimerHandler_addr : Z := 1.

Definition set_state (s : NX_TimerState) (t : NX_Timer) : NX_Timer :=
  mkTimer s (timeout t) (timeTicks t) (flags t) (handler t) (arg t).
Definition set_timeout (x : Z) (t : NX_Timer) : NX_Timer :=
  mkTimer (state t) x (timeTicks t) (flags t) (handler t) (arg t).
Definition set_flags (f : Z) (t : NX_Timer) : NX_Timer :=
  mkTimer (state t) (timeout t) (timeTicks t) f (handler t) (arg t).

Definition with_timers (s : Timers) (m : gmap Z NX_Timer) : Timers :=
  mkTimers m (timerListHead s) (timerTicks s) (nextTimeoutTicks s).
Definition with_list (s : Timers) (l : list Z) : Timers :=
  mkTimers (timers s) l (timerTicks s) (nextTimeoutTicks s).
Definition with_ticks (s : Timers) (x : Z) : Timers :=
  mkTimers (timers s) (timerListHead s) x (nextTimeoutTicks s).
Definition with_next (s : Timers) (x : Z) : Timers :=
  mkTimers (timers s) (timerListHead s) (timerTicks s) x.
Definition upd_timer (s : Timers) (id : Z) (f : NX_Timer -> NX_Timer) : option Timers :=
  t ← timers s !! id; Some (with_timers s (<[id := f t]> (timers s))).

(** The fields that [NX_TimerInit] sets, or [NX_EINVAL]. *)
Definition NX_TimerInit (milliseconds hnd arg flags : Z) : option NX_Timer * NX_Error :=
  if negb (nz milliseconds) || negb (nz hnd) || negb (nz flags) then (None, NX_EINVAL)
  else if negb (nz (Z.land flags (Z.lor NX_TIMER_ONESHOT NX_TIMER_PERIOD))) || nz (Z.land flags NX_TIMER_DYNAMIC)
  then (None, NX_EINVAL)
  else (Some (mkTimer NX_TIMER_INITED 0 (NX_MILLISECOND_TO_TICKS milliseconds) flags hnd arg), NX_EOK).

(** [mem] is what [NX_MemAlloc] returns; the result is the address or null. *)
Definition NX_TimerCreate (mem : option Z) (s : Timers) (milliseconds hnd arg flags : Z) : Timers * Z :=
  match mem with
  | None => (s, 0)
  | Some id =>
      match NX_TimerInit milliseconds hnd arg flags with
      | (Some t, NX_EOK) => (with_timers s (<[id := set_flags (Z.lor flags NX_TIMER_DYNAMIC) t]> (timers s)), id)
      | _ => (s, 0)
      end
  end.

Section operations.
Context {W : Type} (call : Z -> Z -> W -> W * bool) (headTimeout : Z).

(** The traversal that looks for the next timeout. *)
Fixpoint next_timeout (m : gmap Z NX_Timer) (ticks : Z) (l : list Z) : option Z :=
  match l with
  | [] => Some headTimeout
  | id :: l =>
      t ← m !! id;
      if timeout t >? ticks then Some (timeout t) else next_timeout m ticks l
  end.

Definition NX_TimerRemove (s : Timers) (id : Z) (onTimerList destroy : bool) : option Timers :=
  s ← (if onTimerList then
         assert (bool_decide (id ∈ timerListHead s));;
         let s := with_list s (list_del id (timerListHead s)) in
         n ← next_timeout (timers s) (timerTicks s) (timerListHead s);
         Some (with_next s n)
       else Some s);
  if destroy then
    t ← timers s !! id;
    if nz (Z.land (flags t) NX_TIMER_DYNAMIC) then Some (with_timers s (delete id (timers s))) else Some s
  else Some s.

Definition NX_TimerDestroy (s : Timers) (id : Z) : option (Timers * NX_Error) :=
  t ← timers s !! id;
  match state t with
  | NX_TIMER_WAITING | NX_TIMER_PROCESSING => Some (s, NX_EAGAIN)
  | NX_TIMER_STOPPED | NX_TIMER_INITED =>
      s ← NX_TimerRemove s id false true; Some (s, NX_EOK)
  end.

(** The backward traversal: after the last timer that is not later. *)
Fixpoint insert_after_prev (m : gmap Z NX_Timer) (id x : Z) (rev_l : list Z) : option (list Z) :=
  match rev_l with
  | [] => Some []
  | prev :: l =>
      p ← m !! prev;
      if x >=? timeout p then Some (id :: prev :: l)
      else l ← insert_after_prev m id x l; Some (prev :: l)
  end.

Definition NX_TimerStart (s : Timers) (id : Z) : option (Timers * NX_Error) :=
  t ← timers s !! id;
  let x := u64 (timeTicks t + timerTicks s) in
  s ← upd_timer s id (set_timeout x);
  if u64 (NX_IDLE_TIMER_TIMEOUT_TICKS - timeTicks t) <? timerTicks s then Some (s, NX_EINVAL)
  else if bool_decide (id ∈ timerListHead s) then Some (s, NX_EAGAIN)
  else
    s ← upd_timer s id (set_state NX_TIMER_WAITING);
    match timerListHead s with
    | [] => Some (with_next (with_list s [id]) x, NX_EOK)
    | first :: _ =>
        f ← timers s !! first;
        if x <? timeout f then Some (with_next (with_list s (id :: timerListHead s)) x, NX_EOK)
        else
          l ← insert_after_prev (timers s) id x (rev (timerListHead s));
          Some (with_list s (rev l), NX_EOK)
    end.

Definition NX_TimerStopUnlocked (s : Timers) (id : Z) : option (Timers * NX_Error) :=
  t ← timers s !! id;
  let st := state t in
  if negb (bool_decide (st = NX_TIMER_PROCESSING)) && negb (bool_decide (st = NX_TIMER_WAITING))
  then Some (s, NX_EAGAIN)
  else
    s ← upd_timer s id (set_state NX_TIMER_STOPPED);
    s ← (if bool_decide (st = NX_TIMER_WAITING) then NX_TimerRemove s id true false else Some s);
    Some (s, NX_EOK).

Definition NX_TimerStop (s : Timers) (id : Z) : option (Timers * NX_Error) := NX_TimerStopUnlocked s id.

Definition idleTimerHandler (s : Timers) : option (Timers * bool) :=
  t ← timers s !! idleTimer;
  let delta := timeout t in
  let s := with_ticks s (u64 (timerTicks s - delta)) in
  let s := with_timers s (map_imap (fun id t =>
    Some (if bool_decide (id ∈ timerListHead s) then set_timeout (u64 (timeout t - delta)) t else t)) (timers s)) in
  Some (s, true).

Definition run_handler (s : Timers) (w : W) (t : NX_Timer) : option (Timers * W * bool) :=
  if handler t =? idleTimerHandler_addr then '(s, b) ← idleTimerHandler s; Some (s, w, b)
  else let '(w, b) := call (handler t) (arg t) w in Some (s, w, b).

Definition NX_TimerInvoke (s : Timers) (w : W) (id : Z) : option (Timers * W) :=
  s ← upd_timer s id (set_state NX_TIMER_PROCESSING);
  t ← timers s !! id;
  '(s, w, b) ← run_handler s w t;
  s ← (if negb b && nz (Z.land (flags t) NX_TIMER_PERIOD) then upd_timer s id (set_state NX_TIMER_STOPPED)
       else Some s);
  t ← timers s !! id;
  if bool_decide (state t = NX_TIMER_STOPPED) then s ← NX_TimerRemove s id true true; Some (s, w)
  else if nz (Z.land (flags t) NX_TIMER_PERIOD) then
    s ← upd_timer s id (fun t => set_state NX_TIMER_WAITING (set_timeout (u64 (timerTicks s + timeTicks t)) t));
    Some (s, w)
  else
    s ← upd_timer s id (set_state NX_TIMER_STOPPED);
    s ← NX_TimerRemove s id true true;
    Some (s, w).

(** [NX_ListForEachEntrySafe] over the list as it was. *)
Fixpoint TimerGo_loop (s : Timers) (w : W) (l : list Z) : option (Timers * W) :=
  match l with
  | [] => Some (s, w)
  | id :: l =>
      t ← timers s !! id;
      if timeout t >? timerTicks s then Some (s, w)
      else '(s, w) ← NX_TimerInvoke s w id; TimerGo_loop s w l
  end.

Definition NX_TimerGo (s : Timers) (w : W) : option (Timers * W) :=
  let s := with_ticks s (u64 (timerTicks s + 1)) in
  if timerTicks s <? nextTimeoutTicks s then Some (s, w)
  else
    '(s, w) ← TimerGo_loop s w (timerListHead s);
    n ← next_timeout (timers s) (timerTicks s) (timerListHead s);
    Some (with_next s n, w).

Definition NX_TimersInit : option Timers :=
  let s := mkTimers ∅ [] 0 0 in
  match NX_TimerInit NX_MAX_TIMER_TIMEOUT idleTimerHandler_addr 0 1 with
  | (Some t, NX_EOK) =>
      '(s, err) ← NX_TimerStart (with_timers s {[idleTimer := t]}) idleTimer;
      assert (is_ok err);; Some s
  | _ => None
  end.
End operations.

(** A periodic timer is armed again where it stands: in front, it hides the
    timers due before its next turn, which fire with it, late. *)
Example periodic_hides_others :
  let tm := fun x d f => mkTimer NX_TIMER_WAITING x d f 7 0 in
  let s := mkTimers (list_to_map [(2, tm 10 10 2); (3, tm 15 15 1)]) [2; 3] 9 10 in
  let call h a (w : list Z) := (w ++ [h], true) in
  let run := Nat.iter 6 (fun r => '(s, w) ← r; NX_TimerGo call 0 s w) (Some (s, [])) in
  (r ← run; Some (timerTicks r.1, nextTimeoutTicks r.1, timerListHead r.1, r.2)) = Some (15, 20, [2; 3], [7]).
Proof. vm_compute. reflexivity. Qed.

(** ** Waiting timers in order *)
Definition due (m : gmap Z NX_Timer) (id x : Z) : Prop := timeout <$> m !! id = Some x.

(** The list is sorted by timeout, every timer on it is waiting for a time to
    come, and the next timeout is the first one. *)
Record timers_ok (s : Timers) : Prop := {
  tm_ticks : 0 <= timerTicks s < 2 ^ 62;
  tm_nodup : NoDup (timerListHead s);
  tm_each : forall id, id ∈ timerListHead s -> exists t, timers s !! id = Some t /\
    state t = NX_TIMER_WAITING /\ timerTicks s < timeout t < 2 ^ 63;
  tm_sorted : StronglySorted (fun a b => forall x y, due (timers s) a x -> due (timers s) b y -> x <= y) (timerListHead s);
  tm_next : forall id l, timerListHead s = id :: l -> due (timers s) id (nextTimeoutTicks s)
}.

(** What a firing leaves of a timer, and what it does to the world. *)
Definition one_shot (t : NX_Timer) : Prop :=
  Z.land (flags t) NX_TIMER_PERIOD = 0 /\ handler t <> idleTimerHandler_addr.

Definition after_fire (m : gmap Z NX_Timer) (id : Z) : gmap Z NX_Timer :=
  match m !! id with
  | Some t => if nz (Z.land (flags t) NX_TIMER_DYNAMIC) then delete id m else <[id := set_state NX_TIMER_STOPPED t]> m
  | None => m
  end.

Definition deliver {W} (call : Z -> Z -> W -> W * bool) (m : gmap Z NX_Timer) (w : W) (id : Z) : W :=
  match m !! id with Some t => (call (handler t) (arg t) w).1 | None => w end.

Section proofs.
Context {W : Type} (call : Z -> Z -> W -> W * bool) (headTimeout : Z).
Implicit Types (s : Timers) (m : gmap Z NX_Timer) (l : list Z) (t : NX_Timer) (id x : Z) (w : W).

Lemma due_Some m id t : m !! id = Some t -> due m id (timeout t).
Proof. unfold due. by intros ->. Qed.

Lemma due_fun m id x y : due m id x -> due m id y -> x = y.
Proof. unfold due. congruence. Qed.

Lemma due_insert_ne m id j t x : j <> id -> due (<[id := t]> m) j x <-> due m j x.
Proof. intros. unfold due. by rewrite lookup_insert_ne. Qed.

Lemma sorted_ext m m' l :
  (forall id x, id ∈ l -> due m' id x <-> due m id x) ->
  StronglySorted (fun a b => forall x y, due m a x -> due m b y -> x <= y) l ->
  StronglySorted (fun a b => forall x y, due m' a x -> due m' b y -> x <= y) l.
Proof.
  induction l as [|a l IH]; intros He Hs; [constructor|]. inversion Hs as [|? ? Hs' Hf]; subst. constructor.
  - apply IH; [|done]. intros. apply He. by right.
  - rewrite Forall_forall in *. intros b Hb x y Hx Hy. apply (Hf b Hb); apply He; (done || by left || by right).
Qed.

Lemma sorted_head m a l b x y :
  StronglySorted (fun a b => forall x y, due m a x -> due m b y -> x <= y) (a :: l) -> b ∈ a :: l ->
  due m a x -> due m b y -> x <= y.
Proof.
  intros Hs Hb Hx Hy. inversion Hs as [|? ? _ Hf]; subst. apply elem_of_cons in Hb as [->|Hb].
  - by rewrite (due_fun m a x y).
  - rewrite Forall_forall in Hf. by apply (Hf b Hb).
Qed.

(** ** Starting *)

Lemma insert_after_prev_spec m id x l :
  (forall j, j ∈ l -> is_Some (m !! j)) ->
  exists l1 l2, l = l1 ++ l2 /\ insert_after_prev m id x l = Some (l1 ++ (if bool_decide (l2 = []) then [] else [id]) ++ l2) /\
    (forall j y, j ∈ l1 -> due m j y -> x < y) /\
    (forall j l', l2 = j :: l' -> exists y, due m j y /\ y <= x).
Proof.
  induction l as [|p l IH]; intros Hall.
  - exists [], []. split_and!; try done. by intros ? ? ?%elem_of_nil.
  - destruct (Hall p ltac:(left)) as [t Ht]. cbn [insert_after_prev]. rewrite Ht, Some_bind.
    rewrite Z.geb_leb. destruct (Z.leb_spec (timeout t) x) as [Hle|Hgt].
    + exists [], (p :: l). split; [done|]. split; [done|]. split; [by intros ? ? ?%elem_of_nil|].
      intros j l' [= <- <-]. exists (timeout t). split; [by apply due_Some|done].
    + destruct IH as (l1 & l2 & -> & -> & H1 & H2); [intros; apply Hall; by right|]. rewrite Some_bind.
      exists (p :: l1), l2. split; [done|]. split; [done|]. split; [|done].
      intros j y [->|Hj]%elem_of_cons Hy; [|eauto]. rewrite <- (due_fun m p _ _ (due_Some m p t Ht) Hy). lia.
Qed.

Lemma sorted_le_insert m l1 l2 id x :
  StronglySorted (fun a b => forall x y, due m a x -> due m b y -> x <= y) (l1 ++ l2) -> due m id x ->
  (forall j y, j ∈ l1 -> due m j y -> y <= x) -> (forall j y, j ∈ l2 -> due m j y -> x <= y) ->
  StronglySorted (fun a b => forall x y, due m a x -> due m b y -> x <= y) (l1 ++ id :: l2).
Proof.
  induction l1 as [|a l1 IH]; intros Hs Hx H1 H2; cbn [app] in *.
  - constructor; [done|]. apply Forall_forall. intros j Hj y z Hy Hz.
    rewrite <- (due_fun m id _ _ Hx Hy). eauto.
  - inversion Hs as [|? ? Hs' Hf]; subst. constructor.
    + apply IH; try done. intros j y Hj. apply H1. by right.
    + rewrite Forall_app in *. destruct Hf as [Hf1 Hf2]. split; [done|]. constructor; [|done].
      intros y z Hy Hz. rewrite <- (due_fun m id _ _ Hx Hz). apply (H1 a); [left|done].
Qed.

Lemma sorted_rev_split m l1 l2 p x y j :
  StronglySorted (fun a b => forall x y, due m a x -> due m b y -> x <= y) (rev (l1 ++ p :: l2)) ->
  j ∈ l2 -> due m p x -> due m j y -> y <= x.
Proof.
  rewrite rev_app_distr. simpl. rewrite <- app_assoc. intros Hs Hj Hx Hy.
  assert (Hj' : j ∈ rev l2) by (by rewrite <- elem_of_reverse, reverse_alt in Hj || (apply list_elem_of_In, in_rev; rewrite rev_involutive; by apply list_elem_of_In)).
  clear Hj. induction (rev l2) as [|a l IH]; [by apply elem_of_nil in Hj'|]. cbn [app] in Hs.
  inversion Hs as [|? ? Hs' Hf]; subst. apply elem_of_cons in Hj' as [->|Hj']; [|auto].
  rewrite Forall_forall in Hf. apply (Hf p); [|done|done]. apply elem_of_app. right. left.
Qed.

(** A timer that is put between those due no later and those due later. *)
Lemma inserted_ok s id t x l1 l2 nx :
  timers_ok s -> id ∉ timerListHead s -> timerTicks s < x < 2 ^ 63 -> timerListHead s = l1 ++ l2 ->
  (forall j y, j ∈ l1 -> due (timers s) j y -> y <= x) -> (forall j y, j ∈ l2 -> due (timers s) j y -> x < y) ->
  (l1 = [] -> nx = x) -> (l1 <> [] -> nx = nextTimeoutTicks s) ->
  timers_ok (mkTimers (<[id := set_state NX_TIMER_WAITING (set_timeout x t)]> (timers s)) (l1 ++ id :: l2) (timerTicks s) nx).
Proof.
  intros [Hticks Hnd Heach Hsort Hnext] Hnin Hx Hl H1 H2 Hx1 Hx2. set (t' := set_state _ _). set (m' := <[id := t']> (timers s)).
  assert (Hdue : forall j y, j ∈ timerListHead s -> due m' j y <-> due (timers s) j y).
  { intros j y Hj. apply due_insert_ne. by intros ->. }
  assert (Hsort' := sorted_ext (timers s) m' (timerListHead s) (fun j y => Hdue j y) Hsort).
  rewrite Hl in *. split; cbn [timers timerListHead timerTicks nextTimeoutTicks]; [done|..].
  - rewrite <- Permutation_middle. by constructor.
  - intros j Hj. destruct (decide (j = id)) as [->|Hne].
    + exists t'. unfold m'. rewrite lookup_insert_eq. split_and!; cbn; (done || lia).
    + unfold m'. rewrite lookup_insert_ne by done. apply Heach. set_solver +Hj Hne.
  - apply sorted_le_insert with x; [done| |..].
    + unfold due, m'. by rewrite lookup_insert_eq.
    + intros j y Hj Hy. apply (H1 j); [done|]. apply Hdue; [set_solver +Hj|done].
    + intros j y Hj Hy. apply Z.lt_le_incl, (H2 j); [done|]. apply Hdue; [set_solver +Hj|done].
  - intros j l He. destruct l1 as [|a l1]; cbn [app] in He; injection He as <- <-.
    + rewrite Hx1 by done. unfold due, m'. by rewrite lookup_insert_eq.
    + rewrite Hx2 by done. apply Hdue; [set_solver +|]. by apply (Hnext a (l1 ++ l2)).
Qed.

(** Where the backward traversal puts a timer that is not due before the first. *)
Lemma insert_place m id x l first y0 l0 :
  l = first :: l0 -> (forall j, j ∈ l -> is_Some (m !! j)) ->
  StronglySorted (fun a b => forall x y, due m a x -> due m b y -> x <= y) l -> due m first y0 -> y0 <= x ->
  exists l1 l2, insert_after_prev m id x (rev l) = Some (rev (l1 ++ id :: l2)) /\ l = l1 ++ l2 /\ l1 <> [] /\
    (forall j y, j ∈ l1 -> due m j y -> y <= x) /\ (forall j y, j ∈ l2 -> due m j y -> x < y).
Proof.
  intros Hl Hall Hsort Hf Hge.
  destruct (insert_after_prev_spec m id x (rev l)) as (r1 & r2 & Hr & -> & H1 & H2).
  { intros j Hj%list_elem_of_In%in_rev%list_elem_of_In. by apply Hall. }
  assert (Hlr : l = rev r2 ++ rev r1) by (by rewrite <- rev_app_distr, <- Hr, rev_involutive).
  assert (Hne : r2 <> []).
  { intros ->. rewrite app_nil_r in Hr. assert (x < y0); [|lia]. apply (H1 first); [|done].
    rewrite <- Hr, Hl. apply list_elem_of_In, in_rev. rewrite rev_involutive. by left. }
  rewrite bool_decide_eq_false_2 by done. destruct r2 as [|p r2]; [done|]. destruct (H2 p r2 eq_refl) as (y & Hy & Hyx).
  exists (rev (p :: r2)), (rev r1). split; [|split; [done|split; [|split]]].
  - f_equal. rewrite rev_app_distr. change (rev (id :: rev r1)) with (rev (rev r1) ++ [id]). by rewrite !rev_involutive, <- app_assoc.
  - cbn [rev]. intros Hnil. by destruct (app_cons_not_nil (rev r2) [] p).
  - intros j z Hj Hz. apply list_elem_of_In, in_rev, list_elem_of_In in Hj.
    apply elem_of_cons in Hj as [->|Hj]; [by rewrite <- (due_fun m p y z)|].
    apply Z.le_trans with y; [|done]. apply (sorted_rev_split m r1 r2 p y z j); try done. by rewrite <- Hr, rev_involutive.
  - intros j z Hj Hz. apply list_elem_of_In, in_rev, list_elem_of_In in Hj. eauto.
Qed.

(** [Start] puts the timer behind all those that are due no later. *)
Lemma NX_TimerStart_spec s id t :
  timers_ok s -> timers s !! id = Some t -> id ∉ timerListHead s ->
  0 < timeTicks t -> timeTicks t + timerTicks s <= NX_IDLE_TIMER_TIMEOUT_TICKS ->
  let x := timeTicks t + timerTicks s in
  exists s' l1 l2, NX_TimerStart s id = Some (s', NX_EOK) /\ timers_ok s' /\
    timers s' = <[id := set_state NX_TIMER_WAITING (set_timeout x t)]> (timers s) /\
    timerTicks s' = timerTicks s /\ timerListHead s = l1 ++ l2 /\ timerListHead s' = l1 ++ id :: l2 /\
    (forall j y, j ∈ l1 -> due (timers s) j y -> y <= x) /\ (forall j y, j ∈ l2 -> due (timers s) j y -> x < y).
Proof.
  intros Hok Ht Hnin Hpos Hlim x. pose proof Hok as [Hticks Hnd Heach Hsort Hnext].
  change NX_IDLE_TIMER_TIMEOUT_TICKS with 207360000 in *.
  assert (Hins := fun l1 l2 nx => inserted_ok s id t x l1 l2 nx Hok Hnin ltac:(unfold x; lia)).
  unfold NX_TimerStart. rewrite Ht, Some_bind. change NX_IDLE_TIMER_TIMEOUT_TICKS with 207360000.
  rewrite (u64_small (timeTicks t + timerTicks s)), (u64_small (207360000 - timeTicks t)) by lia. fold x.
  unfold upd_timer. rewrite Ht, !Some_bind. cbn [with_timers timerTicks timerListHead timers].
  rewrite (proj2 (Z.ltb_ge _ _)), bool_decide_eq_false_2 by (done || lia).
  rewrite lookup_insert_eq, !Some_bind, insert_insert_eq. cbn [with_timers timerListHead timers timerTicks].
  set (m' := <[id := _]> (timers s)) in *.
  assert (Hdue : forall j y, j ∈ timerListHead s -> due m' j y <-> due (timers s) j y).
  { intros j y Hj. apply due_insert_ne. by intros ->. }
  assert (Hsort' := sorted_ext (timers s) m' (timerListHead s) (fun j y => Hdue j y) Hsort).
  assert (Hall : forall j, j ∈ timerListHead s -> is_Some (m' !! j)).
  { intros j Hj. unfold m'. rewrite lookup_insert_ne by (by intros ->). destruct (Heach j Hj) as (? & ? & _). by eexists. }
  destruct (timerListHead s) as [|first l0] eqn:Hl.
  { eexists _, [], []. split; [reflexivity|]. split; [apply (Hins [] []); try done; by intros ? ? ?%elem_of_nil|].
    split_and!; try done; by intros ? ? ?%elem_of_nil. }
  destruct (Hall first) as [f Hf]; [left|]. rewrite Hf, Some_bind.
  pose proof (due_Some m' first f Hf) as Hfd. destruct (Z.ltb_spec x (timeout f)) as [Hlt|Hge].
  - assert (Hlater : forall j y, j ∈ first :: l0 -> due (timers s) j y -> x < y).
    { intros j y Hj Hy. apply Z.lt_le_trans with (timeout f); [done|].
      apply (sorted_head m' first l0 j); [done|done|done|by apply Hdue]. }
    eexists _, [], (first :: l0). split; [reflexivity|].
    split; [apply (Hins [] (first :: l0)); try done; by intros ? ? ?%elem_of_nil|].
    split_and!; try done. by intros ? ? ?%elem_of_nil.
  - destruct (insert_place m' id x (first :: l0) first (timeout f) l0) as (l1 & l2 & -> & Hl12 & Hne & H1 & H2); try done.
    rewrite Some_bind.
    assert (Hbefore : forall j z, j ∈ l1 -> due (timers s) j z -> z <= x).
    { intros j z Hj Hz. apply (H1 j); [done|]. apply Hdue; [|done]. rewrite Hl12. set_solver +Hj. }
    assert (Hafter : forall j z, j ∈ l2 -> due (timers s) j z -> x < z).
    { intros j z Hj Hz. apply (H2 j); [done|]. apply Hdue; [|done]. rewrite Hl12. set_solver +Hj. }
    eexists _, l1, l2. split; [reflexivity|]. cbn [with_list timerListHead timers timerTicks]. rewrite rev_involutive.
    split; [by apply (Hins l1 l2)|]. by split_and!.
Qed.

(** ** Firing *)
Lemma next_timeout_is_Some m x l : (forall j, j ∈ l -> is_Some (m !! j)) -> exists n, next_timeout headTimeout m x l = Some n.
Proof.
  induction l as [|j l IH]; intros Hall; [by eexists|]. cbn [next_timeout].
  destruct (Hall j ltac:(left)) as [t ->]. rewrite Some_bind. case_match; [by eexists|].
  apply IH. intros. apply Hall. by right.
Qed.

Lemma next_timeout_head m x j y l : due m j y -> x < y -> next_timeout headTimeout m x (j :: l) = Some y.
Proof.
  unfold due. intros (t & Ht & ->)%fmap_Some Hlt. cbn [next_timeout]. rewrite Ht, Some_bind.
  rewrite Z.gtb_ltb. by rewrite (proj2 (Z.ltb_lt _ _)).
Qed.

Lemma after_fire_ne m id j : j <> id -> after_fire m id !! j = m !! j.
Proof. intros. unfold after_fire. repeat case_match; [by rewrite lookup_delete_ne|by rewrite lookup_insert_ne|done]. Qed.

Lemma after_fire_eq m id t : after_fire m id !! id = Some t -> m !! id <> None -> state t = NX_TIMER_STOPPED.
Proof.
  unfold after_fire. destruct (m !! id) as [u|] eqn:Hu; [|done]. case_match.
  - by rewrite lookup_delete_eq.
  - rewrite lookup_insert_eq. by intros [= <-].
Qed.

Lemma NX_TimerInvoke_one_shot s w id t :
  timers s !! id = Some t -> one_shot t -> id ∈ timerListHead s ->
  (forall j, j ∈ timerListHead s -> is_Some (timers s !! j)) ->
  exists n, NX_TimerInvoke call headTimeout s w id =
    Some (mkTimers (after_fire (timers s) id) (list_del id (timerListHead s)) (timerTicks s) n, deliver call (timers s) w id).
Proof.
  intros Ht [Hper Hidle] Hin Hall. unfold NX_TimerInvoke, upd_timer. rewrite Ht, !Some_bind.
  cbn [with_timers timers]. rewrite lookup_insert_eq, Some_bind. unfold run_handler.
  cbn [handler arg flags set_state]. rewrite (proj2 (Z.eqb_neq _ _)) by done.
  unfold deliver. rewrite Ht. destruct (call (handler t) (arg t) w) as [w' b].
  rewrite Some_bind. cbv beta iota. rewrite Hper. change (nz 0) with false. rewrite andb_false_r, Some_bind.
  cbn [with_timers timers]. rewrite lookup_insert_eq, !Some_bind.
  rewrite bool_decide_eq_false_2 by done. cbn [flags set_state]. rewrite Hper. change (nz 0) with false. cbv iota.
  cbn [with_timers timers]. rewrite insert_insert_eq. unfold NX_TimerRemove.
  cbn [with_timers with_list timers timerListHead timerTicks].
  rewrite bool_decide_eq_true_2 by done. rewrite assert_true.
  destruct (next_timeout_is_Some (<[id:=set_state NX_TIMER_STOPPED (set_state NX_TIMER_PROCESSING t)]> (timers s))
    (timerTicks s) (list_del id (timerListHead s))) as [n ->].
  { intros j [Hj Hjl]%elem_of_list_del. rewrite lookup_insert_ne by done. auto. }
  rewrite !Some_bind. cbn [with_next with_list with_timers timers]. rewrite lookup_insert_eq, Some_bind.
  cbn [flags set_state]. exists n. unfold after_fire. rewrite Ht. case_match; rewrite Some_bind; [|done].
  unfold with_timers. cbn. by rewrite delete_insert_eq.
Qed.

(** The traversal of [NX_TimerGo] over the due timers [f]. *)
Lemma TimerGo_loop_spec f r m ticks n w :
  NoDup (f ++ r) -> (forall j, j ∈ f ++ r -> is_Some (m !! j)) ->
  (forall j t, j ∈ f -> m !! j = Some t -> timeout t <= ticks /\ one_shot t) ->
  (forall j r', r = j :: r' -> exists y, due m j y /\ ticks < y) ->
  exists n', TimerGo_loop call headTimeout (mkTimers m (f ++ r) ticks n) w (f ++ r) =
    Some (mkTimers (foldl after_fire m f) r ticks n', foldl (deliver call m) w f).
Proof.
  revert m n w. induction f as [|id f IH]; intros m n w Hnd Hall Hf Hr; cbn [app foldl].
  { exists n. destruct r as [|j r]; [done|]. destruct (Hr j r eq_refl) as (y & Hy & Hlt).
    unfold due in Hy. apply fmap_Some in Hy as (t & Ht & ->). cbn [TimerGo_loop timers]. rewrite Ht, Some_bind.
    cbn [timerTicks]. by rewrite Z.gtb_ltb, (proj2 (Z.ltb_lt _ _)). }
  destruct (Hall id) as [t Ht]; [left|]. destruct (Hf id t) as [Hle Hone]; [left|done|].
  cbn [TimerGo_loop timers]. rewrite Ht, Some_bind. cbn [timerTicks].
  rewrite Z.gtb_ltb, (proj2 (Z.ltb_ge _ _)) by done.
  destruct (NX_TimerInvoke_one_shot (mkTimers m (id :: f ++ r) ticks n) w id t) as [n1 ->]; [done|done|left|done|].
  rewrite Some_bind. cbv beta iota. cbn [timers timerListHead timerTicks].
  cbn [app] in Hnd. inversion Hnd as [|? ? Hnin Hnd']; subst.
  rewrite list_del_cons_eq, list_del_notin by done.
  assert (Hne : forall j, j ∈ f ++ r -> after_fire m id !! j = m !! j).
  { intros j Hj. apply after_fire_ne. by intros ->. }
  destruct (IH (after_fire m id) n1 (deliver call m w id)) as [n' ->]; [done|..].
  - intros j Hj. rewrite Hne by done. apply Hall. by right.
  - intros j u Hj. rewrite Hne by set_solver +Hj. apply Hf. by right.
  - intros j r' ->. unfold due. rewrite Hne by set_solver +. by apply (Hr j r').
  - exists n'. do 2 f_equal. clear -Hne. assert (Hsub : forall j, j ∈ f -> after_fire m id !! j = m !! j) by set_solver +Hne.
    clear Hne. generalize (deliver call m w id) as v. revert Hsub. generalize (after_fire m id) as m'. intros m' Hsub.
    induction f as [|j f IH]; intros v; [done|]. cbn [foldl]. unfold deliver at 2. rewrite Hsub by left.
    apply IH. intros. apply Hsub. by right.
Qed.

Lemma after_fires_ne m f j : j ∉ f -> foldl after_fire m f !! j = m !! j.
Proof.
  revert m. induction f as [|id f IH]; intros m Hj; [done|]. apply not_elem_of_cons in Hj as [Hne Hj].
  cbn [foldl]. by rewrite IH, after_fire_ne.
Qed.

Lemma after_fires_eq m f j t :
  j ∈ f -> NoDup f -> is_Some (m !! j) -> foldl after_fire m f !! j = Some t -> state t = NX_TIMER_STOPPED.
Proof.
  revert m. induction f as [|id f IH]; intros m Hj Hnd Hm; [by apply elem_of_nil in Hj|].
  inversion Hnd as [|? ? Hnin Hnd']; subst. cbn [foldl]. destruct (decide (j = id)) as [->|Hne].
  - rewrite after_fires_ne by done. intros Ht. apply (after_fire_eq m id); [done|]. by destruct Hm as [? ->].
  - apply IH; [set_solver +Hj Hne|done|]. by rewrite after_fire_ne.
Qed.

Lemma sorted_split m l x :
  (forall j, j ∈ l -> is_Some (m !! j)) ->
  StronglySorted (fun a b => forall x y, due m a x -> due m b y -> x <= y) l ->
  exists f r, l = f ++ r /\ (forall j y, j ∈ f -> due m j y -> y <= x) /\ (forall j y, j ∈ r -> due m j y -> x < y).
Proof.
  induction l as [|a l IH]; intros Hall Hs.
  { exists [], []. split_and!; try done; by intros ? ? ?%elem_of_nil. }
  destruct (Hall a) as [t Ht]; [left|]. pose proof (due_Some m a t Ht) as Hd.
  destruct (Z.le_gt_cases (timeout t) x) as [Hle|Hgt].
  - inversion Hs as [|? ? Hs' Hf]; subst. destruct IH as (f & r & -> & H1 & H2); [intros; apply Hall; by right|done|].
    exists (a :: f), r. split_and!; try done. intros j y [->|Hj]%elem_of_cons Hy; [|eauto].
    by rewrite <- (due_fun m a _ _ Hd Hy).
  - exists [], (a :: l). split_and!; try done; [by intros ? ? ?%elem_of_nil|].
    intros j y Hj Hy. pose proof (sorted_head m a l j _ _ Hs Hj Hd Hy). lia.
Qed.

Lemma sorted_app_r m f r :
  StronglySorted (fun a b => forall x y, due m a x -> due m b y -> x <= y) (f ++ r) ->
  StronglySorted (fun a b => forall x y, due m a x -> due m b y -> x <= y) r.
Proof. induction f as [|a f IH]; [done|]. intros Hs. inversion Hs. auto. Qed.

Lemma NX_TimerGo_step s w :
  timers_ok s -> timerTicks s + 1 < 2 ^ 62 ->
  (exists id y, id ∈ timerListHead s /\ due (timers s) id y /\ timerTicks s + 1 < y) ->
  (forall id t, id ∈ timerListHead s -> timers s !! id = Some t -> timeout t <= timerTicks s + 1 -> one_shot t) ->
  exists s' f, NX_TimerGo call headTimeout s w = Some (s', foldl (deliver call (timers s)) w f) /\
    timers_ok s' /\ timerTicks s' = timerTicks s + 1 /\ timerListHead s = f ++ timerListHead s' /\
    timers s' = foldl after_fire (timers s) f /\
    (forall j y, j ∈ f -> due (timers s) j y -> y = timerTicks s + 1).
Proof.
  intros Hok Hx (k & z & Hk & Hz & Hkz) Hone. pose proof Hok as [Hticks Hnd Heach Hsort Hnext].
  assert (Hall : forall j, j ∈ timerListHead s -> is_Some (timers s !! j)).
  { intros j Hj. destruct (Heach j Hj) as (t & -> & _). by eexists. }
  unfold NX_TimerGo. cbn [with_ticks timerTicks nextTimeoutTicks timerListHead timers].
  rewrite u64_small by lia. set (x := timerTicks s + 1) in *.
  destruct (sorted_split (timers s) (timerListHead s) x Hall Hsort) as (f & r & Hl & Hf & Hr).
  assert (Hdue : forall j y, j ∈ f -> due (timers s) j y -> y = x).
  { intros j y Hj Hy. destruct (Heach j) as (t & Ht & _ & Hlt); [rewrite Hl; set_solver +Hj|].
    pose proof (Hf j y Hj Hy). rewrite <- (due_fun _ _ _ _ (due_Some _ _ _ Ht) Hy) in *. lia. }
  assert (Hok' : forall m' nx, (forall j, j ∈ r -> m' !! j = timers s !! j) ->
    (forall j l y, r = j :: l -> due (timers s) j y -> nx = y) -> timers_ok (mkTimers m' r x nx)).
  { intros m' nx Hm Hnx. rewrite Hl in *. split; cbn [timers timerListHead timerTicks nextTimeoutTicks]; [lia|..].
    - by apply NoDup_app in Hnd as (_ & _ & ?).
    - intros j Hj. rewrite Hm by done. destruct (Heach j) as (t & Ht & Hst & ? & ?); [set_solver +Hj|].
      exists t. split_and!; try done. apply (Hr j); [done|by apply due_Some].
    - apply sorted_ext with (timers s); [|by apply sorted_app_r with f]. intros j y Hj. unfold due. by rewrite Hm.
    - intros j l He. unfold due. rewrite Hm by (rewrite He; left). destruct (Heach j) as (t & Ht & _); [rewrite He; set_solver +|].
      by rewrite (Hnx j l (timeout t) He (due_Some _ _ _ Ht)), Ht. }
  destruct (Z.ltb_spec x (nextTimeoutTicks s)) as [Hlt|Hge].
  - (* nothing is due *)
    assert (f = []) as ->.
    { destruct f as [|j f]; [done|]. exfalso. pose proof (Hdue j (nextTimeoutTicks s) ltac:(left) (Hnext j (f ++ r) Hl)). lia. }
    exists (with_ticks s x), []. split; [done|]. cbn [app] in Hl. split.
    + unfold with_ticks. rewrite Hl. apply Hok'; [done|]. intros j l y He Hy. rewrite He in Hl.
      apply (due_fun _ _ _ _ (Hnext j l Hl) Hy).
    + split_and!; try done.
  - assert (Hrk : k ∈ r).
    { rewrite Hl in Hk. apply elem_of_app in Hk as [Hkf|]; [|done]. specialize (Hdue k z Hkf Hz). lia. }
    destruct r as [|j r]; [by apply elem_of_nil in Hrk|].
    destruct (Heach j) as (tj & Htj & _ & _); [rewrite Hl; set_solver +|]. pose proof (due_Some _ _ _ Htj) as Hdj.
    rewrite Hl in *. destruct (TimerGo_loop_spec f (j :: r) (timers s) x (nextTimeoutTicks s) w) as [n Hloop]; [done|done|..].
    + intros i t Hi Ht. assert (timeout t <= x) by (apply (Hf i); [done|by apply due_Some]).
      split; [done|]. apply (Hone i); [set_solver +Hi|done|done].
    + intros i r' [= <- <-]. exists (timeout tj). split; [done|]. apply (Hr j); [left|done].
    + unfold with_ticks. rewrite Hl, Hloop, Some_bind. cbv beta iota. cbn [timers timerListHead timerTicks].
      assert (Hm : forall i, i ∈ j :: r -> foldl after_fire (timers s) f !! i = timers s !! i).
      { intros i Hi. apply after_fires_ne. intros Hif. apply NoDup_app in Hnd as (_ & Hdis & _). by apply (Hdis i). }
      rewrite (next_timeout_head _ x j (timeout tj)) by (unfold due; rewrite ?Hm by left; eauto using list_elem_of_here).
      rewrite Some_bind.
      eexists _, f. split; [reflexivity|]. unfold with_next. cbn [timers timerListHead timerTicks]. split; [|split_and!; done].
      apply Hok'; [done|]. intros i l y [= <- <-] Hy. by apply (due_fun (timers s) j).
Qed.

Definition tick (r : option (Timers * W)) : option (Timers * W) := '(s, w) ← r; NX_TimerGo call headTimeout s w.

(** C10: Over any number of ticks, if the timers that come due are one-shot
    timers and some timer is due later (the idle timer), each timer fires in
    the very tick of its timeout, in the order of the list, exactly once: the
    first part of the list is gone, stopped or freed, its handlers have run in
    order, and the rest waits untouched in a well-formed list. *)
Theorem timers_fire_on_time s w (n : nat) :
  timers_ok s -> timerTicks s + Z.of_nat n < 2 ^ 62 ->
  (exists id y, id ∈ timerListHead s /\ due (timers s) id y /\ timerTicks s + Z.of_nat n < y) ->
  (forall id t, id ∈ timerListHead s -> timers s !! id = Some t -> timeout t <= timerTicks s + Z.of_nat n -> one_shot t) ->
  exists s' f, Nat.iter n tick (Some (s, w)) = Some (s', foldl (deliver call (timers s)) w f) /\
    timers_ok s' /\ timerTicks s' = timerTicks s + Z.of_nat n /\ timerListHead s = f ++ timerListHead s' /\
    (forall j y, j ∈ f -> due (timers s) j y -> y <= timerTicks s') /\
    (forall j y, j ∈ timerListHead s' -> due (timers s) j y -> timerTicks s' < y) /\
    (forall j t, j ∈ f -> timers s' !! j = Some t -> state t = NX_TIMER_STOPPED) /\
    (forall j, j ∉ f -> timers s' !! j = timers s !! j).
Proof.
  intros Hok. induction n as [|n IH]; intros Hx Hlast Hone.
  { exists s, []. cbn [Nat.iter]. split; [done|]. split; [done|]. split; [lia|]. split; [done|].
    split; [by intros ? ? ?%elem_of_nil|]. split; [|split; [by intros ? ? ?%elem_of_nil|done]].
    intros j y Hj Hy. destruct (tm_each s Hok j Hj) as (t & Ht & _ & ? & _).
    by rewrite (due_fun _ _ _ _ Hy (due_Some _ _ _ Ht)). }
  destruct IH as (s1 & f1 & Hrun & Hok1 & Hx1 & Hl1 & Hf1 & Hr1 & Hst1 & Hsame1); [lia| |intros; apply (Hone id); (done || lia)|].
  { destruct Hlast as (id & y & ? & ? & ?). exists id, y. split_and!; [done|done|lia]. }
  pose proof (tm_nodup s Hok) as Hnd. rewrite Hl1 in Hnd. pose proof Hnd as (Hnd1 & Hdis & _)%NoDup_app.
  assert (Hrest : forall j, j ∈ timerListHead s1 -> timers s1 !! j = timers s !! j).
  { intros j Hj. apply Hsame1. intros Hjf. by apply (Hdis j). }
  destruct (NX_TimerGo_step s1 (foldl (deliver call (timers s)) w f1)) as (s2 & f2 & Hgo & Hok2 & Hx2 & Hl2 & Hm2 & Hf2).
  { exact Hok1. } { lia. }
  { destruct Hlast as (id & y & Hid & Hy & Hlt). exists id, y. rewrite Hl1 in Hid. apply elem_of_app in Hid as [Hid|Hid].
    - pose proof (Hf1 id y Hid Hy). lia.
    - unfold due. rewrite Hrest by done. split_and!; [done|exact Hy|lia]. }
  { intros id t Hid. rewrite Hrest by done. intros Ht Hle. apply (Hone id); [rewrite Hl1; set_solver +Hid|done|lia]. }
  assert (Hf2in : forall j, j ∈ f2 -> j ∈ timerListHead s1) by (rewrite Hl2; set_solver +).
  exists s2, (f1 ++ f2). split.
  { change (tick (Nat.iter n tick (Some (s, w))) = Some (s2, foldl (deliver call (timers s)) w (f1 ++ f2))).
    rewrite Hrun. unfold tick. rewrite Some_bind. cbv beta iota. rewrite Hgo. do 2 f_equal.
    rewrite foldl_app. generalize (foldl (deliver call (timers s)) w f1) as v. clear -Hf2in Hrest.
    induction f2 as [|j f IH]; intros v; [done|]. cbn [foldl]. unfold deliver at 2 4. rewrite Hrest by (apply Hf2in; left).
    apply IH. intros i Hi. apply Hf2in. by right. }
  split; [done|]. split; [lia|]. split; [by rewrite Hl1, Hl2, app_assoc|].
  assert (Hd2 : forall j y, j ∈ timerListHead s1 -> due (timers s1) j y <-> due (timers s) j y).
  { intros j y Hj. unfold due. by rewrite Hrest. }
  split_and!.
  - intros j y [Hj|Hj]%elem_of_app Hy; [pose proof (Hf1 j y Hj Hy); lia|].
    rewrite (Hf2 j y Hj); [lia|]. by apply Hd2; [apply Hf2in|].
  - intros j y Hj Hy. assert (Hj1 : j ∈ timerListHead s1) by (rewrite Hl2; set_solver +Hj).
    apply Hd2 in Hy; [|done]. destruct (tm_each s2 Hok2 j Hj) as (t & Ht & _ & ? & _).
    rewrite Hm2, after_fires_ne in Ht; [by rewrite (due_fun _ _ _ _ Hy (due_Some _ _ _ Ht))|].
    pose proof (tm_nodup s1 Hok1) as Hnd1'. rewrite Hl2 in Hnd1'. apply NoDup_app in Hnd1' as (_ & Hd & _).
    intros Hjf. by apply (Hd j).
  - intros j t Hj Ht. rewrite Hm2 in Ht. destruct (decide (j ∈ f2)) as [Hj2|Hj2].
    + apply (after_fires_eq (timers s1) f2 j); [done| |destruct (tm_each s1 Hok1 j (Hf2in j Hj2)) as (? & ? & _); by eexists|done].
      pose proof (tm_nodup s1 Hok1) as Hnd1'. rewrite Hl2 in Hnd1'. by apply NoDup_app in Hnd1' as (? & _).
    + rewrite after_fires_ne in Ht by done. apply (Hst1 j); [set_solver +Hj Hj2|done].
  - intros j Hj. rewrite Hm2, after_fires_ne by set_solver +Hj. apply Hsame1. set_solver +Hj.
Qed.

(** Starting a timer that does not wait puts it behind every timer due no
    later and before every timer due later, keeps the list sorted and the next
    timeout right, and changes no other timer.  A timeout past the idle
    timer's is refused with [NX_EINVAL]; a timer on the list with
    [NX_EAGAIN], its timeout already overwritten in both cases. *)
Theorem timer_start_correct s id t :
  timers_ok s -> timers s !! id = Some t -> 0 < timeTicks t <= NX_IDLE_TIMER_TIMEOUT_TICKS ->
  let x := timeTicks t + timerTicks s in
  let changed := with_timers s (<[id := set_timeout x t]> (timers s)) in
  (NX_IDLE_TIMER_TIMEOUT_TICKS < x -> NX_TimerStart s id = Some (changed, NX_EINVAL)) /\
  (x <= NX_IDLE_TIMER_TIMEOUT_TICKS -> id ∈ timerListHead s -> NX_TimerStart s id = Some (changed, NX_EAGAIN)) /\
  (x <= NX_IDLE_TIMER_TIMEOUT_TICKS -> id ∉ timerListHead s ->
    exists s' l1 l2, NX_TimerStart s id = Some (s', NX_EOK) /\ timers_ok s' /\
      timers s' = <[id := set_state NX_TIMER_WAITING (set_timeout x t)]> (timers s) /\
      timerTicks s' = timerTicks s /\ timerListHead s = l1 ++ l2 /\ timerListHead s' = l1 ++ id :: l2 /\
      (forall j y, j ∈ l1 -> due (timers s) j y -> y <= x) /\ (forall j y, j ∈ l2 -> due (timers s) j y -> x < y)).
Proof.
  intros Hok Ht Hlen x changed. pose proof (tm_ticks s Hok) as Hticks.
  assert (Hpre : NX_TimerStart s id = if NX_IDLE_TIMER_TIMEOUT_TICKS - timeTicks t <? timerTicks s then Some (changed, NX_EINVAL)
    else if bool_decide (id ∈ timerListHead s) then Some (changed, NX_EAGAIN) else NX_TimerStart s id).
  { unfold NX_TimerStart. rewrite Ht, Some_bind. unfold upd_timer. rewrite Ht, !Some_bind.
    change NX_IDLE_TIMER_TIMEOUT_TICKS with 207360000 in *.
    rewrite (u64_small (timeTicks t + timerTicks s)), (u64_small (207360000 - timeTicks t)) by lia.
    cbn [with_timers timerTicks timerListHead timers]. fold x. fold changed. by repeat case_match. }
  split_and!.
  - intros Hlt. rewrite Hpre. by rewrite (proj2 (Z.ltb_lt _ _)) by lia.
  - intros Hle Hin. rewrite Hpre. by rewrite (proj2 (Z.ltb_ge _ _)), bool_decide_eq_true_2 by (done || lia).
  - intros Hle Hnin. apply NX_TimerStart_spec; (done || lia).
Qed.

(** Stopping a timer that was just started takes it off the list: the
    list, the ticks and the next timeout are as before the start, the timer is
    stopped, no other timer has changed, and stopping it again answers
    [NX_EAGAIN] and changes nothing. *)
Theorem stop_undoes_start s id t :
  timers_ok s -> timers s !! id = Some t -> id ∉ timerListHead s -> timerListHead s <> [] ->
  0 < timeTicks t -> timeTicks t + timerTicks s <= NX_IDLE_TIMER_TIMEOUT_TICKS ->
  exists s1 s2, NX_TimerStart s id = Some (s1, NX_EOK) /\ NX_TimerStop headTimeout s1 id = Some (s2, NX_EOK) /\
    timers_ok s2 /\ timerListHead s2 = timerListHead s /\ timerTicks s2 = timerTicks s /\
    nextTimeoutTicks s2 = nextTimeoutTicks s /\ (forall j, j <> id -> timers s2 !! j = timers s !! j) /\
    (state <$> timers s2 !! id) = Some NX_TIMER_STOPPED /\ NX_TimerStop headTimeout s2 id = Some (s2, NX_EAGAIN).
Proof.
  intros Hok Ht Hnin Hne Hpos Hlim. pose proof Hok as [Hticks Hnd Heach Hsort Hnext].
  destruct (NX_TimerStart_spec s id t) as (s1 & l1 & l2 & Hstart & Hok1 & Hm & Hx & Hl & Hl' & _); [done..|].
  set (t1 := set_state NX_TIMER_WAITING _) in Hm.
  set (m2 := <[id := set_state NX_TIMER_STOPPED t1]> (timers s)).
  destruct (timerListHead s) as [|j l0] eqn:Hlist; [done|].
  destruct (Heach j) as (tj & Htj & _ & Hlt & _); [left|].
  assert (Hj : m2 !! j = Some tj) by (unfold m2; rewrite lookup_insert_ne; [done|set_solver +Hnin]).
  assert (Hnx : nextTimeoutTicks s = timeout tj).
  { symmetry. apply (due_fun (timers s) j); [by apply due_Some|by apply (Hnext j l0)]. }
  assert (Hsame : forall i, i ∈ j :: l0 -> m2 !! i = timers s !! i).
  { intros i Hi. unfold m2. rewrite lookup_insert_ne; [done|]. by intros ->. }
  exists s1, (mkTimers m2 (j :: l0) (timerTicks s) (timeout tj)). split; [done|]. split; [|split].
  - unfold NX_TimerStop, NX_TimerStopUnlocked. rewrite Hm, lookup_insert_eq, Some_bind. cbn [state t1 set_state].
    rewrite !bool_decide_eq_false_2, bool_decide_eq_true_2 by done. cbn [negb andb]. unfold upd_timer.
    rewrite Hm, lookup_insert_eq, !Some_bind, insert_insert_eq. unfold NX_TimerRemove.
    cbn [with_timers with_list timerListHead timers timerTicks]. rewrite Hl', bool_decide_eq_true_2, assert_true by set_solver +.
    rewrite list_del_middle by (rewrite <- Hl'; by apply tm_nodup). rewrite <- Hl, Hx. fold m2.
    rewrite (next_timeout_head m2 _ j (timeout tj)), !Some_bind; [|by apply due_Some|done].
    unfold with_next, with_list. cbn [with_timers timers timerListHead timerTicks]. by rewrite Hx.
  - split; cbn [timers timerListHead timerTicks nextTimeoutTicks]; [done|done|..].
    + intros i Hi. rewrite Hsame by done. by apply Heach.
    + apply sorted_ext with (timers s); [|done]. intros i y Hi. unfold due. by rewrite Hsame.
    + intros i l [= <- <-]. by apply due_Some.
  - cbn [timers timerListHead timerTicks nextTimeoutTicks]. split_and!; try done.
    + intros i Hi. unfold m2. by rewrite lookup_insert_ne.
    + unfold m2. by rewrite lookup_insert_eq.
    + unfold NX_TimerStop, NX_TimerStopUnlocked. cbn [timers]. unfold m2. by rewrite lookup_insert_eq.
Qed.
End proofs.

(** ** The theorems at work *)
Definition example_timer (x d : Z) : NX_Timer := mkTimer NX_TIMER_WAITING x d 1 7 x.
Definition example_timers : Timers :=
  mkTimers (list_to_map [(1, mkTimer NX_TIMER_WAITING 207360000 207360000 1 1 0); (2, example_timer 12 10);
    (3, example_timer 12 4); (4, example_timer 15 5); (5, mkTimer NX_TIMER_INITED 0 3 9 7 9)]) [2; 3; 4; 1] 10 12.
Definition example_call (h a : Z) (w : list Z) : list Z * bool := (w ++ [a], false).

Ltac each_timer := intros ? Hin; repeat (apply elem_of_cons in Hin as [->|Hin]); [..|by apply elem_of_nil in Hin].

Lemma example_timers_ok : timers_ok example_timers.
Proof.
  split; cbn [example_timers timers timerListHead timerTicks nextTimeoutTicks].
  - lia.
  - by apply (bool_decide_unpack _).
  - each_timer; eexists; (split; [vm_compute; reflexivity|]); cbn; split; (done || lia).
  - repeat first [apply SSorted_nil | apply SSorted_cons | apply Forall_nil_2 | apply Forall_cons_2];
      unfold due; vm_compute; intros x y [= <-] [= <-]; discriminate.
  - intros id l [= <- <-]. by vm_compute.
Qed.

Lemma timers_fire_on_time_witness :
  exists s' f, Nat.iter 3 (tick example_call 0) (Some (example_timers, [])) =
    Some (s', foldl (deliver example_call (timers example_timers)) [] f) /\ timerListHead example_timers = f ++ timerListHead s'.
Proof.
  destruct (timers_fire_on_time example_call 0 example_timers [] 3) as (s' & f & Hrun & _ & _ & Hl & _).
  - exact example_timers_ok.
  - cbn. lia.
  - exists 1, 207360000. split; [set_solver +|]. split; [by vm_compute|cbn; lia].
  - cbn [example_timers timers timerListHead timerTicks]. intros id t Hin Ht Hle.
    repeat (apply elem_of_cons in Hin as [->|Hin]); [..|by apply elem_of_nil in Hin]; vm_compute in Ht;
      injection Ht as <-; cbn in Hle; first [lia | split; done].
  - exists s', f. split; [exact Hrun|exact Hl].
Defined.

Lemma timer_start_correct_witness :
  exists s', NX_TimerStart example_timers 5 = Some (s', NX_EOK) /\ timers_ok s'.
Proof.
  destruct (timer_start_correct example_timers 5 (mkTimer NX_TIMER_INITED 0 3 9 7 9) example_timers_ok eq_refl)
    as (_ & _ & Hs); [by vm_compute|].
  destruct Hs as (s' & l1 & l2 & H & Hok & _); [by vm_compute|set_solver +|]. exists s'. split; [exact H|exact Hok].
Defined.

Lemma stop_undoes_start_witness :
  exists s1 s2, NX_TimerStart example_timers 5 = Some (s1, NX_EOK) /\ NX_TimerStop 0 s1 5 = Some (s2, NX_EOK).
Proof.
  destruct (stop_undoes_start 0 example_timers 5 (mkTimer NX_TIMER_INITED 0 3 9 7 9) example_timers_ok eq_refl)
    as (s1 & s2 & H1 & H2 & _); [set_solver +|done|done|by vm_compute|]. exists s1, s2. split; [exact H1|exact H2].
Defined.

(** The guard of [NX_TimerStart] wraps around: a timer longer than the idle
    timer is accepted. *)
Example longer_than_idle :
  let s := with_timers example_timers (<[6 := mkTimer NX_TIMER_INITED 0 207360001 1 7 0]> (timers example_timers)) in
  (r ← NX_TimerStart s 6; Some (r.2, timerListHead r.1)) = Some (NX_EOK, [2; 3; 4; 1; 6]).
Proof. vm_compute. reflexivity. Qed.

(** A second start of a waiting timer is refused but has moved its timeout:
    the list is no longer sorted. *)
Example refused_start_moves_timeout :
  (r ← NX_TimerStart example_timers 2; t ← timers r.1 !! 2; Some (r.2, timeout t, timerListHead r.1)) =
  Some (NX_EAGAIN, 20, [2; 3; 4; 1]).
Proof. vm_compute. reflexivity. Qed.

(** The idle timer is one-shot: once it has fired and moved the time base, it
    is off the list, and nothing moves the base again. *)
Example idle_fires_once :
  let s := mkTimers (list_to_map [(1, mkTimer NX_TIMER_WAITING 207360000 207360000 1 1 0); (2, example_timer 207360050 60)])
             [1; 2] 207359999 207360000 in
  (r ← NX_TimerGo example_call 0 s []; Some (timerTicks r.1, timerListHead r.1, nextTimeoutTicks r.1)) = Some (0, [2], 50).
Proof. vm_compute. reflexivity. Qed.
