(* ===== verification/Calendar.v ===== *)
(** The calendar: [time/time.c] and [include/base/time.h].

    [systemTime] is passed as an argument and returned.  A month past 12 reads
    past [monthDayTable]; the reads are then [None].  The real-time clock that
    [NX_TimeInit] reads is an argument of it. *)
From S2P Require Import Prelude.

Record NX_Time := mkTime {
  second : Z;
  minute : Z;
  hour : Z;
  weekDay : Z;
  day : Z;
  month : Z;
  year : Z;
  yearDay : Z
}.

#[export] Instance NX_Time_eq_dec : EqDecision NX_Time.
Proof. solve_decision. Defined.

Definition NX_TIME_INIT_VAL : NX_Time := mkTime 0 0 0 0 0 1 1980 0.

Definition monthDayTable : list Z := [0; 31; 28; 31; 30; 31; 30; 31; 31; 30; 31; 30; 31].

Definition IsLeapYear (year : Z) : Z :=
  if nz (Z.rem year 4) then 0
  else if nz (Z.rem year 400) then 1
  else if nz (Z.rem year 100) then 0
  else 1.

Fixpoint WeekDay_loop (fuel : nat) (week : Z) : Z :=
  match fuel with
  | O => week
  | S fuel => if week <? 0 then WeekDay_loop fuel (week + 7) else week
  end.

Definition MakeWeekDay (year month day : Z) : Z :=
  let (year, month) := if (month =? 1) || (month =? 2) then (year - 1, month + 12) else (year, month) in
  let c := Z.quot year 100 in
  let y := year - c * 100 in
  let week := Z.quot c 4 - 2 * c + (y + Z.quot y 4) + Z.quot (13 * (month + 1)) 5 + day - 1 in
  Z.rem (WeekDay_loop (Z.to_nat (- week)) week) 7.

Definition MakeMonthDay (t : NX_Time) : option Z :=
  if month t =? 2 then
    n ← zlookup monthDayTable (month t); Some (n + IsLeapYear (i32 (year t)))
  else zlookup monthDayTable (month t).

Fixpoint YearDays_loop (fuel : nat) (t : NX_Time) (i sum : Z) : option Z :=
  if i <? month t then
    match fuel with
    | O => None
    | S fuel =>
        n ← zlookup monthDayTable i;
        YearDays_loop fuel t (i + 1) (if i =? 2 then sum + (n + IsLeapYear (i32 (year t))) else sum + n)
    end
  else Some sum.

(** The loop leaves the table before the thirteenth iteration. *)
Definition MakeYearDays (t : NX_Time) : option Z :=
  sum ← YearDays_loop 13 t 1 0;
  let sum := sum + day t in
  Some (if month t >=? 2 then
          if month t =? 2 then
            if day t =? 28 then sum + IsLeapYear (i32 (year t)) else sum
          else sum + IsLeapYear (i32 (year t))
        else sum).

Definition NX_TimeGo (t : NX_Time) : option NX_Time :=
  let t := mkTime (u8 (second t + 1)) (minute t) (hour t) (weekDay t) (day t) (month t) (year t) (yearDay t) in
  if second t >? 59 then
    let t := mkTime 0 (u8 (minute t + 1)) (hour t) (weekDay t) (day t) (month t) (year t) (yearDay t) in
    if minute t >? 59 then
      let t := mkTime 0 0 (u8 (hour t + 1)) (weekDay t) (day t) (month t) (year t) (yearDay t) in
      if hour t >? 23 then
        let w := u8 (weekDay t + 1) in
        let t := mkTime 0 0 0 (if w >? 6 then 0 else w) (u32 (day t + 1)) (month t) (year t) (yearDay t) in
        yd ← MakeYearDays t;
        let t := mkTime 0 0 0 (weekDay t) (day t) (month t) (year t) (u32 yd) in
        md ← MakeMonthDay t;
        if day t >? md then
          let t := mkTime 0 0 0 (weekDay t) 1 (u32 (month t + 1)) (year t) (yearDay t) in
          if month t >? 12 then
            Some (mkTime 0 0 0 (weekDay t) 1 1 (u32 (year t + 1)) (yearDay t))
          else Some t
        else Some t
      else Some t
    else Some t
  else Some t.

Definition NX_TimeSet (systemTime : NX_Time) (time : option NX_Time) : option (NX_Time * NX_Error) :=
  match time with
  | None => Some (systemTime, NX_EINVAL)
  | Some time =>
      let s := mkTime (second time) (minute time) (hour time)
        (u8 (MakeWeekDay (i32 (year time)) (i32 (month time)) (i32 (day time)))) (day time) (month time) (year time)
        (yearDay systemTime) in
      yd ← MakeYearDays s;
      Some (mkTime (second s) (minute s) (hour s) (weekDay s) (day s) (month s) (year s) (u32 yd), NX_EOK)
  end.

(** What is stored through [time] when it is not null. *)
Definition NX_TimeGet (systemTime : NX_Time) (time : bool) : option NX_Time * NX_Error :=
  if time then (Some systemTime, NX_EOK) else (None, NX_EINVAL).

(** [rtc] is what opening the clock answers, and what reading it answers and
    stores. *)
Definition NX_TimeInit (systemTime : NX_Time) (rtc : NX_Error * (NX_Error * NX_Time)) : option NX_Time :=
  let '(open, (read, time)) := rtc in
  r ← (if negb (is_ok open) then NX_TimeSet systemTime (Some systemTime)
       else if negb (is_ok read) then NX_TimeSet systemTime (Some systemTime)
       else NX_TimeSet systemTime (Some time));
  Some r.1.

(** ** The calendar the code keeps

    Every fourth year is a leap year. *)
Definition leap (y : Z) : Z := if y mod 4 =? 0 then 1 else 0.

Definition days_before (m : Z) : Z :=
  nth (Z.to_nat m) [0; 0; 31; 59; 90; 120; 151; 181; 212; 243; 273; 304; 334] 365.
Definition month_days (y m : Z) : Z := nth (Z.to_nat m) monthDayTable 0 + (if m =? 2 then leap y else 0).

(** The day of the year, from 1, and the number of days before it since year 0. *)
Definition ordinal (y m d : Z) : Z := days_before m + (if m >? 2 then leap y else 0) + d.
Definition day_number (y m d : Z) : Z := 365 * y + (y + 3) / 4 + ordinal y m d - 1.
Definition second_number (t : NX_Time) : Z :=
  ((day_number (year t) (month t) (day t) * 24 + hour t) * 60 + minute t) * 60 + second t.

Record time_ok (t : NX_Time) : Prop := {
  ok_second : 0 <= second t <= 59;
  ok_minute : 0 <= minute t <= 59;
  ok_hour : 0 <= hour t <= 23;
  ok_weekDay : 0 <= weekDay t <= 6;
  ok_month : 1 <= month t <= 12;
  ok_day : 1 <= day t <= month_days (year t) (month t);
  ok_year : 1 <= year t < 2 ^ 31 - 1
}.

(** The Gregorian rule, and the next day under it. *)
Definition gregorian_leap (y : Z) : Z :=
  if y mod 4 =? 0 then if y mod 100 =? 0 then if y mod 400 =? 0 then 1 else 0 else 1 else 0.
Definition gregorian_days (y m : Z) : Z := nth (Z.to_nat m) monthDayTable 0 + (if m =? 2 then gregorian_leap y else 0).
Definition gregorian_next (date : Z * Z * Z) : Z * Z * Z :=
  let '(y, m, d) := date in
  if d <? gregorian_days y m then (y, m, d + 1)
  else if m <? 12 then (y, m + 1, 1)
  else (y + 1, 1, 1).

Ltac split_month m H :=
  assert (m = 1 \/ m = 2 \/ m = 3 \/ m = 4 \/ m = 5 \/ m = 6 \/ m = 7 \/ m = 8 \/ m = 9 \/ m = 10 \/ m = 11 \/ m = 12)
    as HM by (clear -H; lia);
  destruct HM as [->|[->|[->|[->|[->|[->|[->|[->|[->|[->|[->| ->]]]]]]]]]]].

(** Evaluate the table reads and comparisons of a given month. *)
Ltac eval_month :=
  repeat match goal with
  | |- context [nth ?n ?l ?d] => let v := eval vm_compute in (nth n l d) in progress change (nth n l d) with v
  | |- context [zlookup monthDayTable ?a] => let v := eval vm_compute in (zlookup monthDayTable a) in progress change (zlookup monthDayTable a) with v
  | |- context [Zpos ?a <=? Zpos ?b] => let v := eval vm_compute in (Zpos a <=? Zpos b) in progress change (Zpos a <=? Zpos b) with v
  | |- context [Zpos ?a =? Zpos ?b] => let v := eval vm_compute in (Zpos a =? Zpos b) in progress change (Zpos a =? Zpos b) with v
  | |- context [Zpos ?a + Zpos ?b] => let v := eval vm_compute in (Zpos a + Zpos b) in progress change (Zpos a + Zpos b) with v
  end; cbv iota beta.

Lemma IsLeapYear_spec y : 0 <= y -> IsLeapYear y = leap y.
Proof.
  intros. unfold IsLeapYear, leap, nz. rewrite !Z.rem_mod_nonneg by lia.
  destruct (Z.eqb_spec (y mod 4) 0), (Z.eqb_spec (y mod 400) 0), (Z.eqb_spec (y mod 100) 0); cbn; zlia.
Qed.

Lemma WeekDay_loop_spec fuel week :
  - week <= Z.of_nat fuel -> 0 <= WeekDay_loop fuel week /\ WeekDay_loop fuel week mod 7 = week mod 7.
Proof.
  revert week. induction fuel as [|fuel IH]; intros week Hf; cbn [WeekDay_loop]; [lia|].
  destruct (Z.ltb_spec week 0); [|lia]. destruct (IH (week + 7)) as [? ->]; [lia|]. split; [done|]. zlia.
Qed.

(** Zeller's congruence with the quotients of the code as divisions. *)
Definition zeller (y m d : Z) : Z :=
  let (y, m) := if m <=? 2 then (y - 1, m + 12) else (y, m) in
  y + y / 4 - y / 100 + y / 400 + 13 * (m + 1) / 5 + d - 1.

Lemma MakeWeekDay_spec y m d : 1 <= y -> 1 <= m <= 12 -> 1 <= d -> MakeWeekDay y m d = zeller y m d mod 7.
Proof.
  intros Hy Hm Hd. unfold MakeWeekDay, zeller.
  assert ((m =? 1) || (m =? 2) = (m <=? 2))%bool as ->.
  { destruct (Z.eqb_spec m 1), (Z.eqb_spec m 2), (Z.leb_spec m 2); cbn; (done || lia). }
  destruct (if m <=? 2 then (y - 1, m + 12) else (y, m)) as [y' m'] eqn:E.
  assert (Hy' : 0 <= y' /\ 3 <= m') by (destruct (Z.leb_spec m 2); injection E; lia).
  clear E. destruct Hy' as [Hy' Hm'].
  assert (Hc : 0 <= y' / 100) by (apply Z.div_pos; lia).
  rewrite (Z.quot_div_nonneg y' 100), (Z.quot_div_nonneg (y' / 100) 4), (Z.quot_div_nonneg (y' - _) 4),
    (Z.quot_div_nonneg (13 * _) 5) by zlia.
  assert (H4 : y' / 4 = 25 * (y' / 100) + (y' - y' / 100 * 100) / 4) by (clear; zlia).
  assert (H400 : y' / 400 = y' / 100 / 4) by (rewrite Z.div_div by lia; done).
  match goal with |- context [WeekDay_loop _ ?w] => remember w as week eqn:Hw end.
  destruct (WeekDay_loop_spec (Z.to_nat (- week)) week) as [E1 E2]; [lia|].
  rewrite Z.rem_mod_nonneg by lia. rewrite E2, Hw, H4, H400.
  match goal with |- ?a mod 7 = ?b mod 7 => replace b with (a + (18 * (y' / 100)) * 7) by lia end. by rewrite Z_mod_plus_full.
Qed.

Lemma div_pred y n : 0 < n -> y / n = (y - 1) / n + (if y mod n =? 0 then 1 else 0).
Proof. intros. destruct (Z.eqb_spec (y mod n) 0); nia || (Z.to_euclidean_division_equations; nia). Qed.

Lemma mod_shift a b k n : a = b + k * n -> a mod n = b mod n.
Proof. intros ->. apply Z_mod_plus_full. Qed.

Definition leaps (y : Z) : Z := y + y / 4 - y / 100 + y / 400.

Lemma leaps_pred y : leaps y = leaps (y - 1) + 1 + gregorian_leap y.
Proof.
  unfold leaps. rewrite (div_pred y 4), (div_pred y 100), (div_pred y 400) by lia. unfold gregorian_leap.
  destruct (Z.eqb_spec (y mod 4) 0), (Z.eqb_spec (y mod 100) 0), (Z.eqb_spec (y mod 400) 0); zlia.
Qed.

Lemma zeller_eq y m d : 1 <= m <= 12 ->
  zeller y m d = (if m <=? 2 then leaps (y - 1) else leaps y) + d +
    nth (Z.to_nat m) [0; 35; 38; 9; 12; 14; 17; 19; 22; 25; 27; 30; 32] 0.
Proof.
  intros Hm. unfold zeller, leaps. split_month m Hm;
    match goal with |- context [nth ?n ?l 0] => let v := eval vm_compute in (nth n l 0) in change (nth n l 0) with v end;
    match goal with |- context [if ?b then _ else _] => let v := eval vm_compute in b in change b with v end; cbv iota beta;
    match goal with |- context [13 * ?a / 5] => let v := eval vm_compute in (13 * a / 5) in change (13 * a / 5) with v end; lia.
Qed.

Lemma gregorian_step y m d :
  1 <= y -> 1 <= m <= 12 -> 1 <= d <= gregorian_days y m ->
  let '(y', m', d') := gregorian_next (y, m, d) in zeller y' m' d' mod 7 = (zeller y m d + 1) mod 7.
Proof.
  intros Hy Hm Hd. unfold gregorian_next. destruct (Z.ltb_spec d (gregorian_days y m)) as [Hlt|Hge].
  - rewrite !zeller_eq by done. f_equal. lia.
  - assert (d = gregorian_days y m) as -> by lia. clear Hge Hd. pose proof (leaps_pred y) as Hy1. unfold gregorian_days.
    destruct (Z.ltb_spec m 12) as [Hlt|Hge]; rewrite !zeller_eq by lia.
    + split_month m Hm; try lia; eval_month; first [apply mod_shift with (-4); lia | apply mod_shift with (-8); lia].
    + assert (m = 12) as -> by lia. eval_month. rewrite Z.add_simpl_r. apply mod_shift with (-4). lia.
Qed.

(** ** Month lengths and the day of the year *)
Lemma leap_range y : 0 <= leap y <= 1.
Proof. unfold leap. destruct (_ =? 0); lia. Qed.

Lemma MakeMonthDay_spec t : 1 <= month t <= 12 -> 0 <= year t < 2 ^ 31 -> MakeMonthDay t = Some (month_days (year t) (month t)).
Proof.
  intros Hm Hy. unfold MakeMonthDay, month_days. rewrite i32_small, IsLeapYear_spec by lia.
  split_month (month t) Hm; eval_month; by rewrite ?Z.add_0_r.
Qed.

(** What [MakeYearDays] adds to the day of the year. *)
Definition year_days_excess (y m d : Z) : Z := if (m >? 2) || ((m =? 2) && (d =? 28)) then leap y else 0.

Lemma YearDays_loop_S fuel t i sum n : i < month t -> zlookup monthDayTable i = Some n ->
  YearDays_loop (S fuel) t i sum = YearDays_loop fuel t (i + 1) (sum + n + (if i =? 2 then IsLeapYear (i32 (year t)) else 0)).
Proof.
  intros Hi Hn. cbn [YearDays_loop]. rewrite (proj2 (Z.ltb_lt _ _)), Hn, Some_bind by done.
  f_equal. case_match; lia.
Qed.

Lemma YearDays_loop_end fuel t i sum : month t <= i -> YearDays_loop fuel t i sum = Some sum.
Proof. intros Hi. destruct fuel; cbn [YearDays_loop]; by rewrite (proj2 (Z.ltb_ge _ _)). Qed.

Lemma YearDays_loop_spec t : 1 <= month t <= 12 -> 0 <= year t < 2 ^ 31 ->
  YearDays_loop 13 t 1 0 = Some (days_before (month t) + (if month t >? 2 then leap (year t) else 0)).
Proof.
  intros Hm Hy. rewrite <- (IsLeapYear_spec (year t)), <- (i32_small (year t)) at 1 by lia.
  assert (Hex : exists m, month t = m) by eauto. destruct Hex as [m Em]. rewrite Em in *. unfold days_before.
  split_month m Hm; repeat (erewrite YearDays_loop_S; [|rewrite Em; lia|reflexivity]);
    rewrite YearDays_loop_end by (rewrite Em; lia); f_equal;
    rewrite Z.gtb_ltb; cbn [Z.ltb Z.compare Pos.compare Pos.compare_cont]; eval_month; lia.
Qed.

Lemma MakeYearDays_spec t : 1 <= month t <= 12 -> 0 <= year t < 2 ^ 31 ->
  MakeYearDays t = Some (ordinal (year t) (month t) (day t) + year_days_excess (year t) (month t) (day t)).
Proof.
  intros Hm Hy. unfold MakeYearDays. rewrite YearDays_loop_spec, Some_bind, i32_small, IsLeapYear_spec by lia.
  unfold ordinal, year_days_excess. f_equal. rewrite Z.geb_leb, !Z.gtb_ltb.
  destruct (Z.leb_spec 2 (month t)), (Z.eqb_spec (month t) 2), (Z.ltb_spec 2 (month t)), (Z.eqb_spec (day t) 28); cbn [orb andb]; lia.
Qed.

(** ** Days in sequence *)
Lemma month_days_range y m : 1 <= m <= 12 -> 28 <= month_days y m <= 31.
Proof. intros Hm. pose proof (leap_range y). unfold month_days. split_month m Hm; eval_month; lia. Qed.

Lemma day_number_next_month y m : 1 <= m < 12 -> day_number y (m + 1) 1 = day_number y m (month_days y m) + 1.
Proof.
  intros Hm. unfold day_number, ordinal, month_days, days_before.
  assert (Hm' : 1 <= m <= 12) by lia. split_month m Hm'; try lia; rewrite !Z.gtb_ltb; eval_month; cbn [Z.ltb Z.compare Pos.compare Pos.compare_cont]; lia.
Qed.

Lemma day_number_next_year y : day_number (y + 1) 1 1 = day_number y 12 31 + 1.
Proof.
  unfold day_number, ordinal, leap, days_before. rewrite !Z.gtb_ltb. cbn [Z.ltb Z.compare Pos.compare Pos.compare_cont].
  eval_month. destruct (Z.eqb_spec (y mod 4) 0); zlia.
Qed.

Definition date_of (t : NX_Time) : Z * Z * Z := (year t, month t, day t).

(** The code's next day. *)
Definition next_date (date : Z * Z * Z) : Z * Z * Z :=
  let '(y, m, d) := date in
  if d <? month_days y m then (y, m, d + 1) else if m <? 12 then (y, m + 1, 1) else (y + 1, 1, 1).

Lemma next_date_number y m d : 1 <= m <= 12 -> 1 <= d <= month_days y m ->
  let '(y', m', d') := next_date (y, m, d) in
  day_number y' m' d' = day_number y m d + 1 /\ 1 <= m' <= 12 /\ 1 <= d' <= month_days y' m' /\ y <= y' <= y + 1.
Proof.
  intros Hm Hd. unfold next_date. destruct (Z.ltb_spec d (month_days y m)).
  - split; [unfold day_number, ordinal; lia|lia].
  - assert (d = month_days y m) as -> by lia. destruct (Z.ltb_spec m 12).
    + split; [apply day_number_next_month; lia|]. pose proof (month_days_range y (m + 1)). lia.
    + assert (m = 12) as -> by lia. change (month_days y 12) with (31 + 0). split; [apply day_number_next_year|].
      pose proof (month_days_range (y + 1) 1). lia.
Qed.

Definition end_of_day (t : NX_Time) : bool := (second t =? 59) && (minute t =? 59) && (hour t =? 23).

(** One step of the clock, in one equation. *)
Lemma NX_TimeGo_eq t : time_ok t -> year t + 1 < 2 ^ 31 - 1 ->
  NX_TimeGo t = Some (
    if second t <? 59 then mkTime (second t + 1) (minute t) (hour t) (weekDay t) (day t) (month t) (year t) (yearDay t)
    else if minute t <? 59 then mkTime 0 (minute t + 1) (hour t) (weekDay t) (day t) (month t) (year t) (yearDay t)
    else if hour t <? 23 then mkTime 0 0 (hour t + 1) (weekDay t) (day t) (month t) (year t) (yearDay t)
    else let '(y, m, d) := next_date (date_of t) in
      mkTime 0 0 0 ((weekDay t + 1) mod 7) d m y
        (ordinal (year t) (month t) (day t + 1) + year_days_excess (year t) (month t) (day t + 1))).
Proof.
  intros [Hs Hmi Hh Hw Hm Hd Hy] Hy'. pose proof (month_days_range (year t) (month t) Hm) as Hmd.
  unfold NX_TimeGo. cbn [second minute hour weekDay day month year yearDay].
  assert (Hu : forall x, 0 <= x <= 60 -> u8 x = x) by (intros; unfold u8; apply Z.mod_small; lia).
  rewrite !Hu by lia. rewrite (u32_small (day t + 1)), (u32_small (month t + 1)), (u32_small (year t + 1)) by lia.
  rewrite (Z.gtb_ltb (second t + 1)), (Z.gtb_ltb (minute t + 1)), (Z.gtb_ltb (hour t + 1)).
  destruct (Z.ltb_spec 59 (second t + 1)), (Z.ltb_spec (second t) 59); [lia| |done|lia].
  destruct (Z.ltb_spec 59 (minute t + 1)), (Z.ltb_spec (minute t) 59); [lia| |done|lia].
  destruct (Z.ltb_spec 23 (hour t + 1)), (Z.ltb_spec (hour t) 23); [lia| |done|lia].
  rewrite MakeYearDays_spec, Some_bind, MakeMonthDay_spec, Some_bind by (cbn; lia). cbn [second minute hour weekDay day month year yearDay].
  assert (Hex : 0 <= year_days_excess (year t) (month t) (day t + 1) <= 1)
    by (pose proof (leap_range (year t)); unfold year_days_excess; case_match; lia).
  assert (Hor : 0 <= ordinal (year t) (month t) (day t + 1) <= 400).
  { pose proof (leap_range (year t)). unfold ordinal, days_before.
    assert (0 <= nth (Z.to_nat (month t)) [0; 0; 31; 59; 90; 120; 151; 181; 212; 243; 273; 304; 334] 365 <= 334)
      by (split_month (month t) Hm; eval_month; lia). case_match; lia. }
  rewrite u32_small by lia. rewrite !Z.gtb_ltb.
  assert (Hwd : (if 6 <? weekDay t + 1 then 0 else weekDay t + 1) = (weekDay t + 1) mod 7).
  { destruct (Z.ltb_spec 6 (weekDay t + 1)); [|rewrite Z.mod_small; lia].
    assert (weekDay t = 6) as -> by lia. done. }
  rewrite Hwd. unfold next_date, date_of.
  destruct (Z.ltb_spec (month_days (year t) (month t)) (day t + 1)), (Z.ltb_spec (day t) (month_days (year t) (month t))); [lia| |done|lia].
  destruct (Z.ltb_spec 12 (month t + 1)), (Z.ltb_spec (month t) 12); [lia|done|done|lia].
Qed.

(** The clock counts.  From a well-formed time, [NX_TimeGo] gives the
    well-formed time one second later in the code's calendar (every fourth
    year is a leap year), and moves the weekday exactly as many days as it
    moves the date. *)
Lemma NX_TimeGo_next_second t : time_ok t -> year t + 1 < 2 ^ 31 - 1 ->
  exists t', NX_TimeGo t = Some t' /\ time_ok t' /\ second_number t' = second_number t + 1 /\
    weekDay t' = (weekDay t + (day_number (year t') (month t') (day t') - day_number (year t) (month t) (day t))) mod 7.
Proof.
  intros Hok Hy. rewrite (NX_TimeGo_eq t Hok Hy). eexists. split; [reflexivity|]. pose proof Hok as [Hs Hmi Hh Hw Hm Hd Hyr].
  assert (Hw0 : weekDay t = (weekDay t + (day_number (year t) (month t) (day t) - day_number (year t) (month t) (day t))) mod 7)
    by (rewrite Z.sub_diag, Z.add_0_r, Z.mod_small; lia).
  pose proof (next_date_number (year t) (month t) (day t) Hm Hd) as Hnext.
  unfold date_of. destruct (next_date (year t, month t, day t)) as [[y' m'] d'].
  destruct Hnext as (Hn & Hm' & Hd' & Hy').
  destruct (Z.ltb_spec (second t) 59); [|destruct (Z.ltb_spec (minute t) 59); [|destruct (Z.ltb_spec (hour t) 23)]];
    unfold second_number; cbn [second minute hour weekDay day month year yearDay];
    (split; [split; cbn [second minute hour weekDay day month year yearDay]; (lia || (apply Z.mod_pos_bound; lia) || idtac)|split; [lia|]]); try done.
  - pose proof (Z.mod_pos_bound (weekDay t + 1) 7). lia.
  - rewrite Hn. f_equal. lia.
Qed.

Lemma MakeWeekDay_next y m d : 1 <= y -> 1 <= m <= 12 -> 1 <= d <= gregorian_days y m ->
  let '(y', m', d') := gregorian_next (y, m, d) in MakeWeekDay y' m' d' = (MakeWeekDay y m d + 1) mod 7.
Proof.
  intros Hy Hm Hd. pose proof (gregorian_step y m d Hy Hm Hd) as Hstep.
  unfold gregorian_next in *. destruct (d <? _); [|destruct (Z.ltb_spec m 12)];
    rewrite !MakeWeekDay_spec, Hstep by lia; by rewrite Zplus_mod_idemp_l.
Qed.

Fixpoint gregorian_after (n : nat) (date : Z * Z * Z) : Z * Z * Z :=
  match n with O => date | S n => gregorian_next (gregorian_after n date) end.

Lemma gregorian_days_range y m : 1 <= m <= 12 -> 28 <= gregorian_days y m <= 31.
Proof.
  intros Hm. assert (0 <= gregorian_leap y <= 1) by (unfold gregorian_leap; repeat case_match; lia).
  unfold gregorian_days. split_month m Hm; eval_month; lia.
Qed.

(** C12: [MakeWeekDay] is the weekday of the Gregorian calendar, for ever:
    1 January 1970 is a Thursday, and [n] days after any date the weekday has
    moved on by [n]. *)
Theorem weekday_is_gregorian y m d (n : nat) : 1 <= y -> 1 <= m <= 12 -> 1 <= d <= gregorian_days y m ->
  MakeWeekDay 1970 1 1 = 4 /\
  let '(y', m', d') := gregorian_after n (y, m, d) in MakeWeekDay y' m' d' = (MakeWeekDay y m d + Z.of_nat n) mod 7.
Proof.
  intros Hy Hm Hd. split; [by vm_compute|]. 
  enough (let '(y', m', d') := gregorian_after n (y, m, d) in 1 <= y' /\ 1 <= m' <= 12 /\ 1 <= d' <= gregorian_days y' m' /\
    MakeWeekDay y' m' d' = (MakeWeekDay y m d + Z.of_nat n) mod 7) by (destruct (gregorian_after n (y, m, d)) as [[??]?]; tauto).
  induction n as [|n IH]; cbn [gregorian_after].
  - rewrite Z.add_0_r, MakeWeekDay_spec, Z.mod_mod by lia. done.
  - destruct (gregorian_after n (y, m, d)) as [[y1 m1] d1]. destruct IH as (Hy1 & Hm1 & Hd1 & Hw).
    pose proof (MakeWeekDay_next y1 m1 d1 Hy1 Hm1 Hd1) as Hnext. unfold gregorian_next in *.
    destruct (Z.ltb_spec d1 (gregorian_days y1 m1)); [|destruct (Z.ltb_spec m1 12)].
    all: split; [lia|]; split; [lia|]; split; [|rewrite Hnext, Hw, Zplus_mod_idemp_l; f_equal; lia].
    + lia.
    + pose proof (gregorian_days_range y1 (m1 + 1)). lia.
    + pose proof (gregorian_days_range (y1 + 1) 1). lia.
Qed.

(** Years in which both rules agree. *)
Definition same_rule (y : Z) : bool := gregorian_leap y =? leap y.

Lemma same_rule_years y : 1901 <= y <= 2099 -> same_rule y = true.
Proof.
  intros. unfold same_rule, gregorian_leap, leap.
  destruct (Z.eqb_spec (y mod 4) 0), (Z.eqb_spec (y mod 100) 0), (Z.eqb_spec (y mod 400) 0); try done; exfalso; zlia.
Qed.

Lemma next_date_gregorian y m d : same_rule y = true -> next_date (y, m, d) = gregorian_next (y, m, d).
Proof.
  unfold same_rule. intros E%Z.eqb_eq. unfold next_date, gregorian_next.
  assert (month_days y m = gregorian_days y m) as -> by (unfold month_days, gregorian_days; by rewrite E). done.
Qed.

Definition weekday_ok (t : NX_Time) : Prop := weekDay t = MakeWeekDay (year t) (month t) (day t).

Lemma NX_TimeGo_weekday t t' : time_ok t -> year t + 1 < 2 ^ 31 - 1 -> same_rule (year t) = true ->
  weekday_ok t -> NX_TimeGo t = Some t' -> weekday_ok t'.
Proof.
  intros Hok Hy Hrule Hw. rewrite (NX_TimeGo_eq t Hok Hy). unfold date_of. rewrite next_date_gregorian by done.
  pose proof Hok as [Hs Hmi Hh Hwd Hm Hd Hyr].
  assert (Hd' : 1 <= day t <= gregorian_days (year t) (month t)).
  { unfold same_rule in Hrule. apply Z.eqb_eq in Hrule. unfold gregorian_days, month_days in *. by rewrite Hrule. }
  pose proof (MakeWeekDay_next (year t) (month t) (day t) ltac:(lia) Hm Hd') as Hg.
  destruct (gregorian_next (year t, month t, day t)) as [[y' m'] d'].
  repeat case_match; intros [= <-]; unfold weekday_ok in *; cbn [year month day weekDay]; rewrite ?Hg, ?Hw; done.
Qed.

Lemma NX_TimeGo_year t t' : time_ok t -> year t + 1 < 2 ^ 31 - 1 -> NX_TimeGo t = Some t' -> year t <= year t' <= year t + 1.
Proof.
  intros Hok Hy. rewrite (NX_TimeGo_eq t Hok Hy). pose proof Hok as [Hs Hmi Hh Hwd Hm Hd Hyr].
  pose proof (next_date_number (year t) (month t) (day t) Hm Hd) as Hn. unfold date_of.
  destruct (next_date (year t, month t, day t)) as [[y' m'] d'].
  repeat case_match; intros [= <-]; cbn [year]; lia.
Qed.

Definition date_ok (t : NX_Time) : Prop :=
  0 <= second t <= 59 /\ 0 <= minute t <= 59 /\ 0 <= hour t <= 23 /\ 1 <= month t <= 12 /\
  1 <= day t <= month_days (year t) (month t) /\ 1 <= year t < 2 ^ 31 - 1.

Lemma NX_TimeSet_spec s t : date_ok t ->
  exists s', NX_TimeSet s (Some t) = Some (s', NX_EOK) /\ time_ok s' /\ weekday_ok s' /\ second_number s' = second_number t /\
    year s' = year t /\ yearDay s' = ordinal (year t) (month t) (day t) + year_days_excess (year t) (month t) (day t).
Proof.
  intros (Hs & Hmi & Hh & Hm & Hd & Hy). unfold NX_TimeSet. pose proof (month_days_range (year t) (month t) Hm).
  rewrite !i32_small by lia. rewrite MakeYearDays_spec, Some_bind by (cbn [month year]; lia).
  cbn [second minute hour weekDay day month year yearDay].
  assert (Hw : 0 <= MakeWeekDay (year t) (month t) (day t) <= 6).
  { rewrite MakeWeekDay_spec by lia. pose proof (Z.mod_pos_bound (zeller (year t) (month t) (day t)) 7). lia. }
  assert (u8 (MakeWeekDay (year t) (month t) (day t)) = MakeWeekDay (year t) (month t) (day t)) as ->
    by (unfold u8; apply Z.mod_small; lia).
  eexists. split; [reflexivity|]. split; [by split|]. split; [done|]. split; [done|]. split; [done|]. cbn [yearDay].
  apply u32_small. pose proof (leap_range (year t)). unfold year_days_excess, ordinal, days_before.
  assert (0 <= nth (Z.to_nat (month t)) [0; 0; 31; 59; 90; 120; 151; 181; 212; 243; 273; 304; 334] 365 <= 334)
    by (split_month (month t) Hm; eval_month; lia). repeat case_match; lia.
Qed.

Lemma clock_runs s (n : nat) : time_ok s -> year s + Z.of_nat n < 2 ^ 31 - 1 ->
  exists t, Nat.iter n (fun r => r ≫= NX_TimeGo) (Some s) = Some t /\ time_ok t /\
    second_number t = second_number s + Z.of_nat n /\ year s <= year t <= year s + Z.of_nat n /\
    (weekday_ok s -> 1901 <= year s -> year t <= 2099 -> weekday_ok t).
Proof.
  intros Hok. induction n as [|n IH]; intros Hy.
  { exists s. split; [done|]. split; [done|]. split; [lia|]. split; [lia|done]. }
  destruct IH as (t & Hrun & Hok1 & Hsec & Hyear & Hwd); [lia|].
  destruct (NX_TimeGo_next_second t Hok1) as (t' & Hgo & Hok2 & Hsec2 & _); [lia|].
  pose proof (NX_TimeGo_year t t' Hok1 ltac:(lia) Hgo) as Hy2. exists t'. split.
  { change (Nat.iter n (fun r => r ≫= NX_TimeGo) (Some s) ≫= NX_TimeGo = Some t'). by rewrite Hrun. }
  split; [done|]. split; [lia|]. split; [lia|]. intros Hw H1 H2. apply (NX_TimeGo_weekday t); [done|lia| |apply Hwd; [done|lia|lia]|done].
  apply same_rule_years. lia.
Qed.

(** C11: Setting a well-formed date and letting the clock run [n] seconds gives
    the well-formed time [n] seconds later in the code's calendar; within the
    years 1901 to 2099 the weekday shown is the Gregorian weekday of the date
    shown.  A null argument is [NX_EINVAL]. *)
Theorem set_clock_keeps_time s t (n : nat) : date_ok t -> year t + Z.of_nat n < 2 ^ 31 - 1 ->
  exists s0 s', NX_TimeSet s (Some t) = Some (s0, NX_EOK) /\
    Nat.iter n (fun r => r ≫= NX_TimeGo) (Some s0) = Some s' /\ NX_TimeGet s' true = (Some s', NX_EOK) /\ time_ok s' /\
    second_number s' = second_number t + Z.of_nat n /\
    (1901 <= year t -> year s' <= 2099 -> weekDay s' = MakeWeekDay (year s') (month s') (day s')) /\
    NX_TimeSet s None = Some (s, NX_EINVAL).
Proof.
  intros Hd Hy. destruct (NX_TimeSet_spec s t Hd) as (s0 & Hset & Hok & Hw & Hsec & Hyr & _).
  destruct (clock_runs s0 n Hok) as (s' & Hrun & Hok' & Hsec' & _ & Hw'); [lia|].
  exists s0, s'. split_and!; try done; [lia|]. intros. apply Hw'; [done|lia|done].
Qed.

(** The day of the year that [NX_TimeSet] stores: from 1 on 1 January, it
    is the day's ordinal in a common year; in a leap year it is one more from
    March on and on 28 February, the leap day having been counted twice. *)
Theorem year_day_value s t : date_ok t ->
  exists s', NX_TimeSet s (Some t) = Some (s', NX_EOK) /\ yearDay s' =
    day_number (year t) (month t) (day t) - day_number (year t) 1 1 + 1 +
    (if (leap (year t) =? 1) && ((month t >? 2) || ((month t =? 2) && (day t =? 28))) then 1 else 0).
Proof.
  intros Hd. destruct (NX_TimeSet_spec s t Hd) as (s' & Hset & _ & _ & _ & _ & Hyd). exists s'. split; [done|].
  rewrite Hyd. unfold day_number, year_days_excess. change (ordinal (year t) 1 1) with 1.
  pose proof (leap_range (year t)). destruct (Z.eqb_spec (leap (year t)) 1); cbn [andb]; case_match; lia.
Qed.

(** ** The theorems at work *)
Definition new_year_eve : NX_Time := mkTime 58 59 23 0 31 12 1999 0.

Lemma weekday_is_gregorian_witness : MakeWeekDay 2000 3 1 = (MakeWeekDay 2000 2 27 + Z.of_nat 3) mod 7.
Proof. exact (proj2 (weekday_is_gregorian 2000 2 27 3 ltac:(lia) ltac:(lia) ltac:(by vm_compute))). Defined.

Lemma set_clock_keeps_time_witness :
  exists s0 s', NX_TimeSet NX_TIME_INIT_VAL (Some new_year_eve) = Some (s0, NX_EOK) /\
    Nat.iter 2 (fun r => r ≫= NX_TimeGo) (Some s0) = Some s' /\ time_ok s'.
Proof.
  destruct (set_clock_keeps_time NX_TIME_INIT_VAL new_year_eve 2) as (s0 & s' & H & H' & _ & Hok & _).
  - by split_and!; vm_compute.
  - by vm_compute.
  - exists s0, s'. split; [exact H|split; [exact H'|exact Hok]].
Defined.

Lemma year_day_value_witness :
  exists s', NX_TimeSet NX_TIME_INIT_VAL (Some new_year_eve) = Some (s', NX_EOK) /\ yearDay s' = 365.
Proof.
  destruct (year_day_value NX_TIME_INIT_VAL new_year_eve) as (s' & H & Hd); [by split_and!; vm_compute|].
  exists s'. split; [exact H|]. rewrite Hd. vm_compute. reflexivity.
Defined.

(** 2100 is taken for a leap year, and after the last second of a year the day
    of the year is one past its end. *)
Example leap_2100 : IsLeapYear 2100 = 1 /\ gregorian_leap 2100 = 0.
Proof. by vm_compute. Qed.

Example year_day_366 :
  (t ← NX_TimeGo (mkTime 59 59 23 5 31 12 1999 365); Some (year t, month t, day t, weekDay t, yearDay t)) = Some (2000, 1, 1, 6, 366).
Proof. by vm_compute. Qed.
