(* ===== verification/Sched.v ===== *)
(** The scheduler: [sched/smp.c], [sched/thread.c], [sched/sched.c] and the
    clock interrupt of [time/clock.c] that drives it.

    One state [Sys] holds the threads by address, the per-core queues, the
    lists and counts of [gThreadManagerObject] and the semaphores threads wait
    on.  Every critical section (a spin lock held with interrupts disabled) is
    one atomic step.  The switch of stacks, page tables and thread-local
    storage is the machine's; in the model a switch changes [threadRunning],
    and a call that suspends its caller ends in [Switched], with what the
    caller does when it runs again as a definition of its own.  A thread's
    [list] node is on one of the queues, so [NX_ListDel] removes it from the
    queue it is on.  The timers behind [NX_ThreadSleep] and the processes are
    not part of this state: the threads here are kernel threads
    ([resource.process] null) that do not sleep on a timer. *)
From S2P Require Import Prelude ThreadId.

Definition NX_THREAD_PRIORITY_IDLE : Z := 0.
Definition NX_THREAD_PRIORITY_LOW : Z := 1.
Definition NX_THREAD_PRIORITY_HIGH : Z := 6.
Definition NX_THREAD_MAX_PRIORITY_NR : Z := 16.
Definition NX_SCHED_HEAD : Z := 1.
Definition NX_SCHED_TAIL : Z := 2.

Inductive NX_ThreadState :=
  | NX_THREAD_INIT
  | NX_THREAD_READY
  | NX_THREAD_RUNNING
  | NX_THREAD_BLOCKED
  | NX_THREAD_EXIT.

#[export] Instance NX_ThreadState_eq_dec : EqDecision NX_ThreadState.
Proof. solve_decision. Defined.

(** [blockLinked] says whether [blockList] is linked on a wait list.  The
    semaphore [waiterSem] embedded in a thread has the thread's address for
    key in [sems]. *)
Record NX_Thread := mkThread {
  state : NX_ThreadState;
  tid : Z;
  handler : Z;
  threadArg : Z;
  stackBase : Z;
  stackSize : Z;
  timeslice : Z;
  ticks : Z;
  elapsedTicks : Z;
  fixedPriority : Z;
  priority : Z;
  needSched : Z;
  isTerminated : Z;
  onCore : Z;
  coreAffinity : Z;
  exitCode : Z;
  waitExitCode : Z;
  blockLinked : bool
}.

Record NX_Semaphore := mkSem {
  value : Z;
  semWaitList : list Z;
  magic : Z
}.

Record NX_Cpu := mkCpu {
  threadReadyList : list (list Z);
  threadRunning : option Z;
  idleThread : option Z;
  idleElapsedTicks : Z;
  idleTime : Z;
  threadCount : Z
}.

Record Sys := mkSys {
  threads : gmap Z NX_Thread;
  sems : gmap Z NX_Semaphore;
  cpuArray : list NX_Cpu;
  globalList : list Z;
  exitList : list Z;
  pendingList : list Z;
  activeThreadCount : Z;
  pendingThreadCount : Z;
  gActivedCoreCount : Z;
  threadIdObject : NX_ThreadID
}.

(** ** Field updates *)
Definition set_state (x : NX_ThreadState) (t : NX_Thread) : NX_Thread :=
  mkThread x (tid t) (handler t) (threadArg t) (stackBase t) (stackSize t) (timeslice t) (ticks t) (elapsedTicks t)
    (fixedPriority t) (priority t) (needSched t) (isTerminated t) (onCore t) (coreAffinity t) (exitCode t)
    (waitExitCode t) (blockLinked t).
Definition set_priority (x : Z) (t : NX_Thread) : NX_Thread :=
  mkThread (state t) (tid t) (handler t) (threadArg t) (stackBase t) (stackSize t) (timeslice t) (ticks t) (elapsedTicks t)
    (fixedPriority t) x (needSched t) (isTerminated t) (onCore t) (coreAffinity t) (exitCode t)
    (waitExitCode t) (blockLinked t).
Definition set_onCore (x : Z) (t : NX_Thread) : NX_Thread :=
  mkThread (state t) (tid t) (handler t) (threadArg t) (stackBase t) (stackSize t) (timeslice t) (ticks t) (elapsedTicks t)
    (fixedPriority t) (priority t) (needSched t) (isTerminated t) x (coreAffinity t) (exitCode t)
    (waitExitCode t) (blockLinked t).
Definition set_affinity (x : Z) (t : NX_Thread) : NX_Thread :=
  mkThread (state t) (tid t) (handler t) (threadArg t) (stackBase t) (stackSize t) (timeslice t) (ticks t) (elapsedTicks t)
    (fixedPriority t) (priority t) (needSched t) (isTerminated t) x x (exitCode t)
    (waitExitCode t) (blockLinked t).
Definition set_clock (tk el ns : Z) (t : NX_Thread) : NX_Thread :=
  mkThread (state t) (tid t) (handler t) (threadArg t) (stackBase t) (stackSize t) (timeslice t) tk el
    (fixedPriority t) (priority t) ns (isTerminated t) (onCore t) (coreAffinity t) (exitCode t)
    (waitExitCode t) (blockLinked t).
Definition set_terminated (x : Z) (t : NX_Thread) : NX_Thread :=
  mkThread (state t) (tid t) (handler t) (threadArg t) (stackBase t) (stackSize t) (timeslice t) (ticks t) (elapsedTicks t)
    (fixedPriority t) (priority t) (needSched t) x (onCore t) (coreAffinity t) (exitCode t)
    (waitExitCode t) (blockLinked t).
Definition set_exitCode (x : Z) (t : NX_Thread) : NX_Thread :=
  mkThread (state t) (tid t) (handler t) (threadArg t) (stackBase t) (stackSize t) (timeslice t) (ticks t) (elapsedTicks t)
    (fixedPriority t) (priority t) (needSched t) (isTerminated t) (onCore t) (coreAffinity t) x
    (waitExitCode t) (blockLinked t).
Definition set_waitExitCode (x : Z) (t : NX_Thread) : NX_Thread :=
  mkThread (state t) (tid t) (handler t) (threadArg t) (stackBase t) (stackSize t) (timeslice t) (ticks t) (elapsedTicks t)
    (fixedPriority t) (priority t) (needSched t) (isTerminated t) (onCore t) (coreAffinity t) (exitCode t)
    x (blockLinked t).
Definition set_blockLinked (x : bool) (t : NX_Thread) : NX_Thread :=
  mkThread (state t) (tid t) (handler t) (threadArg t) (stackBase t) (stackSize t) (timeslice t) (ticks t) (elapsedTicks t)
    (fixedPriority t) (priority t) (needSched t) (isTerminated t) (onCore t) (coreAffinity t) (exitCode t)
    (waitExitCode t) x.

Definition with_threads (s : Sys) (m : gmap Z NX_Thread) : Sys :=
  mkSys m (sems s) (cpuArray s) (globalList s) (exitList s) (pendingList s) (activeThreadCount s) (pendingThreadCount s)
    (gActivedCoreCount s) (threadIdObject s).
Definition with_sems (s : Sys) (m : gmap Z NX_Semaphore) : Sys :=
  mkSys (threads s) m (cpuArray s) (globalList s) (exitList s) (pendingList s) (activeThreadCount s) (pendingThreadCount s)
    (gActivedCoreCount s) (threadIdObject s).
Definition with_cpus (s : Sys) (l : list NX_Cpu) : Sys :=
  mkSys (threads s) (sems s) l (globalList s) (exitList s) (pendingList s) (activeThreadCount s) (pendingThreadCount s)
    (gActivedCoreCount s) (threadIdObject s).
Definition with_global (s : Sys) (l : list Z) (n : Z) : Sys :=
  mkSys (threads s) (sems s) (cpuArray s) l (exitList s) (pendingList s) n (pendingThreadCount s)
    (gActivedCoreCount s) (threadIdObject s).
Definition with_exit (s : Sys) (l : list Z) : Sys :=
  mkSys (threads s) (sems s) (cpuArray s) (globalList s) l (pendingList s) (activeThreadCount s) (pendingThreadCount s)
    (gActivedCoreCount s) (threadIdObject s).
Definition with_pending (s : Sys) (l : list Z) (n : Z) : Sys :=
  mkSys (threads s) (sems s) (cpuArray s) (globalList s) (exitList s) l (activeThreadCount s) n
    (gActivedCoreCount s) (threadIdObject s).
Definition with_ids (s : Sys) (ids : NX_ThreadID) : Sys :=
  mkSys (threads s) (sems s) (cpuArray s) (globalList s) (exitList s) (pendingList s) (activeThreadCount s)
    (pendingThreadCount s) (gActivedCoreCount s) ids.

Definition with_lists (c : NX_Cpu) (q : list (list Z)) (n : Z) : NX_Cpu :=
  mkCpu q (threadRunning c) (idleThread c) (idleElapsedTicks c) (idleTime c) n.
Definition with_running (c : NX_Cpu) (r : option Z) : NX_Cpu :=
  mkCpu (threadReadyList c) r (idleThread c) (idleElapsedTicks c) (idleTime c) (threadCount c).
Definition with_idle (c : NX_Cpu) (r : option Z) : NX_Cpu :=
  mkCpu (threadReadyList c) (threadRunning c) r (idleElapsedTicks c) (idleTime c) (threadCount c).
Definition with_idleTime (c : NX_Cpu) (el x : Z) : NX_Cpu :=
  mkCpu (threadReadyList c) (threadRunning c) (idleThread c) el x (threadCount c).

Definition upd_thread (s : Sys) (id : Z) (f : NX_Thread -> NX_Thread) : option Sys :=
  t ← threads s !! id; Some (with_threads s (<[id := f t]> (threads s))).

(** [NX_ListDel (&thread->list)]: off the queue it is on. *)
Definition cpu_queued (c : NX_Cpu) (id : Z) : bool := existsb (fun q => bool_decide (id ∈ q)) (threadReadyList c).
Definition list_linked (s : Sys) (id : Z) : bool :=
  bool_decide (id ∈ pendingList s) || existsb (fun c => cpu_queued c id) (cpuArray s).
Definition list_unlink (s : Sys) (id : Z) : option Sys :=
  assert (list_linked s id);;
  Some (with_pending
    (with_cpus s (map (fun c => with_lists c (map (list_del id) (threadReadyList c)) (threadCount c)) (cpuArray s)))
    (list_del id (pendingList s)) (pendingThreadCount s)).

(** How a call that may suspend its caller ends: it has returned, or another
    thread runs, or (in a loop that waits) it goes round again. *)
Inductive outcome :=
  | Returned (err : NX_Error)
  | Switched
  | Again.

Definition SEMPAHORE_MAGIC : Z := 0x10000003.

Section operations.
Context (NX_MULTI_CORES_NR : Z).

Definition NX_ThreadManagerInit (s : Sys) : Sys :=
  mkSys (threads s) (sems s) (cpuArray s) [] [] [] 0 0 (gActivedCoreCount s) (threadIdObject s).

(** ** [sched/smp.c] *)
Definition NX_SMP_Init (s : Sys) : Sys :=
  with_cpus s (replicate (Z.to_nat NX_MULTI_CORES_NR)
    (mkCpu (replicate (Z.to_nat NX_THREAD_MAX_PRIORITY_NR) []) None None 0 0 0)).

Definition NX_CpuGetIndex (s : Sys) (coreId : Z) : option NX_Cpu :=
  assert (coreId <? NX_MULTI_CORES_NR);; zlookup (cpuArray s) coreId.

Definition upd_cpu (s : Sys) (coreId : Z) (c : NX_Cpu) : Sys := with_cpus s (zinsert (cpuArray s) coreId c).

Definition NX_SMP_EnqueueThreadIrqDisabled (s : Sys) (coreId id flags : Z) : option Sys :=
  t ← threads s !! id;
  assert ((priority t >=? 0) && (priority t <? NX_THREAD_MAX_PRIORITY_NR));;
  c ← NX_CpuGetIndex s coreId;
  q ← zlookup (threadReadyList c) (priority t);
  let q := if nz (Z.land flags NX_SCHED_HEAD) then id :: q else q ++ [id] in
  Some (upd_cpu s coreId (with_lists c (zinsert (threadReadyList c) (priority t) q) (threadCount c + 1))).

Definition NX_SMP_DequeueThreadIrqDisabled (s : Sys) (coreId id : Z) : option Sys :=
  t ← threads s !! id;
  assert ((priority t >=? 0) && (priority t <? NX_THREAD_MAX_PRIORITY_NR));;
  s ← list_unlink s id;
  c ← NX_CpuGetIndex s coreId;
  Some (upd_cpu s coreId (with_lists c (threadReadyList c) (threadCount c - 1))).

Definition NX_SMP_DequeueThread (s : Sys) (coreId id : Z) : option Sys :=
  t ← threads s !! id; NX_SMP_DequeueThreadIrqDisabled s (onCore t) id.

Definition NX_ThreadLowerPriority (t : NX_Thread) : NX_Thread :=
  if (fixedPriority t >=? NX_THREAD_PRIORITY_LOW) && (fixedPriority t <=? NX_THREAD_PRIORITY_HIGH) then
    let p := u32 (priority t - 1) in
    set_priority (if p <? NX_THREAD_PRIORITY_LOW then fixedPriority t else p) t
  else t.

(** From level [n - 1] down to level 0. *)
Fixpoint PickThread_loop (n : nat) (qs : list (list Z)) : option Z :=
  match n with
  | O => None
  | S prio =>
      match qs !! prio with
      | Some (id :: _) => Some id
      | _ => PickThread_loop prio qs
      end
  end.

Definition NX_SMP_PickThreadIrqDisabled (s : Sys) (coreId : Z) : option (Sys * Z) :=
  c ← NX_CpuGetIndex s coreId;
  id ← PickThread_loop (Z.to_nat NX_THREAD_MAX_PRIORITY_NR) (threadReadyList c);
  s ← list_unlink s id;
  s ← upd_thread s id NX_ThreadLowerPriority;
  c ← NX_CpuGetIndex s coreId;
  Some (upd_cpu s coreId (with_lists c (threadReadyList c) (threadCount c - 1)), id).

Definition no_affinity (s : Sys) (id : Z) : bool :=
  match threads s !! id with Some t => coreAffinity t >=? NX_MULTI_CORES_NR | None => false end.

Fixpoint NoAffinity_loop (n : nat) (s : Sys) (qs : list (list Z)) : option Z :=
  match n with
  | O => None
  | S prio =>
      match list_find (fun id => no_affinity s id = true) (default [] (qs !! prio)) with
      | Some (_, id) => Some id
      | None => NoAffinity_loop prio s qs
      end
  end.

Definition NX_SMP_DeququeNoAffinityThread (s : Sys) (coreId : Z) : option (Sys * option Z) :=
  c ← NX_CpuGetIndex s coreId;
  match NoAffinity_loop (Z.to_nat NX_THREAD_MAX_PRIORITY_NR) s (threadReadyList c) with
  | Some id =>
      s ← list_unlink s id;
      c ← NX_CpuGetIndex s coreId;
      Some (upd_cpu s coreId (with_lists c (threadReadyList c) (threadCount c - 1)), Some id)
  | None => Some (s, None)
  end.

Definition NX_SMP_SetRunning (s : Sys) (coreId : Z) (thread : option Z) : option (Sys * NX_Error) :=
  match thread with
  | Some id =>
      if coreId >=? NX_MULTI_CORES_NR then Some (s, NX_EINVAL)
      else
        s ← upd_thread s id (set_state NX_THREAD_RUNNING);
        c ← NX_CpuGetIndex s coreId;
        Some (upd_cpu s coreId (with_running c (Some id)), NX_EOK)
  | None => Some (s, NX_EINVAL)
  end.

Definition NX_SMP_SetIdle (s : Sys) (coreId : Z) (thread : option Z) : option (Sys * NX_Error) :=
  match thread with
  | Some id =>
      if coreId >=? NX_MULTI_CORES_NR then Some (s, NX_EINVAL)
      else
        c ← NX_CpuGetIndex s coreId;
        Some (upd_cpu s coreId (with_idle c (Some id)), NX_EOK)
  | None => Some (s, NX_EINVAL)
  end.

Definition NX_SMP_GetIdle (s : Sys) (coreId : Z) : option (option Z) :=
  if coreId >=? NX_MULTI_CORES_NR then Some None
  else c ← NX_CpuGetIndex s coreId; Some (idleThread c).

(** [coreId] is the index of the calling core. *)
Definition NX_SMP_GetRunning (s : Sys) (coreId : Z) : option (option Z) :=
  c ← NX_CpuGetIndex s coreId; Some (threadRunning c).

Definition NX_SMP_GetUsage (s : Sys) (coreId : Z) : option Z :=
  if coreId >=? NX_MULTI_CORES_NR then Some 0
  else c ← NX_CpuGetIndex s coreId; Some (u32 (u64 (1000 - idleTime c) / 10)).

(** ** [sched/thread.c]: creation *)
Definition NX_SemaphoreInit (s : Sys) (sem v : Z) : Sys * NX_Error :=
  if sem =? 0 then (s, NX_EINVAL)
  else (with_sems s (<[sem := mkSem v [] SEMPAHORE_MAGIC]> (sems s)), NX_EOK).

Definition ThreadInit (s : Sys) (thread name hnd arg stack size prio : Z) : option (Sys * NX_Error) :=
  if (thread =? 0) || (name =? 0) || (hnd =? 0) || (stack =? 0) || negb (nz size) then Some (s, NX_EINVAL)
  else
    '(ids, id) ← NX_ThreadIdAlloc (threadIdObject s);
    let s := with_ids s ids in
    if id <? 0 then Some (s, NX_ENORES)
    else
      let t := mkThread NX_THREAD_INIT id hnd arg stack size 3 3 0 prio prio 0 0 NX_MULTI_CORES_NR NX_MULTI_CORES_NR
                 0 0 false in
      let s := with_threads s (<[thread := t]> (threads s)) in
      Some (fst (NX_SemaphoreInit s thread 0), NX_EOK).

Definition ThreadDeInit (s : Sys) (id : Z) : option (Sys * NX_Error) :=
  if id =? 0 then Some (s, NX_EINVAL)
  else
  t ← threads s !! id;
  if stackBase t =? 0 then Some (s, NX_EFAULT)
  else ids ← NX_ThreadIdFree (threadIdObject s) (tid t); Some (with_ids s ids, NX_EOK).

(** [mem] and [stack] are what the two [NX_MemAlloc] return; the result is the
    thread or null. *)
Definition NX_ThreadCreate (mem stack : option Z) (s : Sys) (name hnd arg prio : Z) : option (Sys * option Z) :=
  if (name =? 0) || (hnd =? 0) || (prio >=? NX_THREAD_MAX_PRIORITY_NR) then Some (s, None)
  else
    match mem, stack with
    | Some thread, Some stack =>
        '(s, err) ← ThreadInit s thread name hnd arg stack 8192 prio;
        Some (s, if is_ok err then Some thread else None)
    | _, _ => Some (s, None)
    end.

Definition NX_ThreadDestroy (s : Sys) (id : Z) : option (Sys * NX_Error) :=
  if id =? 0 then Some (s, NX_EINVAL)
  else
  t ← threads s !! id;
  if stackBase t =? 0 then Some (s, NX_EFAULT)
  else
    '(s, err) ← ThreadDeInit s id;
    if negb (is_ok err) then Some (s, err)
    else Some (with_sems (with_threads s (delete id (threads s))) (delete id (sems s)), NX_EOK).

(** ** [sched/thread.c]: the lists of ready threads *)
Definition NX_ThreadAddToGlobalPendingList (s : Sys) (id flags : Z) : Sys :=
  with_pending s (if nz (Z.land flags NX_SCHED_HEAD) then id :: pendingList s else pendingList s ++ [id])
    (pendingThreadCount s + 1).

Definition NX_ThreadDelFromGlobalPendingList (s : Sys) (id : Z) : option Sys :=
  s ← list_unlink s id; Some (with_pending s (pendingList s) (pendingThreadCount s - 1)).

Definition NX_ThreadReadyRunLocked (s : Sys) (id flags : Z) : option Sys :=
  s ← upd_thread s id (set_state NX_THREAD_READY);
  t ← threads s !! id;
  if onCore t <? NX_MULTI_CORES_NR then NX_SMP_EnqueueThreadIrqDisabled s (onCore t) id flags
  else Some (NX_ThreadAddToGlobalPendingList s id flags).

Definition NX_ThreadReadyRunUnlocked (s : Sys) (id flags : Z) : option Sys := NX_ThreadReadyRunLocked s id flags.

Definition NX_ThreadUnreadyRunLocked (s : Sys) (id : Z) : option Sys :=
  t ← threads s !! id;
  if onCore t <? NX_MULTI_CORES_NR then NX_SMP_DequeueThreadIrqDisabled s (onCore t) id
  else NX_ThreadDelFromGlobalPendingList s id.

Definition NX_ThreadDequeuePendingList (s : Sys) (id : Z) : option Sys := NX_ThreadDelFromGlobalPendingList s id.
Definition NX_ThreadEnqueuePendingList (s : Sys) (id : Z) : Sys := NX_ThreadAddToGlobalPendingList s id NX_SCHED_HEAD.

Definition NX_ThreadUnreadyRun (s : Sys) (id : Z) : option Sys :=
  t ← threads s !! id;
  assert (negb (bool_decide (state t = NX_THREAD_READY)));;
  if onCore t <? NX_MULTI_CORES_NR then NX_SMP_DequeueThread s (onCore t) id
  else NX_ThreadDequeuePendingList s id.

Definition NX_ThreadPickPendingList (s : Sys) : option (Sys * option Z) :=
  match pendingList s with
  | [] => Some (s, None)
  | id :: _ => s ← list_unlink s id; Some (with_pending s (pendingList s) (pendingThreadCount s - 1), Some id)
  end.

Definition NX_ThreadEnququeGlobalListUnlocked (s : Sys) (id : Z) : Sys :=
  with_global s (id :: globalList s) (activeThreadCount s + 1).

Definition NX_ThreadDeququeGlobalListUnlocked (s : Sys) (id : Z) : option Sys :=
  assert (bool_decide (id ∈ globalList s));;
  Some (with_global s (list_del id (globalList s)) (activeThreadCount s - 1)).

Definition NX_ThreadStart (s : Sys) (id : Z) : option (Sys * NX_Error) :=
  if id =? 0 then Some (s, NX_EINVAL)
  else
    let s := NX_ThreadEnququeGlobalListUnlocked s id in
    s ← NX_ThreadReadyRunLocked s id NX_SCHED_TAIL;
    Some (s, NX_EOK).

Definition NX_ThreadStartNotReady (s : Sys) (id : Z) : Sys * NX_Error :=
  if id =? 0 then (s, NX_EINVAL) else (NX_ThreadEnququeGlobalListUnlocked s id, NX_EOK).

Definition NX_ThreadSetAffinity (s : Sys) (id coreId : Z) : option (Sys * NX_Error) :=
  if (id =? 0) || (coreId >=? NX_MULTI_CORES_NR) then Some (s, NX_EINVAL)
  else s ← upd_thread s id (set_affinity coreId); Some (s, NX_EOK).

Definition NX_ThreadEnququeExitList (s : Sys) (id : Z) : option Sys :=
  assert (negb (bool_decide (id ∈ exitList s)));; Some (with_exit s (id :: exitList s)).

Definition NX_ThreadDeququeExitList (s : Sys) : Sys * option Z :=
  match exitList s with
  | [] => (s, None)
  | id :: l => (with_exit s l, Some id)
  end.

Definition has_tid (s : Sys) (x id : Z) : bool :=
  match threads s !! id with Some t => u32 (tid t) =? x | None => false end.

Definition NX_ThreadFindById (s : Sys) (x : Z) : option Z := snd <$> list_find (fun id => has_tid s x id = true) (globalList s).

Definition NX_ThreadSelf (s : Sys) (coreId : Z) : option Z := r ← NX_SMP_GetRunning s coreId; r.

Definition NX_ThreadUnblock (s : Sys) (id : Z) : option (Sys * NX_Error) :=
  if id =? 0 then Some (s, NX_EINVAL)
  else
    t ← threads s !! id;
    if bool_decide (state t = NX_THREAD_BLOCKED) then
      s ← NX_ThreadReadyRunUnlocked s id NX_SCHED_HEAD; Some (s, NX_EOK)
    else Some (s, NX_EBUSY).

Definition NX_ThreadTerminate (s : Sys) (id code : Z) : option (Sys * NX_Error) :=
  if id =? 0 then Some (s, NX_EINVAL)
  else
    t ← threads s !! id;
    if bool_decide (state t = NX_THREAD_INIT) || bool_decide (state t = NX_THREAD_EXIT) then Some (s, NX_EPERM)
    else
      s ← upd_thread s id (fun t => set_exitCode code (set_terminated 1 t));
      '(s, _) ← NX_ThreadUnblock s id;
      Some (s, NX_EOK).

(** ** [sched/semaphore.c]: signalling *)
Definition upd_sem (s : Sys) (sem : Z) (sm : NX_Semaphore) : Sys := with_sems s (<[sem := sm]> (sems s)).

(** The argument checks every operation starts with. *)
Definition sem_check (s : Sys) (sem : Z) : option (NX_Semaphore + NX_Error) :=
  if sem =? 0 then Some (inr NX_EINVAL)
  else sm ← sems s !! sem; Some (if magic sm =? SEMPAHORE_MAGIC then inl sm else inr NX_EFAULT).

(** [NX_ListDelInit (&thread->blockList)], then the thread is woken. *)
Definition wake_first (s : Sys) (sem id : Z) : option Sys :=
  sm ← sems s !! sem;
  let s := upd_sem s sem (mkSem (value sm) (list_del id (semWaitList sm)) (magic sm)) in
  s ← upd_thread s id (set_blockLinked false);
  '(s, _) ← NX_ThreadUnblock s id;
  Some s.

Fixpoint SignalAll_loop (s : Sys) (sem : Z) (l : list Z) : option Sys :=
  match l with
  | [] => Some s
  | id :: l => s ← wake_first s sem id; SignalAll_loop s sem l
  end.

(** [NX_AtomicInc] on the [NX_IArch] of the counter: the maximum wraps. *)
Definition sem_incr (sm : NX_Semaphore) : NX_Semaphore := mkSem (i64 (value sm + 1)) (semWaitList sm) (magic sm).

Definition NX_SemaphoreSignal (s : Sys) (sem : Z) : option (Sys * NX_Error) :=
  r ← sem_check s sem;
  match r with
  | inr err => Some (s, err)
  | inl sm =>
      let s := upd_sem s sem (sem_incr sm) in
      if value (sem_incr sm) >? 0 then
        match semWaitList sm with
        | [] => Some (s, NX_EOK)
        | id :: _ => s ← wake_first s sem id; Some (s, NX_EOK)
        end
      else Some (s, NX_EOK)
  end.

Definition NX_SemaphoreSignalAll (s : Sys) (sem : Z) : option (Sys * NX_Error) :=
  r ← sem_check s sem;
  match r with
  | inr err => Some (s, err)
  | inl sm =>
      let s := upd_sem s sem (sem_incr sm) in
      if value (sem_incr sm) >? 0 then s ← SignalAll_loop s sem (semWaitList sm); Some (s, NX_EOK)
      else Some (s, NX_EOK)
  end.

Definition NX_SemaphoreTryWait (s : Sys) (sem : Z) : option (Sys * NX_Error) :=
  r ← sem_check s sem;
  match r with
  | inr err => Some (s, err)
  | inl sm =>
      if value sm >? 0 then Some (upd_sem s sem (mkSem (value sm - 1) (semWaitList sm) (magic sm)), NX_EOK)
      else Some (s, NX_EAGAIN)
  end.

Definition NX_SemaphoreGetValue (s : Sys) (sem : Z) : option Z :=
  if sem =? 0 then Some 0 else sm ← sems s !! sem; Some (value sm).

Definition NX_SemaphoreState (s : Sys) (sem : Z) : option NX_Error :=
  r ← sem_check s sem;
  Some (match r with inr err => err | inl sm => if value sm =? 0 then NX_EBUSY else NX_EOK end).

(** ** [sched/sched.c] *)
Definition PullOrPushThread (s : Sys) (coreId : Z) : option Sys :=
  c ← NX_CpuGetIndex s coreId;
  let coreThreadCount := threadCount c in
  assert (nz (gActivedCoreCount s));;
  let threadsPerCore := u64 (Z.quot (activeThreadCount s) (gActivedCoreCount s) + 1) in
  s ← (if u64 coreThreadCount <? threadsPerCore then
         '(s, thread) ← NX_ThreadPickPendingList s;
         match thread with
         | Some id => s ← upd_thread s id (set_onCore coreId); NX_ThreadReadyRunLocked s id NX_SCHED_HEAD
         | None => Some s
         end
       else Some s);
  if u64 coreThreadCount >? threadsPerCore then
    '(s, thread) ← NX_SMP_DeququeNoAffinityThread s coreId;
    match thread with
    | Some id =>
        s ← upd_thread s id (set_onCore NX_MULTI_CORES_NR); Some (NX_ThreadEnqueuePendingList s id)
    | None => Some s
    end
  else Some s.

Definition NX_SchedLockedIRQ (s : Sys) (coreId : Z) : option Sys :=
  _ ← NX_ThreadSelf s coreId;
  s ← PullOrPushThread s coreId;
  '(s, next) ← NX_SMP_PickThreadIrqDisabled s coreId;
  '(s, _) ← NX_SMP_SetRunning s coreId (Some next);
  Some s.

Definition NX_SchedInterruptDisabled (s : Sys) (coreId : Z) : option Sys := NX_SchedLockedIRQ s coreId.

Definition NX_SchedToFirstThread (s : Sys) (coreId : Z) : option Sys :=
  '(s, thread) ← NX_SMP_PickThreadIrqDisabled s coreId;
  '(s, err) ← NX_SMP_SetRunning s coreId (Some thread);
  assert (is_ok err);; Some s.

Definition NX_SchedYield (s : Sys) (coreId : Z) : option Sys :=
  cur ← NX_ThreadSelf s coreId;
  s ← NX_ThreadReadyRunUnlocked s cur NX_SCHED_TAIL;
  NX_SchedInterruptDisabled s coreId.

Definition NX_SchedExit (s : Sys) (coreId : Z) : option Sys :=
  cur ← NX_ThreadSelf s coreId;
  s ← upd_thread s cur (set_state NX_THREAD_EXIT);
  s ← NX_ThreadEnququeExitList s cur;
  NX_SchedInterruptDisabled s coreId.

(** ** [sched/thread.c]: waiting and leaving *)
Fixpoint ExitNotify_loop (s : Sys) (code : Z) (l : list Z) : option Sys :=
  match l with
  | [] => Some s
  | w :: l => s ← upd_thread s w (set_waitExitCode code); ExitNotify_loop s code l
  end.

Definition ThreadExitNotify (s : Sys) (id : Z) : option Sys :=
  t ← threads s !! id;
  sm ← sems s !! id;
  s ← ExitNotify_loop s (exitCode t) (semWaitList sm);
  '(s, _) ← NX_SemaphoreSignalAll s id;
  Some s.

Definition NX_ThreadExit (s : Sys) (coreId code : Z) : option Sys :=
  cur ← NX_ThreadSelf s coreId;
  s ← upd_thread s cur (set_exitCode code);
  s ← ThreadExitNotify s cur;
  s ← NX_ThreadDeququeGlobalListUnlocked s cur;
  NX_SchedExit s coreId.

Definition NX_ThreadBlockLockedIRQ (s : Sys) (coreId id : Z) : option (Sys * outcome) :=
  if id =? 0 then Some (s, Returned NX_EINVAL)
  else
    t ← threads s !! id;
    match state t with
    | NX_THREAD_READY =>
        s ← upd_thread s id (set_state NX_THREAD_BLOCKED);
        s ← NX_ThreadUnreadyRun s id;
        Some (s, Returned NX_EOK)
    | NX_THREAD_RUNNING =>
        s ← upd_thread s id (set_state NX_THREAD_BLOCKED);
        s ← NX_SchedLockedIRQ s coreId;
        Some (s, Switched)
    | _ => Some (s, Returned NX_EOK)
    end.

(** The end of [NX_ThreadBlockLockedIRQ], when the thread runs again. *)
Definition ThreadBlock_resumed (s : Sys) (coreId id : Z) : option (Sys * outcome) :=
  t ← threads s !! id;
  if nz (isTerminated t) then s ← NX_ThreadExit s coreId 1; Some (s, Switched)
  else Some (s, Returned NX_EOK).

Definition NX_ThreadBlock (s : Sys) (coreId id : Z) : option (Sys * outcome) := NX_ThreadBlockLockedIRQ s coreId id.

(** One turn of the loop of [NX_SemaphoreWait]; after [Switched] the thread
    runs [ThreadBlock_resumed] and the next turn. *)
Definition SemaphoreWait_turn (s : Sys) (coreId sem : Z) : option (Sys * outcome) :=
  r ← sem_check s sem;
  match r with
  | inr err => Some (s, Returned err)
  | inl sm =>
      if value sm >? 0 then
        Some (upd_sem s sem (mkSem (value sm - 1) (semWaitList sm) (magic sm)), Returned NX_EOK)
      else
        cur ← NX_ThreadSelf s coreId;
        t ← threads s !! cur;
        s ← (if negb (blockLinked t) then
               upd_thread (upd_sem s sem (mkSem (value sm) (semWaitList sm ++ [cur]) (magic sm))) cur (set_blockLinked true)
             else Some s);
        '(s, out) ← NX_ThreadBlockLockedIRQ s coreId cur;
        match out with
        | Returned err => assert (is_ok err);; Some (s, Again)
        | _ => Some (s, out)
        end
  end.

(** [NX_ThreadWait] up to its first turn of waiting, and its end. *)
Definition NX_ThreadWait (s : Sys) (coreId id : Z) : option (Sys * outcome) :=
  if id =? 0 then Some (s, Returned NX_ENOSRCH)
  else
    self ← NX_ThreadSelf s coreId;
    if id =? self then Some (s, Returned NX_EINVAL) else SemaphoreWait_turn s coreId id.

Definition ThreadWait_result (s : Sys) (self : Z) : option Z := t ← threads s !! self; Some (waitExitCode t).

(** ** The clock interrupt ([time/clock.c]) and the check on its way out *)
Definition NX_SchedIrqHandler (s : Sys) (coreId : Z) : option (Sys * outcome) :=
  cur ← NX_ThreadSelf s coreId;
  t ← threads s !! cur;
  if nz (isTerminated t) then s ← NX_ThreadExit s coreId 1; Some (s, Switched)
  else
    let tk := u32 (ticks t - 1) in
    s ← upd_thread s cur (set_clock tk (u64 (elapsedTicks t + 1)) (if tk =? 0 then 1 else needSched t));
    Some (s, Returned NX_EOK).

Definition NX_ReSchedCheck (s : Sys) (coreId : Z) : option (Sys * outcome) :=
  cur ← NX_ThreadSelf s coreId;
  t ← threads s !! cur;
  if nz (isTerminated t) then
    s ← upd_thread s cur (set_terminated 0);
    s ← NX_ThreadExit s coreId 1; Some (s, Switched)
  else if nz (needSched t) then
    s ← upd_thread s cur (fun t => set_clock (timeslice t) (elapsedTicks t) 0 t);
    s ← NX_ThreadReadyRunUnlocked s cur NX_SCHED_TAIL;
    s ← NX_SchedInterruptDisabled s coreId; Some (s, Switched)
  else Some (s, Returned NX_EOK).

(** ** [sched/idle.c] and [sched/deamon.c] *)
Definition IdleTimer (s : Sys) (coreId : Z) : option (Sys * bool) :=
  c ← NX_CpuGetIndex s coreId;
  idle ← idleThread c;
  t ← threads s !! idle;
  let ticks := u64 (elapsedTicks t - idleElapsedTicks c) in
  let idleTime := u64 (ticks * 10) in
  Some (upd_cpu s coreId (with_idleTime c (elapsedTicks t) (u32 (if idleTime >? 1000 then 1000 else idleTime))), true).

(** One turn of the inner loop, and whether it released a thread. *)
Definition Daemon_turn (s : Sys) : option (Sys * bool) :=
  match NX_ThreadDeququeExitList s with
  | (s, Some id) => '(s, _) ← NX_ThreadDestroy s id; Some (s, true)
  | (s, None) => Some (s, false)
  end.

Fixpoint Daemon_loop (fuel : nat) (s : Sys) : option Sys :=
  match fuel with
  | O => None
  | S fuel => '(s, again) ← Daemon_turn s; if again : bool then Daemon_loop fuel s else Some s
  end.

(** One round of the daemon: until the list of exited threads is empty. *)
Definition DaemonThread_round (s : Sys) : option Sys := Daemon_loop (S (length (exitList s))) s.
End operations.
