(* ===== verification/SchedInv.v ===== *)
(** The scheduler's invariant: the queues hold exactly the ready threads, each
    in the place its fields name, the counts are their lengths, and every core
    runs what it says.  [hole] names a thread in flight between two queues. *)
From S2P Require Import Prelude ThreadId Sched.

(** ** Queues *)
Definition queue (s : Sys) (c p : Z) : option (list Z) :=
  cpu ← zlookup (cpuArray s) c; zlookup (threadReadyList cpu) p.

Definition ready_at (s : Sys) (c p id : Z) : Prop :=
  exists t, threads s !! id = Some t /\ state t = NX_THREAD_READY /\ onCore t = c /\ priority t = p.

Definition total (qs : list (list Z)) : nat := foldr (fun q n => (length q + n)%nat) O qs.

(** Time-sharing threads stay between the lowest level and their own; the
    others do not move. *)
Definition prio_ok (t : NX_Thread) : Prop :=
  0 <= fixedPriority t < NX_THREAD_MAX_PRIORITY_NR /\
  if (NX_THREAD_PRIORITY_LOW <=? fixedPriority t) && (fixedPriority t <=? NX_THREAD_PRIORITY_HIGH)
  then NX_THREAD_PRIORITY_LOW <= priority t <= fixedPriority t
  else priority t = fixedPriority t.

Definition thread_ok (t : NX_Thread) : Prop := prio_ok t /\ 0 <= onCore t.

Definition put_queue (s : Sys) (c : Z) (cpu : NX_Cpu) (p : Z) (q : list Z) (n : Z) : Sys :=
  upd_cpu s c (with_lists cpu (zinsert (threadReadyList cpu) p q) n).

Definition cores (s : Sys) : list (option Z * option Z) :=
  (fun c => (threadRunning c, idleThread c)) <$> cpuArray s.

(** What the queue operations leave alone. *)
Record frame (s s' : Sys) : Prop := {
  fr_cores : cores s' = cores s;
  fr_sems : sems s' = sems s;
  fr_global : globalList s' = globalList s;
  fr_exit : exitList s' = exitList s;
  fr_active : activeThreadCount s' = activeThreadCount s;
  fr_cpus : gActivedCoreCount s' = gActivedCoreCount s
}.

#[export] Instance frame_refl : Reflexive frame.
Proof. done. Qed.

#[export] Instance frame_trans : Transitive frame.
Proof. intros s1 s2 s3 [] []. split; congruence. Qed.

Section queues.
Context (NX_MULTI_CORES_NR : Z).
Implicit Types (s : Sys) (t : NX_Thread) (id c p : Z) (q : list Z) (h : option Z).

Record queues_ok s h : Prop := {
  qo_cores : Z.of_nat (length (cpuArray s)) = NX_MULTI_CORES_NR;
  qo_levels : forall c cpu, zlookup (cpuArray s) c = Some cpu -> length (threadReadyList cpu) = 16%nat;
  qo_nodup : forall c p q, queue s c p = Some q -> NoDup q;
  qo_pnodup : NoDup (pendingList s);
  qo_ready : forall c p q id, queue s c p = Some q -> (id ∈ q <-> ready_at s c p id /\ h <> Some id);
  qo_pending : forall id, id ∈ pendingList s <->
    (exists t, threads s !! id = Some t /\ state t = NX_THREAD_READY /\ NX_MULTI_CORES_NR <= onCore t) /\ h <> Some id;
  qo_count : forall c cpu, zlookup (cpuArray s) c = Some cpu -> threadCount cpu = Z.of_nat (total (threadReadyList cpu));
  qo_pcount : pendingThreadCount s = Z.of_nat (length (pendingList s));
  qo_threads : forall id t, threads s !! id = Some t -> id <> 0 /\ thread_ok t
}.

Lemma total_insert (qs : list (list Z)) (i : nat) q q' :
  qs !! i = Some q -> (total (<[i := q']> qs) + length q = total qs + length q')%nat.
Proof.
  revert i. induction qs as [|a qs IH]; intros [|i] Hi; try done.
  - injection Hi as ->. change (<[O := q']> (q :: qs)) with (q' :: qs). cbn [total foldr]. lia.
  - change (<[S i := q']> (a :: qs)) with (a :: <[i := q']> qs). specialize (IH i Hi).
    unfold total in *. cbn [foldr]. lia.
Qed.

Lemma zlookup_range {A} (l : list A) i : 0 <= i < Z.of_nat (length l) -> is_Some (zlookup l i).
Proof. intros Hi. unfold zlookup. rewrite (proj2 (Z.leb_le _ _)) by lia. apply lookup_lt_is_Some. lia. Qed.

Lemma zlookup_lt {A} (l : list A) i x : zlookup l i = Some x -> 0 <= i < Z.of_nat (length l).
Proof. intros [Hi Hl]%zlookup_Some. apply lookup_lt_Some in Hl. lia. Qed.

Lemma CpuGetIndex_spec s h c : queues_ok s h -> 0 <= c < NX_MULTI_CORES_NR ->
  exists cpu, NX_CpuGetIndex NX_MULTI_CORES_NR s c = Some cpu /\ zlookup (cpuArray s) c = Some cpu.
Proof.
  intros Hok Hc. destruct (zlookup_range (cpuArray s) c) as [cpu Hcpu]; [rewrite (qo_cores s h Hok); lia|].
  exists cpu. unfold NX_CpuGetIndex. by rewrite (proj2 (Z.ltb_lt _ _)), assert_true by lia.
Qed.

Lemma queue_Some s h c p cpu : queues_ok s h -> zlookup (cpuArray s) c = Some cpu -> 0 <= p < 16 ->
  exists q, queue s c p = Some q /\ zlookup (threadReadyList cpu) p = Some q.
Proof.
  intros Hok Hcpu Hp. destruct (zlookup_range (threadReadyList cpu) p) as [q Hq].
  { rewrite (qo_levels s h Hok c cpu Hcpu). lia. }
  exists q. unfold queue. rewrite Hcpu, Some_bind. done.
Qed.

Lemma queue_range s h c p q : queues_ok s h -> queue s c p = Some q -> 0 <= c < NX_MULTI_CORES_NR /\ 0 <= p < 16.
Proof.
  unfold queue. intros Hok (cpu & Hcpu & Hq)%bind_Some. pose proof (zlookup_lt _ _ _ Hcpu). rewrite (qo_cores s h Hok) in *.
  apply zlookup_lt in Hq. rewrite (qo_levels s h Hok c cpu Hcpu) in Hq. lia.
Qed.

(** ** Replacing one queue *)
Lemma put_queue_lookup s c cpu p q n c' : zlookup (cpuArray s) c = Some cpu -> 0 <= c' ->
  zlookup (cpuArray (put_queue s c cpu p q n)) c' =
  if decide (c' = c) then Some (with_lists cpu (zinsert (threadReadyList cpu) p q) n) else zlookup (cpuArray s) c'.
Proof. intros Hcpu Hc'. cbn [put_queue upd_cpu with_cpus cpuArray]. apply zlookup_zinsert; [by apply zlookup_lt in Hcpu|done]. Qed.

Lemma put_queue_queue s c cpu p q q0 n c' p' :
  zlookup (cpuArray s) c = Some cpu -> zlookup (threadReadyList cpu) p = Some q0 -> 
  queue (put_queue s c cpu p q n) c' p' = if decide (c' = c /\ p' = p) then Some q else queue s c' p'.
Proof.
  intros Hcpu Hq. unfold queue. destruct (decide (0 <= c')) as [Hc'|Hc'].
  - rewrite (put_queue_lookup _ _ _ _ _ _ _ Hcpu Hc'). destruct (decide (c' = c)) as [->|Hne].
    + rewrite Some_bind, Hcpu, Some_bind. cbn [with_lists threadReadyList]. destruct (decide (0 <= p')) as [Hp'|Hp'].
      * rewrite zlookup_zinsert by (done || by apply zlookup_lt in Hq). repeat case_decide; try done; naive_solver.
      * unfold zlookup. rewrite (proj2 (Z.leb_gt _ _)) by lia. apply zlookup_lt in Hq. by rewrite decide_False by lia.
    + by rewrite decide_False by naive_solver.
  - apply zlookup_lt in Hcpu. unfold zlookup. rewrite (proj2 (Z.leb_gt 0 c')) by lia. by rewrite decide_False by lia.
Qed.

Lemma cores_upd_cpu s c cpu cpu' :
  zlookup (cpuArray s) c = Some cpu -> threadRunning cpu' = threadRunning cpu -> idleThread cpu' = idleThread cpu ->
  cores (upd_cpu s c cpu') = cores s.
Proof.
  intros [_ Hc]%zlookup_Some Hr Hi. unfold cores, upd_cpu, zinsert. cbn [with_cpus cpuArray].
  rewrite list_fmap_insert, Hr, Hi. apply list_insert_id. by rewrite list_lookup_fmap, Hc.
Qed.

Lemma put_queue_frame s c cpu p q n : zlookup (cpuArray s) c = Some cpu -> frame s (put_queue s c cpu p q n).
Proof. intros Hc. split; try done. by apply (cores_upd_cpu s c cpu). Qed.

Lemma put_queue_ok s h h' c cpu p q q' n :
  queues_ok s h -> zlookup (cpuArray s) c = Some cpu -> zlookup (threadReadyList cpu) p = Some q ->
  NoDup q' -> n = threadCount cpu + Z.of_nat (length q') - Z.of_nat (length q) ->
  (forall id, id ∈ q' <-> ready_at s c p id /\ h' <> Some id) ->
  (forall id, ~ ready_at s c p id -> (h <> Some id <-> h' <> Some id)) ->
  queues_ok (put_queue s c cpu p q' n) h'.
Proof.
  intros Hok Hcpu Hq Hnd Hn Hin Hh. pose proof Hok as [Hcores Hlev Hqnd Hpnd Hready Hpend Hcnt Hpcnt Hthr].
  pose proof (zlookup_lt _ _ _ Hcpu) as Hc. split; try done.
  - cbn. by rewrite length_zinsert.
  - intros c' cpu' Hl. pose proof (zlookup_lt _ _ _ Hl). rewrite (put_queue_lookup _ _ _ _ _ _ _ Hcpu) in Hl by lia.
    case_decide; [|by apply (Hlev c')]. injection Hl as <-. cbn. rewrite length_zinsert. by apply (Hlev c).
  - intros c' p' q0. rewrite (put_queue_queue _ _ _ _ _ q) by done. case_decide; [by intros [= <-]|apply Hqnd].
  - intros c' p' q0 id. rewrite (put_queue_queue _ _ _ _ _ q) by done. case_decide as Hd.
    + intros [= <-]. destruct Hd as [-> ->]. apply Hin.
    + intros Hq0. rewrite (Hready c' p' q0 id Hq0). change (ready_at (put_queue s c cpu p q' n) c' p' id) with (ready_at s c' p' id).
      split; intros [Hr Hne]; (split; [done|]); (apply (Hh id); [|done]); intros (t2 & ? & ? & ? & ?);
        destruct Hr as (t1 & ? & ? & ? & ?); apply Hd; split; congruence.
  - intros id. cbn. rewrite Hpend.
    split; intros [Hr Hne]; (split; [done|]); (apply (Hh id); [|done]); intros (t2 & ? & ? & ? & ?);
      destruct Hr as (t1 & ? & ? & ?); assert (t1 = t2) as -> by congruence; lia.
  - intros c' cpu' Hl. pose proof (zlookup_lt _ _ _ Hl). rewrite (put_queue_lookup _ _ _ _ _ _ _ Hcpu) in Hl by lia.
    case_decide; [|by apply (Hcnt c')]. injection Hl as <-. cbn [with_lists threadCount threadReadyList].
    apply zlookup_Some in Hq as [Hp Hq]. pose proof (total_insert _ _ _ q' Hq). unfold zinsert.
    pose proof (Hcnt c cpu Hcpu). lia.
Qed.

(** ** Taking a thread off its queue *)
Lemma map_at {A} (f : A -> A) (l : list A) (i : nat) x :
  l !! i = Some x -> (forall j y, l !! j = Some y -> j <> i -> f y = y) -> map f l = <[i := f x]> l.
Proof.
  intros Hi Hf. apply list_eq. intros j. change (map f l) with (f <$> l). rewrite list_lookup_fmap. destruct (decide (j = i)) as [->|Hne].
  - rewrite Hi. cbn. symmetry. apply list_lookup_insert_eq. by apply lookup_lt_Some in Hi.
  - rewrite list_lookup_insert_ne by done. destruct (l !! j) as [y|] eqn:Hj; cbn; [|done]. by rewrite (Hf j y).
Qed.

Lemma cpu_eta (cpu : NX_Cpu) : with_lists cpu (threadReadyList cpu) (threadCount cpu) = cpu.
Proof. by destruct cpu. Qed.

Lemma unqueued_map s h c p id c' cpu' :
  queues_ok s h -> ready_at s c p id -> zlookup (cpuArray s) c' = Some cpu' -> c' <> c ->
  map (list_del id) (threadReadyList cpu') = threadReadyList cpu'.
Proof.
  intros Hok (t & Ht & _ & Hc & _) Hcpu' Hne. rewrite <- (map_id (threadReadyList cpu')) at 2.
  apply map_ext_in. intros q Hq%list_elem_of_In. apply list_del_notin. intros Hid.
  apply list_elem_of_lookup in Hq as [j Hj].
  assert (Hqq : queue s c' (Z.of_nat j) = Some q).
  { unfold queue. rewrite Hcpu', Some_bind. apply zlookup_Some. rewrite Nat2Z.id. split; [lia|done]. }
  apply (qo_ready s h Hok _ _ _ id Hqq) in Hid as [(t' & Ht' & _ & Hc' & _) _]. congruence.
Qed.

Lemma list_unlink_cpu s h c cpu p q id :
  queues_ok s h -> zlookup (cpuArray s) c = Some cpu -> zlookup (threadReadyList cpu) p = Some q -> id ∈ q ->
  list_unlink s id = Some (put_queue s c cpu p (list_del id q) (threadCount cpu)).
Proof.
  intros Hok Hcpu Hq Hid. pose proof Hok as [Hcores Hlev Hqnd Hpnd Hready Hpend Hcnt Hpcnt Hthr].
  assert (Hqq : queue s c p = Some q) by (unfold queue; rewrite Hcpu, Some_bind; done).
  pose proof (proj1 (Hready c p q id Hqq) Hid) as [Hr Hh]. pose proof Hr as (t & Ht & Hst & Htc & Htp).
  assert (Hnp : id ∉ pendingList s).
  { intros [(t' & Ht' & _ & Hge) _]%Hpend. apply zlookup_lt in Hcpu. assert (t' = t) as -> by congruence. lia. }
  pose proof Hcpu as [Hc0 Hcl]%zlookup_Some. pose proof Hq as [Hp0 Hpl]%zlookup_Some.
  unfold list_unlink. assert (list_linked s id = true) as ->.
  { unfold list_linked, cpu_queued. apply orb_true_iff. right. apply existsb_exists. exists cpu.
    split; [by apply list_elem_of_In, list_elem_of_lookup_2 with (Z.to_nat c)|].
    apply existsb_exists. exists q. split; [by apply list_elem_of_In, list_elem_of_lookup_2 with (Z.to_nat p)|].
    by apply bool_decide_eq_true. }
  rewrite assert_true, (list_del_notin _ _ Hnp). f_equal. unfold put_queue, upd_cpu, with_pending, with_cpus. cbn. f_equal.
  rewrite (map_at _ (cpuArray s) (Z.to_nat c) cpu Hcl).
  - unfold zinsert. do 2 f_equal. apply map_at with (x := q); [done|]. intros j q' Hj Hne. apply list_del_notin. intros Hid'.
    assert (Hqq' : queue s c (Z.of_nat j) = Some q').
    { unfold queue. rewrite Hcpu, Some_bind. apply zlookup_Some. rewrite Nat2Z.id. split; [lia|done]. }
    apply (Hready _ _ _ id Hqq') in Hid' as [(t' & Ht' & _ & _ & Hp') _]. apply Hne. assert (t' = t) as -> by congruence. lia.
  - intros j cpu' Hj Hne. rewrite (unqueued_map s h c p id (Z.of_nat j) cpu' Hok Hr); [apply cpu_eta| |lia].
    apply zlookup_Some. rewrite Nat2Z.id. split; [lia|done].
Qed.

Lemma list_unlink_pending s h id : queues_ok s h -> id ∈ pendingList s ->
  list_unlink s id = Some (with_pending s (list_del id (pendingList s)) (pendingThreadCount s)).
Proof.
  intros Hok Hid. pose proof (proj1 (qo_pending s h Hok id) Hid) as [(t & Ht & Hst & Hge) Hh].
  unfold list_unlink, list_linked. rewrite bool_decide_eq_true_2 by done. rewrite orb_true_l, assert_true. f_equal.
  unfold with_pending, with_cpus. cbn. f_equal. rewrite <- (map_id (cpuArray s)) at 2. apply map_ext_in.
  intros cpu Hcpu%list_elem_of_In. apply list_elem_of_lookup in Hcpu as [j Hj].
  assert (Hz : zlookup (cpuArray s) (Z.of_nat j) = Some cpu) by (apply zlookup_Some; rewrite Nat2Z.id; split; [lia|done]).
  assert (Hne : Z.of_nat j <> onCore t).
  { apply zlookup_lt in Hz. rewrite (qo_cores s h Hok) in Hz. lia. }
  rewrite (unqueued_map s h (onCore t) (priority t) id (Z.of_nat j) cpu Hok); [apply cpu_eta|by exists t|done|done].
Qed.

(** ** Threads in flight *)
Lemma hole_open s id t : queues_ok s None -> threads s !! id = Some t -> state t <> NX_THREAD_READY -> queues_ok s (Some id).
Proof.
  intros [Hcores Hlev Hqnd Hpnd Hready Hpend Hcnt Hpcnt Hthr] Ht Hst. split; try done.
  - intros c p q j Hq. rewrite (Hready c p q j Hq). split; intros [Hr _]; (split; [done|]); [|done].
    intros [= ->]. destruct Hr as (t' & ? & ? & _). congruence.
  - intros j. rewrite Hpend. split; intros [Hr _]; (split; [done|]); [|done].
    intros [= ->]. destruct Hr as (t' & ? & ? & _). congruence.
Qed.

Lemma hole_close s id t : queues_ok s (Some id) -> threads s !! id = Some t -> state t <> NX_THREAD_READY -> queues_ok s None.
Proof.
  intros [Hcores Hlev Hqnd Hpnd Hready Hpend Hcnt Hpcnt Hthr] Ht Hst. split; try done.
  - intros c p q j Hq. rewrite (Hready c p q j Hq). split; intros [Hr _]; (split; [done|]); [done|].
    intros [= ->]. destruct Hr as (t' & ? & ? & _). congruence.
  - intros j. rewrite Hpend. split; intros [Hr _]; (split; [done|]); [done|].
    intros [= ->]. destruct Hr as (t' & ? & ? & _). congruence.
Qed.

(** A thread in flight, or a field no queue depends on, may change. *)
Lemma upd_ok s h id t t' :
  queues_ok s h -> threads s !! id = Some t -> thread_ok t' ->
  h = Some id \/ (state t' = state t /\ onCore t' = onCore t /\ priority t' = priority t) \/
    (state t <> NX_THREAD_READY /\ state t' <> NX_THREAD_READY) ->
  queues_ok (with_threads s (<[id := t']> (threads s))) h.
Proof.
  intros [Hcores Hlev Hqnd Hpnd Hready Hpend Hcnt Hpcnt Hthr] Ht Hok' Hcase.
  assert (Hsame : forall (P : NX_Thread -> Prop) j,
    (forall u u', state u = state u' -> onCore u = onCore u' -> priority u = priority u' -> P u -> P u') ->
    ((exists u, <[id := t']> (threads s) !! j = Some u /\ state u = NX_THREAD_READY /\ P u) /\ h <> Some j <->
     (exists u, threads s !! j = Some u /\ state u = NX_THREAD_READY /\ P u) /\ h <> Some j)).
  { intros P j HP. destruct (decide (j = id)) as [->|Hne]; [|by rewrite lookup_insert_ne].
    rewrite lookup_insert_eq, Ht. destruct Hcase as [->|[(E1 & E2 & E3)|(E1 & E2)]]; [naive_solver|..].
    - split; intros [(u & [= <-] & Hst & Hu) Hh]; (split; [|done]); eexists; (split; [done|]); (split; [congruence|]);
        revert Hu; apply HP; congruence.
    - split; intros [(u & [= <-] & Hst & Hu) Hh]; congruence. }
  split; try done.
  - intros c p q j Hq. change (queue (with_threads s _) c p) with (queue s c p) in Hq. rewrite (Hready c p q j Hq).
    symmetry. apply (Hsame (fun u => onCore u = c /\ priority u = p)). intros u u' _ -> ->. done.
  - intros j. cbn. rewrite Hpend. symmetry. apply (Hsame (fun u => NX_MULTI_CORES_NR <= onCore u)). intros u u' _ -> _. done.
  - intros j u. cbn. destruct (decide (j = id)) as [->|Hne]; [|rewrite lookup_insert_ne by done; apply Hthr].
    rewrite lookup_insert_eq. intros [= <-]. split; [by apply (Hthr id t)|done].
Qed.

Lemma with_threads_frame s m : frame s (with_threads s m).
Proof. done. Qed.

Lemma with_pending_frame s l n : frame s (with_pending s l n).
Proof. done. Qed.

Lemma pending_ok s h h' l :
  queues_ok s h -> NoDup l ->
  (forall id, id ∈ l <-> (exists t, threads s !! id = Some t /\ state t = NX_THREAD_READY /\ NX_MULTI_CORES_NR <= onCore t) /\ h' <> Some id) ->
  (forall id, (exists t, threads s !! id = Some t /\ onCore t < NX_MULTI_CORES_NR) -> (h <> Some id <-> h' <> Some id)) ->
  queues_ok (with_pending s l (Z.of_nat (length l))) h'.
Proof.
  intros [Hcores Hlev Hqnd Hpnd Hready Hpend Hcnt Hpcnt Hthr] Hnd Hin Hh. split; try done.
  intros c p q id Hq. change (queue (with_pending s _ _) c p) with (queue s c p) in Hq.
  assert (Hc : c < NX_MULTI_CORES_NR).
  { unfold queue in Hq. apply bind_Some in Hq as (cpu & Hcpu & _). apply zlookup_lt in Hcpu. lia. }
  rewrite (Hready c p q id Hq). change (ready_at (with_pending s _ _) c p id) with (ready_at s c p id).
  split; intros [Hr Hne]; (split; [done|]); (apply (Hh id); [|done]); destruct Hr as (t & ? & ? & ? & ?); exists t; (split; [done|lia]).
Qed.

(** ** The operations on the queues *)
Definition placed (flags id : Z) q : list Z := if nz (Z.land flags NX_SCHED_HEAD) then id :: q else q ++ [id].

Lemma NoDup_placed flags id q : NoDup q -> id ∉ q -> NoDup (placed flags id q).
Proof.
  intros Hnd Hid. unfold placed. case_match; [by constructor|]. rewrite Permutation_app_comm. by constructor.
Qed.

Lemma elem_of_placed flags id q j : j ∈ placed flags id q <-> j = id \/ j ∈ q.
Proof. unfold placed. case_match; set_solver. Qed.

Lemma length_placed flags id q : length (placed flags id q) = S (length q).
Proof. unfold placed. case_match; [done|]. rewrite length_app. cbn. lia. Qed.

Lemma put_queue_get s c cpu p q n m : zlookup (cpuArray s) c = Some cpu -> c < NX_MULTI_CORES_NR ->
  NX_CpuGetIndex NX_MULTI_CORES_NR (with_threads (put_queue s c cpu p q n) m) c =
  Some (with_lists cpu (zinsert (threadReadyList cpu) p q) n).
Proof.
  intros Hcpu Hc. unfold NX_CpuGetIndex. rewrite (proj2 (Z.ltb_lt _ _)), assert_true by done.
  change (cpuArray (with_threads ?s _)) with (cpuArray s). rewrite (put_queue_lookup _ _ _ _ _ _ _ Hcpu).
  - by rewrite decide_True.
  - apply zlookup_lt in Hcpu. lia.
Qed.

Lemma put_queue_count s c cpu p q n m :
  let cpu' := with_lists cpu (zinsert (threadReadyList cpu) p q) n in
  upd_cpu (with_threads (put_queue s c cpu p q n) m) c (with_lists cpu' (threadReadyList cpu') (threadCount cpu' - 1)) =
  with_threads (put_queue s c cpu p q (n - 1)) m.
Proof.
  unfold put_queue, upd_cpu, with_threads, with_cpus, with_lists, zinsert. cbn. by rewrite list_insert_insert_eq.
Qed.

Lemma thread_prio t : thread_ok t -> 0 <= priority t < 16.
Proof.
  intros [[Hf Hp] _]. change NX_THREAD_MAX_PRIORITY_NR with 16 in *. unfold NX_THREAD_PRIORITY_LOW, NX_THREAD_PRIORITY_HIGH in *.
  destruct (_ && _); lia.
Qed.

Lemma prio_check t : thread_ok t -> (priority t >=? 0) && (priority t <? NX_THREAD_MAX_PRIORITY_NR) = true.
Proof.
  intros Ht%thread_prio. change NX_THREAD_MAX_PRIORITY_NR with 16. rewrite Z.geb_leb.
  destruct (Z.leb_spec 0 (priority t)), (Z.ltb_spec (priority t) 16); cbn; (done || lia).
Qed.

Lemma enqueue_spec s id t flags :
  queues_ok s (Some id) -> threads s !! id = Some t -> state t = NX_THREAD_READY -> onCore t < NX_MULTI_CORES_NR ->
  exists s' q, NX_SMP_EnqueueThreadIrqDisabled NX_MULTI_CORES_NR s (onCore t) id flags = Some s' /\ queues_ok s' None /\
    frame s s' /\ threads s' = threads s /\ pendingList s' = pendingList s /\
    queue s (onCore t) (priority t) = Some q /\ queue s' (onCore t) (priority t) = Some (placed flags id q).
Proof.
  intros Hok Ht Hst Hc. destruct (qo_threads s _ Hok id t Ht) as [Hid Htok]. pose proof (thread_prio t Htok) as Hp.
  destruct Htok as [Hpr Hc0]. destruct (CpuGetIndex_spec s _ (onCore t) Hok) as (cpu & Hget & Hcpu); [lia|].
  destruct (queue_Some s _ (onCore t) (priority t) cpu Hok Hcpu Hp) as (q & Hq & Hql).
  assert (Hr : ready_at s (onCore t) (priority t) id) by (by exists t).
  assert (Hni : id ∉ q) by (intros [_ Hh]%(qo_ready s _ Hok _ _ _ _ Hq); congruence).
  exists (put_queue s (onCore t) cpu (priority t) (placed flags id q) (threadCount cpu + 1)), q.
  split.
  { unfold NX_SMP_EnqueueThreadIrqDisabled. rewrite Ht, Some_bind, prio_check, assert_true by done.
    by rewrite Hget, Some_bind, Hql, Some_bind. }
  split; [|split; [by apply put_queue_frame|split; [done|split; [done|split; [done|]]]]].
  - apply put_queue_ok with (Some id) q; try done.
    + by apply NoDup_placed; [apply (qo_nodup s _ Hok _ _ _ Hq)|].
    + rewrite length_placed. lia.
    + intros j. rewrite elem_of_placed, (qo_ready s _ Hok _ _ _ j Hq). split.
      * intros [->|[? _]]; done.
      * intros [Hj _]. destruct (decide (j = id)) as [->|Hne]; [by left|right]. split; [done|congruence].
    + intros j Hj. split; [done|]. intros _ [= ->]. done.
  - rewrite (put_queue_queue _ _ _ _ _ q) by done. by rewrite decide_True.
Qed.

(** What [NX_ThreadReadyRunLocked] does to the queues. *)
Definition readied s s' t (flags id : Z) : Prop :=
  if onCore t <? NX_MULTI_CORES_NR then
    pendingList s' = pendingList s /\
    exists q, queue s (onCore t) (priority t) = Some q /\ queue s' (onCore t) (priority t) = Some (placed flags id q)
  else pendingList s' = placed flags id (pendingList s).

Lemma add_pending_ok s id t flags :
  queues_ok s (Some id) -> threads s !! id = Some t -> state t = NX_THREAD_READY -> NX_MULTI_CORES_NR <= onCore t ->
  queues_ok (NX_ThreadAddToGlobalPendingList s id flags) None.
Proof.
  intros Hok Ht Hst Hc. unfold NX_ThreadAddToGlobalPendingList. fold (placed flags id (pendingList s)).
  assert (pendingThreadCount s + 1 = Z.of_nat (length (placed flags id (pendingList s)))) as ->
    by (rewrite length_placed, (qo_pcount s _ Hok); lia).
  assert (Hni : id ∉ pendingList s) by (intros [_ Hh]%(qo_pending s _ Hok); congruence).
  apply pending_ok with (Some id); [done|by apply NoDup_placed; [apply (qo_pnodup s _ Hok)|]|..].
  - intros j. rewrite elem_of_placed, (qo_pending s _ Hok j). split.
    + intros [->|[? _]]; [|done]. split; [by exists t|done].
    + intros [Hj _]. destruct (decide (j = id)) as [->|Hne]; [by left|right]. split; [done|congruence].
  - intros j (u & Hu & Hlt). split; [done|]. intros _ [= ->]. assert (u = t) as -> by congruence. lia.
Qed.

Lemma ready_run_spec s id t flags :
  queues_ok s (Some id) -> threads s !! id = Some t ->
  exists s', NX_ThreadReadyRunLocked NX_MULTI_CORES_NR s id flags = Some s' /\ queues_ok s' None /\ frame s s' /\
    threads s' = <[id := set_state NX_THREAD_READY t]> (threads s) /\ readied s s' t flags id.
Proof.
  intros Hok Ht. destruct (qo_threads s _ Hok id t Ht) as [Hid Htok].
  set (t' := set_state NX_THREAD_READY t). set (s1 := with_threads s (<[id := t']> (threads s))).
  assert (Ht1 : threads s1 !! id = Some t') by apply lookup_insert_eq.
  assert (Hok1 : queues_ok s1 (Some id)) by (apply upd_ok with t; try done; by left).
  unfold NX_ThreadReadyRunLocked, upd_thread. rewrite Ht, !Some_bind. fold t'. fold s1. rewrite Ht1, Some_bind. unfold readied.
  change (onCore t') with (onCore t). destruct (Z.ltb_spec (onCore t) NX_MULTI_CORES_NR) as [Hlt|Hge].
  - destruct (enqueue_spec s1 id t' flags Hok1 Ht1) as (s' & q & Henq & Hok' & Hfr & Hth & Hpe & Hq & Hq'); [done|done|].
    exists s'. split; [exact Henq|]. split; [done|]. split; [by transitivity s1|]. split; [done|]. split; [done|]. by exists q.
  - exists (NX_ThreadAddToGlobalPendingList s1 id flags). split; [done|]. split; [by apply (add_pending_ok s1 id t')|]. done.
Qed.

(** Taking a ready thread off its core's queue. *)
Lemma take_ok s c cpu p q id :
  queues_ok s None -> zlookup (cpuArray s) c = Some cpu -> zlookup (threadReadyList cpu) p = Some q -> id ∈ q ->
  queues_ok (put_queue s c cpu p (list_del id q) (threadCount cpu - 1)) (Some id).
Proof.
  intros Hok Hcpu Hq Hid. assert (Hqq : queue s c p = Some q) by (unfold queue; rewrite Hcpu, Some_bind; done).
  pose proof (qo_nodup s _ Hok _ _ _ Hqq) as Hnd.
  apply put_queue_ok with None q; try done.
  - by apply NoDup_list_del.
  - rewrite (length_list_del id q Hnd Hid). lia.
  - intros j. rewrite elem_of_list_del, (qo_ready s _ Hok _ _ _ j Hqq). split; [intros [? [? _]]|intros [? ?]]; (split; [congruence|done]) || (split; [done|congruence]).
  - intros j Hj. split; [|done]. intros _ [= ->]. apply Hj. by apply (qo_ready s _ Hok _ _ _ j Hqq).
Qed.

Lemma take_pending_ok s id :
  queues_ok s None -> id ∈ pendingList s ->
  queues_ok (with_pending s (list_del id (pendingList s)) (pendingThreadCount s - 1)) (Some id).
Proof.
  intros Hok Hid. pose proof (length_list_del id _ (qo_pnodup s _ Hok) Hid) as Hlen.
  rewrite (qo_pcount s _ Hok). replace (_ - 1) with (Z.of_nat (length (list_del id (pendingList s)))) by lia.
  apply pending_ok with None; [done|by apply NoDup_list_del, (qo_pnodup s _ Hok)|..].
  - intros j. rewrite elem_of_list_del, (qo_pending s _ Hok j). split; [intros [? [? _]]|intros [? ?]]; (split; [congruence|done]) || (split; [done|congruence]).
  - intros j (t & Ht & Hlt). split; [|done]. intros _ [= ->].
    apply (qo_pending s _ Hok) in Hid as [(u & Hu & _ & Hge) _]. assert (u = t) as -> by congruence. lia.
Qed.

(** ** Choosing a thread *)
Lemma PickThread_loop_Some (n : nat) qs id : PickThread_loop n qs = Some id ->
  exists (i : nat) q, (i < n)%nat /\ qs !! i = Some (id :: q) /\ forall (j : nat) q', (i < j < n)%nat -> qs !! j = Some q' -> q' = [].
Proof.
  induction n as [|n IH]; [done|]. cbn [PickThread_loop]. intros Hp.
  destruct (qs !! n) as [[|j q]|] eqn:Hn.
  - destruct (IH Hp) as (p & q & ? & ? & Hall). exists p, q. split; [lia|]. split; [done|]. intros p' q' Hr Hq'.
    destruct (decide (p' = n)) as [->|]; [congruence|]. apply (Hall p'); [lia|done].
  - injection Hp as ->. exists n, q. split; [lia|]. split; [done|]. lia.
  - destruct (IH Hp) as (p & q & ? & ? & Hall). exists p, q. split; [lia|]. split; [done|]. intros p' q' Hr Hq'.
    destruct (decide (p' = n)) as [->|]; [congruence|]. apply (Hall p'); [lia|done].
Qed.

Lemma PickThread_loop_is_Some n qs (p : nat) q : (p < n)%nat -> qs !! p = Some q -> q <> [] -> is_Some (PickThread_loop n qs).
Proof.
  intros Hp Hq Hne. induction n as [|n IH]; [lia|]. cbn [PickThread_loop].
  destruct (decide (p = n)) as [->|]; [rewrite Hq; destruct q; [done|by eexists]|].
  destruct (qs !! n) as [[|]|]; [apply IH; lia|by eexists|apply IH; lia].
Qed.

Lemma LowerPriority_ok t : thread_ok t -> thread_ok (NX_ThreadLowerPriority t).
Proof.
  intros [[Hf Hp] Hc]. unfold NX_ThreadLowerPriority. rewrite Z.geb_leb. destruct (_ && _) eqn:E; [|split; [split; [done|by rewrite E]|done]].
  unfold NX_THREAD_PRIORITY_LOW, NX_THREAD_PRIORITY_HIGH in E, Hp.
  split; [|done]. split; [done|]. cbn [set_priority fixedPriority priority]. unfold NX_THREAD_PRIORITY_LOW, NX_THREAD_PRIORITY_HIGH. rewrite E.
  change NX_THREAD_MAX_PRIORITY_NR with 16 in *. rewrite u32_small by lia. destruct (Z.ltb_spec (priority t - 1) 1); lia.
Qed.

Lemma LowerPriority_fields t : state (NX_ThreadLowerPriority t) = state t /\ onCore (NX_ThreadLowerPriority t) = onCore t /\
  exists x, NX_ThreadLowerPriority t = set_priority x t.
Proof.
  unfold NX_ThreadLowerPriority. case_match; (split; [done|]; split; [done|]); [by eexists|].
  exists (priority t). by destruct t.
Qed.

(** [NX_SMP_PickThreadIrqDisabled] takes the first thread of the highest level. *)
Lemma pick_spec s c p0 q0 :
  queues_ok s None -> 0 <= c < NX_MULTI_CORES_NR -> queue s c p0 = Some q0 -> q0 <> [] ->
  exists s' id t q, NX_SMP_PickThreadIrqDisabled NX_MULTI_CORES_NR s c = Some (s', id) /\ queues_ok s' (Some id) /\ frame s s' /\
    threads s !! id = Some t /\ state t = NX_THREAD_READY /\ onCore t = c /\
    threads s' = <[id := NX_ThreadLowerPriority t]> (threads s) /\ queue s c (priority t) = Some (id :: q) /\
    (forall p q, priority t < p -> queue s c p = Some q -> q = []).
Proof.
  intros Hok Hc Hq0 Hne. destruct (CpuGetIndex_spec s _ c Hok Hc) as (cpu & Hget & Hcpu).
  destruct (queue_range s _ c p0 q0 Hok Hq0) as [_ Hp0].
  assert (Hz : forall p, queue s c p = zlookup (threadReadyList cpu) p) by (intros; unfold queue; by rewrite Hcpu).
  destruct (PickThread_loop_is_Some 16 (threadReadyList cpu) (Z.to_nat p0) q0) as [id Hpick]; [lia| |done|].
  { rewrite Hz in Hq0. by apply zlookup_Some in Hq0 as [_ ?]. }
  destruct (PickThread_loop_Some _ _ _ Hpick) as (p & q & Hp & Hq & Hall).
  assert (Hqz : zlookup (threadReadyList cpu) (Z.of_nat p) = Some (id :: q)) by (apply zlookup_Some; rewrite Nat2Z.id; split; [lia|done]).
  assert (Hin : id ∈ id :: q) by left.
  pose proof (proj1 (qo_ready s _ Hok c (Z.of_nat p) (id :: q) id ltac:(by rewrite Hz)) Hin) as [(t & Ht & Hst & Htc & Htp) _].
  set (q' := list_del id (id :: q)). set (s1 := put_queue s c cpu (Z.of_nat p) q' (threadCount cpu - 1)).
  set (m := <[id := NX_ThreadLowerPriority t]> (threads s)).
  assert (Hok1 : queues_ok s1 (Some id)) by (by apply take_ok).
  exists (with_threads s1 m), id, t, q. split; [|split; [|split; [|split; [done|split; [done|split; [done|split; [done|]]]]]]].
  - unfold NX_SMP_PickThreadIrqDisabled. rewrite Hget, Some_bind. change (Z.to_nat NX_THREAD_MAX_PRIORITY_NR) with 16%nat.
    rewrite Hpick, Some_bind, (list_unlink_cpu s None c cpu (Z.of_nat p) (id :: q) id), Some_bind by done.
    unfold upd_thread. change (threads (put_queue s c cpu ?p ?q ?n)) with (threads s). rewrite Ht, !Some_bind. fold q' m.
    rewrite put_queue_get, Some_bind by (done || lia). by rewrite put_queue_count.
  - apply (upd_ok s1 (Some id) id t); [done|done|by apply LowerPriority_ok, (qo_threads s _ Hok id)|by left].
  - transitivity s1; [by apply put_queue_frame|done].
  - rewrite Htp. split; [by rewrite Hz|]. intros p' q1 Hlt. rewrite Hz. intros Hq1. pose proof (zlookup_lt _ _ _ Hq1) as Hr.
    rewrite (qo_levels s _ Hok c cpu Hcpu) in Hr. apply zlookup_Some in Hq1 as [_ Hq1]. apply (Hall (Z.to_nat p')); [lia|done].
Qed.

Lemma NoAffinity_loop_Some (n : nat) s qs id : NoAffinity_loop NX_MULTI_CORES_NR n s qs = Some id ->
  exists (i : nat) q, (i < n)%nat /\ qs !! i = Some q /\ id ∈ q /\ no_affinity NX_MULTI_CORES_NR s id = true.
Proof.
  induction n as [|n IH]; [done|]. cbn [NoAffinity_loop]. intros Hp.
  destruct (list_find _ _) as [[i j]|] eqn:Hf.
  - injection Hp as ->. apply list_find_Some in Hf as (Hi & Hj & _). exists n. destruct (qs !! n) as [q|]; cbn in Hi; [|done].
    exists q. split; [lia|]. split; [done|]. split; [by apply list_elem_of_lookup_2 with i|done].
  - destruct (IH Hp) as (p & q & ? & ? & ? & ?). exists p, q. split; [lia|done].
Qed.

(** ** Balancing: at most one thread changes place. *)
Definition shifted s s' c : Prop :=
  threads s' = threads s \/
  exists id t core, threads s !! id = Some t /\ state t = NX_THREAD_READY /\ threads s' = <[id := set_onCore core t]> (threads s) /\
    ((NX_MULTI_CORES_NR <= onCore t /\ core = c) \/
     (onCore t = c /\ NX_MULTI_CORES_NR <= coreAffinity t /\ core = NX_MULTI_CORES_NR)).

Lemma ready_onCore t c : state t = NX_THREAD_READY -> set_state NX_THREAD_READY (set_onCore c t) = set_onCore c t.
Proof. intros <-. by destruct t. Qed.

Lemma pull_spec s c : queues_ok s None -> 0 <= c < NX_MULTI_CORES_NR ->
  exists s', ('(s, thread) ← NX_ThreadPickPendingList s;
     match thread with
     | Some id => s ← upd_thread s id (set_onCore c); NX_ThreadReadyRunLocked NX_MULTI_CORES_NR s id NX_SCHED_HEAD
     | None => Some s
     end) = Some s' /\ queues_ok s' None /\ frame s s' /\ shifted s s' c.
Proof.
  intros Hok Hc. unfold NX_ThreadPickPendingList. destruct (pendingList s) as [|id l] eqn:Hl.
  { rewrite Some_bind. exists s. split; [done|]. split; [done|]. split; [done|by left]. }
  assert (Hin : id ∈ pendingList s) by (rewrite Hl; left).
  pose proof (proj1 (qo_pending s _ Hok id) Hin) as [(t & Ht & Hst & Hge) _].
  rewrite (list_unlink_pending s None id Hok Hin), !Some_bind. cbv beta iota.
  change (with_pending (with_pending s ?a _) _ ?b) with (with_pending s (list_del id (pendingList s)) (pendingThreadCount s - 1)).
  pose proof (take_pending_ok s id Hok Hin) as Hok1. set (s1 := with_pending s _ _) in *.
  unfold upd_thread. change (threads s1) with (threads s). rewrite Ht, !Some_bind.
  set (s2 := with_threads s1 (<[id := set_onCore c t]> (threads s))).
  destruct (qo_threads s _ Hok id t Ht) as [Hid [Hpr _]].
  assert (Hok2 : queues_ok s2 (Some id)) by (apply (upd_ok s1 (Some id) id t); [done|done|split; [done|cbn; lia]|by left]).
  destruct (ready_run_spec s2 id (set_onCore c t) NX_SCHED_HEAD Hok2 (lookup_insert_eq _ _ _)) as (s' & Hrun & Hok' & Hfr & Hth & _).
  exists s'. split; [exact Hrun|]. split; [done|]. split; [by transitivity s2|]. right. exists id, t, c.
  rewrite Hth. unfold s2. cbn [with_threads threads]. rewrite ready_onCore, insert_insert_eq by done.
  split; [done|]. split; [done|]. split; [done|by left].
Qed.

Lemma push_spec s c : queues_ok s None -> 0 <= c < NX_MULTI_CORES_NR ->
  exists s', ('(s, thread) ← NX_SMP_DeququeNoAffinityThread NX_MULTI_CORES_NR s c;
     match thread with
     | Some id => s ← upd_thread s id (set_onCore NX_MULTI_CORES_NR); Some (NX_ThreadEnqueuePendingList s id)
     | None => Some s
     end) = Some s' /\ queues_ok s' None /\ frame s s' /\ shifted s s' c.
Proof.
  intros Hok Hc. destruct (CpuGetIndex_spec s _ c Hok Hc) as (cpu & Hget & Hcpu).
  unfold NX_SMP_DeququeNoAffinityThread. rewrite Hget, Some_bind.
  destruct (NoAffinity_loop _ _ s (threadReadyList cpu)) as [id|] eqn:Hloop.
  2:{ rewrite Some_bind. exists s. split; [done|]. split; [done|]. split; [done|by left]. }
  destruct (NoAffinity_loop_Some _ _ _ _ Hloop) as (p & q & Hp & Hq & Hin & Haff).
  assert (Hqz : zlookup (threadReadyList cpu) (Z.of_nat p) = Some q) by (apply zlookup_Some; rewrite Nat2Z.id; split; [lia|done]).
  pose proof (proj1 (qo_ready s _ Hok c (Z.of_nat p) q id ltac:(unfold queue; rewrite Hcpu, Some_bind; done)) Hin) as [(t & Ht & Hst & Htc & Htp) _].
  rewrite (list_unlink_cpu s None c cpu (Z.of_nat p) q id), Some_bind by done.
  change (put_queue s c cpu (Z.of_nat p) (list_del id q) (threadCount cpu)) with
    (with_threads (put_queue s c cpu (Z.of_nat p) (list_del id q) (threadCount cpu)) (threads s)).
  rewrite put_queue_get, !Some_bind by (done || lia). cbv beta iota.
  rewrite (put_queue_count s c cpu _ _ (threadCount cpu) (threads s)). set (s1 := put_queue s c cpu (Z.of_nat p) (list_del id q) (threadCount cpu - 1)).
  assert (Hok1 : queues_ok s1 (Some id)) by (by apply take_ok).
  unfold upd_thread. cbn [with_threads threads]. rewrite Ht, !Some_bind.
  set (s2 := with_threads s1 (<[id := set_onCore NX_MULTI_CORES_NR t]> (threads s))).
  destruct (qo_threads s _ Hok id t Ht) as [Hid [Hpr _]].
  assert (Hok2 : queues_ok s2 (Some id)) by (apply (upd_ok s1 (Some id) id t); [done|done|split; [done|cbn; lia]|by left]).
  exists (NX_ThreadEnqueuePendingList s2 id). split; [done|]. split; [|split].
  - apply (add_pending_ok s2 id (set_onCore NX_MULTI_CORES_NR t)); [done|apply lookup_insert_eq|done|done].
  - transitivity s1; [by apply put_queue_frame|done].
  - right. exists id, t, NX_MULTI_CORES_NR. split; [done|]. split; [done|]. split; [done|]. right. split; [done|]. split; [|done].
    unfold no_affinity in Haff. rewrite Ht in Haff. rewrite Z.geb_leb in Haff. by apply Z.leb_le in Haff.
Qed.

Lemma PullOrPush_spec s c : queues_ok s None -> 0 <= c < NX_MULTI_CORES_NR -> gActivedCoreCount s <> 0 ->
  exists s', PullOrPushThread NX_MULTI_CORES_NR s c = Some s' /\ queues_ok s' None /\ frame s s' /\ shifted s s' c.
Proof.
  intros Hok Hc Hact. destruct (CpuGetIndex_spec s _ c Hok Hc) as (cpu & Hget & Hcpu).
  unfold PullOrPushThread. rewrite Hget, Some_bind. unfold nz. rewrite (proj2 (Z.eqb_neq _ _)), assert_true by done.
  rewrite Z.gtb_ltb. set (n := u64 (threadCount cpu)). set (k := u64 (Z.quot _ _ + 1)).
  destruct (Z.ltb_spec n k), (Z.ltb_spec k n); [lia|..].
  - destruct (pull_spec s c Hok Hc) as (s' & Hpull & Hok' & Hfr & Hsh). rewrite Hpull, Some_bind. by exists s'.
  - rewrite Some_bind. apply (push_spec s c Hok Hc).
  - rewrite Some_bind. exists s. split; [done|]. split; [done|]. split; [done|by left].
Qed.

(** ** What runs where *)
Definition current s c id : Prop := exists i, zlookup (cores s) c = Some (Some id, i).

(** [h] names the core, if any, that is between two threads. *)
Record run_ok s h : Prop := {
  ro_active : gActivedCoreCount s <> 0;
  ro_current : forall c id, current s c id -> h <> Some c ->
    exists t, threads s !! id = Some t /\ state t = NX_THREAD_RUNNING /\ onCore t = c;
  ro_running : forall id t, threads s !! id = Some t -> state t = NX_THREAD_RUNNING -> h <> Some (onCore t) /\ current s (onCore t) id;
  ro_idle : forall c r i, zlookup (cores s) c = Some (r, Some i) -> exists t, threads s !! i = Some t /\
    (state t = NX_THREAD_READY \/ state t = NX_THREAD_RUNNING) /\ onCore t = c /\ coreAffinity t = c /\ fixedPriority t = 0;
  ro_has_idle : forall c r i, zlookup (cores s) c = Some (Some r, i) -> i <> None
}.

(** What scheduling may change of a thread. *)
Definition resched t t' : Prop := exists st p c, t' = set_state st (set_priority p (set_onCore c t)) /\
  (st = state t \/ (state t = NX_THREAD_READY /\ st = NX_THREAD_RUNNING)).

Definition threads_le (m m' : gmap Z NX_Thread) : Prop := forall id, option_Forall2 resched (m !! id) (m' !! id).

#[export] Instance resched_refl : Reflexive resched.
Proof. intros t. exists (state t), (priority t), (onCore t). split; [by destruct t|by left]. Qed.

#[export] Instance resched_trans : Transitive resched.
Proof.
  intros t1 t2 t3 (st & p & c & -> & H1) (st' & p' & c' & -> & H2). exists st', p', c'. split; [done|].
  cbn in H2. naive_solver.
Qed.

#[export] Instance threads_le_refl : Reflexive threads_le.
Proof. intros m id. destruct (m !! id); constructor. reflexivity. Qed.

#[export] Instance threads_le_trans : Transitive threads_le.
Proof.
  intros m1 m2 m3 H1 H2 id. specialize (H1 id). specialize (H2 id). destruct H1; inversion H2; subst; constructor.
  etransitivity; eassumption.
Qed.

Lemma threads_le_insert m id t t' : m !! id = Some t -> resched t t' -> threads_le m (<[id := t']> m).
Proof.
  intros Ht Hr j. destruct (decide (j = id)) as [->|Hne].
  - rewrite Ht, lookup_insert_eq. by constructor.
  - rewrite lookup_insert_ne by done. destruct (m !! j); constructor. reflexivity.
Qed.

Lemma cores_lookup s c cpu : zlookup (cpuArray s) c = Some cpu -> zlookup (cores s) c = Some (threadRunning cpu, idleThread cpu).
Proof. intros [Hc Hl]%zlookup_Some. apply zlookup_Some. split; [done|]. unfold cores. by rewrite list_lookup_fmap, Hl. Qed.

Lemma cores_running s c cpu r c' : zlookup (cpuArray s) c = Some cpu -> 0 <= c' ->
  zlookup (cores (upd_cpu s c (with_running cpu r))) c' = if decide (c' = c) then Some (r, idleThread cpu) else zlookup (cores s) c'.
Proof.
  intros Hcpu Hc'. pose proof (zlookup_lt _ _ _ Hcpu) as Hc.
  assert (cores (upd_cpu s c (with_running cpu r)) = zinsert (cores s) c (r, idleThread cpu)) as ->.
  { unfold cores, upd_cpu, zinsert. cbn [with_cpus cpuArray]. by rewrite list_fmap_insert. }
  apply zlookup_zinsert; [|done]. unfold cores. by rewrite length_fmap.
Qed.

Lemma cpu_same_queues s h c cpu cpu' :
  queues_ok s h -> zlookup (cpuArray s) c = Some cpu -> threadReadyList cpu' = threadReadyList cpu -> threadCount cpu' = threadCount cpu ->
  queues_ok (upd_cpu s c cpu') h.
Proof.
  intros [Hcores Hlev Hqnd Hpnd Hready Hpend Hcnt Hpcnt Hthr] Hcpu Hl Hn. pose proof (zlookup_lt _ _ _ Hcpu) as Hc.
  assert (Hlook : forall c' cpu1, zlookup (cpuArray (upd_cpu s c cpu')) c' = Some cpu1 ->
    exists cpu2, zlookup (cpuArray s) c' = Some cpu2 /\ threadReadyList cpu1 = threadReadyList cpu2 /\ threadCount cpu1 = threadCount cpu2).
  { intros c' cpu1 H1. pose proof (zlookup_lt _ _ _ H1). cbn in H1. rewrite zlookup_zinsert in H1 by (done || lia).
    case_decide; [injection H1 as <-; subst; by exists cpu|by exists cpu1]. }
  assert (Hq : forall c' p' q, queue (upd_cpu s c cpu') c' p' = Some q -> queue s c' p' = Some q).
  { unfold queue. intros c' p' q (cpu1 & H1 & H2)%bind_Some. destruct (Hlook c' cpu1 H1) as (cpu2 & E1 & E2 & _).
    by rewrite E1, Some_bind, <- E2. }
  split; try done.
  - cbn. by rewrite length_zinsert.
  - intros c' cpu1 H1. destruct (Hlook c' cpu1 H1) as (cpu2 & H2 & -> & _). by apply (Hlev c').
  - intros c' p' q H1%Hq. by apply (Hqnd c' p').
  - intros c' p' q id H1%Hq. by apply (Hready c' p').
  - intros c' cpu1 H1. destruct (Hlook c' cpu1 H1) as (cpu2 & H2 & -> & ->). by apply (Hcnt c').
Qed.

(** A thread that is neither running before nor after, and not an idle one. *)
Lemma run_ok_upd s s' h id t t' :
  run_ok s h -> cores s' = cores s -> gActivedCoreCount s' = gActivedCoreCount s ->
  threads s !! id = Some t -> threads s' = <[id := t']> (threads s) ->
  state t <> NX_THREAD_RUNNING -> state t' <> NX_THREAD_RUNNING ->
  (forall c r, zlookup (cores s) c = Some (r, Some id) -> state t' = NX_THREAD_READY /\ onCore t' = onCore t /\
     coreAffinity t' = coreAffinity t /\ fixedPriority t' = fixedPriority t) ->
  run_ok s' h.
Proof.
  intros [Hact Hcur Hrun Hidle Hhas] Hc Ha Ht Hth Hst Hst' Hid. split; try by rewrite ?Ha, ?Hc.
  - intros c j. unfold current. rewrite Hc, Hth. intros Hj Hh. destruct (Hcur c j Hj Hh) as (u & Hu & ? & ?).
    exists u. rewrite lookup_insert_ne; [done|]. intros ->. congruence.
  - intros j u. unfold current. rewrite Hc, Hth. destruct (decide (j = id)) as [->|Hne].
    + rewrite lookup_insert_eq. by intros [= ->].
    + rewrite lookup_insert_ne by done. apply Hrun.
  - intros c r i. rewrite Hc, Hth. intros Hi. destruct (Hidle c r i Hi) as (u & Hu & Hus & ? & ? & ?).
    destruct (decide (i = id)) as [->|Hne]; [|rewrite lookup_insert_ne by done; by exists u].
    destruct (Hid c r Hi) as (? & ? & ? & ?). assert (u = t) as -> by congruence. exists t'. rewrite lookup_insert_eq.
    split_and!; try done; [by left|congruence..].
Qed.

Lemma run_ok_shift s s' h c : run_ok s h -> frame s s' -> shifted s s' c -> 0 <= c < NX_MULTI_CORES_NR -> queues_ok s None -> run_ok s' h.
Proof.
  intros Hro [Hc _ _ _ _ Ha] [Hth|(id & t & core & Ht & Hst & Hth & Hcase)] Hcr Hok.
  - destruct Hro as [Hact Hcur Hrun Hidle Hhas]. split; unfold current in *; by rewrite ?Ha, ?Hc, ?Hth.
  - apply (run_ok_upd s s' h id t (set_onCore core t)); try done; [congruence|cbn; congruence|].
    intros c' r Hi. exfalso. destruct (ro_idle s h Hro c' r id Hi) as (u & Hu & _ & Huc & Hua & _).
    assert (u = t) as -> by congruence. apply zlookup_lt in Hi. unfold cores in Hi. rewrite length_fmap in Hi.
    rewrite (qo_cores s _ Hok) in Hi. destruct Hcase as [[? _]|(_ & ? & _)]; lia.
Qed.

Lemma threads_le_shift s s' c : shifted s s' c -> threads_le (threads s) (threads s').
Proof.
  intros [->|(id & t & core & Ht & Hst & -> & _)]; [reflexivity|]. apply threads_le_insert with t; [done|].
  exists (state t), (priority t), core. split; [by destruct t|by left].
Qed.

(** ** The switch *)
Record sched_frame s s' : Prop := {
  sf_threads : threads_le (threads s) (threads s');
  sf_sems : sems s' = sems s;
  sf_global : globalList s' = globalList s;
  sf_exit : exitList s' = exitList s;
  sf_active : activeThreadCount s' = activeThreadCount s
}.

Lemma idle_queued s c r i : queues_ok s None -> run_ok s (Some c) -> zlookup (cores s) c = Some (r, Some i) -> 0 <= c < NX_MULTI_CORES_NR ->
  exists q, queue s c 0 = Some q /\ q <> [].
Proof.
  intros Hok Hro Hi Hc. destruct (ro_idle s _ Hro c r i Hi) as (t & Ht & Hst & Htc & _ & Hf).
  assert (Hready : state t = NX_THREAD_READY).
  { destruct Hst as [|Hrun]; [done|]. destruct (ro_running s _ Hro i t Ht Hrun) as [Hne _]. congruence. }
  destruct (CpuGetIndex_spec s _ c Hok Hc) as (cpu & _ & Hcpu).
  destruct (queue_Some s _ c 0 cpu Hok Hcpu) as (q & Hq & _); [lia|]. exists q. split; [done|]. intros ->.
  assert (Hin : i ∈ []); [|by apply elem_of_nil in Hin]. apply (qo_ready s _ Hok c 0 [] i Hq). split; [|done].
  exists t. split_and!; try done. destruct (qo_threads s _ Hok i t Ht) as [_ [[_ Hp] _]]. rewrite Hf in Hp. exact Hp.
Qed.

Lemma SetRunning_spec s c id t :
  queues_ok s (Some id) -> run_ok s (Some c) -> threads s !! id = Some t -> state t = NX_THREAD_READY -> onCore t = c ->
  0 <= c < NX_MULTI_CORES_NR -> (exists r i, zlookup (cores s) c = Some (r, Some i)) ->
  exists s', NX_SMP_SetRunning NX_MULTI_CORES_NR s c (Some id) = Some (s', NX_EOK) /\ queues_ok s' None /\ run_ok s' None /\
    current s' c id /\ sched_frame s s'.
Proof.
  intros Hok Hro Ht Hst Htc Hc (r0 & i0 & Hi0). destruct (CpuGetIndex_spec s _ c Hok Hc) as (cpu & Hget & Hcpu).
  set (t' := set_state NX_THREAD_RUNNING t). set (s1 := with_threads s (<[id := t']> (threads s))).
  set (s2 := upd_cpu s1 c (with_running cpu (Some id))).
  assert (Hcl : forall c', 0 <= c' -> zlookup (cores s2) c' = if decide (c' = c) then Some (Some id, idleThread cpu) else zlookup (cores s) c')
    by (intros c' Hc'; apply (cores_running s1); done).
  assert (Hcur : current s2 c id) by (exists (idleThread cpu); rewrite Hcl by lia; by rewrite decide_True).
  exists s2. split; [|split; [|split; [|split; [done|]]]].
  - unfold NX_SMP_SetRunning. rewrite Z.geb_leb, (proj2 (Z.leb_gt _ _)) by lia. unfold upd_thread. rewrite Ht, !Some_bind.
    change (NX_CpuGetIndex NX_MULTI_CORES_NR (with_threads s ?m) c) with (NX_CpuGetIndex NX_MULTI_CORES_NR s c). by rewrite Hget.
  - apply cpu_same_queues with cpu; try done. apply hole_close with id t'; [|apply lookup_insert_eq|done].
    apply upd_ok with t; [done|done|exact (proj2 (qo_threads s _ Hok id t Ht))|by left].
  - destruct Hro as [Hact Hcur0 Hrun Hidle Hhas]. split; [done|..].
    + intros c' j [i Hj] _. pose proof (zlookup_lt _ _ _ Hj). rewrite Hcl in Hj by lia. cbn. case_decide as Hd.
      * injection Hj as <- _. exists t'. rewrite lookup_insert_eq. subst. done.
      * destruct (Hcur0 c' j) as (u & Hu & ? & ?); [by exists i|congruence|]. exists u.
        rewrite lookup_insert_ne; [done|]. intros ->. congruence.
    + intros j u. cbn. destruct (decide (j = id)) as [->|Hne].
      * rewrite lookup_insert_eq. intros [= <-] _. split; [done|]. cbn. by rewrite Htc.
      * rewrite lookup_insert_ne by done. intros Hu Hur. destruct (Hrun j u Hu Hur) as [Hnc [i Hj]]. split; [done|].
        exists i. pose proof (zlookup_lt _ _ _ Hj). rewrite Hcl, decide_False by (lia || congruence). done.
    + intros c' r i Hi. pose proof (zlookup_lt _ _ _ Hi). rewrite Hcl in Hi by lia.
      assert (Hi' : exists r, zlookup (cores s) c' = Some (r, Some i)).
      { case_decide; [|by eexists]. subst c'. injection Hi as _ Hi. rewrite (cores_lookup s c cpu Hcpu), Hi. by eexists. }
      destruct Hi' as [r' Hi']. destruct (Hidle c' r' i Hi') as (u & Hu & Hus & ? & ? & ?). cbn.
      destruct (decide (i = id)) as [->|Hne]; [|rewrite lookup_insert_ne by done; by exists u].
      assert (u = t) as -> by congruence. rewrite lookup_insert_eq. exists t'. split_and!; try done. by right.
    + intros c' r i Hi. pose proof (zlookup_lt _ _ _ Hi). rewrite Hcl in Hi by lia. case_decide; [|by apply (Hhas c' r)].
      injection Hi as _ <-. rewrite (cores_lookup s c cpu Hcpu) in Hi0. by injection Hi0 as _ ->.
  - split; try done. apply threads_le_insert with t; [done|]. exists NX_THREAD_RUNNING, (priority t), (onCore t).
    split; [by destruct t|by right].
Qed.

Lemma current_range s c id : queues_ok s None -> current s c id -> 0 <= c < NX_MULTI_CORES_NR.
Proof. intros Hok [i Hi]. apply zlookup_lt in Hi. unfold cores in Hi. rewrite length_fmap, (qo_cores s _ Hok) in Hi. done. Qed.

Lemma ThreadSelf_spec s c id : queues_ok s None -> current s c id -> NX_ThreadSelf NX_MULTI_CORES_NR s c = Some id.
Proof.
  intros Hok Hcur. destruct (CpuGetIndex_spec s _ c Hok (current_range s c id Hok Hcur)) as (cpu & Hget & Hcpu).
  destruct Hcur as [i Hi]. rewrite (cores_lookup s c cpu Hcpu) in Hi. injection Hi as Hr _.
  unfold NX_ThreadSelf, NX_SMP_GetRunning. by rewrite Hget, !Some_bind.
Qed.

(** [NX_SchedLockedIRQ] finds another thread to run, at the least the idle one. *)
Lemma schedule_spec s c prev : queues_ok s None -> run_ok s (Some c) -> current s c prev ->
  exists s' next, NX_SchedLockedIRQ NX_MULTI_CORES_NR s c = Some s' /\ queues_ok s' None /\ run_ok s' None /\
    current s' c next /\ sched_frame s s'.
Proof.
  intros Hok Hro Hcur. pose proof (current_range s c prev Hok Hcur) as Hc. pose proof Hcur as [i0 Hi0].
  destruct i0 as [i|]; [|by destruct (ro_has_idle s _ Hro c prev None Hi0)].
  unfold NX_SchedLockedIRQ. rewrite (ThreadSelf_spec s c prev Hok Hcur), Some_bind.
  destruct (PullOrPush_spec s c Hok Hc (ro_active s _ Hro)) as (s1 & -> & Hok1 & Hfr1 & Hsh). rewrite Some_bind.
  pose proof (run_ok_shift s s1 _ c Hro Hfr1 Hsh Hc Hok) as Hro1. pose proof (fr_cores _ _ Hfr1) as Hc1.
  destruct (idle_queued s1 c (Some prev) i Hok1 Hro1) as (q0 & Hq0 & Hne); [by rewrite Hc1|done|].
  destruct (pick_spec s1 c 0 q0 Hok1 Hc Hq0 Hne) as (s2 & next & t & q & -> & Hok2 & Hfr2 & Ht & Hst & Htc & Hth2 & _ & _).
  rewrite Some_bind. cbv beta iota. destruct (LowerPriority_fields t) as (Els & Elc & x & Ex).
  pose proof (fr_cores _ _ Hfr2) as Hc2.
  assert (Hro2 : run_ok s2 (Some c)).
  { apply (run_ok_upd s1 s2 (Some c) next t (NX_ThreadLowerPriority t)); try done; [apply (fr_cpus _ _ Hfr2)|congruence|congruence|].
    intros c' r _. rewrite Els, Elc, Ex. done. }
  destruct (SetRunning_spec s2 c next (NX_ThreadLowerPriority t) Hok2 Hro2) as (s3 & -> & Hok3 & Hro3 & Hcur3 & Hsf); try done.
  { by rewrite Hth2, lookup_insert_eq. } { congruence. } { congruence. } { exists (Some prev), i. by rewrite Hc2, Hc1. }
  rewrite Some_bind. exists s3, next. split; [done|]. split; [done|]. split; [done|]. split; [done|].
  destruct Hsf as [Hle3 E1 E2 E3 E4], Hfr1 as [_ F1 F2 F3 F4 _], Hfr2 as [_ G1 G2 G3 G4 _]. split; [|congruence..].
  transitivity (threads s1); [by apply threads_le_shift with c|]. transitivity (threads s2); [|done].
  rewrite Hth2. apply threads_le_insert with t; [done|]. exists (state t), x, (onCore t). rewrite Ex. split; [by destruct t|by left].
Qed.

(** ** The lists of threads and the semaphores *)
Definition alive t : Prop := state t = NX_THREAD_READY \/ state t = NX_THREAD_RUNNING \/ state t = NX_THREAD_BLOCKED.

Record life_ok s : Prop := {
  lo_gnodup : NoDup (globalList s);
  lo_alive : forall id t, threads s !! id = Some t -> alive t -> id ∈ globalList s;
  lo_global : forall id, id ∈ globalList s -> exists t, threads s !! id = Some t /\ state t <> NX_THREAD_EXIT;
  lo_active : activeThreadCount s = Z.of_nat (length (globalList s));
  lo_exit : NoDup (exitList s) /\ forall id, id ∈ exitList s -> exists t, threads s !! id = Some t /\ state t = NX_THREAD_EXIT
}.

Record sems_ok s : Prop := {
  sm_value : forall sem sm, sems s !! sem = Some sm -> sem <> 0 /\ magic sm = SEMPAHORE_MAGIC /\ NoDup (semWaitList sm);
  sm_linked : forall sem sm id, sems s !! sem = Some sm -> id ∈ semWaitList sm -> exists t, threads s !! id = Some t /\ blockLinked t = true;
  sm_one : forall sem1 sem2 sm1 sm2 id, sems s !! sem1 = Some sm1 -> sems s !! sem2 = Some sm2 ->
    id ∈ semWaitList sm1 -> id ∈ semWaitList sm2 -> sem1 = sem2;
  sm_waiter : forall id t, threads s !! id = Some t -> is_Some (sems s !! id)
}.

Record sched_ok s : Prop := {
  so_queues : queues_ok s None;
  so_run : run_ok s None;
  so_life : life_ok s;
  so_sems : sems_ok s
}.

Lemma threads_le_lookup m m' id t : threads_le m m' -> m !! id = Some t -> exists t', m' !! id = Some t' /\ resched t t'.
Proof. intros Hle Ht. specialize (Hle id). rewrite Ht in Hle. inversion Hle; subst. by eexists. Qed.

Lemma threads_le_lookup_inv m m' id t' : threads_le m m' -> m' !! id = Some t' -> exists t, m !! id = Some t /\ resched t t'.
Proof. intros Hle Ht. specialize (Hle id). rewrite Ht in Hle. inversion Hle; subst. by eexists. Qed.

Lemma life_ok_le s s' : life_ok s -> sched_frame s s' -> life_ok s'.
Proof.
  intros [Hnd Hal Hgl Hac [Hxn Hx]] [Hle _ Eg Ex Ea]. split; rewrite ?Eg, ?Ex, ?Ea; try done.
  - intros id t' Ht' Ha. destruct (threads_le_lookup_inv _ _ _ _ Hle Ht') as (t & Ht & st & p & c & -> & Hst).
    apply (Hal id t Ht). unfold alive in *. cbn in Ha. destruct Hst as [->|[? ->]]; [done|by left].
  - intros id Hid. destruct (Hgl id Hid) as (t & Ht & Hne). destruct (threads_le_lookup _ _ _ _ Hle Ht) as (t' & Ht' & st & p & c & -> & Hst).
    eexists. split; [done|]. cbn. destruct Hst as [->|[? ->]]; done.
  - split; [done|]. intros id Hid. destruct (Hx id Hid) as (t & Ht & He).
    destruct (threads_le_lookup _ _ _ _ Hle Ht) as (t' & Ht' & st & p & c & -> & Hst).
    eexists. split; [done|]. cbn. destruct Hst as [->|[? ->]]; congruence.
Qed.

Lemma sems_ok_threads s s' : sems_ok s -> sems s' = sems s ->
  (forall id t, threads s !! id = Some t -> exists t', threads s' !! id = Some t' /\ blockLinked t' = blockLinked t) ->
  (forall id t', threads s' !! id = Some t' -> is_Some (threads s !! id)) -> sems_ok s'.
Proof.
  intros [Hv Hl Ho Hw] Es Hfw Hbw. split; rewrite ?Es; try done.
  - intros sem sm id Hs Hid. destruct (Hl sem sm id Hs Hid) as (t & Ht & Hb). destruct (Hfw id t Ht) as (t' & ? & ?).
    exists t'. split; [done|congruence].
  - intros id t' Ht'. destruct (Hbw id t' Ht') as [t Ht]. by apply (Hw id t).
Qed.

Lemma sems_ok_le s s' : sems_ok s -> sched_frame s s' -> sems_ok s'.
Proof.
  intros Hs [Hle Es _ _ _]. apply (sems_ok_threads s s' Hs Es).
  - intros id t Ht. destruct (threads_le_lookup _ _ _ _ Hle Ht) as (t' & Ht' & st & p & c & -> & _). by eexists.
  - intros id t' Ht'. destruct (threads_le_lookup_inv _ _ _ _ Hle Ht') as (t & Ht & _). by eexists.
Qed.

Lemma sems_ok_insert s s' id t t' : sems_ok s -> sems s' = sems s -> threads s !! id = Some t ->
  threads s' = <[id := t']> (threads s) -> blockLinked t' = blockLinked t -> sems_ok s'.
Proof.
  intros Hs Es Ht Hth Hb. apply (sems_ok_threads s s' Hs Es); rewrite Hth.
  - intros j u Hu. destruct (decide (j = id)) as [->|Hne].
    + rewrite lookup_insert_eq. exists t'. split; [done|congruence].
    + rewrite lookup_insert_ne by done. by exists u.
  - intros j u. destruct (decide (j = id)) as [->|Hne]; [done|by rewrite lookup_insert_ne].
Qed.

Lemma life_ok_insert s s' id t t' : life_ok s -> globalList s' = globalList s -> exitList s' = exitList s ->
  activeThreadCount s' = activeThreadCount s -> threads s !! id = Some t ->
  threads s' = <[id := t']> (threads s) -> (alive t' -> alive t) -> (state t' = NX_THREAD_EXIT <-> state t = NX_THREAD_EXIT) -> life_ok s'.
Proof.
  intros [Hnd Hal Hgl Hac [Hxn Hx]] Eg Ex Ea Ht Hth Ha He. split; rewrite ?Eg, ?Ex, ?Ea, ?Hth; try done.
  - intros j u. destruct (decide (j = id)) as [->|Hne]; [|rewrite lookup_insert_ne by done; apply Hal].
    rewrite lookup_insert_eq. intros [= <-] Hu. apply (Hal id t Ht). auto.
  - intros j Hj. destruct (Hgl j Hj) as (u & Hu & Hne). destruct (decide (j = id)) as [->|Hd].
    + rewrite lookup_insert_eq. exists t'. split; [done|]. assert (u = t) as -> by congruence. tauto.
    + rewrite lookup_insert_ne by done. by exists u.
  - split; [done|]. intros j Hj. destruct (Hx j Hj) as (u & Hu & Hne). destruct (decide (j = id)) as [->|Hd].
    + rewrite lookup_insert_eq. exists t'. split; [done|]. assert (u = t) as -> by congruence. tauto.
    + rewrite lookup_insert_ne by done. by exists u.
Qed.

(** A change of fields the scheduler does not look at. *)
Definition quiet t t' : Prop := state t' = state t /\ onCore t' = onCore t /\ priority t' = priority t /\
  fixedPriority t' = fixedPriority t /\ coreAffinity t' = coreAffinity t.

Lemma run_ok_quiet s h id t t' : run_ok s h -> threads s !! id = Some t -> quiet t t' ->
  run_ok (with_threads s (<[id := t']> (threads s))) h.
Proof.
  intros [Hact Hcur Hrun Hidle Hhas] Ht (E1 & E2 & E3 & E4 & E5).
  assert (Hl : forall j u, <[id := t']> (threads s) !! j = Some u -> exists u0, threads s !! j = Some u0 /\ quiet u0 u).
  { intros j u. destruct (decide (j = id)) as [->|Hne]; [rewrite lookup_insert_eq; intros [= <-]; by exists t|].
    rewrite lookup_insert_ne by done. by exists u. }
  assert (Hr : forall j u0, threads s !! j = Some u0 -> exists u, <[id := t']> (threads s) !! j = Some u /\ quiet u0 u).
  { intros j u0 Hu. destruct (decide (j = id)) as [->|Hne]; [rewrite lookup_insert_eq; exists t'; split; [done|]; by assert (u0 = t) as -> by congruence|].
    rewrite lookup_insert_ne by done. by exists u0. }
  split; try done.
  - intros c j Hj Hh. destruct (Hcur c j Hj Hh) as (u0 & Hu0 & ? & ?). destruct (Hr j u0 Hu0) as (u & ? & ? & ? & _). exists u. split_and!; [done|congruence..].
  - intros j u Hu Hst. destruct (Hl j u Hu) as (u0 & Hu0 & Q1 & Q2 & _). rewrite Q2. apply (Hrun j u0 Hu0). congruence.
  - intros c r i Hi. destruct (Hidle c r i Hi) as (u0 & Hu0 & Hst & ? & ? & ?). destruct (Hr i u0 Hu0) as (u & ? & Q1 & ? & _ & ? & ?).
    exists u. rewrite Q1. split_and!; [done|done|congruence..].
Qed.

Lemma sched_ok_quiet s id t t' : sched_ok s -> threads s !! id = Some t -> quiet t t' -> blockLinked t' = blockLinked t ->
  sched_ok (with_threads s (<[id := t']> (threads s))).
Proof.
  intros [Hok Hro Hlf Hsm] Ht Hq Hb. pose proof Hq as (E1 & E2 & E3 & E4 & E5). split.
  - apply upd_ok with t; [done|done| |right; left; done]. destruct (qo_threads s _ Hok id t Ht) as [_ [[Hf Hp] Hc]].
    split; [split|]; rewrite ?E2, ?E3, ?E4; done.
  - by apply run_ok_quiet with t.
  - apply (life_ok_insert s _ id t t'); try done; unfold alive; by rewrite E1.
  - by apply (sems_ok_insert s _ id t t').
Qed.

(** ** Waking *)
Definition is_idle s id : Prop := exists c r, zlookup (cores s) c = Some (r, Some id).

Lemma unblock_spec s id t : sched_ok s -> threads s !! id = Some t ->
  exists s', NX_ThreadUnblock NX_MULTI_CORES_NR s id = Some (s', if bool_decide (state t = NX_THREAD_BLOCKED) then NX_EOK else NX_EBUSY) /\
    sched_ok s' /\ frame s s' /\
    threads s' = (if bool_decide (state t = NX_THREAD_BLOCKED) then <[id := set_state NX_THREAD_READY t]> (threads s) else threads s) /\
    (state t = NX_THREAD_BLOCKED -> readied s s' t NX_SCHED_HEAD id).
Proof.
  intros Hs Ht. pose proof Hs as [Hok Hro Hlf Hsm]. destruct (qo_threads s _ Hok id t Ht) as [Hid Htok].
  unfold NX_ThreadUnblock. rewrite (proj2 (Z.eqb_neq _ _)), Ht, Some_bind by done.
  case_bool_decide as Hb; [|by exists s].
  assert (Hok1 : queues_ok s (Some id)) by (apply hole_open with t; [done|done|congruence]).
  destruct (ready_run_spec s id t NX_SCHED_HEAD Hok1 Ht) as (s' & Hrun & Hok' & Hfr & Hth & Hre).
  unfold NX_ThreadReadyRunUnlocked. rewrite Hrun, Some_bind. exists s'. split; [done|].
  pose proof Hfr as [Ec Es Eg Ex Ea Eu]. split; [split|split; [done|split; [done|done]]].
  - done.
  - apply (run_ok_upd s s' None id t (set_state NX_THREAD_READY t)); try done.
    { congruence. }
  - apply (life_ok_insert s s' id t (set_state NX_THREAD_READY t)); try done; [intros _; by right; right|].
    cbn. split; congruence.
  - by apply (sems_ok_insert s s' id t (set_state NX_THREAD_READY t)).
Qed.

Lemma sched_ok_sems s m : sched_ok s -> sems_ok (with_sems s m) -> sched_ok (with_sems s m).
Proof. intros [[] [] [] _] Hsm. split; [by split..|done]. Qed.

Lemma sems_ok_del s sem sm id t x : sems_ok s -> sems s !! sem = Some sm -> id ∈ semWaitList sm -> threads s !! id = Some t ->
  sems_ok (with_threads (upd_sem s sem (mkSem x (list_del id (semWaitList sm)) (magic sm))) (<[id := set_blockLinked false t]> (threads s))).
Proof.
  intros [Hv Hl Ho Hw] Hsm Hid Ht. destruct (Hv sem sm Hsm) as (Hne0 & Hmg & Hnd).
  assert (Hsub : forall sem' sm', <[sem := mkSem x (list_del id (semWaitList sm)) (magic sm)]> (sems s) !! sem' = Some sm' ->
    exists sm0, sems s !! sem' = Some sm0 /\ forall j, j ∈ semWaitList sm' -> j <> id /\ j ∈ semWaitList sm0).
  { intros sem' sm'. destruct (decide (sem' = sem)) as [->|Hne].
    - rewrite lookup_insert_eq. intros [= <-]. exists sm. split; [done|]. intros j. cbn. by rewrite elem_of_list_del.
    - rewrite lookup_insert_ne by done. intros H1. exists sm'. split; [done|]. intros j Hj. split; [|done].
      intros ->. apply Hne. by apply (Ho sem' sem sm' sm id). }
  split; cbn [upd_sem with_threads with_sems sems threads].
  - intros sem' sm'. destruct (decide (sem' = sem)) as [->|Hne]; [|rewrite lookup_insert_ne by done; apply Hv].
    rewrite lookup_insert_eq. intros [= <-]. cbn. split_and!; try done. by apply NoDup_list_del.
  - intros sem' sm' j H1 Hj. destruct (Hsub sem' sm' H1) as (sm0 & H0 & Hall). destruct (Hall j Hj) as [Hne Hj0].
    rewrite lookup_insert_ne by done. by apply (Hl sem' sm0).
  - intros sem1 sem2 sm1 sm2 j H1 H2 Hj1 Hj2. destruct (Hsub sem1 sm1 H1) as (sm10 & H10 & Hall1).
    destruct (Hsub sem2 sm2 H2) as (sm20 & H20 & Hall2). apply (Ho sem1 sem2 sm10 sm20 j); try done; [by apply Hall1|by apply Hall2].
  - intros j u. assert (Hex : forall u0, threads s !! j = Some u0 -> is_Some (<[sem := mkSem x (list_del id (semWaitList sm)) (magic sm)]> (sems s) !! j)).
    { intros u0 Hu0. destruct (decide (j = sem)) as [->|Hne]; [rewrite lookup_insert_eq; by eexists|].
      rewrite lookup_insert_ne by done. by apply (Hw j u0). }
    destruct (decide (j = id)) as [->|Hne]; [intros _; by apply (Hex t)|]. rewrite lookup_insert_ne by done. apply Hex.
Qed.

Lemma with_threads_sems s m m' : with_threads (with_sems s m) m' = with_sems (with_threads s m') m.
Proof. done. Qed.

Definition woken t : NX_Thread :=
  let t := set_blockLinked false t in if bool_decide (state t = NX_THREAD_BLOCKED) then set_state NX_THREAD_READY t else t.

Lemma wake_first_spec s sem sm id : sched_ok s -> sems s !! sem = Some sm -> id ∈ semWaitList sm ->
  exists s' t, wake_first NX_MULTI_CORES_NR s sem id = Some s' /\ sched_ok s' /\ cores s' = cores s /\ globalList s' = globalList s /\
    threads s !! id = Some t /\ threads s' = <[id := woken t]> (threads s) /\
    sems s' = <[sem := mkSem (value sm) (list_del id (semWaitList sm)) (magic sm)]> (sems s) /\
    (state t = NX_THREAD_BLOCKED -> readied s s' t NX_SCHED_HEAD id).
Proof.
  intros Hs Hsm Hid. pose proof Hs as [Hok Hro Hlf Hsems]. destruct (sm_linked s Hsems sem sm id Hsm Hid) as (t & Ht & Hb).
  set (sm' := mkSem (value sm) (list_del id (semWaitList sm)) (magic sm)). set (t1 := set_blockLinked false t).
  set (s1 := with_threads (upd_sem s sem sm') (<[id := t1]> (threads s))).
  assert (Hs1 : sched_ok s1).
  { assert (Hq : quiet t t1) by done. split.
    - assert (Hq1 : queues_ok (with_threads s (<[id := t1]> (threads s))) None).
      { apply upd_ok with t; [done|done| |right; left; done]. exact (proj2 (qo_threads s _ Hok id t Ht)). }
      destruct Hq1; by split.
    - pose proof (run_ok_quiet s None id t t1 Hro Ht Hq) as []; by split.
    - apply (life_ok_insert s s1 id t t1); try done.
    - by apply sems_ok_del. }
  destruct (unblock_spec s1 id t1 Hs1 (lookup_insert_eq _ _ _)) as (s' & Hun & Hs' & [Ec Es Eg Ex Ea Eu] & Hth & Hre).
  exists s', t. split; [|split; [done|split; [by rewrite Ec|split; [by rewrite Eg|split; [done|]]]]].
  - unfold wake_first. rewrite Hsm, Some_bind. fold sm'. unfold upd_thread. cbn [upd_sem with_sems threads]. rewrite Ht, !Some_bind.
    fold t1. change (with_threads _ _) with s1. by rewrite Hun, Some_bind.
  - split; [|split; [by rewrite Es|]].
    + rewrite Hth. unfold woken. fold t1. case_bool_decide; [|done]. cbn. by rewrite insert_insert_eq.
    + intros Hst. specialize (Hre Hst). exact Hre.
Qed.

Lemma SignalAll_spec l s sem sm : sched_ok s -> sems s !! sem = Some sm -> semWaitList sm = l ->
  exists s', SignalAll_loop NX_MULTI_CORES_NR s sem l = Some s' /\ sched_ok s' /\ cores s' = cores s /\ globalList s' = globalList s /\
    sems s' = <[sem := mkSem (value sm) [] (magic sm)]> (sems s) /\
    (forall id t, threads s !! id = Some t -> threads s' !! id = Some (if bool_decide (id ∈ l) then woken t else t)).
Proof.
  revert s sm. induction l as [|id l IH]; intros s sm Hs Hsm Hl.
  { exists s. split; [done|]. split; [done|]. split; [done|]. split; [done|]. split; [|intros; by rewrite bool_decide_eq_false_2 by set_solver].
    symmetry. apply insert_id. rewrite Hsm. destruct sm. cbn in Hl. by subst. }
  destruct (wake_first_spec s sem sm id Hs Hsm) as (s1 & t & Hw & Hs1 & Ec & Eg & Ht & Hth & Hse & _); [rewrite Hl; left|].
  pose proof (sm_value s (so_sems s Hs) sem sm Hsm) as (_ & _ & Hnd). rewrite Hl in Hnd.
  assert (Hdel : list_del id (semWaitList sm) = l) by (rewrite Hl; by apply (list_del_middle id [] l)).
  destruct (IH s1 (mkSem (value sm) l (magic sm))) as (s2 & Hloop & Hs2 & Ec2 & Eg2 & Hse2 & Hth2); [done| |done|].
  { by rewrite Hse, lookup_insert_eq, Hdel. }
  exists s2. cbn [SignalAll_loop]. rewrite Hw, Some_bind, Hloop. split; [done|]. split; [done|]. split; [congruence|]. split; [congruence|].
  split; [by rewrite Hse2, Hse, insert_insert_eq|]. intros j u Hu. apply NoDup_cons in Hnd as [Hni Hnd].
  destruct (decide (j = id)) as [->|Hne].
  - rewrite (Hth2 id (woken t)) by (by rewrite Hth, lookup_insert_eq). assert (u = t) as -> by congruence.
    rewrite bool_decide_eq_false_2, bool_decide_eq_true_2; [done|left|done].
  - rewrite (Hth2 j u) by (by rewrite Hth, lookup_insert_ne). f_equal. repeat case_bool_decide; set_solver.
Qed.

(** ** Leaving a core *)
Lemma run_ok_leave s s' c id t t' :
  run_ok s None -> current s c id -> cores s' = cores s -> gActivedCoreCount s' = gActivedCoreCount s ->
  threads s !! id = Some t -> threads s' = <[id := t']> (threads s) -> state t' <> NX_THREAD_RUNNING ->
  (is_idle s id -> state t' = NX_THREAD_READY /\ onCore t' = onCore t /\ coreAffinity t' = coreAffinity t /\ fixedPriority t' = fixedPriority t) ->
  run_ok s' (Some c).
Proof.
  intros [Hact Hcur Hrun Hidle Hhas] Hid Ec Ea Ht Hth Hst Hid'.
  assert (Huniq : forall j u, threads s !! j = Some u -> state u = NX_THREAD_RUNNING -> onCore u = c -> j = id).
  { intros j u Hu Hur Huc. destruct (Hrun j u Hu Hur) as [_ [i Hj]]. rewrite Huc in Hj. destruct Hid as [i' Hid]. congruence. }
  split; try by rewrite ?Ea, ?Ec.
  - intros c' j. unfold current. rewrite Ec, Hth. intros Hj Hne. destruct (Hcur c' j Hj) as (u & Hu & Hus & Huc); [done|].
    exists u. rewrite lookup_insert_ne; [done|]. intros <-. destruct (Hcur c id Hid) as (u' & Hu' & _ & Hc'); [done|]. congruence.
  - intros j u. unfold current. rewrite Ec, Hth. destruct (decide (j = id)) as [->|Hne]; [rewrite lookup_insert_eq; by intros [= <-]|].
    rewrite lookup_insert_ne by done. intros Hu Hur. destruct (Hrun j u Hu Hur) as [_ Hj]. split; [|done].
    intros [= Hc]. apply Hne. by apply (Huniq j u).
  - intros c' r i. rewrite Ec, Hth. intros Hi. destruct (Hidle c' r i Hi) as (u & Hu & Hus & ? & ? & ?).
    destruct (decide (i = id)) as [->|Hne]; [|rewrite lookup_insert_ne by done; by exists u].
    destruct Hid' as (? & ? & ? & ?); [by exists c', r|]. assert (u = t) as -> by congruence. exists t'. rewrite lookup_insert_eq.
    split_and!; try done; [by left|congruence..].
Qed.

Lemma switch_spec s c id : queues_ok s None -> run_ok s (Some c) -> life_ok s -> sems_ok s -> current s c id ->
  exists s' next, NX_SchedLockedIRQ NX_MULTI_CORES_NR s c = Some s' /\ sched_ok s' /\ current s' c next /\ sched_frame s s'.
Proof.
  intros Hok Hro Hlf Hsm Hcur. destruct (schedule_spec s c id Hok Hro Hcur) as (s' & next & Hs & Hok' & Hro' & Hcur' & Hf).
  exists s', next. split; [done|]. split; [|done]. split; [done|done|by apply life_ok_le with s|by apply sems_ok_le with s].
Qed.

Lemma current_thread s c id : sched_ok s -> current s c id ->
  exists t, threads s !! id = Some t /\ state t = NX_THREAD_RUNNING /\ onCore t = c.
Proof. intros Hs Hcur. by apply (ro_current s None (so_run s Hs)). Qed.

(** Back to the end of its queue. *)
Lemma requeue_spec s c id t : sched_ok s -> current s c id -> threads s !! id = Some t ->
  exists s1 s' next, NX_ThreadReadyRunUnlocked NX_MULTI_CORES_NR s id NX_SCHED_TAIL = Some s1 /\
    threads s1 = <[id := set_state NX_THREAD_READY t]> (threads s) /\ readied s s1 t NX_SCHED_TAIL id /\
    NX_SchedInterruptDisabled NX_MULTI_CORES_NR s1 c = Some s' /\ sched_ok s' /\ current s' c next /\ sched_frame s1 s'.
Proof.
  intros Hs Hcur Ht. pose proof Hs as [Hok Hro Hlf Hsm]. destruct (current_thread s c id Hs Hcur) as (u & Hu & Hst & Hc).
  assert (u = t) as -> by congruence.
  assert (Hok1 : queues_ok s (Some id)) by (apply hole_open with t; [done|done|congruence]).
  destruct (ready_run_spec s id t NX_SCHED_TAIL Hok1 Ht) as (s1 & Hrun & Hok' & Hfr & Hth & Hre).
  pose proof Hfr as [Ec Es Eg Ex Ea Eu]. set (t1 := set_state NX_THREAD_READY t) in *.
  destruct (switch_spec s1 c id) as (s' & next & Hsw & Hs' & Hcur' & Hf); [done|..].
  - by apply (run_ok_leave s s1 c id t t1).
  - apply (life_ok_insert s s1 id t t1); try done; [intros _; by right; left|]. cbn. split; congruence.
  - by apply (sems_ok_insert s s1 id t t1).
  - unfold current. by rewrite Ec.
  - exists s1, s', next. done.
Qed.

Lemma SchedYield_spec s c id : sched_ok s -> current s c id ->
  exists s' next, NX_SchedYield NX_MULTI_CORES_NR s c = Some s' /\ sched_ok s' /\ current s' c next.
Proof.
  intros Hs Hcur. destruct (current_thread s c id Hs Hcur) as (t & Ht & _).
  destruct (requeue_spec s c id t Hs Hcur Ht) as (s1 & s' & next & Hr & _ & _ & Hsw & Hs' & Hcur' & _). exists s', next.
  unfold NX_SchedYield. rewrite (ThreadSelf_spec s c id (so_queues s Hs) Hcur), Some_bind, Hr, Some_bind. done.
Qed.

(** The running thread blocks. *)
Lemma block_self_spec s c id t : sched_ok s -> current s c id -> threads s !! id = Some t -> ~ is_idle s id ->
  exists s' next, NX_ThreadBlockLockedIRQ NX_MULTI_CORES_NR s c id = Some (s', Switched) /\ sched_ok s' /\ current s' c next /\
    sched_frame (with_threads s (<[id := set_state NX_THREAD_BLOCKED t]> (threads s))) s'.
Proof.
  intros Hs Hcur Ht Hni. pose proof Hs as [Hok Hro Hlf Hsm]. destruct (current_thread s c id Hs Hcur) as (u & Hu & Hst & Hc).
  assert (u = t) as -> by congruence. destruct (qo_threads s _ Hok id t Ht) as [Hid Htok].
  set (t1 := set_state NX_THREAD_BLOCKED t). set (s1 := with_threads s (<[id := t1]> (threads s))).
  destruct (switch_spec s1 c id) as (s' & next & Hsw & Hs' & Hcur' & Hf).
  - apply upd_ok with t; [done|done|exact Htok|]. right. right. split; [congruence|done].
  - by apply (run_ok_leave s s1 c id t t1).
  - apply (life_ok_insert s s1 id t t1); try done; [intros _; by right; left|]. cbn. split; congruence.
  - by apply (sems_ok_insert s s1 id t t1).
  - done.
  - exists s', next. split; [|done]. unfold NX_ThreadBlockLockedIRQ. rewrite (proj2 (Z.eqb_neq _ _)), Ht, Some_bind, Hst by done.
    unfold upd_thread. rewrite Ht, !Some_bind. fold t1. fold s1. by rewrite Hsw, Some_bind.
Qed.

(** A ready thread is taken off its queue. *)
Lemma unlink_threads s m id : list_unlink (with_threads s m) id = (fun s' => with_threads s' m) <$> list_unlink s id.
Proof. unfold list_unlink. change (list_linked (with_threads s m) id) with (list_linked s id). by destruct (list_linked s id). Qed.

Lemma unready_spec s id t t' : queues_ok s None -> threads s !! id = Some t -> state t = NX_THREAD_READY ->
  state t' <> NX_THREAD_READY -> onCore t' = onCore t -> priority t' = priority t -> fixedPriority t' = fixedPriority t ->
  exists s', NX_ThreadUnreadyRun NX_MULTI_CORES_NR (with_threads s (<[id := t']> (threads s))) id = Some s' /\
    queues_ok s' None /\ frame s s' /\ threads s' = <[id := t']> (threads s).
Proof.
  intros Hok Ht Hst Hst' Hc Hp Hf. destruct (qo_threads s _ Hok id t Ht) as [Hid Htok]. pose proof Htok as [Hpr Hc0].
  assert (Htok' : thread_ok t') by (destruct Hpr as [Hf0 Hp0]; split; [split|]; rewrite ?Hc, ?Hp, ?Hf; done).
  set (m := <[id := t']> (threads s)). assert (Hm : m !! id = Some t') by apply lookup_insert_eq.
  assert (Hclose : forall s1, queues_ok s1 (Some id) -> threads s1 = threads s -> queues_ok (with_threads s1 m) None).
  { intros s1 Hok1 Hth1. apply hole_close with id t'; [|apply lookup_insert_eq|done]. unfold m. rewrite <- Hth1.
    apply (upd_ok s1 (Some id) id t); [done|by rewrite Hth1|done|by left]. }
  unfold NX_ThreadUnreadyRun. cbn [with_threads threads]. rewrite Hm, Some_bind.
  rewrite bool_decide_eq_false_2, assert_true by done. rewrite Hc. destruct (Z.ltb_spec (onCore t) NX_MULTI_CORES_NR) as [Hlt|Hge].
  - destruct (CpuGetIndex_spec s _ (onCore t) Hok) as (cpu & Hget & Hcpu); [lia|].
    destruct (queue_Some s _ (onCore t) (priority t) cpu Hok Hcpu (thread_prio t Htok)) as (q & Hq & Hql).
    assert (Hin : id ∈ q) by (apply (qo_ready s _ Hok _ _ _ id Hq); split; [by exists t|done]).
    unfold NX_SMP_DequeueThread, NX_SMP_DequeueThreadIrqDisabled. cbn [with_threads threads].
    rewrite Hm, !Some_bind, prio_check, assert_true, unlink_threads by done.
    rewrite (list_unlink_cpu s None (onCore t) cpu (priority t) q id) by done. cbn [fmap option_fmap option_map]. rewrite Some_bind, Hc.
    rewrite put_queue_get, Some_bind, (put_queue_count s _ cpu) by (done || lia).
    eexists. split; [reflexivity|]. split; [apply Hclose; [by apply take_ok|done]|]. split; [|done].
    transitivity (put_queue s (onCore t) cpu (priority t) (list_del id q) (threadCount cpu - 1)); [by apply put_queue_frame|done].
  - assert (Hin : id ∈ pendingList s) by (apply (qo_pending s _ Hok id); split; [by exists t|done]).
    unfold NX_ThreadDequeuePendingList, NX_ThreadDelFromGlobalPendingList.
    rewrite unlink_threads, (list_unlink_pending s None id Hok Hin). cbn [fmap option_fmap option_map]. rewrite Some_bind.
    eexists. split; [reflexivity|]. split; [|done].
    apply (Hclose (with_pending s (list_del id (pendingList s)) (pendingThreadCount s - 1))); [by apply take_pending_ok|done].
Qed.

Lemma block_ready_spec s c id t : sched_ok s -> threads s !! id = Some t -> state t = NX_THREAD_READY -> ~ is_idle s id ->
  exists s', NX_ThreadBlockLockedIRQ NX_MULTI_CORES_NR s c id = Some (s', Returned NX_EOK) /\ sched_ok s' /\
    threads s' = <[id := set_state NX_THREAD_BLOCKED t]> (threads s).
Proof.
  intros Hs Ht Hst Hni. pose proof Hs as [Hok Hro Hlf Hsm]. destruct (qo_threads s _ Hok id t Ht) as [Hid Htok].
  set (t' := set_state NX_THREAD_BLOCKED t).
  destruct (unready_spec s id t t' Hok Ht Hst) as (s' & Hun & Hok' & Hfr & Hth); [done..|].
  pose proof Hfr as [Ec Es Eg Ex Ea Eu]. exists s'. split; [|split; [split|done]].
  - unfold NX_ThreadBlockLockedIRQ. rewrite (proj2 (Z.eqb_neq _ _)), Ht, Some_bind, Hst by done.
    unfold upd_thread. rewrite Ht, !Some_bind. fold t'. by rewrite Hun, Some_bind.
  - done.
  - apply (run_ok_upd s s' None id t t'); try done; [congruence|]. intros c' r Hi. exfalso. apply Hni. by exists c', r.
  - apply (life_ok_insert s s' id t t'); try done; [intros _; by left|]. cbn. split; congruence.
  - by apply (sems_ok_insert s s' id t t').
Qed.
End queues.
