(* ===== verification/SchedKeeps.v ===== *)
(** What every entry into the scheduler keeps: it makes and frees no thread and
    no semaphore, gives no thread another identifier, and leaves the bitmap of
    identifiers alone.  Creating and freeing a thread ([SchedOps.v]) are the only
    operations that do these things. *)
From S2P Require Import Prelude ThreadId Sched SchedInv.

Definition tids (s : Sys) : gmap Z Z := tid <$> threads s.

Record keeps (s s' : Sys) : Prop := {
  kp_tids : tids s' = tids s;
  kp_sems : dom (sems s') = dom (sems s);
  kp_ids : threadIdObject s' = threadIdObject s
}.

#[export] Instance keeps_preorder : PreOrder keeps.
Proof. split; [by intros s|]. intros s1 s2 s3 [] []. split; congruence. Qed.

Lemma keeps_threads s s' : keeps s s' -> dom (threads s') = dom (threads s).
Proof. intros [H _ _]. rewrite <- (dom_fmap_L tid (threads s)), <- (dom_fmap_L tid (threads s')). by f_equal. Qed.

Lemma sem_check_live (s : Sys) (sem : Z) (sm : NX_Semaphore) : sem_check s sem = Some (inl sm) -> sems s !! sem = Some sm.
Proof. unfold sem_check. destruct (sem =? 0); [done|]. intros H. inv_opt. destruct (Sched.magic n =? SEMPAHORE_MAGIC); congruence. Qed.

(** A change of a thread that is none of its identifier. *)
Class SameTid (f : NX_Thread -> NX_Thread) := same_tid t : tid (f t) = tid t.
#[export] Hint Extern 0 (SameTid _) => (intros []; unfold NX_ThreadLowerPriority; repeat case_match; reflexivity) : typeclass_instances.

(** A step of a function from [s] whose result contains the state [π x]. *)
Class Keeping {A} (f : option A) (s : Sys) (π : A -> Sys) := keeping x : f = Some x -> keeps s (π x).

(** [kept] chains what the steps of a function keep. *)
Ltac kept :=
  repeat match goal with H : sem_check _ _ = Some (inl _) |- _ => apply sem_check_live in H end;
  repeat match goal with H : _ = Some _ |- _ => apply keeping in H end;
  repeat match goal with H : keeps _ _ |- _ => destruct H end;
  unfold tids, upd_sem in *; cbn in *;
  repeat match goal with
  | E : ?m !! ?k = Some _, H : context [dom (<[?k := _]> ?m)] |- _ => rewrite (dom_insert_lookup_L m k) in H by (by eexists)
  | E : ?m !! ?k = Some _ |- context [dom (<[?k := _]> ?m)] => rewrite (dom_insert_lookup_L m k) by (by eexists)
  end; split; unfold tids; cbn; rewrite ?dom_insert_lookup_L by (by eexists); congruence.
Ltac keep_cases := repeat (inv_opt; match goal with H : context [match ?x with _ => _ end] |- _ =>
  lazymatch type of H with _ = Some _ => destruct x eqn:? end end); inv_opt.

Section keeping.
Context (NX_MULTI_CORES_NR : Z).
Notation NR := NX_MULTI_CORES_NR.
Implicit Types (s : Sys) (id c : Z).

#[export] Instance upd_thread_keeps s id f : SameTid f -> Keeping (upd_thread s id f) s (fun s' => s').
Proof.
  intros Hf s' H. unfold upd_thread in H. destruct (threads s !! id) eqn:E; [|done]. injection H as <-. split; [|done..].
  unfold tids. cbn. rewrite fmap_insert, same_tid. apply insert_id. by rewrite lookup_fmap, E.
Qed.

#[export] Instance unlink_keeps s id : Keeping (list_unlink s id) s (fun s' => s').
Proof. unfold list_unlink. intros x H. keep_cases; kept. Qed.

#[export] Instance enqueue_keeps s c id fl : Keeping (NX_SMP_EnqueueThreadIrqDisabled NR s c id fl) s (fun s' => s').
Proof. unfold NX_SMP_EnqueueThreadIrqDisabled. intros x H. keep_cases; kept. Qed.

#[export] Instance dequeue_keeps s c id : Keeping (NX_SMP_DequeueThreadIrqDisabled NR s c id) s (fun s' => s').
Proof. unfold NX_SMP_DequeueThreadIrqDisabled. intros x H. keep_cases; kept. Qed.

#[export] Instance ready_keeps s id fl : Keeping (NX_ThreadReadyRunLocked NR s id fl) s (fun s' => s').
Proof. unfold NX_ThreadReadyRunLocked. intros x H. keep_cases; kept. Qed.

#[export] Instance unblock_keeps s id : Keeping (NX_ThreadUnblock NR s id) s fst.
Proof. unfold NX_ThreadUnblock. intros x H. keep_cases; kept. Qed.

#[export] Instance pick_keeps s c : Keeping (NX_SMP_PickThreadIrqDisabled NR s c) s fst.
Proof. unfold NX_SMP_PickThreadIrqDisabled. intros x H. keep_cases; kept. Qed.

#[export] Instance set_running_keeps s c id : Keeping (NX_SMP_SetRunning NR s c (Some id)) s fst.
Proof. unfold NX_SMP_SetRunning. intros x H. keep_cases; kept. Qed.

#[export] Instance pull_or_push_keeps s c : Keeping (PullOrPushThread NR s c) s (fun s' => s').
Proof. unfold PullOrPushThread, NX_ThreadPickPendingList, NX_SMP_DeququeNoAffinityThread. intros x H. keep_cases; kept. Qed.

#[export] Instance sched_keeps s c : Keeping (NX_SchedLockedIRQ NR s c) s (fun s' => s').
Proof. unfold NX_SchedLockedIRQ. intros x H. keep_cases; kept. Qed.

#[export] Instance yield_keeps s c : Keeping (NX_SchedYield NR s c) s (fun s' => s').
Proof. unfold NX_SchedYield. intros x H. keep_cases; kept. Qed.

#[export] Instance unready_keeps s id : Keeping (NX_ThreadUnreadyRun NR s id) s (fun s' => s').
Proof. unfold NX_ThreadUnreadyRun, NX_ThreadDequeuePendingList, NX_ThreadDelFromGlobalPendingList, NX_SMP_DequeueThread. intros x H. keep_cases; kept. Qed.

#[export] Instance block_keeps s c id : Keeping (NX_ThreadBlockLockedIRQ NR s c id) s fst.
Proof. unfold NX_ThreadBlockLockedIRQ. intros x H. keep_cases; kept. Qed.

#[export] Instance wait_turn_keeps s c sem : Keeping (SemaphoreWait_turn NR s c sem) s fst.
Proof. unfold SemaphoreWait_turn. intros x H. keep_cases; kept. Qed.

#[export] Instance wake_keeps s sem id : Keeping (wake_first NR s sem id) s (fun s' => s').
Proof. unfold wake_first. intros x H. keep_cases; kept. Qed.

#[export] Instance signal_loop_keeps sem l s : Keeping (SignalAll_loop NR s sem l) s (fun s' => s').
Proof.
  revert s. induction l as [|id l IH]; intros s s' H; cbn [SignalAll_loop] in H; inv_opt; [done|].
  apply keeping in E. apply IH in H. by etransitivity.
Qed.

#[export] Instance signal_keeps s sem : Keeping (NX_SemaphoreSignal NR s sem) s fst.
Proof. unfold NX_SemaphoreSignal. intros x H. keep_cases; kept. Qed.

#[export] Instance signal_all_keeps s sem : Keeping (NX_SemaphoreSignalAll NR s sem) s fst.
Proof. unfold NX_SemaphoreSignalAll. intros x H. keep_cases; kept. Qed.

#[export] Instance trywait_keeps s sem : Keeping (NX_SemaphoreTryWait s sem) s fst.
Proof. unfold NX_SemaphoreTryWait. intros x H. keep_cases; kept. Qed.

#[export] Instance terminate_keeps s id code : Keeping (NX_ThreadTerminate NR s id code) s fst.
Proof. unfold NX_ThreadTerminate. intros x H. keep_cases; kept. Qed.

#[export] Instance join_keeps s c id : Keeping (NX_ThreadWait NR s c id) s fst.
Proof. unfold NX_ThreadWait. intros x H. keep_cases; kept. Qed.


#[export] Instance notify_loop_keeps code l s : Keeping (ExitNotify_loop s code l) s (fun s' => s').
Proof.
  revert s. induction l as [|id l IH]; intros s s' H; cbn [ExitNotify_loop] in H; inv_opt; [done|].
  apply keeping in E. apply IH in H. by etransitivity.
Qed.

#[export] Instance exit_keeps s c code : Keeping (NX_ThreadExit NR s c code) s (fun s' => s').
Proof.
  unfold NX_ThreadExit, ThreadExitNotify, NX_ThreadDeququeGlobalListUnlocked, NX_SchedExit, NX_ThreadEnququeExitList, NX_SchedInterruptDisabled.
  intros x H. keep_cases; kept.
Qed.

#[export] Instance tick_keeps s c : Keeping (NX_SchedIrqHandler NR s c) s fst.
Proof. unfold NX_SchedIrqHandler. intros x H. keep_cases; kept. Qed.

#[export] Instance check_keeps s c : Keeping (NX_ReSchedCheck NR s c) s fst.
Proof. unfold NX_ReSchedCheck, NX_SchedInterruptDisabled. intros x H. keep_cases; kept. Qed.

#[export] Instance start_keeps s id : Keeping (NX_ThreadStart NR s id) s fst.
Proof. unfold NX_ThreadStart. intros x H. keep_cases; kept. Qed.

#[export] Instance affinity_keeps s id c : Keeping (NX_ThreadSetAffinity NR s id c) s fst.
Proof. unfold NX_ThreadSetAffinity. intros x H. keep_cases; kept. Qed.

#[export] Instance set_idle_keeps s c id : Keeping (NX_SMP_SetIdle NR s c (Some id)) s fst.
Proof. unfold NX_SMP_SetIdle. intros x H. keep_cases; kept. Qed.

#[export] Instance first_keeps s c : Keeping (NX_SchedToFirstThread NR s c) s (fun s' => s').
Proof. unfold NX_SchedToFirstThread. intros x H. keep_cases; kept. Qed.
End keeping.
