(* ===== verification/SchedOps.v ===== *)
(** The scheduler in operation: every entry of the kernel into it, from boot
    on, runs without a failed assertion and keeps the invariant of
    [SchedInv.v]; what picking, waking and waiting do. *)
From S2P Require Import Prelude ThreadId Sched SchedInv SchedKeeps.

Section ops.
Context (NX_MULTI_CORES_NR : Z).
Implicit Types (s : Sys) (t : NX_Thread) (id c : Z) (sm : NX_Semaphore).
Notation sched_ok := (sched_ok NX_MULTI_CORES_NR).
Notation queues_ok := (queues_ok NX_MULTI_CORES_NR).

(** ** Semaphores *)
Lemma sem_check_ok s sem sm : sched_ok s -> sems s !! sem = Some sm -> sem_check s sem = Some (inl sm).
Proof.
  intros Hs Hsm. destruct (sm_value s (so_sems _ s Hs) sem sm Hsm) as (Hne & Hm & _). unfold sem_check.
  by rewrite (proj2 (Z.eqb_neq _ _)), Hsm, Some_bind, Hm, Z.eqb_refl.
Qed.

Lemma set_value_ok s sem sm x : sched_ok s -> sems s !! sem = Some sm ->
  sched_ok (upd_sem s sem (mkSem x (semWaitList sm) (magic sm))).
Proof.
  intros Hs Hsm. apply (sched_ok_sems NX_MULTI_CORES_NR); [done|]. destruct (so_sems _ s Hs) as [Hv Hl Ho Hw].
  assert (Hsub : forall sem' sm', <[sem := mkSem x (semWaitList sm) (magic sm)]> (sems s) !! sem' = Some sm' ->
    exists sm0, sems s !! sem' = Some sm0 /\ semWaitList sm' = semWaitList sm0).
  { intros sem' sm'. destruct (decide (sem' = sem)) as [->|Hne].
    - rewrite lookup_insert_eq. intros [= <-]. by exists sm.
    - rewrite lookup_insert_ne by done. by exists sm'. }
  split; cbn [with_sems sems threads].
  - intros sem' sm'. destruct (decide (sem' = sem)) as [->|Hne]; [|rewrite lookup_insert_ne by done; apply Hv].
    rewrite lookup_insert_eq. intros [= <-]. by apply (Hv sem sm).
  - intros sem' sm' j H1 Hj. destruct (Hsub sem' sm' H1) as (sm0 & H0 & El). rewrite El in Hj. by apply (Hl sem' sm0).
  - intros sem1 sem2 sm1 sm2 j H1 H2 Hj1 Hj2. destruct (Hsub sem1 sm1 H1) as (sm10 & H10 & E1).
    destruct (Hsub sem2 sm2 H2) as (sm20 & H20 & E2). rewrite E1 in Hj1. rewrite E2 in Hj2. by apply (Ho sem1 sem2 sm10 sm20 j).
  - intros j u Hu. destruct (decide (j = sem)) as [->|Hne]; [rewrite lookup_insert_eq; by eexists|].
    rewrite lookup_insert_ne by done. by apply (Hw j u).
Qed.

(** The threads a signal with a positive counter may wake, and those that stay. *)
Definition released sm : list Z := if 0 <? i64 (value sm + 1) then semWaitList sm else [].
Definition kept sm : list Z := if 0 <? i64 (value sm + 1) then [] else semWaitList sm.

Lemma released_all sm : 0 <= value sm < 2 ^ 63 - 1 -> released sm = semWaitList sm /\ kept sm = [] /\ i64 (value sm + 1) = value sm + 1.
Proof. intros Hv. unfold released, kept. rewrite i64_small by lia. by rewrite (proj2 (Z.ltb_lt _ _)) by lia. Qed.

Lemma released_waits sm w : w ∈ released sm -> w ∈ semWaitList sm.
Proof. unfold released. case_match; [done|by intros ?%elem_of_nil]. Qed.

Lemma Signal_spec s sem sm : sched_ok s -> sems s !! sem = Some sm ->
  exists s', NX_SemaphoreSignal NX_MULTI_CORES_NR s sem = Some (s', NX_EOK) /\ sched_ok s' /\
    match released sm with
    | [] => s' = upd_sem s sem (sem_incr sm)
    | id :: l => exists t, threads s !! id = Some t /\ threads s' = <[id := woken t]> (threads s) /\
        sems s' = <[sem := mkSem (i64 (value sm + 1)) l (magic sm)]> (sems s) /\
        (state t = NX_THREAD_BLOCKED -> readied NX_MULTI_CORES_NR s s' t NX_SCHED_HEAD id)
    end.
Proof.
  intros Hs Hsm. destruct (sm_value s (so_sems _ s Hs) sem sm Hsm) as (_ & _ & Hnd).
  unfold NX_SemaphoreSignal, released. rewrite (sem_check_ok s sem sm Hs Hsm), Some_bind. cbv beta iota zeta.
  pose proof (set_value_ok s sem sm (i64 (value sm + 1)) Hs Hsm) as Hs1. fold (sem_incr sm) in Hs1.
  rewrite Z.gtb_ltb. change (value (sem_incr sm)) with (i64 (value sm + 1)). destruct (0 <? _); [|by eexists].
  destruct (semWaitList sm) as [|id l] eqn:Hl; [by eexists|].
  destruct (wake_first_spec _ (upd_sem s sem (sem_incr sm)) sem (sem_incr sm) id Hs1) as
    (s' & t & Hw & Hs' & _ & _ & Ht & Hth & Hse & Hre); [apply lookup_insert_eq|cbn; rewrite Hl; left|].
  rewrite Hw, Some_bind. exists s'. split; [done|]. split; [done|]. exists t. split; [done|]. split; [done|]. split; [|exact Hre].
  rewrite Hse. cbn. rewrite insert_insert_eq, Hl. do 2 f_equal. by apply (list_del_middle id [] l).
Qed.

Lemma SignalAll_ok s sem sm : sched_ok s -> sems s !! sem = Some sm ->
  exists s', NX_SemaphoreSignalAll NX_MULTI_CORES_NR s sem = Some (s', NX_EOK) /\ sched_ok s' /\ cores s' = cores s /\
    globalList s' = globalList s /\ sems s' = <[sem := mkSem (i64 (value sm + 1)) (kept sm) (magic sm)]> (sems s) /\
    (forall id t, threads s !! id = Some t -> threads s' !! id = Some (if bool_decide (id ∈ released sm) then woken t else t)).
Proof.
  intros Hs Hsm. destruct (sm_value s (so_sems _ s Hs) sem sm Hsm) as (_ & _ & Hnd).
  unfold NX_SemaphoreSignalAll, released, kept. rewrite (sem_check_ok s sem sm Hs Hsm), Some_bind. cbv beta iota zeta.
  pose proof (set_value_ok s sem sm (i64 (value sm + 1)) Hs Hsm) as Hs1. fold (sem_incr sm) in Hs1.
  rewrite Z.gtb_ltb. change (value (sem_incr sm)) with (i64 (value sm + 1)). destruct (0 <? _).
  2: { exists (upd_sem s sem (sem_incr sm)). by split_and!. }
  destruct (SignalAll_spec _ (semWaitList sm) (upd_sem s sem (sem_incr sm)) sem (sem_incr sm) Hs1) as (s' & Hrun & Hs' & Hc & Hg & Hse & Hth);
    [apply lookup_insert_eq|done|].
  rewrite Hrun, Some_bind. exists s'. split; [done|]. split; [done|]. split; [done|]. split; [done|]. split; [|done].
  rewrite Hse. cbn. by rewrite insert_insert_eq.
Qed.

Lemma TryWait_spec s sem sm : sched_ok s -> sems s !! sem = Some sm ->
  exists s', NX_SemaphoreTryWait s sem = Some (s', if value sm >? 0 then NX_EOK else NX_EAGAIN) /\ sched_ok s' /\
    s' = (if value sm >? 0 then upd_sem s sem (mkSem (value sm - 1) (semWaitList sm) (magic sm)) else s).
Proof.
  intros Hs Hsm. unfold NX_SemaphoreTryWait. rewrite (sem_check_ok s sem sm Hs Hsm), Some_bind. rewrite Z.gtb_ltb.
  destruct (Z.ltb_spec 0 (value sm)); eexists; (split; [done|]); split; try done. by apply set_value_ok.
Qed.

Lemma sems_ok_link s sem sm id t : sems_ok s -> sems s !! sem = Some sm -> threads s !! id = Some t -> blockLinked t = false ->
  sems_ok (with_threads (upd_sem s sem (mkSem (value sm) (semWaitList sm ++ [id]) (magic sm))) (<[id := set_blockLinked true t]> (threads s))).
Proof.
  intros [Hv Hl Ho Hw] Hsm Ht Hb.
  assert (Hni : forall sem' sm', sems s !! sem' = Some sm' -> id ∉ semWaitList sm').
  { intros sem' sm' H1 Hi. destruct (Hl sem' sm' id H1 Hi) as (t' & ? & ?). congruence. }
  assert (Hsub : forall sem' sm', <[sem := mkSem (value sm) (semWaitList sm ++ [id]) (magic sm)]> (sems s) !! sem' = Some sm' ->
    exists sm0, sems s !! sem' = Some sm0 /\ forall j, j ∈ semWaitList sm' -> j ∈ semWaitList sm0 \/ (j = id /\ sem' = sem)).
  { intros sem' sm'. destruct (decide (sem' = sem)) as [->|Hne].
    - rewrite lookup_insert_eq. intros [= <-]. exists sm. split; [done|]. intros j. cbn. rewrite elem_of_app, list_elem_of_singleton. tauto.
    - rewrite lookup_insert_ne by done. intros H1. exists sm'. split; [done|]. by left. }
  split; cbn [upd_sem with_threads with_sems sems threads].
  - intros sem' sm'. destruct (decide (sem' = sem)) as [->|Hne]; [|rewrite lookup_insert_ne by done; apply Hv].
    rewrite lookup_insert_eq. intros [= <-]. destruct (Hv sem sm Hsm) as (? & ? & ?). cbn. split_and!; try done.
    rewrite Permutation_app_comm. constructor; [by apply (Hni sem)|done].
  - intros sem' sm' j H1 Hj. destruct (Hsub sem' sm' H1) as (sm0 & H0 & Hall).
    destruct (decide (j = id)) as [->|Hne]; [rewrite lookup_insert_eq; by eexists|rewrite lookup_insert_ne by done].
    destruct (Hall j Hj) as [Hj0|[? _]]; [|done]. by apply (Hl sem' sm0).
  - intros sem1 sem2 sm1 sm2 j H1 H2 Hj1 Hj2. destruct (Hsub sem1 sm1 H1) as (sm10 & H10 & Hall1).
    destruct (Hsub sem2 sm2 H2) as (sm20 & H20 & Hall2).
    destruct (Hall1 j Hj1) as [Hj1'|[E1 E1']], (Hall2 j Hj2) as [Hj2'|[E2 E2']].
    + by apply (Ho sem1 sem2 sm10 sm20 j).
    + exfalso. apply (Hni sem1 sm10 H10). by rewrite <- E2.
    + exfalso. apply (Hni sem2 sm20 H20). by rewrite <- E1.
    + congruence.
  - intros j u. assert (Hex : forall u0, threads s !! j = Some u0 -> is_Some (<[sem := mkSem (value sm) (semWaitList sm ++ [id]) (magic sm)]> (sems s) !! j)).
    { intros u0 Hu0. destruct (decide (j = sem)) as [->|Hne]; [rewrite lookup_insert_eq; by eexists|].
      rewrite lookup_insert_ne by done. by apply (Hw j u0). }
    destruct (decide (j = id)) as [->|Hne]; [intros _; by apply (Hex t)|]. rewrite lookup_insert_ne by done. apply Hex.
Qed.

Lemma link_ok s sem sm id t : sched_ok s -> sems s !! sem = Some sm -> threads s !! id = Some t -> blockLinked t = false ->
  sched_ok (with_threads (upd_sem s sem (mkSem (value sm) (semWaitList sm ++ [id]) (magic sm))) (<[id := set_blockLinked true t]> (threads s))).
Proof.
  intros [Hok Hro Hlf Hsm] Hs Ht Hb. set (t1 := set_blockLinked true t). assert (Hq : quiet t t1) by done. split.
  - assert (Hq1 : queues_ok (with_threads s (<[id := t1]> (threads s))) None).
    { apply upd_ok with t; [done|done|exact (proj2 (qo_threads _ s _ Hok id t Ht))|right; left; done]. }
    destruct Hq1; by split.
  - pose proof (run_ok_quiet s None id t t1 Hro Ht Hq) as []; by split.
  - by apply (life_ok_insert s _ id t t1).
  - by apply sems_ok_link.
Qed.

(** One turn of waiting: a token is taken, or the thread is on the wait list,
    blocked, and another one runs. *)
Lemma wait_turn_spec s c id t sem sm : sched_ok s -> current s c id -> threads s !! id = Some t -> ~ is_idle s id -> sems s !! sem = Some sm ->
  exists s' out, SemaphoreWait_turn NX_MULTI_CORES_NR s c sem = Some (s', out) /\ sched_ok s' /\
    if value sm >? 0 then out = Returned NX_EOK /\ s' = upd_sem s sem (mkSem (value sm - 1) (semWaitList sm) (magic sm))
    else out = Switched /\ (exists next, current s' c next) /\
      exists t', threads s' !! id = Some t' /\ resched (set_state NX_THREAD_BLOCKED (set_blockLinked true t)) t' /\
      sems s' = (if blockLinked t then sems s else <[sem := mkSem (value sm) (semWaitList sm ++ [id]) (magic sm)]> (sems s)).
Proof.
  intros Hs Hcur Ht Hni Hsm. unfold SemaphoreWait_turn. rewrite (sem_check_ok s sem sm Hs Hsm), Some_bind. cbv beta iota.
  rewrite Z.gtb_ltb. destruct (Z.ltb_spec 0 (value sm)).
  { eexists _, _. split; [done|]. split; [by apply set_value_ok|done]. }
  rewrite (ThreadSelf_spec _ s c id (so_queues _ s Hs) Hcur), Some_bind, Ht, Some_bind.
  assert (Hblock : forall s1 t1, sched_ok s1 -> cores s1 = cores s -> threads s1 !! id = Some t1 ->
    set_blockLinked true t1 = t1 -> exists s', ('(s, out) ← NX_ThreadBlockLockedIRQ NX_MULTI_CORES_NR s1 c id;
        match out with Returned err => assert (is_ok err);; Some (s, Again) | _ => Some (s, out) end) = Some (s', Switched) /\
      sched_ok s' /\ (exists next, current s' c next) /\ sems s' = sems s1 /\
      exists t', threads s' !! id = Some t' /\ resched (set_state NX_THREAD_BLOCKED t1) t').
  { intros s1 t1 Hs1 Ec Ht1 Hb1.
    destruct (block_self_spec _ s1 c id t1 Hs1) as (s' & next & Hbl & Hs' & Hcur' & Hf); [unfold current; by rewrite Ec|done|unfold is_idle; by rewrite Ec|].
    exists s'. rewrite Hbl, Some_bind. split; [done|]. split; [done|]. split; [by exists next|].
    split; [apply (sf_sems _ _ Hf)|]. apply (threads_le_lookup _ _ id _ (sf_threads _ _ Hf)). apply lookup_insert_eq. }
  destruct (blockLinked t) eqn:Hb; cbn [negb].
  - rewrite Some_bind. destruct (Hblock s t Hs eq_refl Ht) as (s' & Hr & Hs' & Hc' & Es & t' & Ht' & Hre); [destruct t; cbn in *; by subst|].
    exists s', Switched. split; [exact Hr|]. split; [done|]. split; [done|]. split; [done|]. exists t'. split; [done|]. split; [|done].
    destruct t; cbn in *; by subst.
  - unfold upd_thread. cbn [upd_sem with_sems threads]. rewrite Ht, !Some_bind.
    destruct (Hblock _ (set_blockLinked true t) (link_ok s sem sm id t Hs Hsm Ht Hb) eq_refl) as (s' & Hr & Hs' & Hc' & Es & t' & Ht' & Hre);
      [apply lookup_insert_eq|done|].
    exists s', Switched. split; [exact Hr|]. split; [done|]. split; [done|]. split; [done|]. exists t'. split; [done|]. split; [done|].
    by rewrite Es.
Qed.

(** ** Exit *)
Lemma ExitNotify_spec l s code : sched_ok s -> (forall w, w ∈ l -> is_Some (threads s !! w)) ->
  exists s', ExitNotify_loop s code l = Some s' /\ sched_ok s' /\ cores s' = cores s /\ sems s' = sems s /\
    globalList s' = globalList s /\ forall id t, threads s !! id = Some t -> threads s' !! id = Some (if bool_decide (id ∈ l) then set_waitExitCode code t else t).
Proof.
  revert s. induction l as [|w l IH]; intros s Hs Hall.
  { exists s. split; [done|]. split; [done|]. split; [done|]. split; [done|]. split; [done|]. intros. by rewrite bool_decide_eq_false_2 by set_solver. }
  destruct (Hall w) as [t Ht]; [left|]. cbn [ExitNotify_loop]. unfold upd_thread. rewrite Ht, !Some_bind.
  set (s1 := with_threads s (<[w := set_waitExitCode code t]> (threads s))).
  destruct (IH s1) as (s' & Hrun & Hs' & Ec & Es & Eg & Hth).
  - by apply sched_ok_quiet with t.
  - intros j Hj. cbn. destruct (decide (j = w)) as [->|Hne]; [rewrite lookup_insert_eq; by eexists|].
    rewrite lookup_insert_ne by done. apply Hall. by right.
  - exists s'. split; [done|]. split; [done|]. split; [done|]. split; [done|]. split; [done|]. intros j u Hu.
    destruct (decide (j = w)) as [->|Hne].
    + assert (u = t) as -> by congruence. rewrite (Hth w (set_waitExitCode code t)) by apply lookup_insert_eq.
      rewrite (bool_decide_eq_true_2 (w ∈ w :: l)) by left. by case_bool_decide.
    + rewrite (Hth j u) by (cbn; by rewrite lookup_insert_ne). f_equal. repeat case_bool_decide; set_solver.
Qed.

Lemma notify_spec s id t : sched_ok s -> threads s !! id = Some t ->
  exists s' sm, ThreadExitNotify NX_MULTI_CORES_NR s id = Some s' /\ sched_ok s' /\ cores s' = cores s /\ globalList s' = globalList s /\
    sems s !! id = Some sm /\ sems s' = <[id := mkSem (i64 (value sm + 1)) (kept sm) (magic sm)]> (sems s) /\
    forall w u, threads s !! w = Some u ->
      let u := if bool_decide (w ∈ semWaitList sm) then set_waitExitCode (exitCode t) u else u in
      threads s' !! w = Some (if bool_decide (w ∈ released sm) then woken u else u).
Proof.
  intros Hs Ht. destruct (sm_waiter s (so_sems _ s Hs) id t Ht) as [sm Hsm].
  destruct (ExitNotify_spec (semWaitList sm) s (exitCode t) Hs) as (s1 & H1 & Hs1 & Ec1 & Es1 & Eg1 & Hth1).
  { intros w Hw. destruct (sm_linked s (so_sems _ s Hs) id sm w Hsm Hw) as (u & Hu & _). by eexists. }
  destruct (SignalAll_ok s1 id sm Hs1) as (s2 & H2 & Hs2 & Ec2 & Eg2 & Es2 & Hth2); [by rewrite Es1|].
  exists s2, sm. unfold ThreadExitNotify. rewrite Ht, Some_bind, Hsm, Some_bind, H1, Some_bind, H2, Some_bind.
  split; [done|]. split; [done|]. split; [congruence|]. split; [congruence|]. split; [done|]. split; [congruence|].
  intros w u Hu. by erewrite Hth2 by (by apply Hth1).
Qed.

Lemma leave_lists s id t : sched_ok s -> threads s !! id = Some t -> state t = NX_THREAD_RUNNING ->
  let s' := with_exit (with_global (with_threads s (<[id := set_state NX_THREAD_EXIT t]> (threads s)))
              (list_del id (globalList s)) (activeThreadCount s - 1)) (id :: exitList s) in
  id ∈ globalList s /\ id ∉ exitList s /\ life_ok s'.
Proof.
  intros Hs Ht Hst s'. destruct (so_life _ s Hs) as [Hnd Hal Hgl Hac [Hxn Hx]].
  assert (Hid : id ∈ globalList s) by (apply (Hal id t Ht); by right; left).
  assert (Hnx : id ∉ exitList s) by (intros (u & Hu & ?)%Hx; congruence).
  split; [done|]. split; [done|]. split; cbn [s' with_exit with_global with_threads threads globalList exitList activeThreadCount].
  - by apply NoDup_list_del.
  - intros j u. destruct (decide (j = id)) as [->|Hne]; [rewrite lookup_insert_eq; intros [= <-] [|[|]]; done|].
    rewrite lookup_insert_ne by done. intros Hu Ha. apply elem_of_list_del. split; [done|]. by apply (Hal j u).
  - intros j [Hne Hj]%elem_of_list_del. rewrite lookup_insert_ne by done. by apply Hgl.
  - rewrite Hac, (length_list_del id _ Hnd Hid). lia.
  - split; [by constructor|]. intros j Hj. destruct (decide (j = id)) as [->|Hne]; [rewrite lookup_insert_eq; by eexists|].
    rewrite lookup_insert_ne by done. apply Hx. apply elem_of_cons in Hj as [|]; done.
Qed.

(** A thread that leaves for good: it is taken off the list of threads and another
    one runs. *)
Lemma leave_spec s c id : sched_ok s -> current s c id -> ~ is_idle s id ->
  exists s' next, (s ← NX_ThreadDeququeGlobalListUnlocked s id; NX_SchedExit NX_MULTI_CORES_NR s c) = Some s' /\ sched_ok s' /\
    current s' c next /\ id ∈ exitList s' /\ sems s' = sems s /\
    forall w u, w <> id -> threads s !! w = Some u -> exists u', threads s' !! w = Some u' /\ resched u u'.
Proof.
  intros Hs2 Hcur2 Hni. destruct (current_thread _ s c id Hs2 Hcur2) as (t2 & Ht2 & Hst2 & _).
  destruct (leave_lists s id t2 Hs2 Ht2 Hst2) as (Hg & Hx & Hlife). set (s3 := with_exit _ _) in Hlife.
  pose proof Hs2 as [Hok Hro Hlf Hsems].
  destruct (switch_spec NX_MULTI_CORES_NR s3 c id) as (s' & next & Hsw & Hs' & Hcur' & Hf).
  - assert (Hq : queues_ok (with_threads s (<[id := set_state NX_THREAD_EXIT t2]> (threads s))) None).
    { apply upd_ok with t2; [done|done|exact (proj2 (qo_threads _ s _ Hok id t2 Ht2))|]. right. right. split; [congruence|done]. }
    destruct Hq; by split.
  - by apply (run_ok_leave s s3 c id t2 (set_state NX_THREAD_EXIT t2)).
  - exact Hlife.
  - by apply (sems_ok_insert s s3 id t2 (set_state NX_THREAD_EXIT t2)).
  - exact Hcur2.
  - exists s', next. split; [|split; [done|split; [done|split; [|split]]]].
    + unfold NX_ThreadDeququeGlobalListUnlocked. rewrite bool_decide_eq_true_2, assert_true, Some_bind by done. unfold NX_SchedExit.
      change (NX_ThreadSelf NX_MULTI_CORES_NR (with_global s ?a ?b) c) with (NX_ThreadSelf NX_MULTI_CORES_NR s c).
      rewrite (ThreadSelf_spec _ s c id Hok Hcur2), Some_bind. unfold upd_thread. cbn [with_global threads]. rewrite Ht2, !Some_bind.
      unfold NX_ThreadEnququeExitList. cbn [with_threads with_global exitList]. rewrite bool_decide_eq_false_2, assert_true, Some_bind by done.
      exact Hsw.
    + rewrite (sf_exit _ _ Hf). left.
    + exact (sf_sems _ _ Hf).
    + intros w u Hne Hu. apply (threads_le_lookup _ _ w _ (sf_threads _ _ Hf)). cbn. by rewrite lookup_insert_ne.
Qed.

Lemma exit_spec s c id t code : sched_ok s -> current s c id -> threads s !! id = Some t -> ~ is_idle s id ->
  exists s' sm, NX_ThreadExit NX_MULTI_CORES_NR s c code = Some s' /\ sched_ok s' /\ (exists next, current s' c next) /\
    id ∈ exitList s' /\ sems s !! id = Some sm /\
    forall w u, w ∈ released sm -> w <> id -> threads s !! w = Some u -> exists u', threads s' !! w = Some u' /\
      resched (woken (set_waitExitCode code u)) u'.
Proof.
  intros Hs Hcur Ht Hni. set (s1 := with_threads s (<[id := set_exitCode code t]> (threads s))).
  assert (Hs1 : sched_ok s1) by (by apply sched_ok_quiet with t).
  destruct (notify_spec s1 id (set_exitCode code t) Hs1) as (s2 & sm & H2 & Hs2 & Ec2 & Eg2 & Hsm & Es2 & Hw2); [apply lookup_insert_eq|].
  assert (Hcur2 : current s2 c id) by (unfold current; by rewrite Ec2).
  destruct (leave_spec s2 c id Hs2 Hcur2) as (s' & next & Hrun & Hs' & Hn & Hx & _ & Hth); [unfold is_idle; by rewrite Ec2|].
  exists s', sm. split; [|split; [done|split; [by exists next|split; [done|split; [done|]]]]].
  - unfold NX_ThreadExit. rewrite (ThreadSelf_spec _ s c id (so_queues _ s Hs) Hcur), Some_bind. unfold upd_thread.
    rewrite Ht, !Some_bind. fold s1. rewrite H2, Some_bind. exact Hrun.
  - intros w u Hw Hne Hu. apply Hth; [done|]. rewrite (Hw2 w u) by (cbn; by rewrite lookup_insert_ne).
    pose proof (released_waits sm w Hw). by rewrite !bool_decide_eq_true_2 by done.
Qed.

(** ** The clock *)
Lemma tick_spec s c id t : sched_ok s -> current s c id -> threads s !! id = Some t -> (isTerminated t <> 0 -> ~ is_idle s id) ->
  exists s' out, NX_SchedIrqHandler NX_MULTI_CORES_NR s c = Some (s', out) /\ sched_ok s' /\ (exists next, current s' c next).
Proof.
  intros Hs Hcur Ht Hni. unfold NX_SchedIrqHandler. rewrite (ThreadSelf_spec _ s c id (so_queues _ s Hs) Hcur), Some_bind, Ht, Some_bind.
  unfold nz. destruct (Z.eqb_spec (isTerminated t) 0); cbn [negb].
  - unfold upd_thread. rewrite Ht, !Some_bind. eexists _, _. split; [reflexivity|]. split; [by apply sched_ok_quiet with t|by exists id].
  - destruct (exit_spec s c id t 1 Hs Hcur Ht (Hni n)) as (s' & sm & He & Hs' & Hc' & _). rewrite He, Some_bind. eexists _, _. done.
Qed.

Lemma check_spec s c id t : sched_ok s -> current s c id -> threads s !! id = Some t -> (isTerminated t <> 0 -> ~ is_idle s id) ->
  exists s' out, NX_ReSchedCheck NX_MULTI_CORES_NR s c = Some (s', out) /\ sched_ok s' /\ (exists next, current s' c next).
Proof.
  intros Hs Hcur Ht Hni. unfold NX_ReSchedCheck. rewrite (ThreadSelf_spec _ s c id (so_queues _ s Hs) Hcur), Some_bind, Ht, Some_bind.
  unfold nz. destruct (Z.eqb_spec (isTerminated t) 0); cbn [negb].
  - destruct (Z.eqb_spec (needSched t) 0); cbn [negb]; [by exists s, (Returned NX_EOK); split_and!; try done; exists id|].
    unfold upd_thread. rewrite Ht, !Some_bind. set (t1 := set_clock _ _ _ t). set (s1 := with_threads s _).
    assert (Hs1 : sched_ok s1) by (by apply sched_ok_quiet with t).
    destruct (requeue_spec _ s1 c id t1 Hs1 Hcur) as (s2 & s' & next & Hr & _ & _ & Hsw & Hs' & Hcur' & _); [apply lookup_insert_eq|].
    rewrite Hr, Some_bind, Hsw, Some_bind. eexists _, _. split; [reflexivity|]. split; [done|by exists next].
  - unfold upd_thread. rewrite Ht, !Some_bind. set (s1 := with_threads s _).
    assert (Hs1 : sched_ok s1) by (by apply sched_ok_quiet with t).
    destruct (exit_spec s1 c id (set_terminated 0 t) 1 Hs1 Hcur) as (s' & sm & He & Hs' & Hc' & _); [apply lookup_insert_eq|by apply Hni|].
    rewrite He, Some_bind. eexists _, _. done.
Qed.

Lemma terminate_spec s id t code : sched_ok s -> threads s !! id = Some t ->
  exists s' err, NX_ThreadTerminate NX_MULTI_CORES_NR s id code = Some (s', err) /\ sched_ok s'.
Proof.
  intros Hs Ht. destruct (qo_threads _ s _ (so_queues _ s Hs) id t Ht) as [Hid _].
  unfold NX_ThreadTerminate. rewrite (proj2 (Z.eqb_neq _ _)), Ht, Some_bind by done.
  destruct (_ || _); [by eexists _, _|]. unfold upd_thread. rewrite Ht, !Some_bind.
  set (t1 := set_exitCode code (set_terminated 1 t)). set (s1 := with_threads s (<[id := t1]> (threads s))).
  assert (Hs1 : sched_ok s1) by (by apply sched_ok_quiet with t).
  destruct (unblock_spec _ s1 id t1 Hs1) as (s' & Hu & Hs' & _); [apply lookup_insert_eq|].
  rewrite Hu, Some_bind. eexists _, _. split; [reflexivity|done].
Qed.

(** ** Birth *)
Lemma start_spec s id t : sched_ok s -> threads s !! id = Some t -> state t = NX_THREAD_INIT -> id ∉ globalList s ->
  exists s', NX_ThreadStart NX_MULTI_CORES_NR s id = Some (s', NX_EOK) /\ sched_ok s' /\ frame (NX_ThreadEnququeGlobalListUnlocked s id) s' /\
    threads s' = <[id := set_state NX_THREAD_READY t]> (threads s).
Proof.
  intros Hs Ht Hst Hng. pose proof Hs as [Hok Hro Hlf Hsm]. destruct (qo_threads _ s _ Hok id t Ht) as [Hid Htok].
  unfold NX_ThreadStart. rewrite (proj2 (Z.eqb_neq _ _)) by done. set (s1 := NX_ThreadEnququeGlobalListUnlocked s id).
  assert (Hok1 : queues_ok s1 (Some id)).
  { assert (Hq : queues_ok s (Some id)) by (apply hole_open with t; [done|done|congruence]). destruct Hq; by split. }
  destruct (ready_run_spec _ s1 id t NX_SCHED_TAIL Hok1 Ht) as (s' & Hr & Hok' & Hfr & Hth & _). rewrite Hr, Some_bind.
  exists s'. split; [done|]. split; [|done]. pose proof Hfr as [Ec Es Eg Ex Ea Eu]. set (t1 := set_state NX_THREAD_READY t) in *. split.
  - done.
  - apply (run_ok_upd s s' None id t t1); try done. congruence.
  - destruct Hlf as [Hnd Hal Hgl Hac [Hxn Hx]]. split; rewrite ?Eg, ?Ex, ?Ea, ?Hth; cbn [s1 NX_ThreadEnququeGlobalListUnlocked with_global globalList exitList activeThreadCount threads].
    + by constructor.
    + intros j u. destruct (decide (j = id)) as [->|Hne]; [left|]. rewrite lookup_insert_ne by done. intros Hu Ha. right. by apply (Hal j u).
    + intros j Hj. destruct (decide (j = id)) as [->|Hne]; [rewrite lookup_insert_eq; by eexists|].
      rewrite lookup_insert_ne by done. apply Hgl. apply elem_of_cons in Hj as [|]; done.
    + rewrite Hac. cbn. lia.
    + split; [done|]. intros j Hj. destruct (Hx j Hj) as (u & Hu & ?). rewrite lookup_insert_ne; [by exists u|]. intros ->. congruence.
  - by apply (sems_ok_insert s s' id t t1).
Qed.

Lemma affinity_spec s id t c : sched_ok s -> threads s !! id = Some t -> state t = NX_THREAD_INIT -> 0 <= c ->
  exists s' err, NX_ThreadSetAffinity NX_MULTI_CORES_NR s id c = Some (s', err) /\ sched_ok s'.
Proof.
  intros Hs Ht Hst Hc. pose proof Hs as [Hok Hro Hlf Hsm]. unfold NX_ThreadSetAffinity. destruct (_ || _); [by eexists _, _|].
  unfold upd_thread. rewrite Ht, !Some_bind. eexists _, _. split; [reflexivity|].
  destruct (qo_threads _ s _ Hok id t Ht) as [Hid [Hpr _]]. split.
  - apply upd_ok with t; [done|done|split; [done|exact Hc]|]. right. right. cbn. split; congruence.
  - apply (run_ok_upd s _ None id t (set_affinity c t)); try done; [congruence|cbn; congruence|].
    intros c' r Hi. destruct (ro_idle s _ Hro c' r id Hi) as (u & Hu & Hus & _). assert (u = t) as -> by congruence. destruct Hus; congruence.
  - apply (life_ok_insert s _ id t (set_affinity c t)); try done.
  - by apply (sems_ok_insert s _ id t (set_affinity c t)).
Qed.

Lemma cores_idle s c cpu r c' : zlookup (cpuArray s) c = Some cpu -> 0 <= c' ->
  zlookup (cores (upd_cpu s c (with_idle cpu r))) c' = if decide (c' = c) then Some (threadRunning cpu, r) else zlookup (cores s) c'.
Proof.
  intros Hcpu Hc'. pose proof (zlookup_lt _ _ _ Hcpu) as Hc.
  assert (cores (upd_cpu s c (with_idle cpu r)) = zinsert (cores s) c (threadRunning cpu, r)) as ->.
  { unfold cores, upd_cpu, zinsert. cbn [with_cpus cpuArray]. by rewrite list_fmap_insert. }
  apply zlookup_zinsert; [|done]. unfold cores. by rewrite length_fmap.
Qed.

Lemma set_idle_spec s c id t : sched_ok s -> 0 <= c < NX_MULTI_CORES_NR -> threads s !! id = Some t ->
  (state t = NX_THREAD_READY \/ state t = NX_THREAD_RUNNING) -> onCore t = c -> coreAffinity t = c -> fixedPriority t = 0 ->
  exists s', NX_SMP_SetIdle NX_MULTI_CORES_NR s c (Some id) = Some (s', NX_EOK) /\ sched_ok s'.
Proof.
  intros Hs Hc Ht Hst Htc Hta Htf. pose proof Hs as [Hok Hro Hlf Hsm].
  destruct (CpuGetIndex_spec _ s _ c Hok Hc) as (cpu & Hget & Hcpu). set (s' := upd_cpu s c (with_idle cpu (Some id))).
  exists s'. unfold NX_SMP_SetIdle. rewrite Z.geb_leb, (proj2 (Z.leb_gt _ _)), Hget, Some_bind by lia. split; [done|].
  assert (Hcl : forall c', 0 <= c' -> zlookup (cores s') c' = if decide (c' = c) then Some (threadRunning cpu, Some id) else zlookup (cores s) c')
    by (intros; by apply cores_idle).
  assert (Hcur : forall c' j, current s' c' j <-> current s c' j).
  { intros c' j. destruct (decide (0 <= c')) as [H0|H0].
    - unfold current. rewrite Hcl by done. case_decide; [|done]. subst c'. rewrite (cores_lookup s c cpu Hcpu).
      split; intros [i [= E]]; eexists; by rewrite E.
    - split; intros [i [Hi _]%zlookup_Some]; lia. }
  split.
  - by apply cpu_same_queues with cpu.
  - destruct Hro as [Hact Hcr Hrun Hidle Hhas]. split; [done|..].
    + intros c' j Hj%Hcur. by apply Hcr.
    + intros j u Hu Hus. rewrite Hcur. by apply Hrun.
    + intros c' r i Hi. pose proof (zlookup_lt _ _ _ Hi). rewrite Hcl in Hi by lia. case_decide; [|by apply (Hidle c' r)].
      injection Hi as _ <-. subst c'. by exists t.
    + intros c' r i Hi. pose proof (zlookup_lt _ _ _ Hi). rewrite Hcl in Hi by lia. case_decide; [|by apply (Hhas c' r)].
      by injection Hi as _ <-.
  - by apply (life_ok_le s).
  - by apply (sems_ok_le s).
Qed.

(** The first thread of a core. *)
Lemma first_spec s c i : sched_ok s -> zlookup (cores s) c = Some (None, Some i) ->
  exists s' next, NX_SchedToFirstThread NX_MULTI_CORES_NR s c = Some s' /\ sched_ok s' /\ current s' c next.
Proof.
  intros Hs Hi. pose proof Hs as [Hok Hro Hlf Hsm].
  assert (Hc : 0 <= c < NX_MULTI_CORES_NR).
  { pose proof (zlookup_lt _ _ _ Hi) as Hl. unfold cores in Hl. by rewrite length_fmap, (qo_cores _ s _ Hok) in Hl. }
  assert (Hro1 : run_ok s (Some c)).
  { destruct Hro as [Hact Hcr Hrun Hidle Hhas]. split; try done.
    - intros c' j Hj _. by apply Hcr.
    - intros j u Hu Hus. destruct (Hrun j u Hu Hus) as [_ Hj]. split; [|done]. intros [= Hc']. destruct Hj as [k Hj].
      rewrite <- Hc', Hi in Hj. done. }
  destruct (idle_queued _ s c None i Hok Hro1 Hi Hc) as (q0 & Hq0 & Hne).
  destruct (pick_spec _ s c 0 q0 Hok Hc Hq0 Hne) as (s2 & next & t & q & Hp & Hok2 & Hfr2 & Ht & Hst & Htc & Hth2 & _).
  destruct (LowerPriority_fields t) as (Els & Elc & x & Ex). pose proof (fr_cores _ _ Hfr2) as Ec2.
  assert (Hro2 : run_ok s2 (Some c)).
  { apply (run_ok_upd s s2 (Some c) next t (NX_ThreadLowerPriority t)); try done; [apply (fr_cpus _ _ Hfr2)|congruence|congruence|].
    intros c' r _. rewrite Els, Elc, Ex. done. }
  destruct (SetRunning_spec _ s2 c next (NX_ThreadLowerPriority t) Hok2 Hro2) as (s3 & Hrun & Hok3 & Hro3 & Hcur3 & Hsf); try done.
  { by rewrite Hth2, lookup_insert_eq. } { congruence. } { congruence. } { exists None, i. by rewrite Ec2. }
  exists s3, next. unfold NX_SchedToFirstThread. rewrite Hp, Some_bind. cbv beta iota. rewrite Hrun, Some_bind. cbv beta iota.
  change (is_ok NX_EOK) with true. rewrite assert_true. split; [done|]. split; [|done].
  assert (Hf : sched_frame s s3).
  { destruct Hsf as [Hle3 E1 E2 E3 E4], Hfr2 as [_ G1 G2 G3 G4 _]. split; [|congruence..].
    transitivity (threads s2); [|done]. rewrite Hth2. apply threads_le_insert with t; [done|].
    exists (state t), x, (onCore t). rewrite Ex. split; [by destruct t|by left]. }
  split; [done|done|by apply life_ok_le with s|by apply sems_ok_le with s].
Qed.

(** A new thread, at a fresh address. *)
Lemma fresh_ok s id t sm : sched_ok s -> threads s !! id = None -> id <> 0 -> state t = NX_THREAD_INIT -> thread_ok t ->
  sems s !! id = None -> magic sm = SEMPAHORE_MAGIC -> semWaitList sm = [] ->
  sched_ok (with_sems (with_threads s (<[id := t]> (threads s))) (<[id := sm]> (sems s))).
Proof.
  intros [Hok Hro Hlf Hsm] Hn Hid Hst Htok Hsn Hmg Hwl.
  assert (Hold : forall j u, threads s !! j = Some u -> <[id := t]> (threads s) !! j = Some u).
  { intros j u Hu. rewrite lookup_insert_ne; [done|]. intros ->. congruence. }
  assert (Hnew : forall j u, <[id := t]> (threads s) !! j = Some u -> (j = id /\ u = t) \/ threads s !! j = Some u).
  { intros j u. destruct (decide (j = id)) as [->|Hne]; [rewrite lookup_insert_eq; intros [= <-]; by left|].
    rewrite lookup_insert_ne by done. by right. }
  split.
  - destruct Hok as [Hcores Hlev Hqnd Hpnd Hready Hpend Hcnt Hpcnt Hthr]. split; try done.
    + intros c p q j Hq. change (queue (with_sems (with_threads s _) _) c p) with (queue s c p) in Hq.
      rewrite (Hready c p q j Hq). split; intros [(u & Hu & Hus & ?) _]; (split; [|done]); exists u; (split; [|done]).
      * by apply Hold.
      * by apply Hnew in Hu as [[-> ->]|Hu]; [congruence|].
    + intros j. cbn. rewrite Hpend. split; intros [(u & Hu & Hus & ?) _]; (split; [|done]); exists u; (split; [|done]).
      * by apply Hold.
      * by apply Hnew in Hu as [[-> ->]|Hu]; [congruence|].
    + intros j u [[-> ->]|Hu]%Hnew; [done|by apply (Hthr j)].
  - destruct Hro as [Hact Hcr Hrun Hidle Hhas]. split; try done.
    + intros c j Hj Hh. destruct (Hcr c j Hj Hh) as (u & Hu & ?). exists u. split; [by apply Hold|done].
    + intros j u [[-> ->]|Hu]%Hnew Hus; [congruence|by apply (Hrun j u)].
    + intros c r i Hi. destruct (Hidle c r i Hi) as (u & Hu & ?). exists u. split; [by apply Hold|done].
  - destruct Hlf as [Hnd Hal Hgl Hac [Hxn Hx]]. split; try done.
    + intros j u [[-> ->]|Hu]%Hnew Ha; [unfold alive in Ha; rewrite Hst in Ha; by destruct Ha as [|[|]]|by apply (Hal j u)].
    + intros j Hj. destruct (Hgl j Hj) as (u & Hu & ?). exists u. split; [by apply Hold|done].
    + split; [done|]. intros j Hj. destruct (Hx j Hj) as (u & Hu & ?). exists u. split; [by apply Hold|done].
  - destruct Hsm as [Hva Hl Ho Hw].
    assert (Hs' : forall j sm', <[id := sm]> (sems s) !! j = Some sm' -> (j = id /\ sm' = sm) \/ sems s !! j = Some sm').
    { intros j sm'. destruct (decide (j = id)) as [->|Hne]; [rewrite lookup_insert_eq; intros [= <-]; by left|].
      rewrite lookup_insert_ne by done. by right. }
    split; cbn [with_sems with_threads sems threads].
    + intros j sm' [[-> ->]|H1]%Hs'; [|by apply Hva]. rewrite Hwl. split_and!; try done. by constructor.
    + intros j sm' k [[-> ->]|H1]%Hs'; [rewrite Hwl; by intros ?%elem_of_nil|]. intros Hk.
      destruct (Hl j sm' k H1 Hk) as (u & Hu & ?). exists u. split; [by apply Hold|done].
    + intros j1 j2 sm1 sm2 k [[-> ->]|H1]%Hs' [[-> ->]|H2]%Hs'; rewrite ?Hwl; try done; try (by intros ?%elem_of_nil); try (by intros ? ?%elem_of_nil).
      by apply (Ho j1 j2 sm1 sm2).
    + intros j u [[-> ->]|Hu]%Hnew; [rewrite lookup_insert_eq; by eexists|]. rewrite lookup_insert_ne; [by apply (Hw j u)|]. intros ->. congruence.
Qed.

Lemma create_spec s id stack name hnd arg prio : sched_ok s -> id <> 0 -> threads s !! id = None -> sems s !! id = None ->
  0 <= prio -> 0 <= NX_MULTI_CORES_NR -> is_Some (NX_ThreadIdAlloc (threadIdObject s)) ->
  exists s' r, NX_ThreadCreate NX_MULTI_CORES_NR (Some id) (Some stack) s name hnd arg prio = Some (s', r) /\ sched_ok s' /\
    (r = Some id -> exists t, threads s' !! id = Some t /\ state t = NX_THREAD_INIT /\ priority t = prio /\ fixedPriority t = prio /\
       onCore t = NX_MULTI_CORES_NR /\ globalList s' = globalList s).
Proof.
  intros Hs Hid Hn Hsn Hprio Hnr [[ids i] Hal]. unfold NX_ThreadCreate.
  destruct ((name =? 0) || (hnd =? 0) || (prio >=? NX_THREAD_MAX_PRIORITY_NR)) eqn:Ep; [by exists s, None|].
  apply orb_false_iff in Ep as [_ Ep]. rewrite Z.geb_leb in Ep. apply Z.leb_gt in Ep. change NX_THREAD_MAX_PRIORITY_NR with 16 in Ep.
  unfold ThreadInit. destruct (_ || negb (nz 8192)) eqn:E0; [by exists s, None|].
  rewrite Hal, Some_bind. cbv beta iota.
  assert (Hids : sched_ok (with_ids s ids)) by (destruct Hs as [[] [] [] []]; split; by split).
  destruct (i <? 0); [rewrite Some_bind; by exists (with_ids s ids), None|].
  unfold NX_SemaphoreInit. rewrite (proj2 (Z.eqb_neq _ _)) by done. rewrite Some_bind. cbv beta iota. cbn [fst].
  set (t := mkThread _ _ _ _ _ _ _ _ _ _ _ _ _ _ _ _ _ _). eexists _, _. split; [reflexivity|]. split.
  - apply (fresh_ok (with_ids s ids) id t); try done. split; [split; [cbn; unfold NX_THREAD_MAX_PRIORITY_NR; lia|]|exact Hnr].
    cbn [t fixedPriority priority]. destruct (_ && _) eqn:E1; [|done]. apply andb_true_iff in E1 as [E1 _]. apply Z.leb_le in E1. lia.
  - intros _. exists t. split; [apply lookup_insert_eq|done].
Qed.

(** ** Freeing a thread *)

(** Its node is on no wait list and nobody waits for it. *)
Definition releasable s id : Prop :=
  exists t sm, threads s !! id = Some t /\ blockLinked t = false /\ sems s !! id = Some sm /\ semWaitList sm = [].

Definition without s id : Sys := with_sems (with_threads s (delete id (threads s))) (delete id (sems s)).

Lemma without_ok s id t : sched_ok s -> threads s !! id = Some t -> state t = NX_THREAD_INIT \/ state t = NX_THREAD_EXIT ->
  id ∉ globalList s -> id ∉ exitList s -> releasable s id -> sched_ok (without s id).
Proof.
  intros [Hok Hro Hlf Hsm] Ht Hst Hng Hnx (t0 & sm & Ht0 & Hb & Hs0 & Hwl). assert (t0 = t) as -> by congruence.
  assert (Hdead : state t <> NX_THREAD_READY /\ state t <> NX_THREAD_RUNNING /\ ~ alive t) by (unfold alive; destruct Hst as [-> | ->]; naive_solver).
  destruct Hdead as (Hnr & Hnrun & Hna).
  assert (Hold : forall j u, threads s !! j = Some u -> j <> id -> delete id (threads s) !! j = Some u) by (intros; by rewrite lookup_delete_ne).
  assert (Hnew : forall j u, delete id (threads s) !! j = Some u -> j <> id /\ threads s !! j = Some u) by (intros j u [? ?]%lookup_delete_Some; done).
  assert (Hne : forall j u, threads s !! j = Some u -> state u = NX_THREAD_READY \/ state u = NX_THREAD_RUNNING -> j <> id).
  { intros j u Hu Hus ->. assert (u = t) as -> by congruence. by destruct Hus. }
  split.
  - destruct Hok as [Hcores Hlev Hqnd Hpnd Hready Hpend Hcnt Hpcnt Hthr]. split; try done.
    + intros c p q j Hq. change (queue (without s id) c p) with (queue s c p) in Hq.
      rewrite (Hready c p q j Hq). split; intros [(u & Hu & Hus & ?) _]; (split; [|done]); exists u; (split; [|done]).
      * apply Hold; [done|]. apply (Hne j u Hu). by left.
      * by apply Hnew.
    + intros j. cbn. rewrite Hpend. split; intros [(u & Hu & Hus & ?) _]; (split; [|done]); exists u; (split; [|done]).
      * apply Hold; [done|]. apply (Hne j u Hu). by left.
      * by apply Hnew.
    + intros j u [_ Hu]%Hnew. by apply (Hthr j).
  - destruct Hro as [Hact Hcr Hrun Hidle Hhas]. split; try done.
    + intros c j Hj Hh. destruct (Hcr c j Hj Hh) as (u & Hu & Hus & ?). exists u. split; [|done]. apply Hold; [done|]. apply (Hne j u Hu). by right.
    + intros j u [_ Hu]%Hnew Hus. by apply (Hrun j u).
    + intros c r i Hi. destruct (Hidle c r i Hi) as (u & Hu & Hus & ?). exists u. split; [|done]. apply Hold; [done|]. by apply (Hne i u Hu).
  - destruct Hlf as [Hnd Hal Hgl Hac [Hxn Hx]]. split; try done.
    + intros j u [_ Hu]%Hnew Ha. by apply (Hal j u).
    + intros j Hj. destruct (Hgl j Hj) as (u & Hu & ?). exists u. split; [|done]. apply Hold; [done|]. by intros ->.
    + split; [done|]. intros j Hj. destruct (Hx j Hj) as (u & Hu & ?). exists u. split; [|done]. apply Hold; [done|]. by intros ->.
  - destruct Hsm as [Hva Hl Ho Hw].
    assert (Hs' : forall j sm', delete id (sems s) !! j = Some sm' -> sems s !! j = Some sm') by (intros j sm' [_ ?]%lookup_delete_Some; done).
    split; cbn [without with_sems with_threads sems threads].
    + intros j sm' H1%Hs'. by apply Hva.
    + intros j sm' k H1%Hs' Hk. destruct (Hl j sm' k H1 Hk) as (u & Hu & Hub). exists u. split; [|done]. apply Hold; [done|].
      intros ->. congruence.
    + intros j1 j2 sm1 sm2 k H1%Hs' H2%Hs'. by apply (Ho j1 j2 sm1 sm2).
    + intros j u [Hj Hu]%Hnew. destruct (Hw j u Hu) as [sm' H1]. exists sm'. by rewrite lookup_delete_ne.
Qed.

(** ** The identifiers of threads *)
Record ids_inv s : Prop := {
  ii_ok : ids_ok (threadIdObject s);
  ii_used : forall id i, tids s !! id = Some i -> used (threadIdObject s) i;
  ii_once : forall id1 id2 i, tids s !! id1 = Some i -> tids s !! id2 = Some i -> id1 = id2
}.

Lemma ids_inv_keeps s s' : ids_inv s -> keeps s s' -> ids_inv s'.
Proof. intros [] [Et _ Ei]. split; rewrite ?Et, ?Ei; done. Qed.

Lemma sched_ok_ids s ids : sched_ok s -> sched_ok (with_ids s ids).
Proof. intros [[] [] [] []]. split; by split. Qed.

Lemma init_ids_ok : ids_ok NX_ThreadsInitID.
Proof. split; [done|]. split; [done|]. unfold NX_ThreadsInitID. cbn [maps]. by apply Forall_replicate. Qed.

Lemma alloc_returns ids : ids_ok ids -> is_Some (NX_ThreadIdAlloc ids).
Proof. intros Hok. destruct (NX_ThreadIdAlloc_spec ids Hok) as [(d & ids' & _ & -> & _)|[-> _]]; by eexists. Qed.

Lemma create_ids s mem stack name hnd arg prio s' r : ids_inv s -> (forall id, mem = Some id -> threads s !! id = None) ->
  NX_ThreadCreate NX_MULTI_CORES_NR mem stack s name hnd arg prio = Some (s', r) -> ids_inv s'.
Proof.
  intros Hi Hfresh Hr. unfold NX_ThreadCreate, ThreadInit in Hr. destruct (_ || _); [congruence|].
  destruct mem as [id|], stack as [st|]; try congruence. specialize (Hfresh id eq_refl). destruct (_ || negb _); [cbn in Hr; congruence|].
  destruct Hi as [Hok Hus Hone]. destruct (NX_ThreadIdAlloc_spec _ Hok) as [(d & ids' & _ & Hal & Hnu & _ & Hok' & _ & Hu')|[Hal _]];
    rewrite Hal, Some_bind in Hr; cbv beta iota zeta in Hr.
  - destruct (_ <? 0); cbn in Hr; inv_opt.
    + split; [done|..]; [|done]. intros j i Hj. apply Hu'. left. by apply (Hus j).
    + unfold NX_SemaphoreInit. destruct (id =? 0); cbn [fst]; (split; [done|..]; unfold tids; cbn; rewrite fmap_insert; cbn;
        [intros j i [[<- <-]|[Hne Hj]]%lookup_insert_Some; apply Hu'; [by right|left; by apply (Hus j)]|
         intros j1 j2 i [[<- <-]|[Hne1 Hj1]]%lookup_insert_Some [[<- E]|[Hne2 Hj2]]%lookup_insert_Some; try done;
           [by destruct Hnu; apply (Hus j2)|subst; by destruct Hnu; apply (Hus j1)|by apply (Hone j1 j2 i)]]).
  - cbn in Hr. inv_opt. split; [done|exact Hus|exact Hone].
Qed.

Lemma destroy_spec s id t : sched_ok s -> ids_inv s -> threads s !! id = Some t -> state t = NX_THREAD_INIT \/ state t = NX_THREAD_EXIT ->
  id ∉ globalList s -> id ∉ exitList s -> releasable s id ->
  exists s' err, NX_ThreadDestroy s id = Some (s', err) /\ sched_ok s' /\ ids_inv s' /\
    (stackBase t <> 0 -> err = NX_EOK /\ threads s' = delete id (threads s) /\ ~ used (threadIdObject s') (tid t)).
Proof.
  intros Hs Hi Ht Hst Hng Hnx Hrel. destruct (qo_threads _ s _ (so_queues _ s Hs) id t Ht) as [Hid _].
  unfold NX_ThreadDestroy, ThreadDeInit. rewrite (proj2 (Z.eqb_neq _ _)), Ht, !Some_bind by done.
  destruct (Z.eqb_spec (stackBase t) 0); [by exists s, NX_EFAULT|]. destruct Hi as [Hids Hus Hone].
  assert (Htid : tids s !! id = Some (tid t)) by (unfold tids; by rewrite lookup_fmap, Ht).
  destruct (NX_ThreadIdFree_spec _ (tid t) Hids (Hus id _ Htid)) as (ids' & -> & Hok' & _ & Hu'). rewrite !Some_bind. cbv beta iota zeta.
  change (is_ok NX_EOK) with true. cbn [negb]. exists (without (with_ids s ids') id), NX_EOK. split; [done|]. split.
  - by apply without_ok with t; [apply sched_ok_ids|..].
  - split; [split; [done|..]|].
    + intros j i. unfold tids. cbn. rewrite fmap_delete, lookup_delete_Some. intros [Hne Hj]. apply Hu'. split; [by apply (Hus j)|].
      intros ->. apply Hne. by apply (Hone id j (tid t)).
    + intros j1 j2 i. unfold tids. cbn. rewrite fmap_delete, !lookup_delete_Some. intros [_ H1] [_ H2]. by apply (Hone j1 j2 i).
    + intros _. split; [done|]. split; [done|]. cbn. rewrite Hu'. tauto.
Qed.

(** One turn of the daemon. *)
Lemma daemon_spec s : sched_ok s -> ids_inv s -> (forall id, head (exitList s) = Some id -> releasable s id) ->
  exists s' again, Daemon_turn s = Some (s', again) /\ sched_ok s' /\ ids_inv s' /\ exitList s' = tail (exitList s).
Proof.
  intros Hs Hi Hrel. unfold Daemon_turn, NX_ThreadDeququeExitList. destruct (exitList s) as [|id l] eqn:Hx.
  { exists s, false. by rewrite Hx. }
  specialize (Hrel id eq_refl). set (s1 := with_exit s l). pose proof Hs as [Hok Hro [Hnd Hal Hgl Hac [Hxn Hxs]] Hsm].
  rewrite Hx in Hxn, Hxs. apply NoDup_cons in Hxn as [Hni Hxn]. destruct (Hxs id) as (t & Ht & Hst); [left|].
  assert (Hs1 : sched_ok s1).
  { split; [destruct Hok; by split|destruct Hro; by split| |destruct Hsm; by split].
    split; try done. split; [done|]. intros j Hj. apply Hxs. by right. }
  destruct (destroy_spec s1 id t Hs1) as (s' & err & Hd & Hs' & Hi' & _); [by destruct Hi|done|by right| |done|done|].
  { intros (u & Hu & ?)%Hgl. congruence. }
  exists s', true. rewrite Hd, Some_bind. split; [done|]. split; [done|]. split; [done|].
  unfold NX_ThreadDestroy, ThreadDeInit in Hd. repeat (inv_opt; case_match); inv_opt; done.
Qed.

(** ** Every entry *)
Inductive op :=
  | Create (mem stack : option Z) (name hnd arg prio : Z)
  | SetAffinity (id c : Z)
  | Start (id : Z)
  | SetIdle (c id : Z)
  | First (c : Z)
  | Yield (c : Z)
  | Tick (c : Z)
  | Recheck (c : Z)
  | Block (c id : Z)
  | Unblock (id : Z)
  | Exit (c code : Z)
  | Destroy (id : Z)
  | Daemon
  | Terminate (id code : Z)
  | Wait (c sem : Z)
  | Join (c id : Z)
  | TryWait (sem : Z)
  | Signal (sem : Z)
  | SignalAll (sem : Z).

Notation NR := NX_MULTI_CORES_NR.

Definition run_op s (o : op) : option Sys :=
  match o with
  | Create mem stack name hnd arg prio => fst <$> NX_ThreadCreate NR mem stack s name hnd arg prio
  | SetAffinity id c => fst <$> NX_ThreadSetAffinity NR s id c
  | Start id => fst <$> NX_ThreadStart NR s id
  | SetIdle c id => fst <$> NX_SMP_SetIdle NR s c (Some id)
  | First c => NX_SchedToFirstThread NR s c
  | Yield c => NX_SchedYield NR s c
  | Tick c => fst <$> NX_SchedIrqHandler NR s c
  | Recheck c => fst <$> NX_ReSchedCheck NR s c
  | Block c id => fst <$> NX_ThreadBlockLockedIRQ NR s c id
  | Unblock id => fst <$> NX_ThreadUnblock NR s id
  | Exit c code => NX_ThreadExit NR s c code
  | Destroy id => fst <$> NX_ThreadDestroy s id
  | Daemon => fst <$> Daemon_turn s
  | Terminate id code => fst <$> NX_ThreadTerminate NR s id code
  | Wait c sem => fst <$> SemaphoreWait_turn NR s c sem
  | Join c id => fst <$> NX_ThreadWait NR s c id
  | TryWait sem => fst <$> NX_SemaphoreTryWait s sem
  | Signal sem => fst <$> NX_SemaphoreSignal NR s sem
  | SignalAll sem => fst <$> NX_SemaphoreSignalAll NR s sem
  end.

(** A thread runs on core [c]; when it may be made to leave, it is not the
    core's idle thread. *)
Definition runs s c (P : Z -> NX_Thread -> Prop) : Prop :=
  exists id t, current s c id /\ threads s !! id = Some t /\ P id t.

Definition allowed s (o : op) : Prop :=
  match o with
  | Create mem stack _ _ _ prio => 0 <= prio /\
      forall id, mem = Some id -> id <> 0 /\ threads s !! id = None /\ sems s !! id = None
  | SetAffinity id c => 0 <= c /\ exists t, threads s !! id = Some t /\ state t = NX_THREAD_INIT
  | Start id => id ∉ globalList s /\ exists t, threads s !! id = Some t /\ state t = NX_THREAD_INIT
  | SetIdle c id => 0 <= c < NR /\ exists t, threads s !! id = Some t /\ (state t = NX_THREAD_READY \/ state t = NX_THREAD_RUNNING) /\
      onCore t = c /\ coreAffinity t = c /\ fixedPriority t = 0
  | First c => exists i, zlookup (cores s) c = Some (None, Some i)
  | Yield c => runs s c (fun _ _ => True)
  | Tick c | Recheck c => runs s c (fun id t => isTerminated t <> 0 -> ~ is_idle s id)
  | Block c id => ~ is_idle s id /\ exists t, threads s !! id = Some t /\ (state t = NX_THREAD_RUNNING -> current s c id)
  | Unblock id | Terminate id _ => is_Some (threads s !! id)
  | Exit c _ => runs s c (fun id _ => ~ is_idle s id)
  | Destroy id => id ∉ globalList s /\ id ∉ exitList s /\ releasable s id /\
      exists t, threads s !! id = Some t /\ (state t = NX_THREAD_INIT \/ state t = NX_THREAD_EXIT)
  | Daemon => forall id, head (exitList s) = Some id -> releasable s id
  | Wait c sem => is_Some (sems s !! sem) /\ runs s c (fun id _ => ~ is_idle s id)
  | Join c id => is_Some (threads s !! id) /\ runs s c (fun self _ => ~ is_idle s self)
  | TryWait sem | Signal sem | SignalAll sem => is_Some (sems s !! sem)
  end.

Definition uses_ids (o : op) : bool := match o with Create _ _ _ _ _ _ | Destroy _ | Daemon => true | _ => false end.

Lemma op_ok s o : 0 <= NR -> sched_ok s -> (uses_ids o = true -> ids_inv s) -> allowed s o -> exists s', run_op s o = Some s' /\ sched_ok s'.
Proof.
  intros Hnr Hs Hids Ha. pose proof Hs as [Hok Hro Hlf Hsm]. destruct o; cbn [allowed run_op] in *.
  - destruct Ha as (Hp & Hmem). assert (Hal : is_Some (NX_ThreadIdAlloc (threadIdObject s))) by (by apply alloc_returns, ii_ok, Hids). destruct mem as [id|], stack as [st|];
      [|unfold NX_ThreadCreate; case_match; by exists s..].
    destruct (Hmem id eq_refl) as (Hid & Hn & Hsn).
    destruct (create_spec s id st name hnd arg prio Hs Hid Hn Hsn Hp Hnr Hal) as (s' & r & -> & Hs' & _). by exists s'.
  - destruct Ha as (Hc & t & Ht & Hst). destruct (affinity_spec s id t c Hs Ht Hst Hc) as (s' & err & -> & Hs'). by exists s'.
  - destruct Ha as (Hng & t & Ht & Hst). destruct (start_spec s id t Hs Ht Hst Hng) as (s' & -> & Hs' & _). by exists s'.
  - destruct Ha as (Hc & t & Ht & Hst & H1 & H2 & H3). destruct (set_idle_spec s c id t Hs Hc Ht Hst H1 H2 H3) as (s' & -> & Hs'). by exists s'.
  - destruct Ha as [i Hi]. destruct (first_spec s c i Hs Hi) as (s' & next & -> & Hs' & _). by exists s'.
  - destruct Ha as (id & t & Hcur & _). destruct (SchedYield_spec _ s c id Hs Hcur) as (s' & next & -> & Hs' & _). by exists s'.
  - destruct Ha as (id & t & Hcur & Ht & Hni). destruct (tick_spec s c id t Hs Hcur Ht Hni) as (s' & out & -> & Hs' & _). by exists s'.
  - destruct Ha as (id & t & Hcur & Ht & Hni). destruct (check_spec s c id t Hs Hcur Ht Hni) as (s' & out & -> & Hs' & _). by exists s'.
  - destruct Ha as (Hni & t & Ht & Hcur). destruct (state t) eqn:Hst.
    2: { destruct (block_ready_spec _ s c id t Hs Ht Hst Hni) as (s' & -> & Hs' & _). by exists s'. }
    2: { destruct (block_self_spec _ s c id t Hs (Hcur eq_refl) Ht Hni) as (s' & next & -> & Hs' & _). by exists s'. }
    all: destruct (qo_threads _ s _ Hok id t Ht) as [Hid _]; exists s; split; [|done];
      unfold NX_ThreadBlockLockedIRQ; by rewrite (proj2 (Z.eqb_neq _ _)), Ht, Some_bind, Hst.
  - destruct Ha as [t Ht]. destruct (unblock_spec _ s id t Hs Ht) as (s' & -> & Hs' & _). by exists s'.
  - destruct Ha as (id & t & Hcur & Ht & Hni). destruct (exit_spec s c id t code Hs Hcur Ht Hni) as (s' & sm & -> & Hs' & _). by exists s'.
  - destruct Ha as (Hng & Hnx & Hrel & t & Ht & Hst).
    destruct (destroy_spec s id t Hs (Hids eq_refl) Ht Hst Hng Hnx Hrel) as (s' & err & -> & Hs' & _). by exists s'.
  - destruct (daemon_spec s Hs (Hids eq_refl) Ha) as (s' & again & -> & Hs' & _). by exists s'.
  - destruct Ha as [t Ht]. destruct (terminate_spec s id t code Hs Ht) as (s' & err & -> & Hs'). by exists s'.
  - destruct Ha as ([sm Hsm1] & id & t & Hcur & Ht & Hni).
    destruct (wait_turn_spec s c id t sem sm Hs Hcur Ht Hni Hsm1) as (s' & out & -> & Hs' & _). by exists s'.
  - destruct Ha as ([u Hu] & self & t & Hcur & Ht & Hni). destruct (qo_threads _ s _ Hok id u Hu) as [Hid _].
    unfold NX_ThreadWait. rewrite (proj2 (Z.eqb_neq _ _)), (ThreadSelf_spec _ s c self Hok Hcur), Some_bind by done.
    destruct (id =? self); [by exists s|]. destruct (sm_waiter s Hsm id u Hu) as [sm Hsm1].
    destruct (wait_turn_spec s c self t id sm Hs Hcur Ht Hni Hsm1) as (s' & out & -> & Hs' & _). by exists s'.
  - destruct Ha as [sm Hsm1]. destruct (TryWait_spec s sem sm Hs Hsm1) as (s' & -> & Hs' & _). by exists s'.
  - destruct Ha as [sm Hsm1]. destruct (Signal_spec s sem sm Hs Hsm1) as (s' & -> & Hs' & _). by exists s'.
  - destruct Ha as [sm Hsm1]. destruct (SignalAll_ok s sem sm Hs Hsm1) as (s' & -> & Hs' & _). by exists s'.
Qed.

Lemma op_ids s o s' : sched_ok s -> ids_inv s -> allowed s o -> run_op s o = Some s' -> ids_inv s'.
Proof.
  intros Hs Hi Ha Hr. destruct (uses_ids o) eqn:Hu.
  2: { apply (ids_inv_keeps s s' Hi). destruct o; try done; cbn [run_op] in Hr; try (by apply keeping in Hr);
         apply fmap_Some in Hr as (x & Hr & ->); by apply keeping in Hr. }
  destruct o; try done; cbn [run_op allowed] in *.
  - destruct Ha as (_ & Hmem). apply fmap_Some in Hr as ([s1 r] & Hr & ->). apply (create_ids s mem stack name hnd arg prio s1 r Hi); [|done].
    intros id Hid. by apply Hmem.
  - destruct Ha as (Hng & Hnx & Hrel & t & Ht & Hst).
    destruct (destroy_spec s id t Hs Hi Ht Hst Hng Hnx Hrel) as (s1 & err & Hd & _ & Hi' & _). rewrite Hd in Hr. cbn in Hr. congruence.
  - destruct (daemon_spec s Hs Hi Ha) as (s1 & again & Hd & _ & Hi' & _). rewrite Hd in Hr. cbn in Hr. congruence.
Qed.

(** The state after [NX_SMP_Init], [NX_ThreadsInitID] and
    [NX_ThreadManagerInit], with [n] cores up. *)
Definition boot (n : Z) : Sys := NX_ThreadManagerInit (NX_SMP_Init NR (mkSys ∅ ∅ [] [] [] [] 0 0 n NX_ThreadsInitID)).

Lemma boot_ok n : 0 <= NR -> n <> 0 -> sched_ok (boot n).
Proof.
  intros Hnr Hn.
  assert (Hcpu : forall c cpu, zlookup (cpuArray (boot n)) c = Some cpu -> cpu = mkCpu (replicate 16 []) None None 0 0 0).
  { intros c cpu [_ Hc]%zlookup_Some. cbn in Hc. by apply lookup_replicate in Hc as [-> _]. }
  assert (Hq : forall c p q, queue (boot n) c p = Some q -> q = []).
  { intros c p q (cpu & Hc & Hq)%bind_Some. rewrite (Hcpu c cpu Hc) in Hq. apply zlookup_Some in Hq as [_ Hq].
    cbn [threadReadyList] in Hq. by apply lookup_replicate in Hq as [-> _]. }
  assert (Hcores : forall c r i, zlookup (cores (boot n)) c = Some (r, i) -> r = None /\ i = None).
  { intros c r i [Hc0 Hc]%zlookup_Some. unfold cores in Hc. rewrite list_lookup_fmap in Hc.
    destruct (cpuArray (boot n) !! Z.to_nat c) as [cpu|] eqn:Hl; [|done]. cbn in Hc.
    rewrite (Hcpu c cpu) in Hc by (apply zlookup_Some; done). by injection Hc as <- <-. }
  split.
  - split.
    + cbn. rewrite length_replicate. lia.
    + intros c cpu Hc. by rewrite (Hcpu c cpu Hc).
    + intros c p q Hc. rewrite (Hq c p q Hc). constructor.
    + constructor.
    + intros c p q id Hc. rewrite (Hq c p q Hc). split; [by intros ?%elem_of_nil|]. intros [(t & Ht & _) _]. done.
    + intros id. cbn. split; [by intros ?%elem_of_nil|]. intros [(t & Ht & _) _]. done.
    + intros c cpu Hc. by rewrite (Hcpu c cpu Hc).
    + done.
    + done.
  - split; [done|..].
    + intros c id [i Hi]. by destruct (Hcores c _ _ Hi).
    + done.
    + intros c r i Hi. by destruct (Hcores c _ _ Hi).
    + intros c r i Hi. by destruct (Hcores c _ _ Hi).
  - split; try done; [constructor|by intros ? ?%elem_of_nil|]. split; [constructor|by intros ? ?%elem_of_nil].
  - by split.
Qed.

(** The states the system can be in. *)
Inductive reach (n : Z) : Sys -> Prop :=
  | reach_boot : reach n (boot n)
  | reach_step s o s' : reach n s -> allowed s o -> run_op s o = Some s' -> reach n s'.

Lemma boot_ids n : ids_inv (boot n).
Proof. split; cbn; [exact init_ids_ok|..]; intros *; unfold tids; cbn; by rewrite fmap_empty. Qed.

Lemma reach_inv n s : 0 <= NR -> n <> 0 -> reach n s -> sched_ok s /\ ids_inv s.
Proof.
  intros Hnr Hn. induction 1 as [|s o s' _ [IHs IHi] Ha Hrun]; [split; [by apply boot_ok|apply boot_ids]|].
  destruct (op_ok s o Hnr IHs (fun _ => IHi) Ha) as (s1 & Hrun1 & Hs1). split; [congruence|by apply (op_ids s o)].
Qed.

Lemma reach_ok n s : 0 <= NR -> n <> 0 -> reach n s -> sched_ok s.
Proof. intros Hnr Hn Hr. apply (reach_inv n s Hnr Hn Hr). Qed.

(** C13: Start from boot and let threads be created, placed, started, picked,
    preempted, blocked, woken, terminated, joined and ended, semaphores be
    waited on and signalled, and the daemon free what has ended, in any order
    ([op] lists the entries, [allowed] when the kernel makes them: a thread
    blocks, waits or ends only while it runs and is not the idle one, and so
    on).  One thing the code does is left out: a thread may be freed only when
    its node is on no wait list and nobody waits for it ([releasable]).  The
    daemon frees a thread that was terminated while it waited without taking
    its node off the list (thread.c:288, [terminated_waiter_dangles]), and the
    list then holds a freed node.
    In every state reached so each allowed entry returns (no assertion fails,
    no list is used wrongly), and the state is consistent: a ready thread is on
    exactly the queue its core and priority name, or on the pending list, and
    nothing else is queued; the counts are the lengths of the queues; each core
    runs one running thread, which runs there only; dynamic priorities stay
    within the bounds of their class; every live thread is on the global list;
    nobody is on two wait lists; every thread has an identifier in use and no
    two have the same. *)
Theorem scheduler_invariant n s o : 0 <= NR -> n <> 0 -> reach n s ->
  (allowed s o -> exists s', run_op s o = Some s' /\ reach n s') /\
  (forall c p q id, queue s c p = Some q -> NoDup q /\ (id ∈ q <-> ready_at s c p id)) /\
  (forall id, id ∈ pendingList s <-> exists t, threads s !! id = Some t /\ state t = NX_THREAD_READY /\ NR <= onCore t) /\
  (forall c cpu, zlookup (cpuArray s) c = Some cpu -> threadCount cpu = Z.of_nat (total (threadReadyList cpu))) /\
  (forall id t, threads s !! id = Some t -> prio_ok t /\
     (state t = NX_THREAD_RUNNING <-> exists c, current s c id) /\ (alive t -> id ∈ globalList s)) /\
  (forall sem1 sem2 sm1 sm2 id, sems s !! sem1 = Some sm1 -> sems s !! sem2 = Some sm2 ->
     id ∈ semWaitList sm1 -> id ∈ semWaitList sm2 -> sem1 = sem2) /\
  (forall id t, threads s !! id = Some t -> used (threadIdObject s) (tid t) /\
     forall id' t', threads s !! id' = Some t' -> tid t' = tid t -> id' = id).
Proof.
  intros Hnr Hn Hr. destruct (reach_inv n s Hnr Hn Hr) as [Hs Hi]. pose proof Hs as [Hok Hro Hlf Hsm]. split_and!.
  - intros Ha. destruct (op_ok s o Hnr Hs (fun _ => Hi) Ha) as (s' & Hrun & _). exists s'. split; [done|]. by apply reach_step with s o.
  - intros c p q id Hq. split; [by apply (qo_nodup _ s _ Hok c p)|]. rewrite (qo_ready _ s _ Hok c p q id Hq). naive_solver.
  - intros id. rewrite (qo_pending _ s _ Hok id). naive_solver.
  - apply (qo_count _ s _ Hok).
  - intros id t Ht. split; [by apply (qo_threads _ s _ Hok id)|]. split; [|by apply (lo_alive s Hlf)]. split.
    + intros Hst. exists (onCore t). by apply (ro_running s _ Hro).
    + intros [c Hc]. destruct (ro_current s _ Hro c id Hc) as (u & Hu & ? & _); [done|]. congruence.
  - apply (sm_one s Hsm).
  - assert (Hl : forall j u, threads s !! j = Some u -> tids s !! j = Some (tid u)) by (intros j u Hu; unfold tids; by rewrite lookup_fmap, Hu).
    intros id t Ht. split; [by apply (ii_used s Hi id), Hl|]. intros id' t' Ht' E. apply (ii_once s Hi _ _ (tid t)); [rewrite <- E|]; by apply Hl.
Qed.

(** C14: When some thread is ready on a core, picking succeeds and gives a
    ready thread of this core of the highest priority, the first in line at
    its level; it leaves the queue, a time-sharing thread one level lower (or
    back at its own level from the lowest), and no other thread changes. *)
Theorem pick_highest_first s c : sched_ok s -> (exists j u, threads s !! j = Some u /\ state u = NX_THREAD_READY /\ onCore u = c) -> 0 <= c < NR ->
  exists s' id t q, NX_SMP_PickThreadIrqDisabled NR s c = Some (s', id) /\
    threads s !! id = Some t /\ state t = NX_THREAD_READY /\ onCore t = c /\
    queue s c (priority t) = Some (id :: q) /\
    (forall j u, threads s !! j = Some u -> state u = NX_THREAD_READY -> onCore u = c -> priority u <= priority t) /\
    (forall p q' j, queue s' c p = Some q' -> j ∈ q' <-> ready_at s c p j /\ j <> id) /\
    threads s' = <[id := NX_ThreadLowerPriority t]> (threads s) /\
    (priority (NX_ThreadLowerPriority t) < priority t \/ priority (NX_ThreadLowerPriority t) = fixedPriority t).
Proof.
  intros Hs (j & u & Hu & Hus & Huc) Hc. pose proof Hs as [Hok Hro Hlf Hsm].
  assert (Hlev : forall j u, threads s !! j = Some u -> state u = NX_THREAD_READY -> onCore u = c ->
    exists q, queue s c (priority u) = Some q /\ j ∈ q).
  { intros j' u' Hu' Hst' Hc'. destruct (qo_threads _ s _ Hok j' u' Hu') as [_ Htok].
    destruct (CpuGetIndex_spec _ s _ c Hok Hc) as (cpu & _ & Hcpu).
    destruct (queue_Some _ s _ c (priority u') cpu Hok Hcpu (thread_prio u' Htok)) as (q & Hq & _). exists q. split; [done|].
    apply (qo_ready _ s _ Hok c (priority u') q j' Hq). split; [by exists u'|done]. }
  destruct (Hlev j u Hu Hus Huc) as (q0 & Hq0 & Hj0).
  destruct (pick_spec _ s c (priority u) q0 Hok Hc Hq0) as (s' & id & t & q & Hp & Hok' & Hfr & Ht & Hst & Htc & Hth & Hq & Hhi);
    [by intros ->; apply elem_of_nil in Hj0|].
  exists s', id, t, q. split_and!; try done.
  - intros j' u' Hu' Hst' Hc'. destruct (Hlev j' u' Hu' Hst' Hc') as (q' & Hq' & Hin').
    destruct (Z.le_gt_cases (priority u') (priority t)) as [|Hgt]; [done|]. rewrite (Hhi (priority u') q' ltac:(lia) Hq') in Hin'.
    by apply elem_of_nil in Hin'.
  - intros p q' j' Hq'. rewrite (qo_ready _ s' _ Hok' c p q' j' Hq'). unfold ready_at. rewrite Hth.
    split; intros [(v & Hv & Hr) Hne]; (assert (Hne' : j' <> id) by congruence); rewrite lookup_insert_ne in * by done;
      (split; [by exists v|congruence]).
  - destruct (qo_threads _ s _ Hok id t Ht) as [_ [[Hf Hpr] _]]. unfold NX_ThreadLowerPriority. rewrite Z.geb_leb.
    destruct (_ && _) eqn:E in Hpr |- *; rewrite ?E; [|by right]. cbn [set_priority priority].
    change NX_THREAD_PRIORITY_LOW with 1 in *. change NX_THREAD_MAX_PRIORITY_NR with 16 in *.
    rewrite u32_small by lia. case_match; [by right|left; lia].
Qed.

(** C15: A signal gives the token to the first waiter: with nobody waiting the
    value is one more; otherwise the first thread of the wait list leaves it
    and, if it was blocked, is ready, in front of its queue, and the others
    keep their places.  [SignalAll] empties the list and wakes them all with
    one token.  This holds for every counter from 0 up to one below the maximum
    of [NX_IArch].  A counter that is not positive after the increment, so a
    negative one (a user may set it) and the maximum itself, which wraps to the
    lowest number, wakes nobody: it is all that changes. *)
Theorem signal_wakes_in_order s sem sm : sched_ok s -> sems s !! sem = Some sm ->
  (0 <= value sm < 2 ^ 63 - 1 ->
    (exists s', NX_SemaphoreSignal NR s sem = Some (s', NX_EOK) /\
      match semWaitList sm with
      | [] => threads s' = threads s /\ NX_SemaphoreGetValue s' sem = Some (value sm + 1)
      | id :: l => exists t, threads s !! id = Some t /\ threads s' = <[id := woken t]> (threads s) /\
          sems s' = <[sem := mkSem (value sm + 1) l (magic sm)]> (sems s) /\
          (state t = NX_THREAD_BLOCKED -> readied NR s s' t NX_SCHED_HEAD id)
      end) /\
    (exists s', NX_SemaphoreSignalAll NR s sem = Some (s', NX_EOK) /\
      sems s' = <[sem := mkSem (value sm + 1) [] (magic sm)]> (sems s) /\
      forall id t, threads s !! id = Some t -> threads s' !! id = Some (if bool_decide (id ∈ semWaitList sm) then woken t else t))) /\
  (- 2 ^ 63 <= value sm < 0 \/ value sm = 2 ^ 63 - 1 ->
    let v := if value sm =? 2 ^ 63 - 1 then - 2 ^ 63 else value sm + 1 in
    let s' := upd_sem s sem (mkSem v (semWaitList sm) (magic sm)) in
    NX_SemaphoreSignal NR s sem = Some (s', NX_EOK) /\ NX_SemaphoreSignalAll NR s sem = Some (s', NX_EOK)).
Proof.
  intros Hs Hsm. split.
  - intros Hv. destruct (released_all sm Hv) as (Er & Ek & Ei).
    destruct (Signal_spec s sem sm Hs Hsm) as (s1 & Hsig & _ & Hcase).
    destruct (SignalAll_ok s sem sm Hs Hsm) as (s2 & Hall & _ & _ & _ & Hse & Hth).
    rewrite Er in Hcase, Hth. rewrite Ek, Ei in Hse. rewrite ?Ei in Hcase. split; [|by exists s2]. exists s1. split; [done|]. destruct (semWaitList sm); [|done].
    subst s1. split; [done|]. unfold NX_SemaphoreGetValue.
    destruct (sm_value s (so_sems _ s Hs) sem sm Hsm) as (Hne & _). rewrite (proj2 (Z.eqb_neq _ _)) by done.
    cbn [upd_sem with_sems sems]. rewrite lookup_insert_eq, Some_bind. cbn [sem_incr value]. by rewrite Ei.
  - intros Hv v s'. assert (Ei : i64 (value sm + 1) = v).
    { unfold v. destruct (Z.eqb_spec (value sm) (2 ^ 63 - 1)) as [->|]; [by vm_compute|apply i64_small; lia]. }
    assert (Hlow : (i64 (value sm + 1) >? 0) = false).
    { rewrite Ei, Z.gtb_ltb. apply Z.ltb_ge. unfold v. destruct (Z.eqb_spec (value sm) (2 ^ 63 - 1)); lia. }
    unfold NX_SemaphoreSignal, NX_SemaphoreSignalAll. rewrite (sem_check_ok s sem sm Hs Hsm), !Some_bind.
    cbv beta iota zeta. change (value (sem_incr sm)) with (i64 (value sm + 1)). rewrite Hlow. unfold sem_incr, s'. by rewrite Ei.
Qed.

(** C16: A thread that waits takes a token if there is one and goes on;
    otherwise it is blocked, last on the wait list (once), and another thread
    runs on its core.  Without tokens [TryWait] answers [NX_EAGAIN] and changes
    nothing. *)
Theorem wait_takes_or_blocks s c id t sem sm : sched_ok s -> current s c id -> threads s !! id = Some t -> ~ is_idle s id ->
  sems s !! sem = Some sm ->
  (0 < value sm -> let s' := upd_sem s sem (mkSem (value sm - 1) (semWaitList sm) (magic sm)) in
     SemaphoreWait_turn NR s c sem = Some (s', Returned NX_EOK) /\ NX_SemaphoreTryWait s sem = Some (s', NX_EOK)) /\
  (value sm = 0 -> NX_SemaphoreTryWait s sem = Some (s, NX_EAGAIN) /\
     exists s' next t', SemaphoreWait_turn NR s c sem = Some (s', Switched) /\ current s' c next /\
       threads s' !! id = Some t' /\ state t' = NX_THREAD_BLOCKED /\ blockLinked t' = true /\
       (blockLinked t = false -> sems s' = <[sem := mkSem 0 (semWaitList sm ++ [id]) (magic sm)]> (sems s)) /\
       (blockLinked t = true -> sems s' = sems s)).
Proof.
  intros Hs Hcur Ht Hni Hsm. destruct (wait_turn_spec s c id t sem sm Hs Hcur Ht Hni Hsm) as (s' & out & Hw & _ & Hcase).
  destruct (TryWait_spec s sem sm Hs Hsm) as (s2 & Htry & _ & Hcase2). rewrite Z.gtb_ltb in *. split.
  - intros Hv. rewrite (proj2 (Z.ltb_lt _ _)) in * by done. destruct Hcase as [-> ->]. subst s2. done.
  - intros Hv. rewrite (proj2 (Z.ltb_ge _ _)) in * by lia. subst s2. split; [done|].
    destruct Hcase as (-> & (next & Hn) & t' & Ht' & (st & p & k & -> & Hst) & Hse). exists s', next. eexists. split; [done|]. split; [done|].
    split; [exact Ht'|]. split; [cbn in *; destruct Hst as [->|[? _]]; done|]. split; [done|].
    rewrite Hv in Hse. split; intros Hb; by rewrite Hb in Hse.
Qed.

(** When a thread exits, it goes to the list of exited threads, another
    thread runs, and (unless the counter of its semaphore wraps) every thread
    that waits for it is off the wait list, has the exit code and, if it was
    blocked, is no longer blocked. *)
Theorem exit_releases_waiters s c id t code : sched_ok s -> current s c id -> threads s !! id = Some t -> ~ is_idle s id ->
  exists s' next sm, NX_ThreadExit NR s c code = Some s' /\ current s' c next /\ id ∈ exitList s' /\ id ∉ globalList s' /\
    sems s !! id = Some sm /\
    forall w u, w ∈ released sm -> w <> id -> threads s !! w = Some u -> exists u', threads s' !! w = Some u' /\
      ThreadWait_result s' w = Some code /\ blockLinked u' = false /\ state u' <> NX_THREAD_BLOCKED.
Proof.
  intros Hs Hcur Ht Hni. destruct (exit_spec s c id t code Hs Hcur Ht Hni) as (s' & sm & He & Hs' & (next & Hn) & Hx & Hsm & Hw).
  exists s', next, sm. split_and!; try done.
  - intros (u & Hu & Hne)%(lo_global s' (so_life _ s' Hs')). destruct (proj2 (lo_exit s' (so_life _ s' Hs')) id Hx) as (u' & Hu' & ?). congruence.
  - intros w u Hin Hne Hu. destruct (Hw w u Hin Hne Hu) as (u' & Hu' & st & p & k & -> & Hst). eexists. split; [exact Hu'|].
    unfold ThreadWait_result. rewrite Hu', Some_bind. unfold woken in *. cbn [state set_blockLinked set_waitExitCode] in *.
    case_bool_decide; cbn in *; (split; [done|]); (split; [done|]); destruct Hst as [->|[? ->]]; congruence.
Qed.
End ops.

(** ** A system at work: one core, an idle thread and two others *)
Definition demo_ops : list op :=
  [Create (Some 100) (Some 9000) 1 1 0 0; SetAffinity 100 0; Start 100; SetIdle 0 100;
   Create (Some 200) (Some 9100) 1 1 0 3; Start 200; Create (Some 300) (Some 9200) 1 1 0 6; Start 300;
   First 0; Yield 0; Yield 0; Join 0 200; Exit 0 42].

Definition demo_after (l : list op) : option Sys := foldl (fun r o => s ← r; run_op 1 s o) (Some (boot 1 1)) l.
Definition demo (k : nat) : Sys := default (boot 1 1) (demo_after (take k demo_ops)).

Lemma thread_ex s id (P : NX_Thread -> Prop) :
  match threads s !! id with Some t => P t | None => False end -> exists t, threads s !! id = Some t /\ P t.
Proof. destruct (threads s !! id) as [t|]; [by exists t|done]. Qed.

Lemma runs_ex s c id P :
  current s c id -> match threads s !! id with Some t => P id t | None => False end -> runs s c P.
Proof. intros Hc HP. exists id. destruct (threads s !! id) as [t|]; [by exists t|done]. Qed.

Ltac demo_step k := apply (reach_step 1 1 (demo k) (default (Yield 0) (demo_ops !! k)) (demo (S k))); [|cbn [demo_ops lookup list_lookup default from_option]|vm_compute; reflexivity].

Lemma demo_idle k id : (forall r, cores (demo k) = [(r, Some 100)] -> id <> 100) -> (exists r, cores (demo k) = [(r, Some 100)]) -> ~ is_idle (demo k) id.
Proof.
  intros Hne [r Hr] (c & r' & Hi). rewrite Hr in Hi. apply zlookup_Some in Hi as [_ Hi]. destruct (Z.to_nat c) as [|[|]]; try done.
  cbn in Hi. injection Hi as _ <-. by apply (Hne r).
Qed.

Ltac demo_create := split; [lia|intros id [= <-]; split; [done|split; reflexivity]].
Ltac demo_start := split; [vm_compute; set_solver|apply thread_ex; reflexivity].
Ltac not_idle := apply demo_idle; [done|vm_compute; eexists; reflexivity].

Lemma demo_reach_8 : reach 1 1 (demo 8).
Proof.
  demo_step 7%nat; [|demo_start]. demo_step 6%nat; [|demo_create]. demo_step 5%nat; [|demo_start]. demo_step 4%nat; [|demo_create].
  demo_step 3%nat; [|split; [lia|apply thread_ex; vm_compute; tauto]].
  demo_step 2%nat; [|demo_start]. demo_step 1%nat; [|split; [lia|apply thread_ex; reflexivity]].
  demo_step 0%nat; [|demo_create]. apply reach_boot.
Qed.

Lemma demo_reach_11 : reach 1 1 (demo 11).
Proof.
  demo_step 10%nat; [|apply (runs_ex _ _ 200); [eexists; vm_compute; reflexivity|exact I]].
  demo_step 9%nat; [|apply (runs_ex _ _ 100); [eexists; vm_compute; reflexivity|exact I]].
  demo_step 8%nat; [|exists 100; vm_compute; reflexivity]. exact demo_reach_8.
Qed.

Lemma demo_reach : reach 1 1 (demo 12).
Proof.
  demo_step 11%nat; [|split; [vm_compute; eexists; reflexivity|apply (runs_ex _ _ 300); [eexists; vm_compute; reflexivity|change (~ is_idle (demo 11) 300); not_idle]]].
  exact demo_reach_11.
Qed.

Lemma demo_ok : sched_ok 1 (demo 12).
Proof. apply (reach_ok 1 1); [lia|done|exact demo_reach]. Qed.

Lemma demo_current : current (demo 12) 0 200.
Proof. eexists. vm_compute. reflexivity. Qed.

Lemma demo_not_idle : ~ is_idle (demo 12) 200.
Proof. not_idle. Qed.

Definition demo_thread (id : Z) : NX_Thread := default (mkThread NX_THREAD_EXIT 0 0 0 0 0 0 0 0 0 0 0 0 0 0 0 0 false) (threads (demo 12) !! id).

Lemma scheduler_invariant_witness :
  exists s', run_op 1 (demo 12) (Exit 0 42) = Some s' /\ reach 1 1 s'.
Proof.
  destruct (scheduler_invariant 1 1 (demo 12) (Exit 0 42)) as [H _]; [lia|done|exact demo_reach|].
  apply H. apply (runs_ex _ _ 200); [exact demo_current|]. exact demo_not_idle.
Defined.

Lemma pick_highest_first_witness :
  exists s' id t, NX_SMP_PickThreadIrqDisabled 1 (demo 12) 0 = Some (s', id) /\ threads (demo 12) !! id = Some t /\ state t = NX_THREAD_READY.
Proof.
  destruct (pick_highest_first 1 (demo 12) 0 demo_ok) as (s' & id & t & q & H & Ht & Hst & _).
  - exists 100, (demo_thread 100). split; [vm_compute; reflexivity|split; vm_compute; reflexivity].
  - lia.
  - exists s', id, t. split; [exact H|split; [exact Ht|exact Hst]].
Defined.

Lemma signal_wakes_in_order_witness :
  exists s' t, NX_SemaphoreSignal 1 (demo 12) 200 = Some (s', NX_EOK) /\ threads (demo 12) !! 300 = Some t /\
    threads s' = <[300 := woken t]> (threads (demo 12)).
Proof.
  destruct (signal_wakes_in_order 1 (demo 12) 200 (mkSem 0 [300] SEMPAHORE_MAGIC) demo_ok) as [Hw _].
  - vm_compute. reflexivity.
  - destruct Hw as [(s' & H & t & Ht & Hth & _) _]; [cbn; lia|].
    exists s', t. split; [exact H|split; [exact Ht|exact Hth]].
Defined.

Lemma wait_takes_or_blocks_witness :
  exists s' next, SemaphoreWait_turn 1 (demo 12) 0 100 = Some (s', Switched) /\ current s' 0 next.
Proof.
  destruct (wait_takes_or_blocks 1 (demo 12) 0 200 (demo_thread 200) 100 (mkSem 0 [] SEMPAHORE_MAGIC) demo_ok demo_current) as [_ H].
  - vm_compute. reflexivity.
  - exact demo_not_idle.
  - vm_compute. reflexivity.
  - destruct H as (_ & s' & next & t' & H & Hn & _); [reflexivity|]. exists s', next. split; [exact H|exact Hn].
Defined.

Lemma exit_releases_waiters_witness :
  exists s', NX_ThreadExit 1 (demo 12) 0 42 = Some s' /\ ThreadWait_result s' 300 = Some 42.
Proof.
  destruct (exit_releases_waiters 1 (demo 12) 0 200 (demo_thread 200) 42 demo_ok demo_current) as (s' & next & sm & H & _ & _ & _ & Hsm & Hw).
  - vm_compute. reflexivity.
  - exact demo_not_idle.
  - exists s'. split; [exact H|]. assert (Hsm' : sm = mkSem 0 [300] SEMPAHORE_MAGIC) by (vm_compute in Hsm; injection Hsm as <-; reflexivity).
    destruct (Hw 300 (demo_thread 300)) as (u' & _ & Hr & _).
    + rewrite Hsm'. vm_compute. left.
    + lia.
    + vm_compute. reflexivity.
    + exact Hr.
Defined.

(** A thread that is terminated while it waits is woken with its node still on
    the wait list; when it has exited and is freed, the list holds a dangling
    node. *)
Example terminated_waiter_dangles :
  (s ← demo_after (take 12 demo_ops ++ [Terminate 300 1; Yield 0; Tick 0]);
   sm ← sems s !! 200; t ← threads s !! 300; '(s', _) ← Daemon_turn s;
   Some (semWaitList sm, state t, exitList s, semWaitList <$> sems s' !! 200, bool_decide (is_Some (threads s' !! 300)))) =
  Some ([300], NX_THREAD_EXIT, [300], Some [300], false).
Proof. vm_compute. reflexivity. Qed.

(** A thread that has ended is freed, with its identifier, by the next turn of
    the daemon. *)
Example daemon_frees :
  (s ← demo_after demo_ops; t ← threads s !! 200; s' ← run_op 1 s Daemon;
   Some (exitList s, exitList s', bool_decide (is_Some (threads s' !! 200)),
         bool_decide (used (threadIdObject s) (tid t)), bool_decide (used (threadIdObject s') (tid t)))) =
  Some ([200], [], false, true, false).
Proof. vm_compute. reflexivity. Qed.
