(* ===== verification/Tokens.v ===== *)
(** What semaphores promise to their clients ([include/base/semaphore.h]), and
    that the semaphores of the scheduler keep it.

    A client sees the values of the semaphores: [NX_SemaphoreWait] returns with
    a token taken, or the thread is blocked and nobody's value has changed
    (it then tries again when it is woken); [NX_SemaphoreSignal] adds a token,
    where the counter wraps at the maximum of [NX_IArch]. *)
From S2P Require Import Prelude Sched SchedInv SchedOps.

Class TokenOps (W : Type) := {
  sem_ok : W -> Prop;
  sem_values : W -> gmap Z Z;
  (** A thread that may block runs on a core. *)
  runs : W -> Z -> Z -> Prop;
  sem_init : W -> Z -> Z -> W;
  (** One turn of waiting, on a core: whether a token was taken. *)
  sem_wait : W -> Z -> Z -> option (W * bool);
  sem_trywait : W -> Z -> option (W * NX_Error);
  sem_signal : W -> Z -> option (W * NX_Error)
}.

Class TokenLaws (W : Type) `{TokenOps W} : Prop := {
  init_sets w sem v : sem_ok w -> sem <> 0 -> sem_values w !! sem = None ->
    sem_ok (sem_init w sem v) /\ sem_values (sem_init w sem v) = <[sem := v]> (sem_values w);
  wait_takes w core id sem v : sem_ok w -> runs w core id -> sem_values w !! sem = Some v ->
    exists w', sem_wait w core sem = Some (w', 0 <? v) /\ sem_ok w' /\
      sem_values w' = if 0 <? v then <[sem := v - 1]> (sem_values w) else sem_values w;
  trywait_takes w sem v : sem_ok w -> sem_values w !! sem = Some v ->
    exists w', sem_trywait w sem = Some (w', if 0 <? v then NX_EOK else NX_EAGAIN) /\ sem_ok w' /\
      sem_values w' = if 0 <? v then <[sem := v - 1]> (sem_values w) else sem_values w;
  signal_adds w sem v : sem_ok w -> sem_values w !! sem = Some v ->
    exists w', sem_signal w sem = Some (w', NX_EOK) /\ sem_ok w' /\ sem_values w' = <[sem := i64 (v + 1)]> (sem_values w)
}.

(** ** The scheduler's semaphores *)
Section scheduler.
Context (NX_MULTI_CORES_NR : Z).
Notation sched_ok := (sched_ok NX_MULTI_CORES_NR).

#[export] Instance sched_tokens : TokenOps Sys := {
  sem_ok := sched_ok;
  sem_values s := value <$> sems s;
  runs s c id := current s c id /\ is_Some (threads s !! id) /\ ~ is_idle s id;
  sem_init s sem v := (NX_SemaphoreInit s sem v).1;
  sem_wait s c sem :=
    '(s, out) ← SemaphoreWait_turn NX_MULTI_CORES_NR s c sem;
    Some (s, match out with Returned _ => true | _ => false end);
  sem_trywait s sem := NX_SemaphoreTryWait s sem;
  sem_signal s sem := NX_SemaphoreSignal NX_MULTI_CORES_NR s sem
}.

Lemma init_ok s sem v : sched_ok s -> sem <> 0 -> sems s !! sem = None -> sched_ok (NX_SemaphoreInit s sem v).1.
Proof.
  intros Hs Hne Hn. unfold NX_SemaphoreInit. rewrite (proj2 (Z.eqb_neq _ _)) by done. cbn [fst].
  apply (sched_ok_sems NX_MULTI_CORES_NR); [done|]. destruct (so_sems _ s Hs) as [Hval Hl Ho Hw].
  assert (Hin : forall sem' sm' j, <[sem := mkSem v [] SEMPAHORE_MAGIC]> (sems s) !! sem' = Some sm' -> j ∈ semWaitList sm' ->
    sems s !! sem' = Some sm').
  { intros sem' sm' j [[_ <-]|[_ H]]%lookup_insert_Some; [by intros ?%elem_of_nil|done]. }
  split; cbn [with_sems sems threads].
  - intros sem' sm' [[<- <-]|[_ H]]%lookup_insert_Some; [|by apply Hval]. cbn. split_and!; try done. constructor.
  - intros sem' sm' j H Hj. apply (Hl sem' sm'); [by apply (Hin sem' sm' j)|done].
  - intros sem1 sem2 sm1 sm2 j H1 H2 Hj1 Hj2. apply (Ho sem1 sem2 sm1 sm2 j); eauto.
  - intros j u Hu. apply lookup_insert_is_Some'. right. by apply (Hw j u).
Qed.

#[export] Instance sched_token_laws : TokenLaws Sys.
Proof.
  split; cbn [sem_ok sem_values runs sem_init sem_wait sem_trywait sem_signal sched_tokens].
  - intros s sem v Hs Hne Hn. rewrite lookup_fmap, fmap_None in Hn. split; [by apply init_ok|].
    unfold NX_SemaphoreInit. rewrite (proj2 (Z.eqb_neq _ _)) by done. cbn. by rewrite fmap_insert.
  - intros s c id sem v Hs (Hcur & [t Ht] & Hni) Hv. rewrite lookup_fmap, fmap_Some in Hv. destruct Hv as (sm & Hsm & ->).
    destruct (wait_turn_spec _ s c id t sem sm Hs Hcur Ht Hni Hsm) as (s' & out & Hw & Hs' & Hcase). exists s'. rewrite Hw, Some_bind.
    rewrite Z.gtb_ltb in Hcase. destruct (0 <? value sm).
    + destruct Hcase as [-> ->]. split; [done|]. split; [done|]. cbn. by rewrite fmap_insert.
    + destruct Hcase as (-> & _ & t' & _ & _ & Hse). split; [done|]. split; [done|]. rewrite Hse.
      destruct (blockLinked t); [done|]. rewrite fmap_insert. cbn. apply insert_id. by rewrite lookup_fmap, Hsm.
  - intros s sem v Hs Hv. rewrite lookup_fmap, fmap_Some in Hv. destruct Hv as (sm & Hsm & ->).
    destruct (TryWait_spec _ s sem sm Hs Hsm) as (s' & Hw & Hs' & Heq). rewrite Z.gtb_ltb in *. exists s'. split; [done|]. split; [done|].
    subst s'. destruct (0 <? value sm); [|done]. cbn. by rewrite fmap_insert.
  - intros s sem v Hs Hv. rewrite lookup_fmap, fmap_Some in Hv. destruct Hv as (sm & Hsm & ->).
    destruct (Signal_spec _ s sem sm Hs Hsm) as (s' & Hw & Hs' & Hcase). exists s'. split; [done|]. split; [done|].
    destruct (released sm) as [|id l].
    + subst s'. cbn. by rewrite fmap_insert.
    + destruct Hcase as (t & _ & _ & -> & _). by rewrite fmap_insert.
Qed.
End scheduler.
