(* ===== verification/Sync.v ===== *)
(** Spin locks and mutexes: [sched/spin.c], [sched/mutex.c].

    A lock is its value and magic number; [NX_AtomicCAS] and [NX_AtomicSet] are
    one step each.  The loops of [NX_SpinLock] and [NX_MutexLock] are their
    turn, repeated by the contenders' steps below.  Interrupts are a level that
    [NX_IRQ_SaveLevel] reads and sets to 0. *)
From S2P Require Import Prelude.

Definition NX_SPIN_MAGIC : Z := 0x10000001.
Definition NX_SPIN_LOCK_VALUE : Z := 1.
Definition MUTEX_MAGIC : Z := 0x10000002.

Record NX_Spin := mkSpin {
  value : Z;
  magic : Z
}.

(** [NX_AtomicCAS] returns the value it found. *)
Definition NX_AtomicCAS (lock : NX_Spin) (old new : Z) : NX_Spin * Z :=
  (if value lock =? old then mkSpin new (magic lock) else lock, value lock).
Definition NX_AtomicSet (lock : NX_Spin) (v : Z) : NX_Spin := mkSpin v (magic lock).

(** A null lock is [None]; the result is the lock afterwards. *)
Definition NX_SpinInit (lock : option NX_Spin) : option NX_Spin * NX_Error :=
  match lock with
  | None => (None, NX_EINVAL)
  | Some l =>
      if magic l =? NX_SPIN_MAGIC then (Some l, NX_EFAULT)
      else (Some (mkSpin (value (NX_AtomicSet l 0)) NX_SPIN_MAGIC), NX_EOK)
  end.

Definition NX_SpinTryLock (lock : option NX_Spin) : option NX_Spin * NX_Error :=
  match lock with
  | None => (None, NX_EFAULT)
  | Some l =>
      if negb (magic l =? NX_SPIN_MAGIC) then (Some l, NX_EFAULT)
      else
        let (l, found) := NX_AtomicCAS l 0 NX_SPIN_LOCK_VALUE in
        if found =? 0 then (Some l, NX_EOK) else (Some l, NX_ERROR)
  end.

(** One turn of the loop: [None] for another turn. *)
Definition SpinLock_turn (lock : option NX_Spin) : option NX_Spin * option NX_Error :=
  let (lock, err) := NX_SpinTryLock lock in (lock, if is_ok err then Some NX_EOK else None).

(** [NX_SpinLock]: the checks, and the loop with what the other processors do
    to the lock between two turns ([others], turn by turn). *)
Fixpoint SpinLock_loop (others : list (NX_Spin -> NX_Spin)) (lock : option NX_Spin) : option NX_Spin * option NX_Error :=
  let (lock, res) := SpinLock_turn lock in
  match res with
  | Some err => (lock, Some err)
  | None => match others with [] => (lock, None) | f :: others => SpinLock_loop others (f <$> lock) end
  end.

Definition NX_SpinLock (others : list (NX_Spin -> NX_Spin)) (lock : option NX_Spin) : option NX_Spin * option NX_Error :=
  match lock with
  | None => (None, Some NX_EFAULT)
  | Some l => if negb (magic l =? NX_SPIN_MAGIC) then (Some l, Some NX_EFAULT) else SpinLock_loop others lock
  end.

Definition NX_SpinUnlock (lock : option NX_Spin) : option NX_Spin * NX_Error :=
  match lock with
  | None => (None, NX_EFAULT)
  | Some l => if negb (magic l =? NX_SPIN_MAGIC) then (Some l, NX_EFAULT) else (Some (NX_AtomicSet l 0), NX_EOK)
  end.

(** The interrupt level, and what is stored through [level]. *)
Definition NX_SpinLockIRQ (others : list (NX_Spin -> NX_Spin)) (irq : Z) (lock : option NX_Spin) (level : bool)
    : option NX_Spin * Z * option Z * option NX_Error :=
  match lock with
  | None => (None, irq, None, Some NX_EINVAL)
  | Some _ =>
      if negb level then (lock, irq, None, Some NX_EINVAL)
      else let (lock, err) := NX_SpinLock others lock in (lock, 0, Some irq, err)
  end.

Definition NX_SpinUnlockIRQ (irq : Z) (lock : option NX_Spin) (level : Z) : option NX_Spin * Z * NX_Error :=
  match lock with
  | None => (None, irq, NX_EINVAL)
  | Some _ =>
      let (lock, err) := NX_SpinUnlock lock in
      if is_ok err then (lock, level, NX_EOK) else (lock, irq, NX_EFAULT)
  end.

Definition NX_SpinState (lock : option NX_Spin) : NX_Error :=
  match lock with
  | None => NX_EFAULT
  | Some l => if negb (magic l =? NX_SPIN_MAGIC) then NX_EFAULT else if nz (value l) then NX_EBUSY else NX_EOK
  end.

(** ** Mutexes *)
Record NX_Mutex := mkMutex {
  lock : NX_Spin;
  mutex_magic : Z
}.

Definition NX_MutexInit (m : option NX_Mutex) : option NX_Mutex * NX_Error :=
  match m with
  | None => (None, NX_EINVAL)
  | Some m =>
      match NX_SpinInit (Some (lock m)) with
      | (Some l, NX_EOK) => (Some (mkMutex l MUTEX_MAGIC), NX_EOK)
      | _ => (Some m, NX_EPERM)
      end
  end.

Definition NX_MutexTryLock (m : option NX_Mutex) : option NX_Mutex * NX_Error :=
  match m with
  | None => (None, NX_EFAULT)
  | Some m =>
      if negb (mutex_magic m =? MUTEX_MAGIC) then (Some m, NX_EFAULT)
      else
        match NX_SpinTryLock (Some (lock m)) with
        | (Some l, err) => (Some (mkMutex l (mutex_magic m)), err)
        | (None, err) => (Some m, err)
        end
  end.

Definition NX_MutexInitLocked (m : option NX_Mutex) : option NX_Mutex * NX_Error :=
  match m with
  | None => (None, NX_EINVAL)
  | Some m =>
      match NX_SpinInit (Some (lock m)) with
      | (Some l, NX_EOK) =>
          match NX_SpinLock [] (Some l) with
          | (Some l, _) => (Some (mkMutex l MUTEX_MAGIC), NX_EOK)
          | (None, _) => (Some m, NX_EPERM)
          end
      | _ => (Some m, NX_EPERM)
      end
  end.

(** One turn of [NX_MutexLock]; after [None] the thread yields and tries again. *)
Definition MutexLock_turn (m : option NX_Mutex) : option NX_Mutex * option NX_Error :=
  match m with
  | None => (None, Some NX_EFAULT)
  | Some mx =>
      if negb (mutex_magic mx =? MUTEX_MAGIC) then (m, Some NX_EFAULT)
      else let (m, err) := NX_MutexTryLock m in (m, if is_ok err then Some NX_EOK else None)
  end.

Definition NX_MutexUnlock (m : option NX_Mutex) : option NX_Mutex * NX_Error :=
  match m with
  | None => (None, NX_EFAULT)
  | Some mx =>
      if negb (mutex_magic mx =? MUTEX_MAGIC) then (m, NX_EFAULT)
      else match NX_SpinUnlock (Some (lock mx)) with
           | (Some l, _) => (Some (mkMutex l (mutex_magic mx)), NX_EOK)
           | (None, _) => (m, NX_EOK)
           end
  end.

Definition NX_MutexState (m : option NX_Mutex) : NX_Error :=
  match m with
  | None => NX_EFAULT
  | Some mx => if negb (mutex_magic mx =? MUTEX_MAGIC) then NX_EFAULT else NX_SpinState (Some (lock mx))
  end.

(** ** Contenders

    [pc] says where each of any number of threads stands: outside, in the loop
    of [NX_MutexLock], or between its return and [NX_MutexUnlock]. *)
Inductive place := Outside | Trying | Inside.

#[export] Instance place_eq_dec : EqDecision place.
Proof. solve_decision. Defined.

Record Arena := mkArena {
  mutex : NX_Mutex;
  pc : gmap Z place
}.

Inductive step : Arena -> Arena -> Prop :=
  | step_enter a i : pc a !! i = Some Outside -> step a (mkArena (mutex a) (<[i := Trying]> (pc a)))
  | step_try a i m r : pc a !! i = Some Trying -> MutexLock_turn (Some (mutex a)) = (Some m, r) ->
      step a (mkArena m (match r with Some _ => <[i := Inside]> (pc a) | None => pc a end))
  | step_poll a i m err : pc a !! i = Some Outside -> NX_MutexTryLock (Some (mutex a)) = (Some m, err) ->
      step a (mkArena m (if is_ok err then <[i := Inside]> (pc a) else pc a))
  | step_leave a i m : pc a !! i = Some Inside -> NX_MutexUnlock (Some (mutex a)) = (Some m, NX_EOK) ->
      step a (mkArena m (<[i := Outside]> (pc a))).

(** Any start from a fresh mutex with everybody outside. *)
Inductive reach : Arena -> Prop :=
  | reach_init m0 m p : NX_MutexInit (Some m0) = (Some m, NX_EOK) -> (forall i x, p !! i = Some x -> x = Outside) -> reach (mkArena m p)
  | reach_step a b : reach a -> step a b -> reach b.

Definition exclusive (a : Arena) : Prop :=
  mutex_magic (mutex a) = MUTEX_MAGIC /\ magic (lock (mutex a)) = NX_SPIN_MAGIC /\
  ((value (lock (mutex a)) = 0 /\ forall i, pc a !! i <> Some Inside) \/
   (value (lock (mutex a)) = 1 /\ exists i, pc a !! i = Some Inside /\ forall j, pc a !! j = Some Inside -> j = i)).

Lemma TryLock_eq m : mutex_magic m = MUTEX_MAGIC -> magic (lock m) = NX_SPIN_MAGIC ->
  NX_MutexTryLock (Some m) = (Some (mkMutex (mkSpin (if value (lock m) =? 0 then 1 else value (lock m)) NX_SPIN_MAGIC) MUTEX_MAGIC),
    if value (lock m) =? 0 then NX_EOK else NX_ERROR).
Proof.
  destruct m as [[v mg] mm]. cbn. intros -> ->. unfold NX_MutexTryLock, NX_SpinTryLock, NX_AtomicCAS. cbn. by destruct (v =? 0).
Qed.

Lemma lock_turn_eq m : mutex_magic m = MUTEX_MAGIC -> magic (lock m) = NX_SPIN_MAGIC ->
  MutexLock_turn (Some m) = (Some (mkMutex (mkSpin (if value (lock m) =? 0 then 1 else value (lock m)) NX_SPIN_MAGIC) MUTEX_MAGIC),
    if value (lock m) =? 0 then Some NX_EOK else None).
Proof.
  intros Hm Hl. unfold MutexLock_turn. rewrite Hm, Z.eqb_refl. cbn [negb]. rewrite TryLock_eq by done. by destruct (_ =? 0).
Qed.

Lemma acquire_ok a i (ok : bool) :
  exclusive a -> pc a !! i <> Some Inside -> ok = (value (lock (mutex a)) =? 0) ->
  exclusive (mkArena (mkMutex (mkSpin (if ok then 1 else value (lock (mutex a))) NX_SPIN_MAGIC) MUTEX_MAGIC)
    (if ok then <[i := Inside]> (pc a) else pc a)).
Proof.
  intros (Hm & Hl & Hcase) Hi ->. split; [done|]. split; [done|]. cbn. destruct (Z.eqb_spec (value (lock (mutex a))) 0) as [Hv|Hv].
  - right. split; [done|]. exists i. rewrite lookup_insert_eq. split; [done|]. intros j. destruct (decide (j = i)) as [->|Hne]; [done|].
    rewrite lookup_insert_ne by done. destruct Hcase as [[_ Hno]|[Hv' _]]; [by intros ?%Hno|lia].
  - destruct Hcase as [[? _]|Hcase]; [done|]. by right.
Qed.

Lemma step_exclusive a b : exclusive a -> step a b -> exclusive b.
Proof.
  intros Ha Hstep. pose proof Ha as (Hm & Hl & Hcase). destruct Hstep as [a i Hi|a i m r Hi Hturn|a i m err Hi Htry|a i m Hi Hun].
  - split; [done|]. split; [done|]. cbn.
    assert (Hj : forall j, <[i := Trying]> (pc a) !! j = Some Inside <-> pc a !! j = Some Inside).
    { intros j. destruct (decide (j = i)) as [->|Hne]; [rewrite lookup_insert_eq, Hi; done|by rewrite lookup_insert_ne]. }
    destruct Hcase as [[Hv Hno]|[Hv (k & Hk & Huniq)]]; [left|right]; (split; [done|]); [intros j ?%Hj; by apply (Hno j)|].
    exists k. split; [by apply Hj|]. intros j ?%Hj. auto.
  - rewrite lock_turn_eq in Hturn by done. injection Hturn as <- <-.
    pose proof (acquire_ok a i _ Ha ltac:(congruence) eq_refl) as Hok. by destruct (_ =? 0).
  - rewrite TryLock_eq in Htry by done. injection Htry as <- <-.
    pose proof (acquire_ok a i _ Ha ltac:(congruence) eq_refl) as Hok. by destruct (_ =? 0).
  - unfold NX_MutexUnlock, NX_SpinUnlock in Hun. rewrite Hm, Hl, !Z.eqb_refl in Hun. cbn in Hun. injection Hun as <-.
    split; [done|]. split; [done|]. cbn. left. split; [done|]. intros j. destruct (decide (j = i)) as [->|Hne]; [by rewrite lookup_insert_eq|].
    rewrite lookup_insert_ne by done. intros Hj. destruct Hcase as [[_ Hno]|[_ (k & Hk & Huniq)]]; [by apply (Hno i)|].
    apply Hne. rewrite (Huniq j Hj). symmetry. by apply Huniq.
Qed.

Lemma reach_exclusive a : reach a -> exclusive a.
Proof.
  induction 1 as [m0 m p Hinit Hp|a b _ IH Hstep]; [|by apply step_exclusive with a].
  unfold NX_MutexInit, NX_SpinInit in Hinit. destruct (magic (lock m0) =? NX_SPIN_MAGIC); [done|]. injection Hinit as <-.
  split; [done|]. split; [done|]. left. split; [done|]. cbn. by intros i ?%Hp.
Qed.

(** C17: Mutual exclusion and progress, for any number of threads and any
    interleaving of their steps: never are two threads inside; the mutex
    reports [NX_EBUSY] exactly when one is; and when none is, the next turn of
    any thread that tries gets it. *)
Theorem mutex_excludes a : reach a ->
  (forall i j, pc a !! i = Some Inside -> pc a !! j = Some Inside -> i = j) /\
  (NX_MutexState (Some (mutex a)) = NX_EBUSY <-> exists i, pc a !! i = Some Inside) /\
  ((forall i, pc a !! i <> Some Inside) -> forall i, pc a !! i = Some Trying ->
     exists m, MutexLock_turn (Some (mutex a)) = (Some m, Some NX_EOK) /\ step a (mkArena m (<[i := Inside]> (pc a)))).
Proof.
  intros Hr. destruct (reach_exclusive a Hr) as (Hm & Hl & Hcase). split_and!.
  - intros i j Hi Hj. destruct Hcase as [[_ Hno]|[_ (k & Hk & Huniq)]]; [by destruct (Hno i)|]. by rewrite (Huniq i), (Huniq j).
  - unfold NX_MutexState, NX_SpinState. rewrite Hm, Hl, !Z.eqb_refl. cbn. unfold nz.
    destruct Hcase as [[Hv Hno]|[Hv (k & Hk & _)]]; rewrite Hv; cbn; split; try done.
    + intros [i Hi]. by destruct (Hno i).
    + intros _. by exists k.
  - intros Hno i Hi. destruct Hcase as [[Hv _]|[_ (k & Hk & _)]]; [|by destruct (Hno k)].
    pose proof (lock_turn_eq (mutex a) Hm Hl) as Ht. rewrite Hv in Ht. cbn in Ht. eexists. split; [exact Ht|].
    apply (step_try a i _ (Some NX_EOK) Hi Ht).
Qed.

(** The spin lock with interrupts: taking a free lock stores the level and
    disables interrupts, and releasing it with that level gives back the lock
    and the level; a lock that is busy is taken in the turn after its holder
    releases it; an uninitialised lock is refused by every operation. *)
Theorem spin_lock_roundtrip (l : NX_Spin) (irq : Z) (busy : nat) :
  (magic l = NX_SPIN_MAGIC -> value l = 0 ->
    exists l1, NX_SpinLockIRQ [] irq (Some l) true = (Some l1, 0, Some irq, Some NX_EOK) /\
      NX_SpinState (Some l1) = NX_EBUSY /\ NX_SpinTryLock (Some l1) = (Some l1, NX_ERROR) /\
      NX_SpinUnlockIRQ 0 (Some l1) irq = (Some l, irq, NX_EOK)) /\
  (magic l = NX_SPIN_MAGIC -> value l <> 0 ->
    NX_SpinLock (replicate busy (fun x => x) ++ [fun x => NX_AtomicSet x 0]) (Some l) = (Some (mkSpin 1 NX_SPIN_MAGIC), Some NX_EOK) /\
    NX_SpinLock (replicate busy (fun x => x)) (Some l) = (Some l, None)) /\
  (magic l <> NX_SPIN_MAGIC -> NX_SpinTryLock (Some l) = (Some l, NX_EFAULT) /\ NX_SpinLock [] (Some l) = (Some l, Some NX_EFAULT) /\
    NX_SpinUnlock (Some l) = (Some l, NX_EFAULT) /\ NX_SpinState (Some l) = NX_EFAULT).
Proof.
  destruct l as [v mg]. cbn [magic value]. split_and!.
  - intros -> ->. by exists (mkSpin 1 NX_SPIN_MAGIC).
  - intros -> Hv. assert (Hturn : SpinLock_turn (Some (mkSpin v NX_SPIN_MAGIC)) = (Some (mkSpin v NX_SPIN_MAGIC), None)).
    { unfold SpinLock_turn, NX_SpinTryLock, NX_AtomicCAS. cbn. by rewrite (proj2 (Z.eqb_neq _ _)). }
    unfold NX_SpinLock. cbn [magic]. rewrite Z.eqb_refl. cbn [negb].
    split; (induction busy as [|n IH]; cbn [replicate app SpinLock_loop]; rewrite Hturn; [done|exact IH]).
  - intros Hmg%Z.eqb_neq. unfold NX_SpinTryLock, NX_SpinLock, NX_SpinUnlock, NX_SpinState. cbn. by rewrite Hmg.
Qed.

Lemma mutex_excludes_witness :
  let a := mkArena (mkMutex (mkSpin 0 NX_SPIN_MAGIC) MUTEX_MAGIC) {[1 := Trying; 2 := Outside]} in
  exists m, MutexLock_turn (Some (mutex a)) = (Some m, Some NX_EOK).
Proof.
  intros a. set (a0 := mkArena (mkMutex (mkSpin 0 NX_SPIN_MAGIC) MUTEX_MAGIC) {[1 := Outside; 2 := Outside]}).
  assert (Hr : reach a).
  { apply (reach_step a0).
    - apply (reach_init (mkMutex (mkSpin 7 0) 0)); [reflexivity|]. intros i x Hx.
      apply lookup_insert_Some in Hx as [[_ <-]|[_ Hx]]; [done|]. by apply lookup_singleton_Some in Hx as [_ <-].
    - apply (step_enter a0 1). reflexivity. }
  destruct (mutex_excludes a Hr) as (_ & _ & H). destruct (H) with (i := 1) as (m & Hm & _).
  - intros i Hi. cbn [a pc] in Hi. apply lookup_insert_Some in Hi as [[_ ?]|[_ Hi]]; [done|]. by apply lookup_singleton_Some in Hi as [_ ?].
  - reflexivity.
  - exists m. exact Hm.
Defined.

Lemma spin_lock_roundtrip_witness :
  exists l1, NX_SpinLockIRQ [] 2 (Some (mkSpin 0 NX_SPIN_MAGIC)) true = (Some l1, 0, Some 2, Some NX_EOK).
Proof.
  destruct (proj1 (spin_lock_roundtrip (mkSpin 0 NX_SPIN_MAGIC) 2 0) eq_refl eq_refl) as (l1 & H & _). exists l1. exact H.
Defined.

(** Initialising a lock twice, or in memory that happens to hold the magic
    number, is refused and leaves it as it is, taken or not. *)
Example reinit_refused : NX_SpinInit (Some (mkSpin 1 NX_SPIN_MAGIC)) = (Some (mkSpin 1 NX_SPIN_MAGIC), NX_EFAULT).
Proof. reflexivity. Qed.
