(* ===== verification/IoQueue.v ===== *)
(** Bounded queues of characters between threads: [io/ioqueue.c].

    The operations are the sequences of atomic actions the C code performs:
    semaphore calls ([Tokens]), and the accesses to the buffer and the indices,
    the increment and the reduction of an index being two actions.  Any number
    of callers interleave their actions. *)
From S2P Require Import Prelude Sched SchedInv SchedOps Tokens.

#[local] Coercion Z.of_nat : nat >-> Z.

(** The semaphores are named by their addresses; [buf] is the buffer's content. *)
Record NX_IoQueue := mkQueue {
  full : Z;
  empty : Z;
  mutex : Z;
  length_ : Z;
  getIndex : Z;
  putIndex : Z;
  buf : list Z
}.

Definition with_get (q : NX_IoQueue) (i : Z) : NX_IoQueue := mkQueue (full q) (empty q) (mutex q) (length_ q) i (putIndex q) (buf q).
Definition with_put (q : NX_IoQueue) (i : Z) (b : list Z) : NX_IoQueue := mkQueue (full q) (empty q) (mutex q) (length_ q) (getIndex q) i b.

Inductive sem_name := Full | Empty | Mutex.

#[export] Instance sem_name_eq_dec : EqDecision sem_name.
Proof. solve_decision. Defined.

Definition sem_of (q : NX_IoQueue) (n : sem_name) : Z :=
  match n with Full => full q | Empty => empty q | Mutex => mutex q end.

Inductive action :=
  | Wait (n : sem_name)
  | TryWait (n : sem_name)
  | Signal (n : sem_name)
  (** [queue->buf[queue->putIndex++] = data] *)
  | Store (data : Z)
  (** [queue->putIndex %= queue->length] *)
  | WrapPut
  (** [data = queue->buf[queue->getIndex++]] *)
  | Load
  (** [queue->getIndex %= queue->length] *)
  | WrapGet.

(** A null queue is refused before any action. *)
Definition checked (queue : option NX_IoQueue) (prog : list action) : list action + NX_Error :=
  match queue with None => inr NX_EINVAL | Some _ => inl prog end.

Definition NX_IoQueueGet (queue : option NX_IoQueue) : list action + NX_Error :=
  checked queue [Wait Full; Wait Mutex; Load; WrapGet; Signal Mutex; Signal Empty].
Definition NX_IoQueueTryGet (queue : option NX_IoQueue) : list action + NX_Error :=
  checked queue [TryWait Full; Wait Mutex; Load; WrapGet; Signal Mutex; Signal Empty].
Definition NX_IoQueuePut (queue : option NX_IoQueue) (data : Z) : list action + NX_Error :=
  checked queue [Wait Empty; Wait Mutex; Store data; WrapPut; Signal Mutex; Signal Full].
Definition NX_IoQueueTryPut (queue : option NX_IoQueue) (data : Z) : list action + NX_Error :=
  checked queue [TryWait Empty; Wait Mutex; Store data; WrapPut; Signal Mutex; Signal Full].

Section queue.
Context {W : Type} `{TokenOps W}.

(** [buf] is the memory given ([None]: null); the semaphores get the addresses of
    the queue's fields. *)
Definition NX_IoQueueInit (w : W) (queue : option NX_IoQueue) (b : option (list Z)) (len : Z) : W * option NX_IoQueue * NX_Error :=
  match queue, b with
  | Some q, Some b =>
      if negb (nz len) then (w, queue, NX_EINVAL)
      else
        let w := sem_init w (mutex q) 1 in
        let w := sem_init w (full q) 0 in
        let w := sem_init w (empty q) len in
        (w, Some (mkQueue (full q) (empty q) (mutex q) len 0 0 b), NX_EOK)
  | _, _ => (w, queue, NX_EINVAL)
  end.

(** The two allocations are arguments. *)
Definition NX_IoQueueCreate (w : W) (len : Z) (queue : option NX_IoQueue) (b : option (list Z)) : W * option NX_IoQueue * NX_Error :=
  match queue with
  | None => (w, None, NX_ENOMEM)
  | Some _ =>
      match b with
      | None => (w, None, NX_ENOMEM)
      | Some _ =>
          let '(w, q, err) := NX_IoQueueInit w queue b len in
          if is_ok err then (w, q, err) else (w, None, err)
      end
  end.

Definition NX_IoQueueDestroy (queue : option NX_IoQueue) : NX_Error :=
  match queue with None => NX_EINVAL | Some _ => NX_EOK end.

(** What an action means for its caller: go on, try it again when woken, or
    return with an error. *)
Inductive verdict := Next | Retry | Failed (err : NX_Error).

Definition exec (w : W) (q : NX_IoQueue) (core : Z) (a : action) : option (W * NX_IoQueue * verdict) :=
  match a with
  | Wait n => '(w, took) ← sem_wait w core (sem_of q n); Some (w, q, if took : bool then Next else Retry)
  | TryWait n => '(w, err) ← sem_trywait w (sem_of q n); Some (w, q, if is_ok err then Next else Failed NX_EAGAIN)
  | Signal n => '(w, _) ← sem_signal w (sem_of q n); Some (w, q, Next)
  | Store d => _ ← zlookup (buf q) (putIndex q); Some (w, with_put q (putIndex q + 1) (zinsert (buf q) (putIndex q) d), Next)
  | WrapPut => Some (w, with_put q (putIndex q mod length_ q) (buf q), Next)
  | Load => _ ← zlookup (buf q) (getIndex q); Some (w, with_get q (getIndex q + 1), Next)
  | WrapGet => Some (w, with_get q (getIndex q mod length_ q), Next)
  end.

(** ** Callers *)

(** A thread in an operation: the actions still to do, and the error it
    returns with if an action failed. *)
Record Caller := mkCaller {
  tid : Z;
  prog : list action;
  err : NX_Error
}.

(** [puts] and [gets] record the characters stored and loaded, in that order. *)
Record State := mkState {
  world : W;
  queue : NX_IoQueue;
  callers : list Caller;
  puts : list Z;
  gets : list Z
}.

Definition after (c : Caller) (p : list action) (v : verdict) : Caller :=
  match v with
  | Next => mkCaller (tid c) p (err c)
  | Retry => c
  | Failed e => mkCaller (tid c) [] e
  end.

Definition logged (a : action) (q : NX_IoQueue) (ps gs : list Z) : list Z * list Z :=
  match a with
  | Store d => (ps ++ [d], gs)
  | Load => (ps, gs ++ option_list (zlookup (buf q) (getIndex q)))
  | _ => (ps, gs)
  end.

Inductive step : State -> State -> Prop :=
  (** A thread calls one of the operations. *)
  | step_call st id op p :
      op ∈ [NX_IoQueueGet (Some (queue st)); NX_IoQueueTryGet (Some (queue st))] \/
        (exists d, op ∈ [NX_IoQueuePut (Some (queue st)) d; NX_IoQueueTryPut (Some (queue st)) d]) -> op = inl p ->
      step st (mkState (world st) (queue st) (callers st ++ [mkCaller id p NX_EOK]) (puts st) (gets st))
  (** A caller does its next action on some core. *)
  | step_exec st i c a p core w q v :
      callers st !! i = Some c -> prog c = a :: p -> runs (world st) core (tid c) ->
      exec (world st) (queue st) core a = Some (w, q, v) ->
      step st (mkState w q (<[i := after c p v]> (callers st))
        (logged a (queue st) (puts st) (gets st)).1 (logged a (queue st) (puts st) (gets st)).2)
  (** Anything else happens in the system, to other semaphores. *)
  | step_other st w : sem_ok w -> (forall n, sem_values w !! sem_of (queue st) n = sem_values (world st) !! sem_of (queue st) n) ->
      step st (mkState w (queue st) (callers st) (puts st) (gets st)).

Inductive reach : State -> Prop :=
  | reach_init w0 q0 b w q : sem_ok w0 -> mutex q0 <> full q0 -> mutex q0 <> empty q0 -> full q0 <> empty q0 ->
      (forall n, sem_of q0 n <> 0 /\ sem_values w0 !! sem_of q0 n = None) -> b <> [] -> length b < 2 ^ 63 ->
      NX_IoQueueInit w0 (Some q0) (Some b) (length b) = (w, Some q, NX_EOK) -> reach (mkState w q [] [] [])
  | reach_step st st' : reach st -> step st st' -> reach st'.

(** ** The invariant *)

(** How many tokens a caller holds: of the empty slots it took and has not
    stored in, those it has loaded from and not given back, the slots it
    stored in and has not announced, those it was told of and has not loaded,
    and the mutex.  Each is a count of actions still to do. *)
Definition weight (f : action -> Z) (p : list action) : Z := foldr (fun a z => f a + z) 0 p.
Definition w_store (a : action) : Z := match a with Store _ => 1 | Wait Empty | TryWait Empty => -1 | _ => 0 end.
Definition w_loaded (a : action) : Z := match a with Signal Empty => 1 | Load => -1 | _ => 0 end.
Definition w_stored (a : action) : Z := match a with Signal Full => 1 | Store _ => -1 | _ => 0 end.
Definition w_load (a : action) : Z := match a with Load => 1 | Wait Full | TryWait Full => -1 | _ => 0 end.
Definition w_mutex (a : action) : Z := match a with Signal Mutex => 1 | Wait Mutex | TryWait Mutex => -1 | _ => 0 end.

Definition total (f : action -> Z) (cs : list Caller) : Z := foldr (fun c z => weight f (prog c) + z) 0 cs.

Fixpoint tails (p : list action) : list (list action) :=
  p :: match p with [] => [] | _ :: p => tails p end.

Definition in_operation (p : list action) : Prop :=
  (exists w, (w = Wait Full \/ w = TryWait Full) /\ p ∈ tails [w; Wait Mutex; Load; WrapGet; Signal Mutex; Signal Empty]) \/
  (exists w d, (w = Wait Empty \/ w = TryWait Empty) /\ p ∈ tails [w; Wait Mutex; Store d; WrapPut; Signal Mutex; Signal Full]).

Definition at_action (cs : list Caller) (a : action) : Prop := exists i c p, cs !! i = Some c /\ prog c = a :: p.

Definition slot (q : NX_IoQueue) (k : Z) : option Z := zlookup (buf q) (k mod length_ q).

(** The value of each semaphore. *)
Definition expected (st : State) (n : sem_name) : Z :=
  match n with
  | Full => length (puts st) - length (gets st) - total w_stored (callers st) - total w_load (callers st)
  | Empty => length_ (queue st) - (length (puts st) - length (gets st)) - total w_store (callers st) - total w_loaded (callers st)
  | Mutex => 1 - total w_mutex (callers st)
  end.

Record queue_ok (st : State) : Prop := {
  qk_world : sem_ok (world st);
  qk_names : mutex (queue st) <> full (queue st) /\ mutex (queue st) <> empty (queue st) /\ full (queue st) <> empty (queue st);
  qk_length : 0 < length_ (queue st) < 2 ^ 63 /\ Z.of_nat (length (buf (queue st))) = length_ (queue st);
  qk_logs : (length (gets st) <= length (puts st))%nat /\ gets st = take (length (gets st)) (puts st);
  qk_values : forall n, sem_values (world st) !! sem_of (queue st) n = Some (expected st n);
  qk_nonneg : forall n, 0 <= expected st n;
  qk_callers : Forall (fun c => in_operation (prog c)) (callers st);
  qk_put : 0 <= putIndex (queue st) <= length_ (queue st) /\ putIndex (queue st) mod length_ (queue st) = length (puts st) mod length_ (queue st) /\
    (putIndex (queue st) < length_ (queue st) \/ at_action (callers st) WrapPut);
  qk_get : 0 <= getIndex (queue st) <= length_ (queue st) /\ getIndex (queue st) mod length_ (queue st) = length (gets st) mod length_ (queue st) /\
    (getIndex (queue st) < length_ (queue st) \/ at_action (callers st) WrapGet);
  qk_content : forall k : nat, (length (gets st) <= k < length (puts st))%nat -> slot (queue st) k = puts st !! k
}.

(** What an action that succeeds does to a semaphore. *)
Definition change (a : action) (n : sem_name) : Z :=
  match a with
  | Wait m | TryWait m => if decide (n = m) then -1 else 0
  | Signal m => if decide (n = m) then 1 else 0
  | _ => 0
  end.

(** ** Counting *)
Lemma total_cons f c cs : total f (c :: cs) = weight f (prog c) + total f cs.
Proof. done. Qed.

Lemma callers_total_insert f cs i c c' : cs !! i = Some c ->
  total f (<[i := c']> cs) = total f cs - weight f (prog c) + weight f (prog c').
Proof.
  revert i. induction cs as [|x cs IH]; intros [|i] Hi; try done; cbn in Hi.
  - injection Hi as ->. change (<[0%nat := c']> (c :: cs)) with (c' :: cs). rewrite !total_cons. lia.
  - change (<[S i := c']> (x :: cs)) with (x :: <[i := c']> cs). rewrite !total_cons, (IH i Hi). lia.
Qed.

Lemma total_app f cs1 cs2 : total f (cs1 ++ cs2) = total f cs1 + total f cs2.
Proof. induction cs1 as [|c cs1 IH]; [done|]. cbn [app]. rewrite !total_cons, IH. lia. Qed.

Lemma total_nonneg f cs : Forall (fun c => 0 <= weight f (prog c)) cs -> 0 <= total f cs.
Proof. induction 1; [done|]. rewrite total_cons. lia. Qed.

Lemma total_ge f cs i c : Forall (fun c => 0 <= weight f (prog c)) cs -> cs !! i = Some c -> weight f (prog c) <= total f cs.
Proof.
  intros Hf. revert i. induction Hf as [|x cs Hx Hf IH]; intros [|i] Hi; try done; cbn in Hi; rewrite total_cons.
  - injection Hi as ->. pose proof (total_nonneg f cs Hf). lia.
  - specialize (IH i Hi). lia.
Qed.

Lemma total_two f cs i j c d : Forall (fun c => 0 <= weight f (prog c)) cs -> cs !! i = Some c -> cs !! j = Some d -> i <> j ->
  weight f (prog c) + weight f (prog d) <= total f cs.
Proof.
  intros Hf Hi Hj Hne. pose proof (callers_total_insert f cs i c (mkCaller 0 [] NX_EOK) Hi) as H1. cbn [prog] in H1. change (weight f []) with 0 in H1.
  pose proof (total_ge f (<[i := mkCaller 0 [] NX_EOK]> cs) j d) as H2. rewrite list_lookup_insert_ne in H2 by done.
  specialize (H2 ltac:(apply Forall_insert; [done|cbn; lia]) Hj). lia.
Qed.

Ltac op_cases Hop :=
  destruct Hop as [(? & [-> | ->] & Hop)|(? & ? & [-> | ->] & Hop)]; cbn [tails] in Hop;
  rewrite !elem_of_cons, elem_of_nil in Hop;
  repeat match type of Hop with _ \/ _ => destruct Hop as [Hop|Hop] end; try done;
  try (injection Hop as ? ?); subst; cbn.

Lemma op_tail a p : in_operation (a :: p) -> in_operation p.
Proof.
  intros Hop. op_cases Hop; first
    [ solve [left; exists (Wait Full); split; [by left|]; cbn [tails]; rewrite !elem_of_cons; tauto]
    | right; eexists (Wait Empty), _; split; [by left|]; cbn [tails]; rewrite !elem_of_cons; eauto 10 ].
  Unshelve. all: exact 0.
Qed.

Lemma op_nil : in_operation [].
Proof. left. exists (Wait Full). split; [by left|]. cbn [tails]. rewrite !elem_of_cons. tauto. Qed.

Lemma op_weights p : in_operation p ->
  0 <= weight w_store p /\ 0 <= weight w_loaded p /\ 0 <= weight w_stored p /\ 0 <= weight w_load p /\ 0 <= weight w_mutex p.
Proof. intros Hop. op_cases Hop; split_and!; lia. Qed.

(** A caller about to touch the buffer or an index holds the mutex, and a token. *)
Lemma op_inside a p : in_operation (a :: p) ->
  match a with
  | Store _ => weight w_mutex (a :: p) = 1 /\ weight w_store (a :: p) = 1
  | Load => weight w_mutex (a :: p) = 1 /\ weight w_load (a :: p) = 1
  | WrapPut | WrapGet => weight w_mutex (a :: p) = 1
  | Signal Full => weight w_stored (a :: p) = 1
  | Signal Empty => weight w_loaded (a :: p) = 1
  | Signal Mutex => weight w_mutex (a :: p) = 1
  | TryWait _ => forall f, f ∈ [w_store; w_loaded; w_stored; w_load; w_mutex] -> weight f (a :: p) = 0
  | _ => True
  end.
Proof.
  intros Hop. op_cases Hop; try done; intros f; rewrite !elem_of_cons, elem_of_nil; intros Hf;
    repeat match type of Hf with _ \/ _ => destruct Hf as [Hf|Hf] end; try done; subst; done.
Qed.

(** ** Steps keep the invariant *)
Context `{!TokenLaws W}.
Implicit Types (st : State) (c : Caller) (a : action).

Lemma sem_of_inj st n m : queue_ok st -> sem_of (queue st) n = sem_of (queue st) m -> n = m.
Proof. intros Hok. destruct (qk_names st Hok) as (? & ? & ?). destruct n, m; cbn; congruence. Qed.

Lemma expected_nonneg st n : queue_ok st -> 0 <= expected st n.
Proof. intros Hok. apply (qk_nonneg st Hok). Qed.

Lemma mutex_weights st : queue_ok st -> Forall (fun c => 0 <= weight w_mutex (prog c)) (callers st).
Proof. intros Hok. eapply Forall_impl; [apply (qk_callers st Hok)|]. intros c Hc. by apply op_weights. Qed.

(** Two callers between the actions on the mutex are the same. *)
Lemma mutex_exclusive st i j c d : queue_ok st -> callers st !! i = Some c -> callers st !! j = Some d ->
  weight w_mutex (prog c) = 1 -> weight w_mutex (prog d) = 1 -> i = j.
Proof.
  intros Hok Hi Hj Hc Hd. destruct (decide (i = j)) as [|Hne]; [done|].
  pose proof (total_two w_mutex _ i j c d (mutex_weights st Hok) Hi Hj Hne). pose proof (expected_nonneg st Mutex Hok). cbn in *. lia.
Qed.

Lemma op_at st i c a p : queue_ok st -> callers st !! i = Some c -> prog c = a :: p -> in_operation (a :: p).
Proof. intros Hok Hi Hp. pose proof (qk_callers st Hok) as H1. rewrite Forall_lookup in H1. rewrite <- Hp. by apply (H1 i). Qed.

Lemma not_wrapping st i c a p a' : queue_ok st -> callers st !! i = Some c -> prog c = a :: p -> weight w_mutex (a :: p) = 1 ->
  a' = WrapPut \/ a' = WrapGet -> a <> a' -> ~ at_action (callers st) a'.
Proof.
  intros Hok Hi Hp Hw Ha' Hne (j & d & r & Hj & Hr). pose proof (op_inside _ _ (op_at st j d a' r Hok Hj Hr)) as Hin.
  assert (i = j) as <-.
  { apply (mutex_exclusive st i j c d Hok Hi Hj); [by rewrite Hp|rewrite Hr]. by destruct Ha' as [-> | ->]. }
  rewrite Hi in Hj. injection Hj as <-. congruence.
Qed.

(** The queue after an action that succeeds. *)
Definition moved a (q : NX_IoQueue) : NX_IoQueue :=
  match a with
  | Store d => with_put q (putIndex q + 1) (zinsert (buf q) (putIndex q) d)
  | WrapPut => with_put q (putIndex q mod length_ q) (buf q)
  | Load => with_get q (getIndex q + 1)
  | WrapGet => with_get q (getIndex q mod length_ q)
  | _ => q
  end.

(** A slot is read or written inside the buffer, and what is read is the
    oldest character not yet loaded. *)
Lemma put_slot st i c d p : queue_ok st -> callers st !! i = Some c -> prog c = Store d :: p ->
  0 <= putIndex (queue st) < length_ (queue st) /\ putIndex (queue st) = length (puts st) mod length_ (queue st) /\
  (length (puts st) - length (gets st) < length_ (queue st)).
Proof.
  intros Hok Hi Hp. destruct (op_inside _ _ (op_at st i c _ p Hok Hi Hp)) as [Hm Hs].
  pose proof (qk_put st Hok) as (H1 & H2 & H3). pose proof (qk_length st Hok).
  assert (putIndex (queue st) < length_ (queue st)) as Hlt by (destruct H3 as [|Hat]; [done|exfalso; apply (not_wrapping st i c _ p WrapPut Hok Hi Hp Hm); auto; done]).
  rewrite Z.mod_small in H2 by lia. split; [lia|]. split; [done|].
  pose proof (expected_nonneg st Empty Hok) as He. cbn in He.
  assert (Hge : weight w_store (prog c) <= total w_store (callers st)).
  { apply (total_ge _ _ i c); [|done]. eapply Forall_impl; [apply (qk_callers st Hok)|]. intros ? ?. by apply op_weights. }
  assert (0 <= total w_loaded (callers st)).
  { apply total_nonneg. eapply Forall_impl; [apply (qk_callers st Hok)|]. intros ? ?. by apply op_weights. }
  rewrite Hp, Hs in Hge. lia.
Qed.

Lemma get_slot st i c p : queue_ok st -> callers st !! i = Some c -> prog c = Load :: p ->
  0 <= getIndex (queue st) < length_ (queue st) /\ getIndex (queue st) = length (gets st) mod length_ (queue st) /\
  exists x, puts st !! length (gets st) = Some x /\ zlookup (buf (queue st)) (getIndex (queue st)) = Some x.
Proof.
  intros Hok Hi Hp. destruct (op_inside _ _ (op_at st i c _ p Hok Hi Hp)) as [Hm Hs].
  pose proof (qk_get st Hok) as (H1 & H2 & H3). pose proof (qk_length st Hok).
  assert (getIndex (queue st) < length_ (queue st)) as Hlt by (destruct H3 as [|Hat]; [done|exfalso; apply (not_wrapping st i c _ p WrapGet Hok Hi Hp Hm); auto; done]).
  rewrite Z.mod_small in H2 by lia. split; [lia|]. split; [done|].
  pose proof (expected_nonneg st Full Hok) as He. cbn in He.
  assert (Hge : weight w_load (prog c) <= total w_load (callers st)).
  { apply (total_ge _ _ i c); [|done]. eapply Forall_impl; [apply (qk_callers st Hok)|]. intros ? ?. by apply op_weights. }
  assert (0 <= total w_stored (callers st)).
  { apply total_nonneg. eapply Forall_impl; [apply (qk_callers st Hok)|]. intros ? ?. by apply op_weights. }
  rewrite Hp, Hs in Hge. destruct (lookup_lt_is_Some_2 (puts st) (length (gets st))) as [x Hx]; [lia|]. exists x. split; [done|].
  rewrite <- Hx, <- (qk_content st Hok) by lia. unfold slot. by rewrite H2.
Qed.

(** A signal does not reach the end of its counter: the caller holds the token
    it gives back. *)
Lemma signal_room st i c n p : queue_ok st -> callers st !! i = Some c -> prog c = Signal n :: p ->
  expected st n + 1 <= length_ (queue st).
Proof.
  intros Hok Hi Hp. pose proof (op_inside _ _ (op_at st i c _ p Hok Hi Hp)) as Hin. pose proof (qk_length st Hok) as [HL _].
  pose proof (qk_logs st Hok) as [Hlog _]. pose proof (expected_nonneg st Empty Hok) as He. cbn in He.
  assert (Hnn : forall f, f ∈ [w_store; w_loaded; w_stored; w_load; w_mutex] -> Forall (fun c => 0 <= weight f (prog c)) (callers st)).
  { intros f Hf. eapply Forall_impl; [apply (qk_callers st Hok)|]. intros d Hd. destruct (op_weights _ Hd) as (? & ? & ? & ? & ?).
    rewrite !elem_of_cons, elem_of_nil in Hf. repeat destruct Hf as [Hf|Hf]; subst; done. }
  assert (Htot : forall f, f ∈ [w_store; w_loaded; w_stored; w_load; w_mutex] -> 0 <= total f (callers st) /\ weight f (prog c) <= total f (callers st)).
  { intros f Hf. split; [by apply total_nonneg, Hnn|by apply (total_ge f _ i c); [apply Hnn|]]. }
  pose proof (Htot w_store ltac:(rewrite !elem_of_cons; tauto)). pose proof (Htot w_loaded ltac:(rewrite !elem_of_cons; tauto)).
  pose proof (Htot w_stored ltac:(rewrite !elem_of_cons; tauto)). pose proof (Htot w_load ltac:(rewrite !elem_of_cons; tauto)).
  pose proof (Htot w_mutex ltac:(rewrite !elem_of_cons; tauto)). rewrite Hp in *. destruct n; cbn [expected]; lia.
Qed.

Lemma exec_spec st i c a p core : queue_ok st -> callers st !! i = Some c -> prog c = a :: p -> runs (world st) core (tid c) ->
  exists w q v, exec (world st) (queue st) core a = Some (w, q, v) /\ sem_ok w /\
    match v with
    | Next => q = moved a (queue st) /\ forall n, sem_values w !! sem_of (queue st) n = Some (expected st n + change a n) /\ 0 <= expected st n + change a n
    | Retry => q = queue st /\ sem_values w = sem_values (world st) /\ exists n, a = Wait n /\ expected st n = 0
    | Failed e => q = queue st /\ sem_values w = sem_values (world st) /\ e = NX_EAGAIN /\ exists n, a = TryWait n /\ expected st n = 0
    end.
Proof.
  intros Hok Hi Hp Hr. pose proof (qk_world st Hok) as Hw. pose proof (qk_values st Hok) as Hv.
  assert (Hset : forall x n m, <[sem_of (queue st) m := expected st m + x]> (sem_values (world st)) !! sem_of (queue st) n =
    Some (expected st n + if decide (n = m) then x else 0)).
  { intros x n m. destruct (decide (n = m)) as [->|Hne]; [apply lookup_insert_eq|].
    rewrite lookup_insert_ne, Hv; [f_equal; lia|]. intros E. apply Hne. symmetry. by apply (sem_of_inj st). }
  destruct a as [n|n|n|d| | |]; cbn [exec moved change].
  - destruct (wait_takes _ core _ _ _ Hw Hr (Hv n)) as (w' & -> & Hw' & Hv'). rewrite Some_bind. exists w', (queue st).
    destruct (Z.ltb_spec 0 (expected st n)) as [|]; eexists; (split; [done|]); (split; [done|]); cbn.
    + split; [done|]. intros m. rewrite Hv'. split; [apply Hset|]. pose proof (expected_nonneg st m Hok). case_decide; [subst|]; lia.
    + split; [done|]. split; [done|]. exists n. split; [done|]. pose proof (expected_nonneg st n Hok). lia.
  - destruct (trywait_takes _ _ _ Hw (Hv n)) as (w' & -> & Hw' & Hv'). rewrite Some_bind. exists w', (queue st).
    destruct (Z.ltb_spec 0 (expected st n)) as [|]; eexists; (split; [done|]); (split; [done|]); cbn.
    + split; [done|]. intros m. rewrite Hv'. split; [apply Hset|]. pose proof (expected_nonneg st m Hok). case_decide; [subst|]; lia.
    + split; [done|]. split; [done|]. split; [done|]. exists n. split; [done|]. pose proof (expected_nonneg st n Hok). lia.
  - destruct (signal_adds _ _ _ Hw (Hv n)) as (w' & -> & Hw' & Hv'). rewrite Some_bind. exists w', (queue st), Next.
    pose proof (signal_room st i c n p Hok Hi Hp). pose proof (qk_length st Hok) as [HL _]. pose proof (expected_nonneg st n Hok).
    rewrite i64_small in Hv' by lia.
    split; [done|]. split; [done|]. split; [done|]. intros m. rewrite Hv'. split; [apply Hset|].
    pose proof (expected_nonneg st m Hok). case_decide; [subst|]; lia.
  - destruct (put_slot st i c d p Hok Hi Hp) as (Hlt & _ & _). pose proof (qk_length st Hok) as [_ Hl].
    destruct (zlookup (buf (queue st)) (putIndex (queue st))) as [x|] eqn:E.
    + rewrite Some_bind. eexists _, _, Next. split; [done|]. split; [done|]. split; [done|]. intros n. rewrite Hv, Z.add_0_r. split; [done|by apply expected_nonneg].
    + exfalso. unfold zlookup in E. rewrite (proj2 (Z.leb_le _ _)) in E by lia. apply lookup_ge_None in E. lia.
  - eexists _, _, Next. split; [done|]. split; [done|]. split; [done|]. intros n. rewrite Hv, Z.add_0_r. split; [done|by apply expected_nonneg].
  - destruct (get_slot st i c p Hok Hi Hp) as (_ & _ & x & _ & ->). rewrite Some_bind. eexists _, _, Next.
    split; [done|]. split; [done|]. split; [done|]. intros n. rewrite Hv, Z.add_0_r. split; [done|by apply expected_nonneg].
  - eexists _, _, Next. split; [done|]. split; [done|]. split; [done|]. intros n. rewrite Hv, Z.add_0_r. split; [done|by apply expected_nonneg].
Qed.

Lemma op_next a p : in_operation (a :: p) ->
  match a with
  | Store _ => exists r, p = WrapPut :: r
  | Load => exists r, p = WrapGet :: r
  | _ => True
  end.
Proof. intros Hop. op_cases Hop; try done; by eexists. Qed.

Lemma at_keep cs i c c' a p a' : cs !! i = Some c -> prog c = a :: p -> a <> a' -> at_action cs a' -> at_action (<[i := c']> cs) a'.
Proof.
  intros Hi Hp Hne (j & d & r & Hj & Hr). exists j, d, r. split; [|done]. rewrite list_lookup_insert_ne; [done|]. intros ->. congruence.
Qed.

Lemma at_new cs i c c' a' r : cs !! i = Some c -> prog c' = a' :: r -> at_action (<[i := c']> cs) a'.
Proof. intros Hi Hr. exists i, c', r. split; [|done]. apply list_lookup_insert_eq. by apply lookup_lt_Some in Hi. Qed.

Lemma expected_next st i c a p w n : queue_ok st -> callers st !! i = Some c -> prog c = a :: p ->
  expected (mkState w (moved a (queue st)) (<[i := after c p Next]> (callers st))
    (logged a (queue st) (puts st) (gets st)).1 (logged a (queue st) (puts st) (gets st)).2) n = expected st n + change a n.
Proof.
  intros Hok Hi Hp.
  assert (Ht : forall f, total f (<[i := after c p Next]> (callers st)) = total f (callers st) - f a).
  { intros f. rewrite (callers_total_insert f _ _ _ _ Hi), Hp. cbn. lia. }
  unfold expected; cbn [world queue callers puts gets]. rewrite !Ht.
  destruct a as [m|m|m|d| | |]; cbn [moved logged fst snd change w_store w_loaded w_stored w_load w_mutex]; rewrite ?length_app; cbn [length length_ with_put with_get].
  1-3: destruct n, m; cbn; case_decide; done || lia.
  - destruct n; lia.
  - destruct n; lia.
  - destruct (get_slot st i c p Hok Hi Hp) as (_ & _ & x & _ & ->). cbn. destruct n; lia.
  - destruct n; lia.
Qed.

Lemma mod_differs k n L : 0 <= k < n -> n - k < L -> k mod L <> n mod L.
Proof.
  intros Hk Hn E. assert ((n - k) mod L = 0) as H0 by (rewrite Zminus_mod, E, Z.sub_diag; apply Z.mod_0_l; lia).
  rewrite Z.mod_small in H0; lia.
Qed.

Lemma content_store st i c d p : queue_ok st -> callers st !! i = Some c -> prog c = Store d :: p ->
  forall k : nat, (length (gets st) <= k < length (puts st ++ [d]))%nat ->
    slot (moved (Store d) (queue st)) k = (puts st ++ [d]) !! k.
Proof.
  intros Hok Hi Hp k Hk. destruct (put_slot st i c d p Hok Hi Hp) as (Hlt & Heq & Hroom). pose proof (qk_length st Hok) as [HL Hl].
  rewrite length_app in Hk. cbn [length] in Hk. unfold slot, moved. cbn [with_put buf length_].
  rewrite zlookup_zinsert by (rewrite ?Hl; (lia || apply Z.mod_pos_bound; lia)).
  destruct (decide (k = length (puts st))) as [->|Hne].
  - rewrite decide_True by done. by rewrite lookup_app_r, Nat.sub_diag.
  - rewrite decide_False; [rewrite lookup_app_l by lia; apply (qk_content st Hok); lia|]. rewrite Heq. apply mod_differs; lia.
Qed.

Lemma moved_keeps st a : queue_ok st ->
  (forall n, sem_of (moved a (queue st)) n = sem_of (queue st) n) /\ length_ (moved a (queue st)) = length_ (queue st) /\
  length (buf (moved a (queue st))) = length (buf (queue st)).
Proof. intros _. destruct a; (split; [intros []; done|]); (split; [done|]); try done. apply length_zinsert. Qed.

Lemma next_ok st i c a p w : queue_ok st -> callers st !! i = Some c -> prog c = a :: p -> sem_ok w ->
  (forall n, sem_values w !! sem_of (queue st) n = Some (expected st n + change a n) /\ 0 <= expected st n + change a n) ->
  queue_ok (mkState w (moved a (queue st)) (<[i := after c p Next]> (callers st))
    (logged a (queue st) (puts st) (gets st)).1 (logged a (queue st) (puts st) (gets st)).2).
Proof.
  intros Hok Hi Hp Hw Hv. pose proof (op_at st i c a p Hok Hi Hp) as Hop. destruct (moved_keeps st a Hok) as (Hn & Hlen & Hb).
  pose proof (qk_length st Hok) as [HL HLb]. pose proof (qk_names st Hok) as Hnames. pose proof (qk_logs st Hok) as [Hl1 Hl2].
  split; cbn [world queue callers puts gets].
  - done.
  - pose proof (Hn Full). pose proof (Hn Empty). pose proof (Hn Mutex). cbn in *. by rewrite !H0, !H1, !H2.
  - rewrite Hlen, Hb. done.
  - destruct a as [m|m|m|d| | |]; cbn [logged fst snd]; try done.
    + rewrite length_app. split; [lia|]. by rewrite take_app_le by lia.
    + destruct (get_slot st i c p Hok Hi Hp) as (_ & _ & x & Hx & ->). change (option_list (Some x)) with [x]. rewrite length_app. cbn [length].
      pose proof (lookup_lt_Some _ _ _ Hx). split; [lia|]. rewrite Nat.add_1_r, (take_S_r _ _ x) by done. by rewrite <- Hl2.
  - intros n. rewrite Hn, (proj1 (Hv n)). f_equal. symmetry. by apply expected_next.
  - intros n. rewrite (expected_next st i c a p w n) by done. apply Hv.
  - apply Forall_insert; [apply (qk_callers st Hok)|]. cbn. by apply op_tail with a.
  - rewrite Hlen. pose proof (qk_put st Hok) as (H1 & H2 & H3).
    destruct a as [m|m|m|d| | |]; cbn [moved logged fst snd with_put with_get putIndex];
      try (split; [done|]; split; [done|]; destruct H3 as [|H3]; [by left|right; by apply (at_keep _ i c _ _ p _ Hi Hp)]).
    + destruct (put_slot st i c d p Hok Hi Hp) as (Hlt & Heq & _). split; [lia|]. split.
      * rewrite length_app. cbn [length]. rewrite Nat2Z.inj_add, <- (Zplus_mod_idemp_l (length (puts st))), <- H2, Zplus_mod_idemp_l. done.
      * right. destruct (op_next _ _ Hop) as [r Hr]. by apply (at_new _ i c _ _ r Hi).
    + pose proof (Z.mod_pos_bound (putIndex (queue st)) (length_ (queue st)) (proj1 HL)). split; [lia|]. split; [by rewrite Z.mod_mod by lia|left; lia].
  - rewrite Hlen. pose proof (qk_get st Hok) as (H1 & H2 & H3).
    destruct a as [m|m|m|d| | |]; cbn [moved logged fst snd with_put with_get getIndex];
      try (split; [done|]; split; [done|]; destruct H3 as [|H3]; [by left|right; by apply (at_keep _ i c _ _ p _ Hi Hp)]).
    + destruct (get_slot st i c p Hok Hi Hp) as (Hlt & Heq & x & _ & ->). split; [lia|]. split.
      * change (option_list (Some x)) with [x]. rewrite length_app. cbn [length]. rewrite Nat2Z.inj_add, <- (Zplus_mod_idemp_l (length (gets st))), <- H2, Zplus_mod_idemp_l. done.
      * right. destruct (op_next _ _ Hop) as [r Hr]. by apply (at_new _ i c _ _ r Hi).
    + pose proof (Z.mod_pos_bound (getIndex (queue st)) (length_ (queue st)) (proj1 HL)). split; [lia|]. split; [by rewrite Z.mod_mod by lia|left; lia].
  - pose proof (qk_content st Hok) as Hc. destruct a as [m|m|m|d| | |]; try exact Hc; cbn [logged fst snd].
    + by apply (content_store st i c d p).
    + destruct (get_slot st i c p Hok Hi Hp) as (_ & _ & x & _ & ->). change (option_list (Some x)) with [x]. rewrite length_app. cbn [length].
      intros k Hk. change (slot (moved Load (queue st)) k) with (slot (queue st) k). apply Hc. lia.
Qed.

Lemma same_ok st w cs : queue_ok st -> sem_ok w -> (forall n, sem_values w !! sem_of (queue st) n = sem_values (world st) !! sem_of (queue st) n) ->
  (forall f, f ∈ [w_store; w_loaded; w_stored; w_load; w_mutex] -> total f cs = total f (callers st)) ->
  Forall (fun c => in_operation (prog c)) cs ->
  (forall a, a = WrapPut \/ a = WrapGet -> at_action (callers st) a -> at_action cs a) ->
  queue_ok (mkState w (queue st) cs (puts st) (gets st)).
Proof.
  intros Hok Hw Hv Ht Hcs Hat. pose proof Hok as [_ Hn Hl Hlog _ Hnn _ (Hp1 & Hp2 & Hp3) (Hg1 & Hg2 & Hg3) Hc]. split; try done; cbn [world queue callers puts gets].
  - intros n. rewrite Hv, (qk_values st Hok n). f_equal. unfold expected. cbn [callers puts gets queue]. rewrite !Ht; [done|..]; rewrite !elem_of_cons; tauto.
  - intros n. specialize (Hnn n). destruct n; cbn [expected callers puts gets queue] in *; rewrite !Ht by (rewrite !elem_of_cons; tauto); done.
  - split; [done|]. split; [done|]. destruct Hp3; [by left|right; auto].
  - split; [done|]. split; [done|]. destruct Hg3; [by left|right; auto].
Qed.

Lemma step_ok st st' : queue_ok st -> step st st' -> queue_ok st'.
Proof.
  intros Hok Hstep. destruct Hstep as [st id op p Hop ->|st i c a p core w q v Hi Hp Hr Hex|st w Hw Hv].
  - assert (Hin : in_operation p /\ forall f, f ∈ [w_store; w_loaded; w_stored; w_load; w_mutex] -> weight f p = 0).
    { destruct Hop as [Hop|[d Hop]]; rewrite !elem_of_cons, elem_of_nil in Hop; destruct Hop as [Hop|[Hop|[]]]; injection Hop as ->; (split;
        [|intros f; rewrite !elem_of_cons, elem_of_nil; intros Hf; repeat match type of Hf with _ \/ _ => destruct Hf as [Hf|Hf] end; try done; by subst]).
      - left. exists (Wait Full). split; [by left|]. left.
      - left. exists (TryWait Full). split; [by right|]. left.
      - right. exists (Wait Empty), d. split; [by left|]. left.
      - right. exists (TryWait Empty), d. split; [by right|]. left. }
    destruct Hin as [Hin Hzero]. apply same_ok; [done|apply (qk_world st Hok)|done| | |].
    + intros f Hf. rewrite total_app, total_cons. cbn [prog]. rewrite (Hzero f Hf). change (total f []) with 0. lia.
    + apply Forall_app. split; [apply (qk_callers st Hok)|by constructor].
    + intros a _ (j & d & r & Hj & Hd). exists j, d, r. split; [by apply lookup_app_l_Some|done].
  - destruct (exec_spec st i c a p core Hok Hi Hp Hr) as (w' & q' & v' & Hex' & Hw & Hcase). rewrite Hex in Hex'. injection Hex' as <- <- <-.
    destruct v as [| |e].
    + destruct Hcase as [-> Hv]. by apply next_ok.
    + destruct Hcase as (-> & Hv & n & -> & _). cbn [logged fst snd after]. rewrite list_insert_id by done.
      apply same_ok; try done; [by intros n'; rewrite Hv|apply (qk_callers st Hok)].
    + destruct Hcase as (-> & Hv & -> & n & -> & _). cbn [logged fst snd after].
      pose proof (op_inside _ _ (op_at st i c _ p Hok Hi Hp)) as Hz. cbn beta iota in Hz.
      apply same_ok; [done|done|by intros n'; rewrite Hv| | |].
      * intros f Hf. rewrite (callers_total_insert f _ _ _ _ Hi), Hp, (Hz f Hf). cbn. lia.
      * apply Forall_insert; [apply (qk_callers st Hok)|apply op_nil].
      * intros a Ha. apply (at_keep _ i c _ _ p _ Hi Hp). by destruct Ha as [-> | ->].
  - apply same_ok; [done..|apply (qk_callers st Hok)|done].
Qed.

Lemma init_queue_ok w0 q0 b w q : sem_ok w0 -> mutex q0 <> full q0 -> mutex q0 <> empty q0 -> full q0 <> empty q0 ->
  (forall n, sem_of q0 n <> 0 /\ sem_values w0 !! sem_of q0 n = None) -> b <> [] -> length b < 2 ^ 63 ->
  NX_IoQueueInit w0 (Some q0) (Some b) (length b) = (w, Some q, NX_EOK) -> queue_ok (mkState w q [] [] []).
Proof.
  intros Hw H1 H2 H3 Hn Hb Hlen Hinit. assert (0 < length b)%nat by (destruct b; [done|cbn; lia]). unfold NX_IoQueueInit in Hinit.
  unfold nz in Hinit. rewrite (proj2 (Z.eqb_neq (length b) 0)) in Hinit by lia. cbn [negb] in Hinit. injection Hinit as <- <-.
  destruct (Hn Mutex) as [Hm0 Hm], (Hn Full) as [Hf0 Hf], (Hn Empty) as [He0 He]. cbn [sem_of] in *.
  destruct (init_sets w0 (mutex q0) 1 Hw Hm0 Hm) as [Hw1 Hv1].
  destruct (init_sets _ (full q0) 0 Hw1 Hf0) as [Hw2 Hv2]; [by rewrite Hv1, lookup_insert_ne|].
  destruct (init_sets _ (empty q0) (length b) Hw2 He0) as [Hw3 Hv3]; [by rewrite Hv2, lookup_insert_ne, Hv1, lookup_insert_ne|].
  split; cbn [world queue callers puts gets full empty mutex length_ buf getIndex putIndex]; try done.
  - split; [lia|done].
  - intros n. rewrite Hv3. destruct n; cbn [sem_of full empty mutex expected].
    + rewrite lookup_insert_ne, Hv2, lookup_insert_eq by done. done.
    + rewrite lookup_insert_eq. cbn. f_equal. lia.
    + rewrite lookup_insert_ne, Hv2, lookup_insert_ne, Hv1, lookup_insert_eq by done. done.
  - intros []; cbn; lia.
  - split; [lia|]. split; [done|left; lia].
  - split; [lia|]. split; [done|left; lia].
  - intros k Hk. cbn in Hk. lia.
Qed.

Lemma queue_reach_ok st : reach st -> queue_ok st.
Proof. induction 1; [by eapply init_queue_ok|by eapply step_ok]. Qed.

(** A caller that has not begun, or has ended. *)
Definition at_rest c : Prop :=
  match prog c with [] | Wait Full :: _ | Wait Empty :: _ | TryWait _ :: _ => True | _ => False end.

Lemma rest_weights c f : in_operation (prog c) -> at_rest c -> f ∈ [w_store; w_loaded; w_stored; w_load; w_mutex] -> weight f (prog c) = 0.
Proof.
  unfold at_rest. intros Hop Hc. rewrite !elem_of_cons, elem_of_nil. intros Hf. remember (prog c) as p eqn:E. clear E.
  op_cases Hop; try done; repeat match type of Hf with _ \/ _ => destruct Hf as [Hf|Hf] end; try done; by subst.
Qed.

Lemma rest_total st f : queue_ok st -> Forall at_rest (callers st) -> f ∈ [w_store; w_loaded; w_stored; w_load; w_mutex] -> total f (callers st) = 0.
Proof.
  intros Hok Hr Hf. pose proof (qk_callers st Hok) as Hc. induction Hr as [|c cs Hx _ IH]; [done|]. apply Forall_cons in Hc as [Hc1 Hc2].
  rewrite total_cons, (rest_weights c f), IH by done. done.
Qed.

(** C21: Whatever the interleaving of any number of readers and writers, with the
    rest of the system in between: the characters that come out are those that
    went in, in the same order, and at most [length] (below 2^63) are held; every action of
    a caller that runs can be done, and turns it away or makes it wait only if
    the semaphore it takes is 0.  When nobody is inside an operation the
    semaphores count the characters held and the free places, and the mutex is
    free. *)
Theorem io_queue_fifo st : reach st ->
  let held := length (puts st) - length (gets st) in
  gets st = take (length (gets st)) (puts st) /\ 0 <= held <= length_ (queue st) /\
  (forall i c a p core, callers st !! i = Some c -> prog c = a :: p -> runs (world st) core (tid c) ->
    exists w q v, exec (world st) (queue st) core a = Some (w, q, v) /\
      (v <> Next -> exists n, (a = Wait n \/ a = TryWait n) /\ sem_values (world st) !! sem_of (queue st) n = Some 0)) /\
  (Forall at_rest (callers st) ->
    sem_values (world st) !! full (queue st) = Some held /\
    sem_values (world st) !! empty (queue st) = Some (length_ (queue st) - held) /\
    sem_values (world st) !! mutex (queue st) = Some 1).
Proof.
  intros Hr%queue_reach_ok held. pose proof (qk_logs st Hr) as [Hlen Hlog]. split; [done|]. split; [|split].
  - pose proof (expected_nonneg st Empty Hr) as He. cbn in He. pose proof (qk_callers st Hr) as Hc.
    assert (0 <= total w_store (callers st)) by (apply total_nonneg; eapply Forall_impl; [exact Hc|]; intros ? ?; by apply op_weights).
    assert (0 <= total w_loaded (callers st)) by (apply total_nonneg; eapply Forall_impl; [exact Hc|]; intros ? ?; by apply op_weights).
    unfold held. lia.
  - intros i c a p core Hi Hp Hrun. destruct (exec_spec st i c a p core Hr Hi Hp Hrun) as (w & q & v & Hex & _ & Hcase).
    exists w, q, v. split; [done|]. intros Hv. destruct v as [| |e]; [done| |].
    + destruct Hcase as (_ & _ & n & -> & H0). exists n. split; [by left|]. rewrite <- H0. apply (qk_values st Hr).
    + destruct Hcase as (_ & _ & _ & n & -> & H0). exists n. split; [by right|]. rewrite <- H0. apply (qk_values st Hr).
  - intros Hrest. assert (Ht : forall f, f ∈ [w_store; w_loaded; w_stored; w_load; w_mutex] -> total f (callers st) = 0) by (intros f; by apply rest_total).
    pose proof (qk_values st Hr Full) as HF. pose proof (qk_values st Hr Empty) as HE. pose proof (qk_values st Hr Mutex) as HM.
    unfold expected in *. rewrite (Ht w_stored), (Ht w_load) in HF by (rewrite !elem_of_cons; tauto).
    rewrite (Ht w_store), (Ht w_loaded) in HE by (rewrite !elem_of_cons; tauto). rewrite (Ht w_mutex) in HM by (rewrite !elem_of_cons; tauto). cbn [sem_of] in *. unfold held.
    split_and!; [rewrite HF|rewrite HE|rewrite HM]; f_equal; lia.
Qed.
End queue.

(** ** A queue on the scheduler of [SchedOps] *)

Definition demo_queue : NX_IoQueue := mkQueue 501 502 503 0 0 0 [].

(** Thread 200 runs on core 0 and puts a character; its first action is done. *)
Definition demo_init : Sys * option NX_IoQueue * NX_Error :=
  @NX_IoQueueInit Sys (sched_tokens 1) (demo 12) (Some demo_queue) (Some [0; 0; 0]) 3.
Definition demo_fresh : @State Sys := mkState demo_init.1.1 (default demo_queue demo_init.1.2) [] [] [].
Definition demo_called : @State Sys :=
  mkState (world demo_fresh) (queue demo_fresh)
    [mkCaller 200 [Wait Empty; Wait Mutex; Store 65; WrapPut; Signal Mutex; Signal Full] NX_EOK] [] [].
Definition demo_world : Sys := default (demo 12) (fst <$> @sem_wait Sys (sched_tokens 1) (world demo_called) 0 502).
Definition demo_put : @State Sys :=
  mkState demo_world (queue demo_called) [mkCaller 200 [Wait Mutex; Store 65; WrapPut; Signal Mutex; Signal Full] NX_EOK] [] [].

Lemma demo_runs s : cores s = cores (demo 12) -> is_Some (threads s !! 200) -> @runs Sys (sched_tokens 1) s 0 200.
Proof.
  intros Hc Ht. split; [|split; [exact Ht|]].
  - unfold current. rewrite Hc. apply demo_current.
  - unfold is_idle. rewrite Hc. apply demo_not_idle.
Qed.

Lemma demo_put_reach : @reach Sys (sched_tokens 1) demo_put.
Proof.
  refine (@reach_step Sys (sched_tokens 1) demo_called _ _ _).
  - refine (@reach_step Sys (sched_tokens 1) demo_fresh _ _ _).
    + refine (@reach_init Sys (sched_tokens 1) (demo 12) demo_queue [0; 0; 0] _ _ demo_ok _ _ _ _ _ _ _).
      * discriminate.
      * discriminate.
      * discriminate.
      * intros []; (split; [discriminate|]); vm_compute; reflexivity.
      * discriminate.
      * reflexivity.
      * vm_compute. reflexivity.
    + refine (@step_call Sys (sched_tokens 1) demo_fresh 200
        (inl [Wait Empty; Wait Mutex; Store 65; WrapPut; Signal Mutex; Signal Full]) _ _ eq_refl).
      right. exists 65. left.
  - refine (@step_exec Sys (sched_tokens 1) demo_called 0 (mkCaller 200 _ NX_EOK) (Wait Empty)
      [Wait Mutex; Store 65; WrapPut; Signal Mutex; Signal Full] 0 demo_world (queue demo_called) Next eq_refl eq_refl _ _).
    + apply demo_runs; vm_compute; [reflexivity|by eexists].
    + vm_compute. reflexivity.
Qed.

Lemma io_queue_fifo_witness :
  exists w q v, @exec Sys (sched_tokens 1) (world demo_put) (queue demo_put) 0 (Wait Mutex) = Some (w, q, v).
Proof.
  destruct (@io_queue_fifo Sys (sched_tokens 1) (sched_token_laws 1) demo_put demo_put_reach) as (_ & _ & H & _).
  destruct (H 0%nat _ (Wait Mutex) _ 0 eq_refl eq_refl) as (w & q & v & Hex & _).
  - apply demo_runs; vm_compute; [reflexivity|by eexists].
  - exists w, q, v. exact Hex.
Defined.
