(* ===== verification/VfsPath.v ===== *)
(** Path names of the virtual file system: [NX_VfsBuildAbsPath], [CountMatch]
    and [VfsFindRoot] of [fs/vfs.c].

    A string is the sequence of its characters before the NUL (CString.v proves
    what the functions of [utils/string.c] do to it in memory); the capacity of
    a local buffer appears where the code writes or reads it. *)
From S2P Require Import Prelude.

#[local] Coercion Z.of_nat : nat >-> Z.

Abbreviation str := (list Z).

Definition NX_VFS_MAX_PATH : Z := 1024.
Definition slash : Z := 47.
Definition dot : Z := 46.

(** [NX_StrChr] and [NX_StrChrReverse]: an index, or null. *)
Definition StrChr (s : str) (c : Z) : option nat := fst <$> list_find (fun x => x = c) s.
Fixpoint StrChrReverse (s : str) (c : Z) : option nat :=
  match s with
  | [] => None
  | x :: s =>
      match StrChrReverse s c with
      | Some i => Some (S i)
      | None => if x =? c then Some 0%nat else None
      end
  end.

(** [NX_StrCopyN] and [NX_StrCatN]: what the buffer of [n] bytes holds, and the
    length of the untruncated text. *)
Definition StrCopyN (s : str) (n : Z) : str * Z := (take (Z.to_nat (n - 1)) s, Z.of_nat (length s)).
Definition StrCatN (d s : str) (n : Z) : str * Z :=
  (d ++ (if length s >=? n - length d then take (Z.to_nat (n - length d - 1)) s else s),
   length d + length s).

(** ** [NX_VfsBuildAbsPath]

    The end of the loop's body: a component joins the text.  [fullLen] is the
    number of characters; the buffer holds more than 1024 bytes. *)
Definition AppendToken (absPath : str) (fullLen : Z) (nextToken : str) : option (str * Z * NX_Error) :=
  c ← zlookup absPath (fullLen - 1);
  if negb (c =? slash) && (fullLen + 1 >=? NX_VFS_MAX_PATH) then Some (absPath, fullLen, NX_EINVAL)
  else
    let '(absPath, fullLen) :=
      if negb (c =? slash) then (take (Z.to_nat fullLen) absPath ++ [slash], fullLen + 1)
      else (absPath, fullLen) in
    if bool_decide (nextToken = []) || bool_decide (nextToken = [dot]) then Some (absPath, fullLen, NX_EOK)
    else if bool_decide (nextToken = [dot; dot]) then
      if fullLen >? 1 then
        let absPath := take (Z.to_nat (fullLen - 1)) absPath in
        q ← StrChrReverse absPath slash;
        Some (take (S q) absPath, Z.of_nat (S q), NX_EOK)
      else Some (absPath, fullLen, NX_EOK)
    else
      let '(absPath, fullLen) := StrCatN absPath nextToken NX_VFS_MAX_PATH in
      Some (absPath, fullLen, if fullLen >=? NX_VFS_MAX_PATH then NX_EINVAL else NX_EOK).

(** [left] and [nextToken] are buffers of 1024 bytes.  Behind a separator
    [leftLen] still counts the separator, so that the move of [leftLen + 1]
    bytes reaches one byte behind the text. *)
Fixpoint BuildAbsPath_loop (fuel : nat) (absPath : str) (fullLen : Z) (left : str) (leftLen : Z) :
    option (str * NX_Error) :=
  match fuel with
  | O => None
  | S fuel =>
      if leftLen =? 0 then
        if fullLen >? 1 then
          c ← zlookup absPath (fullLen - 1);
          Some (if c =? slash then take (Z.to_nat (fullLen - 1)) absPath else absPath, NX_EOK)
        else Some (absPath, NX_EOK)
      else
        let p := StrChr left slash in
        let s := match p with Some i => Z.of_nat i | None => leftLen end in
        if s >=? NX_VFS_MAX_PATH then Some (absPath, NX_ERROR)
        else
          let nextToken := take (Z.to_nat s) left in
          let leftLen := leftLen - s in
          left ← (match p with
                 | Some _ => assert (s + 1 + (leftLen + 1) <=? NX_VFS_MAX_PATH);; Some (drop (Z.to_nat (s + 1)) left)
                 | None => Some left
                 end);
          '(absPath, fullLen, err) ← AppendToken absPath fullLen nextToken;
          if is_ok err then BuildAbsPath_loop fuel absPath fullLen left leftLen else Some (absPath, err)
  end.

(** [cwd] is what [NX_ProcessGetCwd] gives, null for a kernel thread.  A turn
    takes a separator or ends the text. *)
Definition NX_VfsBuildAbsPath (cwd : option str) (path : str) : option (str * NX_Error) :=
  let start (absPath : str) (fullLen : Z) (src : str) :=
    let '(buf, leftLen) := StrCopyN src NX_VFS_MAX_PATH in
    if (leftLen >=? NX_VFS_MAX_PATH) || (fullLen >=? NX_VFS_MAX_PATH) then Some (absPath, NX_EINVAL)
    else BuildAbsPath_loop (S (S (length buf))) absPath fullLen buf leftLen in
  match path with
  | c :: rest =>
      if c =? slash then
        match rest with [] => Some ([slash], NX_EOK) | _ => start [slash] 1 rest end
      else
        match cwd with
        | None => Some ([], NX_ENORES)
        | Some cwd => let absPath := (StrCopyN cwd NX_VFS_MAX_PATH).1 in start absPath (length absPath) path
        end
  | [] =>
      match cwd with
      | None => Some ([], NX_ENORES)
      | Some cwd => let absPath := (StrCopyN cwd NX_VFS_MAX_PATH).1 in start absPath (length absPath) path
      end
  end.

(** ** [CountMatch] and [VfsFindRoot] *)
Fixpoint CountMatch_loop (path mount_root : str) (len : Z) : str * str * Z :=
  match path, mount_root with
  | p :: path', r :: root' => if p =? r then CountMatch_loop path' root' (len + 1) else (path, mount_root, len)
  | _, _ => (path, mount_root, len)
  end.

Definition CountMatch (path mount_root : str) : Z :=
  let '(rest, root, len) := CountMatch_loop path mount_root 0 in
  match root with
  | _ :: _ => 0
  | [] =>
      if (len =? 1) && bool_decide (head path = Some slash) then 1
      else match rest with
           | [] => len
           | c :: _ => if c =? slash then len else 0
           end
  end.

(** The traversal of the mounts: the first of the longest matches. *)
Definition FindRoot_step {M} (path_of : M -> str) (path : str) (acc : Z * option M) (pos : M) : Z * option M :=
  let len := CountMatch path (path_of pos) in
  if len >? acc.1 then (len, Some pos) else acc.

Fixpoint skip_slashes (s : str) : str :=
  match s with
  | c :: s' => if c =? slash then skip_slashes s' else s
  | [] => []
  end.

(** The mount and the rest of the path, or [NX_ENOSRCH]. *)
Definition VfsFindRoot {M} (path_of : M -> str) (mounts : list M) (path : str) : option (M * str) :=
  let '(max_len, m) := fold_left (FindRoot_step path_of path) mounts (0, None) in
  m ← m; Some (m, skip_slashes (drop (Z.to_nat max_len) path)).

(** ** The components of a path *)
Fixpoint split (s : str) : list str :=
  match s with
  | [] => [[]]
  | c :: s =>
      if c =? slash then [] :: split s
      else match split s with t :: ts => (c :: t) :: ts | [] => [[c]] end
  end.

(** A component of a canonical path. *)
Definition proper (t : str) : Prop := t <> [] /\ t <> [dot] /\ t <> [dot; dot] /\ slash ∉ t.

(** Entering a component from a directory, given by its components. *)
Definition enter (st : list str) (t : str) : list str :=
  if decide (t = [] \/ t = [dot]) then st
  else if decide (t = [dot; dot]) then take (length st - 1) st
  else st ++ [t].

Definition resolve (st : list str) (ts : list str) : list str := fold_left enter ts st.

Definition joined (st : list str) : str := mjoin ((fun t => slash :: t) <$> st).
Definition render (st : list str) : str := match st with [] => [slash] | _ => joined st end.
Definition dir (st : list str) : str := joined st ++ [slash].

Lemma joined_snoc st t : joined (st ++ [t]) = joined st ++ slash :: t.
Proof. unfold joined. rewrite fmap_app, join_app. cbn. by rewrite app_nil_r. Qed.

Lemma render_cons t st : render (t :: st) = joined (t :: st).
Proof. done. Qed.

Lemma render_snoc st t : render (st ++ [t]) = joined st ++ slash :: t.
Proof. rewrite <- joined_snoc. by destruct st. Qed.

Lemma StrChr_split s :
  match StrChr s slash with
  | Some i => split s = take i s :: split (drop (S i) s) /\ slash ∉ take i s /\ (i < length s)%nat
  | None => split s = [s] /\ slash ∉ s
  end.
Proof.
  unfold StrChr. induction s as [|c s IH]; [split; [done|apply not_elem_of_nil]|].
  cbn [list_find split]. destruct (Z.eqb_spec c slash) as [->|Hne].
  - rewrite decide_True by done. cbn. split; [done|]. split; [apply not_elem_of_nil|lia].
  - rewrite decide_False by done. destruct (list_find _ s) as [[i x]|]; cbn in IH |- *.
    + destruct IH as (-> & Hn & Hl). split; [done|]. split; [|lia]. apply not_elem_of_cons. split; [congruence|done].
    + destruct IH as (-> & Hn). split; [done|]. apply not_elem_of_cons. split; [congruence|done].
Qed.

Lemma StrChrReverse_none s c : c ∉ s -> StrChrReverse s c = None.
Proof.
  induction s as [|x s IH]; intros Hn; [done|]. apply not_elem_of_cons in Hn as [Hx Hn]. cbn.
  by rewrite IH, (proj2 (Z.eqb_neq x c)) by done.
Qed.

Lemma StrChrReverse_last s t c : c ∉ t -> StrChrReverse (s ++ c :: t) c = Some (length s).
Proof.
  intros Hn. induction s as [|x s IH]; cbn; [by rewrite StrChrReverse_none, Z.eqb_refl|by rewrite IH].
Qed.

Lemma zlookup_last (l : str) x : zlookup (l ++ [x]) (length (l ++ [x]) - 1) = Some x.
Proof.
  apply zlookup_Some. rewrite length_app. cbn [length]. split; [lia|].
  rewrite lookup_app_r by lia. replace (Z.to_nat _ - length l)%nat with 0%nat by lia. done.
Qed.

Lemma enter_proper st t : Forall proper st -> slash ∉ t -> Forall proper (enter st t).
Proof.
  intros Hst Ht. unfold enter. case_decide; [done|]. case_decide; [by apply Forall_take|].
  apply Forall_app. split; [done|]. apply Forall_singleton. split_and!; naive_solver.
Qed.

(** The text of a directory, with or without the final separator. *)
Definition shows (a : str) (st : list str) : Prop := a = render st \/ a = dir st.

Lemma render_last st : Forall proper st ->
  zlookup (render st) (length (render st) - 1) = Some slash /\ st = [] /\ render st = dir st \/
  exists c, zlookup (render st) (length (render st) - 1) = Some c /\ c <> slash /\ render st ++ [slash] = dir st.
Proof.
  intros Hst. destruct (decide (st = [])) as [->|Hne]; [left; done|right].
  destruct (exists_last Hne) as (st' & t & ->). apply Forall_app in Hst as [_ [Ht _]%Forall_cons].
  destruct Ht as (Ht & _ & _ & Hs). destruct (exists_last Ht) as (t' & c & ->).
  exists c. rewrite render_snoc. change (slash :: t' ++ [c]) with ((slash :: t') ++ [c]).
  rewrite app_assoc, zlookup_last. split; [done|]. split.
  - intros ->. apply Hs. apply elem_of_app. right. by left.
  - unfold dir. rewrite joined_snoc. change (slash :: t' ++ [c]) with ((slash :: t') ++ [c]). by rewrite !app_assoc.
Qed.

Lemma dir_last st : zlookup (dir st) (length (dir st) - 1) = Some slash.
Proof. apply zlookup_last. Qed.

Lemma dir_parent st : Forall proper st -> 1 < Z.of_nat (length (dir st)) ->
  exists q, StrChrReverse (take (length (dir st) - 1) (dir st)) slash = Some q /\
    take (S q) (take (length (dir st) - 1) (dir st)) = dir (take (length st - 1) st) /\
    S q = length (dir (take (length st - 1) st)).
Proof.
  intros Hst Hlen. destruct (decide (st = [])) as [->|Hne]; [cbn in Hlen; lia|].
  destruct (exists_last Hne) as (st' & t & ->). apply Forall_app in Hst as [_ [Ht _]%Forall_cons].
  destruct Ht as (_ & _ & _ & Hs). rewrite (length_app st' [t]). cbn [length].
  replace (length st' + 1 - 1)%nat with (length st') by lia. rewrite take_app_length.
  assert (Hd : take (length (dir (st' ++ [t])) - 1) (dir (st' ++ [t])) = joined st' ++ slash :: t).
  { unfold dir. rewrite (length_app _ [slash]). cbn [length]. by rewrite Nat.add_sub, take_app_length, joined_snoc. }
  rewrite Hd. exists (length (joined st')). rewrite StrChrReverse_last by done. split; [done|]. unfold dir.
  change (slash :: t) with ([slash] ++ t). rewrite app_assoc.
  replace (S (length (joined st'))) with (length (joined st' ++ [slash])) by (rewrite length_app; cbn; lia).
  by rewrite take_app_length.
Qed.

(** A component joins the text: the directory it leads to, or the text is too
    long. *)
Lemma AppendToken_spec a st t :
  Forall proper st -> shows a st -> slash ∉ t -> length a < NX_VFS_MAX_PATH ->
  exists b f e, AppendToken a (length a) t = Some (b, f, e) /\
    (e = NX_EOK /\ f = length b /\ shows b (enter st t) /\ length b < NX_VFS_MAX_PATH /\
       length b <= length a + 1 + length t \/
     e = NX_EINVAL /\ NX_VFS_MAX_PATH <= length a + 1 + length t).
Proof.
  intros Hst Ha Ht Hlen. unfold NX_VFS_MAX_PATH in *.
  (* with the separator behind it *)
  assert (Hdir : length (dir st) < 1024 -> length (dir st) <= length a + 1 ->
    exists b f e,
      (if bool_decide (t = []) || bool_decide (t = [dot]) then Some (dir st, Z.of_nat (length (dir st)), NX_EOK)
       else if bool_decide (t = [dot; dot]) then
         if length (dir st) >? 1 then
           q ← StrChrReverse (take (Z.to_nat (length (dir st) - 1)) (dir st)) slash;
           Some (take (S q) (take (Z.to_nat (length (dir st) - 1)) (dir st)), Z.of_nat (S q), NX_EOK)
         else Some (dir st, Z.of_nat (length (dir st)), NX_EOK)
       else
         let '(absPath, fullLen) := StrCatN (dir st) t 1024 in
         Some (absPath, fullLen, if fullLen >=? 1024 then NX_EINVAL else NX_EOK)) = Some (b, f, e) /\
      (e = NX_EOK /\ f = length b /\ shows b (enter st t) /\ length b < 1024 /\ length b <= length a + 1 + length t \/
       e = NX_EINVAL /\ 1024 <= length a + 1 + length t)).
  { intros Hd Hda. unfold enter. destruct (decide (t = [] \/ t = [dot])) as [Hs|Hs].
    { assert (bool_decide (t = []) || bool_decide (t = [dot]) = true) as -> by (rewrite orb_true_iff, !bool_decide_eq_true; done).
      eexists _, _, _. split; [done|]. left. split_and!; try done; [by right|lia]. }
    assert (bool_decide (t = []) || bool_decide (t = [dot]) = false) as -> by (rewrite orb_false_iff, !bool_decide_eq_false; tauto).
    destruct (decide (t = [dot; dot])) as [->|Hdd].
    - rewrite bool_decide_true by done. rewrite Z.gtb_ltb. destruct (Z.ltb_spec 1 (length (dir st))).
      + destruct (dir_parent st Hst) as (q & Hq & Htake & Hlq); [lia|].
        replace (Z.to_nat (length (dir st) - 1)) with (length (dir st) - 1)%nat by lia.
        rewrite Hq, Some_bind, Htake, Hlq. eexists _, _, _. split; [done|]. left.
        assert (S q <= length (dir st))%nat by (rewrite Hlq, <- Htake, !length_take; lia).
        split_and!; try done; [by right|lia|cbn [length]; lia].
      + eexists _, _, _. split; [done|]. left. split_and!; try done; [|cbn [length]; lia].
        right. destruct st as [|t' st]; [done|]. unfold dir in *. rewrite length_app in *. cbn in *. lia.
    - rewrite bool_decide_false by done. unfold StrCatN. eexists _, _, _. split; [reflexivity|].
      destruct (Z.geb_spec (length (dir st) + length t) 1024); [right; split; [done|lia]|left].
      rewrite Z.geb_leb, (proj2 (Z.leb_gt _ _)) by lia. rewrite length_app. split_and!; try done; try lia.
      left. rewrite render_snoc. unfold dir. by rewrite <- app_assoc. }
  unfold AppendToken. change NX_VFS_MAX_PATH with 1024.
  destruct Ha as [->| ->].
  - destruct (render_last st Hst) as [(Hc & -> & Hr)|(c & Hc & Hne & Hr)]; rewrite Hc, Some_bind.
    + rewrite Z.eqb_refl. cbn [negb andb]. rewrite Hr in *. apply Hdir; lia.
    + rewrite (proj2 (Z.eqb_neq c slash)) by done. cbn [negb andb].
      assert (Hld : length (dir st) = (length (render st) + 1)%nat) by (rewrite <- Hr, length_app; done).
      destruct (Z.geb_spec (length (render st) + 1) 1024).
      * eexists _, _, _. split; [done|]. right. split; [done|]. cbn. lia.
      * destruct Hdir as (b & f & e & Hrun & Hres); [lia..|]. exists b, f, e. split; [|exact Hres].
        rewrite Nat2Z.id, firstn_all, Hr. replace (length (render st) + 1) with (Z.of_nat (length (dir st))) by lia.
        exact Hrun.
  - rewrite dir_last, Some_bind, Z.eqb_refl. cbn [negb andb]. apply Hdir; lia.
Qed.

(** The end of the loop takes a final separator off. *)
Lemma BuildAbsPath_end fuel a st left :
  Forall proper st -> shows a st ->
  exists b, BuildAbsPath_loop (S fuel) a (length a) left 0 = Some (b, NX_EOK) /\ b = render st.
Proof.
  intros Hst Ha. cbn [BuildAbsPath_loop Z.eqb]. rewrite Z.gtb_ltb.
  destruct (render_last st Hst) as [(Hc & -> & Hr)|(c & Hc & Hne & Hr)].
  - assert (a = [slash]) as -> by (by destruct Ha). by exists [slash].
  - destruct Ha as [->| ->].
    + destruct (Z.ltb_spec 1 (length (render st))).
      * rewrite Hc, Some_bind, (proj2 (Z.eqb_neq c slash)) by done. by eexists.
      * by eexists.
    + assert (render st <> []) by (intros E; rewrite E in Hc; by cbn in Hc).
      assert (Hl : length (dir st) = S (length (render st))) by (rewrite <- Hr, length_app; cbn; lia).
      assert (0 < length (render st))%nat by (by destruct (render st); [|cbn; lia]).
      rewrite (proj2 (Z.ltb_lt 1 _)) by lia. rewrite dir_last, Some_bind, Z.eqb_refl.
      eexists. split; [done|]. replace (Z.to_nat (length (dir st) - 1)) with (length (render st)) by lia.
      rewrite <- Hr. by rewrite take_app_length.
Qed.

Lemma split_no_slash s : Forall (fun t => slash ∉ t) (split s).
Proof.
  induction s as [|c s IH]; cbn [split]; [apply Forall_singleton, not_elem_of_nil|].
  destruct (Z.eqb_spec c slash) as [->|Hne].
  - apply Forall_cons. split; [apply not_elem_of_nil|done].
  - destruct (split s) as [|t ts]; [apply Forall_singleton|apply Forall_cons in IH as [Ht Hts]; apply Forall_cons; split; [|done]].
    + apply not_elem_of_cons. split; [congruence|apply not_elem_of_nil].
    + apply not_elem_of_cons. split; [congruence|done].
Qed.

Lemma resolve_proper ts : forall st, Forall proper st -> Forall (fun t => slash ∉ t) ts -> Forall proper (resolve st ts).
Proof.
  induction ts as [|t ts IH]; intros st Hst Hts; [done|]. apply Forall_cons in Hts as [Ht Hts].
  apply IH; [by apply enter_proper|done].
Qed.

Lemma shows_length a st : shows a st -> (length (render st) <= length a)%nat.
Proof.
  intros [->| ->]; [done|]. unfold dir. rewrite length_app. cbn [length]. destruct st; [done|].
  rewrite render_cons. lia.
Qed.

(** The components of [left] are entered one after the other; the call fails
    only when the text may get too long. *)
Lemma BuildAbsPath_loop_spec fuel : forall a left ll st,
  (length left + 1 < fuel)%nat -> Forall proper st -> shows a st -> length a < NX_VFS_MAX_PATH ->
  length left <= ll <= 1022 -> 1 <= ll ->
  exists b e, BuildAbsPath_loop fuel a (length a) left ll = Some (b, e) /\
    (e = NX_EOK /\ b = render (resolve st (split left)) /\ length b < NX_VFS_MAX_PATH \/
     e = NX_EINVAL /\ NX_VFS_MAX_PATH <= length a + 1 + length left).
Proof.
  induction fuel as [|fuel IH]; intros a left ll st Hf Hst Ha Hla Hll H1; [lia|].
  cbn [BuildAbsPath_loop]. rewrite (proj2 (Z.eqb_neq ll 0)) by lia.
  pose proof (StrChr_split left) as Hsp. destruct (StrChr left slash) as [i|].
  - destruct Hsp as (-> & Hn & Hi). rewrite Z.geb_leb, (proj2 (Z.leb_gt _ _)) by (unfold NX_VFS_MAX_PATH; lia).
    rewrite (proj2 (Z.leb_le _ _)), assert_true, Some_bind, Nat2Z.id by (unfold NX_VFS_MAX_PATH; lia).
    replace (Z.to_nat (i + 1)) with (S i) by lia.
    destruct (AppendToken_spec a st (take i left) Hst Ha Hn Hla) as (b & f & e & -> & [H|H]); rewrite Some_bind;
      rewrite length_take_le in H by lia.
    + destruct H as (-> & -> & Hb & Hlb & Hlen). change (is_ok NX_EOK) with true. cbv iota.
      destruct (IH b (drop (S i) left) (ll - i) (enter st (take i left))) as (b' & e' & -> & Hres);
        rewrite ?length_drop; [lia|by apply enter_proper|done|done|lia|lia|].
      exists b', e'. split; [done|]. rewrite length_drop in Hres. destruct Hres as [?|[-> ?]]; [by left|right].
      split; [done|lia].
    + destruct H as (-> & Hlen). exists b, NX_EINVAL. split; [done|]. right. split; [done|lia].
  - destruct Hsp as (-> & Hn). rewrite Z.geb_leb, (proj2 (Z.leb_gt _ _)) by (unfold NX_VFS_MAX_PATH; lia).
    rewrite Some_bind. rewrite firstn_all2 by lia.
    destruct (AppendToken_spec a st left Hst Ha Hn Hla) as (b & f & e & -> & [H|H]); rewrite Some_bind.
    + destruct H as (-> & -> & Hb & Hlb & Hlen). change (is_ok NX_EOK) with true. cbv iota.
      rewrite Z.sub_diag. destruct fuel as [|fuel]; [lia|].
      destruct (BuildAbsPath_end fuel b (enter st left) left) as (b' & -> & ->); [by apply enter_proper|done|].
      eexists _, _. split; [done|]. left. split; [done|]. split; [done|].
      pose proof (shows_length b _ Hb). lia.
    + destruct H as (-> & Hlen). exists b, NX_EINVAL. split; [done|]. right. split; [done|lia].
Qed.

(** Where a path starts from. *)
Definition base_of (cwd : list str) (path : str) : list str := if bool_decide (head path = Some slash) then [] else cwd.

(** An absolute path is copied without its first character. *)
Definition path_fits (path : str) : Prop :=
  length path <= (if bool_decide (head path = Some slash) then 1023 else 1022).

Lemma NX_VfsBuildAbsPath_spec cwd path :
  Forall proper cwd -> length (render cwd) < NX_VFS_MAX_PATH -> path_fits path ->
  exists b e, NX_VfsBuildAbsPath (Some (render cwd)) path = Some (b, e) /\
    (e = NX_EOK /\ b = render (resolve (base_of cwd path) (split path)) /\ length b < NX_VFS_MAX_PATH \/
     e = NX_EINVAL /\ NX_VFS_MAX_PATH <= length (render cwd) + 1 + length path).
Proof.
  intros Hcwd Hlc Hlp. unfold NX_VfsBuildAbsPath, StrCopyN.
  assert (Hcopy : take (Z.to_nat (NX_VFS_MAX_PATH - 1)) (render cwd) = render cwd)
    by (apply firstn_all2; unfold NX_VFS_MAX_PATH in *; lia).
  assert (Hcp : take (Z.to_nat (NX_VFS_MAX_PATH - 1)) path = path)
    by (apply firstn_all2; unfold path_fits, NX_VFS_MAX_PATH in *; case_bool_decide; lia).
  assert (Hstart : forall st p, Forall proper st -> length (render st) < NX_VFS_MAX_PATH -> length p <= 1022 ->
    exists b e, (if (length p >=? NX_VFS_MAX_PATH) || (length (render st) >=? NX_VFS_MAX_PATH)
       then Some (render st, NX_EINVAL)
       else BuildAbsPath_loop (S (S (length p))) (render st) (length (render st)) p (length p)) = Some (b, e) /\
      (e = NX_EOK /\ b = render (resolve st (split p)) /\ length b < NX_VFS_MAX_PATH \/
       e = NX_EINVAL /\ NX_VFS_MAX_PATH <= length (render st) + 1 + length p)).
  { intros st p Hst Hl Hp. rewrite !Z.geb_leb, !(proj2 (Z.leb_gt _ _)) by (unfold NX_VFS_MAX_PATH in *; lia).
    cbn [orb]. destruct p as [|c p].
    - destruct (BuildAbsPath_end (S (length (@nil Z))) (render st) st [] Hst ltac:(by left)) as (b & Hb & ->).
      cbn [length] in *. exists (render st), NX_EOK. split; [exact Hb|]. by left.
    - apply BuildAbsPath_loop_spec; first [done | lia | cbn; lia | by left]. }
  unfold base_of, path_fits in *. destruct path as [|c rest].
  - rewrite bool_decide_false by done. rewrite Hcopy, Hcp. cbn [fst]. apply (Hstart cwd []); done.
  - cbn [head] in *. destruct (Z.eqb_spec c slash) as [->|Hne].
    + rewrite bool_decide_true in * by done. destruct rest as [|c' rest].
      * eexists _, _. split; [done|]. by left.
      * assert (Hcr : take (Z.to_nat (NX_VFS_MAX_PATH - 1)) (c' :: rest) = c' :: rest)
          by (apply firstn_all2; unfold NX_VFS_MAX_PATH in *; cbn [length] in *; lia).
        rewrite Hcr. destruct (Hstart [] (c' :: rest) (Forall_nil_2 _) ltac:(done) ltac:(cbn [length] in *; lia))
          as (b & e & Hrun & Hres).
        exists b, e. split; [exact Hrun|]. destruct Hres as [?|[-> Hx]]; [by left|right].
        split; [done|]. assert (1 <= length (render cwd)); [|cbn [length render] in *; lia].
        destruct cwd; cbn; lia.
    + rewrite bool_decide_false in * by congruence. rewrite Hcopy, Hcp. cbn [fst]. by apply Hstart.
Qed.

(** ** Canonical paths are their own absolute path *)
Lemma split_app t s : slash ∉ t -> split (t ++ slash :: s) = t :: split s.
Proof.
  induction t as [|c t IH]; intros Hn; cbn [app split]; [by rewrite Z.eqb_refl|].
  apply not_elem_of_cons in Hn as [Hc Hn]. rewrite (proj2 (Z.eqb_neq c slash)) by done. by rewrite IH.
Qed.

Lemma split_none t : slash ∉ t -> split t = [t].
Proof.
  induction t as [|c t IH]; intros Hn; cbn [split]; [done|].
  apply not_elem_of_cons in Hn as [Hc Hn]. rewrite (proj2 (Z.eqb_neq c slash)) by done. by rewrite IH.
Qed.

Lemma split_joined st : Forall proper st -> st <> [] -> split (joined st) = [] :: st.
Proof.
  induction st as [|t st IH]; intros Hst Hne; [done|]. apply Forall_cons in Hst as [(_ & _ & _ & Ht) Hst].
  change (joined (t :: st)) with (slash :: t ++ joined st). cbn [split]. rewrite Z.eqb_refl. f_equal.
  destruct st as [|t' st].
  - cbn. rewrite app_nil_r. by apply split_none.
  - change (joined (t' :: st)) with (slash :: t' ++ joined st) in *. rewrite split_app by done. f_equal.
    specialize (IH Hst ltac:(done)). cbn [split] in IH. rewrite Z.eqb_refl in IH. by injection IH.
Qed.

Lemma resolve_names st : Forall proper st -> forall st0, resolve st0 st = st0 ++ st.
Proof.
  induction st as [|t st IH]; intros Hst st0; [by rewrite app_nil_r|].
  apply Forall_cons in Hst as [(H1 & H2 & H3 & _) Hst].
  change (resolve st0 (t :: st)) with (resolve (enter st0 t) st). rewrite IH by done. unfold enter.
  rewrite !decide_False by tauto. by rewrite <- app_assoc.
Qed.

Lemma resolve_render st : Forall proper st -> resolve [] (split (render st)) = st.
Proof.
  intros Hst. destruct st as [|t st]; [done|]. rewrite render_cons, split_joined by done.
  change (resolve [] ([] :: t :: st)) with (resolve (enter [] []) (t :: st)).
  assert (enter [] [] = []) as -> by done. by rewrite resolve_names.
Qed.

Lemma head_render st : head (render st) = Some slash.
Proof. by destruct st. Qed.

(** C28: [NX_VfsBuildAbsPath] makes a path absolute and canonical.  From the
    working directory (or the root, for an absolute path) the components of the
    path are entered one after the other, empty ones and [.] staying in place
    and [..] going to the parent; the result has no such component left, its
    only separators are single and in front of a name, and it is its own
    absolute path from any working directory.  The call fails, with
    [NX_EINVAL], only when working directory and path together are too long. *)
Theorem abs_path_canonical cwd path :
  Forall proper cwd -> length (render cwd) < NX_VFS_MAX_PATH -> length path <= 1022 ->
  exists b e, NX_VfsBuildAbsPath (Some (render cwd)) path = Some (b, e) /\
    (e = NX_EINVAL /\ NX_VFS_MAX_PATH <= length (render cwd) + 1 + length path \/
     e = NX_EOK /\ exists st, st = resolve (base_of cwd path) (split path) /\ Forall proper st /\ b = render st /\
       (length b <= 1022 -> forall other, Forall proper other -> length (render other) < NX_VFS_MAX_PATH ->
          length (render other) + 1 + length b < NX_VFS_MAX_PATH ->
          NX_VfsBuildAbsPath (Some (render other)) b = Some (b, NX_EOK))).
Proof.
  intros Hcwd Hlc Hlp. assert (Hfit : forall p, length p <= 1022 -> path_fits p) by (intros; unfold path_fits; case_bool_decide; lia).
  destruct (NX_VfsBuildAbsPath_spec cwd path Hcwd Hlc (Hfit path Hlp)) as (b & e & Hrun & [H|H]).
  - destruct H as (-> & -> & _). eexists _, _. split; [exact Hrun|]. right. split; [done|]. eexists. split; [reflexivity|].
    set (st := resolve _ _).
    assert (Hst : Forall proper st).
    { apply resolve_proper; [|apply split_no_slash]. unfold base_of. by case_bool_decide. }
    split; [done|]. split; [done|]. intros Hl other Hother Hlo Hsum.
    destruct (NX_VfsBuildAbsPath_spec other (render st) Hother Hlo (Hfit _ Hl)) as (b' & e' & Hrun' & [H|H]); [|lia].
    destruct H as (-> & -> & _). rewrite Hrun'. unfold base_of. rewrite head_render, bool_decide_true by done.
    by rewrite resolve_render.
  - exists b, e. split; [done|]. by left.
Qed.

(** ** Mount points *)

(** One path leads to another when its components come first. *)
Lemma CountMatch_loop_app p : forall r len rest, 
  CountMatch_loop (p ++ rest) (p ++ r) len = CountMatch_loop rest r (len + length p).
Proof.
  induction p as [|c p IH]; intros r len rest; cbn [app CountMatch_loop length]; [f_equal; lia|].
  rewrite Z.eqb_refl, IH. f_equal. lia.
Qed.

Lemma CountMatch_loop_spec path : forall root len,
  let '(rest, root', len') := CountMatch_loop path root len in
  exists p, path = p ++ rest /\ root = p ++ root' /\ len' = len + length p /\
    (forall c, head rest = Some c -> head root' = Some c -> False).
Proof.
  induction path as [|c path IH]; intros root len.
  - destruct root; cbn; exists []; (split_and!; [done|done|cbn; lia|done]).
  - destruct root as [|r root]; [cbn; exists []; split_and!; [done|done|cbn; lia|done]|]. cbn [CountMatch_loop].
    destruct (Z.eqb_spec c r) as [->|Hne].
    + specialize (IH root (len + 1)). destruct (CountMatch_loop path root (len + 1)) as [[rest root'] len'].
      destruct IH as (p & -> & -> & -> & Hh). exists (r :: p). split_and!; [done|done|cbn [length]; lia|done].
    + exists []. split_and!; [done|done|cbn; lia|]. cbn. intros x [= <-] [= ->]. done.
Qed.

Lemma joined_app st st' : joined (st ++ st') = joined st ++ joined st'.
Proof. unfold joined. by rewrite fmap_app, join_app. Qed.

Lemma joined_inj ms : forall ps rest, Forall proper ms -> Forall proper ps ->
  joined ps = joined ms ++ rest -> (rest = [] \/ head rest = Some slash) -> exists qs, ps = ms ++ qs /\ rest = joined qs.
Proof.
  induction ms as [|m ms IH]; intros ps rest Hms Hps E Hrest; [by exists ps|].
  apply Forall_cons in Hms as [(Hm0 & _ & _ & Hm) Hms].
  destruct ps as [|p ps]; [by cbn in E|]. apply Forall_cons in Hps as [(Hp0 & _ & _ & Hp) Hps].
  change (joined (m :: ms)) with (slash :: m ++ joined ms) in E.
  change (joined (p :: ps)) with (slash :: p ++ joined ps) in E. cbn [app] in E. injection E as E.
  rewrite <- app_assoc in E.
  assert (Htail : forall qs : list str, joined qs = [] \/ head (joined qs) = Some slash) by (intros [|]; [by left|by right]).
  assert (Hrest' : joined ms ++ rest = [] \/ head (joined ms ++ rest) = Some slash).
  { destruct ms; [exact Hrest|by right]. }
  assert (p = m /\ joined ps = joined ms ++ rest) as [-> E'].
  { specialize (Htail ps). remember (joined ps) as u eqn:Hu. remember (joined ms ++ rest) as v eqn:Hv.
    clear -E Hp Hm Htail Hrest'. revert m Hm E. induction p as [|c p IHp]; intros m Hm E.
    - destruct m as [|d m]; [done|]. cbn in E. exfalso. destruct Htail as [->|Hh]; [done|].
      rewrite E in Hh. cbn in Hh. injection Hh as ->. apply Hm. left.
    - apply not_elem_of_cons in Hp as [Hc Hp]. destruct m as [|d m].
      + cbn in E. exfalso. destruct Hrest' as [->|Hh]; [done|]. rewrite <- E in Hh. cbn in Hh. congruence.
      + cbn in E. injection E as -> E. apply not_elem_of_cons in Hm as [_ Hm].
        destruct (IHp Hp m Hm E) as [-> ?]. done. }
  destruct (IH ps rest Hms Hps E' Hrest) as (qs & -> & Hqs). by exists qs.
Qed.

(** What [CountMatch] finds of two canonical paths. *)
Lemma CountMatch_spec ps ms : Forall proper ps -> Forall proper ms ->
  (exists qs, ps = ms ++ qs /\ CountMatch (render ps) (render ms) = length (render ms)) \/
  (~ ms `prefix_of` ps /\ CountMatch (render ps) (render ms) = 0).
Proof.
  intros Hps Hms. unfold CountMatch. destruct (decide (ms = [])) as [->|Hne].
  - left. exists ps. split; [done|]. destruct ps as [|p ps]; [done|].
    rewrite render_cons. change (joined (p :: ps)) with (slash :: p ++ joined ps). cbn.
    destruct (p ++ joined ps); done.
  - assert (Hr : render ms = joined ms) by (by destruct ms).
    destruct (decide (ms `prefix_of` ps)) as [[qs ->]|Hnp].
    + left. exists qs. split; [done|].
      assert (Hps2 : render (ms ++ qs) = joined ms ++ joined qs) by (rewrite <- joined_app; by destruct ms).
      rewrite Hps2, Hr. rewrite <- (app_nil_r (joined ms)) at 2. rewrite CountMatch_loop_app.
      assert (CountMatch_loop (joined qs) [] (0 + length (joined ms)) = (joined qs, [], Z.of_nat (length (joined ms)))) as ->
        by (by destruct (joined qs)).
      destruct ms as [|m ms]; [done|]. apply Forall_cons in Hms as [(Hm & _) _].
      assert (1 < length (joined (m :: ms)))%nat.
      { change (joined (m :: ms)) with (slash :: m ++ joined ms). cbn [length]. rewrite length_app.
        destruct m; [done|cbn; lia]. }
      rewrite (proj2 (Z.eqb_neq _ 1)) by lia. cbn [andb]. by destruct qs.
    + right. split; [done|].
      pose proof (CountMatch_loop_spec (render ps) (render ms) 0) as Hl.
      destruct (CountMatch_loop (render ps) (render ms) 0) as [[rest root'] len].
      destruct Hl as (p & E1 & E2 & -> & Hh). destruct root' as [|c root']; [|done].
      rewrite app_nil_r in E2. subst p. rewrite Hr in E1.
      assert (Hno : ~ (rest = [] \/ head rest = Some slash)).
      { intros Hrest. apply Hnp. destruct ps as [|p ps].
        - destruct ms as [|m ms]; [done|]. apply Forall_cons in Hms as [(Hm & _) _].
          apply (f_equal length) in E1. cbn in E1. rewrite !length_app in E1. destruct m; [done|cbn in E1; lia].
        - rewrite render_cons in E1. destruct (joined_inj ms _ rest Hms Hps E1 Hrest) as (qs & -> & _). by exists qs. }
      assert (1 < length (joined ms))%nat.
      { destruct ms as [|m ms]; [done|]. apply Forall_cons in Hms as [(Hm & _) _].
        change (joined (m :: ms)) with (slash :: m ++ joined ms). cbn [length]. rewrite length_app.
        destruct m; [done|cbn; lia]. }
      rewrite Hr, (proj2 (Z.eqb_neq _ 1)) by lia. cbn [andb].
      destruct rest as [|c rest]; [by destruct Hno; left|].
      destruct (Z.eqb_spec c slash) as [->|]; [by destruct Hno; right|done].
Qed.

(** The rest of a path behind a mount point, and how the code finds it. *)
Definition relative (qs : list str) : str := drop 1 (joined qs).

Lemma skip_relative qs : Forall proper qs ->
  skip_slashes (joined qs) = relative qs /\ skip_slashes (relative qs) = relative qs.
Proof.
  intros Hqs. unfold relative. destruct qs as [|q qs]; [done|]. apply Forall_cons in Hqs as [(Hq & _ & _ & Hs) _].
  change (joined (q :: qs)) with (slash :: q ++ joined qs). cbn [skip_slashes drop]. rewrite Z.eqb_refl, drop_0.
  assert (skip_slashes (q ++ joined qs) = q ++ joined qs) as ->; [|done].
  destruct q as [|c q]; [done|]. apply not_elem_of_cons in Hs as [Hs _]. cbn.
  by rewrite (proj2 (Z.eqb_neq c slash)) by congruence.
Qed.

Lemma skip_slashes_relative ms qs : Forall proper qs ->
  skip_slashes (drop (length (render ms)) (render (ms ++ qs))) = relative qs.
Proof.
  intros Hqs. destruct (skip_relative qs Hqs) as [H1 H2]. destruct ms as [|m ms].
  - cbn [app]. change (length (render [])) with 1%nat. destruct qs as [|q qs]; [done|].
    rewrite render_cons. exact H2.
  - assert (render ((m :: ms) ++ qs) = joined (m :: ms) ++ joined qs) as -> by (by rewrite <- joined_app).
    rewrite render_cons, drop_app_length. exact H1.
Qed.

Lemma render_longer ms1 ms2 ps :
  Forall proper ps -> ms1 `prefix_of` ps -> ms2 `prefix_of` ps ->
  (length (render ms1) < length (render ms2))%nat <-> (length ms1 < length ms2)%nat.
Proof.
  assert (Hstrict : forall a q b, (length (render a) < length (render (a ++ (q :: b))))%nat \/ q = []).
  { intros a q b. destruct q as [|c q]; [by right|left].
    assert (render (a ++ (c :: q) :: b) = joined a ++ joined ((c :: q) :: b)) as ->
      by (rewrite <- joined_app; by destruct a).
    rewrite length_app. destruct a; cbn; lia. }
  intros Hps H1 H2. destruct (prefix_weak_total ms1 ms2 ps H1 H2) as [[b ->]|[b ->]].
  - destruct b as [|q b]; [rewrite app_nil_r; lia|]. destruct (Hstrict ms1 q b) as [Hl|Hq].
    + rewrite length_app. cbn [length]. lia.
    + exfalso. destruct H2 as [x ->]. apply Forall_app in Hps as [Hps _]. apply Forall_app in Hps as [_ Hps].
      apply Forall_cons in Hps as [(? & _) _]. done.
  - destruct b as [|q b]; [rewrite app_nil_r; lia|]. destruct (Hstrict ms2 q b) as [Hl|Hq].
    + rewrite length_app. cbn [length]. lia.
    + exfalso. destruct H1 as [x ->]. apply Forall_app in Hps as [Hps _]. apply Forall_app in Hps as [_ Hps].
      apply Forall_cons in Hps as [(? & _) _]. done.
Qed.

(** [VfsFindRoot] on canonical paths: the mount with the longest path that
    leads to the path, if one does. *)
Lemma VfsFindRoot_fold {M} (comps : M -> list str) mounts ps :
  Forall proper ps -> (forall m, m ∈ mounts -> Forall proper (comps m)) ->
  match fold_left (FindRoot_step (fun m => render (comps m)) (render ps)) mounts (0, None) with
  | (len, Some m) => m ∈ mounts /\ comps m `prefix_of` ps /\ len = length (render (comps m)) /\
      forall m', m' ∈ mounts -> comps m' `prefix_of` ps -> (length (comps m') <= length (comps m))%nat
  | (len, None) => len = 0 /\ forall m, m ∈ mounts -> ~ comps m `prefix_of` ps
  end.
Proof.
  intros Hps. induction mounts as [|m0 mounts IH] using rev_ind; intros Hm; cbn [fold_left].
  { split; [done|]. intros m H. by apply elem_of_nil in H. }
  rewrite fold_left_app. cbn [fold_left].
  specialize (IH ltac:(intros m H; apply Hm, elem_of_app; by left)).
  destruct (fold_left _ mounts (0, None)) as [len best]. unfold FindRoot_step. cbn [fst].
  destruct (CountMatch_spec ps (comps m0) Hps ltac:(apply Hm, elem_of_app; right; left)) as [(qs & E & ->)|[Hnp ->]].
  - assert (Hp0 : comps m0 `prefix_of` ps) by (by exists qs).
    assert (Hpos : (0 < length (render (comps m0)))%nat) by (destruct (comps m0); cbn; lia).
    destruct best as [m|].
    + destruct IH as (Hin & Hpre & -> & Hmax). pose proof (render_longer (comps m) (comps m0) ps Hps Hpre Hp0) as Hiff.
      rewrite Z.gtb_ltb. destruct (Z.ltb_spec (length (render (comps m))) (length (render (comps m0)))).
      * split; [apply elem_of_app; right; left|]. split; [done|]. split; [done|].
        intros m' [Hm'| ->%list_elem_of_singleton]%elem_of_app Hp'; [|lia]. specialize (Hmax m' Hm' Hp'). lia.
      * split; [apply elem_of_app; by left|]. split; [done|]. split; [done|].
        intros m' [Hm'| ->%list_elem_of_singleton]%elem_of_app Hp'; [by apply Hmax|lia].
    + destruct IH as [-> Hno]. rewrite Z.gtb_ltb, (proj2 (Z.ltb_lt _ _)) by lia.
      split; [apply elem_of_app; right; left|]. split; [done|]. split; [done|].
      intros m' [Hm'| ->%list_elem_of_singleton]%elem_of_app Hp'; [by destruct (Hno m' Hm')|lia].
  - assert (Hlen : 0 <= len) by (destruct best; [destruct IH as (_ & _ & -> & _)|destruct IH as [-> _]]; lia).
    rewrite Z.gtb_ltb, (proj2 (Z.ltb_ge len 0)) by lia. destruct best as [m|].
    + destruct IH as (Hin & Hpre & Hlen' & Hmax). split; [apply elem_of_app; by left|]. split; [done|]. split; [done|].
      intros m' [Hm'| ->%list_elem_of_singleton]%elem_of_app Hp'; [by apply Hmax|done].
    + destruct IH as [-> Hno]. split; [done|].
      intros m' [Hm'| ->%list_elem_of_singleton]%elem_of_app; [by apply Hno|done].
Qed.

Lemma VfsFindRoot_spec {M} (comps : M -> list str) mounts ps :
  Forall proper ps -> (forall m, m ∈ mounts -> Forall proper (comps m)) ->
  match VfsFindRoot (fun m => render (comps m)) mounts (render ps) with
  | Some (m, rest) => exists qs, m ∈ mounts /\ ps = comps m ++ qs /\ rest = relative qs /\
      forall m', m' ∈ mounts -> comps m' `prefix_of` ps -> (length (comps m') <= length (comps m))%nat
  | None => forall m, m ∈ mounts -> ~ comps m `prefix_of` ps
  end.
Proof.
  intros Hps Hm. pose proof (VfsFindRoot_fold comps mounts ps Hps Hm) as H. unfold VfsFindRoot.
  destruct (fold_left _ mounts (0, None)) as [len [m|]]; cbn [mbind option_bind]; [|by destruct H].
  destruct H as (Hin & [qs ->] & -> & Hmax). exists qs. split; [done|]. split; [done|]. split; [|done].
  apply Forall_app in Hps as [_ Hqs]. rewrite Nat2Z.id. by apply skip_slashes_relative.
Qed.

Lemma abs_path_canonical_witness :
  exists b, NX_VfsBuildAbsPath (Some (render [[97]])) [46; 46; 47; 98; 47; 47; 46; 47; 99] = Some (b, NX_EOK) /\
    b = render [[98]; [99]].
Proof.
  destruct (abs_path_canonical [[97]] [46; 46; 47; 98; 47; 47; 46; 47; 99]) as (b & e & Hrun & H).
  - repeat constructor; try discriminate. intros H. apply list_elem_of_singleton in H. discriminate H.
  - reflexivity.
  - vm_compute. discriminate.
  - destruct H as [[_ H]|[-> (st & -> & _ & Hb & _)]]; [vm_compute in H; destruct H; reflexivity|].
    exists b. split; [exact Hrun|exact Hb].
Defined.
