(* ===== verification/Vfs.v ===== *)
(** Nodes and mounts of the virtual file system: [fs/vfs.c] up to
    [VfsLookupDir], and [include/base/vfs.h].

    A node is a file of a mount by its path in it; the nodes in use are in a
    hash table and count who uses them.  [VfsNodeAcquire] takes a reference on
    every node from the root of the mount to the file, [VfsNodeRelease] gives
    them back.

    Nodes and mounts are named by their addresses, an access through any other
    address is [None].  The functions of a file system are [fs_call]; they see
    and change the attributes of the nodes they are given, and a world of their
    own.  The calls of the file system layer run one at a time. *)
From S2P Require Import Prelude VfsPath.

#[local] Coercion Z.of_nat : nat >-> Z.

Definition NX_VFS_NODE_HASH_SIZE : Z := 256.

Definition NX_VFS_NODE_FLAG_NONE : Z := 0.
Definition NX_VFS_NODE_FLAG_ROOT : Z := 1.

Inductive NX_VfsNodeType := TYPE_UNK | TYPE_DIR | TYPE_CHR | TYPE_BLK | TYPE_REG | TYPE_LNK | TYPE_FIFO | TYPE_SOCK.

#[export] Instance NX_VfsNodeType_eq_dec : EqDecision NX_VfsNodeType.
Proof. solve_decision. Defined.

(** Access rights (octal 7, 70 and 700) and kinds of a mode. *)
Definition S_IRWXO : Z := 7.
Definition S_IRWXG : Z := 56.
Definition S_IRWXU : Z := 448.
Definition S_IFDIR : Z := 2 ^ 16.
Definition S_IFCHR : Z := 2 ^ 17.
Definition S_IFBLK : Z := 2 ^ 18.
Definition S_IFREG : Z := 2 ^ 19.
Definition S_IFLNK : Z := 2 ^ 20.
Definition S_IFIFO : Z := 2 ^ 21.
Definition S_IFSOCK : Z := 2 ^ 22.
Definition S_IFMT : Z := 0x7f0000.
Definition NX_VFS_R_OK : Z := 4.
Definition NX_VFS_W_OK : Z := 2.
Definition NX_VFS_X_OK : Z := 1.
Definition NX_VFS_MOUNT_RO : Z := 1.
Definition NX_VFS_MOUNT_MASK : Z := 1.

(** The fields of a node that the file systems write. *)
Record NodeAttr := mkAttr {
  type : NX_VfsNodeType;
  mode : Z;
  size : Z;
  data : Z;
  ctime : Z;
  atime : Z;
  mtime : Z }.

Record NX_VfsNode := mkNode {
  mount : Z;
  refcnt : Z;
  path : str;
  nflags : Z;
  attr : NodeAttr }.

Record NX_VfsMount := mkMount {
  fs : Z;
  dev : Z;
  mpath : str;
  mflags : Z;
  mrefcnt : Z;
  root : Z;
  covered : Z }.

Record NX_VfsStatInfo := mkStat {
  st_ino : Z; st_size : Z; st_mode : Z; st_dev : Z; st_uid : Z; st_gid : Z;
  st_ctime : Z; st_atime : Z; st_mtime : Z }.

Record NX_VfsDirent := mkDirent { d_off : Z; d_reclen : Z; d_type : NX_VfsNodeType; d_name : str }.

(** The functions of [NX_VfsFileSystem]. *)
Inductive FsOp :=
  | Fs_mount (dev : option str) (flags : Z)
  | Fs_unmount
  | Fs_msync
  | Fs_vget
  | Fs_vput
  | Fs_read (off len : Z)
  | Fs_write (off : Z) (buf : list Z)
  | Fs_ioctl (cmd arg : Z)
  | Fs_truncate (off : Z)
  | Fs_sync
  | Fs_readdir (off : Z)
  | Fs_lookup (name : str)
  | Fs_create (name : str) (mode : Z)
  | Fs_remove (name : str)
  | Fs_rename (sname dname : str)
  | Fs_mkdir (name : str) (mode : Z)
  | Fs_rmdir (name : str)
  | Fs_chmod (mode : Z).

(** What a function returns: an error, a number of bytes, the bytes read, a
    directory entry; [mount] may also change the flags of the mount. *)
Record FsResult := mkResult {
  r_err : NX_Error;
  r_count : Z;
  r_bytes : list Z;
  r_dirent : NX_VfsDirent;
  r_flags : Z }.

(** What the virtual file system uses of the block devices ([io/block.c]). *)
Class BlockOps (W : Type) := {
  NX_IoBlockOpen : W -> str -> W * Z;
  NX_IoBlockSync : W -> Z -> W;
  NX_IoBlockClose : W -> Z -> W }.

Section vfs.
Context {W : Type} `{BlockOps W}.
Variable fs_call : Z -> FsOp -> Z -> W -> list NodeAttr -> W * list NodeAttr * FsResult.

(** [fileSystemListHead], [fileSystemMountList], [fileSystemNodeList], the
    objects they link, the answers [NX_MemAlloc] will give. *)
Record Vfs := mkVfs {
  fileSystems : list (Z * str);
  mountList : list Z;
  nodeList : list (list Z);
  mounts : gmap Z NX_VfsMount;
  nodes : gmap Z NX_VfsNode;
  blocks : list Z;
  world : W }.

Definition with_nodes (s : Vfs) (nl : list (list Z)) (n : gmap Z NX_VfsNode) : Vfs :=
  mkVfs (fileSystems s) (mountList s) nl (mounts s) n (blocks s) (world s).
Definition with_mounts (s : Vfs) (ml : list Z) (m : gmap Z NX_VfsMount) : Vfs :=
  mkVfs (fileSystems s) ml (nodeList s) m (nodes s) (blocks s) (world s).
Definition with_world (s : Vfs) (w : W) : Vfs :=
  mkVfs (fileSystems s) (mountList s) (nodeList s) (mounts s) (nodes s) (blocks s) w.

Definition set_refcnt (r : Z) (n : NX_VfsNode) : NX_VfsNode := mkNode (mount n) r (path n) (nflags n) (attr n).
Definition set_attr (a : NodeAttr) (n : NX_VfsNode) : NX_VfsNode := mkNode (mount n) (refcnt n) (path n) (nflags n) a.
Definition set_mrefcnt (r : Z) (m : NX_VfsMount) : NX_VfsMount :=
  mkMount (fs m) (dev m) (mpath m) (mflags m) r (root m) (covered m).

Definition upd_node (s : Vfs) (n : Z) (f : NX_VfsNode -> NX_VfsNode) : option Vfs :=
  nd ← nodes s !! n; Some (with_nodes s (nodeList s) (<[n := f nd]> (nodes s))).
Definition upd_mount (s : Vfs) (m : Z) (f : NX_VfsMount -> NX_VfsMount) : option Vfs :=
  mt ← mounts s !! m; Some (with_mounts s (mountList s) (<[m := f mt]> (mounts s))).

(** [NX_MemAlloc]: the heap zeroes an object; 0 is the null pointer. *)
Definition NX_MemAlloc (s : Vfs) : Vfs * Z :=
  match blocks s with
  | [] => (s, 0)
  | b :: bs => (mkVfs (fileSystems s) (mountList s) (nodeList s) (mounts s) (nodes s) bs (world s), b)
  end.

Definition zero_attr : NodeAttr := mkAttr TYPE_UNK 0 0 0 0 0 0.

(** Calling a function of file system [f] of mount [m] with nodes [ns]. *)
Definition fs_nodes (s : Vfs) (ns : list Z) : option (list NodeAttr) := mapM (fun n => attr <$> nodes s !! n) ns.

Fixpoint store_attrs (s : Vfs) (ns : list Z) (l : list NodeAttr) : option Vfs :=
  match ns, l with
  | n :: ns, a :: l => s ← upd_node s n (set_attr a); store_attrs s ns l
  | _, _ => Some s
  end.

Definition fs_do (s : Vfs) (f : Z) (op : FsOp) (m : Z) (ns : list Z) : option (Vfs * FsResult) :=
  l ← fs_nodes s ns;
  let '(w, l, r) := fs_call f op m (world s) l in
  s ← store_attrs (with_world s w) ns l;
  Some (s, r).

(** [n->mount->fs->op(n, ...)] *)
Definition fs_on (s : Vfs) (op : FsOp) (n : Z) (others : list Z) : option (Vfs * FsResult) :=
  nd ← nodes s !! n;
  mt ← mounts s !! mount nd;
  fs_do s (fs mt) op (mount nd) (n :: others).

(** ** File systems *)
Definition NX_VfsRegisterFileSystem (s : Vfs) (f : option (Z * option str)) : Vfs * NX_Error :=
  match f with
  | Some (f, Some name) =>
      (mkVfs (fileSystems s ++ [(f, name)]) (mountList s) (nodeList s) (mounts s) (nodes s) (blocks s) (world s), NX_EOK)
  | _ => (s, NX_EINVAL)
  end.

Definition NX_VfsUnregisterFileSystem (s : Vfs) (f : option (Z * option str)) : Vfs * NX_Error :=
  match f with
  | Some (f, Some _) =>
      (mkVfs (filter (fun e => e.1 <> f) (fileSystems s)) (mountList s) (nodeList s) (mounts s) (nodes s) (blocks s)
        (world s), NX_EOK)
  | _ => (s, NX_EINVAL)
  end.

(** 0 is the null pointer. *)
Definition NX_VfsSearchFileSystem (s : Vfs) (name : option str) : Z :=
  match name with
  | None => 0
  | Some name => match list_find (fun e => e.2 = name) (fileSystems s) with Some (_, e) => e.1 | None => 0 end
  end.

(** ** Nodes *)
Definition VfsNodeHash (m : Z) (path : str) : Z :=
  Z.land (Z.lxor (fold_left (fun val c => u32 (u32 ((val << 5) + val) + c)) path 0) (u32 m)) (NX_VFS_NODE_HASH_SIZE - 1).

Definition VfsNodeGet (s : Vfs) (m : Z) (path : str) : option (Vfs * Z) :=
  let '(s, n) := NX_MemAlloc s in
  if n =? 0 then Some (s, 0)
  else if length path >=? NX_VFS_MAX_PATH then Some (s, 0)
  else
    let nd := mkNode m 1 path NX_VFS_NODE_FLAG_NONE zero_attr in
    mt ← mounts s !! m;
    '(s', r) ← fs_do (with_nodes s (nodeList s) (<[n := nd]> (nodes s))) (fs mt) Fs_vget m [n];
    if is_ok (r_err r) then
      s ← upd_mount s' m (fun mt => set_mrefcnt (i64 (mrefcnt mt + 1)) mt);
      bucket ← zlookup (nodeList s) (VfsNodeHash m path);
      Some (with_nodes s (zinsert (nodeList s) (VfsNodeHash m path) (n :: bucket)) (nodes s), n)
    else Some (with_nodes s' (nodeList s') (delete n (nodes s')), 0).

(** The traversal of a bucket; 0 when no node fits. *)
Fixpoint VfsNodeLookup_loop (s : Vfs) (l : list Z) (m : Z) (p : str) : option Z :=
  match l with
  | [] => Some 0
  | n :: l =>
      nd ← nodes s !! n;
      if (mount nd =? m) && bool_decide (take 1024 (path nd) = take 1024 p) then Some n
      else VfsNodeLookup_loop s l m p
  end.

Definition VfsNodeIncreaseRef (s : Vfs) (n : Z) : option Vfs :=
  upd_node s n (fun nd => set_refcnt (i64 (refcnt nd + 1)) nd).

Definition VfsNodeLookup (s : Vfs) (m : Z) (path : str) : option (Vfs * Z) :=
  bucket ← zlookup (nodeList s) (VfsNodeHash m path);
  n ← VfsNodeLookup_loop s bucket m path;
  if n =? 0 then Some (s, 0)
  else s ← VfsNodeIncreaseRef s n; Some (s, n).

Definition VfsNodePut (s : Vfs) (n : Z) : option Vfs :=
  s ← upd_node s n (fun nd => set_refcnt (i64 (refcnt nd - 1)) nd);
  nd ← nodes s !! n;
  if nz (refcnt nd) then Some s
  else
    let hash := VfsNodeHash (mount nd) (path nd) in
    bucket ← zlookup (nodeList s) hash;
    let s := with_nodes s (zinsert (nodeList s) hash (list_del n bucket)) (nodes s) in
    '(s, _) ← fs_on s Fs_vput n [];
    s ← upd_mount s (mount nd) (fun mt => set_mrefcnt (i64 (mrefcnt mt - 1)) mt);
    Some (with_nodes s (nodeList s) (delete n (nodes s))).

(** The loop of [VfsNodeRelease] cuts the last component off at each turn. *)
Fixpoint VfsNodeRelease_loop (fuel : nat) (s : Vfs) (m : Z) (path : str) : option Vfs :=
  match fuel with
  | O => None
  | S fuel =>
      match StrChrReverse path slash with
      | None => Some s
      | Some p =>
          let path := take p path in
          match path with
          | [] => Some s
          | _ =>
              '(s, n) ← VfsNodeLookup s m path;
              if n =? 0 then VfsNodeRelease_loop fuel s m path
              else
                s ← VfsNodePut s n;
                s ← VfsNodePut s n;
                VfsNodeRelease_loop fuel s m path
          end
      end
  end.

Definition VfsNodeRelease (s : Vfs) (n : Z) : option Vfs :=
  if n =? 0 then Some s
  else
    nd ← nodes s !! n;
    let m := mount nd in
    mt ← mounts s !! m;
    if root mt =? n then VfsNodePut s n
    else if length (path nd) >=? NX_VFS_MAX_PATH then Some s
    else
      s ← VfsNodePut s n;
      s ← VfsNodeRelease_loop (S (length (path nd))) s m (path nd);
      mt ← mounts s !! m;
      VfsNodePut s (root mt).

(** The loop of [VfsNodeAcquire]: [dn] is the node reached, [node] its path and
    [p] the rest of the path.  The result is -1 or the node. *)
Fixpoint token (p : str) : str :=
  match p with c :: p => if c =? slash then [] else c :: token p | [] => [] end.

Fixpoint VfsNodeAcquire_loop (fuel : nat) (s : Vfs) (m dn : Z) (node p : str) : option (Vfs * option Z) :=
  match fuel with
  | O => None
  | S fuel =>
      let p := skip_slashes p in
      match p with
      | [] => Some (s, Some dn)
      | _ =>
          let name := token p in
          let p := drop (length name) p in
          let node := node ++ slash :: name in
          assert (length node <? NX_VFS_MAX_PATH);;
          '(s, n) ← VfsNodeLookup s m node;
          if n =? 0 then
            '(s, n) ← VfsNodeGet s m node;
            if n =? 0 then s ← VfsNodePut s dn; Some (s, None)
            else
              '(s, r) ← fs_on s (Fs_lookup name) dn [n];
              nd ← nodes s !! n;
              if negb (is_ok (r_err r)) ||
                 (bool_decide (head p = Some slash) && negb (bool_decide (type (attr nd) = TYPE_DIR)))
              then s ← VfsNodeRelease s n; Some (s, None)
              else VfsNodeAcquire_loop fuel s m n node p
          else VfsNodeAcquire_loop fuel s m n node p
      end
  end.

Definition mount_path (s : Vfs) (m : Z) : str := match mounts s !! m with Some mt => mpath mt | None => [] end.

Definition VfsNodeAcquire (s : Vfs) (path : str) : option (Vfs * option Z) :=
  match VfsFindRoot (mount_path s) (mountList s) path with
  | None => Some (s, None)
  | Some (m, p) =>
      mt ← mounts s !! m;
      if root mt =? 0 then Some (s, None)
      else
        s ← VfsNodeIncreaseRef s (root mt);
        VfsNodeAcquire_loop (S (length p)) s m (root mt) [] p
  end.

(** The directory of a path, acquired, and the name in it. *)
Definition VfsLookupDir (s : Vfs) (path : str) : option (Vfs * option (Z * str)) :=
  if length path >=? NX_VFS_MAX_PATH then Some (s, None)
  else
    match StrChrReverse path slash with
    | None => Some (s, None)
    | Some file =>
        let dir := if Nat.eqb file 0 then [slash] else take file path in
        '(s, n) ← VfsNodeAcquire s dir;
        match n with
        | None => Some (s, None)
        | Some n =>
            nd ← nodes s !! n;
            if bool_decide (type (attr nd) = TYPE_DIR) then Some (s, Some (n, drop (S file) path))
            else s ← VfsNodeRelease s n; Some (s, None)
        end
    end.

(** [None] in the result is the error of an unknown type, -1 of a refusal. *)
Definition type_mode (t : NX_VfsNodeType) : option Z :=
  match t with
  | TYPE_REG => Some S_IFREG | TYPE_DIR => Some S_IFDIR | TYPE_BLK => Some S_IFBLK | TYPE_CHR => Some S_IFCHR
  | TYPE_LNK => Some S_IFLNK | TYPE_SOCK => Some S_IFSOCK | TYPE_FIFO => Some S_IFIFO | TYPE_UNK => None
  end.

Definition VfsNodeStat (s : Vfs) (n : Z) : option (NX_VfsStatInfo * NX_Error) :=
  nd ← nodes s !! n;
  let a := attr nd in
  let mode := Z.land (mode a) (Z.lor S_IRWXU (Z.lor S_IRWXG S_IRWXO)) in
  match type_mode (type a) with
  | None => Some (mkStat (u32 n) (size a) 0 0 0 0 (ctime a) (atime a) (mtime a), NX_ENORES)
  | Some k =>
      let dev := if bool_decide (type a = TYPE_CHR \/ type a = TYPE_BLK) then u32 (data a) else 0 in
      Some (mkStat (u32 n) (size a) (Z.lor mode k) dev 0 0 (ctime a) (atime a) (mtime a), NX_EOK)
  end.

(** The rights of user, group and others together: octal 444, 222 and 111. *)
Definition VfsNodeAccess (s : Vfs) (n mode_asked : Z) : option bool :=
  nd ← nodes s !! n;
  let m := mode (attr nd) in
  if nz (Z.land mode_asked NX_VFS_R_OK) && negb (nz (Z.land m 292)) then Some false
  else
    mt ← (if nz (Z.land mode_asked NX_VFS_W_OK) then
            mt ← mounts s !! mount nd;
            Some (negb (nz (Z.land (mflags mt) NX_VFS_MOUNT_RO)) && nz (Z.land m 146))
          else Some true);
    if negb mt then Some false
    else if nz (Z.land mode_asked NX_VFS_X_OK) && negb (nz (Z.land m 73)) then Some false
    else Some true.
End vfs.
