(* ===== verification/VfsOps.v ===== *)
(** The calls of the virtual file system: the file table, files, directories
    and mounts of [fs/vfs.c].

    A file table belongs to a process and is null for a thread without one;
    descriptors are its indices.  The mutexes of files, nodes and mounts are
    taken and given back within a call, and a call is one step here; [None] is
    also the wait of a thread for a mutex it holds itself.  The error a call
    writes through [outErr] is part of its result. *)
From S2P Require Import Prelude VfsPath Vfs.

#[local] Coercion Z.of_nat : nat >-> Z.

Definition NX_VFS_MAX_FD : Z := 256.

Definition NX_VFS_O_RDONLY : Z := 1.
Definition NX_VFS_O_WRONLY : Z := 2.
Definition NX_VFS_O_ACCMODE : Z := Z.lor NX_VFS_O_RDONLY NX_VFS_O_WRONLY.
Definition NX_VFS_O_CREAT : Z := 2 ^ 8.
Definition NX_VFS_O_EXCL : Z := 2 ^ 9.
Definition NX_VFS_O_TRUNC : Z := 2 ^ 11.

Definition NX_VFS_SEEK_SET : Z := 0.
Definition NX_VFS_SEEK_CUR : Z := 1.
Definition NX_VFS_SEEK_END : Z := 2.

Record NX_VfsFile := mkFile { node : Z; offset : Z; flags : Z }.

Abbreviation FileTable := (list NX_VfsFile).

Definition has (flags bit : Z) : bool := nz (Z.land flags bit).

(** ** File tables *)
Definition NX_VfsFileTableInit (ft : FileTable) : FileTable := (fun _ => mkFile 0 0 0) <$> ft.

(** The loop starts at the third descriptor. *)
Fixpoint VfsFileAlloc_loop (l : FileTable) (i : Z) : Z :=
  match l with
  | [] => -1
  | f :: l => if node f =? 0 then i else VfsFileAlloc_loop l (i + 1)
  end.

Definition VfsFileAlloc (ft : FileTable) : Z := VfsFileAlloc_loop (drop 3 ft) 3.

Definition VfsFileFree (ft : FileTable) (fd : Z) : FileTable :=
  if (3 <=? fd) && (fd <? NX_VFS_MAX_FD) then
    match zlookup ft fd with
    | Some f => if nz (node f) then zinsert ft fd (mkFile 0 0 0) else ft
    | None => ft
    end
  else ft.

Definition VfsFileDescriptorToFile (ft : option FileTable) (fd : Z) : option NX_VfsFile :=
  ft ← ft; if (0 <=? fd) && (fd <? NX_VFS_MAX_FD) then zlookup ft fd else None.

Definition put_file (ft : option FileTable) (fd : Z) (f : NX_VfsFile) : option FileTable :=
  (fun ft => zinsert ft fd f) <$> ft.

Definition set_offset (o : Z) (f : NX_VfsFile) : NX_VfsFile := mkFile (node f) o (flags f).

(** The file of a descriptor and its node, or one of two errors. *)
Definition with_file {A} (ft : option FileTable) (fd : Z) (no_file closed : A) (k : NX_VfsFile -> A) : A :=
  match VfsFileDescriptorToFile ft fd with
  | None => no_file
  | Some f => if node f =? 0 then closed else k f
  end.

Section calls.
Context {W : Type} `{!BlockOps W}.
Variable fs_call : Z -> FsOp -> Z -> W -> list NodeAttr -> W * list NodeAttr * FsResult.
Implicit Types (s : Vfs (W := W)) (ft : option FileTable) (cwd : option str).

Abbreviation fs_on := (fs_on fs_call).
Abbreviation VfsNodeAcquire := (VfsNodeAcquire fs_call).
Abbreviation VfsNodeRelease := (VfsNodeRelease fs_call).
Abbreviation VfsLookupDir := (VfsLookupDir fs_call).

(** Functions of the file system one after the other, up to an error. *)
Fixpoint fs_seq s (l : list (FsOp * Z * list Z)) : option (Vfs * NX_Error) :=
  match l with
  | [] => Some (s, NX_EOK)
  | (op, n, others) :: l =>
      '(s, r) ← fs_on s op n others;
      if is_ok (r_err r) then fs_seq s l else Some (s, r_err r)
  end.

Definition node_type s (n : Z) : option NX_VfsNodeType := nd ← nodes s !! n; Some (type (attr nd)).

(** ** Files *)

(** The branch of [NX_VfsOpen] that creates a file: the node of the new file,
    or an error. *)
Definition Open_create s (absPath : str) (mode : Z) : option (Vfs * (Z + NX_Error)) :=
  '(s, d) ← VfsLookupDir s absPath;
  match d with
  | None => Some (s, inr NX_ENOSRCH)
  | Some (dn, filename) =>
      ok ← VfsNodeAccess s dn NX_VFS_W_OK;
      if negb ok then s ← VfsNodeRelease s dn; Some (s, inr NX_EPERM)
      else
        let mode := Z.lor (Z.land mode (Z.lnot S_IFMT)) S_IFREG in
        '(s, err) ← fs_seq s [(Fs_create filename mode, dn, []); (Fs_sync, dn, [])];
        s ← VfsNodeRelease s dn;
        if negb (is_ok err) then Some (s, inr err)
        else
          '(s, n) ← VfsNodeAcquire s absPath;
          Some (s, match n with Some n => inl n | None => inr NX_ENORES end)
  end.

(** The node [NX_VfsOpen] opens and the flags left, or an error. *)
Definition Open_node s (absPath : str) (flags mode : Z) : option (Vfs * (Z * Z + NX_Error)) :=
  if has flags NX_VFS_O_CREAT then
    '(s, n) ← VfsNodeAcquire s absPath;
    match n with
    | None =>
        '(s, r) ← Open_create s absPath mode;
        Some (s, match r with inl n => inl (n, Z.land flags (Z.lnot NX_VFS_O_TRUNC)) | inr err => inr err end)
    | Some n =>
        if has flags NX_VFS_O_EXCL then s ← VfsNodeRelease s n; Some (s, inr NX_EAGAIN)
        else Some (s, inl (n, Z.land flags (Z.lnot NX_VFS_O_CREAT)))
    end
  else
    '(s, n) ← VfsNodeAcquire s absPath;
    match n with
    | None => Some (s, inr NX_ENORES)
    | Some n =>
        if has flags NX_VFS_O_WRONLY || has flags NX_VFS_O_TRUNC then
          ok ← VfsNodeAccess s n NX_VFS_W_OK;
          if negb ok then s ← VfsNodeRelease s n; Some (s, inr NX_EPERM)
          else
            t ← node_type s n;
            if bool_decide (t = TYPE_DIR) then s ← VfsNodeRelease s n; Some (s, inr NX_EPERM)
            else Some (s, inl (n, flags))
        else Some (s, inl (n, flags))
    end.

(** The rest of [NX_VfsOpen]: truncation and the descriptor. *)
Definition Open_file s (ft : FileTable) (n flags : Z) : option (Vfs * FileTable * Z * NX_Error) :=
  let alloc s :=
    let fd := VfsFileAlloc ft in
    if fd <? 0 then s ← VfsNodeRelease s n; Some (s, ft, -1, NX_ENORES)
    else Some (s, zinsert ft fd (mkFile n 0 flags), fd, NX_EOK) in
  if has flags NX_VFS_O_TRUNC then
    t ← node_type s n;
    if negb (has flags NX_VFS_O_WRONLY) || bool_decide (t = TYPE_DIR) then
      s ← VfsNodeRelease s n; Some (s, ft, -1, NX_EPERM)
    else
      '(s, r) ← fs_on s (Fs_truncate 0) n [];
      if is_ok (r_err r) then alloc s
      else s ← VfsNodeRelease s n; Some (s, ft, -1, r_err r)
  else alloc s.

Definition NX_VfsOpen cwd s ft (path : option str) (flags mode : Z) : option (Vfs * option FileTable * Z * NX_Error) :=
  match path with
  | None => Some (s, ft, -1, NX_EINVAL)
  | Some path =>
      if negb (has flags NX_VFS_O_ACCMODE) then Some (s, ft, -1, NX_EINVAL)
      else
        match ft with
        | None => Some (s, ft, -1, NX_ENORES)
        | Some table =>
            '(absPath, err) ← NX_VfsBuildAbsPath cwd path;
            if negb (is_ok err) then Some (s, ft, -1, NX_ENOSRCH)
            else
              '(s, r) ← Open_node s absPath flags mode;
              match r with
              | inr err => Some (s, ft, -1, err)
              | inl (n, flags) =>
                  '(s, table, fd, err) ← Open_file s table n flags;
                  Some (s, Some table, fd, err)
              end
        end
  end.

Definition NX_VfsClose s ft (fd : Z) : option (Vfs * option FileTable * NX_Error) :=
  match ft with
  | None => Some (s, ft, NX_ENORES)
  | Some table =>
      with_file ft fd (Some (s, ft, NX_EFAULT)) (Some (s, ft, NX_EFAULT)) (fun f =>
        '(s, r) ← fs_on s Fs_sync (node f) [];
        if negb (is_ok (r_err r)) then Some (s, ft, r_err r)
        else s ← VfsNodeRelease s (node f); Some (s, Some (VfsFileFree table fd), NX_EOK))
  end.

(** Reading returns the bytes too; a null buffer is [false]. *)
Definition NX_VfsRead s ft (fd : Z) (buf : bool) (len : Z) : option (Vfs * option FileTable * Z * list Z * NX_Error) :=
  if negb buf || (len =? 0) then Some (s, ft, 0, [], NX_EINVAL)
  else
    with_file ft fd (Some (s, ft, 0, [], NX_ENORES)) (Some (s, ft, 0, [], NX_EFAULT)) (fun f =>
      t ← node_type s (node f);
      if negb (bool_decide (t = TYPE_REG)) then Some (s, ft, 0, [], NX_ENORES)
      else if negb (has (flags f) NX_VFS_O_RDONLY) then Some (s, ft, 0, [], NX_EPERM)
      else
        '(s, r) ← fs_on s (Fs_read (offset f) len) (node f) [];
        Some (s, put_file ft fd (set_offset (i64 (offset f + r_count r)) f), r_count r, r_bytes r, r_err r)).

Definition NX_VfsWrite s ft (fd : Z) (buf : option (list Z)) : option (Vfs * option FileTable * Z * NX_Error) :=
  match buf with
  | None | Some [] => Some (s, ft, 0, NX_EINVAL)
  | Some buf =>
      with_file ft fd (Some (s, ft, 0, NX_ENORES)) (Some (s, ft, 0, NX_EFAULT)) (fun f =>
        t ← node_type s (node f);
        if negb (bool_decide (t = TYPE_REG)) then Some (s, ft, 0, NX_ENORES)
        else if negb (has (flags f) NX_VFS_O_WRONLY) then Some (s, ft, 0, NX_EPERM)
        else
          '(s, r) ← fs_on s (Fs_write (offset f) buf) (node f) [];
          Some (s, put_file ft fd (set_offset (i64 (offset f + r_count r)) f), r_count r, r_err r))
  end.

Definition NX_VfsIoctl s ft (fd cmd arg : Z) : option (Vfs * option FileTable * NX_Error) :=
  with_file ft fd (Some (s, ft, NX_ENORES)) (Some (s, ft, NX_EFAULT)) (fun f =>
    '(s, r) ← fs_on s (Fs_ioctl cmd arg) (node f) []; Some (s, ft, r_err r)).

(** The new offset; the size is unsigned, [NX_SEEK_END]'s comparison with 0 and
    the last one are between unsigned numbers.  [None] for another [whence]. *)
Definition seek_to (size cur off whence : Z) : option Z :=
  off ← (if whence =? NX_VFS_SEEK_SET then
           Some (if off <? 0 then 0 else if off >? i64 size then i64 size else off)
         else if whence =? NX_VFS_SEEK_CUR then
           Some (if i64 (cur + off) >? i64 size then i64 size
                 else if i64 (cur + off) <? 0 then 0 else i64 (cur + off))
         else if whence =? NX_VFS_SEEK_END then
           Some (if off >? 0 then i64 size else if u64 (size + off) <? 0 then 0 else i64 (size + off))
         else None);
  Some (if u64 off <=? size then off else cur).

Definition NX_VfsFileSeek s ft (fd off whence : Z) : option (option FileTable * Z * NX_Error) :=
  with_file ft fd (Some (ft, 0, NX_ENORES)) (Some (ft, 0, NX_EPERM)) (fun f =>
    nd ← nodes s !! node f;
    match seek_to (size (attr nd)) (offset f) off whence with
    | None => Some (ft, offset f, NX_EINVAL)
    | Some o => Some (put_file ft fd (set_offset o f), o, NX_EOK)
    end).

Definition NX_VfsFileSync s ft (fd : Z) : option (Vfs * option FileTable * NX_Error) :=
  with_file ft fd (Some (s, ft, NX_ENORES)) (Some (s, ft, NX_EFAULT)) (fun f =>
    if negb (has (flags f) NX_VFS_O_WRONLY) then Some (s, ft, NX_EPERM)
    else '(s, r) ← fs_on s Fs_sync (node f) []; Some (s, ft, r_err r)).

Definition S_IRWX : Z := Z.lor S_IRWXU (Z.lor S_IRWXG S_IRWXO).

Definition NX_VfsFileChmod s ft (fd mode : Z) : option (Vfs * option FileTable * NX_Error) :=
  with_file ft fd (Some (s, ft, NX_ENORES)) (Some (s, ft, NX_EFAULT)) (fun f =>
    '(s, r) ← fs_on s (Fs_chmod (Z.land mode S_IRWX)) (node f) []; Some (s, ft, r_err r)).

(** A null [st] is [false]. *)
Definition NX_VfsFileStat s ft (fd : Z) (st : bool) : option (option NX_VfsStatInfo * NX_Error) :=
  if negb st then Some (None, NX_EINVAL)
  else
    with_file ft fd (Some (None, NX_ENORES)) (Some (None, NX_EFAULT)) (fun f =>
      '(st, err) ← VfsNodeStat s (node f); Some (Some st, err)).

(** ** Directories *)
Definition NX_VfsOpenDir cwd s ft (name : option str) : option (Vfs * option FileTable * Z * NX_Error) :=
  match name with
  | None => Some (s, ft, -1, NX_EINVAL)
  | Some name =>
      '(s, ft, fd, err) ← NX_VfsOpen cwd s ft (Some name) NX_VFS_O_RDONLY 0;
      if fd <? 0 then Some (s, ft, fd, err)
      else
        with_file ft fd (Some (s, ft, -1, NX_ENORES)) (Some (s, ft, -1, NX_EFAULT)) (fun f =>
          t ← node_type s (node f);
          if negb (bool_decide (t = TYPE_DIR)) then
            '(s, ft, _) ← NX_VfsClose s ft fd; Some (s, ft, -1, NX_ENORES)
          else Some (s, ft, fd, NX_EOK))
  end.

Definition NX_VfsCloseDir s ft (fd : Z) : option (Vfs * option FileTable * NX_Error) :=
  with_file ft fd (Some (s, ft, NX_ENORES)) (Some (s, ft, NX_EFAULT)) (fun f =>
    t ← node_type s (node f);
    if negb (bool_decide (t = TYPE_DIR)) then Some (s, ft, NX_ENORES) else NX_VfsClose s ft fd).

(** A null [dir] is [false]. *)
Definition NX_VfsReadDir s ft (fd : Z) (dir : bool) : option (Vfs * option FileTable * NX_VfsDirent * NX_Error) :=
  let none := mkDirent 0 0 TYPE_UNK [] in
  if negb dir then Some (s, ft, none, NX_EINVAL)
  else
    with_file ft fd (Some (s, ft, none, NX_ENORES)) (Some (s, ft, none, NX_EFAULT)) (fun f =>
      t ← node_type s (node f);
      if negb (bool_decide (t = TYPE_DIR)) then Some (s, ft, none, NX_ENORES)
      else
        '(s, r) ← fs_on s (Fs_readdir (offset f)) (node f) [];
        Some (s,
              if is_ok (r_err r) then put_file ft fd (set_offset (i64 (offset f + d_reclen (r_dirent r))) f) else ft,
              r_dirent r, r_err r)).

Definition NX_VfsRewindDir s ft (fd : Z) : option (option FileTable * NX_Error) :=
  with_file ft fd (Some (ft, NX_ENORES)) (Some (ft, NX_EFAULT)) (fun f =>
    t ← node_type s (node f);
    if negb (bool_decide (t = TYPE_DIR)) then Some (ft, NX_ENORES)
    else Some (put_file ft fd (set_offset 0 f), NX_EOK)).

(** A call on the file of a path. *)
Definition with_path cwd s (path : option str) (k : str -> option (Vfs * NX_Error)) : option (Vfs * NX_Error) :=
  match path with
  | None => Some (s, NX_EINVAL)
  | Some path => '(absPath, err) ← NX_VfsBuildAbsPath cwd path; if is_ok err then k absPath else Some (s, err)
  end.

Definition NX_VfsMakeDir cwd s (path : option str) (mode : Z) : option (Vfs * NX_Error) :=
  with_path cwd s path (fun absPath =>
    '(s, n) ← VfsNodeAcquire s absPath;
    match n with
    | Some n => s ← VfsNodeRelease s n; Some (s, NX_EAGAIN)
    | None =>
        '(s, d) ← VfsLookupDir s absPath;
        match d with
        | None => Some (s, NX_ENOSRCH)
        | Some (dn, name) =>
            ok ← VfsNodeAccess s dn NX_VFS_W_OK;
            if negb ok then s ← VfsNodeRelease s dn; Some (s, NX_EPERM)
            else
              let mode := Z.lor (Z.land mode (Z.lnot S_IFMT)) S_IFDIR in
              '(s, err) ← fs_seq s [(Fs_mkdir name mode, dn, []); (Fs_sync, dn, [])];
              s ← VfsNodeRelease s dn; Some (s, err)
        end
    end).

(** The loop reads entries up to one that is not [.] or [..], or an error; the
    result is [count]. *)
Fixpoint CheckDirEmpty_loop (fuel : nat) s ft (fd : Z) : option (Vfs * option FileTable * Z) :=
  match fuel with
  | O => None
  | S fuel =>
      '(s, ft, dir, err) ← NX_VfsReadDir s ft fd true;
      if negb (is_ok err) then Some (s, ft, 0)
      else if negb (bool_decide (d_name dir = [dot])) && negb (bool_decide (d_name dir = [dot; dot])) then Some (s, ft, 1)
      else CheckDirEmpty_loop fuel s ft fd
  end.

Definition VfsCheckDirEmpty (fuel : nat) cwd s ft (path : str) : option (Vfs * option FileTable * NX_Error) :=
  '(s, ft, fd, err) ← NX_VfsOpenDir cwd s ft (Some path);
  if fd <? 0 then Some (s, ft, err)
  else
    '(s, ft, count) ← CheckDirEmpty_loop fuel s ft fd;
    '(s, ft, _) ← NX_VfsCloseDir s ft fd;
    Some (s, ft, if nz count then NX_EAGAIN else NX_EOK).

Definition VfsNodeBusy s (n : Z) : option bool :=
  nd ← nodes s !! n; Some ((nflags nd =? NX_VFS_NODE_FLAG_ROOT) || (refcnt nd >=? 2)).

Definition NX_VfsRemoveDir (fuel : nat) cwd s ft (path : option str) : option (Vfs * option FileTable * NX_Error) :=
  match path with
  | None => Some (s, ft, NX_EINVAL)
  | Some path =>
      '(absPath, err) ← NX_VfsBuildAbsPath cwd path;
      if negb (is_ok err) then Some (s, ft, err)
      else
        '(s, ft, err) ← VfsCheckDirEmpty fuel cwd s ft absPath;
        if negb (is_ok err) then Some (s, ft, err)
        else
          '(s, n) ← VfsNodeAcquire s absPath;
          match n with
          | None => Some (s, ft, NX_ENORES)
          | Some n =>
              busy ← VfsNodeBusy s n;
              if (busy : bool) then s ← VfsNodeRelease s n; Some (s, ft, NX_EBUSY)
              else
                ok ← VfsNodeAccess s n NX_VFS_W_OK;
                if negb ok then s ← VfsNodeRelease s n; Some (s, ft, NX_EPERM)
                else
                  '(s, d) ← VfsLookupDir s absPath;
                  match d with
                  | None => s ← VfsNodeRelease s n; Some (s, ft, NX_ENOSRCH)
                  | Some (dn, name) =>
                      assert (negb (dn =? n));;
                      '(s, err) ← fs_seq s [(Fs_rmdir name, dn, [n]); (Fs_sync, n, []); (Fs_sync, dn, [])];
                      s ← VfsNodeRelease s n; s ← VfsNodeRelease s dn; Some (s, ft, err)
                  end
          end
  end.

(** ** Names *)

(** [!NX_StrCmpN(src, dst, len) && (dst[len] == '/')] for a shorter [src]. *)
Definition names_inside (src dst : str) : bool :=
  (length src <? length dst) && bool_decide (take (length src) dst = src) &&
  bool_decide (dst !! length src = Some slash).

(** [sn] and [n1] are held; the last part of [NX_VfsRename]. *)
Definition Rename_to s (dst_path : str) (n1 sn : Z) (sname : str) : option (Vfs * NX_Error) :=
  '(s, n2) ← VfsNodeAcquire s dst_path;
  '(s, err) ← match n2 with
              | Some n2 => s ← VfsNodeRelease s n2; Some (s, NX_EBUSY)
              | None =>
                  '(s, d) ← VfsLookupDir s dst_path;
                  match d with
                  | None => Some (s, NX_ENOSRCH)
                  | Some (dn, dname) =>
                      snd ← nodes s !! sn; dnd ← nodes s !! dn;
                      '(s, err) ← (if negb (mount snd =? mount dnd) then Some (s, NX_EFAULT)
                                   else
                                     assert (negb (n1 =? sn));; assert (negb (n1 =? dn));;
                                     fs_seq s ((Fs_rename sname dname, sn, [n1; dn]) :: (Fs_sync, sn, []) ::
                                               (if dn =? sn then [] else [(Fs_sync, dn, [])])));
                      s ← VfsNodeRelease s dn; Some (s, err)
                  end
              end;
  s ← VfsNodeRelease s sn; Some (s, err).

Definition NX_VfsRename cwd s (src dst : str) : option (Vfs * NX_Error) :=
  if bool_decide (take 1024 src = take 1024 dst) || bool_decide (src = [slash]) || names_inside src dst then
    Some (s, NX_EINVAL)
  else
    with_path cwd s (Some src) (fun src_path => with_path cwd s (Some dst) (fun dst_path =>
      '(s, n1) ← VfsNodeAcquire s src_path;
      match n1 with
      | None => Some (s, NX_ENORES)
      | Some n1 =>
          '(s, err) ← (ok ← VfsNodeAccess s n1 NX_VFS_W_OK;
                       if negb ok then Some (s, NX_EPERM)
                       else
                         nd ← nodes s !! n1;
                         if refcnt nd >=? 2 then Some (s, NX_EBUSY)
                         else
                           '(s, d) ← VfsLookupDir s src_path;
                           match d with
                           | None => Some (s, NX_ENOSRCH)
                           | Some (sn, sname) => Rename_to s dst_path n1 sn sname
                           end);
          s ← VfsNodeRelease s n1; Some (s, err)
      end)).

Definition NX_VfsUnlink cwd s (path : option str) : option (Vfs * NX_Error) :=
  with_path cwd s path (fun absPath =>
    '(s, n) ← VfsNodeAcquire s absPath;
    match n with
    | None => Some (s, NX_ENOSRCH)
    | Some n =>
        t ← node_type s n;
        if bool_decide (t = TYPE_DIR) then s ← VfsNodeRelease s n; Some (s, NX_ENORES)
        else
          busy ← VfsNodeBusy s n;
          if (busy : bool) then s ← VfsNodeRelease s n; Some (s, NX_EBUSY)
          else
            ok ← VfsNodeAccess s n NX_VFS_W_OK;
            if negb ok then s ← VfsNodeRelease s n; Some (s, NX_EPERM)
            else
              '(s, d) ← VfsLookupDir s absPath;
              match d with
              | None => s ← VfsNodeRelease s n; Some (s, NX_ENOSRCH)
              | Some (dn, name) =>
                  assert (negb (dn =? n));;
                  '(s, err) ← fs_seq s [(Fs_truncate 0, n, []); (Fs_sync, n, []); (Fs_remove name, dn, [n]); (Fs_sync, dn, [])];
                  s ← VfsNodeRelease s dn; s ← VfsNodeRelease s n; Some (s, err)
              end
    end).

Definition NX_VfsAccess cwd s (path : option str) (mode : Z) : option (Vfs * NX_Error) :=
  with_path cwd s path (fun absPath =>
    '(s, n) ← VfsNodeAcquire s absPath;
    match n with
    | None => Some (s, NX_ENOSRCH)
    | Some n =>
        ok ← VfsNodeAccess s n mode;
        s ← VfsNodeRelease s n; Some (s, if (ok : bool) then NX_EOK else NX_EPERM)
    end).

Definition NX_VfsChmod cwd s (path : option str) (mode : Z) : option (Vfs * NX_Error) :=
  with_path cwd s path (fun absPath =>
    '(s, n) ← VfsNodeAcquire s absPath;
    match n with
    | None => Some (s, NX_ENOSRCH)
    | Some n =>
        '(s, err) ← fs_seq s [(Fs_chmod (Z.land mode S_IRWX), n, []); (Fs_sync, n, [])];
        s ← VfsNodeRelease s n; Some (s, err)
    end).

Definition NX_VfsStat cwd s (path : option str) (st : bool) : option (Vfs * option NX_VfsStatInfo * NX_Error) :=
  match path with
  | None => Some (s, None, NX_EINVAL)
  | Some path =>
      if negb st then Some (s, None, NX_EINVAL)
      else
        '(absPath, err) ← NX_VfsBuildAbsPath cwd path;
        if negb (is_ok err) then Some (s, None, err)
        else
          '(s, n) ← VfsNodeAcquire s absPath;
          match n with
          | None => Some (s, None, NX_ENOSRCH)
          | Some n => '(st, err) ← VfsNodeStat s n; s ← VfsNodeRelease s n; Some (s, Some st, err)
          end
  end.

(** ** Mounts *)
Definition NX_VfsInit (w : W) (heap : list Z) : Vfs := mkVfs [] [] (replicate 256 []) ∅ ∅ heap w.

Definition set_node (nd : NX_VfsNodeType * Z * Z) (n : NX_VfsNode) : NX_VfsNode :=
  let '(t, fl, md) := nd in
  let a := attr n in
  mkNode (Vfs.mount n) (refcnt n) (path n) fl (mkAttr t md (size a) (data a) (ctime a) (atime a) (mtime a)).

Definition set_mode (md : Z) (n : NX_VfsNode) : NX_VfsNode :=
  let a := attr n in
  mkNode (Vfs.mount n) (refcnt n) (path n) (nflags n) (mkAttr (type a) md (size a) (data a) (ctime a) (atime a) (mtime a)).

Definition set_root (r : Z) (m : NX_VfsMount) : NX_VfsMount :=
  mkMount (fs m) (dev m) (mpath m) (mflags m) (mrefcnt m) r (covered m).
Definition set_mflags (fl : Z) (m : NX_VfsMount) : NX_VfsMount :=
  mkMount (fs m) (dev m) (mpath m) fl (mrefcnt m) (root m) (covered m).

Definition free_mount s (m : Z) : Vfs := with_mounts s (mountList s) (delete m (mounts s)).

(** Giving up a mount: root, covered directory and the object go. *)
Definition drop_mount s (m : Z) : option Vfs :=
  mt ← mounts s !! m;
  s ← VfsNodeRelease s (root mt);
  mt ← mounts s !! m;
  s ← (if nz (covered mt) then VfsNodeRelease s (covered mt) else Some s);
  Some (free_mount s m).

(** The covered directory: [None] for the error in the second component. *)
Definition Mount_covered s (absPath : str) : option (Vfs * (Z + NX_Error)) :=
  if bool_decide (absPath = [slash]) then Some (s, inl 0)
  else
    '(s, n) ← VfsNodeAcquire s absPath;
    match n with
    | None => Some (s, inr NX_ENORES)
    | Some n =>
        t ← node_type s n;
        if bool_decide (t = TYPE_DIR) then Some (s, inl n) else s ← VfsNodeRelease s n; Some (s, inr NX_EFAULT)
    end.

(** The mount with its root: calling the file system and joining the list. *)
Definition Mount_join s (m n : Z) (d : option str) (bdev : Z) (absPath : str) : option (Vfs * NX_Error) :=
  mt ← mounts s !! m;
  '(s, r) ← fs_do fs_call s (fs mt) (Fs_mount d (mflags mt)) m [n];
  s ← upd_mount s m (set_mflags (r_flags r));
  if negb (is_ok (r_err r)) then s ← drop_mount s m; Some (s, r_err r)
  else
    s ← (if has (r_flags r) NX_VFS_MOUNT_RO then
           upd_node s n (fun nd => set_mode (Z.land (mode (attr nd)) (Z.lnot 146)) nd)
         else Some s);
    taken ← mapM (fun t => mt ← mounts s !! t;
                          Some (bool_decide (mpath mt = absPath) || (bool_decide (d <> None) && (dev mt =? bdev))))
                 (mountList s);
    if existsb id taken then
      mt ← mounts s !! m;
      '(s, _) ← fs_do fs_call s (fs mt) Fs_unmount m [n];
      s ← drop_mount s m; Some (s, NX_EAGAIN)
    else Some (with_mounts s (m :: mountList s) (mounts s), NX_EOK).

Definition Mount_root s (m n : Z) (d : option str) (bdev : Z) (absPath : str) : option (Vfs * NX_Error) :=
  s ← upd_node s n (set_node (TYPE_DIR, NX_VFS_NODE_FLAG_ROOT, Z.lor S_IFDIR S_IRWX));
  s ← upd_mount s m (set_root n);
  Mount_join s m n d bdev absPath.

Definition NX_VfsMountFileSystem cwd s (d path fsname : option str) (flags : Z) : option (Vfs * NX_Error) :=
  if bool_decide (path = Some []) then Some (s, NX_EINVAL)
  else
    with_path cwd s path (fun absPath =>
      let f := NX_VfsSearchFileSystem s fsname in
      if f =? 0 then Some (s, NX_ENOSRCH)
      else
        let '(s, bdev) := match d with
                          | Some d => let '(w, b) := NX_IoBlockOpen (world s) d in (with_world s w, b)
                          | None => (s, 0)
                          end in
        if bool_decide (d <> None) && (bdev =? 0) then Some (s, NX_ENOSRCH)
        else
          let '(s, m) := NX_MemAlloc s in
          if m =? 0 then Some (s, NX_ENOMEM)
          else if length absPath >=? NX_VFS_MAX_PATH then Some (s, NX_EFAULT)
          else
            '(s, c) ← Mount_covered s absPath;
            match c with
            | inr err => Some (s, err)
            | inl n_covered =>
                let mt := mkMount f bdev absPath (Z.land flags NX_VFS_MOUNT_MASK) 0 0 n_covered in
                let s := with_mounts s (mountList s) (<[m := mt]> (mounts s)) in
                '(s, n) ← VfsNodeGet fs_call s m [slash];
                if n =? 0 then
                  s ← (if nz n_covered then VfsNodeRelease s n_covered else Some s);
                  Some (free_mount s m, NX_EFAULT)
                else Mount_root s m n d bdev absPath
            end).

Fixpoint Mount_find s (l : list Z) (absPath : str) : option (option Z) :=
  match l with
  | [] => Some None
  | m :: l => mt ← mounts s !! m; if bool_decide (absPath = mpath mt) then Some (Some m) else Mount_find s l absPath
  end.

(** [NX_VfsUnmountFileSystem] does not check its path for null. *)
Definition NX_VfsUnmountFileSystem cwd s (path : str) : option (Vfs * NX_Error) :=
  with_path cwd s (Some path) (fun absPath =>
    found ← Mount_find s (mountList s) absPath;
    match found with
    | None => Some (s, NX_ENOSRCH)
    | Some m =>
        mt ← mounts s !! m;
        if mrefcnt mt >? 1 then Some (s, NX_EBUSY)
        else
          let s := with_mounts s (list_del m (mountList s)) (mounts s) in
          '(s, r) ← fs_do fs_call s (fs mt) Fs_msync m [root mt];
          '(s, _) ← fs_do fs_call s (fs mt) Fs_unmount m [root mt];
          s ← drop_mount s m;
          let s := if nz (dev mt) then with_world s (NX_IoBlockClose (NX_IoBlockSync (world s) (dev mt)) (dev mt)) else s in
          Some (s, r_err r)
    end).

Fixpoint VfsSync_loop s (l : list Z) : option Vfs :=
  match l with
  | [] => Some s
  | m :: l => mt ← mounts s !! m; '(s, _) ← fs_do fs_call s (fs mt) Fs_msync m [root mt]; VfsSync_loop s l
  end.

Definition NX_VfsSync s : option (Vfs * NX_Error) := s ← VfsSync_loop s (mountList s); Some (s, NX_EOK).

(** 0 is the null pointer. *)
Definition NX_VfsGetMount s (index : Z) : Z := if index <? 0 then 0 else default 0 (zlookup (mountList s) index).

Definition NX_VfsGetMountCount s : Z := length (mountList s).
End calls.
