(* ===== verification/VfsRefs.v ===== *)
(** The references of the virtual file system: what [VfsNodeAcquire] takes is
    what [VfsNodeRelease] gives back.

    The holders are the acquired files, each a mount and the components of a
    path.  The table has exactly the nodes on the way to a held file, and each
    counts the holders behind it (the root of a mount one more). *)
From S2P Require Import Prelude VfsPath Vfs.

#[local] Coercion Z.of_nat : nat >-> Z.

Abbreviation holders := (list (Z * list str)).

Definition behind (m : Z) (cs : list str) (h : Z * list str) : Prop := h.1 = m /\ cs `prefix_of` h.2.

#[export] Instance behind_dec m cs h : Decision (behind m cs h).
Proof. unfold behind. apply _. Defined.

Definition uses (H : holders) (m : Z) (cs : list str) : Z := length (filter (behind m cs) H).

Lemma uses_cons h H m cs : uses (h :: H) m cs = (if decide (behind m cs h) then 1 else 0) + uses H m cs.
Proof. unfold uses. rewrite filter_cons. destruct (decide (behind m cs h)); cbn [length]; lia. Qed.

Lemma uses_nonneg H m cs : 0 <= uses H m cs.
Proof. unfold uses. lia. Qed.

Lemma uses_length H m cs : uses H m cs <= length H.
Proof. unfold uses. pose proof (length_filter (behind m cs) H). lia. Qed.

Lemma uses_pos H m cs : 0 < uses H m cs <-> exists h, h ∈ H /\ behind m cs h.
Proof.
  unfold uses. split.
  - intros Hp. destruct (filter _ H) as [|h l] eqn:E; [cbn in Hp; lia|].
    assert (Hin : h ∈ filter (behind m cs) H) by (rewrite E; left).
    apply list_elem_of_filter in Hin as [? ?]. by exists h.
  - intros (h & Hh & Hb). assert (Hin : h ∈ filter (behind m cs) H) by (by apply list_elem_of_filter).
    destruct (filter _ H); [by apply elem_of_nil in Hin|cbn; lia].
Qed.

Lemma prefix_snoc (l k : list str) x : l `prefix_of` k ++ [x] -> l = k ++ [x] \/ l `prefix_of` k.
Proof.
  intros [y E]. destruct y as [|z y _] using rev_ind; [left; by rewrite app_nil_r in E|right].
  rewrite app_assoc in E. apply app_inj_tail in E as [-> _]. by exists y.
Qed.

(** Going one component down adds a use of one node. *)
Lemma uses_down H m cs c m' cs' :
  uses ((m, cs ++ [c]) :: H) m' cs' = uses ((m, cs) :: H) m' cs' + (if decide ((m', cs') = (m, cs ++ [c])) then 1 else 0).
Proof.
  rewrite !uses_cons. unfold behind. cbn [fst snd].
  destruct (decide (m = m')) as [<-|Hm]; [|rewrite !decide_False by naive_solver; lia].
  destruct (decide (cs' = cs ++ [c])) as [->|Hne].
  - rewrite (decide_True (P := (m, cs ++ [c]) = _)) by done.
    rewrite decide_True by (split; [done|by exists []; rewrite app_nil_r]).
    rewrite decide_False; [lia|]. intros [_ [x E]]. apply (f_equal length) in E. rewrite !length_app in E. cbn in E. lia.
  - rewrite (decide_False (P := (m, cs') = _)) by congruence.
    destruct (decide (cs' `prefix_of` cs)) as [Hp|Hp].
    + rewrite !decide_True; [lia|done|]. split; [done|]. by apply prefix_app_r.
    + rewrite !decide_False; [lia|tauto|]. by intros [_ [?|?]%prefix_snoc].
Qed.

Lemma uses_root H m m' cs' :
  uses ((m, []) :: H) m' cs' = uses H m' cs' + (if decide ((m', cs') = (m, [])) then 1 else 0).
Proof.
  rewrite uses_cons. unfold behind. cbn [fst snd].
  destruct (decide ((m', cs') = (m, []))) as [[= -> ->]|Hne].
  - rewrite decide_True; [lia|]. split; [done|apply prefix_nil].
  - rewrite decide_False; [lia|]. intros [-> Hp%prefix_nil_inv]. congruence.
Qed.

(** ** The invariant *)

(** What the table says of a node: mount, count, path. *)
Definition shape (nd : NX_VfsNode) : Z * Z * str := (mount nd, refcnt nd, path nd).

Section refs.
Context {W : Type}.

(** A mount on its way into the table or out of it: it has no nodes. *)
Variable loose : option Z.

Implicit Types (s : Vfs (W := W)) (H : holders) (idx : gmap (Z * list str) Z).

Definition shapes s : gmap Z (Z * Z * str) := shape <$> nodes s.

(** The nodes of a mount. *)
Definition of_mount (m : Z) (e : Z * (Z * Z * str)) : Prop := e.2.1.1 = m.

#[local] Instance of_mount_dec m e : Decision (of_mount m e).
Proof. unfold of_mount. apply _. Defined.

Definition nodes_of (sh : gmap Z (Z * Z * str)) (m : Z) : Z := base.size (filter (of_mount m) sh).

(** [idx] is the address of a node by mount and components. *)
Record vfs_ok s H idx : Prop := {
  vo_node m cs n : idx !! (m, cs) = Some n ->
    n <> 0 /\ Forall proper cs /\ length (render cs) < NX_VFS_MAX_PATH /\ is_Some (mounts s !! m) /\
    shapes s !! n = Some (m, uses H m cs + (if decide (cs = []) then 1 else 0), render cs) /\
    (cs <> [] -> 0 < uses H m cs);
  vo_idx n sh : shapes s !! n = Some sh -> exists m cs, idx !! (m, cs) = Some n;
  vo_root m mt : Some m <> loose -> mounts s !! m = Some mt -> idx !! (m, []) = Some (root mt);
  vo_used m cs cs' : (m, cs) ∈ H -> cs' `prefix_of` cs -> is_Some (idx !! (m, cs'));
  vo_length : length (nodeList s) = 256%nat;
  vo_bucket h l : zlookup (nodeList s) h = Some l ->
    NoDup l /\ forall n, n ∈ l <-> exists m r p, shapes s !! n = Some (m, r, p) /\ VfsNodeHash m p = h;
  vo_bound : length H < 2 ^ 62;
  vo_loose m cs : loose = Some m -> idx !! (m, cs) = None;
  vo_count m mt : Some m <> loose -> mounts s !! m = Some mt -> mrefcnt mt = nodes_of (shapes s) m;
  vo_nodes : base.size (shapes s) + length (blocks s) < 2 ^ 62
}.

Lemma not_loose s H idx m cs n : vfs_ok s H idx -> idx !! (m, cs) = Some n -> Some m <> loose.
Proof. intros OK Hi E. rewrite (vo_loose _ _ _ OK m cs) in Hi; [done|by symmetry]. Qed.

Lemma render_inj cs cs' : Forall proper cs -> Forall proper cs' -> render cs = render cs' -> cs = cs'.
Proof.
  intros Hc Hc' E. rewrite <- (resolve_render cs), <- (resolve_render cs') by done. by rewrite E.
Qed.

Lemma idx_inj s H idx m cs m' cs' n :
  vfs_ok s H idx -> idx !! (m, cs) = Some n -> idx !! (m', cs') = Some n -> (m, cs) = (m', cs').
Proof.
  intros OK H1 H2. destruct (vo_node _ _ _ OK _ _ _ H1) as (_ & Hp & _ & _ & E & _).
  destruct (vo_node _ _ _ OK _ _ _ H2) as (_ & Hp' & _ & _ & E' & _). rewrite E in E'. injection E' as -> _ Hr.
  f_equal. by apply render_inj.
Qed.

(** A step that changes attributes and the world only. *)
Definition same_refs s s' : Prop :=
  shapes s' = shapes s /\ mounts s' = mounts s /\ nodeList s' = nodeList s /\ mountList s' = mountList s /\
  blocks s' = blocks s /\ fileSystems s' = fileSystems s.

Lemma same_refs_ok s s' H idx : same_refs s s' -> vfs_ok s H idx -> vfs_ok s' H idx.
Proof.
  intros (E1 & E2 & E3 & _ & E5 & _) [].
  constructor; rewrite ?E1, ?E2, ?E3, ?E5; done.
Qed.

Lemma same_refs_refl s : same_refs s s.
Proof. done. Qed.

Lemma same_refs_trans s1 s2 s3 : same_refs s1 s2 -> same_refs s2 s3 -> same_refs s1 s3.
Proof. intros (?&?&?&?&?&?) (?&?&?&?&?&?). split_and!; congruence. Qed.

Lemma upd_node_shape s n f nd :
  nodes s !! n = Some nd -> exists s', upd_node s n f = Some s' /\ nodes s' !! n = Some (f nd) /\
    shapes s' = <[n := shape (f nd)]> (shapes s) /\ mounts s' = mounts s /\ nodeList s' = nodeList s /\
    mountList s' = mountList s /\ blocks s' = blocks s /\ fileSystems s' = fileSystems s.
Proof.
  intros Hn. unfold upd_node. rewrite Hn, Some_bind. eexists. split; [reflexivity|]. cbn.
  rewrite lookup_insert_eq. split_and!; try done. unfold shapes. cbn. by rewrite fmap_insert.
Qed.

Lemma shapes_Some s n m r p : shapes s !! n = Some (m, r, p) -> exists nd, nodes s !! n = Some nd /\
  mount nd = m /\ refcnt nd = r /\ path nd = p.
Proof.
  unfold shapes. rewrite lookup_fmap. destruct (nodes s !! n) as [nd|]; [|done].
  cbn. intros [= <- <- <-]. by exists nd.
Qed.

(** ** Counting nodes *)
Lemma nodes_of_new sh n x m : sh !! n = None ->
  nodes_of (<[n := x]> sh) m = nodes_of sh m + (if decide (x.1.1 = m) then 1 else 0).
Proof.
  intros Hn. unfold nodes_of. rewrite map_filter_insert.
  assert (Hf : filter (of_mount m) sh !! n = None) by (apply map_lookup_filter_None; by left).
  destruct (decide (of_mount m (n, x))) as [Hx|Hx]; unfold of_mount in Hx; cbn in Hx.
  - rewrite decide_True by done. rewrite map_size_insert_None by done. lia.
  - rewrite decide_False by done. rewrite delete_id by done. lia.
Qed.

Lemma nodes_of_gone sh n x m : sh !! n = Some x ->
  nodes_of (delete n sh) m = nodes_of sh m - (if decide (x.1.1 = m) then 1 else 0).
Proof.
  intros Hn. rewrite <- (insert_delete_id sh n x) at 2 by done.
  rewrite nodes_of_new by apply lookup_delete_eq. lia.
Qed.

Lemma nodes_of_same sh n x y m : sh !! n = Some x -> y.1.1 = x.1.1 -> nodes_of (<[n := y]> sh) m = nodes_of sh m.
Proof.
  intros Hn E. rewrite <- (insert_delete_id sh n x) at 2 by done. rewrite <- insert_delete_eq.
  rewrite !nodes_of_new by apply lookup_delete_eq. by rewrite E.
Qed.

Lemma size_same (sh : gmap Z (Z * Z * str)) n x y : sh !! n = Some x -> base.size (<[n := y]> sh) = base.size sh.
Proof. intros Hn. by apply map_size_insert_Some; eauto. Qed.

Lemma nodes_of_le sh m : nodes_of sh m <= base.size sh.
Proof. unfold nodes_of. apply inj_le, map_size_filter. Qed.

Lemma nodes_of_two sh m n n' x x' :
  sh !! n = Some x -> sh !! n' = Some x' -> n <> n' -> x.1.1 = m -> x'.1.1 = m -> 2 <= nodes_of sh m.
Proof.
  intros Hx Hx' Hne E E'. pose proof (nodes_of_gone sh n x m Hx) as H1. rewrite decide_True in H1 by done.
  assert (Hd : delete n sh !! n' = Some x') by (by rewrite lookup_delete_ne).
  pose proof (nodes_of_gone (delete n sh) n' x' m Hd) as H2. rewrite decide_True in H2 by done.
  unfold nodes_of in *. lia.
Qed.

Lemma nodes_of_none sh m : (forall n x, sh !! n = Some x -> x.1.1 <> m) -> nodes_of sh m = 0.
Proof.
  intros Hno. unfold nodes_of. assert (filter (of_mount m) sh = ∅) as ->; [|done].
  apply map_eq. intros n. rewrite lookup_empty. apply map_lookup_filter_None. right. intros x Hx Hm. by apply (Hno n x).
Qed.

Lemma nodes_of_nonneg sh m : 0 <= nodes_of sh m.
Proof. unfold nodes_of. lia. Qed.

Lemma hash_range m p : 0 <= VfsNodeHash m p < 256.
Proof.
  unfold VfsNodeHash, NX_VFS_NODE_HASH_SIZE. change (256 - 1) with (Z.ones 8). rewrite Z.land_ones by lia.
  apply Z.mod_pos_bound. lia.
Qed.

(** ** Changing a count *)
Lemma vfs_ok_recount s s' H H' idx m cs n r' :
  vfs_ok s H idx -> idx !! (m, cs) = Some n ->
  shapes s' = <[n := (m, r', render cs)]> (shapes s) -> mounts s' = mounts s -> nodeList s' = nodeList s ->
  blocks s' = blocks s -> r' = uses H' m cs + (if decide (cs = []) then 1 else 0) -> (cs <> [] -> 0 < uses H' m cs) ->
  (forall m' cs', (m', cs') <> (m, cs) -> uses H' m' cs' = uses H m' cs') ->
  (forall m1 cs1 cs', (m1, cs1) ∈ H' -> cs' `prefix_of` cs1 -> is_Some (idx !! (m1, cs'))) ->
  length H' < 2 ^ 62 -> vfs_ok s' H' idx.
Proof.
  intros OK Hi Es Em En Eb Hr Hpos Hother Hused Hlen. pose proof (vo_node _ _ _ OK _ _ _ Hi) as (_ & _ & _ & _ & Hsh & _).
  constructor; rewrite ?Em, ?En, ?Es, ?Eb; try apply OK; try done.
  - intros m' cs' n' Hi'. destruct (vo_node _ _ _ OK _ _ _ Hi') as (H0 & Hp & Hl & Hm & Hsh' & Hpos').
    split_and!; try done.
    + destruct (decide ((m', cs') = (m, cs))) as [[= -> ->]|Hne].
      * rewrite Hi in Hi'. injection Hi' as <-. by rewrite lookup_insert_eq, Hr.
      * rewrite lookup_insert_ne; [by rewrite Hother|]. intros ->. by destruct (Hne (idx_inj _ _ _ _ _ _ _ _ OK Hi' Hi)).
    + intros Hcs. destruct (decide ((m', cs') = (m, cs))) as [[= -> ->]|Hne]; [by apply Hpos|].
      rewrite Hother by done. by apply Hpos'.
  - intros n' sh'. destruct (decide (n' = n)) as [->|Hne]; [by eauto|]. rewrite lookup_insert_ne by done. apply OK.
  - intros h l Hb. destruct (vo_bucket _ _ _ OK h l Hb) as [Hnd Hin]. split; [done|]. intros n'. rewrite Hin.
    destruct (decide (n' = n)) as [->|Hne].
    + rewrite lookup_insert_eq, Hsh. split; intros (m1 & r1 & p1 & [= <- <- <-] & Hh); eauto.
    + by rewrite lookup_insert_ne.
  - intros m' mt HL Hmt. rewrite (nodes_of_same _ n (m, uses H m cs + (if decide (cs = []) then 1 else 0), render cs)) by done.
    by apply OK.
  - rewrite (size_same _ n (m, uses H m cs + (if decide (cs = []) then 1 else 0), render cs)) by done. apply OK.
Qed.

Lemma used_down H idx s m cs c n :
  vfs_ok s ((m, cs) :: H) idx -> idx !! (m, cs ++ [c]) = Some n ->
  forall m1 cs1 cs', (m1, cs1) ∈ (m, cs ++ [c]) :: H -> cs' `prefix_of` cs1 -> is_Some (idx !! (m1, cs')).
Proof.
  intros OK Hi m1 cs1 cs' [[= -> ->]|Hin]%elem_of_cons Hp.
  - destruct (prefix_snoc cs' cs c Hp) as [->|Hp']; [by eauto|].
    apply (vo_used _ _ _ OK m cs); [left|done].
  - apply (vo_used _ _ _ OK m1 cs1); [by right|done].
Qed.

(** ** Calls of a file system change no reference *)
Definition mshape (mt : NX_VfsMount) : Z * Z * str * Z * Z * Z :=
  (fs mt, dev mt, mpath mt, mflags mt, root mt, covered mt).

(** Everything but nodes, buckets, counts and the world. *)
Definition same_mounts s s' : Prop :=
  mshape <$> mounts s' = mshape <$> mounts s /\ mountList s' = mountList s /\ fileSystems s' = fileSystems s.

Lemma same_mounts_refl s : same_mounts s s.
Proof. done. Qed.

Lemma same_mounts_trans s1 s2 s3 : same_mounts s1 s2 -> same_mounts s2 s3 -> same_mounts s1 s3.
Proof. intros (?&?&?) (?&?&?). split_and!; congruence. Qed.

Lemma same_refs_mounts s s' : same_refs s s' -> same_mounts s s'.
Proof. intros (_ & E & _ & ? & _ & ?). split_and!; [by rewrite E|done|done]. Qed.

Lemma same_mounts_lookup s s' m mt : same_mounts s s' -> mounts s !! m = Some mt ->
  exists mt', mounts s' !! m = Some mt' /\ mshape mt' = mshape mt.
Proof.
  intros (E & _) Hm. assert (Hx : (mshape <$> mounts s') !! m = Some (mshape mt)) by (by rewrite E, lookup_fmap, Hm).
  rewrite lookup_fmap in Hx. destruct (mounts s' !! m) as [mt'|]; [|done]. exists mt'. split; [done|]. cbn in Hx. congruence.
Qed.

Lemma mount_path_same s s' m : same_mounts s s' -> mount_path s' m = mount_path s m.
Proof.
  intros Hsm. unfold mount_path. destruct (mounts s !! m) as [mt|] eqn:E.
  - destruct (same_mounts_lookup s s' m mt Hsm E) as (mt' & -> & Hs). unfold mshape in Hs. congruence.
  - destruct Hsm as (Em & _). assert (Hx : (mshape <$> mounts s') !! m = None) by (by rewrite Em, lookup_fmap, E).
    rewrite lookup_fmap in Hx. by destruct (mounts s' !! m).
Qed.

Lemma store_attrs_same ns : forall s l, (forall n, n ∈ ns -> is_Some (nodes s !! n)) ->
  exists s', store_attrs s ns l = Some s' /\ same_refs s s'.
Proof.
  induction ns as [|n ns IH]; intros s l Hns; [by exists s|]. destruct l as [|a l]; [by exists s|]. cbn [store_attrs].
  destruct (Hns n ltac:(left)) as [nd Hn].
  destruct (upd_node_shape s n (set_attr a) nd Hn) as (s1 & -> & Hn1 & Es & Em & En & Eml & Eb & Ef). rewrite Some_bind.
  assert (Hs1 : same_refs s s1).
  { split_and!; try done. rewrite Es. apply insert_id. unfold shapes. rewrite lookup_fmap, Hn. by destruct nd. }
  destruct (IH s1 l) as (s2 & -> & H2).
  - intros n' Hn'. destruct (Hns n' ltac:(by right)) as [nd' Hnd'].
    assert (Hx : shapes s1 !! n' = Some (shape nd')) by (rewrite (proj1 Hs1); unfold shapes; by rewrite lookup_fmap, Hnd').
    unfold shapes in Hx. rewrite lookup_fmap in Hx. by destruct (nodes s1 !! n').
  - exists s2. split; [done|]. by eapply same_refs_trans.
Qed.

Section calls.
Variable fs_call : Z -> FsOp -> Z -> W -> list NodeAttr -> W * list NodeAttr * FsResult.

Lemma fs_do_same s f op m ns : (forall n, n ∈ ns -> is_Some (nodes s !! n)) ->
  exists s' r, fs_do fs_call s f op m ns = Some (s', r) /\ same_refs s s' /\
    exists w l, r = (fs_call f op m w l).2.
Proof.
  intros Hns. unfold fs_do, fs_nodes.
  assert (Hl : exists l, mapM (fun n => attr <$> nodes s !! n) ns = Some l).
  { apply mapM_is_Some_2, Forall_forall. intros n Hn. destruct (Hns n Hn) as [nd E]. cbn. rewrite E. by eexists. }
  destruct Hl as [l ->]. rewrite Some_bind.
  destruct (fs_call f op m (world s) l) as [[w l'] r] eqn:E.
  destruct (store_attrs_same ns (with_world s w) l' Hns) as (s' & -> & Hs'). rewrite Some_bind.
  exists s', r. split; [done|]. split; [exact Hs'|]. exists (world s), l. by rewrite E.
Qed.

Lemma fs_on_same s op n ns : (forall n', n' ∈ n :: ns -> is_Some (nodes s !! n')) ->
  (forall nd, nodes s !! n = Some nd -> is_Some (mounts s !! mount nd)) ->
  exists s' r, fs_on fs_call s op n ns = Some (s', r) /\ same_refs s s'.
Proof.
  intros Hns Hm. unfold fs_on. destruct (Hns n ltac:(left)) as [nd Hn]. rewrite Hn, Some_bind.
  destruct (Hm nd Hn) as [mt ->]. rewrite Some_bind.
  destruct (fs_do_same s (fs mt) op (mount nd) (n :: ns) Hns) as (s' & r & -> & Hs & _). by exists s', r.
Qed.

(** ** References *)
Lemma node_of_idx s H idx m cs n : vfs_ok s H idx -> idx !! (m, cs) = Some n ->
  exists nd, nodes s !! n = Some nd /\ mount nd = m /\ path nd = render cs /\
    refcnt nd = uses H m cs + (if decide (cs = []) then 1 else 0).
Proof.
  intros OK Hi. destruct (vo_node _ _ _ OK _ _ _ Hi) as (_ & _ & _ & _ & Hsh & _).
  apply shapes_Some in Hsh as (nd & ? & ? & ? & ?). by exists nd.
Qed.

(** One reference more on a node one component down. *)
Lemma increase_child s H idx m cs c n :
  vfs_ok s ((m, cs) :: H) idx -> idx !! (m, cs ++ [c]) = Some n ->
  exists s', VfsNodeIncreaseRef s n = Some s' /\ vfs_ok s' ((m, cs ++ [c]) :: H) idx /\ same_mounts s s' /\
    blocks s' = blocks s.
Proof.
  intros OK Hi. destruct (node_of_idx _ _ _ _ _ _ OK Hi) as (nd & Hn & Hm & Hp & Hr).
  rewrite decide_False in Hr by (by intros [_ E]%app_nil). pose proof (vo_bound _ _ _ OK) as Hb. cbn [length] in Hb.
  pose proof (uses_length ((m, cs) :: H) m (cs ++ [c])) as Hu. pose proof (uses_nonneg ((m, cs) :: H) m (cs ++ [c])).
  cbn [length] in Hu.
  destruct (upd_node_shape s n (fun nd => set_refcnt (i64 (refcnt nd + 1)) nd) nd Hn)
    as (s' & Hrun & _ & Es & Em & En & Eml & Eb & Ef).
  exists s'. split; [exact Hrun|]. split; [|split; [split_and!; [by rewrite Em|done|done]|done]].
  assert (Es' : shapes s' = <[n := (m, uses ((m, cs ++ [c]) :: H) m (cs ++ [c]), render (cs ++ [c]))]> (shapes s)).
  { rewrite Es. unfold shape, set_refcnt. cbn. rewrite Hm, Hp, Hr, i64_small by lia.
    rewrite uses_down, decide_True by done. do 3 f_equal. lia. }
  eapply vfs_ok_recount; [exact OK|exact Hi|exact Es'|done|done|done| | | | |].
  - rewrite decide_False by (by intros [_ E]%app_nil). lia.
  - intros _. rewrite uses_down, decide_True by done. lia.
  - intros m' cs' Hne. rewrite uses_down, decide_False by done. lia.
  - by eapply used_down.
  - cbn [length]. lia.
Qed.

(** One reference more on the root of a mount. *)
Lemma increase_root s H idx m n :
  vfs_ok s H idx -> idx !! (m, []) = Some n -> length H + 1 < 2 ^ 62 ->
  exists s', VfsNodeIncreaseRef s n = Some s' /\ vfs_ok s' ((m, []) :: H) idx /\ same_mounts s s' /\ blocks s' = blocks s.
Proof.
  intros OK Hi Hb. destruct (node_of_idx _ _ _ _ _ _ OK Hi) as (nd & Hn & Hm & Hp & Hr). rewrite decide_True in Hr by done.
  pose proof (uses_length H m []) as Hu. pose proof (uses_nonneg H m []).
  destruct (upd_node_shape s n (fun nd => set_refcnt (i64 (refcnt nd + 1)) nd) nd Hn)
    as (s' & Hrun & _ & Es & Em & En & Eml & Eb & Ef).
  exists s'. split; [exact Hrun|]. split; [|split; [split_and!; [by rewrite Em|done|done]|done]].
  assert (Es' : shapes s' = <[n := (m, uses ((m, []) :: H) m [] + 1, render [])]> (shapes s)).
  { rewrite Es. unfold shape, set_refcnt. cbn. rewrite Hm, Hp, Hr, i64_small by lia.
    rewrite uses_root, decide_True by done. do 3 f_equal. }
  eapply vfs_ok_recount; [exact OK|exact Hi|exact Es'|done|done|done| | | | |].
  - by rewrite decide_True.
  - done.
  - intros m' cs' Hne. rewrite uses_root, decide_False by done. lia.
  - intros m1 cs1 cs' [[= -> ->]|Hin]%elem_of_cons Hpre.
    + apply prefix_nil_inv in Hpre as ->. by eexists.
    + by eapply vo_used.
  - cbn [length]. lia.
Qed.

Lemma put_root s H idx m n :
  vfs_ok s ((m, []) :: H) idx -> idx !! (m, []) = Some n ->
  exists s', VfsNodePut fs_call s n = Some s' /\ vfs_ok s' H idx /\ same_mounts s s' /\ blocks s' = blocks s.
Proof.
  intros OK Hi. destruct (node_of_idx _ _ _ _ _ _ OK Hi) as (nd & Hn & Hm & Hp & Hr). rewrite decide_True in Hr by done.
  rewrite uses_root, decide_True in Hr by done.
  pose proof (vo_bound _ _ _ OK) as Hb. cbn [length] in Hb.
  pose proof (uses_length H m []) as Hu. pose proof (uses_nonneg H m []).
  destruct (upd_node_shape s n (fun nd => set_refcnt (i64 (refcnt nd - 1)) nd) nd Hn)
    as (s' & Hrun & Hn' & Es & Em & En & Eml & Eb & Ef).
  assert (Hr' : i64 (refcnt nd - 1) = uses H m [] + 1) by (rewrite i64_small; lia).
  exists s'. split.
  { unfold VfsNodePut. rewrite Hrun, Some_bind, Hn', Some_bind. cbn [refcnt set_refcnt]. rewrite Hr'. unfold nz.
    by rewrite (proj2 (Z.eqb_neq _ 0)) by lia. }
  split; [|split; [split_and!; [by rewrite Em|done|done]|done]].
  assert (Es' : shapes s' = <[n := (m, uses H m [] + 1, render [])]> (shapes s)).
  { rewrite Es. unfold shape, set_refcnt. cbn. by rewrite Hm, Hp, Hr'. }
  eapply vfs_ok_recount; [exact OK|exact Hi|exact Es'|done|done|done| | | | |].
  - by rewrite decide_True.
  - done.
  - intros m' cs' Hne. rewrite uses_root, decide_False by done. lia.
  - intros m1 cs1 cs' Hin Hpre. eapply vo_used; [exact OK|by right|done].
  - lia.
Qed.

(** The last holder of a node gives it back: the node leaves the table. *)
Lemma vfs_ok_remove s s' H idx m cs c n bucket mt :
  vfs_ok s ((m, cs ++ [c]) :: H) idx -> idx !! (m, cs ++ [c]) = Some n -> uses ((m, cs) :: H) m (cs ++ [c]) = 0 ->
  zlookup (nodeList s) (VfsNodeHash m (render (cs ++ [c]))) = Some bucket -> mounts s !! m = Some mt ->
  shapes s' = delete n (shapes s) ->
  nodeList s' = zinsert (nodeList s) (VfsNodeHash m (render (cs ++ [c]))) (list_del n bucket) ->
  mounts s' = <[m := set_mrefcnt (i64 (mrefcnt mt - 1)) mt]> (mounts s) -> blocks s' = blocks s ->
  vfs_ok s' ((m, cs) :: H) (delete (m, cs ++ [c]) idx).
Proof.
  intros OK Hi Hu Hbk Hmt Es En Em Eb.
  destruct (vo_node _ _ _ OK _ _ _ Hi) as (_ & _ & _ & _ & Hsh & _). set (k := cs ++ [c]) in *.
  assert (Hgone : forall m1 k1 n1, (delete (m, k) idx) !! (m1, k1) = Some n1 -> n1 <> n /\ idx !! (m1, k1) = Some n1 /\
      (m1, k1) <> (m, k)).
  { intros m1 k1 n1 (Hne & Hi1)%lookup_delete_Some. split; [|by split; congruence]. intros ->. apply Hne.
    by rewrite (idx_inj _ _ _ _ _ _ _ _ OK Hi Hi1). }
  pose proof (vo_nodes _ _ _ OK) as Hnodes. pose proof (vo_count _ _ _ OK m mt (not_loose _ _ _ _ _ _ OK Hi) Hmt) as Hcnt.
  pose proof (nodes_of_gone _ _ _ m Hsh) as Hg. cbn [fst] in Hg. rewrite decide_True in Hg by done.
  pose proof (nodes_of_le (shapes s) m) as Hle. pose proof (nodes_of_nonneg (delete n (shapes s)) m).
  destruct (vo_bucket _ _ _ OK _ _ Hbk) as [Hbnd Hbin].
  assert (Huses : forall m' cs', (m', cs') <> (m, k) -> uses ((m, cs) :: H) m' cs' = uses ((m, k) :: H) m' cs').
  { intros m' cs' Hne. unfold k. rewrite (uses_down H m cs c), decide_False by done. lia. }
  constructor; rewrite ?Es, ?En, ?Em, ?Eb.
  - intros m1 k1 n1 (Hne & Hi1 & Hk)%Hgone. destruct (vo_node _ _ _ OK _ _ _ Hi1) as (? & ? & ? & Hmm & Hs1 & Hpos).
    split_and!; try done.
    + destruct (decide (m1 = m)) as [->|]; [rewrite lookup_insert_eq; by eexists|by rewrite lookup_insert_ne].
    + rewrite lookup_delete_ne by done. by rewrite Huses.
    + intros Hk1. rewrite Huses by done. by apply Hpos.
  - intros n1 sh (Hne & Hs1)%lookup_delete_Some. destruct (vo_idx _ _ _ OK _ _ Hs1) as (m1 & k1 & Hi1).
    exists m1, k1. rewrite lookup_delete_ne; [done|]. intros [= -> ->]. congruence.
  - intros m1 mt1 HL Hm1. rewrite lookup_delete_ne by (unfold k; intros [= _ E]; by apply app_nil in E as [_ ?]).
    destruct (decide (m1 = m)) as [->|]; [|rewrite lookup_insert_ne in Hm1 by done; by apply OK].
    rewrite lookup_insert_eq in Hm1. injection Hm1 as <-. cbn. by apply OK.
  - intros m1 cs1 cs' Hin Hpre. rewrite lookup_delete_ne.
    + apply elem_of_cons in Hin as [[= -> ->]|Hin]; [|eapply vo_used; [exact OK|by right|done]].
      eapply vo_used; [exact OK|left|]. by apply prefix_app_r.
    + intros [= <- <-]. assert (0 < uses ((m, cs) :: H) m k); [|lia]. apply uses_pos. exists (m, cs1). done.
  - rewrite length_zinsert. apply OK.
  - intros h l Hl. pose proof (hash_range m (render k)) as Hhr. pose proof (vo_length _ _ _ OK) as Hlen.
    pose proof (proj1 (zlookup_Some _ _ _) Hl) as [Hh0 _]. rewrite zlookup_zinsert in Hl by lia.
    case_decide as Hh.
    + injection Hl as <-. split; [by apply NoDup_list_del|]. intros n1. rewrite elem_of_list_del, Hbin.
      subst h. split.
      * intros (Hne & m1 & r & p & Hs1 & Hhash). exists m1, r, p. by rewrite lookup_delete_ne.
      * intros (m1 & r & p & (Hne & Hs1)%lookup_delete_Some & Hhash). split; [done|]. eauto.
    + destruct (vo_bucket _ _ _ OK h l Hl) as [Hnd Hin]. split; [done|]. intros n1. rewrite Hin.
      destruct (decide (n1 = n)) as [->|Hne]; [|by rewrite lookup_delete_ne].
      split; intros (m1 & r & p & Hs1 & Hhash).
      * rewrite Hsh in Hs1. injection Hs1 as <- <- <-. by destruct Hh.
      * by rewrite lookup_delete_eq in Hs1.
  - apply (vo_bound _ _ _ OK).
  - intros m1 k1 E. apply lookup_delete_None. right. by apply OK.
  - intros m1 mt1 HL Hm1. rewrite (nodes_of_gone _ _ _ m1 Hsh). cbn [fst].
    destruct (decide (m1 = m)) as [->|Hne].
    + rewrite lookup_insert_eq in Hm1. injection Hm1 as <-. cbn [mrefcnt set_mrefcnt].
      rewrite decide_True by done. rewrite i64_small; lia.
    + rewrite lookup_insert_ne in Hm1 by done. rewrite decide_False by done. rewrite (vo_count _ _ _ OK m1 mt1 HL Hm1). lia.
  - rewrite map_size_delete, Hsh. lia.
Qed.

(** The bucket of a node. *)
Lemma bucket_of s m p : length (nodeList s) = 256%nat -> exists l, zlookup (nodeList s) (VfsNodeHash m p) = Some l.
Proof.
  intros Hl. pose proof (hash_range m p). destruct (zlookup (nodeList s) (VfsNodeHash m p)) as [l|] eqn:E; [by exists l|].
  unfold zlookup in E. rewrite (proj2 (Z.leb_le 0 _)) in E by lia. apply lookup_ge_None in E. lia.
Qed.

Lemma same_mounts_count s s' m mt r :
  mounts s !! m = Some mt -> mounts s' = <[m := set_mrefcnt r mt]> (mounts s) -> mountList s' = mountList s ->
  fileSystems s' = fileSystems s -> same_mounts s s'.
Proof.
  intros Hmt Em El Ef. split_and!; [|done..]. rewrite Em, fmap_insert. apply insert_id. by rewrite lookup_fmap, Hmt.
Qed.

(** The node of the last reference leaves the table. *)
Lemma VfsNodePut_last s n nd mt :
  nodes s !! n = Some nd -> refcnt nd = 1 -> length (nodeList s) = 256%nat -> mounts s !! mount nd = Some mt ->
  exists s' bucket, VfsNodePut fs_call s n = Some s' /\
    zlookup (nodeList s) (VfsNodeHash (mount nd) (path nd)) = Some bucket /\
    shapes s' = delete n (shapes s) /\
    nodeList s' = zinsert (nodeList s) (VfsNodeHash (mount nd) (path nd)) (list_del n bucket) /\
    mounts s' = <[mount nd := set_mrefcnt (i64 (mrefcnt mt - 1)) mt]> (mounts s) /\
    mountList s' = mountList s /\ fileSystems s' = fileSystems s /\ blocks s' = blocks s.
Proof.
  intros Hn Hr Hl Hmt. destruct (bucket_of s (mount nd) (path nd) Hl) as [bucket Hbk].
  destruct (upd_node_shape s n (fun nd => set_refcnt (i64 (refcnt nd - 1)) nd) nd Hn)
    as (s1 & Hrun & Hn1 & Es & Em & En & Eml & Eb & Ef).
  unfold VfsNodePut. rewrite Hrun, Some_bind, Hn1, Some_bind. cbn [refcnt set_refcnt mount path]. rewrite Hr.
  change (nz (i64 (1 - 1))) with false. cbv iota. rewrite En, Hbk, Some_bind. set (s2 := with_nodes s1 _ _).
  destruct (fs_on_same s2 Fs_vput n []) as (s3 & r & -> & (H3s & H3m & H3n & H3l & H3b & H3f)).
  { intros n' ->%list_elem_of_singleton. by eexists. }
  { intros nd' Hnd'. change (nodes s2) with (nodes s1) in Hnd'. rewrite Hn1 in Hnd'. injection Hnd' as <-. cbn.
    rewrite Em. by eexists. }
  rewrite Some_bind. assert (Hmt3 : mounts s3 !! mount nd = Some mt) by (rewrite H3m; subst s2; cbn; by rewrite Em).
  unfold upd_mount. rewrite Hmt3, !Some_bind. eexists _, bucket. split; [reflexivity|]. subst s2. cbn.
  split; [done|]. split_and!; [|by rewrite H3n|by rewrite H3m; cbn; rewrite Em|by rewrite H3l|by rewrite H3f|by rewrite H3b].
  unfold shapes in *. cbn. rewrite fmap_delete, H3s. cbn. rewrite Es. by rewrite delete_insert_eq.
Qed.

Lemma put_child s H idx m cs c n :
  vfs_ok s ((m, cs ++ [c]) :: H) idx -> idx !! (m, cs ++ [c]) = Some n ->
  exists s' idx', VfsNodePut fs_call s n = Some s' /\ vfs_ok s' ((m, cs) :: H) idx' /\ same_mounts s s' /\
    blocks s' = blocks s /\ idx' ⊆ idx /\ forall k, k <> (m, cs ++ [c]) -> idx' !! k = idx !! k.
Proof.
  intros OK Hi. destruct (node_of_idx _ _ _ _ _ _ OK Hi) as (nd & Hn & Hm & Hp & Hr).
  rewrite decide_False in Hr by (by intros [_ E]%app_nil). pose proof (vo_bound _ _ _ OK) as Hb. cbn [length] in Hb.
  pose proof (uses_length ((m, cs) :: H) m (cs ++ [c])) as Hu. pose proof (uses_nonneg ((m, cs) :: H) m (cs ++ [c])).
  cbn [length] in Hu. rewrite uses_down, decide_True in Hr by done.
  destruct (Z.eq_dec (uses ((m, cs) :: H) m (cs ++ [c])) 0) as [Hz|Hnz].
  - destruct (vo_node _ _ _ OK _ _ _ Hi) as (_ & _ & _ & [mt Hmt] & _).
    destruct (VfsNodePut_last s n nd mt Hn) as (s' & bucket & -> & Hbk & Es & En & Em & Eml & Ef & Eb);
      [lia|apply OK|by rewrite Hm|]. rewrite Hm, Hp in *. exists s', (delete (m, cs ++ [c]) idx). split; [done|].
    split; [by eapply vfs_ok_remove|]. split; [by eapply same_mounts_count|]. split; [done|].
    split; [apply delete_subseteq|]. intros k Hk. by rewrite lookup_delete_ne.
  - destruct (upd_node_shape s n (fun nd => set_refcnt (i64 (refcnt nd - 1)) nd) nd Hn)
      as (s1 & Hrun & Hn1 & Es & Em & En & Eml & Eb & Ef).
    assert (Hr' : i64 (refcnt nd - 1) = uses ((m, cs) :: H) m (cs ++ [c])) by (rewrite i64_small; lia).
    assert (Es' : shapes s1 = <[n := (m, uses ((m, cs) :: H) m (cs ++ [c]), render (cs ++ [c]))]> (shapes s)).
    { rewrite Es. unfold shape, set_refcnt. cbn. by rewrite Hm, Hp, Hr'. }
    exists s1, idx. split.
    { unfold VfsNodePut. rewrite Hrun, Some_bind, Hn1, Some_bind. cbn [refcnt set_refcnt]. rewrite Hr'. unfold nz.
      by rewrite (proj2 (Z.eqb_neq _ 0)). }
    split; [|split; [split_and!; [by rewrite Em|done|done]|done]].
    eapply vfs_ok_recount; [exact OK|exact Hi|exact Es'|done|done|done| | | | |].
    + rewrite decide_False by (by intros [_ E]%app_nil). lia.
    + intros _. lia.
    + intros m' cs' Hne. rewrite uses_down, decide_False by done. lia.
    + intros m1 cs1 cs' [[= -> ->]|Hin]%elem_of_cons Hpre; [|eapply vo_used; [exact OK|by right|done]].
      eapply vo_used; [exact OK|left|]. by apply prefix_app_r.
    + cbn [length]. lia.
Qed.

(** ** Looking a node up *)
Lemma VfsNodeLookup_loop_spec s H idx m cs l :
  vfs_ok s H idx -> Forall proper cs -> length (render cs) < NX_VFS_MAX_PATH ->
  (forall n, n ∈ l -> is_Some (shapes s !! n)) ->
  exists n, VfsNodeLookup_loop s l m (render cs) = Some n /\
    (n = 0 /\ (forall n', n' ∈ l -> idx !! (m, cs) <> Some n') \/ n ∈ l /\ idx !! (m, cs) = Some n).
Proof.
  intros OK Hcs Hlen. induction l as [|n l IH]; intros Hl; cbn [VfsNodeLookup_loop].
  { exists 0. split; [done|]. left. split; [done|]. intros n' Hn'. by apply elem_of_nil in Hn'. }
  destruct (Hl n ltac:(left)) as [sh Hsh]. destruct (vo_idx _ _ _ OK _ _ Hsh) as (m1 & k1 & Hi1).
  destruct (node_of_idx _ _ _ _ _ _ OK Hi1) as (nd & Hn & Hm & Hp & _). rewrite Hn, Some_bind, Hm, Hp.
  destruct (vo_node _ _ _ OK _ _ _ Hi1) as (_ & Hk1 & Hlen1 & _).
  rewrite !(firstn_all2 (n := 1024)) by (unfold NX_VFS_MAX_PATH in *; lia).
  destruct (Z.eqb_spec m1 m) as [->|Hne]; cbn [andb].
  - case_bool_decide as Hr.
    + apply render_inj in Hr as ->; [|done..]. exists n. split; [done|]. right. split; [left|done].
    + destruct IH as (n' & -> & Hn'); [intros n' Hn'; apply Hl; by right|]. exists n'. split; [done|].
      destruct Hn' as [[-> Hno]|[Hin Hi]]; [left|right; split; [by right|done]].
      split; [done|]. intros n' [->|Hn']%elem_of_cons; [|by apply Hno]. intros Hi. apply Hr.
      pose proof (idx_inj _ _ _ _ _ _ _ _ OK Hi Hi1) as [= ->]. done.
  - destruct IH as (n' & -> & Hn'); [intros n' Hn'; apply Hl; by right|]. exists n'. split; [done|].
    destruct Hn' as [[-> Hno]|[Hin Hi]]; [left|right; split; [by right|done]].
    split; [done|]. intros n' [->|Hn']%elem_of_cons; [|by apply Hno]. intros Hi.
    pose proof (idx_inj _ _ _ _ _ _ _ _ OK Hi Hi1) as [= ->]. done.
Qed.

Lemma VfsNodeLookup_spec s H idx m cs :
  vfs_ok s H idx -> Forall proper cs -> length (render cs) < NX_VFS_MAX_PATH ->
  VfsNodeLookup s m (render cs) =
    match idx !! (m, cs) with
    | Some n => s' ← VfsNodeIncreaseRef s n; Some (s', n)
    | None => Some (s, 0)
    end.
Proof.
  intros OK Hcs Hlen. unfold VfsNodeLookup. pose proof (hash_range m (render cs)) as Hh.
  pose proof (vo_length _ _ _ OK) as Hl.
  destruct (zlookup (nodeList s) (VfsNodeHash m (render cs))) as [l|] eqn:Hbk.
  2:{ unfold zlookup in Hbk. rewrite (proj2 (Z.leb_le 0 _)) in Hbk by lia. apply lookup_ge_None in Hbk. lia. }
  destruct (vo_bucket _ _ _ OK _ _ Hbk) as [_ Hin]. rewrite Some_bind.
  destruct (VfsNodeLookup_loop_spec s H idx m cs l OK Hcs Hlen) as (n & -> & Hn).
  { intros n (m1 & r & p & Hs & _)%Hin. by eexists. }
  rewrite Some_bind. destruct Hn as [[-> Hno]|[Hnl Hi]].
  - cbn [Z.eqb]. destruct (idx !! (m, cs)) as [n|] eqn:Hi; [|done].
    destruct (vo_node _ _ _ OK _ _ _ Hi) as (_ & _ & _ & _ & Hs & _).
    exfalso. eapply (Hno n); [|done]. apply Hin. by eexists _, _, _.
  - rewrite Hi. destruct (vo_node _ _ _ OK _ _ _ Hi) as (H0 & _). by rewrite (proj2 (Z.eqb_neq n 0)).
Qed.

(** A reference taken and given back at once. *)
Lemma lookup_put s H idx m cs n :
  vfs_ok s H idx -> idx !! (m, cs) = Some n ->
  exists s1, VfsNodeLookup s m (render cs) = Some (s1, n) /\ VfsNodePut fs_call s1 n = Some s.
Proof.
  intros OK Hi. destruct (vo_node _ _ _ OK _ _ _ Hi) as (_ & Hcs & Hlen & _ & _ & Hpos).
  rewrite (VfsNodeLookup_spec s H idx) by done. rewrite Hi.
  destruct (node_of_idx _ _ _ _ _ _ OK Hi) as (nd & Hn & Hm & Hp & Hr).
  pose proof (uses_length H m cs). pose proof (uses_nonneg H m cs). pose proof (vo_bound _ _ _ OK).
  assert (0 < refcnt nd < 2 ^ 62 + 1).
  { rewrite Hr. destruct (decide (cs = [])); [lia|]. specialize (Hpos ltac:(done)). lia. }
  unfold VfsNodeIncreaseRef, upd_node. rewrite Hn, !Some_bind. eexists. split; [reflexivity|].
  unfold VfsNodePut, upd_node. cbn [nodes with_nodes nodeList]. rewrite lookup_insert_eq, !Some_bind.
  rewrite insert_insert_eq. cbn [refcnt set_refcnt nodes with_nodes]. rewrite lookup_insert_eq, Some_bind.
  cbn [refcnt set_refcnt]. rewrite (i64_small (refcnt nd + 1)) by lia. replace (refcnt nd + 1 - 1) with (refcnt nd) by lia.
  rewrite i64_small by lia. unfold nz. rewrite (proj2 (Z.eqb_neq _ 0)) by lia. cbn [negb]. f_equal.
  destruct s as [a1 a2 a3 a4 a5 a6 a7]. cbn in *. unfold with_nodes. cbn. f_equal.
  apply insert_id. rewrite Hn. by destruct nd.
Qed.

(** ** [VfsNodeRelease] *)
Lemma VfsNodeRelease_loop_spec m cs : forall fuel s H idx c,
  vfs_ok s ((m, cs) :: H) idx -> (length cs < fuel)%nat -> slash ∉ c ->
  exists s' idx', VfsNodeRelease_loop fs_call fuel s m (render (cs ++ [c])) = Some s' /\ vfs_ok s' ((m, []) :: H) idx' /\
    same_mounts s s' /\ blocks s' = blocks s /\ idx' ⊆ idx /\ (forall k, k.2 = [] -> idx' !! k = idx !! k).
Proof.
  induction cs as [|c0 cs IH] using rev_ind; intros fuel s H idx c OK Hf Hc; (destruct fuel as [|fuel]; [lia|]);
    cbn [VfsNodeRelease_loop]; rewrite render_snoc, StrChrReverse_last, take_app_length by done.
  - cbn [joined]. exists s, idx. split; [done|]. split; [done|]. by split.
  - assert (Hr : joined (cs ++ [c0]) = render (cs ++ [c0])) by (by rewrite render_snoc, joined_snoc).
    destruct (joined (cs ++ [c0])) as [|x y] eqn:Ej; [by rewrite joined_snoc in Ej; destruct (joined cs)|].
    rewrite Hr. clear Ej Hr x y.
    destruct (vo_used _ _ _ OK m (cs ++ [c0]) (cs ++ [c0])) as [n Hi]; [left|done|].
    destruct (lookup_put _ _ _ _ _ _ OK Hi) as (s1 & -> & Hput). rewrite Some_bind.
    destruct (vo_node _ _ _ OK _ _ _ Hi) as (H0 & Hcs & _). rewrite (proj2 (Z.eqb_neq n 0)), Hput, Some_bind by done.
    apply Forall_app in Hcs as [_ Hc0]. apply Forall_cons in Hc0 as [(_ & _ & _ & Hc0) _].
    destruct (put_child _ _ _ _ _ _ _ OK Hi) as (s2 & idx2 & -> & OK2 & Hm2 & Hb2 & Hsub2 & Hk2). rewrite Some_bind.
    rewrite length_app in Hf. cbn [length] in Hf.
    destruct (IH fuel s2 H idx2 c0 OK2 ltac:(lia) Hc0) as (s3 & idx3 & -> & OK3 & Hm3 & Hb3 & Hsub3 & Hk3).
    exists s3, idx3. split; [done|]. split; [done|]. split; [by eapply same_mounts_trans|]. split; [congruence|].
    split; [by etrans|]. intros k Hk. rewrite Hk3 by done. apply Hk2. intros ->. by apply app_nil in Hk as [_ ?].
Qed.

Lemma length_joined cs : Forall proper cs -> (length cs <= length (joined cs))%nat.
Proof.
  induction cs as [|c cs IH]; intros Hcs; [done|]. apply Forall_cons in Hcs as [_ Hcs].
  change (joined (c :: cs)) with (slash :: c ++ joined cs). cbn [length]. rewrite length_app. specialize (IH Hcs). lia.
Qed.

Lemma VfsNodeRelease_spec s H idx m cs n :
  vfs_ok s ((m, cs) :: H) idx -> idx !! (m, cs) = Some n ->
  exists s' idx', VfsNodeRelease fs_call s n = Some s' /\ vfs_ok s' H idx' /\ same_mounts s s' /\ blocks s' = blocks s /\
    idx' ⊆ idx.
Proof.
  intros OK Hi. destruct (vo_node _ _ _ OK _ _ _ Hi) as (H0 & Hcs & Hlen & [mt Hmt] & _).
  destruct (node_of_idx _ _ _ _ _ _ OK Hi) as (nd & Hn & Hm & Hp & _).
  pose proof (vo_root _ _ _ OK m mt (not_loose _ _ _ _ _ _ OK Hi) Hmt) as Hroot.
  unfold VfsNodeRelease. rewrite (proj2 (Z.eqb_neq n 0)), Hn, Some_bind, Hm, Hmt, Some_bind, Hp by done.
  destruct cs as [|c cs _] using rev_ind.
  { rewrite Hi in Hroot. injection Hroot as ->. rewrite Z.eqb_refl.
    destruct (put_root _ _ _ _ _ OK Hi) as (s' & -> & OK' & Hsm & Hb). by exists s', idx. }
  destruct (Z.eqb_spec (root mt) n) as [<-|Hne].
  { pose proof (idx_inj _ _ _ _ _ _ _ _ OK Hi Hroot) as [= E]. by apply app_nil in E as [_ ?]. }
  rewrite Z.geb_leb, (proj2 (Z.leb_gt _ _)) by done.
  destruct (put_child _ _ _ _ _ _ _ OK Hi) as (s1 & idx1 & -> & OK1 & Hm1 & Hb1 & Hsub1 & Hk1). rewrite Some_bind.
  pose proof Hcs as Hcs'. apply Forall_app in Hcs' as [Hcs1 Hc]. apply Forall_cons in Hc as [(_ & _ & _ & Hc) _].
  destruct (VfsNodeRelease_loop_spec m cs (S (length (render (cs ++ [c])))) s1 H idx1 c OK1) as
    (s2 & idx2 & -> & OK2 & Hm2 & Hb2 & Hsub2 & Hk2); [|done|].
  { rewrite render_snoc, length_app. pose proof (length_joined cs Hcs1). cbn. lia. }
  rewrite Some_bind. pose proof (same_mounts_trans _ _ _ Hm1 Hm2) as Hsm.
  destruct (same_mounts_lookup _ _ _ _ Hsm Hmt) as (mt2 & Hmt2 & Hs2). rewrite Hmt2, Some_bind.
  pose proof (vo_root _ _ _ OK2 m mt2 (not_loose _ _ _ _ _ _ OK Hi) Hmt2) as Hroot2.
  destruct (put_root _ _ _ _ _ OK2 Hroot2) as (s3 & -> & OK3 & Hm3 & Hb3).
  exists s3, idx2. split; [done|]. split; [done|]. split; [by eapply same_mounts_trans|]. split; [congruence|]. by etrans.
Qed.
(** ** [VfsNodeGet]

    The answers the heap has left, [k] at least, are new objects. *)
Definition heap_ok s (k : Z) : Prop :=
  k <= length (blocks s) /\ NoDup (blocks s) /\ forall b, b ∈ blocks s -> b <> 0 /\ shapes s !! b = None.

Lemma heap_ok_less s k j : heap_ok s k -> j <= k -> heap_ok s j.
Proof. intros (Hk & Hrest) Hj. split; [lia|done]. Qed.

Lemma heap_ok_sub s s' H H' idx idx' k :
  vfs_ok s H idx -> vfs_ok s' H' idx' -> idx' ⊆ idx -> blocks s' = blocks s -> heap_ok s k -> heap_ok s' k.
Proof.
  intros OK OK' Hsub Eb (Hk & Hnd & Hb). unfold heap_ok. rewrite Eb. split_and!; try done.
  intros b Hin. destruct (Hb b Hin) as [? Hs]. split; [done|]. destruct (shapes s' !! b) as [sh|] eqn:E; [|done].
  destruct (vo_idx _ _ _ OK' _ _ E) as (m & cs & Hi). apply (lookup_weaken _ _ _ _ Hi) in Hsub.
  destruct (vo_node _ _ _ OK _ _ _ Hsub) as (_ & _ & _ & _ & E1 & _). congruence.
Qed.

Lemma heap_ok_tail s s' k n x :
  heap_ok s k -> blocks s = n :: blocks s' -> shapes s' = <[n := x]> (shapes s) -> heap_ok s' (k - 1).
Proof.
  intros (Hk & Hnd & Hb) Eb Es. rewrite Eb in *. apply NoDup_cons in Hnd as [Hn Hnd]. cbn [length] in Hk.
  split_and!; [lia|done|]. intros b Hin. destruct (Hb b ltac:(by right)) as [? Hs]. split; [done|].
  rewrite Es, lookup_insert_ne by congruence. done.
Qed.

(** All an allocator promises: what it gives is a new object, if anything. *)
Definition heap_fresh s : Prop :=
  NoDup (filter (fun b => b <> 0) (blocks s)) /\ forall b, b ∈ blocks s -> b <> 0 -> shapes s !! b = None.

Lemma heap_ok_fresh s k : heap_ok s k -> heap_fresh s.
Proof. intros (_ & Hnd & Hb). split; [by apply NoDup_filter|]. intros b Hin _. by apply Hb. Qed.

Lemma heap_fresh_sub s s' H H' idx idx' :
  vfs_ok s H idx -> vfs_ok s' H' idx' -> idx' ⊆ idx -> blocks s' = blocks s -> heap_fresh s -> heap_fresh s'.
Proof.
  intros OK OK' Hsub Eb (Hnd & Hb). unfold heap_fresh. rewrite Eb. split; [done|].
  intros b Hin Hb0. specialize (Hb b Hin Hb0). destruct (shapes s' !! b) as [sh|] eqn:E; [|done].
  destruct (vo_idx _ _ _ OK' _ _ E) as (m & cs & Hi). apply (lookup_weaken _ _ _ _ Hi) in Hsub.
  destruct (vo_node _ _ _ OK _ _ _ Hsub) as (_ & _ & _ & _ & E1 & _). congruence.
Qed.

Lemma heap_fresh_tail s s' n x :
  heap_fresh s -> blocks s = n :: blocks s' -> n <> 0 -> shapes s' = <[n := x]> (shapes s) -> heap_fresh s'.
Proof.
  intros (Hnd & Hb) Eb Hn Es. rewrite Eb in *. rewrite filter_cons_True in Hnd by done. apply NoDup_cons in Hnd as [Hni Hnd].
  split; [done|]. intros b Hin Hb0. rewrite Es, lookup_insert_ne; [apply Hb; [by right|done]|].
  intros ->. apply Hni, list_elem_of_filter. done.
Qed.

Lemma heap_fresh_drop s s' : heap_fresh s -> blocks s' = tail (blocks s) -> shapes s' = shapes s -> heap_fresh s'.
Proof.
  intros (Hnd & Hb) Eb Es. unfold heap_fresh. rewrite Eb, Es. destruct (blocks s) as [|b l]; [done|]. split.
  - rewrite filter_cons in Hnd. case_decide; [by apply NoDup_cons in Hnd as [_ ?]|done].
  - intros x Hx. apply Hb. by right.
Qed.

(** A new object takes its place in the table. *)
Lemma vfs_ok_new s s' H idx m cs c n bucket mt :
  vfs_ok s ((m, cs) :: H) idx -> idx !! (m, cs ++ [c]) = None ->
  Forall proper (cs ++ [c]) -> length (render (cs ++ [c])) < NX_VFS_MAX_PATH ->
  n <> 0 -> shapes s !! n = None -> blocks s = n :: blocks s' ->
  zlookup (nodeList s) (VfsNodeHash m (render (cs ++ [c]))) = Some bucket -> mounts s !! m = Some mt ->
  shapes s' = <[n := (m, 1, render (cs ++ [c]))]> (shapes s) ->
  nodeList s' = zinsert (nodeList s) (VfsNodeHash m (render (cs ++ [c]))) (n :: bucket) ->
  mounts s' = <[m := set_mrefcnt (i64 (mrefcnt mt + 1)) mt]> (mounts s) ->
  vfs_ok s' ((m, cs ++ [c]) :: H) (<[(m, cs ++ [c]) := n]> idx).
Proof.
  intros OK Hi Hcs Hlen H0 Hn Eb Hbk Hmt Es En Em. set (k := cs ++ [c]) in *.
  assert (Hu0 : uses ((m, cs) :: H) m k = 0).
  { destruct (Z.eq_dec (uses ((m, cs) :: H) m k) 0) as [|Hne]; [done|].
    pose proof (uses_nonneg ((m, cs) :: H) m k). destruct (proj1 (uses_pos ((m, cs) :: H) m k) ltac:(lia)) as ([m1 cs1] & Hin & E & Hpre).
    cbn in E, Hpre. subst m1. destruct (vo_used _ _ _ OK _ _ _ Hin Hpre) as [x Hx]. congruence. }
  assert (Huses : forall m' cs', (m', cs') <> (m, k) -> uses ((m, k) :: H) m' cs' = uses ((m, cs) :: H) m' cs').
  { intros m' cs' Hne. unfold k. rewrite (uses_down H m cs c), decide_False by done. lia. }
  pose proof (vo_nodes _ _ _ OK) as Hnodes. rewrite Eb in Hnodes. cbn [length] in Hnodes.
  destruct (vo_used _ _ _ OK m cs cs) as [dn Hdn]; [left|done|]. pose proof (not_loose _ _ _ _ _ _ OK Hdn) as HLm.
  pose proof (vo_count _ _ _ OK m mt HLm Hmt) as Hcnt. pose proof (nodes_of_le (shapes s) m) as Hle.
  pose proof (nodes_of_nonneg (shapes s) m). destruct (vo_bucket _ _ _ OK _ _ Hbk) as [Hbnd Hbin].
  constructor; rewrite ?Es, ?En, ?Em.
  - intros m1 k1 n1 Hi1. destruct (decide ((m1, k1) = (m, k))) as [[= -> ->]|Hne].
    + rewrite lookup_insert_eq in Hi1. injection Hi1 as <-. rewrite !lookup_insert_eq. unfold k.
      rewrite (uses_down H m cs c), decide_True by done. rewrite decide_False by (by intros [_ E]%app_nil).
      fold k. rewrite Hu0. by split_and!.
    + rewrite lookup_insert_ne in Hi1 by congruence. destruct (vo_node _ _ _ OK _ _ _ Hi1) as (? & ? & ? & Hmm & Hs1 & Hpos).
      split_and!; try done.
      * destruct (decide (m1 = m)) as [->|]; [rewrite lookup_insert_eq; by eexists|by rewrite lookup_insert_ne].
      * rewrite lookup_insert_ne by congruence. by rewrite Huses.
      * intros Hk1. rewrite Huses by done. by apply Hpos.
  - intros n1 sh Hs1. destruct (decide (n1 = n)) as [->|Hne]; [exists m, k; by rewrite lookup_insert_eq|].
    rewrite lookup_insert_ne in Hs1 by done. destruct (vo_idx _ _ _ OK _ _ Hs1) as (m1 & k1 & Hi1).
    exists m1, k1. rewrite lookup_insert_ne; [done|]. congruence.
  - intros m1 mt1 HL Hm1. rewrite lookup_insert_ne by (unfold k; intros [= _ E]; by apply app_nil in E as [_ ?]).
    destruct (decide (m1 = m)) as [->|]; [|rewrite lookup_insert_ne in Hm1 by done; by apply OK].
    rewrite lookup_insert_eq in Hm1. injection Hm1 as <-. cbn. by apply OK.
  - intros m1 cs1 cs' Hin Hpre. destruct (decide ((m1, cs') = (m, k))) as [->|Hne]; [rewrite lookup_insert_eq; by eexists|].
    rewrite lookup_insert_ne by congruence. apply elem_of_cons in Hin as [[= -> ->]|Hin]; [|eapply vo_used; [exact OK|by right|done]].
    destruct (prefix_snoc cs' cs c Hpre) as [->|Hp']; [done|]. eapply vo_used; [exact OK|left|done].
  - rewrite length_zinsert. apply OK.
  - intros h l Hl. pose proof (hash_range m (render k)) as Hhr. pose proof (vo_length _ _ _ OK) as Hlen'.
    pose proof (proj1 (zlookup_Some _ _ _) Hl) as [Hh0 _]. rewrite zlookup_zinsert in Hl by lia. case_decide as Hh.
    + injection Hl as <-. subst h. split.
      * apply NoDup_cons. split; [|done]. intros Hin. apply Hbin in Hin as (m1 & r & p & Hs1 & _). congruence.
      * intros n1. rewrite elem_of_cons, Hbin. destruct (decide (n1 = n)) as [->|Hne].
        -- rewrite lookup_insert_eq. split; [intros _; by eexists _, _, _|by left].
        -- rewrite lookup_insert_ne by done. split; [by intros [?|?]|by right].
    + destruct (vo_bucket _ _ _ OK h l Hl) as [Hnd Hin]. split; [done|]. intros n1. rewrite Hin.
      destruct (decide (n1 = n)) as [->|Hne]; [|by rewrite lookup_insert_ne].
      rewrite lookup_insert_eq, Hn. split; [by intros (? & ? & ? & ? & _)|]. intros (m1 & r & p & [= <- <- <-] & Hhash). by destruct Hh.
  - apply (vo_bound _ _ _ OK).
  - intros m1 k1 E. rewrite lookup_insert_ne; [by apply OK|]. intros [= <- _]. by destruct HLm.
  - intros m1 mt1 HL Hm1. rewrite nodes_of_new by done. cbn [fst]. destruct (decide (m1 = m)) as [->|Hne].
    + rewrite lookup_insert_eq in Hm1. injection Hm1 as <-. cbn [mrefcnt set_mrefcnt].
      rewrite decide_True by done. rewrite i64_small; lia.
    + rewrite lookup_insert_ne in Hm1 by done. rewrite decide_False by done. rewrite (vo_count _ _ _ OK m1 mt1 HL Hm1). lia.
  - rewrite map_size_insert_None by done. lia.
Qed.

(** The file systems of the tree ([cpio], [devfs]) never refuse a new node. *)
Definition vget_ok : Prop := forall f m w l, r_err (fs_call f Fs_vget m w l).2 = NX_EOK.

(** Without memory, or when the file system refuses, nothing but the heap changes. *)
Lemma VfsNodeGet_cases s m mt p :
  length (nodeList s) = 256%nat -> mounts s !! m = Some mt -> length p < NX_VFS_MAX_PATH -> heap_fresh s ->
  exists s' n, VfsNodeGet fs_call s m p = Some (s', n) /\ mountList s' = mountList s /\ fileSystems s' = fileSystems s /\
    ((n = 0 /\ shapes s' = shapes s /\ nodeList s' = nodeList s /\ mounts s' = mounts s /\ blocks s' = tail (blocks s) /\
        ~ (vget_ok /\ heap_ok s 1)) \/
     (n <> 0 /\ shapes s !! n = None /\ exists bucket,
        zlookup (nodeList s) (VfsNodeHash m p) = Some bucket /\ blocks s = n :: blocks s' /\
        shapes s' = <[n := (m, 1, p)]> (shapes s) /\
        nodeList s' = zinsert (nodeList s) (VfsNodeHash m p) (n :: bucket) /\
        mounts s' = <[m := set_mrefcnt (i64 (mrefcnt mt + 1)) mt]> (mounts s))).
Proof.
  intros Hl Hmt Hlen [_ Hfr]. unfold VfsNodeGet, NX_MemAlloc. destruct (blocks s) as [|n rest] eqn:Eb.
  { exists s, 0. do 3 (split; [done|]). left. do 4 (split; [done|]). split; [by rewrite Eb|]. intros [_ [Hk _]]. rewrite Eb in Hk. cbn in Hk. lia. }
  destruct (Z.eqb_spec n 0) as [->|H0].
  { eexists _, 0. do 3 (split; [done|]). left. do 5 (split; [done|]). intros [_ (_ & _ & Hb)]. rewrite Eb in Hb. by destruct (Hb 0 ltac:(left)). }
  specialize (Hfr n ltac:(left) H0). destruct (bucket_of s m p Hl) as [bucket Hbk].
  rewrite Z.geb_leb, (proj2 (Z.leb_gt _ _)) by done. cbn [mounts]. rewrite Hmt, Some_bind.
  set (nd := mkNode m 1 _ _ _). set (s1 := with_nodes _ _ _).
  destruct (fs_do_same s1 (fs mt) Fs_vget m [n]) as (s2 & r & -> & (E1 & E2 & E3 & E4 & E5 & E6) & w & l & ->).
  { intros n' ->%list_elem_of_singleton. subst s1. cbn. rewrite lookup_insert_eq. by eexists. }
  rewrite Some_bind. assert (Es : shapes s2 = <[n := (m, 1, p)]> (shapes s)).
  { rewrite E1. unfold shapes. subst s1. cbn. by rewrite fmap_insert. }
  destruct (is_ok (r_err (fs_call (fs mt) Fs_vget m w l).2)) eqn:Eok.
  - assert (Hm2 : mounts s2 !! m = Some mt) by (by rewrite E2). unfold upd_mount. rewrite Hm2, !Some_bind.
    cbn [nodeList with_mounts]. assert (Hn2 : nodeList s2 = nodeList s) by (by rewrite E3). rewrite Hn2, Hbk, Some_bind.
    eexists _, n. split; [reflexivity|]. cbn. split; [by rewrite E4|]. split; [by rewrite E6|]. right. split; [done|]. split; [done|].
    exists bucket. split_and!; try done; by rewrite ?E5, ?E2.
  - eexists _, 0. split; [done|]. cbn. split; [by rewrite E4|]. split; [by rewrite E6|]. left. split; [done|].
    unfold shapes in *. cbn. rewrite fmap_delete, Es, delete_insert_eq, delete_id by done. split_and!; try done.
    intros [Hv _]. by rewrite Hv in Eok.
Qed.

Lemma VfsNodeGet_run s m mt p :
  vget_ok -> length (nodeList s) = 256%nat -> mounts s !! m = Some mt -> length p < NX_VFS_MAX_PATH -> heap_ok s 1 ->
  exists s' n bucket, VfsNodeGet fs_call s m p = Some (s', n) /\ n <> 0 /\ shapes s !! n = None /\
    zlookup (nodeList s) (VfsNodeHash m p) = Some bucket /\ blocks s = n :: blocks s' /\
    shapes s' = <[n := (m, 1, p)]> (shapes s) /\
    nodeList s' = zinsert (nodeList s) (VfsNodeHash m p) (n :: bucket) /\
    mounts s' = <[m := set_mrefcnt (i64 (mrefcnt mt + 1)) mt]> (mounts s) /\
    mountList s' = mountList s /\ fileSystems s' = fileSystems s.
Proof.
  intros Hvget Hl Hmt Hlen Hh. destruct (VfsNodeGet_cases s m mt p Hl Hmt Hlen (heap_ok_fresh _ _ Hh))
    as (s' & n & -> & El & Ef & [(_ & _ & _ & _ & _ & [])|(H0 & Hn & bucket & Hrest)]); [done|].
  destruct Hrest as (? & ? & ? & ? & ?). by exists s', n, bucket.
Qed.

(** Fewer answers left in the heap change nothing. *)
Lemma vfs_ok_blocks s s' H idx :
  shapes s' = shapes s -> mounts s' = mounts s -> nodeList s' = nodeList s -> blocks s' = tail (blocks s) ->
  vfs_ok s H idx -> vfs_ok s' H idx.
Proof.
  intros E1 E2 E3 E4 OK. pose proof (vo_nodes _ _ _ OK) as Hn. destruct OK. constructor; rewrite ?E1, ?E2, ?E3, ?E4; try done.
  destruct (blocks s); cbn [length tail] in *; lia.
Qed.

Lemma VfsNodeGet_spec s H idx m cs c :
  vfs_ok s ((m, cs) :: H) idx -> idx !! (m, cs ++ [c]) = None ->
  Forall proper (cs ++ [c]) -> length (render (cs ++ [c])) < NX_VFS_MAX_PATH -> heap_fresh s ->
  exists s' n, VfsNodeGet fs_call s m (render (cs ++ [c])) = Some (s', n) /\ same_mounts s s' /\ heap_fresh s' /\
    ((n = 0 /\ vfs_ok s' ((m, cs) :: H) idx /\ ~ (vget_ok /\ heap_ok s 1)) \/
     (n <> 0 /\ vfs_ok s' ((m, cs ++ [c]) :: H) (<[(m, cs ++ [c]) := n]> idx) /\ blocks s = n :: blocks s' /\
        shapes s' = <[n := (m, 1, render (cs ++ [c]))]> (shapes s))).
Proof.
  intros OK Hi Hcs Hlen Hh. destruct (vo_used _ _ _ OK m cs cs) as [dn Hdn]; [left|done|].
  destruct (vo_node _ _ _ OK _ _ _ Hdn) as (_ & _ & _ & [mt Hmt] & _).
  destruct (VfsNodeGet_cases s m mt _ (vo_length _ _ _ OK) Hmt Hlen Hh) as (s' & n & -> & El & Ef & Hcase).
  exists s', n. split; [done|]. destruct Hcase as [(-> & Es & En & Em & Eb & Hbad)|(H0 & Hn & bucket & Hbk & Eb & Es & En & Em)].
  - split; [split_and!; [by rewrite Em|done|done]|]. split; [by eapply heap_fresh_drop|]. left. split; [done|]. split; [|done].
    by eapply vfs_ok_blocks.
  - split; [by eapply same_mounts_count|]. split; [by eapply heap_fresh_tail|]. right. split; [done|]. split; [by eapply vfs_ok_new|done].
Qed.

(** ** [VfsNodeAcquire] *)
Lemma relative_cons c qs : proper c -> relative (c :: qs) = c ++ joined qs /\ token (c ++ joined qs) = c /\
  drop (length c) (c ++ joined qs) = joined qs /\ c ++ joined qs <> [].
Proof.
  intros (Hc & _ & _ & Hs). split; [|split; [|split; [by rewrite drop_app_length|by destruct c]]].
  - unfold relative. change (joined (c :: qs)) with (slash :: c ++ joined qs). cbn. by rewrite drop_0.
  - assert (Ht : forall t, slash ∉ t -> token (t ++ joined qs) = t); [|by apply Ht].
    intros t. induction t as [|x t IH]; intros Ht.
    + destruct qs; [done|]. cbn. done.
    + apply not_elem_of_cons in Ht as [Hx Ht]. cbn. rewrite (proj2 (Z.eqb_neq x slash)), IH by congruence. done.
Qed.

(** The nodes that [H] and the mounts need stay what they are. *)
Definition kept H idx idx' : Prop := forall m k, 0 < uses H m k \/ k = [] -> idx' !! (m, k) = idx !! (m, k).

Lemma same_mounts_None s s' m : same_mounts s s' -> mounts s !! m = None -> mounts s' !! m = None.
Proof.
  intros (E & _) Hm. assert (Hx : (mshape <$> mounts s') !! m = None) by (by rewrite E, lookup_fmap, Hm).
  rewrite lookup_fmap in Hx. by destruct (mounts s' !! m).
Qed.

Lemma root_same s s' H H' idx idx' m :
  vfs_ok s H idx -> vfs_ok s' H' idx' -> same_mounts s s' -> idx' !! (m, []) = idx !! (m, []).
Proof.
  intros OK OK' Hm. destruct (decide (loose = Some m)) as [El|HL].
  { by rewrite (vo_loose _ _ _ OK), (vo_loose _ _ _ OK'). }
  apply not_eq_sym in HL. destruct (mounts s !! m) as [mt|] eqn:Hmt.
  - destruct (same_mounts_lookup _ _ _ _ Hm Hmt) as (mt' & Hmt' & Hs). unfold mshape in Hs.
    rewrite (vo_root _ _ _ OK _ _ HL Hmt), (vo_root _ _ _ OK' _ _ HL Hmt'). congruence.
  - pose proof (same_mounts_None _ _ _ Hm Hmt) as Hmt'.
    destruct (idx !! (m, [])) as [n|] eqn:E.
    { destruct (vo_node _ _ _ OK _ _ _ E) as (_ & _ & _ & [? ?] & _). congruence. }
    destruct (idx' !! (m, [])) as [n|] eqn:E'; [|done].
    destruct (vo_node _ _ _ OK' _ _ _ E') as (_ & _ & _ & [? ?] & _). congruence.
Qed.

Lemma used s H H' idx m k : vfs_ok s H' idx -> H ⊆ H' -> 0 < uses H m k -> is_Some (idx !! (m, k)).
Proof. intros OK Hsub ([m1 k1] & Hh & E & Hp)%uses_pos. cbn in E. subst m1. apply (vo_used _ _ _ OK m k1); [by apply Hsub|done]. Qed.

Lemma kept_sub s s' H1 H2 H idx idx' :
  vfs_ok s H1 idx -> vfs_ok s' H2 idx' -> same_mounts s s' -> idx ⊆ idx' \/ idx' ⊆ idx -> H ⊆ H1 -> H ⊆ H2 ->
  kept H idx idx'.
Proof.
  intros OK OK' Hm Hsub Hs1 Hs2 m k [Hu | ->]; [|by eapply root_same].
  destruct (used _ _ _ _ _ _ OK Hs1 Hu) as [x Hx]. destruct (used _ _ _ _ _ _ OK' Hs2 Hu) as [x' Hx'].
  destruct Hsub as [Hsub|Hsub]; rewrite Hx, Hx'; [pose proof (lookup_weaken _ _ _ _ Hx Hsub)|
    pose proof (lookup_weaken _ _ _ _ Hx' Hsub)]; congruence.
Qed.

Lemma kept_refl H idx : kept H idx idx.
Proof. done. Qed.

Lemma kept_trans H idx1 idx2 idx3 : kept H idx1 idx2 -> kept H idx2 idx3 -> kept H idx1 idx3.
Proof. intros H1 H2 m k Hk. rewrite H2, H1 by done. done. Qed.

(** The table is a function of the holders and the addresses. *)
Lemma kept_shapes s s' H idx idx' :
  vfs_ok s H idx -> vfs_ok s' H idx' -> kept H idx idx' -> idx' = idx /\ shapes s' = shapes s.
Proof.
  intros OK OK' Hk.
  assert (E : idx' = idx).
  { apply map_eq. intros [m k]. destruct (decide (k = [])) as [->|Hne]; [by apply Hk; right|].
    destruct (Z.eq_dec (uses H m k) 0) as [Hz|Hnz].
    - destruct (idx !! (m, k)) as [n|] eqn:E1.
      { destruct (vo_node _ _ _ OK _ _ _ E1) as (_ & _ & _ & _ & _ & Hp). specialize (Hp Hne). lia. }
      destruct (idx' !! (m, k)) as [n|] eqn:E2; [|done].
      destruct (vo_node _ _ _ OK' _ _ _ E2) as (_ & _ & _ & _ & _ & Hp). specialize (Hp Hne). lia.
    - apply Hk. left. pose proof (uses_nonneg H m k). lia. }
  split; [done|]. subst idx'. apply map_eq. intros n.
  destruct (shapes s !! n) as [sh|] eqn:E1.
  - destruct (vo_idx _ _ _ OK _ _ E1) as (m & k & Hi). destruct (vo_node _ _ _ OK _ _ _ Hi) as (_ & _ & _ & _ & Hs & _).
    destruct (vo_node _ _ _ OK' _ _ _ Hi) as (_ & _ & _ & _ & Hs' & _). congruence.
  - destruct (shapes s' !! n) as [sh|] eqn:E2; [|done]. destruct (vo_idx _ _ _ OK' _ _ E2) as (m & k & Hi).
    destruct (vo_node _ _ _ OK _ _ _ Hi) as (_ & _ & _ & _ & Hs & _). congruence.
Qed.

(** What taking a reference on a file gives: the node of the file, or nothing
    when the file system refuses; the other holders keep theirs. *)
Definition acquired s H idx (k : Z) m cs (r : option Z) s' idx' : Prop :=
  same_mounts s s' /\ kept H idx idx' /\ heap_ok s' k /\
  match r with
  | Some n => vfs_ok s' ((m, cs) :: H) idx' /\ idx' !! (m, cs) = Some n
  | None => vfs_ok s' H idx'
  end.

(** Without memory or a file system that gives every node, a refusal may leave a
    holder behind: the directory two levels or more above the file for which no
    node could be made. *)
Definition acquired_any s H idx m cs (r : option Z) s' idx' : Prop :=
  same_mounts s s' /\ kept H idx idx' /\ heap_fresh s' /\
  match r with
  | Some n => vfs_ok s' ((m, cs) :: H) idx' /\ idx' !! (m, cs) = Some n
  | None => vfs_ok s' H idx' \/ exists pre x c rest, cs = pre ++ x :: c :: rest /\ vfs_ok s' ((m, pre) :: H) idx'
  end.

Lemma acquired_any_trans s1 s2 s3 H idx1 idx2 idx3 m cs r :
  same_mounts s1 s2 -> kept H idx1 idx2 -> acquired_any s2 H idx2 m cs r s3 idx3 -> acquired_any s1 H idx1 m cs r s3 idx3.
Proof.
  intros Hm Hh (Hm' & Hh' & Hr). split; [by eapply same_mounts_trans|]. split; [|done]. by eapply kept_trans.
Qed.

(** With memory and such a file system it does not. *)
Definition clean s H (k : Z) len (r : option Z) s' idx' : Prop :=
  vget_ok -> heap_ok s (len + k) -> heap_ok s' k /\ (r = None -> vfs_ok s' H idx').

(** No node could be made below [cs]: the reference on [cs] alone is put. *)
Lemma get_failed s H idx m cs dn :
  vfs_ok s ((m, cs) :: H) idx -> idx !! (m, cs) = Some dn -> heap_fresh s ->
  exists s' idx', VfsNodePut fs_call s dn = Some s' /\
    forall c rest, acquired_any s H idx m (cs ++ c :: rest) None s' idx'.
Proof.
  intros OK Hdn Hfr. destruct cs as [|x pre _] using rev_ind.
  - destruct (put_root _ _ _ _ _ OK Hdn) as (s' & -> & OK' & Hsm & Hb). exists s', idx. split; [done|]. intros c rest.
    split; [done|]. split; [done|]. split; [by eapply (heap_fresh_sub s s')|]. by left.
  - destruct (put_child _ _ _ _ _ _ _ OK Hdn) as (s' & idx' & -> & OK' & Hsm & Hb & Hsub & _). exists s', idx'. split; [done|].
    intros c rest. split; [done|]. split; [|split; [by eapply (heap_fresh_sub s s')|]].
    + eapply kept_sub; [exact OK|exact OK'|done|by right|set_solver|set_solver].
    + right. exists pre, x, c, rest. split; [|done]. by rewrite <- app_assoc.
Qed.

(** One component: its node is found, made and looked up, or given up. *)
Lemma acquire_component s H idx m cs c dn slashes :
  vfs_ok s ((m, cs) :: H) idx -> idx !! (m, cs) = Some dn -> Forall proper (cs ++ [c]) ->
  length (render (cs ++ [c])) < NX_VFS_MAX_PATH -> heap_fresh s ->
  exists s1 n, VfsNodeLookup s m (render (cs ++ [c])) = Some (s1, n) /\
    ((n <> 0 /\ vfs_ok s1 ((m, cs ++ [c]) :: H) idx /\ idx !! (m, cs ++ [c]) = Some n /\ same_mounts s s1 /\ blocks s1 = blocks s) \/
     (n = 0 /\ s1 = s /\ exists s2 n2, VfsNodeGet fs_call s m (render (cs ++ [c])) = Some (s2, n2) /\
       ((n2 = 0 /\ ~ (vget_ok /\ heap_ok s 1) /\ exists s3 idx3, VfsNodePut fs_call s2 dn = Some s3 /\
           forall c' rest, acquired_any s H idx m (cs ++ c' :: rest) None s3 idx3) \/
        (n2 <> 0 /\ exists s3 r nd, fs_on fs_call s2 (Fs_lookup c) dn [n2] = Some (s3, r) /\ nodes s3 !! n2 = Some nd /\
           let idx2 := <[(m, cs ++ [c]) := n2]> idx in
           vfs_ok s3 ((m, cs ++ [c]) :: H) idx2 /\ idx2 !! (m, cs ++ [c]) = Some n2 /\ same_mounts s s3 /\ kept H idx idx2 /\
           heap_fresh s3 /\ (forall k : Z, heap_ok s (k + 1) -> heap_ok s3 k) /\
           (negb (is_ok (r_err r)) || slashes nd = true -> exists s4 idx4, VfsNodeRelease fs_call s3 n2 = Some s4 /\
              vfs_ok s4 H idx4 /\ same_mounts s s4 /\ kept H idx idx4 /\ heap_fresh s4 /\
              forall k : Z, heap_ok s (k + 1) -> heap_ok s4 k))))).
Proof.
  intros OK Hdn Hcs Hlen Hfr. rewrite (VfsNodeLookup_spec s ((m, cs) :: H) idx) by done. destruct (idx !! (m, cs ++ [c])) as [n|] eqn:Hi.
  - destruct (increase_child _ _ _ _ _ _ _ OK Hi) as (s1 & Hinc & OK1 & Hm1 & Hb1). rewrite Hinc, Some_bind.
    exists s1, n. split; [done|]. left. destruct (vo_node _ _ _ OK _ _ _ Hi) as (H0 & _). done.
  - exists s, 0. split; [done|]. right. split; [done|]. split; [done|].
    destruct (VfsNodeGet_spec s H idx m cs c OK Hi Hcs Hlen Hfr) as (s2 & n & -> & Hm2 & Hfr2 & Hcase). exists s2, n. split; [done|].
    destruct Hcase as [(-> & OK2 & Hbad)|(H0 & OK2 & Eb & Es)].
    { left. split; [done|]. split; [done|]. destruct (get_failed _ _ _ _ _ _ OK2 Hdn Hfr2) as (s3 & idx3 & -> & Hacq).
      exists s3, idx3. split; [done|]. intros c' rest. by eapply acquired_any_trans. }
    right. split; [done|]. set (idx2 := <[_ := n]> idx) in *.
    assert (Hin : idx2 !! (m, cs ++ [c]) = Some n) by apply lookup_insert_eq.
    assert (Hsub : idx ⊆ idx2) by (by apply insert_subseteq).
    destruct (node_of_idx _ _ _ _ _ _ OK2 Hin) as (nd & Hnd & Hmn & _).
    assert (Hidn : idx2 !! (m, cs) = Some dn) by (by eapply lookup_weaken).
    destruct (node_of_idx _ _ _ _ _ _ OK2 Hidn) as (dnd & Hdnd & Hmd & _).
    destruct (fs_on_same s2 (Fs_lookup c) dn [n]) as (s3 & r & -> & Hs3).
    { intros n' [-> | ->%list_elem_of_singleton]%elem_of_cons; by eexists. }
    { intros nd' Hnd'. rewrite Hdnd in Hnd'. injection Hnd' as <-. rewrite Hmd.
      by destruct (vo_node _ _ _ OK2 _ _ _ Hidn) as (_ & _ & _ & ? & _). }
    pose proof (same_refs_ok _ _ _ _ Hs3 OK2) as OK3. destruct Hs3 as (E1 & E2 & E3 & E4 & E5 & E6).
    assert (Hm3 : same_mounts s s3) by (eapply same_mounts_trans; [exact Hm2|by apply same_refs_mounts]).
    assert (Hk : kept H idx idx2) by (eapply kept_sub; [exact OK|exact OK2|done|by left|set_solver|set_solver]).
    assert (Hh3 : forall k : Z, heap_ok s (k + 1) -> heap_ok s3 k).
    { intros k Hh. replace k with (k + 1 - 1) by lia. eapply heap_ok_sub; [exact OK2|exact OK3|done|done|]. by eapply heap_ok_tail. }
    assert (Hfr3 : heap_fresh s3) by (eapply heap_fresh_sub; [exact OK2|exact OK3|done|done|done]).
    destruct (node_of_idx _ _ _ _ _ _ OK3 Hin) as (nd3 & Hnd3 & _). exists s3, r, nd3. do 8 (split; [done|]). intros _.
    destruct (VfsNodeRelease_spec s3 H _ m (cs ++ [c]) n OK3 Hin) as (s4 & idx4 & -> & OK4 & Hm4 & Hb4 & Hsub4).
    exists s4, idx4. split; [done|]. split; [done|]. split; [by eapply same_mounts_trans|]. split; [|split].
    + eapply kept_trans; [exact Hk|]. eapply kept_sub; [exact OK3|exact OK4|done|by right|set_solver|done].
    + eapply heap_fresh_sub; [exact OK3|exact OK4|done|done|done].
    + intros k Hh%Hh3. eapply heap_ok_sub; [exact OK3|exact OK4|done|done|done].
Qed.

Lemma VfsNodeAcquire_loop_spec : forall qs fuel s H idx m cs dn p,
  vfs_ok s ((m, cs) :: H) idx -> idx !! (m, cs) = Some dn -> Forall proper (cs ++ qs) ->
  length (render (cs ++ qs)) < NX_VFS_MAX_PATH -> heap_fresh s -> (length qs < fuel)%nat ->
  skip_slashes p = relative qs ->
  exists s' r idx', VfsNodeAcquire_loop fs_call fuel s m dn (joined cs) p = Some (s', r) /\
    acquired_any s H idx m (cs ++ qs) r s' idx' /\ forall k, 0 <= k -> clean s H k (length qs) r s' idx'.
Proof.
  induction qs as [|c qs IH]; intros fuel s H idx m cs dn p OK Hdn Hprop Hlen Hfr Hf Hp;
    (destruct fuel as [|fuel]; [lia|]); cbn [VfsNodeAcquire_loop]; rewrite Hp.
  { change (relative []) with (@nil Z). exists s, (Some dn), idx. split; [done|]. rewrite app_nil_r. split; [by split_and!|].
    intros k Hk _ Hh. split; [|done]. eapply heap_ok_less; [exact Hh|cbn; lia]. }
  assert (Hcs : Forall proper (cs ++ [c]) /\ proper c /\ Forall proper qs).
  { rewrite Forall_app, Forall_cons in Hprop. rewrite Forall_app, Forall_cons. naive_solver. }
  destruct Hcs as (Hcs & Hc & Hqs). destruct (relative_cons c qs Hc) as (-> & Htok & Hdrop & Hne).
  assert (Hcase : forall A (a : A) b, match c ++ joined qs with [] => a | _ => b end = b) by (intros; by destruct (c ++ joined qs)).
  rewrite Hcase, Htok, Hdrop. clear Hcase Hne.
  rewrite <- render_snoc. assert (Hlen1 : length (render (cs ++ [c])) < NX_VFS_MAX_PATH).
  { rewrite render_snoc, <- joined_snoc. assert (E : render (cs ++ c :: qs) = joined (cs ++ [c]) ++ joined qs).
    { rewrite <- joined_app, <- app_assoc. by destruct cs. }
    rewrite E, length_app in Hlen. lia. }
  rewrite (proj2 (Z.ltb_lt _ _)), assert_true by done. destruct (skip_relative qs Hqs) as [Hskip _]. cbn [length] in Hf |- *.
  set (test := fun nd : NX_VfsNode => bool_decide (head (joined qs) = Some slash) && negb (bool_decide (type (attr nd) = TYPE_DIR))).
  destruct (acquire_component s H idx m cs c dn test OK Hdn Hcs Hlen1 Hfr) as (s1 & n & -> & Hfound). rewrite Some_bind.
  assert (Hsnoc : cs ++ c :: qs = (cs ++ [c]) ++ qs) by (by rewrite <- app_assoc).
  assert (Hpath : render (cs ++ [c]) = joined (cs ++ [c])) by (by rewrite render_snoc, <- joined_snoc).
  destruct Hfound as [(H0 & OK1 & Hi & Hm1 & Hb1)|(-> & -> & s2 & n2 & -> & Hgot)].
  - rewrite (proj2 (Z.eqb_neq n 0)), Hpath by done. rewrite Hsnoc in *.
    destruct (IH fuel s1 H idx m (cs ++ [c]) n (joined qs) OK1 Hi Hprop Hlen) as (s' & r & idx' & -> & Hacq & Hcl);
      [by eapply (heap_fresh_sub s s1 _ _ idx idx)|lia|done|].
    exists s', r, idx'. split; [done|]. split; [by eapply acquired_any_trans|]. intros k Hk Hv Hh. apply (Hcl k Hk Hv).
    eapply heap_ok_less; [eapply (heap_ok_sub s s1 _ _ idx idx); done|lia].
  - cbn [Z.eqb]. rewrite Some_bind. destruct Hgot as [(-> & Hbad & s3 & idx3 & -> & Hacq)|(H0 & s3 & r & nd & Hfs & Hnd & OK3 & Hi3 & Hm3 & Hk3 & Hfr3 & Hh3 & Hrel)].
    { cbn [Z.eqb]. rewrite Some_bind. exists s3, None, idx3. split; [done|]. split; [apply Hacq|]. intros k Hk Hv Hh. destruct Hbad.
      split; [done|]. eapply heap_ok_less; [exact Hh|lia]. }
    rewrite (proj2 (Z.eqb_neq n2 0)), Hfs, Some_bind, Hnd, Some_bind by done. fold (test nd). destruct (negb (is_ok (r_err r)) || test nd) eqn:Et.
    + destruct (Hrel eq_refl) as (s4 & idx4 & -> & OK4 & Hm4 & Hk4 & Hfr4 & Hh4). rewrite Some_bind. exists s4, None, idx4.
      split; [done|]. split; [split_and!; by try left|]. intros k Hk Hv Hh. split; [|done]. apply Hh4. eapply heap_ok_less; [exact Hh|lia].
    + rewrite Hpath. rewrite Hsnoc in *. destruct (IH fuel s3 H _ m (cs ++ [c]) n2 (joined qs) OK3 Hi3 Hprop Hlen Hfr3) as (s' & r' & idx' & -> & Hacq & Hcl);
        [lia|done|].
      exists s', r', idx'. split; [done|]. split; [by eapply acquired_any_trans|]. intros k Hk Hv Hh. apply (Hcl k Hk Hv), Hh3.
      eapply heap_ok_less; [exact Hh|lia].
Qed.

(** *** The path of a file *)
Definition mounts_ok s : Prop :=
  forall m, m ∈ mountList s -> Some m <> loose /\
    exists mt ms, mounts s !! m = Some mt /\ mpath mt = render ms /\ Forall proper ms.

Definition mount_comps s (m : Z) : list str := resolve [] (split (mount_path s m)).

(** The mount of a file, and its components there. *)
Definition located s (ps : list str) (m : Z) (qs : list str) : Prop :=
  m ∈ mountList s /\ ps = mount_comps s m ++ qs /\
  forall m', m' ∈ mountList s -> mount_comps s m' `prefix_of` ps -> (length (mount_comps s m') <= length (mount_comps s m))%nat.

Lemma mount_path_comps s m : mounts_ok s -> m ∈ mountList s ->
  mount_path s m = render (mount_comps s m) /\ Forall proper (mount_comps s m).
Proof.
  intros Hm Hin. destruct (Hm m Hin) as (HL & mt & ms & Hmt & Hp & Hms). unfold mount_comps, mount_path.
  rewrite Hmt, Hp, resolve_render by done. done.
Qed.

Lemma VfsFindRoot_ext {M} (f g : M -> str) l path : (forall m, m ∈ l -> f m = g m) -> VfsFindRoot f l path = VfsFindRoot g l path.
Proof.
  intros Hfg. unfold VfsFindRoot.
  assert (E : forall acc, fold_left (FindRoot_step f path) l acc = fold_left (FindRoot_step g path) l acc); [|by rewrite E].
  revert Hfg. induction l as [|x l IH]; intros Hfg acc; [done|]. cbn [fold_left]. unfold FindRoot_step at 2 4.
  rewrite (Hfg x) by left. apply IH. intros m Hm. apply Hfg. by right.
Qed.

Lemma find_root_spec s ps : mounts_ok s -> Forall proper ps ->
  match VfsFindRoot (mount_path s) (mountList s) (render ps) with
  | Some (m, p) => exists qs, located s ps m qs /\ p = relative qs
  | None => forall m, m ∈ mountList s -> ~ mount_comps s m `prefix_of` ps
  end.
Proof.
  intros Hm Hps. rewrite (VfsFindRoot_ext _ (fun m => render (mount_comps s m)))
    by (intros m Hin; by apply mount_path_comps).
  pose proof (VfsFindRoot_spec (mount_comps s) (mountList s) ps Hps) as H.
  destruct (VfsFindRoot _ _ _) as [[m p]|].
  - destruct H as (qs & ? & ? & ? & ?); [intros m' Hin; by apply mount_path_comps|]. by exists qs.
  - apply H. intros m' Hin. by apply mount_path_comps.
Qed.

Lemma mounts_ok_same s s' : same_mounts s s' -> mounts_ok s -> mounts_ok s'.
Proof.
  intros Hsm Hm m Hin. pose proof Hsm as (_ & El & _). rewrite El in Hin. destruct (Hm m Hin) as (HL & mt & ms & Hmt & Hp & Hms).
  destruct (same_mounts_lookup _ _ _ _ Hsm Hmt) as (mt' & Hmt' & Hs). split; [done|]. exists mt', ms. split; [done|]. split; [|done].
  unfold mshape in Hs. congruence.
Qed.

Lemma mount_comps_same s s' m : same_mounts s s' -> mount_comps s' m = mount_comps s m.
Proof. intros Hsm. unfold mount_comps. by rewrite (mount_path_same _ _ _ Hsm). Qed.

Lemma located_same s s' ps m qs : same_mounts s s' -> located s' ps m qs <-> located s ps m qs.
Proof.
  intros Hsm. pose proof Hsm as (_ & El & _). unfold located. rewrite El.
  assert (E : forall x, mount_comps s' x = mount_comps s x) by (intros; by apply mount_comps_same). by setoid_rewrite E.
Qed.

Lemma length_relative qs : Forall proper qs -> (length qs <= length (relative qs))%nat.
Proof.
  intros Hqs. unfold relative. rewrite length_drop. destruct qs as [|q qs]; [cbn; lia|].
  apply Forall_cons in Hqs as [(Hq & _) Hqs]. pose proof (length_joined qs Hqs).
  change (joined (q :: qs)) with (slash :: q ++ joined qs). cbn [length]. rewrite length_app. destruct q; [done|]. cbn. lia.
Qed.

Lemma length_render_le ms qs : Forall proper ms -> (length (render qs) <= length (render (ms ++ qs)))%nat.
Proof.
  intros Hms. destruct ms as [|m ms]; [done|].
  assert (E : render ((m :: ms) ++ qs) = joined (m :: ms) ++ joined qs) by (by rewrite <- joined_app). rewrite E, length_app.
  change (joined (m :: ms)) with (slash :: m ++ joined ms). cbn [length]. destruct qs as [|q qs]; [cbn; lia|].
  rewrite render_cons. lia.
Qed.

Lemma VfsNodeAcquire_any s H idx ps :
  vfs_ok s H idx -> mounts_ok s -> Forall proper ps -> length (render ps) < NX_VFS_MAX_PATH ->
  length H + 1 < 2 ^ 62 -> heap_fresh s ->
  exists s' r, VfsNodeAcquire fs_call s (render ps) = Some (s', r) /\
    ((r = None /\ s' = s /\ forall m, m ∈ mountList s -> ~ mount_comps s m `prefix_of` ps) \/
     exists m qs idx', located s ps m qs /\ acquired_any s H idx m qs r s' idx' /\ forall k, 0 <= k -> clean s H k (length ps) r s' idx').
Proof.
  intros OK Hm Hps Hlen Hb Hfr. unfold VfsNodeAcquire. pose proof (find_root_spec s ps Hm Hps) as Hroot.
  destruct (VfsFindRoot _ _ _) as [[m p]|]; [|exists s, None; split; [done|by left]].
  destruct Hroot as (qs & Hloc & ->). pose proof Hloc as (Hin & E & _).
  destruct (mount_path_comps s m Hm Hin) as [_ Hms]. destruct (Hm m Hin) as (HL & mt & ms & Hmt & _). rewrite Hmt, Some_bind.
  pose proof (vo_root _ _ _ OK m mt HL Hmt) as Hi. destruct (vo_node _ _ _ OK _ _ _ Hi) as (H0 & _).
  rewrite (proj2 (Z.eqb_neq _ 0)) by done.
  destruct (increase_root _ _ _ _ _ OK Hi Hb) as (s1 & -> & OK1 & Hm1 & Hb1). rewrite Some_bind.
  rewrite E in Hps. apply Forall_app in Hps as [_ Hqs].
  destruct (VfsNodeAcquire_loop_spec qs (S (length (relative qs))) s1 H idx m [] (root mt) (relative qs) OK1 Hi)
    as (s' & r & idx' & Hrun & Hacq & Hcl).
  - done.
  - cbn [app]. pose proof (length_render_le (mount_comps s m) qs Hms). rewrite E in Hlen. lia.
  - by eapply (heap_fresh_sub s s1 _ _ idx idx).
  - pose proof (length_relative qs Hqs). lia.
  - by apply skip_relative.
  - exists s', r. split; [exact Hrun|]. right. exists m, qs, idx'. split; [done|].
    split; [eapply acquired_any_trans; [exact Hm1|apply kept_refl|exact Hacq]|].
    intros k Hk Hv Hh. apply (Hcl k Hk Hv). eapply heap_ok_less; [eapply (heap_ok_sub s s1 _ _ idx idx); done|].
    rewrite E, length_app. lia.
Qed.

Lemma VfsNodeAcquire_spec s H idx k ps :
  vget_ok -> vfs_ok s H idx -> mounts_ok s -> Forall proper ps -> length (render ps) < NX_VFS_MAX_PATH ->
  length H + 1 < 2 ^ 62 -> heap_ok s (length ps + k) -> 0 <= k ->
  exists s' r, VfsNodeAcquire fs_call s (render ps) = Some (s', r) /\
    ((r = None /\ s' = s /\ forall m, m ∈ mountList s -> ~ mount_comps s m `prefix_of` ps) \/
     exists m qs idx', located s ps m qs /\ acquired s H idx k m qs r s' idx').
Proof.
  intros Hv OK Hm Hps Hlen Hb Hfr Hk0.
  destruct (VfsNodeAcquire_any s H idx ps OK Hm Hps Hlen Hb (heap_ok_fresh _ _ Hfr)) as (s' & r & -> & Hcase). exists s', r. split; [done|].
  destruct Hcase as [?|(m & qs & idx' & Hloc & (Hsm & Hk & _ & Hr) & Hcl)]; [by left|]. right. exists m, qs, idx'. split; [done|].
  destruct (Hcl k Hk0 Hv Hfr) as [Hh Hnone]. split; [done|]. split; [done|]. split; [done|]. destruct r; [done|by apply Hnone].
Qed.

(** C27: Acquiring a file and releasing it is balanced. Whatever files are in
    use, whatever the file systems answer, and whether the heap gives a new
    object or none ([heap_fresh]), [VfsNodeAcquire] of a canonical path that
    fits [NX_VFS_MAX_PATH] either refuses or gives the node of the file: the
    node of the rest of the path in the mount whose path is the longest on the
    way. [VfsNodeRelease] at once restores every count; later, when other files
    have been acquired and released, it takes exactly this holder out. When
    every node of the path can be made (the heap gives the objects and the file
    systems every node, as [cpio] and [devfs] do), a refusal leaves every node
    with the count it had. When a node cannot be made, the code puts the
    directory reached and not its ancestors: the refusal restores the counts or
    leaves them as if a directory at least two levels above the file were still
    in use. *)
Theorem acquire_release s H idx ps :
  vfs_ok s H idx -> mounts_ok s -> Forall proper ps -> length (render ps) < NX_VFS_MAX_PATH ->
  length H + 1 < 2 ^ 62 -> heap_fresh s ->
  exists s' r, VfsNodeAcquire fs_call s (render ps) = Some (s', r) /\
    match r with
    | None => (vget_ok -> heap_ok s (length ps) -> shapes s' = shapes s) /\
        (shapes s' = shapes s \/
         exists m pre x c rest idx', located s ps m (pre ++ x :: c :: rest) /\ vfs_ok s' ((m, pre) :: H) idx' /\ kept H idx idx')
    | Some n => exists m qs nd idx', located s ps m qs /\ nodes s' !! n = Some nd /\ mount nd = m /\ path nd = render qs /\
        vfs_ok s' ((m, qs) :: H) idx' /\ idx' !! (m, qs) = Some n /\
        (exists s'', VfsNodeRelease fs_call s' n = Some s'' /\ shapes s'' = shapes s) /\
        forall s2 H2 idx2, vfs_ok s2 ((m, qs) :: H2) idx2 -> idx2 !! (m, qs) = Some n ->
          exists s3 idx3, VfsNodeRelease fs_call s2 n = Some s3 /\ vfs_ok s3 H2 idx3 /\ kept H2 idx2 idx3
    end.
Proof.
  intros OK Hm Hps Hlen Hb Hfr.
  destruct (VfsNodeAcquire_any s H idx ps OK Hm Hps Hlen Hb Hfr) as (s' & r & Hrun & [(-> & -> & _)|Hacq]).
  { exists s, None. split; [done|]. split; [done|by left]. }
  destruct Hacq as (m & qs & idx' & Hloc & (Hsm & Hk & _ & Hr) & Hcl). exists s', r. split; [done|]. destruct r as [n|].
  2:{ split.
      - intros Hv Hh. destruct (Hcl 0 ltac:(lia) Hv ltac:(by rewrite Z.add_0_r)) as [_ Hno]. by apply (kept_shapes s s' H idx idx'); [|apply Hno|].
      - destruct Hr as [OK'|(pre & x & c & rest & -> & OK')]; [left; by apply (kept_shapes s s' H idx idx')|].
        right. by exists m, pre, x, c, rest, idx'. }
  destruct Hr as [OK' Hi]. destruct (node_of_idx _ _ _ _ _ _ OK' Hi) as (nd & Hn & Hmn & Hp & _).
  exists m, qs, nd, idx'. split_and!; try done.
  - destruct (VfsNodeRelease_spec _ _ _ _ _ _ OK' Hi) as (s'' & idx'' & -> & OK'' & Hsm'' & _ & Hsub).
    exists s''. split; [done|]. apply (kept_shapes s s'' H idx idx''); [done|done|]. eapply kept_trans; [exact Hk|].
    eapply kept_sub; [exact OK'|exact OK''|done|by right|set_solver|done].
  - intros s2 H2 idx2 OK2 Hi2. destruct (VfsNodeRelease_spec _ _ _ _ _ _ OK2 Hi2) as (s3 & idx3 & -> & OK3 & Hsm3 & _ & Hsub).
    exists s3, idx3. split; [done|]. split; [done|]. eapply kept_sub; [exact OK2|exact OK3|done|by right|set_solver|done].
Qed.
End calls.
End refs.
