(* ===== verification/VfsCalls.v ===== *)
(** The calls of the virtual file system keep its references.

    Between calls the holders of nodes are the open descriptors of the file
    tables and the covered directories of the mounts.  Every call ends, with its
    result or its error, and leaves exactly these holders: it gives back each
    reference it took, on all its branches, but the one that a new descriptor
    keeps. *)
From S2P Require Import Prelude VfsPath Vfs VfsOps VfsRefs.

#[local] Coercion Z.of_nat : nat >-> Z.

(** A computation ends with a result of which [Q] holds. *)
Definition wp {A} (run : option A) (Q : A -> Prop) : Prop := exists a, run = Some a /\ Q a.

Lemma wp_ret {A} (a : A) (Q : A -> Prop) : Q a -> wp (Some a) Q.
Proof. intros H. by exists a. Qed.

Lemma wp_bind {A B} (run : option A) (f : A -> option B) (Q : B -> Prop) : wp run (fun a => wp (f a) Q) -> wp (run ≫= f) Q.
Proof. intros (a & -> & b & E & H). exists b. by rewrite Some_bind. Qed.

Lemma wp_mono {A} (run : option A) (P Q : A -> Prop) : wp run P -> (forall a, P a -> Q a) -> wp run Q.
Proof. intros (a & -> & H) HPQ. exists a. split; [done|by apply HPQ]. Qed.

Lemma wp_assert {A} (b : bool) (k : option A) (Q : A -> Prop) : b = true -> wp k Q -> wp (assert b;; k) Q.
Proof. by intros ->. Qed.

(** Nodes of the table. *)
Ltac all_known := repeat (first [apply Forall_nil_2 | apply Forall_cons_2]; cbn [fst snd]); by eexists.

Section calls.
Context {W : Type} `{!BlockOps W}.
Variable fs_call : Z -> FsOp -> Z -> W -> list NodeAttr -> W * list NodeAttr * FsResult.
Hypothesis Hvget : vget_ok fs_call.
Variable loose : option Z.
Implicit Types (s : Vfs (W := W)) (H : holders) (idx : gmap (Z * list str) Z).

Abbreviation vfs_ok := (vfs_ok loose).
Abbreviation mounts_ok := (mounts_ok loose).

(** [k] answers of the heap at least are left; a reference on a file takes up
    to 1024. *)
Definition inv s H idx (k : Z) : Prop :=
  vfs_ok s H idx /\ mounts_ok s /\ heap_ok s k /\ length H + k < 2 ^ 62 /\ 0 <= k.

(** A step of others: the mounts stay and so do the nodes that [H] needs. *)
Definition step s H idx s' idx' : Prop := same_mounts s s' /\ kept H idx idx'.

Lemma step_refl s H idx : step s H idx s idx.
Proof. done. Qed.

Lemma step_trans s1 s2 s3 H idx1 idx2 idx3 : step s1 H idx1 s2 idx2 -> step s2 H idx2 s3 idx3 -> step s1 H idx1 s3 idx3.
Proof. intros [? ?] [? ?]. split; [by eapply same_mounts_trans|by eapply kept_trans]. Qed.

Lemma uses_perm H H' m k : H ≡ₚ H' -> uses H m k = uses H' m k.
Proof. intros E. unfold uses. by rewrite E. Qed.

Lemma uses_mono H H' m k : H ⊆+ H' -> uses H m k <= uses H' m k.
Proof.
  intros [l E]%submseteq_Permutation. rewrite (uses_perm _ _ _ _ E). unfold uses. rewrite filter_app, length_app. lia.
Qed.

Lemma step_less s H H' idx s' idx' : H ⊆+ H' -> step s H' idx s' idx' -> step s H idx s' idx'.
Proof.
  intros Hs [Hm Hk]. split; [done|]. intros m k Hu. apply Hk.
  destruct Hu as [Hu | ->]; [left|by right]. pose proof (uses_mono H H' m k Hs). lia.
Qed.

Lemma step_held s H idx s' idx' h n : step s H idx s' idx' -> h ∈ H -> idx !! h = Some n -> idx' !! h = Some n.
Proof.
  intros [_ Hk] Hh Hn. destruct h as [m cs]. rewrite Hk; [done|]. left. apply uses_pos. exists (m, cs). by split.
Qed.

Lemma vfs_ok_perm s H H' idx : H ≡ₚ H' -> vfs_ok s H idx -> vfs_ok s H' idx.
Proof.
  intros E OK. constructor; try apply OK.
  - intros m cs n Hi. rewrite <- (uses_perm H H') by done. by apply OK.
  - intros m cs cs' Hin. apply (vo_used _ _ _ _ OK). by rewrite E.
  - rewrite <- E. apply OK.
Qed.

Lemma inv_perm s H H' idx k : H ≡ₚ H' -> inv s H idx k -> inv s H' idx k.
Proof. intros E (OK & ? & ? & Hl & ?). split_and!; try done; [by eapply vfs_ok_perm|by rewrite <- E]. Qed.

Lemma inv_less s H idx k j : inv s H idx k -> 0 <= j <= k -> inv s H idx j.
Proof. intros (? & ? & ? & ? & ?) Hj. split_and!; try done; try lia. eapply heap_ok_less; [done|lia]. Qed.

Lemma inv_same s s' H idx k : same_refs s s' -> inv s H idx k -> inv s' H idx k.
Proof.
  intros Hs (OK & Hm & Hh & Hl & Hk). pose proof (same_refs_ok _ _ _ _ _ Hs OK) as OK'. split_and!; try done.
  - eapply mounts_ok_same; [by apply same_refs_mounts|done].
  - eapply (heap_ok_sub loose s s' H H idx idx); try done. by destruct Hs as (_ & _ & _ & _ & ? & _).
Qed.

(** ** References *)
Lemma length_render_comps cs : Forall proper cs -> (length cs <= length (render cs))%nat.
Proof. intros Hp. destruct cs; [cbn; lia|]. rewrite render_cons. by apply length_joined. Qed.

Lemma acquire_wp s H idx k ps (Q : Vfs * option Z -> Prop) :
  inv s H idx k -> Forall proper ps -> length (render ps) < NX_VFS_MAX_PATH -> 1024 <= k ->
  (forall s' idx', inv s' H idx' (k - 1024) -> step s H idx s' idx' -> Q (s', None)) ->
  (forall s' idx' m qs n, inv s' ((m, qs) :: H) idx' (k - 1024) -> step s H idx s' idx' -> located s ps m qs ->
     idx' !! (m, qs) = Some n -> Q (s', Some n)) ->
  wp (VfsNodeAcquire fs_call s (render ps)) Q.
Proof using Hvget.
  intros Hi Hps Hlen Hk Hno Hyes. pose proof Hi as (OK & Hm & Hh & Hl & _). pose proof (length_render_comps ps Hps).
  unfold NX_VFS_MAX_PATH in Hlen.
  destruct (VfsNodeAcquire_spec loose fs_call s H idx (k - 1024) ps Hvget OK Hm Hps Hlen) as (s' & r & Hrun & Hr);
    [lia|eapply heap_ok_less; [done|lia]|lia|].
  exists (s', r). split; [done|]. destruct Hr as [(-> & -> & _)|(m & qs & idx' & Hloc & Hsm & Hkept & Hh' & Hr)].
  - apply (Hno _ idx); [eapply inv_less; [done|lia]|done].
  - pose proof (mounts_ok_same _ _ _ Hsm Hm) as Hm'. destruct r as [n|].
    + destruct Hr as [OK' Hn]. apply (Hyes s' idx' m qs n); try done. split_and!; try done; [cbn [length]|]; lia.
    + apply (Hno s' idx'); [|done]. split_and!; try done; lia.
Qed.

Lemma release_wp s H0 H h idx k n (Q : Vfs -> Prop) :
  inv s H0 idx k -> H0 ≡ₚ h :: H -> idx !! h = Some n ->
  (forall s' idx', inv s' H idx' k -> step s H idx s' idx' -> Q s') -> wp (VfsNodeRelease fs_call s n) Q.
Proof.
  intros Hi E Hn HQ. apply (inv_perm _ _ _ _ _ E) in Hi. destruct Hi as (OK & Hm & Hh & Hl & Hk). destruct h as [m qs].
  destruct (VfsNodeRelease_spec loose fs_call s H idx m qs n OK Hn) as (s' & idx' & Hrun & OK' & Hsm & Hb & Hsub).
  exists s'. split; [done|]. apply (HQ s' idx').
  - split_and!; try done; [by eapply mounts_ok_same| |cbn [length] in Hl; lia].
    by apply (heap_ok_sub loose s s' ((m, qs) :: H) H idx idx').
  - split; [done|]. eapply kept_sub; [exact OK|exact OK'|done|by right|set_solver|done].
Qed.

(** The addresses of the table. *)
Definition known idx (n : Z) : Prop := exists h, idx !! h = Some n.

Lemma known_node s H idx k n : inv s H idx k -> known idx n -> exists nd, nodes s !! n = Some nd /\ is_Some (mounts s !! mount nd).
Proof.
  intros (OK & _) ([m cs] & Hn). destruct (node_of_idx _ _ _ _ _ _ _ OK Hn) as (nd & Hnd & Hm & _). exists nd. split; [done|].
  rewrite Hm. by destruct (vo_node _ _ _ _ OK _ _ _ Hn) as (_ & _ & _ & ? & _).
Qed.

Lemma fs_on_wp s H idx k op n ns (Q : Vfs * FsResult -> Prop) :
  inv s H idx k -> Forall (known idx) (n :: ns) ->
  (forall s' r, inv s' H idx k -> step s H idx s' idx -> (exists f m w l, r = (fs_call f op m w l).2) -> Q (s', r)) ->
  wp (fs_on fs_call s op n ns) Q.
Proof.
  intros Hi Hns HQ. rewrite Forall_forall in Hns. destruct (known_node s H idx k n Hi (Hns n ltac:(left))) as (nd & Hnd & [mt Hmt]).
  unfold fs_on. rewrite Hnd, Some_bind, Hmt, Some_bind.
  destruct (fs_do_same fs_call s (fs mt) op (mount nd) (n :: ns)) as (s' & r & Hrun & Hs & w & l & Er).
  { intros x Hx. destruct (known_node s H idx k x Hi (Hns x Hx)) as (? & ? & _). by eexists. }
  exists (s', r). split; [done|]. apply HQ; [by eapply inv_same|split; [by apply same_refs_mounts|done]|by eexists _, _, _, _].
Qed.

Lemma fs_seq_wp l : forall s H idx k (Q : Vfs * NX_Error -> Prop),
  inv s H idx k -> Forall (fun c => Forall (known idx) (c.1.2 :: c.2)) l ->
  (forall s' e, inv s' H idx k -> step s H idx s' idx -> Q (s', e)) -> wp (fs_seq fs_call s l) Q.
Proof.
  induction l as [|[[op n] ns] l IH]; intros s H idx k Q Hi Hl HQ; cbn [fs_seq].
  { apply wp_ret, HQ; [done|apply step_refl]. }
  apply Forall_cons in Hl as [Hn Hl]. apply wp_bind, (fs_on_wp s H idx k); [done..|]. intros s1 r Hi1 Hst _.
  destruct (is_ok _); [|by apply wp_ret, HQ]. apply (IH s1 H idx k); [done..|].
  intros s2 e Hi2 Hst2. apply HQ; [done|by eapply step_trans].
Qed.

Lemma access_wp s H idx k n md (Q : bool -> Prop) : inv s H idx k -> known idx n -> (forall b, Q b) ->
  wp (VfsNodeAccess s n md) Q.
Proof.
  intros Hi Hn HQ. destruct (known_node _ _ _ _ _ Hi Hn) as (nd & Hnd & [mt Hmt]). unfold VfsNodeAccess.
  rewrite Hnd, Some_bind, Hmt. destruct (nz (Z.land md NX_VFS_R_OK) && _); [by apply wp_ret|].
  destruct (nz (Z.land md NX_VFS_W_OK)); rewrite !Some_bind; (destruct (negb _); [by apply wp_ret|]);
    destruct (_ && _); by apply wp_ret.
Qed.

Lemma node_type_wp s H idx k n (Q : NX_VfsNodeType -> Prop) : inv s H idx k -> known idx n -> (forall t, Q t) ->
  wp (node_type s n) Q.
Proof.
  intros Hi Hn HQ. destruct (known_node _ _ _ _ _ Hi Hn) as (nd & Hnd & _). unfold node_type. rewrite Hnd. by apply wp_ret.
Qed.

Lemma stat_wp s H idx k n (Q : NX_VfsStatInfo * NX_Error -> Prop) : inv s H idx k -> known idx n -> (forall a, Q a) ->
  wp (VfsNodeStat s n) Q.
Proof.
  intros Hi Hn HQ. destruct (known_node _ _ _ _ _ Hi Hn) as (nd & Hnd & _). unfold VfsNodeStat. rewrite Hnd, Some_bind.
  destruct (type_mode _); by apply wp_ret.
Qed.

(** ** Paths *)
Definition cwd_ok (cwd : option str) : Prop :=
  match cwd with Some c => exists st, c = render st /\ Forall proper st /\ length c < NX_VFS_MAX_PATH | None => True end.

Definition cwd_comps (cwd : option str) : list str := match cwd with Some c => resolve [] (split c) | None => [] end.

(** The components a path stands for. *)
Definition abs_comps (cwd : option str) (path : str) : list str := resolve (base_of (cwd_comps cwd) path) (split path).

Lemma abs_comps_proper cwd path : cwd_ok cwd -> Forall proper (abs_comps cwd path).
Proof.
  intros Hc. apply resolve_proper; [|apply split_no_slash]. unfold base_of. case_bool_decide; [done|].
  destruct cwd as [c|]; [|done]. destruct Hc as (st & -> & Hst & _). cbn. by rewrite resolve_render.
Qed.

Lemma build_wp cwd path (Q : str * NX_Error -> Prop) :
  cwd_ok cwd -> path_fits path ->
  (length (render (abs_comps cwd path)) < NX_VFS_MAX_PATH -> Q (render (abs_comps cwd path), NX_EOK)) ->
  (forall b e, e <> NX_EOK -> Q (b, e)) -> wp (NX_VfsBuildAbsPath cwd path) Q.
Proof.
  intros Hc Hfit Hok Herr.
  assert (Hspec : forall st, Forall proper st -> length (render st) < NX_VFS_MAX_PATH -> cwd_comps cwd = st ->
    NX_VfsBuildAbsPath cwd path = NX_VfsBuildAbsPath (Some (render st)) path -> wp (NX_VfsBuildAbsPath cwd path) Q).
  { intros st Hst Hl E ->. destruct (NX_VfsBuildAbsPath_spec st path Hst Hl Hfit) as (b & e & -> & [H|[-> _]]).
    - destruct H as (-> & -> & Hb). apply wp_ret. unfold abs_comps in Hok. rewrite E in Hok. by apply Hok.
    - by apply wp_ret, Herr. }
  destruct cwd as [c|].
  - destruct Hc as (st & -> & Hst & Hl). apply (Hspec st); try done. cbn. by rewrite resolve_render.
  - destruct path as [|x path]; [by apply wp_ret, Herr|]. destruct (Z.eqb_spec x slash) as [->|Hne].
    + by apply (Hspec []).
    + unfold NX_VfsBuildAbsPath. rewrite (proj2 (Z.eqb_neq x slash)) by done. by apply wp_ret, Herr.
Qed.

Definition opt_fits (path : option str) : Prop := match path with Some p => path_fits p | None => True end.

Lemma with_path_spec cwd s path k (Q : Vfs * NX_Error -> Prop) :
  cwd_ok cwd -> opt_fits path ->
  (forall p, path = Some p -> Forall proper (abs_comps cwd p) -> length (render (abs_comps cwd p)) < NX_VFS_MAX_PATH ->
     wp (k (render (abs_comps cwd p))) Q) ->
  (forall e, e <> NX_EOK -> Q (s, e)) -> wp (with_path cwd s path k) Q.
Proof.
  intros Hc Hfit Hk Herr. unfold with_path. destruct path as [p|]; [|by apply wp_ret, Herr]. apply wp_bind, build_wp; [done..| |].
  - intros Hl. apply Hk; [done|by apply abs_comps_proper|done].
  - intros b e He. unfold is_ok. rewrite bool_decide_false by done. by apply wp_ret, Herr.
Qed.

Lemma with_path_wp cwd s path k (Q : Vfs * NX_Error -> Prop) :
  cwd_ok cwd -> opt_fits path ->
  (forall p, path = Some p -> Forall proper (abs_comps cwd p) -> length (render (abs_comps cwd p)) < NX_VFS_MAX_PATH ->
     wp (k (render (abs_comps cwd p))) Q) ->
  (forall e, Q (s, e)) -> wp (with_path cwd s path k) Q.
Proof. intros Hc Hfit Hk Herr. by apply with_path_spec. Qed.

Definition parent (ps : list str) : list str := take (length ps - 1) ps.

Lemma lookup_dir_wp s H idx k ps (Q : Vfs * option (Z * str) -> Prop) :
  inv s H idx k -> Forall proper ps -> length (render ps) < NX_VFS_MAX_PATH -> 1024 <= k ->
  (forall s' idx', inv s' H idx' (k - 1024) -> step s H idx s' idx' -> Q (s', None)) ->
  (forall s' idx' m qs n name, inv s' ((m, qs) :: H) idx' (k - 1024) -> step s H idx s' idx' ->
     located s (parent ps) m qs -> idx' !! (m, qs) = Some n -> Q (s', Some (n, name))) ->
  wp (VfsLookupDir fs_call s (render ps)) Q.
Proof using Hvget.
  intros Hi Hps Hlen Hk Hno Hyes. unfold VfsLookupDir. rewrite Z.geb_leb, (proj2 (Z.leb_gt _ _)) by done.
  assert (Hdir : exists file, StrChrReverse (render ps) slash = Some file /\
    (if Nat.eqb file 0 then [slash] else take file (render ps)) = render (parent ps)).
  { unfold parent. destruct ps as [|t ps _] using rev_ind; [by exists 0%nat|].
    apply Forall_app in Hps as [_ [(_ & _ & _ & Ht) _]%Forall_cons].
    exists (length (joined ps)). rewrite render_snoc, StrChrReverse_last by done. split; [done|].
    rewrite length_app, Nat.add_sub, take_app_length. destruct ps as [|t' ps]; [done|].
    rewrite take_app_length. by rewrite render_cons. }
  destruct Hdir as (file & -> & ->). assert (Hp' : Forall proper (parent ps)) by (by apply Forall_take).
  assert (Hl' : length (render (parent ps)) < NX_VFS_MAX_PATH).
  { unfold parent. destruct ps as [|t ps _] using rev_ind; [done|].
    rewrite length_app, Nat.add_sub, take_app_length. rewrite render_snoc, length_app in Hlen. cbn [length] in Hlen.
    destruct ps; [done|]. rewrite render_cons. lia. }
  apply wp_bind, (acquire_wp s H idx k); [done..| |].
  - intros s' idx' Hi' Hst. apply wp_ret. by apply (Hno s' idx').
  - intros s' idx' m qs n Hi' Hst Hloc Hn. destruct (known_node _ _ _ _ n Hi') as (nd & Hnd & _); [by eexists|].
    rewrite Hnd, Some_bind. case_bool_decide.
    + apply wp_ret. by eapply Hyes.
    + apply wp_bind. eapply release_wp; [exact Hi'|done|exact Hn|]. intros s2 idx2 Hi2 Hst2. apply wp_ret.
      apply (Hno s2 idx2); [done|by eapply step_trans].
Qed.

(** A call that ends with the holders it began with, and at most [c] answers of
    the heap used. *)
Definition ends s H idx (k : Z) s' : Prop := exists idx', inv s' H idx' k /\ step s H idx s' idx'.

Lemma ends_intro s H idx k j s' idx' : inv s' H idx' j -> 0 <= k <= j -> step s H idx s' idx' -> ends s H idx k s'.
Proof. intros Hi Hk Hst. exists idx'. split; [by eapply inv_less|done]. Qed.

Lemma release_ends s0 idx0 s H0 H h idx k j n (Q : Vfs -> Prop) :
  inv s H0 idx j -> H0 ≡ₚ h :: H -> idx !! h = Some n -> 0 <= k <= j -> step s0 H idx0 s idx ->
  (forall s', ends s0 H idx0 k s' -> Q s') -> wp (VfsNodeRelease fs_call s n) Q.
Proof.
  intros Hi E Hn Hk Hst HQ. eapply release_wp; [done..|]. intros s' idx' Hi' Hst'. apply HQ.
  eapply ends_intro; [done|done|by eapply step_trans].
Qed.

Lemma NX_VfsAccess_wp cwd s H idx k path md :
  inv s H idx k -> 1024 <= k -> cwd_ok cwd -> opt_fits path ->
  wp (NX_VfsAccess fs_call cwd s path md) (fun r => ends s H idx (k - 1024) r.1).
Proof using Hvget.
  intros Hi Hk Hc Hf. apply with_path_wp; [done..| |intros e; eapply ends_intro; [done|lia|apply step_refl]].
  intros p -> Hp Hl. apply wp_bind, (acquire_wp s H idx k); [done..| |].
  - intros s' idx' Hi' Hst. apply wp_ret. eapply ends_intro; [done|lia|done].
  - intros s' idx' m qs n Hi' Hst _ Hn. apply wp_bind. eapply access_wp; [exact Hi'|by eexists|]. intros b.
    apply wp_bind. eapply release_ends; [exact Hi'|done|exact Hn| |done|intros s2 He; by apply wp_ret]. lia.
Qed.

Lemma NX_VfsChmod_wp cwd s H idx k path md :
  inv s H idx k -> 1024 <= k -> cwd_ok cwd -> opt_fits path ->
  wp (NX_VfsChmod fs_call cwd s path md) (fun r => ends s H idx (k - 1024) r.1).
Proof using Hvget.
  intros Hi Hk Hc Hf. apply with_path_wp; [done..| |intros e; eapply ends_intro; [done|lia|apply step_refl]].
  intros p -> Hp Hl. apply wp_bind, (acquire_wp s H idx k); [done..| |].
  - intros s' idx' Hi' Hst. apply wp_ret. eapply ends_intro; [done|lia|done].
  - intros s' idx' m qs n Hi' Hst _ Hn. apply wp_bind. eapply fs_seq_wp; [exact Hi'| |].
    + all_known.
    + intros s2 e Hi2 Hst2. apply wp_bind. eapply release_ends; [exact Hi2|done|exact Hn| | |intros s3 He; by apply wp_ret]; [lia|].
      eapply step_trans; [done|]. eapply step_less; [|done]. by apply submseteq_cons.
Qed.

Lemma NX_VfsStat_wp cwd s H idx k path st :
  inv s H idx k -> 1024 <= k -> cwd_ok cwd -> opt_fits path ->
  wp (NX_VfsStat fs_call cwd s path st) (fun r => ends s H idx (k - 1024) r.1.1).
Proof using Hvget.
  intros Hi Hk Hc Hf. assert (Hs : ends s H idx (k - 1024) s) by (eapply ends_intro; [done|lia|apply step_refl]).
  unfold NX_VfsStat. destruct path as [p|]; [|by apply wp_ret]. destruct (negb st); [by apply wp_ret|].
  apply wp_bind, build_wp; [done..| |].
  - intros Hl. apply wp_bind, (acquire_wp s H idx k); [done|by apply abs_comps_proper|done|done| |].
    + intros s' idx' Hi' Hst. apply wp_ret. eapply ends_intro; [done|lia|done].
    + intros s' idx' m qs n Hi' Hst _ Hn. apply wp_bind. eapply stat_wp; [exact Hi'|by eexists|]. intros [a e].
      apply wp_bind. eapply release_ends; [exact Hi'|done|exact Hn| |done|intros s2 He; by apply wp_ret]. lia.
  - intros b e He. unfold is_ok. rewrite bool_decide_false by done. by apply wp_ret.
Qed.

(** ** Directories and names *)
Lemma root_busy s H idx k m n nd :
  inv s H idx k -> (m, []) ∈ H -> idx !! (m, []) = Some n -> nodes s !! n = Some nd -> 2 <= refcnt nd.
Proof.
  intros (OK & _) Hh Hn Hnd. destruct (node_of_idx _ _ _ _ _ _ _ OK Hn) as (nd' & Hnd' & _ & _ & Hr).
  rewrite Hnd in Hnd'. injection Hnd' as <-. rewrite decide_True in Hr by done.
  assert (0 < uses H m []) by (apply uses_pos; by exists (m, [])). lia.
Qed.

Lemma busy_wp s H idx k m qs n (Q : bool -> Prop) :
  inv s H idx k -> (m, qs) ∈ H -> idx !! (m, qs) = Some n -> (forall b, (qs = [] -> b = true) -> Q b) ->
  wp (VfsNodeBusy s n) Q.
Proof.
  intros Hi Hh Hn HQ. destruct (known_node _ _ _ _ n Hi) as (nd & Hnd & _); [by eexists|]. unfold VfsNodeBusy.
  rewrite Hnd, Some_bind. apply wp_ret, HQ. intros ->. pose proof (root_busy _ _ _ _ _ _ _ Hi Hh Hn Hnd).
  rewrite orb_true_iff. right. rewrite Z.geb_leb. by apply Z.leb_le.
Qed.

(** A directory is another node than a file in it. *)
Lemma parent_differs s s1 s2 ps m qs m2 qs2 H idx n dn :
  vfs_ok s H idx -> idx !! (m, qs) = Some n -> idx !! (m2, qs2) = Some dn -> same_mounts s1 s2 ->
  located s1 ps m qs -> located s2 (parent ps) m2 qs2 -> qs <> [] -> dn <> n.
Proof.
  intros OK Hn Hdn Hsm Hl Hl2 Hne ->. pose proof (idx_inj _ _ _ _ _ _ _ _ _ OK Hn Hdn) as [= <- <-].
  apply (located_same _ _ _ _ _ Hsm) in Hl2. destruct Hl as (_ & E & _), Hl2 as (_ & E2 & _).
  rewrite <- E in E2. unfold parent in E2. apply (f_equal length) in E2. rewrite length_take in E2.
  assert (ps = []) as -> by (destruct ps; [done|cbn in E2; lia]). symmetry in E. by apply app_nil in E as [_ ?].
Qed.

Lemma held_step s H h idx s' idx' n :
  step s (h :: H) idx s' idx' -> idx !! h = Some n -> idx' !! h = Some n.
Proof. intros Hst Hn. eapply step_held; [done|left|done]. Qed.

Lemma step_drop s H h idx s' idx' : step s (h :: H) idx s' idx' -> step s H idx s' idx'.
Proof. apply step_less. by apply submseteq_cons. Qed.

Lemma NX_VfsMakeDir_wp cwd s H idx k path md :
  inv s H idx k -> 2048 <= k -> cwd_ok cwd -> opt_fits path ->
  wp (NX_VfsMakeDir fs_call cwd s path md) (fun r => ends s H idx (k - 2048) r.1).
Proof using Hvget.
  intros Hi Hk Hc Hf. apply with_path_wp; [done..| |intros e; eapply ends_intro; [done|lia|apply step_refl]].
  intros p -> Hp Hl. apply wp_bind, (acquire_wp s H idx k); [done..|lia| |].
  - intros s1 idx1 Hi1 Hst1. apply wp_bind, (lookup_dir_wp s1 H idx1 (k - 1024)); [done..|lia| |].
    { intros s2 idx2 Hi2 Hst2. apply wp_ret. eapply ends_intro; [done|lia|by eapply step_trans]. }
    intros s2 idx2 m qs dn name Hi2 Hst2 _ Hn. apply wp_bind. eapply access_wp; [exact Hi2|by eexists|].
    intros b. destruct b; cbn [negb].
    + apply wp_bind. eapply fs_seq_wp; [exact Hi2|all_known|]. intros s3 e Hi3 Hst3.
      apply wp_bind. eapply release_ends; [exact Hi3|done|exact Hn| | |intros s4 He; by apply wp_ret]; [lia|].
      eapply step_trans; [by eapply step_trans|by eapply step_drop].
    + apply wp_bind. eapply release_ends; [exact Hi2|done|exact Hn| | |intros s4 He; by apply wp_ret]; [lia|].
      by eapply step_trans.
  - intros s1 idx1 m qs n Hi1 Hst1 _ Hn. apply wp_bind.
    eapply release_ends; [exact Hi1|done|exact Hn| | |intros s4 He; by apply wp_ret]; [lia|done].
Qed.

Lemma NX_VfsUnlink_wp cwd s H idx k path :
  inv s H idx k -> 2048 <= k -> cwd_ok cwd -> opt_fits path ->
  wp (NX_VfsUnlink fs_call cwd s path) (fun r => ends s H idx (k - 2048) r.1).
Proof using Hvget.
  intros Hi Hk Hc Hf. apply with_path_wp; [done..| |intros e; eapply ends_intro; [done|lia|apply step_refl]].
  intros p -> Hp Hl. apply wp_bind, (acquire_wp s H idx k); [done..|lia| |].
  { intros s1 idx1 Hi1 Hst1. apply wp_ret. eapply ends_intro; [done|lia|done]. }
  intros s1 idx1 m qs n Hi1 Hst1 Hloc1 Hn.
  assert (Hgive : forall e, wp (s' ← VfsNodeRelease fs_call s1 n; Some (s', e)) (fun r : _ * NX_Error => ends s H idx (k - 2048) r.1)).
  { intros e. apply wp_bind. eapply release_ends; [exact Hi1|done|exact Hn| |done|intros s4 He; by apply wp_ret]. lia. }
  apply wp_bind. eapply node_type_wp; [exact Hi1|by eexists|]. intros t. case_bool_decide; [done|].
  apply wp_bind. eapply busy_wp; [exact Hi1|left|exact Hn|]. intros b Hb. destruct b; [done|].
  apply wp_bind. eapply access_wp; [exact Hi1|by eexists|]. intros ok. destruct ok; cbn [negb]; [|done].
  apply wp_bind. eapply lookup_dir_wp; [exact Hi1|done|done|lia| |].
  - intros s2 idx2 Hi2 Hst2. apply wp_bind.
    eapply release_ends; [exact Hi2|done|exact (held_step _ _ _ _ _ _ _ Hst2 Hn)| | |intros s4 He; by apply wp_ret]; [lia|].
    eapply step_trans; [done|by eapply step_drop].
  - intros s2 idx2 m2 qs2 dn name Hi2 Hst2 Hloc2 Hdn. assert (Hn2 : idx2 !! (m, qs) = Some n) by exact (held_step _ _ _ _ _ _ _ Hst2 Hn).
    apply wp_assert.
    { apply negb_true_iff, Z.eqb_neq. eapply parent_differs; [apply Hi2|exact Hn2|exact Hdn|apply Hst1|exact Hloc1|exact Hloc2|].
      intros E. by specialize (Hb E). }
    apply wp_bind. eapply fs_seq_wp; [exact Hi2|all_known|]. intros s3 e Hi3 Hst3.
    apply wp_bind. eapply release_wp; [exact Hi3|done|exact Hdn|]. intros s4 idx4 Hi4 Hst4.
    apply wp_bind. eapply release_ends; [exact Hi4|done|exact (held_step _ _ _ _ _ _ _ Hst4 Hn2)|
      | |intros s5 He; by apply wp_ret]; [lia|].
    eapply step_trans; [done|]. eapply step_trans; [by eapply step_drop|].
    eapply step_trans; [by eapply step_drop, step_drop|by eapply step_drop].
Qed.

(** The nodes of two different files. *)
Lemma located_differs s s1 s2 ps m qs ps2 m2 qs2 H idx n dn :
  vfs_ok s H idx -> idx !! (m, qs) = Some n -> idx !! (m2, qs2) = Some dn -> same_mounts s1 s2 ->
  located s1 ps m qs -> located s2 ps2 m2 qs2 -> ps <> ps2 -> n <> dn.
Proof.
  intros OK Hn Hdn Hsm Hl Hl2 Hne ->. pose proof (idx_inj _ _ _ _ _ _ _ _ _ OK Hn Hdn) as [= <- <-].
  apply (located_same _ _ _ _ _ Hsm) in Hl2. destruct Hl as (_ & E & _), Hl2 as (_ & E2 & _). congruence.
Qed.

Lemma Rename_to_wp s0 s H idx k src dst m1 qs1 n1 msn qsn sn sname :
  inv s ((msn, qsn) :: (m1, qs1) :: H) idx k -> 2048 <= k ->
  idx !! (m1, qs1) = Some n1 -> idx !! (msn, qsn) = Some sn ->
  located s0 src m1 qs1 -> same_mounts s0 s -> n1 <> sn ->
  Forall proper dst -> length (render dst) < NX_VFS_MAX_PATH -> src <> parent dst ->
  wp (Rename_to fs_call s (render dst) n1 sn sname) (fun r => ends s ((m1, qs1) :: H) idx (k - 2048) r.1).
Proof using Hvget.
  intros Hi Hk Hn1 Hsn Hloc Hsm Hne Hdst Hlen Hsrc.
  assert (Hend : forall s' e, ends s ((msn, qsn) :: (m1, qs1) :: H) idx (k - 2048) s' ->
    wp (s' ← VfsNodeRelease fs_call s' sn; Some (s', e)) (fun r : _ * NX_Error => ends s ((m1, qs1) :: H) idx (k - 2048) r.1)).
  { intros s' e (idx' & Hi' & Hst'). apply wp_bind.
    eapply release_ends; [exact Hi'|done|exact (held_step _ _ _ _ _ _ _ Hst' Hsn)| |by eapply step_drop|intros s4 He; by apply wp_ret]. lia. }
  unfold Rename_to. apply wp_bind. apply (acquire_wp s ((msn, qsn) :: (m1, qs1) :: H) idx k); [done..|lia| |].
  2:{ intros s1 idx1 m qs n2 Hi1 Hst1 _ Hn2. apply wp_bind, wp_bind.
    eapply release_ends; [exact Hi1|done|exact Hn2| |exact Hst1|]; [|intros s2 He; by apply wp_ret, Hend]. lia. }
  intros s1 idx1 Hi1 Hst1. apply wp_bind, wp_bind. eapply lookup_dir_wp; [exact Hi1|done|done|lia| |].
  { intros s2 idx2 Hi2 Hst2. apply wp_ret, Hend. eapply ends_intro; [done|lia|by eapply step_trans]. }
  intros s2 idx2 m qs dn dname Hi2 Hst2 Hloc2 Hdn. pose proof (step_trans _ _ _ _ _ _ _ Hst1 Hst2) as Hst02.
  assert (Hsn2 : idx2 !! (msn, qsn) = Some sn) by exact (held_step _ _ _ _ _ _ _ Hst02 Hsn).
  assert (Hn12 : idx2 !! (m1, qs1) = Some n1) by exact (held_step _ _ _ _ _ _ _ (step_drop _ _ _ _ _ _ Hst02) Hn1).
  destruct (known_node _ _ _ _ sn Hi2) as (snd & -> & _); [by eexists|].
  destruct (known_node _ _ _ _ dn Hi2) as (dnd & -> & _); [by eexists|]. rewrite !Some_bind.
  assert (Hd : n1 <> dn).
  { eapply located_differs; [apply Hi2|exact Hn12|exact Hdn| |exact Hloc|exact Hloc2|done].
    eapply same_mounts_trans; [done|apply Hst1]. }
  assert (Hrel : forall s3 idx3 e, inv s3 ((m, qs) :: (msn, qsn) :: (m1, qs1) :: H) idx3 (k - 1024 - 1024) -> step s2 ((m, qs) :: (msn, qsn) :: (m1, qs1) :: H) idx2 s3 idx3 ->
    wp (s' ← VfsNodeRelease fs_call s3 dn; Some (s', e)) (fun r : _ * NX_Error => wp (let '(s', err) := r in
       s'' ← VfsNodeRelease fs_call s' sn; Some (s'', err)) (fun r => ends s ((m1, qs1) :: H) idx (k - 2048) r.1))).
  { intros s3 idx3 e Hi3 Hst3. apply wp_bind.
    eapply release_ends; [exact Hi3|done|exact (held_step _ _ _ _ _ _ _ Hst3 Hdn)| | |intros s4 He; by apply wp_ret, Hend]; [lia|].
    eapply step_trans; [done|by eapply step_drop]. }
  apply wp_bind. destruct (negb (mount snd =? mount dnd)).
  { apply wp_ret. apply (Hrel s2 idx2); [done|apply step_refl]. }
  apply wp_assert; [by apply negb_true_iff, Z.eqb_neq|]. apply wp_assert; [by apply negb_true_iff, Z.eqb_neq|].
  eapply fs_seq_wp; [exact Hi2|destruct (dn =? sn); all_known|]. intros s3 e Hi3 Hst3. by apply (Hrel s3 idx2).
Qed.

Lemma NX_VfsRename_wp cwd s H idx k src dst :
  inv s H idx k -> 4096 <= k -> cwd_ok cwd -> path_fits src -> path_fits dst ->
  abs_comps cwd src <> parent (abs_comps cwd dst) ->
  wp (NX_VfsRename fs_call cwd s src dst) (fun r => ends s H idx (k - 4096) r.1).
Proof using Hvget.
  intros Hi Hk Hc Hf1 Hf2 Hne. assert (Hs : ends s H idx (k - 4096) s) by (eapply ends_intro; [done|lia|apply step_refl]).
  unfold NX_VfsRename. destruct (_ || _); [by apply wp_ret|].
  apply with_path_wp; [done..| |done]. intros p [= <-] Hp Hl. apply with_path_wp; [done..| |done]. intros p2 [= <-] Hp2 Hl2.
  apply wp_bind, (acquire_wp s H idx k); [done..|lia| |].
  { intros s1 idx1 Hi1 Hst1. apply wp_ret. eapply ends_intro; [done|lia|done]. }
  intros s1 idx1 m qs n Hi1 Hst1 Hloc1 Hn.
  assert (Hend : forall s' e, ends s1 ((m, qs) :: H) idx1 (k - 4096) s' ->
    wp (s' ← VfsNodeRelease fs_call s' n; Some (s', e)) (fun r : _ * NX_Error => ends s H idx (k - 4096) r.1)).
  { intros s' e (idx' & Hi' & Hst'). apply wp_bind.
    eapply release_ends; [exact Hi'|done|exact (held_step _ _ _ _ _ _ _ Hst' Hn)| | |intros s4 He; by apply wp_ret]; [lia|].
    eapply step_trans; [done|by eapply step_drop]. }
  assert (Hs1 : ends s1 ((m, qs) :: H) idx1 (k - 4096) s1) by (eapply ends_intro; [done|lia|apply step_refl]).
  apply wp_bind, wp_bind. eapply access_wp; [exact Hi1|by eexists|]. intros ok.
  destruct ok; cbn [negb]; [|by apply wp_ret, Hend].
  destruct (known_node _ _ _ _ n Hi1) as (nd & Hnd & _); [by eexists|]. rewrite Hnd, Some_bind.
  destruct (Z.geb_spec (refcnt nd) 2); [by apply wp_ret, Hend|].
  assert (Hqs : qs <> []) by (intros ->; pose proof (root_busy _ _ _ _ _ _ _ Hi1 ltac:(left) Hn Hnd); lia).
  apply wp_bind. eapply lookup_dir_wp; [exact Hi1|done|done|lia| |].
  { intros s2 idx2 Hi2 Hst2. apply wp_ret, Hend. eapply ends_intro; [done|lia|done]. }
  intros s2 idx2 msn qsn sn sname Hi2 Hst2 Hloc2 Hsn.
  assert (Hn2 : idx2 !! (m, qs) = Some n) by exact (held_step _ _ _ _ _ _ _ Hst2 Hn).
  eapply wp_mono; [eapply (Rename_to_wp s s2 H idx2 (k - 1024 - 1024)); try done; try lia|].
  - eapply same_mounts_trans; [apply Hst1|apply Hst2].
  - apply not_eq_sym. eapply parent_differs; [apply Hi2|exact Hn2|exact Hsn|apply Hst1|exact Hloc1|exact Hloc2|done].
  - intros [s3 e] (idx3 & Hi3 & Hst3). apply Hend. eapply ends_intro; [exact Hi3|lia|by eapply step_trans].
Qed.

(** ** File tables *)

(** The nodes of the open descriptors. *)
Definition opened (ft : FileTable) : list Z := filter (fun n => n <> 0) (node <$> ft).

Definition null_file : NX_VfsFile := mkFile 0 0 0.

(** [hs] are the files the descriptors of a table hold; the first three are
    never used. *)
Definition table_ok idx (ft : option FileTable) (hs : holders) : Prop :=
  match ft with
  | None => hs = []
  | Some ft => length ft = 256%nat /\ Forall (fun f => node f = 0) (take 3 ft) /\
      ((fun h => idx !! h) <$> hs) ≡ₚ (Some <$> opened ft)
  end.

Lemma table_ok_step s H idx s' idx' ft hs : step s H idx s' idx' -> hs ⊆+ H -> table_ok idx ft hs -> table_ok idx' ft hs.
Proof.
  intros Hst Hsub. destruct ft as [ft|]; [|done]. intros (? & ? & E). split_and!; try done. rewrite <- E.
  erewrite list_fmap_ext; [done|]. intros i [m cs] Hi. cbn. apply Hst. left. apply uses_pos. exists (m, cs).
  split; [|done]. eapply elem_of_submseteq; [|done]. by eapply list_elem_of_lookup_2.
Qed.

Lemma zlookup_split (ft : FileTable) fd f : zlookup ft fd = Some f ->
  exists a b, ft = a ++ f :: b /\ Z.of_nat (length a) = fd /\ forall g, zinsert ft fd g = a ++ g :: b.
Proof.
  intros [H0 Hl]%zlookup_Some. exists (take (Z.to_nat fd) ft), (drop (S (Z.to_nat fd)) ft).
  pose proof (lookup_lt_Some _ _ _ Hl). split; [symmetry; by apply take_drop_middle|].
  split; [rewrite length_take_le; lia|]. intros g. unfold zinsert. by apply insert_take_drop.
Qed.

Lemma opened_app a b : opened (a ++ b) = opened a ++ opened b.
Proof. unfold opened. by rewrite fmap_app, filter_app. Qed.

Lemma opened_cons f b : opened (f :: b) = (if decide (node f = 0) then [] else [node f]) ++ opened b.
Proof.
  unfold opened. cbn [fmap list_fmap]. rewrite filter_cons. destruct (decide (node f <> 0)), (decide (node f = 0)); done.
Qed.

Lemma opened_update (ft : FileTable) fd f g : zlookup ft fd = Some f ->
  (if decide (node f = 0) then [] else [node f]) ++ opened (zinsert ft fd g) ≡ₚ
  (if decide (node g = 0) then [] else [node g]) ++ opened ft.
Proof.
  intros Hf. destruct (zlookup_split ft fd f Hf) as (a & b & E & _ & ->). rewrite E, !opened_app, !opened_cons.
  solve_Permutation.
Qed.

Lemma take3_update (ft : FileTable) fd g : 3 <= fd -> take 3 (zinsert ft fd g) = take 3 ft.
Proof. intros Hfd. unfold zinsert. apply take_insert_ge. lia. Qed.

(** The file of a descriptor may change its offset. *)
Lemma table_ok_same idx ft hs fd f g :
  table_ok idx (Some ft) hs -> zlookup ft fd = Some f -> node g = node f -> 3 <= fd -> table_ok idx (Some (zinsert ft fd g)) hs.
Proof.
  intros (Hl & H3 & E) Hf Hg Hfd. split; [by rewrite length_zinsert|]. split; [by rewrite take3_update|].
  rewrite E. apply fmap_Permutation. pose proof (opened_update ft fd f g Hf) as Hp. rewrite Hg in Hp.
  by apply Permutation_app_inv_l in Hp.
Qed.

Lemma table_ok_open idx ft hs fd f g h :
  table_ok idx (Some ft) hs -> zlookup ft fd = Some f -> node f = 0 -> node g <> 0 -> idx !! h = Some (node g) -> 3 <= fd ->
  table_ok idx (Some (zinsert ft fd g)) (h :: hs).
Proof.
  intros (Hl & H3 & E) Hf Hz Hg Hh Hfd. split; [by rewrite length_zinsert|]. split; [by rewrite take3_update|].
  pose proof (opened_update ft fd f g Hf) as Hp. rewrite decide_True, decide_False in Hp by done. cbn [app] in Hp.
  rewrite Hp. cbn [fmap list_fmap]. by rewrite Hh, E.
Qed.

Lemma table_ok_close idx ft hs fd f :
  table_ok idx (Some ft) hs -> zlookup ft fd = Some f -> node f <> 0 -> 3 <= fd ->
  exists h hs', hs ≡ₚ h :: hs' /\ idx !! h = Some (node f) /\ table_ok idx (Some (zinsert ft fd null_file)) hs'.
Proof.
  intros (Hl & H3 & E) Hf Hn Hfd. pose proof (opened_update ft fd f null_file Hf) as Hp.
  rewrite decide_False, decide_True in Hp by done. cbn [app] in Hp. rewrite <- Hp in E. cbn [fmap list_fmap] in E.
  assert (Hin : Some (node f) ∈ (fun h => idx !! h) <$> hs) by (rewrite E; left).
  apply list_elem_of_fmap in Hin as (h & Eh & Hh). apply elem_of_Permutation in Hh as [hs' Hhs].
  exists h, hs'. split; [done|]. split; [done|]. split; [by rewrite length_zinsert|]. split; [by rewrite take3_update|].
  rewrite Hhs in E. cbn [fmap list_fmap] in E. rewrite <- Eh in E. by apply Permutation_cons_inv in E.
Qed.

(** The file of a descriptor. *)
Lemma with_file_wp {A} idx ft hs fd (a b : option A) k (Q : A -> Prop) :
  table_ok idx ft hs -> wp a Q -> wp b Q ->
  (forall table f, ft = Some table -> zlookup table fd = Some f -> node f <> 0 -> 3 <= fd < 256 -> wp (k f) Q) ->
  wp (with_file ft fd a b k) Q.
Proof.
  intros Hft Ha Hb Hk. unfold with_file, VfsFileDescriptorToFile. destruct ft as [ft|]; [|done]. rewrite Some_bind.
  destruct (Z.leb_spec 0 fd); [|done]. destruct (Z.ltb_spec fd NX_VFS_MAX_FD); [|done]. cbn [andb].
  destruct (zlookup ft fd) as [f|] eqn:Hf; [|done]. destruct (Z.eqb_spec (node f) 0); [done|]. apply (Hk ft f); try done.
  split; [|done]. destruct Hft as (_ & H3 & _). destruct (decide (3 <= fd)) as [|Hlt]; [done|]. exfalso.
  rewrite Forall_forall in H3. destruct (proj1 (zlookup_Some _ _ _) Hf) as [_ Hl]. apply n, H3.
  eapply (list_elem_of_lookup_2 _ (Z.to_nat fd)). rewrite lookup_take_lt by lia. done.
Qed.

(** The holder of an open descriptor. *)
Lemma table_known idx ft hs fd f : table_ok idx (Some ft) hs -> zlookup ft fd = Some f -> node f <> 0 -> known idx (node f).
Proof.
  intros (_ & _ & E) Hf Hn. assert (Hin : Some (node f) ∈ (fun h => idx !! h) <$> hs).
  { rewrite E. apply list_elem_of_fmap. exists (node f). split; [done|]. apply list_elem_of_filter. split; [done|].
    apply list_elem_of_fmap. exists f. split; [done|]. apply zlookup_Some in Hf as [_ Hf]. by eapply list_elem_of_lookup_2. }
  apply list_elem_of_fmap in Hin as (h & Eh & _). by exists h.
Qed.

(** [VfsFileAlloc] gives the first free descriptor from 3 on. *)
Lemma VfsFileAlloc_spec ft : length ft = 256%nat ->
  VfsFileAlloc ft = -1 /\ (forall fd f, 3 <= fd -> zlookup ft fd = Some f -> node f <> 0) \/
  3 <= VfsFileAlloc ft < 256 /\ (exists f, zlookup ft (VfsFileAlloc ft) = Some f /\ node f = 0) /\
    (forall fd f, 3 <= fd < VfsFileAlloc ft -> zlookup ft fd = Some f -> node f <> 0).
Proof.
  intros Hl. unfold VfsFileAlloc.
  assert (Hloop : forall l i, 
    VfsFileAlloc_loop l i = -1 /\ Forall (fun f => node f <> 0) l \/
    exists j f, VfsFileAlloc_loop l i = i + Z.of_nat j /\ l !! j = Some f /\ node f = 0 /\
      Forall (fun f => node f <> 0) (take j l)).
  { induction l as [|f l IH]; intros i; cbn [VfsFileAlloc_loop]; [by left|].
    destruct (Z.eqb_spec (node f) 0).
    - right. exists 0%nat, f. split; [lia|]. split; [done|]. split; [done|constructor].
    - destruct (IH (i + 1)) as [[-> Hall]|(j & g & -> & Hj & Hg & Hall)].
      + left. split; [done|by constructor].
      + right. exists (S j), g. split; [lia|]. split; [done|]. split; [done|]. by constructor. }
  destruct (Hloop (drop 3 ft) 3) as [[-> Hall]|(j & f & -> & Hj & Hf & Hall)].
  - left. split; [done|]. intros fd f Hfd [_ Hz]%zlookup_Some. rewrite Forall_forall in Hall. apply Hall.
    apply (list_elem_of_lookup_2 _ (Z.to_nat fd - 3)). rewrite lookup_drop. by replace (3 + (Z.to_nat fd - 3))%nat with (Z.to_nat fd) by lia.
  - right. rewrite lookup_drop in Hj. pose proof (lookup_lt_Some _ _ _ Hj). split; [lia|]. split.
    + exists f. split; [|done]. apply zlookup_Some. split; [lia|]. by replace (Z.to_nat (3 + j)) with (3 + j)%nat by lia.
    + intros fd g Hfd [_ Hz]%zlookup_Some. rewrite Forall_forall in Hall. apply Hall.
      apply (list_elem_of_lookup_2 _ (Z.to_nat fd - 3)). rewrite lookup_take_lt by lia. rewrite lookup_drop.
      by replace (3 + (Z.to_nat fd - 3))%nat with (Z.to_nat fd) by lia.
Qed.

(** ** Calls on descriptors

    The holders of the file table and the others, after a call. *)
Definition tends s H idx (k : Z) s' (ft' : option FileTable) : Prop :=
  exists hs' idx', inv s' (hs' ++ H) idx' k /\ table_ok idx' ft' hs' /\ step s H idx s' idx'.

Lemma tends_intro s0 idx0 H k j s hs idx ft :
  inv s (hs ++ H) idx j -> 0 <= k <= j -> table_ok idx ft hs -> step s0 H idx0 s idx -> tends s0 H idx0 k s ft.
Proof. intros Hi Hk Hft Hst. exists hs, idx. split; [by eapply inv_less|done]. Qed.

Lemma ends_tends s H idx k s' ft hs : ends s (hs ++ H) idx k s' -> table_ok idx ft hs -> tends s H idx k s' ft.
Proof.
  intros (idx' & Hi & Hst) Hft. exists hs, idx'. split; [done|]. split; [|eapply step_less; [|done]; by apply submseteq_inserts_l].
  eapply table_ok_step; [done| |done]. by apply submseteq_inserts_r.
Qed.

Lemma submseteq_tail hs H : H ⊆+ hs ++ H.
Proof. by apply submseteq_inserts_l. Qed.

Lemma submseteq_front hs H : hs ⊆+ hs ++ H.
Proof. by apply submseteq_inserts_r. Qed.

(** A call that only calls the file system for an open descriptor. *)
Lemma fs_call_tends {A} (ret : Vfs -> FsResult -> option A) (out : A -> Vfs * option FileTable)
    s H hs idx k table fd f op :
  inv s (hs ++ H) idx k -> table_ok idx (Some table) hs -> zlookup table fd = Some f -> node f <> 0 ->
  (forall s' r, inv s' (hs ++ H) idx k -> step s (hs ++ H) idx s' idx -> (exists g m w l, r = (fs_call g op m w l).2) ->
     wp (ret s' r) (fun a => tends s H idx k (out a).1 (out a).2)) ->
  wp ('(s, r) ← fs_on fs_call s op (node f) []; ret s r) (fun a => tends s H idx k (out a).1 (out a).2).
Proof.
  intros Hi Hft Hf Hn Hret. apply wp_bind. eapply fs_on_wp; [exact Hi| |].
  - apply Forall_cons_2; [by eapply table_known|apply Forall_nil_2].
  - intros s' r Hi' Hst Hr. by apply Hret.
Qed.

Lemma tends_same s H hs idx k s' ft :
  inv s' (hs ++ H) idx k -> step s (hs ++ H) idx s' idx -> table_ok idx ft hs -> tends s H idx k s' ft.
Proof.
  intros Hi Hst Hft. exists hs, idx. split; [done|]. split; [done|]. eapply step_less; [apply submseteq_tail|done].
Qed.

Lemma tends_refl s H hs idx k ft : inv s (hs ++ H) idx k -> table_ok idx ft hs -> tends s H idx k s ft.
Proof. intros Hi Hft. by eapply tends_same; [|apply step_refl|]. Qed.

(** A descriptor with another offset. *)
Lemma put_file_ok idx table hs fd f o :
  table_ok idx (Some table) hs -> zlookup table fd = Some f -> 3 <= fd ->
  table_ok idx (put_file (Some table) fd (set_offset o f)) hs.
Proof. intros Hft Hf Hfd. by apply (table_ok_same idx table hs fd f). Qed.

Lemma NX_VfsRead_wp s ft hs H idx k fd buf len :
  inv s (hs ++ H) idx k -> table_ok idx ft hs ->
  wp (NX_VfsRead fs_call s ft fd buf len) (fun r => tends s H idx k r.1.1.1.1 r.1.1.1.2).
Proof.
  intros Hi Hft. unfold NX_VfsRead. destruct (_ || _); [by apply wp_ret, tends_refl with hs|].
  eapply with_file_wp; [exact Hft|by apply wp_ret, tends_refl with hs..|]. intros table f -> Hf Hn Hfd.
  apply wp_bind. eapply node_type_wp; [exact Hi|by eapply table_known|]. intros t.
  destruct (negb _); [by apply wp_ret, tends_refl with hs|]. destruct (negb _); [by apply wp_ret, tends_refl with hs|].
  eapply (fs_call_tends _ (fun a : _ * _ * _ * _ * _ => a.1.1.1)); [done..|]. intros s' r Hi' Hst _. apply wp_ret.
  eapply tends_same; [done..|]. apply put_file_ok; [done..|lia].
Qed.

Lemma NX_VfsWrite_wp s ft hs H idx k fd buf :
  inv s (hs ++ H) idx k -> table_ok idx ft hs ->
  wp (NX_VfsWrite fs_call s ft fd buf) (fun r => tends s H idx k r.1.1.1 r.1.1.2).
Proof.
  intros Hi Hft. unfold NX_VfsWrite. destruct buf as [[|b buf]|]; [by apply wp_ret, tends_refl with hs| |by apply wp_ret, tends_refl with hs].
  eapply with_file_wp; [exact Hft|by apply wp_ret, tends_refl with hs..|]. intros table f -> Hf Hn Hfd.
  apply wp_bind. eapply node_type_wp; [exact Hi|by eapply table_known|]. intros t.
  destruct (negb _); [by apply wp_ret, tends_refl with hs|]. destruct (negb _); [by apply wp_ret, tends_refl with hs|].
  eapply (fs_call_tends _ (fun a : _ * _ * _ * _ => a.1.1)); [done..|]. intros s' r Hi' Hst _. apply wp_ret.
  eapply tends_same; [done..|]. apply put_file_ok; [done..|lia].
Qed.

Lemma NX_VfsIoctl_wp s ft hs H idx k fd cmd arg :
  inv s (hs ++ H) idx k -> table_ok idx ft hs ->
  wp (NX_VfsIoctl fs_call s ft fd cmd arg) (fun r => tends s H idx k r.1.1 r.1.2).
Proof.
  intros Hi Hft. eapply with_file_wp; [exact Hft|by apply wp_ret, tends_refl with hs..|]. intros table f -> Hf Hn Hfd.
  eapply (fs_call_tends _ (fun a : _ * _ * _ => a.1)); [done..|]. intros s' r Hi' Hst _. by apply wp_ret; eapply tends_same.
Qed.

Lemma NX_VfsFileSync_wp s ft hs H idx k fd :
  inv s (hs ++ H) idx k -> table_ok idx ft hs ->
  wp (NX_VfsFileSync fs_call s ft fd) (fun r => tends s H idx k r.1.1 r.1.2).
Proof.
  intros Hi Hft. eapply with_file_wp; [exact Hft|by apply wp_ret, tends_refl with hs..|]. intros table f -> Hf Hn Hfd.
  destruct (negb _); [by apply wp_ret, tends_refl with hs|].
  eapply (fs_call_tends _ (fun a : _ * _ * _ => a.1)); [done..|]. intros s' r Hi' Hst _. by apply wp_ret; eapply tends_same.
Qed.

Lemma NX_VfsFileChmod_wp s ft hs H idx k fd md :
  inv s (hs ++ H) idx k -> table_ok idx ft hs ->
  wp (NX_VfsFileChmod fs_call s ft fd md) (fun r => tends s H idx k r.1.1 r.1.2).
Proof.
  intros Hi Hft. eapply with_file_wp; [exact Hft|by apply wp_ret, tends_refl with hs..|]. intros table f -> Hf Hn Hfd.
  eapply (fs_call_tends _ (fun a : _ * _ * _ => a.1)); [done..|]. intros s' r Hi' Hst _. by apply wp_ret; eapply tends_same.
Qed.

Lemma NX_VfsFileStat_wp s ft hs H idx k fd st :
  inv s (hs ++ H) idx k -> table_ok idx ft hs -> wp (NX_VfsFileStat s ft fd st) (fun _ => True).
Proof.
  intros Hi Hft. unfold NX_VfsFileStat. destruct (negb st); [by apply wp_ret|].
  eapply with_file_wp; [exact Hft|by apply wp_ret..|]. intros table f -> Hf Hn Hfd. apply wp_bind.
  eapply stat_wp; [exact Hi|by eapply table_known|]. intros [a e]. by apply wp_ret.
Qed.

Lemma NX_VfsFileSeek_wp s ft hs H idx k fd off whence :
  inv s (hs ++ H) idx k -> table_ok idx ft hs ->
  wp (NX_VfsFileSeek s ft fd off whence) (fun r => tends s H idx k s r.1.1).
Proof.
  intros Hi Hft. eapply with_file_wp; [exact Hft|by apply wp_ret, tends_refl with hs..|]. intros table f -> Hf Hn Hfd.
  destruct (known_node _ _ _ _ (node f) Hi) as (nd & -> & _); [by eapply table_known|]. rewrite Some_bind.
  destruct (seek_to _ _ _ _) as [o|]; apply wp_ret; [|by eapply tends_refl].
  eapply tends_refl; [done|]. apply put_file_ok; [done..|lia].
Qed.

Lemma NX_VfsRewindDir_wp s ft hs H idx k fd :
  inv s (hs ++ H) idx k -> table_ok idx ft hs -> wp (NX_VfsRewindDir s ft fd) (fun r => tends s H idx k s r.1).
Proof.
  intros Hi Hft. eapply with_file_wp; [exact Hft|by apply wp_ret, tends_refl with hs..|]. intros table f -> Hf Hn Hfd.
  apply wp_bind. eapply node_type_wp; [exact Hi|by eapply table_known|]. intros t.
  destruct (negb _); apply wp_ret; [by eapply tends_refl|]. eapply tends_refl; [done|]. apply put_file_ok; [done..|lia].
Qed.

(** ** Opening and closing *)
Definition opens s H idx (k : Z) s' (n : Z) : Prop :=
  exists h idx', inv s' (h :: H) idx' k /\ step s H idx s' idx' /\ idx' !! h = Some n.

Lemma opens_nonnull s H idx k s' n : opens s H idx k s' n -> n <> 0.
Proof.
  intros ([m qs] & idx' & (OK & _) & _ & Hn). by destruct (vo_node _ _ _ _ OK _ _ _ Hn) as (? & _).
Qed.

Lemma opens_known s H idx k s' n : opens s H idx k s' n -> exists H' idx', inv s' H' idx' k /\ known idx' n.
Proof. intros (h & idx' & Hi & _ & Hn). exists (h :: H), idx'. split; [done|by exists h]. Qed.

(** The reference on a file just opened is given back. *)
Lemma opens_release {A} s H idx k j s' n (a : Vfs -> A) (Q : A -> Prop) :
  opens s H idx j s' n -> 0 <= k <= j -> (forall s'', ends s H idx k s'' -> Q (a s'')) ->
  wp (s'' ← VfsNodeRelease fs_call s' n; Some (a s'')) Q.
Proof.
  intros (h & idx' & Hi & Hst & Hn) Hk HQ. apply wp_bind.
  eapply release_ends; [exact Hi|done|exact Hn|exact Hk|exact Hst|]. intros s'' He. by apply wp_ret, HQ.
Qed.

Lemma opens_less s H idx k j s' n : opens s H idx j s' n -> 0 <= k <= j -> opens s H idx k s' n.
Proof. intros (h & idx' & Hi & Hrest) Hk. exists h, idx'. split; [by eapply inv_less|done]. Qed.

Lemma opens_step s H idx s1 idx1 k s' n : step s H idx s1 idx1 -> opens s1 H idx1 k s' n -> opens s H idx k s' n.
Proof. intros Hst (h & idx' & Hi & Hst' & Hn). exists h, idx'. split; [done|]. split; [by eapply step_trans|done]. Qed.

Definition node_result {A B} s H idx (k : Z) (node_of : A -> Z) (r : Vfs * (A + B)) : Prop :=
  match r.2 with inl a => opens s H idx k r.1 (node_of a) | inr _ => ends s H idx k r.1 end.

Lemma Open_create_wp s H idx k ps md :
  inv s H idx k -> 2048 <= k -> Forall proper ps -> length (render ps) < NX_VFS_MAX_PATH ->
  wp (Open_create fs_call s (render ps) md) (node_result s H idx (k - 2048) id).
Proof using Hvget.
  intros Hi Hk Hps Hl. apply wp_bind, (lookup_dir_wp s H idx k); [done..|lia| |].
  { intros s1 idx1 Hi1 Hst1. apply wp_ret. eapply ends_intro; [done|lia|done]. }
  intros s1 idx1 m qs dn name Hi1 Hst1 _ Hdn. apply wp_bind. eapply access_wp; [exact Hi1|by eexists|]. intros ok.
  destruct ok; cbn [negb].
  2:{ apply wp_bind. eapply release_ends; [exact Hi1|done|exact Hdn| |exact Hst1|intros s2 He; apply wp_ret; exact He]. lia. }
  apply wp_bind. eapply fs_seq_wp; [exact Hi1|all_known|]. intros s2 e Hi2 Hst2. apply wp_bind.
  eapply release_wp; [exact Hi2|done|exact Hdn|]. intros s3 idx3 Hi3 Hst3.
  assert (Hst : step s H idx s3 idx3) by (eapply step_trans; [exact Hst1|eapply step_trans; [by eapply step_drop|done]]).
  destruct (is_ok e); cbn [negb]; [|apply wp_ret; eapply ends_intro; [done|lia|done]].
  apply wp_bind, (acquire_wp s3 H idx3 (k - 1024)); [done..|lia| |].
  - intros s4 idx4 Hi4 Hst4. apply wp_ret. eapply ends_intro; [done|lia|by eapply step_trans].
  - intros s4 idx4 m4 qs4 n Hi4 Hst4 _ Hn. apply wp_ret. exists (m4, qs4), idx4.
    split; [eapply inv_less; [done|lia]|]. split; [by eapply step_trans|done].
Qed.

Lemma Open_node_wp s H idx k ps fl md :
  inv s H idx k -> 3072 <= k -> Forall proper ps -> length (render ps) < NX_VFS_MAX_PATH ->
  wp (Open_node fs_call s (render ps) fl md) (node_result s H idx (k - 3072) fst).
Proof using Hvget.
  intros Hi Hk Hps Hl. unfold Open_node. destruct (has fl NX_VFS_O_CREAT).
  - apply wp_bind, (acquire_wp s H idx k); [done..|lia| |].
    + intros s1 idx1 Hi1 Hst1. apply wp_bind. eapply wp_mono; [eapply (Open_create_wp s1 H idx1 (k - 1024)); [done|lia|done|done]|].
      intros [s2 [n|e]] Hr; apply wp_ret; cbn in Hr |- *.
      * apply (opens_step _ _ _ _ _ _ _ _ Hst1). eapply opens_less; [exact Hr|lia].
      * destruct Hr as (idx2 & Hi2 & Hst2). eapply ends_intro; [exact Hi2|lia|by eapply step_trans].
    + intros s1 idx1 m qs n Hi1 Hst1 _ Hn.
      assert (Ho : opens s H idx (k - 1024) s1 n) by (by exists (m, qs), idx1). destruct (has fl NX_VFS_O_EXCL).
      * eapply (opens_release _ _ _ (k - 3072)); [exact Ho|lia|done].
      * apply wp_ret. eapply opens_less; [exact Ho|lia].
  - apply wp_bind, (acquire_wp s H idx k); [done..|lia| |].
    + intros s1 idx1 Hi1 Hst1. apply wp_ret. eapply ends_intro; [done|lia|done].
    + intros s1 idx1 m qs n Hi1 Hst1 _ Hn.
      assert (Ho : opens s H idx (k - 1024) s1 n) by (by exists (m, qs), idx1).
      assert (Hret : node_result s H idx (k - 3072) fst (s1, inl (n, fl) : Z * Z + NX_Error)).
      { eapply opens_less; [exact Ho|lia]. }
      destruct (_ || _); [|by apply wp_ret]. apply wp_bind. eapply access_wp; [exact Hi1|by eexists|]. intros ok.
      destruct ok; cbn [negb]; [|eapply (opens_release _ _ _ (k - 3072)); [exact Ho|lia|done]].
      apply wp_bind. eapply node_type_wp; [exact Hi1|by eexists|]. intros t.
      case_bool_decide; [eapply (opens_release _ _ _ (k - 3072)); [exact Ho|lia|done]|by apply wp_ret].
Qed.

(** What a call leaves that opens a descriptor: the table, the first free
    descriptor with the file at its start, and no other change of the table; or
    the table as it was. *)
Definition open_result (ft ft' : FileTable) (fd : Z) : Prop :=
  fd = -1 /\ ft' = ft \/ 3 <= fd < 256 /\ fd = VfsFileAlloc ft /\ exists f, node f <> 0 /\ offset f = 0 /\ ft' = zinsert ft fd f.

Lemma Open_file_wp s0 idx0 s hs H k ft n fl :
  table_ok idx0 (Some ft) hs -> opens s0 (hs ++ H) idx0 k s n ->
  wp (Open_file fs_call s ft n fl) (fun r => tends s0 H idx0 k r.1.1.1 (Some r.1.1.2) /\ open_result ft r.1.1.2 r.1.2).
Proof.
  intros Hft Ho. pose proof (opens_nonnull _ _ _ _ _ _ Ho) as Hn0.
  assert (Hk : 0 <= k) by (by destruct Ho as (? & ? & (_ & _ & _ & _ & ?) & _)).
  assert (Hgive : forall s1 e, opens s0 (hs ++ H) idx0 k s1 n ->
    wp (s' ← VfsNodeRelease fs_call s1 n; Some (s', ft, -1, e)) (fun r : _ * _ * _ * NX_Error => tends s0 H idx0 k r.1.1.1 (Some r.1.1.2) /\ open_result ft r.1.1.2 r.1.2)).
  { intros s1 e Ho1. eapply (opens_release _ _ _ k k); [exact Ho1|done|]. intros s2 He. split; [by eapply ends_tends|by left]. }
  assert (Halloc : forall s1, opens s0 (hs ++ H) idx0 k s1 n ->
    wp (if VfsFileAlloc ft <? 0 then s' ← VfsNodeRelease fs_call s1 n; Some (s', ft, -1, NX_ENORES)
        else Some (s1, zinsert ft (VfsFileAlloc ft) (mkFile n 0 fl), VfsFileAlloc ft, NX_EOK))
       (fun r => tends s0 H idx0 k r.1.1.1 (Some r.1.1.2) /\ open_result ft r.1.1.2 r.1.2)).
  { intros s1 Ho1. destruct (VfsFileAlloc_spec ft (proj1 Hft)) as [[-> _]|(Hr & (f & Hf & Hf0) & _)]; [by apply Hgive|].
    rewrite (proj2 (Z.ltb_ge _ _)) by lia. apply wp_ret. destruct Ho1 as (h & idx1 & Hi1 & Hst1 & Hn). split.
    - exists (h :: hs), idx1. split; [done|]. split; [|eapply step_less; [apply submseteq_tail|done]].
      eapply table_ok_open; [|exact Hf|done|done|exact Hn|lia].
      eapply table_ok_step; [exact Hst1|apply submseteq_front|done].
    - right. split; [exact Hr|]. split; [done|]. by exists (mkFile n 0 fl). }
  unfold Open_file. destruct (has fl NX_VFS_O_TRUNC); [|by apply Halloc].
  pose proof Ho as (h & idx1 & Hi1 & Hst1 & Hn). apply wp_bind. eapply node_type_wp; [exact Hi1|by eexists|]. intros t.
  destruct (_ || _); [by apply Hgive|]. apply wp_bind. eapply fs_on_wp; [exact Hi1|all_known|]. intros s1 r Hi2 Hst2 _.
  assert (Ho1 : opens s0 (hs ++ H) idx0 k s1 n).
  { exists h, idx1. split; [done|]. split; [|done]. eapply step_trans; [done|by eapply step_drop]. }
  destruct (is_ok _); [by apply Halloc|by apply Hgive].
Qed.

Lemma tends_less s H idx k j s' ft : tends s H idx j s' ft -> 0 <= k <= j -> tends s H idx k s' ft.
Proof. intros (hs & idx' & Hi & Hrest) Hk. exists hs, idx'. split; [by eapply inv_less|done]. Qed.

Definition opt_open_result (ft ft' : option FileTable) (fd : Z) : Prop :=
  match ft, ft' with
  | Some ft, Some ft' => open_result ft ft' fd
  | None, None => fd = -1
  | _, _ => False
  end.

Lemma NX_VfsOpen_wp cwd s ft hs H idx k path fl md :
  inv s (hs ++ H) idx k -> table_ok idx ft hs -> 3072 <= k -> cwd_ok cwd -> opt_fits path ->
  wp (NX_VfsOpen fs_call cwd s ft path fl md)
     (fun r => tends s H idx (k - 3072) r.1.1.1 r.1.1.2 /\ opt_open_result ft r.1.1.2 r.1.2).
Proof using Hvget.
  intros Hi Hft Hk Hc Hf.
  assert (Hno : tends s H idx (k - 3072) s ft /\ opt_open_result ft ft (-1)).
  { split; [eapply tends_less; [by eapply tends_refl|lia]|]. destruct ft; [by left|done]. }
  unfold NX_VfsOpen. destruct path as [p|]; [|by apply wp_ret]. destruct (negb _); [by apply wp_ret|].
  destruct ft as [table|]; [|by apply wp_ret]. apply wp_bind, build_wp; [done..| |].
  2:{ intros b e He. unfold is_ok. rewrite bool_decide_false by done. by apply wp_ret. }
  intros Hl. cbn [negb is_ok]. apply wp_bind. eapply wp_mono; [by eapply (Open_node_wp s (hs ++ H) idx k); [..|apply abs_comps_proper|]|].
  intros [s1 [[n fl1]|e]] Hr; cbn in Hr.
  - apply wp_bind. eapply wp_mono; [by eapply Open_file_wp|]. intros [[[s2 table2] fd] e] Hr2. by apply wp_ret.
  - apply wp_ret. split; [by eapply ends_tends|by left].
Qed.

Lemma VfsFileFree_eq ft fd f : 3 <= fd < 256 -> zlookup ft fd = Some f -> node f <> 0 ->
  VfsFileFree ft fd = zinsert ft fd null_file.
Proof.
  intros Hfd Hf Hn. unfold VfsFileFree, NX_VFS_MAX_FD, nz.
  rewrite (proj2 (Z.leb_le 3 fd)), (proj2 (Z.ltb_lt fd 256)), Hf, (proj2 (Z.eqb_neq (node f) 0)) by lia. done.
Qed.

Lemma NX_VfsClose_wp s ft hs H idx k fd :
  inv s (hs ++ H) idx k -> table_ok idx ft hs ->
  wp (NX_VfsClose fs_call s ft fd) (fun r => tends s H idx k r.1.1 r.1.2).
Proof.
  intros Hi Hft. unfold NX_VfsClose. destruct ft as [table|]; [|by apply wp_ret, tends_refl with hs].
  eapply with_file_wp; [exact Hft|by apply wp_ret, tends_refl with hs..|]. intros table' f [= <-] Hf Hn Hfd.
  eapply (fs_call_tends _ (fun a : _ * _ * _ => a.1)); [done..|]. intros s1 r Hi1 Hst1 _.
  destruct (negb _); [apply wp_ret; by eapply tends_same|].
  destruct (table_ok_close idx table hs fd f Hft Hf Hn ltac:(lia)) as (h & hs' & Hp & Hh & Hft').
  apply wp_bind. eapply (release_wp s1 (hs ++ H) (hs' ++ H) h); [exact Hi1|by rewrite Hp|exact Hh|].
  intros s2 idx2 Hi2 Hst2. apply wp_ret. exists hs', idx2. split; [done|]. split.
  - rewrite (VfsFileFree_eq _ _ f) by done. eapply table_ok_step; [exact Hst2|apply submseteq_front|done].
  - eapply step_trans; [|eapply step_less; [apply submseteq_tail|exact Hst2]].
    eapply step_less; [apply submseteq_tail|done].
Qed.

(** ** Directories *)
Lemma tends_trans s H idx s1 idx1 k s2 ft2 : step s H idx s1 idx1 -> tends s1 H idx1 k s2 ft2 -> tends s H idx k s2 ft2.
Proof. intros Hst (hs & idx2 & Hi & Hft & Hst2). exists hs, idx2. split; [done|]. split; [done|by eapply step_trans]. Qed.

(** An open descriptor at an offset. *)
Definition open_at (ft : option FileTable) (fd o : Z) : Prop :=
  exists table f, ft = Some table /\ zlookup table fd = Some f /\ node f <> 0 /\ offset f = o.

Lemma open_result_at ft ft' fd : length ft = 256%nat -> open_result ft ft' fd -> fd = -1 \/ 3 <= fd /\ open_at (Some ft') fd 0.
Proof.
  intros Hl [[-> _]|(Hr & _ & f & Hn & Ho & ->)]; [by left|right]. split; [lia|]. exists (zinsert ft fd f), f. split; [done|].
  split; [|done]. rewrite zlookup_zinsert by lia. by rewrite decide_True.
Qed.

Lemma table_length idx table hs : table_ok idx (Some table) hs -> length table = 256%nat.
Proof. by intros (? & _). Qed.

Lemma NX_VfsOpenDir_wp cwd s ft hs H idx k name :
  inv s (hs ++ H) idx k -> table_ok idx ft hs -> 3072 <= k -> cwd_ok cwd -> opt_fits name ->
  wp (NX_VfsOpenDir fs_call cwd s ft name)
     (fun r => tends s H idx (k - 3072) r.1.1.1 r.1.1.2 /\ (r.1.2 = -1 \/ 3 <= r.1.2 /\ open_at r.1.1.2 r.1.2 0)).
Proof using Hvget.
  intros Hi Hft Hk Hc Hf. unfold NX_VfsOpenDir. destruct name as [p|].
  2:{ apply wp_ret. split; [eapply tends_less; [by eapply tends_refl|lia]|by left]. }
  apply wp_bind. eapply wp_mono; [by eapply NX_VfsOpen_wp|]. intros [[[s1 ft1] fd] e] [Ht Hr]. cbn in Ht, Hr.
  pose proof Ht as (hs1 & idx1 & Hi1 & Hft1 & Hst1).
  assert (Hat : fd = -1 \/ 3 <= fd /\ open_at ft1 fd 0).
  { destruct ft as [ft|], ft1 as [ft1|]; try done; [|by left]. eapply open_result_at; [exact (table_length _ _ _ Hft)|exact Hr]. }
  destruct (Z.ltb_spec fd 0) as [Hlt|Hge].
  { apply wp_ret. split; [done|]. destruct Hat as [?|[? _]]; [by left|lia]. }
  destruct Hat as [?|[H3 Hat]]; [lia|].
  eapply with_file_wp; [exact Hft1|apply wp_ret; split; [done|by left]..|]. intros table f -> Hfd Hn Hrange.
  apply wp_bind. eapply node_type_wp; [exact Hi1|by eapply table_known|]. intros t. destruct (negb _).
  - apply wp_bind. eapply wp_mono; [by eapply (NX_VfsClose_wp s1 (Some table) hs1 H idx1)|].
    intros [[s2 ft2] e2] Ht2. apply wp_ret. split; [by eapply tends_trans|by left].
  - apply wp_ret. split; [done|by right].
Qed.

Lemma NX_VfsCloseDir_wp s ft hs H idx k fd :
  inv s (hs ++ H) idx k -> table_ok idx ft hs ->
  wp (NX_VfsCloseDir fs_call s ft fd) (fun r => tends s H idx k r.1.1 r.1.2).
Proof.
  intros Hi Hft. eapply with_file_wp; [exact Hft|by apply wp_ret, tends_refl with hs..|]. intros table f -> Hf Hn Hfd.
  apply wp_bind. eapply node_type_wp; [exact Hi|by eapply table_known|]. intros t.
  destruct (negb _); [by apply wp_ret, tends_refl with hs|]. by eapply NX_VfsClose_wp.
Qed.

(** A directory has less than [N] entries, each of a length of its own. *)
Definition readdir_ends (N : Z) : Prop :=
  0 <= N < 2 ^ 62 /\
  forall f m w l off, let r := (fs_call f (Fs_readdir off) m w l).2 in
    0 <= off -> r_err r = NX_EOK -> off < N /\ 1 <= d_reclen (r_dirent r) < 2 ^ 32.

(** Reading an entry moves the offset on, but not past the last entry. *)
Lemma NX_VfsReadDir_wp s ft hs H idx k fd dir :
  inv s (hs ++ H) idx k -> table_ok idx ft hs ->
  wp (NX_VfsReadDir fs_call s ft fd dir) (fun r => tends s H idx k r.1.1.1 r.1.1.2 /\
    forall N o, readdir_ends N -> open_at ft fd o -> 0 <= o -> r.2 = NX_EOK ->
      o < N /\ exists o', open_at r.1.1.2 fd o' /\ o < o').
Proof.
  intros Hi Hft. unfold NX_VfsReadDir.
  assert (Hno : forall d e, e <> NX_EOK -> tends s H idx k (s, ft, d : NX_VfsDirent, e).1.1.1 (s, ft, d, e).1.1.2 /\
    forall N o, readdir_ends N -> open_at ft fd o -> 0 <= o -> (s, ft, d, e).2 = NX_EOK ->
      o < N /\ exists o', open_at (s, ft, d, e).1.1.2 fd o' /\ o < o').
  { intros d e He. split; [by eapply tends_refl|done]. }
  destruct (negb dir); [by apply wp_ret, Hno|].
  eapply with_file_wp; [exact Hft|by apply wp_ret, Hno..|]. intros table f -> Hf Hn Hfd.
  apply wp_bind. eapply node_type_wp; [exact Hi|by eapply table_known|]. intros t.
  destruct (negb _); [by apply wp_ret, Hno|]. apply wp_bind.
  eapply fs_on_wp; [exact Hi|apply Forall_cons_2; [by eapply table_known|apply Forall_nil_2]|].
  intros s1 r Hi1 Hst1 (g & m & w & l & ->). apply wp_ret. set (r := (fs_call g _ m w l).2). split.
  - cbn [fst snd]. destruct (is_ok (r_err r)); (eapply tends_same; [exact Hi1|exact Hst1|]); [|done].
    apply put_file_ok; [done..|lia].
  - intros N o (HN & Hends) (table' & f' & [= <-] & Hf' & _ & Ho) Ho0 Hr. cbn [fst snd] in Hr |- *.
    rewrite Hf in Hf'. injection Hf' as <-. subst o. destruct (Hends g m w l (offset f) Ho0 Hr) as [HoN Hlen]. split; [done|].
    fold r in Hlen. exists (offset f + d_reclen (r_dirent r)). split; [|lia]. rewrite Hr. change (is_ok NX_EOK) with true. cbv iota.
    eexists _, _. split; [reflexivity|]. rewrite zlookup_zinsert, decide_True by (try done; pose proof (table_length _ _ _ Hft); lia).
    split; [done|]. cbn. split; [done|]. apply i64_small. lia.
Qed.

(** The loop over a directory ends. *)
Lemma CheckDirEmpty_loop_wp N H k fd : readdir_ends N -> forall (fuel : nat) s ft hs idx o,
  inv s (hs ++ H) idx k -> table_ok idx ft hs -> open_at ft fd o -> 0 <= o -> N - o < fuel -> 0 < Z.of_nat fuel ->
  wp (CheckDirEmpty_loop fs_call fuel s ft fd) (fun r => tends s H idx k r.1.1 r.1.2).
Proof.
  intros HN. induction fuel as [|fuel IH]; intros s ft hs idx o Hi Hft Hat Ho Hf Hpos; [lia|]. cbn [CheckDirEmpty_loop].
  apply wp_bind. eapply wp_mono; [by eapply NX_VfsReadDir_wp|]. intros [[[s1 ft1] d] e] [Ht Hnext]. cbn [fst snd] in *.
  destruct (is_ok e) eqn:He; cbn [negb]; [|by apply wp_ret]. destruct (_ && _); [by apply wp_ret|].
  apply bool_decide_eq_true in He. destruct (Hnext N o HN Hat Ho He) as (HoN & o' & Hat' & Hlt).
  destruct Ht as (hs1 & idx1 & Hi1 & Hft1 & Hst1).
  eapply wp_mono; [eapply (IH s1 ft1 hs1 idx1 o'); try done; lia|]. intros r Hr. by eapply tends_trans.
Qed.

Lemma VfsCheckDirEmpty_wp N (fuel : nat) cwd s ft hs H idx k path :
  readdir_ends N -> N < fuel -> inv s (hs ++ H) idx k -> table_ok idx ft hs -> 3072 <= k -> cwd_ok cwd -> path_fits path ->
  wp (VfsCheckDirEmpty fs_call fuel cwd s ft path) (fun r => tends s H idx (k - 3072) r.1.1 r.1.2).
Proof using Hvget.
  intros HN Hfuel Hi Hft Hk Hc Hf. apply wp_bind. eapply wp_mono; [by eapply NX_VfsOpenDir_wp|].
  intros [[[s1 ft1] fd] e] [Ht Hat]. cbn [fst snd] in *. destruct (Z.ltb_spec fd 0) as [Hlt|Hge]; [by apply wp_ret|].
  destruct Hat as [?|[_ Hat]]; [lia|]. destruct Ht as (hs1 & idx1 & Hi1 & Hft1 & Hst1). apply wp_bind.
  eapply wp_mono; [eapply (CheckDirEmpty_loop_wp N H); try done; [lia|pose proof (proj1 HN); lia]|].
  intros [[s2 ft2] c] (hs2 & idx2 & Hi2 & Hft2 & Hst2). cbn [fst snd] in *. apply wp_bind.
  eapply wp_mono; [by eapply NX_VfsCloseDir_wp|]. intros [[s3 ft3] e3] Ht3. apply wp_ret.
  eapply tends_trans; [exact Hst1|]. by eapply tends_trans.
Qed.

Lemma NX_VfsRemoveDir_wp N (fuel : nat) cwd s ft hs H idx k path :
  readdir_ends N -> N < fuel -> inv s (hs ++ H) idx k -> table_ok idx ft hs -> 5120 <= k -> cwd_ok cwd -> opt_fits path ->
  wp (NX_VfsRemoveDir fs_call fuel cwd s ft path) (fun r => tends s H idx (k - 5120) r.1.1 r.1.2).
Proof using Hvget.
  intros HN Hfuel Hi Hft Hk Hc Hf. assert (Hs : tends s H idx (k - 5120) s ft) by (eapply tends_less; [by eapply tends_refl|lia]).
  unfold NX_VfsRemoveDir. destruct path as [p|]; [|by apply wp_ret]. apply wp_bind, build_wp; [done..| |].
  2:{ intros b e He. unfold is_ok. rewrite bool_decide_false by done. by apply wp_ret. }
  intros Hl. pose proof (abs_comps_proper cwd p Hc) as Hp. set (ps := abs_comps cwd p) in *. change (is_ok NX_EOK) with true. cbn [negb].
  apply wp_bind. eapply wp_mono; [eapply (VfsCheckDirEmpty_wp N fuel cwd s ft hs H idx k); try done; [lia|]|].
  { unfold path_fits. rewrite head_render, bool_decide_true by done. unfold NX_VFS_MAX_PATH in Hl. lia. }
  intros [[s0 ft0] e] (hs0 & idx0 & Hi0 & Hft0 & Hst0). cbn [fst snd] in *.
  assert (Hin : forall s' ft', tends s0 H idx0 (k - 5120) s' ft' -> tends s H idx (k - 5120) s' ft') by (intros; by eapply tends_trans).
  assert (Hend : forall s', ends s0 (hs0 ++ H) idx0 (k - 5120) s' -> tends s H idx (k - 5120) s' ft0)
    by (intros; by eapply Hin, ends_tends).
  destruct (is_ok e); cbn [negb]; [|apply wp_ret, Hend; eapply ends_intro; [done|lia|apply step_refl]].
  apply wp_bind, (acquire_wp s0 (hs0 ++ H) idx0 (k - 3072)); [done..|lia| |].
  { intros s1 idx1 Hi1 Hst1. apply wp_ret, Hend. eapply ends_intro; [done|lia|done]. }
  intros s1 idx1 m qs n Hi1 Hst1 Hloc1 Hn.
  assert (Hgive : forall e, wp (s' ← VfsNodeRelease fs_call s1 n; Some (s', ft0, e)) (fun r : _ * _ * NX_Error => tends s H idx (k - 5120) r.1.1 r.1.2)).
  { intros e'. apply wp_bind. eapply release_ends; [exact Hi1|done|exact Hn| |exact Hst1|intros s4 He; apply wp_ret, Hend, He]. lia. }
  apply wp_bind. eapply busy_wp; [exact Hi1|left|exact Hn|]. intros b Hb. destruct b; [done|].
  apply wp_bind. eapply access_wp; [exact Hi1|by eexists|]. intros ok. destruct ok; cbn [negb]; [|done].
  apply wp_bind. eapply lookup_dir_wp; [exact Hi1|done|done|lia| |].
  - intros s2 idx2 Hi2 Hst2. apply wp_bind.
    eapply release_ends; [exact Hi2|done|exact (held_step _ _ _ _ _ _ _ Hst2 Hn)| | |intros s4 He; apply wp_ret, Hend, He]; [lia|].
    eapply step_trans; [done|by eapply step_drop].
  - intros s2 idx2 m2 qs2 dn name Hi2 Hst2 Hloc2 Hdn. pose proof (held_step _ _ _ _ _ _ _ Hst2 Hn) as Hn2.
    apply wp_assert.
    { apply negb_true_iff, Z.eqb_neq. eapply parent_differs; [apply Hi2|exact Hn2|exact Hdn|apply Hst1|exact Hloc1|exact Hloc2|].
      intros E. by specialize (Hb E). }
    apply wp_bind. eapply fs_seq_wp; [exact Hi2|all_known|]. intros s3 e3 Hi3 Hst3.
    apply wp_bind. eapply (release_wp s3 _ ((m2, qs2) :: hs0 ++ H)); [exact Hi3|by rewrite Permutation_swap|exact Hn2|]. intros s4 idx4 Hi4 Hst4.
    apply wp_bind. eapply release_ends; [exact Hi4|done|exact (held_step _ _ _ _ _ _ _ Hst4 Hdn)|
      | |intros s5 He; apply wp_ret, Hend, He]; [lia|].
    eapply step_trans; [done|]. eapply step_trans; [by eapply step_drop|].
    eapply step_trans; [by eapply step_drop, step_drop|by eapply step_drop].
Qed.
End calls.
