(* ===== verification/VfsMount.v ===== *)
(** Mounting and unmounting file systems, and what happens in any sequence of
    calls of the virtual file system.

    A new mount brings a root node and holds the directory it covers; a mount
    that nobody uses takes both away. *)
From S2P Require Import Prelude VfsPath Vfs VfsOps VfsRefs VfsCalls.

#[local] Coercion Z.of_nat : nat >-> Z.

Section mount.
Context {W : Type} `{!BlockOps W}.
Variable fs_call : Z -> FsOp -> Z -> W -> list NodeAttr -> W * list NodeAttr * FsResult.
Hypothesis Hvget : vget_ok fs_call.
Implicit Types (s : Vfs (W := W)) (H : holders) (idx : gmap (Z * list str) Z).

(** ** The node of a root *)

(** A mount that no node belongs to may come and go. *)
Lemma vfs_ok_loose s s' H idx m :
  vfs_ok None s H idx -> mounts s !! m = None ->
  shapes s' = shapes s -> nodeList s' = nodeList s -> length (blocks s') <= length (blocks s) ->
  (forall m', m' <> m -> mounts s' !! m' = mounts s !! m') -> vfs_ok (Some m) s' H idx.
Proof.
  intros OK Hm Es En Eb Em.
  assert (Hne : forall m1 k1 n1, idx !! (m1, k1) = Some n1 -> m1 <> m).
  { intros m1 k1 n1 Hi ->. destruct (vo_node _ _ _ _ OK _ _ _ Hi) as (_ & _ & _ & [? ?] & _). congruence. }
  constructor; rewrite ?Es, ?En; try apply OK.
  - intros m1 k1 n1 Hi. rewrite Em by (by eapply Hne). by apply OK.
  - intros m1 mt HL Hm1. rewrite Em in Hm1 by congruence. by apply OK.
  - intros m1 k1 [= <-]. destruct (idx !! (m, k1)) eqn:E; [|done]. by destruct (Hne _ _ _ E).
  - intros m1 mt HL Hm1. rewrite Em in Hm1 by congruence. by apply OK.
  - pose proof (vo_nodes _ _ _ _ OK). lia.
Qed.

Lemma vfs_ok_freed s s' H idx m :
  vfs_ok (Some m) s H idx -> shapes s' = shapes s -> nodeList s' = nodeList s -> blocks s' = blocks s ->
  mounts s' = delete m (mounts s) -> vfs_ok None s' H idx.
Proof.
  intros OK Es En Eb Em.
  assert (Hne : forall m1 k1 n1, idx !! (m1, k1) = Some n1 -> m1 <> m).
  { intros m1 k1 n1 Hi ->. by rewrite (vo_loose _ _ _ _ OK) in Hi. }
  constructor; rewrite ?Es, ?En, ?Eb, ?Em; try apply OK.
  - intros m1 k1 n1 Hi. rewrite lookup_delete_ne by (apply not_eq_sym; by eapply Hne). by apply OK.
  - intros m1 mt HL [Hne1 Hm1]%lookup_delete_Some. apply OK; [congruence|done].
  - done.
  - intros m1 mt HL [Hne1 Hm1]%lookup_delete_Some. apply OK; [congruence|done].
Qed.

(** The root joins the table. *)
Lemma vfs_ok_root s s' H idx m n bucket mt :
  vfs_ok (Some m) s H idx -> n <> 0 -> shapes s !! n = None -> blocks s = n :: blocks s' ->
  zlookup (nodeList s) (VfsNodeHash m [slash]) = Some bucket ->
  shapes s' = <[n := (m, 1, [slash])]> (shapes s) ->
  nodeList s' = zinsert (nodeList s) (VfsNodeHash m [slash]) (n :: bucket) ->
  mounts s' = <[m := mt]> (mounts s) -> root mt = n -> mrefcnt mt = 1 ->
  vfs_ok None s' H (<[(m, []) := n]> idx).
Proof.
  intros OK H0 Hn Eb Hbk Es En Em Hroot Hcnt.
  assert (Hi : forall k, idx !! (m, k) = None) by (intros; by apply (vo_loose _ _ _ _ OK)).
  assert (Hu : forall k, uses H m k = 0).
  { intros k. destruct (Z.eq_dec (uses H m k) 0) as [|Hne]; [done|]. pose proof (uses_nonneg H m k).
    destruct (proj1 (uses_pos H m k) ltac:(lia)) as ([m1 cs1] & Hin & E & Hp). cbn in E. subst m1.
    destruct (vo_used _ _ _ _ OK _ _ _ Hin Hp) as [x Hx]. by rewrite Hi in Hx. }
  destruct (vo_bucket _ _ _ _ OK _ _ Hbk) as [Hbnd Hbin]. pose proof (vo_nodes _ _ _ _ OK) as Hnodes.
  rewrite Eb in Hnodes. cbn [length] in Hnodes.
  assert (Hnone : nodes_of (shapes s) m = 0).
  { apply nodes_of_none. intros n1 [[m1 r] p] E Em1. cbn in Em1. subst m1.
    destruct (vo_idx _ _ _ _ OK _ _ E) as (m2 & k2 & Hi2). destruct (vo_node _ _ _ _ OK _ _ _ Hi2) as (_ & _ & _ & _ & E2 & _).
    rewrite E in E2. injection E2 as -> _ _. by rewrite Hi in Hi2. }
  constructor; rewrite ?Es, ?En, ?Em.
  - intros m1 k1 n1 Hi1. destruct (decide ((m1, k1) = (m, []))) as [[= -> ->]|Hne].
    + rewrite lookup_insert_eq in Hi1. injection Hi1 as <-. rewrite !lookup_insert_eq, Hu. split_and!; try done; by eexists.
    + rewrite lookup_insert_ne in Hi1 by congruence. destruct (vo_node _ _ _ _ OK _ _ _ Hi1) as (? & ? & ? & Hmm & Hs1 & Hpos).
      assert (m1 <> m) by (intros ->; by rewrite Hi in Hi1). split_and!; try done; rewrite lookup_insert_ne by congruence; done.
  - intros n1 sh Hs1. destruct (decide (n1 = n)) as [->|Hne]; [exists m, []; by rewrite lookup_insert_eq|].
    rewrite lookup_insert_ne in Hs1 by done. destruct (vo_idx _ _ _ _ OK _ _ Hs1) as (m1 & k1 & Hi1).
    exists m1, k1. rewrite lookup_insert_ne; [done|]. intros [= <- <-]. by rewrite Hi in Hi1.
  - intros m1 mt1 _ Hm1. destruct (decide (m1 = m)) as [->|Hne].
    + rewrite lookup_insert_eq in Hm1. rewrite lookup_insert_eq. congruence.
    + rewrite lookup_insert_ne in Hm1 by done. rewrite lookup_insert_ne by congruence. apply OK; [congruence|done].
  - intros m1 cs1 cs' Hin Hpre. destruct (vo_used _ _ _ _ OK _ _ _ Hin Hpre) as [x Hx].
    rewrite lookup_insert_ne; [by eexists|]. intros [= <- <-]. by rewrite Hi in Hx.
  - rewrite length_zinsert. apply OK.
  - intros h l Hl. pose proof (hash_range m [slash]) as Hhr. pose proof (vo_length _ _ _ _ OK) as Hlen'.
    pose proof (proj1 (zlookup_Some _ _ _) Hl) as [Hh0 _]. rewrite zlookup_zinsert in Hl by lia. case_decide as Hh.
    + injection Hl as <-. subst h. split.
      * apply NoDup_cons. split; [|done]. intros Hin. apply Hbin in Hin as (m1 & r & p & Hs1 & _). congruence.
      * intros n1. rewrite elem_of_cons, Hbin. destruct (decide (n1 = n)) as [->|Hne].
        -- rewrite lookup_insert_eq. split; [intros _; by eexists _, _, _|by left].
        -- rewrite lookup_insert_ne by done. split; [by intros [?|?]|by right].
    + destruct (vo_bucket _ _ _ _ OK h l Hl) as [Hnd Hin]. split; [done|]. intros n1. rewrite Hin.
      destruct (decide (n1 = n)) as [->|Hne]; [|by rewrite lookup_insert_ne].
      rewrite lookup_insert_eq, Hn. split; [by intros (? & ? & ? & ? & _)|]. intros (m1 & r & p & [= <- <- <-] & Hhash). by destruct Hh.
  - apply (vo_bound _ _ _ _ OK).
  - done.
  - intros m1 mt1 _ Hm1. rewrite nodes_of_new by done. cbn [fst]. destruct (decide (m1 = m)) as [->|Hne].
    + rewrite lookup_insert_eq in Hm1. rewrite decide_True by done. assert (mt1 = mt) by congruence. subst mt1. lia.
    + rewrite lookup_insert_ne in Hm1 by done. rewrite decide_False by done.
      rewrite (vo_count _ _ _ _ OK m1 mt1) by (try done; congruence). lia.
  - rewrite map_size_insert_None by done. lia.
Qed.

(** The root of a mount without holders leaves it. *)
Lemma vfs_ok_unroot s s' H idx m n bucket mt :
  vfs_ok None s H idx -> idx !! (m, []) = Some n -> (forall h, h ∈ H -> h.1 <> m) ->
  zlookup (nodeList s) (VfsNodeHash m [slash]) = Some bucket -> mounts s !! m = Some mt ->
  shapes s' = delete n (shapes s) ->
  nodeList s' = zinsert (nodeList s) (VfsNodeHash m [slash]) (list_del n bucket) ->
  (forall m', m' <> m -> mounts s' !! m' = mounts s !! m') -> blocks s' = blocks s ->
  vfs_ok (Some m) s' H (delete (m, []) idx).
Proof.
  intros OK Hi Hh Hbk Hmt Es En Em Eb.
  destruct (vo_node _ _ _ _ OK _ _ _ Hi) as (_ & _ & _ & _ & Hsh & _).
  assert (Hu : forall k, uses H m k = 0).
  { intros k. destruct (Z.eq_dec (uses H m k) 0) as [|Hne]; [done|]. pose proof (uses_nonneg H m k).
    destruct (proj1 (uses_pos H m k) ltac:(lia)) as (h & Hin & E & _). by destruct (Hh h Hin). }
  assert (Hno : forall k x, idx !! (m, k) = Some x -> k = []).
  { intros k x Hx. destruct (vo_node _ _ _ _ OK _ _ _ Hx) as (_ & _ & _ & _ & _ & Hp). destruct k as [|c k]; [done|].
    specialize (Hp ltac:(done)). rewrite Hu in Hp. lia. }
  assert (Hgone : forall m1 k1 n1, (delete (m, []) idx) !! (m1, k1) = Some n1 -> m1 <> m /\ n1 <> n /\ idx !! (m1, k1) = Some n1).
  { intros m1 k1 n1 (Hne & Hi1)%lookup_delete_Some. split; [|split; [|done]].
    - intros ->. apply Hne. by rewrite (Hno _ _ Hi1).
    - intros ->. apply Hne. by rewrite (idx_inj _ _ _ _ _ _ _ _ _ OK Hi Hi1). }
  pose proof (vo_nodes _ _ _ _ OK) as Hnodes. destruct (vo_bucket _ _ _ _ OK _ _ Hbk) as [Hbnd Hbin].
  constructor; rewrite ?Es, ?En, ?Eb.
  - intros m1 k1 n1 (Hne & Hnn & Hi1)%Hgone. rewrite Em by done. rewrite lookup_delete_ne by done. by apply OK.
  - intros n1 sh (Hne & Hs1)%lookup_delete_Some. destruct (vo_idx _ _ _ _ OK _ _ Hs1) as (m1 & k1 & Hi1).
    exists m1, k1. rewrite lookup_delete_ne; [done|]. intros [= <- <-]. congruence.
  - intros m1 mt1 HL Hm1. rewrite Em in Hm1 by congruence. rewrite lookup_delete_ne by congruence. by apply OK.
  - intros m1 cs1 cs' Hin Hpre. rewrite lookup_delete_ne; [by eapply vo_used|]. intros [= <- <-]. by destruct (Hh _ Hin).
  - rewrite length_zinsert. apply OK.
  - intros h l Hl. pose proof (hash_range m [slash]) as Hhr. pose proof (vo_length _ _ _ _ OK) as Hlen.
    pose proof (proj1 (zlookup_Some _ _ _) Hl) as [Hh0 _]. rewrite zlookup_zinsert in Hl by lia.
    case_decide as Hhe.
    + injection Hl as <-. split; [by apply NoDup_list_del|]. intros n1. rewrite elem_of_list_del, Hbin. subst h. split.
      * intros (Hne & m1 & r & p & Hs1 & Hhash). exists m1, r, p. by rewrite lookup_delete_ne.
      * intros (m1 & r & p & (Hne & Hs1)%lookup_delete_Some & Hhash). split; [done|]. eauto.
    + destruct (vo_bucket _ _ _ _ OK h l Hl) as [Hnd Hin]. split; [done|]. intros n1. rewrite Hin.
      destruct (decide (n1 = n)) as [->|Hne]; [|by rewrite lookup_delete_ne].
      split; intros (m1 & r & p & Hs1 & Hhash).
      * rewrite Hsh in Hs1. injection Hs1 as <- _ <-. by destruct Hhe.
      * by rewrite lookup_delete_eq in Hs1.
  - apply (vo_bound _ _ _ _ OK).
  - intros m1 k1 [= <-]. destruct (delete (m, []) idx !! (m, k1)) eqn:E; [|done]. by apply Hgone in E as [? _].
  - intros m1 mt1 HL Hm1. rewrite Em in Hm1 by congruence. rewrite (nodes_of_gone _ _ _ m1 Hsh). cbn [fst].
    rewrite decide_False by congruence. rewrite (vo_count _ _ _ _ OK m1 mt1) by (try done; congruence). lia.
  - rewrite map_size_delete, Hsh. lia.
Qed.

(** ** Dropping a mount *)

(** Everything but the mount [m] stays. *)
Definition others_same (m : Z) s s' : Prop :=
  mountList s' = mountList s /\ fileSystems s' = fileSystems s /\
  forall m', m' <> m -> mshape <$> (mounts s' !! m') = mshape <$> (mounts s !! m').

Lemma same_others m s s' : same_mounts s s' -> others_same m s s'.
Proof.
  intros (E & ? & ?). split_and!; try done. intros m' _. rewrite <- !lookup_fmap. by rewrite E.
Qed.

Lemma others_trans m s1 s2 s3 : others_same m s1 s2 -> others_same m s2 s3 -> others_same m s1 s3.
Proof.
  intros (? & ? & H1) (? & ? & H2). split_and!; [congruence..|]. intros m' Hm. by rewrite H2, H1.
Qed.

(** The nodes that [H] needs stay. *)
Definition held H idx idx' : Prop := forall m k, 0 < uses H m k -> idx' !! (m, k) = idx !! (m, k).

Lemma kept_held H idx idx' : kept H idx idx' -> held H idx idx'.
Proof. intros Hk m k Hu. apply Hk. by left. Qed.

Lemma held_trans H idx1 idx2 idx3 : held H idx1 idx2 -> held H idx2 idx3 -> held H idx1 idx3.
Proof. intros H1 H2 m k Hu. by rewrite H2, H1. Qed.

Lemma held_less H H' idx idx' : H ⊆+ H' -> held H' idx idx' -> held H idx idx'.
Proof. intros Hs Hh m k Hu. apply Hh. pose proof (uses_mono H H' m k Hs). lia. Qed.

Lemma held_lookup H idx idx' h : held H idx idx' -> h ∈ H -> idx' !! h = idx !! h.
Proof. intros Hh Hin. destruct h as [m k]. apply Hh. apply uses_pos. by exists (m, k). Qed.

(** Nodes of other mounts only. *)
Lemma held_away H idx idx' (m : Z) :
  (forall h, h ∈ H -> h.1 <> m) -> (forall (m' : Z) (k : list str), m' <> m -> idx' !! (m', k) = idx !! (m', k)) ->
  held H idx idx'.
Proof.
  intros Hh Hi m' k (h & Hin & E & _)%uses_pos. apply Hi. intros ->. by destruct (Hh h Hin).
Qed.

Lemma VfsNodeRelease_root s n nd mt :
  n <> 0 -> nodes s !! n = Some nd -> mounts s !! mount nd = Some mt -> root mt = n ->
  VfsNodeRelease fs_call s n = VfsNodePut fs_call s n.
Proof.
  intros H0 Hn Hmt Hr. unfold VfsNodeRelease. by rewrite (proj2 (Z.eqb_neq _ 0)), Hn, Some_bind, Hmt, Some_bind, Hr, Z.eqb_refl.
Qed.

(** Root and covered directory of a mount that nobody uses are given back and
    the mount is gone. *)
Lemma drop_mount_wp s H H' idx k m mt :
  inv None s H idx k -> mounts s !! m = Some mt -> m ∉ mountList s -> (forall h, h ∈ H -> h.1 <> m) ->
  (if nz (covered mt) then exists h, H ≡ₚ h :: H' /\ idx !! h = Some (covered mt) else H' = H) ->
  wp (drop_mount fs_call s m) (fun s' => exists idx', inv None s' H' idx' k /\ held H' idx idx' /\
    others_same m s s' /\ mounts s' !! m = None).
Proof.
  intros (OK & Hmo & Hh & Hl & Hk) Hmt Hnin Hno Hcov. pose proof (vo_root _ _ _ _ OK m mt ltac:(done) Hmt) as Hi.
  destruct (node_of_idx _ _ _ _ _ _ _ OK Hi) as (nd & Hn & Hm & Hp & Hr). rewrite decide_True in Hr by done.
  assert (Hu : uses H m [] = 0).
  { destruct (Z.eq_dec (uses H m []) 0) as [|Hne]; [done|]. pose proof (uses_nonneg H m []).
    destruct (proj1 (uses_pos H m []) ltac:(lia)) as (h & Hin & E & _). by destruct (Hno h Hin). }
  destruct (vo_node _ _ _ _ OK _ _ _ Hi) as (H0 & _).
  unfold drop_mount. rewrite Hmt, Some_bind, (VfsNodeRelease_root s _ nd mt) by (rewrite ?Hm; done).
  destruct (VfsNodePut_last fs_call s (root mt) nd mt Hn) as (s1 & bucket & -> & Hbk & Es & En & Em & El & Ef & Eb);
    [lia|apply OK|by rewrite Hm|]. rewrite Some_bind. rewrite Hm, Hp in *. change (render []) with [slash] in *.
  assert (OK1 : vfs_ok (Some m) s1 H (delete (m, []) idx)).
  { eapply vfs_ok_unroot; try done. intros m' Hne. rewrite Em. by apply lookup_insert_ne. }
  rewrite Em, lookup_insert_eq, Some_bind. cbn [covered set_mrefcnt].
  assert (Hi1 : inv (Some m) s1 H (delete (m, []) idx) k).
  { split; [done|]. split; [|split; [|done]].
    - intros m' Hin. rewrite El in Hin. assert (m' <> m) by congruence. split; [congruence|].
      destruct (Hmo m' Hin) as (_ & mt' & ms & Hmt' & Hrest). exists mt', ms. by rewrite Em, lookup_insert_ne by done.
    - destruct Hh as (Hk1 & Hnd & Hb). unfold heap_ok. rewrite Eb. split_and!; try done. intros b Hin.
      destruct (Hb b Hin) as [? Hs]. split; [done|]. rewrite Es. apply lookup_delete_None. by right. }
  assert (Haway : held H idx (delete (m, []) idx)).
  { apply (held_away _ _ _ m); [done|]. intros m' k' Hne. apply lookup_delete_ne. congruence. }
  assert (Hfree : forall s2 idx2, inv (Some m) s2 H' idx2 k -> same_mounts s1 s2 -> held H' (delete (m, []) idx) idx2 -> H' ⊆+ H ->
    exists idx', inv None (free_mount s2 m) H' idx' k /\ held H' idx idx' /\ others_same m s (free_mount s2 m) /\
      mounts (free_mount s2 m) !! m = None).
  { intros s2 idx2 (OK2 & Hmo2 & Hh2 & Hl2 & _) Hsm Hheld Hsub. exists idx2. split; [|split; [|split]].
    - split; [by eapply vfs_ok_freed|]. split; [|by split_and!]. intros m' Hin. destruct (Hmo2 m' Hin) as (HL & mt' & ms & Hmt' & Hrest).
      split; [done|]. exists mt', ms. cbn. rewrite lookup_delete_ne by congruence. done.
    - eapply held_trans; [by eapply held_less|done].
    - destruct Hsm as (Em2 & El2 & Ef2). split_and!; cbn; [congruence..|]. intros m' Hne. rewrite lookup_delete_ne by done.
      rewrite <- (lookup_fmap mshape (mounts s2)), Em2, lookup_fmap, Em, lookup_insert_ne by done. done.
    - cbn. apply lookup_delete_eq. }
  apply wp_bind. destruct (nz (covered mt)).
  - destruct Hcov as (h & Hp' & Hh').
    assert (Hh1 : delete (m, []) idx !! h = Some (covered mt)).
    { rewrite lookup_delete_ne; [done|]. intros <-. destruct (Hno (m, [])); [rewrite Hp'; left|done]. }
    eapply (release_wp fs_call Hvget); [exact Hi1|exact Hp'|exact Hh1|]. intros s2 idx2 Hi2 [Hsm Hkept]. apply wp_ret.
    eapply Hfree; [done|done|by apply kept_held|]. rewrite Hp'. by apply submseteq_cons.
  - subst H'. apply wp_ret, wp_ret. eapply Hfree; [done|apply same_mounts_refl|done|done].
Qed.

(** Fields of a mount that the table does not use. *)
Lemma inv_mount s s' H idx k m mt mt' :
  inv None s H idx k -> mounts s !! m = Some mt -> root mt' = root mt -> mrefcnt mt' = mrefcnt mt -> mpath mt' = mpath mt ->
  shapes s' = shapes s -> nodeList s' = nodeList s -> blocks s' = blocks s -> mountList s' = mountList s ->
  mounts s' = <[m := mt']> (mounts s) -> inv None s' H idx k.
Proof.
  intros (OK & Hmo & Hh & Hl) Hmt Er Ec Ep Es En Eb El Em.
  assert (Hlk : forall m1 mt1, mounts s' !! m1 = Some mt1 -> exists mt2, mounts s !! m1 = Some mt2 /\ root mt1 = root mt2 /\ mrefcnt mt1 = mrefcnt mt2).
  { intros m1 mt1. rewrite Em. intros [[<- <-]|[Hne Hm1]]%lookup_insert_Some; [by exists mt|by exists mt1]. }
  split; [|split; [|split; [|done]]].
  - constructor; rewrite ?Es, ?En, ?Eb; try apply OK.
    + intros m1 k1 n1 Hi. destruct (vo_node _ _ _ _ OK _ _ _ Hi) as (? & ? & ? & Hmm & ? & ?). split_and!; try done.
      rewrite Em. destruct (decide (m1 = m)) as [->|]; [rewrite lookup_insert_eq; by eexists|by rewrite lookup_insert_ne].
    + intros m1 mt1 HL (mt2 & Hm2 & -> & _)%Hlk. by apply OK.
    + intros m1 mt1 HL (mt2 & Hm2 & _ & ->)%Hlk. by apply OK.
  - intros m' Hin. rewrite El in Hin. destruct (Hmo m' Hin) as (HL & mt2 & ms & Hmt2 & Hp2 & Hms). split; [done|].
    rewrite Em. destruct (decide (m' = m)) as [->|].
    + exists mt', ms. rewrite lookup_insert_eq. split; [done|]. split; [congruence|done].
    + exists mt2, ms. by rewrite lookup_insert_ne.
  - unfold heap_ok. by rewrite Es, Eb.
Qed.

(** ** [NX_VfsMountFileSystem] *)

(** A call of a file system for a mount. *)
Lemma fs_do_inv s H idx k f op m n (Q : Vfs * FsResult -> Prop) :
  inv None s H idx k -> known idx n ->
  (forall s' r, inv None s' H idx k -> same_refs s s' -> Q (s', r)) -> wp (fs_do fs_call s f op m [n]) Q.
Proof.
  intros Hi Hn HQ. destruct (known_node _ _ _ _ _ n Hi Hn) as (nd & Hnd & _).
  destruct (fs_do_same fs_call s f op m [n]) as (s' & r & Hrun & Hs & _).
  { intros x ->%list_elem_of_singleton. by eexists. }
  exists (s', r). split; [done|]. apply HQ; [by eapply inv_same|done].
Qed.

(** What a mount leaves: after an error the table, the mounts and the holders
    are as before; otherwise there is a mount at the path, no other one has the
    path, and it holds the directory it covers (the root covers nothing). *)
Definition mount_result s H idx (k : Z) (ps : list str) s' (e : NX_Error) : Prop :=
  (e <> NX_EOK /\ ends None s H idx k s') \/
  (e = NX_EOK /\ exists m mt H' idx', inv None s' H' idx' k /\ held H idx idx' /\
     mounts s !! m = None /\ others_same m s (with_mounts s' (mountList s) (mounts s')) /\ mountList s' = m :: mountList s /\ mounts s' !! m = Some mt /\ mpath mt = render ps /\
     (forall m' mt', m' ∈ mountList s -> mounts s' !! m' = Some mt' -> mpath mt' <> render ps) /\
     (ps = [] /\ covered mt = 0 /\ H' = H \/
      exists m1 qs, H' = (m1, qs) :: H /\ located s ps m1 qs /\ idx' !! (m1, qs) = Some (covered mt))).

Definition cover_ok H idx (ps : list str) (c : Z) H' s0 : Prop :=
  ps = [] /\ c = 0 /\ H' = H \/ exists m1 qs, H' = (m1, qs) :: H /\ located s0 ps m1 qs /\ idx !! (m1, qs) = Some c.

(** A failed mount is dropped again. *)
Lemma Mount_drop_wp s0 idx0 s H H' idx k m n mt ps e :
  inv None s H' idx k -> mounts s !! m = Some mt -> root mt = n -> m ∉ mountList s -> (forall h, h ∈ H' -> h.1 <> m) ->
  mounts s0 !! m = None -> others_same m s0 s -> held H idx0 idx -> vfs_ok None s0 H idx0 ->
  cover_ok H idx ps (covered mt) H' s0 -> e <> NX_EOK ->
  wp (s' ← drop_mount fs_call s m; Some (s', e)) (fun r => mount_result s0 H idx0 k ps r.1 r.2).
Proof using Hvget.
  intros Hi Hmt Hroot Hnin Hno Hm0 Hoth Hheld OK0 Hcov He. apply wp_bind.
  eapply wp_mono; [eapply (drop_mount_wp s H' H idx k m mt); try done|].
  - destruct Hcov as [(_ & -> & ->)|(m1 & qs & -> & _ & Hc)]; [done|]. unfold nz.
    destruct (vo_node _ _ _ _ (proj1 Hi) _ _ _ Hc) as (Hc0 & _). rewrite (proj2 (Z.eqb_neq _ 0)) by done.
    by exists (m1, qs).
  - intros s' (idx' & Hi' & Hheld' & Hoth' & Hgone). apply wp_ret. left. split; [done|]. exists idx'. split; [done|].
    pose proof (others_trans _ _ _ _ Hoth Hoth') as (El & Ef & Hmm).
    assert (Hsm : same_mounts s0 s').
    { split_and!; try done. apply map_eq. intros m'. rewrite !lookup_fmap. destruct (decide (m' = m)) as [->|Hne].
      - by rewrite Hgone, Hm0.
      - by apply Hmm. }
    split; [done|]. intros m' q [Hu | ->]; [by apply (held_trans _ _ _ _ Hheld Hheld')|].
    eapply root_same; [exact OK0|apply Hi'|done].
Qed.

(** The mount [m] with root [n] in the table, before it is in the list. *)
Record mounting s0 idx0 H ps s H' idx (k m n : Z) (mt : NX_VfsMount) : Prop := {
  mg_inv : inv None s H' idx k;
  mg_mount : mounts s !! m = Some mt;
  mg_root : root mt = n;
  mg_known : known idx n;
  mg_path : mpath mt = render ps;
  mg_list : m ∉ mountList s;
  mg_free : forall h, h ∈ H' -> h.1 <> m;
  mg_new : mounts s0 !! m = None;
  mg_others : others_same m s0 s;
  mg_held : held H idx0 idx;
  mg_start : vfs_ok None s0 H idx0;
  mg_cover : cover_ok H idx ps (covered mt) H' s0 }.

Lemma mounting_same s0 idx0 H ps s H' idx k m n mt s' :
  mounting s0 idx0 H ps s H' idx k m n mt -> same_refs s s' -> mounting s0 idx0 H ps s' H' idx k m n mt.
Proof.
  intros [] Hs. pose proof (same_others m _ _ (same_refs_mounts _ _ Hs)) as Ho. pose proof Hs as (_ & Em & _ & El & _).
  constructor; try done; [by eapply inv_same|by rewrite Em|by rewrite El|by eapply others_trans].
Qed.

Lemma mounting_drop s0 idx0 H ps s H' idx k m n mt e :
  mounting s0 idx0 H ps s H' idx k m n mt -> e <> NX_EOK ->
  wp (s' ← drop_mount fs_call s m; Some (s', e)) (fun r => mount_result s0 H idx0 k ps r.1 r.2).
Proof using Hvget. intros [] He. by eapply Mount_drop_wp. Qed.

(** The flags of the mount are those the file system leaves. *)
Lemma mounting_flags s0 idx0 H ps s H' idx k m n mt fl :
  mounting s0 idx0 H ps s H' idx k m n mt ->
  exists s', upd_mount s m (set_mflags fl) = Some s' /\ mounting s0 idx0 H ps s' H' idx k m n (set_mflags fl mt).
Proof.
  intros []. unfold upd_mount. rewrite mg_mount0, Some_bind. eexists. split; [reflexivity|]. constructor; try done.
  - by eapply (inv_mount s _ H' idx k m mt (set_mflags fl mt)).
  - cbn. apply lookup_insert_eq.
  - eapply others_trans; [exact mg_others0|]. split_and!; try done. intros m' Hne. cbn. by rewrite lookup_insert_ne.
Qed.

(** The access rights of the root. *)
Lemma set_mode_same s H idx k n (f : NX_VfsNode -> Z) : inv None s H idx k -> known idx n ->
  exists s', upd_node s n (fun nd => set_mode (f nd) nd) = Some s' /\ same_refs s s'.
Proof.
  intros Hi Hn. destruct (known_node _ _ _ _ _ n Hi Hn) as (nd & Hnd & _).
  destruct (upd_node_shape s n (fun nd => set_mode (f nd) nd) nd Hnd) as (s' & E & _ & Es & Em & En & El & Eb & Ef).
  exists s'. split; [done|]. split_and!; try done. rewrite Es. apply insert_id. unfold shapes. rewrite lookup_fmap, Hnd. by destruct nd.
Qed.

Lemma Mount_join_wp s0 idx0 H ps s H' idx k m n mt d bdev :
  Forall proper ps -> mounting s0 idx0 H ps s H' idx k m n mt ->
  wp (Mount_join fs_call s m n d bdev (render ps)) (fun r => mount_result s0 H idx0 k ps r.1 r.2).
Proof using Hvget.
  intros Hps Hmg. pose proof Hmg as [Hi Hmt _ Hn _ _ _ _ _ _ _ _]. unfold Mount_join. rewrite Hmt, Some_bind.
  apply wp_bind, (fs_do_inv s H' idx k); [done..|]. intros s4 r _ Hs4. pose proof (mounting_same _ _ _ _ _ _ _ _ _ _ _ _ Hmg Hs4) as Hmg4.
  destruct (mounting_flags _ _ _ _ _ _ _ _ _ _ _ (r_flags r) Hmg4) as (s5 & -> & Hmg5). rewrite Some_bind.
  destruct (is_ok (r_err r)) eqn:Hr; cbn [negb]; [|eapply mounting_drop; [done|by apply bool_decide_eq_false in Hr]].
  assert (Hro : exists s6, (if has (r_flags r) NX_VFS_MOUNT_RO then upd_node s5 n (fun nd => set_mode (Z.land (mode (attr nd)) (Z.lnot 146)) nd) else Some s5) = Some s6 /\ same_refs s5 s6).
  { destruct (has _ _); [eapply set_mode_same; [apply Hmg5|done]|by exists s5]. }
  destruct Hro as (s6 & -> & Hs6). rewrite Some_bind. pose proof (mounting_same _ _ _ _ _ _ _ _ _ _ _ _ Hmg5 Hs6) as Hmg6.
  pose proof Hmg6 as [Hi6 Hmt6 Hr6 Hn6 Hp6 Hl6 Hf6 Hm0 Hoth6 Hheld6 OK0 Hcov6].
  set (busy := fun t => mt ← mounts s6 !! t; Some (bool_decide (mpath mt = render ps) || (bool_decide (d <> None) && (dev mt =? bdev)))).
  assert (Hmap : exists l, mapM busy (mountList s6) = Some l).
  { apply mapM_is_Some_2, Forall_forall. intros t Hin. destruct (proj1 (proj2 Hi6) t Hin) as (_ & mt' & ms & Hmt' & _).
    unfold compose, busy. rewrite Hmt'. by eexists. }
  destruct Hmap as [taken Htaken]. rewrite Htaken, Some_bind. destruct (existsb id taken) eqn:Hex.
  - rewrite Hmt6, Some_bind. apply wp_bind, (fs_do_inv s6 H' idx k); [done..|]. intros s7 r7 _ Hs7.
    eapply mounting_drop; [by eapply mounting_same|done].
  - apply wp_ret. right. split; [done|]. exists m, (set_mflags (r_flags r) mt), H', idx. cbn [fst].
    split; [|split; [done|split; [done|split; [|split; [cbn; by rewrite (proj1 Hoth6)|split; [done|split; [done|split; [|done]]]]]]]].
    + destruct Hi6 as (OK6 & Hmo6 & Hrest). split; [by destruct OK6|]. split; [|done].
      intros m' [->|Hin]%elem_of_cons; [|by apply Hmo6]. split; [done|]. by eexists _, ps.
    + split_and!; [done|apply Hoth6|]. apply Hoth6.
    + intros m' mt' Hin Hmt' Ep. cbn in Hmt'. apply mapM_Some_1 in Htaken. rewrite <- (proj1 Hoth6) in Hin.
      apply list_elem_of_lookup in Hin as [i Hi']. destruct (Forall2_lookup_l _ _ _ _ _ Htaken Hi') as (b & Hb & Eb').
      unfold busy in Eb'. cbv beta in Eb'. rewrite Hmt', Some_bind in Eb'. injection Eb' as <-.
      rewrite bool_decide_true in Hb by done. cbn in Hb.
      assert (existsb id taken = true); [|congruence]. apply existsb_exists. exists true. split; [|done].
      apply list_elem_of_In. by eapply list_elem_of_lookup_2.
Qed.

(** The new mount with its root node. *)
Lemma Mount_root_wp s0 idx0 s H H' idx k m (d : option str) bdev ps mt :
  vfs_ok (Some m) s H' idx -> mounts_ok (Some m) s -> length H' + k < 2 ^ 62 -> 0 <= k ->
  mounts s !! m = Some mt -> mrefcnt mt = 0 -> mpath mt = render ps -> Forall proper ps -> heap_ok s (k + 1) ->
  mounts s0 !! m = None -> others_same m s0 s -> held H idx0 idx -> vfs_ok None s0 H idx0 ->
  cover_ok H idx ps (covered mt) H' s0 ->
  wp ('(s1, n) ← VfsNodeGet fs_call s m [slash];
      if n =? 0 then s2 ← (if nz (covered mt) then VfsNodeRelease fs_call s1 (covered mt) else Some s1);
                     Some (free_mount s2 m, NX_EFAULT)
      else Mount_root fs_call s1 m n d bdev (render ps))
     (fun r => mount_result s0 H idx0 k ps r.1 r.2).
Proof using Hvget.
  intros OK Hmo Hl Hk Hmt Hcnt Hpath Hps Hh Hm0 Hoth Hheld OK0 Hcov. apply wp_bind.
  destruct (VfsNodeGet_run fs_call s m mt [slash] Hvget (vo_length _ _ _ _ OK) Hmt ltac:(done) ltac:(eapply heap_ok_less; [done|lia]))
    as (s1 & n & bucket & Hrun & H0 & Hn & Hbk & Eb & Es & En & Em & El & Ef).
  exists (s1, n). split; [exact Hrun|]. rewrite (proj2 (Z.eqb_neq n 0)) by done. rewrite Hcnt in Em.
  change (i64 (0 + 1)) with 1 in Em. pose proof (shapes_Some s1 n m 1 [slash]) as Hnd.
  destruct Hnd as (nd & Hnd & Hmn & Hrn & Hpn); [by rewrite Es, lookup_insert_eq|].
  unfold Mount_root. destruct (upd_node_shape s1 n (set_node (TYPE_DIR, NX_VFS_NODE_FLAG_ROOT, Z.lor S_IFDIR S_IRWX)) nd Hnd)
    as (s2 & -> & Hn2 & Es2 & Em2 & En2 & El2 & Eb2 & Ef2). rewrite Some_bind.
  unfold upd_mount. rewrite Em2, Em, lookup_insert_eq, !Some_bind, insert_insert_eq. set (s3 := with_mounts s2 _ _).
  assert (Es3 : shapes s3 = <[n := (m, 1, [slash])]> (shapes s)).
  { change (shapes s3) with (shapes s2). rewrite Es2. unfold shape, set_node. cbn. rewrite Hmn, Hrn, Hpn, Es. apply insert_insert_eq. }
  assert (Hnidx : forall k', idx !! (m, k') = None) by (intros; by apply (vo_loose _ _ _ _ OK)).
  assert (Hno : forall h, h ∈ H' -> h.1 <> m).
  { intros [m1 k1] Hin E. cbn in E. subst m1. destruct (vo_used _ _ _ _ OK m k1 k1 Hin ltac:(done)) as [x Hx]. by rewrite Hnidx in Hx. }
  assert (Hheld3 : held H' idx (<[(m, []) := n]> idx)).
  { apply (held_away _ _ _ m Hno). intros m' k' Hne. apply lookup_insert_ne. congruence. }
  apply (Mount_join_wp s0 idx0 H ps s3 H' (<[(m, []) := n]> idx) k m n (set_root n (set_mrefcnt 1 mt)) d bdev Hps).
  constructor; try done; [|cbn; by rewrite lookup_insert_eq|exists (m, []); apply lookup_insert_eq| | | |].
  - split; [|split; [|split; [|done]]].
    + eapply (vfs_ok_root s s3 H' idx m n bucket); try done; subst s3; cbn; [by rewrite Eb2|by rewrite En2, En].
    + intros m' Hin. assert (Hin' : m' ∈ mountList s) by (subst s3; cbn in Hin; congruence).
      destruct (Hmo m' Hin') as (HL & mt' & ms & Hmt' & Hrest). split; [done|]. exists mt', ms.
      subst s3. cbn. rewrite lookup_insert_ne by congruence. done.
    + eapply heap_ok_less; [eapply (heap_ok_tail s s3); [exact Hh| |exact Es3]|lia]. subst s3. cbn. by rewrite Eb2.
  - subst s3. cbn. rewrite El2, El. intros Hin. by destruct (Hmo m Hin) as [? _].
  - eapply others_trans; [exact Hoth|]. split_and!; [subst s3; cbn; congruence..|]. intros m' Hne.
    subst s3. cbn. by rewrite lookup_insert_ne.
  - eapply held_trans; [done|]. eapply held_less; [|done].
    destruct Hcov as [(_ & _ & ->)|(m1 & qs & -> & _)]; [done|by apply submseteq_cons].
  - destruct Hcov as [?|(m1 & qs & -> & Hloc & Hc)]; [by left|right]. exists m1, qs. split; [done|]. split; [done|].
    rewrite lookup_insert_ne; [done|]. intros [= -> _]. destruct (Hno (m1, qs)); [left|done].
Qed.

Lemma render_slash ps : Forall proper ps -> render ps = [slash] <-> ps = [].
Proof. intros Hps. split; [|by intros ->]. intros E. by apply (render_inj ps []). Qed.

Lemma Mount_covered_wp s H idx k ps (Q : Vfs * (Z + NX_Error) -> Prop) :
  inv None s H idx k -> 1024 <= k -> Forall proper ps -> length (render ps) < NX_VFS_MAX_PATH ->
  (forall s' e, e <> NX_EOK -> ends None s H idx (k - 1024) s' -> Q (s', inr e)) ->
  (forall s' idx' H' c, inv None s' H' idx' (k - 1024) -> step s H idx s' idx' -> cover_ok H idx' ps c H' s -> Q (s', inl c)) ->
  wp (Mount_covered fs_call s (render ps)) Q.
Proof using Hvget.
  intros Hi Hk Hps Hl Herr Hok. unfold Mount_covered. case_bool_decide as E.
  { apply wp_ret, (Hok s idx H); [eapply inv_less; [done|lia]|apply step_refl|]. left. by apply render_slash in E. }
  apply wp_bind, (acquire_wp fs_call Hvget None s H idx k); [done..| |].
  - intros s1 idx1 Hi1 Hst1. apply wp_ret, Herr; [done|]. eapply ends_intro; [done|lia|done].
  - intros s1 idx1 m qs n Hi1 Hst1 Hloc Hn. apply wp_bind. eapply node_type_wp; [exact Hi1|by eexists|]. intros t.
    case_bool_decide.
    + apply wp_ret, (Hok s1 idx1 ((m, qs) :: H)); [done..|]. right. by exists m, qs.
    + apply wp_bind. eapply (release_ends fs_call Hvget); [exact Hi1|done|exact Hn| |exact Hst1|intros s2 He; by apply wp_ret, Herr]. lia.
Qed.

(** Taking the object of the mount from the heap. *)
Lemma alloc_inv s H idx k b bs :
  inv None s H idx k -> 1 <= k -> blocks s = b :: bs -> inv None (NX_MemAlloc s).1 H idx (k - 1) /\ b <> 0 /\ (NX_MemAlloc s).2 = b.
Proof.
  intros (OK & Hmo & (Hk & Hnd & Hb) & Hl & _) H1 Eb. unfold NX_MemAlloc. rewrite Eb in *. apply NoDup_cons in Hnd as [_ Hnd]. cbn [length] in Hk.
  destruct (Hb b ltac:(left)) as [H0 _]. split; [|done]. split; [|split; [done|split; [|lia]]].
  - constructor; try apply OK. pose proof (vo_nodes _ _ _ _ OK) as Hn. rewrite Eb in Hn. cbn [length] in Hn.
    change (base.size (shapes s) + length bs < 2 ^ 62). lia.
  - split_and!; [cbn [fst blocks]; lia|done|]. intros b' Hin. apply Hb. by right.
Qed.

Lemma others_new (m : Z) s s' H idx k (mt : NX_VfsMount) :
  inv None s H idx k -> mounts s !! m = None ->
  s' = with_mounts s (mountList s) (<[m := mt]> (mounts s)) ->
  vfs_ok (Some m) s' H idx /\ mounts_ok (Some m) s' /\ mounts s' !! m = Some mt /\ others_same m s s'.
Proof.
  intros (OK & Hmo & _) Hm ->. split; [|split; [|split]].
  - eapply vfs_ok_loose; [exact OK|done..|]. intros m' Hne. cbn. by rewrite lookup_insert_ne.
  - intros m' Hin. cbn in Hin. destruct (Hmo m' Hin) as (_ & mt' & ms & Hmt' & Hrest). assert (m' <> m) by congruence.
    split; [congruence|]. exists mt', ms. cbn. by rewrite lookup_insert_ne.
  - cbn. apply lookup_insert_eq.
  - split_and!; try done. intros m' Hne. cbn. by rewrite lookup_insert_ne.
Qed.

Lemma kept_to_mounts s H idx s1 idx1 : step s H idx s1 idx1 -> held H idx idx1.
Proof. intros [_ Hk]. by apply kept_held. Qed.

Lemma build_cases cwd path : cwd_ok cwd -> path_fits path ->
  NX_VfsBuildAbsPath cwd path = Some (render (abs_comps cwd path), NX_EOK) /\ length (render (abs_comps cwd path)) < NX_VFS_MAX_PATH \/
  exists b e, NX_VfsBuildAbsPath cwd path = Some (b, e) /\ e <> NX_EOK.
Proof.
  intros Hc Hf. destruct (build_wp cwd path (fun r => r = (render (abs_comps cwd path), NX_EOK) /\
    length (render (abs_comps cwd path)) < NX_VFS_MAX_PATH \/ r.2 <> NX_EOK) Hc Hf) as ([b e] & Hrun & [[E Hl]|He]);
    [by left|by right|left; by rewrite Hrun, E|right; by exists b, e].
Qed.

Lemma NX_VfsMountFileSystem_wp cwd s H idx k d path fsname fl :
  inv None s H idx k -> 1026 <= k -> (forall b, b ∈ blocks s -> mounts s !! b = None) -> cwd_ok cwd -> opt_fits path ->
  wp (NX_VfsMountFileSystem fs_call cwd s d path fsname fl)
     (fun r => (r.2 <> NX_EOK /\ ends None s H idx (k - 1026) r.1) \/
               exists p, path = Some p /\ NX_VfsBuildAbsPath cwd p = Some (render (abs_comps cwd p), NX_EOK) /\
                 mount_result s H idx (k - 1026) (abs_comps cwd p) r.1 r.2).
Proof using Hvget.
  intros Hi Hk Hnew Hc Hf. assert (Hs : ends None s H idx (k - 1026) s) by (eapply ends_intro; [done|lia|apply step_refl]).
  unfold NX_VfsMountFileSystem, with_path. case_bool_decide; [apply wp_ret; by left|].
  destruct path as [p|]; [|apply wp_ret; by left].
  destruct (build_cases cwd p Hc Hf) as [[Hbuild Hl]|(b & e & -> & He)].
  2:{ rewrite Some_bind. unfold is_ok. rewrite bool_decide_false by done. apply wp_ret. by left. }
  rewrite Hbuild, Some_bind. pose proof (abs_comps_proper cwd p Hc) as Hp. set (ps := abs_comps cwd p) in *.
  change (is_ok NX_EOK) with true. cbv iota. destruct (_ =? 0); [apply wp_ret; by left|].
  set (opened := match d with Some d => _ | None => (s, 0) end).
  assert (Hop : same_refs s opened.1) by (unfold opened; destruct d as [d|]; [by destruct (NX_IoBlockOpen _ _)|done]).
  destruct opened as [s1 bdev]. cbn [fst] in Hop. pose proof (inv_same _ _ _ _ _ _ Hop Hi) as Hi1.
  assert (Hst1 : step s H idx s1 idx) by (split; [by apply same_refs_mounts|done]).
  destruct (_ && _); [apply wp_ret; left; split; [done|eapply ends_intro; [done|lia|done]]|].
  destruct (blocks s1) as [|m bs] eqn:Eb; [destruct Hi1 as (_ & _ & (Hk1 & _) & _); rewrite Eb in Hk1; cbn in Hk1; lia|].
  destruct (alloc_inv s1 H idx k m bs Hi1 ltac:(lia) Eb) as (Hi2 & Hm0 & Em). destruct (NX_MemAlloc s1) as [s2 m'] eqn:Ea.
  cbn [fst snd] in Hi2, Em. subst m'. rewrite (proj2 (Z.eqb_neq m 0)) by done.
  assert (Hsm12 : same_mounts s1 s2) by (unfold NX_MemAlloc in Ea; rewrite Eb in Ea; by injection Ea as <-).
  assert (Hst2 : step s H idx s2 idx) by (split; [by eapply same_mounts_trans; [apply Hst1|]|done]).
  assert (Hms : mounts s !! m = None).
  { apply Hnew. destruct Hop as (_ & _ & _ & _ & <- & _). rewrite Eb. left. }
  rewrite Z.geb_leb, (proj2 (Z.leb_gt _ _)) by done.
  apply wp_bind, (Mount_covered_wp s2 H idx (k - 1)); [done|lia|done|done| |].
  { intros s3 e He (idx3 & Hi3 & Hst3). apply wp_ret. left. split; [done|]. eapply ends_intro; [exact Hi3|lia|by eapply step_trans]. }
  intros s3 idx3 H' c Hi3 Hst3 Hcov. pose proof (step_trans _ _ _ _ _ _ _ Hst2 Hst3) as Hst03.
  set (mt := mkMount _ bdev (render ps) _ 0 0 c).
  destruct (others_new m s3 _ H' idx3 _ mt Hi3 (same_mounts_None _ _ _ (proj1 Hst03) Hms) eq_refl) as (OK4 & Hmo4 & Hmt4 & Hoth4).
  eapply wp_mono; [eapply (Mount_root_wp s idx _ H H' idx3 (k - 1026) m d bdev ps mt OK4 Hmo4)|]; try done.
  - destruct Hi3 as (_ & _ & _ & Hl3 & _). lia.
  - lia.
  - apply (heap_ok_less _ (k - 1 - 1024)); [apply Hi3|lia].
  - eapply others_trans; [by apply same_others, (proj1 Hst03)|done].
  - by eapply kept_to_mounts.
  - apply Hi.
  - destruct Hcov as [?|(m1 & qs & E1 & Hloc & Hcc)]; [by left|right]. exists m1, qs. split; [done|]. split; [|done].
    apply (located_same _ _ _ _ _ (proj1 Hst2)). done.
  - intros r Hr. right. exists p. split; [done|]. by split.
Qed.

(** ** [NX_VfsUnmountFileSystem] *)
Lemma Mount_find_wp s H idx k l p : inv None s H idx k -> (forall m, m ∈ l -> m ∈ mountList s) ->
  exists r, Mount_find s l p = Some r /\
    match r with
    | Some m => m ∈ l /\ exists mt, mounts s !! m = Some mt /\ mpath mt = p
    | None => forall m mt, m ∈ l -> mounts s !! m = Some mt -> mpath mt <> p
    end.
Proof.
  intros Hi. induction l as [|m l IH]; intros Hl; cbn [Mount_find].
  { exists None. split; [done|]. intros m mt Hm. by apply elem_of_nil in Hm. }
  destruct (proj1 (proj2 Hi) m (Hl m ltac:(left))) as (_ & mt & ms & Hmt & _). rewrite Hmt, Some_bind. case_bool_decide as E.
  - exists (Some m). split; [done|]. split; [left|]. by exists mt.
  - destruct IH as (r & -> & Hr); [intros; apply Hl; by right|]. exists r. split; [done|]. destruct r as [m'|].
    + destruct Hr as [? ?]. split; [by right|done].
    + intros m' mt' [->|Hin]%elem_of_cons Hmt'; [congruence|by apply (Hr m' mt')].
Qed.

(** What unmounting leaves: after an error everything is as before (the path is
    none, no mount has it, or one that is in use has it); otherwise the mount is
    gone and its covered directory is given back. *)
Definition unmount_refused s cwd path : Prop :=
  NX_VfsBuildAbsPath cwd path <> Some (render (abs_comps cwd path), NX_EOK) \/
  (forall m mt, m ∈ mountList s -> mounts s !! m = Some mt -> mpath mt <> render (abs_comps cwd path)) \/
  exists m mt, m ∈ mountList s /\ mounts s !! m = Some mt /\ mpath mt = render (abs_comps cwd path) /\ 1 < mrefcnt mt.

Definition unmount_result s H idx (k : Z) cwd path s' (e : NX_Error) : Prop :=
  (e <> NX_EOK /\ ends None s H idx k s' /\ unmount_refused s cwd path) \/
  exists m mt H' idx', m ∈ mountList s /\ mounts s !! m = Some mt /\ mpath mt = render (abs_comps cwd path) /\
    mountList s' = list_del m (mountList s) /\ mounts s' !! m = None /\
    others_same m (with_mounts s (list_del m (mountList s)) (mounts s)) s' /\
    inv None s' H' idx' k /\ held H' idx idx' /\
    (if nz (covered mt) then exists h, H ≡ₚ h :: H' /\ idx !! h = Some (covered mt) else H' = H).

(** A mount with one node has no holder but of its root. *)
Lemma one_node_free s H idx k m mt :
  inv None s H idx k -> mounts s !! m = Some mt -> mrefcnt mt <= 1 -> (m, []) ∉ H -> forall h, h ∈ H -> h.1 <> m.
Proof.
  intros (OK & _) Hmt Hcnt Hroot [m1 qs] Hin E. cbn in E. subst m1.
  destruct (vo_used _ _ _ _ OK m qs qs Hin ltac:(done)) as [n Hn].
  pose proof (vo_root _ _ _ _ OK m mt ltac:(done) Hmt) as Hr. rewrite (vo_count _ _ _ _ OK m mt) in Hcnt by done.
  destruct (vo_node _ _ _ _ OK _ _ _ Hn) as (_ & _ & _ & _ & Hs & _).
  destruct (vo_node _ _ _ _ OK _ _ _ Hr) as (_ & _ & _ & _ & Hs' & _).
  assert (n <> root mt).
  { intros ->. pose proof (idx_inj _ _ _ _ _ _ _ _ _ OK Hn Hr) as [= ->]. done. }
  pose proof (nodes_of_two _ m _ _ _ _ Hs Hs' ltac:(done) eq_refl eq_refl). lia.
Qed.

Lemma inv_world s H idx k w : inv None s H idx k -> inv None (with_world s w) H idx k.
Proof. by apply inv_same. Qed.

Lemma NX_VfsUnmountFileSystem_wp cwd s H idx k path :
  inv None s H idx k -> cwd_ok cwd -> path_fits path ->
  (forall m mt, m ∈ mountList s -> mounts s !! m = Some mt -> mpath mt = render (abs_comps cwd path) ->
     (m, []) ∉ H /\ (covered mt <> 0 -> exists h, h ∈ H /\ idx !! h = Some (covered mt))) ->
  wp (NX_VfsUnmountFileSystem fs_call cwd s path) (fun r => unmount_result s H idx k cwd path r.1 r.2).
Proof using Hvget.
  intros Hi Hc Hf Hmounts.
  assert (Herr : forall e, e <> NX_EOK -> unmount_refused s cwd path -> unmount_result s H idx k cwd path s e).
  { intros e He Hr. left. split; [done|]. split; [|done]. eapply ends_intro; [done|split; [apply Hi|lia]|apply step_refl]. }
  unfold NX_VfsUnmountFileSystem, with_path.
  destruct (build_cases cwd path Hc Hf) as [[Hbuild Hl]|(b & e & Hbuild & He)]; rewrite Hbuild, Some_bind.
  2:{ unfold is_ok. rewrite bool_decide_false by done. apply wp_ret, Herr; [done|]. left. rewrite Hbuild. congruence. }
  change (is_ok NX_EOK) with true. cbv iota.
  destruct (Mount_find_wp s H idx k (mountList s) (render (abs_comps cwd path)) Hi ltac:(done)) as (r & -> & Hr).
  rewrite Some_bind. destruct r as [m|]; [|apply wp_ret, Herr; [done|by right; left]].
  destruct Hr as (Hin & mt & Hmt & Hpath). rewrite Hmt, Some_bind.
  destruct (Z.gtb_spec (mrefcnt mt) 1) as [|Hcnt]; [apply wp_ret, Herr; [done|]; right; right; by exists m, mt|].
  destruct (Hmounts m mt Hin Hmt Hpath) as [Hroot Hcov]. pose proof (one_node_free _ _ _ _ _ _ Hi Hmt Hcnt Hroot) as Hfree.
  set (s1 := with_mounts s (list_del m (mountList s)) (mounts s)).
  assert (Hi1 : inv None s1 H idx k).
  { destruct Hi as (OK & Hmo & Hrest). split; [by destruct OK|]. split; [|done]. intros m' [_ Hin']%elem_of_list_del. by apply Hmo. }
  assert (Hknown : known idx (root mt)) by (exists (m, []); by apply (vo_root _ _ _ _ (proj1 Hi))).
  apply wp_bind, (fs_do_inv s1 H idx k); [done..|]. intros s2 r2 Hi2 Hs2.
  apply wp_bind, (fs_do_inv s2 H idx k); [done..|]. intros s3 r3 Hi3 Hs3. pose proof (same_refs_trans _ _ _ Hs2 Hs3) as Hs13.
  pose proof Hs13 as (Es & Em & En & El & Eb & Ef).
  assert (Hcovered : exists H', if nz (covered mt) then exists h, H ≡ₚ h :: H' /\ idx !! h = Some (covered mt) else H' = H).
  { unfold nz. destruct (Z.eqb_spec (covered mt) 0) as [|Hne]; cbn [negb]; [by exists H|].
    destruct (Hcov Hne) as (h & Hh & Hidx). apply elem_of_Permutation in Hh as [H' E]. exists H', h. done. }
  destruct Hcovered as [H' Hcovered]. apply wp_bind.
  eapply wp_mono; [eapply (drop_mount_wp s3 H H' idx k m mt); try done|].
  - by rewrite Em.
  - rewrite El. intros [? _]%elem_of_list_del. done.
  - intros s4 (idx' & Hi4 & Hheld & Hoth & Hgone). apply wp_ret. right.
    assert (Ho4 : others_same m s1 s4) by (eapply others_trans; [by apply same_others, same_refs_mounts|done]).
    exists m, mt, H', idx'. split; [done|]. split; [done|]. split; [done|]. cbn [fst].
    destruct (nz (dev mt)); (split; [apply Ho4|]); (split; [done|]); (split; [exact Ho4|]);
      (split; [first [done|by apply (inv_world s4)]|done]).
Qed.

(** The holders of a table are files of its mounts. *)
Lemma holder_mount s H idx k m qs : inv None s H idx k -> (m, qs) ∈ H -> is_Some (mounts s !! m).
Proof.
  intros (OK & _) Hin. destruct (vo_used _ _ _ _ OK m qs qs Hin ltac:(done)) as [n Hn].
  by destruct (vo_node _ _ _ _ OK _ _ _ Hn) as (_ & _ & _ & ? & _).
Qed.

Lemma ends_shapes s H idx k k' s' : inv None s H idx k -> ends None s H idx k' s' -> shapes s' = shapes s /\ same_mounts s s'.
Proof.
  intros (OK & _) (idx' & (OK' & _) & Hsm & Hkept). split; [|done].
  by apply (kept_shapes None s s' H idx idx').
Qed.

(** A mount without holders has one node. *)
Lemma free_one_node s H idx k m mt :
  inv None s H idx k -> mounts s !! m = Some mt -> (forall h, h ∈ H -> h.1 <> m) -> mrefcnt mt <= 1.
Proof.
  intros (OK & _) Hmt Hno. rewrite (vo_count _ _ _ _ OK m mt) by done.
  pose proof (vo_root _ _ _ _ OK m mt ltac:(done) Hmt) as Hr.
  destruct (vo_node _ _ _ _ OK _ _ _ Hr) as (_ & _ & _ & _ & Hs & _).
  pose proof (nodes_of_gone _ _ _ m Hs) as Hg. cbn [fst] in Hg. rewrite decide_True in Hg by done.
  rewrite (nodes_of_none (delete _ _)) in Hg; [lia|]. intros n [[m1 r] p] [Hne Hn]%lookup_delete_Some E. cbn in E. subst m1.
  destruct (vo_idx _ _ _ _ OK _ _ Hn) as (m2 & cs & Hi). destruct (vo_node _ _ _ _ OK _ _ _ Hi) as (_ & _ & _ & _ & Hs2 & Hp).
  rewrite Hn in Hs2. injection Hs2 as <- _ _. destruct cs as [|c cs]; [congruence|]. specialize (Hp ltac:(done)).
  destruct (proj1 (uses_pos H m (c :: cs)) Hp) as (h & Hin & E & _). by destruct (Hno h Hin).
Qed.

(** Unmounting what was just mounted. *)
Lemma unmount_mounted cwd s s1 H H' idx idx1 k k1 m mt path :
  inv None s H idx k -> inv None s1 H' idx1 k1 -> held H idx idx1 -> cwd_ok cwd -> path_fits path ->
  NX_VfsBuildAbsPath cwd path = Some (render (abs_comps cwd path), NX_EOK) ->
  mounts s !! m = None -> others_same m s (with_mounts s1 (mountList s) (mounts s1)) -> mountList s1 = m :: mountList s ->
  mounts s1 !! m = Some mt -> mpath mt = render (abs_comps cwd path) ->
  (forall m' mt', m' ∈ mountList s -> mounts s1 !! m' = Some mt' -> mpath mt' <> render (abs_comps cwd path)) ->
  (covered mt = 0 /\ H' = H \/
   exists m1 qs, H' = (m1, qs) :: H /\ m1 ∈ mountList s /\ idx1 !! (m1, qs) = Some (covered mt)) ->
  wp (NX_VfsUnmountFileSystem fs_call cwd s1 path) (fun r => shapes r.1 = shapes s /\ same_mounts s r.1).
Proof using Hvget.
  intros Hi Hi1 Hheld Hc Hf Hbuild Hm0 Hoth Hlist Hmt Hpath Huniq Hcov.
  assert (Hnin : m ∉ mountList s).
  { intros Hin. destruct (proj1 (proj2 Hi) m Hin) as (_ & ? & ? & ? & _). congruence. }
  assert (Hno : forall h, h ∈ H' -> h.1 <> m).
  { intros [m1 qs1] Hin E. cbn in E. subst m1. assert (Hin' : (m, qs1) ∈ H \/ m ∈ mountList s).
    { destruct Hcov as [(_ & ->)|(m1 & qs & -> & Hm1 & _)]; [by left|]. apply elem_of_cons in Hin as [[= <- <-]|?]; [by right|by left]. }
    destruct Hin' as [Hin'|?]; [|done]. destruct (holder_mount _ _ _ _ _ _ Hi Hin') as [? ?]. congruence. }
  assert (Hthe : forall m' mt', m' ∈ mountList s1 -> mounts s1 !! m' = Some mt' -> mpath mt' = render (abs_comps cwd path) -> m' = m).
  { intros m' mt' Hin Hmt' Hp'. rewrite Hlist in Hin. apply elem_of_cons in Hin as [->|Hin]; [done|]. by destruct (Huniq m' mt' Hin Hmt'). }
  eapply wp_mono; [eapply (NX_VfsUnmountFileSystem_wp cwd s1 H' idx1 k1 path); try done|].
  - intros m' mt' Hin Hmt' Hp'. assert (m' = m) as -> by exact (Hthe m' mt' Hin Hmt' Hp'). rewrite Hmt in Hmt'. injection Hmt' as <-.
    split; [intros Hin'; by destruct (Hno _ Hin')|]. intros Hne. destruct Hcov as [(? & _)|(m1 & qs & -> & _ & Hcv)]; [done|].
    exists (m1, qs). split; [left|done].
  - intros [s2 e] [(_ & _ & Href)|Hok].
    { exfalso. destruct Href as [?|[Hnone|(m' & mt' & Hin & Hmt' & Hp' & Hb)]]; [done|eapply (Hnone m mt); [rewrite Hlist; left|done..]|].
      assert (m' = m) as -> by exact (Hthe m' mt' Hin Hmt' Hp'). pose proof (free_one_node _ _ _ _ _ _ Hi1 Hmt' Hno). lia. }
    destruct Hok as (m' & mt' & H2 & idx2 & Hin & Hmt' & Hp' & El2 & Hgone & Ho2 & Hi2 & Hheld2 & Hcov2). cbn [fst] in *.
    assert (m' = m) as -> by exact (Hthe m' mt' Hin Hmt' Hp'). rewrite Hmt in Hmt'. injection Hmt' as <-.
    assert (HH : H2 ≡ₚ H).
    { destruct Hcov as [(Hz & ->)|(m1 & qs & -> & _ & Hcv)].
      - rewrite Hz in Hcov2. cbn in Hcov2. by rewrite Hcov2.
      - destruct (vo_node _ _ _ _ (proj1 Hi1) _ _ _ Hcv) as (Hc0 & _). unfold nz in Hcov2.
        rewrite (proj2 (Z.eqb_neq _ 0)) in Hcov2 by done. cbn in Hcov2. destruct Hcov2 as (h & Hperm & Hh). destruct h as [mh qh].
        pose proof (idx_inj _ _ _ _ _ _ _ _ _ (proj1 Hi1) Hh Hcv) as [= -> ->]. by apply Permutation_cons_inv in Hperm. }
    assert (Hsm : same_mounts s s2).
    { destruct Ho2 as (_ & Ef2 & Hm2), Hoth as (_ & Ef & Hm1). cbn in Ef, Ef2, Hm1, Hm2. split_and!.
      - apply map_eq. intros x. rewrite !lookup_fmap. destruct (decide (x = m)) as [->|Hne]; [by rewrite Hgone, Hm0|].
        by rewrite Hm2, Hm1.
      - rewrite El2, Hlist, list_del_cons_eq. by apply list_del_notin.
      - congruence. }
    split; [|done]. apply (inv_perm _ _ _ _ _ _ HH) in Hi2. apply (kept_shapes None s s2 H idx idx2); [apply Hi|apply Hi2|].
    intros x q [Hu | ->]; [|by eapply root_same; [apply Hi|apply Hi2|done]].
    rewrite <- (Hheld x q Hu). apply Hheld2. by rewrite (uses_perm _ _ _ _ HH).
Qed.

(** ** Any call *)

(** The calls of a process: on descriptors, and on paths. *)
Inductive VfsCall :=
  | Open (path : option str) (flags mode : Z) | Close (fd : Z)
  | Read (fd : Z) (buf : bool) (len : Z) | Write (fd : Z) (buf : option (list Z)) | Ioctl (fd cmd arg : Z)
  | FileSeek (fd off whence : Z) | FileSync (fd : Z) | FileChmod (fd mode : Z) | FileStat (fd : Z) (st : bool)
  | OpenDir (name : option str) | CloseDir (fd : Z) | ReadDir (fd : Z) (dir : bool) | RewindDir (fd : Z)
  | RemoveDir (path : option str)
  | MakeDir (path : option str) (mode : Z) | Rename (src dst : str) | Unlink (path : option str)
  | Access (path : option str) (mode : Z) | Chmod (path : option str) (mode : Z) | Stat (path : option str) (st : bool).

Definition vfs_call (fuel : nat) (cwd : option str) s (ft : option FileTable) (c : VfsCall) : option (Vfs * option FileTable) :=
  match c with
  | Open path fl md => '(s, ft, _, _) ← NX_VfsOpen fs_call cwd s ft path fl md; Some (s, ft)
  | Close fd => '(s, ft, _) ← NX_VfsClose fs_call s ft fd; Some (s, ft)
  | Read fd buf len => '(s, ft, _, _, _) ← NX_VfsRead fs_call s ft fd buf len; Some (s, ft)
  | Write fd buf => '(s, ft, _, _) ← NX_VfsWrite fs_call s ft fd buf; Some (s, ft)
  | Ioctl fd cmd arg => '(s, ft, _) ← NX_VfsIoctl fs_call s ft fd cmd arg; Some (s, ft)
  | FileSeek fd off whence => '(ft, _, _) ← NX_VfsFileSeek s ft fd off whence; Some (s, ft)
  | FileSync fd => '(s, ft, _) ← NX_VfsFileSync fs_call s ft fd; Some (s, ft)
  | FileChmod fd md => '(s, ft, _) ← NX_VfsFileChmod fs_call s ft fd md; Some (s, ft)
  | FileStat fd st => '(_, _) ← NX_VfsFileStat s ft fd st; Some (s, ft)
  | OpenDir name => '(s, ft, _, _) ← NX_VfsOpenDir fs_call cwd s ft name; Some (s, ft)
  | CloseDir fd => '(s, ft, _) ← NX_VfsCloseDir fs_call s ft fd; Some (s, ft)
  | ReadDir fd dir => '(s, ft, _, _) ← NX_VfsReadDir fs_call s ft fd dir; Some (s, ft)
  | RewindDir fd => '(ft, _) ← NX_VfsRewindDir s ft fd; Some (s, ft)
  | RemoveDir path => '(s, ft, _) ← NX_VfsRemoveDir fs_call fuel cwd s ft path; Some (s, ft)
  | MakeDir path md => '(s, _) ← NX_VfsMakeDir fs_call cwd s path md; Some (s, ft)
  | Rename src dst => '(s, _) ← NX_VfsRename fs_call cwd s src dst; Some (s, ft)
  | Unlink path => '(s, _) ← NX_VfsUnlink fs_call cwd s path; Some (s, ft)
  | Access path md => '(s, _) ← NX_VfsAccess fs_call cwd s path md; Some (s, ft)
  | Chmod path md => '(s, _) ← NX_VfsChmod fs_call cwd s path md; Some (s, ft)
  | Stat path st => '(s, _, _) ← NX_VfsStat fs_call cwd s path st; Some (s, ft)
  end.

(** Paths fit their buffers; a file is not renamed into itself (which would
    wait for a mutex the thread holds). *)
Definition allowed (cwd : option str) (c : VfsCall) : Prop :=
  match c with
  | Open path _ _ | RemoveDir path | MakeDir path _ | Unlink path | Access path _ | Chmod path _ | Stat path _ | OpenDir path =>
      opt_fits path
  | Rename src dst => path_fits src /\ path_fits dst /\ abs_comps cwd src <> parent (abs_comps cwd dst)
  | _ => True
  end.

(** The calls that open and close nothing. *)
Definition on_path (c : VfsCall) : bool :=
  match c with MakeDir _ _ | Rename _ _ | Unlink _ | Access _ _ | Chmod _ _ | Stat _ _ => true | _ => false end.

Lemma tends_call {A} s H idx k (run : option A) (f : A -> Vfs * option FileTable) :
  wp run (fun r => tends None s H idx k (f r).1 (f r).2) ->
  wp (r ← run; Some (f r)) (fun r => tends None s H idx k r.1 r.2).
Proof. intros Hr. apply wp_bind. eapply wp_mono; [exact Hr|]. intros a Ha. by apply wp_ret. Qed.

Lemma vfs_call_wp N (fuel : nat) cwd s ft hs H idx c :
  readdir_ends fs_call N -> N < fuel -> inv None s (hs ++ H) idx 5120 -> table_ok idx ft hs -> cwd_ok cwd -> allowed cwd c ->
  on_path c = false ->
  wp (vfs_call fuel cwd s ft c) (fun r => tends None s H idx 0 r.1 r.2).
Proof using Hvget.
  intros HN Hfuel Hi Hft Hc Ha Hp. 
  assert (Hz : forall k s' ft', 0 <= k -> tends None s H idx k s' ft' -> tends None s H idx 0 s' ft')
    by (intros; eapply tends_less; [done|lia]).
  destruct c; try done; cbn [vfs_call allowed] in *; apply wp_bind.
  all: (eapply wp_mono; [first [by eapply NX_VfsOpen_wp|by eapply NX_VfsClose_wp|by eapply NX_VfsRead_wp|by eapply NX_VfsWrite_wp
    |by eapply NX_VfsIoctl_wp|by eapply NX_VfsFileSeek_wp|by eapply NX_VfsFileSync_wp|by eapply NX_VfsFileChmod_wp
    |by eapply NX_VfsFileStat_wp|by eapply NX_VfsOpenDir_wp|by eapply NX_VfsCloseDir_wp|by eapply NX_VfsReadDir_wp
    |by eapply NX_VfsRewindDir_wp|by eapply NX_VfsRemoveDir_wp]|]); cbn beta; intros r Hr;
    repeat match goal with x : _ * _ |- _ => destruct x end; cbn [fst snd] in Hr; apply wp_ret; cbn [fst snd].
  all: first [eapply Hz; [|exact Hr]; lia | eapply Hz; [|exact (proj1 Hr)]; lia | eapply (Hz 5120); [lia|by eapply tends_refl]].
Qed.

Lemma vfs_path_call_wp (fuel : nat) cwd s ft H idx c :
  inv None s H idx 5120 -> cwd_ok cwd -> allowed cwd c -> on_path c = true ->
  wp (vfs_call fuel cwd s ft c) (fun r => ends None s H idx 0 r.1 /\ r.2 = ft).
Proof using Hvget.
  intros Hi Hc Ha Hp.
  assert (Hz : forall k s', 0 <= k -> ends None s H idx k s' -> ends None s H idx 0 s').
  { intros k s' Hk (idx' & Hi' & Hst). eapply ends_intro; [exact Hi'|lia|done]. }
  destruct c; try done; cbn [vfs_call allowed] in *; apply wp_bind.
  all: (eapply wp_mono; [first [eapply (NX_VfsMakeDir_wp fs_call Hvget); [exact Hi|lia|done|done]
    |eapply (NX_VfsUnlink_wp fs_call Hvget); [exact Hi|lia|done|done]
    |eapply (NX_VfsAccess_wp fs_call Hvget); [exact Hi|lia|done|done]
    |eapply (NX_VfsChmod_wp fs_call Hvget); [exact Hi|lia|done|done]
    |eapply (NX_VfsStat_wp fs_call Hvget); [exact Hi|lia|done|done]
    |eapply (NX_VfsRename_wp fs_call Hvget); [exact Hi|lia|done|apply Ha|apply Ha|apply Ha]]|]); cbn beta; intros r Hr;
    repeat match goal with x : _ * _ |- _ => destruct x end; cbn [fst snd] in Hr; apply wp_ret; cbn [fst snd].
  all: (split; [|done]; eapply Hz; [|exact Hr]; lia).
Qed.

(** C25: No call of the virtual file system leaks or loses a reference, as long
    as every node of a path can be made.  With the open descriptors of a file
    table and any other holders (tables of other processes, covered directories)
    accounted for, every call of a process ends; afterwards the references of
    the node table are exactly those of the descriptors open then and of the
    other holders, whose nodes stay where they are.  A call on a path leaves
    every node and the file table as it found them.  The conditions: the heap
    has 5120 new objects left, file systems give every node ([vget_ok], true of
    [cpio] and [devfs]; when one does not, references leak,
    [refused_keeps_ancestor]) and their directories end; the file systems answer
    anything else.  Paths fit their buffers, and nothing is renamed into itself
    ([allowed]; the code would deadlock, [rename_into_itself]). *)
Theorem calls_keep_references N (fuel : nat) cwd s ft hs H idx c :
  readdir_ends fs_call N -> N < fuel ->
  vfs_ok None s (hs ++ H) idx -> mounts_ok None s -> heap_ok s 5120 -> length (hs ++ H) + 5120 < 2 ^ 62 ->
  table_ok idx ft hs -> cwd_ok cwd -> allowed cwd c ->
  exists s' ft' hs' idx', vfs_call fuel cwd s ft c = Some (s', ft') /\
    vfs_ok None s' (hs' ++ H) idx' /\ mounts_ok None s' /\ same_mounts s s' /\ table_ok idx' ft' hs' /\
    (forall h, h ∈ H -> idx' !! h = idx !! h) /\
    (on_path c = true -> shapes s' = shapes s /\ ft' = ft).
Proof using Hvget.
  intros HN Hfuel OK Hmo Hh Hl Hft Hc Ha. assert (Hi : inv None s (hs ++ H) idx 5120) by (split_and!; done).
  assert (Hheld : forall idx', kept H idx idx' -> forall h, h ∈ H -> idx' !! h = idx !! h).
  { intros idx' Hk h Hin. eapply held_lookup; [by apply kept_held|done]. }
  destruct (on_path c) eqn:Hp.
  - destruct (vfs_path_call_wp fuel cwd s ft (hs ++ H) idx c Hi Hc Ha Hp) as ([s' ft'] & Hrun & He & Eft). cbn [fst snd] in He, Eft. subst ft'.
    pose proof (ends_shapes _ _ _ _ _ _ Hi He) as [Hs Hsm]. destruct He as (idx' & Hi' & Hst).
    exists s', ft, hs, idx'. split; [done|]. split; [apply Hi'|]. split; [apply Hi'|]. split; [done|]. split; [|split; [|done]].
    + eapply table_ok_step; [exact Hst|by apply submseteq_inserts_r|done].
    + apply Hheld. eapply (step_less s H (hs ++ H)); [apply submseteq_tail|done].
  - destruct (vfs_call_wp N fuel cwd s ft hs H idx c HN Hfuel Hi Hft Hc Ha Hp) as ([s' ft'] & Hrun & hs' & idx' & Hi' & Hft' & Hst).
    exists s', ft', hs', idx'. split; [done|]. split; [apply Hi'|]. split; [apply Hi'|]. split; [apply Hst|]. split; [done|].
    split; [|done]. apply Hheld, Hst.
Qed.

(** C26: Mounting and unmounting are inverse, as long as every node of a path
    can be made.  [NX_VfsMountFileSystem] either refuses, and mounts and nodes
    are as before, or puts a mount at the head of the list at a path that no
    other mount has, with a root node of its own; [NX_VfsUnmountFileSystem] of
    the path then takes the mount away and restores every node and its count.
    The conditions: the heap has 1026 new objects left, none of them the object
    of a mount, and file systems give every node ([vget_ok], true of [cpio] and
    [devfs]; when one does not, the ancestors of the refused path stay
    referenced, [refused_keeps_ancestor]); the path fits its buffer. *)
Theorem mount_unmount cwd s H idx d path fsname fl :
  vfs_ok None s H idx -> mounts_ok None s -> heap_ok s 1026 -> length H + 1026 < 2 ^ 62 ->
  (forall b, b ∈ blocks s -> mounts s !! b = None) -> cwd_ok cwd -> path_fits path ->
  exists s1 e, NX_VfsMountFileSystem fs_call cwd s d (Some path) fsname fl = Some (s1, e) /\
    ((e <> NX_EOK /\ shapes s1 = shapes s /\ same_mounts s s1) \/
     (e = NX_EOK /\ exists m mt nd, mountList s1 = m :: mountList s /\ mounts s1 !! m = Some mt /\
        mpath mt = render (abs_comps cwd path) /\
        (forall m' mt', m' ∈ mountList s -> mounts s1 !! m' = Some mt' -> mpath mt' <> mpath mt) /\
        nodes s1 !! root mt = Some nd /\ Vfs.mount nd = m /\ Vfs.path nd = [slash] /\
        (exists H' idx', vfs_ok None s1 H' idx' /\ mounts_ok None s1) /\
        exists s2 e2, NX_VfsUnmountFileSystem fs_call cwd s1 path = Some (s2, e2) /\
          shapes s2 = shapes s /\ same_mounts s s2)).
Proof using Hvget.
  intros OK Hmo Hh Hl Hnew Hc Hf. assert (Hi : inv None s H idx 1026) by (split_and!; done).
  destruct (NX_VfsMountFileSystem_wp cwd s H idx 1026 d (Some path) fsname fl Hi ltac:(lia) Hnew Hc Hf) as ([s1 e] & Hrun & Hr).
  exists s1, e. split; [done|]. cbn [fst snd] in Hr.
  destruct Hr as [[He Hends]|(p & [= <-] & Hbuild & [[He Hends]|(He & m & mt & H' & idx' & Hi1 & Hheld & Hm0 & Hoth & Hlist & Hmt & Hp & Hun & Hcov)])].
  1, 2: left; split; [done|]; by eapply ends_shapes.
  right. split; [done|]. pose proof (vo_root _ _ _ _ (proj1 Hi1) m mt ltac:(done) Hmt) as Hroot.
  destruct (node_of_idx _ _ _ _ _ _ _ (proj1 Hi1) Hroot) as (nd & Hn & Hmn & Hpn & _). exists m, mt, nd.
  split; [done|]. split; [done|]. split; [done|]. split; [rewrite Hp; exact Hun|]. split; [done|]. split; [done|]. split; [done|].
  split; [exists H', idx'; split; apply Hi1|].
  destruct (unmount_mounted cwd s s1 H H' idx idx' 1026 _ m mt path Hi Hi1 Hheld Hc Hf Hbuild Hm0 Hoth Hlist Hmt Hp Hun)
    as ([s2 e2] & Hrun2 & Hs2 & Hsm2).
  - destruct Hcov as [(_ & ? & ?)|(m1 & qs & -> & (? & _) & ?)]; [by left|right; by exists m1, qs].
  - by exists s2, e2.
Qed.
End mount.

(** ** A small system

    One file system whose directories are all empty. *)
Section demo.
#[local] Instance demo_blocks : BlockOps unit := {| NX_IoBlockOpen w _ := (w, 7); NX_IoBlockSync w _ := w; NX_IoBlockClose w _ := w |}.

Definition demo_fs (f : Z) (op : FsOp) (m : Z) (w : unit) (l : list NodeAttr) : unit * list NodeAttr * FsResult :=
  let res e := mkResult e 0 [] (mkDirent 0 0 TYPE_UNK []) 0 in
  match op with
  | Fs_lookup _ =>
      (w, match l with [dn; n] => [dn; mkAttr TYPE_DIR S_IRWX 0 0 0 0 0] | _ => l end, res NX_EOK)
  | Fs_readdir _ => (w, l, res NX_ENORES)
  | _ => (w, l, res NX_EOK)
  end.

Definition demo_start : Vfs := (NX_VfsRegisterFileSystem (NX_VfsInit tt (seqZ 1000 7000)) (Some (5, Some [97]))).1.

Lemma demo_vget : vget_ok demo_fs.
Proof. by intros f m w l. Qed.

Lemma demo_readdir : readdir_ends demo_fs 0.
Proof. split; [lia|]. by intros f m w l off r Ho. Qed.

Lemma demo_heap : forall b, b ∈ seqZ 1000 7000 -> 1000 <= b.
Proof. intros b Hb. apply elem_of_seqZ in Hb. lia. Qed.

Lemma fresh_vfs_ok (w : unit) heap fss : length heap < 2 ^ 62 -> vfs_ok None (mkVfs fss [] (replicate 256 []) ∅ ∅ heap w) [] ∅.
Proof.
  intros Hh. constructor; try done.
  - intros m cs cs' Hin. by apply elem_of_nil in Hin.
  - intros h l [_ Hl]%zlookup_Some. cbn [nodeList] in Hl. apply lookup_replicate in Hl as [-> _]. split; [apply NoDup_nil_2|].
    intros n. split; [intros Hn; by apply elem_of_nil in Hn|]. intros (m & r & p & Hs & _).
    unfold shapes in Hs. cbn [nodes] in Hs. rewrite fmap_empty in Hs. by rewrite lookup_empty in Hs.
Qed.

Lemma demo_inv : inv None demo_start [] ∅ 7000.
Proof.
  split; [apply (fresh_vfs_ok tt (seqZ 1000 7000)); rewrite length_seqZ; lia|]. split; [|split; [|cbn; lia]].
  - intros m Hm. by apply elem_of_nil in Hm.
  - unfold heap_ok. change (blocks demo_start) with (seqZ 1000 7000). split; [rewrite length_seqZ; lia|]. split; [apply NoDup_seqZ|]. intros b Hb%demo_heap. split; [lia|].
    unfold shapes. cbn. rewrite fmap_empty. apply lookup_empty.
Qed.

Definition demo_mounted : option (Vfs * NX_Error) := NX_VfsMountFileSystem demo_fs None demo_start None (Some [slash]) (Some [97]) 0.

Lemma mount_unmount_witness :
  exists s1 s2 e2, demo_mounted = Some (s1, NX_EOK) /\
    NX_VfsUnmountFileSystem demo_fs None s1 [slash] = Some (s2, e2) /\ shapes s2 = shapes demo_start.
Proof.
  destruct demo_inv as (OK & Hmo & Hh & _).
  destruct (mount_unmount demo_fs demo_vget None demo_start [] ∅ None [slash] (Some [97]) 0) as (s1 & e & Hrun & Hr).
  - exact OK.
  - exact Hmo.
  - eapply heap_ok_less; [exact Hh|lia].
  - cbn. lia.
  - intros b _. apply lookup_empty.
  - exact I.
  - vm_compute. discriminate.
  - assert (He : e = NX_EOK).
    { assert (E : (snd <$> demo_mounted) = Some NX_EOK) by (vm_compute; reflexivity).
      unfold demo_mounted in E. rewrite Hrun in E. by injection E. }
    destruct Hr as [[Hne _]|(_ & m & mt & nd & _ & _ & _ & _ & _ & _ & _ & _ & s2 & e2 & Hrun2 & Hs2 & _)]; [by destruct Hne|].
    exists s1, s2, e2. subst e. split; [exact Hrun|]. split; [exact Hrun2|exact Hs2].
Defined.

(** The system after mounting. *)
Lemma demo_mounted_inv : exists s1 H idx, demo_mounted = Some (s1, NX_EOK) /\ inv None s1 H idx 5974.
Proof.
  destruct (NX_VfsMountFileSystem_wp demo_fs demo_vget None demo_start [] ∅ 7000 None (Some [slash]) (Some [97]) 0 demo_inv
    ltac:(lia) ltac:(intros; apply lookup_empty) I ltac:(done)) as ([s1 e] & Hrun & Hr).
  assert (He : e = NX_EOK).
  { assert (E : (snd <$> demo_mounted) = Some NX_EOK) by (vm_compute; reflexivity).
    unfold demo_mounted in E. rewrite Hrun in E. by injection E. }
  subst e. cbn [fst snd] in Hr.
  destruct Hr as [[Hne _]|(p & _ & _ & [[Hne _]|(_ & m & mt & H' & idx' & Hi & _)])];
    [destruct (Hne eq_refl)|destruct (Hne eq_refl)|].
  exists s1, H', idx'. split; [exact Hrun|exact Hi].
Qed.

Lemma calls_keep_references_witness :
  exists s1 s2 ft2 hs2 H idx2, demo_mounted = Some (s1, NX_EOK) /\
    vfs_call demo_fs 1 None s1 (Some (replicate 256 (mkFile 0 0 0))) (Open (Some [47; 97; 47; 98]) 1 0) = Some (s2, ft2) /\
    vfs_ok None s2 (hs2 ++ H) idx2.
Proof.
  destruct demo_mounted_inv as (s1 & H & idx & Hrun & (OK & Hmo & Hh & Hl & _)).
  destruct (calls_keep_references demo_fs demo_vget 0 1 None s1 (Some (replicate 256 (mkFile 0 0 0))) [] H idx
    (Open (Some [47; 97; 47; 98]) 1 0)) as (s2 & ft2 & hs2 & idx2 & Hrun2 & OK2 & _).
  - exact demo_readdir.
  - reflexivity.
  - exact OK.
  - exact Hmo.
  - eapply heap_ok_less; [exact Hh|lia].
  - cbn. lia.
  - split; [reflexivity|]. split; [|reflexivity]. repeat constructor.
  - exact I.
  - vm_compute. discriminate.
  - exists s1, s2, ft2, hs2, H, idx2. split; [exact Hrun|]. split; [exact Hrun2|exact OK2].
Defined.

Lemma demo_proper : Forall proper [[97]; [98]].
Proof. repeat constructor; try discriminate; intros Hs; apply list_elem_of_singleton in Hs; discriminate Hs. Qed.

Lemma acquire_release_witness :
  exists s1 s2 n, demo_mounted = Some (s1, NX_EOK) /\
    VfsNodeAcquire demo_fs s1 [47; 97; 47; 98] = Some (s2, Some n) /\
    exists s3, VfsNodeRelease demo_fs s2 n = Some s3 /\ shapes s3 = shapes s1.
Proof.
  destruct demo_mounted_inv as (s1 & H & idx & Hrun & (OK & Hmo & Hh & Hl & _)).
  destruct (acquire_release None demo_fs s1 H idx [[97]; [98]]) as (s2 & r & Hacq & Hr).
  - exact OK.
  - exact Hmo.
  - apply demo_proper.
  - reflexivity.
  - clear - Hl. lia.
  - eapply heap_ok_fresh; exact Hh.
  - assert (E : (s ← demo_mounted; r ← VfsNodeAcquire demo_fs s.1 [47; 97; 47; 98]; Some (bool_decide (r.2 = None))) = Some false)
      by (vm_compute; reflexivity).
    rewrite Hrun, Some_bind in E. cbn [fst] in E. change (render [[97]; [98]]) with [47; 97; 47; 98] in Hacq.
    rewrite Hacq, Some_bind in E. cbn [snd] in E. destruct r as [n|]; [|discriminate E].
    destruct Hr as (m & qs & nd & idx' & _ & _ & _ & _ & _ & _ & Hrel & _).
    exists s1, s2, n. split; [exact Hrun|]. split; [exact Hacq|exact Hrel].
Defined.

(** Defects of the code on small systems. *)

(** A file system with one directory, [a], without files. *)
Definition one_dir (f : Z) (op : FsOp) (m : Z) (w : unit) (l : list NodeAttr) : unit * list NodeAttr * FsResult :=
  let res e := mkResult e 0 [] (mkDirent 0 0 TYPE_UNK []) 0 in
  match op, l with
  | Fs_lookup [97], [dn; n] => (w, [dn; mkAttr TYPE_DIR S_IRWX 0 0 0 0 0], res NX_EOK)
  | Fs_lookup _, _ => (w, l, res NX_ENOSRCH)
  | _, _ => (w, l, res NX_EOK)
  end.

Definition mounted (fs_call : Z -> FsOp -> Z -> unit -> list NodeAttr -> unit * list NodeAttr * FsResult) : option Vfs :=
  fst <$> NX_VfsMountFileSystem fs_call None demo_start None (Some [slash]) (Some [97]) 0.

(** The heap gives the nodes of [/a] and [/a/a] and not that of [/a/a/a]: the
    file is refused, and the node of [/a] stays. *)
Lemma refused_keeps_ancestor :
  ('(s, _) ← NX_VfsMountFileSystem demo_fs None
     (NX_VfsRegisterFileSystem (NX_VfsInit tt [1000; 1001; 2000; 2001; 0]) (Some (5, Some [97]))).1 None (Some [slash]) (Some [97]) 0;
   '(s', r) ← VfsNodeAcquire demo_fs s [47; 97; 47; 97; 47; 97];
   Some (r, base.size (nodes s), base.size (nodes s'), path <$> nodes s' !! 2000)) = Some (None, 1%nat, 2%nat, Some [47; 97]).
Proof. vm_compute. reflexivity. Qed.

(** Renaming [/a/] to [/a/b] passes the check of the names, and takes the mutex
    of [a] twice. *)
Lemma rename_into_itself : (s ← mounted one_dir; Some (NX_VfsRename one_dir None s [47; 97; 47] [47; 97; 47; 98])) = Some None.
Proof. vm_compute. reflexivity. Qed.

(** An open root does not keep its mount busy: closing it afterwards reads a
    mount that is gone. *)
Lemma unmount_open_root :
  (s ← mounted one_dir;
   '(s, ft, fd, _) ← NX_VfsOpen one_dir None s (Some (replicate 256 (mkFile 0 0 0))) (Some [slash]) 1 0;
   '(s, e) ← NX_VfsUnmountFileSystem one_dir None s [slash];
   Some (bool_decide (e = NX_EOK), fd, bool_decide (NX_VfsClose one_dir s ft fd = None))) = Some (true, 3, true).
Proof. vm_compute. reflexivity. Qed.

(** From the end, a position in front of the file leaves the offset alone; from
    the start or the offset it is the start. *)
Lemma seek_before_start : seek_to 10 4 (-20) NX_VFS_SEEK_END = Some 4 /\ seek_to 10 4 (-20) NX_VFS_SEEK_CUR = Some 0 /\
  seek_to 10 4 (-20) NX_VFS_SEEK_SET = Some 0.
Proof. vm_compute. done. Qed.
End demo.
