(* ===== verification/CString.v ===== *)
(** Memory and string routines: [utils/memory.c], [utils/string.c],
    [utils/ctype.c].

    Memory is a finite map from addresses to bytes (0 to 255); an access outside
    it is [None].  Every loop moves a pointer through memory it accesses, so
    [S (size m)] turns are enough: one more would fault ([bytes_at_size]).
    Whether plain [char] is signed is the compiler's choice: x86 says yes,
    RISC-V no, and [chr] is the value of a [char] as an [int] in either case. *)
From S2P Require Import Prelude.

#[local] Coercion Z.of_nat : nat >-> Z.

Notation Mem := (gmap Z Z).

Definition load (m : Mem) (a : Z) : option Z := m !! a.
Definition store (m : Mem) (a v : Z) : option Mem :=
  _ ← m !! a; Some (<[a := u8 v]> m).

(** ** [utils/ctype.c] *)
Definition NX_IsDigit (c : Z) : bool := u32 (u32 c - 48) <? 10.
Definition NX_IsSpace (c : Z) : bool := (c =? 32) || (u32 (u32 c - 9) <? 5).
Definition NX_IsUpper (c : Z) : bool := u32 (u32 c - 65) <? 26.
Definition NX_IsAlpha (c : Z) : bool := u32 (Z.lor (u32 c) 32 - 97) <? 26.

(** ** [utils/memory.c] *)
Fixpoint MemSet_loop (m : Mem) (dstPtr value : Z) (sz : nat) : option Mem :=
  match sz with
  | O => Some m
  | S sz => m ← store m dstPtr value; MemSet_loop m (dstPtr + 1) value sz
  end.

Definition NX_MemSet (m : Mem) (dst value sz : Z) : option (Mem * Z) :=
  m ← MemSet_loop m dst value (Z.to_nat sz); Some (m, dst).

Fixpoint MemCopy_loop (m : Mem) (dstPtr srcPtr : Z) (sz : nat) : option Mem :=
  match sz with
  | O => Some m
  | S sz => c ← load m srcPtr; m ← store m dstPtr c; MemCopy_loop m (dstPtr + 1) (srcPtr + 1) sz
  end.

Definition NX_MemCopy (m : Mem) (dst src sz : Z) : option (Mem * Z) :=
  m ← MemCopy_loop m dst src (Z.to_nat sz); Some (m, dst).

Definition NX_MemZero (m : Mem) (dst sz : Z) : option (Mem * Z) := NX_MemSet m dst 0 sz.

(** The loop of the case [dest > src]: [tmp] and [s] are one past the end. *)
Fixpoint MemMove_back (m : Mem) (tmp s : Z) (n : nat) : option Mem :=
  match n with
  | O => Some m
  | S n => c ← load m (s - 1); m ← store m (tmp - 1) c; MemMove_back m (tmp - 1) (s - 1) n
  end.

Definition NX_MemMove (m : Mem) (dest src n : Z) : option (Mem * Z) :=
  if dest <=? src then m ← MemCopy_loop m dest src (Z.to_nat n); Some (m, dest)
  else m ← MemMove_back m (dest + n) (src + n) (Z.to_nat n); Some (m, dest).

Section chars.
(** [true] where plain [char] is signed. *)
Context (char_signed : bool).

Definition chr (b : Z) : Z := if char_signed then i8 b else b.

Fixpoint CompareN_loop (m : Mem) (p1 p2 : Z) (n : nat) : option Z :=
  match n with
  | O => Some 0
  | S n =>
      a ← load m p1; b ← load m p2;
      if negb (chr a =? chr b) then Some (chr a - chr b) else CompareN_loop m (p1 + 1) (p2 + 1) n
  end.

(** With a null argument the difference of the pointers, cut to an [int]. *)
Definition NX_CompareN (m : Mem) (s1 s2 nBytes : Z) : option Z :=
  if (s1 =? 0) || (s2 =? 0) then Some (i32 (s1 - s2))
  else CompareN_loop m s1 s2 (Z.to_nat nBytes).

(** ** [utils/string.c] *)
Fixpoint StrLen_loop (fuel : nat) (m : Mem) (p : Z) : option Z :=
  match fuel with
  | O => None
  | S fuel => c ← load m p; if nz c then StrLen_loop fuel m (p + 1) else Some (p + 1)
  end.

Definition NX_StrLen (m : Mem) (str : Z) : option Z :=
  p ← StrLen_loop (S (size m)) m str; Some (i32 (p - str - 1)).

Fixpoint StrCopy_loop (fuel : nat) (m : Mem) (dstPtr src : Z) : option Mem :=
  match fuel with
  | O => None
  | S fuel =>
      c ← load m src; m ← store m dstPtr c;
      if nz c then StrCopy_loop fuel m (dstPtr + 1) (src + 1) else Some m
  end.

Definition NX_StrCopy (m : Mem) (dst src : Z) : option (Mem * Z) :=
  m ← StrCopy_loop (S (size m)) m dst src; Some (m, dst).

(** The result is [NX_Size]. *)
Definition NX_StrCopyN (m : Mem) (dest src len : Z) : option (Mem * Z) :=
  r ← NX_StrLen m src;
  let ret := u64 r in
  if nz len then
    let n := if ret >=? len then u64 (len - 1) else ret in
    '(m, _) ← NX_MemCopy m dest src n;
    m ← store m (dest + n) 0;
    Some (m, ret)
  else Some (m, ret).

Fixpoint StrCmp_loop (fuel : nat) (m : Mem) (a b : Z) : option Z :=
  match fuel with
  | O => None
  | S fuel =>
      x ← load m a;
      if nz x then
        y ← load m b;
        if chr x =? chr y then StrCmp_loop fuel m (a + 1) (b + 1) else Some (chr x - chr y)
      else y ← load m b; Some (chr x - chr y)
  end.

Definition NX_StrCmp (m : Mem) (a b : Z) : option Z := StrCmp_loop (S (size m)) m a b.

Fixpoint StrCmpN_loop (m : Mem) (s1 s2 : Z) (res : Z) (n : nat) : option Z :=
  match n with
  | O => Some res
  | S n =>
      x ← load m s1; y ← load m s2;
      let res := chr x - chr y in
      if nz res || negb (nz x) then Some res else StrCmpN_loop m (s1 + 1) (s2 + 1) res n
  end.

Definition NX_StrCmpN (m : Mem) (s1 s2 n : Z) : option Z := StrCmpN_loop m s1 s2 0 (Z.to_nat n).

(** Null is 0. *)
Fixpoint StrChrReverse_loop (fuel : nat) (m : Mem) (s p c : Z) : option Z :=
  match fuel with
  | O => None
  | S fuel =>
      x ← load m p;
      if chr x =? chr (u8 c) then Some p
      else let p := u64 (p - 1) in if p >=? s then StrChrReverse_loop fuel m s p c else Some 0
  end.

Definition NX_StrChrReverse (m : Mem) (s c : Z) : option Z :=
  n ← NX_StrLen m s; StrChrReverse_loop (S (size m)) m s (s + n) c.

Fixpoint StrChr_loop (fuel : nat) (m : Mem) (s c : Z) : option Z :=
  match fuel with
  | O => None
  | S fuel =>
      x ← load m s;
      if chr x =? chr (u8 c) then Some s
      else if x =? 0 then Some 0 else StrChr_loop fuel m (s + 1) c
  end.

Definition NX_StrChr (m : Mem) (s c : Z) : option Z := StrChr_loop (S (size m)) m s c.

(** [limits.h] tests [CONFIG_NX_CPU_64BIT], which no configuration defines (it
    is [CONFIG_NX_CPU_64BITS]): the 32-bit limits hold. *)
Definition NX_LONG_MAX : Z := 0x7fffffff.
Definition NX_ULONG_MAX : Z := u64 (2 * NX_LONG_MAX + 1).

(** The character after the spaces, and [s] behind it. *)
Fixpoint skip_spaces (fuel : nat) (m : Mem) (s : Z) : option (Z * Z) :=
  match fuel with
  | O => None
  | S fuel => c ← load m s; if NX_IsSpace c then skip_spaces fuel m (s + 1) else Some (c, s + 1)
  end.

(** The value of a digit or letter; [None] where the loop breaks. *)
Definition digit_value (c : Z) : option Z :=
  if NX_IsDigit c then Some (c - 48)
  else if NX_IsAlpha c then Some (c - (if NX_IsUpper c then 65 - 10 else 97 - 10))
  else None.

(** [acc], [any] and the final [s]. *)
Fixpoint StrToUL_loop (fuel : nat) (m : Mem) (base cutoff cutlim c s acc any : Z) : option (Z * Z * Z) :=
  match fuel with
  | O => None
  | S fuel =>
      match digit_value c with
      | None => Some (acc, any, s)
      | Some c =>
          if c >=? base then Some (acc, any, s)
          else
            let '(acc, any) :=
              if any <? 0 then (acc, any)
              else if (acc >? cutoff) || ((acc =? cutoff) && (c >? cutlim)) then (NX_ULONG_MAX, -1)
              else (u64 (acc * u64 base + u64 c), 1) in
            c ← load m s; StrToUL_loop fuel m base cutoff cutlim c (s + 1) acc any
      end
  end.

(** The value and what is stored through [endptr]. *)
Definition NX_StrToUL (m : Mem) (nptr base : Z) : option (Z * Z) :=
  '(c, s) ← skip_spaces (S (size m)) m nptr;
  '(neg, c, s) ←
    (if c =? 45 then c ← load m s; Some (true, chr c, s + 1)
     else if c =? 43 then c ← load m s; Some (false, chr c, s + 1)
     else Some (false, c, s));
  hex ← (if ((base =? 0) || (base =? 16)) && (c =? 48)
         then x ← load m s; Some ((x =? 120) || (x =? 88)) else Some false);
  '(c, s, base) ← (if hex : bool then c ← load m (s + 1); Some (chr c, s + 2, 16) else Some (c, s, base));
  let base := if base =? 0 then (if c =? 48 then 8 else 10) else base in
  let cutoff := NX_ULONG_MAX / u64 base in
  let cutlim := NX_ULONG_MAX mod u64 base in
  '(acc, any, s) ← StrToUL_loop (S (size m)) m base cutoff cutlim c s 0 0;
  let acc := if neg && (any >? 0) then u64 (- acc) else acc in
  Some (acc, if nz any then s - 1 else nptr).

Fixpoint StrEnd_loop (fuel : nat) (m : Mem) (p : Z) : option Z :=
  match fuel with
  | O => None
  | S fuel => c ← load m p; if nz c then StrEnd_loop fuel m (p + 1) else Some p
  end.

Definition NX_StrCat (m : Mem) (strDest strSrc : Z) : option (Mem * Z) :=
  p ← StrEnd_loop (S (size m)) m strDest;
  m ← StrCopy_loop (S (size m)) m p strSrc;
  Some (m, strDest).

(** [block] is what [NX_MemAlloc] answers: null, or the memory with a new
    block and its address. *)
Definition NX_StrDup (m : Mem) (s : Z) (block : option (Mem * Z)) : option (Mem * Z) :=
  n ← NX_StrLen m s;
  match block with
  | None => Some (m, 0)
  | Some (m, newStr) => NX_MemCopy m newStr s (u64 (n + 1))
  end.

Definition NX_StrCatN (m : Mem) (dest src n : Z) : option (Mem * Z) :=
  d ← NX_StrLen m dest; l ← NX_StrLen m src;
  let dsize := u64 d in let len := u64 l in
  let res := u64 (dsize + len) in
  let dest := dest + dsize in
  let n := u64 (n - dsize) in
  let len := if len >=? n then u64 (n - 1) else len in
  '(m, _) ← NX_MemCopy m dest src len;
  m ← store m (dest + len) 0;
  Some (m, res).
End chars.

(** ** Contents of memory *)
Fixpoint bytes_at (m : Mem) (a : Z) (l : list Z) : Prop :=
  match l with
  | [] => True
  | x :: l => m !! a = Some x /\ bytes_at m (a + 1) l
  end.

Definition mapped (m : Mem) (a : Z) (n : nat) : Prop := forall i, a <= i < a + n -> is_Some (m !! i).

(** Memory after the bytes [l] are stored from [a] on. *)
Fixpoint write (m : Mem) (a : Z) (l : list Z) : Mem :=
  match l with
  | [] => m
  | x :: l => write (<[a := x]> m) (a + 1) l
  end.

(** The characters of a C string. *)
Definition text (s : list Z) : Prop := Forall (fun x => 0 < x < 2 ^ 8) s.
Definition str_at (m : Mem) (a : Z) (s : list Z) : Prop := text s /\ bytes_at m a (s ++ [0]).

(** Every address of the first range is below or above the second. *)
Definition apart (a : Z) (n : nat) (b : Z) (k : nat) : Prop := a + n <= b \/ b + k <= a.

Lemma bytes_at_app m a l1 l2 : bytes_at m a (l1 ++ l2) <-> bytes_at m a l1 /\ bytes_at m (a + length l1) l2.
Proof.
  revert a. induction l1 as [|x l1 IH]; intros a; cbn [app bytes_at length].
  - rewrite Z.add_0_r. tauto.
  - rewrite IH. replace (a + 1 + length l1) with (a + S (length l1)) by lia. tauto.
Qed.

Lemma bytes_at_lookup m a l : bytes_at m a l <-> forall (i : nat) x, l !! i = Some x -> m !! (a + i) = Some x.
Proof.
  revert a. induction l as [|x l IH]; intros a; cbn [bytes_at]; [done|]. rewrite IH. split.
  - intros [Hx Hl] [|i] y Hy; cbn in Hy; [rewrite Z.add_0_r; congruence|]. replace (a + S i) with (a + 1 + i) by lia. auto.
  - intros H. split; [by rewrite <- (Z.add_0_r a); apply (H 0%nat)|]. intros i y Hy. replace (a + 1 + i) with (a + S i) by lia. by apply (H (S i)).
Qed.

Lemma bytes_at_frame m m' a l : bytes_at m a l -> (forall i, a <= i < a + length l -> m' !! i = m !! i) -> bytes_at m' a l.
Proof.
  rewrite !bytes_at_lookup. intros H Hm i x Hx. rewrite Hm; [auto|]. apply lookup_lt_Some in Hx. lia.
Qed.

Lemma bytes_at_mapped m a l : bytes_at m a l -> mapped m a (length l).
Proof.
  rewrite bytes_at_lookup. intros H i Hi. destruct (lookup_lt_is_Some_2 l (Z.to_nat (i - a))) as [x Hx]; [lia|].
  exists x. rewrite <- (H _ _ Hx). f_equal. lia.
Qed.

Lemma bytes_at_insert m a l i x : bytes_at m a l -> ~ (a <= i < a + length l) -> bytes_at (<[i := x]> m) a l.
Proof. intros H Hi. apply (bytes_at_frame m); [done|]. intros j Hj. rewrite lookup_insert_ne by lia. done. Qed.

Lemma mapped_insert m a n i x : mapped m a n -> mapped (<[i := x]> m) a n.
Proof. intros H j Hj. rewrite lookup_insert_is_Some'. right. auto. Qed.

Lemma mapped_le m a (n : nat) b (k : nat) : mapped m a n -> a <= b -> b + k <= a + n -> mapped m b k.
Proof. intros H ? ? i Hi. apply H. lia. Qed.

(** A range of addresses in use is no longer than memory. *)
Lemma mapped_size m a n : mapped m a n -> (n <= size m)%nat.
Proof.
  intros H. rewrite <- (size_dom (D := gset Z)).
  replace n with (size (list_to_set (seqZ a n) : gset Z)).
  - apply subseteq_size. intros i Hi. apply elem_of_list_to_set, elem_of_seqZ in Hi. apply elem_of_dom, H. lia.
  - rewrite size_list_to_set by apply NoDup_seqZ. rewrite length_seqZ. lia.
Qed.

Lemma bytes_at_size m a l : bytes_at m a l -> (length l <= size m)%nat.
Proof. intros H%bytes_at_mapped. by apply mapped_size in H. Qed.

Lemma write_lookup m a l i :
  write m a l !! i = if decide (a <= i < a + length l) then l !! Z.to_nat (i - a) else m !! i.
Proof.
  revert m a. induction l as [|x l IH]; intros m a; cbn [write length]; [rewrite decide_False by lia; done|].
  rewrite IH. destruct (decide (i = a)) as [->|Hne].
  - rewrite decide_False by lia. rewrite lookup_insert_eq, decide_True by lia. by rewrite Z.sub_diag.
  - rewrite lookup_insert_ne by done. destruct (decide (a + 1 <= i < a + 1 + length l)) as [Hi|Hi].
    + rewrite decide_True by lia. replace (Z.to_nat (i - a)) with (S (Z.to_nat (i - (a + 1)))) by lia. done.
    + rewrite decide_False by lia. done.
Qed.

Lemma write_lookup_out m a l i : ~ (a <= i < a + length l) -> write m a l !! i = m !! i.
Proof. intros Hi. by rewrite write_lookup, decide_False. Qed.

Lemma write_at m a l : bytes_at (write m a l) a l.
Proof.
  apply bytes_at_lookup. intros i x Hx. pose proof (lookup_lt_Some _ _ _ Hx).
  rewrite write_lookup, decide_True by lia. rewrite <- Hx. f_equal. lia.
Qed.

Lemma write_frame m a l b k : bytes_at m b k -> apart a (length l) b (length k) -> bytes_at (write m a l) b k.
Proof. intros Hk Hap. apply (bytes_at_frame m); [done|]. intros i Hi. rewrite write_lookup, decide_False; [done|]. destruct Hap; lia. Qed.

Lemma write_app m a l1 l2 : write m a (l1 ++ l2) = write (write m a l1) (a + length l1) l2.
Proof.
  revert m a. induction l1 as [|x l1 IH]; intros m a; cbn [app write length]; [by rewrite Z.add_0_r|].
  rewrite IH. f_equal. lia.
Qed.

Lemma write_mapped m a l b n : mapped m b n -> mapped (write m a l) b n.
Proof. revert m a. induction l as [|x l IH]; intros m a H; [done|]. apply IH. by apply mapped_insert. Qed.

Lemma write_insert_comm m a l i x : ~ (a <= i < a + length l) -> write (<[i := x]> m) a l = <[i := x]> (write m a l).
Proof.
  revert m a. induction l as [|y l IH]; intros m a Hi; [done|]. cbn [write length] in *.
  rewrite insert_insert_ne by lia. apply IH. lia.
Qed.

Lemma write_snoc m a l x : write m a (l ++ [x]) = <[a + length l := x]> (write m a l).
Proof. by rewrite write_app. Qed.

Lemma store_eq m a v : is_Some (m !! a) -> store m a v = Some (<[a := u8 v]> m).
Proof. intros [x Hx]. unfold store. by rewrite Hx. Qed.

Lemma store_byte m a v : is_Some (m !! a) -> 0 <= v < 2 ^ 8 -> store m a v = Some (<[a := v]> m).
Proof. intros. rewrite store_eq by done. unfold u8. by rewrite Z.mod_small. Qed.

Lemma mapped_head m a n : mapped m a (S n) -> is_Some (m !! a) /\ mapped m (a + 1) n.
Proof. intros H. split; [apply H; lia|]. intros i Hi. apply H. lia. Qed.

Lemma load_eq m a x : m !! a = Some x -> load m a = Some x.
Proof. done. Qed.

Definition bytes (l : list Z) : Prop := Forall (fun x => 0 <= x < 2 ^ 8) l.

Lemma text_bytes s : text s -> bytes (s ++ [0]).
Proof. intros H. apply Forall_app. split; [|by repeat constructor]. eapply Forall_impl; [exact H|]. cbn. lia. Qed.

Lemma text_nz x s : text (x :: s) -> nz x = true /\ 0 <= x < 2 ^ 8 /\ text s.
Proof. intros [? ?]%Forall_cons. unfold nz. rewrite (proj2 (Z.eqb_neq x 0)) by lia. split; [done|]. split; [lia|done]. Qed.

(** ** Copies *)
Lemma MemSet_eq m dst v (n : nat) : mapped m dst n -> NX_MemSet m dst v n = Some (write m dst (replicate n (u8 v)), dst).
Proof.
  unfold NX_MemSet. rewrite Nat2Z.id. intros H.
  assert (MemSet_loop m dst v n = Some (write m dst (replicate n (u8 v)))) as ->; [|done].
  revert m dst H. induction n as [|n IH]; intros m dst H; [done|]. apply mapped_head in H as [Hd H].
  cbn [MemSet_loop replicate write]. rewrite store_eq by done. rewrite Some_bind, IH; [done|]. by apply mapped_insert.
Qed.

Lemma copy_forward m dst src l :
  bytes l -> bytes_at m src l -> mapped m dst (length l) -> dst <= src \/ src + length l <= dst ->
  MemCopy_loop m dst src (length l) = Some (write m dst l).
Proof.
  intros Hb. revert m dst src. induction l as [|x l IH]; intros m dst src Hs Hd Hap; [done|].
  apply Forall_cons in Hb as [Hx Hb]. destruct Hs as [Hs Hl]. cbn [length] in *. apply mapped_head in Hd as [Ha Hd].
  cbn [MemCopy_loop write]. rewrite (load_eq _ _ _ Hs), Some_bind, (store_byte _ _ _ Ha Hx), Some_bind.
  apply IH; [done| |by apply mapped_insert|lia]. apply bytes_at_insert; [done|lia].
Qed.

Lemma copy_back m dst src l :
  bytes l -> bytes_at m src l -> mapped m dst (length l) -> src < dst ->
  MemMove_back m (dst + length l) (src + length l) (length l) = Some (write m dst l).
Proof.
  intros Hb. revert m. induction l as [|x l IH] using rev_ind; intros m Hs Hd Hlt; [done|].
  apply Forall_app in Hb as [Hb [Hx _]%Forall_cons]. apply bytes_at_app in Hs as [Hl [Hs _]].
  rewrite length_app in *. cbn [length] in *. rewrite Nat.add_1_r in *. cbn [MemMove_back].
  replace (src + S (length l) - 1) with (src + length l) by lia. replace (dst + S (length l) - 1) with (dst + length l) by lia.
  rewrite (load_eq _ _ _ Hs), Some_bind. rewrite store_byte by (done || apply Hd; lia). rewrite Some_bind, IH; [| done | | | done].
  - rewrite write_snoc. f_equal. apply write_insert_comm. lia.
  - apply bytes_at_insert; [done|lia].
  - apply mapped_insert, (mapped_le _ _ _ _ _ Hd); lia.
Qed.

Lemma MemCopy_eq m dst src l :
  bytes l -> bytes_at m src l -> mapped m dst (length l) -> dst <= src \/ src + length l <= dst ->
  NX_MemCopy m dst src (length l) = Some (write m dst l, dst).
Proof. intros. unfold NX_MemCopy. rewrite Nat2Z.id. by rewrite copy_forward. Qed.

Lemma MemMove_eq m dst src l :
  bytes l -> bytes_at m src l -> mapped m dst (length l) -> NX_MemMove m dst src (length l) = Some (write m dst l, dst).
Proof.
  intros. unfold NX_MemMove. rewrite Nat2Z.id. destruct (Z.leb_spec dst src).
  - rewrite copy_forward by auto. done.
  - rewrite copy_back by auto. done.
Qed.

(** ** Strings *)
Lemma StrLen_loop_eq m a s fuel : str_at m a s -> (length s < fuel)%nat -> StrLen_loop fuel m a = Some (a + length s + 1).
Proof.
  intros [Ht Hs]. revert a fuel Hs. induction s as [|x s IH]; intros a [|fuel] Hs Hf; try (cbn in Hf; lia).
  - destruct Hs as [Hs _]. cbn. rewrite (load_eq _ _ _ Hs). cbn. f_equal. lia.
  - apply text_nz in Ht as (Hx & _ & Ht). destruct Hs as [Hs Hl]. cbn [StrLen_loop length] in *.
    rewrite (load_eq _ _ _ Hs), Some_bind, Hx, IH by (done || lia). f_equal. lia.
Qed.

Lemma str_at_size m a s : str_at m a s -> (length s < size m)%nat.
Proof. intros [_ H%bytes_at_size]. rewrite length_app in H. cbn in H. lia. Qed.

Lemma StrLen_eq m a s : str_at m a s -> Z.of_nat (length s) < 2 ^ 31 -> NX_StrLen m a = Some (Z.of_nat (length s)).
Proof.
  intros Hs Hl. unfold NX_StrLen. pose proof (str_at_size _ _ _ Hs). rewrite (StrLen_loop_eq _ _ _ _ Hs) by lia.
  cbn. f_equal. replace (a + length s + 1 - a - 1) with (Z.of_nat (length s)) by lia. apply i32_small. lia.
Qed.

Lemma StrCopy_loop_eq m dst src s fuel :
  str_at m src s -> mapped m dst (S (length s)) -> dst <= src \/ src + length s < dst -> (length s < fuel)%nat ->
  StrCopy_loop fuel m dst src = Some (write m dst (s ++ [0])).
Proof.
  intros [Ht Hs]. revert m dst src fuel Hs. induction s as [|x s IH]; intros m dst src [|fuel] Hs Hd Hap Hf; try (cbn in Hf; lia);
    apply mapped_head in Hd as [Ha Hd]; cbn [app bytes_at write StrCopy_loop] in *; destruct Hs as [Hs Hl]; rewrite (load_eq _ _ _ Hs), Some_bind.
  - by rewrite store_byte.
  - apply text_nz in Ht as (Hx & Hr & Ht). cbn [length] in *. rewrite store_byte, Some_bind, Hx by done.
    apply IH; [done| |by apply mapped_insert|lia|lia]. apply bytes_at_insert; [done|]. rewrite length_app. cbn. lia.
Qed.

Lemma StrEnd_loop_eq m a s fuel : str_at m a s -> (length s < fuel)%nat -> StrEnd_loop fuel m a = Some (a + length s).
Proof.
  intros [Ht Hs]. revert a fuel Hs. induction s as [|x s IH]; intros a [|fuel] Hs Hf; try (cbn in Hf; lia).
  - destruct Hs as [Hs _]. cbn. rewrite (load_eq _ _ _ Hs). cbn. f_equal. lia.
  - apply text_nz in Ht as (Hx & _ & Ht). destruct Hs as [Hs Hl]. cbn [StrEnd_loop length] in *.
    rewrite (load_eq _ _ _ Hs), Some_bind, Hx, IH by (done || lia). f_equal. lia.
Qed.

Lemma StrCat_eq m d src s t :
  str_at m d s -> str_at m src t -> mapped m d (length s + S (length t)) -> apart d (length s + S (length t)) src (S (length t)) ->
  NX_StrCat m d src = Some (write m (d + length s) (t ++ [0]), d).
Proof.
  intros Hs Ht Hd Hap. unfold NX_StrCat. pose proof (str_at_size _ _ _ Hs). pose proof (str_at_size _ _ _ Ht).
  rewrite (StrEnd_loop_eq _ _ _ _ Hs), Some_bind by lia. rewrite (StrCopy_loop_eq _ _ _ t) by (done || lia || (eapply mapped_le; [done|lia..]) || (destruct Hap; lia)).
  done.
Qed.

Lemma chr_inj cs x y : 0 <= x < 2 ^ 8 -> 0 <= y < 2 ^ 8 -> chr cs x = chr cs y -> x = y.
Proof. unfold chr, i8. destruct cs; [zlia|done]. Qed.

Lemma chr_eqb cs x y : 0 <= x < 2 ^ 8 -> 0 <= y < 2 ^ 8 -> (chr cs x =? chr cs y) = (x =? y).
Proof.
  intros Hx Hy. destruct (Z.eqb_spec x y) as [->|Hne]; [apply Z.eqb_refl|]. apply Z.eqb_neq. intros ?%chr_inj; done.
Qed.

(** The first difference of two zero-terminated texts. *)
Lemma StrCmp_loop_eq cs m a b s t fuel : str_at m a s -> str_at m b t -> (length s < fuel)%nat ->
  exists r, StrCmp_loop cs fuel m a b = Some r /\ (r = 0 <-> s = t).
Proof.
  intros [Hs Ha] [Ht Hb]. revert a b t fuel Ht Ha Hb. induction s as [|x s IH]; intros a b t [|fuel] Ht Ha Hb Hf; try (cbn in Hf; lia).
  - destruct Ha as [Ha _]. cbn [StrCmp_loop]. rewrite (load_eq _ _ _ Ha), Some_bind. cbn [nz negb Z.eqb].
    destruct t as [|y t]; destruct Hb as [Hb _]; rewrite (load_eq _ _ _ Hb), Some_bind; eexists; (split; [done|]); [by rewrite Z.sub_diag|].
    apply text_nz in Ht as (Hy & Hr & _). split; [|done]. intros E. assert (chr cs 0 = chr cs y) as ?%chr_inj by lia; try lia. by subst.
  - apply text_nz in Hs as (Hx & Hr & Hs). destruct Ha as [Ha Hl]. cbn [StrCmp_loop length] in *.
    rewrite (load_eq _ _ _ Ha), Some_bind, Hx.
    destruct t as [|y t].
    + destruct Hb as [Hb _]. rewrite (load_eq _ _ _ Hb), Some_bind, chr_eqb by lia. unfold nz in Hx. apply negb_true_iff in Hx. rewrite Hx.
      eexists. split; [done|]. split; [|done]. intros E. assert (chr cs x = chr cs 0) as ?%chr_inj by lia; lia.
    + apply text_nz in Ht as (Hy & Hr' & Ht). destruct Hb as [Hb Hm]. rewrite (load_eq _ _ _ Hb), Some_bind, chr_eqb by lia.
      destruct (Z.eqb_spec x y) as [->|Hne].
      * destruct (IH Hs (a + 1) (b + 1) t fuel) as (r & Hr'' & Hiff); [done..|lia|]. exists r. split; [done|]. rewrite Hiff. split; congruence.
      * eexists. split; [done|]. split; [|congruence]. intros E. assert (chr cs x = chr cs y) as ?%chr_inj by lia; done.
Qed.

Lemma StrCmp_zero cs m a b s t : str_at m a s -> str_at m b t -> exists r, NX_StrCmp cs m a b = Some r /\ (r = 0 <-> s = t).
Proof. intros Hs Ht. apply StrCmp_loop_eq; [done..|]. pose proof (str_at_size _ _ _ Hs). lia. Qed.

(** [NX_StrChr] gives the first place of a character, or null. *)
Lemma StrChr_eq cs m a s c : str_at m a s -> 0 < c < 2 ^ 8 ->
  NX_StrChr cs m a c = Some (match list_find (c =.) s with Some (i, _) => a + Z.of_nat i | None => 0 end).
Proof.
  intros Hs Hc. pose proof (str_at_size _ _ _ Hs) as Hf. unfold NX_StrChr. destruct Hs as [Hs Ha].
  assert (u8 c = c) as Hu by (apply Z.mod_small; lia). revert Hf. generalize (size m). intros fuel Hf. apply Nat.lt_lt_succ_r in Hf. revert Hf.
  generalize (S fuel). clear fuel. intros fuel. revert a fuel Ha. induction s as [|x s IH]; intros a [|fuel] Ha Hf; try (cbn in Hf; lia);
    destruct Ha as [Ha Hl]; cbn [StrChr_loop length] in *; rewrite (load_eq _ _ _ Ha), Some_bind, Hu.
  - rewrite chr_eqb, (proj2 (Z.eqb_neq _ _)) by lia. done.
  - apply text_nz in Hs as (Hx & Hr & Hs). rewrite chr_eqb by lia. rewrite (Z.eqb_sym x c). cbn [list_find].
    destruct (Z.eqb_spec c x) as [->|Hne].
    + rewrite decide_True by done. by rewrite Z.add_0_r.
    + rewrite decide_False by done. unfold nz in Hx. apply negb_true_iff in Hx. rewrite Hx, IH by (done || lia).
      destruct (list_find _ s) as [[i y]|]; cbn; [|done]. f_equal. lia.
Qed.

Lemma CompareN_loop_eq cs m a b l k : bytes l -> bytes k -> length l = length k -> bytes_at m a l -> bytes_at m b k ->
  exists r, CompareN_loop cs m a b (length l) = Some r /\ (r = 0 <-> l = k).
Proof.
  intros Hl. revert a b k. induction l as [|x l IH]; intros a b [|y k] Hk Hlen Ha Hb; try done; [by exists 0|].
  apply Forall_cons in Hl as [Hx Hl], Hk as [Hy Hk]. destruct Ha as [Ha Hla], Hb as [Hb Hlb]. cbn [CompareN_loop length].
  rewrite (load_eq _ _ _ Ha), Some_bind, (load_eq _ _ _ Hb), Some_bind, chr_eqb by done.
  destruct (Z.eqb_spec x y) as [->|Hne]; cbn [negb].
  - destruct (IH Hl (a + 1) (b + 1) k) as (r & Hr & Hiff); [done|by injection Hlen|done..|]. exists r. split; [done|]. rewrite Hiff. split; congruence.
  - eexists. split; [done|]. split; [|congruence]. intros E. assert (chr cs x = chr cs y) as ?%chr_inj by lia; done.
Qed.

(** ** Properties *)

(** C18: [NX_MemMove] between any two ranges of memory, overlapping or not:
    the destination gets the bytes the source had, nothing else changes, and
    where the destination does not start inside the source [NX_MemCopy] does
    the same.  When the ranges are apart [NX_CompareN] finds them equal. *)
Theorem mem_move_correct cs m dst src l :
  bytes l -> bytes_at m src l -> mapped m dst (length l) ->
  exists m', NX_MemMove m dst src (length l) = Some (m', dst) /\
    bytes_at m' dst l /\ (forall i, ~ (dst <= i < dst + length l) -> m' !! i = m !! i) /\
    (dst <= src \/ src + length l <= dst -> NX_MemCopy m dst src (length l) = Some (m', dst)) /\
    (apart dst (length l) src (length l) -> dst <> 0 -> src <> 0 -> NX_CompareN cs m' dst src (length l) = Some 0).
Proof.
  intros Hb Hs Hd. exists (write m dst l). split; [by apply MemMove_eq|]. split; [apply write_at|]. split_and!.
  - intros i Hi. by rewrite write_lookup, decide_False.
  - intros ?. by apply MemCopy_eq.
  - intros Hap H1 H2. unfold NX_CompareN. rewrite (proj2 (Z.eqb_neq _ _) H1), (proj2 (Z.eqb_neq _ _) H2). cbn [orb]. rewrite Nat2Z.id.
    destruct (CompareN_loop_eq cs (write m dst l) dst src l l) as (r & -> & Hr); [done..|apply write_at|by apply write_frame|].
    f_equal. by apply Hr.
Qed.

(** Storing a prefix of a text and its terminator. *)
Lemma store_prefix m d src s (n : nat) :
  str_at m src s -> (n <= length s)%nat -> mapped m d (S n) -> apart d n src (S (length s)) ->
  exists m1, NX_MemCopy m d src n = Some (m1, d) /\ store m1 (d + n) 0 = Some (write m d (take n s ++ [0])).
Proof.
  intros [Ht Hs] Hn Hd Hap. assert (length (take n s) = n) as Hl by (rewrite length_take; lia).
  exists (write m d (take n s)). split.
  - rewrite <- Hl at 1. apply MemCopy_eq.
    + apply Forall_take. eapply Forall_impl; [exact Ht|]. cbn. lia.
    + rewrite <- (take_drop n s) in Hs at 1. rewrite <- app_assoc in Hs. by apply bytes_at_app in Hs as [? _].
    + rewrite Hl. apply (mapped_le _ _ _ _ _ Hd); lia.
    + rewrite Hl. destruct Hap; lia.
  - rewrite store_byte; [|apply (write_mapped _ _ _ _ _ Hd); lia|done]. by rewrite write_snoc, Hl.
Qed.

Lemma text_app s t : text s -> text t -> text (s ++ t).
Proof. apply Forall_app_2. Qed.

(** C19: The bounded copies: [NX_StrCopyN] and, when there is room behind the
    text already there, [NX_StrCatN] store the longest prefix that fits with
    its terminator in the [n] bytes of the destination and touch nothing else;
    they return the length of the untruncated text.  The result is the text
    that [NX_StrLen] measures, and [NX_StrCmp] finds it equal to the whole
    text exactly when nothing was cut. *)
Theorem string_copies_bounded cs m d s src t (n : nat) :
  str_at m d s -> str_at m src t -> Z.of_nat (length s + length t) < 2 ^ 31 -> (length s < n)%nat -> Z.of_nat n < 2 ^ 64 ->
  mapped m d n -> apart d n src (S (length t)) ->
  (exists m' r, NX_StrCopyN m d src n = Some (m', Z.of_nat (length t)) /\ str_at m' d (take (n - 1) t) /\
     (forall i, ~ (d <= i < d + n) -> m' !! i = m !! i) /\
     NX_StrLen m' d = Some (Z.of_nat (Nat.min (n - 1) (length t))) /\
     NX_StrCmp cs m' d src = Some r /\ (r = 0 <-> (length t < n)%nat)) /\
  (exists m', NX_StrCatN m d src n = Some (m', length s + length t)%Z /\ str_at m' d (s ++ take (n - length s - 1) t) /\
     (forall i, ~ (d <= i < d + n) -> m' !! i = m !! i)).
Proof.
  intros Hs Ht Hlen Hn Hn64 Hd Hap. assert (Hts : text t) by apply Ht.
  assert (Hcut : forall k, text (take k t)) by (intros k; by apply Forall_take).
  split.
  - set (k := Nat.min (n - 1) (length t)). assert (Hkn : (k < n /\ k <= length t)%nat) by lia. set (m' := write m d (take k t ++ [0])).
    assert (Hk : take k t = take (n - 1) t) by (destruct (decide (n - 1 <= length t)%nat); [unfold k; rewrite Nat.min_l by lia; done|unfold k; rewrite Nat.min_r, !take_ge by lia; done]).
    assert (Hlk : length (take k t) = k) by (rewrite length_take; lia).
    destruct (store_prefix m d src t k) as (m1 & Hcp & Hst); [done|lia|apply (mapped_le _ _ _ _ _ Hd); lia|destruct Hap; [left|right]; lia|].
    assert (Hat : str_at m' d (take (n - 1) t)) by (rewrite <- Hk; split; [done|apply write_at]).
    assert (Hm' : forall i, ~ (d <= i < d + n) -> m' !! i = m !! i).
    { intros i Hi. unfold m'. rewrite write_lookup, length_app, Hlk, decide_False by (cbn; lia). done. }
    assert (Hsrc : str_at m' src t).
    { split; [done|]. apply write_frame; [apply Ht|]. rewrite !length_app, Hlk. destruct Hap; [left|right]; cbn; lia. }
    destruct (StrCmp_zero cs m' d src _ _ Hat Hsrc) as (r & Hr & Hiff).
    exists m', r. split_and!; [|done|done| |done|].
    + unfold NX_StrCopyN. rewrite (StrLen_eq _ _ _ Ht), Some_bind, (u64_small (length t)) by lia.
      unfold nz. rewrite (proj2 (Z.eqb_neq _ _)) by lia. cbn [negb].
      assert ((if length t >=? n then u64 (n - 1) else Z.of_nat (length t)) = Z.of_nat k) as ->.
      { destruct (Z.geb_spec (length t) n); [rewrite u64_small|]; lia. }
      rewrite Hcp, Some_bind. cbn. by rewrite Hst.
    + rewrite (StrLen_eq _ _ _ Hat) by (rewrite length_take; lia). by rewrite length_take.
    + rewrite Hiff. split; [|by intros; apply take_ge; lia]. intros E%(f_equal length). rewrite length_take in E. lia.
  - set (k := Nat.min (n - length s - 1) (length t)). assert (Hkn : (length s + k < n /\ k <= length t)%nat) by lia.
    assert (Hk : take k t = take (n - length s - 1) t) by (destruct (decide (n - length s - 1 <= length t)%nat); [unfold k; rewrite Nat.min_l by lia; done|unfold k; rewrite Nat.min_r, !take_ge by lia; done]).
    assert (Hlk : length (take k t) = k) by (rewrite length_take; lia).
    destruct (store_prefix m (d + length s) src t k) as (m1 & Hcp & Hst); [done|lia|apply (mapped_le _ _ _ _ _ Hd); lia|destruct Hap; [left|right]; lia|].
    eexists. split; [|split].
    + unfold NX_StrCatN. rewrite (StrLen_eq _ _ _ Hs), Some_bind, (StrLen_eq _ _ _ Ht), Some_bind by lia. cbn zeta.
      rewrite !(u64_small (Z.of_nat _)), (u64_small (n - length s)), (u64_small (length s + length t)) by lia.
      assert ((if length t >=? n - length s then u64 (n - length s - 1) else Z.of_nat (length t)) = Z.of_nat k) as ->.
      { destruct (Z.geb_spec (length t) (n - length s)); [rewrite u64_small|]; lia. }
      rewrite Hcp, Some_bind. cbn. rewrite Hst. cbn. done.
    + rewrite <- Hk. split; [apply text_app; [apply Hs|done]|]. rewrite <- app_assoc. apply bytes_at_app. split.
      * destruct Hs as [_ Hs]. apply bytes_at_app in Hs as [Hs _]. apply write_frame; [done|]. right. lia.
      * apply write_at.
    + intros i Hi. rewrite write_lookup, length_app, Hlk, decide_False by (cbn; lia). done.
Qed.

(** ** Numbers in text *)

(** A byte that stands for the digit [v] of base [base]. *)
Definition digit (base c v : Z) : Prop := 0 <= c < 2 ^ 8 /\ digit_value c = Some v /\ v < base.
(** A byte that ends a number of base [base]. *)
Definition stops (base e : Z) : Prop := match digit_value e with Some v => base <= v | None => True end.

Definition value_from (base acc : Z) (vs : list Z) : Z := fold_left (fun acc v => acc * base + v) vs acc.
(** The number the digits [vs] stand for. *)
Definition value_of (base : Z) (vs : list Z) : Z := value_from base 0 vs.

Lemma byte_forall (P : Z -> bool) : forallb P (seqZ 0 256) = true -> forall c, 0 <= c < 2 ^ 8 -> P c = true.
Proof. rewrite forallb_forall. intros H c Hc. apply H, list_elem_of_In, elem_of_seqZ. lia. Qed.

Lemma digit_shape base c v : digit base c v ->
  0 <= v /\ NX_IsSpace c = false /\ c <> 45 /\ c <> 43 /\ c < 128.
Proof.
  intros (Hc & Hv & _).
  pose proof (byte_forall (fun c => match digit_value c with
    | Some v => (0 <=? v) && negb (NX_IsSpace c) && negb (c =? 45) && negb (c =? 43) && (c <? 128) | None => true end) eq_refl c Hc) as H.
  cbn beta in H. rewrite Hv in H. bool2prop. by split_and!.
Qed.

Lemma chr_ascii cs c : 0 <= c < 128 -> chr cs c = c.
Proof. unfold chr, i8. destruct cs; [zlia|done]. Qed.

Lemma limit_exceeded base acc v :
  2 <= base -> 0 <= acc -> 0 <= v < base ->
  (acc >? NX_ULONG_MAX / base) || ((acc =? NX_ULONG_MAX / base) && (v >? NX_ULONG_MAX mod base)) = negb (acc * base + v <=? NX_ULONG_MAX).
Proof.
  intros Hb Ha Hv. pose proof (Z.div_mod NX_ULONG_MAX base ltac:(lia)). pose proof (Z.mod_pos_bound NX_ULONG_MAX base ltac:(lia)).
  set (q := NX_ULONG_MAX / base) in *. set (r := NX_ULONG_MAX mod base) in *.
  destruct (Z.gtb_spec acc q); cbn [orb]; [symmetry; apply negb_true_iff, Z.leb_gt; nia|].
  destruct (Z.eqb_spec acc q) as [->|]; cbn [andb].
  - destruct (Z.gtb_spec v r); symmetry; [apply negb_true_iff, Z.leb_gt|apply negb_false_iff, Z.leb_le]; nia.
  - symmetry. apply negb_false_iff, Z.leb_le. nia.
Qed.

(** The accumulator and flag that stand for the number [n]. *)
Definition saturated (n any : Z) : Z * Z := if n <=? NX_ULONG_MAX then (n, any) else (NX_ULONG_MAX, -1).

Lemma StrToUL_loop_eq m base (c s n a : Z) (l vs : list Z) e fuel :
  2 <= base <= 36 -> 0 <= n -> 0 <= a -> Forall2 (digit base) l vs -> stops base e ->
  bytes_at m s (drop 1 (l ++ [e])) -> head (l ++ [e]) = Some c -> (length l < fuel)%nat ->
  StrToUL_loop fuel m base (NX_ULONG_MAX / base) (NX_ULONG_MAX mod base) c s (saturated n a).1 (saturated n a).2 =
    Some ((saturated (value_from base n vs) (if vs is [] then a else 1)).1,
          (saturated (value_from base n vs) (if vs is [] then a else 1)).2, s + length l).
Proof.
  intros Hb Hn Ha Hl. revert c s n a fuel Hn Ha.
  induction Hl as [|x v l vs (Hx & Hv & Hlt) Hl IH]; intros c s n a [|fuel] Hn Ha Hst Hat Hc Hf; try (cbn in Hf; lia);
    cbn [app head] in Hc; injection Hc as <-; cbn [StrToUL_loop].
  - cbn [value_from fold_left length]. rewrite Z.add_0_r. unfold stops in Hst. destruct (digit_value e) as [v|]; [|done]. rewrite Z.geb_leb, (proj2 (Z.leb_le _ _)) by lia. done.
  - pose proof (digit_shape base x v (conj Hx (conj Hv Hlt))) as (Hv0 & _). rewrite Hv. rewrite Z.geb_leb, (proj2 (Z.leb_gt _ _)) by lia.
    assert (exists y, head (l ++ [e]) = Some y /\ m !! s = Some y /\ bytes_at m (s + 1) (drop 1 (l ++ [e]))) as (y & Hy & Hs & Hrest).
    { cbn [drop app] in Hat. destruct (l ++ [e]) as [|y k] eqn:E; [by destruct l|]. exists y. cbn. by destruct Hat as [??]. }
    set (st := if _ <? 0 then _ else _).
    assert (st = saturated (n * base + v) 1) as ->.
    { subst st. unfold saturated at 1 2 3 4 5 6. destruct (Z.leb_spec n NX_ULONG_MAX) as [Hle|Hgt]; cbn [fst snd].
      - rewrite (proj2 (Z.ltb_ge _ _)) by done. rewrite limit_exceeded by lia. unfold saturated.
        destruct (Z.leb_spec (n * base + v) NX_ULONG_MAX) as [Hle'|Hgt']; cbn [negb]; [|done].
        assert (0 <= n * base) by nia. change NX_ULONG_MAX with (2 ^ 32 - 1) in Hle'.
        rewrite (u64_small base), (u64_small v), u64_small by lia. done.
      - rewrite (proj2 (Z.ltb_lt _ _)) by done. unfold saturated. rewrite (proj2 (Z.leb_gt _ _)); [done|nia]. }
    rewrite (surjective_pairing (saturated _ 1)), (load_eq _ _ _ Hs), Some_bind.
    rewrite (IH y (s + 1) (n * base + v) 1 fuel); [|nia|lia|done|done|done|cbn in Hf; lia].
    cbn [length value_from fold_left]. replace (s + 1 + length l) with (s + S (length l)) by lia. by destruct vs.
Qed.

Lemma skip_spaces_eq m a sp c fuel :
  Forall (fun x => NX_IsSpace x = true) sp -> bytes_at m a (sp ++ [c]) -> NX_IsSpace c = false -> (length sp < fuel)%nat ->
  skip_spaces fuel m a = Some (c, a + length sp + 1).
Proof.
  intros Hsp. revert a fuel. induction Hsp as [|x sp Hx _ IH]; intros a [|fuel] Hat Hc Hf; try (cbn in Hf; lia); destruct Hat as [Hat Hl]; cbn [skip_spaces].
  - rewrite (load_eq _ _ _ Hat), Some_bind, Hc. cbn. do 2 f_equal. lia.
  - rewrite (load_eq _ _ _ Hat), Some_bind, Hx, IH by (done || (cbn in Hf; lia)). cbn [length]. do 2 f_equal. lia.
Qed.

(** Sign and prefix as text. *)
Definition sign_text (neg plus : bool) : list Z := if neg then [45] else if plus then [43] else [].

(** The parts of [NX_StrToUL] behind the sign, when [y] was the last character read. *)
Definition hex_prefix (cs : bool) (m : Mem) (base y s : Z) : option (Z * Z * Z) :=
  hex ← (if ((base =? 0) || (base =? 16)) && (y =? 48) then x ← load m s; Some ((x =? 120) || (x =? 88)) else Some false);
  if hex : bool then c ← load m (s + 1); Some (chr cs c, s + 2, 16) else Some (y, s, base).
Definition after_sign (cs : bool) (m : Mem) (a base : Z) (neg : bool) (y s : Z) : option (Z * Z) :=
  '(c, s, base) ← hex_prefix cs m base y s;
  let base := if base =? 0 then (if c =? 48 then 8 else 10) else base in
  let cutoff := NX_ULONG_MAX / u64 base in
  let cutlim := NX_ULONG_MAX mod u64 base in
  '(acc, any, s) ← StrToUL_loop (S (size m)) m base cutoff cutlim c s 0 0;
  let acc := if neg && (any >? 0) then u64 (- acc) else acc in
  Some (acc, if nz any then s - 1 else a).

Lemma StrToUL_sign cs m a base sp neg plus y k :
  Forall (fun x => NX_IsSpace x = true) sp -> (length sp < S (size m))%nat ->
  NX_IsSpace y = false -> y <> 45 -> y <> 43 -> chr cs y = y ->
  bytes_at m a (sp ++ sign_text neg plus ++ y :: k) ->
  let s := a + length sp + length (sign_text neg plus) + 1 in
  NX_StrToUL cs m a base = after_sign cs m a base neg y s /\ bytes_at m s k.
Proof.
  intros Hsp Hsz Hy Hy1 Hy2 Hyc Hat s. apply bytes_at_app in Hat as [Hat1 Hat2]. apply bytes_at_app in Hat2 as [Hat2 [Hy0 Hk]].
  split; [|done]. unfold NX_StrToUL, after_sign, hex_prefix.
  assert (Hsk : forall c, bytes_at m (a + length sp) [c] -> NX_IsSpace c = false -> skip_spaces (S (size m)) m a = Some (c, a + length sp + 1)).
  { intros c Hc Hcs. apply skip_spaces_eq; [done| |done|lia]. apply bytes_at_app. done. }
  subst s. destruct neg; [|destruct plus]; cbn [sign_text length bytes_at andb] in *.
  - rewrite (Hsk 45) by (done || cbn; tauto). rewrite !Some_bind. cbn [Z.eqb Pos.eqb].
    replace (a + length sp + 1%nat) with (a + length sp + 1) in * by lia. rewrite (load_eq _ _ _ Hy0), !Some_bind, Hyc. cbn [andb].
    by rewrite option_bind_assoc.
  - rewrite (Hsk 43) by (done || cbn; tauto). rewrite !Some_bind. cbn [Z.eqb Pos.eqb].
    replace (a + length sp + 1%nat) with (a + length sp + 1) in * by lia. rewrite (load_eq _ _ _ Hy0), !Some_bind, Hyc. cbn [andb].
    by rewrite option_bind_assoc.
  - replace (a + length sp + 0%nat) with (a + length sp) in * by lia.
    rewrite (Hsk y) by (done || cbn; tauto). rewrite !Some_bind, (proj2 (Z.eqb_neq y 45)), (proj2 (Z.eqb_neq y 43)) by done. rewrite !Some_bind. cbn [andb].
    by rewrite option_bind_assoc.
Qed.

(** The prefix is recognised exactly when it is there. *)
Lemma hex_prefix_spec cs m base pre x l vs v e y k s :
  pre = [] \/ base = 16 /\ (pre = [48; 120] \/ pre = [48; 88]) -> 0 <= x < 128 ->
  Forall2 (digit base) (x :: l) (v :: vs) -> e <> 120 -> e <> 88 ->
  pre ++ (x :: l) ++ [e] = y :: k -> bytes_at m s k ->
  hex_prefix cs m base y s = Some (x, s + length pre, base) /\ bytes_at m (s + length pre) (l ++ [e]).
Proof.
  intros Hpre Hxr Hl He1 He2 Hbody Hk. apply Forall2_cons_1 in Hl as [_ Hl]. unfold hex_prefix. destruct Hpre as [->|[-> Hpre]].
  - injection Hbody as <- <-. cbn [length app] in *. rewrite Z.add_0_r. split; [|done].
    destruct (((base =? 0) || (base =? 16)) && (x =? 48)) eqn:E16; [|done].
    destruct l as [|z l]; destruct Hk as [Hz _]; rewrite (load_eq _ _ _ Hz), !Some_bind.
    + by rewrite (proj2 (Z.eqb_neq e 120)), (proj2 (Z.eqb_neq e 88)).
    + destruct vs as [|w vs]; [by inversion Hl|]. apply Forall2_cons_1 in Hl as [(Hz1 & Hz2 & Hz3) _].
      assert ((z =? 120) || (z =? 88) = false) as ->; [|done].
      apply orb_false_iff. split; apply Z.eqb_neq; intros ->; vm_compute in Hz2; injection Hz2 as <-; lia.
  - destruct Hpre as [->| ->]; injection Hbody as <- <-; destruct Hk as [Hz [Hz' Hk]]; cbn [length app] in *; rewrite (load_eq _ _ _ Hz);
      cbn [orb andb Z.eqb Pos.eqb]; rewrite !Some_bind; cbn [orb andb Z.eqb Pos.eqb]; rewrite (load_eq _ _ _ Hz'), Some_bind, chr_ascii by lia;
      replace (s + 2%nat) with (s + 2) by lia; replace (s + 2) with (s + 1 + 1) by lia; done.
Qed.

(** [NX_StrToUL] reads spaces, a sign, the prefix 0x in base 16, and digits. *)
Lemma StrToUL_eq cs m a base sp neg plus pre l vs e :
  2 <= base <= 36 -> Forall (fun x => NX_IsSpace x = true) sp ->
  pre = [] \/ base = 16 /\ (pre = [48; 120] \/ pre = [48; 88]) ->
  l <> [] -> Forall2 (digit base) l vs -> stops base e -> e <> 120 -> e <> 88 ->
  bytes_at m a (sp ++ sign_text neg plus ++ pre ++ l ++ [e]) ->
  let n := value_of base vs in
  NX_StrToUL cs m a base =
    Some (if n <=? NX_ULONG_MAX then (if neg then u64 (- n) else n) else NX_ULONG_MAX,
          a + length (sp ++ sign_text neg plus ++ pre ++ l)).
Proof.
  intros Hb Hsp Hpre Hne Hl Hst He1 He2 Hat n.
  assert (Hsz : (length sp < S (size m) /\ length l < S (size m))%nat).
  { apply bytes_at_size in Hat. rewrite !length_app in Hat. lia. }
  destruct l as [|x l]; [done|]. destruct vs as [|v vs]; [by inversion Hl|].
  pose proof (Forall2_cons_1 _ _ _ _ _ Hl) as [Hx _].
  pose proof (digit_shape base x v Hx) as (Hv & Hxs & Hx1 & Hx2 & Hx3). assert (0 <= x) by (by destruct Hx as [[? _] _]).
  assert (exists y k, pre ++ (x :: l) ++ [e] = y :: k /\ NX_IsSpace y = false /\ y <> 45 /\ y <> 43 /\ chr cs y = y)
    as (y & k & Hbody & Hy & Hy1 & Hy2 & Hyc).
  { destruct Hpre as [->|[_ [->| ->]]]; cbn [app].
    - exists x, (l ++ [e]). split_and!; [done..|]. apply chr_ascii. lia.
    - exists 48, (120 :: x :: l ++ [e]). split_and!; try done. by destruct cs.
    - exists 48, (88 :: x :: l ++ [e]). split_and!; try done. by destruct cs. }
  rewrite Hbody in Hat. destruct (StrToUL_sign cs m a base sp neg plus y k) as [-> Hk]; try (done || lia).
  set (s := a + length sp + length (sign_text neg plus) + 1) in *. unfold after_sign.
  destruct (hex_prefix_spec cs m base pre x l vs v e y k s) as [-> Hdig]; try (done || lia).
  rewrite Some_bind. cbn zeta. rewrite (proj2 (Z.eqb_neq base 0)), (u64_small base) by lia.
  pose proof (StrToUL_loop_eq m base x (s + length pre) 0 0 (x :: l) (v :: vs) e (S (size m)) Hb ltac:(lia) ltac:(lia) Hl Hst Hdig eq_refl ltac:(lia)) as Hloop.
  change (saturated 0 0) with (0, 0) in Hloop. cbn [fst snd] in Hloop.
  rewrite Hloop, Some_bind. fold (value_of base (v :: vs)). fold n. unfold saturated. rewrite !length_app.
  destruct (n <=? NX_ULONG_MAX); cbn [fst snd]; (f_equal; f_equal; [by destruct neg|]); unfold s; cbn; lia.
Qed.

(** *** Any text at all

    The character read last is the NUL, or the NUL lies ahead; [n] turns of a loop
    reach it. *)
Definition ahead (m : Mem) (s c : Z) (n : nat) : Prop :=
  c = 0 /\ (0 < n)%nat \/ exists l, bytes_at m s (l ++ [0]) /\ (length l + 1 < n)%nat.

Lemma ahead_next m s c n : ahead m s c n -> c <> 0 -> exists n' c', n = S n' /\ load m s = Some c' /\ ahead m (s + 1) c' n'.
Proof.
  intros [[-> _]|(l & Hat & Hn)] Hc; [done|]. destruct n as [|n]; [lia|].
  destruct l as [|x l]; destruct Hat as [Hx Hat]; exists n; eexists; (split; [done|]); (split; [by apply load_eq|]).
  - left. cbn in Hn. split; [done|lia].
  - right. exists l. split; [done|]. cbn in Hn. lia.
Qed.

Lemma ahead_more m s c n n' : ahead m s c n -> (n <= n')%nat -> ahead m s c n'.
Proof. intros [[-> Hn]|(l & Hat & Hn)] Hle; [left; split; [done|lia]|right; exists l; split; [done|lia]]. Qed.

Lemma ahead_chr cs m s c n : ahead m s c n -> ahead m s (chr cs c) n.
Proof. intros [[-> Hn]|Ha]; [left; by destruct cs|by right]. Qed.

Lemma skip_spaces_total m : forall (l : list Z) fuel s, bytes_at m s (l ++ [0]) -> (length l + 1 < fuel)%nat ->
  exists c s', skip_spaces fuel m s = Some (c, s') /\ ahead m s' c fuel.
Proof.
  induction l as [|x l IH]; intros [|fuel] s [Hx Hat] Hf; try (cbn in Hf; lia); cbn [skip_spaces]; rewrite (load_eq _ _ _ Hx), Some_bind.
  - change (NX_IsSpace 0) with false. exists 0, (s + 1). split; [done|]. left. split; [done|lia].
  - cbn in Hf. destruct (NX_IsSpace x).
    + destruct (IH fuel (s + 1) Hat ltac:(lia)) as (c & s' & -> & Ha). exists c, s'. split; [done|]. eapply ahead_more; [done|lia].
    + exists x, (s + 1). split; [done|]. right. exists l. split; [done|lia].
Qed.

Lemma StrToUL_loop_total m base cutoff cutlim : forall fuel c s acc any, ahead m s c fuel ->
  exists r, StrToUL_loop fuel m base cutoff cutlim c s acc any = Some r.
Proof.
  induction fuel as [|fuel IH]; intros c s acc any Ha; [destruct Ha as [[_ ?]|(l & _ & ?)]; lia|]. cbn [StrToUL_loop].
  destruct (digit_value c) as [v|] eqn:Ed; [|by eexists]. destruct (v >=? base); [by eexists|].
  destruct (ahead_next _ _ _ _ Ha ltac:(by intros ->)) as (n' & c' & [= <-] & -> & Ha').
  destruct (if any <? 0 then _ else _) as [acc' any']. rewrite Some_bind. by apply IH.
Qed.

(** [NX_StrToUL] of any text returns. *)
Lemma StrToUL_total cs m a base l : bytes_at m a (l ++ [0]) -> exists r, NX_StrToUL cs m a base = Some r.
Proof.
  intros Hat. pose proof (bytes_at_size _ _ _ Hat) as Hsz. rewrite length_app in Hsz. cbn [length] in Hsz. unfold NX_StrToUL.
  destruct (skip_spaces_total m l (S (size m)) a Hat ltac:(lia)) as (c & s & -> & Ha). rewrite Some_bind.
  assert (Hfrom : forall cont : bool * Z * Z -> option (Z * Z),
    (forall neg c s, ahead m s c (S (size m)) -> exists r, cont (neg, c, s) = Some r) ->
    exists r, (r ← (if c =? 45 then c ← load m s; Some (true, chr cs c, s + 1)
      else if c =? 43 then c ← load m s; Some (false, chr cs c, s + 1) else Some (false, c, s)); cont r) = Some r).
  { intros cont Hc. assert (forall c', ahead m (s + 1) c' (size m) -> ahead m (s + 1) (chr cs c') (S (size m))) as Hup
      by (intros c' Ha'; apply ahead_chr; eapply ahead_more; [done|lia]).
    destruct (Z.eqb_spec c 45) as [->|]; [|destruct (Z.eqb_spec c 43) as [->|]; [|by apply Hc]].
    all: destruct (ahead_next _ _ _ _ Ha ltac:(done)) as (n' & c' & [= <-] & -> & Ha'); rewrite !Some_bind; by apply Hc, Hup. }
  apply Hfrom. clear c s Ha Hfrom. intros neg c s Ha. cbn beta iota.
  assert (Hend : forall c s base, ahead m s c (S (size m)) -> exists r,
    ('(acc, any, s) ← StrToUL_loop (S (size m)) m base (NX_ULONG_MAX / u64 base) (NX_ULONG_MAX mod u64 base) c s 0 0;
     Some (if neg && (any >? 0) then u64 (- acc) else acc, if nz any then s - 1 else a)) = Some r).
  { intros c1 s1 b1 H1. destruct (StrToUL_loop_total m b1 (NX_ULONG_MAX / u64 b1) (NX_ULONG_MAX mod u64 b1) _ c1 s1 0 0 H1) as ([[acc any] s2] & ->).
    by eexists. }
  destruct (((base =? 0) || (base =? 16)) && (c =? 48)) eqn:E; [|rewrite !Some_bind; by apply Hend].
  assert (c <> 0) as Hc0 by (intros ->; by rewrite andb_false_r in E).
  destruct (ahead_next _ _ _ _ Ha Hc0) as (n' & x & [= <-] & -> & Hx). rewrite !Some_bind.
  destruct ((x =? 120) || (x =? 88)) eqn:Ex; [|rewrite !Some_bind; by apply Hend].
  destruct (ahead_next _ _ _ _ Hx ltac:(by intros ->)) as (n' & y & En & -> & Hy). rewrite !Some_bind. apply Hend, ahead_chr.
  replace (s + 2) with (s + 1 + 1) by lia. eapply ahead_more; [done|lia].
Qed.

(** ** Concrete inputs *)
Lemma mem_move_correct_witness :
  let m := write ∅ 100 [1; 2; 3; 4; 5; 6] in
  exists m', NX_MemMove m 102 100 4 = Some (m', 102) /\ bytes_at m' 102 [1; 2; 3; 4].
Proof.
  intros m. destruct (mem_move_correct true m 102 100 [1; 2; 3; 4]) as (m' & H1 & H2 & _).
  - by repeat constructor.
  - vm_compute. tauto.
  - apply (mapped_le m 100 6); [apply (bytes_at_mapped m 100 [1; 2; 3; 4; 5; 6]); vm_compute; tauto|lia|cbn; lia].
  - exists m'. exact (conj H1 H2).
Defined.

Lemma string_copies_bounded_witness :
  let m := write (write ∅ 100 [97; 98; 0; 7; 7; 7]) 200 [99; 100; 101; 102; 0] in
  exists m1 m2, NX_StrCopyN m 100 200 4 = Some (m1, 4) /\ str_at m1 100 [99; 100; 101] /\
    NX_StrCatN m 100 200 4 = Some (m2, 6) /\ str_at m2 100 [97; 98; 99].
Proof.
  intros m. destruct (string_copies_bounded true m 100 [97; 98] 200 [99; 100; 101; 102] 4) as [(m1 & r & H1 & H2 & _) (m2 & H3 & H4 & _)].
  - split; [by repeat constructor|vm_compute; tauto].
  - split; [by repeat constructor|vm_compute; tauto].
  - cbn. lia.
  - cbn. lia.
  - lia.
  - apply (mapped_le m 100 6); [apply (bytes_at_mapped m 100 [97; 98; 0; 7; 7; 7]); vm_compute; tauto|lia|cbn; lia].
  - left. cbn. lia.
  - exists m1, m2. exact (conj H1 (conj H2 (conj H3 H4))).
Defined.

(** [NX_StrToUL] reads "-0x1F." in base 16, and saturates at 2^32 - 1 although
    [unsigned long] has 64 bits. *)
Example hex_read : NX_StrToUL true (write ∅ 10 [32; 45; 48; 120; 49; 70; 46; 0]) 10 16 = Some (2 ^ 64 - 31, 16).
Proof. reflexivity. Qed.

Example ulong_saturates : NX_StrToUL true (write ∅ 10 [52; 50; 57; 52; 57; 54; 55; 50; 57; 54; 0]) 10 10 = Some (2 ^ 32 - 1, 20).
Proof. reflexivity. Qed.

(** When the text in the destination is no shorter than [n], [n - dsize] wraps
    around and [NX_StrCatN] writes behind the [n] bytes it was given. *)
Example strcatn_overruns :
  let m := write (write ∅ 100 [97; 98; 99; 0; 7; 7; 7]) 200 [100; 101; 0] in
  NX_StrCatN m 100 200 2 = Some (write m 103 [100; 101; 0], 5).
Proof. reflexivity. Qed.
