(* ===== verification/Printf.v ===== *)
(** Formatted output: [utils/sprintf.c].

    [NX_VSNPrintf] writes through [str] while it walks the format; both are
    addresses in the memory of [CString].  The variable arguments are a list of
    values with the C type they were passed with; taking one with another type
    is [None] (undefined behaviour).  Widths and precisions are taken not to
    overflow [int]. *)
From S2P Require Import Prelude CString.

#[local] Coercion Z.of_nat : nat >-> Z.

Definition ZEROPAD : Z := 1.
Definition SIGN : Z := 2.
Definition PLUS : Z := 4.
Definition SPACE : Z := 8.
Definition LEFT : Z := 16.
Definition SPECIAL : Z := 32.
Definition SMALL : Z := 64.

Definition has (type flag : Z) : bool := nz (type &&& flag).

Definition IsDigit (c : Z) : bool := (48 <=? c) && (c <=? 57).

Fixpoint SkipAscii2Int_loop (fuel : nat) (m : Mem) (s i : Z) : option (Z * Z) :=
  match fuel with
  | O => None
  | S fuel => c ← load m s; if IsDigit c then SkipAscii2Int_loop fuel m (s + 1) (i32 (i * 10 + c - 48)) else Some (i, s)
  end.

(** The number and the rest of the format. *)
Definition SkipAscii2Int (m : Mem) (s : Z) : option (Z * Z) := SkipAscii2Int_loop (S (size m)) m s 0.

(** The remainder and the quotient. *)
Definition _Div (num base : Z) : Z * Z := (num mod base, num / base).

(** "0123456789" and the letters. *)
Definition digits (small : bool) : list Z := seqZ 48 10 ++ (if small then seqZ 97 26 else seqZ 65 26).

(** [tmp]: the digits, the last one first; a 64-bit number has at most 64. *)
Fixpoint number_loop (fuel : nat) (small : bool) (num base : Z) : list Z :=
  match fuel with
  | O => []
  | S fuel =>
      if num =? 0 then []
      else let (d, num) := _Div num base in nth (Z.to_nat d) (digits small) 0 :: number_loop fuel small num base
  end.

(** [while (size-- > 0) *str++ = c]: what is stored, and [size] afterwards. *)
Definition pad (c size : Z) : list Z * Z := (replicate (Z.to_nat size) c, Z.min size 0 - 1).

(** What [_Number] stores through [str], in order. *)
Definition number_text (num base size precision type : Z) : option (list Z) :=
  let small := has type SMALL in
  let type := if has type LEFT then type &&& not32 ZEROPAD else type in
  let c := if has type ZEROPAD then 48 else 32 in
  let '(sign, num) :=
    if has type SIGN && (num <? 0) then (45, i64 (- num))
    else (if has type PLUS then 43 else if has type SPACE then 32 else 0, num) in
  let size := if nz sign then size - 1 else size in
  let size :=
    if has type SPECIAL then (if base =? 16 then size - 2 else if base =? 8 then size - 1 else size) else size in
  let tmp := if num =? 0 then [48] else number_loop 64 small (u64 num) base in
  assert (length tmp <=? 50)%nat;;
  let i : Z := length tmp in
  let precision := if i >? precision then i else precision in
  let size := size - precision in
  let (spaces, size) := if negb (has type (ZEROPAD + LEFT)) then pad 32 size else ([], size) in
  let sign_out := if nz sign then [sign] else [] in
  let special :=
    if has type SPECIAL
    then (if base =? 8 then [48] else if base =? 16 then [48; nth 33 (digits small) 0] else [])
    else [] in
  let (fill, size) := if negb (has type LEFT) then pad c size else ([], size) in
  let zeros := replicate (Z.to_nat (precision - i)) 48 in
  let (trail, _) := pad 32 size in
  Some (spaces ++ sign_out ++ special ++ fill ++ zeros ++ reverse tmp ++ trail).

(** [*str++ = c] for each character. *)
Fixpoint puts (m : Mem) (str : Z) (l : list Z) : option (Mem * Z) :=
  match l with
  | [] => Some (m, str)
  | c :: l => m ← store m str c; puts m (str + 1) l
  end.

Definition _Number (m : Mem) (str num base size precision type : Z) : option (Mem * Z) :=
  if (base <? 2) || (base >? 36) then Some (m, 0)
  else t ← number_text num base size precision type; puts m str t.

(** ** The format *)
Inductive VarArg :=
  | ArgInt (n : Z)
  | ArgLong (n : Z)
  | ArgPtr (a : Z).

Definition arg_int (args : list VarArg) : option (Z * list VarArg) :=
  match args with ArgInt n :: args => Some (i32 n, args) | _ => None end.
Definition arg_uint (args : list VarArg) : option (Z * list VarArg) :=
  match args with ArgInt n :: args => Some (u32 n, args) | _ => None end.
Definition arg_long (args : list VarArg) : option (Z * list VarArg) :=
  match args with ArgLong n :: args => Some (i64 n, args) | _ => None end.
Definition arg_ptr (args : list VarArg) : option (Z * list VarArg) :=
  match args with ArgPtr a :: args => Some (a, args) | _ => None end.

(** [repeat:]: the character behind the flags, its address, the flags. *)
Fixpoint skip_flags (fuel : nat) (m : Mem) (fmt flags : Z) : option (Z * Z * Z) :=
  match fuel with
  | O => None
  | S fuel =>
      let fmt := fmt + 1 in
      c ← load m fmt;
      if c =? 45 then skip_flags fuel m fmt (flags ||| LEFT)
      else if c =? 43 then skip_flags fuel m fmt (flags ||| PLUS)
      else if c =? 32 then skip_flags fuel m fmt (flags ||| SPACE)
      else if c =? 35 then skip_flags fuel m fmt (flags ||| SPECIAL)
      else if c =? 48 then skip_flags fuel m fmt (flags ||| ZEROPAD)
      else Some (c, fmt, flags)
  end.

Definition field_width (m : Mem) (fmt flags : Z) (args : list VarArg) : option (Z * Z * Z * list VarArg) :=
  c ← load m fmt;
  if IsDigit c then '(w, fmt) ← SkipAscii2Int m fmt; Some (w, fmt, flags, args)
  else if c =? 42 then
    '(w, args) ← arg_int args;
    Some (if w <? 0 then (- w, fmt + 1, flags ||| LEFT, args) else (w, fmt + 1, flags, args))
  else Some (-1, fmt, flags, args).

Definition field_precision (m : Mem) (fmt : Z) (args : list VarArg) : option (Z * Z * list VarArg) :=
  c ← load m fmt;
  if c =? 46 then
    let fmt := fmt + 1 in
    c ← load m fmt;
    '(p, fmt, args) ←
      (if IsDigit c then '(p, fmt) ← SkipAscii2Int m fmt; Some (p, fmt, args)
       else if c =? 42 then '(p, args) ← arg_int args; Some (p, fmt + 1, args)
       else Some (-1, fmt, args));
    Some (if p <? 0 then 0 else p, fmt, args)
  else Some (-1, fmt, args).

Definition field_qualifier (m : Mem) (fmt : Z) : option (Z * Z) :=
  c ← load m fmt;
  Some (if (c =? 104) || (c =? 108) || (c =? 76) || (c =? 90) then (c, fmt + 1) else (-1, fmt)).

(** [*(int * )ip = v] and [*(long * )ip = v], little endian. *)
Fixpoint store_le (m : Mem) (a v : Z) (n : nat) : option Mem :=
  match n with
  | O => Some m
  | S n => m ← store m a v; store_le m (a + 1) (v >> 8) n
  end.

Definition put_char (m : Mem) (str fieldWidth flags c : Z) : option (Mem * Z) :=
  let (before, fieldWidth) :=
    if has flags LEFT then ([], fieldWidth)
    else (replicate (Z.to_nat (fieldWidth - 1)) 32, Z.min fieldWidth 1 - 1) in
  puts m str (before ++ [u8 c] ++ replicate (Z.to_nat (fieldWidth - 1)) 32).

Definition put_string (m : Mem) (str fieldWidth precision flags s : Z) : option (Mem * Z) :=
  len ← NX_StrLen m s;
  let len := if precision <? 0 then len else if len >? precision then precision else len in
  let (before, fieldWidth) :=
    if has flags LEFT then ([], fieldWidth)
    else (replicate (Z.to_nat (fieldWidth - len)) 32, Z.min fieldWidth len - 1) in
  '(m, str) ← puts m str before;
  m ← MemCopy_loop m str s (Z.to_nat len);
  puts m (str + len) (replicate (Z.to_nat (fieldWidth - len)) 32).

(** The number of the next argument, [long] with the qualifier [l], else as [get] takes it. *)
Definition put_arg (m : Mem) (str base fieldWidth precision flags qualifier : Z)
    (get : list VarArg -> option (Z * list VarArg)) (args : list VarArg) : option (Mem * Z * list VarArg) :=
  '(n, args) ← (if qualifier =? 108 then arg_long args else get args);
  '(m, str) ← _Number m str n base fieldWidth precision flags;
  Some (m, str, args).

(** The second [switch]: memory, [str] and the arguments, and by how much [fmt]
    steps back ([fmt--] at the end of the format). *)
Definition directive (m : Mem) (buf str fmt flags fieldWidth precision qualifier : Z) (args : list VarArg)
    : option (Mem * Z * list VarArg * Z) :=
  c ← load m fmt;
  '(m, str, args) ←
    (if c =? 99 then
       '(n, args) ← arg_int args; '(m, str) ← put_char m str fieldWidth flags n; Some (m, str, args)
     else if c =? 115 then
       '(s, args) ← arg_ptr args; '(m, str) ← put_string m str fieldWidth precision flags s; Some (m, str, args)
     else if c =? 111 then put_arg m str 8 fieldWidth precision flags qualifier arg_uint args
     else if c =? 112 then
       '(a, args) ← arg_ptr args;
       '(m, str) ← (if fieldWidth =? -1 then _Number m str (i64 a) 16 16 precision (flags ||| ZEROPAD)
                    else _Number m str (i64 a) 16 fieldWidth precision flags);
       Some (m, str, args)
     else if c =? 120 then put_arg m str 16 fieldWidth precision (flags ||| SMALL) qualifier arg_uint args
     else if c =? 88 then put_arg m str 16 fieldWidth precision flags qualifier arg_uint args
     else if (c =? 100) || (c =? 105) then put_arg m str 10 fieldWidth precision (flags ||| SIGN) qualifier arg_int args
     else if c =? 117 then put_arg m str 10 fieldWidth precision flags qualifier arg_int args
     else if c =? 110 then
       '(ip, args) ← arg_ptr args;
       m ← store_le m ip (str - buf) (if qualifier =? 108 then 8%nat else 4%nat);
       Some (m, str, args)
     else if c =? 37 then '(m, str) ← puts m str [37]; Some (m, str, args)
     else '(m, str) ← puts m str (if nz c then [37; c] else [37]); Some (m, str, args));
  Some (m, str, args, if c =? 0 then 1 else 0).

Definition conversion (m : Mem) (buf str fmt : Z) (args : list VarArg) : option (Mem * Z * Z * list VarArg) :=
  '(_, fmt, flags) ← skip_flags (S (size m)) m fmt 0;
  '(fieldWidth, fmt, flags, args) ← field_width m fmt flags args;
  '(precision, fmt, args) ← field_precision m fmt args;
  '(qualifier, fmt) ← field_qualifier m fmt;
  '(m, str, args, back) ← directive m buf str fmt flags fieldWidth precision qualifier args;
  Some (m, str, fmt - back, args).

Fixpoint VSNPrintf_loop (fuel : nat) (m : Mem) (buf str fmt bufLen : Z) (args : list VarArg) : option (Mem * Z) :=
  match fuel with
  | O => None
  | S fuel =>
      c ← load m fmt;
      if (c =? 0) || (bufLen =? 0) then Some (m, str)
      else
        let bufLen := i32 (bufLen - 1) in
        if negb (c =? 37) then '(m, str) ← puts m str [c]; VSNPrintf_loop fuel m buf str (fmt + 1) bufLen args
        else '(m, str, fmt, args) ← conversion m buf str fmt args; VSNPrintf_loop fuel m buf str (fmt + 1) bufLen args
  end.

(** Memory and the number of characters. *)
Definition NX_VSNPrintf (m : Mem) (buf bufLen fmt : Z) (args : list VarArg) : option (Mem * Z) :=
  '(m, str) ← VSNPrintf_loop (S (size m)) m buf buf fmt bufLen args;
  m ← store m str 0;
  Some (m, i32 (str - buf)).

Definition NX_SNPrintf (m : Mem) (buf buflen fmt : Z) (args : list VarArg) : option (Mem * Z) :=
  NX_VSNPrintf m buf buflen fmt args.

(** ** Numbers *)
Lemma has_or t f g : has t (Z.lor f g) = has t f || has t g.
Proof.
  apply Bool.eq_iff_eq_true. rewrite orb_true_iff. unfold has, nz.
  rewrite !negb_true_iff, !Z.eqb_neq, Z.land_lor_distr_r, Z.lor_eq_0_iff. destruct (Z.eq_dec (t &&& f) 0); tauto.
Qed.

Lemma digits_digit small base d : 2 <= base <= 36 -> 0 <= d < base -> digit base (nth (Z.to_nat d) (digits small) 0) d.
Proof.
  intros Hb Hd. set (P small d := let c := nth (Z.to_nat d) (digits small) 0 in (0 <=? c) && (c <? 2 ^ 8) && bool_decide (digit_value c = Some d)).
  assert (forallb (P small) (seqZ 0 36) = true) as H by (destruct small; reflexivity).
  rewrite forallb_forall in H. specialize (H d). rewrite <- list_elem_of_In, elem_of_seqZ in H. specialize (H ltac:(lia)).
  subst P. cbn beta zeta in H. bool2prop. split; [lia|]. split; [done|lia].
Qed.

Lemma value_from_app base acc l k : value_from base acc (l ++ k) = value_from base (value_from base acc l) k.
Proof. apply fold_left_app. Qed.

Lemma value_from_zeros base k vs : value_of base (replicate k 0 ++ vs) = value_of base vs.
Proof.
  unfold value_of. rewrite value_from_app. f_equal. induction k as [|k IH]; [done|]. cbn. exact IH.
Qed.

(** The digits of a number, the last one first. *)
Lemma number_loop_digits small base fuel (k : nat) num :
  2 <= base <= 36 -> 0 <= num < base ^ k -> (k <= fuel)%nat ->
  exists vs, Forall2 (digit base) (number_loop fuel small num base) vs /\ value_of base (reverse vs) = num /\
    (length vs <= k)%nat /\ (num <> 0 -> vs <> []).
Proof.
  intros Hb. revert fuel num. induction k as [|k IH]; intros fuel num Hn Hf.
  - cbn in Hn. assert (num = 0) as -> by lia. exists []. by destruct fuel.
  - destruct fuel as [|fuel]; [lia|]. cbn [number_loop _Div]. destruct (Z.eqb_spec num 0) as [->|Hne].
    { exists []. split; [constructor|]. split; [done|]. split; [cbn; lia|done]. }
    pose proof (Z.mod_pos_bound num base ltac:(lia)) as Hmod.
    destruct (IH fuel (num / base)) as (vs & Hvs & Hval & Hlen & _); [|lia|].
    { split; [apply Z.div_pos; lia|]. apply Z.div_lt_upper_bound; [lia|]. rewrite Nat2Z.inj_succ, Z.pow_succ_r in Hn by lia. lia. }
    exists (num mod base :: vs). split_and!; [|..|cbn; lia|done].
    + constructor; [by apply digits_digit|done].
    + rewrite reverse_cons. unfold value_of in *. rewrite value_from_app, Hval. cbn. pose proof (Z.div_mod num base). lia.
Qed.

(** The magnitude that is printed. *)
Definition shown (num : Z) (neg : bool) : Z := if neg then - num else u64 num.

Definition spaces (l : list Z) : Prop := Forall (fun x => x = 32) l.

Lemma spaces_replicate n : spaces (replicate n 32).
Proof. by induction n; constructor. Qed.

(** [tmp], from the first digit on. *)
Lemma tmp_digits num base neg small :
  base = 8 \/ base = 10 \/ base = 16 -> - 2 ^ 63 <= num < 2 ^ 63 -> (neg = true -> num < 0) ->
  let num' := if neg then i64 (- num) else num in
  let tmp := if num' =? 0 then [48] else number_loop 64 small (u64 num') base in
  exists vs, Forall2 (digit base) (reverse tmp) vs /\ value_of base vs = shown num neg /\ vs <> [] /\ (length tmp <=? 50)%nat = true.
Proof.
  intros Hb Hn Hneg num' tmp. assert (Hu : u64 num' = shown num neg).
  { subst num'. unfold shown. destruct neg; [|done]. specialize (Hneg eq_refl). unfold u64, i64. zlia. }
  destruct (Z.eqb_spec num' 0) as [E|E].
  - exists [0]. subst tmp. cbn. split; [|split; [|done]].
    + repeat constructor; try done. lia.
    + unfold value_of. cbn. rewrite <- Hu, E. done.
  - assert (u64 num' <> 0) as Hnz. { intros E'. apply E. subst num'. unfold u64, i64 in *. destruct neg; [specialize (Hneg eq_refl)|]; zlia. }
    pose proof (u64_range num') as Hr.
    destruct (number_loop_digits small base 64 22 (u64 num')) as (vs & Hvs & Hval & Hlen & Hne); [lia| |lia|].
    { assert (2 ^ 64 <= base ^ 22%nat) by (destruct Hb as [->|[->| ->]]; apply Z.leb_le; reflexivity). lia. }
    pose proof (Forall2_length _ _ _ Hvs) as Hll. fold tmp in Hvs, Hll. exists (reverse vs). split_and!.
    + by apply Forall2_reverse.
    + by rewrite Hval.
    + intros E'%(f_equal length). rewrite length_reverse in E'. by destruct vs; [apply Hne|].
    + apply Nat.leb_le. lia.
Qed.

(** The shape of what [_Number] prints: spaces, a sign, the prefix, digits with
    leading zeros, spaces. *)
Lemma number_text_shape num base size precision type :
  base = 8 \/ base = 10 \/ base = 16 -> - 2 ^ 63 <= num < 2 ^ 63 ->
  let neg := has type SIGN && (num <? 0) in
  exists sp plus pre l vs trail,
    number_text num base size precision type = Some (sp ++ sign_text neg plus ++ pre ++ l ++ trail) /\
    spaces sp /\ (pre = [] \/ base = 16 /\ (pre = [48; 120] \/ pre = [48; 88])) /\
    l <> [] /\ Forall2 (digit base) l vs /\ value_of base vs = shown num neg /\ (exists k, trail = replicate k 32).
Proof.
  intros Hb Hn neg. unfold number_text.
  set (type' := if has type LEFT then type &&& not32 ZEROPAD else type).
  assert (Hsign : has type' SIGN = has type SIGN).
  { subst type'. destruct (has type LEFT); [|done]. unfold has. by rewrite <- Z.land_assoc. }
  rewrite Hsign. fold neg.
  destruct (tmp_digits num base neg (has type SMALL) Hb Hn) as (vs & Hvs & Hval & Hvne & Hlen).
  { intros E. subst neg. bool2prop. done. }
  set (small := has type SMALL) in *.
  assert (exists sign, (if neg then (45, i64 (- num)) else (if has type' PLUS then 43 else if has type' SPACE then 32 else 0, num)) =
    (sign, if neg then i64 (- num) else num) /\
    exists sp plus, (if nz sign then [sign] else []) = sp ++ sign_text neg plus /\ spaces sp) as (sign & -> & sp1 & plus & Hs & Hsp1).
  { destruct neg; [|destruct (has type' PLUS); [|destruct (has type' SPACE)]]; (eexists; split; [reflexivity|]).
    - exists [], false. by repeat constructor.
    - exists [], true. by repeat constructor.
    - exists [32], false. by repeat constructor.
    - exists [], false. by repeat constructor. }
  cbn [fst snd]. set (tmp := if (if neg then i64 (- num) else num) =? 0 then _ else _) in *. rewrite Hlen, assert_true, Hs. clear Hs Hsign.
  set (sz := (if has type' SPECIAL then _ else _) - _). generalize sz. clear sz. intros sz.
  set (zs := replicate (Z.to_nat _) 48).
  assert (Hz : exists k, zs = replicate k 48) by by eexists. clearbody zs.
  set (special := if has type' SPECIAL then _ else _).
  assert (exists pre k, special = pre ++ replicate k 48 /\ (pre = [] \/ base = 16 /\ (pre = [48; 120] \/ pre = [48; 88]))) as (pre & k1 & -> & Hpre).
  { subst special. destruct (has type' SPECIAL); [|by exists [], 0%nat; auto].
    destruct Hb as [->|[->| ->]]; cbn [Z.eqb Pos.eqb]; [by exists [], 1%nat; auto|by exists [], 0%nat; auto|].
    destruct small; eexists _, 0%nat; rewrite app_nil_r; auto. }
  assert (exists sp2 k2 k3, (let (spaces, size) := if negb (has type' (ZEROPAD + LEFT)) then pad 32 sz else ([], sz) in
      let (fill, size) := if negb (has type' LEFT) then pad (if has type' ZEROPAD then 48 else 32) size else ([], size) in
      (spaces, fill, (pad 32 size).1)) = (sp2, replicate k2 48, replicate k3 32) /\ spaces sp2) as (sp2 & k2 & k3 & Hpad & Hsp2).
  { change (ZEROPAD + LEFT) with (Z.lor ZEROPAD LEFT). rewrite has_or. unfold pad.
    destruct (has type' ZEROPAD), (has type' LEFT); cbn [orb negb fst].
    - exists [], 0%nat, (Z.to_nat sz). by repeat constructor.
    - eexists [], _, _. by repeat constructor.
    - exists [], 0%nat, (Z.to_nat sz). by repeat constructor.
    - eexists _, 0%nat, _. split; [|apply spaces_replicate]. replace (Z.to_nat (Z.min sz 0 - 1)) with 0%nat by lia. done. }
  destruct (if negb (has type' (ZEROPAD + LEFT)) then _ else _) as [spaces0 size0].
  destruct (if negb (has type' LEFT) then _ else _) as [fill size1]. destruct (pad 32 size1) as [trail rest].
  cbn [fst] in Hpad. injection Hpad as -> -> ->. destruct Hz as [k0 ->].
  exists (sp2 ++ sp1), plus, pre, (replicate (k1 + k2 + k0) 48 ++ reverse tmp), (replicate (k1 + k2 + k0) 0 ++ vs), (replicate k3 32).
  split_and!; [|by apply Forall_app|done| | | |by eexists].
  - f_equal. by rewrite !replicate_add, <- !app_assoc.
  - intros [_ E]%app_nil. rewrite E in Hvs. by inversion Hvs; subst.
  - apply Forall2_app; [|done]. apply Forall2_replicate. split; [lia|]. split; [done|]. lia.
  - by rewrite value_from_zeros.
Qed.

Lemma digits_text base l vs : Forall2 (digit base) l vs -> text l.
Proof.
  induction 1 as [|x v l vs (Hx & Hv & _) _ IH]; constructor; [|done].
  assert (x <> 0) by (intros ->; done). lia.
Qed.

Lemma spaces_text l : spaces l -> text l.
Proof. intros H. eapply Forall_impl; [exact H|]. cbn. lia. Qed.

Lemma sign_text_text neg plus : text (sign_text neg plus).
Proof. destruct neg; [|destruct plus]; by repeat constructor. Qed.

(** What is printed is text, and [NX_StrToUL] finds the number in it. *)
Lemma number_text_reads cs num base size precision type :
  base = 8 \/ base = 10 \/ base = 16 -> - 2 ^ 63 <= num < 2 ^ 63 ->
  exists out, number_text num base size precision type = Some out /\ text out /\
    (shown num (has type SIGN && (num <? 0)) <= NX_ULONG_MAX ->
     forall m a, str_at m a out -> exists e, NX_StrToUL cs m a base = Some (u64 num, e)).
Proof.
  intros Hb Hn. destruct (number_text_shape num base size precision type Hb Hn) as (sp & plus & pre & l & vs & trail & -> & Hsp & Hpre & Hl & Hvs & Hval & [k ->]).
  set (neg := has type SIGN && (num <? 0)) in *. eexists. split; [done|]. split.
  { repeat apply text_app; [by apply spaces_text|apply sign_text_text| |by apply (digits_text base l vs)|apply spaces_text, spaces_replicate].
    destruct Hpre as [->|[_ [->| ->]]]; by repeat constructor. }
  intros Hmax m a [_ Hat].
  assert (exists e r, replicate k 32 ++ [0] = e :: r /\ (e = 32 \/ e = 0)) as (e & r & He & Hee) by (destruct k; cbn; eauto).
  eexists. rewrite (StrToUL_eq cs m a base sp neg plus pre l vs e); [|lia| |done|done|done| |lia|lia|].
  - rewrite Hval, (proj2 (Z.leb_le _ _)) by done. f_equal. f_equal. unfold shown in *. destruct neg eqn:En.
    + by rewrite Z.opp_involutive.
    + done.
  - eapply Forall_impl; [exact Hsp|]. by intros x ->.
  - unfold stops. by destruct Hee as [->| ->].
  - rewrite <- !app_assoc in Hat. rewrite He in Hat. replace (e :: r) with ([e] ++ r) in Hat by done. rewrite !app_assoc in Hat. apply bytes_at_app in Hat as [Hat _].
    by rewrite <- !app_assoc in Hat.
Qed.

(** ** Writing and walking the format *)
Lemma puts_eq m str l : bytes l -> mapped m str (length l) -> puts m str l = Some (write m str l, str + length l).
Proof.
  intros Hb. revert m str. induction Hb as [|x l Hx _ IH]; intros m str Hm; cbn [puts write length]; [by rewrite Z.add_0_r|].
  cbn [length] in Hm. apply mapped_head in Hm as [Ha Hm]. rewrite store_byte, Some_bind, IH by (done || by apply mapped_insert).
  do 2 f_equal. lia.
Qed.

(** The flag a character sets. *)
Definition flag_of (c : Z) : option Z :=
  if c =? 45 then Some LEFT else if c =? 43 then Some PLUS else if c =? 32 then Some SPACE
  else if c =? 35 then Some SPECIAL else if c =? 48 then Some ZEROPAD else None.

Definition flags_from (flags : Z) (fl : list Z) : Z := fold_left (fun flags c => flags ||| default 0 (flag_of c)) fl flags.

Lemma flags_from_sign flags fl : has (flags_from flags fl) SIGN = has flags SIGN.
Proof.
  revert flags. induction fl as [|c fl IH]; intros flags; [done|]. cbn [flags_from fold_left]. unfold flags_from in IH. rewrite IH. unfold has.
  rewrite (Z.land_comm (_ ||| _)), (Z.land_comm flags). fold (has SIGN (flags ||| default 0 (flag_of c))) (has SIGN flags). rewrite has_or.
  unfold flag_of. repeat case_match; subst; cbn [default from_option id]; by rewrite orb_false_r.
Qed.

Lemma skip_flags_step fuel m fmt flags c : m !! (fmt + 1) = Some c ->
  skip_flags (S fuel) m fmt flags =
    match flag_of c with Some f => skip_flags fuel m (fmt + 1) (flags ||| f) | None => Some (c, fmt + 1, flags) end.
Proof.
  intros Hc. cbn [skip_flags]. rewrite (load_eq _ _ _ Hc), Some_bind. unfold flag_of. by repeat case_match.
Qed.

Lemma skip_flags_eq m fmt flags fl c fuel :
  bytes_at m (fmt + 1) (fl ++ [c]) -> Forall (fun x => is_Some (flag_of x)) fl -> flag_of c = None -> (length fl < fuel)%nat ->
  skip_flags fuel m fmt flags = Some (c, fmt + length fl + 1, flags_from flags fl).
Proof.
  intros Hm Hfl Hc. revert fmt flags fuel Hm. induction Hfl as [|x fl [f Hx] _ IH]; intros fmt flags [|fuel] [Hm Hr] Hf; try (cbn in Hf; lia);
    rewrite (skip_flags_step _ _ _ _ _ Hm).
  - rewrite Hc. cbn. do 3 f_equal. lia.
  - rewrite Hx, IH by (done || (cbn in Hf; lia)). cbn [length flags_from fold_left]. rewrite Hx. cbn [default from_option]. do 3 f_equal. lia.
Qed.

Lemma value_from_ge i ds : 0 <= i -> Forall (fun d => 0 <= d <= 9) ds -> i <= value_from 10 i ds.
Proof.
  intros Hi Hds. revert i Hi. induction Hds as [|d ds Hd _ IH]; intros i Hi; cbn; [lia|].
  etransitivity; [|apply IH; lia]. lia.
Qed.

Lemma SkipAscii2Int_eq m s i ds c fuel :
  bytes_at m s (map (Z.add 48) ds ++ [c]) -> Forall (fun d => 0 <= d <= 9) ds -> IsDigit c = false -> (length ds < fuel)%nat ->
  0 <= i -> value_from 10 i ds < 2 ^ 31 -> SkipAscii2Int_loop fuel m s i = Some (value_from 10 i ds, s + length ds).
Proof.
  intros Hm Hds Hc. revert s i fuel Hm. induction Hds as [|d ds Hd Hds IH]; intros s i [|fuel] [Hm Hr] Hf Hi Hlt; try (cbn in Hf; lia);
    cbn [SkipAscii2Int_loop]; rewrite (load_eq _ _ _ Hm), Some_bind.
  - rewrite Hc. cbn. by rewrite Z.add_0_r.
  - assert (IsDigit (48 + d) = true) as -> by (unfold IsDigit; lia).
    pose proof (value_from_ge (i * 10 + d) ds ltac:(lia) Hds) as Hge.
    rewrite i32_small by (cbn [value_from fold_left] in Hlt; fold (value_from 10 (i * 10 + d) ds) in Hlt; lia).
    replace (i * 10 + (48 + d) - 48) with (i * 10 + d) by lia. rewrite IH; [|done|cbn in Hf; lia|lia|done].
    cbn [value_from fold_left length]. do 2 f_equal. lia.
Qed.

(** ** The integer conversions *)
Definition conv_chars : list Z := [111; 120; 88; 100; 105; 117].
Definition conv_base (cv : Z) : Z := if cv =? 111 then 8 else if (cv =? 120) || (cv =? 88) then 16 else 10.
Definition conv_signed (cv : Z) : bool := (cv =? 100) || (cv =? 105).
Definition conv_flag (cv : Z) : Z := if cv =? 120 then SMALL else if conv_signed cv then SIGN else 0.
(** The [long] that is printed, of an argument of C type [long] or [int]. *)
Definition conv_value (cv : Z) (is_long : bool) (n : Z) : Z :=
  if is_long then i64 n else if conv_signed cv || (cv =? 117) then i32 n else u32 n.
(** The value of the argument by its C type: signed for [d] and [i], else unsigned. *)
Definition arg_value (cv : Z) (is_long : bool) (n : Z) : Z :=
  if conv_signed cv then (if is_long then i64 n else i32 n) else if is_long then u64 n else u32 n.
Definition conv_arg (is_long : bool) (n : Z) : VarArg := if is_long then ArgLong n else ArgInt n.

Lemma conv_range cv is_long n : - 2 ^ 63 <= conv_value cv is_long n < 2 ^ 63.
Proof. unfold conv_value, i64, i32, u32. destruct is_long; [|destruct (_ || _)]; zlia. Qed.

Lemma conv_facts cv : cv ∈ conv_chars ->
  flag_of cv = None /\ IsDigit cv = false /\ cv <> 42 /\ cv <> 46 /\ 0 < cv < 2 ^ 8 /\
  ((cv =? 104) || (cv =? 108) || (cv =? 76) || (cv =? 90)) = false /\ (conv_base cv = 8 \/ conv_base cv = 10 \/ conv_base cv = 16).
Proof.
  unfold conv_chars. rewrite !elem_of_cons, elem_of_nil. intros [->|[->|[->|[->|[->|[->|[]]]]]]]; cbn; split_and!; try done; try lia; auto.
Qed.

(** The length modifiers: none, [h], [l], [L] or [Z]; only [l] makes a difference. *)
Definition modifiers : list (list Z) := [[]; [104]; [108]; [76]; [90]].
Definition is_long (q : list Z) : bool := bool_decide (q = [108]).
Definition qualifier_of (q : list Z) : Z := default (-1) (head q).

(** What is printed and read is the argument, but for [u] of an [int] from 2^31 on. *)
Lemma shown_argument cv long n : cv ∈ conv_chars -> (cv = 117 -> long = false -> arg_value cv long n < 2 ^ 31) ->
  let num := conv_value cv long n in
  shown num (conv_signed cv && (num <? 0)) = Z.abs (arg_value cv long n) /\ u64 num = u64 (arg_value cv long n).
Proof.
  intros Hcv Hu num. unfold num, shown, conv_value, arg_value in *.
  unfold conv_chars in Hcv. rewrite !elem_of_cons, elem_of_nil in Hcv.
  destruct Hcv as [->|[->|[->|[->|[->|[->|[]]]]]]], long; cbn [conv_signed Z.eqb Pos.eqb orb andb] in *;
    try specialize (Hu eq_refl eq_refl); try (destruct (Z.ltb_spec (i64 n) 0)); try (destruct (Z.ltb_spec (i32 n) 0)); cbn [andb];
    (split; [|done || (unfold i64, i32, u64, u32 in *; zlia)]); unfold i64, i32, u64, u32 in *; zlia.
Qed.

(** What is printed: the argument as a [long]; for [u] of an [int] from 2^31 on, 2^32 less. *)
Lemma conv_value_argument cv long n : cv ∈ conv_chars ->
  let v := arg_value cv long n in
  conv_value cv long n = if (cv =? 117) && negb long && (2 ^ 31 <=? v) then v - 2 ^ 32 else i64 v.
Proof.
  intros Hcv v. unfold v, conv_value, arg_value in *.
  unfold conv_chars in Hcv. rewrite !elem_of_cons, elem_of_nil in Hcv.
  destruct Hcv as [->|[->|[->|[->|[->|[->|[]]]]]]], long; cbn [conv_signed Z.eqb Pos.eqb orb andb negb];
    try (destruct (Z.leb_spec (2 ^ 31) (u32 n))); unfold i64, i32, u64, u32 in *; zlia.
Qed.

Lemma directive_eq m buf str fmt flags w cv q n : cv ∈ conv_chars -> q ∈ modifiers -> m !! fmt = Some cv ->
  directive m buf str fmt flags w (-1) (qualifier_of q) [conv_arg (is_long q) n] =
    ('(m, str) ← _Number m str (conv_value cv (is_long q) n) (conv_base cv) w (-1) (flags ||| conv_flag cv); Some (m, str, [], 0)).
Proof.
  intros Hcv Hq Hc. unfold modifiers in Hq. rewrite !elem_of_cons, elem_of_nil in Hq. unfold directive. rewrite (load_eq _ _ _ Hc), Some_bind.
  unfold conv_chars in Hcv. rewrite !elem_of_cons, elem_of_nil in Hcv. unfold put_arg, conv_value, conv_arg.
  destruct Hq as [->|[->|[->|[->|[->|[]]]]]];
    [ change (is_long []) with false; change (qualifier_of []) with (-1)
    | change (is_long [104]) with false; change (qualifier_of [104]) with 104
    | change (is_long [108]) with true; change (qualifier_of [108]) with 108
    | change (is_long [76]) with false; change (qualifier_of [76]) with 76
    | change (is_long [90]) with false; change (qualifier_of [90]) with 90 ];
    destruct Hcv as [->|[->|[->|[->|[->|[->|[]]]]]]]; cbn [Z.eqb Pos.eqb orb conv_base conv_flag conv_signed arg_int arg_uint arg_long];
    rewrite ?Z.lor_0_r, ?Some_bind, !option_bind_assoc; apply option_bind_ext_fun; intros [m' str']; done.
Qed.

(** The format [%], flags, width digits, a length modifier, the conversion. *)
Definition number_format (fl wd q : list Z) (cv : Z) : list Z :=
  37 :: fl ++ map (Z.add 48) wd ++ q ++ [cv].
Definition width_of (wd : list Z) : Z := if wd is [] then -1 else value_of 10 wd.

Lemma conversion_eq m buf str fmt fl wd q cv n :
  str_at m fmt (number_format fl wd q cv) -> cv ∈ conv_chars -> q ∈ modifiers ->
  Forall (fun x => is_Some (flag_of x)) fl -> Forall (fun d => 0 <= d <= 9) wd -> head wd <> Some 0 -> value_of 10 wd < 2 ^ 31 ->
  conversion m buf str fmt [conv_arg (is_long q) n] =
    ('(m, str) ← _Number m str (conv_value cv (is_long q) n) (conv_base cv) (width_of wd) (-1) (flags_from 0 fl ||| conv_flag cv);
     Some (m, str, fmt + length (number_format fl wd q cv) - 1, [])).
Proof.
  intros [_ Hm] Hcv Hq Hfl Hwd Hhd Hlt. destruct (conv_facts cv Hcv) as (Hc1 & Hc2 & Hc3 & Hc4 & Hc5 & Hc6 & _).
  unfold number_format in Hm. destruct Hm as [_ Hm]. rewrite <- !app_assoc in Hm.
  assert (exists e k, q ++ [cv] ++ [0] = e :: k /\ flag_of e = None /\ IsDigit e = false /\ e <> 42 /\ e <> 46) as (e & k & He & He1 & He2 & He3 & He4).
  { unfold modifiers in Hq. rewrite !elem_of_cons, elem_of_nil in Hq.
    destruct Hq as [->|[->|[->|[->|[->|[]]]]]]; [by exists cv, [0]|by eexists _, [cv; 0]..]. }
  assert (exists x k', map (Z.add 48) wd ++ q ++ [cv] ++ [0] = x :: k' /\ flag_of x = None) as (x & k' & Hx & Hx1).
  { destruct wd as [|d wd]; [by exists e, k|]. eexists _, _. split; [reflexivity|]. apply Forall_cons in Hwd as [Hd _].
    assert (d <> 0) by (intros ->; done). unfold flag_of. by rewrite !(proj2 (Z.eqb_neq _ _)) by lia. }
  pose proof Hm as Hall. rewrite Hx in Hm. replace (x :: k') with ([x] ++ k') in Hm by done. rewrite app_assoc in Hm. apply bytes_at_app in Hm as [Hm _].
  assert (Hsz : (length fl + length wd < S (size m))%nat).
  { apply bytes_at_size in Hall. rewrite !length_app, length_map in Hall. lia. }
  unfold conversion. rewrite (skip_flags_eq _ _ _ _ _ _ Hm), Some_bind by (done || lia). clear Hm.
  apply bytes_at_app in Hall as [_ Hall]. replace (fmt + 1 + length fl) with (fmt + length fl + 1) in Hall by lia.
  set (p := fmt + length fl + 1) in *.
  assert (Hw : field_width m p (flags_from 0 fl) [conv_arg (is_long q) n] = Some (width_of wd, p + length wd, flags_from 0 fl, [conv_arg (is_long q) n])).
  { unfold field_width. destruct wd as [|d wd].
    - cbn [map] in Hall. rewrite app_nil_l, He in Hall. destruct Hall as [Hp _]. rewrite (load_eq _ _ _ Hp), Some_bind, He2, (proj2 (Z.eqb_neq e 42)) by done. by rewrite Z.add_0_r.
    - pose proof Hall as [Hp _]. rewrite (load_eq _ _ _ Hp), Some_bind. apply Forall_cons in Hwd as [Hd Hwd'].
      assert (IsDigit (48 + d) = true) as -> by (unfold IsDigit; lia). unfold SkipAscii2Int. rewrite He in Hall.
      replace (e :: k) with ([e] ++ k) in Hall by done. rewrite app_assoc in Hall. apply bytes_at_app in Hall as [Hall _].
      rewrite (SkipAscii2Int_eq _ _ _ _ _ _ Hall); [done|by constructor|done|lia|done|done]. }
  rewrite Hw, Some_bind. apply bytes_at_app in Hall as [_ Hall]. rewrite length_map in Hall. set (p2 := p + length wd) in *.
  unfold field_precision. pose proof Hall as Hall'. rewrite He in Hall'. destruct Hall' as [Hp _].
  rewrite (load_eq _ _ _ Hp), Some_bind, (proj2 (Z.eqb_neq e 46)), Some_bind by done. clear Hp He1 He2 He3 He4 He.
  assert (field_qualifier m p2 = Some (qualifier_of q, p2 + length q) /\ m !! (p2 + length q) = Some cv) as [-> Hcvm].
  { unfold field_qualifier. pose proof Hq as Hq'. unfold modifiers in Hq'. rewrite !elem_of_cons, elem_of_nil in Hq'.
    destruct Hq' as [->|[->|[->|[->|[->|[]]]]]]; cbn [app bytes_at length] in *; destruct Hall as [Hp Hall]; rewrite (load_eq _ _ _ Hp), Some_bind;
      [rewrite Hc6; by replace (p2 + 0%nat) with p2 by lia|..]; destruct Hall as [Hp' _]; by replace (p2 + 1%nat) with (p2 + 1) by lia. }
  rewrite Some_bind, (directive_eq _ _ _ _ _ _ cv q n Hcv Hq Hcvm). rewrite option_bind_assoc. apply option_bind_ext_fun. intros [m' str']. cbn.
  do 3 f_equal. unfold p2, p. rewrite !length_app, length_map. cbn. lia.
Qed.

(** C20: A printed number reads back: with any flags, width and length modifier
    (none, [h], [l], [L] or [Z]), [%d], [%i], [%u], [%x], [%X] and [%o] print, in a
    buffer with room for it, a text from which [NX_StrToUL] in the base of the
    conversion takes the argument, signed or unsigned as the conversion has it,
    whenever its magnitude is within [NX_ULONG_MAX].  The result counts the
    characters and nothing else is overwritten.  One case is different: [%u] takes
    an argument that is no [long] as [int] (sprintf.c:324), and prints one from 2^31
    on as a 64-bit number, 2^32 less, which does not read back. *)
Theorem printed_number_reads_back cs m buf bufLen fmt fl wd q cv n :
  str_at m fmt (number_format fl wd q cv) -> cv ∈ conv_chars -> q ∈ modifiers ->
  Forall (fun x => is_Some (flag_of x)) fl -> Forall (fun d => 0 <= d <= 9) wd -> head wd <> Some 0 -> value_of 10 wd < 2 ^ 31 ->
  1 < bufLen < 2 ^ 31 ->
  let v := arg_value cv (is_long q) n in
  let wrong := (cv =? 117) && negb (is_long q) && (2 ^ 31 <=? v) in
  exists out, number_text (if wrong then v - 2 ^ 32 else i64 v) (conv_base cv) (width_of wd) (-1) (flags_from 0 fl ||| conv_flag cv) = Some out /\
    (mapped m buf (S (length out)) -> apart buf (S (length out)) fmt (S (length (number_format fl wd q cv))) ->
     Z.of_nat (length out) < 2 ^ 31 ->
     exists m', NX_SNPrintf m buf bufLen fmt [conv_arg (is_long q) n] = Some (m', Z.of_nat (length out)) /\ str_at m' buf out /\
       (forall i, ~ (buf <= i < buf + S (length out)) -> m' !! i = m !! i) /\
       (wrong = false -> Z.abs v <= NX_ULONG_MAX -> exists e, NX_StrToUL cs m' buf (conv_base cv) = Some (u64 v, e))).
Proof.
  intros Hfmt Hcv Hq Hfl Hwd Hhd Hw Hbuf v wrong.
  replace (if wrong then v - 2 ^ 32 else i64 v) with (conv_value cv (is_long q) n) by (by rewrite conv_value_argument).
  set (num := conv_value cv (is_long q) n). pose proof (conv_range cv (is_long q) n) as Hrange. fold num in Hrange.
  destruct (conv_facts cv Hcv) as (_ & _ & _ & _ & Hc & _ & Hbase).
  set (type := flags_from 0 fl ||| conv_flag cv).
  destruct (number_text_reads cs num (conv_base cv) (width_of wd) (-1) type Hbase Hrange) as (out & Hout & Htext & Hread).
  exists out. split; [done|]. intros Hm Hap Hlen.
  assert (Hat : bytes_at (write m buf (out ++ [0])) buf (out ++ [0])) by apply write_at.
  exists (write m buf (out ++ [0])). split_and!; [|by split| |].
  - pose proof (conversion_eq m buf buf fmt fl wd q cv n Hfmt Hcv Hq Hfl Hwd Hhd Hw) as Hconv. fold num type in Hconv.
    assert ((conv_base cv <? 2) || (conv_base cv >? 36) = false) as Eb by (destruct Hbase as [->|[->| ->]]; reflexivity). unfold _Number in Hconv. rewrite Eb in Hconv.
    rewrite Hout, Some_bind, puts_eq, Some_bind in Hconv; [|eapply Forall_impl; [exact Htext|cbn; lia]|apply (mapped_le _ _ _ _ _ Hm); lia].
    pose proof (str_at_size _ _ _ Hfmt) as Hsz. destruct Hfmt as [_ Hfmt]. set (F := number_format fl wd q cv) in *.
    unfold NX_SNPrintf, NX_VSNPrintf. destruct (size m) as [|fuel]; [lia|]. remember (S fuel) as fuel1 eqn:Ef. cbn [VSNPrintf_loop].
    pose proof Hfmt as [Hp _]. rewrite (load_eq _ _ _ Hp), Some_bind. cbn [Z.eqb Pos.eqb orb negb].
    rewrite (proj2 (Z.eqb_neq bufLen 0)) by lia. rewrite Hconv, Some_bind. subst fuel1. cbn [VSNPrintf_loop].
    apply (bytes_at_app m fmt F [0]) in Hfmt as [_ [Hz _]]. rewrite <- (write_lookup_out m buf out) in Hz by (rewrite ?length_app; destruct Hap; lia).
    replace (fmt + length F - 1 + 1) with (fmt + length F) by lia. rewrite (load_eq _ _ _ Hz), Some_bind. cbn [Z.eqb orb]. rewrite Some_bind.
    rewrite store_byte; [|apply (write_mapped _ _ _ _ _ Hm); lia|done]. rewrite Some_bind, write_snoc.
    do 2 f_equal. replace (buf + length out - buf) with (Z.of_nat (length out)) by lia. apply i32_small. lia.
  - intros i Hi. rewrite write_lookup_out; [done|]. rewrite length_app. cbn. lia.
  - intros Hright Hmax. destruct (shown_argument cv (is_long q) n Hcv) as [Hsh Hu64].
    { intros -> Hl. unfold wrong in Hright. rewrite Hl in Hright. cbn in Hright. by apply Z.leb_gt in Hright. }
    fold num v in Hsh, Hu64. rewrite <- Hu64. rewrite <- Hsh in Hmax. apply Hread; [|done]. unfold type. unfold has at 1. rewrite Z.land_comm. fold (has SIGN (flags_from 0 fl ||| conv_flag cv)). rewrite has_or.
    unfold has. rewrite !(Z.land_comm SIGN). fold (has (flags_from 0 fl) SIGN) (has (conv_flag cv) SIGN). rewrite flags_from_sign.
    replace (has 0 SIGN || has (conv_flag cv) SIGN) with (conv_signed cv); [done|].
    unfold conv_chars in Hcv. rewrite !elem_of_cons, elem_of_nil in Hcv. by destruct Hcv as [->|[->|[->|[->|[->|[->|[]]]]]]].
Qed.

(** ** Concrete inputs *)

(** [%08lx] prints 48879 as 0000beef, and 48879 is read back. *)
Lemma printed_number_reads_back_witness :
  let m := write (write ∅ 100 [37; 48; 56; 108; 120; 0]) 200 (replicate 20 1) in
  exists m' e, NX_SNPrintf m 200 20 100 [ArgLong 48879] = Some (m', 8) /\ str_at m' 200 [48; 48; 48; 48; 98; 101; 101; 102] /\
    NX_StrToUL true m' 200 16 = Some (48879, e).
Proof.
  intros m. destruct (printed_number_reads_back true m 200 20 100 [48] [8] [108] 120 48879) as (out & Hout & H).
  - split; [by repeat constructor|vm_compute; tauto].
  - apply list_elem_of_In. cbn. tauto.
  - apply list_elem_of_In. cbn. tauto.
  - repeat constructor. by eexists.
  - repeat constructor; lia.
  - discriminate.
  - vm_compute. reflexivity.
  - lia.
  - vm_compute in Hout. injection Hout as <-. destruct H as (m' & H1 & H2 & _ & H3).
    + apply (mapped_le m 200 20); [|lia|cbn; lia]. apply (bytes_at_mapped m 200 (replicate 20 1)). vm_compute. tauto.
    + right. cbn. lia.
    + vm_compute. reflexivity.
    + destruct H3 as [e H3]; [reflexivity|by vm_compute|]. exists m', e. exact (conj H1 (conj H2 H3)).
Defined.

(** [%u] takes its argument as [int]: the unsigned 4294967295 is printed as
    18446744073709551615. *)
Example unsigned_printed_long :
  let m := write (write ∅ 100 [37; 117; 0]) 200 (replicate 30 1) in
  NX_SNPrintf m 200 30 100 [ArgInt (2 ^ 32 - 1)] =
    Some (write m 200 [49; 56; 52; 52; 54; 55; 52; 52; 48; 55; 51; 55; 48; 57; 53; 53; 49; 54; 49; 53; 0], 20).
Proof. vm_compute. reflexivity. Qed.

(** [bufLen] counts characters of the format, not of the output: [%d] in a
    buffer of 2 bytes stores 5. *)
Example length_counts_format :
  let m := write (write ∅ 100 [37; 100; 0]) 200 (replicate 30 1) in
  NX_SNPrintf m 200 2 100 [ArgInt 1234] = Some (write m 200 [49; 50; 51; 52; 0], 4).
Proof. vm_compute. reflexivity. Qed.
