(* ===== verification/Driver.v ===== *)
(** Drivers and devices: [io/driver.c].

    A call that never returns is [None]: a failed assertion, an access through a
    pointer to freed or null memory, or a lock that nobody will release.  The
    lists are sequences of the objects linked on them, first entry first.  The
    operations of a driver act on a world of their own. *)
From Stdlib Require Import String.
From stdpp Require Import strings.
From S2P Require Import Prelude Sync.
#[local] Open Scope Z_scope.

Definition NX_DEVICE_NAME_LEN : nat := 32.
Definition NX_DEVICE_OPEN_NEW_ONE : Z := 1.

Inductive NX_DeviceType :=
  | NX_DEVICE_TYPE_UNKNOWN | NX_DEVICE_TYPE_BLOCK | NX_DEVICE_TYPE_CHAR | NX_DEVICE_TYPE_NET | NX_DEVICE_TYPE_UART
  | NX_DEVICE_TYPE_VIRT | NX_DEVICE_TYPE_SOUND | NX_DEVICE_TYPE_SCREEN | NX_DEVICE_TYPE_INPUT | NX_DEVICE_TYPE_NR.

Definition type_index (t : NX_DeviceType) : Z :=
  match t with
  | NX_DEVICE_TYPE_UNKNOWN => 0 | NX_DEVICE_TYPE_BLOCK => 1 | NX_DEVICE_TYPE_CHAR => 2 | NX_DEVICE_TYPE_NET => 3
  | NX_DEVICE_TYPE_UART => 4 | NX_DEVICE_TYPE_VIRT => 5 | NX_DEVICE_TYPE_SOUND => 6 | NX_DEVICE_TYPE_SCREEN => 7
  | NX_DEVICE_TYPE_INPUT => 8 | NX_DEVICE_TYPE_NR => 9
  end.

(** The state of an object's own list node: by itself ([NX_ListInit]), on a
    list, or with null links ([NX_ListDel]). *)
Inductive node := Alone | Linked | Nulled.

Section drivers.
Context {World : Type}.

(** Addresses of devices and buffers are numbers; [outLen] is a result. *)
Record NX_DriverOps := mkOps {
  open : option (World -> Z -> Z -> World * NX_Error);
  close : option (World -> Z -> World * NX_Error);
  read : option (World -> Z -> Z -> Z -> Z -> World * NX_Error * Z);
  write : option (World -> Z -> Z -> Z -> Z -> World * NX_Error * Z);
  control : option (World -> Z -> Z -> Z -> World * NX_Error)
}.

Record NX_Driver := mkDriver {
  list_ : node;
  deviceListHead : list Z;
  type : NX_DeviceType;
  name : string;
  ops : option NX_DriverOps;
  locked : bool;
  flags : Z
}.

Record NX_Device := mkDevice {
  dlist : node;
  driver : option Z;
  reference : Z;
  lock : NX_Mutex;
  dname : string
}.

Record Drivers := mkDrivers {
  drivers : gmap Z NX_Driver;
  devices : gmap Z NX_Device;
  driverListHead : list Z;
  driverLock : bool;
  outside : World
}.

Definition with_drivers (s : Drivers) m := mkDrivers m (devices s) (driverListHead s) (driverLock s) (outside s).
Definition with_devices (s : Drivers) m := mkDrivers (drivers s) m (driverListHead s) (driverLock s) (outside s).
Definition with_list (s : Drivers) l := mkDrivers (drivers s) (devices s) l (driverLock s) (outside s).
Definition with_lock (s : Drivers) b := mkDrivers (drivers s) (devices s) (driverListHead s) b (outside s).
Definition with_world (s : Drivers) w := mkDrivers (drivers s) (devices s) (driverListHead s) (driverLock s) w.

Definition set_list (n : node) (d : NX_Driver) := mkDriver n (deviceListHead d) (type d) (name d) (ops d) (locked d) (flags d).
Definition set_devlist (l : list Z) (d : NX_Driver) := mkDriver (list_ d) l (type d) (name d) (ops d) (locked d) (flags d).
Definition set_locked (b : bool) (d : NX_Driver) := mkDriver (list_ d) (deviceListHead d) (type d) (name d) (ops d) b (flags d).
Definition set_dlist (n : node) (d : NX_Device) := mkDevice n (driver d) (reference d) (lock d) (dname d).
Definition set_driver (o : option Z) (d : NX_Device) := mkDevice (dlist d) o (reference d) (lock d) (dname d).
Definition set_reference (r : Z) (d : NX_Device) := mkDevice (dlist d) (driver d) r (lock d) (dname d).
Definition set_dlock (m : NX_Mutex) (d : NX_Device) := mkDevice (dlist d) (driver d) (reference d) m (dname d).

Definition upd_driver (s : Drivers) (id : Z) (f : NX_Driver -> NX_Driver) : option Drivers :=
  d ← drivers s !! id; Some (with_drivers s (<[id := f d]> (drivers s))).
Definition upd_device (s : Drivers) (id : Z) (f : NX_Device -> NX_Device) : option Drivers :=
  d ← devices s !! id; Some (with_devices s (<[id := f d]> (devices s))).

(** [NX_SpinLockIRQ (&driverLock, ..)] and [NX_SpinLockIRQ (&driver->lock, ..)]. *)
Definition take_lock (s : Drivers) : option Drivers := assert (negb (driverLock s));; Some (with_lock s true).
Definition drop_lock (s : Drivers) : Drivers := with_lock s false.
Definition take_driver_lock (s : Drivers) (id : Z) : option Drivers :=
  d ← drivers s !! id; assert (negb (locked d));; upd_driver s id (set_locked true).
Definition drop_driver_lock (s : Drivers) (id : Z) : option Drivers := upd_driver s id (set_locked false).

(** [NX_StrCopy] into the array of [NX_DEVICE_NAME_LEN] bytes. *)
Definition copy_name (n : string) : option string := assert (Nat.ltb (String.length n) NX_DEVICE_NAME_LEN);; Some n.

(** [id] is what [NX_MemAlloc] answers; the result is the driver, or null. *)
Definition NX_DriverCreate (s : Drivers) (nm : option string) (t : NX_DeviceType) (fl : Z) (o : option NX_DriverOps) (id : option Z)
    : option (Drivers * option Z) :=
  match nm, o with
  | Some nm, Some o =>
      if (type_index t <? 0) || (type_index t >=? type_index NX_DEVICE_TYPE_NR) then Some (s, None)
      else match id with
           | None => Some (s, None)
           | Some id =>
               nm ← copy_name nm;
               Some (with_drivers s (<[id := mkDriver Alone [] t nm (Some o) false fl]> (drivers s)), Some id)
           end
  | _, _ => Some (s, None)
  end.

Definition NX_DriverDestroy (s : Drivers) (id : option Z) : Drivers * NX_Error :=
  match id with
  | None => (s, NX_EINVAL)
  | Some id => (with_drivers s (delete id (drivers s)), NX_EOK)
  end.

(** [NX_ListForEachEntry] with [NX_StrCmp]: the first driver, device of that name. *)
Fixpoint find_driver (s : Drivers) (l : list Z) (nm : string) : option (option Z) :=
  match l with
  | [] => Some None
  | id :: l => d ← drivers s !! id; if String.eqb (name d) nm then Some (Some id) else find_driver s l nm
  end.

Fixpoint find_device (s : Drivers) (l : list Z) (nm : string) : option (option Z) :=
  match l with
  | [] => Some None
  | id :: l => d ← devices s !! id; if String.eqb (dname d) nm then Some (Some id) else find_device s l nm
  end.

(** A name already registered returns with the lock held. *)
Definition NX_DriverRegister (s : Drivers) (id : option Z) : option (Drivers * NX_Error) :=
  match id with
  | None => Some (s, NX_EINVAL)
  | Some id =>
      s ← take_lock s;
      d ← drivers s !! id;
      same ← find_driver s (driverListHead s) (name d);
      match same with
      | Some _ => Some (s, NX_EAGAIN)
      | None =>
          s ← upd_driver s id (set_list Linked);
          Some (drop_lock (with_list s (id :: driverListHead s)), NX_EOK)
      end
  end.

Definition NX_DriverUnregister (s : Drivers) (id : option Z) : option (Drivers * NX_Error) :=
  match id with
  | None => Some (s, NX_EINVAL)
  | Some id =>
      s ← take_lock s;
      d ← drivers s !! id;
      assert (match list_ d with Nulled => false | _ => true end);;
      s ← upd_driver s id (set_list Nulled);
      Some (drop_lock (with_list s (list_del id (driverListHead s))), NX_EOK)
  end.

Definition NX_DriverSearch (s : Drivers) (nm : option string) : option (Drivers * option Z) :=
  match nm with
  | None => Some (s, None)
  | Some nm => s ← take_lock s; r ← find_driver s (driverListHead s) nm; Some (drop_lock s, r)
  end.

Definition NX_DeviceCreate (s : Drivers) (nm : option string) (id : option Z) : option (Drivers * option Z) :=
  match nm, id with
  | Some nm, Some id =>
      nm ← copy_name nm;
      Some (with_devices s (<[id := mkDevice Alone None 0 (mkMutex (mkSpin 0 NX_SPIN_MAGIC) MUTEX_MAGIC) nm]> (devices s)), Some id)
  | _, _ => Some (s, None)
  end.

Definition NX_DeviceDestroy (s : Drivers) (id : option Z) : Drivers * NX_Error :=
  match id with
  | None => (s, NX_EINVAL)
  | Some id => (with_devices s (delete id (devices s)), NX_EOK)
  end.

Definition NX_DriverAttachDeviceObject (s : Drivers) (drv dev : option Z) : option (Drivers * NX_Error) :=
  match drv, dev with
  | Some drv, Some dev =>
      s ← take_driver_lock s drv;
      d ← drivers s !! drv; v ← devices s !! dev;
      same ← find_device s (deviceListHead d) (dname v);
      match same with
      | Some _ => Some (s, NX_EAGAIN)
      | None =>
          s ← upd_driver s drv (set_devlist (dev :: deviceListHead d));
          s ← upd_device s dev (fun v => set_driver (Some drv) (set_dlist Linked v));
          s ← drop_driver_lock s drv;
          Some (s, NX_EOK)
      end
  | _, _ => Some (s, NX_EINVAL)
  end.

(** The result is what is stored through [device]. *)
Definition NX_DriverDetachDeviceObject (s : Drivers) (drv : option Z) (nm : option string) : option (Drivers * NX_Error * option Z) :=
  match drv, nm with
  | Some drv, Some nm =>
      s ← take_driver_lock s drv;
      d ← drivers s !! drv;
      r ← find_device s (deviceListHead d) nm;
      match r with
      | Some dev =>
          s ← upd_driver s drv (set_devlist (list_del dev (deviceListHead d)));
          s ← upd_device s dev (set_dlist Alone);
          s ← drop_driver_lock s drv;
          Some (s, NX_EOK, Some dev)
      | None => s ← drop_driver_lock s drv; Some (s, NX_ENOSRCH, None)
      end
  | _, _ => Some (s, NX_EINVAL, None)
  end.

(** The device, if any, is what is stored through [outDevice], also when the
    name is refused. *)
Definition NX_DriverAttachDevice (s : Drivers) (drv : option Z) (nm : option string) (id : option Z) : option (Drivers * NX_Error * option Z) :=
  match drv, nm with
  | Some _, Some _ =>
      '(s, dev) ← NX_DeviceCreate s nm id;
      match dev with
      | None => Some (s, NX_ENOMEM, None)
      | Some _ => '(s, err) ← NX_DriverAttachDeviceObject s drv dev; Some (s, err, dev)
      end
  | _, _ => Some (s, NX_EINVAL, None)
  end.

Definition NX_DriverDetachDevice (s : Drivers) (drv : option Z) (nm : option string) : option (Drivers * NX_Error) :=
  match drv, nm with
  | Some _, Some _ =>
      '(s, err, dev) ← NX_DriverDetachDeviceObject s drv nm;
      if is_ok err then assert (bool_decide (is_Some dev));; Some (fst (NX_DeviceDestroy s dev), NX_EOK)
      else Some (s, err)
  | _, _ => Some (s, NX_EINVAL)
  end.

Fixpoint Cleanup_loop (s : Drivers) (drv : Z) (l : list Z) : option Drivers :=
  match l with
  | [] => Some s
  | dev :: l =>
      v ← devices s !! dev;
      '(s, _) ← NX_DriverDetachDevice s (Some drv) (Some (dname v));
      Cleanup_loop s drv l
  end.

Definition NX_DriverCleanup (s : Drivers) (nm : option string) : option (Drivers * NX_Error) :=
  match nm with
  | None => Some (s, NX_EINVAL)
  | Some _ =>
      '(s, r) ← NX_DriverSearch s nm;
      match r with
      | Some drv =>
          d ← drivers s !! drv;
          s ← Cleanup_loop s drv (deviceListHead d);
          '(s, _) ← NX_DriverUnregister s (Some drv);
          Some (fst (NX_DriverDestroy s (Some drv)), NX_EOK)
      | None => Some (s, NX_EOK)
      end
  end.

(** The devices of all registered drivers, in the order they are visited. *)
Fixpoint all_devices (s : Drivers) (l : list Z) : option (list Z) :=
  match l with
  | [] => Some []
  | id :: l => d ← drivers s !! id; r ← all_devices s l; Some (deviceListHead d ++ r)
  end.

Definition NX_DeviceSearchLocked (s : Drivers) (nm : string) : option (option Z) :=
  l ← all_devices s (driverListHead s); find_device s l nm.

Definition NX_DeviceSearch (s : Drivers) (nm : string) : option (Drivers * option Z) :=
  s ← take_lock s; r ← NX_DeviceSearchLocked s nm; Some (drop_lock s, r).

Definition NX_DeviceEnum (s : Drivers) (offset : Z) : option (Drivers * option Z) :=
  s ← take_lock s; l ← all_devices s (driverListHead s); Some (drop_lock s, zlookup l offset).

(** ** Operations on a device *)

(** Whether this open or close is passed on to the driver. *)
Definition passed_on (d : NX_Driver) (v : NX_Device) (count : Z) : bool :=
  nz (flags d &&& NX_DEVICE_OPEN_NEW_ONE) || (reference v =? count).

Definition NX_DeviceOpen (s : Drivers) (nm : option string) (fl : Z) : option (Drivers * NX_Error * option Z) :=
  match nm with
  | None => Some (s, NX_EINVAL, None)
  | Some nm =>
      s ← take_lock s;
      r ← NX_DeviceSearchLocked s nm;
      match r with
      | None => Some (drop_lock s, NX_ENOSRCH, None)
      | Some dev =>
          s ← upd_device s dev (fun v => set_reference (reference v + 1) v);
          let s := drop_lock s in
          v ← devices s !! dev;
          drv ← driver v; d ← drivers s !! drv;
          match (ops d ≫= open : option (World -> Z -> Z -> World * NX_Error)) with
          | Some f =>
              if passed_on d v 1 then
                let (w, err) := f (outside s) dev fl in
                let s := with_world s w in
                if is_ok err then Some (s, NX_EOK, Some dev) else Some (s, err, None)
              else Some (s, NX_EOK, Some dev)
          | None => Some (s, NX_EOK, Some dev)
          end
      end
  end.

(** [NX_MutexLock (&device->lock)]; nobody else holds it while we run. *)
Definition lock_device (s : Drivers) (dev : Z) : option Drivers :=
  v ← devices s !! dev;
  match MutexLock_turn (Some (lock v)) with
  | (Some m, Some _) => upd_device s dev (set_dlock m)
  | _ => None
  end.
Definition unlock_device (s : Drivers) (dev : Z) : option Drivers :=
  v ← devices s !! dev;
  match NX_MutexUnlock (Some (lock v)) with
  | (Some m, _) => upd_device s dev (set_dlock m)
  | _ => None
  end.

Definition NX_DeviceClose (s : Drivers) (dev : option Z) : option (Drivers * NX_Error) :=
  match dev with
  | None => Some (s, NX_EINVAL)
  | Some dev =>
      v ← devices s !! dev; drv ← driver v; d ← drivers s !! drv;
      if reference v <=? 0 then Some (s, NX_EPERM)
      else
        s ← upd_device s dev (fun v => set_reference (reference v - 1) v);
        s ← lock_device s dev;
        v ← devices s !! dev;
        let '(w, err) :=
          match (ops d ≫= close : option (World -> Z -> World * NX_Error)) with
          | Some f => if passed_on d v 0 then f (outside s) dev else (outside s, NX_EOK)
          | None => (outside s, NX_EOK)
          end in
        s ← unlock_device (with_world s w) dev;
        Some (s, err)
  end.

(** Reading, writing and control: [f] is the driver's operation, if it has one. *)
Definition device_io {A} (s : Drivers) (dev : Z) (f : NX_DriverOps -> option (World -> World * NX_Error * A)) : option (Drivers * NX_Error * option A) :=
  v ← devices s !! dev; drv ← driver v; d ← drivers s !! drv;
  s ← lock_device s dev;
  let '(w, err, out) :=
    match ops d with
    | None => (outside s, NX_EOK, None)
    | Some o =>
        match f o with
        | Some f => let '(w, err, x) := f (outside s) in (w, err, if is_ok err then Some x else None)
        | None => (outside s, NX_ENOFUNC, None)
        end
    end in
  s ← unlock_device (with_world s w) dev;
  Some (s, err, out).

Definition NX_DeviceRead (s : Drivers) (dev : option Z) (buf off len : Z) : option (Drivers * NX_Error * option Z) :=
  match dev with
  | Some dev =>
      if (buf =? 0) || negb (nz len) then Some (s, NX_EINVAL, None)
      else device_io s dev (fun o => f ← read o; Some (fun w => f w dev buf off len))
  | None => Some (s, NX_EINVAL, None)
  end.

Definition NX_DeviceWrite (s : Drivers) (dev : option Z) (buf off len : Z) : option (Drivers * NX_Error * option Z) :=
  match dev with
  | Some dev =>
      if (buf =? 0) || negb (nz len) then Some (s, NX_EINVAL, None)
      else device_io s dev (fun o => f ← write o; Some (fun w => f w dev buf off len))
  | None => Some (s, NX_EINVAL, None)
  end.

Definition NX_DeviceControl (s : Drivers) (dev : option Z) (cmd arg : Z) : option (Drivers * NX_Error) :=
  match dev with
  | Some dev => '(s, err, _) ← device_io s dev (fun o => f ← control o; Some (fun w => (f w dev cmd arg, 0))); Some (s, err)
  | None => Some (s, NX_EINVAL)
  end.

(** ** The registry *)
Implicit Types (s : Drivers) (d : NX_Driver) (v : NX_Device) (drv dev id : Z) (nm : string).

(** Driver [drv] is registered; device [dev] is attached to it under a name. *)
Definition registered s drv nm : Prop := drv ∈ driverListHead s /\ exists d, drivers s !! drv = Some d /\ name d = nm.
Definition attached s drv dev nm : Prop := exists d v, drivers s !! drv = Some d /\ dev ∈ deviceListHead d /\ devices s !! dev = Some v /\ dname v = nm.

Definition mutex_free (m : NX_Mutex) : Prop := m = mkMutex (mkSpin 0 NX_SPIN_MAGIC) MUTEX_MAGIC.

Record driver_ok s drv d : Prop := {
  do_unlocked : locked d = false;
  do_nodup : NoDup (deviceListHead d);
  do_devices : forall dev, dev ∈ deviceListHead d -> exists v, devices s !! dev = Some v /\ driver v = Some drv;
  do_names : forall dev1 dev2 nm, attached s drv dev1 nm -> attached s drv dev2 nm -> dev1 = dev2
}.

(** No lock is held, names are unique, and every device on a list is there and
    belongs to the driver of the list. *)
Record registry_ok s : Prop := {
  rg_unlocked : driverLock s = false;
  rg_nodup : NoDup (driverListHead s);
  rg_listed : forall drv, drv ∈ driverListHead s -> exists d, drivers s !! drv = Some d /\ list_ d = Linked;
  rg_drivers : forall drv d, drivers s !! drv = Some d -> driver_ok s drv d;
  rg_names : forall drv1 drv2 nm, registered s drv1 nm -> registered s drv2 nm -> drv1 = drv2;
  rg_mutex : forall dev v, devices s !! dev = Some v -> mutex_free (lock v)
}.

Lemma find_driver_spec s l nm : (forall drv, drv ∈ l -> is_Some (drivers s !! drv)) ->
  exists r, find_driver s l nm = Some r /\
    match r with
    | Some drv => drv ∈ l /\ exists d, drivers s !! drv = Some d /\ name d = nm
    | None => forall drv d, drv ∈ l -> drivers s !! drv = Some d -> name d <> nm
    end.
Proof.
  induction l as [|drv l IH]; intros Hl; [exists None; split; [done|]; by intros ? ? ?%elem_of_nil|]. cbn [find_driver].
  destruct (Hl drv) as [d Hd]; [left|]. rewrite Hd, Some_bind. destruct (String.eqb_spec (name d) nm) as [E|E].
  - exists (Some drv). split; [done|]. split; [left|by exists d].
  - destruct IH as (r & Hr & Hcase); [intros; apply Hl; by right|]. exists r. split; [done|]. destruct r as [drv'|].
    + destruct Hcase as [Hin ?]. split; [by right|done].
    + intros drv' d' [->|Hin]%elem_of_cons Hd'; [congruence|by apply (Hcase drv')].
Qed.

Lemma find_device_spec s l nm : (forall dev, dev ∈ l -> is_Some (devices s !! dev)) ->
  exists r, find_device s l nm = Some r /\
    match r with
    | Some dev => dev ∈ l /\ exists v, devices s !! dev = Some v /\ dname v = nm
    | None => forall dev v, dev ∈ l -> devices s !! dev = Some v -> dname v <> nm
    end.
Proof.
  induction l as [|dev l IH]; intros Hl; [exists None; split; [done|]; by intros ? ? ?%elem_of_nil|]. cbn [find_device].
  destruct (Hl dev) as [v Hv]; [left|]. rewrite Hv, Some_bind. destruct (String.eqb_spec (dname v) nm) as [E|E].
  - exists (Some dev). split; [done|]. split; [left|by exists v].
  - destruct IH as (r & Hr & Hcase); [intros; apply Hl; by right|]. exists r. split; [done|]. destruct r as [dev'|].
    + destruct Hcase as [Hin ?]. split; [by right|done].
    + intros dev' v' [->|Hin]%elem_of_cons Hv'; [congruence|by apply (Hcase dev')].
Qed.

Lemma take_lock_free s : driverLock s = false -> take_lock s = Some (with_lock s true).
Proof. unfold take_lock. by intros ->. Qed.

Lemma take_lock_held s : driverLock s = true -> take_lock s = None.
Proof. unfold take_lock. by intros ->. Qed.

Lemma drop_with_lock s b : driverLock s = false -> drop_lock (with_lock s b) = s.
Proof. destruct s; cbn. by intros ->. Qed.

Lemma find_driver_ext s s' l nm : drivers s' = drivers s -> find_driver s' l nm = find_driver s l nm.
Proof.
  intros E. induction l as [|x l IH]; [done|]. cbn [find_driver]. rewrite E. destruct (drivers s !! x); [|done].
  rewrite !Some_bind. by destruct (String.eqb _ _).
Qed.

Lemma find_device_ext s s' l nm : devices s' = devices s -> find_device s' l nm = find_device s l nm.
Proof.
  intros E. induction l as [|x l IH]; [done|]. cbn [find_device]. rewrite E. destruct (devices s !! x); [|done].
  rewrite !Some_bind. by destruct (String.eqb _ _).
Qed.

Lemma all_devices_ext s s' l : drivers s' = drivers s -> all_devices s' l = all_devices s l.
Proof. intros E. induction l as [|x l IH]; [done|]. cbn [all_devices]. by rewrite E, IH. Qed.

Lemma find_driver_lock s b l nm : find_driver (with_lock s b) l nm = find_driver s l nm.
Proof. by apply find_driver_ext. Qed.

Lemma listed_present s : registry_ok s -> forall drv, drv ∈ driverListHead s -> is_Some (drivers s !! drv).
Proof. intros Hs drv Hin. destruct (rg_listed s Hs drv Hin) as (d & -> & _). by eexists. Qed.

Lemma owned_present s drv d : registry_ok s -> drivers s !! drv = Some d -> forall dev, dev ∈ deviceListHead d -> is_Some (devices s !! dev).
Proof. intros Hs Hd dev Hin. destruct (do_devices s drv d (rg_drivers s Hs drv d Hd) dev Hin) as (v & -> & _). by eexists. Qed.

Lemma driver_search_spec s nm : registry_ok s ->
  exists r, NX_DriverSearch s (Some nm) = Some (s, r) /\ forall drv, r = Some drv <-> registered s drv nm.
Proof.
  intros Hs. unfold NX_DriverSearch. rewrite take_lock_free, Some_bind by apply (rg_unlocked s Hs).
  destruct (find_driver_spec s (driverListHead s) nm (listed_present s Hs)) as (r & Hr & Hcase).
  exists r.
  cbn [driverListHead with_lock]. rewrite find_driver_lock, Hr, Some_bind, drop_with_lock by apply (rg_unlocked s Hs). split; [done|]. intros drv. split.
  - intros ->. done.
  - intros Hreg. destruct r as [drv'|]; [|exfalso].
    + f_equal. by apply (rg_names s Hs drv' drv nm).
    + destruct Hreg as [Hin (d & Hd & Hnm)]. by apply (Hcase drv d).
Qed.

Lemma all_devices_spec s l : (forall drv, drv ∈ l -> is_Some (drivers s !! drv)) ->
  exists r, all_devices s l = Some r /\
    forall dev, dev ∈ r <-> exists drv d, drv ∈ l /\ drivers s !! drv = Some d /\ dev ∈ deviceListHead d.
Proof.
  induction l as [|drv l IH]; intros Hl.
  - exists []. split; [done|]. intros dev. split; [by intros ?%elem_of_nil|]. by intros (? & ? & ?%elem_of_nil & _).
  - cbn [all_devices]. destruct (Hl drv) as [d Hd]; [left|]. rewrite Hd, Some_bind.
    destruct IH as (r & Hr & Hiff); [intros; apply Hl; by right|]. rewrite Hr, Some_bind. eexists. split; [done|].
    intros dev. rewrite elem_of_app, Hiff. split.
    + intros [Hin|(drv' & d' & Hin & ?)]; [exists drv, d; split; [left|done]|exists drv', d'; split; [by right|done]].
    + intros (drv' & d' & [->|Hin]%elem_of_cons & Hd' & Hdev); [left; congruence|right; by exists drv', d'].
Qed.

Lemma device_search_spec s nm : registry_ok s ->
  exists r, NX_DeviceSearch s nm = Some (s, r) /\
    match r with
    | Some dev => exists drv, drv ∈ driverListHead s /\ attached s drv dev nm
    | None => forall drv dev, drv ∈ driverListHead s -> ~ attached s drv dev nm
    end.
Proof.
  intros Hs. unfold NX_DeviceSearch. rewrite take_lock_free, Some_bind by apply (rg_unlocked s Hs). unfold NX_DeviceSearchLocked.
  rewrite (all_devices_ext s (with_lock s true)) by done. cbn [with_lock driverListHead].
  destruct (all_devices_spec s _ (listed_present s Hs)) as (l & Hl & Hiff). rewrite Hl, Some_bind, (find_device_ext s (with_lock s true)) by done.
  destruct (find_device_spec s l nm) as (r & Hr & Hcase).
  { intros dev (drv & d & _ & Hd & Hin)%Hiff. by apply (owned_present s drv d). }
  rewrite Hr, Some_bind, drop_with_lock by apply (rg_unlocked s Hs). exists r. split; [done|]. destruct r as [dev|].
  - destruct Hcase as [(drv & d & Hin & Hd & Hdev)%Hiff (v & Hv & Hnm)]. exists drv. split; [done|]. by exists d, v.
  - intros drv dev Hin (d & v & Hd & Hdev & Hv & Hnm). apply (Hcase dev v); [apply Hiff; by exists drv, d|done|done].
Qed.

Lemma attached_ext s s' : devices s' = devices s -> (forall drv, deviceListHead <$> drivers s' !! drv = deviceListHead <$> drivers s !! drv) ->
  forall drv dev nm, attached s' drv dev nm <-> attached s drv dev nm.
Proof.
  intros Ev Ed drv dev nm. specialize (Ed drv). unfold attached. rewrite Ev.
  destruct (drivers s' !! drv) as [d'|], (drivers s !! drv) as [d|]; try done; [injection Ed as Ed];
    split; intros (x & v & Hx & Hin & Hv); try done; injection Hx as <-; eexists _, v; (split; [done|]); (split; [congruence|done]).
Qed.

(** Registering and unregistering touch the node of one driver only. *)
Lemma registry_node s drv d n l : registry_ok s -> drivers s !! drv = Some d -> NoDup l ->
  (forall x, x ∈ l -> x <> drv -> x ∈ driverListHead s) -> (drv ∈ l -> n = Linked) ->
  (drv ∈ l -> forall x, registered s x (name d) -> x = drv) ->
  registry_ok (with_list (with_drivers s (<[drv := set_list n d]> (drivers s))) l).
Proof.
  intros Hs Hd Hnd Hl Hn Hnm. pose proof Hs as [Hu _ Hli Hdr Hna Hmu].
  set (s' := with_list (with_drivers s (<[drv := set_list n d]> (drivers s))) l).
  assert (Hlook : forall x, deviceListHead <$> drivers s' !! x = deviceListHead <$> drivers s !! x).
  { intros x. cbn. destruct (decide (x = drv)) as [->|Hne]; [by rewrite lookup_insert_eq, Hd|by rewrite lookup_insert_ne]. }
  pose proof (attached_ext s s' eq_refl Hlook) as Hatt.
  assert (Hname : forall x nm, registered s' x nm -> (x = drv /\ drv ∈ l /\ nm = name d) \/ (x <> drv /\ registered s x nm)).
  { intros x nm [Hin (d' & Hd' & <-)]. cbn in Hd'. destruct (decide (x = drv)) as [->|Hne].
    - left. rewrite lookup_insert_eq in Hd'. injection Hd' as <-. done.
    - right. rewrite lookup_insert_ne in Hd' by done. split; [done|]. split; [by apply Hl|]. by exists d'. }
  split; try done.
  - intros x Hx. cbn in Hx |- *. destruct (decide (x = drv)) as [->|Hne].
    + rewrite lookup_insert_eq. eexists. split; [done|]. by apply Hn.
    + rewrite lookup_insert_ne by done. by apply Hli, Hl.
  - intros x d' Hd'. assert (exists d0, drivers s !! x = Some d0 /\ deviceListHead d' = deviceListHead d0 /\ locked d' = locked d0) as (d0 & Hd0 & E & El).
    { cbn in Hd'. destruct (decide (x = drv)) as [->|Hne]; [rewrite lookup_insert_eq in Hd'; injection Hd' as <-; by exists d|].
      rewrite lookup_insert_ne in Hd' by done. by exists d'. }
    destruct (Hdr x d0 Hd0) as [H1 H2 H3 H4]. split; [congruence|congruence|by rewrite E|].
    intros dev1 dev2 nm H5%Hatt H6%Hatt. by apply (H4 dev1 dev2 nm).
  - intros x1 x2 nm [(-> & Hin & ->)|[Hne1 H1]]%Hname [(-> & Hin2 & E2)|[Hne2 H2]]%Hname; try done.
    + symmetry. apply Hnm; [done|]. done.
    + subst nm. by apply Hnm.
    + by apply (Hna x1 x2 nm).
Qed.

Lemma register_spec s drv d : registry_ok s -> drivers s !! drv = Some d -> drv ∉ driverListHead s ->
  exists r, NX_DriverSearch s (Some (name d)) = Some (s, r) /\
    match r with
    | Some _ => exists s', NX_DriverRegister s (Some drv) = Some (s', NX_EAGAIN) /\ driverLock s' = true
    | None => exists s', NX_DriverRegister s (Some drv) = Some (s', NX_EOK) /\ registry_ok s' /\
        driverListHead s' = drv :: driverListHead s /\ devices s' = devices s /\ drivers s' = <[drv := set_list Linked d]> (drivers s)
    end.
Proof.
  intros Hs Hd Hni. destruct (driver_search_spec s (name d) Hs) as (r & Hr & Hiff). exists r. split; [done|].
  unfold NX_DriverSearch in Hr. unfold NX_DriverRegister. pose proof (take_lock_free s (rg_unlocked s Hs)) as Htake.
  rewrite Htake in Hr |- *. rewrite Some_bind. rewrite Some_bind in Hr.
  cbn [drivers with_lock driverListHead] in *. rewrite Hd, Some_bind. rewrite find_driver_lock in *.
  destruct (find_driver s (driverListHead s) (name d)) as [r'|]; [|done]. rewrite Some_bind. cbn in Hr. injection Hr as ? ->. destruct r as [x|].
  { eexists. split; [done|]. done. }
  unfold upd_driver. cbn [drivers with_lock]. rewrite Hd, Some_bind. eexists. split; [done|].
  pose proof (registry_node s drv d Linked (drv :: driverListHead s) Hs Hd) as Hok.
  unfold drop_lock, with_list, with_drivers, with_lock in *. cbn in *. rewrite (rg_unlocked s Hs) in Hok. split; [|done]. apply Hok.
  - constructor; [done|apply (rg_nodup s Hs)].
  - intros x [->|Hx]%elem_of_cons ?; done.
  - done.
  - intros _ x Hx. destruct (Hiff x) as [_ H1]. by specialize (H1 Hx).
Qed.

(** Attaching and detaching change the list of one driver and one device. *)
Definition relist s drv d (l : list Z) (vs : gmap Z NX_Device) : Drivers :=
  with_devices (with_drivers s (<[drv := set_devlist l d]> (drivers s))) vs.

Lemma relist_attached s drv d l vs : drivers s !! drv = Some d ->
  (forall x d', x <> drv -> drivers s !! x = Some d' -> forall dev, dev ∈ deviceListHead d' -> vs !! dev = devices s !! dev) ->
  forall x dev nm, attached (relist s drv d l vs) x dev nm <->
    (x <> drv /\ attached s x dev nm) \/ (x = drv /\ dev ∈ l /\ exists v, vs !! dev = Some v /\ dname v = nm).
Proof.
  intros Hd Ho x dev nm. unfold attached, relist. cbn. destruct (decide (x = drv)) as [->|Hne].
  - rewrite lookup_insert_eq. split.
    + intros (d' & v & [= <-] & Hin & Hv & Hnm). right. split; [done|]. split; [done|by exists v].
    + intros [[? _]|(_ & Hin & v & Hv)]; [done|]. eexists _, v. split; [done|]. done.
  - rewrite lookup_insert_ne by done. split.
    + intros (d' & v & Hd' & Hin & Hv & Hnm). left. split; [done|]. exists d', v. rewrite <- (Ho x d') by done. done.
    + intros [[_ (d' & v & Hd' & Hin & Hv & Hnm)]|[? _]]; [|done]. exists d', v. rewrite (Ho x d') by done. done.
Qed.

Lemma relist_ok s drv d l vs : registry_ok s -> drivers s !! drv = Some d -> NoDup l ->
  (forall dev, dev ∈ l -> exists v, vs !! dev = Some v /\ driver v = Some drv) ->
  (forall x d', x <> drv -> drivers s !! x = Some d' -> forall dev, dev ∈ deviceListHead d' -> vs !! dev = devices s !! dev) ->
  (forall dev1 dev2 v1 v2, dev1 ∈ l -> dev2 ∈ l -> vs !! dev1 = Some v1 -> vs !! dev2 = Some v2 -> dname v1 = dname v2 -> dev1 = dev2) ->
  (forall dev v, vs !! dev = Some v -> mutex_free (lock v)) ->
  registry_ok (relist s drv d l vs).
Proof.
  intros Hs Hd Hnd Hl Ho Hnm Hmu. pose proof Hs as [Hu Hn Hli Hdr Hna _]. pose proof (relist_attached s drv d l vs Hd Ho) as Hatt.
  assert (Hnames : forall x nm, registered (relist s drv d l vs) x nm -> registered s x nm).
  { intros x nm [Hin (d' & Hd' & Hnm')]. split; [done|]. cbn in Hd'. destruct (decide (x = drv)) as [->|Hne].
    - rewrite lookup_insert_eq in Hd'. injection Hd' as <-. by exists d.
    - rewrite lookup_insert_ne in Hd' by done. by exists d'. }
  split; try done.
  - intros x Hx. destruct (Hli x Hx) as (d' & Hd' & Hd''). cbn. destruct (decide (x = drv)) as [->|Hne].
    + rewrite lookup_insert_eq. eexists. split; [done|]. cbn. congruence.
    + rewrite lookup_insert_ne by done. by exists d'.
  - intros x d' Hd'. cbn in Hd'. destruct (decide (x = drv)) as [->|Hne].
    + rewrite lookup_insert_eq in Hd'. injection Hd' as <-. destruct (Hdr drv d Hd) as [H1 _ _ _]. split; [done|done|done|].
      intros dev1 dev2 nm [[? _]|(_ & H5 & v1 & H6 & H7)]%Hatt [[? _]|(_ & H8 & v2 & H9 & H10)]%Hatt; try done. apply (Hnm dev1 dev2 v1 v2); congruence.
    + rewrite lookup_insert_ne in Hd' by done. destruct (Hdr x d' Hd') as [H1 H2 H3 H4]. split; [done|done| |].
      * intros dev Hin. destruct (H3 dev Hin) as (v & Hv & ?). exists v. cbn. by rewrite (Ho x d').
      * intros dev1 dev2 nm [[_ H5]|[? _]]%Hatt [[_ H6]|[? _]]%Hatt; try done. by apply (H4 dev1 dev2 nm).
  - intros x1 x2 nm H1%Hnames H2%Hnames. by apply (Hna x1 x2 nm).
Qed.

Lemma upd_driver_eq s drv d f : drivers s !! drv = Some d -> upd_driver s drv f = Some (with_drivers s (<[drv := f d]> (drivers s))).
Proof. unfold upd_driver. by intros ->. Qed.
Lemma upd_device_eq s dev v f : devices s !! dev = Some v -> upd_device s dev f = Some (with_devices s (<[dev := f v]> (devices s))).
Proof. unfold upd_device. by intros ->. Qed.

(** A device is on the list of its own driver only. *)
Lemma elsewhere s drv dev v : registry_ok s -> devices s !! dev = Some v -> driver v = Some drv ->
  forall x d', x <> drv -> drivers s !! x = Some d' -> dev ∉ deviceListHead d'.
Proof. intros Hs Hv Hdv x d' Hne Hd' Hin. destruct (do_devices s x d' (rg_drivers s Hs x d' Hd') dev Hin) as (v' & Hv' & Hdv'). congruence. Qed.

Lemma attach_spec s drv d id nm : registry_ok s -> drivers s !! drv = Some d -> devices s !! id = None -> (String.length nm < 32)%nat ->
  exists s' err, NX_DriverAttachDevice s (Some drv) (Some nm) (Some id) = Some (s', err, Some id) /\
    (err = NX_EOK /\ (forall dev, ~ attached s drv dev nm) /\ registry_ok s' /\ driverListHead s' = driverListHead s /\
       (forall x y n, attached s' x y n <-> attached s x y n \/ (x = drv /\ y = id /\ n = nm)) /\
       (forall x, x <> id -> devices s' !! x = devices s !! x) \/
     err = NX_EAGAIN /\ (exists dev, attached s drv dev nm) /\ exists d', drivers s' !! drv = Some d' /\ locked d' = true).
Proof.
  intros Hs Hd Hid Hnm. pose proof (rg_drivers s Hs drv d Hd) as [Hun Hnd Hdv Hna].
  unfold NX_DriverAttachDevice, NX_DeviceCreate, copy_name. rewrite (proj2 (Nat.ltb_lt _ _)) by done. rewrite assert_true, !Some_bind.
  set (v := mkDevice Alone None 0 _ nm). set (s1 := with_devices s (<[id := v]> (devices s))).
  assert (Hfree : forall x d', drivers s !! x = Some d' -> id ∉ deviceListHead d').
  { intros x d' Hd' Hin. destruct (owned_present s x d' Hs Hd' id Hin). congruence. }
  unfold NX_DriverAttachDeviceObject, take_driver_lock. change (drivers s1) with (drivers s). rewrite Hd, Some_bind, Hun. cbn [negb].
  rewrite assert_true, (upd_driver_eq s1 drv d) by done. rewrite Some_bind. cbn [with_drivers drivers]. rewrite lookup_insert_eq, Some_bind.
  set (s2 := with_drivers s1 _). change (devices s2 !! id) with (<[id := v]> (devices s) !! id). rewrite lookup_insert_eq, Some_bind. cbn [set_locked deviceListHead].
  destruct (find_device_spec s2 (deviceListHead d) (dname v)) as (r & Hr & Hcase).
  { intros x Hx. cbn. apply lookup_insert_is_Some'. right. by apply (owned_present s drv d). }
  rewrite Hr, Some_bind. destruct r as [dev|].
  { eexists _, _. split; [done|]. right. split; [done|]. split; [|eexists; split; [apply lookup_insert_eq|done]].
    destruct Hcase as [Hin (v' & Hv' & Hn')]. exists dev, d, v'. cbn in Hv'. rewrite lookup_insert_ne in Hv' by (intros ->; by apply (Hfree drv d)). done. }
  rewrite (upd_driver_eq s2 drv (set_locked true d)) by apply lookup_insert_eq. rewrite Some_bind.
  rewrite (upd_device_eq _ id v) by apply lookup_insert_eq. rewrite Some_bind. unfold drop_driver_lock.
  rewrite (upd_driver_eq _ drv (set_devlist (id :: deviceListHead d) (set_locked true d))) by apply lookup_insert_eq. rewrite !Some_bind.
  eexists _, _. split; [done|]. left. split; [done|].
  set (v1 := set_driver (Some drv) (set_dlist Linked v)).
  match goal with |- context [registry_ok ?st] => assert (E : st = relist s drv d (id :: deviceListHead d) (<[id := v1]> (devices s))) end.
  { unfold relist, with_drivers, with_devices. cbn. rewrite !insert_insert_eq. do 2 f_equal. unfold set_locked, set_devlist. cbn. by rewrite Hun. }
  rewrite E. clear E.
  assert (Hne : forall x, x ∈ deviceListHead d -> x <> id) by (intros x Hx ->; by apply (Hfree drv d)).
  assert (Hother : forall x d', x <> drv -> drivers s !! x = Some d' -> forall dev, dev ∈ deviceListHead d' -> <[id := v1]> (devices s) !! dev = devices s !! dev).
  { intros x d' _ Hd' dev Hin. apply lookup_insert_ne. intros ->. by apply (Hfree x d'). }
  assert (Hnone : forall dev, ~ attached s drv dev nm).
  { intros dev (d0 & v0 & Hd0 & Hin & Hv0 & Hn0). rewrite Hd in Hd0. injection Hd0 as <-. apply (Hcase dev v0); [done| |done].
    cbn. rewrite lookup_insert_ne; [done|]. intros <-. by apply (Hne id). }
  split; [done|]. split; [|split; [done|split]].
  - apply relist_ok; try done.
    + constructor; [|done]. by apply (Hfree drv d).
    + intros dev [->|Hin]%elem_of_cons; [rewrite lookup_insert_eq; by eexists|]. rewrite lookup_insert_ne by (symmetry; by apply Hne). by apply Hdv.
    + intros dev1 dev2 w1 w2 [->|Hin1]%elem_of_cons [->|Hin2]%elem_of_cons; rewrite ?lookup_insert_eq, ?lookup_insert_ne by (symmetry; by apply Hne); intros Hw1 Hw2 Hn; try done.
      * injection Hw1 as <-. destruct (Hnone dev2). by exists d, w2.
      * injection Hw2 as <-. destruct (Hnone dev1). by exists d, w1.
      * apply (Hna dev1 dev2 (dname w1)); [by exists d, w1|by exists d, w2].
    + intros dev w [[<- <-]|[_ Hw]]%lookup_insert_Some; [done|by apply (rg_mutex s Hs dev)].
  - intros x y n. rewrite relist_attached by done. split.
    + intros [[_ H1]|(-> & [->|Hin]%elem_of_cons & w & Hw & Hn)]; [by left|right; rewrite lookup_insert_eq in Hw; by injection Hw as <-|].
      left. rewrite lookup_insert_ne in Hw by (symmetry; by apply Hne). by exists d, w.
    + intros [(d0 & w & Hd0 & Hin & Hw & Hn)|(-> & -> & ->)].
      * destruct (decide (x = drv)) as [->|Hx]; [right|left; split; [done|by exists d0, w]]. rewrite Hd in Hd0. injection Hd0 as <-.
        split; [done|]. split; [by right|]. exists w. rewrite lookup_insert_ne by (symmetry; by apply Hne). done.
      * right. split; [done|]. split; [left|]. exists v1. by rewrite lookup_insert_eq.
  - intros x Hx. cbn. by rewrite lookup_insert_ne.
Qed.

Lemma relock s drv d : registry_ok s -> drivers s !! drv = Some d ->
  with_drivers s (<[drv := set_locked false (set_locked true d)]> (drivers s)) = s.
Proof.
  intros Hs Hd. pose proof (do_unlocked s drv d (rg_drivers s Hs drv d Hd)) as Hun.
  replace (set_locked false (set_locked true d)) with d by (destruct d; cbn in *; by subst). rewrite insert_id by done. by destruct s.
Qed.

Lemma detach_none s drv d nm : registry_ok s -> drivers s !! drv = Some d -> (forall dev, ~ attached s drv dev nm) ->
  NX_DriverDetachDevice s (Some drv) (Some nm) = Some (s, NX_ENOSRCH).
Proof.
  intros Hs Hd Hno. pose proof (do_unlocked s drv d (rg_drivers s Hs drv d Hd)) as Hun.
  unfold NX_DriverDetachDevice, NX_DriverDetachDeviceObject, take_driver_lock. rewrite Hd, Some_bind, Hun. cbn [negb].
  rewrite assert_true, (upd_driver_eq s drv d) by done. rewrite Some_bind. cbn [with_drivers drivers]. rewrite lookup_insert_eq, Some_bind.
  set (s2 := with_drivers s _). cbn [set_locked deviceListHead].
  destruct (find_device_spec s2 (deviceListHead d) nm) as (r & Hr & Hcase); [by apply (owned_present s drv d)|]. rewrite Hr, Some_bind.
  destruct r as [dev|]; [destruct Hcase as [Hin (v & Hv & Hn)]; destruct (Hno dev); by exists d, v|].
  unfold drop_driver_lock. rewrite (upd_driver_eq s2 drv (set_locked true d)) by apply lookup_insert_eq. rewrite !Some_bind.
  assert (with_drivers s2 (<[drv := set_locked false (set_locked true d)]> (drivers s2)) = s) as ->; [|done].
  unfold s2, with_drivers at 1. cbn. rewrite insert_insert_eq. by apply relock.
Qed.

Lemma detach_spec s drv d dev nm : registry_ok s -> drivers s !! drv = Some d -> attached s drv dev nm ->
  NX_DriverDetachDevice s (Some drv) (Some nm) = Some (relist s drv d (list_del dev (deviceListHead d)) (delete dev (devices s)), NX_EOK).
Proof.
  intros Hs Hd Hatt. pose proof (rg_drivers s Hs drv d Hd) as [Hun Hnd Hdv Hna].
  unfold NX_DriverDetachDevice, NX_DriverDetachDeviceObject, take_driver_lock. rewrite Hd, Some_bind, Hun. cbn [negb].
  rewrite assert_true, (upd_driver_eq s drv d) by done. rewrite Some_bind. cbn [with_drivers drivers]. rewrite lookup_insert_eq, Some_bind.
  set (s2 := with_drivers s _). cbn [set_locked deviceListHead].
  destruct (find_device_spec s2 (deviceListHead d) nm) as (r & Hr & Hcase); [by apply (owned_present s drv d)|]. rewrite Hr, Some_bind.
  destruct r as [dev'|].
  2: { destruct Hatt as (d0 & v & Hd0 & Hin & Hv & Hn). rewrite Hd in Hd0. injection Hd0 as <-. by destruct (Hcase dev v). }
  destruct Hcase as [Hin (v & Hv & Hn)]. assert (dev' = dev) as -> by (apply (Hna dev' dev nm); [by exists d, v|done]).
  rewrite (upd_driver_eq s2 drv (set_locked true d)) by apply lookup_insert_eq. rewrite Some_bind.
  rewrite (upd_device_eq _ dev v) by done. rewrite Some_bind. unfold drop_driver_lock.
  rewrite (upd_driver_eq _ drv (set_devlist (list_del dev (deviceListHead d)) (set_locked true d))) by apply lookup_insert_eq. rewrite !Some_bind.
  cbn [is_ok]. unfold is_ok. rewrite bool_decide_true by done. rewrite (bool_decide_true (is_Some (Some dev))) by (by eexists). rewrite assert_true.
  do 2 f_equal. unfold relist, NX_DeviceDestroy, with_drivers, with_devices. cbn. rewrite !insert_insert_eq, delete_insert_eq.
  do 2 f_equal. unfold set_locked, set_devlist. cbn. by rewrite Hun.
Qed.

Lemma detach_ok s drv d dev nm : registry_ok s -> drivers s !! drv = Some d -> attached s drv dev nm ->
  let s' := relist s drv d (list_del dev (deviceListHead d)) (delete dev (devices s)) in
  registry_ok s' /\ (forall x y n, attached s' x y n <-> attached s x y n /\ y <> dev).
Proof.
  intros Hs Hd Hatt s'. pose proof (rg_drivers s Hs drv d Hd) as [Hun Hnd Hdv Hna].
  assert (Hin : dev ∈ deviceListHead d) by (destruct Hatt as (d0 & v & Hd0 & ? & _); congruence). destruct (Hdv dev Hin) as (v & Hv & Hvd).
  assert (Hother : forall x d', x <> drv -> drivers s !! x = Some d' -> forall y, y ∈ deviceListHead d' -> delete dev (devices s) !! y = devices s !! y).
  { intros x d' Hne Hd' y Hy. apply lookup_delete_ne. intros ->. by apply (elsewhere s drv y v Hs Hv Hvd x d'). }
  assert (Hsame : forall y, y <> dev -> delete dev (devices s) !! y = devices s !! y) by (intros y Hy; by apply lookup_delete_ne).
  split.
  - apply relist_ok; try done.
    + by apply NoDup_list_del.
    + intros y [Hne Hy]%elem_of_list_del. rewrite Hsame by done. by apply Hdv.
    + intros y1 y2 w1 w2 [Hne1 Hy1]%elem_of_list_del [Hne2 Hy2]%elem_of_list_del. rewrite !Hsame by done. intros Hw1 Hw2 Hn.
      apply (Hna y1 y2 (dname w1)); [by exists d, w1|by exists d, w2].
    + intros y w [_ Hw]%lookup_delete_Some. by apply (rg_mutex s Hs y).
  - intros x y n. unfold s'. rewrite relist_attached by done. split.
    + intros [[Hne H1]|(-> & [Hne Hy]%elem_of_list_del & w & Hw & Hn)].
      * split; [done|]. intros ->. destruct H1 as (d' & w & Hd' & Hy & _). by apply (elsewhere s drv dev v Hs Hv Hvd x d').
      * rewrite Hsame in Hw by done. split; [by exists d, w|done].
    + intros [(d' & w & Hd' & Hy & Hw & Hn) Hne]. destruct (decide (x = drv)) as [->|Hx]; [right|left; split; [done|by exists d', w]].
      rewrite Hd in Hd'. injection Hd' as <-. split; [done|]. split; [by apply elem_of_list_del|]. exists w. by rewrite Hsame.
Qed.

(** Every device of a driver is detached in turn. *)
Lemma cleanup_loop_spec l s drv d : registry_ok s -> drivers s !! drv = Some d -> deviceListHead d = l ->
  exists s' d', Cleanup_loop s drv l = Some s' /\ registry_ok s' /\ drivers s' = <[drv := d']> (drivers s) /\ deviceListHead d' = [] /\
    name d' = name d /\ list_ d' = list_ d /\ driverListHead s' = driverListHead s /\
    (forall x y n, attached s' x y n <-> attached s x y n /\ x <> drv) /\ (forall y, y ∉ l -> devices s' !! y = devices s !! y).
Proof.
  revert s d. induction l as [|dev l IH]; intros s d Hs Hd Hl.
  - exists s, d. split; [done|]. split; [done|]. split; [by rewrite insert_id|]. split_and!; try done.
    intros x y n. split; [|by intros [? _]]. intros Ha. split; [done|]. intros ->. destruct Ha as (d' & v & Hd' & Hin & _).
    rewrite Hd in Hd'. injection Hd' as <-. rewrite Hl in Hin. by apply elem_of_nil in Hin.
  - pose proof (rg_drivers s Hs drv d Hd) as [Hun Hnd Hdv Hna]. rewrite Hl in Hnd. apply NoDup_cons in Hnd as [Hni Hnd].
    destruct (Hdv dev) as (v & Hv & Hvd); [rewrite Hl; left|].
    assert (Hatt : attached s drv dev (dname v)) by (exists d, v; split; [done|]; split; [rewrite Hl; left|done]).
    cbn [Cleanup_loop]. rewrite Hv, Some_bind, (detach_spec s drv d dev) by done. rewrite Some_bind.
    destruct (detach_ok s drv d dev (dname v) Hs Hd Hatt) as [Hs1 Hatt1]. rewrite Hl, list_del_cons_eq, (list_del_notin dev l) in * by done.
    set (s1 := relist s drv d l (delete dev (devices s))) in *.
    destruct (IH s1 (set_devlist l d) Hs1) as (s' & d' & Hrun & Hs' & Hdr & Hnil & Hn & Hn2 & Hli & Hatt' & Hdev'); [apply lookup_insert_eq|done|].
    exists s', d'. split; [done|]. split; [done|]. split; [rewrite Hdr; cbn; by rewrite insert_insert_eq|]. split_and!; try done.
    + intros x y n. rewrite Hatt', Hatt1. split; [tauto|]. intros [Ha Hne]. split; [|done]. split; [done|]. intros ->.
      destruct Ha as (dx & w & Hdx & Hy & _). by apply (elsewhere s drv dev v Hs Hv Hvd x dx).
    + intros y [Hne Hy]%not_elem_of_cons. rewrite Hdev' by done. cbn. by apply lookup_delete_ne.
Qed.

Lemma destroy_ok s drv : registry_ok s -> drv ∉ driverListHead s ->
  let s' := with_drivers s (delete drv (drivers s)) in
  registry_ok s' /\ forall x y n, attached s' x y n <-> attached s x y n /\ x <> drv.
Proof.
  intros Hs Hni s'. pose proof Hs as [Hu Hn Hli Hdr Hna Hmu].
  assert (Hatt : forall x y n, attached s' x y n <-> attached s x y n /\ x <> drv).
  { intros x y n. unfold attached, s'. cbn. split.
    - intros (d & v & [Hne Hd]%lookup_delete_Some & H1). split; [by exists d, v|done].
    - intros [(d & v & Hd & H1) Hne]. exists d, v. rewrite lookup_delete_ne by done. done. }
  split; [|done]. split; try done.
  - intros x Hx. cbn. rewrite lookup_delete_ne by (intros ->; done). by apply Hli.
  - intros x d Hd. change (drivers s') with (delete drv (drivers s)) in Hd. apply lookup_delete_Some in Hd as [Hne Hd].
    destruct (Hdr x d Hd) as [H1 H2 H3 H4]. split; try done.
    intros y1 y2 n [H5 _]%Hatt [H6 _]%Hatt. by apply (H4 y1 y2 n).
  - assert (Hr : forall x n, registered s' x n -> registered s x n).
    { intros x n [Hin (d & Hd & Hnm)]. change (drivers s') with (delete drv (drivers s)) in Hd. apply lookup_delete_Some in Hd as [_ Hd].
      split; [done|by exists d]. }
    intros x1 x2 n H1%Hr H2%Hr. by apply (Hna x1 x2 n).
Qed.

Lemma cleanup_spec s drv d nm : registry_ok s -> drivers s !! drv = Some d -> registered s drv nm ->
  exists s', NX_DriverCleanup s (Some nm) = Some (s', NX_EOK) /\ registry_ok s' /\ drivers s' = delete drv (drivers s) /\
    driverListHead s' = list_del drv (driverListHead s) /\ forall x y n, attached s' x y n <-> attached s x y n /\ x <> drv.
Proof.
  intros Hs Hd Hreg. pose proof Hreg as [Hin _]. destruct (driver_search_spec s nm Hs) as (r & Hr & Hiff). rewrite (proj2 (Hiff drv) Hreg) in Hr.
  unfold NX_DriverCleanup. rewrite Hr, Some_bind, Hd, Some_bind.
  destruct (cleanup_loop_spec (deviceListHead d) s drv d Hs Hd eq_refl) as (s1 & d' & Hrun & Hs1 & Hdr & Hnil & Hn & Hn2 & Hli & Hatt & _).
  rewrite Hrun, Some_bind. assert (Hd1 : drivers s1 !! drv = Some d') by (rewrite Hdr; apply lookup_insert_eq).
  unfold NX_DriverUnregister. rewrite (take_lock_free s1 (rg_unlocked s1 Hs1)), Some_bind. cbn [drivers with_lock]. rewrite Hd1, Some_bind.
  destruct (rg_listed s Hs drv Hin) as (d0 & Hd0 & Hlk). assert (list_ d' = Linked) as -> by congruence. rewrite assert_true.
  rewrite (upd_driver_eq _ drv d') by done. rewrite !Some_bind. eexists. split; [done|]. cbn [NX_DriverDestroy fst].
  pose proof (registry_node s1 drv d' Nulled (list_del drv (driverListHead s1)) Hs1 Hd1) as Hs2.
  assert (Hni : drv ∉ list_del drv (driverListHead s1)) by (rewrite elem_of_list_del; tauto).
  specialize (Hs2 (NoDup_list_del _ _ (rg_nodup s1 Hs1))).
  specialize (Hs2 ltac:(intros x [_ Hx]%elem_of_list_del _; done) ltac:(done) ltac:(done)).
  set (s2 := with_list _ _) in Hs2. destruct (destroy_ok s2 drv Hs2 Hni) as [Hs3 Hatt3].
  match goal with |- registry_ok ?st /\ _ => assert (E : st = with_drivers s2 (delete drv (drivers s2))) end.
  { unfold s2, with_drivers, drop_lock, with_list, with_lock. cbn. by rewrite (rg_unlocked s1 Hs1). }
  rewrite E. split; [done|]. split; [|split].
  - cbn. rewrite delete_insert_eq, Hdr, delete_insert_eq. done.
  - cbn. by rewrite Hli.
  - intros x y n. rewrite Hatt3. assert (attached s2 x y n <-> attached s1 x y n) as ->.
    { apply attached_ext; [done|]. intros z. cbn. destruct (decide (z = drv)) as [->|Hne]; [by rewrite lookup_insert_eq, Hd1|by rewrite lookup_insert_ne]. }
    rewrite Hatt. tauto.
Qed.

(** C22: The registry of drivers and devices, from any consistent state: a search
    finds a driver exactly when it is registered under the name, and a device of
    the name if a registered driver has one.  Registering a driver and attaching
    a device add exactly that entry when the name is new; when it is taken they
    answer [NX_EAGAIN], and then nobody can search the drivers, or detach
    devices of that driver, any more: the lock is not released.  Detaching
    removes exactly the device of that name, or answers [NX_ENOSRCH] without any
    change, and a clean-up removes the driver with all its devices. *)
Theorem driver_registry_correct s drv d nm : registry_ok s -> drivers s !! drv = Some d ->
  (exists r, NX_DriverSearch s (Some nm) = Some (s, r) /\ forall x, r = Some x <-> registered s x nm) /\
  (exists r, NX_DeviceSearch s nm = Some (s, r) /\
     match r with
     | Some dev => exists x, x ∈ driverListHead s /\ attached s x dev nm
     | None => forall x dev, x ∈ driverListHead s -> ~ attached s x dev nm
     end) /\
  (drv ∉ driverListHead s -> exists s' err, NX_DriverRegister s (Some drv) = Some (s', err) /\
     (err = NX_EOK /\ registry_ok s' /\ (forall x n, registered s' x n <-> registered s x n \/ (x = drv /\ n = name d)) /\
        (forall x y n, attached s' x y n <-> attached s x y n) \/
      err = NX_EAGAIN /\ (exists x, registered s x (name d)) /\ forall n, NX_DriverSearch s' (Some n) = None)) /\
  (forall id, devices s !! id = None -> (String.length nm < 32)%nat ->
     exists s' err, NX_DriverAttachDevice s (Some drv) (Some nm) (Some id) = Some (s', err, Some id) /\
     (err = NX_EOK /\ registry_ok s' /\ (forall x y n, attached s' x y n <-> attached s x y n \/ (x = drv /\ y = id /\ n = nm)) \/
      err = NX_EAGAIN /\ (exists dev, attached s drv dev nm) /\ forall n, NX_DriverDetachDevice s' (Some drv) (Some n) = None)) /\
  (exists s' err, NX_DriverDetachDevice s (Some drv) (Some nm) = Some (s', err) /\ registry_ok s' /\
     (err = NX_EOK /\ (exists dev, attached s drv dev nm /\ forall x y n, attached s' x y n <-> attached s x y n /\ y <> dev) \/
      err = NX_ENOSRCH /\ s' = s /\ forall dev, ~ attached s drv dev nm)) /\
  (registered s drv nm -> exists s', NX_DriverCleanup s (Some nm) = Some (s', NX_EOK) /\ registry_ok s' /\
     (forall x, x ∈ driverListHead s' <-> x ∈ driverListHead s /\ x <> drv) /\ (forall x y n, attached s' x y n <-> attached s x y n /\ x <> drv)).
Proof.
  intros Hs Hd. split; [by apply driver_search_spec|]. split; [by apply device_search_spec|]. split; [|split; [|split]].
  - intros Hni. destruct (register_spec s drv d Hs Hd Hni) as (r & Hr & Hcase). destruct (driver_search_spec s (name d) Hs) as (r' & Hr' & Hiff).
    rewrite Hr in Hr'. injection Hr' as <-. destruct r as [x|].
    + destruct Hcase as (s' & Hreg & Hlk). exists s', NX_EAGAIN. split; [done|]. right. split; [done|]. split; [exists x; by apply Hiff|].
      intros n. unfold NX_DriverSearch. by rewrite take_lock_held.
    + destruct Hcase as (s' & Hreg & Hs' & Hl & Hv & Hdr). exists s', NX_EOK. split; [done|]. left. split; [done|]. split; [done|]. split.
      * intros x n. unfold registered. rewrite Hl, Hdr, elem_of_cons. destruct (decide (x = drv)) as [->|Hne].
        -- rewrite lookup_insert_eq. split; [intros [_ (? & [= <-] & <-)]; by right|]. intros [[? _]|[_ ->]]; [done|]. split; [by left|by eexists].
        -- rewrite lookup_insert_ne by done. split; [intros [[?|?] ?]; [done|by left]|]. intros [[? ?]|[? _]]; [split; [by right|done]|done].
      * apply attached_ext; [done|]. intros x. rewrite Hdr. destruct (decide (x = drv)) as [->|Hne]; [by rewrite lookup_insert_eq, Hd|by rewrite lookup_insert_ne].
  - intros id Hid Hnm. destruct (attach_spec s drv d id nm Hs Hd Hid Hnm) as (s' & err & Hat & [(-> & _ & Hs' & _ & Hatt & _)|(-> & Hex & d' & Hd' & Hlk)]).
    + exists s', NX_EOK. split; [done|]. left. done.
    + exists s', NX_EAGAIN. split; [done|]. right. split; [done|]. split; [done|]. intros n.
      unfold NX_DriverDetachDevice, NX_DriverDetachDeviceObject, take_driver_lock. by rewrite Hd', Some_bind, Hlk.
  - destruct (find_device_spec s (deviceListHead d) nm (owned_present s drv d Hs Hd)) as (r & _ & Hcase). destruct r as [dev|].
    + assert (Hatt : attached s drv dev nm) by (destruct Hcase as [Hin (v & Hv & Hn)]; by exists d, v).
      destruct (detach_ok s drv d dev nm Hs Hd Hatt) as [Hs' Ha]. eexists _, NX_EOK. split; [by apply (detach_spec s drv d dev)|]. split; [done|]. left. split; [done|by exists dev].
    + assert (Hno : forall dev, ~ attached s drv dev nm) by (intros dev (d0 & v & Hd0 & Hin & Hv & Hn); rewrite Hd in Hd0; injection Hd0 as <-; by apply (Hcase dev v)).
      exists s, NX_ENOSRCH. split; [by apply (detach_none s drv d)|]. split; [done|]. right. done.
  - intros Hreg. destruct (cleanup_spec s drv d nm Hs Hd Hreg) as (s' & Hc & Hs' & _ & Hl & Hatt). exists s'. split; [done|]. split; [done|]. split; [|done].
    intros x. rewrite Hl, elem_of_list_del. tauto.
Qed.

(** ** Opening and closing *)
Fixpoint opens (n : nat) s nm (fl : Z) : option Drivers :=
  match n with O => Some s | S n => '(s, err, _) ← NX_DeviceOpen s (Some nm) fl; assert (is_ok err);; opens n s nm fl end.
Fixpoint closes (n : nat) s dev : option Drivers :=
  match n with O => Some s | S n => '(s, err) ← NX_DeviceClose s (Some dev); assert (is_ok err);; closes n s dev end.

Lemma find_device_names s s' l nm : (forall x, dname <$> devices s' !! x = dname <$> devices s !! x) -> find_device s' l nm = find_device s l nm.
Proof.
  intros E. induction l as [|x l IH]; [done|]. cbn [find_device]. specialize (E x).
  destruct (devices s' !! x) as [v'|], (devices s !! x) as [v|]; try done. injection E as E. rewrite !Some_bind, E. by destruct (String.eqb _ _).
Qed.

(** A device of a driver that can be opened and closed. *)
Record openable s nm drv dev d v o f g (fl : Z) : Prop := {
  op_ok : registry_ok s;
  op_found : NX_DeviceSearch s nm = Some (s, Some dev);
  op_device : devices s !! dev = Some v;
  op_driver : driver v = Some drv;
  op_is : drivers s !! drv = Some d;
  op_once : flags d &&& NX_DEVICE_OPEN_NEW_ONE = 0;
  op_ops : ops d = Some o;
  op_open : open o = Some f;
  op_close : close o = Some g;
  op_open_ok : forall w, snd (f w dev fl) = NX_EOK;
  op_close_ok : forall w, snd (g w dev) = NX_EOK
}.

Definition mutex_taken : NX_Mutex := mkMutex (mkSpin NX_SPIN_LOCK_VALUE NX_SPIN_MAGIC) MUTEX_MAGIC.

Lemma lock_device_eq s dev v : devices s !! dev = Some v -> mutex_free (lock v) ->
  lock_device s dev = Some (with_devices s (<[dev := set_dlock mutex_taken v]> (devices s))).
Proof. intros Hv Hm. unfold lock_device, upd_device. by rewrite Hv, Some_bind, Hm. Qed.

Lemma unlock_device_eq s dev v : devices s !! dev = Some v -> lock v = mutex_taken ->
  unlock_device s dev = Some (with_devices s (<[dev := set_dlock (mkMutex (mkSpin 0 NX_SPIN_MAGIC) MUTEX_MAGIC) v]> (devices s))).
Proof. intros Hv Hm. unfold unlock_device, upd_device. by rewrite Hv, Some_bind, Hm. Qed.

Section open_close.
Context (s : Drivers) (nm : string) (drv dev : Z) (d : NX_Driver) (v : NX_Device) (o : NX_DriverOps)
  (f : World -> Z -> Z -> World * NX_Error) (g : World -> Z -> World * NX_Error) (fl : Z).
Context (Hop : openable s nm drv dev d v o f g fl).

(** The state with [k] references to the device. *)
Definition counted (k : Z) (w : World) : Drivers := with_world (with_devices s (<[dev := set_reference k v]> (devices s))) w.

Lemma counted_found k w : NX_DeviceSearchLocked (with_lock (counted k w) true) nm = Some (Some dev).
Proof.
  destruct Hop as [Hs Hf Hv _ _ _ _ _ _ _ _]. unfold NX_DeviceSearch in Hf. rewrite (take_lock_free s (rg_unlocked s Hs)) in Hf. cbn in Hf.
  unfold NX_DeviceSearchLocked in *. cbn [driverListHead counted with_world with_devices with_lock] in *.
  rewrite (all_devices_ext s) in Hf |- * by done. destruct (all_devices s (driverListHead s)) as [l|]; [|done]. rewrite Some_bind. cbn in Hf.
  rewrite (find_device_names (with_lock s true)); [destruct (find_device (with_lock s true) l nm) as [x|]; [cbn in Hf; by injection Hf as _ ->|done]|].
  intros x. cbn. destruct (decide (x = dev)) as [->|Hne]; [by rewrite lookup_insert_eq, Hv|by rewrite lookup_insert_ne].
Qed.

Lemma open_step k w : 0 <= k ->
  NX_DeviceOpen (counted k w) (Some nm) fl = Some (counted (k + 1) (if k =? 0 then fst (f w dev fl) else w), NX_EOK, Some dev).
Proof.
  intros Hk. pose proof (counted_found k w) as Hfound. destruct Hop as [Hs _ Hv Hdv Hd Honce Hops Hopen _ Hok _].
  unfold NX_DeviceOpen. rewrite (take_lock_free (counted k w)) by apply (rg_unlocked s Hs). rewrite Some_bind, Hfound, Some_bind.
  rewrite (upd_device_eq _ dev (set_reference k v)) by apply lookup_insert_eq. rewrite Some_bind.
  set (s1 := drop_lock _). assert (E1 : s1 = counted (k + 1) w).
  { unfold s1, counted, drop_lock, with_devices, with_world, with_lock. cbn. rewrite insert_insert_eq. by rewrite (rg_unlocked s Hs). }
  rewrite E1. cbn [devices counted with_world with_devices]. rewrite lookup_insert_eq, Some_bind. cbn [driver set_reference]. rewrite Hdv, Some_bind.
  cbn [drivers counted with_world with_devices]. rewrite Hd, Some_bind, Hops. cbn [mbind option_bind]. rewrite Hopen. unfold passed_on. rewrite Honce. cbn [nz Z.eqb negb orb reference set_reference].
  destruct (Z.eqb_spec (k + 1) 1) as [E|E], (Z.eqb_spec k 0) as [E0|E0]; try lia; [|done].
  change (outside (counted (k + 1) w)) with w. specialize (Hok w). destruct (f w dev fl) as [w' err]. cbn in Hok. by subst err.
Qed.

Lemma close_step k w : 0 < k ->
  NX_DeviceClose (counted k w) (Some dev) = Some (counted (k - 1) (if k =? 1 then fst (g w dev) else w), NX_EOK).
Proof.
  intros Hk. destruct Hop as [Hs _ Hv Hdv Hd Honce Hops _ Hclose _ Hok]. pose proof (rg_mutex s Hs dev v Hv) as Hm.
  unfold NX_DeviceClose. cbn [devices counted with_world with_devices]. rewrite lookup_insert_eq, Some_bind. cbn [driver set_reference].
  rewrite Hdv, Some_bind. cbn [drivers counted with_world with_devices]. rewrite Hd, Some_bind. cbn [reference set_reference]. rewrite (proj2 (Z.leb_gt _ _)) by done.
  rewrite (upd_device_eq (counted k w) dev (set_reference k v)) by apply lookup_insert_eq. rewrite Some_bind.
  rewrite (lock_device_eq _ dev (set_reference (k - 1) (set_reference k v))) by (apply lookup_insert_eq || done). rewrite Some_bind.
  set (s1 := with_devices _ _). assert (Hv1 : devices s1 !! dev = Some (set_dlock mutex_taken (set_reference (k - 1) (set_reference k v)))) by apply lookup_insert_eq.
  rewrite Hv1, Some_bind, Hops. cbn [mbind option_bind]. rewrite Hclose. change (outside s1) with w.
  unfold passed_on. rewrite Honce. cbn [nz Z.eqb negb orb reference set_reference set_dlock outside with_devices].
  set (r := if k - 1 =? 0 then _ else _).
  assert (Er : r = ((if k =? 1 then fst (g w dev) else w), NX_EOK)).
  { unfold r. specialize (Hok w). destruct (Z.eqb_spec (k - 1) 0), (Z.eqb_spec k 1); try lia; [|done]. destruct (g w dev) as [w' err]. cbn in *. by subst err. }
  rewrite Er. rewrite (unlock_device_eq (with_world s1 (if k =? 1 then fst (g w dev) else w)) dev _ Hv1) by done.
  rewrite Some_bind. do 2 f_equal. unfold s1, counted, with_world, with_devices. cbn. rewrite !insert_insert_eq. f_equal. f_equal.
  unfold set_dlock, set_reference. cbn. by rewrite <- Hm.
Qed.

Lemma opens_eq n k w : 0 <= k -> opens n (counted k w) nm fl = Some (counted (k + Z.of_nat n) (if (k =? 0) && negb (Nat.eqb n 0) then fst (f w dev fl) else w)).
Proof.
  revert k w. induction n as [|n IH]; intros k w Hk; cbn [opens].
  - rewrite andb_false_r. do 2 f_equal. lia.
  - rewrite open_step, Some_bind by done. change (is_ok NX_EOK) with true. rewrite assert_true, IH by lia. cbn [Nat.eqb negb]. rewrite andb_true_r.
    rewrite (proj2 (Z.eqb_neq (k + 1) 0)) by lia. cbn [andb]. do 2 f_equal. lia.
Qed.

Lemma closes_eq n k w : 0 <= k -> closes n (counted (k + Z.of_nat n) w) dev = Some (counted k (if (k =? 0) && negb (Nat.eqb n 0) then fst (g w dev) else w)).
Proof.
  revert w. induction n as [|n IH]; intros w Hk; cbn [closes].
  - rewrite andb_false_r. do 2 f_equal. lia.
  - rewrite close_step, Some_bind by lia. change (is_ok NX_EOK) with true. rewrite assert_true. replace (k + Z.of_nat (S n) - 1) with (k + Z.of_nat n) by lia.
    rewrite IH by done. cbn [Nat.eqb negb]. rewrite andb_true_r. do 2 f_equal.
    destruct (Z.eqb_spec k 0) as [Ek|Ek], (Z.eqb_spec (k + Z.of_nat (S n)) 1) as [E1|E1], (Nat.eqb_spec n 0) as [En|En]; cbn [andb negb]; done || lia.
Qed.
End open_close.

(** A device opened [n] times can be read and written [n] times over and is
    closed again by [n] calls: unless the driver asks for every call, its
    [open] is called by the first only and its [close] by the last only, the
    reference count says how often it is open in between, and afterwards
    everything is as before.  One close more is refused with [NX_EPERM]. *)
Theorem open_close_balance s nm drv dev d v o f g fl n :
  openable s nm drv dev d v o f g fl -> reference v = 0 ->
  exists s1 s2, opens (S n) s nm fl = Some s1 /\ reference <$> devices s1 !! dev = Some (Z.of_nat (S n)) /\
    outside s1 = fst (f (outside s) dev fl) /\ drivers s1 = drivers s /\
    closes (S n) s1 dev = Some s2 /\ s2 = with_world s (fst (g (outside s1) dev)) /\
    NX_DeviceClose s2 (Some dev) = Some (s2, NX_EPERM).
Proof.
  intros Hop Hr. assert (Hs : counted s dev v 0 (outside s) = s).
  { unfold counted, with_world, with_devices. cbn. rewrite insert_id; [by destruct s|]. rewrite (op_device _ _ _ _ _ _ _ _ _ _ Hop). f_equal. destruct v; cbn in *. by subst. }
  pose proof (opens_eq s nm drv dev d v o f g fl Hop (S n) 0 (outside s) ltac:(lia)) as Ho. rewrite Hs in Ho. cbn [Z.eqb Nat.eqb negb andb] in Ho.
  set (w1 := fst (f (outside s) dev fl)) in *.
  pose proof (closes_eq s nm drv dev d v o f g fl Hop (S n) 0 w1 ltac:(lia)) as Hc. cbn [Z.eqb Nat.eqb negb andb] in Hc.
  eexists _, _. split; [exact Ho|]. split; [cbn; by rewrite lookup_insert_eq|]. split; [done|]. split; [done|]. split; [exact Hc|].
  assert (E : counted s dev v 0 (fst (g w1 dev)) = with_world s (fst (g w1 dev))) by (rewrite <- Hs at 2; done).
  rewrite E. split; [done|]. unfold NX_DeviceClose. cbn [devices with_world]. rewrite (op_device _ _ _ _ _ _ _ _ _ _ Hop), Some_bind, (op_driver _ _ _ _ _ _ _ _ _ _ Hop), Some_bind.
  cbn [drivers with_world]. rewrite (op_is _ _ _ _ _ _ _ _ _ _ Hop), Some_bind, Hr. done.
Qed.
End drivers.

(** ** A driver with one device *)

(** The world counts the calls of [open] and [close]. *)
Definition demo_open (w : nat * nat) (_ _ : Z) : nat * nat * NX_Error := (S w.1, w.2, NX_EOK).
Definition demo_close (w : nat * nat) (_ : Z) : nat * nat * NX_Error := (w.1, S w.2, NX_EOK).
Definition demo_uart_ops : @NX_DriverOps (nat * nat) := mkOps (Some demo_open) (Some demo_close) None None None.
Definition demo_uart : @NX_Driver (nat * nat) := mkDriver Alone [] NX_DEVICE_TYPE_UART "uart" (Some demo_uart_ops) false 0.
Definition demo_created : @Drivers (nat * nat) := mkDrivers {[1 := demo_uart]} ∅ [] false (0%nat, 0%nat).
Definition demo_registered : @Drivers (nat * nat) := default demo_created (fst <$> NX_DriverRegister demo_created (Some 1)).
Definition demo_attached : @Drivers (nat * nat) :=
  default demo_created ((fun r => r.1.1) <$> NX_DriverAttachDevice demo_registered (Some 1) (Some "uart0"%string) (Some 10)).
Definition demo_device : NX_Device := mkDevice Linked (Some 1) 0 (mkMutex (mkSpin 0 NX_SPIN_MAGIC) MUTEX_MAGIC) "uart0".

Lemma demo_created_ok : registry_ok demo_created.
Proof.
  assert (Hd : forall x d, drivers demo_created !! x = Some d -> d = demo_uart) by (intros x d Hx; cbn in Hx; by apply lookup_singleton_Some in Hx as [_ <-]).
  split; try done.
  - constructor.
  - intros x Hx. by apply elem_of_nil in Hx.
  - intros x d Hx. rewrite (Hd x d Hx). split; try done; [constructor|intros y Hy; by apply elem_of_nil in Hy|].
    intros y1 y2 nm (d' & v & Hd' & Hin & _). rewrite (Hd x d' Hd') in Hin. by apply elem_of_nil in Hin.
  - intros x1 x2 nm [Hx _]. by apply elem_of_nil in Hx.
Qed.

Lemma demo_registered_ok : registry_ok demo_registered.
Proof.
  destruct (register_spec demo_created 1 demo_uart demo_created_ok eq_refl) as (r & Hr & Hcase); [by intros ?%elem_of_nil|].
  vm_compute in Hr. injection Hr as <-. destruct Hcase as (s' & Hreg & Hs' & _). unfold demo_registered. rewrite Hreg. exact Hs'.
Qed.

Lemma demo_attached_ok : registry_ok demo_attached.
Proof.
  destruct (attach_spec demo_registered 1 (set_list Linked demo_uart) 10 "uart0" demo_registered_ok eq_refl eq_refl ltac:(cbn; lia)) as (s' & err & Hat & Hcase).
  unfold demo_attached. rewrite Hat. destruct Hcase as [(_ & _ & Hs' & _)|(_ & (dev & d & v & Hd & Hin & _) & _)]; [exact Hs'|].
  vm_compute in Hd. injection Hd as <-. by apply elem_of_nil in Hin.
Qed.

Lemma driver_registry_correct_witness :
  exists s' err, NX_DriverDetachDevice demo_attached (Some 1) (Some "uart0"%string) = Some (s', err) /\ registry_ok s'.
Proof.
  destruct (driver_registry_correct demo_attached 1 (set_devlist [10] (set_list Linked demo_uart)) "uart0" demo_attached_ok) as (_ & _ & _ & _ & (s' & err & H & Hs' & _) & _).
  - vm_compute. reflexivity.
  - exists s', err. exact (conj H Hs').
Defined.

(** Opened three times and closed three times: one call of [open], one of [close]. *)
Lemma open_close_balance_witness :
  exists s1 s2, opens 3 demo_attached "uart0" 0 = Some s1 /\ closes 3 s1 10 = Some s2 /\ outside s2 = (1%nat, 1%nat).
Proof.
  destruct (open_close_balance demo_attached "uart0" 1 10 (set_devlist [10] (set_list Linked demo_uart)) demo_device demo_uart_ops demo_open demo_close 0 2)
    as (s1 & s2 & H1 & _ & Ho & _ & H2 & -> & _).
  - split; try reflexivity; try done. exact demo_attached_ok.
  - reflexivity.
  - eexists s1, _. split; [exact H1|split; [exact H2|]]. cbn [outside with_world]. rewrite Ho. reflexivity.
Defined.

(** When the driver refuses to open, the reference stays: the next open is not
    passed on to the driver, and succeeds. *)
Example failed_open_counts :
  let refuse := mkOps (Some (fun w _ _ => (S w, NX_EIO))) None None None None in
  let s := mkDrivers {[1 := mkDriver Linked [10] NX_DEVICE_TYPE_UART "uart" (Some refuse) false 0]} {[10 := demo_device]} [1] false 0%nat in
  exists s1 s2, NX_DeviceOpen s (Some "uart0"%string) 0 = Some (s1, NX_EIO, None) /\ outside s1 = 1%nat /\
    NX_DeviceOpen s1 (Some "uart0"%string) 0 = Some (s2, NX_EOK, Some 10) /\ outside s2 = 1%nat.
Proof. eexists _, _. split; [reflexivity|]. split; [reflexivity|]. split; reflexivity. Qed.

(** A name of 32 characters or more overruns the array. *)
Example long_name_overruns :
  NX_DeviceCreate demo_created (Some "a-device-name-of-thirty-three-ch."%string) (Some 10) = None.
Proof. reflexivity. Qed.
