(* ===== verification/Cpio.v ===== *)
(** The read-only file system over an archive: [fs/cpio/cpio.c].

    The device below is the interface [BlockDev]: what [NX_IoBlockRead] stores
    and returns, and the capacity.  The loops over the archive take fuel; their
    result is [None] when it runs out and [Some None] for a fault: a read behind
    the device or a name that does not end within its bytes or its buffer. *)
From S2P Require Import Prelude Bits VfsPath Vfs CString.
#[local] Coercion Z.of_nat : nat >-> Z.

Definition NX_VFS_MAX_NAME : Z := 256.

(** The bytes read; none on an error. *)
Class BlockDev := {
  blk_read : Z -> Z -> option (list Z);    (* [NX_IoBlockRead (dev, buf, offset, count)] *)
  blk_capacity : Z                         (* [NX_IoBlockCapacity (dev)] *)
}.

(** The codes of the errors; two functions answer -1, which is none of them. *)
Definition error_code (e : NX_Error) : Z :=
  match e with
  | NX_EOK => 0 | NX_ERROR => 1 | NX_EPERM => 2 | NX_EINVAL => 3 | NX_ETIMEOUT => 4 | NX_EFAULT => 5 | NX_ENORES => 6
  | NX_EAGAIN => 7 | NX_EINTR => 8 | NX_ENOMEM => 9 | NX_ENOFUNC => 10 | NX_ENOSRCH => 11 | NX_EIO => 12 | NX_EBUSY => 13
  end.

(** ** Names *)

(** [path] without a leading separator. *)
Definition strip (s : str) : str := match s with c :: t => if c =? slash then t else s | [] => [] end.

(** [NX_StrCmpN (s, t, n) == 0] on texts. *)
Definition StrCmpN_zero (s t : str) (n : nat) : bool := bool_decide (take n s = take n t).

(** The name stored in [result], of [NX_VFS_MAX_NAME] bytes; the outer [None] is
    a name that does not fit. *)
Definition GetNextToken (path prefix : str) : option (option str) :=
  let path := strip path in
  let prefix := strip prefix in
  let l := length prefix in
  if negb (StrCmpN_zero path prefix l) then Some None
  else
    match drop l path with
    | [] => Some None
    | c :: t =>
        let p := if c =? slash then t else c :: t in
        if bool_decide (p = []) then Some None
        else
          match StrChr p slash with
          | Some q =>
              if bool_decide (drop (S q) p = []) then assert (q <? NX_VFS_MAX_NAME);; Some (Some (take q p)) else Some None
          | None => assert (length p <? NX_VFS_MAX_NAME);; Some (Some p)
          end
    end.

Definition CheckPath (path prefix name : str) : bool :=
  let path := strip path in
  let prefix := strip prefix in
  let l := length prefix in
  if nz l && negb (StrCmpN_zero path prefix l) then false
  else bool_decide (strip (drop l path) = name).

(** ** Headers *)
Definition sizeof_header : Z := 110.
Definition magic : list Z := [48; 55; 48; 55; 48; 49].
Definition trailer : str := [84; 82; 65; 73; 76; 69; 82; 33; 33; 33].

Record CpioNewcHeader := mkHeader {
  c_magic : list Z; c_ino : list Z; c_mode : list Z; c_uid : list Z; c_gid : list Z; c_nlink : list Z; c_mtime : list Z;
  c_filesize : list Z; c_devmajor : list Z; c_devminor : list Z; c_rdevmajor : list Z; c_rdevminor : list Z;
  c_namesize : list Z; c_check : list Z }.

Definition header_of (raw : list Z) : CpioNewcHeader :=
  let f i := take 8 (drop (6 + 8 * i)%nat raw) in
  mkHeader (take 6 raw) (f 0%nat) (f 1%nat) (f 2%nat) (f 3%nat) (f 4%nat) (f 5%nat) (f 6%nat) (f 7%nat) (f 8%nat) (f 9%nat)
    (f 10%nat) (f 11%nat) (f 12%nat).

(** The text of a buffer up to its NUL. *)
Fixpoint cstr (l : list Z) : option str :=
  match l with [] => None | c :: l => if c =? 0 then Some [] else s ← cstr l; Some (c :: s) end.

(** [(((name_size + 1) & ~3) + 2)], 32 bits wide, and the offset behind an entry. *)
Definition name_span (name_size : Z) : Z := u32 (Z.land (u32 (name_size + 1)) (not32 3) + 2).
Definition next_off (off name_size size : Z) : Z :=
  Z.land (u64 (u64 (u64 (off + sizeof_header) + u32 (name_span name_size + size)) + 3)) (not64 3).

Section cpio.
Context (char_signed : bool) `{BlockDev}.

(** [NX_MemCopy (buf, &header.f, 8); NX_StrToUL (buf, NX_NULL, 16)] *)
Definition hex (f : list Z) : option Z := '(v, _) ← NX_StrToUL char_signed (write ∅ 1 (f ++ [0])) 1 16; Some (u32 v).

(** [dev] is null or not; the flags and the root node of the mount ([m->data] is
    null before and after). *)
Definition CpioMount (dev : bool) (flags : Z) (root : NodeAttr) : option (NX_Error * Z * NodeAttr) :=
  if negb dev then Some (NX_EINVAL, flags, root)
  else if blk_capacity <=? sizeof_header then Some (NX_ENORES, flags, root)
  else
    raw ← blk_read 0 sizeof_header;
    if negb (length raw =? sizeof_header) then Some (NX_ENORES, flags, root)
    else if negb (StrCmpN_zero (c_magic (header_of raw)) magic 6) then Some (NX_EFAULT, flags, root)
    else Some (NX_EOK, Z.lor flags NX_VFS_MOUNT_RO,
               mkAttr (type root) (mode root) (size root) 0 (ctime root) (atime root) (mtime root)).

(** The entry at an offset, as both loops read it. *)
Record Found := mkFound { f_off : Z; f_size : Z; f_namesize : Z; f_mode : Z; f_mtime : Z; f_path : str }.
Inductive Scanned := NoHeader | NoMore | Entry (e : Found).

Definition scan (off : Z) : option Scanned :=
  raw ← blk_read off sizeof_header;
  if negb (length raw =? sizeof_header) then Some NoHeader
  else
    let header := header_of raw in
    if negb (StrCmpN_zero (c_magic header) magic 6) then Some NoHeader
    else
      size ← hex (c_filesize header);
      name_size ← hex (c_namesize header);
      mode ← hex (c_mode header);
      mtime ← hex (c_mtime header);
      assert (name_size <=? NX_VFS_MAX_PATH);;
      rd ← blk_read (u64 (off + sizeof_header)) name_size;
      if bool_decide (rd = []) then Some NoMore
      else
        path ← cstr rd;
        if (size =? 0) && (mode =? 0) && (name_size =? 11) && StrCmpN_zero path trailer 10 then Some NoMore
        else Some (Entry (mkFound off size name_size mode mtime path)).

Definition hidden (path : str) : bool := match path with c :: _ => c =? dot | [] => false end.

(** ** Looking up a name *)
Fixpoint Lookup_loop (fuel : nat) (off : Z) (dpath name : str) : option (option (Found + Z)) :=
  match fuel with
  | O => None
  | S fuel =>
      match scan off with
      | None => Some None
      | Some NoHeader => Some (Some (inr (error_code NX_ENORES)))
      | Some NoMore => Some (Some (inr (-1)))
      | Some (Entry e) =>
          if negb (hidden (f_path e)) && CheckPath (f_path e) dpath name then Some (Some (inl e))
          else Lookup_loop fuel (next_off off (f_namesize e) (f_size e)) dpath name
      end
  end.

(** The chains of comparisons: [mode & 0170000]. *)
Definition mode_type (mode : Z) : NX_VfsNodeType :=
  let k := Z.land mode 61440 in
  if k =? 49152 then TYPE_SOCK else if k =? 40960 then TYPE_LNK else if k =? 32768 then TYPE_REG
  else if k =? 24576 then TYPE_BLK else if k =? 16384 then TYPE_DIR else if k =? 8192 then TYPE_CHR
  else if k =? 4096 then TYPE_FIFO else TYPE_REG.

Definition mode_kind (mode : Z) : Z :=
  let k := Z.land mode 61440 in
  if k =? 49152 then S_IFSOCK else if k =? 40960 then S_IFLNK else if k =? 32768 then S_IFREG
  else if k =? 24576 then S_IFBLK else if k =? 16384 then S_IFDIR else if k =? 8192 then S_IFCHR
  else if k =? 4096 then S_IFIFO else 0.

Definition node_mode (mode : Z) : Z :=
  let bit b := if nz (Z.land mode b) then b else 0 in
  Z.lor (Z.lor (Z.lor (Z.lor (Z.lor (Z.lor (Z.lor (Z.lor (Z.lor (mode_kind mode)
    (bit 256)) (bit 128)) (bit 64)) (bit 32)) (bit 16)) (bit 8)) (bit 4)) (bit 2)) (bit 1).

(** [dpath] is the path of the directory, [n] the node to fill in. *)
Definition CpioLookup (fuel : nat) (dpath name : str) (n : NodeAttr) : option (option (Z * NodeAttr)) :=
  r ← Lookup_loop fuel 0 dpath name;
  Some (match r with
        | None => None
        | Some (inr e) => Some (e, n)
        | Some (inl e) =>
            Some (error_code NX_EOK,
                  mkAttr (mode_type (f_mode e)) (node_mode (f_mode e)) (f_size e)
                    (u64 (u64 (f_off e + sizeof_header) + name_span (f_namesize e))) (f_mtime e) (f_mtime e) (f_mtime e))
        end).

(** ** Reading *)
Definition CpioRead (n : NodeAttr) (off len : Z) : option (list Z * NX_Error) :=
  if negb (bool_decide (type n = TYPE_REG)) then Some ([], NX_EINVAL)
  else if u64 off >=? size n then Some ([], NX_EINVAL)
  else
    let sz := if u64 (size n - u64 off) <? len then u64 (size n - u64 off) else len in
    b ← blk_read (u64 (data n + u64 off)) sz;
    Some (b, NX_EOK).

(** ** Reading a directory *)
Fixpoint Readdir_loop (fuel : nat) (toff i : Z) (dpath : str) (off : Z) : option (option (Found * str + NX_Error)) :=
  match fuel with
  | O => None
  | S fuel =>
      match scan toff with
      | None => Some None
      | Some NoHeader => Some (Some (inr NX_ENORES))
      | Some NoMore => Some (Some (inr NX_EIO))
      | Some (Entry e) =>
          let toff := next_off toff (f_namesize e) (f_size e) in
          if hidden (f_path e) then Readdir_loop fuel toff i dpath off
          else
            match GetNextToken (f_path e) dpath with
            | None => Some None
            | Some None => Readdir_loop fuel toff i dpath off
            | Some (Some name) => if i =? off then Some (Some (inl (e, name))) else Readdir_loop fuel toff (i32 (i + 1)) dpath off
            end
      end
  end.

Definition CpioReaddir (fuel : nat) (dpath : str) (off : Z) : option (option (NX_VfsDirent + NX_Error)) :=
  r ← Readdir_loop fuel 0 0 dpath off;
  Some (match r with
        | None => None
        | Some (inr e) => Some (inr e)
        | Some (inl (e, name)) => Some (inl (mkDirent off 1 (mode_type (f_mode e)) (StrCopyN name NX_VFS_MAX_NAME).1))
        end).

(** ** The rest: nothing is ever changed *)
Definition CpioUnmount : NX_Error := NX_EOK.
Definition CpioMountSync : NX_Error := NX_EOK.
Definition CpioVget : NX_Error := NX_EOK.
Definition CpioVput : NX_Error := NX_EOK.
Definition CpioWrite : Z * NX_Error := (0, NX_EPERM).
Definition CpioIoctl : NX_Error := NX_ENOFUNC.
Definition CpioTruncate : NX_Error := NX_EPERM.
Definition CpioSync : NX_Error := NX_EOK.
Definition CpioCreate : NX_Error := NX_EPERM.
Definition CpioRemove : NX_Error := NX_EPERM.
Definition CpioRename : NX_Error := NX_EPERM.
Definition CpioMkdir : NX_Error := NX_EPERM.
Definition CpioRmdir : NX_Error := NX_EPERM.
Definition CpioChmod : NX_Error := NX_EPERM.
End cpio.

(** ** Archives

    An entry, with the fields no function reads; its text in the archive. *)
Record File := mkFile { e_name : str; e_mode : Z; e_mtime : Z; e_data : list Z; e_rest : list Z }.

Definition hex_digit (v : Z) : Z := if v <? 10 then 48 + v else 55 + v.
Definition hex_digits (v : Z) : list Z := (fun i => hex_digit (Z.shiftr v (4 * i) mod 16)) <$> [7; 6; 5; 4; 3; 2; 1; 0].

(** Zeros up to the next multiple of four. *)
Definition pad4 (n : Z) : list Z := replicate (Z.to_nat (- n mod 4)) 0.

Definition header_text (f : File) : list Z :=
  let r i := hex_digits (nth i (e_rest f) 0) in
  magic ++ r 0%nat ++ hex_digits (e_mode f) ++ r 1%nat ++ r 2%nat ++ r 3%nat ++ hex_digits (e_mtime f) ++ hex_digits (length (e_data f)) ++
  r 4%nat ++ r 5%nat ++ r 6%nat ++ r 7%nat ++ hex_digits (length (e_name f) + 1) ++ r 8%nat.

(** Header and name, padded. *)
Definition head_text (f : File) : list Z :=
  header_text f ++ e_name f ++ [0] ++ pad4 (sizeof_header + length (e_name f) + 1).
Definition encode (f : File) : list Z := head_text f ++ e_data f ++ pad4 (length (e_data f)).

Definition trailer_file : File := mkFile trailer 0 0 [] [].
Definition archive (es : list File) : list Z := mjoin (encode <$> es) ++ encode trailer_file.

Record file_fits (f : File) : Prop := {
  fo_name : text (e_name f) /\ length (e_name f) < NX_VFS_MAX_NAME;
  fo_mode : 0 <= e_mode f < 2 ^ 32;
  fo_mtime : 0 <= e_mtime f < 2 ^ 32;
  fo_size : length (e_data f) + 512 < 2 ^ 32
}.

(** An entry that is not taken for the end of the archive. *)
Definition file_ok (f : File) : Prop := file_fits f /\ (e_data f <> [] \/ e_mode f <> 0 \/ e_name f <> trailer).

(** What a device promises: the bytes of its image, and nothing behind it. *)
Class BlockLaws `{BlockDev} := {
  blk_image : list Z;
  blk_capacity_law : blk_capacity = length blk_image;
  blk_bound : length blk_image < 2 ^ 62;
  blk_read_law : forall off n : Z, 0 <= off -> 0 < n -> off + n <= length blk_image ->
    blk_read off n = Some (take (Z.to_nat n) (drop (Z.to_nat off) blk_image));
  blk_end_law : forall (off n : Z) b, 0 < n -> length blk_image < off + n -> blk_read off n = Some b -> Z.of_nat (length b) <> n
}.

(** ** Numbers and headers *)
Lemma hex_digit_ok v : 0 <= v < 16 -> digit 16 (hex_digit v) v.
Proof.
  intros Hv. assert (Forall (fun v => digit 16 (hex_digit v) v) (seqZ 0 16)) as Hall.
  { repeat (apply Forall_cons; split; [vm_compute; split_and!; (done || discriminate)|]). constructor. }
  rewrite Forall_forall in Hall. apply Hall, elem_of_seqZ. lia.
Qed.

Lemma hex_value v : 0 <= v < 2 ^ 32 -> value_of 16 ((fun i => Z.shiftr v (4 * i) mod 16) <$> [7; 6; 5; 4; 3; 2; 1; 0]) = v.
Proof.
  intros Hv. unfold value_of, value_from. cbn [fmap list_fmap fold_left]. rewrite !Z.shiftr_div_pow2 by lia.
  change (2 ^ (4 * 7)) with 268435456. change (2 ^ (4 * 6)) with 16777216. change (2 ^ (4 * 5)) with 1048576. change (2 ^ (4 * 4)) with 65536.
  change (2 ^ (4 * 3)) with 4096. change (2 ^ (4 * 2)) with 256. change (2 ^ (4 * 1)) with 16. change (2 ^ (4 * 0)) with 1.
  zlia.
Qed.

Lemma hex_roundtrip cs v : 0 <= v < 2 ^ 32 -> hex cs (hex_digits v) = Some v.
Proof.
  intros Hv. unfold hex.
  set (vs := (fun i => Z.shiftr v (4 * i) mod 16) <$> [7; 6; 5; 4; 3; 2; 1; 0]).
  assert (hex_digits v = hex_digit <$> vs) as Hd by done.
  rewrite (StrToUL_eq cs _ 1 16 [] false false [] (hex_digits v) vs 0); [|lia|constructor|by left| | |done..|apply write_at].
  - unfold vs. rewrite hex_value by done. rewrite (proj2 (Z.leb_le _ _)) by (change NX_ULONG_MAX with (2 ^ 32 - 1); lia). cbn. by rewrite u32_small.
  - rewrite Hd. discriminate.
  - rewrite Hd. apply Forall2_fmap_l, Forall_Forall2_diag. apply Forall_fmap, Forall_forall. intros i _. apply hex_digit_ok. zlia.
Qed.

Lemma header_text_fields f : let h := header_of (header_text f) in
  c_magic h = magic /\ c_mode h = hex_digits (e_mode f) /\ c_mtime h = hex_digits (e_mtime f) /\
  c_filesize h = hex_digits (length (e_data f)) /\ c_namesize h = hex_digits (length (e_name f) + 1) /\
  length (header_text f) = 110%nat.
Proof. repeat split. Qed.

Lemma pad4_length n : Z.of_nat (length (pad4 n)) = - n mod 4.
Proof. unfold pad4. rewrite length_replicate. zlia. Qed.

Lemma head_text_length f : Z.of_nat (length (head_text f)) = (sizeof_header + length (e_name f) + 1 + 3) / 4 * 4.
Proof.
  unfold head_text. rewrite !length_app, !Nat2Z.inj_add, pad4_length. destruct (header_text_fields f) as (_ & _ & _ & _ & _ & ->).
  unfold sizeof_header. cbn [length]. zlia.
Qed.

Lemma encode_length f : Z.of_nat (length (encode f)) = (length (head_text f) + length (e_data f) + 3) / 4 * 4.
Proof.
  unfold encode. rewrite !length_app, !Nat2Z.inj_add, pad4_length. pose proof (head_text_length f). zlia.
Qed.

Lemma cstr_name s t : text s -> cstr (s ++ 0 :: t) = Some s.
Proof.
  induction 1 as [|c s Hc _ IH]; [done|]. cbn [app cstr]. rewrite (proj2 (Z.eqb_neq c 0)) by lia. by rewrite IH.
Qed.

(** ** Offsets *)
Lemma land_not3 n : 0 <= n < 2 ^ 64 -> Z.land n (not64 3) = n / 4 * 4.
Proof. intros Hn. change 3 with (2 ^ 2 - 1). rewrite land_not_low by lia. zlia. Qed.

Lemma land_not3_32 n : 0 <= n < 2 ^ 32 -> Z.land n (not32 3) = n / 4 * 4.
Proof.
  intros Hn. change (not32 3) with (Z.land (Z.ones 32) (not64 3)). rewrite Z.land_assoc, Z.land_ones by lia.
  rewrite Z.mod_small by lia. apply land_not3. lia.
Qed.

Lemma name_span_eq n : 1 <= n <= 2 ^ 16 -> name_span n = (sizeof_header + n + 3) / 4 * 4 - sizeof_header.
Proof.
  intros Hn. unfold name_span. rewrite (u32_small (n + 1)) by lia. rewrite land_not3_32 by lia.
  rewrite u32_small; unfold sizeof_header; zlia.
Qed.

(** The offset behind an entry never goes back. *)
Lemma next_off_forward off n size :
  0 <= off < 2 ^ 62 -> off + sizeof_header <= next_off off n size < 2 ^ 63.
Proof.
  intros Ho. unfold next_off, sizeof_header. pose proof (u32_range (name_span n + size)) as Hr. set (d := u32 _) in *. clearbody d.
  rewrite (u64_small (off + 110)) by lia. rewrite (u64_small (off + 110 + d)) by lia. rewrite u64_small by lia.
  rewrite land_not3 by lia. zlia.
Qed.

Lemma next_off_entry off f :
  file_fits f -> 0 <= off < 2 ^ 62 -> off mod 4 = 0 ->
  next_off off (length (e_name f) + 1) (length (e_data f)) = off + length (encode f).
Proof.
  intros Hf Ho Hm. rewrite encode_length, head_text_length. destruct (fo_name _ Hf) as [_ Hn]. pose proof (fo_size _ Hf) as Hs.
  unfold NX_VFS_MAX_NAME in Hn. unfold next_off. rewrite name_span_eq by lia. unfold sizeof_header.
  set (n := Z.of_nat (length (e_name f))) in *. set (k := Z.of_nat (length (e_data f))) in *. assert (0 <= n /\ 0 <= k) as [Hn0 Hk0] by lia. clearbody n k.
  rewrite (u32_small _) by zlia. rewrite (u64_small (off + 110)) by lia. rewrite (u64_small (off + 110 + _)) by zlia. rewrite u64_small by zlia.
  rewrite land_not3 by zlia. zlia.
Qed.

(** ** Scanning an archive *)
Section laws.
Context (cs : bool) `{BlockLaws}.
Implicit Types (pre post : list Z) (f : File) (es : list File).

Lemma read_part pre x post :
  blk_image = pre ++ x ++ post -> x <> [] -> blk_read (length pre) (length x) = Some x.
Proof.
  intros Hi Hx. rewrite blk_read_law; [|lia|destruct x; [done|cbn; lia]|rewrite Hi, !length_app; lia].
  rewrite !Nat2Z.id, Hi, drop_app_length, take_app_length. done.
Qed.

Lemma scan_text pre f post :
  blk_image = pre ++ encode f ++ post -> file_fits f ->
  scan cs (length pre) = Some
    (if (length (e_data f) =? 0) && (e_mode f =? 0) && (length (e_name f) + 1 =? 11) && StrCmpN_zero (e_name f) trailer 10 then NoMore
     else Entry (mkFound (length pre) (length (e_data f)) (length (e_name f) + 1) (e_mode f) (e_mtime f) (e_name f))).
Proof.
  intros Hi Hf. destruct (fo_name _ Hf) as [Htx Hn]. pose proof (fo_size _ Hf) as Hs. unfold NX_VFS_MAX_NAME in Hn.
  destruct (header_text_fields f) as (Hmg & Hmd & Hmt & Hfs & Hns & Hlen).
  unfold encode, head_text in Hi. rewrite <- !app_assoc in Hi.
  assert (blk_read (length pre) sizeof_header = Some (header_text f)) as Hr1.
  { replace sizeof_header with (Z.of_nat (length (header_text f))) by (by rewrite Hlen). by eapply read_part. }
  rewrite !(app_assoc (e_name f)), (app_assoc pre) in Hi. pose proof (read_part _ (e_name f ++ [0]) _ Hi ltac:(by destruct (e_name f))) as Hr2.
  assert (length pre + sizeof_header < 2 ^ 62) as Hoff.
  { pose proof blk_bound as Hb. rewrite Hi, !length_app, Hlen in Hb. unfold sizeof_header. lia. }
  rewrite !length_app, Hlen, !Nat2Z.inj_add in Hr2. change (Z.of_nat 110) with sizeof_header in Hr2. change (Z.of_nat (length [0])) with 1 in Hr2.
  unfold scan. rewrite Hr1, Some_bind, Hlen. cbn [Z.eqb Z.of_nat sizeof_header negb]. cbn zeta.
  rewrite Hmg, Hmd, Hmt, Hfs, Hns. unfold StrCmpN_zero at 1. rewrite bool_decide_true by done. cbn [negb].
  pose proof (fo_mode _ Hf). pose proof (fo_mtime _ Hf).
  rewrite !hex_roundtrip, !Some_bind by lia. rewrite (proj2 (Z.leb_le _ _)) by (unfold NX_VFS_MAX_PATH; lia). cbn [assert]. rewrite Some_bind.
  rewrite (u64_small (length pre + sizeof_header)) by (unfold sizeof_header in *; lia).
  rewrite Hr2, Some_bind. rewrite bool_decide_false by (by destruct (e_name f)). rewrite cstr_name, Some_bind by done.
  by destruct (_ && _).
Qed.

Definition found_at pre f : Found :=
  mkFound (length pre) (length (e_data f)) (length (e_name f) + 1) (e_mode f) (e_mtime f) (e_name f).

Lemma scan_file pre f post : blk_image = pre ++ encode f ++ post -> file_ok f -> scan cs (length pre) = Some (Entry (found_at pre f)).
Proof.
  intros Hi [Hf Hl]. rewrite (scan_text pre f post Hi Hf).
  destruct (_ && _) eqn:E; [|done]. exfalso. bool2prop. destruct Hl as [Hd|[Hm|Hn]]; [by destruct (e_data f)|done|].
  apply Hn. unfold StrCmpN_zero in *. bool2prop. assert (length (e_name f) = 10%nat) as Hlen by lia.
  match goal with X : take 10 _ = take 10 _ |- _ => rewrite take_ge in X by lia; exact X end.
Qed.

Lemma scan_trailer pre post : blk_image = pre ++ encode trailer_file ++ post -> scan cs (length pre) = Some NoMore.
Proof.
  intros Hi. rewrite (scan_text pre trailer_file post Hi); [done|]. split; cbn; try lia. split; [|unfold NX_VFS_MAX_NAME; lia].
  repeat (apply Forall_cons; split; [lia|]). constructor.
Qed.

Lemma encode_aligned f : Z.of_nat (length (encode f)) mod 4 = 0.
Proof. rewrite encode_length. zlia. Qed.

(** The image from offset [length pre] on is an archive. *)
Definition holds_from pre es tail : Prop := blk_image = pre ++ archive es ++ tail /\ length pre mod 4 = 0.

Lemma holds_cons pre f es tail : holds_from pre (f :: es) tail -> holds_from (pre ++ encode f) es tail.
Proof.
  intros [Hi Hm]. split.
  - rewrite Hi. unfold archive. rewrite fmap_cons. cbn [mjoin list_join]. by rewrite <- !app_assoc.
  - rewrite length_app, Nat2Z.inj_add. pose proof (encode_aligned f). zlia.
Qed.

Lemma holds_image pre f es tail : holds_from pre (f :: es) tail -> blk_image = pre ++ encode f ++ archive es ++ tail.
Proof. intros [Hi _]. rewrite Hi. unfold archive. rewrite fmap_cons. cbn [mjoin list_join]. by rewrite <- !app_assoc. Qed.

Lemma holds_next pre f es tail :
  holds_from pre (f :: es) tail -> file_ok f ->
  next_off (length pre) (length (e_name f) + 1) (length (e_data f)) = length (pre ++ encode f).
Proof.
  intros Hh [Hf _]. destruct Hh as [Hi Hm]. rewrite next_off_entry; [rewrite length_app; lia|done| |done].
  pose proof blk_bound as Hb. rewrite Hi, !length_app in Hb. lia.
Qed.

Lemma holds_end pre tail : holds_from pre [] tail -> scan cs (length pre) = Some NoMore.
Proof. intros [Hi _]. by apply (scan_trailer pre tail). Qed.

(** ** Looking up *)

(** The visible files that stand for [name] in the directory [dpath]: those whose
    path is the path of the directory, a separator and the name.  The code asks
    for no separator, so a path that goes on with the name at once stands for
    it as well. *)
Definition plain_head (s : str) : Prop := head s <> Some slash.

Definition stored_as (dpath name : str) f : Prop :=
  head (e_name f) <> Some dot /\
  (strip (e_name f) = strip dpath ++ slash :: name \/ plain_head name /\ strip (e_name f) = strip dpath ++ name).

#[global] Instance stored_as_dec dpath name f : Decision (stored_as dpath name f).
Proof. unfold stored_as, plain_head. apply _. Defined.

Lemma strip_plain s : plain_head s -> strip s = s.
Proof. destruct s as [|c s]; [done|]. unfold plain_head. simpl. intros Hc. rewrite (proj2 (Z.eqb_neq c slash)); [done|]. congruence. Qed.

Lemma strip_is s name : strip s = name <-> s = slash :: name \/ plain_head name /\ s = name.
Proof.
  split; [|intros [->|[Hn ->]]; [done|by apply strip_plain]]. destruct s as [|c s]; simpl; [intros <-; by right|].
  destruct (Z.eqb_spec c slash) as [->|Hc]; intros <-; [by left|]. right. split; [|done]. unfold plain_head. simpl. congruence.
Qed.

Lemma StrCmpN_prefix s t : StrCmpN_zero s t (length t) = true <-> t `prefix_of` s.
Proof.
  unfold StrCmpN_zero. rewrite bool_decide_eq_true, (take_ge t) by lia. split.
  - intros E. exists (drop (length t) s). rewrite <- E at 1. by rewrite take_drop.
  - intros [k ->]. by rewrite take_app_length.
Qed.

(** [CheckPath] is this test. *)
Lemma CheckPath_spec path prefix name :
  CheckPath path prefix name = true <->
    strip path = strip prefix ++ slash :: name \/ plain_head name /\ strip path = strip prefix ++ name.
Proof.
  unfold CheckPath. set (p := strip path). set (d := strip prefix). clearbody p d.
  assert (Hp : nz (length d) && negb (StrCmpN_zero p d (length d)) = false <-> d `prefix_of` p).
  { rewrite <- StrCmpN_prefix. destruct d as [|c d]; [done|]. unfold nz. cbn [length]. rewrite (proj2 (Z.eqb_neq _ 0)) by lia.
    cbn [negb andb]. apply negb_false_iff. }
  destruct (nz _ && _) eqn:E.
  - split; [done|]. intros Hx. discriminate (proj2 Hp ltac:(destruct Hx as [->|[_ ->]]; by eexists)).
  - destruct (proj1 Hp eq_refl) as [k ->]. rewrite drop_app_length, bool_decide_eq_true, strip_is.
    split; (intros [Hx|[Hn Hx]]; [left|right; split; [done|]]); [by rewrite Hx|by rewrite Hx|by apply app_inv_head in Hx|by apply app_inv_head in Hx].
Qed.

Lemma found_spec (dpath name : str) f : negb (hidden (e_name f)) && CheckPath (e_name f) dpath name = bool_decide (stored_as dpath name f).
Proof.
  apply eq_bool_prop_intro. rewrite !Is_true_true, bool_decide_eq_true, andb_true_iff, CheckPath_spec, negb_true_iff. unfold stored_as.
  assert (hidden (e_name f) = false <-> head (e_name f) <> Some dot) as ->; [|done].
  destruct (e_name f) as [|c s]; simpl; [done|]. rewrite Z.eqb_neq. split; congruence.
Qed.

Lemma Lookup_loop_archive dpath name es : forall pre tail fuel,
  holds_from pre es tail -> Forall file_ok es -> (length es < fuel)%nat ->
  Lookup_loop cs fuel (length pre) dpath name = Some (Some
    (match list_find (stored_as dpath name) es with
     | Some (i, f) => inl (found_at (pre ++ mjoin (encode <$> take i es)) f)
     | None => inr (-1)
     end)).
Proof.
  induction es as [|f es IH]; intros pre tail [|fuel] Hh Hok Hfuel; try (cbn in Hfuel; lia); cbn [Lookup_loop].
  - by rewrite (holds_end _ _ Hh).
  - apply Forall_cons in Hok as [Hf Hok]. rewrite (scan_file pre f _ (holds_image _ _ _ _ Hh) Hf). cbn [found_at f_path f_namesize f_size].
    cbn [list_find]. rewrite found_spec. destruct (decide (stored_as dpath name f)) as [Hs|Hs].
    + rewrite bool_decide_true by done. cbn. by rewrite app_nil_r.
    + rewrite bool_decide_false by done. rewrite (holds_next _ _ _ _ Hh Hf). rewrite (IH (pre ++ encode f) tail fuel); [|by apply holds_cons|done|cbn in Hfuel; lia].
      destruct (list_find _ es) as [[i g]|]; cbn; [|done]. by rewrite <- app_assoc.
Qed.

(** Where the data of a file is. *)
Lemma data_offset pre f es tail :
  holds_from pre (f :: es) tail -> file_ok f ->
  u64 (u64 (f_off (found_at pre f) + sizeof_header) + name_span (f_namesize (found_at pre f))) = length (pre ++ head_text f).
Proof.
  intros Hh [Hf _]. destruct (fo_name _ Hf) as [_ Hn]. unfold NX_VFS_MAX_NAME in Hn. pose proof blk_bound as Hb.
  rewrite (holds_image _ _ _ _ Hh), !length_app in Hb. cbn [found_at f_off f_namesize].
  rewrite name_span_eq, length_app, Nat2Z.inj_add, head_text_length by lia. unfold sizeof_header.
  rewrite (u64_small (length pre + 110)) by lia. rewrite u64_small; zlia.
Qed.

Lemma read_data pre f es tail a off len :
  holds_from pre (f :: es) tail -> file_ok f ->
  type a = TYPE_REG -> size a = length (e_data f) -> data a = length (pre ++ head_text f) ->
  0 <= off < length (e_data f) -> 0 < len < 2 ^ 64 ->
  CpioRead a off len = Some (take (Z.to_nat len) (drop (Z.to_nat off) (e_data f)), NX_EOK).
Proof.
  intros Hh [Hf _] Ht Hs Hd Ho Hl. pose proof (fo_size _ Hf) as Hsz. unfold CpioRead. rewrite Ht, bool_decide_true by done. cbn [negb].
  rewrite (u64_small off), Hs, Z.geb_leb, (proj2 (Z.leb_gt _ _)) by lia. rewrite (u64_small (_ - off)) by lia. cbn zeta.
  pose proof (holds_image _ _ _ _ Hh) as Hi. unfold encode in Hi. rewrite <- !app_assoc in Hi. rewrite (app_assoc pre) in Hi.
  pose proof blk_bound as Hb. rewrite Hi, !length_app in Hb. rewrite Hd, u64_small by (rewrite length_app; lia).
  set (n := if _ <? len then _ else len). assert (0 < n <= length (e_data f) - off /\ (n = len \/ (n = length (e_data f) - off /\ length (e_data f) - off < len))) as [Hn Hcase]
    by (subst n; destruct (Z.ltb_spec (length (e_data f) - off) len); lia).
  rewrite blk_read_law; [|lia|lia|rewrite Hi, !length_app; lia]. rewrite Some_bind. do 2 f_equal.
  rewrite Hi. replace (Z.to_nat (length (pre ++ head_text f) + off)) with (length (pre ++ head_text f) + Z.to_nat off)%nat by lia.
  rewrite <- drop_drop, drop_app_length, drop_app_le by lia. rewrite take_app_le by (rewrite length_drop; lia).
  destruct Hcase as [E|[E Hlt]]; rewrite E; [done|]. rewrite !take_ge; [done|rewrite length_drop; lia..].
Qed.

(** ** Reading a directory *)
Lemma strip_length s : (length (strip s) <= length s)%nat.
Proof. destruct s as [|c s]; simpl; [lia|]. destruct (c =? slash); simpl; lia. Qed.

(** A short name fits the buffer. *)
Lemma token_fits path prefix : length path < NX_VFS_MAX_NAME -> exists r, GetNextToken path prefix = Some r.
Proof.
  intros Hl. pose proof (strip_length path) as Hs. unfold GetNextToken. destruct (negb _); [eauto|].
  assert (length (drop (length (strip prefix)) (strip path)) <= length path)%nat as Hd by (rewrite length_drop; lia).
  destruct (drop _ _) as [|c t]; [eauto|]. set (p := if c =? slash then t else c :: t).
  assert (length p <= length path)%nat as Hp by (subst p; destruct (c =? slash); simpl in *; lia). clearbody p.
  destruct (bool_decide (p = [])); [eauto|]. unfold StrChr. destruct (list_find _ p) as [[q x]|] eqn:Eq; cbn.
  - destruct (bool_decide _); [|eauto]. apply list_find_Some in Eq as (Hq & _). apply lookup_lt_Some in Hq.
    rewrite (proj2 (Z.ltb_lt _ _)) by lia. eauto.
  - rewrite (proj2 (Z.ltb_lt _ _)) by lia. eauto.
Qed.

Definition child (dpath : str) f : option (File * str) :=
  if hidden (e_name f) then None else match GetNextToken (e_name f) dpath with Some (Some n) => Some (f, n) | _ => None end.

Lemma Readdir_loop_archive dpath (off : Z) es : forall pre tail (fuel : nat) (i : Z),
  holds_from pre es tail -> Forall file_ok es -> (length es < fuel)%nat -> 0 <= i <= off -> i + length es < 2 ^ 31 ->
  match Readdir_loop cs fuel (length pre) i dpath off with
  | Some (Some (inl (e, n))) => exists f, omap (child dpath) es !! Z.to_nat (off - i) = Some (f, n) /\ f_mode e = e_mode f
  | Some (Some (inr e)) => omap (child dpath) es !! Z.to_nat (off - i) = None /\ e = NX_EIO
  | _ => False
  end.
Proof.
  induction es as [|f es IH]; intros pre tail [|fuel] i Hh Hok Hfuel Hi Hb; try (cbn in Hfuel; lia); cbn [Readdir_loop].
  - by rewrite (holds_end _ _ Hh).
  - apply Forall_cons in Hok as [Hf Hok]. rewrite (scan_file pre f _ (holds_image _ _ _ _ Hh) Hf). cbn [found_at f_path f_namesize f_size].
    rewrite (holds_next _ _ _ _ Hh Hf). cbn [length] in Hfuel, Hb. pose proof (holds_cons _ _ _ _ Hh) as Hh'.
    assert (forall j : Z, 0 <= j <= off -> j + length es < 2 ^ 31 -> _) as IH' by (intros j; exact (IH _ tail fuel j Hh' Hok ltac:(lia))).
    cbn [omap list_omap]. destruct (hidden (e_name f)) eqn:Ehid.
    { assert (child dpath f = None) as -> by (unfold child; by rewrite Ehid). apply IH'; lia. }
    destruct (token_fits (e_name f) dpath) as [r Hr]; [by apply Hf|]. rewrite Hr.
    assert (child dpath f = (fun n => (f, n)) <$> r) as -> by (unfold child; rewrite Ehid, Hr; by destruct r).
    destruct r as [n|]; cbn [fmap option_fmap option_map]; [|apply IH'; lia].
    destruct (Z.eqb_spec i off) as [->|Hne].
    + rewrite Z.sub_diag. exists f. done.
    + rewrite i32_small by lia. replace (Z.to_nat (off - i)) with (S (Z.to_nat (off - (i + 1)))) by lia. apply IH'; lia.
Qed.

(** ** Any image at all *)
Lemma scan_behind off : length blk_image < off + sizeof_header -> scan cs off = None \/ scan cs off = Some NoHeader.
Proof.
  intros Hb. unfold scan. destruct (blk_read off sizeof_header) as [raw|] eqn:E; [|by left]. right. rewrite Some_bind.
  apply blk_end_law in E; [|done|done]. by rewrite (proj2 (Z.eqb_neq _ _)).
Qed.

Lemma scans_end (dpath name : str) (o : Z) : forall (fuel : nat) off (i : Z),
  0 <= off -> length blk_image < off + sizeof_header * fuel -> (0 < fuel)%nat ->
  Lookup_loop cs fuel off dpath name <> None /\ Readdir_loop cs fuel off i dpath o <> None.
Proof.
  induction fuel as [|fuel IH]; intros off i Ho Hb Hfuel; [lia|]. cbn [Lookup_loop Readdir_loop].
  destruct (Z.lt_ge_cases (length blk_image) (off + sizeof_header)) as [Hend|Hin].
  - by destruct (scan_behind off Hend) as [-> | ->].
  - destruct (scan cs off) as [[| |e]|]; try done.
    pose proof blk_bound as Hbb. unfold sizeof_header in Hin, Hb.
    pose proof (next_off_forward off (f_namesize e) (f_size e) ltac:(lia)) as [Hn _]. unfold sizeof_header in Hn.
    assert (forall j, _) as IH' by (intros j; exact (IH (next_off off (f_namesize e) (f_size e)) j ltac:(lia) ltac:(unfold sizeof_header; lia) ltac:(lia))).
    split; [destruct (_ && _); [done|apply (IH' 0)]|].
    destruct (hidden _); [apply IH'|]. destruct (GetNextToken _ _) as [[n|]|]; [|apply IH'|done]. destruct (i =? o); [done|apply IH'].
Qed.

(** Contents on which nothing is overrun: at every place where a header can be,
    the name it announces has at most [limit] bytes, lies on the device and ends
    there; and a device that answers every read. *)
Definition names_end (limit : Z) : Prop :=
  forall off v : Z, 0 <= off -> off mod 4 = 0 -> off + sizeof_header <= length blk_image ->
    let h := header_of (take 110 (drop (Z.to_nat off) blk_image)) in
    c_magic h = magic -> hex cs (c_namesize h) = Some v ->
    v = 0 \/ v <= limit /\ off + sizeof_header + v <= length blk_image /\
      0 ∈ take (Z.to_nat v) (drop (Z.to_nat (off + sizeof_header)) blk_image).

Record answers : Prop := {
  an_zero : forall off, blk_read off 0 = Some [];
  an_read : forall off n, is_Some (blk_read off n)
}.

Lemma hex_total l : exists v, hex cs l = Some v /\ 0 <= v < 2 ^ 32.
Proof.
  destruct (StrToUL_total cs (write ∅ 1 (l ++ [0])) 1 16 l (write_at _ _ _)) as [[v e] Hv]. exists (u32 v). split; [|apply u32_range].
  unfold hex. by rewrite Hv.
Qed.

Lemma cstr_ends l : 0 ∈ l -> exists s, cstr l = Some s /\ (length s < length l)%nat.
Proof.
  induction l as [|c l IH]; intros Hin; [by apply elem_of_nil in Hin|]. cbn [cstr]. destruct (Z.eqb_spec c 0) as [->|Hc].
  - exists []. split; [done|cbn; lia].
  - apply elem_of_cons in Hin as [?|Hin]; [congruence|]. destruct (IH Hin) as (s & -> & Hl). exists (c :: s). split; [done|cbn; lia].
Qed.

Lemma scan_returns limit off : answers -> names_end limit -> limit <= NX_VFS_MAX_PATH -> 0 <= off -> off mod 4 = 0 ->
  exists x, scan cs off = Some x /\ forall e, x = Entry e -> length (f_path e) < limit.
Proof.
  intros Ha Hn Hl Ho Hm. destruct (Z.lt_ge_cases (length blk_image) (off + sizeof_header)) as [Hend|Hin].
  { destruct (scan_behind off Hend) as [E|E]; [|by exists NoHeader]. exfalso. revert E. unfold scan.
    destruct (an_read Ha off sizeof_header) as [raw Hr]. pose proof (blk_end_law off sizeof_header raw ltac:(done) Hend Hr) as Hne.
    by rewrite Hr, Some_bind, (proj2 (Z.eqb_neq _ _) Hne). }
  unfold scan. rewrite blk_read_law by (done || lia). rewrite Some_bind. change (Z.to_nat sizeof_header) with 110%nat. set (raw := take _ _).
  pose proof blk_bound as Hb. assert (length raw = 110%nat) as Hlen by (unfold raw; rewrite length_take, length_drop; unfold sizeof_header in *; lia).
  rewrite Hlen. change (negb (Z.of_nat 110 =? sizeof_header)) with false. cbv iota zeta.
  destruct (StrCmpN_zero (c_magic (header_of raw)) magic 6) eqn:Em; cbn [negb]; [|by exists NoHeader].
  assert (c_magic (header_of raw) = magic) as Hmg.
  { unfold StrCmpN_zero in Em. apply bool_decide_eq_true in Em. cbn [header_of c_magic] in *. by rewrite take_take in Em. }
  destruct (hex_total (c_filesize (header_of raw))) as (sz & -> & _). destruct (hex_total (c_namesize (header_of raw))) as (v & Hv & Hvr).
  destruct (hex_total (c_mode (header_of raw))) as (md & -> & _). destruct (hex_total (c_mtime (header_of raw))) as (mt & -> & _).
  rewrite Hv, !Some_bind. unfold sizeof_header in *. rewrite u64_small by lia.
  destruct (Hn off v Ho Hm Hin Hmg Hv) as [-> | (Hlim & Hfit & Hnul)]; unfold sizeof_header in *.
  - change (0 <=? NX_VFS_MAX_PATH) with true. cbn [assert]. rewrite Some_bind, (an_zero Ha), Some_bind. by exists NoMore.
  - rewrite (proj2 (Z.leb_le v _)), assert_true by lia.
    assert (0 < v) as Hv0 by (destruct (Z.eq_dec v 0) as [->|]; [by apply elem_of_nil in Hnul|lia]).
    rewrite blk_read_law by lia. rewrite Some_bind. set (rd := take (Z.to_nat v) (drop (Z.to_nat (off + 110)) blk_image)) in *. rewrite bool_decide_false by (intros E; rewrite E in Hnul; by apply elem_of_nil in Hnul).
    destruct (cstr_ends rd Hnul) as (path & -> & Hpl). rewrite Some_bind.
    assert (length path < limit) by (assert (length rd <= Z.to_nat v)%nat by (unfold rd; rewrite length_take; lia); lia).
    destruct (_ && _); [by exists NoMore|]. eexists. split; [done|]. by intros e [= <-].
Qed.

Lemma next_off_aligned off n size : 0 <= off < 2 ^ 62 -> next_off off n size mod 4 = 0.
Proof. intros Ho. unfold next_off. rewrite land_not3 by apply u64_range. zlia. Qed.

(** One turn per header, and a result at the end. *)
Lemma scans_return limit (dpath name : str) (o : Z) : answers -> names_end limit -> limit <= NX_VFS_MAX_PATH -> forall (fuel : nat) off (i : Z),
  0 <= off -> off mod 4 = 0 -> length blk_image < off + sizeof_header * fuel -> (0 < fuel)%nat ->
  (exists r, Lookup_loop cs fuel off dpath name = Some (Some r)) /\
  (limit <= NX_VFS_MAX_NAME -> exists r, Readdir_loop cs fuel off i dpath o = Some (Some r)).
Proof.
  intros Ha Hn Hl. induction fuel as [|fuel IH]; intros off i Ho Hm Hb Hfuel; [lia|]. cbn [Lookup_loop Readdir_loop].
  destruct (scan_returns limit off Ha Hn Hl Ho Hm) as (x & Hx & Hpath). rewrite Hx. destruct x as [| |e]; [by split; eauto..|].
  specialize (Hpath e eq_refl). destruct (Z.lt_ge_cases (length blk_image) (off + sizeof_header)) as [Hend|Hin].
  { destruct (scan_behind off Hend); congruence. }
  pose proof blk_bound as Hbb. unfold sizeof_header in Hin, Hb.
  pose proof (next_off_forward off (f_namesize e) (f_size e) ltac:(lia)) as [Hnx _]. unfold sizeof_header in Hnx.
  assert (forall j, _) as IH' by (intros j; exact (IH (next_off off (f_namesize e) (f_size e)) j ltac:(lia)
    (next_off_aligned off (f_namesize e) (f_size e) ltac:(lia)) ltac:(unfold sizeof_header; lia) ltac:(lia))).
  split; [destruct (_ && _); [by eauto|apply (IH' 0)]|]. intros Hln.
  destruct (hidden _); [by apply IH'|]. destruct (token_fits (f_path e) dpath ltac:(lia)) as [[n|] ->]; [|by apply IH'].
  destruct (i =? o); [by eauto|by apply IH'].
Qed.

(** C32: In an archive of files that fit (names below 256 characters, sizes and
    times of 32 bits, none that looks like the trailer: [file_ok]) a lookup
    finds the first visible file that stands for the name: its path is the path
    of the directory, a separator and the name, or, as the code asks for no
    separator, the path of the directory and the name at once
    ([prefix_is_no_directory]). The node gets the type, mode, size and times the
    file was stored with, and reading it gives back the stored bytes from any
    offset; when no file stands for the name the lookup is refused and the node
    left alone. *)
Theorem cpio_lookup_read es tail dpath name (n : NodeAttr) (fuel : nat) :
  blk_image = archive es ++ tail -> Forall file_ok es -> (length es < fuel)%nat ->
  match list_find (stored_as dpath name) es with
  | Some (_, f) => exists a, CpioLookup cs fuel dpath name n = Some (Some (error_code NX_EOK, a)) /\
      type a = mode_type (e_mode f) /\ mode a = node_mode (e_mode f) /\ size a = length (e_data f) /\
      ctime a = e_mtime f /\ atime a = e_mtime f /\ mtime a = e_mtime f /\
      (type a = TYPE_REG -> forall off len, 0 <= off < length (e_data f) -> 0 < len < 2 ^ 64 ->
         CpioRead a off len = Some (take (Z.to_nat len) (drop (Z.to_nat off) (e_data f)), NX_EOK))
  | None => CpioLookup cs fuel dpath name n = Some (Some (-1, n))
  end.
Proof.
  intros Hi Hok Hfuel.
  assert (holds_from [] es tail) as Hh by done.
  unfold CpioLookup. rewrite (Lookup_loop_archive dpath name es [] tail fuel Hh Hok Hfuel : Lookup_loop cs fuel 0 _ _ = _), Some_bind.
  destruct (list_find _ es) as [[i f]|] eqn:Ef; [|done]. cbn [app].
  apply list_find_Some in Ef as (Hf & Hn & _). pose proof (take_drop_middle _ _ _ Hf) as Hes.
  assert (forall l pre, holds_from pre (l ++ f :: drop (S i) es) tail -> holds_from (pre ++ mjoin (encode <$> l)) (f :: drop (S i) es) tail) as Hskip.
  { induction l as [|g l IH]; intros pre Hp; [by rewrite app_nil_r|].
    rewrite fmap_cons. cbn [mjoin list_join]. rewrite app_assoc. by apply IH, holds_cons. }
  rewrite <- Hes in Hh. apply Hskip in Hh. cbn [app] in Hh. assert (file_ok f) as Hfo by (by eapply Forall_lookup_1).
  rewrite (data_offset _ _ _ _ Hh Hfo). eexists. split; [done|]. cbn [type mode size ctime atime mtime found_at f_mode f_size f_mtime]. do 6 (split; [done|]).
  intros Ht off len Ho Hl. by eapply read_data.
Qed.

(** Reading a directory of an archive at offset k gives the k-th file below the
    directory in the order of the archive, with its kind and the next component of
    its name, and NX_EIO behind the last. *)
Theorem cpio_readdir_lists es tail dpath off (fuel : nat) :
  blk_image = archive es ++ tail -> Forall file_ok es -> (length es < fuel)%nat -> 0 <= off -> length es < 2 ^ 31 ->
  CpioReaddir cs fuel dpath off = Some (Some
    (match omap (child dpath) es !! Z.to_nat off with
     | Some (f, name) => inl (mkDirent off 1 (mode_type (e_mode f)) (take 255 name))
     | None => inr NX_EIO
     end)).
Proof.
  intros Hi Hok Hfuel Ho Hlen. unfold CpioReaddir.
  pose proof (Readdir_loop_archive dpath off es [] tail fuel 0 ltac:(done) Hok Hfuel ltac:(lia) ltac:(lia)) as Hl.
  change (Z.of_nat (length [])) with 0 in Hl. rewrite Z.sub_0_r in Hl. destruct (Readdir_loop cs fuel 0 0 dpath off) as [[[[e nm]|e]|]|]; try done; cbn [mbind option_bind].
  - by destruct Hl as (f & -> & ->).
  - by destruct Hl as [-> ->].
Qed.

(** C33: On a device with any content no search goes on for ever: one turn per
    header that fits the device is enough for it to return or to fault, by a read
    the device does not survive or a name longer than its buffer or without an
    end.  On a device that answers every read, with contents whose names end
    within [NX_VFS_MAX_PATH] bytes and within the device, a lookup returns; within
    [NX_VFS_MAX_NAME] bytes reading a directory returns too. *)
Theorem cpio_searches_end dpath name n off (fuel : nat) :
  blk_capacity < sizeof_header * fuel ->
  CpioLookup cs fuel dpath name n <> None /\ CpioReaddir cs fuel dpath off <> None /\
  (answers -> names_end NX_VFS_MAX_PATH -> exists r, CpioLookup cs fuel dpath name n = Some (Some r)) /\
  (answers -> names_end NX_VFS_MAX_NAME -> exists r, CpioReaddir cs fuel dpath off = Some (Some r)).
Proof.
  rewrite blk_capacity_law. intros Hb. unfold sizeof_header in *.
  destruct (scans_end dpath name off fuel 0 0 ltac:(lia) ltac:(unfold sizeof_header; lia) ltac:(lia)) as [H1 H2].
  unfold CpioLookup, CpioReaddir. split; [|split; [|split]].
  - by destruct (Lookup_loop cs fuel 0 dpath name).
  - by destruct (Readdir_loop cs fuel 0 0 dpath off).
  - intros Ha Hn. destruct (scans_return NX_VFS_MAX_PATH dpath name off Ha Hn ltac:(done) fuel 0 0 ltac:(lia) ltac:(done)
      ltac:(unfold sizeof_header; lia) ltac:(lia)) as [([e|e] & ->) _]; by eexists.
  - intros Ha Hn. destruct (scans_return NX_VFS_MAX_NAME dpath name off Ha Hn ltac:(done) fuel 0 0 ltac:(lia) ltac:(done)
      ltac:(unfold sizeof_header; lia) ltac:(lia)) as [_ Hr]. destruct (Hr ltac:(done)) as ([[e nm]|e] & ->); by eexists.
Qed.
End laws.

(** ** A device that is a list of bytes, and an archive on it *)
Section image.
Context (image : list Z).

#[local] Instance image_dev : BlockDev := {|
  blk_read off n :=
    if n <=? 0 then Some []
    else if (0 <=? off) && (off + n <=? length image) then Some (take (Z.to_nat n) (drop (Z.to_nat off) image)) else None;
  blk_capacity := length image
|}.

Definition image_laws (Hlen : length image < 2 ^ 62) : BlockLaws.
Proof.
  refine (Build_BlockLaws image_dev image eq_refl Hlen _ _).
  - intros off n Ho Hn Hb. cbn. rewrite (proj2 (Z.leb_gt n 0)), (proj2 (Z.leb_le 0 off)), (proj2 (Z.leb_le (off + n) _)) by lia. done.
  - intros off n b Hn Hb Hr. cbn in Hr. rewrite (proj2 (Z.leb_gt n 0)), (proj2 (Z.leb_gt (off + n) _)), andb_false_r in Hr by lia. done.
Defined.
End image.

(** A file "a" at the top and a file "b/c". *)
Definition file_a : File := mkFile [97] 33188 5 [1; 2; 3] [].
Definition file_bc : File := mkFile [98; 47; 99] 33261 6 [4; 5; 6; 7; 8] [].
Definition example_image : list Z := archive [file_a; file_bc].
Definition no_attr : NodeAttr := mkAttr TYPE_UNK 0 0 0 0 0 0.
Definition example_laws : BlockLaws (H := image_dev example_image) := image_laws example_image eq_refl.

Lemma example_files : Forall file_ok [file_a; file_bc].
Proof.
  repeat (apply Forall_cons; split; [split; [split; cbn; try (split; [|unfold NX_VFS_MAX_NAME]); try lia;
    repeat (apply Forall_cons; split; [lia|]); constructor|left; discriminate]|]). constructor.
Qed.

Lemma cpio_lookup_read_witness :
  exists a, CpioLookup (H := image_dev example_image) true 3 [47; 98] [99] no_attr = Some (Some (error_code NX_EOK, a)) /\ size a = 5 /\
    CpioRead (H := image_dev example_image) a 2 100 = Some ([6; 7; 8], NX_EOK).
Proof.
  pose proof (cpio_lookup_read true (H0 := example_laws) [file_a; file_bc] [] [47; 98] [99] no_attr 3
    (eq_sym (app_nil_r _)) example_files ltac:(cbn; lia)) as Hl.
  change (list_find (stored_as [47; 98] [99]) [file_a; file_bc]) with (Some (1%nat, file_bc)) in Hl.
  destruct Hl as (a & Ha & Ht & _ & Hs & _ & _ & _ & Hr). exists a. split; [exact Ha|]. split; [exact Hs|].
  exact (Hr Ht 2 100 ltac:(cbn; lia) ltac:(lia)).
Defined.

Lemma cpio_readdir_lists_witness :
  CpioReaddir (H := image_dev example_image) true 3 [47; 98] 0 = Some (Some (inl (mkDirent 0 1 TYPE_REG [99]))).
Proof.
  exact (cpio_readdir_lists true (H0 := example_laws) [file_a; file_bc] [] [47; 98] 0 3
    (eq_sym (app_nil_r _)) example_files ltac:(cbn; lia) ltac:(lia) ltac:(cbn; lia)).
Defined.

(** A device that refuses what does not fit, with a file and no trailer: the name
    is not found, and the search returns. *)
Section short.
Context (image : list Z).

#[local] Instance short_dev : BlockDev := {|
  blk_read off n := Some (if (0 <=? off) && (off + n <=? length image) then take (Z.to_nat n) (drop (Z.to_nat off) image) else []);
  blk_capacity := length image
|}.

Definition short_laws (Hlen : length image < 2 ^ 62) : BlockLaws.
Proof.
  refine (Build_BlockLaws short_dev image eq_refl Hlen _ _).
  - intros off n Ho Hn Hb. cbn. rewrite (proj2 (Z.leb_le 0 off)), (proj2 (Z.leb_le (off + n) _)) by lia. done.
  - intros off n b Hn Hb [= <-]. rewrite (proj2 (Z.leb_gt (off + n) _)), andb_false_r by lia. cbn. lia.
Defined.

Lemma short_answers : answers (H := short_dev).
Proof. split; [|by eexists]. intros off. cbn. by destruct (_ && _). Qed.
End short.

Definition short_image : list Z := encode file_a.
Definition short_image_laws : BlockLaws (H := short_dev short_image) := short_laws short_image eq_refl.

Lemma short_names limit : 256 <= limit -> names_end true (H0 := short_image_laws) limit.
Proof.
  intros Hl off v Ho Hm Hin. change (length (blk_image (BlockLaws := short_image_laws))) with 116%nat in *. unfold sizeof_header in *.
  assert (off = 0 \/ off = 4) as [-> | ->] by zlia; [|cbv zeta; intros Hmg; exfalso; vm_compute in Hmg; discriminate Hmg].
  cbv zeta; intros _ Hv. assert (v = 2) as -> by (vm_compute in Hv; congruence). right. split; [lia|]. split; [lia|]. vm_compute. right. left.
Qed.

Lemma cpio_searches_end_witness :
  (exists r, CpioLookup (H := short_dev short_image) true 2 [47] [98] no_attr = Some (Some r)) /\
  (exists r, CpioReaddir (H := short_dev short_image) true 2 [47] 1 = Some (Some r)).
Proof.
  pose proof (cpio_searches_end true (H0 := short_image_laws) [47] [98] no_attr 1 2 ltac:(vm_compute; reflexivity)) as (_ & _ & Hl & Hr).
  pose proof (short_answers short_image) as Ha.
  split; [exact (Hl Ha (short_names 1024 ltac:(lia)))|exact (Hr Ha (short_names 256 ltac:(lia)))].
Defined.

(** A header that announces a name of 8192 bytes overruns [path], and an archive
    without a trailer is read behind its end on a device that does not refuse. *)
Example unchecked_name_overruns :
  CpioLookup (H := short_dev (magic ++ mjoin (replicate 11 (hex_digits 0)) ++ hex_digits 8192 ++ hex_digits 0)) true 2 [47] [97] no_attr =
    Some None /\
  CpioLookup (H := image_dev (encode file_a)) true 2 [47] [98] no_attr = Some None.
Proof. by vm_compute. Qed.

(** *** What the paths do not tell apart *)

(** The prefix is compared without its end: the file "bc" is also the file "c" of
    the directory "/b", and it is listed there. *)
Definition file_bc' : File := mkFile [98; 99] 33188 5 [1; 2; 3] [].
Example prefix_is_no_directory :
  CpioReaddir (H := image_dev (archive [file_bc'])) true 3 [47; 98] 0 = Some (Some (inl (mkDirent 0 1 TYPE_REG [99]))) /\
  CpioLookup (H := image_dev (archive [file_bc'])) true 3 [47; 98] [99] no_attr <> Some (Some (-1, no_attr)).
Proof. by vm_compute. Qed.

(** Files whose path begins with a dot are not found. *)
Example dot_files_hidden :
  CpioLookup (H := image_dev (archive [mkFile [46; 97] 33188 5 [1] []])) true 3 [47] [46; 97] no_attr = Some (Some (-1, no_attr)).
Proof. vm_compute. reflexivity. Qed.
