(* ===== verification/Block.v ===== *)
(** Block devices, the disk in memory and the file system of the devices:
    [io/block.c], [drivers/block/romdisk.c] and [fs/devfs/devfs.c].

    They sit on the registry of Driver.v; the disk in memory, reached through
    the registry, is a device in the sense of Cpio.v. *)
From Stdlib Require Import String Ascii.
From stdpp Require Import strings.
From S2P Require Import Prelude Sync VfsPath Vfs CString Cpio Driver.
#[local] Open Scope Z_scope.
#[local] Coercion Z.of_nat : nat >-> Z.

(** ** [io/block.c]: null is [None], the strings are those of the registry. *)
Definition NX_IO_BLOCK_INFO : Z := 1.
Definition NX_IO_BLOCK_SYNC : Z := 2.

Record NX_IoBlockInfo := mkInfo { blockSize : Z; blockCount : Z; capacity : Z }.

Section block.
Context {World : Type}.
(** Where the local structure of [NX_IoBlockCapacity] is, and what a world
    holds there. *)
Context (info : Z) (info_at : World -> NX_IoBlockInfo).
Implicit Types s : Drivers (World := World).

Definition NX_IoBlockSearch s (name : option string) : option (Drivers * NX_Error) :=
  match name with
  | None => Some (s, NX_EINVAL)
  | Some name =>
      '(s, r) ← NX_DeviceSearch s name;
      match r with
      | None => Some (s, NX_ENOSRCH)
      | Some dev =>
          v ← devices s !! dev; drv ← driver v; d ← drivers s !! drv;
          Some (s, if type_index (Driver.type d) =? type_index NX_DEVICE_TYPE_BLOCK then NX_EOK else NX_ENOSRCH)
      end
  end.

Definition NX_IoBlockOpen s (name : option string) : option (Drivers * option Z) :=
  match name with
  | None => Some (s, None)
  | Some _ => '(s, err, dev) ← NX_DeviceOpen s name 0; Some (s, if is_ok err then dev else None)
  end.

Definition NX_IoBlockClose s (blk : option Z) : option (Drivers * NX_Error) :=
  match blk with None => Some (s, NX_EINVAL) | Some _ => NX_DeviceClose s blk end.

Definition NX_IoBlockCapacity s (blk : option Z) : option (Drivers * Z) :=
  match blk with
  | None => Some (s, 0)
  | Some _ =>
      '(s, err) ← NX_DeviceControl s blk NX_IO_BLOCK_INFO info;
      Some (s, if is_ok err then capacity (info_at (outside s)) else 0)
  end.

Definition NX_IoBlockRead s (blk : option Z) (buf offset count : Z) : option (Drivers * Z) :=
  if negb (bool_decide (is_Some blk)) || (buf =? 0) || (count =? 0) then Some (s, 0)
  else '(s, err, ret) ← NX_DeviceRead s blk buf offset count; Some (s, if is_ok err then default 0 ret else 0).

Definition NX_IoBlockWrite s (blk : option Z) (buf offset count : Z) : option (Drivers * Z) :=
  if negb (bool_decide (is_Some blk)) || (buf =? 0) || (count =? 0) then Some (s, 0)
  else '(s, err, ret) ← NX_DeviceWrite s blk buf offset count; Some (s, if is_ok err then default 0 ret else 0).

Definition NX_IoBlockSync s (blk : option Z) : option Drivers :=
  '(s, _) ← NX_DeviceControl s blk NX_IO_BLOCK_SYNC 0; Some s.

Definition NX_IoBlockAvailable s (blk : option Z) (offset length : Z) : option (Drivers * Z) :=
  match blk with
  | None => Some (s, 0)
  | Some _ => '(s, cap) ← NX_IoBlockCapacity s blk; Some (s, if u64 (offset + length) >? cap then u64 (cap - offset) else length)
  end.

(** ** [fs/devfs/devfs.c]: [data] of a node is the device. *)
Definition DevMount (root : NodeAttr) : NX_Error * NodeAttr :=
  (NX_EOK, mkAttr (Vfs.type root) (mode root) (Vfs.size root) 0 (ctime root) (atime root) (mtime root)).
Definition DevUnmount : NX_Error := NX_EOK.
Definition DevMountSync : NX_Error := NX_EOK.
Definition DevVget : NX_Error := NX_EOK.
Definition DevVput : NX_Error := NX_EOK.

Definition node_device (n : NodeAttr) : option Z := if data n =? 0 then None else Some (data n).

Definition DevRead s (n : NodeAttr) (off buf len : Z) : option (Drivers * Z * NX_Error) :=
  '(s, err, outLen) ← NX_DeviceRead s (node_device n) buf off len;
  Some (if is_ok err then (s, default 0 outLen, NX_EOK) else (s, 0, err)).

Definition DevWrite s (n : NodeAttr) (off buf len : Z) : option (Drivers * Z * NX_Error) :=
  '(s, err, outLen) ← NX_DeviceWrite s (node_device n) buf off len;
  Some (if is_ok err then (s, default 0 outLen, NX_EOK) else (s, 0, err)).

Definition DevIoctl s (n : NodeAttr) (cmd arg : Z) : option (Drivers * NX_Error) := NX_DeviceControl s (node_device n) cmd arg.
Definition DevTruncate : NX_Error := NX_EPERM.
Definition DevSync : NX_Error := NX_EOK.

Definition chars (s : string) : str := (fun a => Z.of_N (N_of_ascii a)) <$> list_ascii_of_string s.

(** [d->name] is cut at the length of a device's name. *)
Definition DevReaddir s (off : Z) : option (Drivers * (NX_VfsDirent + NX_Error)) :=
  '(s, r) ← NX_DeviceEnum s off;
  match r with
  | None => Some (s, inr NX_ENORES)
  | Some dev =>
      v ← devices s !! dev; drv ← driver v; d ← drivers s !! drv;
      Some (s, inl (mkDirent off 1 (if type_index (Driver.type d) =? type_index NX_DEVICE_TYPE_BLOCK then TYPE_BLK else TYPE_CHR)
                      (take (NX_DEVICE_NAME_LEN - 1) (StrCopyN (chars (dname v)) NX_VFS_MAX_NAME).1)))
  end.

Definition DevLookup s (name : string) (n : NodeAttr) : option (Drivers * NX_Error * NodeAttr) :=
  '(s, r) ← NX_DeviceSearch s name;
  match r with
  | None => Some (s, NX_ENOSRCH, n)
  | Some dev =>
      v ← devices s !! dev; drv ← driver v; d ← drivers s !! drv; o ← ops d;
      let md := S_IFREG in
      let md := if bool_decide (is_Some (Driver.read o)) then Z.lor md (Z.lor (Z.lor 256 32) 4) else md in
      let md := if bool_decide (is_Some (Driver.write o)) then Z.lor md (Z.lor (Z.lor 128 16) 2) else md in
      Some (s, NX_EOK, mkAttr TYPE_REG md 0 dev 0 0 0)
  end.

Definition DevCreate : NX_Error := NX_EPERM.
Definition DevRemove : NX_Error := NX_EPERM.
Definition DevRename : NX_Error := NX_EPERM.
Definition DevMkdir : NX_Error := NX_EPERM.
Definition DevRmdir : NX_Error := NX_EPERM.
Definition DevChmod : NX_Error := NX_EPERM.
End block.

(** ** [drivers/block/romdisk.c]

    The world is the memory; it is [None] after an access outside of it.  The
    structure behind [arg] is a world's own. *)
Record Rom := mkRom { memory : option Mem; infos : NX_IoBlockInfo }.

Section romdisk.
Context (NX_RomdiskStart romdiskSize : Z).

Definition RomdiskRead (w : Rom) (device buf off len : Z) : Rom * NX_Error * Z :=
  (mkRom (m ← memory w; '(m, _) ← NX_MemCopy m buf (NX_RomdiskStart + off) len; Some m) (infos w), NX_EOK, len).

Definition RomdiskControl (w : Rom) (device cmd arg : Z) : Rom * NX_Error :=
  if cmd =? NX_IO_BLOCK_INFO then (mkRom (memory w) (mkInfo 512 (romdiskSize / 512 + 1) romdiskSize), NX_EOK)
  else (w, NX_EOK).

Definition RomdiskDriverOps : NX_DriverOps := mkOps None None (Some RomdiskRead) None (Some RomdiskControl).
Definition DRV_NAME : string := "romdisk device".
Definition DEV0_NAME : string := "romdisk0".

(** [drv] and [dev] are the answers of [NX_MemAlloc]. *)
Definition RomdiskDriverInit (s : Drivers) (drv dev : option Z) : option Drivers :=
  '(s, r) ← NX_DriverCreate s (Some DRV_NAME) NX_DEVICE_TYPE_BLOCK 0 (Some RomdiskDriverOps) drv;
  match r with
  | None => Some s
  | Some _ =>
      '(s, err, _) ← NX_DriverAttachDevice s r (Some DEV0_NAME) dev;
      if negb (is_ok err) then Some (NX_DriverDestroy s r).1
      else
        '(s, err) ← NX_DriverRegister s r;
        if negb (is_ok err) then
          '(s, _) ← NX_DriverDetachDevice s r (Some DEV0_NAME); Some (NX_DriverDestroy s r).1
        else Some s
  end.

Definition RomdiskDriverExit (s : Drivers (World := Rom)) : option Drivers := '(s, _) ← NX_DriverCleanup s (Some DRV_NAME); Some s.
End romdisk.

(** ** The disk in memory is a device *)
Lemma copy_reads (m m' : Mem) n : forall dst src, MemCopy_loop m dst src n = Some m' ->
  forall i : Z, 0 <= i < n -> is_Some (m !! (src + i)).
Proof.
  revert m. induction n as [|n IH]; intros m dst src Hc i Hi; [lia|]. cbn [MemCopy_loop] in Hc.
  destruct (load m src) as [x|] eqn:Hx; [|done]. rewrite Some_bind in Hc.
  destruct (store m dst x) as [m1|] eqn:Hs; [|done]. rewrite Some_bind in Hc.
  destruct (decide (i = 0)) as [->|Hne]; [rewrite Z.add_0_r; by exists x|].
  pose proof (IH m1 _ _ Hc (i - 1) ltac:(lia)) as Hi1. replace (src + 1 + (i - 1)) with (src + i) in Hi1 by lia.
  unfold store in Hs. destruct (m !! dst) as [y|] eqn:Hy; [|done]. injection Hs as <-.
  apply lookup_insert_is_Some in Hi1 as [E|[_ ?]]; [|done]. rewrite <- E. by exists y.
Qed.

Lemma mapM_seqZ (m : Mem) (a : Z) (l : list Z) : forall k : Z, bytes_at m (a + k) l -> mapM (fun i => m !! (a + i)) (seqZ k (length l)) = Some l.
Proof.
  induction l as [|x l IH]; intros k Hl; [done|]. destruct Hl as [Hx Hl]. rewrite seqZ_cons by (cbn; lia). cbn [mapM].
  rewrite Hx, Some_bind. replace (a + k + 1) with (a + Z.succ k) in Hl by lia.
  replace (Z.pred (length (x :: l))) with (Z.of_nat (length l)) by (cbn; lia). by rewrite IH.
Qed.

Section rom.
Context (s : Drivers (World := Rom)) (dev drv : Z) (v : NX_Device) (d : NX_Driver (World := Rom)) (m : Mem) (image : list Z) (start buf : Z).
Context (Hv : devices s !! dev = Some v) (Hdrv : driver v = Some drv) (Hd : drivers s !! drv = Some d).
Context (Hops : ops d = Some (RomdiskDriverOps start (length image))) (Hmutex : mutex_free (lock v)).
Context (Hm : memory (outside s) = Some m) (Hbytes : bytes image) (Himage : bytes_at m start image).
Context (Hend : forall a, start + length image <= a -> m !! a = None).
Context (Hbuf : buf <> 0) (Hmapped : mapped m buf (length image)) (Hapart : buf + length image <= start).
Context (Hlen : length image < 2 ^ 62).

(** What a read puts into the buffer. *)
Definition rom_read (off n : Z) : option (list Z) :=
  '(s', r) ← NX_IoBlockRead s (Some dev) buf off n;
  m' ← memory (outside s');
  mapM (fun i => m' !! (buf + i)) (seqZ 0 r).

Lemma rom_read_eq off n : 0 < n ->
  rom_read off n = (m' ← MemCopy_loop m buf (start + off) (Z.to_nat n); mapM (fun i => m' !! (buf + i)) (seqZ 0 n)).
Proof.
  intros Hn. unfold rom_read, NX_IoBlockRead. rewrite bool_decide_true by eauto.
  rewrite (proj2 (Z.eqb_neq buf 0)), (proj2 (Z.eqb_neq n 0)) by lia. cbn [negb orb]. unfold NX_DeviceRead.
  rewrite (proj2 (Z.eqb_neq buf 0)) by lia. unfold nz. rewrite (proj2 (Z.eqb_neq n 0)) by lia. cbn [negb orb]. unfold device_io.
  rewrite Hv, Some_bind, Hdrv, Some_bind, Hd, Some_bind, (lock_device_eq _ _ _ Hv Hmutex), Some_bind, Hops.
  cbn [RomdiskDriverOps Driver.read mbind option_bind]. unfold RomdiskRead. cbn [with_devices outside].
  erewrite unlock_device_eq; [|apply lookup_insert_eq|done]. rewrite !Some_bind. cbn [is_ok bool_decide NX_Error_eq_dec decide with_devices Driver.with_world outside memory].
  rewrite Hm, Some_bind. unfold NX_MemCopy. by destruct (MemCopy_loop m buf (start + off) (Z.to_nat n)).
Qed.

#[local] Instance rom_dev : BlockDev := {| blk_read := rom_read; blk_capacity := length image |}.

Lemma rom_read_inside (off n : Z) : 0 <= off -> 0 < n -> off + n <= length image ->
  rom_read off n = Some (take (Z.to_nat n) (drop (Z.to_nat off) image)).
Proof.
  intros Ho Hn Hb. set (l := take (Z.to_nat n) (drop (Z.to_nat off) image)).
  assert (length l = Z.to_nat n) as Hl by (unfold l; rewrite length_take, length_drop; lia).
  assert (bytes_at m (start + off) l) as Hat.
  { apply bytes_at_lookup. intros i x. unfold l. rewrite lookup_take_Some, lookup_drop. intros [Hx _].
    rewrite bytes_at_lookup in Himage. rewrite <- (Himage _ _ Hx). f_equal. lia. }
  rewrite rom_read_eq, <- Hl, copy_forward; [|apply Forall_take, Forall_drop, Hbytes|done|apply (mapped_le _ _ _ _ _ Hmapped); lia|lia|done].
  rewrite Some_bind. replace n with (Z.of_nat (length l)) by lia. apply mapM_seqZ. rewrite Z.add_0_r. apply write_at.
Qed.

Lemma rom_read_outside (off n : Z) : 0 < n -> length image < off + n -> rom_read off n = None.
Proof.
  intros Hn Hb. rewrite rom_read_eq by done.
  destruct (MemCopy_loop m buf (start + off) (Z.to_nat n)) as [m'|] eqn:E; [|done]. exfalso.
  destruct (copy_reads _ _ _ _ _ E (n - 1) ltac:(lia)) as [x Hx]. rewrite Hend in Hx by lia. done.
Qed.

Definition rom_laws : BlockLaws.
Proof.
  refine (Build_BlockLaws rom_dev image eq_refl Hlen rom_read_inside _).
  intros off n b Hn Hb Hr. exfalso. change (rom_read off n = Some b) in Hr. by rewrite (rom_read_outside off n Hn Hb) in Hr.
Defined.
End rom.

(** ** The file system of the devices *)
Lemma devfs_lists {World} (s : Drivers (World := World)) off : registry_ok s -> 0 <= off ->
  exists l, all_devices s (driverListHead s) = Some l /\
  match l !! Z.to_nat off with
  | None => DevReaddir s off = Some (s, inr NX_ENORES)
  | Some dev => exists v t, devices s !! dev = Some v /\
      DevReaddir s off = Some (s, inl (mkDirent off 1 t (take 31 (take 255 (chars (dname v))))))
  end.
Proof.
  intros Hs Ho. unfold DevReaddir, NX_DeviceEnum. rewrite take_lock_free, Some_bind by apply (rg_unlocked s Hs).
  rewrite (all_devices_ext s (with_lock s true)) by done. cbn [with_lock driverListHead].
  destruct (all_devices_spec s _ (listed_present s Hs)) as (l & Hl & Hiff). exists l. split; [done|].
  rewrite Hl, !Some_bind, drop_with_lock by apply (rg_unlocked s Hs). unfold zlookup. rewrite (proj2 (Z.leb_le 0 off)) by done.
  destruct (l !! Z.to_nat off) as [dev|] eqn:Hdev; [|done].
  apply list_elem_of_lookup_2 in Hdev as (drv & d & _ & Hd & Hin)%Hiff.
  destruct (do_devices _ _ _ (rg_drivers s Hs _ _ Hd) _ Hin) as (v & Hv & Hdrv). exists v. eexists. split; [done|].
  by rewrite Hv, Some_bind, Hdrv, Some_bind, Hd, Some_bind.
Qed.
