(* ===== verification/Env.v ===== *)
(** Command lines and environments: [process/env.c].

    A line is its text; the pointers the parser stores into it are the texts
    they lead to once the delimiters are overwritten with NUL.  [argArray] is the
    texts stored from index 0 on, and the index at which null is stored last. *)
From S2P Require Import Prelude VfsPath.
#[local] Coercion Z.of_nat : nat >-> Z.

Definition CMD_DELIMITER : Z := 32.
Definition ENV_DELIMITER : Z := 58.
Definition NX_PORCESS_ENV_ARGS : Z := 1024.

(** [while ( *p == delimiter) p++] *)
Fixpoint skip (delimiter : Z) (s : str) : str :=
  match s with c :: t => if c =? delimiter then skip delimiter t else s | [] => [] end.

Record Parsed := mkParsed { argc : Z; argArray : list str; null_at : option Z }.
Definition refused (args : list str) : Parsed := mkParsed (-1) args None.

(** Each turn but the last stores one argument. *)
Fixpoint ParseLine_loop (fuel : nat) (line : str) (args : list str) (maxArgs delimiter : Z) : option Parsed :=
  match fuel with
  | O => None
  | S fuel =>
      if (length args <? maxArgs) && negb (bool_decide (line = [])) then
        let line := skip delimiter line in
        if (delimiter =? ENV_DELIMITER) && negb (bool_decide (head line = Some slash)) then Some (refused args)
        else
          match StrChr line delimiter with
          | None => Some (mkParsed (length args + 1) (args ++ [line]) (Some (length args + 1)))
          | Some p => ParseLine_loop fuel (skip delimiter (drop p line)) (args ++ [take p line]) maxArgs delimiter
          end
      else Some (mkParsed (length args) args (Some (length args + 1)))
  end.

(** [buf] is null or a text, [argArray] is not null. *)
Definition ParseLine (buf : option str) (maxArgs delimiter : Z) : option Parsed :=
  match buf with
  | None => Some (refused [])
  | Some line => if maxArgs =? 0 then Some (refused []) else ParseLine_loop (S (length line)) line [] maxArgs delimiter
  end.

(** The text built and the result. *)
Fixpoint BuildLine_loop (buf : str) (bufLen : Z) (args : list str) (argc delimiter : Z) : str * Z :=
  match args with
  | [] => (buf, argc)
  | a :: args =>
      if length buf + length a + 1 >=? bufLen then (buf, -1)
      else
        let buf := buf ++ a in
        let buf := match args with [] => buf | _ => buf ++ [delimiter] end in
        BuildLine_loop buf bufLen args (argc + 1) delimiter
  end.

Definition BuildLine (bufLen : Z) (args : list str) (delimiter : Z) : str * Z :=
  if bufLen =? 0 then ([], -1) else BuildLine_loop [] bufLen args 0 delimiter.

Definition NX_EnvToArray (buf : option str) (maxArgs : Z) : option Parsed := ParseLine buf maxArgs ENV_DELIMITER.
Definition NX_CmdToArray (buf : option str) (maxArgs : Z) : option Parsed := ParseLine buf maxArgs CMD_DELIMITER.
Definition NX_EnvToBuf (bufLen : Z) (args : list str) : str * Z := BuildLine bufLen args ENV_DELIMITER.
Definition NX_CmdToBuf (bufLen : Z) (args : list str) : str * Z := BuildLine bufLen args CMD_DELIMITER.

(** ** Building and parsing *)

(** Arguments joined by the delimiter. *)
Fixpoint joined (delimiter : Z) (args : list str) : str :=
  match args with [] => [] | [a] => a | a :: args => a ++ delimiter :: joined delimiter args end.

(** What an argument has to be for the delimiter. *)
Definition arg_ok (delimiter : Z) (a : str) : Prop :=
  a <> [] /\ (delimiter ∉ a) /\ (delimiter = ENV_DELIMITER -> head a = Some slash).

Lemma joined_cons d a b args : joined d (a :: b :: args) = a ++ d :: joined d (b :: args).
Proof. done. Qed.

Lemma build_loop d bufLen args : forall buf argc,
  length buf + length (joined d args) + 1 < bufLen ->
  BuildLine_loop buf bufLen args argc d = (buf ++ joined d args, argc + length args).
Proof.
  induction args as [|a args IH]; intros buf argc Hl; cbn [BuildLine_loop].
  - cbn. rewrite app_nil_r. f_equal; lia.
  - destruct args as [|b args].
    + cbn [joined] in *. rewrite Z.geb_leb, (proj2 (Z.leb_gt _ _)) by lia. cbn. f_equal; lia.
    + rewrite joined_cons in *. rewrite length_app in Hl. cbn [length] in Hl. rewrite Z.geb_leb, (proj2 (Z.leb_gt _ _)) by lia.
      rewrite IH; [|rewrite !length_app; cbn [length]; lia]. rewrite <- !app_assoc. cbn [app]. f_equal; cbn [length]; lia.
Qed.

Lemma skip_other d c s : c <> d -> skip d (c :: s) = c :: s.
Proof. intros Hc. cbn. by rewrite (proj2 (Z.eqb_neq c d)). Qed.

Lemma arg_head d a : arg_ok d a -> exists c t, a = c :: t /\ c <> d.
Proof. intros (Ha & Hd & _). destruct a as [|c t]; [done|]. exists c, t. split; [done|]. intros ->. apply Hd. left. Qed.

Lemma skip_arg d a s : arg_ok d a -> skip d (a ++ s) = a ++ s.
Proof. intros (c & t & -> & Hc)%arg_head. by apply skip_other. Qed.

Lemma StrChr_absent s d : d ∉ s -> StrChr s d = None.
Proof.
  intros Hd. unfold StrChr. destruct (list_find _ s) as [[i x]|] eqn:E; [|done]. apply list_find_Some in E as (Hi & -> & _).
  destruct Hd. by apply list_elem_of_lookup_2 with i.
Qed.

Lemma StrChr_first a d s : d ∉ a -> StrChr (a ++ d :: s) d = Some (length a).
Proof.
  intros Hd. unfold StrChr. rewrite list_find_app_r.
  - cbn. rewrite decide_True by done. cbn. f_equal; lia.
  - apply list_find_None, Forall_forall. intros x Hx ->. done.
Qed.

Lemma parse_loop d maxArgs args : forall done_ fuel,
  Forall (arg_ok d) args -> length done_ + length args <= maxArgs -> args <> [] -> (length args <= fuel)%nat ->
  ParseLine_loop fuel (joined d args) done_ maxArgs d =
    Some (mkParsed (length done_ + length args) (done_ ++ args) (Some (length done_ + length args))).
Proof.
  induction args as [|a args IH]; intros done_ [|fuel] Hok Hmax Hne Hf; try done; try (cbn in Hf; lia).
  apply Forall_cons in Hok as [Ha Hok]. cbn [ParseLine_loop]. cbn [length] in *.
  rewrite (proj2 (Z.ltb_lt _ _)) by lia.
  assert (exists c t, joined d (a :: args) = c :: t) as (c & t & Hj).
  { destruct (arg_head _ _ Ha) as (c & t & -> & _). destruct args; eauto. }
  rewrite bool_decide_false by (rewrite Hj; done). cbn [negb andb].
  assert (forall s, (d =? ENV_DELIMITER) && negb (bool_decide (head (a ++ s) = Some slash)) = false) as Hhead.
  { intros s. destruct (Z.eqb_spec d ENV_DELIMITER) as [E|E]; [|done]. destruct Ha as (Hna & _ & Hs). specialize (Hs E).
    destruct a as [|x a]; [done|]. cbn in *. by rewrite bool_decide_true. }
  destruct args as [|b args].
  - cbn [joined]. pose proof (skip_arg d a [] Ha) as Hs. rewrite app_nil_r in Hs. rewrite Hs.
    specialize (Hhead []). rewrite app_nil_r in Hhead. rewrite Hhead, StrChr_absent by apply Ha. cbn [length]. done.
  - rewrite joined_cons, skip_arg, Hhead, StrChr_first by (done || apply Ha).
    rewrite drop_app_length, take_app_length. cbn [skip]. rewrite Z.eqb_refl.
    assert (skip d (joined d (b :: args)) = joined d (b :: args)) as ->.
    { apply Forall_cons in Hok as [Hb _]. destruct args as [|e args]; [|rewrite joined_cons; by apply skip_arg].
      cbn [joined]. rewrite <- (app_nil_r b) at 1. rewrite skip_arg by done. apply app_nil_r. }
    cbn [length] in *. rewrite IH; [|done|rewrite length_app; cbn [length]; lia|done|cbn [length] in *; lia].
    rewrite length_app, <- app_assoc. cbn [length app]. do 2 f_equal; [lia|]. f_equal. lia.
Qed.

Lemma joined_length d args : Forall (fun a : str => a <> []) args -> (length args <= S (length (joined d args)))%nat.
Proof.
  induction 1 as [|a args Ha _ IH]; [cbn; lia|]. destruct args as [|b args]; [cbn; lia|]. rewrite joined_cons, length_app. cbn [length] in *.
  destruct a; [done|]. cbn [length]. lia.
Qed.

Lemma build_refused d bufLen args : forall buf argc,
  args <> [] -> bufLen <= length buf + length (joined d args) + 1 -> snd (BuildLine_loop buf bufLen args argc d) = -1.
Proof.
  induction args as [|a args IH]; intros buf argc Hne Hl; [done|]. cbn [BuildLine_loop].
  destruct (Z.geb_spec (length buf + length a + 1) bufLen); [done|]. destruct args as [|b args]; [cbn [joined] in Hl; lia|].
  apply IH; [done|]. rewrite joined_cons, length_app in Hl. rewrite !length_app. cbn [length] in *. lia.
Qed.

(** A line built from arguments that are not empty and hold no delimiter (and,
    for an environment, are absolute paths) is parsed into the same arguments, with
    null behind the last, when the buffer and the array are large enough; a line
    that does not fit is refused. *)
Theorem line_roundtrip d bufLen maxArgs args :
  Forall (arg_ok d) args -> args <> [] -> length args <= maxArgs ->
  (length (joined d args) + 1 < bufLen ->
     BuildLine bufLen args d = (joined d args, Z.of_nat (length args)) /\
     ParseLine (Some (joined d args)) maxArgs d = Some (mkParsed (length args) args (Some (Z.of_nat (length args))))) /\
  (bufLen <= length (joined d args) + 1 -> snd (BuildLine bufLen args d) = -1).
Proof.
  intros Hok Hne Hmax. split.
  - intros Hl. unfold BuildLine, ParseLine. rewrite (proj2 (Z.eqb_neq bufLen 0)) by lia. rewrite build_loop by (cbn; lia).
    split; [done|]. assert (0 < length args) by (destruct args; [done|cbn; lia]). rewrite (proj2 (Z.eqb_neq maxArgs 0)) by lia.
    assert (length args <= S (length (joined d args)))%nat as Hlen by (apply joined_length; by apply (Forall_impl _ _ _ Hok); intros a [? _]).
    rewrite (parse_loop d maxArgs args [] _ Hok ltac:(cbn; lia) Hne Hlen). done.
  - intros Hl. unfold BuildLine. destruct (Z.eqb_spec bufLen 0); [done|]. apply build_refused; [done|cbn; lia].
Qed.

Lemma line_roundtrip_witness :
  let args := [[47; 98; 105; 110]; [47; 115]] in
  BuildLine 64 args ENV_DELIMITER = ([47; 98; 105; 110; 58; 47; 115], 2) /\
  ParseLine (Some [47; 98; 105; 110; 58; 47; 115]) 16 ENV_DELIMITER = Some (mkParsed 2 args (Some 2)).
Proof.
  intros args. apply (line_roundtrip ENV_DELIMITER 64 16 args); [|discriminate|cbn; lia|cbn; lia].
  repeat (apply Forall_cons; split; [split; [discriminate|split; [rewrite !elem_of_cons, elem_of_nil; unfold ENV_DELIMITER; lia|reflexivity]]|]).
  constructor.
Defined.

(** *** What goes wrong at the edges *)

(** Behind a trailing delimiter, or when the array is full, null is stored one
    index too far: the argument behind the last is left as it was, and for a full
    array of [maxArgs + 1] entries the store is outside of it. *)
Example null_too_far :
  NX_CmdToArray (Some [97; 32]) 8 = Some (mkParsed 1 [[97]] (Some 2)) /\
  NX_CmdToArray (Some [97; 32; 98]) 1 = Some (mkParsed 1 [[97]] (Some 2)).
Proof. by vm_compute. Qed.

(** A line of delimiters is one empty argument. *)
Example blank_line : NX_CmdToArray (Some [32; 32]) 8 = Some (mkParsed 1 [[]] (Some 1)).
Proof. by vm_compute. Qed.
