(* ===== verification/Elf.v ===== *)
(** Loading a program: [include/base/elf.h] and the loader of
    [process/process.c] (up to [NX_ProcessLoadImage]).

    The loader reads a file through the calls of the virtual file system, maps
    the segments of the program into an address space, and copies the data to the
    physical pages behind it.  The three parts are the interfaces [FileOps],
    [MmuOps] (Mmu.v) and the memory of Vmspace.v; ElfFiles.v shows that the
    virtual file system fulfils [FileLaws].  A failed assertion is [None]. *)
From S2P Require Import Prelude Bits Mmu Vmspace VfsPath.
#[local] Coercion Z.of_nat : nat >-> Z.

(** ** [elf.h] *)
Definition EI_NIDENT : Z := 16.
Definition EI_CLASS : nat := 4.
Definition EI_VERSION : nat := 6.
Definition SELFMAG : Z := 4.
Definition ELFMAG : list Z := [0x7f; 69; 76; 70].
Definition EM_RISCV : Z := 243.
Definition PT_LOAD : Z := 1.

Record Elf_Ehdr := mkEhdr {
  e_ident : list Z; e_type : Z; e_machine : Z; e_version : Z; e_entry : Z; e_phoff : Z; e_shoff : Z; e_flags : Z;
  e_ehsize : Z; e_phentsize : Z; e_phnum : Z; e_shentsize : Z; e_shnum : Z; e_shstrndx : Z }.

Record Elf_Phdr := mkPhdr {
  p_type : Z; p_flags : Z; p_offset : Z; p_vaddr : Z; p_paddr : Z; p_filesz : Z; p_memsz : Z; p_align : Z }.

Definition sizeof_Ehdr : Z := 64.
Definition sizeof_Phdr : Z := 56.

(** The number of [n] bytes at [off], the lowest first. *)
Definition le (b : list Z) (off n : nat) : Z := foldr (fun x v => x + 256 * v) 0 (take n (drop off b)).

(** The bytes of a number. *)
Fixpoint le_bytes (n : nat) (x : Z) : list Z :=
  match n with O => [] | S n => x mod 256 :: le_bytes n (x / 256) end.

(** The header in the bytes read into it. *)
Definition ehdr_of (b : list Z) : Elf_Ehdr :=
  mkEhdr (take 16 b) (le b 16 2) (le b 18 2) (le b 20 4) (le b 24 8) (le b 32 8) (le b 40 8) (le b 48 4)
    (le b 52 2) (le b 54 2) (le b 56 2) (le b 58 2) (le b 60 2) (le b 62 2).
Definition phdr_of (b : list Z) : Elf_Phdr :=
  mkPhdr (le b 0 4) (le b 4 4) (le b 8 8) (le b 16 8) (le b 24 8) (le b 32 8) (le b 40 8) (le b 48 8).

(** ** The calls of the file system

    Over the state of the files; a read answers the count and the bytes stored
    into the buffer. *)
Definition NX_VFS_O_RDONLY : Z := 1.
Definition NX_VFS_SEEK_SET : Z := 0.
Definition NX_VFS_SEEK_END : Z := 2.

Class FileOps (F : Type) := {
  file_open : F -> str -> Z -> Z -> option (F * Z * NX_Error);    (* path, flags, mode *)
  file_seek : F -> Z -> Z -> Z -> option (F * Z * NX_Error);      (* fd, off, whence *)
  file_read : F -> Z -> Z -> option (F * Z * list Z);             (* fd, len *)
  file_close : F -> Z -> option (F * NX_Error)                    (* fd *)
}.

(** Descriptor [fd] is open for reading on a file of bytes [d], at offset [o]. *)
Class FileLaws (F : Type) `{FileOps F} := {
  file_at : F -> Z -> list Z -> Z -> Prop;
  file_small : forall s fd d o, file_at s fd d o -> 0 <= fd /\ length d < 2 ^ 62;
  seek_set_law : forall s fd d (o off : Z), file_at s fd d o -> 0 <= off <= length d ->
    exists s', file_seek s fd off NX_VFS_SEEK_SET = Some (s', off, NX_EOK) /\ file_at s' fd d off;
  seek_end_law : forall s fd d (o : Z), file_at s fd d o ->
    exists s', file_seek s fd 0 NX_VFS_SEEK_END = Some (s', Z.of_nat (length d), NX_EOK) /\ file_at s' fd d (length d);
  read_law : forall s fd d (o n : Z), file_at s fd d o -> 0 <= o -> 0 < n -> o + n <= length d ->
    exists s', file_read s fd n = Some (s', n, take (Z.to_nat n) (drop (Z.to_nat o) d)) /\ file_at s' fd d (o + n);
  close_law : forall s fd d (o : Z), file_at s fd d o -> exists s', file_close s fd = Some (s', NX_EOK)
}.

Section loader.
Context {F : Type} `{FileOps F} {M : Type} `{MmuOps M}.
(** The attributes of user pages, and what [NX_MemAlloc] gives for a node when
    those of the list are in use. *)
Variable NX_PAGE_ATTR_USER : Z.
Variable node_alloc : list NX_Vmnode -> option Z.
Implicit Types (s : F) (sp : NX_Vmspace M) (m : memory).

(** The riscv build. *)
Definition NX_LoadCheckMachine (machineType : Z) : NX_Error :=
  if negb (machineType =? EM_RISCV) then NX_EINVAL else NX_EOK.

Definition byte (b : list Z) (i : nat) : Z := default 0 (b !! i).

(** The header is what is left in [elfHeader]. *)
Definition NX_LoadCheck s (fd len : Z) sp : option (F * option Elf_Ehdr * NX_Error) :=
  if len <? sizeof_Ehdr then Some (s, None, NX_EINVAL)
  else
    '(s, r, _) ← file_seek s fd 0 NX_VFS_SEEK_SET;
    if negb (r =? 0) then Some (s, None, NX_EFAULT)
    else
      '(s, n, elfMagic) ← file_read s fd SELFMAG;
      if negb (n =? SELFMAG) then Some (s, None, NX_EIO)
      else if negb (bool_decide (take 4 elfMagic = ELFMAG)) then Some (s, None, NX_EINVAL)
      else
        '(s, r, _) ← file_seek s fd 0 NX_VFS_SEEK_SET;
        if negb (r =? 0) then Some (s, None, NX_EFAULT)
        else
          '(s, n, b) ← file_read s fd sizeof_Ehdr;
          if negb (n =? sizeof_Ehdr) then Some (s, None, NX_EIO)
          else
            let elfHeader := ehdr_of b in
            let err :=
              if negb (is_ok (NX_LoadCheckMachine (e_machine elfHeader))) then NX_EINVAL
              else if negb (byte (e_ident elfHeader) EI_CLASS =? 2) then NX_EINVAL
              else if negb (byte (e_ident elfHeader) EI_VERSION =? 1) then NX_EINVAL
              else if negb (e_entry elfHeader =? imageStart sp) then NX_EINVAL
              else NX_EOK in
            Some (s, Some elfHeader, err).

(** The head of both loops over the program headers: reading one. *)
Definition read_phdr s (fd len off : Z) : option (F * (Elf_Phdr + NX_Error)) :=
  if u64 off >? len then Some (s, inr NX_EFAULT)
  else
    '(s, r, _) ← file_seek s fd off NX_VFS_SEEK_SET;
    if negb (r =? off) then Some (s, inr NX_EFAULT)
    else
      '(s, n, b) ← file_read s fd sizeof_Phdr;
      if negb (n =? sizeof_Phdr) then Some (s, inr NX_EIO) else Some (s, inl (phdr_of b)).

(** [n] headers to go. *)
Fixpoint LoadMap_loop (n : nat) s (fd len : Z) sp (off : Z) : option (F * NX_Vmspace M * NX_Error) :=
  match n with
  | O => Some (s, sp, NX_EOK)
  | S n =>
      '(s, r) ← read_phdr s fd len off;
      match r with
      | inr err => Some (s, sp, err)
      | inl progHeader =>
          '(sp, err) ←
            (if p_type progHeader =? PT_LOAD then
               let size := Z.max (p_filesz progHeader) (p_memsz progHeader) in
               let addr := p_vaddr progHeader in
               '(sp, err, mappedAddr) ← NX_VmspaceMap (node_alloc (spaceNodeList sp)) sp addr size NX_PAGE_ATTR_USER 0;
               if negb (is_ok err) then Some (sp, NX_ENOMEM)
               else if negb (mappedAddr =? addr) then Some (sp, NX_EFAULT)
               else Some (sp, NX_EOK)
             else Some (sp, NX_EOK));
          if negb (is_ok err) then Some (s, sp, err) else LoadMap_loop n s fd len sp (i64 (off + sizeof_Phdr))
      end
  end.

Definition NX_LoadMapUserSpace s (fd len : Z) sp (elfHeader : Elf_Ehdr) : option (F * NX_Vmspace M * NX_Error) :=
  LoadMap_loop (Z.to_nat (e_phnum elfHeader)) s fd len sp (i64 (e_phoff elfHeader)).

(** Bytes stored from [a] on, and [NX_MemZero]. *)
Definition store_bytes m (a : Z) (bs : list Z) : memory := fun x => default (m x) (zlookup bs (x - a)).
Definition NX_MemZero m (a n : Z) : memory := fun x => if (a <=? x) && (x <? a + n) then 0 else m x.

(** The loop that reads the data of a segment; [inl] is [readLen] at its end. *)
Fixpoint LoadData_loop (fuel : nat) s m (fd : Z) sp (size vaddr readLen : Z) : option (F * memory * (Z + NX_Error)) :=
  match fuel with
  | O => None
  | S fuel =>
      if size >? 0 then
        paddr ← vir2Phy (mmu sp) vaddr;
        assert (nz paddr);;
        let vaddrSelf := NX_Phy2Virt paddr in
        let chunk := if size <? NX_PAGE_SIZE then size else NX_PAGE_SIZE in
        '(s, n, b) ← file_read s fd chunk;
        let m := store_bytes m vaddrSelf b in
        if negb (n =? chunk) then Some (s, m, inr NX_EIO)
        else LoadData_loop fuel s m fd sp (size - chunk) (u64 (vaddr + chunk)) (u64 (readLen + chunk))
      else Some (s, m, inl readLen)
  end.

Fixpoint ClearBss_loop (fuel : nat) m sp (bssSize bssOff vaddr : Z) : option memory :=
  match fuel with
  | O => None
  | S fuel =>
      if bssSize >? 0 then
        let chunk := if bssSize <? NX_PAGE_SIZE - bssOff then bssSize else NX_PAGE_SIZE - bssOff in
        paddr ← vir2Phy (mmu sp) vaddr;
        assert (nz paddr);;
        let vaddrSelf := NX_Phy2Virt paddr in
        ClearBss_loop fuel (NX_MemZero m (vaddrSelf + bssOff) chunk) sp (bssSize - chunk) 0 (u64 (vaddr + NX_PAGE_SIZE))
      else Some m
  end.

(** Every turn but the first and the last of a loop takes a page. *)
Definition turns (size : Z) : nat := S (S (Z.to_nat (size / NX_PAGE_SIZE + 1))).

Definition LoadSegment s m (fd len : Z) sp (progHeader : Elf_Phdr) : option (F * memory * NX_Error) :=
  if p_filesz progHeader >? p_memsz progHeader then Some (s, m, NX_ERROR)
  else if p_offset progHeader >? len then Some (s, m, NX_ERROR)
  else
    '(s, r, _) ← file_seek s fd (i64 (p_offset progHeader)) NX_VFS_SEEK_SET;
    if negb (u64 r =? p_offset progHeader) then Some (s, m, NX_EIO)
    else
      '(s, m, r) ← LoadData_loop (turns (p_filesz progHeader)) s m fd sp (p_filesz progHeader) (p_vaddr progHeader) 0;
      match r with
      | inr err => Some (s, m, err)
      | inl readLen =>
          if negb (readLen =? p_filesz progHeader) then Some (s, m, NX_EIO)
          else if p_filesz progHeader <? p_memsz progHeader then
            m ← ClearBss_loop (turns (p_memsz progHeader - p_filesz progHeader)) m sp
                  (p_memsz progHeader - p_filesz progHeader) (Z.land (p_filesz progHeader) NX_PAGE_MASK)
                  (Z.land (u64 (p_vaddr progHeader + p_filesz progHeader)) (not64 NX_PAGE_MASK));
            Some (s, m, NX_EOK)
          else Some (s, m, NX_EOK)
      end.

Fixpoint LoadFile_loop (n : nat) s m (fd len : Z) sp (progOff memSize : Z) : option (F * memory * (Z + NX_Error)) :=
  match n with
  | O => Some (s, m, inl memSize)
  | S n =>
      '(s, r) ← read_phdr s fd len progOff;
      match r with
      | inr err => Some (s, m, inr err)
      | inl progHeader =>
          '(s, m, err, memSize) ←
            (if p_type progHeader =? PT_LOAD then
               '(s, m, err) ← LoadSegment s m fd len sp progHeader;
               Some (s, m, err, u64 (memSize + p_memsz progHeader))
             else Some (s, m, NX_EOK, memSize));
          if negb (is_ok err) then Some (s, m, inr err)
          else LoadFile_loop n s m fd len sp (i64 (progOff + sizeof_Phdr)) memSize
      end
  end.

Definition NX_LoadFileData s m (fd len : Z) sp (elfHeader : Elf_Ehdr) : option (F * memory * NX_Vmspace M * NX_Error) :=
  '(s, m, r) ← LoadFile_loop (Z.to_nat (e_phnum elfHeader)) s m fd len sp (i64 (e_phoff elfHeader)) 0;
  match r with
  | inr err => Some (s, m, sp, err)
  | inl memSize => Some (s, m, NX_VmspaceResizeImage sp memSize, NX_EOK)
  end.

Definition NX_LoadElf s m (fd len : Z) sp : option (F * memory * NX_Vmspace M * NX_Error) :=
  if (fd <? 0) || negb (nz len) then Some (s, m, sp, NX_EINVAL)
  else
    '(s, hdr, err) ← NX_LoadCheck s fd len sp;
    match hdr with
    | Some elfHeader =>
        if negb (is_ok err) then Some (s, m, sp, err)
        else
          '(s, sp, err) ← NX_LoadMapUserSpace s fd len sp elfHeader;
          if negb (is_ok err) then Some (s, m, sp, err) else NX_LoadFileData s m fd len sp elfHeader
    | None => Some (s, m, sp, err)
    end.

Definition close_with s m (fd : Z) sp (err : NX_Error) : option (F * memory * NX_Vmspace M * NX_Error) :=
  '(s, _) ← file_close s fd; Some (s, m, sp, err).

Definition NX_ProcessLoadImage s m sp (path : str) : option (F * memory * NX_Vmspace M * NX_Error) :=
  assert (nz (table sp));;
  '(s, fd, _) ← file_open s path NX_VFS_O_RDONLY 0;
  if fd <? 0 then Some (s, m, sp, NX_ENOSRCH)
  else
    '(s, len, err) ← file_seek s fd 0 NX_VFS_SEEK_END;
    if negb (nz len) || negb (is_ok err) then close_with s m fd sp NX_ENOSRCH
    else
      '(s, r, _) ← file_seek s fd 0 NX_VFS_SEEK_SET;
      if negb (r =? 0) then close_with s m fd sp NX_ENOSRCH
      else if u64 len >? u64 (imageEnd sp - imageStart sp) then close_with s m fd sp NX_EFAULT
      else
        '(s, m, sp, err) ← NX_LoadElf s m fd (u64 len) sp;
        if negb (is_ok err) then close_with s m fd sp err
        else '(s, err) ← file_close s fd; assert (is_ok err);; Some (s, m, sp, NX_EOK).
End loader.

(** ** Writing to physical pages *)

(** [to k] holds [val k] for [lo <= k < hi], and nothing else has changed. *)
Definition written (m m' : memory) (to val : Z -> Z) (lo hi : Z) : Prop :=
  (forall k, lo <= k < hi -> m' (to k) = val k) /\ (forall a, (forall k, lo <= k < hi -> a <> to k) -> m' a = m a).

Lemma written_none m to val lo hi : hi <= lo -> written m m to val lo hi.
Proof. intros. split; [intros; lia|done]. Qed.

Lemma written_app m m1 m2 to val lo mid hi :
  lo <= mid <= hi -> (forall i j, lo <= i < mid -> mid <= j < hi -> to i <> to j) ->
  written m m1 to val lo mid -> written m1 m2 to val mid hi -> written m m2 to val lo hi.
Proof.
  intros Hm Hd [H1 K1] [H2 K2]. split.
  - intros k Hk. destruct (Z.lt_ge_cases k mid); [|apply H2; lia]. rewrite K2; [apply H1; lia|]. intros j Hj. apply Hd; lia.
  - intros a Ha. rewrite K2, K1; [done| |]; intros k Hk; apply Ha; lia.
Qed.

Lemma written_ext m m' to to' val val' lo hi :
  (forall k, lo <= k < hi -> to k = to' k /\ val k = val' k) -> written m m' to val lo hi -> written m m' to' val' lo hi.
Proof.
  intros He [H1 H2]. split.
  - intros k Hk. destruct (He k Hk) as [<- <-]. auto.
  - intros a Ha. apply H2. intros k Hk. destruct (He k Hk) as [-> _]. auto.
Qed.

(** Byte [i] of a file. *)
Definition file_byte (d : list Z) (i : Z) : Z := default 0 (zlookup d i).

Lemma store_bytes_written m a (bs : list Z) : written m (store_bytes m a bs) (fun k => a + k) (file_byte bs) 0 (length bs).
Proof.
  unfold store_bytes, file_byte. split.
  - intros k Hk. replace (a + k - a) with k by lia. unfold zlookup. rewrite (proj2 (Z.leb_le 0 k)) by lia.
    destruct (lookup_lt_is_Some_2 bs (Z.to_nat k)) as [x ->]; [lia|done].
  - intros b Hb. destruct (zlookup bs (b - a)) as [x|] eqn:E; [|done]. apply zlookup_Some in E as [H0 Hx].
    apply lookup_lt_Some in Hx. destruct (Hb (b - a)); lia.
Qed.

Lemma file_byte_slice d (o n k : Z) :
  0 <= o -> 0 <= k < n -> file_byte (take (Z.to_nat n) (drop (Z.to_nat o) d)) k = file_byte d (o + k).
Proof.
  intros Ho Hk. unfold file_byte, zlookup. rewrite !(proj2 (Z.leb_le 0 _)) by lia.
  rewrite lookup_take_lt, lookup_drop by lia. do 2 f_equal. lia.
Qed.

Lemma MemZero_written m a n : written m (NX_MemZero m a n) (fun k => a + k) (fun _ => 0) 0 n.
Proof.
  unfold NX_MemZero. split.
  - intros k Hk. by rewrite (proj2 (Z.leb_le _ _)), (proj2 (Z.ltb_lt _ _)) by lia.
  - intros b Hb. destruct ((a <=? b) && (b <? a + n)) eqn:E; [|done]. bool2prop. destruct (Hb (b - a)); lia.
Qed.

Lemma written_shift m m' to val lo hi c : written m m' (fun k => to (c + k)) (fun k => val (c + k)) lo hi ->
  written m m' to val (c + lo) (c + hi).
Proof.
  intros [H1 H2]. split.
  - intros k Hk. replace k with (c + (k - c)) by lia. apply H1. lia.
  - intros a Ha. apply H2. intros k Hk. apply Ha. lia.
Qed.

(** Addresses of one page are in one frame. *)
Lemma phys_page pf a b : a / NX_PAGE_SIZE = b / NX_PAGE_SIZE -> phys pf a = phys pf b + (a - b).
Proof. unfold phys, NX_PAGE_SIZE. intros E. rewrite E. zlia. Qed.

(** ** Loading one segment *)
Definition frame_of {M} `{MmuOps M} (m : M) (pg : Z) : Z := from_option fst 0 (translate m pg).

Section segment.
Context {F : Type} `{FileLaws F} {M : Type} `{MmuLaws M}.
Context (sp : NX_Vmspace M) (base size : Z).
Context (Hmmu : mmu_ok (mmu sp)) (Hbase : 0 <= base) (Htop : base + size < 2 ^ 62) (Hal : base mod NX_PAGE_SIZE = 0).
Context (Hpages : forall k, 0 <= k < size -> exists f at_, translate (mmu sp) ((base + k) / NX_PAGE_SIZE) = Some (f, at_) /\ 0 < f).

(** Where byte [k] of the segment is. *)
Definition place (m : M) (base k : Z) : Z := phys (frame_of m) (base + k).

Lemma place_vir2Phy k :
  0 <= k < size -> vir2Phy (mmu sp) (base + k) = Some (place (mmu sp) base k) /\ 0 < place (mmu sp) base k.
Proof.
  intros Hk. destruct (Hpages k Hk) as (f & at_ & Ht & Hf).
  rewrite (vir2Phy_law (mmu sp) (base + k) f at_) by (done || lia). unfold place, phys, frame_of. rewrite Ht.
  split; [done|]. cbn. unfold NX_PAGE_SIZE in *. zlia.
Qed.

Context (Hdist : forall i j, 0 <= i < size -> 0 <= j < size -> place (mmu sp) base i = place (mmu sp) base j -> i = j).

Lemma place_chunk k c i :
  k mod NX_PAGE_SIZE + c <= NX_PAGE_SIZE -> 0 <= i < c -> place (mmu sp) base (k + i) = place (mmu sp) base k + i.
Proof.
  intros Hc Hi. unfold place. rewrite (phys_page _ (base + (k + i)) (base + k)); [lia|].
  unfold NX_PAGE_SIZE in *. zlia.
Qed.

Lemma LoadData_loop_spec fd d (o fsz : Z) fuel : forall s m (k : Z),
  file_at s fd d (o + k) -> 0 <= o -> o + fsz <= length d -> fsz <= size -> 0 <= k <= fsz ->
  (k < fsz -> k mod NX_PAGE_SIZE = 0) -> (if decide (k = fsz) then 1 else (fsz - k) / NX_PAGE_SIZE + 2) <= Z.of_nat fuel ->
  exists s' m', LoadData_loop fuel s m fd sp (fsz - k) (base + k) k = Some (s', m', inl fsz) /\
    file_at s' fd d (o + fsz) /\
    written m m' (place (mmu sp) base) (fun i => file_byte d (o + i)) k fsz.
Proof.
  induction fuel as [|fuel IH]; intros s m k Hs Ho Hlen Hfsz Hk Hkal Hfuel.
  { exfalso. unfold NX_PAGE_SIZE in Hfuel. case_decide; clear - Hfuel Hk; zlia. }
  cbn [LoadData_loop]. destruct (Z.gtb_spec (fsz - k) 0) as [Hpos|Hz].
  2:{ assert (k = fsz) as -> by lia. exists s, m. split; [done|]. split; [done|]. apply written_none. lia. }
  rewrite decide_False in Hfuel by lia.
  destruct (place_vir2Phy k ltac:(lia)) as [-> Hp]. rewrite Some_bind. unfold nz. rewrite (proj2 (Z.eqb_neq _ 0)) by lia.
  cbn [negb]. rewrite assert_true. unfold NX_Phy2Virt. cbv zeta.
  set (c := if fsz - k <? NX_PAGE_SIZE then fsz - k else NX_PAGE_SIZE).
  assert (Hc : 0 < c <= NX_PAGE_SIZE /\ c <= fsz - k /\ (c = fsz - k \/ c = NX_PAGE_SIZE)).
  { unfold c, NX_PAGE_SIZE. destruct (Z.ltb_spec (fsz - k) 4096); lia. }
  destruct Hc as (Hc1 & Hc2 & Hc3). specialize (Hkal ltac:(lia)).
  destruct (read_law s fd d (o + k) c Hs) as (s1 & -> & Hs1); [lia..|]. rewrite Some_bind, Z.eqb_refl. cbn [negb].
  set (bs := take _ _). set (m1 := store_bytes _ _ _). rewrite !u64_small by lia.
  assert (Hw : written m m1 (place (mmu sp) base) (fun i => file_byte d (o + i)) (k + 0) (k + c)).
  { apply written_shift. replace c with (Z.of_nat (length bs)) at 1 by (unfold bs; rewrite length_take, length_drop; lia).
    eapply written_ext; [|apply store_bytes_written]. intros i Hi. cbv beta.
    assert (i < c) by (unfold bs in Hi; rewrite length_take, length_drop in Hi; lia).
    split; [symmetry; apply (place_chunk k c); lia|]. unfold bs. rewrite file_byte_slice by lia. f_equal. lia. }
  replace (fsz - k - c) with (fsz - (k + c)) by lia. replace (base + k + c) with (base + (k + c)) by lia.
  destruct (IH s1 m1 (k + c)) as (s2 & m2 & -> & Hs2 & Hw2); try done; try lia.
  - by rewrite Z.add_assoc.
  - intros ?. destruct Hc3 as [?|E]; [lia|rewrite E]. unfold NX_PAGE_SIZE in *. clear - Hkal. zlia.
  - clearbody c. unfold NX_PAGE_SIZE in *. case_decide as E; clear - Hfuel Hpos Hc3 Hc1 E; zlia.
  - exists s2, m2. split; [done|]. split; [done|]. rewrite Z.add_0_r in Hw.
    apply (written_app m m1 m2 _ _ k (k + c) fsz); [lia| |done|done].
    intros i j Hi Hj E. apply Hdist in E; lia.
Qed.

Lemma ClearBss_loop_spec msz fuel : forall m (k : Z),
  0 <= k <= msz -> msz <= size -> 
  (if decide (k = msz) then 1 else (msz - k + k mod NX_PAGE_SIZE) / NX_PAGE_SIZE + 2) <= Z.of_nat fuel ->
  exists m', ClearBss_loop fuel m sp (msz - k) (k mod NX_PAGE_SIZE) (base + (k - k mod NX_PAGE_SIZE)) = Some m' /\
    written m m' (place (mmu sp) base) (fun _ => 0) k msz.
Proof.
  induction fuel as [|fuel IH]; intros m k Hk Hmsz Hfuel.
  { exfalso. unfold NX_PAGE_SIZE in Hfuel. case_decide; clear - Hfuel Hk; zlia. }
  cbn [ClearBss_loop]. destruct (Z.gtb_spec (msz - k) 0) as [Hpos|Hz].
  2:{ assert (k = msz) as -> by lia. exists m. split; [done|]. apply written_none. lia. }
  rewrite decide_False in Hfuel by lia.
  assert (Hr : 0 <= k mod NX_PAGE_SIZE < NX_PAGE_SIZE /\ k mod NX_PAGE_SIZE <= k) by (unfold NX_PAGE_SIZE; zlia).
  set (r := k mod NX_PAGE_SIZE) in *. destruct Hr as [Hr1 Hr2].
  set (c := if msz - k <? NX_PAGE_SIZE - r then msz - k else NX_PAGE_SIZE - r).
  assert (Hc : 0 < c <= NX_PAGE_SIZE - r /\ c <= msz - k /\ (c = msz - k \/ c = NX_PAGE_SIZE - r)).
  { unfold c, NX_PAGE_SIZE in *. destruct (Z.ltb_spec (msz - k) (4096 - r)); lia. }
  destruct Hc as (Hc1 & Hc2 & Hc3).
  destruct (place_vir2Phy (k - r) ltac:(lia)) as [-> Hp]. rewrite Some_bind. unfold nz. rewrite (proj2 (Z.eqb_neq _ 0)) by lia.
  cbn [negb]. rewrite assert_true. unfold NX_Phy2Virt. cbv zeta.
  assert (Hr0 : (k - r) mod NX_PAGE_SIZE = 0) by (unfold r, NX_PAGE_SIZE; clear; zlia).
  assert (Hpk : place (mmu sp) base (k - r) + r = place (mmu sp) base k).
  { replace k with (k - r + r) at 2 by lia. symmetry. apply (place_chunk (k - r) NX_PAGE_SIZE); lia. }
  rewrite Hpk. set (m1 := NX_MemZero _ _ _).
  assert (Hw : written m m1 (place (mmu sp) base) (fun _ => 0) (k + 0) (k + c)).
  { apply written_shift. eapply written_ext; [|apply MemZero_written]. intros i Hi. cbv beta. split; [|done].
    symmetry. apply (place_chunk k c); unfold r in *; lia. }
  rewrite Z.add_0_r in Hw.
  assert (Hjoin : forall m2, written m1 m2 (place (mmu sp) base) (fun _ => 0) (k + c) msz -> written m m2 (place (mmu sp) base) (fun _ => 0) k msz).
  { intros m2. apply written_app; [lia| |done]. intros i j Hi Hj E. apply Hdist in E; lia. }
  destruct Hc3 as [Hc3|Hc3].
  - (* the last chunk *)
    rewrite Hc3. replace (msz - k - (msz - k)) with 0 by lia. exists m1. split; [|apply Hjoin, written_none; lia].
    destruct fuel; [|done]. exfalso. unfold NX_PAGE_SIZE in *. clearbody r. clear - Hfuel Hpos Hr1. zlia.
  - assert (Hnext : (k + c) mod NX_PAGE_SIZE = 0) by (rewrite Hc3; unfold r, NX_PAGE_SIZE; clear; zlia).
    destruct (IH m1 (k + c)) as (m2 & Hrun & Hw2); [lia|done| |].
    + rewrite Hnext. unfold NX_PAGE_SIZE in *. clearbody c r. case_decide as E; clear - Hfuel Hc3 Hr1 Hpos E; zlia.
    + rewrite Hnext, Z.sub_0_r in Hrun. exists m2. split; [|by apply Hjoin].
      rewrite <- Hrun. f_equal; [lia|]. rewrite u64_small; unfold NX_PAGE_SIZE in *; lia.
Qed.

(** Byte [k] of a loaded segment. *)
Definition seg_byte (d : list Z) (ph : Elf_Phdr) (k : Z) : Z :=
  if k <? p_filesz ph then file_byte d (p_offset ph + k) else 0.

Lemma bss_start v fsz : 0 <= v -> v mod NX_PAGE_SIZE = 0 -> 0 <= fsz -> v + fsz < 2 ^ 62 ->
  Z.land fsz NX_PAGE_MASK = fsz mod NX_PAGE_SIZE /\
  Z.land (u64 (v + fsz)) (not64 NX_PAGE_MASK) = v + (fsz - fsz mod NX_PAGE_SIZE).
Proof.
  intros Hv Hvm Hf Hb. split; [change NX_PAGE_MASK with (Z.ones 12); by rewrite Z.land_ones|].
  rewrite u64_small by lia. change (NX_PAGE_ALIGNDOWN (v + fsz) = v + (fsz - fsz mod NX_PAGE_SIZE)).
  rewrite NX_PAGE_ALIGNDOWN_spec by lia. unfold NX_PAGE_SIZE in *. clear - Hvm. zlia.
Qed.

Lemma LoadSegment_spec fd d s m (o : Z) ph :
  file_at s fd d o -> base = p_vaddr ph -> size = p_memsz ph -> 0 <= p_filesz ph <= p_memsz ph -> 0 <= p_offset ph ->
  p_offset ph + p_filesz ph <= length d ->
  exists s' m' o', LoadSegment s m fd (length d) sp ph = Some (s', m', NX_EOK) /\ file_at s' fd d o' /\
    written m m' (place (mmu sp) base) (seg_byte d ph) 0 size.
Proof.
  intros Hs Eb Es Hsz Ho Hlen. destruct (file_small _ _ _ _ Hs) as [_ Hsmall].
  unfold LoadSegment. rewrite <- Eb, <- Es in *. rewrite !Z.gtb_ltb, !(proj2 (Z.ltb_ge _ _)) by lia.
  rewrite i64_small by lia. destruct (seek_set_law s fd d o (p_offset ph) Hs) as (s1 & -> & Hs1); [lia|].
  rewrite Some_bind, u64_small, Z.eqb_refl by lia. cbn [negb].
  set (fsz := p_filesz ph) in *.
  destruct (LoadData_loop_spec fd d (p_offset ph) fsz (turns fsz) s1 m 0) as (s2 & m2 & Hrun & Hs2 & Hw); try done; try lia.
  { by rewrite Z.add_0_r. }
  { unfold turns, NX_PAGE_SIZE. clear - Hsz. case_decide; zlia. }
  rewrite Z.sub_0_r, Z.add_0_r in Hrun. rewrite Hrun, Some_bind, Z.eqb_refl. cbn [negb].
  assert (Hdata : written m m2 (place (mmu sp) base) (seg_byte d ph) 0 fsz).
  { eapply written_ext; [|exact Hw]. intros k Hk. split; [done|]. unfold seg_byte. fold fsz. by rewrite (proj2 (Z.ltb_lt k fsz)) by lia. }
  destruct (Z.ltb_spec fsz size) as [Hbss|Hbss].
  - destruct (bss_start base fsz) as [-> ->]; try (done || lia).
    destruct (ClearBss_loop_spec size (turns (size - fsz)) m2 fsz) as (m3 & -> & Hw3); [lia|lia| |].
    { rewrite decide_False by lia. unfold turns, NX_PAGE_SIZE. clear - Hsz Hbss. zlia. }
    rewrite Some_bind. eexists s2, m3, _. split; [reflexivity|]. split; [exact Hs2|].
    apply (written_app m m2 m3 _ _ 0 fsz size); [lia| |done|].
    + intros i j Hi Hj E. apply Hdist in E; lia.
    + eapply written_ext; [|exact Hw3]. intros k Hk. split; [done|]. unfold seg_byte. fold fsz. by rewrite (proj2 (Z.ltb_ge k fsz)) by lia.
  - assert (size = fsz) as -> by lia. eexists s2, m2, _. split; [reflexivity|]. split; [exact Hs2|done].
Qed.
End segment.

(** ** The program headers of a file *)
Definition slice (d : list Z) (off n : Z) : list Z := take (Z.to_nat n) (drop (Z.to_nat off) d).

Fixpoint phdrs (d : list Z) (off : Z) (n : nat) : list Elf_Phdr :=
  match n with O => [] | S n => phdr_of (slice d off sizeof_Phdr) :: phdrs d (off + sizeof_Phdr) n end.

Definition loaded_segments (l : list Elf_Phdr) : list Elf_Phdr := filter (fun ph => p_type ph = PT_LOAD) l.

Definition ehdr (d : list Z) : Elf_Ehdr := ehdr_of (slice d 0 sizeof_Ehdr).
Definition segments (d : list Z) : list Elf_Phdr :=
  loaded_segments (phdrs d (e_phoff (ehdr d)) (Z.to_nat (e_phnum (ehdr d)))).

Definition bytes_ok (d : list Z) : Prop := Forall (fun b => 0 <= b < 256) d.

Lemma le_range b off n : bytes_ok b -> 0 <= le b off n < 2 ^ (8 * n).
Proof.
  intros Hb. unfold le. assert (Hl : bytes_ok (take n (drop off b))) by (by apply Forall_take, Forall_drop).
  assert (Hlen : (length (take n (drop off b)) <= n)%nat) by (rewrite length_take; lia).
  revert n Hl Hlen. generalize (drop off b) as x. intros x n. generalize (take n x) as l. intros l Hl. revert n.
  induction Hl as [|c l Hc _ IH]; intros n Hlen; cbn [foldr].
  - split; [done|]. apply Z.pow_pos_nonneg; lia.
  - destruct n as [|n]; [cbn in Hlen; lia|]. specialize (IH n ltac:(cbn in Hlen; lia)).
    replace (8 * Z.of_nat (S n)) with (8 + 8 * n) by lia. rewrite Z.pow_add_r by lia. change (2 ^ 8) with 256. lia.
Qed.

Lemma slice_ok d off n : bytes_ok d -> bytes_ok (slice d off n).
Proof. intros. by apply Forall_take, Forall_drop. Qed.

(** A program header of [d] read at [off]. *)
Lemma read_phdr_spec {F} `{FileLaws F} s fd d (o off : Z) :
  file_at s fd d o -> 0 <= off -> off + sizeof_Phdr <= length d ->
  exists s' o', read_phdr s fd (length d) off = Some (s', inl (phdr_of (slice d off sizeof_Phdr))) /\ file_at s' fd d o'.
Proof.
  intros Hs Hoff Hlen. destruct (file_small _ _ _ _ Hs) as [_ Hsmall]. unfold sizeof_Phdr in Hlen.
  unfold read_phdr. rewrite u64_small, Z.gtb_ltb, (proj2 (Z.ltb_ge _ _)) by lia.
  destruct (seek_set_law s fd d o off Hs) as (s1 & -> & Hs1); [lia|]. rewrite Some_bind, Z.eqb_refl. cbn [negb].
  destruct (read_law s1 fd d off sizeof_Phdr Hs1) as (s2 & -> & Hs2); [lia|done|done|].
  rewrite Some_bind, Z.eqb_refl. cbn [negb]. by eexists s2, _.
Qed.

(** The pages of a segment. *)
Definition in_segment (ph : Elf_Phdr) (a : Z) : Prop := p_vaddr ph <= a < p_vaddr ph + NX_PAGE_ALIGNUP (p_memsz ph).

Definition apart (a b : Elf_Phdr) : Prop := forall x, in_segment a x -> ~ in_segment b x.

(** A segment that can be loaded into a space. *)
Record seg_ok {M} (len : Z) (sp : NX_Vmspace M) (ph : Elf_Phdr) : Prop := {
  seg_size : 0 <= p_filesz ph <= p_memsz ph /\ 0 < p_memsz ph;
  seg_data : 0 <= p_offset ph /\ p_offset ph + p_filesz ph <= len;
  seg_page : p_vaddr ph mod NX_PAGE_SIZE = 0;
  seg_place : spaceBase sp <= p_vaddr ph /\ p_vaddr ph + p_memsz ph <= spaceTop sp
}.

(** ** Mapping the segments *)
Section mapping.
Context {F : Type} `{FileLaws F} {M : Type} `{MmuFresh M}.
Context (attr_user : Z) (node_alloc : list NX_Vmnode -> option Z).
Context (Hattr : attr_ok attr_user) (Halloc : forall l id, node_alloc l = Some id -> id ∉ nid <$> l).
Implicit Types (sp : NX_Vmspace M).

Definition unmapped sp (ph : Elf_Phdr) : Prop := free_range sp (p_vaddr ph) (NX_PAGE_ALIGNUP (p_memsz ph)).

(** One of the segments [l] has been mapped at [b]. *)
Definition mapped_by (l : list Elf_Phdr) (b : Z) (k : Z * Z) : Prop :=
  k = (attr_user, 0) /\ exists ph, ph ∈ l /\ in_segment ph b.

Lemma map_segment sp len ph :
  space_ok sp -> seg_ok len sp ph -> unmapped sp ph ->
  exists sp' err out, NX_VmspaceMap (node_alloc (spaceNodeList sp)) sp (p_vaddr ph) (p_memsz ph) attr_user 0 = Some (sp', err, out) /\
    space_ok sp' /\ same_layout sp sp' /\
    ((err = NX_EOK /\ out = p_vaddr ph /\
      forall b k, covers (spaceNodeList sp') b k <-> mapped_by [ph] b k \/ covers (spaceNodeList sp) b k) \/
     (is_ok err = false /\ out = 0)).
Proof.
  intros Hsp [Hsz _ Hpg [Hlo Hhi]] Hun.
  destruct (map_user attr_user node_alloc Hattr Halloc sp (p_vaddr ph) (p_memsz ph)) as (sp' & err & out & Hrun & Hsp' & Hlay & Hcase);
    try (done || lia).
  exists sp', err, out. split; [done|]. split; [done|]. split; [done|].
  destruct Hcase as [(-> & -> & Hcov)|(? & ? & _)]; [left|by right]. split; [done|]. split; [done|]. intros b k. rewrite Hcov.
  unfold mapped_by. setoid_rewrite list_elem_of_singleton. unfold in_segment. naive_solver.
Qed.

Lemma seg_ok_layout len sp sp' ph : same_layout sp sp' -> seg_ok len sp ph -> seg_ok len sp' ph.
Proof. intros -> []. by split. Qed.

Lemma same_layout_trans sp sp1 sp2 : same_layout sp sp1 -> same_layout sp1 sp2 -> same_layout sp sp2.
Proof. unfold same_layout. intros -> ->. done. Qed.

Lemma unmapped_after sp sp' ph ph' :
  (forall b k, covers (spaceNodeList sp') b k <-> mapped_by [ph] b k \/ covers (spaceNodeList sp) b k) ->
  unmapped sp ph' -> apart ph ph' -> unmapped sp' ph'.
Proof.
  intros Hc Hu Ha b k [[_ (x & ->%list_elem_of_singleton & Hx)]|Hb]%Hc; [by apply Ha|by apply Hu in Hb].
Qed.

Lemma LoadMap_loop_spec fd d n : length d < 2 ^ 62 -> forall s sp (o off : Z),
  let l := loaded_segments (phdrs d off n) in
  file_at s fd d o -> 0 <= off -> off + sizeof_Phdr * n <= length d ->
  space_ok sp -> Forall (seg_ok (length d) sp) l -> Forall (unmapped sp) l -> ForallOrdPairs apart l ->
  exists s' sp' err o', LoadMap_loop attr_user node_alloc n s fd (length d) sp off = Some (s', sp', err) /\ file_at s' fd d o' /\
    space_ok sp' /\ same_layout sp sp' /\
    (err = NX_ENOMEM \/
     (err = NX_EOK /\ forall b k, covers (spaceNodeList sp') b k <-> mapped_by l b k \/ covers (spaceNodeList sp) b k)).
Proof.
  intros Hd. induction n as [|n IH]; intros s sp o off l Hs Ho Hlen Hsp Hsegs Hun Hap; cbn [LoadMap_loop].
  { eexists s, sp, NX_EOK, o. split; [done|]. split; [done|]. split; [done|]. split; [apply same_layout_refl|]. right.
    split; [done|]. intros b k. unfold mapped_by. subst l. cbn. set_solver. }
  unfold sizeof_Phdr in Hlen.
  destruct (read_phdr_spec s fd d o off Hs Ho) as (s1 & o1 & -> & Hs1); [unfold sizeof_Phdr; lia|]. rewrite Some_bind.
  subst l. cbn [phdrs loaded_segments] in *. set (ph := phdr_of _) in *. unfold loaded_segments in *. rewrite filter_cons in *.
  assert (Hoff : i64 (off + sizeof_Phdr) = off + sizeof_Phdr) by (apply i64_small; unfold sizeof_Phdr; lia).
  destruct (decide (p_type ph = PT_LOAD)) as [Et|Et].
  - rewrite (proj2 (Z.eqb_eq _ _)) by done. apply Forall_cons in Hsegs as [Hseg Hsegs]. apply Forall_cons in Hun as [Hu Hun].
    inversion Hap as [|? ? Hap1 Hap2]; subst.
    rewrite Z.max_r by (destruct Hseg; lia).
    destruct (map_segment sp (length d) ph Hsp Hseg Hu) as (sp1 & err & out & -> & Hsp1 & Hlay & Hcase). rewrite !Some_bind.
    destruct Hcase as [(-> & -> & Hcov)|[-> ->]].
    + rewrite Z.eqb_refl. cbn [negb is_ok]. change (is_ok NX_EOK) with true. cbn [negb]. rewrite Some_bind.
      change (negb (is_ok NX_EOK)) with false. cbv iota. rewrite Hoff.
      destruct (IH s1 sp1 o1 (off + sizeof_Phdr) Hs1) as (s2 & sp2 & err & o2 & Hrun & Hs2 & Hsp2 & Hlay2 & Hcase);
        [unfold sizeof_Phdr; lia|unfold sizeof_Phdr in *; lia|done| | |done|].
      * eapply Forall_impl; [exact Hsegs|]. intros. by eapply seg_ok_layout.
      * rewrite Forall_forall in Hun |- *. intros x Hx. eapply unmapped_after; [exact Hcov|by apply Hun|].
        rewrite List.Forall_forall in Hap1. by apply Hap1, list_elem_of_In.
      * exists s2, sp2, err, o2. split; [done|]. split; [done|]. split; [done|]. split; [by eapply same_layout_trans|].
        destruct Hcase as [?|[-> Hcov2]]; [by left|right]. split; [done|]. intros b k. rewrite Hcov2, Hcov. unfold mapped_by. set_solver +.
    + cbn [negb]. rewrite Some_bind. change (negb (is_ok NX_ENOMEM)) with true. cbv iota.
      exists s1, sp1, NX_ENOMEM, o1. auto 10.
  - rewrite (proj2 (Z.eqb_neq _ _)) by done. rewrite Some_bind. change (negb (is_ok NX_EOK)) with false. cbv iota. rewrite Hoff.
    apply (IH s1 sp o1 (off + sizeof_Phdr) Hs1); try done; unfold sizeof_Phdr in *; lia.
Qed.
End mapping.

(** ** Loading the segments *)

(** The segments [l] are in the memory. *)
Definition loaded {M} `{MmuOps M} (x : M) (m : memory) (d : list Z) (l : list Elf_Phdr) : Prop :=
  forall ph k, ph ∈ l -> 0 <= k < p_memsz ph -> m (place x (p_vaddr ph) k) = seg_byte d ph k.

(** Not a byte of the segments. *)
Definition outside {M} `{MmuOps M} (x : M) (l : list Elf_Phdr) (a : Z) : Prop :=
  forall ph k, ph ∈ l -> 0 <= k < p_memsz ph -> a <> place x (p_vaddr ph) k.

Definition total_size (l : list Elf_Phdr) : Z := foldr (fun ph z => p_memsz ph + z) 0 l.

Section loading.
Context {F : Type} `{FileLaws F} {M : Type} `{MmuFresh M}.
Context (sp : NX_Vmspace M) (Hsp : space_ok sp) (fd : Z) (d : list Z) (Hd : length d < 2 ^ 62).

(** Every byte of the segment has a frame. *)
Definition backed (ph : Elf_Phdr) : Prop :=
  forall k, 0 <= k < p_memsz ph -> exists f at_, translate (mmu sp) ((p_vaddr ph + k) / NX_PAGE_SIZE) = Some (f, at_).

Lemma place_inj a b i j f g at1 at2 :
  translate (mmu sp) ((a + i) / NX_PAGE_SIZE) = Some (f, at1) -> translate (mmu sp) ((b + j) / NX_PAGE_SIZE) = Some (g, at2) ->
  place (mmu sp) a i = place (mmu sp) b j -> a + i = b + j.
Proof.
  intros Hf Hg. unfold place, phys, frame_of. rewrite Hf, Hg. cbn. intros E.
  assert (f = g /\ (a + i) mod NX_PAGE_SIZE = (b + j) mod NX_PAGE_SIZE) as [-> Em] by (unfold NX_PAGE_SIZE in *; clear - E; zlia).
  destruct Hsp as [Hvm Hfr]. pose proof (fresh_distinct _ (proj1 (vm_mmu sp Hvm)) Hfr _ _ _ _ _ Hf Hg) as Eq.
  unfold NX_PAGE_SIZE in *. clear - Em Eq. zlia.
Qed.

Lemma segment_pages len ph : seg_ok len sp ph -> p_memsz ph <= NX_PAGE_ALIGNUP (p_memsz ph).
Proof.
  clear Hd. intros [[? ?] _ _ [? ?]]. destruct Hsp as [Hvm _].
  pose proof (vm_bounds sp Hvm). rewrite NX_PAGE_ALIGNUP_spec by lia. unfold align_up, NX_PAGE_SIZE. zlia.
Qed.

Lemma load_segment s m (o : Z) ph :
  file_at s fd d o -> seg_ok (length d) sp ph -> backed ph ->
  exists s' m' o', LoadSegment s m fd (length d) sp ph = Some (s', m', NX_EOK) /\ file_at s' fd d o' /\
    written m m' (place (mmu sp) (p_vaddr ph)) (seg_byte d ph) 0 (p_memsz ph).
Proof.
  intros Hs [[Hsz Hsz'] [Ho Hlen] Hpg [Hlo Hhi]] Hb. destruct Hsp as [Hvm Hfr].
  pose proof Hvm as [(Hm & _) (Hb0 & Hb1) _ _ _ _].
  apply (LoadSegment_spec sp (p_vaddr ph) (p_memsz ph)) with o; try done; try lia.
  - intros k Hk. destruct (Hb k Hk) as (f & at_ & Ht). exists f, at_. split; [done|]. by eapply fresh_positive.
  - intros i j Hi Hj E. destruct (Hb i Hi) as (f & at1 & Hf), (Hb j Hj) as (g & at2 & Hg).
    pose proof (place_inj _ _ _ _ _ _ _ _ Hf Hg E). lia.
Qed.

(** One more segment. *)
Lemma loaded_cons m m1 m2 ph l :
  Forall backed (ph :: l) -> Forall (apart ph) l -> (forall x, x ∈ ph :: l -> p_memsz x <= NX_PAGE_ALIGNUP (p_memsz x)) ->
  written m m1 (place (mmu sp) (p_vaddr ph)) (seg_byte d ph) 0 (p_memsz ph) ->
  loaded (mmu sp) m2 d l -> (forall a, outside (mmu sp) l a -> m2 a = m1 a) ->
  loaded (mmu sp) m2 d (ph :: l) /\ forall a, outside (mmu sp) (ph :: l) a -> m2 a = m a.
Proof.
  intros Hb Hap Hup [W1 W2] Hl Hout. rewrite Forall_forall in Hb, Hap. split.
  - intros x k [->|Hx]%elem_of_cons Hk; [|by apply Hl]. rewrite Hout; [by apply W1|].
    intros y j Hy Hj E. destruct (Hb ph ltac:(left) k Hk) as (f & at1 & Hf), (Hb y ltac:(by right) j Hj) as (g & at2 & Hg).
    apply (place_inj _ _ _ _ _ _ _ _ Hf Hg) in E. apply (Hap y Hy (p_vaddr ph + k)).
    + unfold in_segment. pose proof (Hup ph ltac:(left)). lia.
    + unfold in_segment. rewrite E. pose proof (Hup y ltac:(by right)). lia.
  - intros a Ha. rewrite Hout; [apply W2|].
    + intros k Hk. apply Ha; [left|done].
    + intros x k Hx Hk. apply Ha; [by right|done].
Qed.

Lemma LoadFile_loop_spec n : forall s m (o off memSize : Z),
  let l := loaded_segments (phdrs d off n) in
  file_at s fd d o -> 0 <= off -> off + sizeof_Phdr * n <= length d -> 0 <= memSize < 2 ^ 64 ->
  Forall (seg_ok (length d) sp) l -> Forall backed l -> ForallOrdPairs apart l ->
  exists s' m' o', LoadFile_loop n s m fd (length d) sp off memSize = Some (s', m', inl (u64 (memSize + total_size l))) /\
    file_at s' fd d o' /\ loaded (mmu sp) m' d l /\ forall a, outside (mmu sp) l a -> m' a = m a.
Proof.
  induction n as [|n IH]; intros s m o off memSize l Hs Ho Hlen Hms Hsegs Hb Hap; cbn [LoadFile_loop].
  { exists s, m, o. subst l. cbn. rewrite Z.add_0_r, u64_small by lia. split; [done|]. split; [done|]. split; [|done].
    by intros ph k ?%elem_of_nil. }
  unfold sizeof_Phdr in Hlen.
  destruct (read_phdr_spec s fd d o off Hs Ho) as (s1 & o1 & -> & Hs1); [unfold sizeof_Phdr; lia|]. rewrite Some_bind.
  subst l. cbn [phdrs loaded_segments] in *. set (ph := phdr_of _) in *. unfold loaded_segments in *. rewrite filter_cons in *.
  assert (Hoff : i64 (off + sizeof_Phdr) = off + sizeof_Phdr) by (apply i64_small; unfold sizeof_Phdr; lia).
  destruct (decide (p_type ph = PT_LOAD)) as [Et|Et].
  - rewrite (proj2 (Z.eqb_eq _ _)) by done. pose proof Hsegs as Hall. pose proof Hb as Hball.
    apply Forall_cons in Hsegs as [Hseg Hsegs]. apply Forall_cons in Hb as [Hb1 Hb].
    inversion Hap as [|? ? Hap1 Hap2]; subst.
    destruct (load_segment s1 m o1 ph Hs1 Hseg Hb1) as (s2 & m2 & o2 & -> & Hs2 & Hw). rewrite !Some_bind.
    change (negb (is_ok NX_EOK)) with false. cbv iota. rewrite Hoff.
    destruct (IH s2 m2 o2 (off + sizeof_Phdr) (u64 (memSize + p_memsz ph)) Hs2) as (s3 & m3 & o3 & -> & Hs3 & Hl & Hout);
      try done; try (unfold sizeof_Phdr in *; lia); [apply u64_range|].
    exists s3, m3, o3. split.
    { do 3 f_equal. unfold u64. rewrite Zplus_mod_idemp_l. cbn [total_size foldr]. f_equal. unfold total_size. lia. }
    split; [done|]. apply (loaded_cons m m2 m3 ph); try done.
    intros x Hx. rewrite Forall_forall in Hall. eapply segment_pages; by apply Hall.
  - rewrite (proj2 (Z.eqb_neq _ _)) by done. rewrite Some_bind. change (negb (is_ok NX_EOK)) with false. cbv iota. rewrite Hoff.
    apply (IH s1 m o1 (off + sizeof_Phdr)); try done; unfold sizeof_Phdr in *; lia.
Qed.
End loading.

(** ** Loading a program *)

(** A header the loader takes for a space whose image starts at [start]. *)
Record header_ok (d : list Z) (start : Z) : Prop := {
  hdr_size : sizeof_Ehdr <= length d;
  hdr_magic : take 4 d = ELFMAG;
  hdr_machine : e_machine (ehdr d) = EM_RISCV;
  hdr_class : byte (e_ident (ehdr d)) EI_CLASS = 2;
  hdr_version : byte (e_ident (ehdr d)) EI_VERSION = 1;
  hdr_entry : e_entry (ehdr d) = start
}.

(** The table of program headers lies in the file, and the segments fit the
    space, which maps nothing there, without sharing a page. *)
Record program_ok {M} (d : list Z) (sp : NX_Vmspace M) : Prop := {
  pg_table : e_phoff (ehdr d) + sizeof_Phdr * e_phnum (ehdr d) <= length d;
  pg_segs : Forall (seg_ok (length d) sp) (segments d);
  pg_apart : ForallOrdPairs apart (segments d);
  pg_free : Forall (unmapped sp) (segments d)
}.

Lemma LoadCheck_spec {F} `{FileLaws F} {M} `{MmuOps M} s fd d (o : Z) (sp : NX_Vmspace M) :
  file_at s fd d o ->
  exists s' h err o', NX_LoadCheck s fd (length d) sp = Some (s', h, err) /\ file_at s' fd d o' /\
    ((header_ok d (imageStart sp) /\ h = Some (ehdr d) /\ err = NX_EOK) \/ (~ header_ok d (imageStart sp) /\ err = NX_EINVAL)).
Proof.
  intros Hs. unfold NX_LoadCheck. destruct (Z.ltb_spec (length d) sizeof_Ehdr) as [Hl|Hl].
  { eexists s, None, _, o. split; [reflexivity|]. split; [done|]. right. split; [|done]. intros []. lia. }
  unfold sizeof_Ehdr in Hl.
  destruct (seek_set_law s fd d o 0 Hs) as (s1 & -> & Hs1); [lia|]. rewrite Some_bind, Z.eqb_refl. cbn [negb].
  destruct (read_law s1 fd d 0 SELFMAG Hs1) as (s2 & -> & Hs2); [done|done|unfold SELFMAG; lia|]. rewrite Some_bind, Z.eqb_refl. cbn [negb].
  change (drop (Z.to_nat 0) d) with d. change (Z.to_nat SELFMAG) with 4%nat. rewrite take_take. change (4 `min` 4)%nat with 4%nat.
  case_bool_decide as Hmag; cbn [negb].
  2:{ eexists s2, None, _, _. split; [reflexivity|]. split; [exact Hs2|]. right. split; [|done]. by intros []. }
  destruct (seek_set_law s2 fd d _ 0 Hs2) as (s3 & -> & Hs3); [lia|]. rewrite Some_bind, Z.eqb_refl. cbn [negb].
  destruct (read_law s3 fd d 0 sizeof_Ehdr Hs3) as (s4 & -> & Hs4); [done|done|unfold sizeof_Ehdr; lia|]. rewrite Some_bind, Z.eqb_refl. cbn [negb].
  eexists s4, _, _, _. split; [reflexivity|]. split; [exact Hs4|].
  change (ehdr_of (take (Z.to_nat sizeof_Ehdr) (drop (Z.to_nat 0) d))) with (ehdr d). unfold NX_LoadCheckMachine.
  pose proof (hdr_machine d (imageStart sp)) as C1. pose proof (hdr_class d (imageStart sp)) as C2.
  pose proof (hdr_version d (imageStart sp)) as C3. pose proof (hdr_entry d (imageStart sp)) as C4.
  pose proof (Build_header_ok d (imageStart sp) Hl Hmag) as Hok.
  generalize dependent (header_ok d (imageStart sp)). intros P C1 C2 C3 C4 Hok.
  destruct (Z.eqb_spec (e_machine (ehdr d)) EM_RISCV); cbn [negb]; [|right; split; [tauto|done]].
  change (is_ok NX_EOK) with true. cbn [negb].
  destruct (Z.eqb_spec (byte (e_ident (ehdr d)) EI_CLASS) 2); cbn [negb]; [|right; split; [tauto|done]].
  destruct (Z.eqb_spec (byte (e_ident (ehdr d)) EI_VERSION) 1); cbn [negb]; [|right; split; [tauto|done]].
  destruct (Z.eqb_spec (e_entry (ehdr d)) (imageStart sp)); cbn [negb]; [|right; split; [tauto|done]].
  left. split; [by apply Hok|done].
Qed.

Section program.
Context {F : Type} `{FileLaws F} {M : Type} `{MmuFresh M}.
Context (attr_user : Z) (node_alloc : list NX_Vmnode -> option Z).
Context (Hattr : attr_ok attr_user) (Halloc : forall l id, node_alloc l = Some id -> id ∉ nid <$> l).
Implicit Types (s : F) (sp : NX_Vmspace M) (m : memory).

(** A loaded program: the segments, mapped for the user in pages of their own,
    hold the bytes of the file and zeros, and no other byte has changed; the
    image ends behind as many bytes as the segments have. *)
Definition program_loaded sp m (d : list Z) sp' m' : Prop :=
  (forall b k, covers (spaceNodeList sp') b k <-> mapped_by attr_user (segments d) b k \/ covers (spaceNodeList sp) b k) /\
  loaded (mmu sp') m' d (segments d) /\
  (forall a, outside (mmu sp') (segments d) a -> m' a = m a) /\
  (exists sp1, same_layout sp sp1 /\ sp' = NX_VmspaceResizeImage sp1 (u64 (total_size (segments d)))).

Lemma space_ok_resize sp size : space_ok sp -> space_ok (NX_VmspaceResizeImage sp size).
Proof. intros [Hvm Hf]. split; [by apply vm_ok_with_heap|done]. Qed.

(** The pages of mapped segments have frames. *)
Lemma mapped_backed sp sp' len l :
  space_ok sp' -> Forall (seg_ok len sp') l ->
  (forall b k, covers (spaceNodeList sp') b k <-> mapped_by attr_user l b k \/ covers (spaceNodeList sp) b k) ->
  Forall (backed sp') l.
Proof.
  intros Hsp Hsegs Hcov. rewrite Forall_forall in Hsegs |- *. intros ph Hph k Hk.
  pose proof (Hsegs ph Hph) as Hseg. assert (Hup : p_memsz ph <= NX_PAGE_ALIGNUP (p_memsz ph)) by (by eapply segment_pages). destruct Hsp as [Hvm _].
  pose proof (seg_page _ _ _ Hseg) as Hpg.
  destruct (vm_mapped sp' Hvm ((p_vaddr ph + k) / NX_PAGE_SIZE) attr_user 0) as [f Hf]; [|done|by exists f, attr_user].
  apply Hcov. left. split; [done|]. exists ph. split; [done|]. unfold in_segment, NX_PAGE_SIZE in *. clear - Hpg Hk Hup. zlia.
Qed.

Lemma header_table d : bytes_ok d -> 0 <= e_phoff (ehdr d) < 2 ^ 64 /\ 0 <= e_phnum (ehdr d).
Proof.
  intros Hb. unfold ehdr, ehdr_of. cbn [e_phoff e_phnum].
  split; [apply (le_range _ 32 8)|apply (le_range _ 56 2)]; by apply slice_ok.
Qed.

Lemma LoadElf_refused s m fd d (o : Z) sp :
  file_at s fd d o -> d <> [] -> ~ header_ok d (imageStart sp) ->
  exists s' o', NX_LoadElf attr_user node_alloc s m fd (length d) sp = Some (s', m, sp, NX_EINVAL) /\ file_at s' fd d o'.
Proof.
  intros Hs Hne Hno. destruct (file_small _ _ _ _ Hs) as [Hfd Hd]. unfold NX_LoadElf.
  rewrite (proj2 (Z.ltb_ge fd 0)) by done. unfold nz. rewrite (proj2 (Z.eqb_neq (length d) 0)) by (destruct d; [done|cbn; lia]).
  cbn [negb orb]. destruct (LoadCheck_spec s fd d o sp Hs) as (s1 & h & err & o1 & -> & Hs1 & [(Hh & _)|(_ & ->)]); [done|].
  rewrite Some_bind. change (is_ok NX_EINVAL) with false. cbn [negb]. exists s1, o1. by destruct h.
Qed.

Lemma LoadElf_loads s m fd d (o : Z) sp :
  file_at s fd d o -> d <> [] -> bytes_ok d -> space_ok sp -> header_ok d (imageStart sp) -> program_ok d sp ->
  exists s' m' sp' err o', NX_LoadElf attr_user node_alloc s m fd (length d) sp = Some (s', m', sp', err) /\ file_at s' fd d o' /\
    space_ok sp' /\ ((err = NX_ENOMEM /\ m' = m /\ same_layout sp sp') \/ (err = NX_EOK /\ program_loaded sp m d sp' m')).
Proof.
  intros Hs Hne Hbytes Hsp Hh [Htab Hsegs Hap Hfree]. destruct (file_small _ _ _ _ Hs) as [Hfd Hd]. unfold NX_LoadElf.
  rewrite (proj2 (Z.ltb_ge fd 0)) by done. unfold nz. rewrite (proj2 (Z.eqb_neq (length d) 0)) by (destruct d; [done|cbn; lia]).
  cbn [negb orb]. destruct (LoadCheck_spec s fd d o sp Hs) as (s1 & h & err & o1 & -> & Hs1 & [(_ & -> & ->)|(? & _)]); [|done].
  rewrite Some_bind. change (is_ok NX_EOK) with true. cbn [negb]. destruct (header_table d Hbytes) as [Hoff Hnum].
  unfold NX_LoadMapUserSpace, segments in *. unfold sizeof_Phdr in Htab. set (n := Z.to_nat (e_phnum (ehdr d))) in *.
  rewrite i64_small by lia.
  destruct (LoadMap_loop_spec attr_user node_alloc Hattr Halloc fd d n Hd s1 sp o1 (e_phoff (ehdr d)) Hs1)
    as (s2 & sp2 & err & o2 & -> & Hs2 & Hsp2 & Hlay & Hcase); try done; try (unfold sizeof_Phdr; lia).
  rewrite Some_bind. destruct Hcase as [->|[-> Hcov]].
  { change (is_ok NX_ENOMEM) with false. cbn [negb]. eexists s2, m, sp2, _, o2. split; [reflexivity|].
    split; [done|]. split; [done|]. by left. }
  change (is_ok NX_EOK) with true. cbn [negb]. unfold NX_LoadFileData. fold n. rewrite i64_small by lia.
  assert (Hsegs2 : Forall (seg_ok (length d) sp2) (loaded_segments (phdrs d (e_phoff (ehdr d)) n))).
  { eapply Forall_impl; [exact Hsegs|]. intros ph. by apply seg_ok_layout. }
  destruct (LoadFile_loop_spec sp2 Hsp2 fd d Hd n s2 m o2 (e_phoff (ehdr d)) 0 Hs2)
    as (s3 & m3 & o3 & -> & Hs3 & Hl & Hout); try done; try (unfold sizeof_Phdr; lia).
  { by eapply mapped_backed. }
  rewrite Some_bind, Z.add_0_l. eexists s3, m3, _, _, o3. split; [reflexivity|]. split; [done|].
  split; [by apply space_ok_resize|]. right. split; [done|]. split; [done|]. split; [done|]. split; [done|]. by exists sp2.
Qed.
End program.

(** C34: Loading a program.  A file that is too large for the image area, or whose
    header is no riscv ELF header with the entry at the start of the area, is refused
    with nothing changed.  A file whose program headers and segments lie in it, and
    whose segments start on pages, do not share pages and fall on free parts of
    the space, is loaded: unless memory is short, when the space stays consistent and no
    byte of memory is changed, every byte of every segment is mapped for the user in a
    frame of its own and holds the byte of the file, or zero behind the data, and no
    other byte has changed. *)
Theorem process_load_image {F} `{FileLaws F} {M} `{MmuFresh M} attr_user node_alloc (s s1 : F) m (sp : NX_Vmspace M) path fd e d o :
  attr_ok attr_user -> (forall l id, node_alloc l = Some id -> id ∉ nid <$> l) ->
  space_ok sp -> table sp <> 0 -> 0 <= imageEnd sp - imageStart sp < 2 ^ 64 ->
  file_open s path NX_VFS_O_RDONLY 0 = Some (s1, fd, e) -> file_at s1 fd d o -> d <> [] -> bytes_ok d ->
  let run := NX_ProcessLoadImage attr_user node_alloc s m sp path in
  (imageEnd sp - imageStart sp < length d -> exists s', run = Some (s', m, sp, NX_EFAULT)) /\
  (length d <= imageEnd sp - imageStart sp ->
    (~ header_ok d (imageStart sp) -> exists s', run = Some (s', m, sp, NX_EINVAL)) /\
    (header_ok d (imageStart sp) -> program_ok d sp -> exists s' m' sp' err, run = Some (s', m', sp', err) /\ space_ok sp' /\
      ((err = NX_ENOMEM /\ m' = m /\ same_layout sp sp') \/ (err = NX_EOK /\ program_loaded attr_user sp m d sp' m')))).
Proof.
  intros Hattr Halloc Hsp Htable Himg Hopen Hs1 Hne Hbytes run. destruct (file_small _ _ _ _ Hs1) as [Hfd Hd].
  assert (0 < length d) by (destruct d; [done|cbn; lia]).
  subst run. unfold NX_ProcessLoadImage, nz. rewrite (proj2 (Z.eqb_neq _ 0)) by done. cbn [negb].
  rewrite assert_true, Hopen, Some_bind, (proj2 (Z.ltb_ge fd 0)) by done.
  destruct (seek_end_law s1 fd d o Hs1) as (s2 & -> & Hs2). rewrite Some_bind, (proj2 (Z.eqb_neq (length d) 0)) by lia.
  change (is_ok NX_EOK) with true. cbn [negb orb].
  destruct (seek_set_law s2 fd d _ 0 Hs2) as (s3 & -> & Hs3); [lia|]. rewrite Some_bind, Z.eqb_refl. cbn [negb].
  rewrite (u64_small (imageEnd sp - imageStart sp)), (u64_small (length d)) by lia.
  rewrite Z.gtb_ltb. unfold close_with. split; [intros Hlarge|intros Hfit; split].
  - rewrite (proj2 (Z.ltb_lt _ _)) by lia. destruct (close_law s3 fd d _ Hs3) as [s4 ->]. by exists s4.
  - intros Hno. rewrite (proj2 (Z.ltb_ge _ _)) by lia.
    destruct (LoadElf_refused attr_user node_alloc s3 m fd d 0 sp Hs3 Hne Hno) as (s4 & o4 & -> & Hs4).
    rewrite Some_bind. change (is_ok NX_EINVAL) with false. cbn [negb]. destruct (close_law s4 fd d _ Hs4) as [s5 ->]. by exists s5.
  - intros Hh Hpg. rewrite (proj2 (Z.ltb_ge _ _)) by lia.
    destruct (LoadElf_loads attr_user node_alloc Hattr Halloc s3 m fd d 0 sp Hs3 Hne Hbytes Hsp Hh Hpg)
      as (s4 & m4 & sp4 & err & o4 & -> & Hs4 & Hsp4 & Hcase).
    rewrite Some_bind. destruct (close_law s4 fd d _ Hs4) as [s5 ->].
    destruct Hcase as [(-> & -> & ?)|[-> ?]].
    + change (is_ok NX_ENOMEM) with false. cbn [negb]. rewrite Some_bind. eexists s5, m, sp4, _. eauto 10.
    + change (is_ok NX_EOK) with true. cbn [negb]. rewrite Some_bind, assert_true. eexists s5, m4, sp4, _. eauto 10.
Qed.

(** ** One file in memory *)
Record one_file := mkOne { content : list Z; pos : Z }.

#[export] Instance one_file_ops : FileOps one_file := {|
  file_open s _ _ _ := Some (s, 3, NX_EOK);
  file_seek s _ off whence :=
    let o := Z.max 0 (Z.min (length (content s)) (if whence =? NX_VFS_SEEK_END then length (content s) + off else off)) in
    Some (mkOne (content s) o, o, NX_EOK);
  file_read s _ n :=
    let b := slice (content s) (pos s) n in Some (mkOne (content s) (pos s + length b), Z.of_nat (length b), b);
  file_close s _ := Some (s, NX_EOK)
|}.

#[export] Instance one_file_laws : FileLaws one_file.
Proof.
  refine (Build_FileLaws one_file _ (fun s fd d o => fd = 3 /\ content s = d /\ pos s = o /\ length d < 2 ^ 62) _ _ _ _ _).
  - intros s fd d o (-> & _ & _ & ?). lia.
  - intros s fd d o off (-> & <- & _ & ?) Ho. cbn. rewrite Z.min_r, Z.max_r by lia. eauto 10.
  - intros s fd d o (-> & <- & _ & ?). cbn. rewrite Z.add_0_r, Z.min_id, Z.max_r by lia. eauto 10.
  - intros s fd d o n (-> & <- & <- & ?) Ho Hn Hl. cbn. unfold slice.
    assert (Z.of_nat (length (take (Z.to_nat n) (drop (Z.to_nat (pos s)) (content s)))) = n) as ->
      by (rewrite length_take, length_drop; lia). eauto 10.
  - intros s fd d o _. by exists s.
Defined.

(** ** A small program

    Two headers, of which one is loaded: 4 bytes of data in 5000 of memory. *)
Definition demo_phdr (type off vaddr filesz memsz : Z) : list Z :=
  le_bytes 4 type ++ le_bytes 4 7 ++ le_bytes 8 off ++ le_bytes 8 vaddr ++ le_bytes 8 vaddr ++ le_bytes 8 filesz ++
  le_bytes 8 memsz ++ le_bytes 8 4096.

Definition demo_elf : list Z :=
  ELFMAG ++ [2; 1; 1; 0; 0; 0; 0; 0; 0; 0; 0; 0] ++ le_bytes 2 2 ++ le_bytes 2 EM_RISCV ++ le_bytes 4 1 ++ le_bytes 8 0x100000000 ++
  le_bytes 8 64 ++ le_bytes 8 0 ++ le_bytes 4 0 ++ le_bytes 2 64 ++ le_bytes 2 56 ++ le_bytes 2 2 ++ le_bytes 2 0 ++
  le_bytes 2 0 ++ le_bytes 2 0 ++
  demo_phdr 0 0 0 0 0 ++ demo_phdr PT_LOAD 176 0x100000000 4 5000 ++ [17; 34; 51; 68].

Definition fresh_id (l : list NX_Vmnode) : option Z := Some (foldr (fun x z => Z.max (nid x + 1) z) 1 l).

Lemma fresh_id_fresh l id : fresh_id l = Some id -> id ∉ nid <$> l.
Proof.
  intros [= <-] (x & E & Hx)%list_elem_of_fmap. revert E.
  assert (nid x < foldr (fun x z => Z.max (nid x + 1) z) 1 l); [|lia].
  induction l as [|y l IH]; [by apply elem_of_nil in Hx|]. cbn. apply elem_of_cons in Hx as [<-|Hx]; [lia|]. specialize (IH Hx). lia.
Qed.

Definition demo_flat : flat := mkFlat ∅ (seqZ 100 20).
Definition demo_space : NX_Vmspace flat :=
  mkSpace demo_flat 0x1000 [] 0x100000000 0x400000000 0x100000000 0x200000000 0x200000000 0x300000000
    0x200000000 0x300000000 0x380000000 0x380000000 0x3FFFFF000 0x3FFFFF000.

Lemma demo_space_ok : space_ok demo_space.
Proof.
  split; [split; cbn; try (split_and!; (reflexivity || lia))|].
  - split; [constructor|constructor|constructor].
  - intros pg at_ fl (x & Hx%elem_of_nil & _). done.
  - intros pg [x Hx]. by rewrite lookup_empty in Hx.
  - split; [apply NoDup_seqZ|]. split; [|split].
    + apply Forall_seqZ. lia.
    + intros pg pg' f a a' Hf. cbn in Hf. by rewrite lookup_empty in Hf.
    + intros pg f a Hf. cbn in Hf. by rewrite lookup_empty in Hf.
Qed.

Definition demo_segment : Elf_Phdr := mkPhdr PT_LOAD 7 176 0x100000000 0x100000000 4 5000 4096.

Lemma demo_segments : segments demo_elf = [demo_segment].
Proof. reflexivity. Qed.

Lemma demo_header_ok : header_ok demo_elf (imageStart demo_space).
Proof. by split. Qed.

Lemma demo_program_ok : program_ok demo_elf demo_space.
Proof.
  split; [by vm_compute|rewrite demo_segments..].
  - constructor; [|constructor]. split; cbn; (done || lia).
  - constructor; constructor.
  - constructor; [|constructor]. intros b k (x & Hx%elem_of_nil & _). done.
Qed.

Lemma process_load_image_witness :
  exists s' m' sp', NX_ProcessLoadImage 31 fresh_id (mkOne demo_elf 0) (fun _ => 7) demo_space [] = Some (s', m', sp', NX_EOK) /\
    forall k, 0 <= k < 5000 ->
      m' (place (mmu sp') 0x100000000 k) = if k <? 4 then file_byte demo_elf (176 + k) else 0.
Proof.
  destruct (process_load_image 31 fresh_id (mkOne demo_elf 0) (mkOne demo_elf 0) (fun _ => 7) demo_space [] 3 NX_EOK demo_elf 0)
    as [_ Hload].
  - discriminate.
  - exact fresh_id_fresh.
  - exact demo_space_ok.
  - discriminate.
  - vm_compute. split; [discriminate|reflexivity].
  - reflexivity.
  - split; [reflexivity|]. split; [reflexivity|]. split; [reflexivity|]. vm_compute. reflexivity.
  - discriminate.
  - unfold bytes_ok. apply (bool_decide_unpack _). vm_compute. exact I.
  - destruct Hload as [_ Hload]; [vm_compute; discriminate|].
    destruct (Hload demo_header_ok demo_program_ok) as (s' & m' & sp' & err & Hrun & _ & Hcase).
    assert (err = NX_EOK) as ->.
    { assert ((NX_ProcessLoadImage 31 fresh_id (mkOne demo_elf 0) (fun _ => 7) demo_space [] ≫= fun x => Some x.2) = Some NX_EOK) as E
        by (vm_compute; reflexivity).
      rewrite Hrun in E. injection E as ->. reflexivity. }
    exists s', m', sp'. split; [exact Hrun|]. intros k Hk. destruct Hcase as [[H _]|(_ & _ & Hl & _)]; [discriminate H|].
    apply (Hl demo_segment k); [rewrite demo_segments; left|exact Hk].
Defined.

(** The size of the image is the sum of the sizes of the segments: with a gap
    between them its end lies inside the last one, and the heap starts below it. *)
Example image_end_inside :
  let sp := NX_VmspaceResizeImage demo_space (total_size [demo_segment; mkPhdr PT_LOAD 7 0 0x100010000 0 4 5000 4096]) in
  imageEnd sp = 0x100003000 /\ heapStart sp = 0x100004000.
Proof. by vm_compute. Qed.
