(* ===== verification/ElfFiles.v ===== *)
(** The files a program is loaded from: the virtual file system fulfils the
    interface [FileOps] of the loader (Elf.v), and an archive on a block device
    (Cpio.v) what the virtual file system needs for it. *)
From S2P Require Import Prelude VfsPath Vfs VfsOps VfsRefs VfsCalls Elf.
From S2P Require Cpio.
#[local] Coercion Z.of_nat : nat >-> Z.

(** What a file system promises of a regular file: attributes [a] are those of a
    file of content [d], its bytes are read, and it stays so. *)
Class FsFiles {W : Type} (fs_call : Z -> FsOp -> Z -> W -> list NodeAttr -> W * list NodeAttr * FsResult) := {
  fs_file : Z -> W -> NodeAttr -> list Z -> Prop;
  fs_file_attr : forall f w a d, fs_file f w a d -> type a = TYPE_REG /\ size a = length d /\ length d < 2 ^ 62;
  fs_read_law : forall f m w a d (o n : Z), fs_file f w a d -> 0 <= o -> 0 < n -> o + n <= length d ->
    exists w' a' r, fs_call f (Fs_read o n) m w [a] = (w', [a'], r) /\ r_count r = n /\
      r_bytes r = take (Z.to_nat n) (drop (Z.to_nat o) d) /\ fs_file f w' a' d;
  fs_sync_law : forall f m w a d, fs_file f w a d ->
    exists w' a' r, fs_call f Fs_sync m w [a] = (w', [a'], r) /\ r_err r = NX_EOK;
  fs_vget_law : vget_ok fs_call
}.

Section files.
Context {W : Type} `{!BlockOps W} (fs_call : Z -> FsOp -> Z -> W -> list NodeAttr -> W * list NodeAttr * FsResult) `{!FsFiles fs_call}.
Context (cwd : option str).
Abbreviation state := (Vfs (W := W) * option FileTable)%type.

#[export] Instance vfs_files : FileOps state := {|
  file_open x path flags mode :=
    '(s, ft, fd, err) ← NX_VfsOpen fs_call cwd x.1 x.2 (Some path) flags mode; Some ((s, ft), fd, err);
  file_seek x fd off whence := '(ft, o, err) ← NX_VfsFileSeek x.1 x.2 fd off whence; Some ((x.1, ft), o, err);
  file_read x fd len := '(s, ft, n, b, _) ← NX_VfsRead fs_call x.1 x.2 fd true len; Some ((s, ft), n, b);
  file_close x fd := '(s, ft, err) ← NX_VfsClose fs_call x.1 x.2 fd; Some ((s, ft), err)
|}.

(** The references are in order, and the descriptor is open for reading on a file
    of its file system. *)
Record vfs_file_at (x : state) (fd : Z) (d : list Z) (o : Z) : Prop := {
  fa_refs : exists hs H idx k, inv None x.1 (hs ++ H) idx k /\ table_ok idx x.2 hs;
  fa_fd : 3 <= fd < 256;
  fa_open : exists table f nd mt, x.2 = Some table /\ zlookup table fd = Some f /\ node f <> 0 /\
    has (flags f) VfsOps.NX_VFS_O_RDONLY = true /\ offset f = o /\ 0 <= o <= length d /\
    nodes x.1 !! node f = Some nd /\ mounts x.1 !! mount nd = Some mt /\ fs_file (fs mt) (world x.1) (attr nd) d
}.

Lemma with_open {A} table fd f (a b : option A) k :
  zlookup table fd = Some f -> node f <> 0 -> 3 <= fd < 256 -> with_file (Some table) fd a b k = k f.
Proof.
  intros Hf Hn Hfd. unfold with_file, VfsFileDescriptorToFile. rewrite Some_bind, (proj2 (Z.leb_le _ _)), (proj2 (Z.ltb_lt _ _)) by (unfold NX_VFS_MAX_FD; lia).
  cbn [andb]. by rewrite Hf, (proj2 (Z.eqb_neq _ _)).
Qed.

(** Moving the offset of an open file. *)
Lemma file_at_moved s ft fd d (o o' : Z) :
  vfs_file_at (s, ft) fd d o -> 0 <= o' <= length d ->
  exists table f, ft = Some table /\ zlookup table fd = Some f /\
    vfs_file_at (s, put_file ft fd (set_offset o' f)) fd d o'.
Proof.
  intros [(hs & H & idx & k & Hi & Hft) Hfd (table & f & nd & mt & E & Hf & Hn & Hfl & Ho & _ & Hnd & Hmt & Hfile)] Ho'.
  cbn in E. subst ft. exists table, f. split; [done|]. split; [done|].
  assert (Hrange : 0 <= fd < length table) by (apply zlookup_Some in Hf as [? Hf]; apply lookup_lt_Some in Hf; lia).
  split; [|done|].
  - exists hs, H, idx, k. split; [done|]. apply put_file_ok; (done || lia).
  - exists (zinsert table fd (set_offset o' f)), (set_offset o' f), nd, mt. split; [done|].
    rewrite zlookup_zinsert, decide_True by (done || lia). done.
Qed.

(** A function of the file system on one open file. *)
Lemma fs_on_open s ft fd d (o : Z) op :
  vfs_file_at (s, ft) fd d o ->
  exists table f nd mt, ft = Some table /\ zlookup table fd = Some f /\ node f <> 0 /\
    has (flags f) VfsOps.NX_VFS_O_RDONLY = true /\ offset f = o /\ 0 <= o <= length d /\
    nodes s !! node f = Some nd /\ fs_file (fs mt) (world s) (attr nd) d /\
    forall w' a' r, fs_call (fs mt) op (mount nd) (world s) [attr nd] = (w', [a'], r) ->
      exists s', fs_on fs_call s op (node f) [] = Some (s', r) /\ (fs_file (fs mt) w' a' d -> vfs_file_at (s', ft) fd d o).
Proof.
  intros [(hs & H & idx & k & Hi & Hft) Hfd (table & f & nd & mt & E & Hf & Hn & Hfl & Ho & Hol & Hnd & Hmt & Hfile)].
  cbn [fst snd] in *. subst ft. exists table, f, nd, mt. do 8 (split; [done|]). intros w' a' r Hcall.
  destruct (fs_on_wp fs_call None s (hs ++ H) idx k op (node f) [] (fun x => inv None x.1 (hs ++ H) idx k) Hi) as ([s' r'] & Hrun & Hi').
  { apply Forall_cons_2; [by eapply table_known|apply Forall_nil_2]. } { done. }
  cbn [fst] in Hi'. exists s'.
  assert (Hrun' : fs_on fs_call s op (node f) [] =
    Some (with_nodes (with_world s w') (nodeList s) (<[node f := set_attr a' nd]> (nodes s)), r)).
  { unfold fs_on. rewrite Hnd, Some_bind, Hmt, Some_bind. unfold fs_do, fs_nodes. cbn [mapM]. rewrite Hnd. cbn [fmap option_fmap option_map].
    cbn [mret option_ret mbind option_bind]. rewrite Hcall. cbn [store_attrs]. unfold upd_node. cbn [nodes with_world]. rewrite Hnd. done. }
  rewrite Hrun in Hrun'. injection Hrun' as -> ->. split; [done|]. intros Hf'. split; [by exists hs, H, idx, k|done|].
  exists table, f, (set_attr a' nd), mt. cbn. rewrite lookup_insert_eq. done.
Qed.

#[export] Instance vfs_file_laws : FileLaws state.
Proof.
  refine (Build_FileLaws state _ vfs_file_at _ _ _ _ _).
  - intros x fd d o [_ ? (? & ? & nd & mt & _ & _ & _ & _ & _ & _ & _ & _ & Hfile)].
    apply fs_file_attr in Hfile as (_ & _ & ?). lia.
  - intros [s ft] fd d o off Hx Ho. pose proof (fa_fd _ _ _ _ Hx) as Hfd.
    destruct (fs_on_open s ft fd d o Fs_sync Hx) as (table & f & nd & mt & -> & Hf & Hn & _ & _ & _ & Hnd & Hfile & _).
    apply fs_file_attr in Hfile as (_ & Hsz & Hsm). cbn [file_seek vfs_files fst snd]. unfold NX_VfsFileSeek.
    rewrite (with_open table fd f), Hnd, Some_bind by done. unfold seek_to. change (Elf.NX_VFS_SEEK_SET =? VfsOps.NX_VFS_SEEK_SET) with true.
    cbv iota. rewrite (proj2 (Z.ltb_ge _ _)), Hsz, (i64_small (length d)), Z.gtb_ltb, (proj2 (Z.ltb_ge _ _)), Some_bind by lia.
    rewrite u64_small, (proj2 (Z.leb_le _ _)), Some_bind by lia.
    destruct (file_at_moved s (Some table) fd d o off Hx Ho) as (table' & f' & [= <-] & Hf' & Hx').
    assert (f' = f) as -> by congruence. eauto.
  - intros [s ft] fd d o Hx. pose proof (fa_fd _ _ _ _ Hx) as Hfd.
    destruct (fs_on_open s ft fd d o Fs_sync Hx) as (table & f & nd & mt & -> & Hf & Hn & _ & _ & _ & Hnd & Hfile & _).
    apply fs_file_attr in Hfile as (_ & Hsz & Hsm). cbn [file_seek vfs_files fst snd]. unfold NX_VfsFileSeek.
    rewrite (with_open table fd f), Hnd, Some_bind by done. unfold seek_to. change (Elf.NX_VFS_SEEK_END =? VfsOps.NX_VFS_SEEK_SET) with false.
    change (Elf.NX_VFS_SEEK_END =? VfsOps.NX_VFS_SEEK_CUR) with false. change (Elf.NX_VFS_SEEK_END =? VfsOps.NX_VFS_SEEK_END) with true.
    cbv iota. change (0 >? 0) with false. cbv iota.
    rewrite Hsz, Z.add_0_r, (u64_small (length d)), (proj2 (Z.ltb_ge _ _)), Some_bind, (i64_small (length d)) by lia.
    rewrite u64_small, (proj2 (Z.leb_le _ _)), Some_bind by lia.
    destruct (file_at_moved s (Some table) fd d o (length d) Hx ltac:(lia)) as (table' & f' & [= <-] & Hf' & Hx').
    assert (f' = f) as -> by congruence. eauto.
  - intros [s ft] fd d o n Hx Ho Hn Hl. pose proof (fa_fd _ _ _ _ Hx) as Hfd.
    destruct (fs_on_open s ft fd d o (Fs_read o n) Hx) as (table & f & nd & mt & -> & Hf & Hn0 & Hfl & Hoff & _ & Hnd & Hfile & Hon).
    pose proof (fs_file_attr _ _ _ _ Hfile) as (Hty & Hsz & Hsm).
    destruct (fs_read_law (fs mt) (mount nd) (world s) (attr nd) d o n Hfile Ho Hn Hl) as (w' & a' & r & Hcall & Hc & Hb & Hfile').
    destruct (Hon _ _ _ Hcall) as (s' & Hrun & Hx'). specialize (Hx' Hfile').
    cbn [file_read vfs_files fst snd]. unfold NX_VfsRead. rewrite (proj2 (Z.eqb_neq n 0)) by lia. cbn [negb orb].
    rewrite (with_open table fd f) by done. unfold node_type. rewrite Hnd, !Some_bind, Hty, bool_decide_true, Hfl by done. cbn [negb].
    rewrite Hoff, Hrun, !Some_bind, Hc, Hb, i64_small by lia.
    destruct (file_at_moved s' (Some table) fd d o (o + n) Hx' ltac:(lia)) as (table' & f' & [= <-] & Hf' & Hx2).
    assert (f' = f) as -> by congruence. eauto.
  - intros [s ft] fd d o Hx. pose proof (fa_fd _ _ _ _ Hx) as Hfd. pose proof (fa_refs _ _ _ _ Hx) as (hs & H & idx & k & Hi & Hft).
    destruct (fs_on_open s ft fd d o Fs_sync Hx) as (table & f & nd & mt & -> & Hf & Hn0 & Hfl & Hoff & _ & Hnd & Hfile & Hon).
    destruct (fs_sync_law (fs mt) (mount nd) (world s) (attr nd) d Hfile) as (w' & a' & r & Hcall & He).
    destruct (Hon _ _ _ Hcall) as (s' & Hrun & _). cbn [file_close vfs_files fst snd] in *.
    destruct (NX_VfsClose_wp fs_call fs_vget_law None s (Some table) hs H idx k fd Hi Hft) as ([[s2 ft2] e] & Hclose & _).
    unfold NX_VfsClose in *. rewrite (with_open table fd f), Hrun, Some_bind, He in * by done. change (is_ok NX_EOK) with true in *. cbn [negb] in *.
    destruct (VfsNodeRelease fs_call s' (node f)) as [s3|]; [|done]. eexists. reflexivity.
Defined.
End files.

(** ** Archives

    A file system whose read, sync and vget are those of the archive file system
    keeps the promises, for the files whose data lie in the image. *)
Section cpio.
Context `{Cpio.BlockLaws} {W : Type} (fs_call : Z -> FsOp -> Z -> W -> list NodeAttr -> W * list NodeAttr * FsResult).
Context (dirent : NX_VfsDirent).
Context (Hread : forall f m w a o n b e, Cpio.CpioRead a o n = Some (b, e) ->
  fs_call f (Fs_read o n) m w [a] = (w, [a], mkResult e (length b) b dirent 0)).
Context (Hsync : forall f m w a, fs_call f Fs_sync m w [a] = (w, [a], mkResult Cpio.CpioSync 0 [] dirent 0)).
Context (Hvget : forall f m w l, r_err (fs_call f Fs_vget m w l).2 = Cpio.CpioVget).

Record cpio_file (a : NodeAttr) (d : list Z) : Prop := {
  cf_type : type a = TYPE_REG;
  cf_size : size a = length d;
  cf_data : 0 <= data a /\ exists pre post, Cpio.blk_image = pre ++ d ++ post /\ Z.of_nat (length pre) = data a
}.

Lemma cpio_read_file a d (o n : Z) : cpio_file a d -> 0 <= o -> 0 < n -> o + n <= length d ->
  Cpio.CpioRead a o n = Some (take (Z.to_nat n) (drop (Z.to_nat o) d), NX_EOK).
Proof.
  intros [Ht Hs (Hd0 & pre & post & Hi & Hd)] Ho Hn Hl. pose proof Cpio.blk_bound as Hb. rewrite Hi, !length_app in Hb.
  unfold Cpio.CpioRead. rewrite Ht, bool_decide_true by done. cbn [negb].
  rewrite (u64_small o), Hs, Z.geb_leb, (proj2 (Z.leb_gt _ _)) by lia. rewrite (u64_small (_ - o)) by lia. cbn zeta.
  rewrite (proj2 (Z.ltb_ge _ _)), <- Hd, u64_small by lia. rewrite Cpio.blk_read_law; [|lia|lia|rewrite Hi, !length_app; lia].
  rewrite Some_bind. do 2 f_equal. rewrite Hi. replace (Z.to_nat (length pre + o)) with (length pre + Z.to_nat o)%nat by lia.
  rewrite <- drop_drop, drop_app_length, drop_app_le by lia. by rewrite take_app_le by (rewrite length_drop; lia).
Qed.

#[export] Instance cpio_files : FsFiles fs_call.
Proof.
  refine (Build_FsFiles W fs_call (fun _ _ a d => cpio_file a d) _ _ _ Hvget).
  - intros f w a d [Ht Hs (_ & pre & post & Hi & _)]. pose proof Cpio.blk_bound as Hb. rewrite Hi, !length_app in Hb.
    split; [done|]. split; [done|lia].
  - intros f m w a d o n Ha Ho Hn Hl. rewrite (Hread f m w a o n _ _ (cpio_read_file a d o n Ha Ho Hn Hl)).
    eexists w, a, _. split; [reflexivity|]. cbn. split; [|done]. rewrite length_take, length_drop. lia.
  - intros f m w a d _. rewrite Hsync. eexists w, a, _. done.
Defined.
End cpio.
