(* ===== verification/Devices.v ===== *)
(** The small drivers: [drivers/null], [drivers/zero], [drivers/meminfo],
    [drivers/cpuinfo], [drivers/dummy] and [drivers/console], over the registry of
    Driver.v.

    The world outside the registry is what the operations read and change: the memory
    of the buffers, the numbers of pages, the use of the cores, and the two ends of
    the console.  The queue of the console is IoQueue.v: here [queue_get] says what
    [NX_IoQueueGet] answers.  The names are those of the source. *)
From stdpp Require Import strings.
From S2P Require Import Prelude Bits Sync Vmspace Elf Driver.
#[local] Coercion Z.of_nat : nat >-> Z.
#[local] Open Scope Z_scope.

(** ** Making drivers known *)
Section making.
Context {World : Type}.

Fixpoint detach_all (s : @Drivers World) (drv : option Z) (names : list string) : option (@Drivers World) :=
  match names with
  | [] => Some s
  | nm :: names => '(s, _) ← NX_DriverDetachDevice s drv (Some nm); detach_all s drv names
  end.

(** The devices are attached in their order; what has been done is undone when one
    is refused.  The result says whether all are attached. *)
Fixpoint attach_all (s : @Drivers World) (drv : option Z) (done_ names : list string) (ids : list (option Z)) : option (@Drivers World * bool) :=
  match names, ids with
  | nm :: names, id :: ids =>
      '(s, err, _) ← NX_DriverAttachDevice s drv (Some nm) id;
      if negb (is_ok err) then s ← detach_all s drv done_; Some (fst (NX_DriverDestroy s drv), false)
      else attach_all s drv (done_ ++ [nm]) names ids
  | _, _ => Some (s, true)
  end.

(** What each of the functions [...DriverInit] does with its name, type, operations
    and names of devices; [id] and [ids] are the answers of the allocator. *)
Definition driver_init (drv_name : string) (ty : NX_DeviceType) (o : @NX_DriverOps World) (dev_names : list string) (s : @Drivers World) (id : option Z) (ids : list (option Z)) :
    option (@Drivers World * bool) :=
  '(s, drv) ← NX_DriverCreate s (Some drv_name) ty 0 (Some o) id;
  match drv with
  | None => Some (s, false)
  | Some _ =>
      '(s, ok) ← attach_all s drv [] dev_names ids;
      if negb ok then Some (s, false)
      else
        '(s, err) ← NX_DriverRegister s drv;
        if negb (is_ok err) then s ← detach_all s drv dev_names; Some (fst (NX_DriverDestroy s drv), false)
        else Some (s, true)
  end.

End making.

Record Outside := mkOutside {
  bytes : memory;
  totalPage_ : Z;
  usedPage_ : Z;
  usage : list Z;
  sent : list Z;
  received : list Z
}.
Definition with_bytes (w : Outside) (m : memory) : Outside := mkOutside m (totalPage_ w) (usedPage_ w) (usage w) (sent w) (received w).
Definition with_sent (w : Outside) (l : list Z) : Outside := mkOutside (bytes w) (totalPage_ w) (usedPage_ w) (usage w) l (received w).
Notation Ops := (@NX_DriverOps Outside).
Notation Registry := (@Drivers Outside).

(** ** The operations *)
Definition NullWrite (w : Outside) (device buf off len : Z) : Outside * NX_Error * Z := (w, NX_EOK, len).
Definition NullDriverOps : Ops := mkOps None None None (Some NullWrite) None.

Definition ZeroRead (w : Outside) (device buf off len : Z) : Outside * NX_Error * Z := (with_bytes w (NX_MemZero (bytes w) buf len), NX_EOK, len).
Definition ZeroDriverOps : Ops := mkOps None None (Some ZeroRead) None None.

Definition sizeof_MemInfo : Z := 24.
Definition MemInfoRead (w : Outside) (device buf off len : Z) : Outside * NX_Error * Z :=
  if negb (len =? sizeof_MemInfo) then (w, NX_EINVAL, 0)
  else
    let meminfo := le_bytes 8 NX_PAGE_SIZE ++ le_bytes 8 (totalPage_ w) ++ le_bytes 8 (usedPage_ w) in
    (with_bytes w (store_bytes (bytes w) buf meminfo), NX_EOK, len).
Definition MemInfoDriverOps : Ops := mkOps None None (Some MemInfoRead) None None.

Section drivers.
Context (NX_MULTI_CORES_NR : Z) (queue_get : Outside -> Outside * Z * NX_Error).

Definition NX_CPUINFO_GET_CORES : Z := 1.
Definition CpuInfoRead (w : Outside) (device buf off len : Z) : Outside * NX_Error * Z :=
  if negb (len =? 4 * NX_MULTI_CORES_NR) then (w, NX_EINVAL, 0)
  else (with_bytes w (store_bytes (bytes w) buf (concat (le_bytes 4 <$> take (Z.to_nat NX_MULTI_CORES_NR) (usage w)))), NX_EOK, len).
Definition CpuInfoControl (w : Outside) (device cmd arg : Z) : Outside * NX_Error :=
  if negb (cmd =? NX_CPUINFO_GET_CORES) then (w, NX_EINVAL)
  else (with_bytes w (store_bytes (bytes w) arg (le_bytes 4 NX_MULTI_CORES_NR)), NX_EOK).
Definition CpuInfoDriverOps : Ops := mkOps None None (Some CpuInfoRead) None (Some CpuInfoControl).

Definition DummyOpen (w : Outside) (device flags : Z) : Outside * NX_Error := (w, NX_EOK).
Definition DummyClose (w : Outside) (device : Z) : Outside * NX_Error := (w, NX_EOK).
Definition DummyRead (w : Outside) (device buf off len : Z) : Outside * NX_Error * Z := (w, NX_EOK, len).
Definition DummyWrite (w : Outside) (device buf off len : Z) : Outside * NX_Error * Z := (w, NX_EOK, len).
Definition DummyControl (w : Outside) (device cmd arg : Z) : Outside * NX_Error := (w, NX_EOK).
Definition DummyDriverOps : Ops := mkOps (Some DummyOpen) (Some DummyClose) (Some DummyRead) (Some DummyWrite) (Some DummyControl).

Definition ConsoleOpen (w : Outside) (device flags : Z) : Outside * NX_Error := (w, NX_EOK).
Definition ConsoleClose (w : Outside) (device : Z) : Outside * NX_Error := (w, NX_EOK).

(** [i] characters are read; [n] are left. *)
Fixpoint ConsoleRead_loop (n : nat) (w : Outside) (p i : Z) : Outside * NX_Error * Z :=
  match n with
  | O => (w, NX_EOK, i)
  | S n =>
      let '(w, ch, err) := queue_get w in
      let w := with_bytes w (store_bytes (bytes w) p [ch]) in
      if negb (is_ok err) then (w, err, i) else ConsoleRead_loop n w (p + 1) (i + 1)
  end.
Definition ConsoleRead (w : Outside) (device buf off len : Z) : Outside * NX_Error * Z := ConsoleRead_loop (Z.to_nat len) w buf 0.

Definition NX_ConsoleSendData (w : Outside) (ch : Z) : Outside := with_sent w (sent w ++ [ch]).
Fixpoint ConsoleWrite_loop (n : nat) (w : Outside) (p : Z) : Outside :=
  match n with
  | O => w
  | S n => ConsoleWrite_loop n (NX_ConsoleSendData w (bytes w p)) (p + 1)
  end.
Definition ConsoleWrite (w : Outside) (device buf off len : Z) : Outside * NX_Error * Z := (ConsoleWrite_loop (Z.to_nat len) w buf, NX_EOK, len).
Definition ConsoleControl (w : Outside) (device cmd arg : Z) : Outside * NX_Error := (w, NX_EOK).
Definition consoleDriverOps : Ops := mkOps (Some ConsoleOpen) (Some ConsoleClose) (Some ConsoleRead) (Some ConsoleWrite) (Some ConsoleControl).

(** ** The drivers *)
Definition NullDriverInit := driver_init "null device"%string NX_DEVICE_TYPE_VIRT NullDriverOps ["null"%string].
Definition NullDriverExit (s : Registry) := NX_DriverCleanup s (Some "null device"%string).
Definition ZeroDriverInit := driver_init "zero device"%string NX_DEVICE_TYPE_VIRT ZeroDriverOps ["zero"%string].
Definition ZeroDriverExit (s : Registry) := NX_DriverCleanup s (Some "zero device"%string).
Definition MemInfoDriverInit := driver_init "mem info device"%string NX_DEVICE_TYPE_VIRT MemInfoDriverOps ["meminfo"%string].
Definition MemInfoDriverExit (s : Registry) := NX_DriverCleanup s (Some "mem info device"%string).
Definition CpuInfoDriverInit := driver_init "cpu info device"%string NX_DEVICE_TYPE_VIRT CpuInfoDriverOps ["cpuinfo"%string].
Definition CpuInfoDriverExit (s : Registry) := NX_DriverCleanup s (Some "cpu info device"%string).
Definition DummyDriverInit := driver_init "dummy device"%string NX_DEVICE_TYPE_VIRT DummyDriverOps ["dummy0"%string; "dummy1"%string].
Definition DummyDriverExit (s : Registry) := NX_DriverCleanup s (Some "dummy device"%string).

(** The console gets its queue last: [queue] says whether there is memory for it. *)
Definition ConsoleDriverInit (queue : bool) (s : Registry) (id : option Z) (ids : list (option Z)) : option (Registry * bool) :=
  '(s, ok) ← driver_init "console driver"%string NX_DEVICE_TYPE_CHAR consoleDriverOps ["console"%string] s id ids;
  if negb ok then Some (s, false)
  else if negb queue then '(s, _) ← NX_DriverCleanup s (Some "console driver"%string); Some (s, false)
  else Some (s, true).
Definition ConsoleDriverExit (s : Registry) := NX_DriverCleanup s (Some "console driver"%string).
End drivers.

(** ** What they do *)

(** What is written to the console is sent in its order, and nothing else changes. *)
Lemma console_write_sends n : forall w p,
  ConsoleWrite_loop n w p = with_sent w (sent w ++ ((fun i => bytes w (p + Z.of_nat i)) <$> seq 0 n)).
Proof.
  induction n as [|n IH]; intros w p; cbn [ConsoleWrite_loop seq fmap list_fmap].
  - rewrite app_nil_r. by destruct w.
  - rewrite IH. unfold NX_ConsoleSendData, with_sent. cbn. f_equal.
    rewrite <- app_assoc. cbn. rewrite Z.add_0_r. do 2 f_equal.
    rewrite <- (fmap_S_seq 0 n), <- list_fmap_compose. apply list_fmap_ext. intros i x _. cbn. f_equal. lia.
Qed.

Definition give_line (w : Outside) : Outside * Z * NX_Error :=
  match received w with
  | ch :: l => (mkOutside (bytes w) (totalPage_ w) (usedPage_ w) (usage w) (sent w) l, ch, NX_EOK)
  | [] => (w, 0, NX_EAGAIN)
  end.

(** A read gets the characters that came, in their order, behind one another. *)
Lemma console_read_gets n : forall w p i,
  (n <= length (received w))%nat ->
  exists w', ConsoleRead_loop give_line n w p i = (w', NX_EOK, i + Z.of_nat n)
    /\ received w' = drop n (received w)
    /\ (forall k : nat, (k < n)%nat -> Some (bytes w' (p + k)) = received w !! k)
    /\ (forall a, ~ (p <= a < p + n) -> bytes w' a = bytes w a).
Proof.
  induction n as [|n IH]; intros w p i Hn; cbn [ConsoleRead_loop].
  { exists w. rewrite drop_0, Z.add_0_r. split_and!; [done | done | lia | done]. }
  unfold give_line at 1. destruct (received w) as [|ch l] eqn:El; cbn [length] in Hn; [lia|].
  cbn [negb is_ok received bytes]. set (w1 := with_bytes _ _).
  destruct (IH w1 (p + 1) (i + 1)) as (w' & Hrun & Hq & Hin & Hout); [cbn; lia|].
  exists w'. split_and!.
  - change (negb (is_ok NX_EOK)) with false. cbn iota. rewrite Hrun. f_equal. lia.
  - exact Hq.
  - intros [|k] Hk; cbn [lookup list_lookup].
    + rewrite Hout by lia. cbn. unfold store_bytes. by replace (p + 0%nat - p) with 0 by lia.
    + specialize (Hin k ltac:(lia)). cbn [received w1 with_bytes] in Hin. transitivity (Some (bytes w' (p + 1 + k))); [do 2 f_equal; lia | exact Hin].
  - intros a Ha. rewrite Hout by lia. cbn. unfold store_bytes, zlookup.
    destruct (decide (a < p)) as [Hlt|Hge].
    + by replace (0 <=? a - p) with false by lia.
    + destruct (0 <=? a - p); [|done]. rewrite lookup_ge_None_2; [done | cbn [length]; lia].
Qed.

(** The drivers at work in an empty registry. *)
Definition demo_outside : Outside := mkOutside (fun a => a) 1024 77 [30; 0] [] [104; 105].
Definition demo_registry : Registry := mkDrivers ∅ ∅ [] false demo_outside.
Definition demo_init : option Registry :=
  '(s, _) ← NullDriverInit demo_registry (Some 1) [Some 10];
  '(s, _) ← ZeroDriverInit s (Some 2) [Some 20];
  '(s, _) ← MemInfoDriverInit s (Some 3) [Some 30];
  '(s, _) ← CpuInfoDriverInit 2 s (Some 4) [Some 40];
  '(s, _) ← DummyDriverInit s (Some 5) [Some 50; Some 51];
  '(s, _) ← ConsoleDriverInit give_line true s (Some 6) [Some 60]; Some s.

(** All are found; the last one registered is the first on the list. *)
Example drivers_come_up :
  (s ← demo_init; '(s, dev) ← NX_DeviceSearch s "dummy1"%string; Some (driverListHead s, dev)) = Some ([6; 5; 4; 3; 2; 1], Some 51).
Proof. vm_compute. reflexivity. Qed.

Definition read_of (nm : string) (buf len : Z) : option (list Z * NX_Error * Z) :=
  s ← demo_init; '(s, _, dev) ← NX_DeviceOpen s (Some nm) 0; '(s, err, n) ← NX_DeviceRead s dev buf 0 len;
  Some ((fun i => bytes (outside s) (buf + Z.of_nat i)) <$> seq 0 (Z.to_nat len), err, default 0 n).

Example zero_gives_zeros : read_of "zero" 100 4 = Some ([0; 0; 0; 0], NX_EOK, 4).
Proof. vm_compute. reflexivity. Qed.
Example meminfo_gives_counts : read_of "meminfo" 8 24 = Some ([0; 16; 0; 0; 0; 0; 0; 0; 0; 4; 0; 0; 0; 0; 0; 0; 77; 0; 0; 0; 0; 0; 0; 0], NX_EOK, 24).
Proof. vm_compute. reflexivity. Qed.
Example meminfo_wants_its_size : (r ← read_of "meminfo" 8 23; Some (snd (fst r))) = Some NX_EINVAL.
Proof. vm_compute. reflexivity. Qed.
Example cpuinfo_gives_usage : read_of "cpuinfo" 8 8 = Some ([30; 0; 0; 0; 0; 0; 0; 0], NX_EOK, 8).
Proof. vm_compute. reflexivity. Qed.
Example console_gives_line : read_of "console" 100 2 = Some ([104; 105], NX_EOK, 2).
Proof. vm_compute. reflexivity. Qed.

(** When a second device is not made, the first and the driver are taken back. *)
Example dummy_taken_back : (r ← DummyDriverInit demo_registry (Some 5) [Some 50; None]; Some (drivers (fst r) !! 5, devices (fst r) !! 50, snd r)) = Some (None, None, false).
Proof. vm_compute. reflexivity. Qed.
