(* ===== verification/UserStack.v ===== *)
(** The user stack and the thread-local area of a process: [ProcessMapStack],
    [ProcessUnmapStack], [NX_ProcessMapTls] and [NX_ProcessUnmapTls] of
    [process/process.c].

    The stack of a new process holds, from its end down, the environment, the
    command line and the array of arguments that points to both.  The strings and
    the array are in the memory of the kernel (that of Vmspace.v). *)
From S2P Require Import Prelude Bits Mmu Vmspace Elf.
#[local] Coercion Z.of_nat : nat >-> Z.

Definition NX_PROCESS_USER_SATCK_SIZE : Z := NX_PAGE_SIZE * 4.
Definition NX_PROCESS_TLS_SIZE : Z := NX_PAGE_SIZE.
Definition NX_PROCESS_ARGS : Z := 2.
Definition sizeof_Addr : Z := 8.

(** A string of the kernel: its address and its characters, without the NUL. *)
Record line := mkLine { l_addr : Z; l_text : list Z }.

(** [NX_ALIGN_UP (NX_StrLen (cmd) + 1, sizeof (NX_Addr))], or the size of an
    address for a null string. *)
Definition line_len (l : option line) : Z :=
  match l with Some l => NX_ALIGN_UP (length (l_text l) + 1) sizeof_Addr | None => sizeof_Addr end.

Section stack.
Context {M : Type} `{MmuOps M}.
Variable NX_PAGE_ATTR_USER : Z.
Variable node_alloc : list NX_Vmnode -> option Z.
Implicit Types (sp : NX_Vmspace M) (m : memory).

(** What a second [NX_MemAlloc] gives after the first. *)
Definition node_alloc2 (l : list NX_Vmnode) : option Z :=
  match node_alloc l with Some id => node_alloc (mkNode id 0 0 0 0 false :: l) | None => node_alloc l end.

Definition Unmap sp (addr size : Z) : option (NX_Vmspace M * NX_Error) :=
  NX_VmspaceUnmap (node_alloc (spaceNodeList sp)) (node_alloc2 (spaceNodeList sp)) sp addr size.

Definition with_bottom sp (b : Z) : NX_Vmspace M :=
  mkSpace (mmu sp) (table sp) (spaceNodeList sp) (spaceBase sp) (spaceTop sp) (imageStart sp) (imageEnd sp) (heapStart sp)
    (heapEnd sp) (heapCurrent sp) (mapStart sp) (mapEnd sp) (stackStart sp) (stackEnd sp) b.

Definition store_word m (a x : Z) : memory := store_bytes m a (le_bytes 8 x).

(** [args] is an array on the stack of the kernel, at [args_]; its size. *)
Definition argLen : Z := sizeof_Addr * (NX_PROCESS_ARGS + 1).
Definition store_args m (args_ a0 a1 : Z) : memory := store_word (store_word (store_word m args_ a0) (args_ + 8) a1) (args_ + 16) 0.

(** Writing a string that is not null. *)
Definition write_line sp m (a : Z) (l : option line) : option (memory * NX_Error) :=
  match l with Some x => NX_VmspaceWrite sp m a (l_addr x) (line_len l) | None => Some (m, NX_EOK) end.

(** The last component is [process->args] when it is assigned. *)
Definition ProcessMapStack m sp (cmd env : option line) (args_ : Z) : option (memory * NX_Vmspace M * NX_Error * option Z) :=
  let cmdLen := line_len cmd in
  let envLen := line_len env in
  let stackSize := u64 (u64 (u64 (NX_PROCESS_USER_SATCK_SIZE + cmdLen) + envLen) + argLen) in
  let pageCount := NX_DIV_ROUND_UP stackSize NX_PAGE_SIZE in
  let envStackAddr := u64 (stackEnd sp - envLen) in
  let cmdStackAddr := u64 (envStackAddr - cmdLen) in
  let argsStackAddr := u64 (cmdStackAddr - argLen) in
  let m := store_args m args_ cmdStackAddr envStackAddr in
  let sp := with_bottom sp (u64 (stackEnd sp - u64 (pageCount * NX_PAGE_SIZE))) in
  if stackBottom sp <? stackStart sp then Some (m, sp, NX_ENOMEM, None)
  else
    '(sp, err, _) ← NX_VmspaceMap (node_alloc (spaceNodeList sp)) sp (stackBottom sp) (u64 (pageCount * NX_PAGE_SIZE)) NX_PAGE_ATTR_USER 0;
    if negb (is_ok err) then Some (m, sp, NX_ENOMEM, None)
    else
      let copyFailed m := '(sp, _) ← Unmap sp (stackBottom sp) (u64 (pageCount * NX_PAGE_SIZE)); Some (m, sp, NX_EFAULT, None) in
      '(m, err) ← NX_VmspaceWrite sp m argsStackAddr args_ argLen;
      if negb (is_ok err) then copyFailed m
      else
        '(m, err) ← write_line sp m cmdStackAddr cmd;
        if negb (is_ok err) then copyFailed m
        else
          '(m, err) ← write_line sp m envStackAddr env;
          if negb (is_ok err) then copyFailed m
          else Some (m, sp, NX_EOK, Some argsStackAddr).

Definition ProcessUnmapStack sp : option (NX_Vmspace M * NX_Error) :=
  Unmap sp (stackBottom sp) (u64 (stackEnd sp - stackBottom sp)).

(** [NX_TlsArea]: a pointer to itself and an error, in the kernel at [area]. *)
Definition sizeof_TlsArea : Z := 16.
Definition store_tls m (area tlsAddr : Z) : memory := store_bytes (store_word m area tlsAddr) (area + 8) (le_bytes 4 0).

(** The last component is [thread->resource.tls]. *)
Definition NX_ProcessMapTls m sp (area tls : Z) : option (memory * NX_Vmspace M * NX_Error * Z) :=
  '(sp, err, tlsAddr) ← NX_VmspaceMap (node_alloc (spaceNodeList sp)) sp 0 NX_PROCESS_TLS_SIZE NX_PAGE_ATTR_USER 0;
  if negb (is_ok err) then Some (m, sp, NX_ENOMEM, tls)
  else
    let m := store_tls m area tlsAddr in
    '(m, err) ← NX_VmspaceWrite sp m tlsAddr area sizeof_TlsArea;
    if negb (is_ok err) then
      '(sp, _) ← Unmap sp tlsAddr NX_PROCESS_TLS_SIZE; Some (m, sp, NX_EFAULT, tls)
    else Some (m, sp, NX_EOK, tlsAddr).

Definition NX_ProcessUnmapTls sp (tls : Z) : option (NX_Vmspace M * NX_Error * Z) :=
  if tls =? 0 then Some (sp, NX_ENORES, tls)
  else
    '(sp, err) ← Unmap sp tls NX_PROCESS_TLS_SIZE;
    if negb (is_ok err) then Some (sp, NX_ENOMEM, tls) else Some (sp, NX_EOK, 0).
End stack.

(** ** Writing inside one page *)
Section writing.
Context {M : Type} `{MmuFresh M}.
Implicit Types (sp : NX_Vmspace M) (m : memory).

(** Where the byte of the user at [a] is. *)
Definition user_place sp (a : Z) : Z := phys (frame_of (mmu sp)) a.

Definition resident_page sp (a : Z) : Prop :=
  spaceBase sp <= a < spaceTop sp /\ exists f at_, translate (mmu sp) (a / NX_PAGE_SIZE) = Some (f, at_).

Lemma write_in_page sp m a buf n :
  space_ok sp -> table sp <> 0 -> resident_page sp a -> 0 < n -> a mod NX_PAGE_SIZE + n <= NX_PAGE_SIZE -> buf <> 0 ->
  (forall i j, 0 <= i < n -> 0 <= j < n -> buf + i <> user_place sp (a + j)) ->
  exists m', NX_VmspaceWrite sp m a buf n = Some (m', NX_EOK) /\
    written m m' (fun k => user_place sp (a + k)) (fun k => m (buf + k)) 0 n.
Proof.
  intros [Hvm Hfr] Htab [Hin (f & at_ & Ht)] Hn Hp Hbuf Hd. pose proof (vm_bounds sp Hvm) as [[? ?] ?].
  pose proof (fresh_positive _ _ _ _ (proj1 (vm_mmu sp Hvm)) Hfr Ht) as Hf.
  assert (Hu : user_place sp a = f * NX_PAGE_SIZE + a mod NX_PAGE_SIZE) by (unfold user_place, phys, frame_of; by rewrite Ht).
  assert (Hone : forall k, 0 <= k < n -> user_place sp (a + k) = user_place sp a + k).
  { intros k Hk. unfold user_place. rewrite (phys_page _ (a + k) a); [lia|]. unfold NX_PAGE_SIZE in *. clear - Hp Hk. zlia. }
  assert (HP : 0 < NX_PAGE_SIZE) by done. pose proof (Z.mod_pos_bound a NX_PAGE_SIZE HP).
  unfold NX_VmspaceWrite, NX_VmspaceCopyData, nz. rewrite (proj2 (Z.eqb_neq a 0)), (proj2 (Z.eqb_neq buf 0)), (proj2 (Z.eqb_neq n 0)) by lia.
  cbn [negb orb andb]. rewrite assert_true. set (fuel := (Z.to_nat (n / NX_PAGE_SIZE) + 2)%nat).
  assert (exists k, fuel = S (S k)) as [k ->] by (exists (Z.to_nat (n / NX_PAGE_SIZE)); unfold fuel; lia).
  cbn [CopyData_loop]. rewrite Z.gtb_ltb, (proj2 (Z.ltb_lt 0 n)) by lia. unfold NX_VmspaceVirToPhy, nz.
  rewrite (proj2 (Z.eqb_neq (table sp) 0)) by done. cbn [negb].
  assert ((a <? spaceBase sp) || (a >=? spaceTop sp) = false) as -> by (destruct (Z.ltb_spec a (spaceBase sp)), (Z.geb_spec a (spaceTop sp)); (done || lia)).
  rewrite (vir2Phy_law (mmu sp) a f at_) by (done || lia || apply Hvm). rewrite Some_bind, <- Hu.
  rewrite (proj2 (Z.eqb_neq _ 0)) by (rewrite Hu; unfold NX_PAGE_SIZE in *; lia). unfold NX_Phy2Virt. cbv zeta.
  assert ((if n <? NX_PAGE_SIZE then n else NX_PAGE_SIZE) = n) as -> by (destruct (Z.ltb_spec n NX_PAGE_SIZE); lia).
  rewrite Z.sub_diag. cbn [Z.gtb Z.compare]. eexists. split; [reflexivity|]. unfold copy_chunk.
  assert (Hd' : forall i j, 0 <= i < Z.of_nat (Z.to_nat n) -> 0 <= j < Z.of_nat (Z.to_nat n) -> user_place sp a + i <> buf + j).
  { intros i j Hi Hj E. apply (Hd j i); [lia..|]. rewrite Hone by lia. lia. }
  split.
  - intros i Hi. rewrite mem_copy_spec, Hone, decide_True by (done || lia). f_equal. lia.
  - intros b Hb. rewrite mem_copy_spec, decide_False; [done| |done]. intros Hr. apply (Hb (b - user_place sp a)); [lia|]. rewrite Hone; lia.
Qed.
End writing.

(** ** The arguments on the stack *)

(** [a] holds the bytes [l] for the user. *)
Definition user_bytes {M} `{MmuOps M} (sp : NX_Vmspace M) (m : memory) (a : Z) (l : list Z) : Prop :=
  forall k, 0 <= k < length l -> m (user_place sp (a + k)) = file_byte l k.

Definition user_line {M} `{MmuOps M} (sp : NX_Vmspace M) (m : memory) (a : Z) (l : option line) : Prop :=
  match l with Some x => user_bytes sp m a (l_text x ++ [0]) | None => True end.

(** A string in the memory of the kernel, and where it and what is copied along
    with it lie. *)
Definition line_ok (m : memory) (l : option line) : Prop :=
  match l with
  | Some x => l_addr x <> 0 /\ Forall (fun c => c <> 0) (l_text x) /\ length (l_text x) < 2 ^ 32 /\
      forall k, 0 <= k <= length (l_text x) -> m (l_addr x + k) = file_byte (l_text x ++ [0]) k
  | None => True
  end.
Definition line_at (l : option line) (b : Z) : Prop :=
  match l with Some x => l_addr x <= b < l_addr x + line_len l | None => False end.

Lemma line_len_spec m l : line_ok m l ->
  8 <= line_len l /\ match l with Some x => length (l_text x) + 1 <= line_len l | None => True end.
Proof.
  destruct l as [x|]; [|done]. intros (_ & _ & Hl & _). unfold line_len, sizeof_Addr. change 8 with (2 ^ 3).
  rewrite NX_ALIGN_UP_spec by lia. unfold align_up. change (2 ^ 3) with 8. split; zlia.
Qed.

Lemma zlookup_app (l k : list Z) i :
  zlookup (l ++ k) i = if i <? length l then zlookup l i else zlookup k (i - length l).
Proof.
  unfold zlookup. destruct (Z.leb_spec 0 i) as [Hi|Hi], (Z.ltb_spec i (length l)) as [Hl|Hl];
    rewrite ?(proj2 (Z.leb_le 0 (i - length l))), ?(proj2 (Z.leb_gt 0 (i - length l))) by lia; try lia; [| |done].
  - rewrite lookup_app_l; [done|lia].
  - rewrite lookup_app_r by lia. f_equal. lia.
Qed.

Lemma store_bytes_app m a l k x : store_bytes (store_bytes m a l) (a + length l) k x = store_bytes m a (l ++ k) x.
Proof.
  unfold store_bytes. rewrite zlookup_app. replace (x - (a + length l)) with (x - a - length l) by lia.
  destruct (Z.ltb_spec (x - a) (length l)) as [Hl|Hl].
  - assert (zlookup k (x - a - length l) = None) as -> by (unfold zlookup; by rewrite (proj2 (Z.leb_gt 0 _)) by lia). done.
  - destruct (zlookup k _); [done|]. cbn. unfold zlookup. destruct (Z.leb_spec 0 (x - a)); [|done].
    rewrite lookup_ge_None_2 by lia. done.
Qed.

Lemma le_bytes_length n x : length (le_bytes n x) = n.
Proof. revert x. induction n as [|n IH]; intros x; [done|]. cbn. by rewrite IH. Qed.

(** The array of arguments. *)
Definition args_bytes (a0 a1 : Z) : list Z := le_bytes 8 a0 ++ le_bytes 8 a1 ++ le_bytes 8 0.

Lemma store_args_bytes m args_ a0 a1 x : store_args m args_ a0 a1 x = store_bytes m args_ (args_bytes a0 a1) x.
Proof.
  unfold store_args, store_word, args_bytes. rewrite app_assoc, <- !store_bytes_app, length_app, !le_bytes_length.
  unfold store_bytes at 1 4. rewrite <- store_bytes_app, le_bytes_length. by replace (args_ + (8 + 8)%nat) with (args_ + 16) by lia.
Qed.

Section map_stack.
Context {M : Type} `{MmuFresh M}.
Context (attr_user : Z) (node_alloc : list NX_Vmnode -> option Z).
Context (Hattr : attr_ok attr_user) (Halloc : forall l id, node_alloc l = Some id -> id ∉ nid <$> l).
Implicit Types (sp : NX_Vmspace M) (m : memory).

(** The stack of a program whose strings fit its last page: five pages. *)
Definition stack_size : Z := 5 * NX_PAGE_SIZE.
Definition args_fit (cmd env : option line) : Prop := line_len cmd + line_len env + argLen <= NX_PAGE_SIZE.

(** The kernel's bytes that are copied. *)
Definition copied_at (cmd env : option line) (args_ b : Z) : Prop :=
  args_ <= b < args_ + argLen \/ line_at cmd b \/ line_at env b.

Section copies.
Context (sp : NX_Vmspace M) (cmd env : option line) (args_ : Z) (m : memory).
Context (Hsp : space_ok sp) (Htab : table sp <> 0) (Hcmd : line_ok m cmd) (Henv : line_ok m env) (Hargs : args_ <> 0).
Context (Hfit : args_fit cmd env) (Hend : stackEnd sp mod NX_PAGE_SIZE = 0).
Context (Hbase : spaceBase sp <= stackEnd sp - NX_PAGE_SIZE) (Htop : stackEnd sp <= spaceTop sp).
Context (Hlast : exists f at_, translate (mmu sp) (stackEnd sp / NX_PAGE_SIZE - 1) = Some (f, at_)).
Context (Hapart : forall a b, stackEnd sp - NX_PAGE_SIZE <= a < stackEnd sp -> copied_at cmd env args_ b -> b <> user_place sp a).
Context (Hlines : forall b, line_at cmd b \/ line_at env b -> ~ args_ <= b < args_ + argLen).

Lemma last_page a : stackEnd sp - NX_PAGE_SIZE <= a < stackEnd sp ->
  a / NX_PAGE_SIZE = stackEnd sp / NX_PAGE_SIZE - 1 /\ a mod NX_PAGE_SIZE = a - (stackEnd sp - NX_PAGE_SIZE).
Proof using Hend. unfold NX_PAGE_SIZE in *. intros Ha. clear - Ha Hend. zlia. Qed.

Lemma last_inj a b : stackEnd sp - NX_PAGE_SIZE <= a < stackEnd sp -> stackEnd sp - NX_PAGE_SIZE <= b < stackEnd sp ->
  user_place sp a = user_place sp b -> a = b.
Proof using Hend.
  intros Ha Hb. unfold user_place, phys. destruct (last_page a Ha) as [-> ->], (last_page b Hb) as [-> ->]. lia.
Qed.

(** Writing [n] bytes from [buf] on the last page. *)
Lemma write_last m1 a buf n :
  0 < n -> stackEnd sp - NX_PAGE_SIZE <= a -> a + n <= stackEnd sp -> buf <> 0 ->
  (forall i, 0 <= i < n -> copied_at cmd env args_ (buf + i)) ->
  exists m', NX_VmspaceWrite sp m1 a buf n = Some (m', NX_EOK) /\
    written m1 m' (fun k => user_place sp (a + k)) (fun k => m1 (buf + k)) 0 n.
Proof using Hsp Htab Hend Hbase Htop Hlast Hapart.
  intros Hn Ha Hb Hbuf Hcopy. destruct (last_page a) as [Ea Em]; [lia|].
  apply write_in_page; try done.
  - split; [unfold NX_PAGE_SIZE in *; lia|]. by rewrite Ea.
  - rewrite Em. lia.
  - intros i j Hi Hj. apply Hapart; [lia|by apply Hcopy].
Qed.

Lemma write_line_last m1 a l :
  (l = cmd \/ l = env) -> stackEnd sp - NX_PAGE_SIZE <= a -> a + line_len l <= stackEnd sp ->
  exists m', write_line sp m1 a l = Some (m', NX_EOK) /\
    (forall b, (forall k, 0 <= k < line_len l -> b <> user_place sp (a + k)) -> m' b = m1 b) /\
    ((forall b, line_at l b -> m1 b = m b) -> user_line sp m' a l).
Proof.
  intros Hl Ha Hb. assert (Hok : line_ok m l) by (by destruct Hl as [->| ->]). destruct (line_len_spec m l Hok) as [Hlen Htext].
  destruct l as [x|]; [|by exists m1]. destruct Hok as (Hx & _ & _ & Hbytes). cbn [write_line].
  assert (Hat : forall i, 0 <= i < line_len (Some x) -> line_at (Some x) (l_addr x + i)) by (intros; cbn [line_at]; lia).
  destruct (write_last m1 a (l_addr x) (line_len (Some x))) as (m' & -> & W1 & W2); [lia|done|done|done| |].
  { intros i Hi. right. destruct Hl as [<-|<-]; [left|right]; by apply Hat. }
  exists m'. split; [done|]. split; [exact W2|]. intros Hsame k Hk. rewrite length_app in Hk. cbn [length] in Hk.
  rewrite W1 by lia. rewrite Hsame by (apply Hat; lia). apply Hbytes. lia.
Qed.

(** The copies all succeed and leave array and strings on the stack. *)
Lemma copies_correct :
  let e := stackEnd sp - line_len env in let c := e - line_len cmd in let a := c - argLen in
  let m0 := store_args m args_ c e in
  exists m1 m2 m3, NX_VmspaceWrite sp m0 a args_ argLen = Some (m1, NX_EOK) /\
    write_line sp m1 c cmd = Some (m2, NX_EOK) /\ write_line sp m2 e env = Some (m3, NX_EOK) /\
    user_bytes sp m3 a (args_bytes c e) /\ user_line sp m3 c cmd /\ user_line sp m3 e env /\
    forall b, ~ args_ <= b < args_ + argLen -> (forall x, a <= x < stackEnd sp -> b <> user_place sp x) -> m3 b = m b.
Proof.
  intros e c a m0. destruct (line_len_spec m cmd Hcmd) as [Hc _], (line_len_spec m env Henv) as [He _]. unfold args_fit in Hfit.
  assert (HL : argLen = 24) by done.
  assert (Hm0 : written m m0 (fun k => args_ + k) (file_byte (args_bytes c e)) 0 argLen).
  { destruct (store_bytes_written m args_ (args_bytes c e)) as [W1 W2]. subst m0.
    split; [intros k Hk|intros b Hb]; rewrite store_args_bytes; [by apply W1|by apply W2]. }
  destruct Hm0 as [A1 A2].
  destruct (write_last m0 a args_ argLen) as (m1 & Hw1 & B1 & B2); [lia|lia|lia|done|intros; left; lia|].
  destruct (write_line_last m1 c cmd) as (m2 & Hw2 & C2 & C1); [by left|lia|lia|].
  destruct (write_line_last m2 e env) as (m3 & Hw3 & D2 & D1); [by right|lia|lia|].
  exists m1, m2, m3. do 3 (split; [done|]).
  assert (Hk1 : forall b, line_at cmd b \/ line_at env b -> m1 b = m b).
  { intros b Hb. rewrite B2, A2; [done| |].
    - intros k Hk ->. apply (Hlines _ Hb). lia.
    - intros k Hk. apply Hapart; [lia|]. by right. }
  assert (Hk2 : forall b, line_at env b -> m2 b = m b).
  { intros b Hb. rewrite C2; [apply Hk1; by right|]. intros k Hk. apply Hapart; [lia|]. by right; right. }
  split; [|split; [|split]].
  - intros k Hk. assert (Hk' : 0 <= k < argLen) by done. rewrite D2, C2, B1, A1; [done..| |].
    + intros j Hj E. apply last_inj in E; lia.
    + intros j Hj E. apply last_inj in E; lia.
  - assert (Hl2 : user_line sp m2 c cmd) by (apply C1; intros b Hb; apply Hk1; by left).
    destruct (line_len_spec m cmd Hcmd) as [_ Ht]. destruct cmd as [x|]; [|done]. intros k Hk. rewrite D2; [by apply Hl2|].
    rewrite length_app in Hk. cbn [length] in Hk. intros j Hj E. apply last_inj in E; lia.
  - by apply D1.
  - intros b Hb Hout. rewrite D2, C2, B2, A2; [done| | | |].
    + intros k Hk ->. apply Hb. lia.
    + intros k Hk. apply Hout. lia.
    + intros k Hk. apply Hout. lia.
    + intros k Hk. apply Hout. lia.
Qed.
End copies.

Lemma space_ok_bottom sp b : space_ok sp -> space_ok (with_bottom sp b).
Proof. intros [[] Hf]. split; [by split|done]. Qed.

Lemma stack_pages cmd env m : line_ok m cmd -> line_ok m env -> args_fit cmd env ->
  let n := NX_DIV_ROUND_UP (u64 (u64 (u64 (NX_PROCESS_USER_SATCK_SIZE + line_len cmd) + line_len env) + argLen)) NX_PAGE_SIZE in
  u64 (n * NX_PAGE_SIZE) = stack_size.
Proof.
  intros Hc He Hfit n. destruct (line_len_spec m cmd Hc) as [? _], (line_len_spec m env He) as [? _].
  unfold args_fit, NX_PROCESS_USER_SATCK_SIZE, argLen, sizeof_Addr, NX_PROCESS_ARGS, NX_PAGE_SIZE, stack_size in *.
  subst n. rewrite (u64_small (_ + line_len cmd)), (u64_small (_ + line_len env)), (u64_small (_ + 8 * (2 + 1))) by lia.
  unfold NX_DIV_ROUND_UP. rewrite (u64_small (_ - 1)) by lia.
  assert ((4096 * 4 + line_len cmd + line_len env + 8 * (2 + 1) + 4096 - 1) / 4096 = 5) as -> by zlia. done.
Qed.

(** The outcome of making the stack of a process. *)
Definition stack_outcome sp m cmd env (args_ : Z) sp' m' (err : NX_Error) (args : option Z) : Prop :=
  let e := stackEnd sp - line_len env in let c := e - line_len cmd in let a := c - argLen in
  space_ok sp' /\ stackBottom sp' = stackEnd sp - stack_size /\
  ((err = NX_ENOMEM /\ args = None /\ (forall b k, covers (spaceNodeList sp') b k <-> covers (spaceNodeList sp) b k) /\
    forall b, ~ args_ <= b < args_ + argLen -> m' b = m b) \/
   (err = NX_EOK /\ args = Some a /\
    (forall b k, covers (spaceNodeList sp') b k <->
       (stackEnd sp - stack_size <= b < stackEnd sp /\ k = (attr_user, 0)) \/ covers (spaceNodeList sp) b k) /\
    user_bytes sp' m' a (args_bytes c e) /\ user_line sp' m' c cmd /\ user_line sp' m' e env /\
    forall b, ~ args_ <= b < args_ + argLen -> (forall x, a <= x < stackEnd sp -> b <> user_place sp' x) -> m' b = m b)).
End map_stack.

(** C35: The stack of a new process.  When the array, the command line and the
    environment fit the last page of the stack ([args_fit]), five pages are mapped
    at its end and the call returns the address of an array that points, for the
    user, to the command line and to the environment, whose characters, with their
    NULs, are above it; nothing else in memory has changed but the array of the
    kernel.  When memory is short nothing is mapped.  The place of the stack is
    free, ends on a page and lies in the space, and the texts the kernel copies
    from are in none of the new pages.  Longer lines are written through one
    address of the kernel over frames of others ([long_env_crosses]). *)
Theorem map_stack_correct {M} `{MmuFresh M} attr_user node_alloc (sp : NX_Vmspace M) (m : memory) cmd env args_ :
  attr_ok attr_user -> (forall l id, node_alloc l = Some id -> id ∉ nid <$> l) ->
  space_ok sp -> table sp <> 0 -> line_ok m cmd -> line_ok m env -> args_ <> 0 -> args_fit cmd env ->
  stackEnd sp mod NX_PAGE_SIZE = 0 -> spaceBase sp <= stackEnd sp - stack_size -> stackEnd sp <= spaceTop sp ->
  stackStart sp <= stackEnd sp - stack_size -> free_range sp (stackEnd sp - stack_size) stack_size ->
  (forall b, line_at cmd b \/ line_at env b -> ~ args_ <= b < args_ + argLen) ->
  (forall sp1 out, NX_VmspaceMap (node_alloc (spaceNodeList sp)) (with_bottom sp (stackEnd sp - stack_size))
       (stackEnd sp - stack_size) stack_size attr_user 0 = Some (sp1, NX_EOK, out) ->
     forall a b, stackEnd sp - NX_PAGE_SIZE <= a < stackEnd sp -> copied_at cmd env args_ b -> b <> user_place sp1 a) ->
  exists m' sp' err args, ProcessMapStack attr_user node_alloc m sp cmd env args_ = Some (m', sp', err, args) /\
    stack_outcome attr_user sp m cmd env args_ sp' m' err args.
Proof.
  intros Hattr Halloc Hsp Htab Hc He Hargs Hfit Hend Hbase Htop Hstart Hfree Hlines Hapart.
  pose proof (stack_pages cmd env m Hc He Hfit) as Hpages. cbv zeta in Hpages.
  destruct (line_len_spec m cmd Hc) as [Hc0 _], (line_len_spec m env He) as [He0 _].
  pose proof (vm_bounds sp (proj1 Hsp)) as [[? ?] ?]. assert (HL : argLen = 24) by done.
  assert (HS : stack_size = 20480) by done. assert (HP : NX_PAGE_SIZE = 4096) by done.
  unfold args_fit in Hfit. unfold ProcessMapStack, stack_outcome. cbv zeta. rewrite Hpages.
  rewrite (u64_small (stackEnd sp - line_len env)), (u64_small (_ - line_len cmd)), (u64_small (_ - argLen)), (u64_small (_ - stack_size)) by lia.
  set (e := stackEnd sp - line_len env) in *. set (c := e - line_len cmd) in *. set (a := c - argLen) in *.
  cbn [stackBottom stackStart with_bottom spaceNodeList]. rewrite (proj2 (Z.ltb_ge _ _)) by lia.
  pose proof (space_ok_bottom sp (stackEnd sp - stack_size) Hsp) as Hsp0.
  assert (Hup : NX_PAGE_ALIGNUP stack_size = stack_size) by done.
  destruct (map_user attr_user node_alloc Hattr Halloc (with_bottom sp (stackEnd sp - stack_size)) (stackEnd sp - stack_size) stack_size Hsp0)
    as (sp1 & err & out & Hrun & Hsp1 & Hlay & Hcase); try done.
  { rewrite HS, HP in *. clear - Hend. zlia. } { cbn. lia. }
  cbn [spaceNodeList with_bottom] in Hrun. rewrite Hrun, Some_bind. rewrite Hup in Hcase.
  assert (Hm0 : forall b, ~ args_ <= b < args_ + argLen -> store_args m args_ c e b = m b).
  { intros b Hb. rewrite store_args_bytes. apply (store_bytes_written m args_ (args_bytes c e)). intros k Hk.
    change (Z.of_nat (length (args_bytes c e))) with argLen in Hk. lia. }
  assert (Hsame : stackBottom sp1 = stackEnd sp - stack_size /\ stackEnd sp1 = stackEnd sp /\ table sp1 = table sp /\
    spaceBase sp1 = spaceBase sp /\ spaceTop sp1 = spaceTop sp) by (rewrite Hlay; done).
  destruct Hsame as (Eb & Ee & Et & Esb & Est).
  destruct Hcase as [(-> & -> & Hcov)|(-> & -> & Hcov)].
  2:{ cbn [negb]. eexists _, sp1, NX_ENOMEM, None. split; [reflexivity|]. split; [done|]. split; [done|]. left.
      split; [done|]. split; [done|]. split; [exact Hcov|exact Hm0]. }
  change (is_ok NX_EOK) with true. cbn [negb]. cbn [spaceNodeList with_bottom] in Hcov.
  assert (Hlast : exists f at_, translate (mmu sp1) (stackEnd sp1 / NX_PAGE_SIZE - 1) = Some (f, at_)).
  { rewrite Ee. destruct (vm_mapped sp1 (proj1 Hsp1) (stackEnd sp / NX_PAGE_SIZE - 1) attr_user 0) as [f Hf]; [|done|by exists f, attr_user].
    apply Hcov. left. split; [|done]. rewrite HS, HP in *. clear - Hend. zlia. }
  destruct (copies_correct sp1 cmd env args_ m) as (m1 & m2 & m3 & Hw1 & Hw2 & Hw3 & Hgood); try done; rewrite ?Et, ?Ee, ?Esb, ?Est; try done; try lia.
  { by eapply Hapart. }
  rewrite Ee in Hw1, Hw2, Hw3, Hgood. fold e in Hw1, Hw2, Hw3, Hgood. fold c in Hw1, Hw2, Hw3, Hgood. fold a in Hw1, Hgood.
  rewrite Hw1, Some_bind. change (is_ok NX_EOK) with true. cbn [negb]. rewrite Hw2, Some_bind. change (is_ok NX_EOK) with true. cbn [negb].
  rewrite Hw3, Some_bind. change (is_ok NX_EOK) with true. cbn [negb]. eexists m3, sp1, NX_EOK, _. split; [reflexivity|].
  split; [done|]. split; [done|]. right. split; [done|]. split; [done|]. split; [|done].
  intros b k. rewrite Hcov. replace (stackEnd sp - stack_size + stack_size) with (stackEnd sp) by lia. done.
Qed.

(** ** The thread-local area *)
Section tls.
Context {M : Type} `{MmuFresh M}.
Context (attr_user : Z) (node_alloc : list NX_Vmnode -> option Z).
Context (Hattr : attr_ok attr_user) (Halloc : forall l id, node_alloc l = Some id -> id ∉ nid <$> l).
Implicit Types (sp : NX_Vmspace M) (m : memory).

Lemma GetAddr_aligned sp size l : forall fa a,
  Forall (fun x => endd x mod NX_PAGE_SIZE = 0) l -> fa mod NX_PAGE_SIZE = 0 ->
  GetAddr_loop sp size l fa = Some a -> a mod NX_PAGE_SIZE = 0.
Proof.
  induction l as [|x l IH]; intros fa a Hl Hfa; cbn [GetAddr_loop]; [by intros [= <-]|].
  apply Forall_cons in Hl as [Hx Hl]. destruct (_ && _); [|by apply IH].
  destruct (_ >? _); [done|]. destruct (_ <=? _); [by intros [= <-]|]. by apply IH.
Qed.

(** One page at an address the kernel chooses. *)
Lemma map_one_page sp :
  space_ok sp -> mapEnd sp + NX_PAGE_SIZE <= spaceTop sp ->
  exists sp' err out, NX_VmspaceMap (node_alloc (spaceNodeList sp)) sp 0 NX_PAGE_SIZE attr_user 0 = Some (sp', err, out) /\
    same_layout sp sp' /\
    ((err = NX_EOK /\ mapStart sp <= out <= mapEnd sp /\ out mod NX_PAGE_SIZE = 0 /\ space_ok sp' /\
      free_range sp out NX_PAGE_SIZE /\ forall b k, covers (spaceNodeList sp') b k <->
        (out <= b < out + NX_PAGE_SIZE /\ k = (attr_user, 0)) \/ covers (spaceNodeList sp) b k) \/
     (is_ok err = false /\ forall b k, covers (spaceNodeList sp') b k <-> covers (spaceNodeList sp) b k)).
Proof.
  intros Hsp Hroom. pose proof Hsp as [Hvm _]. pose proof (vm_bounds sp Hvm) as [[? ?] ?].
  pose proof (vm_aligned sp Hvm) as (_ & _ & Hms & ? & ?). pose proof (vm_nodes sp Hvm) as Hok.
  assert (HP : NX_PAGE_SIZE = 4096) by done.
  assert (Hends : Forall (fun x => start x mod NX_PAGE_SIZE = 0 /\ endd x mod NX_PAGE_SIZE = 0) (spaceNodeList sp)).
  { apply Forall_forall. intros x Hx. by destruct (nodes_ok_lt _ _ _ x Hok Hx) as (_ & _ & ? & ? & _). }
  unfold NX_VmspaceMap.
  destruct (GetAddr_loop sp NX_PAGE_SIZE (spaceNodeList sp) (mapStart sp)) as [a|] eqn:Ea.
  - assert (Hlow : mapStart sp <= a) by (by eapply GetAddr_lower; [| |exact Ea]).
    assert (Hhi : a <= mapEnd sp).
    { pose proof (GetAddr_loop_spec sp NX_PAGE_SIZE [] (spaceNodeList sp) (mapStart sp) Hvm ltac:(lia) eq_refl ltac:(lia)) as Hspec.
      rewrite Ea in Hspec. apply Hspec; [by intros x ?%elem_of_nil|by intros x Hx []|intros; lia]. }
    assert (Hal : a mod NX_PAGE_SIZE = 0) by (eapply GetAddr_aligned; [|exact Hms|exact Ea]; eapply Forall_impl; [exact Hends|by intros x []]).
    assert (Hsame : NX_VmspaceMap (node_alloc (spaceNodeList sp)) sp a NX_PAGE_SIZE attr_user 0 =
      __VmspaceMap (node_alloc (spaceNodeList sp)) sp 0 0 NX_PAGE_SIZE attr_user 0 /\
      NX_VmspaceMap (node_alloc (spaceNodeList sp)) sp a NX_PAGE_SIZE attr_user 0 = map_at (node_alloc (spaceNodeList sp)) sp a 0 NX_PAGE_SIZE attr_user 0).
    { pose proof (attr_ok_nonzero attr_user Hattr). unfold NX_VmspaceMap.
      destruct (VmspaceMap_at (node_alloc (spaceNodeList sp)) sp 0 0 NX_PAGE_SIZE attr_user 0 a) as [-> _]; try (done || lia).
      destruct (VmspaceMap_at (node_alloc (spaceNodeList sp)) sp a 0 NX_PAGE_SIZE attr_user 0 a) as [-> _]; try (done || lia).
      unfold chosen, nz. by rewrite (proj2 (Z.eqb_neq a 0)) by lia. }
    destruct Hsame as [<- Hat].
    assert (Hdown : NX_PAGE_ALIGNDOWN a = a) by (rewrite NX_PAGE_ALIGNDOWN_spec by lia; rewrite HP in *; clear - Hal; zlia).
    pose proof (VmspaceCheckAddrCollisions_spec sp a NX_PAGE_SIZE _ _ Hok ltac:(lia) ltac:(lia) ltac:(lia)) as Hcol.
    destruct (VmspaceCheckAddrCollisions sp a NX_PAGE_SIZE) eqn:Ec.
    + exists sp, NX_EINVAL, 0. split; [|split; [apply same_layout_refl|by right]]. rewrite Hat. unfold map_at. rewrite Hdown.
      change (NX_PAGE_ALIGNUP NX_PAGE_SIZE) with NX_PAGE_SIZE. by rewrite Ec.
    + assert (Hfree : free_range sp a NX_PAGE_SIZE).
      { intros c k (x & Hx & Hxc & _). destruct Hcol with (x := x) as [?|?]; [|done|lia|lia].
        intros (y & Hy & Hy1 & Hy2). rewrite Forall_forall in Hends. destruct (Hends y Hy) as [E1 E2].
        destruct (nodes_ok_lt _ _ _ y Hok Hy) as (Hlt & _). rewrite HP in *. clear - E1 E2 Hlt Hy1 Hy2 Hal. zlia. }
      destruct (map_user attr_user node_alloc Hattr Halloc sp a NX_PAGE_SIZE) as (sp' & err & out & Hrun & Hsp' & Hlay & Hcase); try (done || lia).
      exists sp', err, out. split; [done|]. split; [done|].
      destruct Hcase as [(-> & -> & Hcov)|(? & _ & ?)]; [left|by right]. by split_and!.
  - exists sp, NX_ENOMEM, 0. split; [|split; [apply same_layout_refl|right; done]].
    unfold __VmspaceMap, nz. rewrite (proj2 (Z.eqb_neq attr_user 0)) by (by apply attr_ok_nonzero). cbn.
    unfold GetAddrFromMapArea, nz. cbn. by rewrite Ea.
Qed.

(** Taking the page away again. *)
Lemma unmap_one_page sp a :
  (forall l, is_Some (node_alloc l)) -> space_ok sp -> a mod NX_PAGE_SIZE = 0 -> spaceBase sp <= a -> a + NX_PAGE_SIZE <= spaceTop sp ->
  (forall b, a <= b < a + NX_PAGE_SIZE -> covers (spaceNodeList sp) b (attr_user, 0)) ->
  exists sp', Unmap node_alloc sp a NX_PAGE_SIZE = Some (sp', NX_EOK) /\ same_layout sp sp' /\ vm_ok sp' /\
    forall b k, covers (spaceNodeList sp') b k <-> covers (spaceNodeList sp) b k /\ ~ a <= b < a + NX_PAGE_SIZE.
Proof.
  intros Hall [Hvm _] Hal Hlo Hhi Hc. assert (HP : NX_PAGE_SIZE = 4096) by done.
  unfold Unmap. destruct (Hall (spaceNodeList sp)) as [i1 E1]. unfold node_alloc2. rewrite E1.
  destruct (Hall (mkNode i1 0 0 0 0 false :: spaceNodeList sp)) as [i2 E2]. rewrite E2. apply Halloc in E1, E2. cbn in E2.
  apply not_elem_of_cons in E2 as [Hne E2].
  destruct (unmap_spec sp a NX_PAGE_SIZE i1 i2 Hvm E1 E2 (not_eq_sym Hne) Hal Hlo ltac:(lia) Hhi) as [Hun _].
  change (NX_PAGE_ALIGNUP NX_PAGE_SIZE) with NX_PAGE_SIZE in Hun.
  destruct Hun as (sp' & Hrun & Hvm' & Hlay & Hcov).
  - destruct (Hc a ltac:(lia)) as (x & Hx & Hxa & _). exists x. split; [done|]. split; [lia|].
    destruct (nodes_ok_lt _ _ _ x (vm_nodes sp Hvm) Hx) as (_ & _ & _ & Hxe & _). rewrite HP in *. clear - Hal Hxe Hxa. zlia.
  - intros pg Hpg. assert (pg * NX_PAGE_SIZE = a) as Epg by (unfold in_pages in Hpg; rewrite HP in *; clear - Hal Hpg; zlia).
    destruct (vm_mapped sp Hvm pg attr_user 0) as [f Hf]; [rewrite Epg; apply Hc; lia|done|by eexists].
  - by exists sp'.
Qed.
End tls.

(** The thread-local area.  [NX_ProcessMapTls] maps a page at a free address of
    the map area that begins, for the user, with its own address and a clear error, or
    leaves the space as it was when memory is short; [NX_ProcessUnmapTls] then takes the
    page away and leaves the space as it was before. *)
Theorem tls_roundtrip {M} `{MmuFresh M} attr_user node_alloc (sp : NX_Vmspace M) (m : memory) area tls :
  attr_ok attr_user -> (forall l id, node_alloc l = Some id -> id ∉ nid <$> l) -> (forall l, is_Some (node_alloc l)) ->
  space_ok sp -> table sp <> 0 -> mapEnd sp + NX_PAGE_SIZE <= spaceTop sp -> area <> 0 ->
  (forall sp1 out, NX_VmspaceMap (node_alloc (spaceNodeList sp)) sp 0 NX_PROCESS_TLS_SIZE attr_user 0 = Some (sp1, NX_EOK, out) ->
     forall a b, out <= a < out + NX_PROCESS_TLS_SIZE -> area <= b < area + sizeof_TlsArea -> b <> user_place sp1 a) ->
  exists m1 sp1 err tls1, NX_ProcessMapTls attr_user node_alloc m sp area tls = Some (m1, sp1, err, tls1) /\
    ((err = NX_ENOMEM /\ tls1 = tls /\ forall b k, covers (spaceNodeList sp1) b k <-> covers (spaceNodeList sp) b k) \/
     (err = NX_EOK /\ mapStart sp <= tls1 <= mapEnd sp /\ free_range sp tls1 NX_PROCESS_TLS_SIZE /\
      user_bytes sp1 m1 tls1 (le_bytes 8 tls1 ++ le_bytes 4 0) /\
      exists sp2, NX_ProcessUnmapTls node_alloc sp1 tls1 = Some (sp2, NX_EOK, 0) /\ vm_ok sp2 /\ same_layout sp sp2 /\
        forall b k, covers (spaceNodeList sp2) b k <-> covers (spaceNodeList sp) b k)).
Proof.
  intros Hattr Halloc Hall Hsp Htab Hroom Harea Hapart. unfold NX_ProcessMapTls, NX_PROCESS_TLS_SIZE in *.
  assert (HP : NX_PAGE_SIZE = 4096) by done. pose proof (vm_bounds sp (proj1 Hsp)) as [[? ?] ?].
  pose proof (vm_aligned sp (proj1 Hsp)) as (_ & _ & _ & ? & ?).
  destruct (map_one_page attr_user node_alloc Hattr Halloc sp Hsp Hroom) as (sp1 & err & a & Hrun & Hlay & Hcase).
  rewrite Hrun, Some_bind. destruct Hcase as [(-> & Ha & Hal & Hsp1 & Hfree & Hcov)|[-> Hcov]].
  2:{ cbn [negb]. eexists m, sp1, _, tls. split; [reflexivity|]. by left. }
  change (is_ok NX_EOK) with true. cbn [negb].
  assert (Hsame : table sp1 = table sp /\ spaceBase sp1 = spaceBase sp /\ spaceTop sp1 = spaceTop sp) by (rewrite Hlay; done).
  destruct Hsame as (Et & Eb & Ep).
  assert (Hc1 : forall b, a <= b < a + NX_PAGE_SIZE -> covers (spaceNodeList sp1) b (attr_user, 0)) by (intros b Hb; apply Hcov; by left).
  set (m0 := store_tls m area a).
  destruct (write_in_page sp1 m0 a area sizeof_TlsArea) as (m1 & -> & W1 & _); try done.
  - by rewrite Et.
  - split; [lia|]. destruct (vm_mapped sp1 (proj1 Hsp1) (a / NX_PAGE_SIZE) attr_user 0) as [f Hf]; [|done|by exists f, attr_user].
    apply Hc1. rewrite HP in *. clear - Hal. zlia.
  - rewrite Hal. done.
  - intros i j Hi Hj. eapply Hapart; [exact Hrun| |lia]. unfold sizeof_TlsArea in Hj. lia.
  - rewrite Some_bind. change (is_ok NX_EOK) with true. cbn [negb]. eexists m1, sp1, _, a. split; [reflexivity|]. right.
    split; [done|]. split; [done|]. split; [done|]. split.
    + intros k Hk. change (Z.of_nat (length (le_bytes 8 a ++ le_bytes 4 0))) with 12 in Hk.
      rewrite W1 by (unfold sizeof_TlsArea; lia). subst m0. unfold store_tls, store_word.
      pose proof (store_bytes_app m area (le_bytes 8 a) (le_bytes 4 0) (area + k)) as Happ. rewrite le_bytes_length in Happ.
      change (Z.of_nat 8) with 8 in Happ. rewrite Happ. apply store_bytes_written. change (Z.of_nat (length (le_bytes 8 a ++ le_bytes 4 0))) with 12. lia.
    + destruct (unmap_one_page attr_user node_alloc Halloc sp1 a Hall Hsp1 Hal) as (sp2 & Hun & Hlay2 & Hvm2 & Hcov2); try done; try lia.
      exists sp2. unfold NX_ProcessUnmapTls. rewrite (proj2 (Z.eqb_neq a 0)) by lia. unfold NX_PROCESS_TLS_SIZE. rewrite Hun, Some_bind.
      split; [done|]. split; [done|]. split; [by eapply same_layout_trans|].
      intros b k. rewrite Hcov2, Hcov. split; [intros [[[? _]|?] ?]; [done|done]|]. intros Hb. split; [by right|by eapply Hfree].
Qed.

(** ** A process *)

(** The command line "ls" at 200, the environment "/b" at 300. *)
Definition demo_cmd : option line := Some (mkLine 200 [108; 115]).
Definition demo_env : option line := Some (mkLine 300 [47; 98]).
Definition demo_memory : memory := store_bytes (store_bytes (fun _ => 7) 200 [108; 115; 0]) 300 [47; 98; 0].

Lemma demo_lines : line_ok demo_memory demo_cmd /\ line_ok demo_memory demo_env.
Proof.
  split; (split; [discriminate|]); (split; [repeat constructor; discriminate|]); (split; [vm_compute; reflexivity|]); cbn [length l_text];
    intros k Hk; assert (k = 0 \/ k = 1 \/ k = 2) as [->|[->| ->]] by lia; reflexivity.
Qed.

(** Frames begin behind the kernel's bytes. *)
Lemma user_place_high sp1 (a b : Z) :
  (exists f, frame_of (mmu sp1) (a / NX_PAGE_SIZE) = f /\ 1 <= f) -> 0 <= b < NX_PAGE_SIZE -> b <> user_place (M := flat) sp1 a.
Proof. intros (f & E & Hf) Hb. unfold user_place, phys. rewrite E. unfold NX_PAGE_SIZE in *. pose proof (Z.mod_pos_bound a 4096 ltac:(lia)). lia. Qed.

Lemma map_stack_correct_witness :
  exists m' sp', ProcessMapStack 31 fresh_id demo_memory demo_space demo_cmd demo_env 500 =
      Some (m', sp', NX_EOK, Some (0x3FFFFF000 - 8 - 8 - 24)) /\
    user_bytes sp' m' (0x3FFFFF000 - 8 - 8 - 24) (args_bytes (0x3FFFFF000 - 16) (0x3FFFFF000 - 8)) /\
    user_line sp' m' (0x3FFFFF000 - 16) demo_cmd /\ user_line sp' m' (0x3FFFFF000 - 8) demo_env.
Proof.
  destruct (map_stack_correct 31 fresh_id demo_space demo_memory demo_cmd demo_env 500) as (m' & sp' & err & args & Hrun & _ & _ & Hcase).
  - discriminate.
  - exact fresh_id_fresh.
  - exact demo_space_ok.
  - discriminate.
  - exact (proj1 demo_lines).
  - exact (proj2 demo_lines).
  - discriminate.
  - vm_compute. discriminate.
  - reflexivity.
  - vm_compute. discriminate.
  - vm_compute. discriminate.
  - vm_compute. discriminate.
  - intros b k (x & Hx%elem_of_nil & _) _. exact Hx.
  - intros b [Hb|Hb]; cbn [line_at demo_cmd demo_env l_addr] in Hb; change (line_len _) with 8 in Hb; change argLen with 24; lia.
  - intros sp1 out Hmap a b Ha Hb. apply user_place_high.
    + destruct (last_page demo_space eq_refl a Ha) as [Ea _]. rewrite Ea.
      assert ((NX_VmspaceMap (fresh_id (spaceNodeList demo_space)) (with_bottom demo_space (stackEnd demo_space - stack_size))
        (stackEnd demo_space - stack_size) stack_size 31 0 ≫= fun x => Some (frame_of (mmu x.1.1) (stackEnd demo_space / NX_PAGE_SIZE - 1)))
        = Some 104) as E by (vm_compute; reflexivity).
      rewrite Hmap in E. injection E as E. exists 104. split; [exact E|lia].
    + unfold NX_PAGE_SIZE. destruct Hb as [Hb|[Hb|Hb]]; cbn [line_at demo_cmd demo_env l_addr] in Hb;
        [change argLen with 24 in Hb|change (line_len _) with 8 in Hb|change (line_len _) with 8 in Hb]; lia.
  - assert ((ProcessMapStack 31 fresh_id demo_memory demo_space demo_cmd demo_env 500 ≫= fun x => Some x.1.2) = Some NX_EOK) as E
      by (vm_compute; reflexivity).
    rewrite Hrun in E. injection E as ->. destruct Hcase as [[H _]|(_ & -> & _ & H1 & H2 & H3 & _)]; [discriminate H|].
    exists m', sp'. split; [exact Hrun|]. split; [exact H1|]. split; [exact H2|exact H3].
Defined.

Lemma tls_roundtrip_witness :
  exists m1 sp1 tls1 sp2, NX_ProcessMapTls 31 fresh_id demo_memory demo_space 600 0 = Some (m1, sp1, NX_EOK, tls1) /\
    user_bytes sp1 m1 tls1 (le_bytes 8 tls1 ++ le_bytes 4 0) /\ NX_ProcessUnmapTls fresh_id sp1 tls1 = Some (sp2, NX_EOK, 0).
Proof.
  destruct (tls_roundtrip 31 fresh_id demo_space demo_memory 600 0) as (m1 & sp1 & err & tls1 & Hrun & Hcase).
  - discriminate.
  - exact fresh_id_fresh.
  - intros l. eexists. reflexivity.
  - exact demo_space_ok.
  - discriminate.
  - vm_compute. discriminate.
  - discriminate.
  - intros sp1 out Hmap a b Ha Hb. apply user_place_high.
    + assert ((NX_VmspaceMap (fresh_id (spaceNodeList demo_space)) demo_space 0 NX_PROCESS_TLS_SIZE 31 0
        ≫= fun x => Some (x.2, frame_of (mmu x.1.1) (0x300000000 / NX_PAGE_SIZE))) = Some (0x300000000, 100)) as E by (vm_compute; reflexivity).
      rewrite Hmap in E. injection E as -> E. exists 100. split; [|lia].
      assert (a / NX_PAGE_SIZE = 0x300000000 / NX_PAGE_SIZE) as ->; [|exact E]. unfold NX_PROCESS_TLS_SIZE, NX_PAGE_SIZE in *.
      clear - Ha. zlia.
    + unfold sizeof_TlsArea, NX_PAGE_SIZE in *. lia.
  - assert ((NX_ProcessMapTls 31 fresh_id demo_memory demo_space 600 0 ≫= fun x => Some x.1.2) = Some NX_EOK) as E by (vm_compute; reflexivity).
    rewrite Hrun in E. injection E as ->. destruct Hcase as [[H _]|(_ & _ & _ & Hb & sp2 & Hun & _)]; [discriminate H|].
    exists m1, sp1, tls1, sp2. split; [exact Hrun|]. split; [exact Hb|exact Hun].
Defined.

(** With strings longer than a page the copy starts in the middle of a page and
    runs over the end of its frame: the bytes land in the next frame of the physical
    memory, which is nobody's here, and the user finds none of them in the page. *)
Example long_env_crosses :
  let sp := with_mmu demo_space (mkFlat ∅ [100; 200; 300; 400; 500; 600]) in
  let env := Some (mkLine 1000000 (replicate (Z.to_nat 4200) 65)) in
  let m := store_bytes (fun _ => 7) 1000000 (replicate (Z.to_nat 4200) 65) in
  (ProcessMapStack 31 fresh_id m sp None env 500 ≫= fun '(m', sp', err, _) =>
     Some (err, m' (501 * 4096), m' (user_place sp' 0x3FFFFE000))) = Some (NX_EOK, 65, 7).
Proof. by vm_compute. Qed.
