(* ===== verification/Objects.v ===== *)
(** The system calls on semaphores, mutexes, devices and threads of a process:
    [process/syscall.c].

    A user names a kernel object by a solt of the table of its process (ExObj.v).
    A call checks the solt and the type of the object, and acts on the object:
    on a semaphore or thread of the scheduler (Sched.v), a mutex (Sync.v) or a
    device of the registry (Driver.v).  Here they are together in one state, with
    the close handlers that act on it.

    Only the addresses of the maps are allocated: the calls that free an object
    delete it, and an access to an object that is gone is [None].  A call that
    waits ends in [Switched] or [Again], and goes on with the next turn when its
    thread runs again.  The value a call stores for the user is the last component
    of its result. *)
From stdpp Require Import strings.
From S2P Require Import Prelude ThreadId Sched SchedInv SchedOps Sync Driver ExObj.
#[local] Coercion Z.of_nat : nat >-> Z.

(** The addresses of the close handlers. *)
Definition SemaphoreClose_ : Z := 1.
Definition MutexClose_ : Z := 2.
Definition DeviceClose_ : Z := 3.

Section calls.
Context {World : Type} (NX_MULTI_CORES_NR : Z).

Record Kernel := mkKernel {
  sys : Sys;
  mutexes : gmap Z NX_Mutex;
  registry : @Drivers World
}.
Definition with_sys (k : Kernel) (s : Sys) : Kernel := mkKernel s (mutexes k) (registry k).
Definition with_mutexes (k : Kernel) (m : gmap Z NX_Mutex) : Kernel := mkKernel (sys k) m (registry k).
Definition with_registry (k : Kernel) (r : @Drivers World) : Kernel := mkKernel (sys k) (mutexes k) r.

(** [NX_MemFree]. *)
Definition free_sem (k : Kernel) (sem : Z) : option Kernel :=
  _ ← sems (sys k) !! sem; Some (with_sys k (with_sems (sys k) (delete sem (sems (sys k))))).
Definition free_mutex (k : Kernel) (mutex : Z) : option Kernel :=
  _ ← mutexes k !! mutex; Some (with_mutexes k (delete mutex (mutexes k))).

(** ** The close handlers *)
Definition SemaphoreCloseSolt (k : Kernel) (object : Z) (type : NX_ExposedObjectType) : option (Kernel * NX_Error) :=
  if negb (bool_decide (type = NX_EXOBJ_SEMAPHORE)) then Some (k, NX_ENORES)
  else
    assert (nz object);;
    err ← NX_SemaphoreState (sys k) object;
    if negb (is_ok err) then Some (k, err) else k ← free_sem k object; Some (k, NX_EOK).

Definition MutexCloseSolt (k : Kernel) (object : Z) (type : NX_ExposedObjectType) : option (Kernel * NX_Error) :=
  if negb (bool_decide (type = NX_EXOBJ_MUTEX)) then Some (k, NX_ENORES)
  else
    assert (nz object);;
    m ← mutexes k !! object;
    let err := NX_MutexState (Some m) in
    if negb (is_ok err) then Some (k, err) else k ← free_mutex k object; Some (k, NX_EOK).

Definition DeviceCloseSolt (k : Kernel) (object : Z) (type : NX_ExposedObjectType) : option (Kernel * NX_Error) :=
  if negb (bool_decide (type = NX_EXOBJ_DEVICE)) then Some (k, NX_ENORES)
  else
    assert (nz object);;
    '(r, err) ← NX_DeviceClose (registry k) (Some object);
    Some (with_registry k r, err).

(** The handlers act on [option Kernel], so that a fault in one is not lost. *)
Definition close_call (handler object : Z) (type : NX_ExposedObjectType) (k : option Kernel) : option Kernel * NX_Error :=
  match (k ← k;
         if handler =? SemaphoreClose_ then SemaphoreCloseSolt k object type
         else if handler =? MutexClose_ then MutexCloseSolt k object type
         else if handler =? DeviceClose_ then DeviceCloseSolt k object type
         else None) with
  | Some (k, err) => (Some k, err)
  | None => (None, NX_EOK)
  end.

Implicit Types (k : Kernel) (table : NX_ExposedObjectTable) (solt : Z).

Definition NX_ProcessUninstallSolt k table solt : option (Kernel * NX_ExposedObjectTable * NX_Error) :=
  '(k, table, err) ← NX_ExposedObjectUninstalll close_call (Some k) table solt;
  k ← k; Some (k, table, err).

(** The checks each call begins with: the object of the solt, or the error. *)
Definition solt_object table solt (ty : NX_ExposedObjectType) : option (Z + NX_Error) :=
  if solt =? NX_SOLT_INVALID_VALUE then Some (inr NX_EINVAL)
  else
    match NX_ExposedObjectGet table solt with
    | None => Some (inr NX_ENOSRCH)
    | Some p =>
        objs ← objects table;
        e ← zlookup objs p;
        if negb (bool_decide (type e = ty)) then Some (inr NX_ENORES) else Some (inl (object e))
    end.

Notation result := (option (Kernel * NX_ExposedObjectTable * outcome * option Z)).
Definition fails k table (err : NX_Error) : result := Some (k, table, Returned err, None).

(** A call on the object of a solt. *)
Definition on_object k table solt ty (f : Z -> result) : result :=
  r ← solt_object table solt ty;
  match r with inr err => fails k table err | inl o => f o end.

(** ** Semaphores *)
Definition SysSemaphoreCreate (mem : option Z) k table (value outSolt : Z) : result :=
  if outSolt =? 0 then fails k table NX_EINVAL
  else
    match mem with
    | None => fails k table NX_ENOMEM
    | Some sem =>
        let (s, err) := NX_SemaphoreInit (sys k) sem value in
        let k := with_sys k s in
        if negb (is_ok err) then k ← free_sem k sem; fails k table err
        else
          '(table, err, solt) ← NX_ExposedObjectInstall table sem NX_EXOBJ_SEMAPHORE SemaphoreClose_;
          if negb (is_ok err) then k ← free_sem k sem; fails k table err
          else Some (k, table, Returned NX_EOK, solt)
    end.

Definition SysSemaphoreDestroy k table solt : result :=
  on_object k table solt NX_EXOBJ_SEMAPHORE (fun sem =>
    assert (nz sem);;
    err ← NX_SemaphoreState (sys k) sem;
    if negb (is_ok err) then fails k table err
    else
      '(k, table, err) ← NX_ProcessUninstallSolt k table solt;
      if negb (is_ok err) then fails k table err
      else k ← free_sem k sem; Some (k, table, Returned NX_EOK, None)).

(** One turn of the wait; after [Switched] the thread goes on with
    [SemaphoreWait_turn] on the semaphore. *)
Definition SysSemaphoreWait k table (coreId solt : Z) : result :=
  on_object k table solt NX_EXOBJ_SEMAPHORE (fun sem =>
    assert (nz sem);;
    '(s, out) ← SemaphoreWait_turn NX_MULTI_CORES_NR (sys k) coreId sem;
    Some (with_sys k s, table, out, None)).

Definition SysSemaphoreTryWait k table solt : result :=
  on_object k table solt NX_EXOBJ_SEMAPHORE (fun sem =>
    assert (nz sem);;
    '(s, err) ← NX_SemaphoreTryWait (sys k) sem;
    Some (with_sys k s, table, Returned err, None)).

Definition SysSemaphoreSignal k table solt : result :=
  on_object k table solt NX_EXOBJ_SEMAPHORE (fun sem =>
    assert (nz sem);;
    '(s, err) ← NX_SemaphoreSignal NX_MULTI_CORES_NR (sys k) sem;
    Some (with_sys k s, table, Returned err, None)).

Definition SysSemaphoreSignalAll k table solt : result :=
  on_object k table solt NX_EXOBJ_SEMAPHORE (fun sem =>
    assert (nz sem);;
    '(s, err) ← NX_SemaphoreSignalAll NX_MULTI_CORES_NR (sys k) sem;
    Some (with_sys k s, table, Returned err, None)).

Definition SysSemaphoreGetValue k table (solt outValue : Z) : result :=
  if (solt =? NX_SOLT_INVALID_VALUE) || (outValue =? 0) then fails k table NX_EINVAL
  else
    on_object k table solt NX_EXOBJ_SEMAPHORE (fun sem =>
      assert (nz sem);;
      v ← NX_SemaphoreGetValue (sys k) sem;
      Some (k, table, Returned NX_EOK, Some v)).

(** ** Mutexes *)
Definition NX_MUTEX_ATTR_LOCKED : Z := 1.

(** [mem] is what [NX_MemAlloc] returns, with what the memory holds. *)
Definition SysMutexCreate (mem : option (Z * NX_Mutex)) k table (attr outSolt : Z) : result :=
  if outSolt =? 0 then fails k table NX_EINVAL
  else
    match mem with
    | None => fails k table NX_ENOMEM
    | Some (mutex, raw) =>
        let (m, err) := if nz (Z.land attr NX_MUTEX_ATTR_LOCKED) then NX_MutexInitLocked (Some raw) else NX_MutexInit (Some raw) in
        let k := with_mutexes k (<[mutex := default raw m]> (mutexes k)) in
        if negb (is_ok err) then k ← free_mutex k mutex; fails k table err
        else
          '(table, err, solt) ← NX_ExposedObjectInstall table mutex NX_EXOBJ_MUTEX MutexClose_;
          if negb (is_ok err) then k ← free_mutex k mutex; fails k table err
          else Some (k, table, Returned NX_EOK, solt)
    end.

Definition SysMutexDestroy k table solt : result :=
  on_object k table solt NX_EXOBJ_MUTEX (fun mutex =>
    assert (nz mutex);;
    m ← mutexes k !! mutex;
    let err := NX_MutexState (Some m) in
    if negb (is_ok err) then fails k table err
    else
      '(k, table, err) ← NX_ProcessUninstallSolt k table solt;
      if negb (is_ok err) then fails k table err
      else k ← free_mutex k mutex; Some (k, table, Returned NX_EOK, None)).

(** What is stored in the mutex, and the error of the call. *)
Definition set_mutex k table (mutex : Z) (r : option NX_Mutex * NX_Error) : result :=
  let (m, err) := r in m ← m; Some (with_mutexes k (<[mutex := m]> (mutexes k)), table, Returned err, None).

(** One turn of the loop of [NX_MutexLock]: when the mutex is taken the thread
    yields and goes on with the next turn. *)
Definition SysMutexAcquire k table (coreId solt : Z) : result :=
  on_object k table solt NX_EXOBJ_MUTEX (fun mutex =>
    assert (nz mutex);;
    m ← mutexes k !! mutex;
    match MutexLock_turn (Some m) with
    | (m, Some err) => set_mutex k table mutex (m, err)
    | (_, None) => s ← NX_SchedYield NX_MULTI_CORES_NR (sys k) coreId; Some (with_sys k s, table, Again, None)
    end).

Definition SysMutexTryAcquire k table solt : result :=
  on_object k table solt NX_EXOBJ_MUTEX (fun mutex =>
    assert (nz mutex);; m ← mutexes k !! mutex; set_mutex k table mutex (NX_MutexTryLock (Some m))).

Definition SysMutexRelease k table solt : result :=
  on_object k table solt NX_EXOBJ_MUTEX (fun mutex =>
    assert (nz mutex);; m ← mutexes k !! mutex; set_mutex k table mutex (NX_MutexUnlock (Some m))).

Definition SysMutexAcquirable k table solt : result :=
  on_object k table solt NX_EXOBJ_MUTEX (fun mutex =>
    assert (nz mutex);; m ← mutexes k !! mutex; Some (k, table, Returned (NX_MutexState (Some m)), None)).

(** ** Devices *)
Definition SysDeviceOpen k table (name : option string) (flags outSolt : Z) : result :=
  match name with
  | None => fails k table NX_EINVAL
  | Some name =>
      if outSolt =? 0 then fails k table NX_EINVAL
      else
        '(r, err, dev) ← NX_DeviceOpen (registry k) (Some name) flags;
        let k := with_registry k r in
        if negb (is_ok err) then fails k table err
        else
          dev ← dev;
          '(table, err, solt) ← NX_ExposedObjectInstall table dev NX_EXOBJ_DEVICE DeviceClose_;
          if negb (is_ok err) then '(r, _) ← NX_DeviceClose (registry k) (Some dev); fails (with_registry k r) table err
          else Some (k, table, Returned NX_EOK, solt)
  end.

(** A length is stored through [outLen] when the call succeeds; null is a fault. *)
Definition SysDeviceRead k table (solt buf off len outLen : Z) : result :=
  on_object k table solt NX_EXOBJ_DEVICE (fun dev =>
    assert (nz dev);;
    '(r, err, n) ← NX_DeviceRead (registry k) (Some dev) buf off len;
    let k := with_registry k r in
    if negb (is_ok err) then fails k table err
    else assert (nz outLen);; Some (k, table, Returned NX_EOK, Some (default 0 n))).

Definition SysDeviceWrite k table (solt buf off len outLen : Z) : result :=
  on_object k table solt NX_EXOBJ_DEVICE (fun dev =>
    assert (nz dev);;
    '(r, err, n) ← NX_DeviceWrite (registry k) (Some dev) buf off len;
    let k := with_registry k r in
    if negb (is_ok err) then fails k table err
    else assert (nz outLen);; Some (k, table, Returned NX_EOK, Some (default 0 n))).

Definition SysDeviceControl k table (solt cmd arg : Z) : result :=
  on_object k table solt NX_EXOBJ_DEVICE (fun dev =>
    assert (nz dev);;
    '(r, err) ← NX_DeviceControl (registry k) (Some dev) cmd arg;
    Some (with_registry k r, table, Returned err, None)).

(** ** Threads *)
Definition SysThreadSuspend k table (coreId solt : Z) : result :=
  on_object k table solt NX_EXOBJ_THREAD (fun thread =>
    '(s, out) ← NX_ThreadBlock NX_MULTI_CORES_NR (sys k) coreId thread;
    Some (with_sys k s, table, out, None)).

Definition SysThreadResume k table solt : result :=
  on_object k table solt NX_EXOBJ_THREAD (fun thread =>
    '(s, err) ← NX_ThreadUnblock NX_MULTI_CORES_NR (sys k) thread;
    Some (with_sys k s, table, Returned err, None)).

(** When the wait returns at once, the exit code the waiting thread has got. *)
Definition SysThreadWait k table (coreId solt outExitCode : Z) : result :=
  on_object k table solt NX_EXOBJ_THREAD (fun thread =>
    self ← NX_ThreadSelf NX_MULTI_CORES_NR (sys k) coreId;
    '(s, out) ← NX_ThreadWait NX_MULTI_CORES_NR (sys k) coreId thread;
    match out with
    | Returned NX_EOK => code ← ThreadWait_result s self; Some (with_sys k s, table, out, if nz outExitCode then Some code else None)
    | _ => Some (with_sys k s, table, out, None)
    end).

Definition SysThreadTerminate k table (solt exitCode : Z) : result :=
  on_object k table solt NX_EXOBJ_THREAD (fun thread =>
    '(s, err) ← NX_ThreadTerminate NX_MULTI_CORES_NR (sys k) thread exitCode;
    Some (with_sys k s, table, Returned err, None)).

Definition SysThreadGetId k table (solt outId : Z) : result :=
  if (solt =? NX_SOLT_INVALID_VALUE) || (outId =? 0) then fails k table NX_EINVAL
  else
    on_object k table solt NX_EXOBJ_THREAD (fun thread =>
      t ← threads (sys k) !! thread; Some (k, table, Returned NX_EOK, Some (tid t))).

Definition SysThreadGetCurrentId k (coreId : Z) : option Z :=
  self ← NX_ThreadSelf NX_MULTI_CORES_NR (sys k) coreId; t ← threads (sys k) !! self; Some (u32 (tid t)).

Definition SysThreadGetCurrent k table (coreId outSolt : Z) : result :=
  if outSolt =? 0 then fails k table NX_EINVAL
  else
    self ← NX_ThreadSelf NX_MULTI_CORES_NR (sys k) coreId;
    solt ← NX_ExposedObjectLocate table self NX_EXOBJ_THREAD;
    if solt =? NX_SOLT_INVALID_VALUE then fails k table NX_ENORES
    else Some (k, table, Returned NX_EOK, Some solt).

(** ** Closing a solt *)
Definition SysSoltClose k table solt : result :=
  '(k, table, err) ← NX_ProcessUninstallSolt k table solt;
  Some (k, table, Returned err, None).
End calls.
