(* ===== verification/ObjectCalls.v ===== *)
(** The system calls on objects keep the types of the table: whatever solt a user
    names, a call acts only on a live object of the right type, or is refused. *)
From stdpp Require Import strings.
From S2P Require Import Prelude ThreadId Sched SchedInv SchedKeeps SchedOps Tokens Sync Driver ExObj Objects.
#[local] Coercion Z.of_nat : nat >-> Z.

(** ** Calls on devices change no device but its count of references *)
Section devices.
Context {World : Type}.
Implicit Types (r : @Drivers World) (v : NX_Device) (dev drv : Z).

Definition device_like v v' : Prop := dlist v' = dlist v /\ Driver.driver v' = Driver.driver v /\ Driver.lock v' = Driver.lock v /\ dname v' = dname v.

Record registry_like r r' : Prop := {
  rl_drivers : drivers r' = drivers r;
  rl_list : driverListHead r' = driverListHead r;
  rl_lock : driverLock r' = driverLock r;
  rl_devices : forall dev, option_Forall2 device_like (devices r !! dev) (devices r' !! dev)
}.

#[export] Instance device_like_preorder : PreOrder device_like.
Proof. split; [by intros v|]. intros v1 v2 v3 (? & ? & ? & ?) (? & ? & ? & ?). split_and!; congruence. Qed.

#[export] Instance registry_like_preorder : PreOrder registry_like.
Proof.
  split; [intros r; by split|]. intros r1 r2 r3 [] []. split; [congruence..|].
  intros dev. by transitivity (devices r2 !! dev).
Qed.










End devices.

(** ** Typed tables *)
Section typing.
Context {World : Type} (NX_MULTI_CORES_NR : Z).
Notation NR := NX_MULTI_CORES_NR.
Notation Kernel := (@Kernel World).
Implicit Types (k : Kernel) (table : NX_ExposedObjectTable) (objs : list NX_ExposedObject) (e : NX_ExposedObject) (solt : Z).




















(** ** The calls *)
Notation result := (option (Kernel * NX_ExposedObjectTable * outcome * option Z)).





























(** ** Every call *)
Inductive call :=
  | SemaphoreCreate (mem : option Z) (value outSolt : Z)
  | SemaphoreDestroy (solt : Z)
  | SemaphoreWait (coreId solt : Z)
  | SemaphoreTryWait (solt : Z)
  | SemaphoreSignal (solt : Z)
  | SemaphoreSignalAll (solt : Z)
  | SemaphoreGetValue (solt outValue : Z)
  | MutexCreate (mem : option (Z * NX_Mutex)) (attr outSolt : Z)
  | MutexDestroy (solt : Z)
  | MutexAcquire (coreId solt : Z)
  | MutexTryAcquire (solt : Z)
  | MutexRelease (solt : Z)
  | MutexAcquirable (solt : Z)
  | DeviceOpen (name : option string) (flags outSolt : Z)
  | DeviceRead (solt buf off len outLen : Z)
  | DeviceWrite (solt buf off len outLen : Z)
  | DeviceControl (solt cmd arg : Z)
  | ThreadSuspend (coreId solt : Z)
  | ThreadResume (solt : Z)
  | ThreadWait (coreId solt outExitCode : Z)
  | ThreadTerminate (solt exitCode : Z)
  | ThreadGetId (solt outId : Z)
  | ThreadGetCurrent (coreId outSolt : Z)
  | SoltClose (solt : Z).

Definition run_call k table (c : call) : result :=
  match c with
  | SemaphoreCreate mem v out => SysSemaphoreCreate mem k table v out
  | SemaphoreDestroy solt => SysSemaphoreDestroy k table solt
  | SemaphoreWait c solt => SysSemaphoreWait NR k table c solt
  | SemaphoreTryWait solt => SysSemaphoreTryWait k table solt
  | SemaphoreSignal solt => SysSemaphoreSignal NR k table solt
  | SemaphoreSignalAll solt => SysSemaphoreSignalAll NR k table solt
  | SemaphoreGetValue solt out => SysSemaphoreGetValue k table solt out
  | MutexCreate mem attr out => SysMutexCreate mem k table attr out
  | MutexDestroy solt => SysMutexDestroy k table solt
  | MutexAcquire c solt => SysMutexAcquire NR k table c solt
  | MutexTryAcquire solt => SysMutexTryAcquire k table solt
  | MutexRelease solt => SysMutexRelease k table solt
  | MutexAcquirable solt => SysMutexAcquirable k table solt
  | DeviceOpen nm fl out => SysDeviceOpen k table nm fl out
  | DeviceRead solt buf off len out => SysDeviceRead k table solt buf off len out
  | DeviceWrite solt buf off len out => SysDeviceWrite k table solt buf off len out
  | DeviceControl solt cmd arg => SysDeviceControl k table solt cmd arg
  | ThreadSuspend c solt => SysThreadSuspend NR k table c solt
  | ThreadResume solt => SysThreadResume NR k table solt
  | ThreadWait c solt out => SysThreadWait NR k table c solt out
  | ThreadTerminate solt code => SysThreadTerminate NR k table solt code
  | ThreadGetId solt out => SysThreadGetId k table solt out
  | ThreadGetCurrent c out => SysThreadGetCurrent NR k table c out
  | SoltClose solt => SysSoltClose k table solt
  end.











End typing.


(** ** A process whose first thread is thread 200 *)
Definition demo_kernel : @Kernel (nat * nat) := mkKernel (demo 12) ∅ demo_attached.
Definition demo_table : NX_ExposedObjectTable := mkTable 4 (Some [mkExObj 200 NX_EXOBJ_THREAD 0; no_object; no_object; no_object]).



Fixpoint run_calls {World} NR (k : @Kernel World) table (l : list call) : option (list (outcome * option Z)) :=
  match l with
  | [] => Some []
  | c :: l => '(k, table, out, v) ← run_call NR k table c; r ← run_calls NR k table l; Some ((out, v) :: r)
  end.

(** Without the first solt: closing it makes room for a semaphore, and destroying that
    one frees it twice, first in its close handler. *)
Example destroy_frees_twice :
  run_calls 1 demo_kernel demo_table [SoltClose 0; SemaphoreCreate (Some 5000) 1 77] = Some [(Returned NX_EOK, None); (Returned NX_EOK, Some 0)] /\
  run_calls 1 demo_kernel demo_table [SoltClose 0; SemaphoreCreate (Some 5000) 1 77; SemaphoreDestroy 0] = None.
Proof. split; vm_compute; reflexivity. Qed.

(** Destroying the semaphore of solt 1 closes the one of solt 0 with it, which then
    is used after it was freed. *)
Example destroy_closes_another :
  run_calls 1 demo_kernel demo_table [SoltClose 0; SemaphoreCreate (Some 5000) 1 77; SemaphoreCreate (Some 5100) 1 77; SemaphoreDestroy 1] =
    Some [(Returned NX_EOK, None); (Returned NX_EOK, Some 0); (Returned NX_EOK, Some 1); (Returned NX_EOK, None)] /\
  run_calls 1 demo_kernel demo_table [SoltClose 0; SemaphoreCreate (Some 5000) 1 77; SemaphoreCreate (Some 5100) 1 77; SemaphoreDestroy 1;
    SemaphoreSignal 0] = None.
Proof. split; vm_compute; reflexivity. Qed.

(** The length is stored through the pointer the user gives, null or not. *)
Definition reading_kernel : @Kernel (nat * nat) :=
  let ops := mkOps (Some demo_open) (Some demo_close) (Some (fun w _ _ _ len => (w, NX_EOK, len))) None None in
  let uart := mkDriver Alone [10] NX_DEVICE_TYPE_UART "uart"%string (Some ops) false 0 in
  with_registry demo_kernel (with_drivers demo_attached {[1 := uart]}).

Example null_length_faults :
  run_calls 1 reading_kernel demo_table [DeviceOpen (Some "uart0"%string) 0 77; DeviceRead 1 16 0 4 99] =
    Some [(Returned NX_EOK, Some 1); (Returned NX_EOK, Some 4)] /\
  run_calls 1 reading_kernel demo_table [DeviceOpen (Some "uart0"%string) 0 77; DeviceRead 1 16 0 4 0] = None.
Proof. split; vm_compute; reflexivity. Qed.

(** A semaphore with a token passes for free while threads wait on it: it is
    destroyed with a thread on its list. *)
Example destroyed_with_waiter :
  let k := with_sys demo_kernel (upd_sem (demo 12) 5000 (mkSem 1 [300] SEMPAHORE_MAGIC)) in
  NX_SemaphoreState (sys k) 5000 = Some NX_EOK /\
  (table ← Some (mkTable 2 (Some [mkExObj 200 NX_EXOBJ_THREAD 0; mkExObj 5000 NX_EXOBJ_SEMAPHORE SemaphoreClose_]));
   '(k, _, out, _) ← run_call 1 k table (SemaphoreDestroy 1); Some (out, sems (sys k) !! 5000)) = Some (Returned NX_EOK, None).
Proof. split; vm_compute; reflexivity. Qed.
