(* ===== verification/Process.v ===== *)
(** The life of a process: [process/process.c], with the parts of [sched/thread.c]
    and [sched/deamon.c] that belong to it.

    A process has an address space, a table of objects and a list of its threads;
    it ends with its last thread, whose exit wakes those who wait for it, and is
    destroyed by the daemon.  The state joins the kernel objects of Objects.v with
    the processes and with the resources of the threads that Sched.v leaves out;
    the semaphore embedded in a process has the address of the process for key.
    What the allocator answers in a call is an argument of it. *)
From S2P Require Import Prelude ThreadId VfsPath Env Mmu Vmspace Elf UserStack Sched SchedInv Sync ExObj Objects.
From S2P Require Vfs VfsOps Driver.
#[local] Coercion Z.of_nat : nat >-> Z.

Definition NX_PROC_FLAG_WAIT : Z := 1.
Definition NX_PROCESS_CWD_DEFAULT : str := [slash].
Definition NX_EXOBJ_DEFAULT_NR : Z := 32.
Definition NX_THREAD_PRIORITY_NORMAL : Z := 3.
Definition NX_THREAD_NAME_LEN : Z := 32.

(** [arch/riscv64/include/arch/process.h] *)
Definition NX_USER_SPACE_TOP : Z := 0x400000000.
Definition NX_USER_STACK_TOP : Z := 0x3FFFFF000.
Definition NX_USER_STACK_VADDR : Z := 0x380000000.
Definition NX_USER_MAP_TOP : Z := NX_USER_STACK_VADDR.
Definition NX_USER_MAP_VADDR : Z := 0x300000000.
Definition NX_USER_HEAP_TOP : Z := NX_USER_MAP_VADDR.
Definition NX_USER_HEAP_VADDR : Z := 0x200000000.
Definition NX_USER_IMAGE_TOP : Z := NX_USER_HEAP_VADDR.
Definition NX_USER_IMAGE_VADDR : Z := 0x100000000.
Definition NX_USER_SPACE_VADDR : Z := NX_USER_IMAGE_VADDR.

(** The members of [NX_ThreadResource] and [NX_Thread] that concern the process. *)
Record NX_ThreadResource := mkResource {
  process : option Z;
  tls : Z;
  fileTable_ : Z;
  userStackBase : Z;
  userStackSize : Z;
  userHandler : Z
}.
(** The address of the table [NX_VfsGetDefaultFileTable] gives, which a new thread has. *)
Definition default_fileTable : Z := 1.
Definition no_resource : NX_ThreadResource := mkResource None 0 default_fileTable 0 0 0.
Definition set_process (p : option Z) r := mkResource p (tls r) (fileTable_ r) (userStackBase r) (userStackSize r) (userHandler r).
Definition set_tls (a : Z) r := mkResource (process r) a (fileTable_ r) (userStackBase r) (userStackSize r) (userHandler r).
Definition set_fileTable (a : Z) r := mkResource (process r) (tls r) a (userStackBase r) (userStackSize r) (userHandler r).
Definition set_user (h base size : Z) r := mkResource (process r) (tls r) (fileTable_ r) base size h.

Section process.
Context {World : Type} (NX_MULTI_CORES_NR : Z).
Context {F : Type} `{FileOps F} (NX_VfsAccess : F -> str -> option (F * NX_Error)).   (* (path, NX_VFS_R_OK) *)
Context {M : Type} `{MmuOps M}.
Context (NX_PAGE_ATTR_USER : Z) (node_alloc : list NX_Vmnode -> option Z).
Notation NR := NX_MULTI_CORES_NR.

Record NX_Process := mkProcess {
  flags : Z;
  vmspace : NX_Vmspace M;
  threadCount_ : Z;
  threadPool : list Z;
  exitCode_ : Z;
  waitExitCode_ : Z;
  fileTable : Z;
  pid : Z;
  parentPid : Z;
  args : Z;
  cwd : str;
  exePath : str;
  exobjTable : NX_ExposedObjectTable
}.

Definition with_pool p (n : Z) (l : list Z) := mkProcess (flags p) (vmspace p) n l (exitCode_ p) (waitExitCode_ p) (fileTable p) (pid p)
  (parentPid p) (args p) (cwd p) (exePath p) (exobjTable p).
Definition with_exitCode p (x : Z) := mkProcess (flags p) (vmspace p) (threadCount_ p) (threadPool p) x (waitExitCode_ p) (fileTable p) (pid p)
  (parentPid p) (args p) (cwd p) (exePath p) (exobjTable p).
Definition with_waitExitCode p (x : Z) := mkProcess (flags p) (vmspace p) (threadCount_ p) (threadPool p) (exitCode_ p) x (fileTable p) (pid p)
  (parentPid p) (args p) (cwd p) (exePath p) (exobjTable p).
Definition with_vmspace p (sp : NX_Vmspace M) := mkProcess (flags p) sp (threadCount_ p) (threadPool p) (exitCode_ p) (waitExitCode_ p)
  (fileTable p) (pid p) (parentPid p) (args p) (cwd p) (exePath p) (exobjTable p).
Definition with_table p (t : NX_ExposedObjectTable) := mkProcess (flags p) (vmspace p) (threadCount_ p) (threadPool p) (exitCode_ p)
  (waitExitCode_ p) (fileTable p) (pid p) (parentPid p) (args p) (cwd p) (exePath p) t.
Definition with_ids p (id parent : Z) (path : str) := mkProcess (flags p) (vmspace p) (threadCount_ p) (threadPool p) (exitCode_ p)
  (waitExitCode_ p) (fileTable p) id parent (args p) (cwd p) path (exobjTable p).
Definition with_args p (a : Z) := mkProcess (flags p) (vmspace p) (threadCount_ p) (threadPool p) (exitCode_ p) (waitExitCode_ p)
  (fileTable p) (pid p) (parentPid p) a (cwd p) (exePath p) (exobjTable p).
Definition with_cwd p (c : str) := mkProcess (flags p) (vmspace p) (threadCount_ p) (threadPool p) (exitCode_ p) (waitExitCode_ p)
  (fileTable p) (pid p) (parentPid p) (args p) c (exePath p) (exobjTable p).

Record State := mkState {
  kernel : @Kernel World;
  procs : gmap Z NX_Process;
  resources : gmap Z NX_ThreadResource;
  fileTables : gmap Z VfsOps.FileTable
}.
Implicit Types (s : State).
Definition with_kernel s (k : @Kernel World) := mkState k (procs s) (resources s) (fileTables s).
Definition with_procs s (m : gmap Z NX_Process) := mkState (kernel s) m (resources s) (fileTables s).
Definition with_resources s (m : gmap Z NX_ThreadResource) := mkState (kernel s) (procs s) m (fileTables s).
Definition with_fileTables s (m : gmap Z VfsOps.FileTable) := mkState (kernel s) (procs s) (resources s) m.
Definition sys_ s : Sys := sys (kernel s).
Definition with_sys_ s (y : Sys) := with_kernel s (with_sys (kernel s) y).
Definition put_process s (p : Z) (x : NX_Process) := with_procs s (<[p := x]> (procs s)).
Definition upd_process s (p : Z) (f : NX_Process -> NX_Process) : option State := x ← procs s !! p; Some (put_process s p (f x)).
Definition upd_resource s (t : Z) (f : NX_ThreadResource -> NX_ThreadResource) : option State :=
  r ← resources s !! t; Some (with_resources s (<[t := f r]> (resources s))).

(** ** The threads of a process *)
Definition NX_ProcessAppendThread s (p thread : Z) : option State :=
  s ← upd_process s p (fun x => with_pool x (threadCount_ x + 1) (thread :: threadPool x));
  upd_resource s thread (set_process (Some p)).

Definition NX_ProcessDeleteThread s (p thread : Z) : option State :=
  x ← procs s !! p;
  assert (bool_decide (thread ∈ threadPool x));;
  upd_resource (put_process s p (with_pool x (threadCount_ x - 1) (list_del thread (threadPool x)))) thread (set_process None).

(** ** Creating and destroying *)

(** What the allocator answers: the process, its file table, the memory of the page
    tables before and after [NX_ProcessInitUserSpace] with the table (or failure),
    and the raw table of objects. *)
Record ProcessMem := mkProcessMem {
  pm_process : option Z;
  pm_fileTable : option (Z * VfsOps.FileTable);
  pm_mmu : M;
  pm_user : option (M * Z);
  pm_objects : option (list NX_ExposedObject)
}.

(** [NX_MmuInit] with the new table. *)
Definition with_table_ (sp : NX_Vmspace M) (m : M) (t : Z) : NX_Vmspace M :=
  mkSpace m t (spaceNodeList sp) (spaceBase sp) (spaceTop sp) (imageStart sp) (imageEnd sp) (heapStart sp) (heapEnd sp) (heapCurrent sp)
    (mapStart sp) (mapEnd sp) (stackStart sp) (stackEnd sp) (stackBottom sp).

Definition NX_ProcessCreateObject (o : ProcessMem) s (fl : Z) : option (State * option Z) :=
  match pm_process o, pm_fileTable o with
  | Some p, Some (ft, table) =>
      '(sp, err) ← NX_VmspaceInit (pm_mmu o) NX_USER_SPACE_VADDR NX_USER_SPACE_TOP NX_USER_IMAGE_VADDR NX_USER_IMAGE_TOP
        NX_USER_HEAP_VADDR NX_USER_HEAP_TOP NX_USER_MAP_VADDR NX_USER_MAP_TOP NX_USER_STACK_VADDR NX_USER_STACK_TOP;
      if negb (is_ok err) then Some (s, None)
      else
        match pm_user o with
        | None => Some (s, None)
        | Some (m, t) =>
            let sp := with_table_ sp m t in
            '(objs, err) ← NX_ExposedObjectTableInit (pm_objects o) (mkTable 0 None) NX_EXOBJ_DEFAULT_NR;
            if negb (is_ok err) then '(_, _) ← NX_VmspaceExit sp; Some (s, None)
            else
              let (y, _) := NX_SemaphoreInit (sys_ s) p 0 in
              let x := mkProcess fl sp 0 [] 0 0 ft 0 0 0 NX_PROCESS_CWD_DEFAULT [] objs in
              let s := with_fileTables (with_sys_ s y) (<[ft := VfsOps.NX_VfsFileTableInit table]> (fileTables s)) in
              Some (put_process s p x, Some p)
        end
  | _, _ => Some (s, None)
  end.

(** The close handlers of the objects act on the kernel. *)
Definition NX_ProcessDestroyObject s (p : option Z) : option (State * NX_Error) :=
  match p with
  | None => Some (s, NX_EINVAL)
  | Some p =>
      x ← procs s !! p;
      '(k, _, _) ← NX_ExposedObjectTableExit close_call (Some (kernel s)) (exobjTable x);
      k ← k;
      let s := with_kernel s k in
      '(_, err) ← NX_VmspaceExit (vmspace x);
      assert (is_ok err);;
      _ ← fileTables s !! fileTable x;
      _ ← sems (sys_ s) !! p;
      let s := with_fileTables s (delete (fileTable x) (fileTables s)) in
      let s := with_sys_ s (with_sems (sys_ s) (delete p (sems (sys_ s)))) in
      Some (with_procs s (delete p (procs s)), NX_EOK)
  end.

(** ** Waiting *)

(** Up to the first turn of the wait; after it, what is stored through [exitCode]. *)
Definition NX_ProcessWait s (coreId : Z) (p : option Z) : option (State * outcome) :=
  match p with
  | None => Some (s, Returned NX_ENOSRCH)
  | Some p =>
      self ← NX_ThreadSelf NR (sys_ s) coreId;
      r ← resources s !! self;
      if bool_decide (process r = Some p) then Some (s, Returned NX_EINVAL)
      else '(y, out) ← SemaphoreWait_turn NR (sys_ s) coreId p; Some (with_sys_ s y, out)
  end.
Definition ProcessWait_result s (self : Z) : option Z :=
  r ← resources s !! self; p ← process r; x ← procs s !! p; Some (waitExitCode_ x).

(** ** Leaving *)
Fixpoint ProcessExitNotify_loop s (code : Z) (l : list Z) : option State :=
  match l with
  | [] => Some s
  | w :: l =>
      r ← resources s !! w;
      p ← process r;
      s ← upd_process s p (fun x => with_waitExitCode x code);
      ProcessExitNotify_loop s code l
  end.

Definition ProcessExitNotify s (p : Z) : option State :=
  x ← procs s !! p;
  sm ← sems (sys_ s) !! p;
  s ← ProcessExitNotify_loop s (exitCode_ x) (semWaitList sm);
  '(y, _) ← NX_SemaphoreSignalAll NR (sys_ s) p;
  Some (with_sys_ s y).

(** [NX_ProcessUninstallSolt] on the table of a process. *)
Definition uninstall_solt s (p solt : Z) : option State :=
  x ← procs s !! p;
  '(k, t, _) ← NX_ProcessUninstallSolt (kernel s) (exobjTable x) solt;
  Some (put_process (with_kernel s k) p (with_table x t)).

Definition unmap_tls s (p thread : Z) : option State :=
  x ← procs s !! p; r ← resources s !! thread;
  '(sp, _, a) ← NX_ProcessUnmapTls node_alloc (vmspace x) (tls r);
  upd_resource (put_process s p (with_vmspace x sp)) thread (set_tls a).

Definition NX_ThreadExitProcess s (thread : Z) (p : Z) : option State :=
  s ← NX_ProcessDeleteThread s p thread;
  x ← procs s !! p;
  solt ← NX_ExposedObjectLocate (exobjTable x) thread NX_EXOBJ_THREAD;
  s ← (if solt =? NX_SOLT_INVALID_VALUE then Some s else uninstall_solt s p solt);
  r ← resources s !! thread; x ← procs s !! p;
  s ← (if nz (userStackBase r) then
         '(sp, _) ← Unmap node_alloc (vmspace x) (userStackBase r) (userStackSize r);
         Some (put_process s p (with_vmspace x sp))
       else Some s);
  s ← unmap_tls s p thread;
  x ← procs s !! p;
  if threadCount_ x =? 0 then s ← upd_resource s thread (set_process (Some p)); ProcessExitNotify s p
  else Some s.

(** [ThreadReleaseResouce] of a thread that does not sleep on a timer. *)
Definition ThreadReleaseResouce s (thread : Z) : option State :=
  y ← ThreadExitNotify NR (sys_ s) thread;
  let s := with_sys_ s y in
  r ← resources s !! thread;
  match process r with Some p => NX_ThreadExitProcess s thread p | None => Some s end.

Definition NX_ThreadExit s (coreId code : Z) : option State :=
  thread ← NX_ThreadSelf NR (sys_ s) coreId;
  y ← upd_thread (sys_ s) thread (set_exitCode code);
  s ← ThreadReleaseResouce (with_sys_ s y) thread;
  y ← NX_ThreadDeququeGlobalListUnlocked (sys_ s) thread;
  y ← NX_SchedExit NR y coreId;
  Some (with_sys_ s y).

(** [NX_ProcessExit]: terminating the others; then it yields until it is alone, and
    exits. *)
Fixpoint Terminate_loop s (cur code : Z) (l : list Z) : option State :=
  match l with
  | [] => Some s
  | t :: l =>
      s ← (if t =? cur then Some s else '(y, _) ← NX_ThreadTerminate NR (sys_ s) t code; Some (with_sys_ s y));
      Terminate_loop s cur code l
  end.

Definition ProcessExit_start s (coreId code : Z) : option State :=
  cur ← NX_ThreadSelf NR (sys_ s) coreId;
  r ← resources s !! cur; p ← process r;
  s ← upd_process s p (fun x => with_exitCode x code);
  x ← procs s !! p;
  Terminate_loop s cur code (threadPool x).

(** One turn of the loop that waits for the others; whether the thread has exited. *)
Definition ProcessExit_turn s (coreId code : Z) : option (State * bool) :=
  cur ← NX_ThreadSelf NR (sys_ s) coreId;
  r ← resources s !! cur; p ← process r; x ← procs s !! p;
  if threadCount_ x >? 1 then y ← NX_SchedYield NR (sys_ s) coreId; Some (with_sys_ s y, false)
  else s ← NX_ThreadExit s coreId code; Some (s, true).

(** [ThreadRelease] of the daemon. *)
Definition ThreadRelease s (thread : Z) : option State :=
  r ← resources s !! thread;
  s ← match process r with
      | Some p => '(s, err) ← NX_ProcessDestroyObject s (Some p); assert (is_ok err);; Some s
      | None => Some s
      end;
  '(y, _) ← NX_ThreadDestroy (sys_ s) thread;
  Some (with_resources (with_sys_ s y) (delete thread (resources s))).

(** ** The working directory *)
Definition NX_ProcessGetCwd s (p : option Z) : option (option str) :=
  match p with None => Some None | Some p => x ← procs s !! p; Some (Some (cwd x)) end.

(** [NX_VfsStat] answers the mode of a path; relative paths are those of the caller,
    whose working directory is [here]. *)
Definition NX_ProcessSetCwd (NX_VfsStat : F -> str -> option (F * Z * NX_Error)) s (f : F) (here : option str) (p : option Z) (path : option str) :
    option (State * F * NX_Error) :=
  match p, path with
  | Some p, Some path =>
      x ← procs s !! p;
      if length path >=? NX_VFS_MAX_PATH then Some (s, f, NX_EINVAL)
      else
        '(absPath, err) ← NX_VfsBuildAbsPath here path;
        if negb (is_ok err) then Some (s, f, err)
        else
          '(f, mode, err) ← NX_VfsStat f absPath;
          if negb (is_ok err) then Some (s, f, NX_ENOSRCH)
          else if negb (nz (Z.land mode Vfs.S_IFDIR)) then Some (s, f, NX_EPERM)
          else Some (put_process s p (with_cwd x (StrCopyN absPath NX_VFS_MAX_PATH).1), f, NX_EOK)
  | _, _ => Some (s, f, NX_EINVAL)
  end.

(** ** Launching *)

(** [absPath] is an array of [NX_VFS_MAX_PATH] characters. *)
Fixpoint SearchInEnv_loop (f : F) (path : str) (array : list str) : option (F * option str) :=
  match array with
  | [] => Some (f, None)
  | p :: array =>
      assert (negb (bool_decide (p = [])));;
      if negb (bool_decide (head p = Some slash)) then SearchInEnv_loop f path array
      else
        let absPath := (if bool_decide (last p = Some slash) then p else p ++ [slash]) ++ path in
        assert (length absPath <? NX_VFS_MAX_PATH);;
        '(f, err) ← NX_VfsAccess f absPath;
        if is_ok err then Some (f, Some absPath) else SearchInEnv_loop f path array
  end.

(** [dup] says whether there is memory for the copy of the environment; the result is
    the path found. *)
Definition SearchInEnv (dup : bool) (f : F) (path : str) (env : option str) : option (F * option str) :=
  env ← env;
  if negb dup then Some (f, None)
  else
    r ← NX_EnvToArray (Some env) NX_PORCESS_ENV_ARGS;
    if argc r >? 0 then SearchInEnv_loop f path (argArray r) else Some (f, None).

(** The path of the program: as it is given, or in a directory of the environment. *)
Definition find_program (dup : bool) (f : F) (path : str) (env : option str) : option (F * option str) :=
  assert (length path <? NX_VFS_MAX_PATH);;
  '(f, err) ← NX_VfsAccess f path;
  if is_ok err then Some (f, Some path)
  else if bool_decide (head path = Some slash) then Some (f, None)
  else SearchInEnv dup f path env.

Definition base_name (path : str) : str := match StrChrReverse path slash with Some i => drop (S i) path | None => path end.

(** What the allocator answers, and where the arrays on the stack of the kernel are. *)
Record LaunchMem := mkLaunchMem {
  lm_dup : bool;
  lm_process : ProcessMem;
  lm_thread : option Z;
  lm_stack : option Z;
  lm_args : Z;
  lm_area : Z
}.

Definition ProcessThreadEntry_ : Z := 1.

(** The way back: the image is unmapped when [image] says so, the process and its
    thread are destroyed. *)
Definition put_all_back s (p : Z) (thread : option Z) (image : bool) : option State :=
  s ← (if image then
         x ← procs s !! p;
         '(sp, err) ← Unmap node_alloc (vmspace x) (imageStart (vmspace x)) (u64 (imageEnd (vmspace x) - imageStart (vmspace x)));
         assert (is_ok err);; Some (put_process s p (with_vmspace x sp))
       else Some s);
  '(s, _) ← NX_ProcessDestroyObject s (Some p);
  match thread with
  | Some t => '(y, _) ← NX_ThreadDestroy (sys_ s) t; Some (with_resources (with_sys_ s y) (delete t (resources s)))
  | None => Some s
  end.

Definition unmap_stack s (p : Z) : option State :=
  x ← procs s !! p; '(sp, _) ← ProcessUnmapStack node_alloc (vmspace x); Some (put_process s p (with_vmspace x sp)).

(** What is done once the program is in memory. *)
Definition Launch_start s (coreId p t : Z) (absPath : str) : option (State * outcome) :=
  s ← NX_ProcessAppendThread s p t;
  x ← procs s !! p; th ← threads (sys_ s) !! t;
  s ← upd_resource s t (set_fileTable (fileTable x));
  self ← NX_ThreadSelf NR (sys_ s) coreId;
  r ← resources s !! self;
  parent ← match process r with Some q => y ← procs s !! q; Some (pid y) | None => Some (parentPid x) end;
  let x := with_ids x (tid th) parent (StrCopyN absPath NX_VFS_MAX_PATH).1 in
  '(table, err, solt) ← NX_ExposedObjectInstall (exobjTable x) t NX_EXOBJ_THREAD 0;
  assert (is_ok err);;
  solt ← solt;
  let s := put_process s p (with_table x table) in
  '(y, err) ← Sched.NX_ThreadStart NR (sys_ s) t;
  let s := with_sys_ s y in
  if negb (is_ok err) then
    s ← uninstall_solt s p solt; s ← unmap_tls s p t; s ← unmap_stack s p; s ← put_all_back s p (Some t) true; Some (s, Returned NX_EFAULT)
  else if nz (Z.land (flags x) NX_PROC_FLAG_WAIT) then NX_ProcessWait s coreId (Some p)
  else Some (s, Returned NX_EOK).

Definition Launch_load (o : LaunchMem) s (f : F) (m : memory) (coreId p t : Z) (absPath : str) (cmd env : option line) :
    option (State * F * memory * outcome) :=
  x ← procs s !! p;
  '(f, m, sp, err) ← NX_ProcessLoadImage NX_PAGE_ATTR_USER node_alloc f m (vmspace x) absPath;
  let s := put_process s p (with_vmspace x sp) in
  if negb (is_ok err) then s ← put_all_back s p (Some t) false; Some (s, f, m, Returned NX_ENORES)
  else
    '(m, sp, err, a) ← ProcessMapStack NX_PAGE_ATTR_USER node_alloc m sp cmd env (lm_args o);
    let x := with_vmspace x sp in
    let s := put_process s p x in
    if negb (is_ok err) then s ← put_all_back s p (Some t) true; Some (s, f, m, Returned NX_ENOMEM)
    else
      let x := with_args x (default (args x) a) in
      let s := put_process s p x in
      r ← resources s !! t;
      '(m, sp, err, tl) ← NX_ProcessMapTls NX_PAGE_ATTR_USER node_alloc m sp (lm_area o) (tls r);
      let s := put_process s p (with_vmspace x sp) in
      s ← upd_resource s t (set_tls tl);
      if negb (is_ok err) then s ← unmap_stack s p; s ← put_all_back s p (Some t) true; Some (s, f, m, Returned NX_ENOMEM)
      else '(s, out) ← Launch_start s coreId p t absPath; Some (s, f, m, out).

Definition NX_ProcessLaunch (o : LaunchMem) s (f : F) (m : memory) (coreId : Z) (path : option str) (fl : Z) (cmd env : option line) :
    option (State * F * memory * outcome) :=
  match path with
  | None => Some (s, f, m, Returned NX_EINVAL)
  | Some path =>
      '(f, absPath) ← find_program (lm_dup o) f path (l_text <$> env);
      match absPath with
      | None => Some (s, f, m, Returned NX_ENOSRCH)
      | Some absPath =>
          '(s, p) ← NX_ProcessCreateObject (lm_process o) s fl;
          match p with
          | None => Some (s, f, m, Returned NX_ENOMEM)
          | Some p =>
              assert (length (base_name absPath) <? NX_THREAD_NAME_LEN);;
              '(y, t) ← NX_ThreadCreate NR (lm_thread o) (lm_stack o) (sys_ s) 1 ProcessThreadEntry_ 0 NX_THREAD_PRIORITY_NORMAL;
              let s := with_sys_ s y in
              match t with
              | None => s ← put_all_back s p None false; Some (s, f, m, Returned NX_ENOMEM)
              | Some t => Launch_load o (with_resources s (<[t := no_resource]> (resources s))) f m coreId p t absPath cmd env
              end
          end
      end
  end.
End process.

(** ** The search for the program, with two files in the system *)
Definition demo_access (f : unit) (path : str) : option (unit * NX_Error) :=
  Some (f, if bool_decide (path = [47; 117; 47; 115]) || bool_decide (path = [47; 97]) then NX_EOK else NX_ENOSRCH).

(** [s] in the environment [/b:/u] is [/u/s]; an absolute path is not searched for. *)
Example program_is_searched :
  find_program demo_access true tt [115] (Some [47; 98; 58; 47; 117]) = Some (tt, Some [47; 117; 47; 115]) /\
  find_program demo_access true tt [47; 115] (Some [47; 117]) = Some (tt, None).
Proof. split; vm_compute; reflexivity. Qed.

(** A relative path that is not found, without an environment, faults. *)
Example search_without_env : find_program demo_access true tt [115] None = None.
Proof. vm_compute. reflexivity. Qed.
