(* ===== verification/ProcessExit.v ===== *)
(** The end of a process: what the exit of its last thread does, from the table of
    objects and the mapped pages to those who wait ([NX_ThreadExit] with
    [NX_ThreadExitProcess] and [ProcessExitNotify] of Process.v). *)
From S2P Require Import Prelude Bits ThreadId Mmu Vmspace Elf UserStack Sched SchedInv SchedOps Tokens ExObj Objects Process.
From S2P Require VfsOps Driver.
#[local] Coercion Z.of_nat : nat >-> Z.

Section exit.
Context {World : Type} (NR : Z).
Context {M : Type} `{MmuFresh M}.
Context (attr_user : Z) (node_alloc : list NX_Vmnode -> option Z).
Context (Halloc : forall l id, node_alloc l = Some id -> id ∉ nid <$> l).
Context (Hall : forall l, is_Some (node_alloc l)).
Notation State := (@Process.State World M).
Notation NX_Process := (@Process.NX_Process M).
Implicit Types (s : State) (x : NX_Process).








(** ** Telling those who wait *)




(** ** The last thread *)





End exit.

(** ** Two processes: thread 300 of the second waits for the first, whose last
    thread, 200, runs *)
Definition demo_waiting : Sys :=
  default (demo 11) ('(y, _) ← SemaphoreWait_turn 1 (NX_SemaphoreInit (demo 11) 5000 0).1 0 5000; Some y).



(** The space of the first process, with the page of the thread-local area. *)
Definition tls_space : NX_Vmspace flat :=
  match NX_VmspaceMap (fresh_id []) demo_space 0 NX_PAGE_SIZE 31 0 with Some (sp, _, _) => sp | None => demo_space end.


Definition demo_objects (thread : Z) : NX_ExposedObjectTable := mkTable 4 (Some [mkExObj thread NX_EXOBJ_THREAD 0; no_object; no_object; no_object]).
Definition demo_process (sp : NX_Vmspace flat) (thread code : Z) : @Process.NX_Process flat :=
  Process.mkProcess 1 sp 1 [thread] code 0 (thread + 7000) thread 0 0 NX_PROCESS_CWD_DEFAULT [] (demo_objects thread).
Definition demo_state : @Process.State (nat * nat) flat :=
  Process.mkState (mkKernel demo_waiting ∅ Driver.demo_attached)
    (<[5000 := demo_process tls_space 200 42]> (<[6000 := demo_process demo_space 300 0]> ∅))
    (<[200 := mkResource (Some 5000) 0x300000000 7200 0 0 0]> (<[300 := mkResource (Some 6000) 0 7300 0 0 0]> ∅)) (<[7200 := []]> (<[7300 := []]> ∅)).



(** The daemon takes the thread and frees it with its process. *)
Definition daemon_step (s : @Process.State (nat * nat) flat) : option (@Process.State (nat * nat) flat) :=
  match NX_ThreadDeququeExitList (sys_ s) with
  | (y, Some id) => ThreadRelease (with_sys_ s y) id
  | (_, None) => None
  end.

(** The waiter, woken, looks at the semaphore of the process again; nothing keeps the
    daemon from freeing the process before. *)
Example waiter_reads_freed_process :
  (s ← NX_ThreadExit 1 fresh_id demo_state 0 42; Some (bool_decide (is_Some (procs s !! 5000)), exitList (sys_ s))) = Some (true, [200]) /\
  (s ← NX_ThreadExit 1 fresh_id demo_state 0 42; s ← daemon_step s;
   Some (bool_decide (is_Some (procs s !! 5000)), bool_decide (is_Some (threads (sys_ s) !! 200)), bool_decide (is_Some (SemaphoreWait_turn 1 (sys_ s) 0 5000)))) =
  Some (false, false, false).
Proof. split; vm_compute; reflexivity. Qed.

(** The exit code is kept in the process of the waiter, one for all its threads: here
    a second process ends with 7 before the waiter of the first reads its code, and
    the waiter reads 7. *)
Example exit_codes_mixed :
  let s := with_resources demo_state (<[301 := mkResource (Some 6000) 0 7300 0 0 0]> (resources demo_state)) in
  (s ← ProcessExitNotify_loop s 42 [300]; s ← ProcessExitNotify_loop s 7 [301]; ProcessWait_result s 300) = Some 7.
Proof. vm_compute. reflexivity. Qed.

(** A thread of the kernel that waits for a process makes its exit fail. *)
Example kernel_waiter_asserts :
  let s := with_resources demo_state (<[300 := no_resource]> (resources demo_state)) in NX_ThreadExit 1 fresh_id s 0 42 = None.
Proof. vm_compute. reflexivity. Qed.
