(* ===== verification/Snapshot.v ===== *)
(** Snapshots of the threads and processes for the user: [process/snapshot.c].

    A snapshot is an object of a process: a list of copies, made by walking the list
    of all threads, and the entry that was read last.  The head of an entry has an
    address, which is its identity; [heads] are the addresses the allocator answers
    before it has no memory any more.  The names of the threads, which Sched.v leaves
    out, are an argument. *)
From S2P Require Import Prelude ThreadId VfsPath Mmu Vmspace Sched SchedInv ExObj Objects Process ProcessExit.
From S2P Require Driver VfsOps.
#[local] Coercion Z.of_nat : nat >-> Z.

Definition NX_SNAPSHOT_PROCESS : Z := 1.
Definition NX_SNAPSHOT_THREAD : Z := 2.
Definition NX_SNAPSHOT_MAX : Z := 3.

Record NX_SnapshotThread := mkSnapshotThread {
  st_usage : Z;
  st_state : Z;
  threadId : Z;
  ownerProcessId : Z;
  st_fixedPriority : Z;
  st_priority : Z;
  st_onCore : Z;
  st_coreAffinity : Z;
  st_flags : Z;
  st_name : str
}.

Record NX_SnapshotProcess := mkSnapshotProcess {
  sp_usage : Z;
  processId : Z;
  sp_threadCount : Z;
  parentProcessId : Z;
  sp_flags : Z;
  sp_exePath : str
}.

Inductive NX_SnapshotBody :=
  | BodyThread (t : NX_SnapshotThread)
  | BodyProcess (p : NX_SnapshotProcess).

Record NX_Snapshot := mkSnapshot {
  listHead : list (Z * NX_SnapshotBody);
  snapshotType : Z;
  lastSnapshot : option Z
}.
Definition with_last (sn : NX_Snapshot) (head : Z) : NX_Snapshot := mkSnapshot (listHead sn) (snapshotType sn) (Some head).

Definition state_number (st : NX_ThreadState) : Z :=
  match st with NX_THREAD_INIT => 0 | NX_THREAD_READY => 1 | NX_THREAD_RUNNING => 2 | NX_THREAD_BLOCKED => 3 | NX_THREAD_EXIT => 4 end.

(** [NX_ThreadWalk] over a list of threads. *)
Fixpoint ThreadWalk_loop {A} (handler : Z -> A -> option (A * NX_Error)) (l : list Z) (arg : A) : option (A * NX_Error) :=
  match l with
  | [] => Some (arg, NX_EOK)
  | thread :: l =>
      '(arg, err) ← handler thread arg;
      if negb (is_ok err) then Some (arg, err) else ThreadWalk_loop handler l arg
  end.
Definition NX_ThreadWalk {A} (handler : option (Z -> A -> option (A * NX_Error))) (s : Sys) (arg : A) : option (A * NX_Error) :=
  match handler with None => Some (arg, NX_EINVAL) | Some handler => ThreadWalk_loop handler (globalList s) arg end.

Section snapshot.
Context {World M : Type} (NX_MULTI_CORES_NR : Z) (thread_name : Z -> str).
Notation State := (@Process.State World M).
Implicit Types (s : State) (sn : NX_Snapshot).

(** The fields of the two kinds of entries. *)
Definition fill_thread s (thread : Z) : option NX_SnapshotThread :=
  t ← threads (sys_ s) !! thread;
  r ← resources s !! thread;
  owner ← match process r with Some p => x ← procs s !! p; Some (pid x) | None => Some 0 end;
  Some (mkSnapshotThread 0 (state_number (Sched.state t)) (u32 (tid t)) (u32 owner) (fixedPriority t) (priority t) (u32 (onCore t))
    (u32 (coreAffinity t)) 0 (StrCopyN (thread_name thread) NX_THREAD_NAME_LEN).1).
Definition fill_process s (p : Z) : option NX_SnapshotProcess :=
  x ← procs s !! p;
  Some (mkSnapshotProcess 0 (u32 (pid x)) (u32 (threadCount_ x)) (u32 (parentPid x)) 0 (StrCopyN (exePath x) NX_VFS_MAX_PATH).1).

(** The head of the next entry, and the rest of the memory. *)
Definition CreateSnapshotHead (heads : list Z) : list Z * option Z :=
  match heads with [] => ([], None) | h :: heads => (heads, Some h) end.
Definition add_tail sn (head : Z) (b : NX_SnapshotBody) : NX_Snapshot := mkSnapshot (listHead sn ++ [(head, b)]) (snapshotType sn) (lastSnapshot sn).

Definition SnapshotThreadWalkHandler s (thread : Z) (arg : NX_Snapshot * list Z) : option (NX_Snapshot * list Z * NX_Error) :=
  let '(sn, heads) := arg in
  let (heads, head) := CreateSnapshotHead heads in
  match head with
  | None => Some (sn, heads, NX_ENOMEM)
  | Some head => b ← fill_thread s thread; Some (add_tail sn head (BodyThread b), heads, NX_EOK)
  end.

Definition SnapshotProcessWalkHandler s (thread : Z) (arg : NX_Snapshot * list Z) : option (NX_Snapshot * list Z * NX_Error) :=
  let '(sn, heads) := arg in
  r ← resources s !! thread;
  match process r with
  | None => Some (sn, heads, NX_EOK)
  | Some p =>
      let (heads, head) := CreateSnapshotHead heads in
      match head with
      | None => Some (sn, heads, NX_ENOMEM)
      | Some head => b ← fill_process s p; Some (add_tail sn head (BodyProcess b), heads, NX_EOK)
      end
  end.

(** What the walk answers is not looked at. *)
Definition DoSnapshotThread s (heads : list Z) sn : option (NX_Snapshot * NX_Error) :=
  '(sn, _, _) ← NX_ThreadWalk (Some (SnapshotThreadWalkHandler s)) (sys_ s) (sn, heads); Some (sn, NX_EOK).
Definition DoSnapshotProcess s (heads : list Z) sn : option (NX_Snapshot * NX_Error) :=
  '(sn, _, _) ← NX_ThreadWalk (Some (SnapshotProcessWalkHandler s)) (sys_ s) (sn, heads); Some (sn, NX_EOK).

Definition DoSnapshot s (heads : list Z) sn (type : Z) : option (NX_Snapshot * NX_Error) :=
  if type =? NX_SNAPSHOT_PROCESS then DoSnapshotProcess s heads sn
  else if type =? NX_SNAPSHOT_THREAD then DoSnapshotThread s heads sn
  else Some (sn, NX_EINVAL).

(** The heads are freed; the snapshot itself is freed by the caller. *)
Definition DestroySnapshot sn : NX_Snapshot * NX_Error :=
  if (snapshotType sn =? NX_SNAPSHOT_PROCESS) || (snapshotType sn =? NX_SNAPSHOT_THREAD) then
    (mkSnapshot [] (snapshotType sn) (lastSnapshot sn), NX_EOK)
  else (sn, NX_EINVAL).

Definition SnapshotClose (snaps : gmap Z NX_Snapshot) (object : Z) (type : NX_ExposedObjectType) : option (gmap Z NX_Snapshot * NX_Error) :=
  if (object =? 0) || negb (bool_decide (type = NX_EXOBJ_SNAPSHOT)) then Some (snaps, NX_EPERM)
  else sn ← snaps !! object; let (_, _) := DestroySnapshot sn in Some (delete object snaps, NX_EOK).

Definition SnapshotClose_ : Z := 4.

(** [NX_ProcessCurrent] of a core. *)
Definition NX_ProcessCurrent s (coreId : Z) : option (option Z) :=
  self ← NX_ThreadSelf NX_MULTI_CORES_NR (sys_ s) coreId; r ← resources s !! self; Some (process r).

(** [mem] is what the allocator answers for the snapshot; the results are the solt and
    what is stored through [outErr]. *)
Definition NX_SnapshotCreate (mem : option Z) (heads : list Z) s (snaps : gmap Z NX_Snapshot) (coreId type : Z) :
    option (State * gmap Z NX_Snapshot * Z * NX_Error) :=
  if (type =? 0) || (type >=? NX_SNAPSHOT_MAX) then Some (s, snaps, NX_SOLT_INVALID_VALUE, NX_EINVAL)
  else
    p ← NX_ProcessCurrent s coreId;
    match p, mem with
    | None, _ => Some (s, snaps, NX_SOLT_INVALID_VALUE, NX_ENORES)
    | Some _, None => Some (s, snaps, NX_SOLT_INVALID_VALUE, NX_ENOMEM)
    | Some p, Some a =>
        '(sn, err) ← DoSnapshot s heads (mkSnapshot [] type None) type;
        if negb (is_ok err) then Some (s, snaps, NX_SOLT_INVALID_VALUE, err)
        else
          x ← procs s !! p;
          '(table, err, solt) ← NX_ExposedObjectInstall (exobjTable x) a NX_EXOBJ_SNAPSHOT SnapshotClose_;
          if negb (is_ok err) then Some (s, snaps, NX_SOLT_INVALID_VALUE, err)
          else solt ← solt; Some (put_process s p (with_table x table), <[a := sn]> snaps, solt, NX_EOK)
    end.

(** The checks of [NX_SnapshotFirst] and [NX_SnapshotNext], with the address of the
    snapshot. *)
Definition snapshot_of s (coreId solt object : Z) : option (Z + NX_Error) :=
  if (solt =? NX_SOLT_INVALID_VALUE) || (object =? 0) then Some (inr NX_EINVAL)
  else
    p ← NX_ProcessCurrent s coreId;
    match p with
    | None => Some (inr NX_ENORES)
    | Some p =>
        x ← procs s !! p;
        match NX_ExposedObjectGet (exobjTable x) solt with
        | None => Some (inr NX_EINVAL)
        | Some i =>
            objs ← objects (exobjTable x);
            e ← zlookup objs i;
            if negb (bool_decide (type e = NX_EXOBJ_SNAPSHOT)) then Some (inr NX_EPERM) else Some (inl (ExObj.object e))
        end
    end.

(** What is copied to the user of an entry: the member of the union the type says. *)
Definition copy_body sn (b : NX_SnapshotBody) : option (option NX_SnapshotBody) :=
  if snapshotType sn =? NX_SNAPSHOT_PROCESS then match b with BodyProcess _ => Some (Some b) | _ => None end
  else if snapshotType sn =? NX_SNAPSHOT_THREAD then match b with BodyThread _ => Some (Some b) | _ => None end
  else Some None.

(** The end of both: the entry is copied and becomes the last that was read. *)
Definition give (snaps : gmap Z NX_Snapshot) (a : Z) sn (e : Z * NX_SnapshotBody) :
    option (gmap Z NX_Snapshot * NX_Error * option NX_SnapshotBody) :=
  b ← copy_body sn e.2;
  match b with
  | None => Some (snaps, NX_ENORES, None)
  | Some b => Some (<[a := with_last sn e.1]> snaps, NX_EOK, Some b)
  end.

Definition NX_SnapshotFirst s (snaps : gmap Z NX_Snapshot) (coreId solt object : Z) :
    option (gmap Z NX_Snapshot * NX_Error * option NX_SnapshotBody) :=
  r ← snapshot_of s coreId solt object;
  match r with
  | inr err => Some (snaps, err, None)
  | inl a =>
      sn ← snaps !! a;
      match listHead sn with [] => Some (snaps, NX_ENORES, None) | e :: _ => give snaps a sn e end
  end.

(** The entries behind the one at [head]; a head that is not on the list is a pointer
    to freed memory. *)
Fixpoint after (head : Z) (l : list (Z * NX_SnapshotBody)) : option (list (Z * NX_SnapshotBody)) :=
  match l with
  | [] => None
  | e :: l => if e.1 =? head then Some l else after head l
  end.

Definition NX_SnapshotNext s (snaps : gmap Z NX_Snapshot) (coreId solt object : Z) :
    option (gmap Z NX_Snapshot * NX_Error * option NX_SnapshotBody) :=
  r ← snapshot_of s coreId solt object;
  match r with
  | inr err => Some (snaps, err, None)
  | inl a =>
      sn ← snaps !! a;
      match lastSnapshot sn with
      | None => Some (snaps, NX_EPERM, None)
      | Some head =>
          l ← after head (listHead sn);
          match l with [] => Some (snaps, NX_ENORES, None) | e :: _ => give snaps a sn e end
      end
  end.

(** A program that reads a snapshot: the first entry and then the next ones until there
    is an error; the entries and the error. *)
Fixpoint read_rest (fuel : nat) s (snaps : gmap Z NX_Snapshot) (coreId solt object : Z) : option (list NX_SnapshotBody * NX_Error) :=
  match fuel with
  | O => None
  | S fuel =>
      '(snaps, err, b) ← NX_SnapshotNext s snaps coreId solt object;
      match b with
      | Some b => '(l, err) ← read_rest fuel s snaps coreId solt object; Some (b :: l, err)
      | None => Some ([], err)
      end
  end.
Definition read_all (fuel : nat) s (snaps : gmap Z NX_Snapshot) (coreId solt object : Z) : option (list NX_SnapshotBody * NX_Error) :=
  '(snaps, err, b) ← NX_SnapshotFirst s snaps coreId solt object;
  match b with
  | Some b => '(l, err) ← read_rest fuel s snaps coreId solt object; Some (b :: l, err)
  | None => Some ([], err)
  end.
End snapshot.

(** ** What a snapshot holds *)
Section contents.
Context {World M : Type} (NR : Z) (thread_name : Z -> str).
Notation State := (@Process.State World M).
Implicit Types (s : State) (sn : NX_Snapshot).

Definition thread_entry s (id : Z) : option NX_SnapshotBody := BodyThread <$> fill_thread thread_name s id.
Definition process_entry s (id : Z) : option NX_SnapshotBody :=
  r ← resources s !! id; p ← process r; BodyProcess <$> fill_process s p.

(** The entries of a type, in the order of the threads. *)
Definition entries s (type : Z) (l : list Z) : list NX_SnapshotBody :=
  omap (if type =? NX_SNAPSHOT_THREAD then thread_entry s else process_entry s) l.

(** The threads of the list have their resources, and the processes of these exist. *)
Definition known s (id : Z) : Prop :=
  is_Some (threads (sys_ s) !! id) /\ exists r, resources s !! id = Some r /\ forall p, process r = Some p -> is_Some (procs s !! p).

Lemma fill_thread_known s id : known s id -> exists b, fill_thread thread_name s id = Some b.
Proof.
  intros ([t Ht] & r & Hr & Hp). unfold fill_thread. rewrite Ht, Some_bind, Hr, Some_bind.
  destruct (process r) as [p|]; [|rewrite Some_bind; by eexists]. destruct (Hp p eq_refl) as [x Hx]. rewrite Hx, !Some_bind. by eexists.
Qed.

(** A walk adds the entries, as far as there is memory. *)
Lemma thread_walk s l : Forall (known s) l -> forall sn heads, exists heads' err,
  ThreadWalk_loop (SnapshotThreadWalkHandler thread_name s) l (sn, heads) =
    Some (mkSnapshot (listHead sn ++ zip heads (omap (thread_entry s) l)) (snapshotType sn) (lastSnapshot sn), heads', err).
Proof.
  induction 1 as [|id l Hid _ IH]; intros sn heads.
  { exists heads, NX_EOK. cbn. rewrite zip_with_nil_r, app_nil_r. by destruct sn. }
  cbn [ThreadWalk_loop SnapshotThreadWalkHandler]. destruct heads as [|h heads]; cbn [CreateSnapshotHead].
  { rewrite Some_bind. exists [], NX_ENOMEM. cbn. rewrite app_nil_r. by destruct sn. }
  destruct (fill_thread_known s id Hid) as [b Hb]. rewrite Hb, !Some_bind. change (is_ok NX_EOK) with true. cbn [negb].
  destruct (IH (add_tail sn h (BodyThread b)) heads) as (heads' & err & Hrun). rewrite Hrun. exists heads', err. cbn [add_tail listHead snapshotType lastSnapshot].
  cbn [omap list_omap]. unfold thread_entry at 2. rewrite Hb. cbn. by rewrite <- app_assoc.
Qed.

Lemma process_walk s l : Forall (known s) l -> forall sn heads, exists heads' err,
  ThreadWalk_loop (SnapshotProcessWalkHandler s) l (sn, heads) =
    Some (mkSnapshot (listHead sn ++ zip heads (omap (process_entry s) l)) (snapshotType sn) (lastSnapshot sn), heads', err).
Proof.
  induction 1 as [|id l Hid _ IH]; intros sn heads.
  { exists heads, NX_EOK. cbn. rewrite zip_with_nil_r, app_nil_r. by destruct sn. }
  destruct Hid as (_ & r & Hr & Hp). cbn [ThreadWalk_loop SnapshotProcessWalkHandler omap list_omap].
  assert (process_entry s id = (p ← process r; BodyProcess <$> fill_process s p)) as -> by (unfold process_entry; by rewrite Hr).
  rewrite Hr, Some_bind. destruct (process r) as [p|].
  2: { rewrite Some_bind. change (is_ok NX_EOK) with true. cbn [negb]. apply IH. }
  destruct (Hp p eq_refl) as [x Hx]. rewrite !Some_bind. destruct (fill_process s p) as [b|] eqn:Hb; [|unfold fill_process in Hb; by rewrite Hx in Hb].
  destruct heads as [|h heads]; cbn [CreateSnapshotHead].
  { rewrite Some_bind. exists [], NX_ENOMEM. cbn. rewrite app_nil_r. by destruct sn. }
  rewrite !Some_bind. change (is_ok NX_EOK) with true. cbn [negb].
  destruct (IH (add_tail sn h (BodyProcess b)) heads) as (heads' & err & Hrun). rewrite Hrun. exists heads', err. cbn. by rewrite <- app_assoc.
Qed.

Lemma entries_kind s type l b : type = NX_SNAPSHOT_PROCESS \/ type = NX_SNAPSHOT_THREAD -> b ∈ entries s type l ->
  match b with BodyThread _ => type = NX_SNAPSHOT_THREAD | BodyProcess _ => type = NX_SNAPSHOT_PROCESS end.
Proof.
  intros [-> | ->]; cbn; intros (id & _ & He)%list_elem_of_omap.
  - unfold process_entry in He. apply bind_Some in He as (r & _ & (q & _ & (v & _ & ->)%fmap_Some)%bind_Some). done.
  - unfold thread_entry in He. apply fmap_Some in He as (v & _ & ->). done.
Qed.

(** ** Reading *)
Lemma after_next head es e l : NoDup es.*1 -> after head es = Some (e :: l) -> after e.1 es = Some l.
Proof.
  induction es as [|e' es IH]; [done|]. cbn. intros [Hn Hnd]%NoDup_cons. destruct (Z.eqb_spec e'.1 head) as [_|_].
  - intros [= ->]. rewrite (proj2 (Z.eqb_neq _ _)) by (intros E; apply Hn; rewrite E; cbn; left). cbn. by rewrite Z.eqb_refl.
  - intros Ha. destruct (Z.eqb_spec e'.1 e.1) as [E|_]; [|by apply IH]. exfalso. apply Hn. rewrite E.
    clear - Ha. induction es as [|e2 es IH]; [done|]. cbn in *. destruct (e2.1 =? head); [|right; by apply IH].
    injection Ha as ->. right. left.
Qed.

(** The process [p] of the core reads its solt [solt], which holds the snapshot [a]. *)
Context (s : State) (c solt object p a : Z) (x : @Process.NX_Process M) (objs : list NX_ExposedObject).
Context (Hp : NX_ProcessCurrent NR s c = Some (Some p)) (Hx : procs s !! p = Some x) (Ht : table_ok (exobjTable x) objs) (Hobject : object <> 0).
Context (Hsolt : 0 <= solt < objectCount (exobjTable x)).
Context (He : zlookup objs solt = Some (mkExObj a NX_EXOBJ_SNAPSHOT SnapshotClose_)).

Lemma snapshot_of_eq : snapshot_of NR s c solt object = Some (inl a).
Proof.
  destruct Ht as (Ho & Hl & Hc). unfold NX_EXOBJ_MAX_NR in Hc. unfold snapshot_of.
  rewrite (proj2 (Z.eqb_neq solt _)), (proj2 (Z.eqb_neq object 0)) by (done || unfold NX_SOLT_INVALID_VALUE; lia).
  cbn [orb]. rewrite Hp, Some_bind, Hx, Some_bind. unfold NX_ExposedObjectGet.
  rewrite u64_small, (proj2 (Z.ltb_lt _ _)), Ho, Some_bind, He, Some_bind by lia. done.
Qed.

Definition readable sn : Prop :=
  NoDup (listHead sn).*1 /\ Forall (fun e => copy_body sn e.2 = Some (Some e.2)) (listHead sn).

Lemma after_readable sn head l : readable sn -> after head (listHead sn) = Some l -> Forall (fun e => copy_body sn e.2 = Some (Some e.2)) l.
Proof.
  intros [_ Hall]. induction Hall as [|e es _ Hes IH]; cbn; [done|]. destruct (_ =? _); [by intros [= <-]|exact IH].
Qed.

Lemma read_rest_spec l : forall fuel snaps sn head, (length l < fuel)%nat -> snaps !! a = Some sn -> readable sn ->
  lastSnapshot sn = Some head -> after head (listHead sn) = Some l -> read_rest NR fuel s snaps c solt object = Some (l.*2, NX_ENORES).
Proof.
  induction l as [|e l IH]; intros fuel snaps sn head Hf Hsn Hok Hlast Ha; (destruct fuel as [|fuel]; [cbn in Hf; lia|]); cbn [read_rest].
  - unfold NX_SnapshotNext. by rewrite snapshot_of_eq, Some_bind, Hsn, Some_bind, Hlast, Ha, !Some_bind.
  - pose proof (after_readable sn head _ Hok Ha) as [He2 _]%Forall_cons. unfold NX_SnapshotNext.
    rewrite snapshot_of_eq, Some_bind, Hsn, Some_bind, Hlast, Ha, Some_bind. unfold give. rewrite He2, !Some_bind.
    rewrite (IH fuel _ (with_last sn e.1) e.1); [done|cbn in Hf; lia|apply lookup_insert_eq|exact Hok|done|].
    by apply (after_next head); [apply Hok|].
Qed.

Lemma read_all_spec fuel snaps sn : (length (listHead sn) < fuel)%nat -> snaps !! a = Some sn -> readable sn ->
  read_all NR fuel s snaps c solt object = Some ((listHead sn).*2, NX_ENORES).
Proof.
  intros Hf Hsn Hok. unfold read_all, NX_SnapshotFirst. rewrite snapshot_of_eq, Some_bind, Hsn, Some_bind.
  destruct (listHead sn) as [|e l] eqn:El; [by rewrite Some_bind|]. pose proof Hok as [Hnd Hall]. rewrite El in Hnd, Hall.
  apply Forall_cons in Hall as [He2 _]. unfold give. rewrite He2, !Some_bind.
  rewrite (read_rest_spec l fuel _ (with_last sn e.1) e.1); [done|cbn in Hf; lia|apply lookup_insert_eq|exact Hok|done|].
  cbn [with_last listHead]. rewrite El. cbn. by rewrite Z.eqb_refl.
Qed.
End contents.

Lemma zip_fst_take {A B} (l : list A) (k : list B) : (zip l k).*1 = take (length k) l.
Proof. revert k. induction l as [|a l IH]; intros [|b k]; cbn; [done..|]. by rewrite IH. Qed.
Lemma zip_snd_take {A B} (l : list A) (k : list B) : (zip l k).*2 = take (length l) k.
Proof. revert k. induction l as [|a l IH]; intros [|b k]; cbn; [done..|]. by rewrite IH. Qed.

Lemma length_omap_le {A B} (f : A -> option B) l : (length (omap f l) <= length l)%nat.
Proof. induction l as [|x l IH]; cbn; [done|]. destruct (f x); cbn; lia. Qed.

Section creating.
Context {World M : Type} (NR : Z) (thread_name : Z -> str).
Notation State := (@Process.State World M).
Implicit Types (s : State).

Lemma DoSnapshot_spec s heads type : type = NX_SNAPSHOT_PROCESS \/ type = NX_SNAPSHOT_THREAD -> Forall (known s) (globalList (sys_ s)) ->
  DoSnapshot thread_name s heads (mkSnapshot [] type None) type =
    Some (mkSnapshot (zip heads (entries thread_name s type (globalList (sys_ s)))) type None, NX_EOK).
Proof.
  intros Hty Hk. unfold DoSnapshot, DoSnapshotProcess, DoSnapshotThread, NX_ThreadWalk. destruct Hty as [-> | ->].
  - destruct (process_walk s _ Hk (mkSnapshot [] NX_SNAPSHOT_PROCESS None) heads) as (h & err & E). by rewrite E.
  - destruct (thread_walk thread_name s _ Hk (mkSnapshot [] NX_SNAPSHOT_THREAD None) heads) as (h & err & E). by rewrite E.
Qed.

Lemma snapshot_readable s type heads l : type = NX_SNAPSHOT_PROCESS \/ type = NX_SNAPSHOT_THREAD -> NoDup heads ->
  readable (mkSnapshot (zip heads (entries thread_name s type l)) type None).
Proof.
  intros Hty Hnd. split; cbn [listHead].
  - rewrite zip_fst_take. eapply sublist_NoDup; [exact Hnd|apply sublist_take].
  - apply Forall_forall. intros e Hin. assert (Hb : e.2 ∈ entries thread_name s type l).
    { apply (list_elem_of_fmap_2 snd) in Hin. rewrite zip_snd_take in Hin.
      by apply elem_of_take in Hin as (i & Hi%list_elem_of_lookup_2 & _). }
    apply (entries_kind thread_name s type) in Hb; [|done]. unfold copy_body. cbn [snapshotType].
    by destruct e as [h [t|q]]; cbn in Hb |- *; rewrite Hb.
Qed.

(** C38: A snapshot, once made, is what the system was: whatever the threads do
    after, a program of the process that reads its first and then its next entries
    gets one entry for each thread (or, of processes, for each thread that has
    one), in the order of the list of threads, as far as there was memory for, and
    then [NX_ENORES]. *)
Theorem snapshot_enumerates s snaps heads a c type p x objs :
  type = NX_SNAPSHOT_PROCESS \/ type = NX_SNAPSHOT_THREAD -> NX_ProcessCurrent NR s c = Some (Some p) -> procs s !! p = Some x ->
  table_ok (exobjTable x) objs -> Forall (known s) (globalList (sys_ s)) -> NoDup heads ->
  exists s' snaps' solt err, NX_SnapshotCreate NR thread_name (Some a) heads s snaps c type = Some (s', snaps', solt, err) /\
    ((err = NX_ENORES /\ s' = s /\ snaps' = snaps /\ solt = NX_SOLT_INVALID_VALUE /\ first_free objs (objectCount (exobjTable x)) 0 (-1)) \/
     (err = NX_EOK /\ exists table, procs s' !! p = Some (with_table x table) /\
      forall s2 c2 x2 object fuel, NX_ProcessCurrent NR s2 c2 = Some (Some p) -> procs s2 !! p = Some x2 -> exobjTable x2 = table ->
        object <> 0 -> (length (globalList (sys_ s)) < fuel)%nat ->
        read_all NR fuel s2 snaps' c2 solt object =
          Some (take (length heads) (entries thread_name s type (globalList (sys_ s))), NX_ENORES))).
Proof.
  intros Hty Hp Hx Ht Hk Hnd. unfold NX_SnapshotCreate.
  assert ((type =? 0) || (type >=? NX_SNAPSHOT_MAX) = false) as -> by (by destruct Hty as [-> | ->]).
  rewrite Hp, Some_bind, (DoSnapshot_spec s heads type Hty Hk), Some_bind. change (is_ok NX_EOK) with true. cbn [negb].
  rewrite Hx, Some_bind. destruct (Install_spec _ objs a NX_EXOBJ_SNAPSHOT SnapshotClose_ Ht) as [[Hf ->]|(solt & table & _ & Hs & -> & Hc & Ht')].
  { rewrite Some_bind. change (is_ok NX_ENORES) with false. eexists _, _, _, _. split; [reflexivity|]. left. by split_and!. }
  rewrite Some_bind. change (is_ok NX_EOK) with true. cbn [negb]. rewrite Some_bind. eexists _, _, _, _. split; [reflexivity|]. right.
  split; [done|]. exists table. split; [apply lookup_insert_eq|]. intros s2 c2 x2 object fuel Hp2 Hx2 <- Hobj Hfuel.
  rewrite (read_all_spec NR s2 c2 solt object p a x2 (zinsert objs solt (mkExObj a NX_EXOBJ_SNAPSHOT SnapshotClose_)) Hp2 Hx2 Ht' Hobj) with
    (sn := mkSnapshot (zip heads (entries thread_name s type (globalList (sys_ s)))) type None).
  - cbn [listHead]. by rewrite zip_snd_take.
  - lia.
  - destruct Ht as (_ & Hl & _). rewrite zlookup_zinsert by lia. by rewrite decide_True.
  - cbn [listHead]. assert (length (entries thread_name s type (globalList (sys_ s))) <= length (globalList (sys_ s)))%nat by apply length_omap_le.
    rewrite length_zip_with. lia.
  - apply lookup_insert_eq.
  - by apply snapshot_readable.
Qed.
End creating.

(** ** The two processes of ProcessExit.v, with the idle thread *)
Definition snap_state : @Process.State (nat * nat) flat := with_resources demo_state (<[100 := no_resource]> (resources demo_state)).
Definition snap_name (id : Z) : str := if id =? 100 then [105; 100] else [117].

Lemma snapshot_enumerates_witness :
  exists s' snaps' solt, NX_SnapshotCreate 1 snap_name (Some 9000) [9100; 9200; 9300] snap_state ∅ 0 NX_SNAPSHOT_PROCESS = Some (s', snaps', solt, NX_EOK) /\
    read_all 1 4 s' snaps' 0 solt 1 =
      Some ([BodyProcess (mkSnapshotProcess 0 300 1 0 0 []); BodyProcess (mkSnapshotProcess 0 200 1 0 0 [])], NX_ENORES).
Proof.
  destruct (snapshot_enumerates 1 snap_name snap_state ∅ [9100; 9200; 9300] 9000 0 NX_SNAPSHOT_PROCESS 5000 (demo_process tls_space 200 42)
    [mkExObj 200 NX_EXOBJ_THREAD 0; no_object; no_object; no_object]) as (s' & snaps' & solt & err & Hrun & Hcase).
  - left. reflexivity.
  - vm_compute. reflexivity.
  - reflexivity.
  - split; [reflexivity|split; [reflexivity|unfold NX_EXOBJ_MAX_NR; cbn; lia]].
  - assert (globalList (sys_ snap_state) = [300; 200; 100]) as -> by (vm_compute; reflexivity).
    constructor; [|constructor; [|constructor; [|constructor]]];
      (split; [vm_compute; eexists; reflexivity|eexists; split; [vm_compute; reflexivity|intros q E; vm_compute in E; (discriminate E || (injection E as <-; vm_compute; eexists; reflexivity))]]).
  - repeat constructor; set_solver.
  - exists s', snaps', solt. destruct Hcase as [(_ & _ & _ & _ & [[_ Hfull]|[[H _] _]])|(-> & table & Hx & Hread)].
    + exfalso. apply (Hfull 1 no_object); [cbn; lia|reflexivity|reflexivity].
    + exfalso. lia.
    + split; [exact Hrun|].
      assert ((NX_SnapshotCreate 1 snap_name (Some 9000) [9100; 9200; 9300] snap_state ∅ 0 NX_SNAPSHOT_PROCESS ≫= fun x => NX_ProcessCurrent 1 x.1.1.1 0) =
        Some (Some 5000)) as E by (vm_compute; reflexivity).
      rewrite Hrun in E. rewrite (Hread s' 0 _ 1 4%nat E Hx); [vm_compute; reflexivity|reflexivity|discriminate|].
      assert (length (globalList (sys_ snap_state)) = 3%nat) as -> by (vm_compute; reflexivity). lia.
Defined.

(** Without memory for all, the snapshot is cut off and nothing says so. *)
Example short_memory_is_silent :
  ('(s, snaps, solt, err) ← NX_SnapshotCreate 1 snap_name (Some 9000) [9100] snap_state ∅ 0 NX_SNAPSHOT_THREAD;
   '(l, _) ← read_all 1 4 s snaps 0 solt 1; Some (err, length l, length (globalList (sys_ snap_state)))) = Some (NX_EOK, 1%nat, 3%nat).
Proof. vm_compute. reflexivity. Qed.

(** A process with two threads is in a snapshot of processes twice. *)
Example process_repeated :
  let s := with_resources snap_state (<[300 := mkResource (Some 5000) 0 7200 0 0 0]> (resources snap_state)) in
  omap (process_entry s) (globalList (sys_ s)) =
  [BodyProcess (mkSnapshotProcess 0 200 1 0 0 []); BodyProcess (mkSnapshotProcess 0 200 1 0 0 [])].
Proof. vm_compute. reflexivity. Qed.
