(* ===== verification/Irq.v ===== *)
(** Interrupts and delayed works: [io/irq.c], [io/delay_irq.c] and the clock that
    uses them, [time/clock.c].

    An interrupt has a node with the actions of the devices bound to it; the
    controller is code of the port, here what its functions answer.  Work that need
    not be done in the interrupt itself is queued: a handler raises it, and it is run
    by [NX_IRQ_DelayQueueCheck] when the interrupt returns.

    Works and actions are named by their addresses.  The handlers of works are code of
    other components, called through [call]: a handler changes the world [W] and, with
    the interrupts that come while it runs, raises works.

    Not modelled: the queue belongs to one core, and works raised on another core
    while this one checks its queue; a check nested in a handler, which the return of
    an interrupt that comes while the handler runs would make; works an interrupt
    raises during a check between two handlers. *)
From S2P Require Import Prelude.
#[local] Coercion Z.of_nat : nat >-> Z.

(** ** [io/irq.c] *)
Definition NX_IRQ_FLAG_SHARED : Z := 2.

Record NX_IRQ_Action := mkAction { a_handler : Z; a_data : Z; a_flags : Z }.

Record NX_IRQ_Node := mkIrqNode {
  controller : bool;                        (* whether it is set *)
  actionList : list (Z * NX_IRQ_Action);
  n_flags : Z;
  reference : Z
}.

Section irq.
Context {W : Type} (NX_NR_IRQS : Z).
Context (action_call : Z -> Z -> Z -> W -> W * NX_Error).               (* handler, irqno, data *)
Context (unmask mask ack : option (Z -> W -> W * NX_Error)).            (* of the controller *)
Implicit Types (table : list NX_IRQ_Node) (irqno : Z) (w : W).

Definition init_node (node : NX_IRQ_Node) : NX_IRQ_Node := mkIrqNode false [] 0 0.
Definition NX_IRQ_Init table : list NX_IRQ_Node := init_node <$> table.

Definition IRQ_NodeGet table irqno : option NX_IRQ_Node :=
  if (0 <=? irqno) && (irqno <? NX_NR_IRQS) then zlookup table irqno else None.

(** [mem] is what the allocator answers for the action. *)
Definition NX_IRQ_Bind (mem : option Z) table irqno (handler data flags : Z) : list NX_IRQ_Node * NX_Error :=
  match IRQ_NodeGet table irqno with
  | None => (table, NX_EINVAL)
  | Some node =>
      match mem with
      | None => (zinsert table irqno (mkIrqNode true (actionList node) flags (reference node)), NX_ENOMEM)
      | Some a =>
          (zinsert table irqno (mkIrqNode true (actionList node ++ [(a, mkAction handler data flags)]) flags (reference node + 1)), NX_EOK)
      end
  end.

Definition find_action node (data : Z) : option Z :=
  if nz (Z.land (n_flags node) NX_IRQ_FLAG_SHARED) then fst ∘ snd <$> list_find (fun a => a_data a.2 = data) (actionList node)
  else fst <$> head (actionList node).

Definition NX_IRQ_Unbind table irqno (data : Z) : list NX_IRQ_Node * NX_Error :=
  match IRQ_NodeGet table irqno with
  | None => (table, NX_EINVAL)
  | Some node =>
      if negb (controller node) then (table, NX_EFAULT)
      else
        match find_action node data with
        | None => (table, NX_ENORES)
        | Some a =>
            let l := filter (fun x => x.1 <> a) (actionList node) in
            let r := reference node - 1 in
            (zinsert table irqno (if r =? 0 then mkIrqNode false l 0 r else mkIrqNode (controller node) l (n_flags node) r), NX_EOK)
        end
  end.

Definition NX_IRQ_Unmask table irqno w : W * NX_Error :=
  match IRQ_NodeGet table irqno with
  | None => (w, NX_EINVAL)
  | Some node => match controller node, unmask with true, Some f => f irqno w | _, _ => (w, NX_ENOFUNC) end
  end.

Definition NX_IRQ_Mask table irqno w : W * NX_Error :=
  match IRQ_NodeGet table irqno with
  | None => (w, NX_EINVAL)
  | Some node => match controller node, mask with true, Some f => f irqno w | _, _ => (w, NX_ENOFUNC) end
  end.

Fixpoint Handle_loop irqno (l : list (Z * NX_IRQ_Action)) w : W :=
  match l with
  | [] => w
  | (_, a) :: l => let (w, err) := action_call (a_handler a) irqno (a_data a) w in if is_ok err then w else Handle_loop irqno l w
  end.

(** A node nobody is bound to has no controller: it is a null pointer. *)
Definition NX_IRQ_Handle table irqno w : option (W * NX_Error) :=
  match IRQ_NodeGet table irqno with
  | None => Some (w, NX_EINVAL)
  | Some node =>
      let w := Handle_loop irqno (actionList node) w in
      assert (controller node);;
      match ack with Some f => Some ((f irqno w).1, NX_EOK) | None => Some (w, NX_EOK) end
  end.
End irq.

(** ** [io/delay_irq.c] *)
Definition NX_IRQ_QUEUE_NR : Z := 5.
Definition NX_IRQ_FAST_QUEUE : Z := 0.
Definition NX_IRQ_SCHED_QUEUE : Z := 3.
Definition NX_IRQ_WORK_NOREENTER : Z := 1.
Definition NX_IRQ_WORK_PENDING : Z := 2 ^ 31.
Definition NX_IRQ_WORK_ON_QUEUED : Z := 2 ^ 30.
Definition NX_IRQ_DELAY_WORK_CHECK_TIMES : nat := 5.

Record NX_IRQ_DelayWork := mkWork { flags : Z; handler : Z; arg : Z; queue : Z }.

Record Delay := mkDelay {
  works : gmap Z NX_IRQ_DelayWork;
  delayIrqListTable : list (list Z);
  delayIrqEvent : Z;
  irqEnabled : bool
}.
Implicit Types (s : Delay) (work : Z).

Definition with_works s (m : gmap Z NX_IRQ_DelayWork) : Delay := mkDelay m (delayIrqListTable s) (delayIrqEvent s) (irqEnabled s).
Definition with_table s (t : list (list Z)) : Delay := mkDelay (works s) t (delayIrqEvent s) (irqEnabled s).
Definition with_event s (e : Z) : Delay := mkDelay (works s) (delayIrqListTable s) e (irqEnabled s).
Definition with_enabled s (b : bool) : Delay := mkDelay (works s) (delayIrqListTable s) (delayIrqEvent s) b.
Definition set_flags (f : Z) (x : NX_IRQ_DelayWork) : NX_IRQ_DelayWork := mkWork f (handler x) (arg x) (queue x).

Definition NX_IRQ_DelayQueueInit s : Delay := with_event (with_table s (replicate (Z.to_nat NX_IRQ_QUEUE_NR) [])) 0.
Definition IRQ_DelayEventSet s (event : Z) : Delay := with_event s (Z.lor (delayIrqEvent s) event).
Definition IRQ_DelayEventClear s : Delay := with_event s 0.

(** Linking a node that is on another list breaks both. *)
Definition NX_IRQ_DelayQueueEnter s (q work : Z) : option (Delay * NX_Error) :=
  if (q <? 0) || (q >=? NX_IRQ_QUEUE_NR) || (work =? 0) then Some (s, NX_EINVAL)
  else
    l ← zlookup (delayIrqListTable s) q;
    if bool_decide (work ∈ l) then Some (s, NX_EAGAIN)
    else
      x ← works s !! work;
      assert (negb (existsb (fun l => bool_decide (work ∈ l)) (delayIrqListTable s)));;
      let x := mkWork (Z.lor (flags x) NX_IRQ_WORK_ON_QUEUED) (handler x) (arg x) q in
      Some (with_table (with_works s (<[work := x]> (works s))) (zinsert (delayIrqListTable s) q (l ++ [work])), NX_EOK).

Definition NX_IRQ_DelayQueueLeave s (q work : Z) : option (Delay * NX_Error) :=
  if (q <? 0) || (q >=? NX_IRQ_QUEUE_NR) || (work =? 0) then Some (s, NX_EINVAL)
  else
    l ← zlookup (delayIrqListTable s) q;
    if negb (bool_decide (work ∈ l)) then Some (s, NX_ENOSRCH)
    else
      x ← works s !! work;
      let x := mkWork (Z.ldiff (flags x) NX_IRQ_WORK_ON_QUEUED) (handler x) (arg x) 0 in
      Some (with_table (with_works s (<[work := x]> (works s))) (zinsert (delayIrqListTable s) q (list_del work l)), NX_EOK).

(** [raw] is what the memory of the work holds. *)
Definition NX_IRQ_DelayWorkInit s work (raw : NX_IRQ_DelayWork) (hnd a fl : Z) : option (Delay * NX_Error) :=
  if (work =? 0) || (hnd =? 0) then Some (s, NX_EINVAL)
  else
    assert (negb (existsb (fun l => bool_decide (work ∈ l)) (delayIrqListTable s)));;
    Some (with_works s (<[work := mkWork (Z.ldiff fl NX_IRQ_WORK_NOREENTER) hnd a (queue raw)]> (works s)), NX_EOK).

Definition NX_IRQ_DelayWorkCreate (mem : option (Z * NX_IRQ_DelayWork)) s (hnd a fl : Z) : option (Delay * option Z) :=
  match mem with
  | None => Some (s, None)
  | Some (work, raw) =>
      '(s, err) ← NX_IRQ_DelayWorkInit s work raw hnd a fl;
      Some (s, if is_ok err then Some work else None)
  end.

Definition NX_IRQ_DelayWorkDestroy s work : option (Delay * NX_Error) :=
  if work =? 0 then Some (s, NX_EINVAL)
  else _ ← works s !! work; Some (with_works s (delete work (works s)), NX_EOK).

Definition NX_IRQ_DelayWorkHandle s work : option (Delay * NX_Error) :=
  if work =? 0 then Some (s, NX_EINVAL)
  else
    x ← works s !! work;
    if negb (nz (Z.land (flags x) NX_IRQ_WORK_ON_QUEUED)) then Some (s, NX_EFAULT)
    else if (queue x <? 0) || (queue x >=? NX_IRQ_QUEUE_NR) then Some (s, NX_EFAULT)
    else
      let s := IRQ_DelayEventSet s (Z.shiftl 1 (queue x)) in
      Some (with_works s (<[work := set_flags (Z.lor (flags x) NX_IRQ_WORK_PENDING) x]> (works s)), NX_EOK).

Fixpoint raise_all s (l : list Z) : option Delay :=
  match l with
  | [] => Some s
  | work :: l => '(s, _) ← NX_IRQ_DelayWorkHandle s work; raise_all s l
  end.

Section check.
Context {W : Type} (call : Z -> Z -> W -> W * list Z).
Implicit Types (w : W).

Definition IRQ_DelayWorkCheck s w work : option (Delay * W) :=
  x ← works s !! work;
  if nz (Z.land (flags x) NX_IRQ_WORK_PENDING) then
    let f := Z.ldiff (flags x) NX_IRQ_WORK_PENDING in
    let s := with_works s (<[work := set_flags f x]> (works s)) in
    let s := if negb (nz (Z.land f NX_IRQ_WORK_NOREENTER)) then with_enabled s true else s in
    let (w, raised) := call (handler x) (arg x) w in
    s ← raise_all s raised;
    x ← works s !! work;
    Some (if negb (nz (Z.land (flags x) NX_IRQ_WORK_NOREENTER)) then with_enabled s false else s, w)
  else Some (s, w).

Fixpoint Check_list s w (l : list Z) : option (Delay * W) :=
  match l with
  | [] => Some (s, w)
  | work :: l => '(s, w) ← IRQ_DelayWorkCheck s w work; Check_list s w l
  end.

(** The queues from number [i] on, those of the event. *)
Fixpoint Check_queues s w (event i : Z) (qs : list (list Z)) : option (Delay * W) :=
  match qs with
  | [] => Some (s, w)
  | l :: qs =>
      '(s, w) ← (if nz (Z.land event (Z.shiftl 1 i)) then Check_list s w l else Some (s, w));
      Check_queues s w event (i + 1) qs
  end.

Fixpoint DelayQueueCheck_loop (checkTimes : nat) s w : option (Delay * W) :=
  match checkTimes with
  | O => Some (s, w)
  | S checkTimes =>
      let irqEvent := delayIrqEvent s in
      let s := IRQ_DelayEventClear s in
      if irqEvent =? 0 then Some (s, w)
      else
        let s := with_enabled s true in
        '(s, w) ← Check_queues s w irqEvent 0 (delayIrqListTable s);
        DelayQueueCheck_loop checkTimes (with_enabled s false) w
  end.

Definition NX_IRQ_DelayQueueCheck s w : option (Delay * W) := DelayQueueCheck_loop NX_IRQ_DELAY_WORK_CHECK_TIMES s w.
End check.

(** ** [time/clock.c]: the tick of the clock raises the timers and the scheduler *)
Section clock.
Context {T : Type} (NX_TimeGo : T -> T) (NX_TICKS_PER_SECOND boot_core : Z).

Record Clock := mkClock { systemClockTicks : Z; delay : Delay; time : T }.
Implicit Types (k : Clock).

Definition NX_ClockTickGet k : Z := systemClockTicks k.
Definition NX_ClockTickSet k (tick : Z) : Clock := mkClock tick (delay k) (time k).

(** [NX_ClockTickGo] on a core; the two works are static objects with these addresses. *)
Definition NX_ClockTickGo k (timerWork schedWork core : Z) : option Clock :=
  k ← (if boot_core =? core then
         let ticks := u64 (systemClockTicks k + 1) in
         let t := if ticks mod NX_TICKS_PER_SECOND =? 0 then NX_TimeGo (time k) else time k in
         '(d, _) ← NX_IRQ_DelayWorkHandle (delay k) timerWork; Some (mkClock ticks d t)
       else Some k);
  '(d, _) ← NX_IRQ_DelayWorkHandle (delay k) schedWork;
  Some (mkClock (systemClockTicks k) d (time k)).

(** [NX_ClockTickDelay]: [readings] are what the clock shows when it is read; without
    one that ends the loop it spins for ever. *)
Fixpoint ClockTickDelay_loop (start ticks : Z) (readings : list Z) : option NX_Error :=
  match readings with
  | [] => None
  | r :: readings => if u64 (r - start) <? ticks then ClockTickDelay_loop start ticks readings else Some NX_EOK
  end.
Definition NX_ClockTickDelay (ticks : Z) (readings : list Z) : option NX_Error :=
  match readings with [] => None | start :: readings => ClockTickDelay_loop start ticks readings end.

(** [timer] and [sched] are the addresses of the two works, then those of their
    handlers; [NX_HalInitClock] is code of the port. *)
Definition NX_ClockInit (NX_HalInitClock : NX_Error) (raw : NX_IRQ_DelayWork) s (timerWork schedWork timerHandler schedHandler : Z) :
    option (Delay * NX_Error) :=
  '(s, err) ← NX_IRQ_DelayWorkInit s timerWork raw timerHandler 0 NX_IRQ_WORK_NOREENTER;
  if negb (is_ok err) then Some (s, err)
  else
    '(s, err) ← NX_IRQ_DelayWorkInit s schedWork raw schedHandler 0 NX_IRQ_WORK_NOREENTER;
    if negb (is_ok err) then Some (s, err)
    else
      '(s, err) ← NX_IRQ_DelayQueueEnter s NX_IRQ_FAST_QUEUE timerWork;
      if negb (is_ok err) then Some (s, err)
      else
        '(s, err) ← NX_IRQ_DelayQueueEnter s NX_IRQ_SCHED_QUEUE schedWork;
        if negb (is_ok err) then '(s, _) ← NX_IRQ_DelayQueueLeave s NX_IRQ_FAST_QUEUE timerWork; Some (s, err)
        else if negb (is_ok NX_HalInitClock) then
          '(s, _) ← NX_IRQ_DelayQueueLeave s NX_IRQ_FAST_QUEUE timerWork;
          '(s, _) ← NX_IRQ_DelayQueueLeave s NX_IRQ_SCHED_QUEUE schedWork;
          Some (s, NX_HalInitClock)
        else Some (s, NX_EOK).
End clock.

(** ** What holds between interrupts *)
Lemma nz_bit f k : 0 <= k -> nz (Z.land f (2 ^ k)) = Z.testbit f k.
Proof.
  intros Hk. assert (E : Z.land f (2 ^ k) = if Z.testbit f k then 2 ^ k else 0).
  { apply Z.bits_inj'. intros n Hn. rewrite Z.land_spec, Z.pow2_bits_eqb by done. destruct (Z.eqb_spec k n) as [->|Hne].
    - destruct (Z.testbit f n); [by rewrite Z.pow2_bits_true|by rewrite Z.bits_0].
    - rewrite andb_false_r. destruct (Z.testbit f k); [by rewrite Z.pow2_bits_false|by rewrite Z.bits_0]. }
  rewrite E. unfold nz. destruct (Z.testbit f k); [|done]. by rewrite (proj2 (Z.eqb_neq _ _)) by (pose proof (Z.pow_pos_nonneg 2 k); lia).
Qed.

Definition pending (x : NX_IRQ_DelayWork) : bool := Z.testbit (flags x) 31.
Definition queued (x : NX_IRQ_DelayWork) : bool := Z.testbit (flags x) 30.

(** The works on the queues are there and know where they are. *)
Record queues_ok s : Prop := {
  q_length : length (delayIrqListTable s) = Z.to_nat NX_IRQ_QUEUE_NR;
  q_works : forall q l work, zlookup (delayIrqListTable s) q = Some l -> work ∈ l ->
    work <> 0 /\ exists x, works s !! work = Some x /\ queue x = q /\ queued x = true;
  q_nodup : NoDup (concat (delayIrqListTable s))
}.

(** A raised work on a queue is announced by the event, or about to be looked at. *)
Definition announced s (R : list Z) : Prop :=
  forall q l work x, zlookup (delayIrqListTable s) q = Some l -> work ∈ l -> works s !! work = Some x -> pending x = true ->
    Z.testbit (delayIrqEvent s) q = true \/ work ∈ R.

Definition delay_ok s : Prop := queues_ok s /\ announced s [].

(** What raising works changes. *)
Definition later (x x' : NX_IRQ_DelayWork) : Prop :=
  handler x' = handler x /\ arg x' = arg x /\ queue x' = queue x /\ queued x' = queued x /\ (pending x = true -> pending x' = true).
Record grown s s' : Prop := {
  g_table : delayIrqListTable s' = delayIrqListTable s;
  g_event : forall q, Z.testbit (delayIrqEvent s) q = true -> Z.testbit (delayIrqEvent s') q = true;
  g_works : forall work, option_Forall2 later (works s !! work) (works s' !! work)
}.

Lemma later_refl x : later x x.
Proof. by split_and!. Qed.
Lemma grown_refl s : grown s s.
Proof. split; [done|done|]. intros work. destruct (works s !! work); constructor. apply later_refl. Qed.
Lemma grown_trans s1 s2 s3 : grown s1 s2 -> grown s2 s3 -> grown s1 s3.
Proof.
  intros [Ht He Hw] [Ht' He' Hw']. split; [congruence|auto|]. intros work. specialize (Hw work). specialize (Hw' work).
  destruct Hw as [x y Hxy|]; inversion Hw' as [y' z Hyz|]; subst; constructor.
  destruct Hxy as (?&?&?&?&?), Hyz as (?&?&?&?&?). split_and!; try congruence. auto.
Qed.

Lemma grown_lookup s s' work x : grown s s' -> works s !! work = Some x -> exists x', works s' !! work = Some x' /\ later x x'.
Proof. intros Hg Hx. pose proof (g_works _ _ Hg work) as H. rewrite Hx in H. inversion H; subst. by eexists. Qed.

Lemma queues_ok_grown s s' : queues_ok s -> grown s s' -> queues_ok s'.
Proof.
  intros [Hl Hw Hn] Hg. split; rewrite (g_table _ _ Hg); [done| |done]. intros q l work Hq Hin.
  destruct (Hw q l work Hq Hin) as (Hne & x & Hx & <- & Hqd). destruct (grown_lookup _ _ _ _ Hg Hx) as (x' & Hx' & _ & _ & ? & ? & _).
  split; [done|]. exists x'. split; [done|]. split; congruence.
Qed.

Definition on_queue s work : Prop := exists q l, zlookup (delayIrqListTable s) q = Some l /\ work ∈ l.
Definition raised_in s work : Prop := exists x, works s !! work = Some x /\ pending x = true.

Lemma raised_in_grown s s' work : grown s s' -> raised_in s work -> raised_in s' work.
Proof. intros Hg (x & Hx & Hp). destruct (grown_lookup _ _ _ _ Hg Hx) as (x' & Hx' & _ & _ & _ & _ & H). exists x'. auto. Qed.

Lemma Handle_spec s work : queues_ok s -> is_Some (works s !! work) ->
  exists s' err, NX_IRQ_DelayWorkHandle s work = Some (s', err) /\ grown s s' /\ irqEnabled s' = irqEnabled s /\
    (forall R, announced s R -> announced s' R) /\ (on_queue s work -> raised_in s' work).
Proof.
  intros Hok [x Hx]. unfold NX_IRQ_DelayWorkHandle. rewrite Hx.
  assert (Hsame : forall (err : NX_Error), ~ on_queue s work -> exists s' err', Some (s, err) = Some (s', err') /\ grown s s' /\
    irqEnabled s' = irqEnabled s /\ (forall R, announced s R -> announced s' R) /\ (on_queue s work -> raised_in s' work)).
  { intros err Hn. exists s, err. split; [done|]. split; [apply grown_refl|]. done. }
  assert (Hon : on_queue s work -> work <> 0 /\ queued x = true /\ 0 <= queue x < NX_IRQ_QUEUE_NR).
  { intros (q & l & Hq & Hin). destruct (q_works _ Hok q l work Hq Hin) as (Hne & y & Hy & <- & Hqd). assert (y = x) as -> by congruence.
    split; [done|]. split; [done|]. apply zlookup_Some in Hq as [? Hq]. apply lookup_lt_Some in Hq. rewrite (q_length _ Hok) in Hq.
    unfold NX_IRQ_QUEUE_NR in *. lia. }
  destruct (Z.eqb_spec work 0); [apply Hsame; tauto|]. rewrite Some_bind. change NX_IRQ_WORK_ON_QUEUED with (2 ^ 30). rewrite nz_bit by lia.
  fold (queued x). destruct (queued x) eqn:Hqd; cbn [negb]; [|apply Hsame; intros (_ & ? & _)%Hon; done]. destruct (_ || _) eqn:Hr.
  { apply Hsame. intros (_ & _ & Hrange)%Hon. apply orb_true_iff in Hr as [?%Z.ltb_lt|Hr]; [lia|]. rewrite Z.geb_leb in Hr. apply Z.leb_le in Hr. lia. }
  apply orb_false_iff in Hr as [Hr%Z.ltb_ge _]. eexists _, _. split; [reflexivity|].
  set (x' := set_flags _ x). assert (Hl : later x x').
  { unfold later, queued, pending. cbn [x' set_flags flags handler arg queue]. rewrite !Z.lor_spec. unfold NX_IRQ_WORK_PENDING.
    rewrite Z.pow2_bits_false, orb_false_r by lia. split_and!; try done. intros ->. done. }
  split; [split; cbn; [done| |]|split; [done|split]].
  - intros q Hq. by rewrite Z.lor_spec, Hq.
  - intros j. destruct (decide (j = work)) as [->|Hne]; [rewrite Hx, lookup_insert_eq; by constructor|].
    rewrite lookup_insert_ne by done. destruct (works s !! j); constructor. apply later_refl.
  - intros R Hann q l j y Hq Hj Hy Hp. cbn in *. rewrite Z.lor_spec. destruct (decide (j = work)) as [->|Hne].
    + left. destruct (q_works _ Hok q l work Hq Hj) as (_ & x0 & Hx0 & Hq0 & _). assert (x0 = x) as -> by congruence.
      rewrite Z.shiftl_1_l, Hq0, Z.pow2_bits_true, orb_true_r by (rewrite <- Hq0; lia). done.
    + rewrite lookup_insert_ne in Hy by done. destruct (Hann q l j y Hq Hj Hy Hp) as [->|]; [by left|by right].
  - intros _. exists x'. split; [apply lookup_insert_eq|]. unfold pending, x', NX_IRQ_WORK_PENDING. cbn [set_flags flags].
    by rewrite Z.lor_spec, Z.pow2_bits_true, orb_true_r by lia.
Qed.

Lemma raise_all_spec l : forall s, queues_ok s -> Forall (fun work => is_Some (works s !! work)) l ->
  exists s', raise_all s l = Some s' /\ grown s s' /\ irqEnabled s' = irqEnabled s /\ (forall R, announced s R -> announced s' R) /\
    forall work, work ∈ l -> on_queue s work -> raised_in s' work.
Proof.
  induction l as [|work l IH]; intros s Hok Hl.
  { exists s. split; [done|]. split; [apply grown_refl|]. split; [done|]. split; [done|]. by intros ? ?%elem_of_nil. }
  apply Forall_cons in Hl as [Hw Hl]. cbn [raise_all]. destruct (Handle_spec s work Hok Hw) as (s1 & err & -> & Hg & He & Ha & Hr). rewrite Some_bind.
  destruct (IH s1) as (s' & -> & Hg' & He' & Ha' & Hr').
  - by eapply queues_ok_grown.
  - eapply Forall_impl; [exact Hl|]. intros j [x Hx]. destruct (grown_lookup _ _ _ _ Hg Hx) as (x' & Hx' & _). by eexists.
  - exists s'. split; [done|]. split; [by eapply grown_trans|]. split; [congruence|]. split; [auto|].
    intros j [->|Hj]%elem_of_cons Hon; [by eapply raised_in_grown; [exact Hg'|apply Hr]|]. apply Hr'; [done|].
    unfold on_queue in *. by rewrite (g_table _ _ Hg).
Qed.

(** ** Entering and leaving the queues *)
Lemma DelayQueueInit_ok s : delay_ok (NX_IRQ_DelayQueueInit s).
Proof.
  assert (Hno : forall q l work, zlookup (delayIrqListTable (NX_IRQ_DelayQueueInit s)) q = Some l -> ~ work ∈ l).
  { intros q l work [_ Hq]%zlookup_Some. change (replicate 5 (@nil Z) !! Z.to_nat q = Some l) in Hq.
    apply lookup_replicate in Hq as [-> _]. apply not_elem_of_nil. }
  split; [split; [done| |by constructor]|]; intros q l work; intros; exfalso; by eapply Hno.
Qed.

Lemma concat_insert_snoc {A} (t : list (list A)) : forall k l x, t !! k = Some l -> concat (<[k := l ++ [x]]> t) ≡ₚ x :: concat t.
Proof.
  induction t as [|l0 t IH]; intros [|k] l x Hk; try done; cbn in *.
  - injection Hk as ->. rewrite <- app_assoc. cbn. symmetry. apply Permutation_middle.
  - rewrite (IH k l x Hk). symmetry. apply Permutation_middle.
Qed.

Lemma elem_of_queues s q l work : zlookup (delayIrqListTable s) q = Some l -> work ∈ l -> work ∈ concat (delayIrqListTable s).
Proof.
  intros [_ Hq]%zlookup_Some Hin. apply list_elem_of_In, in_concat. exists l. split; apply list_elem_of_In; [|done].
  by eapply list_elem_of_lookup_2.
Qed.

Lemma zlookup_zinsert_any {A} (l : list A) i j x : 0 <= i < Z.of_nat (length l) ->
  zlookup (zinsert l i x) j = if decide (j = i) then Some x else zlookup l j.
Proof.
  intros Hi. destruct (Z.le_gt_cases 0 j); [by apply zlookup_zinsert|]. rewrite decide_False by lia.
  unfold zlookup. by rewrite (proj2 (Z.leb_gt 0 j)) by lia.
Qed.

(** A work that is not raised enters a queue. *)
Lemma DelayQueueEnter_ok s q work x : delay_ok s -> 0 <= q < NX_IRQ_QUEUE_NR -> work <> 0 -> works s !! work = Some x -> pending x = false ->
  work ∉ concat (delayIrqListTable s) -> exists s', NX_IRQ_DelayQueueEnter s q work = Some (s', NX_EOK) /\ delay_ok s'.
Proof.
  intros [[Hl Hw Hn] Ha] Hq Hne Hx Hp Hnot. unfold NX_IRQ_DelayQueueEnter.
  rewrite (proj2 (Z.ltb_ge _ _)), Z.geb_leb, (proj2 (Z.leb_gt _ _)), (proj2 (Z.eqb_neq _ _)) by (done || lia). cbn [orb].
  destruct (zlookup (delayIrqListTable s) q) as [l|] eqn:Hql.
  2: { exfalso. unfold zlookup in Hql. rewrite (proj2 (Z.leb_le 0 q)) in Hql by lia. apply lookup_ge_None in Hql. rewrite Hl in Hql. lia. }
  rewrite Some_bind, bool_decide_eq_false_2, Hx, Some_bind by (intros Hin; by apply Hnot, (elem_of_queues s q l)).
  assert (existsb (fun l => bool_decide (work ∈ l)) (delayIrqListTable s) = false) as ->.
  { apply not_true_is_false. intros (l' & Hl' & Hin%bool_decide_eq_true)%existsb_exists. apply Hnot.
    apply list_elem_of_In, in_concat. exists l'. split; [done|by apply list_elem_of_In]. }
  cbn [negb]. rewrite assert_true. eexists. split; [reflexivity|]. pose proof Hql as [Hq0 Hlk]%zlookup_Some.
  set (x' := mkWork _ _ _ q). assert (Hp' : pending x' = false /\ queued x' = true).
  { unfold pending, queued, x', NX_IRQ_WORK_ON_QUEUED. cbn [flags]. rewrite !Z.lor_spec, Z.pow2_bits_false, Z.pow2_bits_true, orb_true_r, orb_false_r by lia.
    by split. }
  destruct Hp' as [Hp' Hqd]. split; [split|]; cbn [with_table with_works delayIrqListTable works delayIrqEvent].
  - by rewrite length_zinsert.
  - intros q2 l2 j. rewrite zlookup_zinsert_any by (rewrite Hl; unfold NX_IRQ_QUEUE_NR in *; lia). case_decide as E.
    + intros [= <-]. subst q2. intros Hj. apply elem_of_app in Hj as [Hj|Hj]; [|apply list_elem_of_singleton in Hj as ->].
      * destruct (Hw q l j Hql Hj) as (? & y & Hy & ? & ?). split; [done|]. exists y. rewrite lookup_insert_ne; [done|].
        intros ->. by apply Hnot, (elem_of_queues s q l).
      * split; [done|]. exists x'. by rewrite lookup_insert_eq.
    + intros Hq2 Hj. destruct (Hw q2 l2 j Hq2 Hj) as (? & y & Hy & ? & ?). split; [done|]. exists y. rewrite lookup_insert_ne; [done|].
      intros ->. by apply Hnot, (elem_of_queues s q2 l2).
  - unfold zinsert. rewrite concat_insert_snoc by done. by constructor.
  - intros q2 l2 j y. cbn [with_table with_works delayIrqListTable works delayIrqEvent]. rewrite zlookup_zinsert_any by (rewrite Hl; unfold NX_IRQ_QUEUE_NR in *; lia).
    destruct (decide (j = work)) as [->|Hjw]; [rewrite lookup_insert_eq; intros _ _ [= <-]; congruence|].
    rewrite lookup_insert_ne by done. case_decide as E; [intros [= <-]; subst q2|by apply Ha].
    intros [Hj|?%list_elem_of_singleton]%elem_of_app; [|done]. by apply (Ha q l).
Qed.

Section running.
Context {W : Type} (call : Z -> Z -> W -> W * list Z).

(** What happens while the queues are checked. *)
Inductive event := Run (h a : Z) | Raise (work : Z).
Implicit Types (w : W) (log : list event).

(** The handlers with a record of their calls and of the works raised. *)
Definition logged (h a : Z) (wl : W * list event) : (W * list event) * list Z :=
  let (w, raised) := call h a wl.1 in ((w, wl.2 ++ Run h a :: (Raise <$> raised)), raised).

(** Only works that exist are raised. *)
Definition raises_known s : Prop := forall h a w, Forall (fun work => is_Some (works s !! work)) (call h a w).2.
Definition quiet : Prop := forall h a w, (call h a w).2 = [].

Lemma raises_known_dom s s' : raises_known s -> (forall work, is_Some (works s !! work) -> is_Some (works s' !! work)) -> raises_known s'.
Proof. intros Hk Hd h a w. eapply Forall_impl; [apply Hk|]. intros work. apply Hd. Qed.

(** The calls for the pending works of a list. *)
Definition calls s (l : list Z) : list event :=
  omap (fun work => x ← works s !! work; if pending x then Some (Run (handler x) (arg x)) else None) l.

(** Each work on a queue that was raised has been run after, or still is raised. *)
Definition served s log : Prop := forall work x l1 l2, on_queue s work -> works s !! work = Some x -> log = l1 ++ Raise work :: l2 ->
  pending x = true \/ Run (handler x) (arg x) ∈ l2.

(** After a work was looked at. *)
Record checked s work s' : Prop := {
  c_table : delayIrqListTable s' = delayIrqListTable s;
  c_queues : queues_ok s';
  c_known : raises_known s';
  c_announced : forall R, announced s (work :: R) -> announced s' R;
  c_dom : forall j, is_Some (works s !! j) -> is_Some (works s' !! j);
  c_other : forall j x, j <> work -> works s !! j = Some x -> exists x', works s' !! j = Some x' /\ later x x'
}.

Definition cleared x : NX_IRQ_DelayWork := set_flags (Z.ldiff (flags x) NX_IRQ_WORK_PENDING) x.

Lemma cleared_bits x : pending (cleared x) = false /\ queued (cleared x) = queued x.
Proof.
  unfold pending, queued, cleared, NX_IRQ_WORK_PENDING. cbn [set_flags flags]. rewrite !Z.ldiff_spec, Z.pow2_bits_true, Z.pow2_bits_false by lia.
  cbn [negb]. by rewrite andb_false_r, andb_true_r.
Qed.

Lemma clear_ok s work x b : queues_ok s -> raises_known s -> works s !! work = Some x ->
  let s1 := with_enabled (with_works s (<[work := cleared x]> (works s))) b in
  queues_ok s1 /\ raises_known s1 /\ (forall R, announced s (work :: R) -> announced s1 R) /\
  (forall j y, j <> work -> works s !! j = Some y -> works s1 !! j = Some y).
Proof.
  intros [Hl Hw Hn] Hk Hx s1. destruct (cleared_bits x) as [Hp Hq]. split_and!.
  - split; [done| |done]. intros q l j Hql Hj. destruct (Hw q l j Hql Hj) as (Hne & y & Hy & ? & ?). split; [done|]. cbn [s1 with_enabled with_works works].
    destruct (decide (j = work)) as [->|?]; [|rewrite lookup_insert_ne by done; by exists y].
    rewrite lookup_insert_eq. exists (cleared x). assert (y = x) as -> by congruence. split; [done|]. split; [done|]. congruence.
  - eapply raises_known_dom; [exact Hk|]. intros j Hj. cbn. destruct (decide (j = work)) as [->|?]; [rewrite lookup_insert_eq; by eexists|].
    by rewrite lookup_insert_ne.
  - intros R Ha q l j y Hql Hj Hy Hpy. cbn [s1 with_enabled with_works works delayIrqListTable delayIrqEvent] in *.
    destruct (decide (j = work)) as [->|?]; [rewrite lookup_insert_eq in Hy; congruence|].
    rewrite lookup_insert_ne in Hy by done. destruct (Ha q l j y Hql Hj Hy Hpy) as [?|[?|?]%elem_of_cons]; [by left|done|by right].
  - intros j y Hne Hy. cbn. by rewrite lookup_insert_ne.
Qed.

Lemma split_raise log0 log1 work l1 l2 : log0 ++ log1 = l1 ++ Raise work :: l2 ->
  (exists l2', log0 = l1 ++ Raise work :: l2' /\ l2 = l2' ++ log1) \/ Raise work ∈ log1.
Proof.
  intros [(k & -> & E)|(k & -> & E)]%app_eq_inv; [|right; rewrite E; set_solver].
  destruct k as [|e k]; cbn in E; [right; rewrite <- E; left|]. injection E as <- ->. left. by exists k.
Qed.

(** A work is run: what is left to show of it is in the record. *)
Lemma served_run s s' log0 work x (raised : list Z) : queues_ok s -> served s log0 -> works s !! work = Some x ->
  delayIrqListTable s' = delayIrqListTable s ->
  (forall j y, works s !! j = Some y -> exists y', works s' !! j = Some y' /\ handler y' = handler y /\ arg y' = arg y /\
    (j <> work -> pending y = true -> pending y' = true)) ->
  (forall j, j ∈ raised -> on_queue s j -> raised_in s' j) -> served s' (log0 ++ Run (handler x) (arg x) :: (Raise <$> raised)).
Proof.
  intros Hok Hs Hx Ht Hw Hr j y' l1 l2 Hon Hy' E. unfold on_queue in Hon. rewrite Ht in Hon.
  assert (exists y, works s !! j = Some y) as [y Hy].
  { destruct Hon as (q & l & Hq & Hin). destruct (q_works _ Hok q l j Hq Hin) as (_ & y & Hy & _). by exists y. }
  destruct (Hw j y Hy) as (z & Hz & Hh & Ha & Hp). assert (z = y') as -> by congruence.
  destruct (split_raise _ _ _ _ _ E) as [(k & Ek & ->)|[?|Hin]%elem_of_cons]; [|done|].
  - destruct (Hs j y l1 k Hon Hy Ek) as [Hpy|Hk]; [|right; rewrite Hh, Ha; set_solver].
    destruct (decide (j = work)) as [->|Hne]; [|left; by apply Hp]. right. assert (y = x) as -> by congruence. rewrite Hh, Ha. set_solver.
  - apply list_elem_of_fmap in Hin as (j' & [= <-] & Hin). left. destruct (Hr j Hin Hon) as (z & Hz' & Hpz). congruence.
Qed.

Lemma WorkCheck_spec s w log work : queues_ok s -> raises_known s -> is_Some (works s !! work) ->
  exists s' w' log', IRQ_DelayWorkCheck logged s (w, log) work = Some (s', (w', log ++ log')) /\ checked s work s' /\
    (forall x, works s !! work = Some x -> pending x = true -> Run (handler x) (arg x) ∈ log') /\
    (forall log0, served s log0 -> served s' (log0 ++ log')) /\
    (quiet -> log' = calls s [work] /\ delayIrqEvent s' = delayIrqEvent s /\ forall j, j <> work -> works s' !! j = works s !! j).
Proof.
  intros Hok Hk [x Hx]. unfold IRQ_DelayWorkCheck, calls. cbn [omap list_omap]. rewrite Hx, !Some_bind.
  unfold NX_IRQ_WORK_PENDING at 1. rewrite nz_bit by lia. fold (pending x). destruct (pending x) eqn:Hp.
  2: { exists s, w, []. rewrite app_nil_r. split; [done|]. split; [|split; [congruence|split; [|done]]].
       - split; [done..| |done|].
         + intros R Ha q l j y Hql Hj Hy Hpy. destruct (Ha q l j y Hql Hj Hy Hpy) as [?|[->|?]%elem_of_cons]; [by left|congruence|by right].
         + intros j y _ Hy. exists y. split; [done|apply later_refl].
       - intros log0. by rewrite app_nil_r. }
  change (set_flags (Z.ldiff (flags x) NX_IRQ_WORK_PENDING) x) with (cleared x). set (b := negb _).
  set (s0 := with_works s _). assert (exists b', (if b then with_enabled s0 true else s0) = with_enabled s0 b') as [b' ->].
  { destruct b; [by exists true|exists (irqEnabled s0); by destruct s0]. }
  destruct (clear_ok s work x b' Hok Hk Hx) as (Hok1 & Hk1 & Ha1 & Ho1). fold s0 in Hok1, Hk1, Ha1, Ho1.
  unfold logged. cbn [fst snd]. pose proof (Hk1 (handler x) (arg x) w) as Hraised. assert (Hq : quiet -> (call (handler x) (arg x) w).2 = []) by auto.
  destruct (call (handler x) (arg x) w) as [w' raised]. cbn [snd] in *.
  destruct (raise_all_spec raised _ Hok1 Hraised) as (s2 & Hr & Hg & _ & Ha2 & Hin2). rewrite Hr, Some_bind.
  assert (Hlook : forall j y, works s !! j = Some y -> exists y', works s2 !! j = Some y' /\ later (if bool_decide (j = work) then cleared x else y) y').
  { intros j y Hy. apply (grown_lookup _ _ j _ Hg). case_bool_decide as E; [subst j; apply lookup_insert_eq|by apply Ho1]. }
  destruct (Hlook work x Hx) as (x2 & Hx2 & _). rewrite Hx2, Some_bind. set (b2 := negb _). set (s3 := if b2 then with_enabled s2 false else s2).
  assert (delayIrqListTable s3 = delayIrqListTable s2 /\ works s3 = works s2 /\ delayIrqEvent s3 = delayIrqEvent s2) as (Et & Ew & Ee)
    by (by subst s3; destruct b2).
  assert (Hdom : forall j, is_Some (works s !! j) -> is_Some (works s3 !! j)).
  { intros j [y Hy]. rewrite Ew. destruct (Hlook j y Hy) as (y' & Hy' & _). by eexists. }
  exists s3, w', (Run (handler x) (arg x) :: (Raise <$> raised)). split; [done|]. split; [|split; [|split]].
  - split.
    + rewrite Et. exact (g_table _ _ Hg).
    + destruct (queues_ok_grown _ _ Hok1 Hg) as [? ? ?]. split; rewrite ?Et, ?Ew; done.
    + by apply (raises_known_dom s).
    + intros R Ha. pose proof (Ha2 R (Ha1 R Ha)) as H. unfold announced in *. by rewrite Et, Ew, Ee.
    + exact Hdom.
    + intros j y Hne Hy. rewrite Ew. destruct (Hlook j y Hy) as (y' & Hy' & Hl). rewrite bool_decide_eq_false_2 in Hl by done. by exists y'.
  - intros y [= <-] _. left.
  - intros log0 Hs. apply (served_run s _ _ work x); [done|done|done|by rewrite Et, (g_table _ _ Hg)| |].
    + intros j y Hy. rewrite Ew. destruct (Hlook j y Hy) as (y' & Hy' & Hh & Ha & _ & _ & Hpy). exists y'. split; [done|].
      case_bool_decide as E; [|done]. subst j. assert (y = x) as -> by congruence. done.
    + intros j Hj Hon. destruct (Hin2 j Hj Hon) as (y & Hy & Hpy). exists y. by rewrite Ew.
  - intros Hquiet. specialize (Hq Hquiet). subst raised. injection Hr as <-. rewrite Ee, Ew. split; [done|]. split; [done|].
    intros j Hne. cbn. by rewrite lookup_insert_ne.
Qed.

(** After the works of a list were looked at, in their order, with their calls. *)
Record passed s (l : list Z) s' log : Prop := {
  p_table : delayIrqListTable s' = delayIrqListTable s;
  p_queues : queues_ok s';
  p_known : raises_known s';
  p_dom : forall j, is_Some (works s !! j) -> is_Some (works s' !! j);
  p_announced : forall R, announced s (l ++ R) -> announced s' R;
  p_other : forall j x, j ∉ l -> works s !! j = Some x -> exists x', works s' !! j = Some x' /\ later x x';
  p_ran : forall work x, work ∈ l -> works s !! work = Some x -> pending x = true -> Run (handler x) (arg x) ∈ log;
  p_served : forall log0, served s log0 -> served s' (log0 ++ log);
  p_quiet : quiet -> NoDup l -> log = calls s l /\ delayIrqEvent s' = delayIrqEvent s /\ forall j, j ∉ l -> works s' !! j = works s !! j
}.

Lemma passed_nil s : queues_ok s -> raises_known s -> passed s [] s [].
Proof. split; try done; [intros j x _ Hx; exists x; split; [done|apply later_refl]|by intros ? ? ?%elem_of_nil|].
  intros log0. by rewrite app_nil_r.
Qed.

Lemma calls_ext s s' l : (forall j, j ∈ l -> works s' !! j = works s !! j) -> calls s' l = calls s l.
Proof.
  induction l as [|j l IH]; intros H; [done|]. unfold calls in *. cbn [omap list_omap]. rewrite (H j) by left. rewrite IH; [done|].
  intros k Hk. apply H. by right.
Qed.

Lemma calls_app s l1 l2 : calls s (l1 ++ l2) = calls s l1 ++ calls s l2.
Proof. apply omap_app. Qed.

Lemma passed_app s l1 s1 log1 l2 s2 log2 : passed s l1 s1 log1 -> passed s1 l2 s2 log2 -> passed s (l1 ++ l2) s2 (log1 ++ log2).
Proof.
  intros H1 H2. split.
  - rewrite (p_table _ _ _ _ H2). apply H1.
  - apply H2.
  - apply H2.
  - intros j Hj. by apply (p_dom _ _ _ _ H2), (p_dom _ _ _ _ H1).
  - intros R Ha. apply (p_announced _ _ _ _ H2), (p_announced _ _ _ _ H1). by rewrite app_assoc.
  - intros j x [Hj1 Hj2]%not_elem_of_app Hx. destruct (p_other _ _ _ _ H1 j x Hj1 Hx) as (x1 & Hx1 & ?&?&?&?&?).
    destruct (p_other _ _ _ _ H2 j x1 Hj2 Hx1) as (x2 & Hx2 & ?&?&?&?&?). exists x2. split; [done|]. split_and!; try congruence. auto.
  - intros work x Hin Hx Hp. apply elem_of_app. destruct (decide (work ∈ l1)) as [Hin1|Hn1]; [left; by apply (p_ran _ _ _ _ H1 work)|right].
    apply elem_of_app in Hin as [?|Hin]; [done|]. destruct (p_other _ _ _ _ H1 work x Hn1 Hx) as (x1 & Hx1 & <- & <- & _ & _ & Hlater).
    apply (p_ran _ _ _ _ H2 work); auto.
  - intros log0 Hs. rewrite app_assoc. by apply (p_served _ _ _ _ H2), (p_served _ _ _ _ H1).
  - intros Hq (Hnd1 & Hdis & Hnd2)%NoDup_app. destruct (p_quiet _ _ _ _ H1 Hq Hnd1) as (-> & He1 & Hw1).
    destruct (p_quiet _ _ _ _ H2 Hq Hnd2) as (-> & He2 & Hw2). split; [|split; [congruence|]].
    + rewrite calls_app. f_equal. apply calls_ext. intros j Hj. apply Hw1. intros Hj1. by apply (Hdis j).
    + intros j [Hj1 Hj2]%not_elem_of_app. by rewrite Hw2, Hw1.
Qed.

Lemma passed_one s w log work : queues_ok s -> raises_known s -> is_Some (works s !! work) ->
  exists s' w' log', IRQ_DelayWorkCheck logged s (w, log) work = Some (s', (w', log ++ log')) /\ passed s [work] s' log'.
Proof.
  intros Hok Hk Hw. destruct (WorkCheck_spec s w log work Hok Hk Hw) as (s' & w' & log' & Hrun & Hc & Hran & Hs & Hq). exists s', w', log'.
  split; [done|]. split; try apply Hc.
  - intros j x [Hj _]%not_elem_of_cons Hx. by apply (c_other _ _ _ Hc).
  - intros j x ->%list_elem_of_singleton. apply Hran.
  - exact Hs.
  - intros Hquiet _. destruct (Hq Hquiet) as (-> & He & Hj). split; [done|]. split; [done|]. intros j [Hn _]%not_elem_of_cons. by apply Hj.
Qed.

Lemma Check_list_spec l : forall s w log, queues_ok s -> raises_known s -> Forall (fun work => is_Some (works s !! work)) l ->
  exists s' w' log', Check_list logged s (w, log) l = Some (s', (w', log ++ log')) /\ passed s l s' log'.
Proof.
  induction l as [|work l IH]; intros s w log Hok Hk Hl.
  { exists s, w, []. rewrite app_nil_r. split; [done|]. by apply passed_nil. }
  apply Forall_cons in Hl as [Hw Hl]. destruct (passed_one s w log work Hok Hk Hw) as (s1 & w1 & log1 & Hrun & Hp1). cbn [Check_list]. rewrite Hrun, Some_bind.
  destruct (IH s1 w1 (log ++ log1)) as (s2 & w2 & log2 & Hrun2 & Hp2); [apply Hp1|apply Hp1|eapply Forall_impl; [exact Hl|apply Hp1]|].
  exists s2, w2, (log1 ++ log2). rewrite Hrun2, app_assoc. split; [done|]. by apply (passed_app s [work] s1 log1).
Qed.

(** The works of the queues the event names. *)
Fixpoint selected (event i : Z) (qs : list (list Z)) : list Z :=
  match qs with [] => [] | l :: qs => (if Z.testbit event i then l else []) ++ selected event (i + 1) qs end.

Lemma Check_queues_spec event qs : forall i s w log, 0 <= i -> queues_ok s -> raises_known s ->
  Forall (Forall (fun work => is_Some (works s !! work))) qs ->
  exists s' w' log', Check_queues logged s (w, log) event i qs = Some (s', (w', log ++ log')) /\ passed s (selected event i qs) s' log'.
Proof.
  induction qs as [|l qs IH]; intros i s w log Hi Hok Hk Hl.
  { exists s, w, []. rewrite app_nil_r. split; [done|]. by apply passed_nil. }
  apply Forall_cons in Hl as [Hw Hl]. cbn [Check_queues selected]. rewrite Z.shiftl_1_l, nz_bit by done.
  assert (exists s1 w1 log1, (if Z.testbit event i then Check_list logged s (w, log) l else Some (s, (w, log))) = Some (s1, (w1, log ++ log1)) /\
    passed s (if Z.testbit event i then l else []) s1 log1) as (s1 & w1 & log1 & Hrun & Hp1).
  { destruct (Z.testbit event i); [by apply Check_list_spec|]. exists s, w, []. rewrite app_nil_r. split; [done|]. by apply passed_nil. }
  rewrite Hrun, Some_bind. destruct (IH (i + 1) s1 w1 (log ++ log1)) as (s2 & w2 & log2 & Hrun2 & Hp2); [lia|apply Hp1|apply Hp1| |].
  - eapply Forall_impl; [exact Hl|]. intros l' Hl'. eapply Forall_impl; [exact Hl'|apply Hp1].
  - exists s2, w2, (log1 ++ log2). rewrite Hrun2, app_assoc. split; [done|]. by apply (passed_app s _ s1 log1).
Qed.

Lemma selected_sublist event qs : forall i, selected event i qs `sublist_of` concat qs.
Proof. induction qs as [|l qs IH]; intros i; cbn; [done|]. apply sublist_app; [destruct (Z.testbit event i); [done|apply sublist_nil_l]|apply IH]. Qed.

Lemma elem_of_selected event qs : forall i work, work ∈ selected event i qs <->
  exists (k : nat) l, qs !! k = Some l /\ Z.testbit event (i + k) = true /\ work ∈ l.
Proof.
  induction qs as [|l qs IH]; intros i work; cbn [selected]; [split; [by intros ?%elem_of_nil|intros (k & l & ? & _); by destruct k]|].
  rewrite elem_of_app, IH. split.
  - intros [Hin|(k & l' & Hl & Hb & Hin)].
    + destruct (Z.testbit event i) eqn:Hb; [|by apply elem_of_nil in Hin]. exists 0%nat, l. split; [done|]. by rewrite Z.add_0_r.
    + exists (S k), l'. split; [done|]. split; [|done]. by replace (i + S k) with (i + 1 + k) by lia.
  - intros ([|k] & l' & Hl & Hb & Hin); cbn in Hl.
    + injection Hl as <-. rewrite Z.add_0_r in Hb. left. by rewrite Hb.
    + right. exists k, l'. split; [done|]. split; [|done]. by replace (i + 1 + k) with (i + S k) by lia.
Qed.

(** Among the works of all queues, only those the event names can be pending. *)
Lemma pending_selected s work x : announced s [] -> work ∈ concat (delayIrqListTable s) -> works s !! work = Some x -> pending x = true ->
  work ∈ selected (delayIrqEvent s) 0 (delayIrqListTable s).
Proof.
  intros Ha Hin Hx Hp. apply list_elem_of_In, in_concat in Hin as (l & Hl%list_elem_of_In & Hin%list_elem_of_In).
  apply list_elem_of_lookup in Hl as [k Hk]. apply elem_of_selected. exists k, l. split; [done|]. split; [|done].
  assert (Hz : zlookup (delayIrqListTable s) k = Some l) by (apply zlookup_Some; split; [lia|by rewrite Nat2Z.id]).
  by destruct (Ha k l work x Hz Hin Hx Hp) as [?|?%elem_of_nil].
Qed.

Lemma calls_none s l : (forall work x, work ∈ l -> works s !! work = Some x -> pending x = false) -> calls s l = [].
Proof.
  induction l as [|work l IH]; intros H; [done|]. unfold calls in *. cbn [omap list_omap]. rewrite IH by (intros j x Hj; apply H; by right).
  destruct (works s !! work) as [x|] eqn:Hx; [|done]. rewrite Some_bind, (H work x) by (done || left). done.
Qed.

Lemma calls_selected_from s event qs : forall i,
  (forall (k : nat) l work x, qs !! k = Some l -> Z.testbit event (i + k) = false -> work ∈ l -> works s !! work = Some x -> pending x = false) ->
  calls s (selected event i qs) = calls s (concat qs).
Proof.
  induction qs as [|l qs IH]; intros i H; [done|]. cbn [selected concat]. rewrite !calls_app, IH.
  - f_equal. destruct (Z.testbit event i) eqn:Hb; [done|]. symmetry. apply calls_none. intros work x Hin Hx.
    apply (H 0%nat l work x); [done|by rewrite Z.add_0_r|done|done].
  - intros k l' work x Hl Hb. apply (H (S k) l'); [done|]. by replace (i + S k) with (i + 1 + k) by lia.
Qed.

Lemma calls_selected s : announced s [] -> calls s (selected (delayIrqEvent s) 0 (delayIrqListTable s)) = calls s (concat (delayIrqListTable s)).
Proof.
  intros Ha. apply calls_selected_from. intros k l work x Hk Hb Hin Hx. apply not_true_is_false. intros Hp.
  assert (Hz : zlookup (delayIrqListTable s) k = Some l) by (apply zlookup_Some; split; [lia|by rewrite Nat2Z.id]).
  destruct (Ha k l work x Hz Hin Hx Hp) as [E|?%elem_of_nil]; [|done]. rewrite Z.add_0_l in Hb. congruence.
Qed.

(** One round: the event is taken, and the works it names are looked at. *)
Lemma round_spec s w log b : delay_ok s -> raises_known s ->
  exists s' w' log', Check_queues logged (with_enabled (IRQ_DelayEventClear s) b) (w, log) (delayIrqEvent s) 0 (delayIrqListTable s) =
      Some (s', (w', log ++ log')) /\ delay_ok s' /\ raises_known s' /\ delayIrqListTable s' = delayIrqListTable s /\
    (forall work x, work ∈ concat (delayIrqListTable s) -> works s !! work = Some x -> pending x = true -> Run (handler x) (arg x) ∈ log') /\
    (forall log0, served s log0 -> served s' (log0 ++ log')) /\
    (quiet -> log' = calls s (concat (delayIrqListTable s)) /\ delayIrqEvent s' = 0).
Proof.
  intros [Hok Ha] Hk. set (s1 := with_enabled _ b). assert (Hok1 : queues_ok s1) by (destruct Hok; by split).
  destruct (Check_queues_spec (delayIrqEvent s) (delayIrqListTable s) 0 s1 w log ltac:(lia) Hok1 Hk) as (s' & w' & log' & Hrun & Hp).
  { apply Forall_forall. intros l Hl. apply Forall_forall. intros work Hin. apply list_elem_of_lookup in Hl as [k Hk'].
    destruct (q_works _ Hok k l work) as (_ & x & Hx & _); [apply zlookup_Some; split; [lia|by rewrite Nat2Z.id]|done|by eexists]. }
  exists s', w', log'. split; [exact Hrun|]. split; [split; [apply Hp|]|split; [apply Hp|split; [apply Hp|split; [|split]]]].
  - apply (p_announced _ _ _ _ Hp). intros q l work x Hq Hin Hx Hpx. right. rewrite app_nil_r. apply (pending_selected s work x); try done.
    apply list_elem_of_In, in_concat. exists l. split; apply list_elem_of_In; [|done]. apply zlookup_Some in Hq as [_ Hq]. by eapply list_elem_of_lookup_2.
  - intros work x Hin Hx Hpx. apply (p_ran _ _ _ _ Hp work x); [by apply (pending_selected s work x)|done|done].
  - exact (p_served _ _ _ _ Hp).
  - intros Hq. destruct (p_quiet _ _ _ _ Hp Hq) as (-> & He & _); [eapply sublist_NoDup; [apply (q_nodup _ Hok)|apply selected_sublist]|].
    split; [|exact He]. rewrite <- (calls_selected s Ha). by apply calls_ext.
Qed.

(** Without an event there is nothing to do. *)
Lemma loop_idle n s w log : delayIrqEvent s = 0 -> DelayQueueCheck_loop logged n s (w, log) = Some (s, (w, log)).
Proof. destruct n as [|n]; [done|]. cbn [DelayQueueCheck_loop]. intros He. rewrite He. cbn. destruct s; cbn in *. by subst. Qed.

Lemma event_zero s work x : announced s [] -> delayIrqEvent s = 0 -> work ∈ concat (delayIrqListTable s) -> works s !! work = Some x -> pending x = false.
Proof.
  intros Ha He Hin Hx. apply not_true_is_false. intros Hp. pose proof (pending_selected s work x Ha Hin Hx Hp) as H.
  rewrite He in H. apply elem_of_selected in H as (k & l & _ & Hb & _). by rewrite Z.bits_0 in Hb.
Qed.

Lemma loop_spec n : forall s w log, delay_ok s -> raises_known s -> irqEnabled s = false ->
  exists s' w' log', DelayQueueCheck_loop logged n s (w, log) = Some (s', (w', log ++ log')) /\ delay_ok s' /\ irqEnabled s' = false /\
    delayIrqListTable s' = delayIrqListTable s /\
    ((0 < n)%nat -> forall work x, work ∈ concat (delayIrqListTable s) -> works s !! work = Some x -> pending x = true -> Run (handler x) (arg x) ∈ log') /\
    (forall log0, served s log0 -> served s' (log0 ++ log')) /\
    ((0 < n)%nat -> quiet -> log' = calls s (concat (delayIrqListTable s)) /\ delayIrqEvent s' = 0).
Proof.
  induction n as [|n IH]; intros s w log Hok Hk Hen.
  { exists s, w, []. rewrite app_nil_r. do 4 (split; [done|]). split; [lia|]. split; [|lia]. intros log0. by rewrite app_nil_r. }
  destruct (Z.eq_dec (delayIrqEvent s) 0) as [He|He].
  { pose proof (event_zero s) as Hz. exists s, w, []. rewrite app_nil_r. split; [by apply loop_idle|]. do 3 (split; [done|]). split.
    - intros _ work x Hin Hx Hp. rewrite (Hz work x) in Hp; [done|apply Hok|done..].
    - split; [intros log0; by rewrite app_nil_r|]. intros _ _. split; [|done]. symmetry. apply calls_none. intros work x Hin Hx. apply (Hz work x); [apply Hok|done..]. }
  cbn [DelayQueueCheck_loop]. rewrite (proj2 (Z.eqb_neq _ _)) by done.
  change (delayIrqListTable (with_enabled (IRQ_DelayEventClear s) true)) with (delayIrqListTable s).
  destruct (round_spec s w log true Hok Hk) as (s1 & w1 & log1 & Hrun & Hok1 & Hk1 & Ht1 & Hran & Hs & Hq). rewrite Hrun, Some_bind.
  assert (Hok2 : delay_ok (with_enabled s1 false)) by (destruct Hok1 as [[] ?]; split; [by split|done]).
  destruct (IH (with_enabled s1 false) w1 (log ++ log1) Hok2 Hk1 eq_refl) as (s2 & w2 & log2 & Hrun2 & Hok' & Hen' & Ht2 & _ & Hs2 & _).
  exists s2, w2, (log1 ++ log2). rewrite Hrun2, app_assoc. split; [done|]. split; [done|]. split; [done|]. split; [by rewrite Ht2|]. split.
  - intros _ work x Hin Hx Hp. apply elem_of_app. left. by apply (Hran work).
  - split; [intros log0 Hs0; rewrite app_assoc; by apply Hs2, Hs|]. intros _ Hquiet. destruct (Hq Hquiet) as [-> He1]. rewrite loop_idle in Hrun2 by done. injection Hrun2 as <- _ E.
    split; [|done]. rewrite <- app_nil_r in E at 1. apply app_inv_head in E as <-. by rewrite app_nil_r.
Qed.

(** C39: Delayed work.  When every raised work on a queue is announced, checking the
    queues returns with the interrupts off and every work that was raised before
    has been run; a work raised meanwhile has been run after that, or is still raised and
    announced for the next check.  If the handlers raise nothing, exactly the raised works are
    run, once each, queue by queue in their order, and nothing stays announced. *)
Theorem delayed_works_run s w : delay_ok s -> raises_known s -> irqEnabled s = false ->
  exists s' w' log, NX_IRQ_DelayQueueCheck logged s (w, []) = Some (s', (w', log)) /\ delay_ok s' /\ irqEnabled s' = false /\
    (forall work x, work ∈ concat (delayIrqListTable s) -> works s !! work = Some x -> pending x = true -> Run (handler x) (arg x) ∈ log) /\
    (forall work x l1 l2, on_queue s' work -> works s' !! work = Some x -> log = l1 ++ Raise work :: l2 ->
      pending x = true \/ Run (handler x) (arg x) ∈ l2) /\
    (quiet -> log = calls s (concat (delayIrqListTable s)) /\ delayIrqEvent s' = 0).
Proof.
  intros Hok Hk Hen. destruct (loop_spec NX_IRQ_DELAY_WORK_CHECK_TIMES s w [] Hok Hk Hen) as (s' & w' & log & Hrun & Hok' & Hen' & _ & Hran & Hs & Hq).
  exists s', w', log. split; [exact Hrun|]. split; [done|]. split; [done|]. split; [apply Hran; unfold NX_IRQ_DELAY_WORK_CHECK_TIMES; lia|].
  split; [|apply Hq; unfold NX_IRQ_DELAY_WORK_CHECK_TIMES; lia]. apply (Hs []). intros work x l1 l2 _ _ E. by apply app_cons_not_nil in E.
Qed.
End running.

(** ** Two works: 100 on the queue of the scheduler, 200 on the fast one *)
Definition demo_start : Delay :=
  NX_IRQ_DelayQueueInit (mkDelay (<[100 := mkWork 0 7 1 0]> (<[200 := mkWork 0 8 2 0]> ∅)) [] 0 false).
Definition demo_delay : Delay :=
  default demo_start ('(s, _) ← NX_IRQ_DelayQueueEnter demo_start NX_IRQ_SCHED_QUEUE 100; '(s, _) ← NX_IRQ_DelayQueueEnter s NX_IRQ_FAST_QUEUE 200;
    raise_all s [100; 200]).

Lemma demo_delay_ok : delay_ok demo_delay.
Proof.
  destruct (DelayQueueEnter_ok demo_start NX_IRQ_SCHED_QUEUE 100 (mkWork 0 7 1 0) (DelayQueueInit_ok _)) as (s1 & E1 & H1);
    [done|done|reflexivity|reflexivity|apply not_elem_of_nil|].
  assert (s1 = default demo_start (fst <$> NX_IRQ_DelayQueueEnter demo_start NX_IRQ_SCHED_QUEUE 100)) as Es1 by (by rewrite E1).
  destruct (DelayQueueEnter_ok s1 NX_IRQ_FAST_QUEUE 200 (mkWork 0 8 2 0) H1) as (s2 & E2 & H2);
    [done|done|rewrite Es1; reflexivity|reflexivity|rewrite Es1; vm_compute; set_solver|].
  assert (s2 = default demo_start (fst <$> NX_IRQ_DelayQueueEnter s1 NX_IRQ_FAST_QUEUE 200)) as Es2 by (by rewrite E2).
  destruct (raise_all_spec [100; 200] s2 (proj1 H2)) as (s3 & E3 & Hg & _ & Ha & _).
  { rewrite Es2, Es1. repeat constructor; vm_compute; by eexists. }
  unfold demo_delay. rewrite E1, Some_bind, E2, Some_bind, E3. split; [by eapply queues_ok_grown; [apply H2|]|apply Ha, H2].
Qed.

Definition demo_call (h a : Z) (w : Z) : Z * list Z := (w + a, []).

Lemma delayed_works_run_witness :
  exists s', NX_IRQ_DelayQueueCheck (logged demo_call) demo_delay (0, []) = Some (s', (3, [Run 8 2; Run 7 1])) /\ delayIrqEvent s' = 0.
Proof.
  destruct (delayed_works_run demo_call demo_delay 0 demo_delay_ok) as (s' & w' & log & Hrun & _ & _ & _ & _ & Hq).
  - intros h a w. constructor.
  - vm_compute. reflexivity.
  - destruct Hq as [-> He]; [intros h a w; reflexivity|]. exists s'. split; [|exact He].
    assert ((NX_IRQ_DelayQueueCheck (logged demo_call) demo_delay (0, []) ≫= fun x => Some x.2) = Some (3, [Run 8 2; Run 7 1])) as E by (vm_compute; reflexivity).
    rewrite Hrun, Some_bind in E. cbn [snd] in E. rewrite Hrun. congruence.
Defined.

(** A work that is raised, taken off its queue and put on another is raised, but
    nothing announces it: it is not run. *)
Example moved_work_is_lost :
  ('(s, _) ← NX_IRQ_DelayQueueLeave demo_delay NX_IRQ_SCHED_QUEUE 100; '(s, _) ← NX_IRQ_DelayQueueEnter s 4 100;
   '(s, (_, log)) ← NX_IRQ_DelayQueueCheck (logged demo_call) s (0, []); x ← works s !! 100; Some (pending x, log)) = Some (true, [Run 8 2]).
Proof. vm_compute. reflexivity. Qed.

(** [NX_IRQ_WORK_NOREENTER] never reaches a work: [NX_IRQ_DelayWorkInit] clears it. *)
Example noreenter_is_cleared :
  ('(s, _) ← NX_IRQ_DelayWorkInit demo_start 300 (mkWork 0 0 0 0) 9 0 NX_IRQ_WORK_NOREENTER; x ← works s !! 300; Some (flags x)) = Some 0.
Proof. vm_compute. reflexivity. Qed.

(** An interrupt nobody is bound to reads a controller that is not there. *)
Example unbound_interrupt_faults :
  NX_IRQ_Handle 2 (fun _ _ _ w => (w, NX_EOK)) None (NX_IRQ_Init [mkIrqNode true [] 0 0; mkIrqNode true [] 0 0]) 1 tt = None.
Proof. vm_compute. reflexivity. Qed.

(** The clock: initialised, a tick of the boot core raises both works, one of another
    core the scheduler only. *)
Example clock_ticks :
  let s0 := NX_IRQ_DelayQueueInit (mkDelay ∅ [] 0 false) in
  ('(s, err) ← NX_ClockInit NX_EOK (mkWork 0 0 0 0) s0 200 100 8 7;
   k ← NX_ClockTickGo (fun t => t + 1) 2 0 (mkClock 1 s 10) 200 100 0; k' ← NX_ClockTickGo (fun t => t + 1) 2 0 (mkClock 1 s 10) 200 100 1;
   Some (err, (systemClockTicks k, time k, delayIrqEvent (delay k)), (systemClockTicks k', time k', delayIrqEvent (delay k')))) =
  Some (NX_EOK, (2, 11, 9), (1, 10, 8)).
Proof. vm_compute. reflexivity. Qed.
