(* ===== verification/Sleep.v ===== *)
(** Sleeping: [NX_ThreadSleep] of [sched/thread.c], where the scheduler and the timers
    meet, with [SysThreadSleep] and the exit of a thread that sleeps.

    A sleeping thread is blocked and has a timer, on its own stack, whose handler wakes
    it.  The handlers of all timers run on the world [World] of Timer.v, here the
    threads and which timer each of them sleeps on; the handlers of timers that are no
    sleeping thread's are a parameter. *)
From S2P Require Import Prelude Sched SchedInv SchedOps.
From S2P Require Timer Irq.
#[local] Coercion Z.of_nat : nat >-> Z.

(** The address of the handler, an arbitrary one that is not that of the idle timer. *)
Definition TimerThreadSleepTimeout_ : Z := 2.
Definition THREAD_SLEEP_TIMEOUT_THRESHOLD : Z := 2.

(** The threads, and [resource.sleepTimer] of those that have one. *)
Record World := mkWorld { sys : Sys; sleepTimer : gmap Z Z }.
Record State := mkState { timers : Timer.Timers; world : World }.
Definition with_sys (w : World) (s : Sys) : World := mkWorld s (sleepTimer w).
Definition on_sys (st : State) (s : Sys) : State := mkState (timers st) (with_sys (world st) s).
Definition set_sleep (st : State) (ts : Timer.Timers) (m : gmap Z Z) : State := mkState ts (mkWorld (sys (world st)) m).

Section sleep.
Context (NX_MULTI_CORES_NR headTimeout : Z) (other : Z -> Z -> World -> option (World * bool)).
Notation NR := NX_MULTI_CORES_NR.
Implicit Types (st : State) (w : World).

(** ** The operations *)
Definition TimerThreadSleepTimeout w (thread : Z) : option (World * bool) :=
  _ ← threads (sys w) !! thread;
  let w := mkWorld (sys w) (delete thread (sleepTimer w)) in
  '(s, _) ← NX_ThreadUnblock NR (sys w) thread;
  Some (with_sys w s, true).

(** The handlers, as Timer.v calls them; [None] is a world without meaning. *)
Definition call (h arg : Z) (w : option World) : option World * bool :=
  match w ≫= (if h =? TimerThreadSleepTimeout_ then fun w => TimerThreadSleepTimeout w arg else other h arg) with
  | Some (w, b) => (Some w, b)
  | None => (None, true)
  end.

(** A tick of the timers. *)
Definition tick st : option State :=
  '(ts, w) ← Timer.NX_TimerGo call headTimeout (timers st) (Some (world st)); w ← w; Some (mkState ts w).

(** A thread that exits takes its timer back: the start of [ThreadReleaseResouce]. *)
Definition ThreadExit st (coreId code : Z) : option State :=
  self ← NX_ThreadSelf NR (sys (world st)) coreId;
  st ← match sleepTimer (world st) !! self with
       | Some tm => '(ts, _) ← Timer.NX_TimerStop headTimeout (timers st) tm; Some (set_sleep st ts (delete self (sleepTimer (world st))))
       | None => Some st
       end;
  s ← NX_ThreadExit NR (sys (world st)) coreId code; Some (on_sys st s).

(** The timer of the caller is set and started. *)
Definition ThreadSleep_arm st (self tm : Z) (x : Timer.NX_Timer) : option State :=
  let ts := Timer.with_timers (timers st) (<[tm := x]> (Timer.timers (timers st))) in
  '(ts, _) ← Timer.NX_TimerStart ts tm;
  Some (set_sleep st ts (<[self := tm]> (sleepTimer (world st)))).

(** [NX_ThreadSleep] up to the start of the timer: what it answers, or the thread that
    now goes on to block.  [tm] is the address of the timer on the stack of the caller;
    [readings] is what the clock shows while a short sleep is waited out. *)
Definition ThreadSleep_begin st (coreId tm : Z) (readings : list Z) (milliseconds : Z) : option (State * (outcome + Z)) :=
  if milliseconds =? 0 then Some (st, inl (Returned NX_EINVAL))
  else if milliseconds <=? THREAD_SLEEP_TIMEOUT_THRESHOLD then
    err ← Irq.NX_ClockTickDelay (Timer.NX_MILLISECOND_TO_TICKS milliseconds) readings; Some (st, inl (Returned err))
  else
    self ← NX_ThreadSelf NR (sys (world st)) coreId;
    t ← threads (sys (world st)) !! self;
    if nz (isTerminated t) then st ← ThreadExit st coreId 1; Some (st, inl Switched)
    else
      match Timer.NX_TimerInit milliseconds TimerThreadSleepTimeout_ self Timer.NX_TIMER_ONESHOT with
      | (Some x, _) => st ← ThreadSleep_arm st self tm x; Some (st, inr self)
      | (None, err) => Some (st, inl (Returned err))
      end.

(** The thread blocks.  Only the interrupts of its own core are off since the timer was
    started. *)
Definition ThreadSleep_block st (coreId self : Z) : option (State * outcome) :=
  '(s, out) ← NX_ThreadBlockLockedIRQ NR (sys (world st)) coreId self;
  Some (on_sys st s, out).

(** Both in one, as it is when no other core comes between. *)
Definition NX_ThreadSleep st (coreId tm : Z) (readings : list Z) (milliseconds : Z) : option (State * outcome) :=
  '(st, r) ← ThreadSleep_begin st coreId tm readings milliseconds;
  match r with inl out => Some (st, out) | inr self => ThreadSleep_block st coreId self end.

(** What the thread does when it runs again: a thread that was terminated exits, one
    whose timer is still there was woken by something else. *)
Definition ThreadSleep_resumed st (coreId : Z) : option (State * outcome) :=
  self ← NX_ThreadSelf NR (sys (world st)) coreId;
  t ← threads (sys (world st)) !! self;
  if nz (isTerminated t) then st ← ThreadExit st coreId 1; Some (st, Switched)
  else
    match sleepTimer (world st) !! self with
    | Some tm =>
        '(ts, _) ← Timer.NX_TimerStop headTimeout (timers st) tm;
        Some (set_sleep st ts (delete self (sleepTimer (world st))), Returned NX_EINTR)
    | None => Some (st, Returned NX_EOK)
    end.

Definition SysThreadSleep st (coreId tm : Z) (readings : list Z) (microseconds : Z) : option (State * outcome) :=
  NX_ThreadSleep st coreId tm readings microseconds.

(** ** Who sleeps *)

(** Timer [tm] waits, for thread [id], until tick [x]. *)
Definition timer_set st (id tm x : Z) : Prop :=
  sleepTimer (world st) !! id = Some tm /\ tm ∈ Timer.timerListHead (timers st) /\
  exists r, Timer.timers (timers st) !! tm = Some r /\ Timer.timeout r = x /\ Timer.handler r = TimerThreadSleepTimeout_ /\ Timer.arg r = id.

(** Thread [id] is blocked until tick [x]: its timer waits for it. *)
Definition sleeping st (id tm x : Z) : Prop :=
  (exists t, threads (sys (world st)) !! id = Some t /\ state t = NX_THREAD_BLOCKED) /\ timer_set st id tm x.

(** Thread [id] runs on core [c] and is about to block, until tick [x], or without a
    timer. *)
Definition about_to_block st (c id : Z) : Prop :=
  current (sys (world st)) c id /\ ~ is_idle (sys (world st)) id /\ is_Some (threads (sys (world st)) !! id).
Definition armed st (c id tm x : Z) : Prop := about_to_block st c id /\ timer_set st id tm x.
Definition disarmed st (c id : Z) : Prop := about_to_block st c id /\ sleepTimer (world st) !! id = None.

(** The scheduler and the timers are in order, a waiting timer with the handler of
    sleepers is that of a thread, some timer is due later than the next tick (the idle
    timer), and those due with it fire once. *)
Record sleep_ok st : Prop := {
  sl_sched : sched_ok NR (sys (world st));
  sl_timers : Timer.timers_ok (timers st);
  sl_owner : forall tm r, tm ∈ Timer.timerListHead (timers st) -> Timer.timers (timers st) !! tm = Some r ->
    Timer.handler r = TimerThreadSleepTimeout_ -> sleepTimer (world st) !! Timer.arg r = Some tm /\ is_Some (threads (sys (world st)) !! Timer.arg r);
  sl_last : exists id y, id ∈ Timer.timerListHead (timers st) /\ Timer.due (Timer.timers (timers st)) id y /\ Timer.timerTicks (timers st) + 1 < y;
  sl_once : forall id r, id ∈ Timer.timerListHead (timers st) -> Timer.timers (timers st) !! id = Some r ->
    Timer.timeout r <= Timer.timerTicks (timers st) + 1 -> Timer.one_shot r;
  sl_ticks : Timer.timerTicks (timers st) + 1 < 2 ^ 62
}.

(** The other timers only wake threads, none that sleeps on a timer. *)
Definition wakes_only : Prop := forall h a w, h <> TimerThreadSleepTimeout_ -> sched_ok NR (sys w) ->
  exists w' b, other h a w = Some (w', b) /\ sched_ok NR (sys w') /\ cores (sys w') = cores (sys w) /\ sleepTimer w' = sleepTimer w /\
    forall id t, threads (sys w) !! id = Some t -> exists t', threads (sys w') !! id = Some t' /\
      (state t' = state t \/ (sleepTimer w !! id = None /\ state t = NX_THREAD_BLOCKED /\ state t' = NX_THREAD_READY)).

Section proofs.
Context (Hother : wakes_only).

(** A timer among [f] wakes thread [id]. *)
Definition woken_by (m : gmap Z Timer.NX_Timer) (f : list Z) (id : Z) : Prop :=
  exists j r, j ∈ f /\ m !! j = Some r /\ Timer.handler r = TimerThreadSleepTimeout_ /\ Timer.arg r = id.

(** What a handler leaves of the threads; [wk] tells which it wakes for their timer. *)
Definition handled (wk : Z -> Prop) w w' : Prop :=
  sched_ok NR (sys w') /\ cores (sys w') = cores (sys w) /\
  (forall id, wk id -> sleepTimer w' !! id = None) /\
  (forall id, ~ wk id -> sleepTimer w' !! id = sleepTimer w !! id) /\
  forall id t, threads (sys w) !! id = Some t -> exists t', threads (sys w') !! id = Some t' /\
    (state t' = state t \/ (state t = NX_THREAD_BLOCKED /\ state t' = NX_THREAD_READY)) /\
    (wk id -> state t' <> NX_THREAD_BLOCKED) /\ (~ wk id -> is_Some (sleepTimer w !! id) -> state t' = state t).

Lemma timeout_handled w id : sched_ok NR (sys w) -> is_Some (threads (sys w) !! id) ->
  exists w', call TimerThreadSleepTimeout_ id (Some w) = (Some w', true) /\ handled (fun j => j = id) w w'.
Proof.
  intros Hs [t Ht]. destruct (unblock_spec NR (sys w) id t Hs Ht) as (s' & Hu & Hs' & [Hc _ _ _ _ _] & Hth & _).
  exists (mkWorld s' (delete id (sleepTimer w))). split.
  { unfold call. rewrite Z.eqb_refl, Some_bind. unfold TimerThreadSleepTimeout. rewrite Ht, Some_bind. cbn [sys]. by rewrite Hu, Some_bind. }
  split; [done|]. split; [done|]. cbn [sys sleepTimer]. split; [by intros j ->; apply lookup_delete_eq|].
  split; [intros j Hj; by apply lookup_delete_ne|]. rewrite Hth. intros j u Hj.
  destruct (decide (j = id)) as [->|Hne].
  - assert (u = t) as -> by congruence. case_bool_decide as Hb.
    + rewrite lookup_insert_eq. eexists. split; [done|]. cbn. rewrite Hb. split_and!; [by right | done | done].
    + exists t. split_and!; [done | by left | done | done].
  - exists u. split; [case_bool_decide; [by rewrite lookup_insert_ne|done]|]. split_and!; [by left | done | done].
Qed.

Lemma other_handled w h a : h <> TimerThreadSleepTimeout_ -> sched_ok NR (sys w) ->
  exists w' b, call h a (Some w) = (Some w', b) /\ handled (fun _ => False) w w'.
Proof.
  intros Hh Hs. destruct (Hother h a w Hh Hs) as (w' & b & Hrun & Hs' & Hc & Hsl & Hth). exists w', b. split.
  { unfold call. rewrite (proj2 (Z.eqb_neq _ _)), Some_bind by done. by rewrite Hrun. }
  split; [done|]. split; [done|]. rewrite Hsl. split_and!; [done | done |]. intros id t Ht. destruct (Hth id t Ht) as (t' & Ht' & Hst).
  exists t'. split; [done|]. split_and!; [destruct Hst as [|(_ & ? & ?)]; auto | done |].
  intros _ [tm Htm]. destruct Hst as [|(Hnone & _)]; [done|congruence].
Qed.

Lemma handled_trans (P Q : Z -> Prop) w1 w2 w3 : (forall id, P id \/ ~ P id) -> handled P w1 w2 -> handled Q w2 w3 -> handled (fun id => P id \/ Q id) w1 w3.
Proof.
  intros Hdec (Hs2 & Hc2 & Hp & Hp' & Ht2) (Hs3 & Hc3 & Hq & Hq' & Ht3). split; [done|]. split; [congruence|].
  split_and!.
  - intros id [HP|HQ]; [|by apply Hq].
    destruct (sleepTimer w3 !! id) eqn:E; [|done].
    assert (~ Q id) as HnQ by (intros HQ; apply Hq in HQ; congruence). rewrite (Hq' id HnQ), (Hp id HP) in E. done.
  - intros id Hn. rewrite Hq', Hp' by tauto. done.
  - intros id t Ht. destruct (Ht2 id t Ht) as (t2 & Hi2 & Hst2 & Hw2 & Hk2). destruct (Ht3 id t2 Hi2) as (t3 & Hi3 & Hst3 & Hw3 & Hk3).
    exists t3. split; [done|]. split_and!.
    + destruct Hst2 as [E2|[E2 E2']], Hst3 as [E3|[E3 E3']]; rewrite ?E3, ?E2 in *; auto; congruence.
    + intros [HP|HQ]; [|by apply Hw3]. specialize (Hw2 HP). destruct Hst3 as [->|[? ?]]; [done|congruence].
    + intros Hn Hsl. rewrite Hk3, Hk2; [done|tauto|done|tauto|]. by rewrite Hp' by tauto.
Qed.

Lemma handled_ext (P Q : Z -> Prop) w w' : (forall id, P id <-> Q id) -> handled P w w' -> handled Q w w'.
Proof.
  intros He (Hs & Hc & H1 & H2 & H3). split; [done|]. split; [done|]. split_and!.
  - intros id HQ. apply H1. by apply He.
  - intros id HQ. apply H2. by rewrite He.
  - intros id t Ht. destruct (H3 id t Ht) as (t' & ? & ? & Hw & Hk). exists t'. split_and!; [done | done | |].
    + intros HQ. apply Hw. by apply He.
    + intros HQ. apply Hk. by rewrite He.
Qed.

Lemma handled_refl w : sched_ok NR (sys w) -> handled (fun _ => False) w w.
Proof. intros Hs. split; [done|]. split; [done|]. split_and!; [done | done |]. intros id t Ht. exists t. split_and!; [done | by left | done | done]. Qed.

(** The timers that fire wake the threads that sleep on one of them, and no other. *)
Lemma fires_handled m f : forall w, sched_ok NR (sys w) -> (forall j, j ∈ f -> is_Some (m !! j)) ->
  (forall j r, j ∈ f -> m !! j = Some r -> Timer.handler r = TimerThreadSleepTimeout_ -> is_Some (threads (sys w) !! Timer.arg r)) ->
  exists w', foldl (Timer.deliver call m) (Some w) f = Some w' /\ handled (woken_by m f) w w'.
Proof.
  induction f as [|j f IH]; intros w Hs Hm Hth; cbn [foldl].
  { exists w. split; [done|]. apply (handled_ext (fun _ => False)); [|by apply handled_refl].
    intros id. split; [done|]. intros (k & r & Hk & _). by apply elem_of_nil in Hk. }
  destruct (Hm j ltac:(left)) as [r Hr]. unfold Timer.deliver at 2. rewrite Hr.
  set (P := fun id => Timer.handler r = TimerThreadSleepTimeout_ /\ Timer.arg r = id).
  assert (exists w1, (call (Timer.handler r) (Timer.arg r) (Some w)).1 = Some w1 /\ handled P w w1) as (w1 & Hcall & Hw1).
  { destruct (decide (Timer.handler r = TimerThreadSleepTimeout_)) as [Eh|Eh].
    - destruct (timeout_handled w (Timer.arg r) Hs) as (w1 & Hc & Hw1); [apply (Hth j r); [left|done|done]|].
      rewrite Eh, Hc. exists w1. split; [done|]. apply (handled_ext (fun k => k = Timer.arg r)); [|done].
      intros id. unfold P. split; [by intros ->|by intros [_ ->]].
    - destruct (other_handled w _ (Timer.arg r) Eh Hs) as (w1 & b & Hc & Hw1). rewrite Hc. exists w1. split; [done|].
      apply (handled_ext (fun _ => False)); [|done]. intros id. split; [done|by intros [? _]]. }
  rewrite Hcall. destruct (IH w1 (proj1 Hw1)) as (w' & Hrun & Hw').
  { intros k Hk. apply Hm. by right. }
  { intros k q Hk Hq Hh. destruct (Hth k q ltac:(by right) Hq Hh) as [t Ht]. destruct Hw1 as (_ & _ & _ & _ & Hw1).
    destruct (Hw1 _ t Ht) as (t' & Ht' & _). by eexists. }
  exists w'. split; [done|]. apply (handled_ext (fun id => P id \/ woken_by m f id)).
  - intros id. unfold P, woken_by. split.
    + intros [[Hh Ha]|(k & q & Hk & Hq)]; [exists j, r; split; [left|done] | exists k, q; split; [by right|done]].
    + intros (k & q & [->|Hk]%elem_of_cons & Hq & Hh & Ha); [left; split; congruence | right; by exists k, q].
  - apply handled_trans with w1; [|done|done]. intros id. unfold P.
    destruct (decide (Timer.handler r = TimerThreadSleepTimeout_)), (decide (Timer.arg r = id)); tauto.
Qed.

(** A tick of the timers: a thread whose time has come has no timer any more and, if it
    was blocked, is ready; the timers of the others wait on. *)
Lemma tick_spec_ st : sleep_ok st ->
  exists st', tick st = Some st' /\ sched_ok NR (sys (world st')) /\ Timer.timers_ok (timers st') /\
    Timer.timerTicks (timers st') = Timer.timerTicks (timers st) + 1 /\ cores (sys (world st')) = cores (sys (world st)) /\
    (forall id, sleepTimer (world st) !! id = None -> sleepTimer (world st') !! id = None) /\
    forall id t, threads (sys (world st)) !! id = Some t -> exists t', threads (sys (world st')) !! id = Some t' /\
      forall tm x, timer_set st id tm x ->
        (x <= Timer.timerTicks (timers st) + 1 -> (state t = NX_THREAD_BLOCKED -> state t' = NX_THREAD_READY) /\
           sleepTimer (world st') !! id = None /\ tm ∉ Timer.timerListHead (timers st')) /\
        (Timer.timerTicks (timers st) + 1 < x -> state t' = state t /\ timer_set st' id tm x).
Proof.
  intros [Hs Hts Hown Hlast Honce Htk].
  destruct (Timer.NX_TimerGo_step call headTimeout (timers st) (Some (world st)) Hts Htk Hlast Honce)
    as (ts & f & Hgo & Hts' & Htick & Hl & Hm & Hf).
  pose proof (Timer.tm_nodup _ Hts) as Hnd. rewrite Hl in Hnd. apply NoDup_app in Hnd as (Hndf & Hdis & _).
  assert (forall j, j ∈ f -> is_Some (Timer.timers (timers st) !! j)) as Hall.
  { intros j Hj. destruct (Timer.tm_each _ Hts j) as (r & Hr & _); [rewrite Hl; apply elem_of_app; by left|by eexists]. }
  destruct (fires_handled (Timer.timers (timers st)) f (world st) Hs Hall) as (w & Hrun & Hw & Hc & Hwk & Hnw & Hth).
  { intros j r Hj Hr Hh. apply (Hown j r); [rewrite Hl; apply elem_of_app; by left|done|done]. }
  exists (mkState ts w). unfold tick. rewrite Hgo. rewrite Hrun, !Some_bind. do 5 (split; [done|]). split.
  { intros id Hid. cbn [world]. destruct (sleepTimer w !! id) as [tm|] eqn:E; [|done].
    rewrite <- Hid, <- Hnw; [done|]. intros Hin. apply Hwk in Hin. congruence. }
  intros id t Ht. destruct (Hth id t Ht) as (t' & Ht' & Hst' & Hwoke & Hkept). exists t'. split; [done|].
  intros tm x (Hsl & Htm & r & Hr & Hx & Hh & Ha).
  assert (tm ∈ f \/ tm ∈ Timer.timerListHead ts) as Hwhere by (rewrite Hl in Htm; by apply elem_of_app in Htm).
  assert (tm ∈ f -> x = Timer.timerTicks (timers st) + 1) as Hdue.
  { intros Hj. apply (Hf tm); [done|]. unfold Timer.due. rewrite Hr. cbn. by rewrite Hx. }
  assert (tm ∈ Timer.timerListHead ts -> Timer.timers ts !! tm = Some r) as Hsame.
  { intros Hj. rewrite Hm, Timer.after_fires_ne; [done|]. intros Hj'. by apply (Hdis tm). }
  split.
  - intros Hle. assert (tm ∈ f) as Hj.
    { destruct Hwhere as [|Hj]; [done|]. destruct (Timer.tm_each _ Hts' tm Hj) as (r' & Hr' & _ & Hlt).
      rewrite Hsame in Hr' by done. injection Hr' as <-. cbn in Htick. lia. }
    assert (woken_by (Timer.timers (timers st)) f id) as Hwk' by (by exists tm, r).
    split; [|split; [by apply Hwk|by intros ?%(Hdis tm Hj)]].
    intros Hb. destruct Hst' as [E|[_ E]]; [|done]. by destruct (Hwoke Hwk'); rewrite E.
  - intros Hlt. destruct Hwhere as [Hj|Hj]; [apply Hdue in Hj; lia|].
    assert (~ woken_by (Timer.timers (timers st)) f id) as Hn.
    { intros (k & q & Hk & Hq & Hhq & Haq). destruct (Hown k q) as [Hs' _]; [rewrite Hl; apply elem_of_app; by left|done|done|].
      rewrite Haq in Hs'. assert (k = tm) as -> by congruence. by apply (Hdis tm). }
    split; [by apply Hkept; [|eexists]|]. split; [rewrite <- Hsl; by apply Hnw|]. split; [done|]. exists r. split; [by apply Hsame|done].
Qed.

(** A sleeper through a tick, and a thread about to block through one of another core. *)
Lemma tick_sleeping st st' id tm x : sleep_ok st -> tick st = Some st' -> sleeping st id tm x ->
  (x <= Timer.timerTicks (timers st) + 1 -> (exists t, threads (sys (world st')) !! id = Some t /\ state t = NX_THREAD_READY) /\
     sleepTimer (world st') !! id = None /\ tm ∉ Timer.timerListHead (timers st')) /\
  (Timer.timerTicks (timers st) + 1 < x -> sleeping st' id tm x).
Proof.
  intros Hok Htick ((t & Ht & Hst) & Hset). destruct (tick_spec_ st Hok) as (st1 & Htick1 & _ & _ & _ & _ & _ & Hth).
  rewrite Htick in Htick1. injection Htick1 as <-. destruct (Hth id t Ht) as (t' & Ht' & Hcase). destruct (Hcase tm x Hset) as [Hdue Hwait]. split.
  - intros Hle. destruct (Hdue Hle) as (Hr & ? & ?). split; [|done]. exists t'. auto.
  - intros Hlt. destruct (Hwait Hlt) as [Hs' ?]. split; [|done]. exists t'. split; [done|congruence].
Qed.

Lemma tick_about_to_block st st' c id : sleep_ok st -> tick st = Some st' -> about_to_block st c id ->
  about_to_block st' c id /\ (sleepTimer (world st) !! id = None -> sleepTimer (world st') !! id = None) /\
  forall tm x, timer_set st id tm x -> if x <=? Timer.timerTicks (timers st) + 1 then sleepTimer (world st') !! id = None else timer_set st' id tm x.
Proof.
  intros Hok Htick (Hcur & Hni & t & Ht). destruct (tick_spec_ st Hok) as (st1 & Htick1 & _ & _ & _ & Hc & Hnone & Hth).
  rewrite Htick in Htick1. injection Htick1 as <-. destruct (Hth id t Ht) as (t' & Ht' & Hcase). split; [|split; [by apply Hnone|]].
  - unfold about_to_block, current, is_idle. rewrite Hc. split; [done|]. split; [done|by eexists].
  - intros tm x Hset. destruct (Hcase tm x Hset) as [Hdue Hwait]. destruct (Z.leb_spec x (Timer.timerTicks (timers st) + 1)); [by apply Hdue|by apply Hwait].
Qed.

(** ** Going to sleep *)
Lemma fresh_timer_ok ts tm r : Timer.timers_ok ts -> tm ∉ Timer.timerListHead ts ->
  Timer.timers_ok (Timer.with_timers ts (<[tm := r]> (Timer.timers ts))).
Proof.
  intros [Htk Hnd Heach Hsort Hnext] Hni.
  split; cbn [Timer.with_timers Timer.timers Timer.timerListHead Timer.timerTicks Timer.nextTimeoutTicks]; try done.
  - intros id Hid. rewrite lookup_insert_ne by (by intros ->). by apply Heach.
  - apply Timer.sorted_ext with (Timer.timers ts); [|done]. intros id x Hid. apply Timer.due_insert_ne. by intros ->.
  - intros id l Hl. apply Timer.due_insert_ne; [|by apply (Hnext id l)]. intros ->. apply Hni. rewrite Hl. left.
Qed.

Definition ticks_of (milliseconds : Z) : Z := Timer.NX_MILLISECOND_TO_TICKS milliseconds.

(** Where a thread may go to sleep on timer [tm]. *)
Record may_sleep st (coreId id tm milliseconds : Z) : Prop := {
  ms_current : current (sys (world st)) coreId id;
  ms_idle : ~ is_idle (sys (world st)) id;
  ms_alive : exists t, threads (sys (world st)) !! id = Some t /\ isTerminated t = 0;
  ms_awake : sleepTimer (world st) !! id = None;
  ms_fresh : tm ∉ Timer.timerListHead (timers st);
  ms_long : 10 <= milliseconds;
  ms_limit : ticks_of milliseconds <= Timer.NX_IDLE_TIMER_TIMEOUT_TICKS
}.

(** The timer that is set for a sleep, and what starting it does to the others. *)
Definition sleep_timer (id milliseconds : Z) : Timer.NX_Timer :=
  Timer.mkTimer Timer.NX_TIMER_INITED 0 (ticks_of milliseconds) 1 TimerThreadSleepTimeout_ id.

Lemma arm_spec st id tm milliseconds : Timer.timers_ok (timers st) -> tm ∉ Timer.timerListHead (timers st) -> 10 <= milliseconds ->
  Timer.timerTicks (timers st) + ticks_of milliseconds <= Timer.NX_IDLE_TIMER_TIMEOUT_TICKS ->
  exists ts, ThreadSleep_arm st id tm (sleep_timer id milliseconds) = Some (set_sleep st ts (<[id := tm]> (sleepTimer (world st)))) /\
    Timer.timers_ok ts /\ Timer.timerTicks ts = Timer.timerTicks (timers st) /\
    (exists r, Timer.timers ts !! tm = Some r /\ Timer.timeout r = Timer.timerTicks (timers st) + ticks_of milliseconds /\
       Timer.handler r = TimerThreadSleepTimeout_ /\ Timer.arg r = id /\ Timer.flags r = 1) /\
    (forall j, j ∈ Timer.timerListHead ts <-> j = tm \/ j ∈ Timer.timerListHead (timers st)) /\
    (forall j, j ∈ Timer.timerListHead (timers st) -> Timer.timers ts !! j = Timer.timers (timers st) !! j).
Proof.
  intros Hts Hfr Hlong Hsoon. set (x := sleep_timer id milliseconds).
  assert (0 < ticks_of milliseconds) as Hpos by (unfold ticks_of, Timer.NX_MILLISECOND_TO_TICKS; change (1000 / Timer.NX_TICKS_PER_SECOND) with 10; zlia).
  set (ts0 := Timer.with_timers (timers st) (<[tm := x]> (Timer.timers (timers st)))).
  destruct (Timer.NX_TimerStart_spec ts0 tm x) as (ts & l1 & l2 & Hstart & Hts' & Hm & Htick & Hl & Hl' & _);
    [by apply fresh_timer_ok | apply lookup_insert_eq | exact Hfr | exact Hpos | cbn; lia |].
  cbn [ts0 Timer.with_timers Timer.timers Timer.timerTicks Timer.timerListHead] in Hm, Htick, Hl.
  rewrite insert_insert_eq in Hm. exists ts. split_and!; try done.
  - unfold ThreadSleep_arm. fold ts0. by rewrite Hstart, Some_bind.
  - eexists. rewrite Hm, lookup_insert_eq. split; [done|]. cbn. split_and!; [lia | done | done | done].
  - intros j. rewrite Hl', Hl, !elem_of_app, elem_of_cons. tauto.
  - intros j Hj. rewrite Hm. apply lookup_insert_ne. by intros ->.
Qed.

(** What blocking does to the threads: the caller is blocked, a blocked one stays so. *)
Lemma block_spec s coreId id t : sched_ok NR s -> current s coreId id -> threads s !! id = Some t -> ~ is_idle s id ->
  exists s', NX_ThreadBlockLockedIRQ NR s coreId id = Some (s', Switched) /\ sched_ok NR s' /\
    (exists t', threads s' !! id = Some t' /\ state t' = NX_THREAD_BLOCKED) /\
    forall j u, j <> id -> threads s !! j = Some u -> exists u', threads s' !! j = Some u' /\ (state u = NX_THREAD_BLOCKED -> state u' = NX_THREAD_BLOCKED).
Proof.
  intros Hs Hcur Ht Hni. destruct (block_self_spec NR s coreId id t Hs Hcur Ht Hni) as (s' & next & Hblock & Hs' & _ & Hf).
  exists s'. split; [done|]. split; [done|].
  assert (forall u u', resched u u' -> state u = NX_THREAD_BLOCKED -> state u' = NX_THREAD_BLOCKED) as Hkeep.
  { intros u u' (st0 & p & c & -> & [->|[? _]]) Hu; [done|congruence]. }
  split.
  - destruct (threads_le_lookup _ _ id (set_state NX_THREAD_BLOCKED t) (sf_threads _ _ Hf)) as (t' & Ht' & Hr); [apply lookup_insert_eq|].
    exists t'. split; [done|]. by apply (Hkeep _ _ Hr).
  - intros j u Hj Hu. destruct (threads_le_lookup _ _ j u (sf_threads _ _ Hf)) as (u' & Hu' & Hr); [cbn; by rewrite lookup_insert_ne|].
    exists u'. split; [done|]. by apply Hkeep.
Qed.

Lemma begin_arms st coreId id tm readings milliseconds : sched_ok NR (sys (world st)) -> may_sleep st coreId id tm milliseconds ->
  ThreadSleep_begin st coreId tm readings milliseconds = (st ← ThreadSleep_arm st id tm (sleep_timer id milliseconds); Some (st, inr id)).
Proof.
  intros Hs [Hcur Hni (t & Ht & Hterm) Haw Hfr Hlong Hlim]. unfold ThreadSleep_begin. rewrite (proj2 (Z.eqb_neq milliseconds 0)) by lia.
  rewrite (proj2 (Z.leb_gt milliseconds THREAD_SLEEP_TIMEOUT_THRESHOLD)) by (unfold THREAD_SLEEP_TIMEOUT_THRESHOLD; lia).
  rewrite (ThreadSelf_spec NR _ coreId id (so_queues _ _ Hs) Hcur), Some_bind, Ht, Some_bind, Hterm. change (nz 0) with false. cbn iota.
  unfold Timer.NX_TimerInit, nz. by rewrite (proj2 (Z.eqb_neq milliseconds 0)) by lia.
Qed.

(** The first half: the timer waits, the thread still runs. *)
Lemma begin_spec st coreId id tm readings milliseconds : sleep_ok st -> may_sleep st coreId id tm milliseconds ->
  Timer.timerTicks (timers st) + ticks_of milliseconds <= Timer.NX_IDLE_TIMER_TIMEOUT_TICKS ->
  exists st', ThreadSleep_begin st coreId tm readings milliseconds = Some (st', inr id) /\ sleep_ok st' /\
    Timer.timerTicks (timers st') = Timer.timerTicks (timers st) /\ sys (world st') = sys (world st) /\
    armed st' coreId id tm (Timer.timerTicks (timers st) + ticks_of milliseconds) /\
    forall id' tm' x, id' <> id -> timer_set st id' tm' x -> timer_set st' id' tm' x.
Proof.
  intros [Hs Hts Hown Hlast Honce Htk] Hms Hsoon. rewrite (begin_arms st coreId id tm readings milliseconds Hs Hms).
  destruct Hms as [Hcur Hni (t & Ht & Hterm) Haw Hfr Hlong _].
  destruct (arm_spec st id tm milliseconds Hts Hfr Hlong Hsoon) as (ts & Harm & Hts' & Htick & (r & Hr & Hx & Hh & Ha & Hfl) & Hlist & Hold).
  rewrite Harm, Some_bind. eexists. split; [done|]. split; [|split; [done|split; [done|split]]].
  - split; cbn [set_sleep world timers sys sleepTimer]; try done.
    + intros j q Hj Hq Hhq. apply Hlist in Hj as [->|Hj].
      * assert (q = r) as -> by congruence. rewrite Ha, lookup_insert_eq. split; [done|by eexists].
      * rewrite Hold in Hq by done. destruct (Hown j q Hj Hq Hhq) as [Hsl Hu].
        assert (Timer.arg q <> id) as Hne by (intros E; congruence). by rewrite lookup_insert_ne by done.
    + destruct Hlast as (k & y & Hk & Hy & Hlt). exists k, y. rewrite Hlist, Htick. split; [by right|]. split; [|done].
      unfold Timer.due. rewrite Hold by done. exact Hy.
    + intros j q Hj Hq Hle. rewrite Htick in Hle. apply Hlist in Hj as [->|Hj].
      * assert (q = r) as -> by congruence. unfold Timer.one_shot. by rewrite Hfl, Hh.
      * rewrite Hold in Hq by done. exact (Honce j q Hj Hq Hle).
    + by rewrite Htick.
  - split; [split; [done|split; [done|by eexists]]|]. cbn [set_sleep world sleepTimer timers].
    split; [apply lookup_insert_eq|]. split; [apply Hlist; by left|]. by exists r.
  - intros j tm' y Hne (Hsl & Hin & q & Hq & Hrest). cbn [set_sleep world sleepTimer timers].
    split; [cbn; by rewrite lookup_insert_ne|]. split; [apply Hlist; by right|]. exists q. by rewrite Hold.
Qed.

(** A timer too close to the end of the counter is refused, the thread goes on to block. *)
Lemma begin_refused st coreId id tm readings milliseconds : sleep_ok st -> may_sleep st coreId id tm milliseconds ->
  Timer.NX_IDLE_TIMER_TIMEOUT_TICKS < Timer.timerTicks (timers st) + ticks_of milliseconds ->
  exists st', ThreadSleep_begin st coreId tm readings milliseconds = Some (st', inr id) /\ sys (world st') = sys (world st) /\
    Timer.timerListHead (timers st') = Timer.timerListHead (timers st) /\ about_to_block st' coreId id.
Proof.
  intros [Hs Hts Hown Hlast Honce Htk] Hms Hlate. rewrite (begin_arms st coreId id tm readings milliseconds Hs Hms).
  destruct Hms as [Hcur Hni (t & Ht & Hterm) Haw Hfr Hlong Hlim].
  unfold ThreadSleep_arm, Timer.NX_TimerStart. cbn [Timer.with_timers Timer.timers Timer.timerTicks]. rewrite lookup_insert_eq, Some_bind.
  unfold Timer.upd_timer. cbn [Timer.with_timers Timer.timers]. rewrite lookup_insert_eq, !Some_bind.
  cbn [Timer.with_timers Timer.timerTicks sleep_timer Timer.timeTicks].
  assert (0 <= ticks_of milliseconds) by (unfold ticks_of, Timer.NX_MILLISECOND_TO_TICKS; change (1000 / Timer.NX_TICKS_PER_SECOND) with 10; zlia).
  rewrite u64_small by (unfold Timer.NX_IDLE_TIMER_TIMEOUT_TICKS in *; vm_compute (_ * _) in *; lia).
  rewrite (proj2 (Z.ltb_lt _ _)), !Some_bind by lia. eexists. split; [done|]. split; [done|]. split; [done|]. split; [done|]. split; [done|by eexists].
Qed.

(** The second half. *)
Lemma block_second st coreId id : sched_ok NR (sys (world st)) -> about_to_block st coreId id ->
  exists st', ThreadSleep_block st coreId id = Some (st', Switched) /\ (sleep_ok st -> sleep_ok st') /\ timers st' = timers st /\
    sleepTimer (world st') = sleepTimer (world st) /\
    (exists t', threads (sys (world st')) !! id = Some t' /\ state t' = NX_THREAD_BLOCKED) /\
    forall j u, j <> id -> threads (sys (world st)) !! j = Some u -> state u = NX_THREAD_BLOCKED ->
      exists u', threads (sys (world st')) !! j = Some u' /\ state u' = NX_THREAD_BLOCKED.
Proof.
  intros Hs (Hcur & Hni & t & Ht). destruct (block_spec (sys (world st)) coreId id t Hs Hcur Ht Hni) as (s' & Hblock & Hs' & Hself & Hthr).
  exists (on_sys st s'). unfold ThreadSleep_block. rewrite Hblock, Some_bind. split; [done|]. split.
  - intros [_ Hts Hown Hlast Honce Htk]. split; cbn [on_sys with_sys world timers sys sleepTimer]; try done.
    intros j q Hj Hq Hhq. destruct (Hown j q Hj Hq Hhq) as [Hsl [u Hu]]. split; [done|].
    destruct (decide (Timer.arg q = id)) as [->|Hne]; [destruct Hself as (t' & Ht' & _); by eexists|].
    destruct (Hthr _ u Hne Hu) as (u' & Hu' & _). by eexists.
  - split; [done|]. split; [done|]. split; [done|]. intros j u Hne Hu Hst. destruct (Hthr j u Hne Hu) as (u' & Hu' & Hb). exists u'. auto.
Qed.

Lemma sleep_spec st coreId id tm readings milliseconds : sleep_ok st -> may_sleep st coreId id tm milliseconds ->
  Timer.timerTicks (timers st) + ticks_of milliseconds <= Timer.NX_IDLE_TIMER_TIMEOUT_TICKS ->
  exists st', NX_ThreadSleep st coreId tm readings milliseconds = Some (st', Switched) /\ sleep_ok st' /\
    Timer.timerTicks (timers st') = Timer.timerTicks (timers st) /\
    sleeping st' id tm (Timer.timerTicks (timers st) + ticks_of milliseconds) /\
    forall id' tm' x, id' <> id -> sleeping st id' tm' x -> sleeping st' id' tm' x.
Proof.
  intros Hok Hms Hsoon. destruct (begin_spec st coreId id tm readings milliseconds Hok Hms Hsoon) as (st1 & Hrun & Hok1 & Htk1 & Esys & [Hab Hset] & Hold).
  destruct (block_second st1 coreId id (sl_sched st1 Hok1) Hab) as (st2 & Hrun2 & Hok2 & Et & Es & Hself & Hthr).
  exists st2. unfold NX_ThreadSleep. rewrite Hrun, Some_bind. split; [done|]. split; [by apply Hok2|]. split; [by rewrite Et|].
  assert (Hset2 : forall j tm' y, timer_set st1 j tm' y -> timer_set st2 j tm' y) by (unfold timer_set; by rewrite Et, Es).
  split; [split; [done|by apply Hset2]|]. intros j tm' y Hne ((u & Hu & Hst) & Hsj).
  split; [by apply (Hthr j u); [|rewrite Esys|]|]. by apply Hset2, Hold.
Qed.

(** ** While a thread sleeps

    What the rest of the system may do between two ticks: anything that leaves the
    sleeper alone, or the thread that is about to block. *)
Definition meanwhile (id tm x : Z) st st' : Prop :=
  sleep_ok st' /\ Timer.timerTicks (timers st') = Timer.timerTicks (timers st) /\ (sleeping st id tm x -> sleeping st' id tm x).
Definition elsewhere (c id tm x : Z) st st' : Prop :=
  sleep_ok st' /\ Timer.timerTicks (timers st') = Timer.timerTicks (timers st) /\
  (armed st c id tm x -> armed st' c id tm x) /\ (disarmed st c id -> disarmed st' c id).

(** Others going to sleep is such an interlude. *)
Lemma others_sleep id tm x st coreId id' tm' readings ms st' out : id' <> id -> sleep_ok st -> may_sleep st coreId id' tm' ms ->
  Timer.timerTicks (timers st) + ticks_of ms <= Timer.NX_IDLE_TIMER_TIMEOUT_TICKS ->
  NX_ThreadSleep st coreId tm' readings ms = Some (st', out) -> meanwhile id tm x st st'.
Proof.
  intros Hne Hok Hms Hsoon Hrun. destruct (sleep_spec st coreId id' tm' readings ms Hok Hms Hsoon) as (st1 & Hrun1 & Hok1 & Htk & _ & Hkeep).
  rewrite Hrun in Hrun1. injection Hrun1 as <- _. split; [done|]. split; [done|]. by apply Hkeep.
Qed.

(** [n] ticks, each after an interlude [R]. *)
Inductive passes (R : State -> State -> Prop) : nat -> State -> State -> Prop :=
  | passes_none st : passes R 0 st st
  | passes_tick n st st1 st2 st3 : passes R n st st1 -> R st1 st2 -> tick st2 = Some st3 -> passes R (S n) st st3.

Lemma asleep_until id tm x (n : nat) st st' : sleeping st id tm x -> Timer.timerTicks (timers st) + n < x -> passes (meanwhile id tm x) n st st' ->
  sleeping st' id tm x /\ Timer.timerTicks (timers st') = Timer.timerTicks (timers st) + n.
Proof.
  intros Hsl. revert st'. induction n as [|n IH]; intros st' Hlt Hp; inversion Hp; subst.
  - split; [done|lia].
  - destruct (IH st1 ltac:(lia) H0) as (Hsl1 & Htk1). destruct H1 as (Hok2 & Htk2 & Hkeep).
    destruct (tick_spec_ st2 Hok2) as (st3 & Ht3 & _ & _ & Htk3 & _). rewrite H2 in Ht3. injection Ht3 as <-.
    split; [|lia]. apply (tick_sleeping st2 st' id tm x Hok2 H2); [by apply Hkeep|lia].
Qed.

(** The thread runs until it blocks; its timer may fire before. *)
Lemma armed_until c id tm x (n : nat) st st' : armed st c id tm x -> passes (elsewhere c id tm x) n st st' ->
  Timer.timerTicks (timers st') = Timer.timerTicks (timers st) + n /\
  if Timer.timerTicks (timers st) + n <? x then armed st' c id tm x else Timer.timerTicks (timers st) < x -> disarmed st' c id.
Proof.
  intros Har. revert st'. induction n as [|n IH]; intros st' Hp; inversion Hp; subst.
  - split; [lia|]. destruct (Z.ltb_spec (Timer.timerTicks (timers st') + 0%nat) x); [done|lia].
  - destruct (IH st1 H0) as (Htk1 & Hcase). destruct H1 as (Hok2 & Htk2 & Hka & Hkd).
    destruct (tick_spec_ st2 Hok2) as (st3 & Ht3 & _ & _ & Htk3 & _). rewrite H2 in Ht3. injection Ht3 as <-.
    split; [lia|]. destruct (Z.ltb_spec (Timer.timerTicks (timers st) + n) x).
    + destruct (Hka Hcase) as [Hab Hset]. destruct (tick_about_to_block st2 st' c id Hok2 H2 Hab) as (Hab' & _ & Hone).
      specialize (Hone tm x Hset). rewrite Htk2, Htk1 in Hone. destruct (Z.ltb_spec (Timer.timerTicks (timers st) + S n) x).
      * split; [done|]. by rewrite (proj2 (Z.leb_gt _ _)) in Hone by lia.
      * intros _. split; [done|]. by rewrite (proj2 (Z.leb_le _ _)) in Hone by lia.
    + rewrite (proj2 (Z.ltb_ge _ _)) by lia. intros Hlt. destruct (Hkd (Hcase Hlt)) as [Hab Hnone].
      destruct (tick_about_to_block st2 st' c id Hok2 H2 Hab) as (Hab' & Hn & _). split; [done|by apply Hn].
Qed.

(** C40: a thread calls [NX_ThreadSleep] for a time of [n] ticks, at least one and at most
    the 24 days of the timers.  It starts its timer and goes on to block; [m] ticks may
    come on another core before it has.
    If the counter of ticks will not pass the 24 days in that time and [m < n], the
    thread is blocked with its timer and, whatever the rest of the system does that
    leaves it alone, with others going to sleep and timers firing, is still blocked after
    every tick before its time, is ready after the very tick of its time, without its
    timer, and then answers that it slept.
    Otherwise it is never woken by a timer: when its time comes before it has blocked, it
    blocks without one; and when the counter would pass the 24 days the timer is refused
    and it blocks all the same. *)
Theorem sleep_wakes_on_time st coreId id tm readings milliseconds :
  sleep_ok st -> may_sleep st coreId id tm milliseconds ->
  let n := ticks_of milliseconds in
  let x := Timer.timerTicks (timers st) + n in
  exists st1, ThreadSleep_begin st coreId tm readings milliseconds = Some (st1, inr id) /\
    (x <= Timer.NX_IDLE_TIMER_TIMEOUT_TICKS -> sleep_ok st1 /\
      forall (m : nat) st2 st3, passes (elsewhere coreId id tm x) m st1 st2 -> elsewhere coreId id tm x st2 st3 ->
        exists st4, ThreadSleep_block st3 coreId id = Some (st4, Switched) /\ sleep_ok st4 /\
          (m < n -> sleeping st4 id tm x /\
            (forall (k : nat) st5, m + k < n -> passes (meanwhile id tm x) k st4 st5 -> sleeping st5 id tm x) /\
            forall (k : nat) st5 st6, m + k + 1 = n -> passes (meanwhile id tm x) k st4 st5 -> meanwhile id tm x st5 st6 ->
              exists st7, tick st6 = Some st7 /\
                (exists t, threads (sys (world st7)) !! id = Some t /\ state t = NX_THREAD_READY) /\
                sleepTimer (world st7) !! id = None /\ tm ∉ Timer.timerListHead (timers st7) /\
                forall st8 c u, queues_ok NR (sys (world st8)) None -> current (sys (world st8)) c id -> sleepTimer (world st8) !! id = None ->
                  threads (sys (world st8)) !! id = Some u -> isTerminated u = 0 -> ThreadSleep_resumed st8 c = Some (st8, Returned NX_EOK)) /\
          (n <= m -> (exists t, threads (sys (world st4)) !! id = Some t /\ state t = NX_THREAD_BLOCKED) /\ sleepTimer (world st4) !! id = None)) /\
    (Timer.NX_IDLE_TIMER_TIMEOUT_TICKS < x -> exists st2, ThreadSleep_block st1 coreId id = Some (st2, Switched) /\
      (exists t, threads (sys (world st2)) !! id = Some t /\ state t = NX_THREAD_BLOCKED) /\ tm ∉ Timer.timerListHead (timers st2)).
Proof.
  intros Hok Hms n x. assert (Hn : 0 < n).
  { pose proof (ms_long _ _ _ _ _ Hms). unfold n, ticks_of, Timer.NX_MILLISECOND_TO_TICKS. change (1000 / Timer.NX_TICKS_PER_SECOND) with 10. zlia. }
  destruct (Z.le_gt_cases x Timer.NX_IDLE_TIMER_TIMEOUT_TICKS) as [Hsoon|Hlate].
  - destruct (begin_spec st coreId id tm readings milliseconds Hok Hms Hsoon) as (st1 & Hrun & Hok1 & Htk1 & _ & Har & _).
    exists st1. split; [done|]. split; [|lia]. intros _. split; [done|]. intros m st2 st3 Hp (Hok3 & Htk3 & Hka & Hkd).
    destruct (armed_until coreId id tm x m st1 st2 Har Hp) as [Htk2 Hcase].
    assert (Hab : about_to_block st3 coreId id /\ (m < n -> timer_set st3 id tm x) /\ (n <= m -> sleepTimer (world st3) !! id = None)).
    { destruct (Z.ltb_spec (Timer.timerTicks (timers st1) + m) x); [destruct (Hka Hcase)|destruct (Hkd (Hcase ltac:(unfold x, n in *; lia)))];
        (split; [done|]); (split; intros ?; [|]); try done; unfold x, n in *; lia. }
    destruct Hab as (Hab & Hset & Hnone).
    destruct (block_second st3 coreId id (sl_sched st3 Hok3) Hab) as (st4 & Hrun4 & Hok4 & Et & Es & Hself & _).
    exists st4. split; [done|]. split; [by apply Hok4|]. split; [|intros Hm; split; [done|]; rewrite Es; by apply Hnone].
    intros Hm. assert (Hsl : sleeping st4 id tm x) by (split; [done|]; unfold timer_set; rewrite Et, Es; by apply Hset).
    assert (Htk4 : Timer.timerTicks (timers st4) = Timer.timerTicks (timers st) + m) by (rewrite Et; lia). split; [done|]. split.
    + intros k st5 Hk Hp5. apply (asleep_until id tm x k st4 st5); [done|unfold x, n in *; lia|done].
    + intros k st5 st6 Hk Hp5 (Hok6 & Htk6 & Hkeep).
      destruct (asleep_until id tm x k st4 st5) as [Hsl5 Htk5]; [done|unfold x, n in *; lia|done|].
      destruct (tick_spec_ st6 Hok6) as (st7 & Ht7 & _). exists st7. split; [done|].
      destruct (tick_sleeping st6 st7 id tm x Hok6 Ht7 (Hkeep Hsl5)) as [Hw _]. destruct Hw as (Hready & Hnone7 & Hout); [unfold x, n in *; lia|].
      split; [done|]. split; [done|]. split; [done|]. intros st8 c u Hq Hcur Hnone8 Hu Hterm. unfold ThreadSleep_resumed.
      by rewrite (ThreadSelf_spec NR _ c id Hq Hcur), Some_bind, Hu, Some_bind, Hterm, Hnone8.
  - destruct (begin_refused st coreId id tm readings milliseconds Hok Hms Hlate) as (st1 & Hrun & Esys & Elist & Hab).
    exists st1. split; [done|]. split; [lia|]. intros _.
    destruct (block_second st1 coreId id) as (st2 & Hrun2 & _ & Et & _ & Hself & _); [rewrite Esys; apply (sl_sched st Hok)|done|].
    exists st2. split; [done|]. split; [done|]. rewrite Et, Elist. by apply ms_fresh with coreId id milliseconds.
Qed.
End proofs.
End sleep.

(** ** The theorem at work

    Thread 200 of the machine of SchedOps.v sleeps for 15 milliseconds, one tick, while
    only the idle timer waits. *)
Definition demo_start : State :=
  mkState (Timer.mkTimers {[1 := Timer.mkTimer Timer.NX_TIMER_WAITING 207360000 207360000 1 1 0]} [1] 10 207360000)
    (mkWorld (demo 12) ∅).
Definition no_other (h a : Z) (w : World) : option (World * bool) := Some (w, true).

Lemma no_other_wakes : wakes_only 1 no_other.
Proof. intros h a w Hh Hs. exists w, true. split_and!; [done | done | done | done |]. intros id t Ht. exists t. split; [done|by left]. Qed.

Lemma demo_sleep_ok : sleep_ok 1 demo_start.
Proof.
  split; cbn [demo_start timers world sys sleepTimer Timer.timers Timer.timerListHead Timer.timerTicks].
  - exact demo_ok.
  - split; cbn [Timer.timers Timer.timerListHead Timer.timerTicks Timer.nextTimeoutTicks].
    + lia.
    + by apply (bool_decide_unpack _).
    + intros id ->%list_elem_of_singleton. eexists. split; [vm_compute; reflexivity|]. cbn. split; [done|lia].
    + repeat constructor.
    + intros id l [= <- <-]. by vm_compute.
  - intros j r ->%list_elem_of_singleton. vm_compute. intros [= <-]. discriminate.
  - exists 1, 207360000. split; [set_solver +|]. split; [by vm_compute|lia].
  - intros j r ->%list_elem_of_singleton. vm_compute. intros [= <-]. intros H. by destruct H.
  - lia.
Qed.

Lemma demo_may_sleep : may_sleep demo_start 0 200 500 15.
Proof.
  split; cbn [demo_start timers world sys sleepTimer Timer.timers Timer.timerListHead Timer.timerTicks].
  - exact demo_current.
  - exact demo_not_idle.
  - eexists. split; [vm_compute; reflexivity|done].
  - apply lookup_empty.
  - intros H. by apply list_elem_of_singleton in H.
  - lia.
  - by vm_compute.
Qed.

Lemma elsewhere_refl st c id tm x : sleep_ok 1 st -> elsewhere 1 c id tm x st st.
Proof. intros Hok. split; [exact Hok|]. split; [reflexivity|]. split; exact (fun H => H). Qed.

Lemma sleep_wakes_on_time_witness :
  exists st1 st2 st3, ThreadSleep_begin 1 0 demo_start 0 500 [] 15 = Some (st1, inr 200) /\
    ThreadSleep_block 1 st1 0 200 = Some (st2, Switched) /\ sleeping st2 200 500 11 /\
    tick 1 0 no_other st2 = Some st3 /\ exists t, threads (sys (world st3)) !! 200 = Some t /\ state t = NX_THREAD_READY.
Proof.
  destruct (sleep_wakes_on_time 1 0 no_other no_other_wakes demo_start 0 200 500 [] 15 demo_sleep_ok demo_may_sleep)
    as (st1 & Hrun & Hsoon & _).
  destruct Hsoon as [Hok1 Hsoon]; [vm_compute; discriminate|].
  destruct (Hsoon 0%nat st1 st1 (passes_none _ _ _ _ _) (elsewhere_refl st1 0 200 500 _ Hok1)) as (st2 & Hrun2 & Hok2 & Hin & _).
  destruct Hin as (Hsl & _ & Hwake); [reflexivity|].
  destruct (Hwake 0%nat st2 st2) as (st3 & Htick & Hready & _);
    [reflexivity | apply passes_none | split; [exact Hok2 | split; [reflexivity | exact (fun H => H)]] |].
  exists st1, st2, st3. split; [exact Hrun|]. split; [exact Hrun2|]. split; [exact Hsl|]. split; [exact Htick|exact Hready].
Defined.

(** ** Sleeps that go wrong *)
Definition thread_state (st : State) (id : Z) : option NX_ThreadState := state <$> threads (sys (world st)) !! id.

(** Two milliseconds or less are less than a tick: the delay that stands for the sleep
    ends at once, the clock shows the same tick before and after it. *)
Example short_sleep_is_none : NX_ThreadSleep 1 0 demo_start 0 500 [7; 7] 2 = Some (demo_start, Returned NX_EOK).
Proof. reflexivity. Qed.

(** A time too close to the 24 days of the timers is refused by [NX_TimerStart]; nobody looks at its
    answer, and the thread is blocked without a timer. *)
Example long_sleep_never_wakes :
  ('(st, out) ← NX_ThreadSleep 1 0 demo_start 0 500 [] 2073599950;
   Some (out, thread_state st 200, Timer.timerListHead (timers st))) = Some (Switched, Some NX_THREAD_BLOCKED, [1]).
Proof. vm_compute. reflexivity. Qed.

(** The timers run on another core: when a tick comes between starting the timer and
    blocking, the handler finds the thread running and does not wake it; it then blocks
    without a timer. *)
Example tick_before_block :
  ('(st, r) ← ThreadSleep_begin 1 0 demo_start 0 500 [] 15;
   st ← tick 1 0 no_other st;
   '(st, out) ← ThreadSleep_block 1 st 0 200;
   Some (r, out, thread_state st 200, Timer.timerListHead (timers st), sleepTimer (world st) !! 200)) =
  Some (inr 200, Switched, Some NX_THREAD_BLOCKED, [1], None).
Proof. vm_compute. reflexivity. Qed.

(** A thread that is terminated while it sleeps takes its timer along. *)
Example terminated_sleeper :
  ('(st, _) ← NX_ThreadSleep 1 0 demo_start 0 500 [] 25;
   '(s, _) ← NX_ThreadTerminate 1 (sys (world st)) 200 9;
   s ← NX_SchedYield 1 s 0;
   '(st, out) ← ThreadSleep_resumed 1 0 (on_sys st s) 0;
   Some (out, thread_state st 200, Timer.timerListHead (timers st), sleepTimer (world st) !! 200)) =
  Some (Switched, Some NX_THREAD_EXIT, [1], None).
Proof. vm_compute. reflexivity. Qed.
