(* ===== verification/Syscall.v ===== *)
(** The system calls of a process on its memory, its directory and its threads, and
    the table of the calls: the rest of [process/syscall.c].

    The calls on objects are in Objects.v; those on files, hubs, time and snapshots
    only pass their arguments on to the functions of Vfs*.v, Hub*.v, Calendar.v and
    Snapshot.v.  What a call stores through a pointer of the user is a component of
    its result. *)
From S2P Require Import Prelude Bits ThreadId VfsPath Env Mmu Vmspace Elf UserStack Sched SchedInv SchedOps ExObj Objects Process ProcessExit Snapshot.
From S2P Require Sv39 Vfs VfsOps Driver.
#[local] Coercion Z.of_nat : nat >-> Z.

(** ** The table *)
Definition NX_SYSCALL_ENV_XBOOK : Z := 0.
Definition NX_SYSCALL_ENV_POSIX : Z := 1.
Definition NX_SYSCALL_ENV_WIN32 : Z := 2.
Definition NX_SYSCALL_ENV_SHIFT : Z := 24.
Definition NX_SYSCALL_ENV (api : Z) : Z := Z.shiftr api NX_SYSCALL_ENV_SHIFT.
Definition NX_SYSCALL_NUMBER (api : Z) : Z := Z.land api (Z.shiftl 1 NX_SYSCALL_ENV_SHIFT - 1).

Inductive NX_SyscallHandler :=
  | SysInvalidCall_ | SysDebugLog_ | SysProcessExit_ | SysProcessLaunch_ | SysVfsMount_ | SysVfsUnmount_ | SysVfsSync_ | SysVfsOpen_
  | SysVfsClose_ | SysVfsRead_ | SysVfsWrite_ | SysVfsFileSeek_ | SysVfsFileSync_ | SysVfsFileChmod_ | SysVfsFileStat_ | SysVfsOpenDir_
  | SysVfsCloseDir_ | SysVfsReadDir_ | SysVfsRewindDir_ | SysVfsMakeDir_ | SysVfsRemoveDir_ | SysVfsRename_ | SysVfsUnlink_ | SysVfsAccess_
  | SysVfsChmod_ | SysVfsStat_ | SysHubRegister_ | SysHubUnregister_ | SysHubCallParam_ | SysHubCallParamName_ | SysHubReturn_
  | SysHubPoll_ | SysHubTranslate_ | SysVfsIoctl_ | SysMemMap_ | SysMemUnmap_ | SysMemHeap_ | SysProcessGetCwd_ | SysProcessSetCwd_
  | SysSoltClose_ | SysSnapshotCreate_ | SysSnapshotFirst_ | SysSnapshotNext_ | SysThreadSleep_ | SysClockGetMillisecond_ | SysTimeSet_
  | SysTimeGet_ | SysThreadCreate_ | SysThreadExit_ | SysThreadSuspend_ | SysThreadResume_ | SysThreadWait_ | SysThreadTerminate_
  | SysThreadGetId_ | SysThreadGetCurrentId_ | SysThreadGetCurrent_ | SysThreadGetProcessId_ | SysSemaphoreCreate_ | SysSemaphoreDestroy_
  | SysSemaphoreWait_ | SysSemaphoreTryWait_ | SysSemaphoreSignal_ | SysSemaphoreSignalAll_ | SysSemaphoreGetValue_ | SysMutexCreate_
  | SysMutexDestroy_ | SysMutexAcquire_ | SysMutexTryAcquire_ | SysMutexRelease_ | SysMutexAcquirable_ | SysDeviceOpen_ | SysDeviceRead_
  | SysDeviceWrite_ | SysDeviceControl_.
#[export] Instance NX_SyscallHandler_eq_dec : EqDecision NX_SyscallHandler.
Proof. solve_decision. Defined.

Definition NX_SyscallTable : list NX_SyscallHandler :=
  [SysInvalidCall_; SysDebugLog_; SysProcessExit_; SysProcessLaunch_; SysVfsMount_; SysVfsUnmount_; SysVfsSync_; SysVfsOpen_;
   SysVfsClose_; SysVfsRead_; SysVfsWrite_; SysVfsFileSeek_; SysVfsFileSync_; SysVfsFileChmod_; SysVfsFileStat_; SysVfsOpenDir_;
   SysVfsCloseDir_; SysVfsReadDir_; SysVfsRewindDir_; SysVfsMakeDir_; SysVfsRemoveDir_; SysVfsRename_; SysVfsUnlink_; SysVfsAccess_;
   SysVfsChmod_; SysVfsStat_; SysHubRegister_; SysHubUnregister_; SysHubCallParam_; SysHubCallParamName_; SysHubReturn_; SysHubPoll_;
   SysHubTranslate_; SysVfsIoctl_; SysMemMap_; SysMemUnmap_; SysMemHeap_; SysProcessGetCwd_; SysProcessSetCwd_; SysSoltClose_;
   SysSnapshotCreate_; SysSnapshotFirst_; SysSnapshotNext_; SysThreadSleep_; SysClockGetMillisecond_; SysTimeSet_; SysTimeGet_;
   SysThreadCreate_; SysThreadExit_; SysThreadSuspend_; SysThreadResume_; SysThreadWait_; SysThreadTerminate_; SysThreadGetId_;
   SysThreadGetCurrentId_; SysThreadGetCurrent_; SysThreadGetProcessId_; SysSemaphoreCreate_; SysSemaphoreDestroy_; SysSemaphoreWait_;
   SysSemaphoreTryWait_; SysSemaphoreSignal_; SysSemaphoreSignalAll_; SysSemaphoreGetValue_; SysMutexCreate_; SysMutexDestroy_;
   SysMutexAcquire_; SysMutexTryAcquire_; SysMutexRelease_; SysMutexAcquirable_; SysDeviceOpen_; SysDeviceRead_; SysDeviceWrite_;
   SysDeviceControl_].
Definition NX_SyscallTablePosix : list NX_SyscallHandler := [SysInvalidCall_].
Definition NX_SyscallTableWin32 : list NX_SyscallHandler := [SysInvalidCall_].

Definition NX_SyscallGetHandler (api : Z) : NX_SyscallHandler :=
  let callNumber := NX_SYSCALL_NUMBER api in
  let callEnv := NX_SYSCALL_ENV api in
  let entry table := default SysInvalidCall_ (if callNumber <? length table then zlookup table callNumber else None) in
  if callEnv =? NX_SYSCALL_ENV_XBOOK then entry NX_SyscallTable
  else if callEnv =? NX_SYSCALL_ENV_POSIX then entry NX_SyscallTablePosix
  else if callEnv =? NX_SYSCALL_ENV_WIN32 then entry NX_SyscallTableWin32
  else SysInvalidCall_.

(** ** Memory, directory, threads *)
Definition NX_PROT_READ : Z := 1.
Definition NX_PROT_WRITE : Z := 2.
Definition NX_PROT_EXEC : Z := 4.
Definition NX_THREAD_CREATE_SUSPEND : Z := 1.
Definition UserThreadEntry_ : Z := 2.

Record NX_ThreadAttr := mkThreadAttr { attr_stackSize : Z; attr_schedPriority : Z }.

(** [NX_PAGE_ATTR_READ], [_WRITE] and [_EXEC] of the riscv64 port. *)
Definition NX_PAGE_ATTR_READ : Z := Sv39.PTE_R.
Definition NX_PAGE_ATTR_WRITE : Z := Z.lor Sv39.PTE_W Sv39.PTE_R.
Definition NX_PAGE_ATTR_EXEC : Z := Sv39.PTE_X.

Definition prot_attr (prot : Z) : Z :=
  let attr := Z.ldiff Sv39.NX_PAGE_ATTR_USER Sv39.NX_PAGE_ATTR_RWX in
  let attr := if nz (Z.land prot NX_PROT_READ) then Z.lor attr NX_PAGE_ATTR_READ else attr in
  let attr := if nz (Z.land prot NX_PROT_WRITE) then Z.lor attr NX_PAGE_ATTR_WRITE else attr in
  if nz (Z.land prot NX_PROT_EXEC) then Z.lor attr NX_PAGE_ATTR_EXEC else attr.

Section calls.
Context {World : Type} (NX_MULTI_CORES_NR : Z).
Context {F : Type} `{FileOps F}.
Context {M : Type} `{MmuOps M}.
Context (node_alloc : list NX_Vmnode -> option Z).
Notation NR := NX_MULTI_CORES_NR.
Notation State := (@Process.State World M).
Implicit Types (s : State).

(** The process of the caller, whose members a call reads through its pointer. *)
Definition own_process s (coreId : Z) : option (Z * @Process.NX_Process M) :=
  p ← NX_ProcessCurrent NR s coreId; p ← p; x ← procs s !! p; Some (p, x).

(** The address, and the error stored through [outErr]. *)
Definition SysMemMap s (coreId addr length prot : Z) : option (State * Z * NX_Error) :=
  if (length =? 0) || (prot =? 0) then Some (s, 0, NX_EINVAL)
  else
    '(p, x) ← own_process s coreId;
    '(sp, err, outAddr) ← NX_VmspaceMap (node_alloc (spaceNodeList (vmspace x))) (vmspace x) addr length (prot_attr prot) 0;
    Some (put_process s p (with_vmspace x sp), outAddr, err).

Definition SysMemUnmap s (coreId addr length : Z) : option (State * NX_Error) :=
  if (addr =? 0) || (length =? 0) then Some (s, NX_EINVAL)
  else
    '(p, x) ← own_process s coreId;
    '(sp, err) ← Unmap node_alloc (vmspace x) (NX_PAGE_ALIGNDOWN addr) length;
    Some (put_process s p (with_vmspace x sp), err).

Definition SysMemHeap s (coreId addr : Z) : option (State * Z * NX_Error) :=
  '(p, x) ← own_process s coreId;
  let l := spaceNodeList (vmspace x) in
  '(sp, a, err) ← NX_VmspaceUpdateHeap Sv39.NX_PAGE_ATTR_USER (node_alloc l) (node_alloc2 node_alloc l) (vmspace x) addr;
  Some (put_process s p (with_vmspace x sp), a, err).

(** The bytes copied to the user: [length] is compared as an [int]. *)
Definition int_of (x : Z) : Z := let y := u32 x in if y <? 2 ^ 31 then y else y - 2 ^ 32.
Definition SysProcessGetCwd s (coreId buf length : Z) : option (NX_Error * option str) :=
  if (buf =? 0) || (length =? 0) then Some (NX_EINVAL, None)
  else
    p ← NX_ProcessCurrent NR s coreId;
    cwd ← NX_ProcessGetCwd s p;
    match cwd with
    | None => Some (NX_ENORES, None)
    | Some cwd =>
        let n := if u64 (int_of length) <? Datatypes.length cwd then u64 (int_of length) else Datatypes.length cwd in
        Some (NX_EOK, Some (take (Z.to_nat n) cwd))
    end.

Definition SysProcessSetCwd (NX_VfsStat : F -> str -> option (F * Z * NX_Error)) s (f : F) (coreId : Z) (buf : option str) :
    option (State * F * NX_Error) :=
  match buf with
  | None => Some (s, f, NX_EINVAL)
  | Some _ =>
      p ← NX_ProcessCurrent NR s coreId;
      cwd ← NX_ProcessGetCwd s p;
      match cwd with
      | None => Some (s, f, NX_ENORES)
      | Some here => NX_ProcessSetCwd NX_VfsStat s f (Some here) p buf
      end
  end.

(** What the allocator answers, and where the area of [NX_ProcessMapTls] is. *)
Record ThreadMem := mkThreadMem { tm_thread : option Z; tm_stack : option Z; tm_area : Z }.

Definition clamp_priority (prio : Z) : Z :=
  let prio := if prio <? NX_THREAD_PRIORITY_LOW then NX_THREAD_PRIORITY_LOW else prio in
  if prio >? NX_THREAD_PRIORITY_HIGH then NX_THREAD_PRIORITY_HIGH else prio.

(** [NX_ThreadDestroy], [NX_VmspaceUnmap] of the stack: the ways back of the call. *)
Definition destroy_thread s (t : Z) : option State :=
  '(y, _) ← NX_ThreadDestroy (sys_ s) t; Some (with_resources (with_sys_ s y) (delete t (resources s))).
Definition unmap_user_stack s (p base size : Z) : option State :=
  x ← procs s !! p; '(sp, _) ← Unmap node_alloc (vmspace x) base size; Some (put_process s p (with_vmspace x sp)).

(** The end of a creation that succeeds. *)
Definition start_user_thread s (coreId p t flags : Z) : option State :=
  s ← NX_ProcessAppendThread s p t;
  '(y, _) ← Sched.NX_ThreadStart NR (sys_ s) t;
  if nz (Z.land flags NX_THREAD_CREATE_SUSPEND) then '(y, _) ← NX_ThreadBlock NR y coreId t; Some (with_sys_ s y)
  else Some (with_sys_ s y).

(** The last component is what is stored through [outSolt]. *)
Definition SysThreadCreate (o : ThreadMem) s (m : memory) (coreId : Z) (attr : option NX_ThreadAttr) (handler arg flags : Z) :
    option (State * memory * NX_Error * option Z) :=
  match attr with
  | None => Some (s, m, NX_EINVAL, None)
  | Some attr =>
      if (handler =? 0) || (attr_stackSize attr =? 0) then Some (s, m, NX_EINVAL, None)
      else
        p ← NX_ProcessCurrent NR s coreId;
        match p with
        | None => Some (s, m, NX_EFAULT, None)
        | Some p =>
            x ← procs s !! p;
            let size := attr_stackSize attr in
            '(sp, err, base) ← NX_VmspaceMap (node_alloc (spaceNodeList (vmspace x))) (vmspace x) 0 size Sv39.NX_PAGE_ATTR_USER 0;
            let s := put_process s p (with_vmspace x sp) in
            if negb (is_ok err) then Some (s, m, err, None)
            else
              assert (nz base);;
              '(y, t) ← NX_ThreadCreate NR (tm_thread o) (tm_stack o) (sys_ s) 1 UserThreadEntry_ arg (clamp_priority (attr_schedPriority attr));
              let s := with_sys_ s y in
              match t with
              | None => s ← unmap_user_stack s p base size; Some (s, m, NX_ENORES, None)
              | Some t =>
                  let s := with_resources s (<[t := set_user handler base size no_resource]> (resources s)) in
                  '(m, sp, err, a) ← NX_ProcessMapTls Sv39.NX_PAGE_ATTR_USER node_alloc m sp (tm_area o) 0;
                  let x := with_vmspace x sp in
                  let s := put_process s p x in
                  s ← upd_resource s t (set_tls a);
                  if negb (is_ok err) then
                    s ← destroy_thread s t; s ← unmap_user_stack s p base size; Some (s, m, NX_ENOMEM, None)
                  else
                    '(table, err, solt) ← NX_ExposedObjectInstall (exobjTable x) t NX_EXOBJ_THREAD 0;
                    let s := put_process s p (with_table x table) in
                    if negb (is_ok err) then
                      s ← unmap_tls node_alloc s p t; s ← destroy_thread s t; s ← unmap_user_stack s p base size; Some (s, m, NX_ENORES, None)
                    else s ← start_user_thread s coreId p t flags; Some (s, m, NX_EOK, solt)
              end
        end
  end.

(** The top of the stack [UserThreadEntry] gives to the new thread. *)
Definition UserThreadEntry_stack (r : NX_ThreadResource) : Z := NX_ALIGN_DOWN (u64 (userStackBase r + userStackSize r)) 8.

Definition SysThreadGetProcessId s (coreId solt outId : Z) : option (NX_Error * option Z) :=
  if (solt =? NX_SOLT_INVALID_VALUE) || (outId =? 0) then Some (NX_EINVAL, None)
  else
    '(_, x) ← own_process s coreId;
    r ← solt_object (exobjTable x) solt NX_EXOBJ_THREAD;
    match r with
    | inr err => Some (err, None)
    | inl thread => r ← resources s !! thread; q ← process r; y ← procs s !! q; Some (NX_EOK, Some (pid y))
    end.
End calls.

(** ** The numbers of the calls *)
Lemma handler_in_table api : 0 <= api < 2 ^ 32 ->
  NX_SyscallGetHandler api = default SysInvalidCall_ (NX_SyscallTable !! Z.to_nat api) /\
  (NX_SyscallGetHandler api <> SysInvalidCall_ -> 0 < api < Z.of_nat (length NX_SyscallTable)).
Proof.
  intros Hapi. unfold NX_SyscallGetHandler, NX_SYSCALL_NUMBER, NX_SYSCALL_ENV, NX_SYSCALL_ENV_SHIFT.
  assert (Es : Z.shiftr api 24 = api / 2 ^ 24) by (apply Z.shiftr_div_pow2; lia).
  assert (Em : Z.land api (Z.shiftl 1 24 - 1) = api mod 2 ^ 24).
  { change (Z.shiftl 1 24 - 1) with (Z.ones 24). apply Z.land_ones. lia. }
  rewrite Es, Em. cbn [NX_SyscallTablePosix NX_SyscallTableWin32 length]. change (Z.of_nat (length NX_SyscallTable)) with 74.
  assert (Hlow : api / 2 ^ 24 = 0 -> api mod 2 ^ 24 = api) by (intros ?%Z.div_small_iff; [apply Z.mod_small|]; lia).
  assert (Hhigh : api / 2 ^ 24 <> 0 -> NX_SyscallTable !! Z.to_nat api = None).
  { intros Hne. apply lookup_ge_None. change (length NX_SyscallTable) with 74%nat.
    assert (~ api < 2 ^ 24) by (intros ?; apply Hne; apply Z.div_small; lia). lia. }
  assert (Hone : forall n, 0 <= n -> default SysInvalidCall_ (if n <? 1 then zlookup [SysInvalidCall_] n else None) = SysInvalidCall_).
  { intros n Hn. destruct (Z.ltb_spec n 1); [|done]. by replace n with 0 by lia. }
  assert (0 <= api mod 2 ^ 24) by (apply Z.mod_pos_bound; lia).
  destruct (Z.eqb_spec (api / 2 ^ 24) NX_SYSCALL_ENV_XBOOK) as [E|E].
  - rewrite (Hlow E). destruct (Z.ltb_spec api 74) as [Hlt|Hge].
    + unfold zlookup. rewrite (proj2 (Z.leb_le 0 api)) by lia. split; [done|]. intros Hne. split; [|done].
      destruct (Z.eq_dec api 0) as [->|]; [exfalso; by apply Hne|lia].
    + split; [|done]. by rewrite lookup_ge_None_2 by (change (length NX_SyscallTable) with 74%nat; lia).
  - rewrite (Hhigh E). change (Z.of_nat 1) with 1. destruct (_ =? NX_SYSCALL_ENV_POSIX); [by rewrite Hone|].
    destruct (_ =? NX_SYSCALL_ENV_WIN32); [by rewrite Hone|done].
Qed.

(** Every number that is not a call leads to [SysInvalidCall], and no call has two
    numbers. *)
Theorem syscall_dispatch a b : 0 <= a < 2 ^ 32 -> 0 <= b < 2 ^ 32 ->
  (length NX_SyscallTable <= a -> NX_SyscallGetHandler a = SysInvalidCall_) /\
  (NX_SyscallGetHandler a = NX_SyscallGetHandler b -> NX_SyscallGetHandler a <> SysInvalidCall_ -> a = b).
Proof.
  intros Ha Hb. destruct (handler_in_table a Ha) as [Ea Hia], (handler_in_table b Hb) as [Eb Hib]. split.
  - intros Hge. rewrite Ea, lookup_ge_None_2 by lia. done.
  - intros E Hne. specialize (Hia Hne). rewrite E in Hne. specialize (Hib Hne). clear Hne. rewrite E, Eb in Ea. clear E Eb.
    assert (Hnd : NoDup NX_SyscallTable) by (apply (bool_decide_unpack _); by vm_compute).
    destruct (lookup_lt_is_Some_2 NX_SyscallTable (Z.to_nat a)) as [x Hx]; [lia|].
    destruct (lookup_lt_is_Some_2 NX_SyscallTable (Z.to_nat b)) as [y Hy]; [lia|].
    rewrite Hx, Hy in Ea. cbn in Ea. subst y. pose proof (NoDup_lookup _ _ _ _ Hnd Hx Hy). lia.
Qed.

(** ** A thread of the process of ProcessExit.v *)
Definition demo_create (o : ThreadMem) (prio flags : Z) :=
  SysThreadCreate 1 fresh_id o demo_state (fun _ => 7) 0 (Some (mkThreadAttr 8192 prio)) 0x100000100 5 flags.

(** The new thread is in the process and at solt 1, with its stack and its own page;
    but it has the table of files of the kernel, not that of its process. *)
Example created_thread :
  ('(s, _, err, solt) ← demo_create (mkThreadMem (Some 700) (Some 70000) 900) 99 0;
   x ← procs s !! 5000; r ← resources s !! 700; t ← threads (sys_ s) !! 700;
   Some (err, solt, threadPool x, bool_decide (process r = Some 5000), (Sched.priority t, UserThreadEntry_stack r), (fileTable_ r, fileTable x))) =
  Some (NX_EOK, Some 1, [700; 200], true, (6, 0x300003000), (1, 7200)).
Proof. vm_compute. reflexivity. Qed.

(** Without memory for the thread the stack is unmapped again. *)
Example create_gives_back :
  ('(s, _, err, solt) ← demo_create (mkThreadMem None None 900) 3 0; x ← procs s !! 5000;
   Some (err, solt, spaceNodeList (vmspace x), threadPool x)) = Some (NX_ENORES, None, spaceNodeList tls_space, [200]).
Proof. vm_compute. reflexivity. Qed.
