(* ===== verification/Riscv.v ===== *)
(** The riscv64 port below the scheduler: the registers of a core, the interrupt
    controller, traps, the frames of threads, the first use of memory
    ([arch/riscv64/kernel] and [arch/riscv64/port], for the qemu platform).

    A machine is a core, the registers of the interrupt controller by address and
    the world [W] the handlers of interrupts and system calls work on.  What the
    hardware answers when a register has effects of its own (claiming an interrupt,
    the time) is a parameter.  Saving and restoring the registers of a thread is
    assembly; here its frame is a value, and bytes when it is copied. *)
From S2P Require Import Prelude Bits Mmu Vmspace Elf Irq Syscall.
From S2P Require Sv39.
#[local] Coercion Z.of_nat : nat >-> Z.

(** ** [regs.h], [plic.h], [riscv.h], [platform.h] *)
Definition SSTATUS_SPP : Z := 1 << 8.
Definition SSTATUS_SPIE : Z := 1 << 5.
Definition SSTATUS_SIE : Z := 1 << 1.
Definition SSTATUS_SUM : Z := 1 << 18.
Definition RISCV_XLEN : Z := 64.
Definition SCAUSE_INTERRUPT : Z := 1 << (RISCV_XLEN - 1).
Definition SCAUSE_S_TIMER_INTR : Z := 5.
Definition SCAUSE_S_EXTERNAL_INTR : Z := 9.
Definition SIE_SSIE : Z := 1 << 1.
Definition SIE_STIE : Z := 1 << 5.
Definition SIE_SEIE : Z := 1 << 9.
Definition RISCV_SYSCALL_EXCEPTION : Z := 8.

Definition NX_MB : Z := 2 ^ 20.
Definition RISCV_CLINT_PADDR : Z := 0x02000000.
Definition RISCV_PLIC_PADDR : Z := 0x0c000000.
Definition PLIC_ADDR : Z := RISCV_PLIC_PADDR.
Definition PLIC_PRIORITY : Z := PLIC_ADDR + 0x0.
Definition PLIC_ENABLE (hart : Z) : Z := PLIC_ADDR + 0x2080 + hart * 0x100.
Definition PLIC_THRESHOLD (hart : Z) : Z := PLIC_ADDR + 0x201000 + hart * 0x2000.
Definition PLIC_CLAIM (hart : Z) : Z := PLIC_ADDR + 0x201004 + hart * 0x2000.
Definition PLIC_MEMSZ0 : Z := 0x4000.
Definition PLIC_MEMSZ1 : Z := 4 * 0x2000 + 0x2000.
Definition NX_VALID_HARTID_OFFSET : Z := 0.

(** ** The registers of a core *)
Record Hart := mkHart { sstatus : Z; sie : Z; stvec : Z; scause : Z; stval : Z; sscratch : Z; satp : Z; tp : Z }.
Definition with_sstatus (h : Hart) x := mkHart x (sie h) (stvec h) (scause h) (stval h) (sscratch h) (satp h) (tp h).
Definition with_sie (h : Hart) x := mkHart (sstatus h) x (stvec h) (scause h) (stval h) (sscratch h) (satp h) (tp h).
Definition with_stvec (h : Hart) x := mkHart (sstatus h) (sie h) x (scause h) (stval h) (sscratch h) (satp h) (tp h).
Definition with_satp (h : Hart) x := mkHart (sstatus h) (sie h) (stvec h) (scause h) (stval h) (sscratch h) x (tp h).
Definition with_tp (h : Hart) x := mkHart (sstatus h) (sie h) (stvec h) (scause h) (stval h) (sscratch h) (satp h) x.

(** *** Whether interrupts are let through: [port/interrupt.c] *)
Definition NX_HalIrqEnable (h : Hart) : Hart := with_sstatus h (Z.lor (sstatus h) SSTATUS_SIE).
Definition NX_HalIrqDisable (h : Hart) : Hart := with_sstatus h (Z.land (sstatus h) (not64 SSTATUS_SIE)).
Definition NX_HalIrqSaveLevel (h : Hart) : Hart * Z :=
  let level := sstatus h in (with_sstatus h (Z.land level (not64 SSTATUS_SIE)), Z.land level SSTATUS_SIE).
Definition NX_HalIrqRestoreLevel (h : Hart) (level : Z) : Hart := with_sstatus h (Z.lor (sstatus h) (Z.land level SSTATUS_SIE)).
Definition interrupts_on (h : Hart) : bool := nz (Z.land (sstatus h) SSTATUS_SIE).

(** *** Which core this is: [port/smp.c], [kernel/trap.c]

    [gTrapEntry] are the addresses of the five entries of [interrupt.S]. *)
Section cores.
Context (gTrapEntry : list Z).

Definition CPU_InitTrap (h : Hart) (coreId : Z) : Hart :=
  match zlookup (take 5 gTrapEntry) coreId with
  | Some trapEntry => let h := with_stvec h trapEntry in with_sie h (Z.lor (sie h) SIE_SSIE)
  | None => h
  end.

Fixpoint entry_index (l : list Z) (trapEntry i : Z) : option Z :=
  match l with
  | [] => None
  | a :: l => if trapEntry =? a then Some i else entry_index l trapEntry (i + 1)
  end.
Definition NX_HalCoreGetIndex (h : Hart) : option Z := entry_index (take 5 gTrapEntry) (stvec h) 0.

(** The calls of [sbi_hsm_hart_start]: the cores from [coreId] on that are woken. *)
Fixpoint BootApp_loop (n : nat) (bootCoreId coreId : Z) : list Z :=
  match n with
  | O => []
  | S n => (if bootCoreId =? coreId then [] else [coreId]) ++ BootApp_loop n bootCoreId (coreId + 1)
  end.
Definition NX_HalCoreBootApp (NX_MULTI_CORES_NR bootCoreId : Z) : list Z * NX_Error :=
  (BootApp_loop (Z.to_nat (NX_MULTI_CORES_NR - NX_VALID_HARTID_OFFSET)) bootCoreId NX_VALID_HARTID_OFFSET, NX_EOK).
End cores.

(** *** Atomic operations: [port/atomic.c]

    Each is one step on the value of the cell, a 64-bit [long]; [NX_HalAtomicCAS] is in
    Sync.v. *)
Definition NX_HalAtomicSet (cell value : Z) : Z := value.
Definition NX_HalAtomicGet (cell : Z) : Z := cell.
Definition NX_HalAtomicAdd (cell value : Z) : Z := i64 (cell + value).
Definition NX_HalAtomicSub (cell value : Z) : Z := i64 (cell - value).
Definition NX_HalAtomicInc (cell : Z) : Z := i64 (cell + 1).
Definition NX_HalAtomicDec (cell : Z) : Z := i64 (cell - 1).
Definition NX_HalAtomicSetMask (cell mask : Z) : Z := Z.lor cell mask.
Definition NX_HalAtomicClearMask (cell mask : Z) : Z := Z.land cell (Z.lnot mask).
Definition NX_HalAtomicSwap (cell newValue : Z) : Z * Z := (newValue, cell).

(** ** The frame of a thread: [context.h] *)
Record NX_HalContext := mkContext {
  epc : Z; ra : Z; sp : Z; gp : Z; c_tp : Z; t0 : Z; t1 : Z; t2 : Z; s0 : Z; s1 : Z;
  a0 : Z; a1 : Z; a2 : Z; a3 : Z; a4 : Z; a5 : Z; a6 : Z; a7 : Z;
  s2 : Z; s3 : Z; s4 : Z; s5 : Z; s6 : Z; s7 : Z; s8 : Z; s9 : Z; s10 : Z; s11 : Z;
  t3 : Z; t4 : Z; t5 : Z; t6 : Z; c_sstatus : Z
}.
Definition words (c : NX_HalContext) : list Z :=
  [epc c; ra c; sp c; gp c; c_tp c; t0 c; t1 c; t2 c; s0 c; s1 c; a0 c; a1 c; a2 c; a3 c; a4 c; a5 c; a6 c; a7 c;
   s2 c; s3 c; s4 c; s5 c; s6 c; s7 c; s8 c; s9 c; s10 c; s11 c; t3 c; t4 c; t5 c; t6 c; c_sstatus c].
Definition sizeof_context : Z := 33 * 8.

(** What a system call changes in the frame. *)
Definition with_result (c : NX_HalContext) (epc' a0' a7' : Z) : NX_HalContext :=
  mkContext epc' (ra c) (sp c) (gp c) (c_tp c) (t0 c) (t1 c) (t2 c) (s0 c) (s1 c) a0' (a1 c) (a2 c) (a3 c) (a4 c) (a5 c) (a6 c) a7'
    (s2 c) (s3 c) (s4 c) (s5 c) (s6 c) (s7 c) (s8 c) (s9 c) (s10 c) (s11 c) (t3 c) (t4 c) (t5 c) (t6 c) (c_sstatus c).

(** The memory holds the frame at [a]. *)
Definition frame_at (m : memory) (a : Z) (c : NX_HalContext) : Prop :=
  forall k, 0 <= k < sizeof_context -> Some (m (a + k)) = zlookup (concat (le_bytes 8 <$> words c)) k.

(** [port/context.c]: the address of the new frame and what is stored there. *)
Definition NX_HalContextInit (m : memory) (startEntry exitEntry arg stackTop : Z) : memory * Z :=
  let stack := NX_ALIGN_DOWN stackTop 8 in
  let stack := stack - sizeof_context in
  let c := mkContext startEntry exitEntry (stack + sizeof_context) 0 0 0 0 0 0 0 arg 0 0 0 0 0 0 0 0 0 0 0 0 0 0 0 0 0 0 0 0 0
             (Z.lor (Z.lor SSTATUS_SUM SSTATUS_SPP) SSTATUS_SPIE) in
  (store_bytes m stack (concat (le_bytes 8 <$> words c)), stack).

(** [TrapSwitchStack]: the frame moves from the stack of the core to that of the
    thread, whose top is [stackBase + stackSize] when the trap comes from user mode. *)
Definition TrapSwitchStack (h : Hart) (m : memory) (stackBase stackSize frame : Z) : memory * Z :=
  let sp := if nz (Z.land (sstatus h) SSTATUS_SPP) then sscratch h else stackBase + stackSize in
  let sp := sp - sizeof_context in
  (mem_copy (Z.to_nat sizeof_context) m sp frame, sp).

(** ** The machine *)
Record Machine (W : Type) := mkMachine { hart : Hart; plic : Z -> Z; world : W }.
Arguments mkMachine {W}. Arguments hart {W}. Arguments plic {W}. Arguments world {W}.

Section machine.
Context {W : Type}.
Implicit Types (m : Machine W) (irqno : Z).
Context (NX_MULTI_CORES_NR NX_NR_IRQS boot_core : Z).
(** What reading the claim register of a core gives, and what writing to it does. *)
Context (claim_read : Z -> Machine W -> Machine W * Z) (claim_write : Z -> Z -> Machine W -> Machine W).

Definition on_hart m (f : Hart -> Hart) : Machine W := mkMachine (f (hart m)) (plic m) (world m).
Definition with_world m (w : W) : Machine W := mkMachine (hart m) (plic m) w.
Definition Read32 m (addr : Z) : Z := plic m addr.
Definition Write32 m (addr value : Z) : Machine W :=
  mkMachine (hart m) (fun a => if a =? addr then u32 value else plic m a) (world m).

(** *** [kernel/plic.c] *)
Definition PLIC_SetPriority m irqno (priority : Z) : Machine W * NX_Error :=
  if (irqno <=? 0) || (irqno >=? NX_NR_IRQS) then (m, NX_EINVAL)
  else (Write32 m (PLIC_PRIORITY + 4 * irqno) priority, NX_EOK).

Definition PLIC_EnableIRQ m (hart irqno : Z) : Machine W * NX_Error :=
  if (hart >=? NX_MULTI_CORES_NR) || (irqno <=? 0) || (irqno >=? NX_NR_IRQS) then (m, NX_EINVAL)
  else
    let enableReg := PLIC_ENABLE hart + 4 * (irqno / 32) in
    let off := irqno mod 32 in
    let m := Write32 m enableReg (Z.lor (Read32 m enableReg) (u32 (1 << off))) in
    ((PLIC_SetPriority m irqno 1).1, NX_EOK).

Definition PLIC_DisableIRQ m (hart irqno : Z) : Machine W * NX_Error :=
  if (hart >=? NX_MULTI_CORES_NR) || (irqno <=? 0) || (irqno >=? NX_NR_IRQS) then (m, NX_EINVAL)
  else
    let enableReg := PLIC_ENABLE hart + 4 * (irqno / 32) in
    let off := irqno mod 32 in
    let m := Write32 m enableReg (Z.land (Read32 m enableReg) (not32 (u32 (1 << off)))) in
    ((PLIC_SetPriority m irqno 0).1, NX_EOK).

Definition PLIC_Claim m (hart : Z) : Machine W * Z :=
  if hart >=? NX_MULTI_CORES_NR then (m, 0) else claim_read (PLIC_CLAIM hart) m.

Definition PLIC_Complete m (hart irqno : Z) : Machine W * NX_Error :=
  if (hart >=? NX_MULTI_CORES_NR) || (irqno <=? 0) || (irqno >=? NX_NR_IRQS) then (m, NX_EINVAL)
  else (claim_write (PLIC_CLAIM hart) irqno m, NX_EOK).

Fixpoint Threshold_loop (n : nat) m (hart : Z) : Machine W :=
  match n with
  | O => m
  | S n => Threshold_loop n (Write32 m (PLIC_THRESHOLD hart) 0) (hart + 1)
  end.
Fixpoint Priority_loop (n : nat) m irqno : Machine W :=
  match n with
  | O => m
  | S n => Priority_loop n (PLIC_SetPriority m irqno 0).1 (irqno + 1)
  end.
Definition PLIC_Init m (bootCore : bool) : Machine W :=
  let m := if bootCore then
             let m := Threshold_loop (Z.to_nat (NX_MULTI_CORES_NR - NX_VALID_HARTID_OFFSET)) m NX_VALID_HARTID_OFFSET in
             Priority_loop (Z.to_nat (NX_NR_IRQS - 1)) m 1
           else m in
  on_hart m (fun h => with_sie h (Z.lor (sie h) SIE_SEIE)).

(** A core that was woken; [kernelTable] is the page table of the kernel. *)
Definition NX_HalCoreEnterApp (gTrapEntry : list Z) m (appCoreId kernelTable : Z) : Machine W * NX_Error :=
  let m := on_hart m (fun h => CPU_InitTrap gTrapEntry h appCoreId) in
  let m := PLIC_Init m false in
  let m := on_hart m (fun h => with_satp h (Sv39.NX_HalSetPageTable (satp h) kernelTable)) in
  (on_hart m (fun h => with_satp h (Sv39.NX_HalEnable (satp h))), NX_EOK).

(** *** The controller of the interrupts: [port/interrupt.c] *)
Definition NX_HalIrqUnmask irqno m : Machine W * NX_Error :=
  if (irqno <? 0) || (irqno >=? NX_NR_IRQS) then (m, NX_EINVAL) else PLIC_EnableIRQ m boot_core irqno.
Definition NX_HalIrqMask irqno m : Machine W * NX_Error :=
  if (irqno <? 0) || (irqno >=? NX_NR_IRQS) then (m, NX_EINVAL) else PLIC_DisableIRQ m boot_core irqno.
Definition NX_HalIrqAck irqno m : Machine W * NX_Error :=
  if (irqno <? 0) || (irqno >=? NX_NR_IRQS) then (m, NX_EINVAL) else PLIC_Complete m boot_core irqno.

(** *** The clock: [port/clock.c]

    [rdtime] is what the time register shows; [sbi_set_timer] asks for the next
    interrupt; [NX_ClockTickGo] is that of Irq.v on the clock in the world. *)
Context (rdtime : W -> Z) (sbi_set_timer : Z -> W -> W) (ClockTickGo : W -> option W) (NX_TICKS_PER_SECOND : Z).
Definition NX_TIMER_CLK_FREQ : Z := 10000000.
Definition tickDelta : Z := NX_TIMER_CLK_FREQ / NX_TICKS_PER_SECOND.
Definition NX_HalClockHandler m : option (Machine W) :=
  w ← ClockTickGo (world m); Some (with_world m (sbi_set_timer (u64 (rdtime w + tickDelta)) w)).
Definition NX_HalInitClock m : Machine W * NX_Error :=
  let m := on_hart m (fun h => with_sie h (Z.land (sie h) (not64 SIE_STIE))) in
  let m := with_world m (sbi_set_timer (u64 (rdtime (world m) + tickDelta)) (world m)) in
  (on_hart m (fun h => with_sie h (Z.lor (sie h) SIE_STIE)), NX_EOK).

(** *** Traps: [kernel/trap.c], [port/process.c]

    [call] runs a system call with its seven arguments; [None] when it does not come
    back to this thread. *)
Context (call : NX_SyscallHandler -> list Z -> Machine W -> option (Machine W * Z)).
Context (action_call : Z -> Z -> Z -> Machine W -> Machine W * NX_Error).

Definition NX_HalProcessSyscallDispatch m (frame : NX_HalContext) : option (Machine W * NX_HalContext) :=
  let handler := NX_SyscallGetHandler (u32 (a7 frame)) in
  '(m, r) ← call handler [a0 frame; a1 frame; a2 frame; a3 frame; a4 frame; a5 frame; a6 frame] m;
  Some (m, with_result frame (u64 (epc frame + 4)) r 0).

(** An unknown trap is reported and the core spins. *)
Definition TrapDispatch (table : list NX_IRQ_Node) m (frame : NX_HalContext) : option (Machine W * NX_HalContext) :=
  let cause := scause (hart m) in
  let id := Z.land cause ((1 << (RISCV_XLEN - 2)) - 1) in
  if nz (Z.land SCAUSE_INTERRUPT cause) && (SCAUSE_S_EXTERNAL_INTR =? Z.land cause 0xff) then
    let (m, irqno) := PLIC_Claim m boot_core in
    if negb (irqno =? 0) then
      '(m, _) ← NX_IRQ_Handle NX_NR_IRQS action_call (Some NX_HalIrqAck) table irqno m; Some (m, frame)
    else Some (m, frame)
  else if Z.lor SCAUSE_INTERRUPT SCAUSE_S_TIMER_INTR =? cause then
    m ← NX_HalClockHandler m; Some (m, frame)
  else if nz (Z.land SCAUSE_INTERRUPT cause) then None
  else if id =? RISCV_SYSCALL_EXCEPTION then
    let m := on_hart m NX_HalIrqEnable in
    '(m, frame) ← NX_HalProcessSyscallDispatch m frame;
    Some (on_hart m NX_HalIrqDisable, frame)
  else None.

(** *** Into user mode: [port/process.c] with [process.S]

    What a core has when it goes on in user mode: the program counter, the stack,
    the return address and the argument. *)
Record User := mkUser { u_pc : Z; u_sp : Z; u_ra : Z; u_a0 : Z }.

Definition NX_HalProcessSetTls m (tls : Z) : Machine W := on_hart m (fun h => with_tp h tls).
Definition NX_HalProcessGetTls m : Z := tp (hart m).

Definition NX_HalProcessEnterUserMode m (args text userStack returnAddr : Z) : Machine W * User :=
  let m := on_hart m (fun h =>
    with_sstatus h (Z.lor (Z.land (sstatus h) (not64 (Z.lor SSTATUS_SPP SSTATUS_SIE))) SSTATUS_SPIE)) in
  (m, mkUser text userStack returnAddr args).

Definition NX_HalProcessExecuteUser m (tls text userStack args : Z) : Machine W * User :=
  NX_HalProcessEnterUserMode (NX_HalProcessSetTls m tls) args text userStack 0.

(** [code] is the code between the two labels [__UserThreadReturnCode...], which is
    copied to the stack of the thread, in the memory [mem] of the process. *)
Definition NX_HalProcessExecuteUserThread m (mem : memory) (code : list Z) (tls text userStack arg : Z) : Machine W * memory * User :=
  let m := NX_HalProcessSetTls m tls in
  let retCode := userStack - Z.of_nat (length code) in
  let mem := store_bytes mem retCode code in
  let retStack := NX_ALIGN_DOWN retCode 8 in
  let (m, u) := NX_HalProcessEnterUserMode m arg text retStack retCode in
  (m, mem, u).
End machine.

(** ** The first use of memory: [kernel/memory.c] on the qemu platform *)
Definition DRAM_SIZE_DEFAULT : Z := 256 * NX_MB.
Definition MEM_SBI_BASE : Z := 0x80000000.
Definition MEM_SBI_SZ : Z := 2 * NX_MB.
Definition MEM_KERNEL_BASE : Z := MEM_SBI_BASE + MEM_SBI_SZ.
Definition MEM_KERNEL_SZ : Z := 30 * NX_MB.
Definition MEM_NORMAL_BASE : Z := MEM_KERNEL_BASE + MEM_KERNEL_SZ.
Definition MEM_MIN_SIZE : Z := 128 * NX_MB.
Definition MEM_KERNEL_SPACE_SZ : Z := 128 * NX_MB.
Definition MEM_KERNEL_TOP : Z := MEM_SBI_BASE + MEM_KERNEL_SPACE_SZ.
Definition UART0_PHY_ADDR : Z := 0x10000000.

(** The two zones that [NX_HalPageZoneInit] makes of a memory of [memSize] bytes, base
    and size; [None] is the panic. *)
Definition PageZoneInit_zones (memSize : Z) : option ((Z * Z) * (Z * Z)) :=
  assert (negb (memSize =? 0));; assert (negb (memSize <? MEM_MIN_SIZE));;
  let avaliableSize := memSize - MEM_KERNEL_SZ - MEM_SBI_SZ in
  let normalSize := avaliableSize / 2 in
  let normalSize := if normalSize >? MEM_KERNEL_SPACE_SZ then MEM_KERNEL_SPACE_SZ else normalSize in
  let userBase := MEM_NORMAL_BASE + normalSize in
  let userSize := avaliableSize - normalSize in
  Some ((MEM_NORMAL_BASE, normalSize), (userBase, userSize)).

(** The ranges that are mapped to themselves, in their order: base and size. *)
Definition EarlyMap_ranges (virStart size : Z) : list (Z * Z) :=
  [(virStart, size); (MEM_SBI_BASE, MEM_SBI_SZ); (UART0_PHY_ADDR, NX_PAGE_SIZE); (RISCV_CLINT_PADDR, 0x10000);
   (RISCV_PLIC_PADDR, PLIC_MEMSZ0); (RISCV_PLIC_PADDR + 0x200000, PLIC_MEMSZ1)].

(** The rest of [NX_HalPageZoneInit]: the map of the kernel is [kernelTable] in [s]; a
    range that is not mapped is not noticed. *)
Definition PTE_S : Z := 0x0.
Definition NX_PAGE_ATTR_KERNEL : Z := Z.lor (Z.lor (Z.lor Sv39.PTE_V Sv39.NX_PAGE_ATTR_RWX) PTE_S) Sv39.PTE_G.
Fixpoint map_ranges (s : Sv39.sv39) (l : list (Z * Z)) : option Sv39.sv39 :=
  match l with
  | [] => Some s
  | (base, size) :: l => '(s, _) ← Sv39.NX_HalMapPageWithPhy s base base size NX_PAGE_ATTR_KERNEL; map_ranges s l
  end.
Definition NX_HalEarlyMap (s : Sv39.sv39) (virStart size : Z) : option Sv39.sv39 := map_ranges s (EarlyMap_ranges virStart size).
Definition NX_HalPageZoneInit_map (zs : Page.zones) (mem : Z -> Z) (kernelTable normalSize : Z) : option Sv39.sv39 :=
  let mmu := Sv39.NX_MmuInit kernelTable MEM_KERNEL_BASE MEM_KERNEL_TOP (MEM_NORMAL_BASE + normalSize) in
  NX_HalEarlyMap (Sv39.mkSv39 zs mem mmu) (Sv39.virStart mmu) (Sv39.earlyEnd mmu - Sv39.virStart mmu).

(** ** Interrupts on one core *)

Lemma not64_bit k j : 0 <= k < 64 -> 0 <= j < 64 -> Z.testbit (not64 (1 << k)) j = negb (j =? k).
Proof.
  intros Hk Hj. rewrite Z.shiftl_1_l. unfold not64.
  replace (2 ^ 64 - 1 - 2 ^ k) with (Z.ldiff (Z.ones 64) (2 ^ k)).
  - rewrite Z.ldiff_spec, Z.ones_spec_low, Z.pow2_bits_eqb by lia. cbn. f_equal. apply Z.eqb_sym.
  - rewrite <- Z.sub_nocarry_ldiff; [rewrite Z.ones_equiv; lia|].
    apply Z.bits_inj'. intros i Hi. rewrite Z.ldiff_spec, Z.bits_0, Z.pow2_bits_eqb by lia.
    destruct (Z.eqb_spec k i) as [<-|]; [|done]. by rewrite Z.ones_spec_low by lia.
Qed.

Lemma nz_land_bit x k : 0 <= k -> nz (Z.land x (1 << k)) = Z.testbit x k.
Proof.
  intros Hk. rewrite Z.shiftl_1_l. destruct (Z.testbit x k) eqn:E; unfold nz.
  - destruct (Z.eqb_spec (Z.land x (2 ^ k)) 0) as [H|]; [|done].
    apply (f_equal (fun y => Z.testbit y k)) in H. rewrite Z.land_spec, E, Z.pow2_bits_true, Z.bits_0 in H by done. done.
  - apply negb_false_iff, Z.eqb_eq, Z.bits_inj'. intros i Hi. rewrite Z.land_spec, Z.bits_0, Z.pow2_bits_eqb by lia.
    destruct (Z.eqb_spec k i) as [<-|]; [by rewrite E|]. by rewrite andb_false_r.
Qed.

Lemma interrupts_bit h : interrupts_on h = Z.testbit (sstatus h) 1.
Proof. unfold interrupts_on, SSTATUS_SIE. by rewrite nz_land_bit. Qed.

(** Saving turns the interrupts off and remembers them; a section that ends with them
    off restores what was before. *)
Lemma irq_level_nests h h' :
  let (h1, level) := NX_HalIrqSaveLevel h in
  interrupts_on h1 = false /\
  (interrupts_on h' = false -> interrupts_on (NX_HalIrqRestoreLevel h' level) = interrupts_on h).
Proof.
  unfold NX_HalIrqSaveLevel. rewrite !interrupts_bit. cbn [sstatus with_sstatus]. split.
  - unfold SSTATUS_SIE. rewrite Z.land_spec, not64_bit by lia. apply andb_false_r.
  - intros Hoff. cbn [sstatus with_sstatus NX_HalIrqRestoreLevel]. rewrite Z.lor_spec, !Z.land_spec, Hoff.
    change (Z.testbit SSTATUS_SIE 1) with true. by rewrite !andb_true_r.
Qed.

Lemma enable_on h : interrupts_on (NX_HalIrqEnable h) = true.
Proof. rewrite interrupts_bit. cbn [sstatus NX_HalIrqEnable with_sstatus]. rewrite Z.lor_spec. apply orb_true_r. Qed.
Lemma disable_off h : interrupts_on (NX_HalIrqDisable h) = false.
Proof.
  rewrite interrupts_bit. cbn [sstatus NX_HalIrqDisable with_sstatus]. unfold SSTATUS_SIE.
  rewrite Z.land_spec, not64_bit by lia. apply andb_false_r.
Qed.

(** ** Cores know themselves by their entry of traps *)
Lemma entry_index_spec l : forall (i : Z) (k : nat) (e : Z), NoDup l -> l !! k = Some e -> entry_index l e i = Some (i + k).
Proof.
  induction l as [|a l IH]; intros i k e Hnd Hk; [done|]. cbn [entry_index].
  apply NoDup_cons in Hnd as [Ha Hnd]. destruct k as [|k].
  - injection Hk as ->. rewrite Z.eqb_refl. f_equal. lia.
  - change (l !! k = Some e) in Hk. destruct (Z.eqb_spec e a) as [->|]; [exfalso; exact (Ha (list_elem_of_lookup_2 _ _ _ Hk))|].
    rewrite (IH (i + 1) k) by done. f_equal. lia.
Qed.

Theorem core_index_known gTrapEntry h coreId : NoDup gTrapEntry -> length gTrapEntry = 5%nat -> 0 <= coreId < 5 ->
  NX_HalCoreGetIndex gTrapEntry (CPU_InitTrap gTrapEntry h coreId) = Some coreId.
Proof.
  intros Hnd Hlen Hc. unfold NX_HalCoreGetIndex, CPU_InitTrap. rewrite !take_ge by lia.
  unfold zlookup. rewrite (proj2 (Z.leb_le 0 coreId)) by lia.
  destruct (gTrapEntry !! Z.to_nat coreId) as [e|] eqn:E.
  - cbn [stvec with_stvec with_sie]. rewrite (entry_index_spec _ 0 (Z.to_nat coreId)) by done. f_equal. lia.
  - apply lookup_ge_None in E. lia.
Qed.

(** The start of the others wakes every core but the one that is awake, once. *)
Lemma boot_app_wakes NR boot : 0 <= NR -> (NX_HalCoreBootApp NR boot).1 = filter (fun c => c <> boot) (seqZ 0 NR).
Proof.
  intros Hn. unfold NX_HalCoreBootApp, NX_VALID_HARTID_OFFSET. cbn [fst]. rewrite Z.sub_0_r.
  assert (forall n i, BootApp_loop n boot i = filter (fun c => c <> boot) (seqZ i (Z.of_nat n))) as Hl.
  { induction n as [|n IH]; intros i; [done|]. cbn [BootApp_loop]. rewrite IH.
    rewrite (seqZ_cons i (S n)) by lia. replace (Z.pred (S n)) with (Z.of_nat n) by lia. change (Z.succ i) with (i + 1).
    destruct (Z.eqb_spec boot i) as [->|]; [rewrite filter_cons_False by congruence | rewrite filter_cons_True by congruence]; done. }
  rewrite Hl. f_equal. f_equal. lia.
Qed.

(** ** The interrupt controller *)
Section plic.
Context {W : Type} (NX_MULTI_CORES_NR NX_NR_IRQS boot_core : Z).
Context (Hboot : 0 <= boot_core < NX_MULTI_CORES_NR) (Hcores : NX_MULTI_CORES_NR <= 256) (Hirqs : NX_NR_IRQS <= 1024).
Implicit Types (m : Machine W) (irqno : Z).

(** What the registers of the controller say: bit [irqno mod 32] of word [irqno / 32]
    of the core, the priority of the interrupt, the threshold of the core. *)
Definition enabled m (h irqno : Z) : bool := Z.testbit (plic m (PLIC_ENABLE h + 4 * (irqno / 32))) (irqno mod 32).
Definition priority m irqno : Z := plic m (PLIC_PRIORITY + 4 * irqno).
Definition threshold m (h : Z) : Z := plic m (PLIC_THRESHOLD h).

Lemma u32_bit x k : 0 <= k < 32 -> Z.testbit (u32 x) k = Z.testbit x k.
Proof. intros. unfold u32. by rewrite Z.mod_pow2_bits_low by lia. Qed.

Lemma not32_bit k j : 0 <= k < 32 -> 0 <= j < 32 -> Z.testbit (not32 (u32 (1 << k))) j = negb (j =? k).
Proof.
  intros Hk Hj. assert (0 < 2 ^ k <= 2 ^ 31) by (split; [apply Z.pow_pos_nonneg | apply Z.pow_le_mono_r]; lia).
  rewrite Z.shiftl_1_l, u32_small by lia.
  rewrite <- (not64_bit k j), Z.shiftl_1_l by lia. unfold not32, not64.
  rewrite <- (u32_bit (2 ^ 64 - 1 - 2 ^ k)) by lia. f_equal. unfold u32.
  replace (2 ^ 64 - 1 - 2 ^ k) with (2 ^ 32 - 1 - 2 ^ k + (2 ^ 32 - 1) * 2 ^ 32) by lia.
  rewrite Z.mod_add, Z.mod_small; lia.
Qed.

(** The bit of another interrupt lies elsewhere. *)
Lemma bit_apart irqno i : 0 <= irqno -> 0 <= i -> irqno / 32 = i / 32 -> (i mod 32 =? irqno mod 32) = (i =? irqno).
Proof. intros. apply eq_true_iff_eq. rewrite !Z.eqb_eq. split; intros; zlia. Qed.

Lemma masked m (on : bool) irqno : 0 < irqno < NX_NR_IRQS ->
  let reg := PLIC_ENABLE boot_core + 4 * (irqno / 32) in
  let bit := u32 (1 << (irqno mod 32)) in
  let word := if on then Z.lor (Read32 m reg) bit else Z.land (Read32 m reg) (not32 bit) in
  let m' := (PLIC_SetPriority NX_NR_IRQS (Write32 m reg word) irqno (b2z on)).1 in
  hart m' = hart m /\ world m' = world m /\
  (forall h i, 0 <= h < NX_MULTI_CORES_NR -> 0 <= i < NX_NR_IRQS ->
     enabled m' h i = if (h =? boot_core) && (i =? irqno) then on else enabled m h i) /\
  (forall i, 0 <= i < NX_NR_IRQS -> priority m' i = if i =? irqno then b2z on else priority m i) /\
  (forall h, 0 <= h < NX_MULTI_CORES_NR -> threshold m' h = threshold m h).
Proof.
  intros Hi reg bit word.
  assert (forall m0 p, PLIC_SetPriority NX_NR_IRQS m0 irqno p = (Write32 m0 (PLIC_PRIORITY + 4 * irqno) p, NX_EOK)) as Hset.
  { intros m0 p. unfold PLIC_SetPriority. rewrite (proj2 (Z.leb_gt irqno 0)) by lia.
    by rewrite Z.geb_leb, (proj2 (Z.leb_gt NX_NR_IRQS irqno)) by lia. }
  rewrite Hset. intros m'. cbn [fst] in m'. split_and!; try done.
  - intros h i Hh Hn. unfold enabled, m', Write32. cbn [plic].
    rewrite (proj2 (Z.eqb_neq _ (PLIC_PRIORITY + 4 * irqno))) by (unfold PLIC_ENABLE, PLIC_PRIORITY; zlia).
    destruct (Z.eqb_spec (PLIC_ENABLE h + 4 * (i / 32)) reg) as [E|E].
    + assert (h = boot_core /\ i / 32 = irqno / 32) as [-> Hw] by (unfold reg, PLIC_ENABLE in E; zlia).
      rewrite Z.eqb_refl. cbn [andb]. rewrite <- (bit_apart irqno i) by lia.
      assert (Read32 m reg = plic m (PLIC_ENABLE boot_core + 4 * (i / 32))) as Hr by (unfold Read32, reg; by rewrite Hw).
      assert (0 <= i mod 32 < 32) by (apply Z.mod_pos_bound; lia). assert (0 <= irqno mod 32 < 32) by (apply Z.mod_pos_bound; lia).
      rewrite u32_bit by done. unfold word. rewrite Hr. destruct on.
      * unfold bit. rewrite Z.lor_spec, u32_bit, Z.shiftl_1_l, Z.pow2_bits_eqb, (Z.eqb_sym (irqno mod 32)) by lia.
        destruct (i mod 32 =? irqno mod 32); [apply orb_true_r | apply orb_false_r].
      * unfold bit. rewrite Z.land_spec, not32_bit by done.
        destruct (i mod 32 =? irqno mod 32); [apply andb_false_r | apply andb_true_r].
    + destruct (Z.eqb_spec h boot_core) as [->|]; [|done]. destruct (Z.eqb_spec i irqno) as [->|]; [|done].
      by destruct E.
  - intros i Hn. unfold priority, m', Write32. cbn [plic].
    destruct (Z.eqb_spec i irqno) as [->|].
    + rewrite Z.eqb_refl. by destruct on.
    + rewrite (proj2 (Z.eqb_neq _ (PLIC_PRIORITY + 4 * irqno))) by (unfold PLIC_PRIORITY; lia).
      rewrite (proj2 (Z.eqb_neq _ reg)); [done|]. unfold reg, PLIC_ENABLE, PLIC_PRIORITY. zlia.
  - intros h Hh. unfold threshold, m', Write32. cbn [plic].
    rewrite (proj2 (Z.eqb_neq _ (PLIC_PRIORITY + 4 * irqno))) by (unfold PLIC_THRESHOLD, PLIC_PRIORITY; lia).
    rewrite (proj2 (Z.eqb_neq _ reg)); [done|]. unfold reg, PLIC_ENABLE, PLIC_THRESHOLD. zlia.
Qed.

(** Unmasking and masking an interrupt: an unknown number, or 0, is refused; otherwise
    exactly its bit for the boot core and its priority are set or cleared, whatever
    word they lie in. *)
Theorem masks_one_interrupt m (on : bool) irqno : 0 <= irqno ->
  let '(m', err) := (if on then NX_HalIrqUnmask else NX_HalIrqMask) NX_MULTI_CORES_NR NX_NR_IRQS boot_core irqno m in
  if (irqno =? 0) || (irqno >=? NX_NR_IRQS) then err = NX_EINVAL /\ m' = m
  else
    err = NX_EOK /\ hart m' = hart m /\ world m' = world m /\
    (forall h i, 0 <= h < NX_MULTI_CORES_NR -> 0 <= i < NX_NR_IRQS ->
       enabled m' h i = if (h =? boot_core) && (i =? irqno) then on else enabled m h i) /\
    (forall i, 0 <= i < NX_NR_IRQS -> priority m' i = if i =? irqno then b2z on else priority m i) /\
    (forall h, 0 <= h < NX_MULTI_CORES_NR -> threshold m' h = threshold m h).
Proof.
  intros Hi.
  destruct (Z.eqb_spec irqno 0) as [->|H0].
  { destruct on; unfold NX_HalIrqUnmask, NX_HalIrqMask, PLIC_EnableIRQ, PLIC_DisableIRQ; cbn [orb Z.ltb Z.leb Z.compare];
      rewrite orb_true_r; destruct (0 >=? NX_NR_IRQS); done. }
  destruct (irqno >=? NX_NR_IRQS) eqn:Hge; cbn [orb].
  { destruct on; unfold NX_HalIrqUnmask, NX_HalIrqMask; rewrite Hge, orb_true_r; done. }
  rewrite Z.geb_leb in Hge. apply Z.leb_gt in Hge.
  pose proof (masked m on irqno ltac:(lia)) as Hm.
  destruct on; unfold NX_HalIrqUnmask, NX_HalIrqMask, PLIC_EnableIRQ, PLIC_DisableIRQ;
    rewrite !Z.geb_leb, (proj2 (Z.ltb_ge irqno 0)), (proj2 (Z.leb_gt NX_NR_IRQS irqno)),
      (proj2 (Z.leb_gt NX_MULTI_CORES_NR boot_core)), (proj2 (Z.leb_gt irqno 0)) by lia; cbn [orb]; split; [done | exact Hm | done | exact Hm].
Qed.

(** The controller at the start of the boot core: no interrupt has a priority, so none
    comes until it is unmasked, and every core listens to all that have one. *)
Lemma priorities_cleared (n : nat) : forall m (i j : Z), 0 < i -> i + n <= NX_NR_IRQS ->
  let m' := Priority_loop NX_NR_IRQS n m i in
  hart m' = hart m /\ world m' = world m /\ priority m' j = (if (i <=? j) && (j <? i + n)%Z then 0 else priority m j) /\
  (forall h, 0 <= h < NX_MULTI_CORES_NR -> threshold m' h = threshold m h).
Proof.
  induction n as [|n IH]; intros m i j Hi Hn; cbn [Priority_loop].
  { split_and!; try done. destruct (Z.leb_spec i j), (Z.ltb_spec j (i + 0%nat)); cbn [andb]; try done; lia. }
  unfold PLIC_SetPriority. rewrite (proj2 (Z.leb_gt i 0)), Z.geb_leb, (proj2 (Z.leb_gt NX_NR_IRQS i)) by lia. cbn [orb fst].
  destruct (IH (Write32 m (PLIC_PRIORITY + 4 * i) 0) (i + 1) j) as (H1 & H2 & H3 & H4); [lia | lia|].
  split_and!; [done | done | |].
  - rewrite H3. unfold priority, Write32. cbn [plic].
    destruct (Z.eqb_spec (PLIC_PRIORITY + 4 * j) (PLIC_PRIORITY + 4 * i)) as [E|E];
      destruct (Z.leb_spec (i + 1) j), (Z.ltb_spec j (i + 1 + n)), (Z.leb_spec i j), (Z.ltb_spec j (i + S n)); cbn [andb]; try done; lia.
  - intros h Hh. rewrite H4 by done. unfold threshold, Write32. cbn [plic].
    by rewrite (proj2 (Z.eqb_neq _ (PLIC_PRIORITY + 4 * i))) by (unfold PLIC_THRESHOLD, PLIC_PRIORITY; lia).
Qed.

Lemma thresholds_cleared (n : nat) : forall m (h k : Z), 0 <= h ->
  threshold (Threshold_loop n m h) k = (if (h <=? k) && (k <? h + n) then 0 else threshold m k).
Proof.
  induction n as [|n IH]; intros m h k Hh; cbn [Threshold_loop].
  { destruct (Z.leb_spec h k), (Z.ltb_spec k (h + 0%nat)); cbn [andb]; try done; lia. }
  rewrite IH by lia. unfold threshold, Write32. cbn [plic].
  destruct (Z.eqb_spec (PLIC_THRESHOLD k) (PLIC_THRESHOLD h)) as [E|E]; unfold PLIC_THRESHOLD in E;
    destruct (Z.leb_spec (h + 1) k), (Z.ltb_spec k (h + 1 + n)), (Z.leb_spec h k), (Z.ltb_spec k (h + S n)); cbn [andb]; try done; lia.
Qed.

Theorem plic_init_masks m : 0 < NX_NR_IRQS ->
  let m' := PLIC_Init NX_MULTI_CORES_NR NX_NR_IRQS m true in
  (forall i, 0 < i < NX_NR_IRQS -> priority m' i = 0) /\
  (forall h, 0 <= h < NX_MULTI_CORES_NR -> threshold m' h = 0) /\ Z.testbit (sie (hart m')) 9 = true.
Proof.
  intros Hq m'. unfold PLIC_Init, NX_VALID_HARTID_OFFSET in m'.
  set (m1 := Threshold_loop _ m 0) in m'.
  assert (forall j, priority m' j = priority (Priority_loop NX_NR_IRQS (Z.to_nat (NX_NR_IRQS - 1)) m1 1) j) as Hp by done.
  pose proof (priorities_cleared (Z.to_nat (NX_NR_IRQS - 1)) m1 1) as Hloop. split_and!.
  - intros i Hi. rewrite Hp. destruct (Hloop i) as (_ & _ & -> & _); [lia | lia|].
    destruct (Z.leb_spec 1 i), (Z.ltb_spec i (1 + Z.to_nat (NX_NR_IRQS - 1))); cbn [andb]; try done; lia.
  - intros h Hh. destruct (Hloop 1) as (_ & _ & _ & Ht); [lia | lia|].
    transitivity (threshold m1 h); [by apply Ht|]. unfold m1. rewrite thresholds_cleared by lia.
    destruct (Z.leb_spec 0 h), (Z.ltb_spec h (0 + Z.to_nat (NX_MULTI_CORES_NR - 0))); cbn [andb]; try done; lia.
  - unfold m'. cbn [hart on_hart sie with_sie]. rewrite Z.lor_spec. apply orb_true_r.
Qed.
End plic.

(** Counting down undoes counting up, at the ends of the range too. *)
Lemma atomic_add_sub cell value : - 2 ^ 63 <= cell < 2 ^ 63 -> NX_HalAtomicSub (NX_HalAtomicAdd cell value) value = cell.
Proof. intros Hc. unfold NX_HalAtomicSub, NX_HalAtomicAdd, i64. zlia. Qed.

(** Setting and clearing a mask change exactly its bits. *)
Lemma atomic_masks cell mask k : 0 <= k ->
  Z.testbit (NX_HalAtomicSetMask cell mask) k = Z.testbit cell k || Z.testbit mask k /\
  Z.testbit (NX_HalAtomicClearMask cell mask) k = Z.testbit cell k && negb (Z.testbit mask k).
Proof. intros Hk. unfold NX_HalAtomicSetMask, NX_HalAtomicClearMask. by rewrite Z.lor_spec, Z.land_spec, Z.lnot_spec. Qed.

(** ** Traps *)
Section traps.
Context {W : Type} (NX_MULTI_CORES_NR NX_NR_IRQS boot_core NX_TICKS_PER_SECOND : Z).
Context (Hboot : 0 <= boot_core < NX_MULTI_CORES_NR).
Context (claim_read : Z -> Machine W -> Machine W * Z) (claim_write : Z -> Z -> Machine W -> Machine W).
Context (rdtime : W -> Z) (sbi_set_timer : Z -> W -> W) (ClockTickGo : W -> option W).
Context (call : NX_SyscallHandler -> list Z -> Machine W -> option (Machine W * Z)).
Context (action_call : Z -> Z -> Z -> Machine W -> Machine W * NX_Error).
Implicit Types (m : Machine W) (frame : NX_HalContext).

Notation dispatch := (TrapDispatch NX_MULTI_CORES_NR NX_NR_IRQS boot_core claim_read claim_write rdtime sbi_set_timer ClockTickGo
  NX_TICKS_PER_SECOND call action_call).

Lemma interrupt_bit cause : nz (Z.land SCAUSE_INTERRUPT cause) = Z.testbit cause 63.
Proof. unfold SCAUSE_INTERRUPT, RISCV_XLEN. rewrite Z.land_comm. by apply nz_land_bit. Qed.

Lemma claimed_irq m : PLIC_Claim NX_MULTI_CORES_NR claim_read m boot_core = claim_read (PLIC_CLAIM boot_core) m.
Proof. unfold PLIC_Claim. by rewrite Z.geb_leb, (proj2 (Z.leb_gt NX_MULTI_CORES_NR boot_core)) by lia. Qed.

(** An external interrupt that is known and bound: it is claimed, the actions bound to
    it run, and the controller is told that it is done. *)
Theorem external_interrupt table m frame m1 irqno node :
  Z.testbit (scause (hart m)) 63 = true -> Z.land (scause (hart m)) 0xff = 9 ->
  claim_read (PLIC_CLAIM boot_core) m = (m1, irqno) -> 0 < irqno < NX_NR_IRQS ->
  zlookup table irqno = Some node -> controller node = true ->
  dispatch table m frame = Some (claim_write (PLIC_CLAIM boot_core) irqno (Handle_loop action_call irqno (actionList node) m1), frame).
Proof.
  intros Hbit Hlow Hclaim Hn Hnode Hc. unfold TrapDispatch. rewrite interrupt_bit, Hbit, Hlow, claimed_irq, Hclaim.
  change (SCAUSE_S_EXTERNAL_INTR =? 9) with true. cbn [andb]. rewrite (proj2 (Z.eqb_neq irqno 0)) by lia. cbn [negb].
  unfold NX_IRQ_Handle, IRQ_NodeGet.
  rewrite (proj2 (Z.leb_le 0 irqno)), (proj2 (Z.ltb_lt irqno NX_NR_IRQS)) by lia. cbn [andb]. rewrite Hnode, Hc.
  cbn [assert mbind option_bind]. unfold NX_HalIrqAck, PLIC_Complete.
  by rewrite !Z.geb_leb, (proj2 (Z.ltb_ge irqno 0)), (proj2 (Z.leb_gt NX_NR_IRQS irqno)), (proj2 (Z.leb_gt NX_MULTI_CORES_NR boot_core)),
    (proj2 (Z.leb_gt irqno 0)) by lia.
Qed.

(** An interrupt nobody raised is passed over. *)
Lemma spurious_interrupt table m frame m1 :
  Z.testbit (scause (hart m)) 63 = true -> Z.land (scause (hart m)) 0xff = 9 -> claim_read (PLIC_CLAIM boot_core) m = (m1, 0) ->
  dispatch table m frame = Some (m1, frame).
Proof. intros Hbit Hlow Hclaim. unfold TrapDispatch. by rewrite interrupt_bit, Hbit, Hlow, claimed_irq, Hclaim. Qed.

(** The clock ticks, and the next tick is asked for one period from now. *)
Lemma timer_interrupt table m frame w : scause (hart m) = Z.lor SCAUSE_INTERRUPT SCAUSE_S_TIMER_INTR -> ClockTickGo (world m) = Some w ->
  dispatch table m frame = Some (mkMachine (hart m) (plic m) (sbi_set_timer (u64 (rdtime w + 10000000 / NX_TICKS_PER_SECOND)) w), frame).
Proof. intros Hc Hw. unfold TrapDispatch. rewrite Hc. cbn -[NX_HalClockHandler]. unfold NX_HalClockHandler. by rewrite Hw. Qed.

(** Which words of the frame a system call may change. *)
Definition kept_words frame frame' : Prop :=
  forall i : nat, (i < 33)%nat -> i <> 0%nat -> i <> 10%nat -> i <> 17%nat -> words frame' !! i = words frame !! i.

Lemma with_result_kept frame x y z : kept_words frame (with_result frame x y z).
Proof. intros i Hi H0 H1 H2. do 33 (destruct i as [|i]; [try done|]). lia. Qed.

(** A system call from user mode: the handler of the call in [a7] runs with its seven
    arguments and with interrupts on; on the way back they are off, the result is in
    [a0], the program goes on behind its [ecall] and no other register has changed. *)
Theorem system_call table m frame m' r :
  scause (hart m) = 8 ->
  call (NX_SyscallGetHandler (u32 (a7 frame))) [a0 frame; a1 frame; a2 frame; a3 frame; a4 frame; a5 frame; a6 frame]
    (on_hart m NX_HalIrqEnable) = Some (m', r) ->
  exists m2 frame', dispatch table m frame = Some (m2, frame') /\
    interrupts_on (hart (on_hart m NX_HalIrqEnable)) = true /\ interrupts_on (hart m2) = false /\ world m2 = world m' /\ plic m2 = plic m' /\
    a0 frame' = r /\ a7 frame' = 0 /\ epc frame' = u64 (epc frame + 4) /\ kept_words frame frame'.
Proof.
  intros Hc Hcall. unfold TrapDispatch. rewrite Hc.
  change (nz (Z.land SCAUSE_INTERRUPT 8)) with false. change (Z.lor SCAUSE_INTERRUPT SCAUSE_S_TIMER_INTR =? 8) with false.
  change (Z.land 8 ((1 << (RISCV_XLEN - 2)) - 1) =? RISCV_SYSCALL_EXCEPTION) with true. cbn [andb]. cbn iota.
  unfold NX_HalProcessSyscallDispatch. rewrite Hcall. cbn [mbind option_bind].
  eexists _, _. split; [reflexivity|]. split_and!; try done.
  - apply enable_on.
  - apply disable_off.
  - apply with_result_kept.
Qed.

(** Any other trap ends in the loop that never ends. *)
Lemma other_traps_spin table m frame : 0 <= scause (hart m) < 2 ^ 64 -> scause (hart m) <> Z.lor SCAUSE_INTERRUPT SCAUSE_S_TIMER_INTR ->
  (Z.testbit (scause (hart m)) 63 = true -> Z.land (scause (hart m)) 0xff <> 9) ->
  (Z.testbit (scause (hart m)) 63 = false -> Z.land (scause (hart m)) (2 ^ 62 - 1) <> 8) -> dispatch table m frame = None.
Proof.
  intros Hr Ht Hi He. unfold TrapDispatch. rewrite interrupt_bit, (proj2 (Z.eqb_neq _ (scause (hart m)))) by (by intros E; destruct Ht).
  change ((1 << (RISCV_XLEN - 2)) - 1) with (2 ^ 62 - 1). destruct (Z.testbit (scause (hart m)) 63).
  - rewrite (proj2 (Z.eqb_neq SCAUSE_S_EXTERNAL_INTR _)); [done|]. intros E. by destruct Hi.
  - cbn [andb]. rewrite (proj2 (Z.eqb_neq _ RISCV_SYSCALL_EXCEPTION)); [done|]. by apply He.
Qed.
End traps.

(** ** Frames *)
Lemma words_bytes_length c : length (concat (le_bytes 8 <$> words c)) = 264%nat.
Proof. by vm_compute. Qed.

Lemma store_frame m a c : frame_at (store_bytes m a (concat (le_bytes 8 <$> words c))) a c.
Proof.
  intros k Hk. unfold store_bytes, sizeof_context in *. replace (a + k - a) with k by lia.
  set (l := concat _). assert (length l = 264%nat) as Hl by apply words_bytes_length.
  unfold zlookup. rewrite (proj2 (Z.leb_le 0 k)) by lia.
  destruct (l !! Z.to_nat k) as [b|] eqn:E; [done|]. apply lookup_ge_None in E. lia.
Qed.

Lemma aligned_down8 x : 0 <= x < 2 ^ 64 -> NX_ALIGN_DOWN x 8 = x / 8 * 8.
Proof. intros Hx. by apply (NX_ALIGN_DOWN_spec x 3). Qed.

(** A new thread starts with the frame of its entry: right below its stack, aligned,
    with its argument and the place it returns to, in supervisor mode and with
    interrupts on; nothing else in memory changes. *)
Theorem context_init m startEntry exitEntry arg stackTop : sizeof_context + 8 <= stackTop < 2 ^ 64 ->
  let '(m', stack) := NX_HalContextInit m startEntry exitEntry arg stackTop in
  stack mod 8 = 0 /\ stackTop - 8 < stack + sizeof_context <= stackTop /\
  (exists c, frame_at m' stack c /\ epc c = startEntry /\ ra c = exitEntry /\ a0 c = arg /\ sp c = stack + sizeof_context /\
     Z.testbit (c_sstatus c) 8 = true /\ Z.testbit (c_sstatus c) 5 = true /\ Z.testbit (c_sstatus c) 18 = true) /\
  (forall a, ~ (stack <= a < stack + sizeof_context) -> m' a = m a).
Proof.
  intros Ht. unfold NX_HalContextInit. unfold sizeof_context in *.
  rewrite aligned_down8 by lia. split_and!; [zlia | zlia | zlia | |].
  - eexists. split; [apply store_frame|]. by split_and!.
  - intros a Ha. unfold store_bytes, zlookup.
    destruct (0 <=? _) eqn:E; [|done]. apply Z.leb_le in E.
    rewrite lookup_ge_None_2; [done|]. rewrite words_bytes_length. lia.
Qed.

(** The frame of a trap moves whole from the stack of the core to that of the thread. *)
Theorem switch_stack_keeps_frame h m stackBase stackSize frame c :
  let '(m', sp) := TrapSwitchStack h m stackBase stackSize frame in
  (sp + sizeof_context <= frame \/ frame + sizeof_context <= sp) -> frame_at m frame c ->
  frame_at m' sp c /\
  sp = (if Z.testbit (sstatus h) 8 then sscratch h else stackBase + stackSize) - sizeof_context /\
  forall a, ~ (sp <= a < sp + sizeof_context) -> m' a = m a.
Proof.
  unfold TrapSwitchStack. unfold SSTATUS_SPP. rewrite nz_land_bit by lia.
  set (sp := (if Z.testbit (sstatus h) 8 then _ else _) - sizeof_context).
  intros Hd Hf. split_and!; [|done|].
  - intros k Hk. rewrite mem_copy_spec by lia. rewrite decide_True by lia. rewrite <- Hf by done. do 2 f_equal. lia.
  - intros a Ha. rewrite mem_copy_spec by lia. by rewrite decide_False by lia.
Qed.

(** ** Entering user mode *)

(** A thread of a program starts at its entry with its argument, its stack right below
    the code it returns to, in user mode and with interrupts on once there. *)
Theorem user_thread_starts {W} (m : Machine W) mem code tls text userStack arg :
  Z.of_nat (length code) + 8 <= userStack < 2 ^ 64 ->
  let '(m', mem', u) := NX_HalProcessExecuteUserThread m mem code tls text userStack arg in
  u_pc u = text /\ u_a0 u = arg /\ NX_HalProcessGetTls m' = tls /\
  u_sp u mod 8 = 0 /\ u_sp u <= u_ra u < u_sp u + 8 /\ u_ra u + Z.of_nat (length code) = userStack /\
  (forall i : nat, (i < length code)%nat -> Some (mem' (u_ra u + i)) = code !! i) /\
  (forall a, a < u_ra u -> mem' a = mem a) /\
  Z.testbit (sstatus (hart m')) 8 = false /\ Z.testbit (sstatus (hart m')) 1 = false /\ Z.testbit (sstatus (hart m')) 5 = true.
Proof.
  intros Hs. unfold NX_HalProcessExecuteUserThread, NX_HalProcessEnterUserMode. cbn [u_pc u_sp u_ra u_a0].
  rewrite (aligned_down8 (userStack - length code)) by lia. split_and!; try done.
  - apply Z.mod_mul. lia.
  - zlia.
  - zlia.
  - lia.
  - intros i Hi. unfold store_bytes, zlookup. replace (userStack - length code + i - (userStack - length code)) with (Z.of_nat i) by lia.
    rewrite (proj2 (Z.leb_le 0 i)) by lia. rewrite Nat2Z.id. by destruct (lookup_lt_is_Some_2 code i Hi) as [b ->].
  - intros a Ha. unfold store_bytes, zlookup. by rewrite (proj2 (Z.leb_gt 0 _)) by lia.
  - cbn [hart on_hart sstatus with_sstatus]. rewrite Z.lor_spec, Z.land_spec. cbn. by rewrite andb_false_r.
  - cbn [hart on_hart sstatus with_sstatus]. rewrite Z.lor_spec, Z.land_spec. cbn. by rewrite andb_false_r.
  - cbn [hart on_hart sstatus with_sstatus]. rewrite Z.lor_spec. apply orb_true_r.
Qed.

(** The call the copied code makes, number 48, is the exit of the thread. *)
Example thread_returns_to_exit : NX_SyscallGetHandler 48 = SysThreadExit_.
Proof. reflexivity. Qed.

(** ** The zones of memory *)

(** On any memory of whole pages of at least 128 megabytes the two zones lie behind
    the kernel, side by side up to the end of the memory, in whole pages; the normal
    zone is in the space of the kernel and no larger than the other. *)
Theorem boot_zones memSize : MEM_MIN_SIZE <= memSize -> memSize mod (2 * NX_PAGE_SIZE) = 0 ->
  exists normalSize userBase userSize,
    PageZoneInit_zones memSize = Some ((MEM_NORMAL_BASE, normalSize), (userBase, userSize)) /\
    MEM_KERNEL_BASE + MEM_KERNEL_SZ = MEM_NORMAL_BASE /\ userBase = MEM_NORMAL_BASE + normalSize /\ userBase + userSize = MEM_SBI_BASE + memSize /\
    normalSize mod NX_PAGE_SIZE = 0 /\ userSize mod NX_PAGE_SIZE = 0 /\ 0 < normalSize <= MEM_KERNEL_SPACE_SZ /\ normalSize <= userSize.
Proof.
  intros Hmin Hpg. unfold PageZoneInit_zones.
  assert (MEM_MIN_SIZE = 2 ^ 27) as Hm by done. assert (MEM_KERNEL_SZ + MEM_SBI_SZ = 2 ^ 25) as Hk by done.
  assert (NX_PAGE_SIZE = 2 ^ 12) as Hp by done. assert (MEM_KERNEL_SPACE_SZ = 2 ^ 27) as Hsp by done.
  rewrite (proj2 (Z.eqb_neq memSize 0)), (proj2 (Z.ltb_ge memSize MEM_MIN_SIZE)) by lia. cbn [negb assert mbind option_bind].
  set (normal := if _ >? _ then _ else _).
  assert (normal = Z.min ((memSize - 2 ^ 25) / 2) (2 ^ 27)) as Hn.
  { unfold normal. rewrite Hsp. replace (memSize - MEM_KERNEL_SZ - MEM_SBI_SZ) with (memSize - 2 ^ 25) by lia.
    rewrite Z.gtb_ltb. destruct (Z.ltb_spec (2 ^ 27) ((memSize - 2 ^ 25) / 2)); lia. }
  assert (MEM_NORMAL_BASE = MEM_SBI_BASE + 2 ^ 25) by done.
  eexists _, _, _. split; [reflexivity|]. rewrite Hp in *. split_and!; try done; try lia.
  all: rewrite Hn; zlia.
Qed.

(** What the kernel maps for itself on a memory of [DRAM_SIZE_DEFAULT]: ranges apart
    from one another and below the space of programs. *)
Fixpoint ranges_apart (l : list (Z * Z)) : bool :=
  match l with
  | [] => true
  | r :: l => forallb (fun r' => (r.1 + r.2 <=? r'.1) || (r'.1 + r'.2 <=? r.1)) l && ranges_apart l
  end.
Example early_map_apart :
  (z ← PageZoneInit_zones DRAM_SIZE_DEFAULT;
   let l := EarlyMap_ranges MEM_KERNEL_BASE (MEM_NORMAL_BASE + z.1.2 - MEM_KERNEL_BASE) in
   Some (ranges_apart l, forallb (fun r => r.1 + r.2 <=? Sv39.NX_USER_SPACE_VADDR) l)) = Some (true, true).
Proof. vm_compute. reflexivity. Qed.

(** The registers of the sixth core lie behind what is mapped of the controller. *)
Example sixth_core_unmapped : (PLIC_CLAIM 4 <? RISCV_PLIC_PADDR + 0x200000 + PLIC_MEMSZ1) && (PLIC_CLAIM 5 >=? RISCV_PLIC_PADDR + 0x200000 + PLIC_MEMSZ1) = true.
Proof. reflexivity. Qed.

(** The end of the space of the kernel is given where its size is asked for. *)
Example kernel_space_too_large :
  Sv39.virEnd (Sv39.NX_MmuInit 0 MEM_KERNEL_BASE MEM_KERNEL_TOP 0) = MEM_KERNEL_BASE + MEM_KERNEL_TOP.
Proof. reflexivity. Qed.
