(* ===== verification/X86.v ===== *)
(** The x86 port below the scheduler: descriptors of segments and gates, the
    interrupt controller, traps and system calls, the frames of threads
    ([arch/x86/kernel] and [arch/x86/port], without the page tables).

    This port is a 32-bit one: words are [Z] reduced modulo 2^32.  Ports are reached
    through the class [IoBus] over the world [W]; [PicLaws] is what the masks of the
    controller do, kept by [Pic8259], the registers of its two chips.  The tables of
    descriptors are functions from the index.  Trap entries are assembly: their
    addresses are parameters. *)
From S2P Require Import Prelude Bits Vmspace Elf Irq Syscall.
#[local] Coercion Z.of_nat : nat >-> Z.

(** ** Words in memory *)
Definition load32 (m : memory) (a : Z) : Z := m a + m (a + 1) * 2 ^ 8 + m (a + 2) * 2 ^ 16 + m (a + 3) * 2 ^ 24.
Definition store32 (m : memory) (a x : Z) : memory := store_bytes m a (le_bytes 4 x).

Lemma store32_at m a x b :
  store32 m a x b = if decide (a <= b < a + 4) then x / 2 ^ (8 * (b - a)) mod 2 ^ 8 else m b.
Proof.
  unfold store32, store_bytes, zlookup. destruct (Z.leb_spec 0 (b - a)) as [H|H].
  - destruct (decide (b - a < 4)) as [Hb|Hb].
    + rewrite decide_True by lia.
      assert (b - a = 0 \/ b - a = 1 \/ b - a = 2 \/ b - a = 3) as [-> | [-> | [-> | ->]]] by lia; cbn [Z.to_nat Pos.to_nat];
        change (Z.to_nat 0) with 0%nat; change (Z.to_nat 1) with 1%nat; change (Z.to_nat 2) with 2%nat; change (Z.to_nat 3) with 3%nat;
        cbn [le_bytes lookup list_lookup default from_option id]; rewrite ?Z.div_div, ?Z.div_1_r by lia; done.
    + rewrite decide_False by lia. rewrite lookup_ge_None_2; [done|]. change (length (le_bytes 4 x)) with 4%nat. lia.
  - by rewrite decide_False by lia.
Qed.

Lemma load_store32 m a x : load32 (store32 m a x) a = u32 x.
Proof.
  unfold load32. rewrite !store32_at, !decide_True by lia.
  replace (a - a) with 0 by lia. replace (a + 1 - a) with 1 by lia. replace (a + 2 - a) with 2 by lia. replace (a + 3 - a) with 3 by lia.
  cbn [Z.mul]. unfold u32. change (8 * 1) with 8. change (8 * 2) with 16. change (8 * 3) with 24. zlia.
Qed.

Lemma load_store32_ne m a b x : a + 4 <= b \/ b + 4 <= a -> load32 (store32 m a x) b = load32 m b.
Proof. intros H. unfold load32. by rewrite !store32_at, !decide_False by lia. Qed.

(** The words from [a] on. *)
Fixpoint words_at (m : memory) (a : Z) (l : list Z) : Prop :=
  match l with [] => True | x :: l => load32 m a = x /\ words_at m (a + 4) l end.

(** ** Segments: [kernel/segment.c], [segment.h] *)
Definition DA_32 : Z := 0x4000.
Definition DA_G : Z := 0x8000.
Definition DA_DPL0 : Z := 0x00.
Definition DA_DPL3 : Z := 0x60.
Definition DA_DR : Z := 0x90.
Definition DA_DRW : Z := 0x92.
Definition DA_CR : Z := 0x9A.
Definition DA_386TSS : Z := 0x89.
Definition SA_RPL0 : Z := 0.
Definition SA_RPL3 : Z := 3.
Definition SA_TIG : Z := 0.
Definition INDEX_KERNEL_CODE : Z := 1.
Definition INDEX_KERNEL_DATA : Z := 2.
Definition INDEX_TSS : Z := 3.
Definition INDEX_USER_CODE : Z := 4.
Definition INDEX_USER_DATA : Z := 5.
Definition INDEX_USER_TLS : Z := 6.
Definition KERNEL_CODE_SEL : Z := (INDEX_KERNEL_CODE << 3) + (SA_TIG << 2) + SA_RPL0.
Definition KERNEL_DATA_SEL : Z := (INDEX_KERNEL_DATA << 3) + (SA_TIG << 2) + SA_RPL0.
Definition KERNEL_TSS_SEL : Z := (INDEX_TSS << 3) + (SA_TIG << 2) + SA_RPL0.
Definition USER_CODE_SEL : Z := (INDEX_USER_CODE << 3) + (SA_TIG << 2) + SA_RPL3.
Definition USER_DATA_SEL : Z := (INDEX_USER_DATA << 3) + (SA_TIG << 2) + SA_RPL3.
Definition USER_STACK_SEL : Z := USER_DATA_SEL.
Definition USER_TLS_SEL : Z := (INDEX_USER_TLS << 3) + (SA_TIG << 2) + SA_RPL3.
Definition GDT_LIMIT : Z := 0x000007ff.
Definition GDT_BOUND_BOTTOM : Z := 0.
Definition GDT_BOUND_TOP : Z := 0xffffffff.
Definition GDT_KERNEL_CODE_ATTR : Z := Z.lor (Z.lor (Z.lor DA_CR DA_DPL0) DA_32) DA_G.
Definition GDT_KERNEL_DATA_ATTR : Z := Z.lor (Z.lor (Z.lor DA_DRW DA_DPL0) DA_32) DA_G.
Definition GDT_USER_CODE_ATTR : Z := Z.lor (Z.lor (Z.lor DA_CR DA_DPL3) DA_32) DA_G.
Definition GDT_USER_DATA_ATTR : Z := Z.lor (Z.lor (Z.lor DA_DRW DA_DPL3) DA_32) DA_G.
Definition GDT_TSS_ATTR : Z := DA_386TSS.
Definition GDT_USER_TLS_ATTR : Z := Z.lor (Z.lor (Z.lor DA_DR DA_DPL3) DA_32) DA_G.

Record CPU_Segment := mkSegment { limitLow : Z; baseLow : Z; baseMid : Z; accessRight : Z; limitHigh : Z; baseHigh : Z }.

Definition SetSegment (limit base attributes : Z) : CPU_Segment :=
  mkSegment (Z.land limit 0xffff) (Z.land base 0xffff) (Z.land (base >> 16) 0xff) (Z.land attributes 0xff)
    (Z.lor (Z.land (limit >> 16) 0x0f) (Z.land (attributes >> 8) 0xf0)) (Z.land (base >> 24) 0xff).

(** An array in memory, by index. *)
Definition upd {A} (t : Z -> A) (i : Z) (x : A) : Z -> A := fun j => if j =? i then x else t j.
Fixpoint upd_all {A} (t : Z -> A) (l : list Z) (f : Z -> A) : Z -> A :=
  match l with [] => t | i :: l => upd_all (upd t i (f i)) l f end.

Definition CPU_TlsSet (gdt : Z -> CPU_Segment) (base : Z) : Z -> CPU_Segment :=
  let seg := gdt INDEX_USER_TLS in
  upd gdt INDEX_USER_TLS
    (mkSegment (limitLow seg) (Z.land base 0xffff) (Z.land (base >> 16) 0xff) (accessRight seg) (limitHigh seg) (Z.land (base >> 24) 0xff)).

Definition CPU_TlsGet (gdt : Z -> CPU_Segment) : Z :=
  let seg := gdt INDEX_USER_TLS in
  u32 (Z.lor (Z.lor (Z.land (baseLow seg) 0xffff) (Z.land (baseMid seg) 0xff << 16)) (Z.land (baseHigh seg) 0xff << 24)).

Definition sizeof_CPU_TSS : Z := 27 * 4.
Definition CPU_InitSegment (gdt : Z -> CPU_Segment) (tss : Z) : Z -> CPU_Segment :=
  let gdt := upd_all gdt (seqZ 0 (GDT_LIMIT / 8 + 1)) (fun _ => SetSegment 0 0 0) in
  let gdt := upd gdt INDEX_KERNEL_CODE (SetSegment GDT_BOUND_TOP GDT_BOUND_BOTTOM GDT_KERNEL_CODE_ATTR) in
  let gdt := upd gdt INDEX_KERNEL_DATA (SetSegment GDT_BOUND_TOP GDT_BOUND_BOTTOM GDT_KERNEL_DATA_ATTR) in
  let gdt := upd gdt INDEX_TSS (SetSegment (sizeof_CPU_TSS - 1) tss GDT_TSS_ATTR) in
  let gdt := upd gdt INDEX_USER_CODE (SetSegment GDT_BOUND_TOP GDT_BOUND_BOTTOM GDT_USER_CODE_ATTR) in
  let gdt := upd gdt INDEX_USER_DATA (SetSegment GDT_BOUND_TOP GDT_BOUND_BOTTOM GDT_USER_DATA_ATTR) in
  upd gdt INDEX_USER_TLS (SetSegment GDT_BOUND_TOP GDT_BOUND_BOTTOM GDT_USER_TLS_ATTR).

(** ** The task state: [kernel/tss.c], [tss.h]

    Its words in their order: [backlink], [esp0], [ss0], ..., [iobase]. *)
Definition tss_esp0 : Z := 1.
Definition tss_ss0 : Z := 2.
Definition tss_iobase : Z := 26.
Definition KERNEL_STACK_TOP : Z := 0x9f000.
Definition CPU_SetTssStack (tss : list Z) (top : Z) : list Z := zinsert tss tss_esp0 top.
Definition CPU_InitTSS (tss : list Z) : list Z :=
  let tss := replicate (length tss) 0 in
  let tss := zinsert tss tss_esp0 KERNEL_STACK_TOP in
  let tss := zinsert tss tss_ss0 KERNEL_DATA_SEL in
  zinsert tss tss_iobase sizeof_CPU_TSS.

(** ** Gates: [kernel/gate.c], [gate.h], [interrupt.h] *)
Definition IDT_LIMIT : Z := 0x000007ff.
Definition MAX_IDT_NR : Z := IDT_LIMIT / 8.
Definition DA_386_INTR_GATE : Z := 0x8E.
Definition DA_GATE_DPL0 : Z := 0.
Definition DA_GATE_DPL3 : Z := 3.
Definition EXCEPTION_BASE : Z := 0x00.
Definition EXTERNAL_BASE : Z := 0x20.
Definition SYSCALL_BASE : Z := 0x80.
Definition MAX_EXCEPTION_NR : Z := 32.
Definition NX_NR_IRQS : Z := 16.

Record CPU_Gate := mkGate { offsetLow : Z; selector : Z; datacount : Z; attributes : Z; offsetHigh : Z }.

Definition SetGate (handler selector attributes privilege : Z) : CPU_Gate :=
  mkGate (Z.land handler 0xffff) (u16 selector) 0 (u8 (Z.lor attributes (privilege << 5))) (Z.land (handler >> 16) 0xffff).

Section gates.
Context (CPU_TrapEntry : Z -> Z) (CPU_SyscallEntry : Z).

(** The calls for the vectors of the exceptions and of the interrupts, one by one in
    the source. *)
Definition CPU_InitGate (idt : Z -> CPU_Gate) : Z -> CPU_Gate :=
  let idt := upd_all idt (seqZ 0 MAX_IDT_NR) (fun _ => SetGate 0 0 0 0) in
  let trap v := SetGate (CPU_TrapEntry v) KERNEL_CODE_SEL DA_386_INTR_GATE DA_GATE_DPL0 in
  let idt := upd_all idt (seqZ EXCEPTION_BASE 32) trap in
  let idt := upd_all idt (seqZ EXTERNAL_BASE 16) trap in
  upd idt SYSCALL_BASE (SetGate CPU_SyscallEntry KERNEL_CODE_SEL DA_386_INTR_GATE DA_GATE_DPL3).
End gates.

(** ** The flags of the core: [regs.h], [port/interrupt.c] *)
Definition EFLAGS_MBS : Z := 1 << 1.
Definition EFLAGS_IF_1 : Z := 1 << 9.
Definition EFLAGS_IOPL_3 : Z := 3 << 12.

(** [sti], [cli], and pushing and popping the flags. *)
Definition NX_HalIrqEnable (eflags : Z) : Z := Z.lor eflags EFLAGS_IF_1.
Definition NX_HalIrqDisable (eflags : Z) : Z := Z.land eflags (not32 EFLAGS_IF_1).
Definition NX_HalIrqSaveLevel (eflags : Z) : Z * Z := (Z.land eflags (not32 EFLAGS_IF_1), eflags).
Definition NX_HalIrqRestoreLevel (eflags level : Z) : Z := level.

(** ** Atomic operations: [port/atomic.c], one instruction on a word *)
Definition NX_HalAtomicSet (cell value : Z) : Z := value.
Definition NX_HalAtomicGet (cell : Z) : Z := cell.
Definition NX_HalAtomicAdd (cell value : Z) : Z := i32 (cell + value).
Definition NX_HalAtomicSub (cell value : Z) : Z := i32 (cell - value).
Definition NX_HalAtomicInc (cell : Z) : Z := i32 (cell + 1).
Definition NX_HalAtomicDec (cell : Z) : Z := i32 (cell - 1).
Definition NX_HalAtomicSetMask (cell mask : Z) : Z := Z.lor cell mask.
Definition NX_HalAtomicClearMask (cell mask : Z) : Z := Z.land cell (Z.lnot mask).
Definition NX_HalAtomicSwap (cell newValue : Z) : Z * Z := (newValue, cell).
Definition NX_HalAtomicCAS (cell old newValue : Z) : Z * Z := if cell =? old then (newValue, cell) else (cell, cell).

(** One core: [port/smp.c]. *)
Definition NX_HalCoreGetIndex : Z := 0.
Definition NX_HalCoreBootApp (bootCoreId : Z) : NX_Error := NX_ENORES.
Definition NX_HalCoreEnterApp (appCoreId : Z) : NX_Error := NX_ENORES.

(** ** Ports: [io.h] *)
Class IoBus (W : Type) := {
  IO_In8 : Z -> W -> W * Z;        (* port *)
  IO_Out8 : Z -> Z -> W -> W       (* port, data *)
}.

(** ** The interrupt controller: [kernel/pic.c], [pic.h] *)
Definition PIC_MASTER_CTL : Z := 0x20.
Definition PIC_MASTER_CTLMASK : Z := 0x21.
Definition PIC_SLAVE_CTL : Z := 0xa0.
Definition PIC_SLAVE_CTLMASK : Z := 0xa1.
Definition PIC_EIO : Z := 0x20.
Definition IRQ_CLOCK : Z := 0.
Definition IRQ_CONNECT : Z := 2.
Definition IRQ_SERIAL1 : Z := 4.

Section pic.
Context {W : Type} `{IoBus W}.
Implicit Types (w : W) (irq : Z).

Definition PIC_Init w : W :=
  let w := IO_Out8 PIC_MASTER_CTLMASK 0xff w in
  let w := IO_Out8 PIC_SLAVE_CTLMASK 0xff w in
  let w := IO_Out8 PIC_MASTER_CTL 0x11 w in
  let w := IO_Out8 PIC_MASTER_CTLMASK 0x20 w in
  let w := IO_Out8 PIC_MASTER_CTLMASK (1 << 2) w in
  let w := IO_Out8 PIC_MASTER_CTLMASK 0x01 w in
  let w := IO_Out8 PIC_SLAVE_CTL 0x11 w in
  let w := IO_Out8 PIC_SLAVE_CTLMASK 0x28 w in
  let w := IO_Out8 PIC_SLAVE_CTLMASK 2 w in
  let w := IO_Out8 PIC_SLAVE_CTLMASK 0x01 w in
  let w := IO_Out8 PIC_MASTER_CTLMASK 0xff w in
  IO_Out8 PIC_SLAVE_CTLMASK 0xff w.
Definition CPU_InitInterrupt w : W := PIC_Init w.

Definition PIC_Enable irq w : W :=
  if irq <? 8 then
    let (w, x) := IO_In8 PIC_MASTER_CTLMASK w in IO_Out8 PIC_MASTER_CTLMASK (u8 (Z.land x (Z.lnot (1 << irq)))) w
  else
    let (w, x) := IO_In8 PIC_MASTER_CTLMASK w in
    let w := IO_Out8 PIC_MASTER_CTLMASK (u8 (Z.land x (Z.lnot (1 << IRQ_CONNECT)))) w in
    let (w, x) := IO_In8 PIC_SLAVE_CTLMASK w in
    IO_Out8 PIC_SLAVE_CTLMASK (u8 (Z.land x (Z.lnot (1 << (irq - 8))))) w.

Definition PIC_Disable irq w : W :=
  if irq <? 8 then
    let (w, x) := IO_In8 PIC_MASTER_CTLMASK w in IO_Out8 PIC_MASTER_CTLMASK (u8 (Z.lor x (1 << irq))) w
  else
    let (w, x) := IO_In8 PIC_SLAVE_CTLMASK w in IO_Out8 PIC_SLAVE_CTLMASK (u8 (Z.lor x (1 << (irq - 8)))) w.

Definition PIC_Ack irq w : W :=
  let w := if irq >=? 8 then IO_Out8 PIC_SLAVE_CTL PIC_EIO w else w in
  IO_Out8 PIC_MASTER_CTL PIC_EIO w.

(** *** [port/interrupt.c] *)
Definition NX_HalIrqUnmask irqno w : W * NX_Error :=
  if (irqno <? 0) || (irqno >=? NX_NR_IRQS) then (w, NX_EINVAL) else (PIC_Enable irqno w, NX_EOK).
Definition NX_HalIrqMask irqno w : W * NX_Error :=
  if (irqno <? 0) || (irqno >=? NX_NR_IRQS) then (w, NX_EINVAL) else (PIC_Disable irqno w, NX_EOK).
Definition NX_HalIrqAck irqno w : W * NX_Error :=
  if (irqno <? 0) || (irqno >=? NX_NR_IRQS) then (w, NX_EINVAL) else (PIC_Ack irqno w, NX_EOK).

(** An exception and a vector nobody installed are reported, and the core spins. *)
Definition NX_HalInterruptDispatch (action_call : Z -> Z -> Z -> W -> W * NX_Error) (table : list NX_IRQ_Node) (vector : Z) w : option W :=
  if (vector >=? EXCEPTION_BASE) && (vector <? EXCEPTION_BASE + MAX_EXCEPTION_NR) then None
  else if (vector >=? EXTERNAL_BASE) && (vector <? EXTERNAL_BASE + NX_NR_IRQS) then
    '(w, _) ← NX_IRQ_Handle NX_NR_IRQS action_call (Some NX_HalIrqAck) table (vector - EXTERNAL_BASE) w; Some w
  else if vector =? SYSCALL_BASE then Some w
  else None.

(** *** The clock: [port/clock.c]

    [mem] is what the allocator answers for the action of the interrupt, [handler] the
    address of [ClockHandler]. *)
Context (NX_TICKS_PER_SECOND : Z).
Definition PIT_COUNTER0 : Z := 0x40.
Definition PIT_CTRL : Z := 0x43.
Definition PIT_MODE_COUNTER_0 : Z := 0.
Definition PIT_MODE_MSB_LSB : Z := Z.lor (1 << 4) (1 << 5).
Definition PIT_MODE_2 : Z := 1 << 2.
Definition PIT_MODE_BINARY : Z := 0.
Definition TIMER_FREQ : Z := 1193180.
Definition COUNTER0_VALUE : Z := TIMER_FREQ / NX_TICKS_PER_SECOND.

Definition ClockHandler (NX_ClockTickGo : W -> W) (irq arg : Z) w : W * NX_Error := (NX_ClockTickGo w, NX_EOK).

Definition NX_HalInitClock (mem : option Z) (handler : Z) (table : list NX_IRQ_Node) w : list NX_IRQ_Node * W * NX_Error :=
  let w := IO_Out8 PIT_CTRL (Z.lor (Z.lor (Z.lor PIT_MODE_2 PIT_MODE_MSB_LSB) PIT_MODE_COUNTER_0) PIT_MODE_BINARY) w in
  let w := IO_Out8 PIT_COUNTER0 (u8 (Z.land COUNTER0_VALUE 0xff)) w in
  let w := IO_Out8 PIT_COUNTER0 (Z.land (u8 (COUNTER0_VALUE >> 8)) 0xff) w in
  let (table, err) := NX_IRQ_Bind NX_NR_IRQS mem table IRQ_CLOCK handler 0 0 in
  if negb (is_ok err) then (table, w, NX_ERROR)
  else
    let (w, err) := NX_IRQ_Unmask NX_NR_IRQS (Some NX_HalIrqUnmask) table IRQ_CLOCK w in
    if negb (is_ok err) then (table, w, NX_ERROR) else (table, w, NX_EOK).
End pic.

(** ** Threads: [port/context.c], [context.h], [interrupt.h]

    The frame of a trap, and the words of a context that is not running: [ebp], [ebx],
    [edi], [esi], [eip], an unused one, [handler], [arg], [exit]. *)
Record NX_HalTrapFrame := mkFrame {
  vectorNumber : Z; edi : Z; esi : Z; ebp : Z; espDummy : Z; ebx : Z; edx : Z; ecx : Z; eax : Z;
  gs : Z; fs : Z; es : Z; ds : Z; errorCode : Z; eip : Z; cs : Z; eflags : Z; esp : Z; ss : Z
}.
Definition sizeof_frame : Z := 19 * 4.
Definition sizeof_context : Z := 9 * 4.
Definition with_eax (f : NX_HalTrapFrame) (r : Z) : NX_HalTrapFrame :=
  mkFrame (vectorNumber f) (edi f) (esi f) (ebp f) (espDummy f) (ebx f) (edx f) (ecx f) r
    (gs f) (fs f) (es f) (ds f) (errorCode f) (eip f) (cs f) (eflags f) (esp f) (ss f).

(** [NX_ALIGN_DOWN] on words of 32 bits. *)
Definition align4 (x : Z) : Z := Z.land x (not32 (4 - 1)).

(** The address of the context; [ThreadEntry] is the address of that function. *)
Definition NX_HalContextInit (m : memory) (ThreadEntry startEntry exitEntry arg stackTop : Z) : memory * Z :=
  let stack := u32 (stackTop + 4) in
  let stack := align4 stack in
  let stack := stack - sizeof_frame in
  let stack := stack - sizeof_context in
  let m := store32 m (stack + 16) ThreadEntry in
  let m := store32 m (stack + 24) startEntry in
  let m := store32 m (stack + 28) arg in
  let m := store32 m (stack + 32) exitEntry in
  let m := store32 m (stack + 12) 0 in
  let m := store32 m (stack + 8) 0 in
  let m := store32 m (stack + 4) 0 in
  (store32 m stack 0, stack).

(** ** Programs: [port/process.c]

    The frames are values: they lie on the stack of the kernel.  What is stored on the
    stack of the program is memory. *)
Definition MakeUserTrapFrame (frame : NX_HalTrapFrame) : NX_HalTrapFrame :=
  mkFrame 0 0 0 0 0 0 0 0 0 USER_TLS_SEL 0 USER_DATA_SEL USER_DATA_SEL 0 (eip frame) USER_CODE_SEL
    (Z.lor (Z.lor EFLAGS_MBS EFLAGS_IF_1) EFLAGS_IOPL_3) (esp frame) USER_STACK_SEL.

Definition with_entry (f : NX_HalTrapFrame) (eip' esp' : Z) : NX_HalTrapFrame :=
  mkFrame (vectorNumber f) (edi f) (esi f) (ebp f) (espDummy f) (ebx f) (edx f) (ecx f) (eax f)
    (gs f) (fs f) (es f) (ds f) (errorCode f) eip' (cs f) (eflags f) esp' (ss f).

(** [raw] is what lay on the stack of the kernel. *)
Definition NX_HalProcessExecuteUser (m : memory) (raw : NX_HalTrapFrame) (text userStack args : Z) : memory * NX_HalTrapFrame :=
  let frame := MakeUserTrapFrame raw in
  let sp := u32 (userStack - 4) in
  (store32 m sp args, with_entry frame text sp).

(** [code] is the code between the labels [__UserThreadReturnCode...]. *)
Definition NX_HalProcessExecuteUserThread (m : memory) (raw : NX_HalTrapFrame) (code : list Z) (text userStack arg : Z) :
    memory * NX_HalTrapFrame :=
  let frame := MakeUserTrapFrame raw in
  let retCodeSz := Z.of_nat (length code) in
  let retCode := userStack - retCodeSz in
  let m := store_bytes m retCode code in
  let retStack := align4 retCode in
  let retStack := retStack - 4 in
  let m := store32 m retStack arg in
  let retStack := retStack - 4 in
  let m := store32 m retStack retCode in
  (m, with_entry frame text retStack).

Definition NX_HalProcessSetTls (gdt : Z -> CPU_Segment) (tls : Z) : Z -> CPU_Segment := CPU_TlsSet gdt tls.
Definition NX_HalProcessGetTls (gdt : Z -> CPU_Segment) : Z := CPU_TlsGet gdt.

(** The stack of the kernel for the next trap and the register of the page table. *)
Definition NX_HalProcessSwitchPageTable (tss : list Z) (stackBase stackSize pageTablePhy : Z) : list Z * Z :=
  (CPU_SetTssStack tss (stackBase + stackSize), pageTablePhy).

(** [call] runs a system call with its seven arguments, the last of which is on the
    stack of the program. *)
Definition NX_HalProcessSyscallDispatch {W} (call : NX_SyscallHandler -> list Z -> W -> option (W * Z)) (m : memory)
    (frame : NX_HalTrapFrame) (w : W) : option (W * NX_HalTrapFrame) :=
  let handler := NX_SyscallGetHandler (eax frame) in
  let arg6 := load32 m (esp frame) in
  '(w, r) ← call handler [ebx frame; ecx frame; edx frame; esi frame; edi frame; ebp frame; arg6] w;
  Some (w, with_eax frame r).

(** ** Descriptors hold what they are made of *)
Lemma upd_all_at {A} (t : Z -> A) (f : Z -> A) l : forall j, upd_all t l f j = if decide (j ∈ l) then f j else t j.
Proof.
  revert t. induction l as [|i l IH]; intros t j; cbn [upd_all].
  - rewrite decide_False; [done|]. apply not_elem_of_nil.
  - rewrite IH. unfold upd. destruct (decide (j ∈ l)) as [Hl|Hl].
    + by rewrite decide_True by (by right).
    + destruct (Z.eqb_spec j i) as [->|Hne]; [by rewrite decide_True by left|].
      rewrite decide_False; [done|]. by intros [|]%elem_of_cons.
Qed.

Lemma low_bits x k : 0 <= k -> Z.land x (2 ^ k - 1) = x mod 2 ^ k.
Proof. intros. rewrite <- Z.land_ones, Z.ones_equiv by done. f_equal. Qed.
Lemma low8 x : Z.land x 0xff = x mod 2 ^ 8. Proof. by apply (low_bits x 8). Qed.
Lemma low16 x : Z.land x 0xffff = x mod 2 ^ 16. Proof. by apply (low_bits x 16). Qed.

Lemma high_nibble y : Z.land y 0xf0 = y / 2 ^ 4 mod 2 ^ 4 * 2 ^ 4.
Proof.
  rewrite <- Z.shiftr_div_pow2, <- Z.land_ones, <- Z.shiftl_mul_pow2 by lia. apply Z.bits_inj'. intros i Hi.
  change 0xf0 with (Z.ones 4 << 4). rewrite Z.land_spec. destruct (Z.ltb_spec i 4).
  - rewrite !Z.shiftl_spec_low by done. apply andb_false_r.
  - rewrite !Z.shiftl_spec, Z.land_spec, Z.shiftr_spec by lia. by replace (i - 4 + 4) with i by lia.
Qed.

Lemma nibbles x y : Z.lor (Z.land x 0x0f) (Z.land y 0xf0) = x mod 2 ^ 4 + y / 2 ^ 4 mod 2 ^ 4 * 2 ^ 4.
Proof.
  rewrite <- Z.add_nocarry_lor.
  - by rewrite high_nibble, <- (low_bits x 4) by lia.
  - rewrite <- Z.land_assoc, (Z.land_comm y), (Z.land_assoc 0x0f). change (Z.land 0x0f 0xf0) with 0. apply Z.land_0_r.
Qed.

(** What the processor reads out of the descriptor of a segment, and out of a gate. *)
Definition seg_base (s : CPU_Segment) : Z := baseLow s + baseMid s * 2 ^ 16 + baseHigh s * 2 ^ 24.
Definition seg_limit (s : CPU_Segment) : Z := limitLow s + limitHigh s mod 16 * 2 ^ 16.
Definition seg_attr (s : CPU_Segment) : Z := accessRight s + limitHigh s / 16 * 2 ^ 12.
Definition seg_dpl (s : CPU_Segment) : Z := accessRight s / 2 ^ 5 mod 4.
Definition gate_handler (g : CPU_Gate) : Z := offsetLow g + offsetHigh g * 2 ^ 16.
Definition gate_present (g : CPU_Gate) : bool := Z.testbit (attributes g) 7.
Definition gate_dpl (g : CPU_Gate) : Z := attributes g / 2 ^ 5 mod 4.
Definition gate_type (g : CPU_Gate) : Z := attributes g mod 2 ^ 5.

(** A descriptor of a segment gives back its base, the low 20 bits of its limit and its
    attributes. *)
Theorem segment_roundtrip limit base attr : 0 <= limit -> 0 <= base < 2 ^ 32 -> 0 <= attr < 2 ^ 16 -> attr / 2 ^ 8 mod 16 = 0 ->
  let s := SetSegment limit base attr in
  seg_base s = base /\ seg_limit s = limit mod 2 ^ 20 /\ seg_attr s = attr /\ seg_dpl s = attr / 2 ^ 5 mod 4.
Proof.
  intros Hl Hb Ha Hz s. unfold s, SetSegment, seg_base, seg_limit, seg_attr, seg_dpl.
  cbn [baseLow baseMid baseHigh limitLow limitHigh accessRight].
  rewrite nibbles, !low8, !low16, !Z.shiftr_div_pow2 by lia. split_and!; zlia.
Qed.

Lemma seg_base_fields a1 a2 a3 (base : Z) : 0 <= base < 2 ^ 32 ->
  seg_base (mkSegment a1 (Z.land base 0xffff) (Z.land (base >> 16) 0xff) a2 a3 (Z.land (base >> 24) 0xff)) = base.
Proof. intros Hb. unfold seg_base. cbn. rewrite !low8, !low16, !Z.shiftr_div_pow2 by lia. zlia. Qed.

Lemma lor_apart x y k : 0 <= k -> 0 <= x < 2 ^ k -> Z.lor x (y << k) = x + y * 2 ^ k.
Proof.
  intros Hk Hx. rewrite Z.shiftl_mul_pow2 by done. rewrite Z.add_nocarry_lor; [done|].
  rewrite <- (Z.mod_small x (2 ^ k)), <- Z.land_ones, <- Z.land_assoc, (Z.land_comm (Z.ones k)), Z.land_ones by done.
  rewrite Z.mod_mul by (pose proof (Z.pow_pos_nonneg 2 k); lia). apply Z.land_0_r.
Qed.

(** The thread-local area is found again, its segment keeps its limit and its rights,
    and no other segment changes. *)
Theorem tls_found_again gdt base : 0 <= base < 2 ^ 32 ->
  let gdt' := CPU_TlsSet gdt base in
  CPU_TlsGet gdt' = base /\ seg_base (gdt' (USER_TLS_SEL >> 3)) = base /\
  seg_limit (gdt' INDEX_USER_TLS) = seg_limit (gdt INDEX_USER_TLS) /\ seg_attr (gdt' INDEX_USER_TLS) = seg_attr (gdt INDEX_USER_TLS) /\
  forall i, i <> INDEX_USER_TLS -> gdt' i = gdt i.
Proof.
  intros Hb gdt'. unfold gdt', CPU_TlsSet. change (USER_TLS_SEL >> 3) with INDEX_USER_TLS.
  unfold upd at 2 3 4. rewrite Z.eqb_refl. split_and!; try done.
  - unfold CPU_TlsGet, upd. rewrite Z.eqb_refl. cbn [baseLow baseMid baseHigh]. rewrite !low8, !low16, !Z.shiftr_div_pow2 by lia.
    rewrite !lor_apart by (try rewrite lor_apart; zlia). rewrite u32_small; zlia.
  - by apply seg_base_fields.
  - intros i Hi. unfold upd. by rewrite (proj2 (Z.eqb_neq _ _)).
Qed.

(** After the start the selectors of programs lead to segments of privilege 3 over all
    of the memory, those of the kernel to segments of privilege 0, that of the task to
    its state; the rest of the table is empty. *)
Definition flat_segment (s : CPU_Segment) (dpl type : Z) : Prop :=
  seg_base s = 0 /\ seg_limit s = 2 ^ 20 - 1 /\ seg_dpl s = dpl /\ accessRight s mod 2 ^ 5 = type /\ Z.testbit (seg_attr s) 15 = true.

Theorem gdt_privileges gdt tss : 0 <= tss < 2 ^ 32 ->
  let t := CPU_InitSegment gdt tss in
  flat_segment (t (KERNEL_CODE_SEL >> 3)) 0 0x1A /\ flat_segment (t (KERNEL_DATA_SEL >> 3)) 0 0x12 /\
  flat_segment (t (USER_CODE_SEL >> 3)) 3 0x1A /\ flat_segment (t (USER_DATA_SEL >> 3)) 3 0x12 /\ flat_segment (t (USER_TLS_SEL >> 3)) 3 0x10 /\
  seg_base (t (KERNEL_TSS_SEL >> 3)) = tss /\ seg_limit (t (KERNEL_TSS_SEL >> 3)) = sizeof_CPU_TSS - 1 /\ seg_dpl (t (KERNEL_TSS_SEL >> 3)) = 0 /\
  (USER_CODE_SEL mod 8, USER_DATA_SEL mod 8, USER_TLS_SEL mod 8, KERNEL_CODE_SEL mod 8, KERNEL_DATA_SEL mod 8) = (3, 3, 3, 0, 0) /\
  forall i, i = 0 \/ 6 < i < 256 -> t i = SetSegment 0 0 0.
Proof.
  intros Ht t. split_and!; try done.
  - by apply seg_base_fields.
  - intros i Hi. unfold t, CPU_InitSegment, upd, INDEX_KERNEL_CODE, INDEX_KERNEL_DATA, INDEX_TSS, INDEX_USER_CODE, INDEX_USER_DATA, INDEX_USER_TLS.
    rewrite !(proj2 (Z.eqb_neq i _)) by lia. rewrite upd_all_at, decide_True; [done|]. apply elem_of_seqZ. change (GDT_LIMIT / 8 + 1) with 256. lia.
Qed.

(** ** Gates *)
Lemma gate_roundtrip handler attr dpl : 0 <= handler < 2 ^ 32 -> 0 <= attr < 2 ^ 8 -> attr / 2 ^ 5 mod 4 = 0 -> 0 <= dpl < 4 ->
  let g := SetGate handler KERNEL_CODE_SEL attr dpl in
  gate_handler g = handler /\ gate_dpl g = dpl /\ gate_type g = attr mod 2 ^ 5 /\ gate_present g = Z.testbit attr 7 /\ selector g = KERNEL_CODE_SEL.
Proof.
  intros Hh Ha Hz Hd g. unfold g, SetGate, gate_handler, gate_dpl, gate_type, gate_present. cbn [offsetLow offsetHigh attributes selector].
  assert (Hor : u8 (Z.lor attr (dpl << 5)) = attr + dpl * 2 ^ 5).
  { rewrite <- (Z.mod_small (attr + dpl * 2 ^ 5) (2 ^ 8)) by zlia. unfold u8. f_equal. rewrite Z.shiftl_mul_pow2 by lia.
    rewrite Z.add_nocarry_lor; [done|]. apply Z.bits_inj'. intros i Hi. rewrite Z.land_spec, Z.bits_0.
    destruct (Z.ltb_spec i 5); [rewrite Z.mul_pow2_bits_low by lia; apply andb_false_r|].
    destruct (Z.ltb_spec i 7) as [Hi7|Hi7].
    - assert (Z.testbit (attr / 2 ^ 5 mod 2 ^ 2) (i - 5) = false) as Hb by (change (2 ^ 2) with 4; by rewrite Hz, Z.bits_0).
      rewrite Z.mod_pow2_bits_low, Z.div_pow2_bits in Hb by lia. replace (i - 5 + 5) with i in Hb by lia. by rewrite Hb.
    - rewrite Z.mul_pow2_bits by lia. rewrite (Z.bits_above_log2 dpl (i - 5)); [apply andb_false_r | lia|].
      destruct (Z.eq_dec dpl 0) as [->|]; [cbn; lia|]. apply Z.log2_lt_pow2; [lia|]. pose proof (Z.pow_le_mono_r 2 2 (i - 5)). lia. }
  rewrite Hor, !low16, Z.shiftr_div_pow2 by lia. split_and!; try zlia; [|done].
  rewrite !Z.testbit_odd, !Z.shiftr_div_pow2 by lia. f_equal. zlia.
Qed.

(** After the start every exception and every interrupt has a gate to its own entry,
    which programs cannot call; the only gate they can call is that of the system
    calls.  The other gates are empty, but for the last one, which is left as it was. *)
Theorem idt_gates CPU_TrapEntry CPU_SyscallEntry idt v :
  (forall i, 0 <= CPU_TrapEntry i < 2 ^ 32) -> 0 <= CPU_SyscallEntry < 2 ^ 32 -> 0 <= v < 256 ->
  let t := CPU_InitGate CPU_TrapEntry CPU_SyscallEntry idt in
  (v < 48 -> gate_present (t v) = true /\ gate_handler (t v) = CPU_TrapEntry v /\ gate_dpl (t v) = 0 /\ gate_type (t v) = 14 /\ selector (t v) = KERNEL_CODE_SEL) /\
  (v = SYSCALL_BASE -> gate_present (t v) = true /\ gate_handler (t v) = CPU_SyscallEntry /\ gate_dpl (t v) = 3 /\ gate_type (t v) = 14 /\ selector (t v) = KERNEL_CODE_SEL) /\
  (48 <= v -> v <> SYSCALL_BASE -> v <> 255 -> gate_present (t v) = false) /\
  (v = 255 -> t v = idt v).
Proof.
  intros He Hs Hv t. unfold t, CPU_InitGate, upd. split_and!.
  - intros Hlt. rewrite (proj2 (Z.eqb_neq v SYSCALL_BASE)) by (unfold SYSCALL_BASE; lia).
    destruct (gate_roundtrip (CPU_TrapEntry v) DA_386_INTR_GATE DA_GATE_DPL0) as (H1 & H2 & H3 & H4 & H5); try done.
    rewrite upd_all_at. destruct (decide (v ∈ seqZ EXTERNAL_BASE 16)) as [|Hn]; [by split_and!|].
    rewrite upd_all_at, decide_True; [by split_and!|]. rewrite elem_of_seqZ in *. unfold EXTERNAL_BASE, EXCEPTION_BASE in *. lia.
  - intros ->. rewrite Z.eqb_refl.
    by destruct (gate_roundtrip CPU_SyscallEntry DA_386_INTR_GATE DA_GATE_DPL3) as (H1 & H2 & H3 & H4 & H5).
  - intros H48 Hsys H255. rewrite (proj2 (Z.eqb_neq v SYSCALL_BASE)) by done.
    rewrite !upd_all_at, 2 decide_False by (rewrite elem_of_seqZ; unfold EXTERNAL_BASE, EXCEPTION_BASE; lia).
    rewrite decide_True; [done|]. rewrite elem_of_seqZ. change MAX_IDT_NR with 255. lia.
  - intros ->. change (255 =? SYSCALL_BASE) with false. rewrite !upd_all_at, !decide_False; [done|..];
      rewrite elem_of_seqZ; unfold EXTERNAL_BASE, EXCEPTION_BASE; change MAX_IDT_NR with 255; lia.
Qed.

(** ** Interrupts on one core *)
Lemma if_bit eflags : 0 <= eflags < 2 ^ 32 ->
  Z.testbit (NX_HalIrqEnable eflags) 9 = true /\ Z.testbit (NX_HalIrqDisable eflags) 9 = false /\
  Z.testbit (NX_HalIrqSaveLevel eflags).1 9 = false /\
  forall eflags', NX_HalIrqRestoreLevel eflags' (NX_HalIrqSaveLevel eflags).2 = eflags.
Proof.
  intros He. unfold NX_HalIrqEnable, NX_HalIrqDisable, NX_HalIrqSaveLevel. cbn [fst snd].
  rewrite !Z.lor_spec, !Z.land_spec. change (Z.testbit EFLAGS_IF_1 9) with true. change (Z.testbit (not32 EFLAGS_IF_1) 9) with false.
  by rewrite orb_true_r, andb_false_r.
Qed.

(** ** The masks of the controller *)

(** What the ports of the masks do once the controller is set up: [imr] are the masks of
    the two chips. *)
Class PicLaws (W : Type) `{IoBus W} := {
  pic_ready : W -> Prop;
  imr : bool -> W -> Z;                  (* of the second chip *)
  imr_range : forall w b, pic_ready w -> 0 <= imr b w < 2 ^ 8;
  in_mask : forall w (b : bool), pic_ready w ->
    IO_In8 (if b then PIC_SLAVE_CTLMASK else PIC_MASTER_CTLMASK) w = (w, imr b w);
  out_mask : forall w (b : bool) x, pic_ready w -> 0 <= x < 2 ^ 8 ->
    let w' := IO_Out8 (if b then PIC_SLAVE_CTLMASK else PIC_MASTER_CTLMASK) x w in
    pic_ready w' /\ imr b w' = x /\ imr (negb b) w' = imr (negb b) w;
  out_eoi : forall w (b : bool), pic_ready w ->
    let w' := IO_Out8 (if b then PIC_SLAVE_CTL else PIC_MASTER_CTL) PIC_EIO w in
    pic_ready w' /\ forall b, imr b w' = imr b w
}.

Section pic_masks.
Context {W : Type} `{PicLaws W}.
Implicit Types (w : W) (irq i : Z).

(** The bit of the line in its chip. *)
Definition masked w irq : bool := Z.testbit (imr (8 <=? irq) w) (irq mod 8).
(** A line of the second chip comes through the line that connects it. *)
Definition open_line w irq : bool := negb (masked w irq) && ((irq <? 8) || negb (masked w IRQ_CONNECT)).

Lemma clear_bit x k j : 0 <= x < 2 ^ 8 -> 0 <= k < 8 -> 0 <= j < 8 ->
  Z.testbit (u8 (Z.land x (Z.lnot (1 << k)))) j = Z.testbit x j && negb (j =? k).
Proof.
  intros Hx Hk Hj. unfold u8. rewrite Z.mod_pow2_bits_low, Z.land_spec, Z.lnot_spec, Z.shiftl_1_l, Z.pow2_bits_eqb by lia.
  by rewrite Z.eqb_sym.
Qed.
Lemma set_bit x k j : 0 <= x < 2 ^ 8 -> 0 <= k < 8 -> 0 <= j < 8 ->
  Z.testbit (u8 (Z.lor x (1 << k))) j = Z.testbit x j || (j =? k).
Proof.
  intros Hx Hk Hj. unfold u8. rewrite Z.mod_pow2_bits_low, Z.lor_spec, Z.shiftl_1_l, Z.pow2_bits_eqb by lia.
  by rewrite Z.eqb_sym.
Qed.

(** Writing one mask: the lines of the other chip stay. *)
Definition put_mask (b : bool) (x : Z) w : W := IO_Out8 (if b then PIC_SLAVE_CTLMASK else PIC_MASTER_CTLMASK) x w.
Lemma put_mask_spec b x w : pic_ready w -> 0 <= x < 2 ^ 8 ->
  pic_ready (put_mask b x w) /\
  forall i, 0 <= i < 16 -> masked (put_mask b x w) i = if Bool.eqb (8 <=? i) b then Z.testbit x (i mod 8) else masked w i.
Proof.
  intros Hw Hx. destruct (out_mask w b x Hw Hx) as (Hr & Hb & Hnb). split; [done|].
  intros i Hi. unfold masked, put_mask. destruct (Bool.eqb_spec (8 <=? i) b) as [E|Hne]; [by rewrite E, Hb|].
  assert ((8 <=? i) = negb b) as -> by (destruct (8 <=? i), b; done). by rewrite Hnb.
Qed.

Lemma u8_range x : 0 <= u8 x < 2 ^ 8.
Proof. apply Z.mod_pos_bound. lia. Qed.

Lemma enable_spec irq w : pic_ready w -> 0 <= irq < 16 ->
  pic_ready (PIC_Enable irq w) /\
  forall i, 0 <= i < 16 -> masked (PIC_Enable irq w) i = masked w i && negb (i =? irq) && negb ((8 <=? irq) && (i =? IRQ_CONNECT)).
Proof.
  intros Hw Hi. unfold PIC_Enable. pose proof (in_mask w false Hw) as Hin. cbn iota in Hin. rewrite Hin.
  destruct (Z.ltb_spec irq 8) as [Hlt|Hge].
  - change (IO_Out8 PIC_MASTER_CTLMASK ?x w) with (put_mask false x w).
    destruct (put_mask_spec false (u8 (Z.land (imr false w) (Z.lnot (1 << irq)))) w Hw (u8_range _)) as [Hr Hm]. split; [done|].
    intros i Hi'. rewrite Hm by done. rewrite (proj2 (Z.leb_gt 8 irq)) by lia. cbn [andb negb]. rewrite andb_true_r. unfold masked.
    destruct (Z.leb_spec 8 i) as [H8|H8]; cbn [Bool.eqb].
    + rewrite (proj2 (Z.eqb_neq i irq)) by lia. by rewrite andb_true_r.
    + rewrite clear_bit by (try apply imr_range; try done; lia || (apply Z.mod_pos_bound; lia)). by rewrite Z.mod_small by lia.
  - change (IO_Out8 PIC_MASTER_CTLMASK ?x w) with (put_mask false x w).
    set (x := u8 (Z.land (imr false w) (Z.lnot (1 << IRQ_CONNECT)))).
    destruct (put_mask_spec false x w Hw (u8_range _)) as [Hr Hm]. set (w1 := put_mask false x w) in *.
    pose proof (in_mask w1 true Hr) as Hin1. cbn iota in Hin1. rewrite Hin1.
    change (IO_Out8 PIC_SLAVE_CTLMASK ?x w1) with (put_mask true x w1).
    destruct (put_mask_spec true (u8 (Z.land (imr true w1) (Z.lnot (1 << (irq - 8))))) w1 Hr (u8_range _)) as [Hr1 Hm1]. split; [done|].
    intros i Hi'. rewrite Hm1 by done. rewrite (proj2 (Z.leb_le 8 irq)) by lia. cbn [andb].
    destruct (Z.leb_spec 8 i) as [H8|H8]; cbn [Bool.eqb].
    + rewrite clear_bit by (try apply imr_range; try done; lia || (apply Z.mod_pos_bound; lia)).
      assert (Z.testbit (imr true w1) (i mod 8) = masked w1 i) as -> by (unfold masked; by rewrite (proj2 (Z.leb_le 8 i)) by lia).
      rewrite Hm by done. rewrite (proj2 (Z.leb_le 8 i)) by lia. cbn [Bool.eqb].
      rewrite (proj2 (Z.eqb_neq i IRQ_CONNECT)) by (unfold IRQ_CONNECT; lia). cbn [negb]. rewrite andb_true_r. do 2 f_equal.
      apply eq_true_iff_eq. rewrite !Z.eqb_eq. zlia.
    + rewrite Hm by done. rewrite (proj2 (Z.leb_gt 8 i)) by lia. cbn [Bool.eqb]. unfold x.
      rewrite clear_bit by (try apply imr_range; try done; unfold IRQ_CONNECT; lia || (apply Z.mod_pos_bound; lia)).
      rewrite Z.mod_small, (proj2 (Z.eqb_neq i irq)) by lia. cbn [negb]. rewrite andb_true_r. unfold masked.
      by rewrite (proj2 (Z.leb_gt 8 i)), Z.mod_small by lia.
Qed.

Lemma disable_spec irq w : pic_ready w -> 0 <= irq < 16 ->
  pic_ready (PIC_Disable irq w) /\ forall i, 0 <= i < 16 -> masked (PIC_Disable irq w) i = masked w i || (i =? irq).
Proof.
  intros Hw Hi. set (b := 8 <=? irq).
  assert (PIC_Disable irq w = put_mask b (u8 (Z.lor (imr b w) (1 << (irq mod 8)))) w) as ->.
  { unfold PIC_Disable, b. pose proof (in_mask w (8 <=? irq) Hw) as Hin.
    destruct (Z.ltb_spec irq 8) as [Hlt|Hge]; [rewrite (proj2 (Z.leb_gt 8 irq)) in * by lia | rewrite (proj2 (Z.leb_le 8 irq)) in * by lia]; rewrite Hin.
    - by rewrite Z.mod_small by lia.
    - replace (irq mod 8) with (irq - 8) by zlia. done. }
  destruct (put_mask_spec b (u8 (Z.lor (imr b w) (1 << (irq mod 8)))) w Hw (u8_range _)) as [Hr Hm]. split; [done|].
  intros i Hi'. rewrite Hm by done. unfold b. destruct (Bool.eqb_spec (8 <=? i) (8 <=? irq)) as [E|E].
  - rewrite set_bit by (try apply imr_range; try done; apply Z.mod_pos_bound; lia). unfold masked. rewrite E. f_equal.
    apply eq_true_iff_eq. rewrite !Z.eqb_eq. destruct (Z.leb_spec 8 i), (Z.leb_spec 8 irq); try done; zlia.
  - destruct (Z.eqb_spec i irq) as [->|]; [done|]. by rewrite orb_false_r.
Qed.

(** Unmasking a line opens it, with the line that connects its chip, and touches no
    other; masking shuts exactly it.  A number out of range is refused without any
    effect, and acknowledging changes no mask. *)
Theorem pic_masks irq w : pic_ready w ->
  if (0 <=? irq) && (irq <? 16) then
    (exists w', NX_HalIrqUnmask irq w = (w', NX_EOK) /\ pic_ready w' /\ open_line w' irq = true /\
       forall i, 0 <= i < 16 -> i <> irq -> masked w' i = if (8 <=? irq) && (i =? IRQ_CONNECT) then false else masked w i) /\
    (exists w', NX_HalIrqMask irq w = (w', NX_EOK) /\ pic_ready w' /\ open_line w' irq = false /\
       forall i, 0 <= i < 16 -> i <> irq -> masked w' i = masked w i) /\
    (exists w', NX_HalIrqAck irq w = (w', NX_EOK) /\ pic_ready w' /\ forall i, masked w' i = masked w i)
  else NX_HalIrqUnmask irq w = (w, NX_EINVAL) /\ NX_HalIrqMask irq w = (w, NX_EINVAL) /\ NX_HalIrqAck irq w = (w, NX_EINVAL).
Proof.
  intros Hw. unfold NX_HalIrqUnmask, NX_HalIrqMask, NX_HalIrqAck, NX_NR_IRQS. rewrite Z.geb_leb, (Z.leb_antisym irq 16), (Z.ltb_antisym 0 irq).
  destruct (0 <=? irq) eqn:Hge0, (irq <? 16) eqn:H16; cbn [andb orb negb]; try done. bool2prop.
  destruct (enable_spec irq w Hw) as [He Hem]; [done|]. destruct (disable_spec irq w Hw) as [Hd Hdm]; [done|].
  split_and!.
  - eexists. split; [done|]. split; [done|]. split.
    + unfold open_line. rewrite !Hem by (done || (unfold IRQ_CONNECT; lia)). rewrite Z.eqb_refl. cbn [negb]. rewrite andb_false_r. cbn [andb negb].
      rewrite (Z.ltb_antisym 8 irq). destruct (8 <=? irq); cbn [negb andb orb]; [|done].
      change (IRQ_CONNECT =? IRQ_CONNECT) with true. cbn. by rewrite andb_false_r.
    + intros i Hi Hne. rewrite Hem by done. rewrite (proj2 (Z.eqb_neq i irq)) by done. cbn [negb]. rewrite andb_true_r.
      destruct ((8 <=? irq) && (i =? IRQ_CONNECT)); [apply andb_false_r | apply andb_true_r].
  - eexists. split; [done|]. split; [done|]. split.
    + unfold open_line. rewrite Hdm, Z.eqb_refl, orb_true_r by done. done.
    + intros i Hi Hne. rewrite Hdm by done. rewrite (proj2 (Z.eqb_neq i irq)) by done. apply orb_false_r.
  - unfold PIC_Ack. rewrite Z.geb_leb. destruct (8 <=? irq).
    + destruct (out_eoi w true Hw) as [H1 H2]. cbn iota in H1, H2. destruct (out_eoi _ false H1) as [H3 H4]. cbn iota in H3, H4.
      eexists. split; [done|]. split; [done|]. intros i. unfold masked. by rewrite H4, H2.
    + destruct (out_eoi w false Hw) as [H1 H2]. cbn iota in H1, H2.
      eexists. split; [done|]. split; [done|]. intros i. unfold masked. by rewrite H2.
Qed.
End pic_masks.

(** *** The two chips, as their data sheet has them

    After a first command word the next three words at the port of the masks are the
    base of the vectors, the connection and the mode; then the port shows the masks. *)
Record Chip := mkChip { c_next : nat; c_base : Z; c_connect : Z; c_mode : Z; c_imr : Z; c_eois : Z }.
Definition Pic8259 : Type := Chip * Chip.
Definition chip (b : bool) (w : Pic8259) : Chip := if b then w.2 else w.1.
Definition with_chip (b : bool) (w : Pic8259) (c : Chip) : Pic8259 := if b then (w.1, c) else (c, w.2).
Definition command (c : Chip) (x : Z) : Chip :=
  if Z.testbit x 4 then mkChip 3 (c_base c) (c_connect c) (c_mode c) 0 (c_eois c)
  else if x =? PIC_EIO then mkChip (c_next c) (c_base c) (c_connect c) (c_mode c) (c_imr c) (c_eois c + 1)
  else c.
Definition data (c : Chip) (x : Z) : Chip :=
  match c_next c with
  | 3%nat => mkChip 2 x (c_connect c) (c_mode c) (c_imr c) (c_eois c)
  | 2%nat => mkChip 1 (c_base c) x (c_mode c) (c_imr c) (c_eois c)
  | 1%nat => mkChip 0 (c_base c) (c_connect c) x (c_imr c) (c_eois c)
  | _ => mkChip 0 (c_base c) (c_connect c) (c_mode c) x (c_eois c)
  end.
#[export] Instance pic_bus : IoBus Pic8259 := {|
  IO_In8 port w :=
    (w, if port =? PIC_MASTER_CTLMASK then c_imr w.1 else if port =? PIC_SLAVE_CTLMASK then c_imr w.2 else 0xff);
  IO_Out8 port x w :=
    if port =? PIC_MASTER_CTLMASK then with_chip false w (data w.1 (u8 x))
    else if port =? PIC_SLAVE_CTLMASK then with_chip true w (data w.2 (u8 x))
    else if port =? PIC_MASTER_CTL then with_chip false w (command w.1 (u8 x))
    else if port =? PIC_SLAVE_CTL then with_chip true w (command w.2 (u8 x))
    else w
|}.

#[export] Instance pic_laws : PicLaws Pic8259.
Proof.
  refine (Build_PicLaws Pic8259 _
    (fun w => c_next w.1 = 0%nat /\ c_next w.2 = 0%nat /\ 0 <= c_imr w.1 < 2 ^ 8 /\ 0 <= c_imr w.2 < 2 ^ 8)
    (fun b w => c_imr (chip b w)) _ _ _ _).
  - intros w [] (_ & _ & H1 & H2); done.
  - by intros w [] _.
  - intros w b x (Hn1 & Hn2 & H1 & H2) Hx. destruct b; cbn; unfold data; rewrite ?Hn1, ?Hn2; cbn;
      unfold u8; rewrite Z.mod_small by done; done.
  - intros w b (Hn1 & Hn2 & H1 & H2). destruct b; cbn; (split; [done|]); by intros [].
Defined.

(** The start maps the sixteen lines to the vectors from [EXTERNAL_BASE] on, all masked,
    with the second chip at the line the drivers unmask for it. *)
Definition line_vector (w : Pic8259) (irq : Z) : Z := c_base (chip (8 <=? irq) w) + irq mod 8.

Theorem pic_init_vectors w irq : 0 <= irq < 16 ->
  let w' := PIC_Init w in
  pic_ready w' /\ line_vector w' irq = EXTERNAL_BASE + irq /\ masked w' irq = true /\
  c_connect w'.1 = 2 ^ IRQ_CONNECT /\ c_connect w'.2 = IRQ_CONNECT /\ c_mode w'.1 = 1 /\ c_mode w'.2 = 1.
Proof.
  intros Hi w'. destruct w as [a b].
  assert (w' = (mkChip 0 0x20 4 1 0xff (c_eois a), mkChip 0 0x28 2 1 0xff (c_eois b))) as ->.
  { unfold w'. destruct a as [na ? ? ? ? ?], b as [nb ? ? ? ? ?].
    destruct na as [|[|[|[|na]]]], nb as [|[|[|[|nb]]]]; reflexivity. }
  unfold line_vector, masked, imr, pic_ready. cbn [pic_laws chip fst snd c_base c_imr c_next c_connect c_mode].
  split_and!; try done.
  - destruct (Z.leb_spec 8 irq); cbn [chip fst snd c_base]; unfold EXTERNAL_BASE; zlia.
  - assert (0 <= irq mod 8 < 8) by (apply Z.mod_pos_bound; lia).
    destruct (8 <=? irq); cbn [chip fst snd c_imr]; change 0xff with (Z.ones 8); rewrite Z.ones_spec_low by lia; done.
Qed.

(** Acknowledging tells the first chip, and the second one too for its lines. *)
Example ack_both_chips :
  let w := PIC_Init (mkChip 0 0 0 0 0 0, mkChip 0 0 0 0 0 0) in
  ((c_eois (PIC_Ack 9 w).1, c_eois (PIC_Ack 9 w).2), (c_eois (PIC_Ack 3 w).1, c_eois (PIC_Ack 3 w).2)) = ((1, 1), (1, 0)).
Proof. vm_compute. reflexivity. Qed.

(** ** From a line to its handler *)

(** An interrupt of a line that is bound: its vector has a gate that programs cannot
    call, to the entry that carries this number; the dispatch runs the actions bound to
    the line and acknowledges it. *)
Theorem line_reaches_handlers {W} `{IoBus W} action_call table CPU_TrapEntry CPU_SyscallEntry idt (pics : Pic8259) (w : W) irq node :
  (forall i, 0 <= CPU_TrapEntry i < 2 ^ 32) -> 0 <= CPU_SyscallEntry < 2 ^ 32 -> 0 <= irq < 16 ->
  zlookup table irq = Some node -> controller node = true ->
  let vector := line_vector (PIC_Init pics) irq in
  let g := CPU_InitGate CPU_TrapEntry CPU_SyscallEntry idt vector in
  gate_present g = true /\ gate_handler g = CPU_TrapEntry vector /\ gate_dpl g = 0 /\
  NX_HalInterruptDispatch action_call table vector w = Some (PIC_Ack irq (Handle_loop action_call irq (actionList node) w)).
Proof.
  intros He Hs Hi Hnode Hc vector g. destruct (pic_init_vectors pics irq Hi) as (_ & Hv & _).
  fold vector in Hv. unfold EXTERNAL_BASE in Hv.
  destruct (idt_gates CPU_TrapEntry CPU_SyscallEntry idt vector He Hs ltac:(lia)) as ([? (? & ? & _)] & _); [lia|].
  split_and!; [done..|]. unfold NX_HalInterruptDispatch, EXCEPTION_BASE, MAX_EXCEPTION_NR, EXTERNAL_BASE, NX_NR_IRQS. rewrite Hv, !Z.geb_leb.
  rewrite (proj2 (Z.ltb_ge (32 + irq) (0 + 32))), andb_false_r, (proj2 (Z.leb_le 32 (32 + irq))), (proj2 (Z.ltb_lt (32 + irq) (32 + 16))) by lia.
  cbn [andb]. replace (32 + irq - 32) with irq by lia. unfold NX_IRQ_Handle, IRQ_NodeGet.
  rewrite (proj2 (Z.leb_le 0 irq)), (proj2 (Z.ltb_lt irq 16)) by lia. cbn [andb]. rewrite Hnode, Hc. cbn [assert mbind option_bind].
  unfold NX_HalIrqAck, NX_NR_IRQS. by rewrite Z.geb_leb, (proj2 (Z.ltb_ge irq 0)), (proj2 (Z.leb_gt 16 irq)) by lia.
Qed.

(** An exception stops the core. *)
Lemma exceptions_spin {W} `{IoBus W} action_call table v (w : W) : 0 <= v < 32 -> NX_HalInterruptDispatch action_call table v w = None.
Proof.
  intros Hv. unfold NX_HalInterruptDispatch, EXCEPTION_BASE, MAX_EXCEPTION_NR.
  by rewrite Z.geb_leb, (proj2 (Z.leb_le 0 v)), (proj2 (Z.ltb_lt v (0 + 32))) by lia.
Qed.

(** ** The clock *)

(** The two bytes given to the counter are the divisor, for at least 19 ticks in a second;
    for fewer it does not fit. *)
Theorem pit_divisor ticks : 19 <= ticks <= TIMER_FREQ ->
  let low := u8 (Z.land (COUNTER0_VALUE ticks) 0xff) in
  let high := Z.land (u8 (COUNTER0_VALUE ticks >> 8)) 0xff in
  low + 2 ^ 8 * high = TIMER_FREQ / ticks /\ 0 < TIMER_FREQ / ticks.
Proof.
  intros Ht low high. unfold low, high, COUNTER0_VALUE. set (d := TIMER_FREQ / ticks).
  assert (0 < d < 2 ^ 16).
  { split; [apply Z.div_str_pos; unfold TIMER_FREQ in *; lia|].
    apply Z.le_lt_trans with (TIMER_FREQ / 19); [apply Z.div_le_compat_l; unfold TIMER_FREQ; lia | done]. }
  rewrite !low8, Z.shiftr_div_pow2 by lia. unfold u8. split; [zlia | lia].
Qed.
Example pit_too_slow :
  let low := u8 (Z.land (COUNTER0_VALUE 18) 0xff) in
  let high := Z.land (u8 (COUNTER0_VALUE 18 >> 8)) 0xff in
  (low + 2 ^ 8 * high, TIMER_FREQ / 18) = (751, 66287).
Proof. vm_compute. reflexivity. Qed.

(** ** New threads *)
Lemma align4_spec x : 0 <= x < 2 ^ 32 -> align4 x = x / 4 * 4.
Proof.
  intros Hx. unfold align4. change 4 with (2 ^ 2) at 2 3. rewrite <- Z.shiftr_div_pow2, <- Z.shiftl_mul_pow2 by lia.
  apply Z.bits_inj'. intros i Hi. rewrite Z.land_spec. change (not32 (4 - 1)) with (Z.ones 30 << 2).
  destruct (Z.ltb_spec i 2); [rewrite !Z.shiftl_spec_low by done; apply andb_false_r|].
  rewrite !Z.shiftl_spec, Z.shiftr_spec by lia. replace (i - 2 + 2) with i by lia.
  destruct (Z.ltb_spec (i - 2) 30); [rewrite Z.ones_spec_low by lia; apply andb_true_r|].
  rewrite Z.ones_spec_high by lia. rewrite andb_false_r. symmetry.
  destruct (Z.eq_dec x 0) as [->|]; [apply Z.bits_0|]. apply Z.bits_above_log2; [lia|].
  assert (Z.log2 x < 32) by (apply Z.log2_lt_pow2; lia). lia.
Qed.

Ltac words := repeat first [rewrite load_store32 | rewrite load_store32_ne by lia].

Lemma store32_above m a x b : ~ (a <= b < a + 4) -> store32 m a x b = m b.
Proof. intros Hb. by rewrite store32_at, decide_False. Qed.

(** The context of a new thread: four registers that are 0, the place to go to, and
    there the arguments of [ThreadEntry] as a function finds them on its stack, above the
    place to return to.  It lies on the stack of the thread, aligned to words. *)
Theorem thread_context_init m ThreadEntry startEntry exitEntry arg stackTop :
  0 <= ThreadEntry < 2 ^ 32 -> 0 <= startEntry < 2 ^ 32 -> 0 <= exitEntry < 2 ^ 32 -> 0 <= arg < 2 ^ 32 ->
  sizeof_frame + sizeof_context <= stackTop < 2 ^ 32 - 4 ->
  let '(m', sp) := NX_HalContextInit m ThreadEntry startEntry exitEntry arg stackTop in
  words_at m' sp [0; 0; 0; 0; ThreadEntry] /\ words_at m' (sp + 24) [startEntry; arg; exitEntry] /\
  sp mod 4 = 0 /\ stackTop - sizeof_frame - sizeof_context < sp + 4 /\ sp + sizeof_context + sizeof_frame <= stackTop + 4 /\
  forall a, ~ (sp <= a < sp + sizeof_context) -> m' a = m a.
Proof.
  intros H1 H2 H3 H4 Ht. unfold NX_HalContextInit. unfold sizeof_frame, sizeof_context in *.
  rewrite u32_small, align4_spec by lia. set (sp := (stackTop + 4) / 4 * 4 - 19 * 4 - 9 * 4).
  cbn [words_at]. rewrite <- !Z.add_assoc. change (4 + 4) with 8. change (8 + 4) with 12. change (4 + (4 + 4)) with 12.
  change (4 + (4 + (4 + 4))) with 16. change (24 + 4) with 28. change (24 + (4 + 4)) with 32.
  split_and!; try done; try (words; rewrite ?u32_small by lia; done); try (unfold sp; zlia).
  intros a Ha. by rewrite !store32_above by lia.
Qed.

(** ** Entering a program *)

(** The frame a program starts with: the segments of programs, all registers 0 and
    interrupts on. *)
Definition user_frame (f : NX_HalTrapFrame) : Prop :=
  cs f = USER_CODE_SEL /\ ds f = USER_DATA_SEL /\ es f = USER_DATA_SEL /\ ss f = USER_DATA_SEL /\ gs f = USER_TLS_SEL /\ fs f = 0 /\
  edi f = 0 /\ esi f = 0 /\ ebp f = 0 /\ ebx f = 0 /\ edx f = 0 /\ ecx f = 0 /\ eax f = 0 /\ Z.testbit (eflags f) 9 = true.

(** A program starts at its entry, in the segments of programs, with the address of its
    arguments on top of its stack; of the memory nothing else changes. *)
Theorem program_starts m raw text userStack args : 4 <= userStack < 2 ^ 32 -> 0 <= args < 2 ^ 32 ->
  let '(m', f) := NX_HalProcessExecuteUser m raw text userStack args in
  user_frame f /\ eip f = text /\ esp f = userStack - 4 /\ load32 m' (esp f) = args /\
  forall a, ~ (esp f <= a < userStack) -> m' a = m a.
Proof.
  intros Hu Ha. unfold NX_HalProcessExecuteUser. rewrite u32_small by lia. cbn [esp eip with_entry].
  split_and!; try done; [by rewrite load_store32, u32_small|]. intros a Hn. apply store32_above. lia.
Qed.

(** A thread of a program starts at its entry as a function called with its argument:
    above the address it returns to, which is that of the copied code right above. *)
Theorem thread_starts m raw code text userStack arg :
  length code + 16 <= userStack < 2 ^ 32 -> 0 <= arg < 2 ^ 32 ->
  let '(m', f) := NX_HalProcessExecuteUserThread m raw code text userStack arg in
  let retCode := userStack - length code in
  user_frame f /\ eip f = text /\ esp f mod 4 = 0 /\ esp f + 8 <= retCode < esp f + 12 /\
  words_at m' (esp f) [retCode; arg] /\
  (forall i : nat, (i < length code)%nat -> Some (m' (retCode + i)) = code !! i) /\
  forall a, ~ (esp f <= a < userStack) -> m' a = m a.
Proof.
  intros Hu Ha. unfold NX_HalProcessExecuteUserThread. set (retCode := userStack - length code).
  assert (retCode / 4 * 4 <= retCode < retCode / 4 * 4 + 4) by zlia.
  rewrite align4_spec by lia. cbn [esp eip with_entry words_at].
  replace (retCode / 4 * 4 - 4 - 4 + 4) with (retCode / 4 * 4 - 4) by lia.
  split_and!; try done; try lia; try zlia.
  - rewrite load_store32, u32_small by lia. done.
  - rewrite load_store32_ne, load_store32, u32_small by lia. done.
  - intros i Hi. rewrite !store32_above by lia. unfold store_bytes, zlookup. replace (retCode + i - retCode) with (Z.of_nat i) by lia.
    rewrite (proj2 (Z.leb_le 0 i)), Nat2Z.id by lia. by destruct (lookup_lt_is_Some_2 code i Hi) as [b ->].
  - intros a Hn. rewrite !store32_above by lia. unfold store_bytes, zlookup. destruct (Z.leb_spec 0 (a - retCode)); [|done].
    rewrite lookup_ge_None_2 by lia. done.
Qed.

(** Programs get to the ports of the devices: their privilege, 3, is no more than the
    level the flags ask for. *)
Example programs_reach_ports raw : eflags (MakeUserTrapFrame raw) / 2 ^ 12 mod 4 = 3.
Proof. reflexivity. Qed.

(** ** System calls *)

(** A system call gets its number from [eax] and its seventh argument from the stack;
    the result is in [eax], and no other register has changed. *)
Theorem system_call_dispatched {W} (call : NX_SyscallHandler -> list Z -> W -> option (W * Z)) m frame (w w' : W) r arg6 :
  load32 m (esp frame) = arg6 ->
  call (NX_SyscallGetHandler (eax frame)) [ebx frame; ecx frame; edx frame; esi frame; edi frame; ebp frame; arg6] w = Some (w', r) ->
  exists frame', NX_HalProcessSyscallDispatch call m frame w = Some (w', frame') /\ eax frame' = r /\ with_eax frame' (eax frame) = frame.
Proof.
  intros <- Hcall. unfold NX_HalProcessSyscallDispatch. rewrite Hcall. cbn [mbind option_bind].
  eexists. split; [done|]. split; [done|]. by destruct frame.
Qed.

(** The code copied for threads makes call 48 with the result as its first argument. *)
Example thread_code_calls_exit : NX_SyscallGetHandler 48 = SysThreadExit_.
Proof. reflexivity. Qed.

(** ** Atomic operations *)
Lemma atomic_ops cell value : - 2 ^ 31 <= cell < 2 ^ 31 ->
  NX_HalAtomicSub (NX_HalAtomicAdd cell value) value = cell /\ NX_HalAtomicDec (NX_HalAtomicInc cell) = cell.
Proof. intros Hc. unfold NX_HalAtomicSub, NX_HalAtomicAdd, NX_HalAtomicDec, NX_HalAtomicInc, i32. split; zlia. Qed.

(** Comparing and swapping succeeds, when it answers the old value, exactly from it. *)
Lemma atomic_cas cell old newValue :
  let (cell', prev) := NX_HalAtomicCAS cell old newValue in
  prev = cell /\ (prev = old -> cell' = newValue) /\ (prev <> old -> cell' = cell).
Proof. unfold NX_HalAtomicCAS. by destruct (Z.eqb_spec cell old) as [->|]. Qed.
