(* ===== verification/Pc32.v ===== *)
(** The i386 platform, a PC: the real-time clock and its driver, the serial line, what
    the boot loader hands over, and the first use of memory
    ([platform/i386], [arch/x86/kernel/memory.c]).

    The devices are reached through [IoBus] of X86.v; [SteadyClock] and [SerialLine]
    are what the clock and the serial line do.  The structures of the boot loader are
    read from memory. *)
From stdpp Require Import strings.
From S2P Require Import Prelude Bits Vmspace Elf Calendar Driver Irq Devices X86.
#[local] Coercion Z.of_nat : nat >-> Z.
#[local] Open Scope Z_scope.

(** ** The real-time clock: [drivers/rtc.c] *)
Definition CMOS_INDEX : Z := 0x70.
Definition CMOS_DATA : Z := 0x71.
Definition CMOS_CUR_SEC : Z := 0x0.
Definition CMOS_CUR_MIN : Z := 0x2.
Definition CMOS_CUR_HOUR : Z := 0x4.
Definition CMOS_WEEK_DAY : Z := 0x6.
Definition CMOS_MON_DAY : Z := 0x7.
Definition CMOS_CUR_MON : Z := 0x8.
Definition CMOS_CUR_YEAR : Z := 0x9.
Definition CMOS_CUR_CEN : Z := 0x32.

(** The bytes of a time in memory. *)
Definition sizeof_Time : Z := 20.
Definition time_bytes (t : NX_Time) : list Z :=
  [second t; minute t; hour t; weekDay t] ++ le_bytes 4 (day t) ++ le_bytes 4 (month t) ++ le_bytes 4 (year t) ++ le_bytes 4 (yearDay t).

Section rtc.
Context {W : Type} `{IoBus W}.
Implicit Types (w : W).

Definition ReadCMOS (p : Z) w : W * Z :=
  let w := IO_Out8 CMOS_INDEX p w in
  let (w, data) := IO_In8 CMOS_DATA w in
  (IO_Out8 CMOS_INDEX 0x80 w, data).

(** The macro [BCD_HEX] names its argument twice, so the register is read twice; what is
    added is not in parentheses, so a product next to it takes the second part only. *)
Definition BCD_HEX (p : Z) w : W * Z * Z :=
  let (w, n) := ReadCMOS p w in
  let (w, n') := ReadCMOS p w in
  (w, (n >> 4) * 10, Z.land n' 0xf).

Definition CMOS_GetHourHex w : W * Z := let '(w, x, y) := BCD_HEX CMOS_CUR_HOUR w in (w, x + y).
Definition CMOS_GetMinHex w : W * Z := let '(w, x, y) := BCD_HEX CMOS_CUR_MIN w in (w, x + y).
Definition CMOS_GetMinHex8 w : W * Z := let '(w, x, y) := BCD_HEX CMOS_CUR_MIN w in (w, u8 (x + y)).
Definition CMOS_GetSecHex w : W * Z := let '(w, x, y) := BCD_HEX CMOS_CUR_SEC w in (w, x + y).
Definition CMOS_GetDayOfMonth w : W * Z := let '(w, x, y) := BCD_HEX CMOS_MON_DAY w in (w, x + y).
Definition CMOS_GetDayOfWeek w : W * Z := let '(w, x, y) := BCD_HEX CMOS_WEEK_DAY w in (w, x + y).
Definition CMOS_GetMonHex w : W * Z := let '(w, x, y) := BCD_HEX CMOS_CUR_MON w in (w, x + y).
Definition CMOS_GetYear w : W * Z :=
  let '(w, x, y) := BCD_HEX CMOS_CUR_CEN w in
  let '(w, x', y') := BCD_HEX CMOS_CUR_YEAR w in
  (w, x + y * 100 + x' + y' + 1980).

(** [raw] is what the stack held: the day of the week and of the year are not set. *)
Definition RTC_Read (raw : NX_Time) (wm : W * memory) (device buf off len : Z) : W * memory * NX_Error * Z :=
  let (w, m) := wm in
  if negb (len =? sizeof_Time) then (wm, NX_EINVAL, 0)
  else
    let (w, y) := CMOS_GetYear w in
    let (w, mo) := CMOS_GetMonHex w in
    let (w, d) := CMOS_GetDayOfMonth w in
    let (w, h) := CMOS_GetHourHex w in
    let (w, mi) := CMOS_GetMinHex w in
    let (w, s) := CMOS_GetSecHex w in
    let time := mkTime (u8 s) (u8 mi) (u8 h) (weekDay raw) d mo y (yearDay raw) in
    ((w, store_bytes m buf (time_bytes time)), NX_EOK, len).

Definition RTC_DriverOps (raw : NX_Time) : @NX_DriverOps (W * memory) := mkOps None None (Some (RTC_Read raw)) None None.
Definition RTC_DriverInit (raw : NX_Time) := driver_init "rtc device"%string NX_DEVICE_TYPE_VIRT (RTC_DriverOps raw) ["rtc"%string].
Definition RTC_DriverExit (s : @Drivers (W * memory)) := NX_DriverCleanup s (Some "rtc device"%string).
End rtc.

(** ** The serial line: [drivers/direct_uart.c] *)
Definition UART0_BASE : Z := 0x3F8.
Definition BAUD_DIVISOR_DEFAULT : Z := 115200 / 115200.
Definition LINE_DLAB : Z := 1 << 7.
Definition LINE_WORD_LENGTH_8 : Z := Z.lor (1 << 1) 1.
Definition LINE_STOP_BIT_1 : Z := 0.
Definition LINE_PARITY_NO : Z := 0.
Definition INTR_RECV_DATA_AVALIABLE : Z := 1.
Definition INTR_STATUS_CHANGED : Z := 1 << 2.
Definition INTR_LOW_POWER_MODE : Z := 1 << 5.
Definition FIFO_ENABLE : Z := 1.
Definition FIFO_CLEAR_RECEIVE : Z := 1 << 1.
Definition FIFO_CLEAR_TRANSMIT : Z := 1 << 2.
Definition FIFO_ENABLE_64 : Z := 1 << 5.
Definition FIFO_TRIGGER_14 : Z := Z.lor (1 << 6) (1 << 7).
Definition MCR_DTR : Z := 1.
Definition MCR_RTS : Z := 1 << 1.
Definition MCR_OUT2 : Z := 1 << 3.
Definition LINE_STATUS_DATA_READY : Z := 1.
Definition LINE_STATUS_EMPTY_TRANSMITTER_HOLDING : Z := 1 << 5.
Definition NX_IRQ_NORMAL_QUEUE : Z := 1.

Record DirectUart := mkUart {
  iobase : Z; u_irqno : Z; u_data : Z; divisorLow : Z; intrEnable : Z; divisorHigh : Z; intrIndenty : Z; fifo : Z; lineCtrl : Z;
  modemCtrl : Z; lineStatus : Z; modem_status : Z; scratch : Z
}.

Section uart.
Context {W : Type} `{IoBus W}.
Implicit Types (w : W) (u : DirectUart).

(** The loop that waits for a bit of the line status; the result is [timeout]. *)
Fixpoint wait_status (timeout : nat) u (bit : Z) w : W * Z :=
  let (w, x) := IO_In8 (lineStatus u) w in
  if nz (Z.land x bit) then (w, Z.of_nat timeout)
  else match timeout with O => (w, -1) | S timeout => wait_status timeout u bit w end.

Definition UartSent u (ch : Z) w : W :=
  let (w, _) := wait_status (Z.to_nat 0x100000) u LINE_STATUS_EMPTY_TRANSMITTER_HOLDING w in
  IO_Out8 (u_data u) (u8 ch) w.

Definition NX_HalDirectUartPutc u (ch : Z) w : W :=
  let w := if ch =? 10 then UartSent u 13 w else w in UartSent u ch w.
Definition NX_ConsoleSendData u (ch : Z) w : W := NX_HalDirectUartPutc u ch w.

(** [u] is the static structure: what is not set keeps its value. *)
Definition NX_HalDirectUartInit u w : DirectUart * W :=
  let b := UART0_BASE in
  let u := mkUart b IRQ_SERIAL1 (b + 0) (b + 0) (b + 1) (b + 1) (b + 2) (fifo u) (b + 3) (b + 4) (b + 5) (b + 6) (b + 7) in
  let w := IO_Out8 (lineCtrl u) LINE_DLAB w in
  let w := IO_Out8 (divisorLow u) (Z.land BAUD_DIVISOR_DEFAULT 0xff) w in
  let w := IO_Out8 (divisorHigh u) (Z.land (BAUD_DIVISOR_DEFAULT >> 8) 0xff) w in
  let w := IO_Out8 (lineCtrl u) (Z.lor (Z.lor LINE_WORD_LENGTH_8 LINE_STOP_BIT_1) LINE_PARITY_NO) w in
  let w := IO_Out8 (intrEnable u) (Z.lor (Z.lor INTR_RECV_DATA_AVALIABLE INTR_STATUS_CHANGED) INTR_LOW_POWER_MODE) w in
  let w := IO_Out8 (fifo u) (Z.lor (Z.lor (Z.lor (Z.lor FIFO_ENABLE FIFO_CLEAR_TRANSMIT) FIFO_CLEAR_RECEIVE) FIFO_ENABLE_64) FIFO_TRIGGER_14) w in
  let w := IO_Out8 (modemCtrl u) (Z.lor (Z.lor MCR_DTR MCR_RTS) MCR_OUT2) w in
  (u, IO_Out8 (scratch u) 0x00 w).

Definition NX_HalDirectUartGetc u w : W * Z :=
  let (w, timeout) := wait_status (Z.to_nat 100000) u LINE_STATUS_DATA_READY w in
  if timeout >? 0 then IO_In8 (u_data u) w else (w, -1).

(** [receive] is [NX_ConsoleReceveData], unless a platform has its own handler. *)
Definition UartWorkHandler u (receive : Z -> W -> W) w : W :=
  let (w, data) := NX_HalDirectUartGetc u w in
  if negb (data =? -1) then receive data w else w.

Definition UartIrqHandler (d : Delay) (uartWork : Z) : option (Delay * NX_Error) :=
  '(d, _) ← NX_IRQ_DelayWorkHandle d uartWork; Some (d, NX_EOK).

(** [work] and [irq] are the addresses of the two handlers. *)
Definition NX_HalDirectUartStage2 u (d : Delay) (raw : NX_IRQ_DelayWork) (table : list NX_IRQ_Node) (mem : option Z) (uartWork work irq : Z) w :
    option (Delay * list NX_IRQ_Node * W) :=
  '(d, err) ← NX_IRQ_DelayWorkInit d uartWork raw work 0 NX_IRQ_WORK_NOREENTER;
  assert (is_ok err);;
  '(d, err) ← NX_IRQ_DelayQueueEnter d NX_IRQ_NORMAL_QUEUE uartWork;
  assert (is_ok err);;
  let (table, err) := NX_IRQ_Bind NX_NR_IRQS mem table (u_irqno u) irq 0 0 in
  assert (is_ok err);;
  let (w, err) := NX_IRQ_Unmask NX_NR_IRQS (Some NX_HalIrqUnmask) table (u_irqno u) w in
  assert (is_ok err);;
  Some (d, table, w).
End uart.

(** ** From the boot loader: [hal/boot_setting.c], [boot.h], [multiboot2.h] *)
Definition MULTIBOOT2_BOOTLOADER_MAGIC : Z := 0x36d76289.
Definition MULTIBOOT_TAG_TYPE_END : Z := 0.
Definition MULTIBOOT_TAG_TYPE_MODULE : Z := 3.
Definition MULTIBOOT_TAG_TYPE_BASIC_MEMINFO : Z := 4.
Definition BOOT_INFO_ADDR : Z := 0x3F1000.
Definition GRUB2_READ_MEMORY_BYTES_ADDR : Z := 0x000001000.
Definition MAX_BOOT_MODS_NUM : Z := 1.
Definition MAX_BOOT_MODS_SIZE : Z := 2 ^ 20.
Definition BOOT_MOD_UNKNOWN : Z := 0.
Definition BOOT_MOD_INITRD : Z := 1.

(** The fields of the structures: [BootModInfo], the entry [i] of its array, a tag, the
    tag of a module, the tag of the memory. *)
Definition modNum : Z := BOOT_INFO_ADDR.
Definition modSize : Z := BOOT_INFO_ADDR + 4.
Definition mod_type (i : Z) : Z := BOOT_INFO_ADDR + 8 + 16 * i.
Definition mod_size (i : Z) : Z := BOOT_INFO_ADDR + 12 + 16 * i.
Definition mod_start (i : Z) : Z := BOOT_INFO_ADDR + 16 + 16 * i.
Definition mod_end (i : Z) : Z := BOOT_INFO_ADDR + 20 + 16 * i.
Definition tag_size (tag : Z) : Z := tag + 4.
Definition tag_mod_start (tag : Z) : Z := tag + 8.
Definition tag_mod_end (tag : Z) : Z := tag + 12.
Definition tag_cmdline (tag : Z) : Z := tag + 16.
Definition tag_mem_lower (tag : Z) : Z := tag + 8.
Definition tag_mem_upper (tag : Z) : Z := tag + 12.

Definition BootModInfoInit (m : memory) : memory := store32 (store32 m modNum 0) modSize 0.

(** [NX_StrCmp] answers 0: the text at [a] is [s] (CString.v, [StrCmp_zero]). *)
Fixpoint text_is (m : memory) (a : Z) (s : list Z) : bool :=
  match s with [] => m a =? 0 | c :: s => (m a =? c) && text_is m (a + 1) s end.
Definition initrd : list Z := [105; 110; 105; 116; 114; 100].
Definition CmdlineIs (m : memory) (tag : Z) (cmd : list Z) : bool := text_is m (tag_cmdline tag) cmd.

Definition BootModInit (m : memory) (tag : Z) : memory :=
  let index := load32 m modNum in
  if (index >=? MAX_BOOT_MODS_NUM) || (u32 (load32 m modSize + load32 m (tag_size tag)) >? MAX_BOOT_MODS_SIZE) then m
  else
    let m := store32 m (mod_size index) (load32 m (tag_size tag)) in
    let m := store32 m (mod_start index) (load32 m (tag_mod_start tag)) in
    let m := store32 m (mod_end index) (load32 m (tag_mod_end tag)) in
    let m := if CmdlineIs m tag initrd then store32 m (mod_type index) BOOT_MOD_INITRD else store32 m (mod_type index) BOOT_MOD_UNKNOWN in
    let m := store32 m modSize (load32 m modSize + load32 m (mod_size index)) in
    store32 m modNum (load32 m modNum + 1).

Definition BootMemModInit (m : memory) (tag : Z) : memory :=
  let memUpper := load32 m (tag_mem_upper tag) in
  let memLower := load32 m (tag_mem_lower tag) in
  store32 m GRUB2_READ_MEMORY_BYTES_ADDR (u32 (u32 (memUpper - memLower) << 10) + 0x100000).

(** [(size + 7) & ~7] *)
Definition align8 (size : Z) : Z := Z.land (u32 (size + 7)) (not32 7).

Fixpoint BootSetting_loop (fuel : nat) (m : memory) (tag : Z) : option memory :=
  match fuel with
  | O => None
  | S fuel =>
      if load32 m tag =? MULTIBOOT_TAG_TYPE_END then Some m
      else
        let m := if load32 m tag =? MULTIBOOT_TAG_TYPE_MODULE then BootModInit m tag
                 else if load32 m tag =? MULTIBOOT_TAG_TYPE_BASIC_MEMINFO then BootMemModInit m tag else m in
        BootSetting_loop fuel m (tag + align8 (load32 m (tag_size tag)))
  end.

(** A tag takes eight bytes at least: [2 ^ 29] turns would leave the memory. *)
Definition NX_HalBootSetting (fuel : nat) (m : memory) (magic addr : Z) : option (memory * Z) :=
  if negb (magic =? MULTIBOOT2_BOOTLOADER_MAGIC) || nz (Z.land addr 7) then Some (m, -1)
  else m ← BootSetting_loop fuel (BootModInfoInit m) (addr + 8); Some (m, 0).

(** [addr] is where the kernel sees the first byte of the memory; 0 is not found. *)
Fixpoint BootModInfoFind_loop (n : nat) (m : memory) (addr ty i : Z) : Z :=
  match n with
  | O => 0
  | S n => if load32 m (addr + mod_type i) =? ty then addr + load32 m (addr + mod_start i) else BootModInfoFind_loop n m addr ty (i + 1)
  end.
Definition BootModInfoFind (m : memory) (addr ty : Z) : Z := BootModInfoFind_loop (Z.to_nat (load32 m (addr + modNum))) m addr ty 0.

(** ** The first use of memory: [kernel/memory.c], [platform.h] *)
Definition NX_MB : Z := 2 ^ 20.
Definition MEM_KERNEL_BASE : Z := 0.
Definition MEM_KERNEL_SZ : Z := 8 * NX_MB.
Definition MEM_DMA_BASE : Z := MEM_KERNEL_BASE + MEM_KERNEL_SZ.
Definition MEM_DMA_SIZE : Z := 8 * NX_MB.
Definition MEM_NORMAL_BASE : Z := MEM_DMA_BASE + MEM_DMA_SIZE.
Definition MEM_MIN_SIZE : Z := 510 * NX_MB.
Definition MEM_KERNEL_SPACE_SZ : Z := 512 * NX_MB.

(** The three zones of [NX_HalPageZoneInit], base and size; [None] is the panic. *)
Definition PageZoneInit_zones (m : memory) : option ((Z * Z) * (Z * Z) * (Z * Z)) :=
  let memSize := load32 m GRUB2_READ_MEMORY_BYTES_ADDR in
  assert (negb (memSize =? 0));; assert (negb (memSize <? MEM_MIN_SIZE));;
  let normalSize := memSize - MEM_DMA_SIZE - MEM_KERNEL_SZ in
  let normalSize := normalSize / 2 in
  let normalSize := if normalSize >? MEM_KERNEL_SPACE_SZ then MEM_KERNEL_SPACE_SZ else normalSize in
  let userBase := MEM_NORMAL_BASE + normalSize in
  let userSize := memSize - normalSize in
  Some ((MEM_DMA_BASE, MEM_DMA_SIZE), (MEM_NORMAL_BASE, normalSize), (userBase, userSize)).

(** The difference of two pointers to words is in words. *)
Definition NX_HalClearBSS (m : memory) (BssStart BssEnd : Z) : memory := NX_MemZero m BssStart ((BssEnd - BssStart) / 4).

(** ** The clock is read right, when it stands still *)

(** What the ports of the clock do while its registers do not change. *)
Class SteadyClock (W : Type) `{IoBus W} := {
  cmos : W -> Z -> Z;                    (* its registers *)
  selected : W -> Z;
  out_index : forall w x, selected (IO_Out8 CMOS_INDEX x w) = x mod 128 /\ forall p, cmos (IO_Out8 CMOS_INDEX x w) p = cmos w p;
  in_data : forall w, exists w', IO_In8 CMOS_DATA w = (w', cmos w (selected w)) /\ forall p, cmos w' p = cmos w p
}.

(** Two decimal digits in a byte. *)
Definition bcd (x : Z) : Z := x / 10 * 16 + x mod 10.

Lemma bcd_digits x : 0 <= x -> (bcd x >> 4) * 10 + Z.land (bcd x) 0xf = x /\ (bcd x >> 4) * 10 = x / 10 * 10 /\ Z.land (bcd x) 0xf = x mod 10.
Proof.
  intros Hx. rewrite Z.shiftr_div_pow2, (low_bits _ 4) by lia. unfold bcd. split_and!; zlia.
Qed.

Section steady.
Context {W : Type} `{SteadyClock W}.
Implicit Types (w : W).

Lemma read_cmos p w : 0 <= p < 128 -> exists w', ReadCMOS p w = (w', cmos w p) /\ forall q, cmos w' q = cmos w q.
Proof.
  intros Hp. unfold ReadCMOS. destruct (out_index w p) as [Hs Hc].
  destruct (in_data (IO_Out8 CMOS_INDEX p w)) as (w1 & Hr & Hc1). rewrite Hr, Hs, Hc, Z.mod_small by done.
  destruct (out_index w1 0x80) as [_ Hc2]. eexists. split; [done|]. intros q. by rewrite Hc2, Hc1, Hc.
Qed.

Lemma read_bcd p w x : 0 <= p < 128 -> 0 <= x -> cmos w p = bcd x ->
  exists w', BCD_HEX p w = (w', x / 10 * 10, x mod 10) /\ forall q, cmos w' q = cmos w q.
Proof.
  intros Hp Hx Hb. unfold BCD_HEX. destruct (read_cmos p w Hp) as (w1 & -> & H1), (read_cmos p w1 Hp) as (w2 & -> & H2).
  rewrite H1, Hb. destruct (bcd_digits x Hx) as (_ & -> & ->). eexists. split; [done|]. intros q. by rewrite H2, H1.
Qed.

(** The year that is read: the right one in the years from 2000 to 2999, and only there. *)
Theorem rtc_year w y : 0 <= y < 10000 -> cmos w CMOS_CUR_CEN = bcd (y / 100) -> cmos w CMOS_CUR_YEAR = bcd (y mod 100) ->
  exists w' y', CMOS_GetYear w = (w', y') /\ (y' = y <-> 2000 <= y < 3000) /\ forall q, cmos w' q = cmos w q.
Proof.
  intros Hy Hc Hr. unfold CMOS_GetYear.
  destruct (read_bcd CMOS_CUR_CEN w (y / 100)) as (w1 & -> & H1); [done | zlia | done|].
  destruct (read_bcd CMOS_CUR_YEAR w1 (y mod 100)) as (w2 & -> & H2); [done | zlia | by rewrite H1|].
  eexists _, _. split; [done|]. split; [|intros q; by rewrite H2, H1]. split; intros; zlia.
Qed.

Definition shows w (t : NX_Time) : Prop :=
  cmos w CMOS_CUR_CEN = bcd (year t / 100) /\ cmos w CMOS_CUR_YEAR = bcd (year t mod 100) /\ cmos w CMOS_CUR_MON = bcd (month t) /\
  cmos w CMOS_MON_DAY = bcd (day t) /\ cmos w CMOS_CUR_HOUR = bcd (hour t) /\ cmos w CMOS_CUR_MIN = bcd (minute t) /\ cmos w CMOS_CUR_SEC = bcd (second t).

Lemma ten x : x / 10 * 10 + x mod 10 = x.
Proof. zlia. Qed.

(** Reading the device gives the time the clock shows, in this millennium, but for the
    day of the week and of the year, which are whatever the stack held; any other size
    is refused. *)
Theorem rtc_reads_time raw w m device buf off len t :
  time_ok t -> 2000 <= year t < 3000 -> shows w t ->
  if len =? sizeof_Time then
    exists w', RTC_Read raw (w, m) device buf off len =
      ((w', store_bytes m buf (time_bytes (mkTime (second t) (minute t) (hour t) (weekDay raw) (day t) (month t) (year t) (yearDay raw)))), NX_EOK, len)
  else RTC_Read raw (w, m) device buf off len = ((w, m), NX_EINVAL, 0).
Proof.
  intros Ht Hy (Hc & Hyr & Hmo & Hd & Hh & Hmi & Hs). unfold RTC_Read. destruct (len =? sizeof_Time); [|done]. cbn [negb].
  destruct Ht.
  destruct (rtc_year w (year t)) as (w1 & y & -> & Hiff & H1); [lia | done | done|]. rewrite (proj2 Hiff Hy).
  unfold CMOS_GetMonHex, CMOS_GetDayOfMonth, CMOS_GetHourHex, CMOS_GetMinHex, CMOS_GetSecHex.
  destruct (read_bcd CMOS_CUR_MON w1 (month t)) as (w2 & -> & H2); [done | lia | by rewrite H1|].
  destruct (read_bcd CMOS_MON_DAY w2 (day t)) as (w3 & -> & H3); [done | lia | by rewrite H2, H1|].
  destruct (read_bcd CMOS_CUR_HOUR w3 (hour t)) as (w4 & -> & H4); [done | lia | by rewrite H3, H2, H1|].
  destruct (read_bcd CMOS_CUR_MIN w4 (minute t)) as (w5 & -> & H5); [done | lia | by rewrite H4, H3, H2, H1|].
  destruct (read_bcd CMOS_CUR_SEC w5 (second t)) as (w6 & -> & H6); [done | lia | by rewrite H5, H4, H3, H2, H1|].
  rewrite !ten. unfold u8. rewrite !(Z.mod_small _ (2 ^ 8)) by lia. by eexists.
Qed.
End steady.

(** *** A clock on its ports *)
Record Cmos := mkCmos { c_index : Z; c_reads : Z; c_regs : Z -> Z -> Z }.       (* the register after so many reads *)
#[export] Instance cmos_bus : IoBus Cmos := {|
  IO_In8 port w := if port =? CMOS_DATA then (mkCmos (c_index w) (c_reads w + 1) (c_regs w), c_regs w (c_reads w) (c_index w)) else (w, 0xff);
  IO_Out8 port x w := if port =? CMOS_INDEX then mkCmos (x mod 128) (c_reads w) (c_regs w) else w
|}.

(** A clock whose registers are those of the last of 1999, and one that goes from second
    19 to 20 between the two reads of a register. *)
Definition new_years_eve : Cmos := mkCmos 0 0 (fun _ p => if p =? CMOS_CUR_CEN then 0x19 else if p =? CMOS_CUR_YEAR then 0x99 else 0).
Definition going : Cmos := mkCmos 0 0 (fun n p => if n =? 0 then 0x19 else 0x20).

Example year_1999 : snd (CMOS_GetYear new_years_eve) = 2989.
Proof. vm_compute. reflexivity. Qed.
Example second_torn : snd (CMOS_GetSecHex going) = 10.
Proof. vm_compute. reflexivity. Qed.

(** The device at work: in the registry it is found and read. *)
Definition midsummer : Cmos :=
  mkCmos 0 0 (fun _ p => if p =? CMOS_CUR_CEN then 0x20 else if p =? CMOS_CUR_YEAR then 0x22 else if p =? CMOS_CUR_MON then 0x06
    else if p =? CMOS_MON_DAY then 0x21 else if p =? CMOS_CUR_HOUR then 0x23 else 0x59).
Example rtc_device :
  ('(s, ok) ← RTC_DriverInit NX_TIME_INIT_VAL (mkDrivers ∅ ∅ [] false (midsummer, fun _ => 0)) (Some 1) [Some 10];
   '(s, _, dev) ← NX_DeviceOpen s (Some "rtc"%string) 0; '(s, err, n) ← NX_DeviceRead s dev 100 0 20;
   Some (ok, err, n, (fun i => (outside s).2 (100 + Z.of_nat i)) <$> seq 0 20)) =
  Some (true, NX_EOK, Some 20, [59; 59; 23; 0; 21; 0; 0; 0; 6; 0; 0; 0; 230; 7; 0; 0; 0; 0; 0; 0]).
Proof. vm_compute. reflexivity. Qed.

(** A clock that stands still keeps the laws. *)
Record Still := mkStill { s_index : Z; s_regs : Z -> Z }.
#[export] Instance still_bus : IoBus Still := {|
  IO_In8 port w := (w, if port =? CMOS_DATA then s_regs w (s_index w) else 0xff);
  IO_Out8 port x w := if port =? CMOS_INDEX then mkStill (x mod 128) (s_regs w) else w
|}.
#[export] Instance still_clock : SteadyClock Still.
Proof.
  refine (Build_SteadyClock Still _ s_regs s_index _ _).
  - done.
  - intros w. by exists w.
Defined.

(** ** The serial line *)

(** A line that is ready: [sent_] are the characters sent, [waiting] those that came. *)
Class SerialLine (W : Type) `{IoBus W} := {
  sent_ : W -> list Z;
  waiting : W -> list Z;
  in_status : forall w, exists x, IO_In8 (UART0_BASE + 5) w = (w, x) /\ Z.testbit x 5 = true /\ Z.testbit x 0 = negb (bool_decide (waiting w = []));
  out_data : forall w ch, sent_ (IO_Out8 (UART0_BASE + 0) ch w) = sent_ w ++ [ch] /\ waiting (IO_Out8 (UART0_BASE + 0) ch w) = waiting w;
  in_char : forall w ch l, waiting w = ch :: l -> exists w', IO_In8 (UART0_BASE + 0) w = (w', ch) /\ waiting w' = l /\ sent_ w' = sent_ w
}.

Section serial.
Context {W : Type} `{SerialLine W}.
Implicit Types (w : W) (u : DirectUart).

Definition uart_set u : Prop := u_data u = UART0_BASE + 0 /\ lineStatus u = UART0_BASE + 5.

Lemma init_sets u w : uart_set (NX_HalDirectUartInit u w).1.
Proof. done. Qed.

Lemma send_one u ch w : uart_set u -> sent_ (UartSent u ch w) = sent_ w ++ [u8 ch] /\ waiting (UartSent u ch w) = waiting w.
Proof.
  intros [Hd Hl]. unfold UartSent. destruct (Z.to_nat 0x100000) as [|n]; cbn [wait_status]; rewrite Hl;
    destruct (in_status w) as (x & -> & Hx & _); unfold LINE_STATUS_EMPTY_TRANSMITTER_HOLDING;
    rewrite Z.shiftl_1_l, nz_bit, Hx, Hd by lia; apply out_data.
Qed.

(** A text goes out in its order, each end of a line as a return and a line feed. *)
Definition on_wire (text : list Z) : list Z := text ≫= fun ch => if ch =? 10 then [13; 10] else [u8 ch].

Theorem text_is_sent u text : forall w, uart_set u ->
  let w' := foldl (fun w ch => NX_HalDirectUartPutc u ch w) w text in
  sent_ w' = sent_ w ++ on_wire text /\ waiting w' = waiting w.
Proof.
  induction text as [|ch text IH]; intros w Hu; cbn [foldl on_wire mbind list_bind]; [by rewrite app_nil_r|].
  destruct (IH (NX_HalDirectUartPutc u ch w) Hu) as [-> ->]. unfold NX_HalDirectUartPutc.
  destruct (Z.eqb_spec ch 10) as [->|].
  - destruct (send_one u 13 w Hu) as [H1 H2], (send_one u 10 (UartSent u 13 w) Hu) as [-> ->]. by rewrite H1, H2, <- !app_assoc.
  - destruct (send_one u ch w Hu) as [-> ->]. by rewrite <- app_assoc.
Qed.

Lemma wait_empty u n : forall w, uart_set u -> waiting w = [] -> wait_status n u LINE_STATUS_DATA_READY w = (w, -1).
Proof.
  induction n as [|n IH]; intros w Hu Hw; cbn [wait_status]; rewrite (proj2 Hu);
    destruct (in_status w) as (x & -> & _ & Hx); rewrite bool_decide_eq_true_2 in Hx by done;
    change LINE_STATUS_DATA_READY with (2 ^ 0); rewrite nz_bit, Hx by lia; [done | by apply IH].
Qed.

(** The work of the interrupt hands on the first character that came, and nothing when
    none did: it gives up after the last turn. *)
Theorem uart_receives u receive w : uart_set u ->
  match waiting w with
  | [] => UartWorkHandler u receive w = w
  | ch :: l => 0 <= ch < 256 -> exists w', UartWorkHandler u receive w = receive ch w' /\ waiting w' = l /\ sent_ w' = sent_ w
  end.
Proof.
  intros Hu. unfold UartWorkHandler, NX_HalDirectUartGetc. destruct (waiting w) as [|ch l] eqn:Hw.
  - by rewrite wait_empty.
  - intros Hch. assert (wait_status (Z.to_nat 100000) u LINE_STATUS_DATA_READY w = (w, 100000)) as ->.
    { rewrite <- (Z2Nat.id 100000) at 2 by lia. destruct (Z.to_nat 100000) as [|n]; cbn [wait_status]; rewrite (proj2 Hu);
        destruct (in_status w) as (x & -> & _ & Hx); rewrite Hw in Hx; change LINE_STATUS_DATA_READY with (2 ^ 0); by rewrite nz_bit, Hx by lia. }
    change (100000 >? 0) with true. cbn iota. rewrite (proj1 Hu). destruct (in_char w ch l Hw) as (w' & -> & H1 & H2).
    rewrite (proj2 (Z.eqb_neq ch (-1))) by lia. cbn [negb]. by exists w'.
Qed.
End serial.

(** *** A line *)
Record Wire := mkWire { w_sent : list Z; w_in : list Z; w_out : list (Z * Z) }.   (* [w_out]: all that was written to ports *)
#[export] Instance wire_bus : IoBus Wire := {|
  IO_In8 port w :=
    if port =? UART0_BASE + 5 then (w, 32 + match w_in w with [] => 0 | _ => 1 end)
    else match w_in w with ch :: l => if port =? UART0_BASE + 0 then (mkWire (w_sent w) l (w_out w), ch) else (w, 0xff) | [] => (w, 0xff) end;
  IO_Out8 port x w := mkWire (if port =? UART0_BASE + 0 then w_sent w ++ [x] else w_sent w) (w_in w) (w_out w ++ [(port, x)])
|}.
#[export] Instance wire_line : SerialLine Wire.
Proof.
  refine (Build_SerialLine Wire _ w_sent w_in _ _ _).
  - intros w. exists (32 + match w_in w with [] => 0 | _ => 1 end). split; [done|]. by destruct (w_in w).
  - done.
  - intros w ch l Hw. cbn. rewrite Hw. by eexists.
Defined.

(** What the start writes, when the static structure is zero: the control of the queues
    of the chip, whose port is never set, goes to port 0. *)
Example fifo_goes_to_port_0 :
  w_out (NX_HalDirectUartInit (mkUart 0 0 0 0 0 0 0 0 0 0 0 0 0) (mkWire [] [] [])).2 =
    [(0x3FB, 0x80); (0x3F8, 1); (0x3F9, 0); (0x3FB, 3); (0x3F9, 0x25); (0, 0xE7); (0x3FC, 0x0B); (0x3FF, 0)].
Proof. vm_compute. reflexivity. Qed.

Example hello :
  let (u, w) := NX_HalDirectUartInit (mkUart 0 0 0 0 0 0 0 0 0 0 0 0 0) (mkWire [] [] []) in
  w_sent (foldl (fun w ch => NX_HalDirectUartPutc u ch w) (mkWire [] [] []) [72; 105; 10]) = [72; 105; 13; 10].
Proof. vm_compute. reflexivity. Qed.

(** ** What the boot loader said *)
Definition byte_memory (m : memory) : Prop := forall a, 0 <= m a < 2 ^ 8.

Lemma store32_bytes m a x : byte_memory m -> byte_memory (store32 m a x).
Proof. intros Hm b. rewrite store32_at. case_decide; [apply Z.mod_pos_bound; lia | apply Hm]. Qed.

Lemma load32_range m a : byte_memory m -> 0 <= load32 m a < 2 ^ 32.
Proof.
  intros Hm. unfold load32. pose proof (Hm a). pose proof (Hm (a + 1)). pose proof (Hm (a + 2)). pose proof (Hm (a + 3)). lia.
Qed.

Lemma load32_agree m m' a : (forall x, a <= x < a + 4 -> m' x = m x) -> load32 m' a = load32 m a.
Proof. intros Hx. unfold load32. by rewrite !Hx by lia. Qed.

Lemma text_agree m m' s : forall a, (forall x, a <= x <= a + length s -> m' x = m x) -> text_is m' a s = text_is m a s.
Proof.
  induction s as [|c s IH]; intros a Hx; cbn [text_is length] in *; rewrite (Hx a) by lia; [done|].
  rewrite (IH (a + 1)); [done|]. intros x Hr. apply Hx. lia.
Qed.

(** Where it is kept. *)
Definition boot_area (a : Z) : Prop :=
  GRUB2_READ_MEMORY_BYTES_ADDR <= a < GRUB2_READ_MEMORY_BYTES_ADDR + 4 \/ BOOT_INFO_ADDR <= a < BOOT_INFO_ADDR + 24.

(** The module and the size of the memory that were taken. *)
Record BootMod := mkBootMod { b_initrd : bool; b_size : Z; b_start : Z; b_end : Z }.
Record Boot := mkBoot { b_mod : option BootMod; b_mem : option Z }.

(** The first module whose tag is no larger than a megabyte is taken, and the last word
    on the memory. *)
Definition take_tag (m : memory) (tag : Z) (b : Boot) : Boot :=
  if load32 m tag =? MULTIBOOT_TAG_TYPE_MODULE then
    match b_mod b with
    | None =>
        if load32 m (tag_size tag) <=? MAX_BOOT_MODS_SIZE then
          mkBoot (Some (mkBootMod (CmdlineIs m tag initrd) (load32 m (tag_size tag)) (load32 m (tag_mod_start tag)) (load32 m (tag_mod_end tag)))) (b_mem b)
        else b
    | Some _ => b
    end
  else if load32 m tag =? MULTIBOOT_TAG_TYPE_BASIC_MEMINFO then
    mkBoot (b_mod b) (Some (u32 ((load32 m (tag_mem_upper tag) - load32 m (tag_mem_lower tag)) * 2 ^ 10 + 2 ^ 20)))
  else b.

(** [n] tags from [tag] on, before the last one, apart from what is written. *)
Fixpoint tags_at (m : memory) (tag : Z) (n : nat) : Prop :=
  (forall x, tag <= x < tag + 24 -> ~ boot_area x) /\
  match n with
  | O => load32 m tag = MULTIBOOT_TAG_TYPE_END
  | S n => load32 m tag <> MULTIBOOT_TAG_TYPE_END /\ tags_at m (tag + align8 (load32 m (tag_size tag))) n
  end.
Fixpoint take_tags (m : memory) (tag : Z) (n : nat) (b : Boot) : Boot :=
  match n with O => b | S n => take_tags m (tag + align8 (load32 m (tag_size tag))) n (take_tag m tag b) end.

(** The memory [m'] holds it, and is [m] elsewhere. *)
Record boot_holds (m m' : memory) (b : Boot) : Prop := {
  bh_bytes : byte_memory m';
  bh_agree : forall x, ~ boot_area x -> m' x = m x;
  bh_num : load32 m' modNum = match b_mod b with Some _ => 1 | None => 0 end;
  bh_size : load32 m' modSize = match b_mod b with Some md => b_size md | None => 0 end;
  bh_mod : forall md, b_mod b = Some md ->
    words_at m' (mod_type 0) [b2z (b_initrd md); b_size md; b_start md; b_end md];
  bh_mem : forall x, b_mem b = Some x -> load32 m' GRUB2_READ_MEMORY_BYTES_ADDR = x
}.

Lemma boot_word m m' b tag k : boot_holds m m' b -> (forall x, tag <= x < tag + 24 -> ~ boot_area x) -> 0 <= k <= 12 ->
  load32 m' (tag + k) = load32 m (tag + k).
Proof. intros B Ht Hk. apply load32_agree. intros x Hx. apply (bh_agree _ _ _ B), Ht. lia. Qed.

Lemma boot_text m m' b tag : boot_holds m m' b -> (forall x, tag <= x < tag + 24 -> ~ boot_area x) -> CmdlineIs m' tag initrd = CmdlineIs m tag initrd.
Proof.
  intros B Ht. apply text_agree. intros x Hx. change (Z.of_nat (length initrd)) with 6 in Hx. unfold tag_cmdline in Hx.
  apply (bh_agree _ _ _ B), Ht. lia.
Qed.

Lemma load_tag m a x tag k : (forall x, tag <= x < tag + 24 -> ~ boot_area x) -> (forall y, a <= y < a + 4 -> boot_area y) -> 0 <= k <= 12 ->
  load32 (store32 m a x) (tag + k) = load32 m (tag + k).
Proof.
  intros Ht Ha Hk. apply load32_agree. intros y Hy. apply store32_above. intros Hn. destruct (Ht y); [lia|]. by apply Ha.
Qed.

Ltac boot_cells := unfold modNum, modSize, mod_type, mod_size, mod_start, mod_end, GRUB2_READ_MEMORY_BYTES_ADDR, BOOT_INFO_ADDR in *.

(** Storing the six words of a module. *)
Lemma store_module m m' mem md : boot_holds m m' (mkBoot None mem) -> 0 <= b_size md < 2 ^ 32 -> 0 <= b_start md < 2 ^ 32 -> 0 <= b_end md < 2 ^ 32 ->
  boot_holds m
    (store32 (store32 (store32 (store32 (store32 (store32 m' (mod_size 0) (b_size md)) (mod_start 0) (b_start md)) (mod_end 0) (b_end md))
      (mod_type 0) (b2z (b_initrd md))) modSize (b_size md)) modNum 1) (mkBoot (Some md) mem).
Proof.
  intros B H1 H2 H3. assert (u32 (b2z (b_initrd md)) = b2z (b_initrd md)) as Hb by by destruct (b_initrd md).
  split; cbn [b_mod b_mem].
  - repeat apply store32_bytes. apply (bh_bytes _ _ _ B).
  - intros x Hx. unfold boot_area in Hx. boot_cells. rewrite !store32_above by lia. apply (bh_agree _ _ _ B). unfold boot_area. boot_cells. lia.
  - boot_cells. words. done.
  - boot_cells. words. by apply u32_small.
  - intros md' [= <-]. boot_cells. cbn [words_at]. split_and!; try done; words; try (by apply u32_small); by rewrite ?Hb.
  - intros x Hx. pose proof (bh_mem _ _ _ B x Hx) as Hm. boot_cells. words. done.
Qed.

Lemma BootModInit_spec m m' b tag : boot_holds m m' b -> byte_memory m -> (forall x, tag <= x < tag + 24 -> ~ boot_area x) ->
  load32 m tag = MULTIBOOT_TAG_TYPE_MODULE -> boot_holds m (BootModInit m' tag) (take_tag m tag b).
Proof.
  intros B Hby Ht Hty. unfold take_tag. rewrite Hty, Z.eqb_refl. unfold BootModInit.
  rewrite (bh_num _ _ _ B), (bh_size _ _ _ B). unfold tag_size, tag_mod_start, tag_mod_end. rewrite !(boot_word m m' b tag) by (done || lia).
  destruct b as [[md|] mem]; cbn [b_mod b_mem] in *; [done|]. change (0 >=? MAX_BOOT_MODS_NUM) with false. cbn [orb].
  pose proof (load32_range m (tag + 4) Hby). pose proof (load32_range m (tag + 8) Hby). pose proof (load32_range m (tag + 12) Hby).
  rewrite Z.add_0_l, u32_small, Z.gtb_ltb, Z.ltb_antisym by done. destruct (load32 m (tag + 4) <=? MAX_BOOT_MODS_SIZE); cbn [negb]; [|done].
  rewrite !(load_tag _ (mod_start 0)), !(load_tag _ (mod_size 0)) by (done || lia || (intros; unfold boot_area; boot_cells; lia)).
  rewrite !(boot_word m m' _ tag) by (done || lia).
  set (md := mkBootMod _ _ _ _).
  set (m1 := store32 (store32 (store32 m' _ _) _ _) _ _).
  assert (Hm1 : forall x, tag <= x < tag + 24 -> m1 x = m' x).
  { intros x Hx. pose proof (Ht x Hx) as Hn. unfold boot_area in Hn. unfold m1. boot_cells. by rewrite !store32_above by lia. }
  assert (CmdlineIs m1 tag initrd = b_initrd md) as ->.
  { cbn [b_initrd md]. rewrite <- (boot_text m m' (mkBoot None mem)) by done. apply text_agree.
    intros x Hx. change (Z.of_nat (length initrd)) with 6 in Hx. unfold tag_cmdline in Hx. apply Hm1. lia. }
  replace (if b_initrd md then store32 m1 (mod_type 0) BOOT_MOD_INITRD else store32 m1 (mod_type 0) BOOT_MOD_UNKNOWN)
    with (store32 m1 (mod_type 0) (b2z (b_initrd md))) by (by destruct (b_initrd md)).
  set (m2 := store32 m1 _ _).
  assert (load32 m2 modSize = 0 /\ load32 m2 (mod_size 0) = load32 m (tag + 4) /\ load32 m2 modNum = 0) as (-> & -> & E).
  { pose proof (bh_num _ _ _ B) as Hn0. pose proof (bh_size _ _ _ B) as Hs0. cbn in Hn0, Hs0.
    unfold m2, m1. boot_cells. split_and!; words; by rewrite ?u32_small. }
  rewrite load_store32_ne, E by (boot_cells; lia). rewrite Z.add_0_l. by apply (store_module m m' mem md).
Qed.

Lemma BootMemModInit_spec m m' b tag : boot_holds m m' b -> (forall x, tag <= x < tag + 24 -> ~ boot_area x) ->
  load32 m tag = MULTIBOOT_TAG_TYPE_BASIC_MEMINFO -> boot_holds m (BootMemModInit m' tag) (take_tag m tag b).
Proof.
  intros B Ht Hty. unfold take_tag. rewrite Hty. change (MULTIBOOT_TAG_TYPE_BASIC_MEMINFO =? MULTIBOOT_TAG_TYPE_MODULE) with false. rewrite Z.eqb_refl.
  unfold BootMemModInit, tag_mem_upper, tag_mem_lower. rewrite !(boot_word m m' b tag) by (done || lia). split; cbn [b_mod b_mem].
  - apply store32_bytes, (bh_bytes _ _ _ B).
  - intros x Hx. rewrite store32_above; [by apply (bh_agree _ _ _ B)|]. unfold boot_area in Hx. lia.
  - rewrite load_store32_ne by (boot_cells; lia). apply (bh_num _ _ _ B).
  - rewrite load_store32_ne by (boot_cells; lia). apply (bh_size _ _ _ B).
  - intros md Hmd. pose proof (bh_mod _ _ _ B md Hmd) as Hw. cbn [words_at] in *. rewrite !load_store32_ne by (boot_cells; lia). done.
  - intros x [= <-]. rewrite load_store32. unfold u32. rewrite Z.shiftl_mul_pow2 by lia. zlia.
Qed.

Lemma BootSetting_loop_spec m n : byte_memory m -> forall fuel m' tag b, (n < fuel)%nat -> tags_at m tag n -> boot_holds m m' b ->
  exists m'', BootSetting_loop fuel m' tag = Some m'' /\ boot_holds m m'' (take_tags m tag n b).
Proof.
  intros Hby. induction n as [|n IH]; intros [|fuel] m' tag b Hf Ht B; try lia; cbn [BootSetting_loop tags_at take_tags] in *;
    destruct Ht as [Ha Ht]; pose proof (boot_word m m' b tag 0 B Ha ltac:(lia)) as H0; rewrite Z.add_0_r in H0; rewrite H0.
  - rewrite Ht. by exists m'.
  - destruct Ht as [Hne Ht]. rewrite (proj2 (Z.eqb_neq _ _)) by done.
    set (m1 := if load32 m tag =? MULTIBOOT_TAG_TYPE_MODULE then BootModInit m' tag else _).
    assert (boot_holds m m1 (take_tag m tag b)) as B1.
    { unfold m1. destruct (Z.eqb_spec (load32 m tag) MULTIBOOT_TAG_TYPE_MODULE) as [E|E]; [by apply BootModInit_spec|].
      destruct (Z.eqb_spec (load32 m tag) MULTIBOOT_TAG_TYPE_BASIC_MEMINFO) as [E'|E']; [by apply BootMemModInit_spec|].
      unfold take_tag. by rewrite (proj2 (Z.eqb_neq _ _)), (proj2 (Z.eqb_neq _ _)) by done. }
    replace (load32 m1 (tag_size tag)) with (load32 m (tag_size tag)) by (symmetry; unfold tag_size; by apply (boot_word m m1 _ tag 4 B1)).
    apply IH; [lia | done..].
Qed.

(** The tags of the boot loader are read to their end, whatever kinds there are: the
    first module and the size of the memory are kept where the kernel looks for them,
    and nothing else is written; the kernel finds the initial archive exactly when the
    module that was kept is it. *)
Theorem boot_setting m addr n fuel : byte_memory m -> 0 <= addr < 2 ^ 32 -> addr mod 8 = 0 -> (n < fuel)%nat -> tags_at m (addr + 8) n ->
  exists m', NX_HalBootSetting fuel m MULTIBOOT2_BOOTLOADER_MAGIC addr = Some (m', 0) /\
    boot_holds m m' (take_tags m (addr + 8) n (mkBoot None None)) /\
    BootModInfoFind m' 0 BOOT_MOD_INITRD =
      match b_mod (take_tags m (addr + 8) n (mkBoot None None)) with Some md => if b_initrd md then b_start md else 0 | None => 0 end.
Proof.
  intros Hby Ha Hal Hf Ht. unfold NX_HalBootSetting. rewrite Z.eqb_refl.
  assert (nz (Z.land addr 7) = false) as -> by (change 7 with (2 ^ 3 - 1); rewrite low_bits by lia; change (2 ^ 3) with 8; by rewrite Hal). cbn [negb orb].
  assert (boot_holds m (BootModInfoInit m) (mkBoot None None)) as B0.
  { split; cbn [b_mod b_mem]; try done.
    - by repeat apply store32_bytes.
    - intros x Hx. unfold BootModInfoInit, boot_area in *. boot_cells. by rewrite !store32_above by lia. }
  destruct (BootSetting_loop_spec m n Hby fuel _ (addr + 8) _ Hf Ht B0) as (m' & -> & B). cbn [mbind option_bind].
  exists m'. split; [done|]. split; [done|]. unfold BootModInfoFind. rewrite Z.add_0_l, (bh_num _ _ _ B).
  destruct (b_mod _) as [md|] eqn:Hmd; [|done]. change (Z.to_nat 1) with 1%nat. cbn [BootModInfoFind_loop]. rewrite !Z.add_0_l.
  destruct (bh_mod _ _ _ B md Hmd) as (Hty & _ & Hst & _). rewrite Hty.
  replace (mod_type 0 + 4 + 4) with (mod_start 0) in Hst by done. rewrite Hst. by destruct (b_initrd md).
Qed.

(** *** A loader's information: the memory, and a module of two megabytes *)
Definition demo_tags : list Z :=
  concat (le_bytes 4 <$> [64; 0;  4; 16; 640; 523264;  3; 23; 0x200000; 0x400000]) ++ initrd ++ [0; 0] ++ concat (le_bytes 4 <$> [0; 8]).
Definition demo_info : memory := store_bytes (fun _ => 0) 0x10000 demo_tags.

Lemma demo_bytes : byte_memory demo_info.
Proof.
  intros a. unfold demo_info, store_bytes. destruct (zlookup demo_tags (a - 0x10000)) as [x|] eqn:E; cbn [default from_option id]; [|lia].
  apply zlookup_Some in E as [_ E]. assert (Forall (fun x => 0 <= x < 2 ^ 8) demo_tags) as Hf.
  { apply (bool_decide_unpack _). by vm_compute. }
  rewrite Forall_lookup in Hf. by eapply Hf.
Qed.

Lemma demo_tags_at : tags_at demo_info (0x10000 + 8) 2.
Proof.
  cbn [tags_at]. change (align8 (load32 demo_info (tag_size (0x10000 + 8)))) with 16.
  change (align8 (load32 demo_info (tag_size (0x10000 + 8 + 16)))) with 24. unfold boot_area. boot_cells.
  split_and!; try (intros x Hx; lia); by vm_compute.
Qed.

(** The module is found where it lies; the memory is counted 640 kilobytes short, and the
    size that is kept, and measured against the limit, is that of the tag, 23 bytes. *)
Example boot_demo :
  take_tags demo_info (0x10000 + 8) 2 (mkBoot None None) =
    mkBoot (Some (mkBootMod true 23 0x200000 0x400000)) (Some (512 * 2 ^ 20 - 640 * 2 ^ 10)).
Proof. vm_compute. reflexivity. Qed.

Lemma boot_setting_witness :
  exists m', NX_HalBootSetting 3 demo_info MULTIBOOT2_BOOTLOADER_MAGIC 0x10000 = Some (m', 0) /\ BootModInfoFind m' 0 BOOT_MOD_INITRD = 0x200000.
Proof.
  destruct (boot_setting demo_info 0x10000 2 3 demo_bytes ltac:(lia) eq_refl ltac:(lia) demo_tags_at) as (m' & Hrun & _ & Hfind).
  exists m'. split; [exact Hrun|]. rewrite boot_demo in Hfind. exact Hfind.
Defined.

(** A tag of size 0 is read for ever. *)
Lemma empty_tag_spins m tag fuel : (forall x, tag <= x < tag + 8 -> m x = if x =? tag then 1 else 0) -> BootSetting_loop fuel m tag = None.
Proof.
  intros Hm. induction fuel as [|fuel IH]; [done|]. cbn [BootSetting_loop].
  assert (load32 m tag = 1) as -> by (unfold load32; rewrite !Hm, Z.eqb_refl by lia; rewrite !(proj2 (Z.eqb_neq _ _)) by lia; done).
  change (1 =? MULTIBOOT_TAG_TYPE_END) with false. change (1 =? MULTIBOOT_TAG_TYPE_MODULE) with false.
  change (1 =? MULTIBOOT_TAG_TYPE_BASIC_MEMINFO) with false. cbn iota zeta.
  assert (load32 m (tag_size tag) = 0) as -> by (unfold load32, tag_size; rewrite !Hm by lia; rewrite !(proj2 (Z.eqb_neq _ _)) by lia; done).
  change (align8 0) with 0. by rewrite Z.add_0_r.
Qed.

(** ** The zones of memory *)

(** On a memory of at least 510 megabytes the three zones lie behind the kernel, side by
    side, the normal one within the space of the kernel; but the last one ends 16
    megabytes, what lies in front of the normal zone, behind the end of the memory. *)
Theorem pc_zones m memSize : load32 m GRUB2_READ_MEMORY_BYTES_ADDR = memSize -> MEM_MIN_SIZE <= memSize < 2 ^ 32 ->
  exists normalSize userBase userSize,
    PageZoneInit_zones m = Some ((MEM_DMA_BASE, MEM_DMA_SIZE), (MEM_NORMAL_BASE, normalSize), (userBase, userSize)) /\
    MEM_KERNEL_BASE + MEM_KERNEL_SZ = MEM_DMA_BASE /\ MEM_DMA_BASE + MEM_DMA_SIZE = MEM_NORMAL_BASE /\ MEM_NORMAL_BASE + normalSize = userBase /\
    0 < normalSize <= MEM_KERNEL_SPACE_SZ /\ normalSize <= userSize /\ userBase < memSize /\
    userBase + userSize = memSize + MEM_NORMAL_BASE.
Proof.
  intros Hm Hr. unfold PageZoneInit_zones. rewrite Hm.
  assert (MEM_MIN_SIZE = 510 * 2 ^ 20) as Hmin by done. assert (MEM_NORMAL_BASE = 2 ^ 24) as Hb by done.
  assert (MEM_KERNEL_SPACE_SZ = 2 ^ 29) as Hsp by done. assert (MEM_DMA_SIZE + MEM_KERNEL_SZ = 2 ^ 24) as Hk by done.
  rewrite (proj2 (Z.eqb_neq memSize 0)), (proj2 (Z.ltb_ge memSize MEM_MIN_SIZE)) by lia. cbn [negb assert mbind option_bind].
  set (normal := if _ >? _ then _ else _).
  assert (normal = Z.min ((memSize - 2 ^ 24) / 2) (2 ^ 29)) as Hn.
  { unfold normal. rewrite Hsp. replace (memSize - MEM_DMA_SIZE - MEM_KERNEL_SZ) with (memSize - 2 ^ 24) by lia.
    rewrite Z.gtb_ltb. destruct (Z.ltb_spec (2 ^ 29) ((memSize - 2 ^ 24) / 2)); lia. }
  eexists _, _, _. split; [reflexivity|]. split_and!; try done; rewrite ?Hb, ?Hsp, ?Hn; zlia.
Qed.

(** Of the variables that are to start as zero only the first quarter is cleared. *)
Theorem bss_cleared m BssStart BssEnd : BssStart <= BssEnd -> (BssEnd - BssStart) mod 4 = 0 ->
  let m' := NX_HalClearBSS m BssStart BssEnd in
  (forall a, BssStart <= a < BssStart + (BssEnd - BssStart) / 4 -> m' a = 0) /\
  (forall a, BssStart + (BssEnd - BssStart) / 4 <= a < BssEnd -> m' a = m a).
Proof.
  intros Hle Hal m'. unfold m', NX_HalClearBSS, NX_MemZero. split; intros a Ha.
  - by rewrite (proj2 (Z.leb_le BssStart a)), (proj2 (Z.ltb_lt a _)) by lia.
  - by rewrite (proj2 (Z.ltb_ge a _)), andb_false_r by lia.
Qed.
